(* ===== verification/_CoqProject ===== *)
-Q . S2P
Prelude.v
Bytes.v
StunCrc32.v
StunMessage.v
StunFacts.v
StunValidate.v
StunBuild.v
StunRoundtrip.v
StunHmac.v
StunAgent.v
StunAgentTrans.v
StunAuth.v
StunTimer.v
StunIce.v
StunIceFacts.v
StunTurn.v
StunTurnFacts.v
StunEnds.v
StateMonad.v
PseudoTcpFifo.v
PseudoTcp.v
PseudoTcpWire.v
PseudoTcpStates.v
PseudoTcpReceive.v
PseudoTcpSend.v
PseudoTcpHazards.v
NiceAddress.v
NiceCandidate.v
GSList.v
IceAgent.v
CheckList.v
CheckTick.v
CheckInbound.v
CheckDemo.v
CheckListFacts.v
CheckListInv.v
CheckListOps.v
GStr.v
AgentApi.v
Sdp.v
AgentApiInv.v
CheckHistory.v
CheckPrune.v
CheckReady.v
AgentRestart.v
CheckRole.v
CheckUnfreeze.v
SdpFacts.v
SdpDemo.v
NiceSocket.v
TcpBsd.v
TcpStream.v
TurnTcp.v
TurnTcpStream.v
PseudoSsl.v
Socks5.v
HttpProxy.v
HttpFacts.v
StunOctets.v
UdpTurn.v
UdpTurnBuild.v
UdpTurnInv.v
UdpTurnRuns.v
UdpTurnCalls.v
UdpTurnSend.v
UdpTurnRecv.v
UdpTurnDemo.v
UdpTurnFacts.v
UdpTurnData.v
UdpTurnQueue.v
StunBind.v
StunBindFacts.v
UdpBsd.v
UdpBsdFacts.v
TcpOpen.v
TcpPassiveFacts.v
TurnRefresh.v
TurnRefreshFacts.v
IoQueue.v
IoQueueFacts.v
