(* ===== verification/Prelude.v ===== *)
(** * libnice: a verification library

    The subject is libnice (src/libnice): an ICE agent (RFC 5245) with its STUN
    library, its pseudo-TCP transport and its stack of sockets.  A datagram that
    reaches a socket of the agent is first looked at as a STUN message; requests
    and responses of connectivity checks go to the check lists, which pair local
    with remote candidates, schedule and retransmit checks, resolve role
    conflicts, nominate pairs and move every component from DISCONNECTED to READY
    or FAILED; other data goes to the application, through a pseudo-TCP socket
    when the agent is reliable.  Sockets are stacked: a TURN socket sends through
    a server over a datagram socket, or over the framing socket on a TCP
    connection, which a SOCKS5, HTTP or pseudo-SSL socket may have opened.

    ** Files, in the order of dependency

    - Prelude: this header, the outcome monad, machine words, record setters,
      tactics and hint databases.  Bytes: byte memory and the integer encodings.
    - STUN messages (stun/stunmessage.c, utils.c, stun5389.c, stuncrc32.c):
      StunCrc32 (the table-driven CRC against the bitwise one), StunMessage (the
      operations), StunFacts (the abstract view: a header and a list of
      attributes), StunValidate (what the validity check accepts, and searches),
      StunBuild, StunRoundtrip.
    - STUN agent (stun/stunagent.c, stunhmac.c): StunHmac, StunAgent (the
      operations), StunAgentTrans (the table of saved transactions, and the
      bag of open transactions it implements), StunAuth (message integrity, from signing to checking).
    - STUN usages (stun/usages): StunTimer (timer.c), StunIce and StunIceFacts
      (ice.c), StunTurn and StunTurnFacts (turn.c).  StunEnds: every operation on
      a message ends.  StunOctets: messages are built of octets.
    - Pseudo-TCP (agent/pseudotcp.c): StateMonad (state passing with outcomes, a
      weakest precondition, a frame judgement, runs that end, and runs that are
      safe), PseudoTcpFifo (the byte ring), PseudoTcp (the whole socket,
      and concrete ones), and the facts: PseudoTcpWire,
      PseudoTcpStates, PseudoTcpReceive, PseudoTcpSend, PseudoTcpHazards.
    - Addresses and candidates: NiceAddress (agent/address.c), NiceCandidate
      (agent/candidate.c).
    - The ICE agent: GSList (the GLib list operations the code sorts with),
      IceAgent (the state of agent-priv.h, stream.h, component.h, conncheck.h and
      the lookups), CheckList (forming, freezing, limiting, pruning and nominating
      pairs, the state of a component), CheckTick (the timer callback of the
      checks), CheckInbound (triggered checks, peer reflexive candidates, the
      processing of a validated request or response), CheckDemo (a small agent to
      run), and the facts: CheckListFacts, CheckListInv and CheckListOps (the
      invariant of the check lists), CheckHistory (the entry points as the steps
      of a transition system), CheckPrune, CheckReady, CheckRole, CheckUnfreeze.
    - The calls of an application (agent/agent.c, stream.c, component.c,
      random/random.c): GStr (the GLib string functions used, gstrfuncs.c),
      AgentApi (remote candidates, credentials, restarts, the selected pair, the
      end of gathering, names), AgentApiInv (they keep the invariant of the check
      lists), AgentRestart (an ICE restart); Sdp (generating and parsing
      descriptions), SdpFacts, SdpDemo.
    - TURN allocations of the agent (agent/discovery.c, conncheck.c): TurnRefresh
      (the refreshes, their sources in the main loop, and the prunes that release
      them) and TurnRefreshFacts.
    - Sockets: NiceSocket (socket/socket.c: the vectored messages, the interface
      of a socket as a class, the send queue), TcpBsd (tcp-bsd.c) and TcpStream
      (a connection carries its octets in order, and what the proxy sockets share
      for that), TurnTcp (udp-turn-over-tcp.c)
      and TurnTcpStream (reassembly of its frames), PseudoSsl (pseudossl.c), Socks5 (socks5.c), HttpProxy
      (http.c) and HttpFacts.
    - TURN (socket/udp-turn.c): UdpTurn (the socket: its state, calls and
      timeouts), UdpTurnBuild (what its requests carry), UdpTurnInv (the
      invariant), UdpTurnRuns, UdpTurnCalls, UdpTurnSend and UdpTurnRecv (every
      operation ends and keeps it), UdpTurnDemo (a socket to run), UdpTurnFacts
      (what follows for every run), UdpTurnData (channel data), UdpTurnQueue
      (data that wait for a permission, and where the socket falls short).
    - Binding discovery (stun/usages/bind.c): StunBind (the messages, the
      transport, the blocking run) and StunBindFacts.
    - Sockets of the operating system: UdpBsd (udp-bsd.c, and the conversions of
      socket addresses of GLib) and UdpBsdFacts; TcpOpen (opening a connection,
      tcp-bsd.c and tcp-active.c; a listener and the connections it accepted,
      tcp-passive.c, in stores indexed by address) and TcpPassiveFacts.
    - Received messages (agent/component.c, agent.c): IoQueue (the queue of a
      component, the source that empties it, attaching a function, and receiving
      what is queued) and IoQueueFacts.

    ** How the code is embedded

    A C function is a function of its name into [outcome]: [Done] its result,
    [Ub] an access outside an object, through a freed or NULL pointer, or a
    failed assertion, [Oof] the fuel of a loop that ran out.  Objects a function
    mutates are passed and returned; where many are (the pseudo-TCP socket, the
    agent, the sockets) the function is a computation of StateMonad.  Memory is a
    list of octets with loads and stores that are [Ub] outside it; pointers into
    it are offsets.  Objects the code shares by pointer (the segments of a
    pseudo-TCP socket; the candidates, pairs and transactions of an agent) live
    in stores indexed by address: freeing removes the entry.  Integers are [Z]
    wrapped at the width of the C type where they are stored ([u8], [u16], [u32],
    [s32], [u64]).  Where a function of the application is called with all locks
    released the code is cut in two there, and histories are lists of events.  Effects outside a model are entries of a log, the newest
    first: [trace] for the callbacks of a pseudo-TCP socket, [actions] of an agent
    for packets sent, signals, timers, and calls into the keepalive and TURN code.

    A socket is an instance of the class [NiceSocket] for the type of its state;
    a socket on top of another takes the base as an argument of that class and
    keeps its state ([None] once it is freed), so stacks are instances built on
    instances.  The timeouts of a TURN socket are the list [sources] of those
    attached to the main context, by number; [dispatch] runs one.

    Code that is not in the repository is a parameter: HMAC-SHA1 and MD5 (class
    [Crypto], with the length of a digest as the only law), the clock, the
    allocator and [WritePacket] of a pseudo-TCP socket ([Env], [SliceAlloc]), the
    resolver ([Resolver]), the operating system's interfaces ([Interfaces]); for
    the check lists the random numbers, the packets' outcome and the addresses of
    new objects ([AgentEnv]), random draws within their bounds ([BoundedRng]),
    the writing and reading of numeric hosts ([NumericHosts]); for binding
    discovery the operating system, over the states of the world ([BindOs]); for
    the sockets the sockets of the operating system
    ([GSocket], with its laws [GSocketLaws] and [GSocketBlocks];
    [GDatagramSocket], with [GDatagramLaws]; [GStreamSocket], which connects,
    listens and accepts), what fresh memory holds ([Malloc]), and the stack
    ([StackJunk]), base64 ([Base64]) and the random transaction
    identifiers of TURN requests ([TurnEnv]).  Contracts between sockets are
    classes too: [StreamSocket] (a socket that carries a stream), [EndingSocket]
    (one whose calls end), [Datagram] (one that takes every datagram).

    ** Fuel

    Loops over a list are structural recursions.  The others have fuel, and a
    theorem that it is enough: the attribute searches (the length of the
    message), [carry_loop] (the seconds to carry), the table walk of the CRC;
    [attempt_send] (the unsent segments plus two), [transmit] (the number of
    entries of PACKET_MAXIMUMS), the walks over a list whose body frees nodes (the
    length of the list, since the bodies only free), the loop that makes a
    priority unique (the number of candidates plus one), the merge sort (the
    length of the list), the retries of the HTTP parser (the octets in its ring
    plus four).  A TURN timer tick calls itself through the requests it sends:
    [tick_fuel] is 12, and 8 suffice, since a request is sent again at most seven
    times before it is given up; the loop over the permission requests has 10
    rounds for each, by the same bound ([permissions_fuel]).  The run of binding
    discovery may wait for ever when datagrams keep arriving; 16 rounds are
    enough when none does.

    ** What the theorems show

    - STUN messages: the validity check accepts exactly the well-formed messages,
      in one buffer or several; building refines appending to a list of
      attributes; a search on an accepted message stays in it and finds what the
      list holds; typed round trips; the CRC is the one of its polynomial.
    - STUN agent: a response is accepted at most once, for a saved transaction of
      its method; the table of transactions implements a bag of at most 200; what
      an agent signs with a short-term key a peer of the same configuration
      accepts, and a request accepted under a password carries its digest and an
      approved username.
    - Timers: the schedule of RFC 5389, its total, and that a timer gives up.
    - Connectivity checks: a role conflict is resolved consistently; the reply
      carries the source of the request (RFC 5245 mode, short-term credentials).
    - TURN requests carry exactly the attributes their arguments ask for; their
      answers are read as the mode prescribes.
    - Pseudo-TCP: the octets read are the octets the peer wrote, in order and
      once, whatever the segmentation, reordering and repetition and whatever
      calls are made in between, until a segment is taken for the peer's FIN; the
      state
      machine is that of RFC 793; sending ends and takes what fits; headers and
      options round trip; which inputs take the socket outside its contract.
    - Addresses and candidates: equality, the private ranges, the bit fields of a
      priority, pair priorities.
    - Check lists: in every history the lists are sorted, without duplicates and
      without dangling pairs; the limit keeps the pairs of the highest priority;
      a role change reorders them; unfreezing a Frozen list picks, for each
      foundation, the pair RFC 5245 picks, as long as the priorities of its pairs
      follow their components; pruning frees exactly what it should; a component with a
      nominated pair becomes READY exactly when no better check is in progress.
      The histories include the calls of the application and parsed descriptions.
    - The application's calls: what one agent describes is what its peer hears
      when it parses the description; an ICE restart frees exactly the pairs and
      remote candidates the stream no longer holds, and renews the credentials.
    - TURN allocations: every prune of refreshes is answered once, after the last
      refresh it waits for is gone; no source runs on a freed refresh; and the
      runs in which a prune waits for ever, or does not wait.
    - Binding discovery: whatever the operating system does, a run has no
      undefined behaviour, closes every socket it opened, sends nothing but its
      request and believes only an answer to it; over a silent network it sends
      seven times and gives up after 15.8 seconds.
    - Sockets: a TCP connection carries what was sent in order over partial sends
      and the queue, when messages are safe to cut; frames of TURN over TCP come out as they went in, however the
      stream is cut; no data pass a proxy socket before its handshake is done, and
      what was queued goes first; the HTTP parser stays in its buffer and ends.
    - UDP sockets: the socket address kept for the last peer is never stale; a
      TURN socket over one ends.  A passive TCP socket, as long as its live
      connections have different peers and it is closed after them, sends to the
      connection of the peer and to nothing else, and no connection touches what
      was closed; two histories show what happens otherwise.
    - Received messages: as long as nothing receives, or runs another source of the
      component, while its function runs, the component is not removed, and its
      context does not change under a scheduled source, what entered the queue is
      handed over once and in order, no freed message is touched, and a source is
      there to do it; a receive with messages queued returns only when they have
      the sizes of its buffers (a lemma: the documentation promises more); the
      histories in which messages are repeated, overtaken or
      freed twice, and sources of others removed.
    - TURN sockets, in the RFC 5766 and draft modes, for any base socket whose
      calls end and peers without a scope identifier ([peer_ok]), with a user name
      of at most 60000 octets: every call and timeout ends, in every state calls
      and timeouts lead to; the channels and the permissions asked for stay
      consistent; closing leaves no timeout behind; data wait for the permission
      of their peer and leave in order; channel data round trip.  The older modes
      are modelled, without theorems about whole runs.

    Lemmas whose comments say so are about inputs on which the code falls short;
    they are what a caller has to avoid.

    ** Not modelled

    Keepalives, the requests for TURN allocations by the agent, the validation
    callback and the compatibility keys of MSN and OC2007 of the inbound handler,
    renomination, gathering and the discovery of host, server reflexive and
    relayed candidates, reading the sockets of a component, and the GObject
    plumbing of the agent.  The repository also holds C++ conference servers and
    clients, sample programs and vendored libraries; none of it is modelled.

    ** Plan

    The discovery of candidates, the rest of the inbound handler and the
    keepalives. *)

From stdpp Require Export base list option numbers relations.
From Stdlib Require Export ZArith Lia.

#[global] Open Scope Z_scope.

(** ** Outcomes of C code

    [Done a]: the code returned [a].
    [Ub]: the code performed an access outside an object it was given, used a
    freed object, or failed an assertion.
    [Oof]: the fuel of a loop was exhausted; every looping operation has a
    theorem that this does not happen. *)
Inductive outcome (A : Type) : Type :=
| Done (a : A)
| Ub
| Oof.
Arguments Done {A} a.
Arguments Ub {A}.
Arguments Oof {A}.

#[export] Instance outcome_ret : MRet outcome := @Done.
#[export] Instance outcome_bind : MBind outcome := λ A B f m,
  match m with Done a => f a | Ub => Ub | Oof => Oof end.
#[export] Instance outcome_eq_dec `{EqDecision A} : EqDecision (outcome A).
Proof. solve_decision. Defined.

(** An assertion of the source: failing it aborts the process. *)
Definition assert_ (b : bool) : outcome unit := if b then Done tt else Ub.

Definition is_done {A} (m : outcome A) : Prop := ∃ a, m = Done a.

(** [&&] and [||] of conditions that read memory: the right operand is only
    evaluated when the left one does not decide. *)
Definition and_then (a b : outcome bool) : outcome bool :=
  a ≫= λ x : bool, if x then b else Done false.
Definition or_else (a b : outcome bool) : outcome bool :=
  a ≫= λ x : bool, if x then Done true else b.
Declare Scope cond_scope.
Delimit Scope cond_scope with cond.
Notation "a &&& b" := (and_then a b) (at level 40, left associativity) : cond_scope.
Notation "a ||| b" := (or_else a b) (at level 50, left associativity) : cond_scope.
#[global] Open Scope cond_scope.

Lemma bind_Done {A B} (a : A) (f : A → outcome B) : (Done a ≫= f) = f a.
Proof. reflexivity. Qed.

Lemma bind_inv {A B} (m : outcome A) (f : A → outcome B) (b : B) :
  (m ≫= f) = Done b → ∃ a, m = Done a ∧ f a = Done b.
Proof. destruct m; cbn; try discriminate. eauto. Qed.

Lemma bind_is_done {A B} (m : outcome A) (f : A → outcome B) :
  is_done m → (∀ a, m = Done a → is_done (f a)) → is_done (m ≫= f).
Proof. intros [a ->] H. cbn. auto. Qed.

Lemma bind_Done_r {A} (m : outcome A) : (m ≫= Done) = m.
Proof. by destruct m. Qed.

Lemma bind_assoc {A B C} (m : outcome A) (f : A → outcome B) (g : B → outcome C) :
  ((m ≫= f) ≫= g) = (m ≫= (λ a, f a ≫= g)).
Proof. by destruct m. Qed.

(** ** Tactics *)

(** Split a hypothesis [m ≫= f = Done b] into the run of [m] and of [f]. *)
Ltac inv_bind :=
  repeat match goal with
  | H : (_ ≫= _) = Done _ |- _ =>
      let a := fresh "a" in let H1 := fresh "Hm" in
      apply bind_inv in H as (a & H1 & H)
  | H : Done _ = Done _ |- _ => injection H as H; try subst
  | H : mret _ = Done _ |- _ => injection H as H; try subst
  | H : Ub = Done _ |- _ => discriminate H
  | H : Oof = Done _ |- _ => discriminate H
  end.

(** Case analysis on the outermost [match] of the run in [H]. *)
Ltac break_in H :=
  lazymatch type of H with
  | (match ?x with _ => _ end) = _ => first [is_var x; destruct x | destruct x eqn:?]
  end; inv_bind.

(** Case analysis on every boolean comparison of the goal or of [H]. *)
Ltac zcase :=
  repeat match goal with
  | |- context [?a =? ?b] => destruct (Z.eqb_spec a b)
  | |- context [?a <? ?b] => destruct (Z.ltb_spec a b)
  | |- context [?a <=? ?b] => destruct (Z.leb_spec a b)
  end.
Ltac zcase_in H :=
  repeat match type of H with
  | context [?a =? ?b] => destruct (Z.eqb_spec a b)
  | context [?a <? ?b] => destruct (Z.ltb_spec a b)
  | context [?a <=? ?b] => destruct (Z.leb_spec a b)
  end.

(** Evaluate a decidable closed proposition. *)
Ltac by_compute := apply (bool_decide_unpack _); vm_compute; exact I.

(** Linear arithmetic with division and remainder by numerals. *)
Ltac zlia := Z.div_mod_to_equations; lia.

Lemma fold_left_cons {A B} (f : A → B → A) b l a :
  fold_left f (b :: l) a = fold_left f l (f a b).
Proof. reflexivity. Qed.

(** ** Machine words *)

Definition u8 (z : Z) : Z := z mod 2 ^ 8.
Definition u16 (z : Z) : Z := z mod 2 ^ 16.
Definition u32 (z : Z) : Z := z mod 2 ^ 32.
Definition u64 (z : Z) : Z := z mod 2 ^ 64.
(** Two's complement reading of a 32-bit word. *)
Definition s32 (z : Z) : Z := (z + 2 ^ 31) mod 2 ^ 32 - 2 ^ 31.

Definition is_u8 (z : Z) : Prop := 0 ≤ z < 2 ^ 8.
Definition is_u16 (z : Z) : Prop := 0 ≤ z < 2 ^ 16.
Definition is_u32 (z : Z) : Prop := 0 ≤ z < 2 ^ 32.
Definition is_u64 (z : Z) : Prop := 0 ≤ z < 2 ^ 64.

Lemma u8_range z : is_u8 (u8 z).
Proof. apply Z.mod_pos_bound; lia. Qed.
Lemma u16_range z : is_u16 (u16 z).
Proof. apply Z.mod_pos_bound; lia. Qed.
Lemma u32_range z : is_u32 (u32 z).
Proof. apply Z.mod_pos_bound; lia. Qed.
Lemma u64_range z : is_u64 (u64 z).
Proof. apply Z.mod_pos_bound; lia. Qed.
Lemma u8_small z : is_u8 z → u8 z = z.
Proof. apply Z.mod_small. Qed.
Lemma u16_small z : is_u16 z → u16 z = z.
Proof. apply Z.mod_small. Qed.
Lemma u32_small z : is_u32 z → u32 z = z.
Proof. apply Z.mod_small. Qed.
Lemma u64_small z : is_u64 z → u64 z = z.
Proof. apply Z.mod_small. Qed.

#[export] Instance is_u8_dec z : Decision (is_u8 z).
Proof. unfold is_u8. apply _. Defined.
#[export] Instance is_u16_dec z : Decision (is_u16 z).
Proof. unfold is_u16. apply _. Defined.
#[export] Instance is_u32_dec z : Decision (is_u32 z).
Proof. unfold is_u32. apply _. Defined.

Create HintDb words discriminated.
#[export] Hint Resolve u8_range u16_range u32_range u64_range : words.

(** [flag v m]: the C condition [v & m]. *)
Definition flag (v m : Z) : bool := negb (Z.land v m =? 0).

(** ** Record update

    [r <| f := v |>] assigns a field.  A record declares its eta expansion
    once; a setter instance is derived per assigned field. *)
Class Setter {R E : Type} (proj : R → E) : Type := set_field : (E → E) → R → R.
Arguments set_field {R E} proj {Setter} g r.

Ltac derive_setter eta proj :=
  let body := eval unfold eta in eta in
  lazymatch eval pattern proj in body with
  | ?f _ => let t := eval cbv beta in (λ g r, f (λ y, g (proj y)) r) in exact t
  end.

Declare Scope record_scope.
Delimit Scope record_scope with rec.
Notation "r <| f := v |>" := (set_field f (λ _, v) r)
  (at level 1, f at level 99, v at level 200, left associativity, format "r  <| f  :=  v |>") : record_scope.
#[global] Open Scope record_scope.
