(* ===== verification/Bytes.v ===== *)
(** * Byte memory

    C objects of type [uint8_t[]] as lists of octets, with loads and stores
    that are undefined outside the object, and the two integer encodings the
    code uses: the in-memory little-endian one of the host (loads through
    [memcpy] into a [uint32_t]) and the big-endian one of the wire. *)

From S2P Require Import Prelude.

Abbreviation bytes := (list Z) (only parsing).

Definition bytes_ok (m : bytes) : Prop := Forall is_u8 m.
#[export] Instance bytes_ok_dec m : Decision (bytes_ok m).
Proof. unfold bytes_ok. apply _. Defined.

Definition zlen {A} (m : list A) : Z := Z.of_nat (length m).

Lemma zlen_nonneg {A} (m : list A) : 0 ≤ zlen m.
Proof. unfold zlen; lia. Qed.
Lemma zlen_nil {A} : zlen (@nil A) = 0.
Proof. reflexivity. Qed.
Lemma zlen_cons {A} (x : A) m : zlen (x :: m) = 1 + zlen m.
Proof. unfold zlen; cbn [length]; lia. Qed.
Lemma zlen_app {A} (m1 m2 : list A) : zlen (m1 ++ m2) = zlen m1 + zlen m2.
Proof. unfold zlen; rewrite length_app; lia. Qed.
Lemma zlen_replicate {A} n (x : A) : zlen (replicate n x) = Z.of_nat n.
Proof. unfold zlen; by rewrite length_replicate. Qed.
Lemma zlen_0_inv {A} (m : list A) : zlen m = 0 → m = [].
Proof. destruct m; [done | rewrite zlen_cons; pose proof (zlen_nonneg m); lia]. Qed.
Lemma zlen_take {A} (m : list A) n : 0 ≤ n ≤ zlen m → zlen (take (Z.to_nat n) m) = n.
Proof. unfold zlen; rewrite length_take; lia. Qed.
Lemma zlen_drop {A} (m : list A) n : 0 ≤ n ≤ zlen m → zlen (drop (Z.to_nat n) m) = zlen m - n.
Proof. unfold zlen; rewrite length_drop; lia. Qed.

Create Rewrite HintDb zlen.
#[export] Hint Rewrite @zlen_nil @zlen_cons @zlen_app @zlen_replicate : zlen.

(** Arithmetic about lengths of concatenations. *)
Ltac zlen_pos :=
  repeat match goal with
  | |- context [zlen ?m] =>
      lazymatch goal with
      | _ : 0 ≤ zlen m |- _ => fail
      | _ => pose proof (zlen_nonneg m)
      end
  | _ : context [zlen ?m] |- _ =>
      lazymatch goal with
      | _ : 0 ≤ zlen m |- _ => fail
      | _ => pose proof (zlen_nonneg m)
      end
  end.
Ltac zlen_simpl := autorewrite with zlen in *.
Ltac slia := zlen_simpl; zlen_pos; lia.

Lemma split_at {A} (m : list A) n :
  0 ≤ n ≤ zlen m → ∃ a b, m = a ++ b ∧ zlen a = n.
Proof.
  intros H. exists (take (Z.to_nat n) m), (drop (Z.to_nat n) m).
  rewrite take_drop. split; [done | by apply zlen_take].
Qed.

Lemma app_inj_zlen {A} (a b c d : list A) :
  a ++ b = c ++ d → zlen a = zlen c → a = c ∧ b = d.
Proof. intros H Hl. apply app_inj_1; [unfold zlen in Hl; lia | done]. Qed.

Lemma bytes_ok_app m1 m2 : bytes_ok (m1 ++ m2) ↔ bytes_ok m1 ∧ bytes_ok m2.
Proof. apply Forall_app. Qed.

(** ** Loads and stores *)

(** [m[i]] *)
Definition getb (m : bytes) (i : Z) : outcome Z :=
  if i <? 0 then Ub
  else match m !! Z.to_nat i with Some b => Done b | None => Ub end.

(** [memcpy] of [n] octets from [m + i]. *)
Definition slice {A} (m : list A) (i n : Z) : outcome (list A) :=
  if (0 <=? i) && (0 <=? n) && (i + n <=? zlen m)
  then Done (take (Z.to_nat n) (drop (Z.to_nat i) m)) else Ub.

(** [memcpy] of [bs] to [m + i]. *)
Definition store {A} (m : list A) (i : Z) (bs : list A) : outcome (list A) :=
  if (0 <=? i) && (i + zlen bs <=? zlen m)
  then Done (take (Z.to_nat i) m ++ bs ++ drop (Z.to_nat (i + zlen bs)) m) else Ub.

Lemma getb_app a x b i : i = zlen a → getb (a ++ x :: b) i = Done x.
Proof.
  intros ->. unfold getb. pose proof (zlen_nonneg a).
  destruct (Z.ltb_spec (zlen a) 0); [lia |].
  unfold zlen. rewrite Nat2Z.id, lookup_app_r, Nat.sub_diag by lia. done.
Qed.

Lemma getb_0 x m : getb (x :: m) 0 = Done x.
Proof. reflexivity. Qed.

Lemma getb_in m i : 0 ≤ i < zlen m → ∃ x, getb m i = Done x ∧ m !! Z.to_nat i = Some x.
Proof.
  intros H. unfold getb. destruct (Z.ltb_spec i 0); [lia |].
  destruct (lookup_lt_is_Some_2 m (Z.to_nat i)) as [x Hx]; [unfold zlen in H; lia |].
  rewrite Hx. eauto.
Qed.

Lemma getb_out m i : ¬ (0 ≤ i < zlen m) → getb m i = Ub.
Proof.
  intros H. unfold getb. destruct (Z.ltb_spec i 0); [done |].
  rewrite lookup_ge_None_2; [done | unfold zlen in H; lia].
Qed.

Lemma getb_inv m i x : getb m i = Done x → 0 ≤ i < zlen m ∧ m !! Z.to_nat i = Some x.
Proof.
  intros H. destruct (decide (0 ≤ i < zlen m)) as [Hi | Hi].
  - destruct (getb_in m i Hi) as (y & Hy & ?). rewrite Hy in H. by simplify_eq.
  - by rewrite getb_out in H.
Qed.

Lemma getb_u8 m i x : bytes_ok m → getb m i = Done x → is_u8 x.
Proof. intros Hm [_ H]%getb_inv. by eapply Forall_lookup_1. Qed.

Lemma slice_app {A} (a b c : list A) i n :
  i = zlen a → n = zlen b → slice (a ++ b ++ c) i n = Done b.
Proof.
  intros -> ->. unfold slice.
  replace ((0 <=? zlen a) && (0 <=? zlen b) && _)%bool with true by
    (symmetry; rewrite !andb_true_iff, !Z.leb_le; slia).
  unfold zlen. by rewrite !Nat2Z.id, drop_app_length, take_app_length.
Qed.

Lemma slice_inv {A} (m : list A) i n r :
  slice m i n = Done r →
  ∃ a c, m = a ++ r ++ c ∧ zlen a = i ∧ zlen r = n.
Proof.
  unfold slice. destruct (_ && _)%bool eqn:E; [| done]. intros [= <-].
  rewrite !andb_true_iff, !Z.leb_le in E. destruct E as [[Hi Hn] Hl].
  exists (take (Z.to_nat i) m), (drop (Z.to_nat n) (drop (Z.to_nat i) m)).
  rewrite !take_drop. rewrite !zlen_take; [done | | lia]. rewrite zlen_drop; lia.
Qed.

Lemma slice_in {A} (m : list A) i n :
  0 ≤ i → 0 ≤ n → i + n ≤ zlen m → ∃ r, slice m i n = Done r ∧ zlen r = n.
Proof.
  intros. unfold slice.
  replace ((0 <=? i) && _ && _)%bool with true by
    (symmetry; rewrite !andb_true_iff, !Z.leb_le; lia).
  eexists; split; [done |]. rewrite zlen_take; [done | rewrite zlen_drop; lia].
Qed.

Lemma slice_out {A} (m : list A) i n : zlen m < i + n → slice m i n = Ub.
Proof.
  intros. unfold slice. destruct (Z.leb_spec (i + n) (zlen m)); [lia |].
  by rewrite andb_false_r.
Qed.

Lemma store_app {A} (a b c b' : list A) i :
  i = zlen a → zlen b' = zlen b → store (a ++ b ++ c) i b' = Done (a ++ b' ++ c).
Proof.
  intros -> Hl. unfold store.
  replace ((0 <=? zlen a) && _)%bool with true by
    (symmetry; rewrite !andb_true_iff, !Z.leb_le; slia).
  rewrite (take_app_length' a), (app_assoc a b c), (drop_app_length' (a ++ b)); [done | |];
    rewrite ?length_app; unfold zlen in *; lia.
Qed.

Lemma store_nil {A} (m : list A) i : 0 ≤ i ≤ zlen m → store m i [] = Done m.
Proof.
  intros H. destruct (split_at m i H) as (a & b & -> & Ha).
  by apply (store_app a [] b []).
Qed.

Lemma store_out {A} (m : list A) i b : zlen m < i + zlen b → store m i b = Ub.
Proof.
  intros. unfold store. destruct (Z.leb_spec (i + zlen b) (zlen m)); [lia |].
  by rewrite andb_false_r.
Qed.

Lemma store_inv {A} (m : list A) i b r :
  store m i b = Done r →
  ∃ a b0 c, m = a ++ b0 ++ c ∧ r = a ++ b ++ c ∧ zlen a = i ∧ zlen b0 = zlen b.
Proof.
  unfold store. destruct (_ && _)%bool eqn:E; [| done]. intros [= <-].
  rewrite !andb_true_iff, !Z.leb_le in E. destruct E as [Hi Hl]. zlen_pos.
  exists (take (Z.to_nat i) m), (take (Z.to_nat (zlen b)) (drop (Z.to_nat i) m)),
    (drop (Z.to_nat (i + zlen b)) m).
  replace (Z.to_nat (i + zlen b)) with (Z.to_nat i + Z.to_nat (zlen b))%nat by lia.
  rewrite <- drop_drop, !take_drop, !zlen_take; [done | | lia]. rewrite zlen_drop; lia.
Qed.

Lemma store_length {A} (m : list A) i b r : store m i b = Done r → zlen r = zlen m.
Proof. intros (a & b0 & c & -> & -> & ? & ?)%store_inv. slia. Qed.

Lemma store_bytes_ok m i b r :
  store m i b = Done r → bytes_ok m → bytes_ok b → bytes_ok r.
Proof.
  intros (a & b0 & c & -> & -> & ? & ?)%store_inv. rewrite !bytes_ok_app. tauto.
Qed.

(** ** Integer encodings *)

(** [le n v]: the [n] octets of [v] in host (little-endian) memory order. *)
Fixpoint le (n : nat) (v : Z) : bytes :=
  match n with O => [] | S n => u8 v :: le n (v / 2 ^ 8) end.
Fixpoint of_le (m : bytes) : Z :=
  match m with [] => 0 | b :: m => b + 2 ^ 8 * of_le m end.
(** Network byte order. *)
Definition be (n : nat) (v : Z) : bytes := reverse (le n v).
Definition of_be (m : bytes) : Z := of_le (reverse m).

Lemma length_le n v : length (le n v) = n.
Proof. revert v; induction n as [| n IH]; intros v; cbn; [done | by rewrite IH]. Qed.
Lemma zlen_le n v : zlen (le n v) = Z.of_nat n.
Proof. unfold zlen; by rewrite length_le. Qed.
Lemma zlen_be n v : zlen (be n v) = Z.of_nat n.
Proof. unfold zlen, be; by rewrite length_reverse, length_le. Qed.
Lemma zlen_be2 v : zlen (be 2 v) = 2.
Proof. reflexivity. Qed.
Lemma zlen_be4 v : zlen (be 4 v) = 4.
Proof. reflexivity. Qed.
Lemma zlen_le2 v : zlen (le 2 v) = 2.
Proof. reflexivity. Qed.
Lemma zlen_le4 v : zlen (le 4 v) = 4.
Proof. reflexivity. Qed.
#[export] Hint Rewrite zlen_be2 zlen_be4 zlen_le2 zlen_le4 : zlen.

Lemma le_ok n v : bytes_ok (le n v).
Proof. revert v; induction n as [| n IH]; intros v; constructor; [apply u8_range | apply IH]. Qed.
Lemma be_ok n v : bytes_ok (be n v).
Proof. apply Forall_reverse, le_ok. Qed.

Lemma of_le_le n v : of_le (le n v) = v mod 2 ^ (8 * Z.of_nat n).
Proof.
  revert v; induction n as [| n IH]; intros v; cbn [le of_le].
  - by rewrite Z.mod_1_r.
  - rewrite IH. unfold u8.
    replace (8 * Z.of_nat (S n)) with (8 + 8 * Z.of_nat n) by lia.
    rewrite Z.pow_add_r, (Z.rem_mul_r v) by lia. lia.
Qed.

Lemma le_of_le m : bytes_ok m → le (length m) (of_le m) = m.
Proof.
  induction 1 as [| b m Hb Hm IH]; cbn [length le of_le]; [done |]. unfold is_u8, u8 in *.
  f_equal; [zlia |]. etransitivity; [| exact IH]. f_equal. zlia.
Qed.

Lemma of_le_range m : bytes_ok m → 0 ≤ of_le m < 2 ^ (8 * zlen m).
Proof.
  intros H. rewrite <- (le_of_le m H), of_le_le, zlen_le.
  apply Z.mod_pos_bound. apply Z.pow_pos_nonneg; lia.
Qed.

Lemma of_be_be n v : of_be (be n v) = v mod 2 ^ (8 * Z.of_nat n).
Proof. unfold of_be, be. by rewrite reverse_involutive, of_le_le. Qed.
Lemma be_of_be m : bytes_ok m → be (length m) (of_be m) = m.
Proof.
  intros H. unfold of_be, be. rewrite <- (length_reverse m) at 1.
  rewrite le_of_le, reverse_involutive; [done | by apply Forall_reverse].
Qed.
Lemma of_be_range m : bytes_ok m → 0 ≤ of_be m < 2 ^ (8 * zlen m).
Proof.
  intros H. replace (zlen m) with (zlen (reverse m))
    by (unfold zlen; by rewrite length_reverse).
  by apply of_le_range, Forall_reverse.
Qed.

(** [htons] / [ntohs] and [htonl] / [ntohl] on a little-endian host. *)
Definition htons (v : Z) : Z := of_le (be 2 v).
Definition htonl (v : Z) : Z := of_le (be 4 v).

Lemma le_htonl v : le 4 (htonl v) = be 4 v.
Proof. apply (le_of_le (be 4 v)), be_ok. Qed.
Lemma le_htons v : le 2 (htons v) = be 2 v.
Proof. apply (le_of_le (be 2 v)), be_ok. Qed.
Lemma htonl_of_le m : zlen m = 4 → bytes_ok m → htonl (of_le m) = of_be m.
Proof.
  intros Hl Hm. unfold htonl, of_be, be. do 2 f_equal.
  replace 4%nat with (length m) by (unfold zlen in Hl; lia). by apply le_of_le.
Qed.
Lemma htonl_involutive v : is_u32 v → htonl (htonl v) = v.
Proof.
  intros H. rewrite <- (u32_small v H) at 2. unfold htonl at 1, be.
  rewrite le_htonl. unfold be. rewrite reverse_involutive, of_le_le. done.
Qed.
Lemma htonl_range v : is_u32 (htonl v).
Proof. unfold htonl. pose proof (of_le_range (be 4 v) (be_ok 4 v)). by rewrite zlen_be in H. Qed.

Lemma of_le_app m1 m2 : of_le (m1 ++ m2) = of_le m1 + 2 ^ (8 * zlen m1) * of_le m2.
Proof.
  induction m1 as [| b m1 IH]; [change (8 * zlen (@nil Z)) with 0; cbn [app of_le]; lia |].
  cbn [app of_le]. rewrite IH, zlen_cons.
  replace (8 * (1 + zlen m1)) with (8 + 8 * zlen m1) by lia.
  pose proof (zlen_nonneg m1). rewrite Z.pow_add_r by lia. ring.
Qed.

Lemma of_be_app m1 m2 : of_be (m1 ++ m2) = 2 ^ (8 * zlen m2) * of_be m1 + of_be m2.
Proof.
  unfold of_be. rewrite reverse_app, of_le_app.
  replace (zlen (reverse m2)) with (zlen m2) by (unfold zlen; by rewrite length_reverse). lia.
Qed.

Lemma lor_shiftl_add n hi lo :
  0 ≤ n → 0 ≤ lo < 2 ^ n → Z.lor (Z.shiftl hi n) lo = 2 ^ n * hi + lo.
Proof.
  intros Hn Hlo. rewrite Z.shiftl_mul_pow2, (Z.mul_comm hi), <- Z.add_nocarry_lor; [done | | done].
  apply Z.bits_inj'; intros i Hi. rewrite Z.land_spec, Z.bits_0.
  destruct (Z.ltb_spec i n).
  - by rewrite (Z.mul_comm (2 ^ n)), Z.mul_pow2_bits_low.
  - rewrite <- (Z.mod_small lo (2 ^ n)), Z.mod_pow2_bits_high by lia. by rewrite andb_false_r.
Qed.

Lemma of_be_app_4 m1 m2 :
  zlen m2 = 4 → bytes_ok m2 →
  Z.lor (Z.shiftl (of_be m1) 32) (of_be m2) = of_be (m1 ++ m2).
Proof.
  intros Hl Hm. pose proof (of_be_range m2 Hm) as Hr. rewrite Hl in Hr.
  rewrite of_be_app, Hl. apply lor_shiftl_add; [lia | done].
Qed.

Lemma lxor_range n a b :
  0 ≤ n → 0 ≤ a < 2 ^ n → 0 ≤ b < 2 ^ n → 0 ≤ Z.lxor a b < 2 ^ n.
Proof.
  intros Hn Ha Hb.
  enough (Z.lxor a b = Z.lxor a b mod 2 ^ n) as -> by (apply Z.mod_pos_bound; lia).
  apply Z.bits_inj'; intros i Hi. destruct (Z.ltb_spec i n).
  - by rewrite Z.mod_pow2_bits_low.
  - rewrite Z.mod_pow2_bits_high, Z.lxor_spec by lia.
    rewrite <- (Z.mod_small a (2 ^ n)), <- (Z.mod_small b (2 ^ n)) by done.
    by rewrite !Z.mod_pow2_bits_high by lia.
Qed.

Lemma lxor_cancel a b : Z.lxor (Z.lxor a b) b = a.
Proof. by rewrite Z.lxor_assoc, Z.lxor_nilpotent, Z.lxor_0_r. Qed.

Lemma of_le_le2 v : is_u16 v → of_le (le 2 v) = v.
Proof. intros H. rewrite of_le_le. by apply u16_small. Qed.
Lemma of_le_le4 v : is_u32 v → of_le (le 4 v) = v.
Proof. intros H. rewrite of_le_le. by apply u32_small. Qed.
Lemma htons_range v : is_u16 (htons v).
Proof. unfold htons. pose proof (of_le_range (be 2 v) (be_ok 2 v)) as H. by rewrite zlen_be in H. Qed.

Lemma be_inj_ok n m v : bytes_ok m → length m = n → of_be m = v mod 2 ^ (8 * Z.of_nat n) → be n v = m.
Proof.
  intros Hm <- Hv. rewrite <- (be_of_be m Hm) at 2. rewrite Hv, <- of_be_be.
  rewrite <- (be_of_be (be (length m) v)) at 1 by apply be_ok. f_equal.
  unfold be. by rewrite length_reverse, length_le.
Qed.

Lemma be8_split v : is_u64 v → be 8 v = be 4 (u32 (v / 2 ^ 32)) ++ be 4 (u32 v).
Proof.
  intros Hv. unfold is_u64 in Hv. apply be_inj_ok; [| done |].
  - apply bytes_ok_app; split; apply be_ok.
  - rewrite of_be_app, !of_be_be, zlen_be4. unfold u32.
    change (8 * Z.of_nat 4) with 32. change (8 * Z.of_nat 8) with 64. zlia.
Qed.

(** The encodings only see the low bits. *)
Lemma be2_u16 v : be 2 (u16 v) = be 2 v.
Proof. apply be_inj_ok; [apply be_ok | done |]. rewrite of_be_be. unfold u16. by rewrite Z.mod_mod. Qed.
Lemma be4_u32 v : be 4 (u32 v) = be 4 v.
Proof. apply be_inj_ok; [apply be_ok | done |]. rewrite of_be_be. unfold u32. by rewrite Z.mod_mod. Qed.
