(* ===== verification/StunCrc32.v ===== *)
(** * CRC-32 (stun/stuncrc32.c)

    The table-driven checksum of [stuncrc32.c], with its table, and the proof
    that it computes the bitwise CRC of the polynomial 0xedb88320 named in the
    source's comment. *)

From S2P Require Import Prelude Bytes.

(** ** The code *)

Definition crc32_tab : list Z := [
    0x00000000; 0x77073096; 0xee0e612c; 0x990951ba; 0x076dc419; 0x706af48f;
    0xe963a535; 0x9e6495a3; 0x0edb8832; 0x79dcb8a4; 0xe0d5e91e; 0x97d2d988;
    0x09b64c2b; 0x7eb17cbd; 0xe7b82d07; 0x90bf1d91; 0x1db71064; 0x6ab020f2;
    0xf3b97148; 0x84be41de; 0x1adad47d; 0x6ddde4eb; 0xf4d4b551; 0x83d385c7;
    0x136c9856; 0x646ba8c0; 0xfd62f97a; 0x8a65c9ec; 0x14015c4f; 0x63066cd9;
    0xfa0f3d63; 0x8d080df5; 0x3b6e20c8; 0x4c69105e; 0xd56041e4; 0xa2677172;
    0x3c03e4d1; 0x4b04d447; 0xd20d85fd; 0xa50ab56b; 0x35b5a8fa; 0x42b2986c;
    0xdbbbc9d6; 0xacbcf940; 0x32d86ce3; 0x45df5c75; 0xdcd60dcf; 0xabd13d59;
    0x26d930ac; 0x51de003a; 0xc8d75180; 0xbfd06116; 0x21b4f4b5; 0x56b3c423;
    0xcfba9599; 0xb8bda50f; 0x2802b89e; 0x5f058808; 0xc60cd9b2; 0xb10be924;
    0x2f6f7c87; 0x58684c11; 0xc1611dab; 0xb6662d3d; 0x76dc4190; 0x01db7106;
    0x98d220bc; 0xefd5102a; 0x71b18589; 0x06b6b51f; 0x9fbfe4a5; 0xe8b8d433;
    0x7807c9a2; 0x0f00f934; 0x9609a88e; 0xe10e9818; 0x7f6a0dbb; 0x086d3d2d;
    0x91646c97; 0xe6635c01; 0x6b6b51f4; 0x1c6c6162; 0x856530d8; 0xf262004e;
    0x6c0695ed; 0x1b01a57b; 0x8208f4c1; 0xf50fc457; 0x65b0d9c6; 0x12b7e950;
    0x8bbeb8ea; 0xfcb9887c; 0x62dd1ddf; 0x15da2d49; 0x8cd37cf3; 0xfbd44c65;
    0x4db26158; 0x3ab551ce; 0xa3bc0074; 0xd4bb30e2; 0x4adfa541; 0x3dd895d7;
    0xa4d1c46d; 0xd3d6f4fb; 0x4369e96a; 0x346ed9fc; 0xad678846; 0xda60b8d0;
    0x44042d73; 0x33031de5; 0xaa0a4c5f; 0xdd0d7cc9; 0x5005713c; 0x270241aa;
    0xbe0b1010; 0xc90c2086; 0x5768b525; 0x206f85b3; 0xb966d409; 0xce61e49f;
    0x5edef90e; 0x29d9c998; 0xb0d09822; 0xc7d7a8b4; 0x59b33d17; 0x2eb40d81;
    0xb7bd5c3b; 0xc0ba6cad; 0xedb88320; 0x9abfb3b6; 0x03b6e20c; 0x74b1d29a;
    0xead54739; 0x9dd277af; 0x04db2615; 0x73dc1683; 0xe3630b12; 0x94643b84;
    0x0d6d6a3e; 0x7a6a5aa8; 0xe40ecf0b; 0x9309ff9d; 0x0a00ae27; 0x7d079eb1;
    0xf00f9344; 0x8708a3d2; 0x1e01f268; 0x6906c2fe; 0xf762575d; 0x806567cb;
    0x196c3671; 0x6e6b06e7; 0xfed41b76; 0x89d32be0; 0x10da7a5a; 0x67dd4acc;
    0xf9b9df6f; 0x8ebeeff9; 0x17b7be43; 0x60b08ed5; 0xd6d6a3e8; 0xa1d1937e;
    0x38d8c2c4; 0x4fdff252; 0xd1bb67f1; 0xa6bc5767; 0x3fb506dd; 0x48b2364b;
    0xd80d2bda; 0xaf0a1b4c; 0x36034af6; 0x41047a60; 0xdf60efc3; 0xa867df55;
    0x316e8eef; 0x4669be79; 0xcb61b38c; 0xbc66831a; 0x256fd2a0; 0x5268e236;
    0xcc0c7795; 0xbb0b4703; 0x220216b9; 0x5505262f; 0xc5ba3bbe; 0xb2bd0b28;
    0x2bb45a92; 0x5cb36a04; 0xc2d7ffa7; 0xb5d0cf31; 0x2cd99e8b; 0x5bdeae1d;
    0x9b64c2b0; 0xec63f226; 0x756aa39c; 0x026d930a; 0x9c0906a9; 0xeb0e363f;
    0x72076785; 0x05005713; 0x95bf4a82; 0xe2b87a14; 0x7bb12bae; 0x0cb61b38;
    0x92d28e9b; 0xe5d5be0d; 0x7cdcefb7; 0x0bdbdf21; 0x86d3d2d4; 0xf1d4e242;
    0x68ddb3f8; 0x1fda836e; 0x81be16cd; 0xf6b9265b; 0x6fb077e1; 0x18b74777;
    0x88085ae6; 0xff0f6a70; 0x66063bca; 0x11010b5c; 0x8f659eff; 0xf862ae69;
    0x616bffd3; 0x166ccf45; 0xa00ae278; 0xd70dd2ee; 0x4e048354; 0x3903b3c2;
    0xa7672661; 0xd06016f7; 0x4969474d; 0x3e6e77db; 0xaed16a4a; 0xd9d65adc;
    0x40df0b66; 0x37d83bf0; 0xa9bcae53; 0xdebb9ec5; 0x47b2cf7f; 0x30b5ffe9;
    0xbdbdf21c; 0xcabac28a; 0x53b39330; 0x24b4a3a6; 0xbad03605; 0xcdd70693;
    0x54de5729; 0x23d967bf; 0xb3667a2e; 0xc4614ab8; 0x5d681b02; 0x2a6f2b94;
    0xb40bbe37; 0xc30c8ea1; 0x5a05df1b; 0x2d02ef8d
].

(** [crc_data]: a pointer into an object, and a length. *)
Record crc_data := { crc_buf : bytes; crc_off : Z; crc_len : Z }.

(** One turn of the [while (size--)] loop. *)
Definition crc32_byte (wlm2009_stupid_crc32_typo : bool) (crc p : Z) : Z :=
  let lkp := nth (Z.to_nat (Z.land (Z.lxor crc p) 0xFF)) crc32_tab 0 in
  let lkp := if (lkp =? 0x8bbeb8ea) && wlm2009_stupid_crc32_typo then 0x8bbe8ea else lkp in
  Z.lxor lkp (Z.shiftr crc 8).

Fixpoint crc32_loop (data : list crc_data) (typo : bool) (crc : Z) : outcome Z :=
  match data with
  | [] => Done crc
  | d :: data =>
      p ← slice (crc_buf d) (crc_off d) (crc_len d);
      crc32_loop data typo (fold_left (crc32_byte typo) p crc)
  end.

Definition stun_crc32 (data : list crc_data) (wlm2009_stupid_crc32_typo : bool) : outcome Z :=
  crc ← crc32_loop data wlm2009_stupid_crc32_typo 0xffffffff;
  mret (Z.lxor crc 0xffffffff).

(** ** Reference definition: one shift register step per bit *)

Definition POLY : Z := 0xedb88320.

Definition crc_bit (x : Z) : Z :=
  Z.lxor (Z.shiftr x 1) (if Z.odd x then POLY else 0).

Definition crc_ref_byte (crc p : Z) : Z := Nat.iter 8 crc_bit (Z.lxor crc p).

Definition crc_ref (m : bytes) : Z :=
  Z.lxor (fold_left crc_ref_byte m 0xffffffff) 0xffffffff.

(** ** Facts *)

Lemma crc_bit_lxor x y : crc_bit (Z.lxor x y) = Z.lxor (crc_bit x) (crc_bit y).
Proof.
  unfold crc_bit. rewrite Z.shiftr_lxor, <- !Z.bit0_odd, Z.lxor_spec.
  apply Z.bits_inj'; intros n Hn. rewrite !Z.lxor_spec.
  destruct (Z.testbit x 0), (Z.testbit y 0); cbn [xorb]; rewrite ?Z.bits_0;
    destruct (Z.testbit POLY n), (Z.testbit (Z.shiftr x 1) n), (Z.testbit (Z.shiftr y 1) n);
    reflexivity.
Qed.

Lemma crc_iter_lxor n x y :
  Nat.iter n crc_bit (Z.lxor x y) = Z.lxor (Nat.iter n crc_bit x) (Nat.iter n crc_bit y).
Proof.
  induction n as [| n IH]; [done |]. cbn [Nat.iter nat_rect].
  change (nat_rect _ ?a (λ _, ?f) n) with (Nat.iter n f a).
  by rewrite IH, crc_bit_lxor.
Qed.

Lemma crc_bit_double y : crc_bit (2 * y) = y.
Proof.
  unfold crc_bit. rewrite Z.odd_mul. cbn [Z.odd andb]. rewrite Z.lxor_0_r.
  rewrite Z.shiftr_div_pow2, Z.mul_comm by lia. by apply Z.div_mul.
Qed.

Lemma crc_iter_high y : Nat.iter 8 crc_bit (2 ^ 8 * y) = y.
Proof.
  replace (2 ^ 8 * y) with (2 * (2 * (2 * (2 * (2 * (2 * (2 * (2 * y)))))))) by lia.
  unfold Nat.iter, nat_rect. by rewrite !crc_bit_double.
Qed.

(** The table holds the eight-step image of every octet. *)
Lemma crc32_tab_spec i : is_u8 i → nth (Z.to_nat i) crc32_tab 0 = Nat.iter 8 crc_bit i.
Proof.
  intros Hi. unfold is_u8 in Hi.
  assert (Hall : forallb (λ n, nth n crc32_tab 0 =? Nat.iter 8 crc_bit (Z.of_nat n)) (seq 0 256) = true)
    by (vm_compute; reflexivity).
  rewrite forallb_forall in Hall. specialize (Hall (Z.to_nat i)).
  rewrite Z.eqb_eq, Z2Nat.id in Hall by lia. apply Hall, in_seq. lia.
Qed.

Lemma low_byte_split x : 0 ≤ x → x = Z.lxor (Z.land x 0xFF) (2 ^ 8 * Z.shiftr x 8).
Proof.
  intros Hx. change 0xFF with (Z.ones 8).
  rewrite Z.mul_comm, <- Z.shiftl_mul_pow2 by lia.
  apply Z.bits_inj'; intros n Hn.
  rewrite Z.lxor_spec, Z.land_spec, Z.shiftl_spec by lia.
  destruct (Z.ltb_spec n 8).
  - rewrite Z.ones_spec_low, (Z.testbit_neg_r _ (n - 8)) by lia.
    by rewrite andb_true_r, xorb_false_r.
  - rewrite Z.ones_spec_high, Z.shiftr_spec by lia.
    rewrite andb_false_r, xorb_false_l. f_equal; lia.
Qed.

Lemma land_255_u8 x : is_u8 (Z.land x 0xFF).
Proof. change 0xFF with (Z.ones 8). rewrite Z.land_ones by lia. apply u8_range. Qed.

(** One table look-up equals eight register steps. *)
Lemma crc32_byte_ref crc p :
  0 ≤ crc → is_u8 p → crc32_byte false crc p = crc_ref_byte crc p.
Proof.
  intros Hc Hp. unfold crc32_byte, crc_ref_byte. rewrite andb_false_r.
  assert (Hx : 0 ≤ Z.lxor crc p) by (apply Z.lxor_nonneg; unfold is_u8 in Hp; lia).
  rewrite (low_byte_split _ Hx) at 2.
  rewrite crc_iter_lxor, crc_iter_high, crc32_tab_spec by apply land_255_u8.
  f_equal. rewrite Z.shiftr_lxor.
  replace (Z.shiftr p 8) with 0; [by rewrite Z.lxor_0_r |].
  rewrite Z.shiftr_div_pow2, Z.div_small by (unfold is_u8 in Hp; lia). done.
Qed.

Lemma crc32_tab_nonneg n : 0 ≤ nth n crc32_tab 0.
Proof.
  assert (Hall : forallb (λ z, 0 <=? z) crc32_tab = true) by reflexivity.
  rewrite forallb_forall in Hall.
  destruct (nth_in_or_default n crc32_tab 0) as [Hin | ->]; [| lia].
  by apply Hall, Z.leb_le in Hin.
Qed.

Lemma crc32_byte_nonneg typo crc p : 0 ≤ crc → 0 ≤ crc32_byte typo crc p.
Proof.
  intros Hc. unfold crc32_byte. apply Z.lxor_nonneg. rewrite Z.shiftr_nonneg.
  split; [done |]. intros _. destruct (_ && typo)%bool; [lia |]. apply crc32_tab_nonneg.
Qed.

Lemma crc32_bytes_ref m crc :
  bytes_ok m → 0 ≤ crc → fold_left (crc32_byte false) m crc = fold_left crc_ref_byte m crc.
Proof.
  intros Hm. revert crc. induction Hm as [| p m Hp Hm IH]; intros crc Hc; [done |].
  rewrite !fold_left_cons, IH by (by apply crc32_byte_nonneg). by rewrite crc32_byte_ref.
Qed.

Lemma crc_fold_nonneg typo m crc : 0 ≤ crc → 0 ≤ fold_left (crc32_byte typo) m crc.
Proof.
  revert crc; induction m as [| p m IH]; intros crc Hc; [done |]. rewrite fold_left_cons.
  by apply IH, crc32_byte_nonneg.
Qed.

(** The octets a [crc_data] denotes. *)
Definition crc_chunk (d : crc_data) (c : bytes) : Prop :=
  slice (crc_buf d) (crc_off d) (crc_len d) = Done c ∧ bytes_ok c.

Lemma crc32_loop_ref data chunks crc :
  Forall2 crc_chunk data chunks → 0 ≤ crc →
  crc32_loop data false crc = Done (fold_left crc_ref_byte (mjoin chunks) crc).
Proof.
  intros H. revert crc. induction H as [| d c data chunks [Hs Hc] _ IH]; intros crc Hcrc;
    [done |].
  cbn [crc32_loop]. rewrite Hs, bind_Done, IH by (by apply crc_fold_nonneg).
  unfold mjoin, list_join; fold (mjoin (M := list) (A := Z)).
  by rewrite fold_left_app, crc32_bytes_ref.
Qed.

(** Over any list of chunks inside their objects, the table-driven loop of
    [stun_crc32] (typo switch off) computes the bitwise CRC-32 of the
    concatenated octets. *)
Theorem stun_crc32_ref (data : list crc_data) (chunks : list bytes)
    (H : Forall2 crc_chunk data chunks) :
  stun_crc32 data false = Done (crc_ref (mjoin chunks)).
Proof. unfold stun_crc32, crc_ref. by rewrite (crc32_loop_ref _ _ _ H). Qed.

Definition crc_demo : bytes := [49; 50; 51; 52; 53; 54; 55; 56; 57].

(** The check value of the polynomial, split over two chunks. *)
Lemma stun_crc32_ref_witness :
  stun_crc32 [Build_crc_data crc_demo 0 4; Build_crc_data crc_demo 4 5] false
    = Done (crc_ref (mjoin [take 4 crc_demo; drop 4 crc_demo]))
  ∧ crc_ref crc_demo = 0xcbf43926.
Proof.
  split; [| vm_compute; reflexivity].
  apply (stun_crc32_ref _ [take 4 crc_demo; drop 4 crc_demo]).
  apply Forall2_cons_2; [split; [reflexivity | by_compute] |].
  apply Forall2_cons_2; [split; [reflexivity | by_compute] | constructor].
Defined.
