(* ===== verification/StunMessage.v ===== *)
(** * STUN messages (stun/stunmessage.c, stun/utils.c, stun/stun5389.c)

    The message buffer, its accessors and builders, and the validity check
    applied to received datagrams.  A [StunMessage] owns the octets of
    [msg->buffer]; [msg->buffer_len] is their number.  Pointers into the
    buffer are offsets.  Loads and stores outside the buffer are [Ub]. *)

From stdpp Require Import strings.
From S2P Require Import Prelude Bytes StunCrc32.

(** ** Constants (constants.h, stunmessage.h) *)

Definition STUN_MESSAGE_LENGTH_POS : Z := 2.
Definition STUN_MESSAGE_LENGTH_LEN : Z := 2.
Definition STUN_MESSAGE_TRANS_ID_POS : Z := 4.
Definition STUN_MESSAGE_TRANS_ID_LEN : Z := 16.
Definition STUN_MESSAGE_ATTRIBUTES_POS : Z := 20.
Definition STUN_MESSAGE_HEADER_LENGTH : Z := STUN_MESSAGE_ATTRIBUTES_POS.
Definition STUN_ATTRIBUTE_TYPE_LEN : Z := 2.
Definition STUN_ATTRIBUTE_VALUE_POS : Z := 4.
Definition STUN_ATTRIBUTE_HEADER_LENGTH : Z := STUN_ATTRIBUTE_VALUE_POS.
Definition STUN_MAGIC_COOKIE : Z := 0x2112A442.
Definition TURN_MAGIC_COOKIE : Z := 0x72c64bc6.
Definition STUN_MESSAGE_BUFFER_INCOMPLETE : Z := 0.
Definition STUN_MESSAGE_BUFFER_INVALID : Z := -1.

Create HintDb stun_consts.
#[export] Hint Unfold STUN_MESSAGE_LENGTH_POS STUN_MESSAGE_LENGTH_LEN STUN_MESSAGE_TRANS_ID_POS
  STUN_MESSAGE_TRANS_ID_LEN STUN_MESSAGE_ATTRIBUTES_POS STUN_MESSAGE_HEADER_LENGTH
  STUN_ATTRIBUTE_TYPE_LEN STUN_ATTRIBUTE_VALUE_POS STUN_ATTRIBUTE_HEADER_LENGTH : stun_consts.
(** Linear arithmetic over the layout constants. *)
Ltac clia := autounfold with stun_consts in *; slia.

Inductive StunClass := STUN_REQUEST | STUN_INDICATION | STUN_RESPONSE | STUN_ERROR.
#[export] Instance StunClass_eq_dec : EqDecision StunClass.
Proof. solve_decision. Defined.

Definition class_to_Z (c : StunClass) : Z :=
  match c with
  | STUN_REQUEST => 0 | STUN_INDICATION => 1 | STUN_RESPONSE => 2 | STUN_ERROR => 3
  end.
(** The cast [(StunClass) z] for the two-bit values the code casts. *)
Definition class_of_Z (z : Z) : StunClass :=
  if z =? 0 then STUN_REQUEST else if z =? 1 then STUN_INDICATION
  else if z =? 2 then STUN_RESPONSE else STUN_ERROR.

(** [StunMethod] has aliased enumerators, so methods are integers. *)
Definition STUN_BINDING : Z := 0x001.
Definition STUN_SHARED_SECRET : Z := 0x002.
Definition STUN_ALLOCATE : Z := 0x003.
Definition STUN_SEND : Z := 0x004.

(** [StunAttribute] likewise. *)
Definition STUN_ATTRIBUTE_MAPPED_ADDRESS : Z := 0x0001.
Definition STUN_ATTRIBUTE_USERNAME : Z := 0x0006.
Definition STUN_ATTRIBUTE_MESSAGE_INTEGRITY : Z := 0x0008.
Definition STUN_ATTRIBUTE_ERROR_CODE : Z := 0x0009.
Definition STUN_ATTRIBUTE_UNKNOWN_ATTRIBUTES : Z := 0x000A.
Definition STUN_ATTRIBUTE_REALM : Z := 0x0014.
Definition STUN_ATTRIBUTE_NONCE : Z := 0x0015.
Definition STUN_ATTRIBUTE_XOR_MAPPED_ADDRESS : Z := 0x0020.
Definition STUN_ATTRIBUTE_PRIORITY : Z := 0x0024.
Definition STUN_ATTRIBUTE_USE_CANDIDATE : Z := 0x0025.
Definition STUN_ATTRIBUTE_SOFTWARE : Z := 0x8022.
Definition STUN_ATTRIBUTE_FINGERPRINT : Z := 0x8028.
Definition STUN_ATTRIBUTE_ICE_CONTROLLED : Z := 0x8029.
Definition STUN_ATTRIBUTE_ICE_CONTROLLING : Z := 0x802A.
Definition STUN_ATTRIBUTE_CANDIDATE_IDENTIFIER : Z := 0x8054.
Definition STUN_ATTRIBUTE_MS_IMPLEMENTATION_VERSION : Z := 0x8070.

Definition STUN_ERROR_TRY_ALTERNATE : Z := 300.
Definition STUN_ERROR_BAD_REQUEST : Z := 400.
Definition STUN_ERROR_UNAUTHORIZED : Z := 401.
Definition STUN_ERROR_UNKNOWN_ATTRIBUTE : Z := 420.
Definition STUN_ERROR_STALE_NONCE : Z := 438.
Definition STUN_ERROR_WRONG_CREDENTIALS : Z := 441.
Definition STUN_ERROR_ROLE_CONFLICT : Z := 487.

Inductive StunMessageReturn :=
| STUN_MESSAGE_RETURN_SUCCESS
| STUN_MESSAGE_RETURN_NOT_FOUND
| STUN_MESSAGE_RETURN_INVALID
| STUN_MESSAGE_RETURN_NOT_ENOUGH_SPACE
| STUN_MESSAGE_RETURN_UNSUPPORTED_ADDRESS.
#[export] Instance StunMessageReturn_eq_dec : EqDecision StunMessageReturn.
Proof. solve_decision. Defined.

Inductive StunCompatibility :=
| STUN_COMPATIBILITY_RFC3489
| STUN_COMPATIBILITY_RFC5389
| STUN_COMPATIBILITY_MSICE2
| STUN_COMPATIBILITY_OC2007.
#[export] Instance StunCompatibility_eq_dec : EqDecision StunCompatibility.
Proof. solve_decision. Defined.

Definition STUN_AGENT_USAGE_SHORT_TERM_CREDENTIALS : Z := 1.
Definition STUN_AGENT_USAGE_LONG_TERM_CREDENTIALS : Z := 2.
Definition STUN_AGENT_USAGE_USE_FINGERPRINT : Z := 4.
Definition STUN_AGENT_USAGE_ADD_SOFTWARE : Z := 8.
Definition STUN_AGENT_USAGE_IGNORE_CREDENTIALS : Z := 16.
Definition STUN_AGENT_USAGE_NO_INDICATION_AUTH : Z := 32.
Definition STUN_AGENT_USAGE_FORCE_VALIDATER : Z := 64.
Definition STUN_AGENT_USAGE_NO_ALIGNED_ATTRIBUTES : Z := 128.

(** The two fields of the agent that message code reads through [msg->agent];
    only [stun_agent_init] assigns them. *)
Record StunAgentConf := { compatibility : StunCompatibility; usage_flags : Z }.

Record StunMessage := {
  msg_agent : option StunAgentConf;   (* NULL or the agent's configuration *)
  msg_buffer : bytes;
  msg_key : option bytes;             (* key and key_len *)
  msg_long_term_key : bytes;
  msg_long_term_valid : bool
}.

Definition eta_StunMessage (m : StunMessage) : StunMessage :=
  Build_StunMessage (msg_agent m) (msg_buffer m) (msg_key m) (msg_long_term_key m)
    (msg_long_term_valid m).
#[export] Instance set_msg_buffer : Setter msg_buffer :=
  ltac:(derive_setter eta_StunMessage msg_buffer).
#[export] Instance set_msg_key : Setter msg_key :=
  ltac:(derive_setter eta_StunMessage msg_key).
#[export] Instance set_msg_long_term_key : Setter msg_long_term_key :=
  ltac:(derive_setter eta_StunMessage msg_long_term_key).
#[export] Instance set_msg_long_term_valid : Setter msg_long_term_valid :=
  ltac:(derive_setter eta_StunMessage msg_long_term_valid).

Definition msg_buffer_len (m : StunMessage) : Z := zlen (msg_buffer m).

(** [msg->agent && msg->agent->compatibility == OC2007] *)
Definition is_oc2007 (msg : StunMessage) : bool :=
  match msg_agent msg with
  | Some a => bool_decide (compatibility a = STUN_COMPATIBILITY_OC2007)
  | None => false
  end.

(** [msg->agent && (msg->agent->usage_flags & NO_ALIGNED_ATTRIBUTES)] *)
Definition no_aligned (msg : StunMessage) : bool :=
  match msg_agent msg with
  | Some a => flag (usage_flags a) STUN_AGENT_USAGE_NO_ALIGNED_ATTRIBUTES
  | None => false
  end.

(** ** stun/utils.c *)

Definition stun_padding (l : Z) : Z := Z.land (4 - Z.land l 3) 3.

Definition stun_align (l : Z) : Z := Z.land (u64 (l + 3)) (u64 (Z.lnot 3)).

Definition stun_getw (m : bytes) (ptr : Z) : outcome Z :=
  b0 ← getb m ptr;
  b1 ← getb m (ptr + 1);
  mret (Z.lor (Z.shiftl b0 8) b1).

(** Returns the object; the pointer the C function returns is [ptr + 2]. *)
Definition stun_setw (m : bytes) (ptr value : Z) : outcome bytes :=
  store m ptr [u8 (Z.shiftr value 8); u8 (Z.land value 0xff)].

Definition stun_set_type (h : bytes) (c : StunClass) (m : Z) : outcome bytes :=
  let c := class_to_Z c in
  store h 0
    [ u8 (Z.lor (Z.shiftr c 1) (Z.land (Z.shiftr m 6) 0x3e));
      u8 (Z.lor (Z.lor (Z.land (Z.shiftl c 4) 0x10) (Z.land (Z.shiftl m 1) 0xe0))
            (Z.land m 0x0f)) ].

(** ** Socket addresses

    [struct sockaddr_storage] by its [ss_family]; ports and IPv4 addresses are
    the in-memory words (network byte order on a little-endian host). *)
Inductive sockaddr_storage :=
| sockaddr_in (sin_port sin_addr : Z)
| sockaddr_in6 (sin6_port sin6_flowinfo : Z) (sin6_addr : bytes) (sin6_scope_id : Z)
| sockaddr_other (ss_family : Z).

Definition sizeof_sockaddr : Z := 16.
Definition sizeof_sockaddr_in : Z := 16.
Definition sizeof_sockaddr_in6 : Z := 28.
Definition sizeof_sockaddr_storage : Z := 128.

Fixpoint xor_bytes (a b : bytes) : bytes :=
  match a, b with
  | x :: a, y :: b => Z.lxor x y :: xor_bytes a b
  | _, _ => []
  end.

Definition stun_xor_address (msg : StunMessage) (addr : sockaddr_storage) (addrlen magic_cookie : Z)
  : outcome (StunMessageReturn * sockaddr_storage) :=
  match addr with
  | sockaddr_in port a =>
      if addrlen <? sizeof_sockaddr_in then mret (STUN_MESSAGE_RETURN_INVALID, addr)
      else mret (STUN_MESSAGE_RETURN_SUCCESS,
                 sockaddr_in (Z.lxor port (htons (u16 (Z.shiftr magic_cookie 16))))
                             (Z.lxor a (htonl magic_cookie)))
  | sockaddr_in6 port flow a scope =>
      if addrlen <? sizeof_sockaddr_in6 then mret (STUN_MESSAGE_RETURN_INVALID, addr)
      else
        id ← slice (msg_buffer msg) 4 16;
        mret (STUN_MESSAGE_RETURN_SUCCESS,
              sockaddr_in6 (Z.lxor port (htons (u16 (Z.shiftr magic_cookie 16)))) flow
                (xor_bytes a id) scope)
  | sockaddr_other _ => mret (STUN_MESSAGE_RETURN_UNSUPPORTED_ADDRESS, addr)
  end.

(** ** Header (stunmessage.c) *)

Definition stun_message_init (msg : StunMessage) (c : StunClass) (m : Z) (id : bytes)
  : outcome (StunMessage * bool) :=
  if msg_buffer_len msg <? STUN_MESSAGE_HEADER_LENGTH then mret (msg, false)
  else
    b ← store (msg_buffer msg) 0 [0; 0; 0; 0];
    b ← stun_set_type b c m;
    id ← slice id 0 STUN_MESSAGE_TRANS_ID_LEN;
    b ← store b STUN_MESSAGE_TRANS_ID_POS id;
    mret (msg <| msg_buffer := b |>, true).

Definition stun_message_length (msg : StunMessage) : outcome Z :=
  w ← stun_getw (msg_buffer msg) STUN_MESSAGE_LENGTH_POS;
  mret (u16 (w + STUN_MESSAGE_HEADER_LENGTH)).

Definition stun_message_id (msg : StunMessage) : outcome bytes :=
  slice (msg_buffer msg) STUN_MESSAGE_TRANS_ID_POS STUN_MESSAGE_TRANS_ID_LEN.

Definition stun_message_has_cookie (msg : StunMessage) : outcome bool :=
  id ← stun_message_id msg;
  mret (bool_decide (take 4 id = le 4 (htonl STUN_MAGIC_COOKIE))).

(** The google/msn data indication is re-read as the standard one. *)
Definition fix_type (t : Z) : Z := if t =? 0x0115 then 0x0017 else t.

Definition stun_message_get_method (msg : StunMessage) : outcome Z :=
  t ← stun_getw (msg_buffer msg) 0;
  let t := fix_type t in
  mret (Z.lor (Z.lor (Z.shiftr (Z.land t 0x3e00) 2) (Z.shiftr (Z.land t 0x00e0) 1))
          (Z.land t 0x000f)).

Definition stun_message_get_class (msg : StunMessage) : outcome StunClass :=
  t ← stun_getw (msg_buffer msg) 0;
  let t := fix_type t in
  mret (class_of_Z (Z.lor (Z.shiftr (Z.land t 0x0100) 7) (Z.shiftr (Z.land t 0x0010) 4))).

(** ** Attribute search *)

(** In MS-TURN the identifiers of REALM and NONCE are swapped. *)
Definition oc2007_type (msg : StunMessage) (type : Z) : Z :=
  if is_oc2007 msg then
    if type =? STUN_ATTRIBUTE_REALM then STUN_ATTRIBUTE_NONCE
    else if type =? STUN_ATTRIBUTE_NONCE then STUN_ATTRIBUTE_REALM
    else type
  else type.

(** The [while (offset < length)] loop; a found attribute is returned as the
    offset of its value and [*palen]. *)
Fixpoint find_loop (fuel : nat) (m : bytes) (unaligned : bool) (type length offset : Z)
  : outcome (option (Z * Z)) :=
  if offset <? length then
    match fuel with
    | O => Oof
    | S fuel =>
        atype ← stun_getw m offset;
        alen ← stun_getw m (offset + STUN_ATTRIBUTE_TYPE_LEN);
        let offset := offset + STUN_ATTRIBUTE_VALUE_POS in
        if atype =? type then mret (Some (offset, alen))
        else if (atype =? STUN_ATTRIBUTE_MESSAGE_INTEGRITY)
                && negb (type =? STUN_ATTRIBUTE_FINGERPRINT) then mret None
        else if atype =? STUN_ATTRIBUTE_FINGERPRINT then mret None
        else
          let alen := if unaligned then alen else stun_align alen in
          find_loop fuel m unaligned type length (offset + alen)
    end
  else mret None.

Definition stun_message_find (msg : StunMessage) (type : Z) : outcome (option (Z * Z)) :=
  length ← stun_message_length msg;
  find_loop (Z.to_nat length) (msg_buffer msg) (no_aligned msg) (oc2007_type msg type) length
    STUN_MESSAGE_ATTRIBUTES_POS.

Definition stun_message_has_attribute (msg : StunMessage) (type : Z) : outcome bool :=
  r ← stun_message_find msg type;
  mret (match r with Some _ => true | None => false end).

Definition stun_message_find_flag (msg : StunMessage) (type : Z) : outcome StunMessageReturn :=
  r ← stun_message_find msg type;
  mret (match r with
        | None => STUN_MESSAGE_RETURN_NOT_FOUND
        | Some (_, len) => if len =? 0 then STUN_MESSAGE_RETURN_SUCCESS
                           else STUN_MESSAGE_RETURN_INVALID
        end).

(** Values the C functions store through a pointer are the second component;
    [None]: not stored. *)
Definition stun_message_find32 (msg : StunMessage) (type : Z)
  : outcome (StunMessageReturn * option Z) :=
  r ← stun_message_find msg type;
  match r with
  | None => mret (STUN_MESSAGE_RETURN_NOT_FOUND, None)
  | Some (ptr, len) =>
      if len =? 4 then
        v ← slice (msg_buffer msg) ptr 4;
        mret (STUN_MESSAGE_RETURN_SUCCESS, Some (htonl (of_le v)))
      else mret (STUN_MESSAGE_RETURN_INVALID, None)
  end.

Definition stun_message_find64 (msg : StunMessage) (type : Z)
  : outcome (StunMessageReturn * option Z) :=
  r ← stun_message_find msg type;
  match r with
  | None => mret (STUN_MESSAGE_RETURN_NOT_FOUND, None)
  | Some (ptr, len) =>
      if len =? 8 then
        tab ← slice (msg_buffer msg) ptr 8;
        mret (STUN_MESSAGE_RETURN_SUCCESS,
              Some (Z.lor (Z.shiftl (htonl (of_le (take 4 tab))) 32) (htonl (of_le (drop 4 tab)))))
      else mret (STUN_MESSAGE_RETURN_INVALID, None)
  end.

Definition stun_message_find_string (msg : StunMessage) (type buflen : Z)
  : outcome (StunMessageReturn * option bytes) :=
  r ← stun_message_find msg type;
  match r with
  | None => mret (STUN_MESSAGE_RETURN_NOT_FOUND, None)
  | Some (ptr, len) =>
      if buflen <=? len then mret (STUN_MESSAGE_RETURN_NOT_ENOUGH_SPACE, None)
      else
        s ← slice (msg_buffer msg) ptr len;
        mret (STUN_MESSAGE_RETURN_SUCCESS, Some (s ++ [0]))
  end.

Definition AF_INET : Z := 2.
Definition AF_INET6 : Z := 10.

(** [addr] and [*addrlen] in, and as the function leaves them.  The [memset]
    of [*addrlen] octets must stay inside the [sockaddr_storage]. *)
Definition stun_message_find_addr (msg : StunMessage) (type : Z) (addr : sockaddr_storage)
    (addrlen : Z) : outcome (StunMessageReturn * sockaddr_storage * Z) :=
  r ← stun_message_find msg type;
  match r with
  | None => mret (STUN_MESSAGE_RETURN_NOT_FOUND, addr, addrlen)
  | Some (ptr, len) =>
      if len <? 4 then mret (STUN_MESSAGE_RETURN_INVALID, addr, addrlen)
      else
        fam ← getb (msg_buffer msg) (ptr + 1);
        if fam =? 1 then
          if (addrlen <? sizeof_sockaddr_in) || negb (len =? 8)
          then mret (STUN_MESSAGE_RETURN_INVALID, addr, sizeof_sockaddr_in)
          else
            _ ← assert_ (addrlen <=? sizeof_sockaddr_storage);
            port ← slice (msg_buffer msg) (ptr + 2) 2;
            a ← slice (msg_buffer msg) (ptr + 4) 4;
            mret (STUN_MESSAGE_RETURN_SUCCESS, sockaddr_in (of_le port) (of_le a),
                  sizeof_sockaddr_in)
        else if fam =? 2 then
          if (addrlen <? sizeof_sockaddr_in6) || negb (len =? 20)
          then mret (STUN_MESSAGE_RETURN_INVALID, addr, sizeof_sockaddr_in6)
          else
            _ ← assert_ (addrlen <=? sizeof_sockaddr_storage);
            port ← slice (msg_buffer msg) (ptr + 2) 2;
            a ← slice (msg_buffer msg) (ptr + 4) 16;
            mret (STUN_MESSAGE_RETURN_SUCCESS, sockaddr_in6 (of_le port) 0 a 0,
                  sizeof_sockaddr_in6)
        else mret (STUN_MESSAGE_RETURN_UNSUPPORTED_ADDRESS, addr, addrlen)
  end.

Definition stun_message_find_xor_addr_full (msg : StunMessage) (type : Z)
    (addr : sockaddr_storage) (addrlen magic_cookie : Z)
  : outcome (StunMessageReturn * sockaddr_storage * Z) :=
  '(val, addr, addrlen) ← stun_message_find_addr msg type addr addrlen;
  if bool_decide (val = STUN_MESSAGE_RETURN_SUCCESS) then
    '(val, addr) ← stun_xor_address msg addr addrlen magic_cookie;
    mret (val, addr, addrlen)
  else mret (val, addr, addrlen).

Definition stun_message_find_xor_addr (msg : StunMessage) (type : Z)
    (addr : sockaddr_storage) (addrlen : Z)
  : outcome (StunMessageReturn * sockaddr_storage * Z) :=
  '(val, addr, addrlen) ← stun_message_find_addr msg type addr addrlen;
  if bool_decide (val = STUN_MESSAGE_RETURN_SUCCESS) then
    '(val, addr) ← stun_xor_address msg addr addrlen STUN_MAGIC_COOKIE;
    mret (val, addr, addrlen)
  else mret (val, addr, addrlen).

Definition stun_message_find_error (msg : StunMessage)
  : outcome (StunMessageReturn * option Z) :=
  r ← stun_message_find msg STUN_ATTRIBUTE_ERROR_CODE;
  match r with
  | None => mret (STUN_MESSAGE_RETURN_NOT_FOUND, None)
  | Some (ptr, alen) =>
      if alen <? 4 then mret (STUN_MESSAGE_RETURN_INVALID, None)
      else
        b2 ← getb (msg_buffer msg) (ptr + 2);
        number ← getb (msg_buffer msg) (ptr + 3);
        let class := Z.land b2 0x7 in
        if (class <? 3) || (6 <? class) || (99 <? number)
        then mret (STUN_MESSAGE_RETURN_INVALID, None)
        else mret (STUN_MESSAGE_RETURN_SUCCESS, Some (class * 100 + number))
  end.

(** ** Building messages *)

(** Returns the message and the pointer to the value of the new attribute
    ([None]: NULL, no room). *)
Definition stun_message_append (msg : StunMessage) (type length : Z)
  : outcome (StunMessage * option Z) :=
  mlen ← stun_message_length msg;
  let type := oc2007_type msg type in
  if msg_buffer_len msg <? u64 (mlen + STUN_ATTRIBUTE_HEADER_LENGTH + length)
  then mret (msg, None)
  else
    b ← stun_setw (msg_buffer msg) mlen (u16 type);
    let a := mlen + 2 in
    '(b, a, mlen) ←
      (if no_aligned msg then
         b ← stun_setw b a (u16 length);
         mret (b, a + 2, mlen)
       else
         cookie ← stun_message_has_cookie (msg <| msg_buffer := b |>);
         b ← stun_setw b a (u16 (if (cookie : bool) then length else stun_align length));
         let a := a + 2 in
         if 0 <? stun_padding length then
           b ← store b (a + length) (replicate (Z.to_nat (stun_padding length)) 0x20);
           mret (b, a, u16 (mlen + stun_padding length))
         else mret (b, a, mlen));
    let mlen := u16 (mlen + (4 + length)) in
    b ← stun_setw b STUN_MESSAGE_LENGTH_POS (u16 (mlen - STUN_MESSAGE_HEADER_LENGTH));
    mret (msg <| msg_buffer := b |>, Some a).

Definition stun_message_append_bytes (msg : StunMessage) (type : Z) (data : bytes)
  : outcome (StunMessage * StunMessageReturn) :=
  '(msg, ptr) ← stun_message_append msg type (zlen data);
  match ptr with
  | None => mret (msg, STUN_MESSAGE_RETURN_NOT_ENOUGH_SPACE)
  | Some ptr =>
      b ← store (msg_buffer msg) ptr data;
      mret (msg <| msg_buffer := b |>, STUN_MESSAGE_RETURN_SUCCESS)
  end.

Definition stun_message_append_flag (msg : StunMessage) (type : Z) :=
  stun_message_append_bytes msg type [].

Definition stun_message_append32 (msg : StunMessage) (type value : Z) :=
  stun_message_append_bytes msg type (le 4 (htonl value)).

Definition stun_message_append64 (msg : StunMessage) (type value : Z) :=
  stun_message_append_bytes msg type
    (le 4 (htonl (u32 (Z.shiftr value 32))) ++ le 4 (htonl (u32 value))).

(** [str]: the characters before the terminating NUL. *)
Definition stun_message_append_string (msg : StunMessage) (type : Z) (str : bytes) :=
  stun_message_append_bytes msg type str.

Definition stun_message_append_addr (msg : StunMessage) (type : Z) (addr : sockaddr_storage)
    (addrlen : Z) : outcome (StunMessage * StunMessageReturn) :=
  if addrlen <? sizeof_sockaddr then mret (msg, STUN_MESSAGE_RETURN_INVALID)
  else
    let put (family port alen : Z) (pa : bytes) :=
      '(msg, ptr) ← stun_message_append msg type (4 + alen);
      match ptr with
      | None => mret (msg, STUN_MESSAGE_RETURN_NOT_ENOUGH_SPACE)
      | Some ptr =>
          pa ← slice pa 0 alen;
          b ← store (msg_buffer msg) ptr ([0; family] ++ le 2 port ++ pa);
          mret (msg <| msg_buffer := b |>, STUN_MESSAGE_RETURN_SUCCESS)
      end in
    match addr with
    | sockaddr_in port a => put 1 port 4 (le 4 a)
    | sockaddr_in6 port _ a _ =>
        if addrlen <? sizeof_sockaddr_in6 then mret (msg, STUN_MESSAGE_RETURN_INVALID)
        else put 2 port 16 a
    | sockaddr_other _ => mret (msg, STUN_MESSAGE_RETURN_UNSUPPORTED_ADDRESS)
    end.

(** The copy into [tmpaddr] must at least initialise [ss_family]. *)
Definition stun_message_append_xor_addr_full (msg : StunMessage) (type : Z)
    (addr : sockaddr_storage) (addrlen magic_cookie : Z)
  : outcome (StunMessage * StunMessageReturn) :=
  let addrlen := if sizeof_sockaddr_storage <? addrlen then sizeof_sockaddr_storage else addrlen in
  _ ← assert_ (2 <=? addrlen);
  '(val, tmpaddr) ← stun_xor_address msg addr addrlen magic_cookie;
  if bool_decide (val = STUN_MESSAGE_RETURN_SUCCESS)
  then stun_message_append_addr msg type tmpaddr addrlen
  else mret (msg, val).

Definition stun_message_append_xor_addr (msg : StunMessage) (type : Z)
    (addr : sockaddr_storage) (addrlen : Z) : outcome (StunMessage * StunMessageReturn) :=
  let addrlen := if sizeof_sockaddr_storage <? addrlen then sizeof_sockaddr_storage else addrlen in
  _ ← assert_ (2 <=? addrlen);
  '(val, tmpaddr) ← stun_xor_address msg addr addrlen STUN_MAGIC_COOKIE;
  if bool_decide (val = STUN_MESSAGE_RETURN_SUCCESS)
  then stun_message_append_addr msg type tmpaddr addrlen
  else mret (msg, val).

(** ** Error phrases *)

(** The octets of a string literal. *)
Fixpoint str_bytes (s : string) : bytes :=
  match s with
  | EmptyString => []
  | String c s => Z.of_N (Ascii.N_of_ascii c) :: str_bytes s
  end.

Definition strerror_tab : list (Z * string) := [
    (300, "Try alternate server");
    (400, "Bad request");
    (401, "Unauthorized");
    (420, "Unknown Attribute");
    (437, "Allocation Mismatch");
    (438, "Stale Nonce");
    (439, "Active Destination Already Set");
    (440, "Address Family not Supported");
    (442, "Unsupported Transport Protocol");
    (443, "Invalid IP Address");
    (444, "Invalid Port");
    (445, "Operation for TCP Only");
    (446, "Connection Already Exists");
    (486, "Allocation Quota Reached");
    (487, "Role conflict");
    (500, "Server Error");
    (507, "Insufficient Capacity");
    (508, "Insufficient Capacity")
  ]%string.

Fixpoint strerror_loop (tab : list (Z * string)) (code : Z) : string :=
  match tab with
  | [] => "Unknown error"%string
  | (c, phrase) :: tab => if c =? code then phrase else strerror_loop tab code
  end.

Definition stun_strerror (code : Z) : bytes := str_bytes (strerror_loop strerror_tab code).

Definition stun_message_append_error (msg : StunMessage) (code : Z)
  : outcome (StunMessage * StunMessageReturn) :=
  let str := stun_strerror code in
  let len := zlen str in
  '(msg, ptr) ← stun_message_append msg STUN_ATTRIBUTE_ERROR_CODE (4 + len);
  match ptr with
  | None => mret (msg, STUN_MESSAGE_RETURN_NOT_ENOUGH_SPACE)
  | Some ptr =>
      b ← store (msg_buffer msg) ptr ([0; 0; u8 (Z.quot code 100); u8 (Z.rem code 100)] ++ str);
      mret (msg <| msg_buffer := b |>, STUN_MESSAGE_RETURN_SUCCESS)
  end.

(** ** Validation of received datagrams *)

(** [StunInputVector]; [None]: a NULL buffer. *)
Record StunInputVector := { iv_buffer : option bytes; iv_size : Z }.

Definition iv_getb (v : StunInputVector) (i : Z) : outcome Z :=
  match iv_buffer v with Some b => getb b i | None => Ub end.
Definition iv_getw (v : StunInputVector) (i : Z) : outcome Z :=
  match iv_buffer v with Some b => stun_getw b i | None => Ub end.

(** The loop "Skip bytes": [buffers] are the vectors from index [i] on; the
    result is the rest of the array at the index the loop stops at. *)
Fixpoint skip_loop (buffers : list StunInputVector) (n_buffers i skip_remaining : Z)
  : outcome (list StunInputVector * Z) :=
  if 0 <=? n_buffers then
    if i <? n_buffers then
      match buffers with
      | [] => Ub
      | v :: rest =>
          if iv_size v <=? skip_remaining
          then skip_loop rest n_buffers (i + 1) (skip_remaining - iv_size v)
          else mret (buffers, skip_remaining)
      end
    else mret (buffers, skip_remaining)
  else
    match buffers with
    | [] => Ub
    | v :: rest =>
        match iv_buffer v with
        | None => mret (buffers, skip_remaining)
        | Some _ =>
            if iv_size v <=? skip_remaining
            then skip_loop rest n_buffers (i + 1) (skip_remaining - iv_size v)
            else mret (buffers, skip_remaining)
        end
    end.

(** The two ways the length field is read: "Fast path", "Slow path". *)
Definition fast_mlen (buffers : list StunInputVector) (n_buffers : Z) (buffers0 : StunInputVector)
  : outcome Z :=
  if STUN_MESSAGE_LENGTH_POS + STUN_MESSAGE_LENGTH_LEN <=? iv_size buffers0
  then iv_getw buffers0 STUN_MESSAGE_LENGTH_POS
  else
    '(rest, skip_remaining) ← skip_loop buffers n_buffers 0 STUN_MESSAGE_LENGTH_POS;
    match rest with
    | [] => Ub
    | v :: rest =>
        if 1 <? u64 (iv_size v - skip_remaining) then iv_getw v skip_remaining
        else
          hi ← iv_getb v skip_remaining;
          match rest with
          | [] => Ub
          | v' :: _ => lo ← iv_getb v' 0; mret (Z.lor (Z.shiftl hi 8) lo)
          end
    end.

Definition stun_message_validate_buffer_length_fast (buffers : list StunInputVector)
    (n_buffers total_length : Z) (has_padding : bool) : outcome Z :=
  if (total_length <? 1) || (n_buffers =? 0) then mret STUN_MESSAGE_BUFFER_INVALID
  else match buffers with
  | [] => Ub
  | v0 :: _ =>
      match iv_buffer v0 with
      | None => mret STUN_MESSAGE_BUFFER_INVALID
      | Some _ =>
          b0 ← iv_getb v0 0;
          if negb (Z.shiftr b0 6 =? 0) then mret STUN_MESSAGE_BUFFER_INVALID
          else if total_length <? STUN_MESSAGE_LENGTH_POS + STUN_MESSAGE_LENGTH_LEN
          then mret STUN_MESSAGE_BUFFER_INCOMPLETE
          else
            mlen ← fast_mlen buffers n_buffers v0;
            let mlen := mlen + STUN_MESSAGE_HEADER_LENGTH in
            if has_padding && negb (stun_padding mlen =? 0) then mret STUN_MESSAGE_BUFFER_INVALID
            else if total_length <? mlen then mret STUN_MESSAGE_BUFFER_INCOMPLETE
            else mret mlen
      end
  end.

(** The attribute walk; [msg] is the offset of the [msg] pointer. *)
Fixpoint validate_loop (fuel : nat) (m : bytes) (has_padding : bool) (mlen msg len : Z)
  : outcome Z :=
  if 0 <? len then
    match fuel with
    | O => Oof
    | S fuel =>
        if len <? 4 then mret STUN_MESSAGE_BUFFER_INVALID
        else
          alen ← stun_getw m (msg + STUN_ATTRIBUTE_TYPE_LEN);
          let alen := if has_padding then stun_align alen else alen in
          let len := len - 4 in
          if len <? alen then mret STUN_MESSAGE_BUFFER_INVALID
          else validate_loop fuel m has_padding mlen (msg + (4 + alen)) (len - alen)
    end
  else mret mlen.

Definition stun_message_validate_buffer_length (msg : bytes) (length : Z) (has_padding : bool)
  : outcome Z :=
  let input_buffer := Build_StunInputVector (Some msg) length in
  fast_retval ← stun_message_validate_buffer_length_fast [input_buffer] 1 length has_padding;
  if fast_retval <=? 0 then mret fast_retval
  else
    let mlen := fast_retval in
    validate_loop (Z.to_nat (mlen - 20)) msg has_padding mlen 20 (mlen - 20).

Definition stun_optional (t : Z) : bool := Z.shiftr t 15 =? 1.

(** ** stun/stun5389.c *)

Definition utf8_skip_data : list Z := [
    1; 1; 1; 1; 1; 1; 1; 1; 1; 1; 1; 1; 1; 1; 1; 1; 1; 1; 1; 1; 1; 1; 1; 1; 1; 1; 1; 1; 1; 1; 1; 1;
    1; 1; 1; 1; 1; 1; 1; 1; 1; 1; 1; 1; 1; 1; 1; 1; 1; 1; 1; 1; 1; 1; 1; 1; 1; 1; 1; 1; 1; 1; 1; 1;
    1; 1; 1; 1; 1; 1; 1; 1; 1; 1; 1; 1; 1; 1; 1; 1; 1; 1; 1; 1; 1; 1; 1; 1; 1; 1; 1; 1; 1; 1; 1; 1;
    1; 1; 1; 1; 1; 1; 1; 1; 1; 1; 1; 1; 1; 1; 1; 1; 1; 1; 1; 1; 1; 1; 1; 1; 1; 1; 1; 1; 1; 1; 1; 1;
    1; 1; 1; 1; 1; 1; 1; 1; 1; 1; 1; 1; 1; 1; 1; 1; 1; 1; 1; 1; 1; 1; 1; 1; 1; 1; 1; 1; 1; 1; 1; 1;
    1; 1; 1; 1; 1; 1; 1; 1; 1; 1; 1; 1; 1; 1; 1; 1; 1; 1; 1; 1; 1; 1; 1; 1; 1; 1; 1; 1; 1; 1; 1; 1;
    2; 2; 2; 2; 2; 2; 2; 2; 2; 2; 2; 2; 2; 2; 2; 2; 2; 2; 2; 2; 2; 2; 2; 2; 2; 2; 2; 2; 2; 2; 2; 2;
    3; 3; 3; 3; 3; 3; 3; 3; 3; 3; 3; 3; 3; 3; 3; 3; 4; 4; 4; 4; 4; 4; 4; 4; 5; 5; 5; 5; 6; 6; 1; 1
  ].

(** The fingerprint, as the word [htonl] leaves in memory. *)
Definition stun_fingerprint (msg : bytes) (len : Z) (wlm2009_stupid_crc32_typo : bool)
  : outcome Z :=
  let fakelen := htons (u16 (len - 20)) in
  crc ← stun_crc32
    [ Build_crc_data msg 0 2;
      Build_crc_data (le 2 fakelen) 0 2;
      Build_crc_data msg 4 (u64 (len - 12)) ] wlm2009_stupid_crc32_typo;
  mret (htonl (Z.lxor crc 0x5354554e)).

(** [while (star ptr && len < 128)]: [software] is a C string with its NUL. *)
Fixpoint software_loop (fuel : nat) (software : bytes) (ptr len : Z) : outcome Z :=
  c ← getb software ptr;
  if negb (c =? 0) && (len <? 128) then
    match fuel with
    | O => Oof
    | S fuel =>
        software_loop fuel software (ptr + nth (Z.to_nat c) utf8_skip_data 0) (len + 1)
    end
  else mret ptr.

(** [software]: NULL or a C string (with its NUL); [PACKAGE_STRING] is set by
    the build. *)
Definition stun_message_append_software (PACKAGE_STRING : bytes) (msg : StunMessage)
    (software : option bytes) : outcome (StunMessage * StunMessageReturn) :=
  let software := match software with None => PACKAGE_STRING | Some s => s end in
  ptr ← software_loop 128 software 0 0;
  data ← slice software 0 ptr;
  stun_message_append_bytes msg STUN_ATTRIBUTE_SOFTWARE data.
