(* ===== verification/StunFacts.v ===== *)
(** * Facts about the STUN message layer

    The abstract view of a message: a header followed by a list of attributes.
    The loads and stores of StunMessage.v are computed on this layout, so that
    the theorems about search, construction and validation are statements
    about attribute lists. *)

From S2P Require Import Prelude Bytes StunCrc32 StunMessage.

(** ** Words in buffers *)

Lemma lor_shift_add b0 b1 : is_u8 b1 → Z.lor (Z.shiftl b0 8) b1 = 2 ^ 8 * b0 + b1.
Proof. intros H. by apply (lor_shiftl_add 8). Qed.

Lemma be2_eq v : be 2 v = [u8 (v / 2 ^ 8); u8 v].
Proof. reflexivity. Qed.

Lemma u8_add_u16 v : 2 ^ 8 * u8 (v / 2 ^ 8) + u8 v = u16 v.
Proof. unfold u8, u16. zlia. Qed.

Lemma getw_app a b0 b1 c i :
  i = zlen a → is_u8 b1 → stun_getw (a ++ b0 :: b1 :: c) i = Done (2 ^ 8 * b0 + b1).
Proof.
  intros -> H. unfold stun_getw. rewrite (getb_app a b0 _ (zlen a)), bind_Done by done.
  replace (a ++ b0 :: b1 :: c) with ((a ++ [b0]) ++ b1 :: c) by (by rewrite <- app_assoc).
  rewrite getb_app, bind_Done by slia. by rewrite lor_shift_add.
Qed.

Lemma getw_be2 a v c i : i = zlen a → stun_getw (a ++ be 2 v ++ c) i = Done (u16 v).
Proof.
  intros Hi. rewrite be2_eq. cbn [app].
  rewrite getw_app by (done || apply u8_range). by rewrite u8_add_u16.
Qed.

Lemma getw_in m i :
  bytes_ok m → 0 ≤ i → i + 2 ≤ zlen m → ∃ w, stun_getw m i = Done w ∧ is_u16 w.
Proof.
  intros Hm Hi Hl. unfold stun_getw.
  destruct (getb_in m i) as (b0 & E0 & _); [lia |].
  destruct (getb_in m (i + 1)) as (b1 & E1 & _); [lia |].
  apply getb_u8 in E0 as R0; apply getb_u8 in E1 as R1; [| done..].
  rewrite E0, bind_Done, E1, bind_Done, lor_shift_add by done.
  eexists; split; [done |]. unfold is_u8, is_u16 in *; lia.
Qed.

Lemma getw_app_split m i w :
  bytes_ok m → stun_getw m i = Done w →
  ∃ a c, m = a ++ be 2 w ++ c ∧ zlen a = i ∧ is_u16 w.
Proof.
  intros Hm H. unfold stun_getw in H. inv_bind.
  apply getb_u8 in Hm0 as R0; apply getb_u8 in Hm1 as R1; [| done..].
  apply getb_inv in Hm0 as [Hi0 L0], Hm1 as [Hi1 L1].
  exists (take (Z.to_nat i) m), (drop (S (S (Z.to_nat i))) m).
  rewrite lor_shift_add by done. unfold is_u8 in *. split; [| split].
  - rewrite be2_eq. replace (u8 _) with a by (unfold u8; zlia).
    replace (u8 _) with a0 by (unfold u8; zlia).
    cbn [app]. rewrite <- (drop_S m a0 (S (Z.to_nat i)))
      by (rewrite <- L1; f_equal; lia).
    rewrite <- (drop_S m a (Z.to_nat i)) by done. by rewrite take_drop.
  - apply zlen_take; lia.
  - unfold is_u16; lia.
Qed.

Lemma setw_app a b c i v :
  i = zlen a → zlen b = 2 → stun_setw (a ++ b ++ c) i v = Done (a ++ be 2 v ++ c).
Proof.
  intros Hi Hb. unfold stun_setw.
  replace [u8 (Z.shiftr v 8); u8 (Z.land v 255)] with (be 2 v).
  - by apply store_app.
  - rewrite be2_eq, Z.shiftr_div_pow2 by lia. change 255 with (Z.ones 8).
    rewrite Z.land_ones by lia. unfold u8. by rewrite Z.mod_mod.
Qed.

Lemma setw_out m i v : zlen m < i + 2 → stun_setw m i v = Ub.
Proof. intros. unfold stun_setw. by apply store_out. Qed.

(** ** Padding and alignment *)

Lemma stun_padding_eq l : stun_padding l = (- l) mod 4.
Proof.
  unfold stun_padding. change 3 with (Z.ones 2). rewrite !Z.land_ones by lia.
  change (2 ^ 2) with 4. zlia.
Qed.

Lemma stun_padding_range l : 0 ≤ stun_padding l < 4.
Proof. rewrite stun_padding_eq. by apply Z.mod_pos_bound. Qed.

Lemma land_m4 x : is_u64 x → Z.land x (u64 (Z.lnot 3)) = 4 * (x / 4).
Proof.
  intros Hx. change (u64 (Z.lnot 3)) with (Z.shiftl (Z.ones 62) 2).
  change 4 with (2 ^ 2). rewrite Z.mul_comm, <- Z.shiftl_mul_pow2, <- Z.shiftr_div_pow2 by lia.
  apply Z.bits_inj'; intros n Hn. rewrite Z.land_spec, !Z.shiftl_spec by lia.
  destruct (Z.ltb_spec n 2).
  - by rewrite !(Z.testbit_neg_r _ (n - 2)), andb_false_r by lia.
  - rewrite Z.shiftr_spec by lia. replace (n - 2 + 2) with n by lia.
    destruct (Z.ltb_spec n 64).
    + by rewrite Z.ones_spec_low, andb_true_r by lia.
    + rewrite <- (u64_small x Hx). unfold u64. by rewrite Z.mod_pow2_bits_high by lia.
Qed.

Lemma stun_align_eq l : 0 ≤ l < 2 ^ 64 - 3 → stun_align l = l + stun_padding l.
Proof.
  intros H. unfold stun_align. rewrite land_m4 by apply u64_range.
  rewrite u64_small by (unfold is_u64; lia). rewrite stun_padding_eq. zlia.
Qed.

(** ** Attributes *)

(** The padding octets of a received attribute are arbitrary. *)
Record attr := Attr { at_type : Z; at_val : bytes; at_pad : bytes }.

Definition attr_enc (a : attr) : bytes :=
  be 2 (at_type a) ++ be 2 (zlen (at_val a)) ++ at_val a ++ at_pad a.

Definition attrs_enc (l : list attr) : bytes := concat (map attr_enc l).

Record attr_ok (aligned : bool) (a : attr) : Prop := {
  ok_type : is_u16 (at_type a);
  ok_len : is_u16 (zlen (at_val a));
  ok_bytes : bytes_ok (at_val a ++ at_pad a);
  ok_pad : zlen (at_pad a) = if aligned then stun_padding (zlen (at_val a)) else 0
}.

(** Space an attribute of [n] value octets takes in the buffer. *)
Definition attr_room (aligned : bool) (n : Z) : Z :=
  4 + n + (if aligned then stun_padding n else 0).

Lemma zlen_attr_enc aligned a :
  attr_ok aligned a → zlen (attr_enc a) = attr_room aligned (zlen (at_val a)).
Proof.
  intros [_ _ _ Hp]. unfold attr_enc, attr_room. rewrite !zlen_app, !zlen_be, Hp. lia.
Qed.

Lemma attrs_enc_cons a l : attrs_enc (a :: l) = attr_enc a ++ attrs_enc l.
Proof. reflexivity. Qed.
Lemma attrs_enc_app l1 l2 : attrs_enc (l1 ++ l2) = attrs_enc l1 ++ attrs_enc l2.
Proof. unfold attrs_enc. by rewrite map_app, concat_app. Qed.

Lemma attr_room_mod4 n : 0 ≤ n → attr_room true n mod 4 = 0.
Proof. intros. unfold attr_room. rewrite stun_padding_eq. zlia. Qed.

Lemma attrs_enc_mod4 l : Forall (attr_ok true) l → zlen (attrs_enc l) mod 4 = 0.
Proof.
  induction 1 as [| a l Ha _ IH]; [done |].
  rewrite attrs_enc_cons, zlen_app, (zlen_attr_enc true a Ha).
  pose proof (attr_room_mod4 (zlen (at_val a)) (zlen_nonneg _)). zlia.
Qed.

Lemma attr_enc_ok aligned a : attr_ok aligned a → bytes_ok (attr_enc a).
Proof.
  intros [_ _ Hb _]. unfold attr_enc. rewrite !bytes_ok_app in *.
  split_and!; [apply be_ok.. | tauto | tauto].
Qed.

Lemma attrs_enc_ok aligned l : Forall (attr_ok aligned) l → bytes_ok (attrs_enc l).
Proof.
  induction 1 as [| a l Ha _ IH]; [constructor |].
  rewrite attrs_enc_cons, bytes_ok_app. split; [by eapply attr_enc_ok | done].
Qed.

(** Length fields as the code advances over them. *)
Definition step_len (aligned : bool) (n : Z) : Z := if aligned then stun_align n else n.

Lemma attr_room_step aligned n : is_u16 n → attr_room aligned n = 4 + step_len aligned n.
Proof.
  unfold is_u16. intros. unfold attr_room, step_len.
  destruct aligned; [rewrite stun_align_eq by lia |]; lia.
Qed.

(** Headers of the attribute at the front of a suffix. *)
Lemma attr_header aligned (p : bytes) a (c : bytes) i :
  attr_ok aligned a → i = zlen p →
  stun_getw (p ++ attr_enc a ++ c) i = Done (at_type a) ∧
  stun_getw (p ++ attr_enc a ++ c) (i + 2) = Done (zlen (at_val a)).
Proof.
  intros Ha ->. unfold attr_enc. split.
  - rewrite <- app_assoc, getw_be2 by done. f_equal. apply u16_small, Ha.
  - rewrite <- !app_assoc, (app_assoc p), getw_be2 by slia. f_equal. apply u16_small, Ha.
Qed.

(** ** Messages as attribute lists *)

(** The header: type octets, length field, transaction identifier. *)
Definition hdr_enc (ty id : bytes) (n : Z) : bytes := ty ++ be 2 n ++ id.

(** The octets [buf] are a header with type octets [ty] and identifier [id],
    announcing the attributes [l]; the attributes; and [rest]. *)
Record layout (aligned : bool) (buf ty id : bytes) (l : list attr) (rest : bytes) : Prop := {
  lay_buf : buf = hdr_enc ty id (zlen (attrs_enc l)) ++ attrs_enc l ++ rest;
  lay_ty : zlen ty = 2;
  lay_id : zlen id = 16;
  lay_ok : bytes_ok (ty ++ id ++ rest);
  lay_attrs : Forall (attr_ok aligned) l;
  lay_fits : zlen (attrs_enc l) < 2 ^ 16
}.

Lemma zlen_hdr_enc ty id n : zlen ty = 2 → zlen id = 16 → zlen (hdr_enc ty id n) = 20.
Proof. unfold hdr_enc. slia. Qed.

Lemma layout_bytes_ok aligned buf ty id l rest :
  layout aligned buf ty id l rest → bytes_ok buf.
Proof.
  intros [-> _ _ Hok Hl _]. unfold hdr_enc. rewrite !bytes_ok_app in *.
  split_and!; try tauto; [apply be_ok | by eapply attrs_enc_ok].
Qed.

(** The message [msg] is so laid out, and its total length is below 2^16, so
    that [stun_message_length] does not wrap. *)
Definition msg_repr (msg : StunMessage) (ty id : bytes) (l : list attr) (rest : bytes) : Prop :=
  layout (negb (no_aligned msg)) (msg_buffer msg) ty id l rest ∧
  zlen (attrs_enc l) + 20 < 2 ^ 16.

(** What a search for [type] means on the attribute list: the first attribute
    of that type, unless a MESSAGE-INTEGRITY (for any type but FINGERPRINT) or
    a FINGERPRINT comes first. *)
Fixpoint attr_find (l : list attr) (type : Z) : option bytes :=
  match l with
  | [] => None
  | a :: l =>
      if at_type a =? type then Some (at_val a)
      else if (at_type a =? STUN_ATTRIBUTE_MESSAGE_INTEGRITY)
              && negb (type =? STUN_ATTRIBUTE_FINGERPRINT) then None
      else if at_type a =? STUN_ATTRIBUTE_FINGERPRINT then None
      else attr_find l type
  end.

(** A C search result denotes the value [v] inside [m]. *)
Definition found (m : bytes) (r : option (Z * Z)) (v : option bytes) : Prop :=
  match r, v with
  | None, None => True
  | Some (o, n), Some v => n = zlen v ∧ ∃ a c, m = a ++ v ++ c ∧ zlen a = o
  | _, _ => False
  end.

Lemma attr_enc_len_pos a : 4 ≤ zlen (attr_enc a).
Proof. unfold attr_enc. slia. Qed.

(** Where the search finds it: offset from the start of [l], and length. *)
Fixpoint attr_pos (l : list attr) (type : Z) : option (Z * Z) :=
  match l with
  | [] => None
  | a :: l =>
      if at_type a =? type then Some (4, zlen (at_val a))
      else if (at_type a =? STUN_ATTRIBUTE_MESSAGE_INTEGRITY)
              && negb (type =? STUN_ATTRIBUTE_FINGERPRINT) then None
      else if at_type a =? STUN_ATTRIBUTE_FINGERPRINT then None
      else match attr_pos l type with
           | Some (o, n) => Some (zlen (attr_enc a) + o, n)
           | None => None
           end
  end.

Lemma find_loop_pos aligned l (p rest : bytes) type fuel :
  Forall (attr_ok aligned) l → (Z.to_nat (zlen (attrs_enc l)) ≤ fuel)%nat →
  find_loop fuel (p ++ attrs_enc l ++ rest) (negb aligned) type
      (zlen p + zlen (attrs_enc l)) (zlen p)
    = Done (match attr_pos l type with Some (o, n) => Some (zlen p + o, n) | None => None end).
Proof.
  intros Hl. revert p fuel. induction Hl as [| a l Ha Hl IH]; intros p fuel Hf.
  - change (zlen (attrs_enc [])) with 0.
    destruct fuel; cbn [find_loop];
      (destruct (Z.ltb_spec (zlen p) (zlen p + 0)); [lia | done]).
  - rewrite attrs_enc_cons, zlen_app in Hf |- *. pose proof (attr_enc_len_pos a).
    pose proof (zlen_nonneg (attrs_enc l)).
    destruct fuel as [| fuel]; [lia |]. cbn [find_loop attr_pos].
    destruct (Z.ltb_spec (zlen p) (zlen p + (zlen (attr_enc a) + zlen (attrs_enc l)))); [| lia].
    rewrite <- (app_assoc (attr_enc a)).
    destruct (attr_header aligned p a (attrs_enc l ++ rest) (zlen p) Ha eq_refl) as [-> E].
    rewrite bind_Done. unfold STUN_ATTRIBUTE_TYPE_LEN, STUN_ATTRIBUTE_VALUE_POS.
    rewrite E, bind_Done.
    destruct (at_type a =? type); [done |].
    destruct (_ && _)%bool; [done |]. destruct (at_type a =? _); [done |].
    specialize (IH (p ++ attr_enc a) fuel). rewrite <- !app_assoc, zlen_app in IH.
    pose proof (zlen_attr_enc aligned a Ha) as Hz.
    rewrite (attr_room_step aligned) in Hz by apply Ha.
    replace (zlen p + 4 + (if negb aligned then zlen (at_val a) else stun_align (zlen (at_val a))))
      with (zlen p + zlen (attr_enc a))
      by (rewrite Hz; unfold step_len; destruct aligned; cbn [negb]; lia).
    rewrite Z.add_assoc, IH by lia.
    destruct (attr_pos l type) as [[o n] |]; [| done]. by rewrite Z.add_assoc.
Qed.

(** That place holds the value. *)
Lemma attr_pos_found l (p rest : bytes) type :
  found (p ++ attrs_enc l ++ rest)
    (match attr_pos l type with Some (o, n) => Some (zlen p + o, n) | None => None end)
    (attr_find l type).
Proof.
  revert p. induction l as [| a l IH]; intros p; [done |]. cbn [attr_pos attr_find].
  destruct (at_type a =? type).
  { split; [done |].
    exists (p ++ be 2 (at_type a) ++ be 2 (zlen (at_val a))), (at_pad a ++ attrs_enc l ++ rest).
    rewrite attrs_enc_cons. unfold attr_enc. rewrite <- !app_assoc. split; [done | slia]. }
  destruct (_ && _)%bool; [done |]. destruct (at_type a =? _); [done |].
  specialize (IH (p ++ attr_enc a)). rewrite <- !app_assoc, zlen_app in IH.
  rewrite attrs_enc_cons, <- app_assoc.
  destruct (attr_pos l type) as [[o n] |]; [| done]. by rewrite Z.add_assoc.
Qed.

(** The search for [type] does not stop at [a]. *)
Definition passes (type : Z) (a : attr) : bool :=
  negb (at_type a =? type) &&
  negb ((at_type a =? STUN_ATTRIBUTE_MESSAGE_INTEGRITY)
        && negb (type =? STUN_ATTRIBUTE_FINGERPRINT)) &&
  negb (at_type a =? STUN_ATTRIBUTE_FINGERPRINT).

Lemma attr_pos_passes l l' type :
  Forall (λ a, passes type a = true) l →
  attr_pos (l ++ l') type
    = match attr_pos l' type with Some (o, n) => Some (zlen (attrs_enc l) + o, n) | None => None end.
Proof.
  induction 1 as [| a l Ha _ IH]; [cbn [app]; by destruct (attr_pos l' type) as [[? ?] |] |].
  cbn [app attr_pos]. unfold passes in Ha.
  destruct (at_type a =? type); [done |].
  destruct ((at_type a =? STUN_ATTRIBUTE_MESSAGE_INTEGRITY) && _)%bool; [done |].
  destruct (at_type a =? STUN_ATTRIBUTE_FINGERPRINT); [done |].
  rewrite IH, attrs_enc_cons, zlen_app.
  destruct (attr_pos l' type) as [[? ?] |]; [| done]. do 2 f_equal. lia.
Qed.

Lemma attr_find_passes l l' type :
  Forall (λ a, passes type a = true) l → attr_find (l ++ l') type = attr_find l' type.
Proof.
  induction 1 as [| a l Ha _ IH]; [done |]. cbn [app attr_find]. unfold passes in Ha.
  destruct (at_type a =? type); [done |].
  destruct ((at_type a =? STUN_ATTRIBUTE_MESSAGE_INTEGRITY) && _)%bool; [done |].
  by destruct (at_type a =? STUN_ATTRIBUTE_FINGERPRINT).
Qed.

Lemma attr_find_app l l' type v :
  attr_find l type = Some v → attr_find (l ++ l') type = Some v.
Proof.
  induction l as [| a l IH]; [done |]. cbn [app attr_find]. by repeat case_match.
Qed.

Lemma lay_length_field aligned buf ty id l rest :
  layout aligned buf ty id l rest →
  stun_getw buf STUN_MESSAGE_LENGTH_POS = Done (zlen (attrs_enc l)).
Proof.
  intros [-> Hty _ _ _ Hf]. unfold hdr_enc. rewrite <- !app_assoc.
  rewrite getw_be2 by (unfold STUN_MESSAGE_LENGTH_POS; lia).
  f_equal. apply u16_small. pose proof (zlen_nonneg (attrs_enc l)). unfold is_u16. lia.
Qed.

Lemma stun_message_length_spec msg ty id l rest :
  msg_repr msg ty id l rest → stun_message_length msg = Done (20 + zlen (attrs_enc l)).
Proof.
  intros [H Hf]. unfold stun_message_length. rewrite (lay_length_field _ _ _ _ _ _ H), bind_Done.
  unfold mret, outcome_ret. f_equal.
  rewrite u16_small; unfold is_u16, STUN_MESSAGE_HEADER_LENGTH, STUN_MESSAGE_ATTRIBUTES_POS; slia.
Qed.

(** The search as a function of the attribute list. *)
Lemma stun_message_find_pos msg ty id l rest type :
  msg_repr msg ty id l rest →
  stun_message_find msg type
    = Done (match attr_pos l (oc2007_type msg type) with
            | Some (o, n) => Some (20 + o, n) | None => None end).
Proof.
  intros H. unfold stun_message_find.
  rewrite (stun_message_length_spec _ _ _ _ _ H), bind_Done.
  destruct H as [[-> Hty Hid Hok Hl _] Hf].
  change STUN_MESSAGE_ATTRIBUTES_POS with 20.
  pose proof (zlen_hdr_enc ty id (zlen (attrs_enc l)) Hty Hid) as Hh. rewrite <- Hh.
  rewrite <- (negb_involutive (no_aligned msg)).
  apply find_loop_pos; [done | slia].
Qed.

Lemma stun_message_find_spec msg ty id l rest type :
  msg_repr msg ty id l rest →
  ∃ r, stun_message_find msg type = Done r
       ∧ found (msg_buffer msg) r (attr_find l (oc2007_type msg type)).
Proof.
  intros H. rewrite (stun_message_find_pos _ _ _ _ _ _ H). eexists; split; [done |].
  destruct H as [[-> Hty Hid _ _ _] _].
  rewrite <- (zlen_hdr_enc ty id (zlen (attrs_enc l)) Hty Hid). apply attr_pos_found.
Qed.

Definition id_cookie (id : bytes) : bool := bool_decide (take 4 id = be 4 STUN_MAGIC_COOKIE).

(** The identifier is read from the header alone. *)
Lemma stun_message_id_hdr msg ty id n x :
  msg_buffer msg = hdr_enc ty id n ++ x → zlen ty = 2 → zlen id = 16 →
  stun_message_id msg = Done id.
Proof.
  intros E Hty Hid. unfold stun_message_id. rewrite E. unfold hdr_enc.
  rewrite <- !app_assoc, (app_assoc ty). apply slice_app; clia.
Qed.

Lemma stun_message_has_cookie_hdr msg ty id n x :
  msg_buffer msg = hdr_enc ty id n ++ x → zlen ty = 2 → zlen id = 16 →
  stun_message_has_cookie msg = Done (id_cookie id).
Proof.
  intros E Hty Hid. unfold stun_message_has_cookie.
  by rewrite (stun_message_id_hdr _ _ _ _ _ E Hty Hid), bind_Done, le_htonl.
Qed.

Lemma stun_message_id_spec msg ty id l rest :
  msg_repr msg ty id l rest → stun_message_id msg = Done id.
Proof. intros [[E Hty Hid _ _ _] _]. by eapply stun_message_id_hdr. Qed.

Lemma stun_message_has_cookie_spec msg ty id l rest :
  msg_repr msg ty id l rest → stun_message_has_cookie msg = Done (id_cookie id).
Proof. intros [[E Hty Hid _ _ _] _]. by eapply stun_message_has_cookie_hdr. Qed.

(** ** Typed searches as functions of the attribute list *)

Lemma attr_find_bytes_ok aligned l t v :
  Forall (attr_ok aligned) l → attr_find l t = Some v → bytes_ok v.
Proof.
  induction 1 as [| a l' [_ _ Hb _] _ IH]; cbn; [done |].
  repeat case_match; try done. intros [= <-]. by apply bytes_ok_app in Hb as [? _].
Qed.

Section typed_find.
Context (msg : StunMessage) (ty id : bytes) (l : list attr) (rest : bytes).
Context (H : msg_repr msg ty id l rest).

Definition value (type : Z) : option bytes := attr_find l (oc2007_type msg type).

(** A slice of a found value. *)
Lemma found_slice o v i n :
  found (msg_buffer msg) (Some (o, n)) (Some v) → 0 ≤ i → ∀ k, 0 ≤ k → i + k ≤ zlen v →
  slice (msg_buffer msg) (o + i) k = slice v i k.
Proof.
  intros [_ (a & c & -> & <-)] Hi k Hk Hl.
  destruct (split_at v i) as (v1 & v2 & -> & Hv1); [lia |].
  rewrite zlen_app in Hl.
  destruct (split_at v2 k) as (v3 & v4 & -> & Hv3); [lia |].
  rewrite (slice_app v1 v3 v4) by lia.
  rewrite <- !app_assoc, (app_assoc a). apply slice_app; [slia | lia].
Qed.

Lemma stun_message_has_attribute_spec type :
  stun_message_has_attribute msg type = Done (bool_decide (is_Some (value type))).
Proof.
  unfold stun_message_has_attribute, value.
  destruct (stun_message_find_spec msg ty id l rest type H) as (r & -> & Hr).
  rewrite bind_Done. destruct r as [[? ?] |], (attr_find _ _); try done.
Qed.

Lemma stun_message_find_flag_spec type :
  stun_message_find_flag msg type = Done
    match value type with
    | None => STUN_MESSAGE_RETURN_NOT_FOUND
    | Some v => if zlen v =? 0 then STUN_MESSAGE_RETURN_SUCCESS else STUN_MESSAGE_RETURN_INVALID
    end.
Proof.
  unfold stun_message_find_flag, value.
  destruct (stun_message_find_spec msg ty id l rest type H) as (r & -> & Hr).
  rewrite bind_Done. destruct r as [[? ?] |], (attr_find _ _); try done.
  by destruct Hr as [-> _].
Qed.

Lemma stun_message_find32_spec type :
  stun_message_find32 msg type = Done
    match value type with
    | None => (STUN_MESSAGE_RETURN_NOT_FOUND, None)
    | Some v => if zlen v =? 4 then (STUN_MESSAGE_RETURN_SUCCESS, Some (of_be v))
                else (STUN_MESSAGE_RETURN_INVALID, None)
    end.
Proof.
  unfold stun_message_find32, value.
  destruct (stun_message_find_spec msg ty id l rest type H) as (r & -> & Hr).
  rewrite bind_Done. destruct r as [[o n] |], (attr_find _ _) as [v |] eqn:Ev; try done.
  pose proof Hr as [-> (a & c & E & Ha)].
  destruct (Z.eqb_spec (zlen v) 4); [| done].
  rewrite E, (slice_app a v c), bind_Done by lia.
  rewrite htonl_of_le; [done.. |]. eapply attr_find_bytes_ok, Ev. apply H.
Qed.

Lemma stun_message_find64_spec type :
  stun_message_find64 msg type = Done
    match value type with
    | None => (STUN_MESSAGE_RETURN_NOT_FOUND, None)
    | Some v => if zlen v =? 8 then (STUN_MESSAGE_RETURN_SUCCESS, Some (of_be v))
                else (STUN_MESSAGE_RETURN_INVALID, None)
    end.
Proof.
  unfold stun_message_find64, value.
  destruct (stun_message_find_spec msg ty id l rest type H) as (r & -> & Hr).
  rewrite bind_Done. destruct r as [[o n] |], (attr_find _ _) as [v |] eqn:Ev; try done.
  pose proof Hr as [-> (a & c & E & Ha)].
  destruct (Z.eqb_spec (zlen v) 8) as [Hz |]; [| done].
  rewrite E, (slice_app a v c), bind_Done by lia.
  eapply attr_find_bytes_ok in Ev; [| apply H].
  destruct (split_at v 4) as (x & y & -> & Hx); [lia |].
  rewrite take_app_length', drop_app_length' by (unfold zlen in Hx; lia).
  rewrite zlen_app in Hz. apply bytes_ok_app in Ev as [Ox Oy].
  rewrite !htonl_of_le by (done || lia). unfold mret, outcome_ret. do 3 f_equal.
  apply of_be_app_4; [lia | done].
Qed.
End typed_find.
