(* ===== verification/StunValidate.v ===== *)
(** * Validation of received STUN datagrams

    What [stun_message_validate_buffer_length] accepts is exactly the well
    formed messages, and the vectored pre-check agrees with the check of the
    concatenated datagram.  At the end: the attribute search ends on any buffer,
    and on a datagram that was accepted it stays inside the message and finds
    exactly what the attribute list holds. *)

From S2P Require Import Prelude Bytes StunMessage StunFacts.

(** ** The pre-check on a contiguous datagram *)

(** Reference: type bits, length field, padding, completeness. *)
Definition validate_flat (m : bytes) (has_padding : bool) : Z :=
  match m with
  | [] => STUN_MESSAGE_BUFFER_INVALID
  | b0 :: m' =>
      if negb (Z.shiftr b0 6 =? 0) then STUN_MESSAGE_BUFFER_INVALID
      else match m' with
      | _ :: b2 :: b3 :: _ =>
          let mlen := 2 ^ 8 * b2 + b3 + STUN_MESSAGE_HEADER_LENGTH in
          if has_padding && negb (stun_padding mlen =? 0) then STUN_MESSAGE_BUFFER_INVALID
          else if zlen m <? mlen then STUN_MESSAGE_BUFFER_INCOMPLETE
          else mlen
      | _ => STUN_MESSAGE_BUFFER_INCOMPLETE
      end
  end.

Definition vec (b : bytes) : StunInputVector := Build_StunInputVector (Some b) (zlen b).
Definition vec_end : StunInputVector := Build_StunInputVector None 0.

(** How a caller passes the vectors [bs]: with their number, or, for a
    negative [n_buffers], followed by a NULL vector. *)
Definition vectors (n_buffers : Z) (bs : list bytes) : list StunInputVector :=
  map vec bs ++ (if n_buffers <? 0 then [vec_end] else []).

Definition vectors_ok (n_buffers : Z) (bs : list bytes) : Prop :=
  (n_buffers < 0 ∨ n_buffers = zlen bs) ∧
  Forall (λ b, b ≠ [] ∧ bytes_ok b) bs ∧ zlen (concat bs) < 2 ^ 64.

Lemma skip_loop_spec n bs i s :
  (n < 0 ∨ n = i + zlen bs) → 0 ≤ i → Forall (λ b, b ≠ [] ∧ bytes_ok b) bs →
  0 ≤ s < zlen (concat bs) →
  ∃ pre b bs' k,
    concat bs = pre ++ concat (b :: bs') ∧ Forall (λ b, b ≠ [] ∧ bytes_ok b) (b :: bs') ∧
    skip_loop (vectors n bs) n i s = Done (vectors n (b :: bs'), k) ∧
    zlen pre + k = s ∧ 0 ≤ k < zlen b.
Proof.
  intros Hn Hi Hbs. revert i s Hn Hi.
  induction Hbs as [| b bs Hb Hbs IH]; intros i s Hn Hi Hs; [cbn in Hs; slia |].
  cbn [concat] in Hs. rewrite zlen_app in Hs. zlen_simpl.
  assert (Hdecide : skip_loop (vectors n (b :: bs)) n i s
    = if zlen b <=? s then skip_loop (vectors n bs) n (i + 1) (s - zlen b)
      else Done (vectors n (b :: bs), s)).
  { unfold vectors. cbn [map app skip_loop vec iv_size iv_buffer].
    destruct (Z.leb_spec 0 n), (Z.ltb_spec n 0); try lia; [| done].
    destruct (Z.ltb_spec i n); [done | slia]. }
  rewrite Hdecide. destruct (Z.leb_spec (zlen b) s).
  - destruct (IH (i + 1) (s - zlen b)) as (pre & b' & bs' & k & E & Hf & -> & Hk & Hr); try slia.
    exists (b ++ pre), b', bs', k. cbn [concat]. rewrite E, <- app_assoc, zlen_app.
    split_and!; auto; lia.
  - exists [], b, bs, s. split_and!; auto; slia.
Qed.

Lemma vec_getw_first (b : bytes) (c : bytes) k :
  bytes_ok b → 0 ≤ k → k + 2 ≤ zlen b →
  ∃ w, stun_getw b k = Done w ∧ stun_getw (b ++ c) k = Done w.
Proof.
  intros Hb Hk Hl. destruct (getw_in b k Hb Hk Hl) as (w & Hw & Rw).
  exists w. split; [done |].
  apply getw_app_split in Hw as (a & d & -> & Ha & _); [| done].
  rewrite <- !app_assoc, getw_be2 by done. by rewrite u16_small.
Qed.

(** The length field read through the vectors. *)
Lemma vec_length_field bs pre b bs' k m :
  m = pre ++ concat (b :: bs') → Forall (λ b, b ≠ [] ∧ bytes_ok b) (b :: bs') →
  zlen m < 2 ^ 64 → 0 ≤ k < zlen b → zlen pre + k = 2 → 4 ≤ zlen m →
  (if 1 <? u64 (zlen b - k) then iv_getw (vec b) k
   else hi ← iv_getb (vec b) k;
        match map vec bs' ++ bs with
        | [] => Ub
        | v' :: _ => lo ← iv_getb v' 0; mret (Z.lor (Z.shiftl hi 8) lo)
        end) = stun_getw m 2.
Proof.
  intros -> Hf Hm Hk Hp Hl. cbn [concat] in *. rewrite !zlen_app in *.
  apply Forall_cons_1 in Hf as [[_ Hb] Hf]. zlen_pos.
  rewrite u64_small by (unfold is_u64; lia).
  destruct (Z.ltb_spec 1 (zlen b - k)).
  - unfold iv_getw, vec; cbn [iv_buffer].
    destruct (vec_getw_first b (concat bs') k Hb) as (w & -> & Hw); [lia.. |].
    apply getw_app_split in Hw as (a & d & E & Ha & Rw).
    + rewrite E, app_assoc, getw_be2 by slia. by rewrite u16_small.
    + apply bytes_ok_app; split; [done |]. clear -Hf.
      induction Hf as [| x l Hx _ IH]; cbn; [constructor |]. apply bytes_ok_app. tauto.
  - destruct (split_at b k) as (a & r & -> & Ha); [lia |].
    rewrite zlen_app in *. destruct r as [| hi [| ? ?]]; [slia | | slia].
    destruct bs' as [| b' bs']; [cbn in *; slia |].
    apply Forall_cons_1 in Hf as [[Hne Hb'] _]. destruct b' as [| lo b']; [done |].
    apply Forall_cons_1 in Hb' as [Hlo _].
    unfold iv_getb, vec; cbn [iv_buffer map app concat].
    rewrite (getb_app a hi [] k), bind_Done by done.
    rewrite getb_0, bind_Done.
    replace (pre ++ (a ++ [hi]) ++ lo :: b' ++ concat bs') with
      ((pre ++ a) ++ hi :: lo :: b' ++ concat bs') by (by rewrite <- !app_assoc).
    rewrite getw_app by (done || slia). by rewrite lor_shift_add.
Qed.

Lemma concat_bytes_ok bs : Forall (λ b, b ≠ [] ∧ bytes_ok b) bs → bytes_ok (concat bs).
Proof.
  induction 1 as [| x l Hx _ IH]; cbn [concat]; [constructor |]. apply bytes_ok_app. tauto.
Qed.

Lemma fast_mlen_spec n b bs :
  vectors_ok n (b :: bs) → 4 ≤ zlen (concat (b :: bs)) →
  fast_mlen (vectors n (b :: bs)) n (vec b) = stun_getw (concat (b :: bs)) 2.
Proof.
  intros (Hn & Hbs & Hmax) Hl. pose proof (Forall_cons_1 _ _ _ Hbs) as [[_ Hb] _].
  unfold fast_mlen, STUN_MESSAGE_LENGTH_POS, STUN_MESSAGE_LENGTH_LEN. cbn [iv_size vec].
  destruct (Z.leb_spec (2 + 2) (zlen b)).
  - destruct (vec_getw_first b (concat bs) 2 Hb) as (w & Hw & Hw'); [lia.. |].
    unfold iv_getw; cbn [iv_buffer vec concat]. by rewrite Hw, Hw'.
  - destruct (skip_loop_spec n (b :: bs) 0 2) as
      (pre & b1 & bs' & k & E & Hf & -> & Hk & Hr); [done.. | lia |].
    rewrite bind_Done. unfold vectors; cbn [map app].
    by apply (vec_length_field (if n <? 0 then [vec_end] else []) pre b1 bs' k).
Qed.

(** The slow path, the fast path and the contiguous check agree. *)
Lemma validate_fast_flat bs n has_padding :
  vectors_ok n bs →
  stun_message_validate_buffer_length_fast (vectors n bs) n (zlen (concat bs)) has_padding
  = Done (validate_flat (concat bs) has_padding).
Proof.
  intros Hv. pose proof Hv as (Hn & Hbs & Hmax).
  unfold stun_message_validate_buffer_length_fast.
  destruct bs as [| b bs]; [by destruct has_padding |].
  pose proof (Forall_cons_1 _ _ _ Hbs) as [[Hne Hb] _].
  pose proof (fast_mlen_spec n b bs Hv) as Hw. pose proof (concat_bytes_ok _ Hbs) as Hok.
  destruct b as [| b0 b']; [done |]. cbn [concat app] in *. 
  set (m' := b' ++ concat bs) in *. pose proof (zlen_nonneg m'). zlen_simpl.
  destruct (Z.ltb_spec (1 + zlen m') 1); [lia |].
  destruct (Z.eqb_spec n 0) as [-> | _]; [zlen_pos; lia |].
  unfold vectors at 1. cbn [orb map app vec iv_buffer iv_getb]. rewrite getb_0, bind_Done.
  unfold validate_flat. destruct (negb (b0 ≫ 6 =? 0)); [done |].
  unfold STUN_MESSAGE_LENGTH_POS, STUN_MESSAGE_LENGTH_LEN.
  destruct (Z.ltb_spec (1 + zlen m') (2 + 2)).
  { destruct m' as [| ? [| ? [| ? ?]]]; [done.. | slia]. }
  fold (vec (b0 :: b')). rewrite Hw by lia.
  destruct m' as [| b1 [| b2 [| b3 m']]]; [zlen_simpl; lia.. |].
  change (b0 :: b1 :: b2 :: b3 :: m') with ([b0; b1] ++ b2 :: b3 :: m') at 1.
  rewrite (getw_app [b0; b1] b2 b3 m' 2); [| done |].
  - rewrite bind_Done. zlen_simpl. repeat case_match; done.
  - by repeat (apply Forall_cons_1 in Hok as [? Hok]).
Qed.

(** ** The attribute walk *)

Lemma validate_loop_complete aligned l (p rest : bytes) mlen fuel :
  Forall (attr_ok aligned) l → (Z.to_nat (zlen (attrs_enc l)) ≤ fuel)%nat →
  validate_loop fuel (p ++ attrs_enc l ++ rest) aligned mlen (zlen p) (zlen (attrs_enc l))
  = Done mlen.
Proof.
  intros Hl. revert p fuel. induction Hl as [| a l Ha Hl IH]; intros p fuel Hf.
  - change (zlen (attrs_enc [])) with 0. by destruct fuel.
  - rewrite attrs_enc_cons, zlen_app in Hf |- *. pose proof (attr_enc_len_pos a).
    pose proof (zlen_nonneg (attrs_enc l)).
    destruct fuel as [| fuel]; [lia |]. cbn [validate_loop].
    destruct (Z.ltb_spec 0 (zlen (attr_enc a) + zlen (attrs_enc l))); [| lia].
    destruct (Z.ltb_spec (zlen (attr_enc a) + zlen (attrs_enc l)) 4); [lia |].
    rewrite <- (app_assoc (attr_enc a)).
    destruct (attr_header aligned p a (attrs_enc l ++ rest) (zlen p) Ha eq_refl) as [_ E].
    unfold STUN_ATTRIBUTE_TYPE_LEN. rewrite E, bind_Done.
    fold (step_len aligned (zlen (at_val a))).
    pose proof (zlen_attr_enc aligned a Ha) as Hz.
    rewrite (attr_room_step aligned) in Hz by apply Ha.
    destruct (Z.ltb_spec (zlen (attr_enc a) + zlen (attrs_enc l) - 4) (step_len aligned (zlen (at_val a)))); [lia |].
    specialize (IH (p ++ attr_enc a) fuel). rewrite <- app_assoc, zlen_app in IH.
    rewrite <- Hz, <- (IH ltac:(lia)). f_equal; lia.
Qed.

(** Reading one attribute header off a suffix [q] of the message. *)
Lemma attr_split aligned (q : bytes) t alen :
  bytes_ok q → stun_getw q 0 = Done t → stun_getw q 2 = Done alen →
  4 + step_len aligned alen ≤ zlen q →
  ∃ a q', q = attr_enc a ++ q' ∧ attr_ok aligned a ∧ zlen (at_val a) = alen.
Proof.
  intros Hq Ht Hl Hfit.
  apply getw_app_split in Ht as (x & c & -> & Hx & Rt); [| done].
  apply zlen_0_inv in Hx as ->. cbn [app] in *.
  apply getw_app_split in Hl as (x & c' & E & Hx & Rl); [| done].
  apply app_inj_zlen in E as [<- ->]; [| slia].
  pose proof (stun_padding_range alen) as Hp.
  assert (Hs : step_len aligned alen = alen + if aligned then stun_padding alen else 0).
  { pose proof (attr_room_step aligned alen Rl) as E. unfold attr_room in E. lia. }
  rewrite Hs in Hfit. zlen_simpl. unfold is_u16 in Rl.
  destruct (split_at c' alen) as (v & r & -> & Hv); [destruct aligned; lia |].
  rewrite zlen_app in Hfit.
  destruct (split_at r (if aligned then stun_padding alen else 0)) as (pad & q' & -> & Hpad);
    [destruct aligned; lia |].
  exists (Attr t v pad), q'. unfold attr_enc; cbn [at_type at_val at_pad]. rewrite Hv.
  split_and!; [by rewrite <- !app_assoc | | done].
  rewrite !bytes_ok_app in Hq. split; cbn [at_type at_val at_pad]; rewrite ?Hv; auto.
  rewrite bytes_ok_app; tauto.
Qed.

(** The walk always ends, with -1 or with [mlen]; in the latter case it has
    passed over a list of attributes. *)
Lemma validate_loop_sound aligned fuel (p q rest : bytes) mlen :
  bytes_ok q → (Z.to_nat (zlen q) ≤ fuel)%nat →
  validate_loop fuel (p ++ q ++ rest) aligned mlen (zlen p) (zlen q)
    = Done STUN_MESSAGE_BUFFER_INVALID ∨
  validate_loop fuel (p ++ q ++ rest) aligned mlen (zlen p) (zlen q) = Done mlen ∧
  ∃ l, q = attrs_enc l ∧ Forall (attr_ok aligned) l.
Proof.
  revert p q. induction fuel as [| fuel IH]; intros p q Hq Hf; pose proof (zlen_nonneg q).
  - assert (zlen q = 0) as Hz by lia. apply zlen_0_inv in Hz as ->.
    right. split; [done | by exists []].
  - cbn [validate_loop]. destruct (Z.ltb_spec 0 (zlen q)).
    2: { assert (zlen q = 0) as Hz by lia. apply zlen_0_inv in Hz as ->.
         right. split; [done | by exists []]. }
    destruct (Z.ltb_spec (zlen q) 4); [by left |].
    destruct (getw_in q 0 Hq) as (t & Ht & _); [lia.. |].
    destruct (getw_in q 2 Hq) as (alen & Hl & Rl); [lia.. |].
    assert (stun_getw (p ++ q ++ rest) (zlen p + STUN_ATTRIBUTE_TYPE_LEN) = Done alen) as ->.
    { apply getw_app_split in Hl as (x & c & -> & Hx & _); [| done].
      rewrite <- !app_assoc, (app_assoc p), getw_be2 by (unfold STUN_ATTRIBUTE_TYPE_LEN; slia).
      by rewrite u16_small. }
    rewrite bind_Done. fold (step_len aligned alen).
    destruct (Z.ltb_spec (zlen q - 4) (step_len aligned alen)); [by left |].
    destruct (attr_split aligned q t alen) as (a & q' & -> & Ha & Hal); [done.. | lia |].
    pose proof (zlen_attr_enc aligned a Ha) as Hz.
    rewrite (attr_room_step aligned), Hal in Hz by (by rewrite Hal).
    apply bytes_ok_app in Hq as [_ Hq']. rewrite zlen_app in *.
    replace (zlen p + (4 + step_len aligned alen)) with (zlen (p ++ attr_enc a)) by slia.
    replace (zlen (attr_enc a) + zlen q' - 4 - step_len aligned alen) with (zlen q') by lia.
    rewrite <- (app_assoc (attr_enc a)), (app_assoc p).
    pose proof (attr_enc_len_pos a).
    destruct (IH (p ++ attr_enc a) q' Hq') as [-> | [-> (l & -> & Hl')]]; [lia | by left |].
    right. split; [done |]. exists (a :: l). by split; [| constructor].
Qed.

(** ** Main results *)

(** A well formed STUN message at the front of [buf]: the two top bits of the
    type are zero and the length field announces exactly the attributes. *)
Definition stun_wf (aligned : bool) (buf ty id : bytes) (l : list attr) (rest : bytes) : Prop :=
  layout aligned buf ty id l rest ∧ ∃ b0 b1, ty = [b0; b1] ∧ b0 < 64.

Lemma shiftr6_lt b : is_u8 b → Z.shiftr b 6 = 0 ↔ b < 64.
Proof.
  unfold is_u8. intros. rewrite Z.shiftr_div_pow2 by lia. change (2 ^ 6) with 64. zlia.
Qed.

Lemma validate_flat_wf aligned buf ty id l rest :
  stun_wf aligned buf ty id l rest →
  validate_flat buf aligned = 20 + zlen (attrs_enc l).
Proof.
  intros ([-> Hty Hid Hok Hl Hf] & b0 & b1 & -> & Hb).
  apply Forall_cons_1 in Hok as [Rb _].
  unfold hdr_enc. rewrite be2_eq. cbn [app validate_flat].
  apply (proj2 (shiftr6_lt b0 Rb)) in Hb. rewrite Hb. cbn [Z.eqb negb].
  rewrite u8_add_u16. pose proof (zlen_nonneg (attrs_enc l)).
  rewrite u16_small by (unfold is_u16; lia).
  unfold STUN_MESSAGE_HEADER_LENGTH, STUN_MESSAGE_ATTRIBUTES_POS.
  replace (aligned && _)%bool with false.
  - zlen_simpl. pose proof (zlen_nonneg rest). case_match eqn:E; [| lia].
    apply Z.ltb_lt in E. lia.
  - destruct aligned; [| done]. cbn [andb]. rewrite stun_padding_eq.
    pose proof (attrs_enc_mod4 l Hl).
    replace ((- (zlen (attrs_enc l) + 20)) mod 4) with 0 by zlia. done.
Qed.

Lemma validate_flat_inv buf has_padding :
  bytes_ok buf → 0 < validate_flat buf has_padding →
  ∃ b0 b1 w id t, buf = hdr_enc [b0; b1] id w ++ t ∧ b0 < 64 ∧ is_u16 w ∧
    zlen id = 16 ∧ validate_flat buf has_padding = w + 20 ∧ w ≤ zlen t.
Proof.
  intros Hok Hpos. unfold validate_flat in *.
  destruct buf as [| b0 m']; [done |].
  destruct (Z.shiftr b0 6 =? 0) eqn:Eb; cbn [negb] in *; [| done].
  destruct m' as [| b1 [| b2 [| b3 m']]]; [done.. |].
  destruct (has_padding && _)%bool; [done |].
  destruct (Z.ltb_spec (zlen (b0 :: b1 :: b2 :: b3 :: m')) (2 ^ 8 * b2 + b3 + STUN_MESSAGE_HEADER_LENGTH));
    [done |].
  unfold STUN_MESSAGE_HEADER_LENGTH, STUN_MESSAGE_ATTRIBUTES_POS in *. zlen_simpl.
  repeat (apply Forall_cons_1 in Hok as [? Hok]).
  apply Z.eqb_eq, shiftr6_lt in Eb; [| done]. unfold is_u8 in *.
  destruct (split_at m' 16) as (id & t & -> & Hid); [lia |].
  exists b0, b1, (2 ^ 8 * b2 + b3), id, t. rewrite zlen_app in *.
  split_and!; auto; [| unfold is_u16; lia | lia].
  unfold hdr_enc. rewrite be2_eq. cbn [app]. do 4 f_equal; unfold u8; zlia.
Qed.

Lemma validate_single buf has_padding :
  bytes_ok buf → zlen buf < 2 ^ 64 →
  stun_message_validate_buffer_length_fast [Build_StunInputVector (Some buf) (zlen buf)]
    1 (zlen buf) has_padding = Done (validate_flat buf has_padding).
Proof.
  intros Hok Hl. destruct buf as [| b m]; [done |].
  pose proof (validate_fast_flat [b :: m] 1 has_padding) as H.
  cbn [concat] in H. rewrite app_nil_r in H. apply H.
  split_and!; [by right | by constructor; [split | constructor] |].
  cbn [concat]. by rewrite app_nil_r.
Qed.

Lemma validate_complete aligned buf ty id l rest :
  bytes_ok buf → zlen buf < 2 ^ 64 → stun_wf aligned buf ty id l rest →
  stun_message_validate_buffer_length buf (zlen buf) aligned = Done (20 + zlen (attrs_enc l)).
Proof.
  intros Hok Hmax Hwf. unfold stun_message_validate_buffer_length.
  rewrite validate_single, bind_Done, (validate_flat_wf _ _ _ _ _ _ Hwf) by done.
  destruct Hwf as [[-> Hty Hid _ Hl _] _]. pose proof (zlen_nonneg (attrs_enc l)).
  pose proof (zlen_hdr_enc ty id (zlen (attrs_enc l)) Hty Hid) as Hh.
  destruct (Z.leb_spec (20 + zlen (attrs_enc l)) 0); [lia |].
  rewrite Z.add_simpl_l. generalize (20 + zlen (attrs_enc l)) as mlen; intros mlen.
  rewrite <- Hh. by apply validate_loop_complete.
Qed.

Lemma validate_sound buf has_padding :
  bytes_ok buf → zlen buf < 2 ^ 64 →
  ∃ r, stun_message_validate_buffer_length buf (zlen buf) has_padding = Done r ∧
    (r = STUN_MESSAGE_BUFFER_INVALID ∨ r = STUN_MESSAGE_BUFFER_INCOMPLETE ∨
     ∃ ty id l rest, r = 20 + zlen (attrs_enc l) ∧ stun_wf has_padding buf ty id l rest).
Proof.
  intros Hok Hmax. unfold stun_message_validate_buffer_length.
  rewrite validate_single, bind_Done by done.
  destruct (Z.leb_spec (validate_flat buf has_padding) 0) as [Hr | Hr].
  - eexists; split; [done |].
    unfold validate_flat in *. repeat case_match; auto; exfalso; subst;
      repeat (apply Forall_cons_1 in Hok as [? Hok]); unfold is_u8, STUN_MESSAGE_HEADER_LENGTH,
      STUN_MESSAGE_ATTRIBUTES_POS in *; lia.
  - destruct (validate_flat_inv buf has_padding Hok Hr)
      as (b0 & b1 & w & id & t & E & Hb & Rw & Hid & -> & Hw).
    unfold is_u16 in Rw. destruct (split_at t w) as (q & rest & -> & Hq); [lia |].
    pose proof (zlen_hdr_enc [b0; b1] id w eq_refl Hid) as Hh.
    rewrite E in Hok. unfold hdr_enc in Hok. rewrite !bytes_ok_app in Hok.
    destruct Hok as ((Hokt & _ & Hoki) & Hokq & Hokr).
    replace (w + 20 - 20) with (zlen q) by lia. rewrite E, <- Hh.
    destruct (validate_loop_sound has_padding (Z.to_nat (zlen q)) (hdr_enc [b0; b1] id w) q
      rest (w + zlen (hdr_enc [b0; b1] id w)) Hokq) as [-> | [-> (l & -> & Hl)]]; [lia | eauto |].
    eexists; split; [done |]. right; right. exists [b0; b1], id, l, rest. rewrite <- Hq in *.
    split; [lia |]. split; [| eauto]. split; auto; [| lia].
    rewrite !bytes_ok_app. tauto.
Qed.

(** C1: the thorough check [stun_message_validate_buffer_length] never reads
    outside the datagram, always ends, and returns a positive length exactly
    when the datagram starts with a well formed message (header, type bits
    zero, length field equal to the length of a list of complete attributes);
    the length returned is the length of that message. *)
Theorem stun_validate_spec (buf : bytes) (has_padding : bool)
    (Hok : bytes_ok buf) (Hmax : zlen buf < 2 ^ 64) :
  ∃ r, stun_message_validate_buffer_length buf (zlen buf) has_padding = Done r ∧
    (r = STUN_MESSAGE_BUFFER_INVALID ∨ r = STUN_MESSAGE_BUFFER_INCOMPLETE ∨
     ∃ ty id l rest, r = 20 + zlen (attrs_enc l) ∧ stun_wf has_padding buf ty id l rest) ∧
    ∀ ty id l rest, stun_wf has_padding buf ty id l rest → r = 20 + zlen (attrs_enc l).
Proof.
  destruct (validate_sound buf has_padding Hok Hmax) as (r & Hr & Hcase).
  exists r. split_and!; [done.. |]. intros ty id l rest Hwf.
  pose proof (validate_complete _ _ _ _ _ _ Hok Hmax Hwf) as H. rewrite Hr in H. by injection H.
Qed.

(** A binding request with one empty USE-CANDIDATE attribute. *)
Definition demo_request : bytes :=
  [0; 1; 0; 4] ++ be 4 STUN_MAGIC_COOKIE ++ repeat 7 12 ++ [0; 0x25; 0; 0].

Lemma demo_request_ok : bytes_ok demo_request.
Proof. by_compute. Defined.

Lemma stun_validate_spec_witness :
  bytes_ok demo_request ∧
  (∃ r, stun_message_validate_buffer_length demo_request (zlen demo_request) true = Done r ∧
    (r = STUN_MESSAGE_BUFFER_INVALID ∨ r = STUN_MESSAGE_BUFFER_INCOMPLETE ∨
     ∃ ty id l rest, r = 20 + zlen (attrs_enc l) ∧ stun_wf true demo_request ty id l rest) ∧
    ∀ ty id l rest, stun_wf true demo_request ty id l rest → r = 20 + zlen (attrs_enc l)) ∧
  stun_message_validate_buffer_length demo_request 24 true = Done 24.
Proof.
  split_and!; [apply demo_request_ok | | vm_compute; reflexivity].
  apply (stun_validate_spec demo_request true demo_request_ok). vm_compute; reflexivity.
Defined.

(** The vectored pre-check over any number of non-empty buffers, counted
    or NULL-terminated, gives the verdict of the contiguous reference check
    [validate_flat] on the concatenated datagram, whichever of its two paths
    reads the length field. *)
Theorem stun_validate_fast_vectored (bs : list bytes) (n_buffers : Z) (has_padding : bool)
    (Hv : vectors_ok n_buffers bs) :
  stun_message_validate_buffer_length_fast (vectors n_buffers bs) n_buffers
    (zlen (concat bs)) has_padding
  = Done (validate_flat (concat bs) has_padding).
Proof. by apply validate_fast_flat. Qed.

(** The length field split over two vectors, NULL-terminated. *)
Lemma stun_validate_fast_vectored_witness :
  let bs := [take 1 demo_request; take 2 (drop 1 demo_request); drop 3 demo_request] in
  vectors_ok (-1) bs ∧
  stun_message_validate_buffer_length_fast (vectors (-1) bs) (-1) (zlen (concat bs)) true
    = Done (validate_flat (concat bs) true) ∧
  validate_flat (concat bs) true = 24.
Proof.
  intros bs.
  assert (Hv : vectors_ok (-1) bs).
  { split_and!; [by left | | vm_compute; reflexivity].
    by_compute. }
  split_and!; [done | by apply stun_validate_fast_vectored | vm_compute; reflexivity].
Defined.

(** ** Searching received messages *)

Lemma stun_align_nonneg n : 0 ≤ stun_align n.
Proof.
  unfold stun_align. apply Z.land_nonneg. left. pose proof (u64_range (n + 3)).
  unfold is_u64 in *. lia.
Qed.

Lemma stun_getw_range m i w : bytes_ok m → stun_getw m i = Done w → 0 ≤ w.
Proof. intros Hm H. destruct (getw_app_split m i w Hm H) as (_ & _ & _ & _ & [Hw _]). done. Qed.

(** The fuel of [find_loop] is enough: every turn moves on by at least four
    octets. *)
Lemma find_loop_fuel m unaligned type length fuel offset :
  bytes_ok m → (Z.to_nat (length - offset) ≤ fuel)%nat →
  find_loop fuel m unaligned type length offset ≠ Oof.
Proof.
  intros Hm. revert offset. induction fuel as [| fuel IH]; intros offset Hf; cbn [find_loop].
  - by destruct (Z.ltb_spec offset length); [lia |].
  - destruct (Z.ltb_spec offset length); [| done].
    destruct (stun_getw m offset) as [ty | |] eqn:E1; [| done |].
    2: { exfalso. revert E1. unfold stun_getw, getb. by repeat case_match. }
    rewrite bind_Done.
    destruct (stun_getw m (offset + _)) as [al | |] eqn:E2; [| done |].
    2: { exfalso. revert E2. unfold stun_getw, getb. by repeat case_match. }
    rewrite bind_Done. repeat case_match; try done; apply IH;
      unfold STUN_ATTRIBUTE_VALUE_POS in *.
    + apply stun_getw_range in E2; [lia | done].
    + pose proof (stun_align_nonneg al). lia.
Qed.

(** [stun_message_find] always ends: on a buffer of octets, valid or not,
    the loop leaves within [stun_message_length] turns. *)
Theorem stun_message_find_terminates (msg : StunMessage) (type : Z)
    (Hok : bytes_ok (msg_buffer msg)) : stun_message_find msg type ≠ Oof.
Proof.
  unfold stun_message_find. destruct (stun_message_length msg) as [n | |] eqn:E; [| done |].
  - rewrite bind_Done. apply find_loop_fuel; [done |].
    unfold STUN_MESSAGE_ATTRIBUTES_POS. lia.
  - exfalso. revert E. unfold stun_message_length, stun_getw, getb. by repeat case_match.
Qed.

(** Even where an attribute length leads out of the buffer. *)
Lemma stun_message_find_terminates_witness :
  let msg := Build_StunMessage None ([0; 1; 0; 8] ++ repeat 0 16 ++ [0; 6; 0; 2; 97; 98; 32; 32])
               None (repeat 0 16) false in
  stun_message_find msg STUN_ATTRIBUTE_PRIORITY ≠ Oof.
Proof. intros msg. apply (stun_message_find_terminates msg). by_compute. Defined.

(** C38: once the thorough check has accepted the received datagram, searching
    it for any type reads inside the message only.  The result is what the
    attribute list of the datagram holds, unless the message is 2^16 octets or
    more, when the 16-bit length wraps and nothing is ever found. *)
Theorem validated_find_spec (msg : StunMessage) (n : Z)
    (Hok : bytes_ok (msg_buffer msg)) (Hmax : zlen (msg_buffer msg) < 2 ^ 64)
    (Hval : stun_message_validate_buffer_length (msg_buffer msg) (zlen (msg_buffer msg))
      (negb (no_aligned msg)) = Done n) (Hn : 0 < n) :
  ∃ ty id l rest,
    stun_wf (negb (no_aligned msg)) (msg_buffer msg) ty id l rest ∧ n = 20 + zlen (attrs_enc l) ∧
    ∀ type, ∃ r, stun_message_find msg type = Done r ∧
      found (msg_buffer msg) r (if n <? 2 ^ 16 then attr_find l (oc2007_type msg type) else None).
Proof.
  destruct (validate_sound _ (negb (no_aligned msg)) Hok Hmax) as (r & Hr & Hcase).
  rewrite Hval in Hr. injection Hr as <-.
  destruct Hcase as [-> | [-> | (ty & id & l & rest & -> & Hwf)]]; [done.. |].
  exists ty, id, l, rest. split_and!; [done.. |]. intros type. destruct Hwf as [Hl Hb].
  destruct (Z.ltb_spec (20 + zlen (attrs_enc l)) (2 ^ 16)).
  - apply (stun_message_find_spec msg ty id l rest). split; [done | lia].
  - exists None. split; [| done]. unfold stun_message_find, stun_message_length.
    rewrite (lay_length_field _ _ _ _ _ _ Hl), bind_Done.
    pose proof (lay_fits _ _ _ _ _ _ Hl). autounfold with stun_consts.
    unfold mret, outcome_ret. rewrite bind_Done.
    replace (u16 (zlen (attrs_enc l) + 20)) with (zlen (attrs_enc l) + 20 - 2 ^ 16)
      by (unfold u16; zlia).
    set (k := zlen (attrs_enc l) + 20 - 2 ^ 16) in *.
    destruct (Z.to_nat k); cbn [find_loop]; destruct (Z.ltb_spec 20 k); try done; lia.
Qed.

Lemma validated_find_spec_witness :
  let msg := Build_StunMessage None demo_request None (repeat 0 16) false in
  stun_message_validate_buffer_length demo_request (zlen demo_request) true = Done 24 ∧
  ∃ ty id l rest, stun_wf true demo_request ty id l rest ∧ 24 = 20 + zlen (attrs_enc l) ∧
    ∀ type, ∃ r, stun_message_find msg type = Done r ∧
      found demo_request r (if 24 <? 2 ^ 16 then attr_find l (oc2007_type msg type) else None).
Proof.
  intros msg. split; [vm_compute; reflexivity |].
  apply (validated_find_spec msg 24);
    [apply demo_request_ok | vm_compute; reflexivity | vm_compute; reflexivity | lia].
Defined.
