(* ===== verification/StunBuild.v ===== *)
(** * Building STUN messages

    [stun_message_init] yields a message with no attributes and each
    [stun_message_append_...] adds one attribute at the end of the list, so
    that what was appended is what a search on the result finds. *)

From S2P Require Import Prelude Bytes StunMessage StunFacts.

(** ** The attribute the code writes for [data]

    Without the magic cookie (RFC 3489 peers) the padding counts as data. *)
Definition spaces (n : Z) : bytes := replicate (Z.to_nat n) 0x20.

Definition new_attr (aligned cookie : bool) (type : Z) (data : bytes) : attr :=
  if aligned then
    if cookie then Attr type data (spaces (stun_padding (zlen data)))
    else Attr type (data ++ spaces (stun_padding (zlen data))) []
  else Attr type data [].

Lemma zlen_spaces n : 0 ≤ n → zlen (spaces n) = n.
Proof. intros. unfold spaces. rewrite zlen_replicate. lia. Qed.
Lemma spaces_ok n : bytes_ok (spaces n).
Proof. apply Forall_replicate. unfold is_u8. lia. Qed.

Lemma stun_padding_mod4 n : n mod 4 = 0 → stun_padding n = 0.
Proof. rewrite stun_padding_eq. intros. zlia. Qed.

Lemma pad_total_mod4 n : (n + stun_padding n) mod 4 = 0.
Proof. rewrite stun_padding_eq. zlia. Qed.

Lemma new_attr_ok aligned cookie type data :
  is_u16 type → bytes_ok data → attr_room aligned (zlen data) < 2 ^ 16 →
  attr_ok aligned (new_attr aligned cookie type data).
Proof.
  intros Ht Hd Hr. unfold attr_room in Hr. pose proof (zlen_nonneg data).
  pose proof (stun_padding_range (zlen data)) as Hp.
  pose proof (spaces_ok (stun_padding (zlen data))).
  unfold new_attr. destruct aligned; [destruct cookie |]; split; cbn [at_type at_val at_pad];
    rewrite ?app_nil_r, ?bytes_ok_app, ?zlen_app, ?zlen_spaces by lia;
    unfold is_u16 in *; auto; try lia.
  rewrite stun_padding_mod4; [done | apply pad_total_mod4].
Qed.

Lemma new_attr_room aligned cookie type data :
  zlen (attr_enc (new_attr aligned cookie type data)) = attr_room aligned (zlen data).
Proof.
  pose proof (stun_padding_range (zlen data)).
  unfold attr_enc, attr_room, new_attr. destruct aligned; [destruct cookie |];
    cbn [at_type at_val at_pad]; rewrite !zlen_app, !zlen_be, ?zlen_app, ?zlen_spaces by lia;
    rewrite ?zlen_nil; lia.
Qed.

(** The length field the code writes. *)
Definition len_field (aligned cookie : bool) (n : Z) : Z :=
  if aligned then if cookie then n else stun_align n else n.

Lemma new_attr_enc aligned cookie type data :
  zlen data < 2 ^ 16 →
  attr_enc (new_attr aligned cookie type data) =
  be 2 type ++ be 2 (len_field aligned cookie (zlen data)) ++ data
    ++ (if aligned then spaces (stun_padding (zlen data)) else []).
Proof.
  intros Hn. pose proof (zlen_nonneg data). pose proof (stun_padding_range (zlen data)).
  unfold attr_enc, new_attr, len_field. destruct aligned; [destruct cookie |];
    cbn [at_type at_val at_pad]; try done.
  rewrite zlen_app, zlen_spaces, stun_align_eq, <- !app_assoc by lia. by rewrite app_nil_r.
Qed.

Lemma attrs_enc_snoc l a : attrs_enc (l ++ [a]) = attrs_enc l ++ attr_enc a.
Proof. rewrite attrs_enc_app. unfold attrs_enc. cbn. by rewrite app_nil_r. Qed.

(** Writing the length field of the header. *)
Lemma setw_hdr ty id n v x :
  zlen ty = 2 → stun_setw (hdr_enc ty id n ++ x) 2 v = Done (hdr_enc ty id v ++ x).
Proof.
  intros Hty. unfold hdr_enc. rewrite <- !app_assoc. apply setw_app; slia.
Qed.

Section append.
Context (msg : StunMessage) (ty id : bytes) (l : list attr).
Let aligned := negb (no_aligned msg).
Let cookie := id_cookie id.
Let base := 20 + zlen (attrs_enc l).

(** Where [stun_message_append] leaves the buffer; [old] are the octets the
    caller is to overwrite. *)
Definition appended (type n : Z) (old rest : bytes) : bytes :=
  hdr_enc ty id (zlen (attrs_enc l) + attr_room aligned n) ++ attrs_enc l ++
  be 2 (oc2007_type msg type) ++ be 2 (len_field aligned cookie n) ++ old ++
  (if aligned then spaces (stun_padding n) else []) ++ rest.

Lemma append_buffer type n r1 r2 old pad rest :
  msg_repr msg ty id l (r1 ++ r2 ++ old ++ pad ++ rest) →
  zlen r1 = 2 → zlen r2 = 2 → zlen old = n →
  zlen pad = (if aligned then stun_padding n else 0) →
  base + attr_room aligned n < 2 ^ 16 →
  stun_message_append msg type n =
    Done (msg <| msg_buffer := appended type n old rest |>, Some (base + 4)).
Proof.
  intros Hrepr H1 H2 Hold Hpad Hfit. unfold stun_message_append.
  rewrite (stun_message_length_spec _ _ _ _ _ Hrepr), bind_Done. fold base.
  destruct Hrepr as [[Hbuf Hty Hid Hok Hl _] _].
  pose proof (zlen_nonneg (attrs_enc l)). pose proof (zlen_nonneg old).
  pose proof (stun_padding_range n) as Hp. pose proof (zlen_nonneg rest).
  pose proof (zlen_hdr_enc ty id (zlen (attrs_enc l)) Hty Hid) as Hh.
  unfold attr_room, base in Hfit.
  unfold msg_buffer_len. rewrite Hbuf, u64_small by
    (unfold is_u64; autounfold with stun_consts; destruct aligned; slia).
  destruct (Z.ltb_spec (zlen (hdr_enc ty id (zlen (attrs_enc l)) ++ attrs_enc l ++ r1 ++ r2 ++ old ++ pad ++ rest))
    (base + STUN_ATTRIBUTE_HEADER_LENGTH + n)); [clia |].
  set (hdr := hdr_enc ty id (zlen (attrs_enc l))) in *.
  assert (E1 : stun_setw (hdr ++ attrs_enc l ++ r1 ++ r2 ++ old ++ pad ++ rest) base
      (u16 (oc2007_type msg type)) =
    Done (hdr ++ attrs_enc l ++ be 2 (oc2007_type msg type) ++ r2 ++ old ++ pad ++ rest)).
  { rewrite !(app_assoc hdr), setw_app, be2_u16 by (unfold base; slia). done. }
  rewrite E1, bind_Done. clear E1. set (ty' := be 2 (oc2007_type msg type)) in *.
  assert (E2 : ∀ v, stun_setw (hdr ++ attrs_enc l ++ ty' ++ r2 ++ old ++ pad ++ rest) (base + 2) (u16 v) =
    Done (hdr ++ attrs_enc l ++ ty' ++ be 2 v ++ old ++ pad ++ rest)).
  { intros v. rewrite !(app_assoc hdr), !(app_assoc (hdr ++ _)), setw_app, be2_u16 by
      (unfold base, ty'; slia). by rewrite <- !app_assoc. }
  match goal with |- (?X ≫= _) = _ => assert (E3 : X = Done
    (hdr ++ attrs_enc l ++ ty' ++ be 2 (len_field aligned cookie n) ++ old ++
       (if aligned then spaces (stun_padding n) else []) ++ rest,
     base + 4, base + if aligned then stun_padding n else 0)) end.
  { unfold aligned, len_field in *. destruct (no_aligned msg); cbn [negb] in *.
    - rewrite E2, bind_Done, Z.add_0_r, <- Z.add_assoc. by apply zlen_0_inv in Hpad as ->.
    - erewrite (stun_message_has_cookie_hdr _ ty id) by done. rewrite bind_Done.
      fold cookie. rewrite E2, bind_Done. destruct (Z.ltb_spec 0 (stun_padding n)).
      + rewrite !(app_assoc hdr), !(app_assoc (hdr ++ _)), !(app_assoc ((hdr ++ _) ++ _)).
        rewrite (app_assoc _ old).
        rewrite (store_app _ pad rest), bind_Done by
          (rewrite ?Hpad, ?zlen_replicate; unfold base, ty' in *; slia).
        rewrite u16_small, <- !app_assoc, <- Z.add_assoc by (unfold is_u16, base; lia). done.
      + replace (stun_padding n) with 0 in * by lia.
        rewrite Z.add_0_r, <- Z.add_assoc. by apply zlen_0_inv in Hpad as ->. }
  rewrite E3, bind_Done. clear E2 E3. unfold hdr, appended.
  autounfold with stun_consts. rewrite setw_hdr, bind_Done by done.
  set (w := u16 _).
  assert (be 2 w = be 2 (zlen (attrs_enc l) + attr_room aligned n)) as Ew.
  { unfold w. rewrite be2_u16. f_equal. rewrite u16_small; unfold is_u16, base, attr_room;
      destruct aligned; lia. }
  unfold hdr_enc. by rewrite Ew.
Qed.

(** Splitting the free space for an attribute of [n] octets. *)
Lemma split_room (rest : bytes) n :
  0 ≤ n → attr_room aligned n ≤ zlen rest →
  ∃ r1 r2 old pad rest', rest = r1 ++ r2 ++ old ++ pad ++ rest' ∧
    zlen r1 = 2 ∧ zlen r2 = 2 ∧ zlen old = n ∧
    zlen pad = (if aligned then stun_padding n else 0).
Proof.
  unfold attr_room. pose proof (stun_padding_range n) as Hp. intros Hn Hr.
  destruct (split_at rest 2) as (r1 & x1 & -> & H1); [destruct aligned; lia |].
  rewrite zlen_app in Hr.
  destruct (split_at x1 2) as (r2 & x2 & -> & H2); [destruct aligned; lia |].
  rewrite zlen_app in Hr.
  destruct (split_at x2 n) as (old & x3 & -> & H3); [destruct aligned; lia |].
  rewrite zlen_app in Hr.
  destruct (split_at x3 (if aligned then stun_padding n else 0)) as (pad & x4 & -> & H4);
    [destruct aligned; lia |].
  by exists r1, r2, old, pad, x4.
Qed.

(** Appending an attribute of [n] octets leaves a place holding [old]; filling
    in [data] there adds [new_attr] at the end of the attribute list. *)
Lemma append_fill type n rest :
  msg_repr msg ty id l rest → 0 ≤ n → is_u16 (oc2007_type msg type) →
  attr_room aligned n ≤ zlen rest → base + attr_room aligned n < 2 ^ 16 →
  ∃ old rest', zlen old = n ∧ bytes_ok old ∧ zlen rest = attr_room aligned n + zlen rest' ∧
    stun_message_append msg type n
      = Done (msg <| msg_buffer := appended type n old rest' |>, Some (base + 4)) ∧
    ∀ data, zlen data = n → bytes_ok data →
    store (appended type n old rest') (base + 4) data = Done (appended type n data rest') ∧
    msg_repr (msg <| msg_buffer := appended type n data rest' |>) ty id
      (l ++ [new_attr aligned cookie (oc2007_type msg type) data]) rest'.
Proof.
  intros Hrepr Hn Ht Hroom Hfit. pose proof (stun_padding_range n) as Hp.
  destruct (split_room rest n Hn Hroom) as (r1 & r2 & old & pad & rest' & -> & H1 & H2 & H3 & H4).
  exists old, rest'. rewrite (append_buffer type n r1 r2 old pad rest') by done.
  destruct Hrepr as [[_ Hty Hid Hbok Hl _] _].
  rewrite !bytes_ok_app in Hbok.
  split_and!; [done | tauto | unfold attr_room; rewrite !zlen_app; lia | done |].
  intros data Hd Hok. split.
  - unfold appended. set (hdr := hdr_enc ty id _).
    assert (zlen hdr = 20) by (by apply zlen_hdr_enc).
    rewrite !(app_assoc hdr), !(app_assoc (hdr ++ _)), !(app_assoc ((hdr ++ _) ++ _)).
    by rewrite (store_app _ old) by (unfold base; slia).
  - pose proof (new_attr_room aligned cookie (oc2007_type msg type) data) as Hr.
    rewrite Hd in Hr. unfold base in Hfit. pose proof (zlen_nonneg (attrs_enc l)).
    split; [| rewrite attrs_enc_snoc, zlen_app, Hr; lia].
    split; [| done | done | | | rewrite attrs_enc_snoc, zlen_app, Hr; lia].
    + rewrite attrs_enc_snoc, zlen_app, Hr. unfold appended.
      cbn [msg_buffer set_field set_msg_buffer].
      rewrite new_attr_enc, Hd by (unfold attr_room in *; destruct aligned; lia).
      by rewrite <- !app_assoc.
    + rewrite !bytes_ok_app. tauto.
    + apply Forall_app; split; [done |]. constructor; [| constructor].
      apply new_attr_ok; [done | done |]. rewrite Hd. lia.
Qed.

(** No room for the header and the value: nothing is written. *)
Lemma append_no_room type n rest :
  msg_repr msg ty id l rest → 0 ≤ n → n < 2 ^ 63 → zlen rest < 4 + n →
  stun_message_append msg type n = Done (msg, None).
Proof.
  intros Hrepr Hn Hmax Hroom. unfold stun_message_append.
  rewrite (stun_message_length_spec _ _ _ _ _ Hrepr), bind_Done.
  destruct Hrepr as [[Hbuf Hty Hid _ _ _] Hf]. pose proof (zlen_nonneg (attrs_enc l)).
  pose proof (zlen_hdr_enc ty id (zlen (attrs_enc l)) Hty Hid).
  unfold msg_buffer_len. rewrite Hbuf, u64_small by (unfold is_u64; clia).
  destruct (Z.ltb_spec (zlen (hdr_enc ty id (zlen (attrs_enc l)) ++ attrs_enc l ++ rest))
    (20 + zlen (attrs_enc l) + STUN_ATTRIBUTE_HEADER_LENGTH + n)); [done | clia].
Qed.
End append.

(** ** [stun_message_append_bytes] *)

Definition aligned_of (msg : StunMessage) : bool := negb (no_aligned msg).

Lemma append_bytes_succeeds msg ty id l rest type data :
  msg_repr msg ty id l rest → is_u16 (oc2007_type msg type) → bytes_ok data →
  attr_room (aligned_of msg) (zlen data) ≤ zlen rest →
  20 + zlen (attrs_enc l) + attr_room (aligned_of msg) (zlen data) < 2 ^ 16 →
  ∃ b rest', stun_message_append_bytes msg type data
      = Done (msg <| msg_buffer := b |>, STUN_MESSAGE_RETURN_SUCCESS) ∧
    zlen rest = attr_room (aligned_of msg) (zlen data) + zlen rest' ∧
    msg_repr (msg <| msg_buffer := b |>) ty id
      (l ++ [new_attr (aligned_of msg) (id_cookie id) (oc2007_type msg type) data]) rest'.
Proof.
  intros Hrepr Ht Hd Hroom Hfit. pose proof (zlen_nonneg data). unfold stun_message_append_bytes.
  destruct (append_fill msg ty id l type (zlen data) rest)
    as (old & rest' & _ & _ & Hz & -> & Hfill); [done.. |].
  destruct (Hfill data eq_refl Hd) as [Hs Hr].
  rewrite bind_Done. cbn [msg_buffer set_field set_msg_buffer]. rewrite Hs, bind_Done.
  by eexists _, rest'.
Qed.

(** [stun_message_init] clears the length field and sets type and identifier. *)
Definition type_bytes (c : StunClass) (m : Z) : bytes :=
  [ u8 (Z.lor (Z.shiftr (class_to_Z c) 1) (Z.land (Z.shiftr m 6) 0x3e));
    u8 (Z.lor (Z.lor (Z.land (Z.shiftl (class_to_Z c) 4) 0x10) (Z.land (Z.shiftl m 1) 0xe0))
          (Z.land m 0x0f)) ].

Lemma stun_message_init_succeeds msg c m id buf rest :
  msg_buffer msg = buf ++ rest → zlen buf = 20 → bytes_ok rest →
  zlen id = 16 → bytes_ok id →
  ∃ b, stun_message_init msg c m id = Done (msg <| msg_buffer := b |>, true) ∧
    msg_repr (msg <| msg_buffer := b |>) (type_bytes c m) id [] rest.
Proof.
  intros E Hl Hr Hid Hok. unfold stun_message_init, msg_buffer_len. pose proof (zlen_nonneg rest).
  rewrite E. destruct (Z.ltb_spec (zlen (buf ++ rest)) STUN_MESSAGE_HEADER_LENGTH); [clia |].
  destruct (split_at buf 4) as (x & y & -> & Hx); [lia |]. rewrite zlen_app in Hl.
  rewrite <- app_assoc.
  assert (store (x ++ y ++ rest) 0 [0; 0; 0; 0] = Done ([0; 0; 0; 0] ++ y ++ rest)) as ->
    by by apply (store_app [] x (y ++ rest) [0; 0; 0; 0] 0).
  rewrite bind_Done. unfold stun_set_type. fold (type_bytes c m).
  assert (store ([0; 0; 0; 0] ++ y ++ rest) 0 (type_bytes c m)
    = Done (type_bytes c m ++ [0; 0] ++ y ++ rest)) as ->
    by apply (store_app [] [0; 0] ([0; 0] ++ y ++ rest) (type_bytes c m) 0 eq_refl eq_refl).
  rewrite bind_Done. autounfold with stun_consts.
  assert (slice id 0 16 = Done id) as ->.
  { rewrite <- (app_nil_r id) at 1. by apply (slice_app [] id []). }
  rewrite bind_Done, (app_assoc (type_bytes c m)).
  rewrite (store_app (type_bytes c m ++ [0; 0]) y rest id) by (done || (change (zlen (type_bytes c m ++ [0; 0])) with 4; lia) || lia).
  eexists; split; [done |]. split; [split |]; try done.
  apply bytes_ok_app. split; [repeat constructor; apply u8_range |]. by apply bytes_ok_app.
Qed.

(** C37: [stun_message_append_bytes] refines "add one attribute at the end":
    on a message holding the attributes [l], (a) with room for header, value
    and padding it succeeds, keeps type and identifier, and leaves [l] followed
    by the new attribute (for a message without cookie the padding counts as
    value); (b) without room for header and value it reports NOT_ENOUGH_SPACE
    and changes nothing. *)
Theorem append_bytes_refines (msg : StunMessage) (ty id : bytes) (l : list attr) (rest : bytes)
    (type : Z) (data : bytes)
    (Hrepr : msg_repr msg ty id l rest)
    (Ht : is_u16 (oc2007_type msg type)) (Hd : bytes_ok data) (Hmax : zlen data < 2 ^ 63) :
  (attr_room (aligned_of msg) (zlen data) ≤ zlen rest →
   20 + zlen (attrs_enc l) + attr_room (aligned_of msg) (zlen data) < 2 ^ 16 →
   ∃ b rest', stun_message_append_bytes msg type data
       = Done (msg <| msg_buffer := b |>, STUN_MESSAGE_RETURN_SUCCESS) ∧
     zlen rest = attr_room (aligned_of msg) (zlen data) + zlen rest' ∧
     msg_repr (msg <| msg_buffer := b |>) ty id
       (l ++ [new_attr (aligned_of msg) (id_cookie id) (oc2007_type msg type) data]) rest') ∧
  (zlen rest < 4 + zlen data →
   stun_message_append_bytes msg type data = Done (msg, STUN_MESSAGE_RETURN_NOT_ENOUGH_SPACE)).
Proof.
  split; intros Hroom.
  - by apply append_bytes_succeeds.
  - pose proof (zlen_nonneg data). unfold stun_message_append_bytes.
    by rewrite (append_no_room msg ty id l type (zlen data) rest).
Qed.

(** A fresh request in a buffer with 40 octets of attribute space. *)
Definition demo_id : bytes := be 4 STUN_MAGIC_COOKIE ++ repeat 7 12.
Definition demo_conf : StunAgentConf := Build_StunAgentConf STUN_COMPATIBILITY_RFC5389 0.
Definition demo_msg : StunMessage :=
  Build_StunMessage (Some demo_conf) (hdr_enc [0; 1] demo_id 0 ++ repeat 0 40) None (repeat 0 16) false.

Lemma demo_msg_repr : msg_repr demo_msg [0; 1] demo_id [] (repeat 0 40).
Proof. split; [split |]; by_compute || reflexivity || constructor. Defined.

Lemma append_bytes_refines_witness :
  msg_repr demo_msg [0; 1] demo_id [] (repeat 0 40) ∧
  ∃ b rest', stun_message_append_bytes demo_msg STUN_ATTRIBUTE_USERNAME [97; 98; 99]
      = Done (demo_msg <| msg_buffer := b |>, STUN_MESSAGE_RETURN_SUCCESS) ∧
    zlen (repeat 0 40) = attr_room true 3 + zlen rest' ∧
    msg_repr (demo_msg <| msg_buffer := b |>) [0; 1] demo_id
      [Attr STUN_ATTRIBUTE_USERNAME [97; 98; 99] [0x20]] rest'.
Proof.
  split; [exact demo_msg_repr |].
  apply (append_bytes_refines demo_msg [0; 1] demo_id [] (repeat 0 40)
    STUN_ATTRIBUTE_USERNAME [97; 98; 99] demo_msg_repr); by_compute.
Defined.

(** The room test of [stun_message_append] does not count the padding.
    If header and value fit but the padding does not, the [memset] of the
    padding writes past the end of the buffer. *)
Theorem append_padding_overflow (msg : StunMessage) (ty id : bytes) (l : list attr)
    (rest : bytes) (type : Z) (data : bytes)
    (Hrepr : msg_repr msg ty id l rest) (Halign : aligned_of msg = true)
    (Hfit : 4 + zlen data ≤ zlen rest)
    (Hpad : zlen rest < 4 + zlen data + stun_padding (zlen data))
    (Hmax : zlen data < 2 ^ 63) :
  stun_message_append_bytes msg type data = Ub.
Proof.
  unfold stun_message_append_bytes, stun_message_append.
  rewrite (stun_message_length_spec _ _ _ _ _ Hrepr), bind_Done.
  destruct Hrepr as [[Hbuf Hty Hid Hok Hl _] Hlen].
  pose proof (zlen_nonneg data). pose proof (zlen_nonneg (attrs_enc l)).
  pose proof (zlen_hdr_enc ty id (zlen (attrs_enc l)) Hty Hid) as Hh.
  unfold msg_buffer_len. rewrite Hbuf, u64_small by (unfold is_u64; clia).
  set (hdr := hdr_enc ty id (zlen (attrs_enc l))) in *.
  destruct (Z.ltb_spec (zlen (hdr ++ attrs_enc l ++ rest))
    (20 + zlen (attrs_enc l) + STUN_ATTRIBUTE_HEADER_LENGTH + zlen data)); [clia |].
  destruct (split_at rest 2) as (r1 & x & -> & Hr1); [lia |]. rewrite zlen_app in *.
  destruct (split_at x 2) as (r2 & y & -> & Hr2); [lia |]. rewrite zlen_app in *.
  rewrite (app_assoc hdr), setw_app, bind_Done by slia.
  unfold aligned_of in Halign. destruct (no_aligned msg); [done |].
  erewrite (stun_message_has_cookie_hdr _ ty id) by (done || by rewrite <- app_assoc).
  rewrite bind_Done, app_assoc, setw_app, bind_Done by slia.
  destruct (Z.ltb_spec 0 (stun_padding (zlen data))); [| lia].
  rewrite store_out; [done |].
  rewrite zlen_replicate, Z2Nat.id by lia. slia.
Qed.

Definition demo_small : StunMessage := demo_msg <| msg_buffer := hdr_enc [0; 1] demo_id 0 ++ repeat 0 5 |>.

Lemma append_padding_overflow_witness :
  stun_message_append_bytes demo_small STUN_ATTRIBUTE_USERNAME [97] = Ub.
Proof.
  apply (append_padding_overflow demo_small [0; 1] demo_id [] (repeat 0 5)); try by_compute.
  split; [split |]; by_compute || reflexivity || constructor.
Defined.
