(* ===== verification/StunRoundtrip.v ===== *)
(** * Round trips of the STUN message layer

    What the typed builders append is what the typed searches return, the
    message type survives encoding, and XOR-ed addresses are recovered. *)

From S2P Require Import Prelude Bytes StunMessage StunFacts StunBuild.

(** ** Searching past a list of attributes *)

(** The value a search returns for data appended as [type]. *)
Definition stored (aligned cookie : bool) (data : bytes) : bytes :=
  if aligned && negb cookie then data ++ spaces (stun_padding (zlen data)) else data.

Lemma attr_find_snoc l aligned cookie type data :
  Forall (λ a, passes type a = true) l →
  attr_find (l ++ [new_attr aligned cookie type data]) type = Some (stored aligned cookie data).
Proof.
  intros Hl. rewrite attr_find_passes by done. unfold new_attr, stored.
  destruct aligned, cookie; cbn; by rewrite Z.eqb_refl.
Qed.

Lemma stored_mod4 aligned cookie data : zlen data mod 4 = 0 → stored aligned cookie data = data.
Proof.
  intros H. unfold stored. rewrite stun_padding_mod4 by done.
  destruct (_ && _)%bool; [by rewrite app_nil_r | done].
Qed.

(** ** Room for one more attribute *)

Record can_append (msg : StunMessage) (ty id : bytes) (l : list attr) (rest : bytes)
    (type n : Z) : Prop := {
  ca_repr : msg_repr msg ty id l rest;
  ca_type : is_u16 (oc2007_type msg type);
  ca_room : attr_room (aligned_of msg) n ≤ zlen rest;
  ca_fits : 20 + zlen (attrs_enc l) + attr_room (aligned_of msg) n < 2 ^ 16;
  ca_fresh : Forall (λ a, passes (oc2007_type msg type) a = true) l
}.

(** Appending [data] succeeds and the search for [type] then yields it. *)
Lemma append_bytes_value msg ty id l rest type data :
  can_append msg ty id l rest type (zlen data) → bytes_ok data →
  ∃ b rest' l',
    stun_message_append_bytes msg type data
      = Done (msg <| msg_buffer := b |>, STUN_MESSAGE_RETURN_SUCCESS) ∧
    msg_repr (msg <| msg_buffer := b |>) ty id l' rest' ∧
    value (msg <| msg_buffer := b |>) l' type
      = Some (stored (aligned_of msg) (id_cookie id) data).
Proof.
  intros [Hr Ht Hroom Hfit Hfresh] Hok.
  destruct (append_bytes_succeeds msg ty id l rest type data) as (b & rest' & -> & _ & Hr');
    [done.. |].
  eexists b, rest', _; split; [done |]. split; [exact Hr' |].
  unfold value. change (oc2007_type (msg <| msg_buffer := b |>) type) with (oc2007_type msg type).
  by apply attr_find_snoc.
Qed.

(** The demo message has room for one attribute of up to 32 octets. *)
Lemma demo_can_append type n :
  is_u16 type → 0 ≤ n ≤ 32 → can_append demo_msg [0; 1] demo_id [] (repeat 0 40) type n.
Proof.
  intros Ht Hn. pose proof (stun_padding_range n). rewrite stun_padding_eq in *.
  split; [exact demo_msg_repr | exact Ht | | | by constructor];
    change (aligned_of demo_msg) with true; unfold attr_room; rewrite stun_padding_eq.
  - change (zlen (repeat 0 40)) with 40. zlia.
  - change (zlen (attrs_enc [])) with 0. zlia.
Qed.

(** [stun_message_append32] followed by [stun_message_find32], and
    [stun_message_append64] followed by [stun_message_find64], return the value
    appended, in every compatibility and alignment mode. *)
Theorem append_find_int_roundtrip (msg : StunMessage) (ty id : bytes) (l : list attr)
    (rest : bytes) (type v : Z) :
  (can_append msg ty id l rest type 4 → is_u32 v →
   ∃ msg', stun_message_append32 msg type v = Done (msg', STUN_MESSAGE_RETURN_SUCCESS) ∧
     stun_message_find32 msg' type = Done (STUN_MESSAGE_RETURN_SUCCESS, Some v)) ∧
  (can_append msg ty id l rest type 8 → is_u64 v →
   ∃ msg', stun_message_append64 msg type v = Done (msg', STUN_MESSAGE_RETURN_SUCCESS) ∧
     stun_message_find64 msg' type = Done (STUN_MESSAGE_RETURN_SUCCESS, Some v)).
Proof.
  split; intros Hca Hv.
  - unfold stun_message_append32. rewrite le_htonl.
    destruct (append_bytes_value msg ty id l rest type (be 4 v)) as (b & rest' & l' & -> & Hr & Hf);
      [done | apply be_ok |].
    eexists; split; [done |].
    rewrite (stun_message_find32_spec _ _ _ _ _ Hr), Hf, stored_mod4 by done.
    rewrite zlen_be4. cbn [Z.eqb Pos.eqb]. rewrite of_be_be. by rewrite Z.mod_small.
  - unfold stun_message_append64. rewrite !le_htonl.
    replace (be 4 (u32 (Z.shiftr v 32)) ++ be 4 (u32 v)) with (be 8 v).
    2: { rewrite Z.shiftr_div_pow2 by lia. by apply be8_split. }
    destruct (append_bytes_value msg ty id l rest type (be 8 v)) as (b & rest' & l' & -> & Hr & Hf);
      [done | apply be_ok |].
    eexists; split; [done |].
    rewrite (stun_message_find64_spec _ _ _ _ _ Hr), Hf, stored_mod4 by done.
    rewrite zlen_be. change (Z.of_nat 8 =? 8) with true. cbn iota. rewrite of_be_be.
    by rewrite Z.mod_small.
Qed.

Lemma append_find_int_roundtrip_witness :
  can_append demo_msg [0; 1] demo_id [] (repeat 0 40) STUN_ATTRIBUTE_PRIORITY 4 ∧
  (∃ msg', stun_message_append32 demo_msg STUN_ATTRIBUTE_PRIORITY 0x6e0001ff
      = Done (msg', STUN_MESSAGE_RETURN_SUCCESS) ∧
     stun_message_find32 msg' STUN_ATTRIBUTE_PRIORITY
      = Done (STUN_MESSAGE_RETURN_SUCCESS, Some 0x6e0001ff)) ∧
  (∃ msg', stun_message_append64 demo_msg STUN_ATTRIBUTE_ICE_CONTROLLED 0x123456789abcdef0
      = Done (msg', STUN_MESSAGE_RETURN_SUCCESS) ∧
     stun_message_find64 msg' STUN_ATTRIBUTE_ICE_CONTROLLED
      = Done (STUN_MESSAGE_RETURN_SUCCESS, Some 0x123456789abcdef0)).
Proof.
  split_and!.
  - apply demo_can_append; by_compute.
  - refine (proj1 (append_find_int_roundtrip demo_msg [0; 1] demo_id [] (repeat 0 40) _ _) _ _);
      [apply demo_can_append |]; by_compute.
  - refine (proj2 (append_find_int_roundtrip demo_msg [0; 1] demo_id [] (repeat 0 40) _ _) _ _);
      [apply demo_can_append; by_compute | unfold is_u64; lia].
Defined.

(** ** Addresses *)

(** The value of an address attribute. *)
Definition addr_val (addr : sockaddr_storage) : bytes :=
  match addr with
  | sockaddr_in port a => [0; 1] ++ le 2 port ++ le 4 a
  | sockaddr_in6 port _ a _ => [0; 2] ++ le 2 port ++ a
  | sockaddr_other _ => []
  end.

Definition sizeof_addr (addr : sockaddr_storage) : Z :=
  match addr with sockaddr_in6 _ _ _ _ => sizeof_sockaddr_in6 | _ => sizeof_sockaddr_in end.

Definition sockaddr_ok (addr : sockaddr_storage) : Prop :=
  match addr with
  | sockaddr_in port a => is_u16 port ∧ is_u32 a
  | sockaddr_in6 port _ a _ => is_u16 port ∧ zlen a = 16 ∧ bytes_ok a
  | sockaddr_other _ => False
  end.

(** What the wire keeps of an address: no flow label, no scope. *)
Definition addr_norm (addr : sockaddr_storage) : sockaddr_storage :=
  match addr with sockaddr_in6 port _ a _ => sockaddr_in6 port 0 a 0 | _ => addr end.

Lemma slice_all {A} (a : list A) n : n = zlen a → slice a 0 n = Done a.
Proof. intros ->. rewrite <- (app_nil_r a) at 1. by apply (slice_app [] a []). Qed.

Lemma addr_val_ok addr : sockaddr_ok addr → bytes_ok (addr_val addr) ∧ zlen (addr_val addr) mod 4 = 0.
Proof.
  destruct addr as [p a | p f a s |]; cbn [sockaddr_ok addr_val]; [intros _ | intros (_ & Hl & Ha) | done].
  - split; [| done]. rewrite !bytes_ok_app. split_and!; [by_compute | apply le_ok..].
  - rewrite !bytes_ok_app, !zlen_app, Hl. split_and!; [by_compute | apply le_ok | done | done].
Qed.

Lemma append_addr_bytes msg type addr addrlen :
  sockaddr_ok addr → sizeof_addr addr ≤ addrlen →
  stun_message_append_addr msg type addr addrlen = stun_message_append_bytes msg type (addr_val addr).
Proof.
  unfold stun_message_append_addr, stun_message_append_bytes.
  destruct addr as [p a | p f a s |]; cbn [sockaddr_ok addr_val sizeof_addr]; [| | done].
  - intros _ Hn. unfold sizeof_sockaddr_in, sizeof_sockaddr in *.
    destruct (Z.ltb_spec addrlen 16); [lia |].
    change (zlen ([0; 1] ++ le 2 p ++ le 4 a)) with (4 + 4).
    by destruct (stun_message_append _ _ _) as [[m [ptr |]] | |].
  - intros (_ & Hl & _) Hn.
    destruct (Z.ltb_spec addrlen sizeof_sockaddr); [unfold sizeof_sockaddr, sizeof_sockaddr_in6 in *; lia |].
    destruct (Z.ltb_spec addrlen sizeof_sockaddr_in6); [lia |].
    replace (zlen ([0; 2] ++ le 2 p ++ a)) with (4 + 16) by slia.
    destruct (stun_message_append _ _ _) as [[m [ptr |]] | |]; try done.
    rewrite !bind_Done. by rewrite slice_all.
Qed.

(** [stun_xor_address] as a function. *)
Definition xor_addr (cookie : Z) (id : bytes) (addr : sockaddr_storage) : sockaddr_storage :=
  let c16 := htons (u16 (Z.shiftr cookie 16)) in
  match addr with
  | sockaddr_in port a => sockaddr_in (Z.lxor port c16) (Z.lxor a (htonl cookie))
  | sockaddr_in6 port f a s => sockaddr_in6 (Z.lxor port c16) f (xor_bytes a id) s
  | sockaddr_other f => sockaddr_other f
  end.

Lemma xor_bytes_spec a b :
  zlen a = zlen b → bytes_ok a → bytes_ok b →
  zlen (xor_bytes a b) = zlen a ∧ bytes_ok (xor_bytes a b) ∧ xor_bytes (xor_bytes a b) b = a.
Proof.
  revert b; induction a as [| x a IH]; intros [| y b] Hl Ha Hb;
    [by split_and! | by split_and! | discriminate Hl |].
  rewrite !zlen_cons in Hl.
  apply Forall_cons_1 in Ha as [Hx Ha]. apply Forall_cons_1 in Hb as [Hy Hb].
  destruct (IH b) as (H1 & H2 & H3); [lia | done.. |]. cbn [xor_bytes].
  rewrite !zlen_cons, lxor_cancel, H1, H3. split_and!; [done | | done].
  constructor; [apply (lxor_range 8); [lia | done..] | done].
Qed.

Lemma xor_addr_spec cookie id addr :
  zlen id = 16 → bytes_ok id → sockaddr_ok addr →
  sockaddr_ok (xor_addr cookie id addr) ∧
  sizeof_addr (xor_addr cookie id addr) = sizeof_addr addr ∧
  zlen (addr_val (xor_addr cookie id addr)) = zlen (addr_val addr) ∧
  xor_addr cookie id (addr_norm (xor_addr cookie id addr)) = addr_norm addr.
Proof.
  intros Hid Hok. destruct addr as [p a | p f a s |]; cbn -[Z.pow zlen le is_u16 is_u32 htons htonl of_le]; [| | done].
  - intros [Hp Ha]. split_and!; [| | done | done | by rewrite !lxor_cancel].
    + by apply (lxor_range 16); [lia | | apply htons_range].
    + by apply (lxor_range 32); [lia | | apply htonl_range].
  - intros (Hp & Hl & Ha). destruct (xor_bytes_spec a id) as (H1 & H2 & H3); [lia | done.. |].
    split_and!; [| lia | done | done | | by rewrite lxor_cancel, H3].
    + by apply (lxor_range 16); [lia | | apply htons_range].
    + rewrite !zlen_cons, !zlen_app, H1. done.
Qed.

Lemma stun_xor_address_spec msg id addr addrlen cookie :
  stun_message_id msg = Done id → sockaddr_ok addr → sizeof_addr addr ≤ addrlen →
  stun_xor_address msg addr addrlen cookie
    = Done (STUN_MESSAGE_RETURN_SUCCESS, xor_addr cookie id addr).
Proof.
  unfold stun_message_id. autounfold with stun_consts. intros Hid Hok Hn.
  unfold stun_xor_address. destruct addr as [p a | p f a s |]; cbn [sizeof_addr] in Hn; [| | done].
  - by destruct (Z.ltb_spec addrlen sizeof_sockaddr_in); [lia |].
  - destruct (Z.ltb_spec addrlen sizeof_sockaddr_in6); [lia |]. by rewrite Hid, bind_Done.
Qed.

(** The fields of an address attribute inside a buffer. *)
Lemma addr_fields (a p ad c : bytes) f :
  zlen p = 2 →
  let m := a ++ ([0; f] ++ p ++ ad) ++ c in
  getb m (zlen a + 1) = Done f ∧ slice m (zlen a + 2) 2 = Done p ∧
  slice m (zlen a + 4) (zlen ad) = Done ad.
Proof.
  intros Hp m. unfold m. split_and!.
  - change ([0; f] ++ p ++ ad) with ([0] ++ f :: p ++ ad).
    rewrite <- !app_assoc, app_assoc. cbn [app]. apply getb_app. slia.
  - rewrite <- !app_assoc, app_assoc. apply slice_app; slia.
  - rewrite <- !app_assoc, !(app_assoc a), (app_assoc (a ++ _)). apply slice_app; slia.
Qed.

Lemma stun_message_find_addr_spec msg ty id l rest type addr x addrlen :
  msg_repr msg ty id l rest → value msg l type = Some (addr_val addr) →
  sockaddr_ok addr → sizeof_addr addr ≤ addrlen ≤ sizeof_sockaddr_storage →
  stun_message_find_addr msg type x addrlen
    = Done (STUN_MESSAGE_RETURN_SUCCESS, addr_norm addr, sizeof_addr addr).
Proof.
  intros Hr Hv Hok Hn. unfold stun_message_find_addr.
  destruct (stun_message_find_spec msg ty id l rest type Hr) as (r & -> & Hf). rewrite bind_Done.
  unfold value in Hv. rewrite Hv in Hf. destruct r as [[o n] |]; [| done].
  destruct Hf as (-> & a & c & -> & <-).
  destruct addr as [p ad | p f ad s |]; cbn [sockaddr_ok sizeof_addr addr_val addr_norm] in *; [| | done].
  - destruct (addr_fields a (le 2 p) (le 4 ad) c 1) as (E1 & E2 & E3); [done |].
    change (zlen (le 4 ad)) with 4 in E3. change (zlen ([0; 1] ++ le 2 p ++ le 4 ad)) with 8.
    change (8 <? 4) with false. cbv iota. rewrite E1, bind_Done.
    change (1 =? 1) with true. change (8 =? 8) with true. cbv iota.
    destruct (Z.ltb_spec addrlen sizeof_sockaddr_in); [lia |]. cbn [orb negb].
    unfold assert_. destruct (Z.leb_spec addrlen sizeof_sockaddr_storage); [| lia].
    rewrite bind_Done, E2, bind_Done, E3, bind_Done.
    destruct Hok. by rewrite of_le_le2, of_le_le4.
  - destruct Hok as (Hp & Hl & Ha).
    destruct (addr_fields a (le 2 p) ad c 2) as (E1 & E2 & E3); [done |].
    rewrite Hl in E3. replace (zlen ([0; 2] ++ le 2 p ++ ad)) with 20 by slia.
    change (20 <? 4) with false. cbv iota. rewrite E1, bind_Done.
    change (2 =? 1) with false. change (2 =? 2) with true. change (20 =? 20) with true. cbv iota.
    destruct (Z.ltb_spec addrlen sizeof_sockaddr_in6); [lia |]. cbn [orb negb].
    unfold assert_. destruct (Z.leb_spec addrlen sizeof_sockaddr_storage); [| lia].
    rewrite bind_Done, E2, bind_Done, E3, bind_Done. by rewrite of_le_le2.
Qed.

Lemma sizeof_addr_range addr : 16 ≤ sizeof_addr addr ≤ 28.
Proof. destruct addr; unfold sizeof_addr, sizeof_sockaddr_in, sizeof_sockaddr_in6; lia. Qed.

Lemma repr_id msg ty id l rest : msg_repr msg ty id l rest → zlen id = 16 ∧ bytes_ok id.
Proof. intros [[_ _ ? Hb _ _] _]. rewrite !bytes_ok_app in Hb. tauto. Qed.

(** The XOR builders append the masked address. *)
Lemma append_xor_addr_spec msg ty id l rest type addr addrlen cookie :
  can_append msg ty id l rest type (zlen (addr_val addr)) →
  sockaddr_ok addr → sizeof_addr addr ≤ addrlen →
  ∃ b rest', stun_message_append_xor_addr_full msg type addr addrlen cookie
      = Done (msg <| msg_buffer := b |>, STUN_MESSAGE_RETURN_SUCCESS) ∧
    zlen rest = 4 + zlen (addr_val addr) + zlen rest' ∧
    msg_repr (msg <| msg_buffer := b |>) ty id
      (l ++ [Attr (oc2007_type msg type) (addr_val (xor_addr cookie id addr)) []]) rest'.
Proof.
  intros Hca Hok Hlen. pose proof (ca_repr _ _ _ _ _ _ _ Hca) as Hr.
  pose proof (stun_message_id_spec _ _ _ _ _ Hr) as Eid.
  destruct (repr_id _ _ _ _ _ Hr) as [Hid Hidok]. pose proof (sizeof_addr_range addr).
  destruct (xor_addr_spec cookie id addr Hid Hidok Hok) as (Hxok & Hxs & Hxl & _).
  destruct (addr_val_ok _ Hxok) as [Hvok Hmod].
  rewrite <- Hxl in *. destruct Hca as [_ Ht Hroom Hfit _].
  destruct (append_bytes_succeeds msg ty id l rest type _ Hr Ht Hvok Hroom Hfit)
    as (b & rest' & Happ & Hz & Hr').
  exists b, rest'. split_and!.
  - unfold stun_message_append_xor_addr_full.
    set (len := if sizeof_sockaddr_storage <? addrlen then sizeof_sockaddr_storage else addrlen).
    assert (sizeof_addr addr ≤ len).
    { unfold len, sizeof_sockaddr_storage in *. destruct (Z.ltb_spec 128 addrlen); lia. }
    unfold assert_. destruct (Z.leb_spec 2 len); [| lia]. rewrite bind_Done.
    rewrite (stun_xor_address_spec _ id) by done. rewrite bind_Done, bool_decide_true by done.
    rewrite append_addr_bytes by (done || lia). exact Happ.
  - rewrite Hz. unfold attr_room. rewrite (stun_padding_mod4 _ Hmod). destruct (aligned_of msg); lia.
  - revert Hr'. unfold new_attr. rewrite (stun_padding_mod4 _ Hmod).
    destruct (aligned_of msg), (id_cookie id); cbn; by rewrite ?app_nil_r.
Qed.

(** The XOR search unmasks what it finds. *)
Lemma find_xor_addr_spec msg ty id l rest type addr x n cookie :
  msg_repr msg ty id l rest → value msg l type = Some (addr_val (xor_addr cookie id addr)) →
  sockaddr_ok addr → sizeof_addr addr ≤ n ≤ sizeof_sockaddr_storage →
  stun_message_find_addr msg type x n
    = Done (STUN_MESSAGE_RETURN_SUCCESS, addr_norm (xor_addr cookie id addr), sizeof_addr addr) ∧
  stun_message_find_xor_addr_full msg type x n cookie
    = Done (STUN_MESSAGE_RETURN_SUCCESS, addr_norm addr, sizeof_addr addr).
Proof.
  intros Hr Hv Hok Hn. destruct (repr_id _ _ _ _ _ Hr) as [Hid Hidok].
  destruct (xor_addr_spec cookie id addr Hid Hidok Hok) as (Hxok & Hxs & _ & Hinv).
  assert (Efind := stun_message_find_addr_spec _ _ _ _ _ type _ x n Hr Hv Hxok).
  rewrite Hxs in Efind. specialize (Efind Hn). split; [done |].
  unfold stun_message_find_xor_addr_full. rewrite Efind, bind_Done, bool_decide_true by done.
  rewrite (stun_xor_address_spec _ id).
  - by rewrite Hinv.
  - by eapply stun_message_id_spec.
  - by destruct (xor_addr cookie id addr).
  - rewrite <- Hxs. by destruct (xor_addr cookie id addr).
Qed.

(** A transport address appended XOR-ed with any cookie is recovered by
    the XOR search with that cookie (port and address; an IPv6 flow label and
    scope are not sent), for IPv4 and IPv6, and the plain search returns the
    masked address that was written. *)
Theorem append_find_xor_addr_roundtrip (msg : StunMessage) (ty id : bytes) (l : list attr)
    (rest : bytes) (type : Z) (addr x : sockaddr_storage) (addrlen n cookie : Z)
    (Hca : can_append msg ty id l rest type (zlen (addr_val addr)))
    (Hok : sockaddr_ok addr) (Hlen : sizeof_addr addr ≤ addrlen)
    (Hn : sizeof_addr addr ≤ n ≤ sizeof_sockaddr_storage) :
  ∃ msg',
    stun_message_append_xor_addr_full msg type addr addrlen cookie
      = Done (msg', STUN_MESSAGE_RETURN_SUCCESS) ∧
    stun_message_find_xor_addr_full msg' type x n cookie
      = Done (STUN_MESSAGE_RETURN_SUCCESS, addr_norm addr, sizeof_addr addr) ∧
    stun_message_find_addr msg' type x n
      = Done (STUN_MESSAGE_RETURN_SUCCESS, addr_norm (xor_addr cookie id addr), sizeof_addr addr).
Proof.
  destruct (append_xor_addr_spec _ _ _ _ _ _ _ addrlen cookie Hca Hok Hlen)
    as (b & rest' & -> & _ & Hr').
  eexists; split; [done |].
  destruct (find_xor_addr_spec _ _ _ _ _ type addr x n cookie Hr') as [E1 E2]; [| done | done |].
  - unfold value. rewrite attr_find_passes by apply Hca.
    change (oc2007_type (msg <| msg_buffer := b |>) type) with (oc2007_type msg type).
    cbn. by rewrite Z.eqb_refl.
  - by split.
Qed.

(** 192.0.2.1:32853 with the RFC 5389 cookie. *)
Lemma append_find_xor_addr_roundtrip_witness :
  let addr := sockaddr_in (htons 32853) (htonl 0xc0000201) in
  ∃ msg',
    stun_message_append_xor_addr_full demo_msg STUN_ATTRIBUTE_XOR_MAPPED_ADDRESS addr 128
      STUN_MAGIC_COOKIE = Done (msg', STUN_MESSAGE_RETURN_SUCCESS) ∧
    stun_message_find_xor_addr_full msg' STUN_ATTRIBUTE_XOR_MAPPED_ADDRESS (sockaddr_other 0) 128
      STUN_MAGIC_COOKIE = Done (STUN_MESSAGE_RETURN_SUCCESS, addr, 16) ∧
    stun_message_find_addr msg' STUN_ATTRIBUTE_XOR_MAPPED_ADDRESS (sockaddr_other 0) 128
      = Done (STUN_MESSAGE_RETURN_SUCCESS,
              addr_norm (xor_addr STUN_MAGIC_COOKIE demo_id addr), 16).
Proof.
  intros addr.
  refine (append_find_xor_addr_roundtrip demo_msg [0; 1] demo_id [] (repeat 0 40)
    STUN_ATTRIBUTE_XOR_MAPPED_ADDRESS addr (sockaddr_other 0) 128 128 STUN_MAGIC_COOKIE _ _ _ _);
    [apply demo_can_append | split | |]; by_compute.
Defined.

(** ** Error codes *)

Lemma str_bytes_ok s : bytes_ok (str_bytes s).
Proof.
  induction s as [| c s IH]; constructor; [| done].
  pose proof (Ascii.N_ascii_bounded c). unfold is_u8. lia.
Qed.

(** An ERROR-CODE attribute built for any code in [300 .. 699] is decoded
    to the same code, whatever its reason phrase. *)
Theorem append_find_error_roundtrip (msg : StunMessage) (ty id : bytes) (l : list attr)
    (rest : bytes) (code : Z)
    (Hca : can_append msg ty id l rest STUN_ATTRIBUTE_ERROR_CODE (4 + zlen (stun_strerror code)))
    (Hcode : 300 ≤ code < 700) :
  ∃ msg', stun_message_append_error msg code = Done (msg', STUN_MESSAGE_RETURN_SUCCESS) ∧
    stun_message_find_error msg' = Done (STUN_MESSAGE_RETURN_SUCCESS, Some code).
Proof.
  set (data := [0; 0; u8 (Z.quot code 100); u8 (Z.rem code 100)] ++ stun_strerror code).
  assert (zlen data = 4 + zlen (stun_strerror code)) as Hz by (unfold data; slia).
  rewrite <- Hz in Hca.
  destruct (append_bytes_value _ _ _ _ _ _ data Hca) as (b & rest' & l' & Happ & Hr & Hv).
  { apply bytes_ok_app. split; [| apply str_bytes_ok].
    repeat constructor; first [apply u8_range | done]. }
  exists (msg <| msg_buffer := b |>). split.
  { revert Happ. unfold stun_message_append_error, stun_message_append_bytes. by rewrite Hz. }
  unfold stun_message_find_error.
  destruct (stun_message_find_spec _ _ _ _ _ STUN_ATTRIBUTE_ERROR_CODE Hr) as (r & -> & Hf).
  unfold value in Hv. rewrite bind_Done, Hv in *. destruct r as [[o n] |]; [| done].
  destruct Hf as (-> & p & c & -> & <-).
  assert (stored (aligned_of msg) (id_cookie id) data = [0; 0] ++ u8 (Z.quot code 100) ::
    u8 (Z.rem code 100) :: drop 4 (stored (aligned_of msg) (id_cookie id) data)) as ->
    by (unfold stored, data; by destruct (_ && _)%bool).
  set (v := drop 4 _). set (c1 := u8 _). set (c2 := u8 _).
  pose proof (zlen_nonneg v).
  destruct (Z.ltb_spec (zlen ([0; 0] ++ c1 :: c2 :: v)) 4); [slia |].
  rewrite <- app_assoc, app_assoc. cbn [app].
  rewrite (getb_app (p ++ [0; 0]) _ _ (zlen p + 2)), bind_Done by slia.
  change (c1 :: c2 :: v ++ c) with ([c1] ++ c2 :: v ++ c).
  rewrite app_assoc, getb_app, bind_Done by slia.
  assert (c1 = code / 100 ∧ c2 = code mod 100) as [-> ->].
  { unfold c1, c2. rewrite Z.quot_div_nonneg, Z.rem_mod_nonneg by lia. unfold u8. split; zlia. }
  assert (Z.land (code / 100) 7 = code / 100) as ->.
  { change 7 with (Z.ones 3). rewrite Z.land_ones by lia. zlia. }
  destruct (Z.ltb_spec (code / 100) 3); [zlia |]. destruct (Z.ltb_spec 6 (code / 100)); [zlia |].
  destruct (Z.ltb_spec 99 (code mod 100)); [zlia |]. cbn [orb]. unfold mret, outcome_ret.
  do 3 f_equal. zlia.
Qed.

Lemma append_find_error_roundtrip_witness :
  ∃ msg', stun_message_append_error demo_msg STUN_ERROR_ROLE_CONFLICT
      = Done (msg', STUN_MESSAGE_RETURN_SUCCESS) ∧
    stun_message_find_error msg' = Done (STUN_MESSAGE_RETURN_SUCCESS, Some STUN_ERROR_ROLE_CONFLICT).
Proof.
  refine (append_find_error_roundtrip demo_msg [0; 1] demo_id [] (repeat 0 40) _ _ _);
    [apply demo_can_append |]; by_compute.
Defined.

(** ** The message type *)

(** Reading back the two type octets. *)
Definition decode_type (t : Z) : StunClass * Z :=
  let t := fix_type t in
  (class_of_Z (Z.lor (Z.shiftr (Z.land t 0x0100) 7) (Z.shiftr (Z.land t 0x0010) 4)),
   Z.lor (Z.lor (Z.shiftr (Z.land t 0x3e00) 2) (Z.shiftr (Z.land t 0x00e0) 1)) (Z.land t 0x000f)).

Definition all_classes : list StunClass := [STUN_REQUEST; STUN_INDICATION; STUN_RESPONSE; STUN_ERROR].

Definition type_survives (c : StunClass) (m : Z) : bool :=
  bool_decide (decode_type (of_be (type_bytes c m))
    = if bool_decide (c = STUN_ERROR ∧ m = 5) then (STUN_INDICATION, 7) else (c, m)).

Lemma all_types_survive :
  forallb (λ c, forallb (λ n, type_survives c (Z.of_nat n)) (seq 0 (Z.to_nat 4096))) all_classes = true.
Proof. vm_compute. reflexivity. Qed.

Lemma type_survives_all c m : 0 ≤ m < 4096 → type_survives c m = true.
Proof.
  intros Hm. pose proof all_types_survive as H. rewrite forallb_forall in H.
  assert (In c all_classes) as Hc by (destruct c; cbn; tauto).
  specialize (H c Hc). rewrite forallb_forall in H.
  specialize (H (Z.to_nat m)). rewrite Z2Nat.id in H by lia. apply H, in_seq. lia.
Qed.

Lemma getw_type c m x : stun_getw (type_bytes c m ++ x) 0 = Done (of_be (type_bytes c m)).
Proof.
  change (type_bytes c m ++ x) with ([] ++ u8 (Z.lor (Z.shiftr (class_to_Z c) 1) (Z.land (Z.shiftr m 6) 0x3e))
    :: u8 (Z.lor (Z.lor (Z.land (Z.shiftl (class_to_Z c) 4) 0x10) (Z.land (Z.shiftl m 1) 0xe0))
          (Z.land m 0x0f)) :: x).
  rewrite getw_app by (done || apply u8_range). f_equal.
  unfold type_bytes, of_be. cbn [reverse rev_append of_le]. unfold reverse. cbn [rev_append of_le]. lia.
Qed.

(** [stun_message_init] followed by the two accessors gives back the class
    and the method, for every class and every 12-bit method, except the one
    pair whose encoding is 0x0115 (an error response of method 5), which the
    accessors read as an indication of method 7 for the benefit of old peers. *)
Theorem init_type_roundtrip (msg : StunMessage) (c : StunClass) (m : Z) (id : bytes)
    (Hbuf : 20 ≤ zlen (msg_buffer msg)) (Hok : bytes_ok (msg_buffer msg))
    (Hid : zlen id = 16) (Hidok : bytes_ok id) (Hm : 0 ≤ m < 4096) :
  ∃ msg', stun_message_init msg c m id = Done (msg', true) ∧
    stun_message_id msg' = Done id ∧
    let '(c', m') := if bool_decide (c = STUN_ERROR ∧ m = 5) then (STUN_INDICATION, 7) else (c, m) in
    stun_message_get_class msg' = Done c' ∧ stun_message_get_method msg' = Done m'.
Proof.
  destruct (split_at (msg_buffer msg) 20) as (h & rest & E & Hh); [lia |].
  rewrite E, bytes_ok_app in Hok.
  destruct (stun_message_init_succeeds msg c m id h rest) as (b & -> & Hr); [done || tauto.. |].
  exists (msg <| msg_buffer := b |>). split; [done |].
  split; [by eapply stun_message_id_spec |].
  pose proof (type_survives_all c m Hm) as Ht. apply bool_decide_eq_true in Ht.
  rewrite <- Ht. destruct (decode_type _) as [c' m'] eqn:Ed.
  destruct Hr as [[Eb _ _ _ _ _] _]. unfold hdr_enc in Eb. rewrite <- !app_assoc in Eb.
  unfold stun_message_get_class, stun_message_get_method. rewrite Eb, getw_type, !bind_Done.
  unfold decode_type in Ed. injection Ed as <- <-. done.
Qed.

Lemma init_type_roundtrip_witness :
  ∃ msg', stun_message_init demo_msg STUN_RESPONSE STUN_ALLOCATE demo_id = Done (msg', true) ∧
    stun_message_id msg' = Done demo_id ∧
    stun_message_get_class msg' = Done STUN_RESPONSE ∧
    stun_message_get_method msg' = Done STUN_ALLOCATE.
Proof.
  refine (init_type_roundtrip demo_msg STUN_RESPONSE STUN_ALLOCATE demo_id _ _ _ _ _); by_compute.
Defined.
