(* ===== verification/StunHmac.v ===== *)
(** * Message integrity (stun/stunhmac.c)

    HMAC-SHA1, MD5 and the nonce generator are library code outside the
    repository: [Crypto] states the operations and the one fact the code relies
    on, the length of a digest.  The code feeds the message in pieces; the
    library's documented behaviour is that of the concatenation. *)

From S2P Require Import Prelude Bytes StunMessage StunFacts.

Class Crypto := {
  hmac_sha1 : bytes → bytes → bytes;   (* key, data *)
  md5 : bytes → bytes;
  hmac_sha1_len k m : zlen (hmac_sha1 k m) = 20;
  hmac_sha1_ok k m : bytes_ok (hmac_sha1 k m);
  md5_len m : zlen (md5 m) = 16;
  md5_ok m : bytes_ok (md5 m)
}.

Section stunhmac.
Context {crypto : Crypto}.

(** The octets signed: two of the header, the length field replaced by
    [msg_len], the rest of the first [len - 24] octets, and for RFC 3489 the
    zero padding to a multiple of 64. *)
Definition stun_sha1 (msg : bytes) (len msg_len : Z) (key : bytes) (padding : bool)
  : outcome bytes :=
  let fakelen := htons (u16 msg_len) in
  _ ← assert_ (44 <=? len);
  m0 ← slice msg 0 2;
  m4 ← slice msg 4 (len - 28);
  let pad_char :=
    if padding && (0 <? (len - 24) mod 64)
    then replicate (Z.to_nat (64 - (len - 24) mod 64)) 0 else [] in
  mret (hmac_sha1 key (m0 ++ le 2 fakelen ++ m4 ++ pad_char)).

(** The two loops of [priv_trim_var] over the object [m]; [ptr] is an offset
    and [var_len] the [size_t] modulo 2^64: the octet [ptr[var_len - 1]] is the
    one at [ptr + var_len - 1] also after [var_len] has wrapped below zero. *)
Fixpoint trim_front (fuel : nat) (m : bytes) (ptr var_len : Z) : outcome (Z * Z) :=
  c ← getb m ptr;
  if c =? 34 then
    match fuel with
    | O => Oof
    | S fuel => trim_front fuel m (ptr + 1) (var_len - 1)
    end
  else mret (ptr, var_len).

Fixpoint trim_back (fuel : nat) (m : bytes) (ptr var_len : Z) : outcome Z :=
  c ← getb m (ptr + var_len - 1);
  if (c =? 34) || (c =? 0) then
    match fuel with
    | O => Oof
    | S fuel => trim_back fuel m ptr (var_len - 1)
    end
  else mret var_len.

Definition priv_trim_var (m : bytes) (var var_len : Z) : outcome (Z * Z) :=
  '(ptr, var_len) ← trim_front (length m) m var var_len;
  var_len ← trim_back (length m) m ptr var_len;
  mret (ptr, var_len).

(** [realm] and [username] point into the object [m], [password] is an object
    of its own. *)
Definition stun_hash_creds (m : bytes) (realm realm_len username username_len : Z)
    (password : bytes) : outcome bytes :=
  '(username_trimmed, username_len) ← priv_trim_var m username username_len;
  '(password_trimmed, password_len) ← priv_trim_var password 0 (zlen password);
  '(realm_trimmed, realm_len) ← priv_trim_var m realm realm_len;
  u ← slice m username_trimmed username_len;
  r ← slice m realm_trimmed realm_len;
  p ← slice password password_trimmed password_len;
  mret (md5 (u ++ [58] ++ r ++ [58] ++ p)).

(** ** What the trimming does *)

(** Octets the two loops remove. *)
Definition is_quote (c : Z) : bool := c =? 34.
Definition is_tail (c : Z) : bool := (c =? 34) || (c =? 0).

(** A value with something left after trimming: quotes, a core that neither
    starts with a quote nor ends in a quote or NUL, quotes or NULs. *)
Record trimmable (v q core t : bytes) : Prop := {
  tr_split : v = q ++ core ++ t;
  tr_q : Forall (λ c, is_quote c = true) q;
  tr_first : ∃ c core', core = c :: core' ∧ is_quote c = false;
  tr_last : ∃ core' c, core = core' ++ [c] ∧ is_tail c = false;
  tr_t : Forall (λ c, is_tail c = true) t
}.

Lemma trim_front_spec q m a c rest n fuel :
  Forall (λ c, is_quote c = true) q → is_quote c = false → m = a ++ q ++ c :: rest →
  (length q ≤ fuel)%nat →
  trim_front fuel m (zlen a) n = Done (zlen a + zlen q, n - zlen q).
Proof.
  intros Hq Hc. revert m a n fuel. induction Hq as [| x q Hx _ IH]; intros m a n fuel -> Hf.
  - cbn [app]. destruct fuel; cbn [trim_front]; rewrite getb_app, bind_Done by done;
      unfold is_quote in Hc; rewrite Hc; unfold mret, outcome_ret; do 2 f_equal; slia.
  - destruct fuel as [| fuel]; [cbn in Hf; lia |]. cbn [trim_front app].
    rewrite getb_app, bind_Done by done. unfold is_quote in Hx; rewrite Hx.
    replace (a ++ x :: q ++ c :: rest) with ((a ++ [x]) ++ q ++ c :: rest)
      by (by rewrite <- app_assoc).
    replace (zlen a + 1) with (zlen (a ++ [x])) by slia.
    rewrite (IH _ (a ++ [x])); [| done | cbn in Hf; lia]. do 2 f_equal; slia.
Qed.

Lemma trim_back_spec t m a core c rest fuel :
  Forall (λ c, is_tail c = true) t → is_tail c = false →
  m = a ++ (core ++ [c]) ++ t ++ rest → (length t ≤ fuel)%nat →
  trim_back fuel m (zlen a) (zlen core + 1 + zlen t) = Done (zlen core + 1).
Proof.
  revert m rest fuel. induction t as [| x t IH] using rev_ind; intros m rest fuel Ht Hc -> Hf.
  - rewrite zlen_nil, Z.add_0_r. cbn [app].
    destruct fuel; cbn [trim_back]; rewrite <- app_assoc, app_assoc; cbn [app];
      rewrite getb_app, bind_Done by slia; unfold is_tail in Hc; by rewrite Hc.
  - apply Forall_app in Ht as [Ht Hx]. apply Forall_cons_1 in Hx as [Hx _].
    rewrite length_app in Hf. destruct fuel as [| fuel]; [cbn in Hf; lia |]. cbn [trim_back].
    rewrite <- (app_assoc t). cbn [app].
    assert (getb (a ++ (core ++ [c]) ++ t ++ x :: rest)
      (zlen a + (zlen core + 1 + zlen (t ++ [x])) - 1) = Done x) as ->.
    { rewrite (app_assoc _ t), (app_assoc a). apply getb_app. slia. }
    rewrite bind_Done. unfold is_tail in Hx; rewrite Hx.
    replace (zlen core + 1 + zlen (t ++ [x]) - 1) with (zlen core + 1 + zlen t) by slia.
    apply (IH _ (x :: rest)); [done.. | cbn in Hf; lia].
Qed.

Lemma priv_trim_var_spec m a v q core t rest :
  m = a ++ v ++ rest → trimmable v q core t →
  priv_trim_var m (zlen a) (zlen v) = Done (zlen a + zlen q, zlen core) ∧
  slice m (zlen a + zlen q) (zlen core) = Done core.
Proof.
  intros -> [-> Hq (c & core' & -> & Hc) (core'' & d & Ed & Hd) Ht].
  rewrite Ed in *. unfold priv_trim_var. split.
  - rewrite (trim_front_spec q _ a c (core' ++ t ++ rest)); [| done.. | |].
    2: { change (c :: core' ++ ?x) with ((c :: core') ++ x). rewrite Ed. by rewrite <- !app_assoc. }
    2: { rewrite !length_app. lia. }
    rewrite bind_Done.
    replace (zlen (q ++ (core'' ++ [d]) ++ t) - zlen q) with (zlen core'' + 1 + zlen t) by slia.
    replace (zlen a + zlen q) with (zlen (a ++ q)) by slia.
    rewrite (trim_back_spec t _ (a ++ q) core'' d rest); [| done.. | |].
    + rewrite bind_Done. unfold mret, outcome_ret. do 2 f_equal. slia.
    + by rewrite <- !app_assoc.
    + rewrite !length_app. lia.
  - rewrite <- !app_assoc, (app_assoc a), (app_assoc core''). apply slice_app; slia.
Qed.

(** The digest of trimmable credentials. *)
Lemma stun_hash_creds_spec m a1 realm b1 a2 username b2 password
    rq rcore rt uq ucore ut pq pcore pt :
  m = a1 ++ realm ++ b1 → m = a2 ++ username ++ b2 →
  trimmable realm rq rcore rt → trimmable username uq ucore ut →
  trimmable password pq pcore pt →
  stun_hash_creds m (zlen a1) (zlen realm) (zlen a2) (zlen username) password
    = Done (md5 (ucore ++ [58] ++ rcore ++ [58] ++ pcore)).
Proof.
  intros E1 E2 Hr Hu Hp. unfold stun_hash_creds.
  destruct (priv_trim_var_spec m a2 username uq ucore ut b2 E2 Hu) as [-> Eu]. rewrite bind_Done.
  destruct (priv_trim_var_spec password [] password pq pcore pt []) as [Ep Ep'];
    [by rewrite app_nil_r | done |].
  change (zlen (@nil Z)) with 0 in Ep, Ep'. rewrite Ep, bind_Done.
  destruct (priv_trim_var_spec m a1 realm rq rcore rt b1 E1 Hr) as [-> Er]. rewrite bind_Done.
  by rewrite Eu, bind_Done, Er, bind_Done, Ep', bind_Done.
Qed.

(** ** Termination and the empty value *)

Lemma getb_not_oof m i : getb m i ≠ Oof.
Proof. unfold getb. by repeat case_match. Qed.

Lemma trim_front_fuel fuel m ptr n :
  (ptr < 0 ∨ zlen m - ptr ≤ Z.of_nat fuel) → trim_front fuel m ptr n ≠ Oof.
Proof.
  revert ptr n. induction fuel as [| fuel IH]; intros ptr n Hf; cbn [trim_front];
    destruct (getb m ptr) as [c | |] eqn:E; cbn; try done; try (by apply getb_not_oof in E);
    apply getb_inv in E as [? _].
  - lia.
  - destruct (c =? 34); [| done]. apply IH. lia.
Qed.

Lemma trim_back_fuel fuel m ptr n :
  ptr + n - 1 < Z.of_nat fuel → trim_back fuel m ptr n ≠ Oof.
Proof.
  revert n. induction fuel as [| fuel IH]; intros n Hf; cbn [trim_back];
    destruct (getb m (ptr + n - 1)) as [c | |] eqn:E; cbn; try done;
    try (by apply getb_not_oof in E); apply getb_inv in E as [? _].
  - lia.
  - destruct (_ || _)%bool; [| done]. apply IH. lia.
Qed.

Lemma trim_back_start fuel m ptr n : zlen m ≤ ptr + n - 1 → trim_back fuel m ptr n = Ub.
Proof. intros. destruct fuel; cbn [trim_back]; by rewrite getb_out by lia. Qed.

Lemma priv_trim_var_not_oof m var n : priv_trim_var m var n ≠ Oof.
Proof.
  unfold priv_trim_var. destruct (trim_front _ m var n) as [[p k] | |] eqn:E; cbn; [| done |].
  - destruct (decide (zlen m ≤ p + k - 1)).
    + by rewrite trim_back_start.
    + destruct (trim_back _ m p k) eqn:E2; [done.. |].
      apply trim_back_fuel in E2; [done |]. unfold zlen in *. lia.
  - apply trim_front_fuel in E; [done |]. unfold zlen. lia.
Qed.

(** [trim_back] only shortens, and by one if the last octet goes. *)
Lemma trim_back_le fuel m ptr n r :
  trim_back fuel m ptr n = Done r → r ≤ n.
Proof.
  revert n. induction fuel as [| fuel IH]; intros n H; cbn [trim_back] in H; inv_bind;
    destruct (_ || _)%bool; inv_bind; try lia; try done.
  apply IH in H. lia.
Qed.

Lemma trim_back_lt fuel m ptr n r c :
  getb m (ptr + n - 1) = Done c → is_tail c = true → trim_back fuel m ptr n = Done r → r < n.
Proof.
  intros Hc Ht H. destruct fuel; cbn [trim_back] in H; rewrite Hc, bind_Done in H;
    unfold is_tail in Ht; rewrite Ht in H; [done |]. apply trim_back_le in H. lia.
Qed.

Lemma trim_front_inv fuel m ptr n p k :
  trim_front fuel m ptr n = Done (p, k) →
  p + k = ptr + n ∧ ptr ≤ p ∧ ∃ c, getb m p = Done c ∧ is_quote c = false.
Proof.
  revert ptr n. induction fuel as [| fuel IH]; intros ptr n H; cbn [trim_front] in H; inv_bind;
    destruct (a =? 34) eqn:Ea; inv_bind; try done.
  1, 3: split_and!; [lia | lia | eauto].
  apply IH in H as (? & ? & ?). split_and!; [lia | lia | done].
Qed.

(** A value of nothing but quotes is trimmed to a negative length. *)
Lemma priv_trim_var_degenerate m a v b p k :
  m = a ++ be 2 (zlen v) ++ v ++ b → Forall (λ c, is_quote c = true) v → zlen v < 2 ^ 16 →
  priv_trim_var m (zlen a + 2) (zlen v) = Done (p, k) → k < 0.
Proof.
  intros Em Hv Hn H. revert Em. unfold priv_trim_var in H. inv_bind. destruct a0 as [ptr n].
  inv_bind. intros Em.
  apply trim_front_inv in Hm as (Hpk & Hle & c & Hc & Hq).
  pose proof (zlen_nonneg v). pose proof (zlen_nonneg a).
  assert (Hquote : ∀ i, zlen a + 2 ≤ i < zlen a + 2 + zlen v → ∃ c, getb m i = Done c ∧ is_quote c = true).
  { intros i Hi. destruct (split_at v (i - (zlen a + 2))) as (v1 & v2 & -> & Hv1); [lia |].
    destruct v2 as [| x v2]; [slia |]. exists x. apply Forall_app in Hv as [_ Hv].
    apply Forall_cons_1 in Hv as [Hx _]. split; [| done]. rewrite Em.
    rewrite <- (app_assoc v1), (app_assoc a), (app_assoc (a ++ _)). apply getb_app. slia. }
  assert (zlen a + 2 + zlen v ≤ p) as Hp.
  { destruct (decide (p < zlen a + 2 + zlen v)); [| lia].
    destruct (Hquote p) as (c' & Hc' & Hq'); [lia |]. rewrite Hc in Hc'. congruence. }
  assert (∃ d, getb m (p + n - 1) = Done d ∧ is_tail d = true) as (d & Hd & Ht).
  { destruct (decide (zlen v = 0)) as [Hz |].
    - exists 0. split; [| done]. apply zlen_0_inv in Hz as ->.
      rewrite Em. change (be 2 (zlen (@nil Z))) with [0; 0]. change (zlen (@nil Z)) with 0 in Hpk.
      change (a ++ [0; 0] ++ [] ++ b) with (a ++ [0] ++ 0 :: b). rewrite app_assoc.
      apply getb_app. slia.
    - destruct (Hquote (p + n - 1)) as (d & Hd & Hdq); [lia |]. exists d. split; [done |].
      unfold is_quote, is_tail in *. by rewrite Hdq. }
  pose proof (trim_back_lt _ _ _ _ _ _ Hd Ht Hm0). lia.
Qed.

Lemma slice_neg {A} (m : list A) i n : n < 0 → slice m i n = Ub.
Proof. intros. unfold slice. destruct (Z.leb_spec 0 n); [lia |]. by rewrite andb_false_r. Qed.

(** A USERNAME attribute that is empty, or holds only quotes, drives the
    trimming of [stun_hash_creds] through the attribute header: the length
    wraps below zero and the digest would be computed over the address space.
    No hypothesis on the realm or the password: the call is undefined. *)
Theorem hash_creds_empty_username (m a v b : bytes) (realm realm_len : Z) (password : bytes)
    (Em : m = a ++ be 2 (zlen v) ++ v ++ b)
    (Hv : Forall (λ c, is_quote c = true) v) (Hn : zlen v < 2 ^ 16) :
  stun_hash_creds m realm realm_len (zlen a + 2) (zlen v) password = Ub.
Proof.
  unfold stun_hash_creds.
  destruct (priv_trim_var m (zlen a + 2) (zlen v)) as [[up un] | |] eqn:Eu;
    [rewrite bind_Done | done | by apply priv_trim_var_not_oof in Eu].
  destruct (priv_trim_var password 0 _) as [[pp pn] | |] eqn:Ep;
    [rewrite bind_Done | done | by apply priv_trim_var_not_oof in Ep].
  destruct (priv_trim_var m realm _) as [[rp rn] | |] eqn:Er;
    [rewrite bind_Done | done | by apply priv_trim_var_not_oof in Er].
  rewrite (slice_neg m up un); [done |]. by eapply priv_trim_var_degenerate.
Qed.

End stunhmac.

(** A toy instance for the witnesses: the laws only fix the digest lengths. *)
Definition fit (n : nat) (m : bytes) : bytes := take n (map u8 m ++ replicate n 0).

Lemma fit_ok n m : zlen (fit n m) = Z.of_nat n ∧ bytes_ok (fit n m).
Proof.
  unfold fit, zlen. split.
  - rewrite length_take, length_app, length_replicate. lia.
  - apply Forall_take, Forall_app. split; [| by apply Forall_replicate].
    apply Forall_map, Forall_true. intros. apply u8_range.
Qed.

Definition toy_crypto : Crypto := {|
  hmac_sha1 k m := fit 20 [fold_left Z.add k 0; fold_left Z.add m 0; zlen m];
  md5 m := fit 16 [fold_left Z.add m 0; zlen m];
  hmac_sha1_len k m := proj1 (fit_ok 20 _);
  hmac_sha1_ok k m := proj2 (fit_ok 20 _);
  md5_len m := proj1 (fit_ok 16 _);
  md5_ok m := proj2 (fit_ok 16 _)
|}.

(** USERNAME [(empty)] followed by REALM ["r"]. *)
Lemma hash_creds_empty_username_witness :
  let m := [0; 6; 0; 0; 0; 0x14; 0; 1; 114; 32; 32; 32] in
  @stun_hash_creds toy_crypto m 8 1 4 0 [112; 119] = Ub.
Proof.
  intros m.
  apply (@hash_creds_empty_username toy_crypto m [0; 6] [] [0; 0x14; 0; 1; 114; 32; 32; 32]
    8 1 [112; 119]); [reflexivity | constructor | reflexivity].
Defined.
