(* ===== verification/StunAgent.v ===== *)
(** * The STUN agent (stun/stunagent.c)

    Validation of received messages against the saved transactions and the
    credentials, and the building and finishing of outgoing ones. *)

From S2P Require Import Prelude Bytes StunCrc32 StunMessage StunHmac.

Definition STUN_AGENT_MAX_SAVED_IDS : nat := 200.
Definition STUN_AGENT_MAX_UNKNOWN_ATTRIBUTES : Z := 256.

Inductive StunValidationStatus :=
| STUN_VALIDATION_SUCCESS
| STUN_VALIDATION_NOT_STUN
| STUN_VALIDATION_INCOMPLETE_STUN
| STUN_VALIDATION_BAD_REQUEST
| STUN_VALIDATION_UNAUTHORIZED_BAD_REQUEST
| STUN_VALIDATION_UNAUTHORIZED
| STUN_VALIDATION_UNMATCHED_RESPONSE
| STUN_VALIDATION_UNKNOWN_REQUEST_ATTRIBUTE
| STUN_VALIDATION_UNKNOWN_ATTRIBUTE.
#[export] Instance StunValidationStatus_eq_dec : EqDecision StunValidationStatus.
Proof. solve_decision. Defined.

Record StunAgentSavedIds := {
  si_id : bytes;
  si_method : Z;
  si_key : option bytes;
  si_long_term_key : bytes;
  si_long_term_valid : bool;
  si_valid : bool
}.

Definition eta_SavedIds (s : StunAgentSavedIds) : StunAgentSavedIds :=
  Build_StunAgentSavedIds (si_id s) (si_method s) (si_key s) (si_long_term_key s)
    (si_long_term_valid s) (si_valid s).
#[export] Instance set_si_valid : Setter si_valid := ltac:(derive_setter eta_SavedIds si_valid).

(** [known_attributes] is the array with its terminating 0; [sent_ids] has
    [STUN_AGENT_MAX_SAVED_IDS] entries. *)
Record StunAgent := {
  agent_conf : StunAgentConf;
  sent_ids : list StunAgentSavedIds;
  known_attributes : list Z;
  software_attribute : option bytes;
  ms_ice2_send_legacy_connchecks : bool
}.

Definition eta_StunAgent (a : StunAgent) : StunAgent :=
  Build_StunAgent (agent_conf a) (sent_ids a) (known_attributes a) (software_attribute a)
    (ms_ice2_send_legacy_connchecks a).
#[export] Instance set_sent_ids : Setter sent_ids := ltac:(derive_setter eta_StunAgent sent_ids).
#[export] Instance set_software_attribute : Setter software_attribute :=
  ltac:(derive_setter eta_StunAgent software_attribute).
#[export] Instance set_legacy : Setter ms_ice2_send_legacy_connchecks :=
  ltac:(derive_setter eta_StunAgent ms_ice2_send_legacy_connchecks).

Definition agent_compat (a : StunAgent) : StunCompatibility := compatibility (agent_conf a).
Definition usage (a : StunAgent) (f : Z) : bool := flag (usage_flags (agent_conf a)) f.

(** [compatibility == RFC5389 || compatibility == MSICE2] *)
Definition compat_cookie (c : StunCompatibility) : bool :=
  bool_decide (c = STUN_COMPATIBILITY_RFC5389) || bool_decide (c = STUN_COMPATIBILITY_MSICE2).
(** [compatibility == RFC3489 || compatibility == OC2007] *)
Definition compat_old (c : StunCompatibility) : bool :=
  bool_decide (c = STUN_COMPATIBILITY_RFC3489) || bool_decide (c = STUN_COMPATIBILITY_OC2007).

Definition stun_agent_init (agent : StunAgent) (known : list Z) (compat : StunCompatibility)
    (flags : Z) : StunAgent :=
  {| agent_conf := {| compatibility := compat; usage_flags := flags |};
     sent_ids := (λ s, s <| si_valid := false |>) <$> sent_ids agent;
     known_attributes := known;
     software_attribute := None;
     ms_ice2_send_legacy_connchecks := bool_decide (compat = STUN_COMPATIBILITY_MSICE2) |}.

(** ** Validaters

    A validater gets the agent, the message and the username as a pointer into
    it; [None]: FALSE; [Some k]: TRUE with the password [k] ([None]: NULL). *)
Definition StunMessageIntegrityValidate : Type :=
  StunAgent → StunMessage → option Z → Z → outcome (option (option bytes)).

Record StunDefaultValidaterData := {
  dv_username : bytes;
  dv_username_len : Z;
  dv_password : option bytes
}.

(** [val]: the entries before the one with a NULL username. *)
Fixpoint stun_agent_default_validater (val : list StunDefaultValidaterData)
    (agent : StunAgent) (message : StunMessage) (username : option Z) (username_len : Z)
  : outcome (option (option bytes)) :=
  match val with
  | [] => mret None
  | v :: val =>
      same ←
        (if username_len =? dv_username_len v then
           a ← (match username with
                | Some p => slice (msg_buffer message) p username_len
                | None => if username_len =? 0 then mret [] else Ub
                end);
           b ← slice (dv_username v) 0 username_len;
           mret (bool_decide (a = b))
         else mret false);
      if (same : bool) then mret (Some (dv_password v))
      else stun_agent_default_validater val agent message username username_len
  end.

(** ** Unknown attributes *)

Fixpoint stun_agent_is_unknown (known_attr : list Z) (type : Z) : outcome bool :=
  match known_attr with
  | [] => Ub
  | k :: known_attr =>
      if k =? 0 then mret true
      else if k =? type then mret false
      else stun_agent_is_unknown known_attr type
  end.

(** [lst]: the entries of [list] below [count]. *)
Fixpoint unknowns_loop (fuel : nat) (agent : StunAgent) (m : bytes) (len max offset : Z)
    (lst : list Z) : outcome (list Z) :=
  if (offset <? len) && (zlen lst <? max) then
    match fuel with
    | O => Oof
    | S fuel =>
        alen ← stun_getw m (offset + STUN_ATTRIBUTE_TYPE_LEN);
        atype ← stun_getw m offset;
        unknown ← (mret (negb (stun_optional atype)) &&&
                   stun_agent_is_unknown (known_attributes agent) atype);
        let lst := if (unknown : bool) then lst ++ [htons atype] else lst in
        let alen := if negb (usage agent STUN_AGENT_USAGE_NO_ALIGNED_ATTRIBUTES)
                    then stun_align alen else alen in
        unknowns_loop fuel agent m len max (offset + (STUN_ATTRIBUTE_VALUE_POS + alen)) lst
    end
  else mret lst.

Definition stun_agent_find_unknowns (agent : StunAgent) (msg : StunMessage) (max : Z)
  : outcome (list Z) :=
  len ← stun_message_length msg;
  unknowns_loop (Z.to_nat len) agent (msg_buffer msg) len max STUN_MESSAGE_ATTRIBUTES_POS [].

(** ** Validation *)

Definition stun_agent_check_fingerprint (agent : StunAgent) (msg : StunMessage) : outcome bool :=
  r ← stun_message_find32 msg STUN_ATTRIBUTE_FINGERPRINT;
  match r with
  | (STUN_MESSAGE_RETURN_SUCCESS, Some fpr) =>
      msg_len ← stun_message_length msg;
      crc32 ← stun_fingerprint (msg_buffer msg) msg_len false;
      let fpr := htonl fpr in
      if negb (fpr =? crc32) then
        mret (bool_decide (agent_compat agent = STUN_COMPATIBILITY_MSICE2)) &&&
        (v ← stun_message_find msg STUN_ATTRIBUTE_MS_IMPLEMENTATION_VERSION;
         mret (bool_decide (v = None))) &&&
        (typo ← stun_fingerprint (msg_buffer msg) msg_len true; mret (fpr =? typo))
      else mret true
  | _ => mret false
  end.

(** The entry a response answers: the first valid one with its method and
    identifier. *)
Definition saved_matches (method : Z) (id : bytes) (s : StunAgentSavedIds) : Prop :=
  si_valid s = true ∧ si_method s = method ∧ id = si_id s.
#[export] Instance saved_matches_dec method id s : Decision (saved_matches method id s).
Proof. unfold saved_matches. apply _. Defined.

Definition has_attr (msg : StunMessage) (type : Z) : outcome bool := stun_message_has_attribute msg type.
Definition lacks (msg : StunMessage) (type : Z) : outcome bool :=
  b ← stun_message_has_attribute msg type; mret (negb b).

Definition class_is (msg : StunMessage) (c : StunClass) : outcome bool :=
  k ← stun_message_get_class msg; mret (bool_decide (k = c)).

(** [stun_message_find_error (msg, &code) == SUCCESS && (code == ... || ...)] *)
Definition error_in (msg : StunMessage) (codes : list Z) : outcome bool :=
  r ← stun_message_find_error msg;
  mret (match r with
        | (STUN_MESSAGE_RETURN_SUCCESS, Some code) => bool_decide (code ∈ codes)
        | _ => false
        end).

Definition ignore_credentials (agent : StunAgent) (msg : StunMessage) : outcome bool :=
  mret (usage agent STUN_AGENT_USAGE_IGNORE_CREDENTIALS) |||
  (class_is msg STUN_ERROR &&&
   error_in msg [STUN_ERROR_BAD_REQUEST; STUN_ERROR_UNAUTHORIZED; STUN_ERROR_STALE_NONCE;
                 STUN_ERROR_TRY_ALTERNATE]) |||
  (class_is msg STUN_INDICATION &&&
   mret (usage agent STUN_AGENT_USAGE_LONG_TERM_CREDENTIALS
         || usage agent STUN_AGENT_USAGE_NO_INDICATION_AUTH)).

(** The request or indication lacks an attribute its credentials need. *)
Definition credentials_missing (agent : StunAgent) (msg : StunMessage) : outcome bool :=
  (class_is msg STUN_REQUEST ||| class_is msg STUN_INDICATION) &&&
  ((mret (usage agent STUN_AGENT_USAGE_SHORT_TERM_CREDENTIALS) &&&
    (lacks msg STUN_ATTRIBUTE_USERNAME ||| lacks msg STUN_ATTRIBUTE_MESSAGE_INTEGRITY)) |||
   (mret (usage agent STUN_AGENT_USAGE_LONG_TERM_CREDENTIALS) &&&
    class_is msg STUN_REQUEST &&&
    (lacks msg STUN_ATTRIBUTE_USERNAME ||| lacks msg STUN_ATTRIBUTE_MESSAGE_INTEGRITY |||
     lacks msg STUN_ATTRIBUTE_NONCE ||| lacks msg STUN_ATTRIBUTE_REALM)) |||
   (mret (negb (usage agent STUN_AGENT_USAGE_IGNORE_CREDENTIALS)) &&&
    has_attr msg STUN_ATTRIBUTE_USERNAME &&& lacks msg STUN_ATTRIBUTE_MESSAGE_INTEGRITY)).

Section agent.
Context {crypto : Crypto}.

(** The HMAC expected at the MESSAGE-INTEGRITY value at offset [hash]. *)
Definition expected_sha (agent : StunAgent) (msg : StunMessage) (hash : Z) (key : bytes)
  : outcome bytes :=
  if compat_old (agent_compat agent) then
    stun_sha1 (msg_buffer msg) (hash + 20) hash key true
  else if bool_decide (agent_compat agent = STUN_COMPATIBILITY_MSICE2) then
    length ← stun_message_length msg;
    stun_sha1 (msg_buffer msg) (hash + 20) (u64 (length - 20)) key true
  else stun_sha1 (msg_buffer msg) (hash + 20) hash key false.

(** The MESSAGE-INTEGRITY check with a key at hand: the message as updated and
    whether it passes.  [saved_md5]: the long-term key of the transaction. *)
Definition check_integrity (agent : StunAgent) (msg : StunMessage) (key : bytes)
    (saved_md5 : option bytes) : outcome (StunMessage * bool) :=
  h ← stun_message_find msg STUN_ATTRIBUTE_MESSAGE_INTEGRITY;
  match h with
  | Some (hash, _) =>
      r ← (if usage agent STUN_AGENT_USAGE_LONG_TERM_CREDENTIALS then
             md ← (match saved_md5 with
                   | Some k => mret (Some k)
                   | None =>
                       realm ← stun_message_find msg STUN_ATTRIBUTE_REALM;
                       username ← stun_message_find msg STUN_ATTRIBUTE_USERNAME;
                       match username, realm with
                       | Some (u, ul), Some (r, rl) =>
                           d ← stun_hash_creds (msg_buffer msg) r rl u ul key; mret (Some d)
                       | _, _ => mret None
                       end
                   end);
             mret (match md with
                   | Some d => Some (msg <| msg_long_term_key := d |> <| msg_long_term_valid := true |>, d)
                   | None => None
                   end)
           else mret (Some (msg, key)));
      match r with
      | None => mret (msg, false)
      | Some (msg, k) =>
          sha ← expected_sha agent msg hash k;
          received ← slice (msg_buffer msg) hash 20;
          if bool_decide (sha = received)
          then mret (msg <| msg_key := Some key |>, true)
          else mret (msg, false)
      end
  | None =>
      b ← (class_is msg STUN_ERROR &&& error_in msg [STUN_ERROR_BAD_REQUEST; STUN_ERROR_UNAUTHORIZED]);
      mret (msg, b)
  end.

(** Everything after the integrity check. *)
Definition validate_accept (agent : StunAgent) (msg : StunMessage) (sent_id_idx : option nat)
  : outcome (StunValidationStatus * StunAgent * StunMessage) :=
  let agent :=
    match sent_id_idx with
    | Some i => agent <| sent_ids := alter (λ s, s <| si_valid := false |>) i (sent_ids agent) |>
    | None => agent
    end in
  v ← stun_message_find32 msg STUN_ATTRIBUTE_MS_IMPLEMENTATION_VERSION;
  let agent :=
    if bool_decide (v.1 = STUN_MESSAGE_RETURN_SUCCESS)
    then agent <| ms_ice2_send_legacy_connchecks := false |> else agent in
  unknown ← stun_agent_find_unknowns agent msg 1;
  if 0 <? zlen unknown then
    r ← class_is msg STUN_REQUEST;
    mret (if (r : bool) then STUN_VALIDATION_UNKNOWN_REQUEST_ATTRIBUTE
          else STUN_VALIDATION_UNKNOWN_ATTRIBUTE, agent, msg)
  else mret (STUN_VALIDATION_SUCCESS, agent, msg).

(** From the credentials on; [saved] is the matched transaction. *)
Definition validate_credentials (agent : StunAgent) (msg : StunMessage)
    (validater : option StunMessageIntegrityValidate) (saved : option (nat * StunAgentSavedIds))
  : outcome (StunValidationStatus * StunAgent * StunMessage) :=
  let key := match saved with Some (_, s) => si_key s | None => None end in
  ignore ← ignore_credentials agent msg;
  missing ← (mret (bool_decide (key = None)) &&& mret (negb ignore) &&& credentials_missing agent msg);
  if (missing : bool) then mret (STUN_VALIDATION_UNAUTHORIZED_BAD_REQUEST, agent, msg)
  else
    ask ← (has_attr msg STUN_ATTRIBUTE_MESSAGE_INTEGRITY &&&
           mret ((bool_decide (key = None) && negb ignore)
                 || usage agent STUN_AGENT_USAGE_FORCE_VALIDATER));
    answer ←
      (if (ask : bool) then
         u ← stun_message_find msg STUN_ATTRIBUTE_USERNAME;
         let '(username, username_len) :=
           match u with Some (p, l) => (Some p, l) | None => (None, 0) end in
         match validater with
         | None => mret None
         | Some validater => validater agent msg username username_len
         end
       else mret (Some key));
    match answer with
    | None => mret (STUN_VALIDATION_UNAUTHORIZED, agent, msg)
    | Some key =>
        r ← (match key with
             | Some k =>
                 if negb ignore && (0 <? zlen k) then
                   check_integrity agent msg k
                     (match saved with
                      | Some (_, s) =>
                          if si_long_term_valid s then Some (si_long_term_key s) else None
                      | None => None
                      end)
                 else mret (msg, true)
             | None => mret (msg, true)
             end);
        let '(msg, ok) := r in
        if (ok : bool) then validate_accept agent msg (fst <$> saved)
        else mret (STUN_VALIDATION_UNAUTHORIZED, agent, msg)
    end.

Definition stun_agent_validate (agent : StunAgent) (msg : StunMessage) (buffer : bytes)
    (validater : option StunMessageIntegrityValidate)
  : outcome (StunValidationStatus * StunAgent * StunMessage) :=
  len ← stun_message_validate_buffer_length buffer (zlen buffer)
    (negb (usage agent STUN_AGENT_USAGE_NO_ALIGNED_ATTRIBUTES));
  if len =? STUN_MESSAGE_BUFFER_INVALID then mret (STUN_VALIDATION_NOT_STUN, agent, msg)
  else if len =? STUN_MESSAGE_BUFFER_INCOMPLETE
  then mret (STUN_VALIDATION_INCOMPLETE_STUN, agent, msg)
  else if negb (len =? s32 (zlen buffer)) then mret (STUN_VALIDATION_NOT_STUN, agent, msg)
  else
    let msg := {| msg_agent := Some (agent_conf agent); msg_buffer := buffer; msg_key := None;
                  msg_long_term_key := msg_long_term_key msg; msg_long_term_valid := false |} in
    no_cookie ← (mret (compat_cookie (agent_compat agent)) &&&
                 (b ← stun_message_has_cookie msg; mret (negb b)));
    if (no_cookie : bool) then mret (STUN_VALIDATION_BAD_REQUEST, agent, msg)
    else
      bad_fpr ← (mret (compat_cookie (agent_compat agent)
                       && usage agent STUN_AGENT_USAGE_USE_FINGERPRINT) &&&
                 (b ← stun_agent_check_fingerprint agent msg; mret (negb b)));
      if (bad_fpr : bool) then mret (STUN_VALIDATION_BAD_REQUEST, agent, msg)
      else
        response ← (class_is msg STUN_RESPONSE ||| class_is msg STUN_ERROR);
        if (response : bool) then
          id ← stun_message_id msg;
          method ← stun_message_get_method msg;
          match list_find (saved_matches method id) (sent_ids agent) with
          | None => mret (STUN_VALIDATION_UNMATCHED_RESPONSE, agent, msg)
          | Some saved => validate_credentials agent msg validater (Some saved)
          end
        else validate_credentials agent msg validater None.

(** ** Transactions *)

Definition stun_agent_forget_transaction (agent : StunAgent) (id : bytes) : StunAgent * bool :=
  match list_find (λ s, si_valid s = true ∧ id = si_id s) (sent_ids agent) with
  | Some (i, _) =>
      (agent <| sent_ids := alter (λ s, s <| si_valid := false |>) i (sent_ids agent) |>, true)
  | None => (agent, false)
  end.

(** ** Outgoing messages *)

Context (PACKAGE_STRING : bytes).

(** [msg] over [buffer], owned by [agent], without key. *)
Definition fresh_msg (agent : StunAgent) (msg : StunMessage) (buffer : bytes) : StunMessage :=
  {| msg_agent := Some (agent_conf agent); msg_buffer := buffer; msg_key := None;
     msg_long_term_key := msg_long_term_key msg; msg_long_term_valid := false |}.

(** The cookie in the first four octets of the identifier. *)
Definition put_cookie (agent : StunAgent) (msg : StunMessage) : outcome StunMessage :=
  if compat_cookie (agent_compat agent) then
    b ← store (msg_buffer msg) STUN_MESSAGE_TRANS_ID_POS (le 4 (htonl STUN_MAGIC_COOKIE));
    mret (msg <| msg_buffer := b |>)
  else mret msg.

Definition put_software (agent : StunAgent) (msg : StunMessage) : outcome StunMessage :=
  if compat_cookie (agent_compat agent) &&
     (bool_decide (software_attribute agent ≠ None) || usage agent STUN_AGENT_USAGE_ADD_SOFTWARE)
  then
    '(msg, _) ← stun_message_append_software PACKAGE_STRING msg (software_attribute agent);
    mret msg
  else mret msg.

(** [transid]: what [stun_make_transid] produces. *)
Definition stun_agent_init_request (agent : StunAgent) (msg : StunMessage) (buffer : bytes)
    (m : Z) (transid : bytes) : outcome (StunMessage * bool) :=
  let msg := fresh_msg agent msg buffer in
  '(msg, ret) ← stun_message_init msg STUN_REQUEST m transid;
  if (ret : bool) then
    msg ← put_cookie agent msg;
    msg ← put_software agent msg;
    mret (msg, true)
  else mret (msg, false).

Definition stun_agent_init_indication (agent : StunAgent) (msg : StunMessage) (buffer : bytes)
    (m : Z) (transid : bytes) : outcome (StunMessage * bool) :=
  let msg := fresh_msg agent msg buffer in
  '(msg, ret) ← stun_message_init msg STUN_INDICATION m transid;
  if (ret : bool) then msg ← put_cookie agent msg; mret (msg, true)
  else mret (msg, false).

(** [msg] over [buffer] with the credentials of [request]. *)
Definition answer_msg (agent : StunAgent) (buffer : bytes) (request : StunMessage) : StunMessage :=
  {| msg_agent := Some (agent_conf agent); msg_buffer := buffer; msg_key := msg_key request;
     msg_long_term_key := msg_long_term_key request;
     msg_long_term_valid := msg_long_term_valid request |}.

Definition stun_agent_init_response (agent : StunAgent) (msg : StunMessage) (buffer : bytes)
    (request : StunMessage) : outcome (StunMessage * bool) :=
  c ← stun_message_get_class request;
  if negb (bool_decide (c = STUN_REQUEST)) then mret (msg, false)
  else
    let msg := answer_msg agent buffer request in
    id ← stun_message_id request;
    m ← stun_message_get_method request;
    '(msg, ret) ← stun_message_init msg STUN_RESPONSE m id;
    if (ret : bool) then msg ← put_software agent msg; mret (msg, true)
    else mret (msg, false).

Definition stun_agent_init_error (agent : StunAgent) (msg : StunMessage) (buffer : bytes)
    (request : StunMessage) (err : Z) : outcome (StunMessage * bool) :=
  c ← stun_message_get_class request;
  if negb (bool_decide (c = STUN_REQUEST)) then mret (msg, false)
  else
    let msg := answer_msg agent buffer request in
    id ← stun_message_id request;
    m ← stun_message_get_method request;
    '(msg, ret) ← stun_message_init msg STUN_ERROR m id;
    if (ret : bool) then
      msg ← put_software agent msg;
      '(msg, r) ← stun_message_append_error msg err;
      mret (msg, bool_decide (r = STUN_MESSAGE_RETURN_SUCCESS))
    else mret (msg, false).

(** ** Finishing a message *)

(** The key of the HMAC: the long-term digest, or the key itself.  [None]:
    long-term credentials without realm or username, nothing is signed. *)
Definition finish_key (agent : StunAgent) (msg : StunMessage) (key : bytes)
  : outcome (StunMessage * option bytes) :=
  '(msg, md) ←
    (if msg_long_term_valid msg then mret (msg, Some (msg_long_term_key msg))
     else if usage agent STUN_AGENT_USAGE_LONG_TERM_CREDENTIALS then
       realm ← stun_message_find msg STUN_ATTRIBUTE_REALM;
       username ← stun_message_find msg STUN_ATTRIBUTE_USERNAME;
       match username, realm with
       | Some (u, ul), Some (r, rl) =>
           d ← stun_hash_creds (msg_buffer msg) r rl u ul key;
           mret (msg <| msg_long_term_key := d |> <| msg_long_term_valid := true |>, Some d)
       | _, _ => mret (msg, None)
       end
     else mret (msg, Some key));
  match md with
  | None => mret (msg, None)
  | Some d =>
      mret (msg, Some (if usage agent STUN_AGENT_USAGE_LONG_TERM_CREDENTIALS then d else key))
  end.

(** The digest over a message whose last attribute is MESSAGE-INTEGRITY. *)
Definition finish_sha (agent : StunAgent) (msg : StunMessage) (key : bytes) : outcome bytes :=
  length ← stun_message_length msg;
  if compat_old (agent_compat agent) then
    stun_sha1 (msg_buffer msg) length (u64 (length - 20)) key true
  else if bool_decide (agent_compat agent = STUN_COMPATIBILITY_MSICE2) then
    let minus := if usage agent STUN_AGENT_USAGE_USE_FINGERPRINT then 20 - 8 else 20 in
    stun_sha1 (msg_buffer msg) length (u64 (length - minus)) key true
  else stun_sha1 (msg_buffer msg) length (u64 (length - 20)) key false.

(** Appends MESSAGE-INTEGRITY; [false]: no room. *)
Definition finish_integrity (agent : StunAgent) (msg : StunMessage) (key : option bytes)
  : outcome (StunMessage * bool) :=
  match key with
  | None => mret (msg, true)
  | Some key =>
      '(msg, k) ← finish_key agent msg key;
      match k with
      | None => mret (msg, true)
      | Some k =>
          '(msg, ptr) ← stun_message_append msg STUN_ATTRIBUTE_MESSAGE_INTEGRITY 20;
          match ptr with
          | None => mret (msg, false)
          | Some ptr =>
              sha ← finish_sha agent msg k;
              b ← store (msg_buffer msg) ptr sha;
              mret (msg <| msg_buffer := b |>, true)
          end
      end
  end.

(** Appends FINGERPRINT where it is used; [false]: no room. *)
Definition finish_fingerprint (agent : StunAgent) (msg : StunMessage)
  : outcome (StunMessage * bool) :=
  if compat_cookie (agent_compat agent) && usage agent STUN_AGENT_USAGE_USE_FINGERPRINT then
    '(msg, ptr) ← stun_message_append msg STUN_ATTRIBUTE_FINGERPRINT 4;
    match ptr with
    | None => mret (msg, false)
    | Some ptr =>
        length ← stun_message_length msg;
        fpr ← stun_fingerprint (msg_buffer msg) length false;
        b ← store (msg_buffer msg) ptr (le 4 fpr);
        mret (msg <| msg_buffer := b |>, true)
    end
  else mret (msg, true).

(** The result is the size of the message, 0 when it is dropped. *)
Definition stun_agent_finish_message (agent : StunAgent) (msg : StunMessage) (key : option bytes)
  : outcome (Z * StunAgent * StunMessage) :=
  c ← stun_message_get_class msg;
  m ← stun_message_get_method msg;
  let remember_transaction :=
    bool_decide (c = STUN_REQUEST) &&
    negb (bool_decide (agent_compat agent = STUN_COMPATIBILITY_OC2007) && (m =? STUN_SEND)) in
  let saved_id_idx :=
    if remember_transaction
    then match list_find (λ s, si_valid s = false) (sent_ids agent) with
         | Some (i, _) => Some i
         | None => None
         end
    else Some 0%nat in
  match saved_id_idx with
  | None => mret (0, agent, msg)
  | Some saved_id_idx =>
      let key := match msg_key msg with Some k => Some k | None => key end in
      '(msg, ok) ← finish_integrity agent msg key;
      if negb ok then mret (0, agent, msg)
      else
        '(msg, ok) ← finish_fingerprint agent msg;
        if negb ok then mret (0, agent, msg)
        else
          id ← stun_message_id msg;
          m ← stun_message_get_method msg;
          let agent :=
            if remember_transaction then
              agent <| sent_ids :=
                <[saved_id_idx :=
                  {| si_id := id; si_method := m; si_key := key;
                     si_long_term_key := msg_long_term_key msg;
                     si_long_term_valid := msg_long_term_valid msg; si_valid := true |}]>
                (sent_ids agent) |>
            else agent in
          length ← stun_message_length msg;
          mret (length, agent, msg <| msg_key := key |>)
  end.

(** An array of words in memory. *)
Definition words_bytes (l : list Z) : bytes := concat (map (le 2) l).

Definition stun_agent_build_unknown_attributes_error (agent : StunAgent) (msg : StunMessage)
    (buffer : bytes) (request : StunMessage) : outcome (Z * StunAgent * StunMessage) :=
  ids ← stun_agent_find_unknowns agent request STUN_AGENT_MAX_UNKNOWN_ATTRIBUTES;
  '(msg, ok) ← stun_agent_init_error agent msg buffer request STUN_ERROR_UNKNOWN_ATTRIBUTE;
  if negb ok then mret (0, agent, msg)
  else
    cookie ← stun_message_has_cookie request;
    ids ← (if negb cookie && flag (zlen ids) 1 then
             match ids with
             | x :: _ => _ ← assert_ (zlen ids <? STUN_AGENT_MAX_UNKNOWN_ATTRIBUTES); mret (ids ++ [x])
             | [] => Ub
             end
           else mret ids);
    '(msg, r) ← stun_message_append_bytes msg STUN_ATTRIBUTE_UNKNOWN_ATTRIBUTES (words_bytes ids);
    if bool_decide (r = STUN_MESSAGE_RETURN_SUCCESS)
    then stun_agent_finish_message agent msg (msg_key request)
    else mret (0, agent, msg).

Definition stun_agent_set_software (agent : StunAgent) (software : option bytes) : StunAgent :=
  agent <| software_attribute := software |>.

End agent.
