(* ===== verification/StunAgentTrans.v ===== *)
(** * The transactions of a STUN agent

    The table of saved transactions as a state machine: what
    [stun_agent_validate], [stun_agent_forget_transaction] and
    [stun_agent_finish_message] do to it. *)

From S2P Require Import Prelude Bytes StunCrc32 StunMessage StunHmac StunAgent.

(** The statuses after which the caller acts on the message. *)
Definition accepted (st : StunValidationStatus) : bool :=
  bool_decide (st ∈ [STUN_VALIDATION_SUCCESS; STUN_VALIDATION_UNKNOWN_REQUEST_ATTRIBUTE;
                     STUN_VALIDATION_UNKNOWN_ATTRIBUTE]).

Definition clear (i : nat) (l : list StunAgentSavedIds) : list StunAgentSavedIds :=
  alter (λ s, s <| si_valid := false |>) i l.

(** ** Messages are read through buffer and agent only *)

Definition same_view (m1 m2 : StunMessage) : Prop :=
  msg_agent m1 = msg_agent m2 ∧ msg_buffer m1 = msg_buffer m2.

Lemma view_has_cookie m1 m2 :
  same_view m1 m2 → stun_message_has_cookie m1 = stun_message_has_cookie m2.
Proof. destruct m1, m2. intros [E1 E2]. cbn in *. by subst. Qed.
Lemma view_class m1 m2 : same_view m1 m2 → stun_message_get_class m1 = stun_message_get_class m2.
Proof. destruct m1, m2. intros [E1 E2]. cbn in *. by subst. Qed.
Lemma view_method m1 m2 : same_view m1 m2 → stun_message_get_method m1 = stun_message_get_method m2.
Proof. destruct m1, m2. intros [E1 E2]. cbn in *. by subst. Qed.
Lemma view_id m1 m2 : same_view m1 m2 → stun_message_id m1 = stun_message_id m2.
Proof. destruct m1, m2. intros [E1 E2]. cbn in *. by subst. Qed.
Lemma view_class_is m1 m2 c : same_view m1 m2 → class_is m1 c = class_is m2 c.
Proof. intros H. unfold class_is. by rewrite (view_class _ _ H). Qed.
Lemma view_fingerprint a m1 m2 :
  same_view m1 m2 → stun_agent_check_fingerprint a m1 = stun_agent_check_fingerprint a m2.
Proof. destruct m1, m2. intros [E1 E2]. cbn in E1, E2. subst. reflexivity. Qed.

Section trans.
Context {crypto : Crypto}.

(** ** One run of the validation *)

Lemma validate_accept_inv agent msg idx st agent' msg' :
  validate_accept agent msg idx = Done (st, agent', msg') →
  accepted st = true ∧ msg' = msg ∧ agent_conf agent' = agent_conf agent ∧
  sent_ids agent' = match idx with Some i => clear i (sent_ids agent) | None => sent_ids agent end.
Proof.
  unfold validate_accept. intros H. inv_bind.
  destruct (0 <? zlen _); inv_bind; repeat case_match; done.
Qed.

Lemma validate_credentials_inv agent msg validater saved st agent' msg' :
  validate_credentials agent msg validater saved = Done (st, agent', msg') →
  (accepted st = false ∧ agent' = agent) ∨
  (accepted st = true ∧ agent_conf agent' = agent_conf agent ∧
   sent_ids agent' = match saved with
                     | Some (i, _) => clear i (sent_ids agent)
                     | None => sent_ids agent
                     end).
Proof.
  unfold validate_credentials. intros H. inv_bind.
  break_in H; [by left |]. break_in H; [| by left].
  do 2 break_in H; [right | by left].
  apply validate_accept_inv in H as (? & _ & ? & E). split_and!; [done.. |].
  rewrite E. by destruct saved as [[? ?] |].
Qed.

(** A run on a message that is not a response leaves the table alone; a run on
    a response either clears exactly its first matching entry, and then the
    status is an accepting one, or leaves the agent alone. *)
Lemma validate_inv agent msg buffer validater st agent' msg' :
  stun_agent_validate agent msg buffer validater = Done (st, agent', msg') →
  (accepted st = false ∧ agent' = agent) ∨
  (accepted st = true ∧ agent_conf agent' = agent_conf agent ∧
   let m := fresh_msg agent msg buffer in
   ((class_is m STUN_RESPONSE ||| class_is m STUN_ERROR = Done false ∧ sent_ids agent' = sent_ids agent) ∨
    (class_is m STUN_RESPONSE ||| class_is m STUN_ERROR = Done true ∧
     ∃ id method i s, stun_message_id m = Done id ∧ stun_message_get_method m = Done method ∧
       list_find (saved_matches method id) (sent_ids agent) = Some (i, s) ∧
       sent_ids agent' = clear i (sent_ids agent)))).
Proof.
  unfold stun_agent_validate. intros H. inv_bind.
  do 3 (break_in H; [by left |]). break_in H; [by left |]. break_in H; [by left |].
  fold (fresh_msg agent msg buffer) in *. break_in H.
  - break_in H; [| by left]. destruct p as [i s].
    apply validate_credentials_inv in H as [? | (? & ? & ?)]; [by left | right].
    split_and!; [done.. |]. right. split; [done |]. by eexists _, _, i, s.
  - apply validate_credentials_inv in H as [? | (? & ? & ?)]; [by left | right].
    split_and!; [done.. |]. by left.
Qed.

(** ** The table as a set of open transactions *)

(** Valid entries have pairwise different identifiers. *)
Definition sent_distinct (l : list StunAgentSavedIds) : Prop :=
  ∀ i j s t, l !! i = Some s → l !! j = Some t → si_valid s = true → si_valid t = true →
    si_id s = si_id t → i = j.

Lemma clear_lookup i l j :
  clear i l !! j = if decide (i = j) then (λ s, s <| si_valid := false |>) <$> l !! j else l !! j.
Proof.
  unfold clear. rewrite list_lookup_alter. by destruct (decide (i = j)) as [-> |].
Qed.

Lemma sent_distinct_clear i l : sent_distinct l → sent_distinct (clear i l).
Proof.
  intros Hd j k s t. rewrite !clear_lookup.
  destruct (decide (i = j)), (decide (i = k)); try (intros; eapply Hd; eauto; fail).
  all: intros Hs Ht Hvs Hvt.
  - rewrite fmap_Some in Hs. destruct Hs as (? & _ & ->). done.
  - rewrite fmap_Some in Hs. destruct Hs as (? & _ & ->). done.
  - rewrite fmap_Some in Ht. destruct Ht as (? & _ & ->). done.
Qed.

Lemma clear_not_found method id i s l :
  sent_distinct l → list_find (saved_matches method id) l = Some (i, s) →
  list_find (saved_matches method id) (clear i l) = None.
Proof.
  intros Hd Hf. apply list_find_Some in Hf as (Hi & (Hv & _ & Hid) & _).
  apply list_find_None, Forall_lookup. intros j t Hj (Hvt & _ & Hidt).
  rewrite clear_lookup in Hj. destruct (decide (i = j)) as [-> | Hne].
  - rewrite fmap_Some in Hj. destruct Hj as (? & _ & ->). done.
  - apply Hne, (Hd i j s t); congruence.
Qed.

Lemma usage_conf a b f : agent_conf a = agent_conf b → usage a f = usage b f.
Proof. unfold usage. by intros ->. Qed.
Lemma compat_conf a b : agent_conf a = agent_conf b → agent_compat a = agent_compat b.
Proof. unfold agent_compat. by intros ->. Qed.
Lemma fingerprint_conf a b m :
  agent_conf a = agent_conf b → stun_agent_check_fingerprint a m = stun_agent_check_fingerprint b m.
Proof. intros E. unfold stun_agent_check_fingerprint. by rewrite (compat_conf _ _ E). Qed.

(** Accepting a response matched an open transaction, and closed it: with
    different identifiers no entry of the new table matches any more. *)
Lemma accepted_response_closes agent msg buffer validater st agent' msg' :
  stun_agent_validate agent msg buffer validater = Done (st, agent', msg') →
  accepted st = true →
  (class_is (fresh_msg agent msg buffer) STUN_RESPONSE |||
   class_is (fresh_msg agent msg buffer) STUN_ERROR) = Done true →
  sent_distinct (sent_ids agent) →
  agent_conf agent' = agent_conf agent ∧
  ∃ id method, stun_message_id (fresh_msg agent msg buffer) = Done id ∧
    stun_message_get_method (fresh_msg agent msg buffer) = Done method ∧
    list_find (saved_matches method id) (sent_ids agent') = None.
Proof.
  intros H Hacc Hresp Hd. apply validate_inv in H as [[? _] | (_ & Hc & H)]; [congruence |].
  split; [done |]. destruct H as [[H _] | (_ & id & method & i & s & Hid & Hm & Hf & Es)];
    [congruence |].
  exists id, method. split_and!; [done.. |]. rewrite Es. by eapply clear_not_found.
Qed.

(** A response without open transaction, in a run that does not stop before
    the table is looked at. *)
Lemma validate_unmatched agent msg buffer validater msg2 validater2 agent2 st agent' msg' id method :
  stun_agent_validate agent msg buffer validater = Done (st, agent', msg') → accepted st = true →
  agent_conf agent2 = agent_conf agent →
  (class_is (fresh_msg agent msg buffer) STUN_RESPONSE |||
   class_is (fresh_msg agent msg buffer) STUN_ERROR) = Done true →
  stun_message_id (fresh_msg agent msg buffer) = Done id →
  stun_message_get_method (fresh_msg agent msg buffer) = Done method →
  list_find (saved_matches method id) (sent_ids agent2) = None →
  stun_agent_validate agent2 msg2 buffer validater2
    = Done (STUN_VALIDATION_UNMATCHED_RESPONSE, agent2, fresh_msg agent2 msg2 buffer).
Proof.
  intros H Hacc Hc Hresp Hid Hm Hnone. unfold stun_agent_validate in *.
  fold (fresh_msg agent msg buffer) in *. fold (fresh_msg agent2 msg2 buffer).
  assert (Hv : same_view (fresh_msg agent2 msg2 buffer) (fresh_msg agent msg buffer))
    by (split; cbn; congruence).
  rewrite !(usage_conf _ _ _ Hc), (compat_conf _ _ Hc), (fingerprint_conf _ _ _ Hc),
    (view_has_cookie _ _ Hv), (view_fingerprint _ _ _ Hv), !(view_class_is _ _ _ Hv),
    (view_id _ _ Hv), (view_method _ _ Hv).
  inv_bind. rewrite Hm0, bind_Done.
  break_in H; [discriminate Hacc |]. break_in H; [discriminate Hacc |]. break_in H; [discriminate Hacc |].
  rewrite Hm1, bind_Done. break_in H; [discriminate Hacc |].
  rewrite Hm2, bind_Done. break_in H; [discriminate Hacc |].
  rewrite Hresp, Hid, bind_Done, bind_Done, Hm, bind_Done, Hnone. done.
Qed.

(** C32: a response is accepted at most once.  After a run that accepts a
    response (SUCCESS or an UNKNOWN_ATTRIBUTE status), the same datagram is
    rejected as UNMATCHED_RESPONSE by the agent the run leaves, whatever
    message structure and validater it is given, and the table is unchanged. *)
Theorem response_accepted_once (agent agent' : StunAgent) (msg msg' msg2 : StunMessage)
    (buffer : bytes) (validater validater2 : option StunMessageIntegrityValidate)
    (st : StunValidationStatus)
    (Hd : sent_distinct (sent_ids agent))
    (Hrun : stun_agent_validate agent msg buffer validater = Done (st, agent', msg'))
    (Hacc : accepted st = true)
    (Hresp : (class_is (fresh_msg agent msg buffer) STUN_RESPONSE |||
              class_is (fresh_msg agent msg buffer) STUN_ERROR) = Done true) :
  stun_agent_validate agent' msg2 buffer validater2
    = Done (STUN_VALIDATION_UNMATCHED_RESPONSE, agent', fresh_msg agent' msg2 buffer).
Proof.
  destruct (accepted_response_closes _ _ _ _ _ _ _ Hrun Hacc Hresp Hd)
    as (Hc & id & method & Hid & Hm & Hnone).
  by eapply validate_unmatched.
Qed.

(** ** Finishing a message opens a transaction *)

Section finish.
Context (PACKAGE_STRING : bytes).

(** Requests are remembered, except SEND in the OC2007 dialect. *)
Definition remembers (agent : StunAgent) (msg : StunMessage) : outcome bool :=
  c ← stun_message_get_class msg;
  m ← stun_message_get_method msg;
  mret (bool_decide (c = STUN_REQUEST) &&
        negb (bool_decide (agent_compat agent = STUN_COMPATIBILITY_OC2007) && (m =? STUN_SEND))).

(** What a run of [stun_agent_finish_message] does to the agent. *)
Lemma finish_inv agent msg key n agent' msg' :
  stun_agent_finish_message agent msg key = Done (n, agent', msg') →
  (agent' = agent ∧ (n = 0 ∨ remembers agent msg = Done false)) ∨
  ∃ i old e, list_find (λ s, si_valid s = false) (sent_ids agent) = Some (i, old) ∧
    agent' = agent <| sent_ids := <[i := e]> (sent_ids agent) |> ∧
    si_valid e = true ∧ stun_message_id msg' = Done (si_id e) ∧
    stun_message_get_method msg' = Done (si_method e) ∧ si_key e = msg_key msg' ∧
    remembers agent msg = Done true ∧ stun_message_length msg' = Done n.
Proof.
  unfold stun_agent_finish_message, remembers. intros H. inv_bind. rewrite ?Hm, ?bind_Done, ?Hm0, ?bind_Done.
  break_in H; [| left; split; [done | by left]].
  do 2 break_in H; [left; split; [done | by left] |]. do 2 break_in H; [left; split; [done | by left] |].
  match goal with H : (if ?b then _ else _) = Some _ |- _ => destruct b eqn:Hrem end.
  - right. break_in Heqo; [| discriminate Heqo]. destruct p as [i old]. injection Heqo as <-.
    eexists i, old, _. split_and!; try done.
  - left. split; [done | by right].
Qed.

(** A full table drops the request: when the 200 entries are in use, a
    request that would have to be remembered is not finished; the result is 0
    and neither the agent nor the message changes. *)
Theorem finish_table_full (agent : StunAgent) (msg : StunMessage) (key : option bytes)
    (Hrem : remembers agent msg = Done true)
    (Hfull : Forall (λ s, si_valid s = true) (sent_ids agent)) :
  stun_agent_finish_message agent msg key = Done (0, agent, msg).
Proof.
  unfold remembers, stun_agent_finish_message in *. inv_bind.
  rewrite Hm, bind_Done, Hm0, bind_Done, Hrem.
  assert (list_find (λ s, si_valid s = false) (sent_ids agent) = None) as ->; [| done].
  apply list_find_None. eapply List.Forall_impl; [| exact Hfull]. by intros s ->.
Qed.

(** ** The life of an agent *)

(** What a transaction is: the identifier and the method of the request, and
    the key its response is checked with. *)
Abbreviation transaction := (bytes * Z * option bytes)%type (only parsing).

Definition tx_of (s : StunAgentSavedIds) : transaction := (si_id s, si_method s, si_key s).

(** The open transactions of a table. *)
Definition open_txs (l : list StunAgentSavedIds) : list transaction :=
  tx_of <$> filter (λ s, si_valid s = true) l.

(** What a call does as far as transactions are concerned. *)
Inductive tx_call :=
| TxOpened (id : bytes) (method : Z) (key : option bytes)
| TxAnswered (id : bytes) (method : Z)
| TxForgotten (id : bytes)
| TxUnknown (id : bytes)
| TxOther.

(** The specification: a bag of at most 200 open transactions. *)
Inductive tx_step : list transaction → tx_call → list transaction → Prop :=
| tx_opened l id method key :
    (length l < STUN_AGENT_MAX_SAVED_IDS)%nat →
    tx_step l (TxOpened id method key) ((id, method, key) :: l)
| tx_answered l id method key l' :
    l ≡ₚ (id, method, key) :: l' → tx_step l (TxAnswered id method) l'
| tx_forgotten l id method key l' :
    l ≡ₚ (id, method, key) :: l' → tx_step l (TxForgotten id) l'
| tx_unknown l id :
    Forall (λ t : transaction, t.1.1 ≠ id) l → tx_step l (TxUnknown id) l
| tx_other l : tx_step l TxOther l.

Inductive tx_run (l : list transaction) : list tx_call → list transaction → Prop :=
| tx_run_nil : tx_run l [] l
| tx_run_snoc calls l1 c l2 : tx_run l calls l1 → tx_step l1 c l2 → tx_run l (calls ++ [c]) l2.

(** An accepted response answers the transaction of its identifier and method. *)
Definition validate_call (st : StunValidationStatus) (m : StunMessage) : tx_call :=
  match accepted st, class_is m STUN_RESPONSE ||| class_is m STUN_ERROR, stun_message_id m,
        stun_message_get_method m with
  | true, Done true, Done id, Done method => TxAnswered id method
  | _, _, _, _ => TxOther
  end.

(** A request that was finished, [n] being its length, opens a transaction. *)
Definition finish_call (agent : StunAgent) (msg : StunMessage) (n : Z) (msg' : StunMessage) : tx_call :=
  if n =? 0 then TxOther
  else match remembers agent msg, stun_message_id msg', stun_message_get_method msg' with
       | Done true, Done id, Done method => TxOpened id method (msg_key msg')
       | _, _, _ => TxOther
       end.

(** One call of the owner.  A message of 2^16 octets, whose length reads as 0,
    is left out. *)
Inductive agent_step : StunAgent → tx_call → StunAgent → Prop :=
| step_validate agent msg buffer validater st agent' msg' :
    stun_agent_validate agent msg buffer validater = Done (st, agent', msg') →
    agent_step agent (validate_call st (fresh_msg agent msg buffer)) agent'
| step_finish agent msg key n agent' msg' :
    stun_agent_finish_message agent msg key = Done (n, agent', msg') →
    stun_message_length msg' ≠ Done 0 →
    agent_step agent (finish_call agent msg n msg') agent'
| step_forget agent id agent' (r : bool) :
    stun_agent_forget_transaction agent id = (agent', r) →
    agent_step agent (if r then TxForgotten id else TxUnknown id) agent'
| step_software agent software :
    agent_step agent TxOther (stun_agent_set_software agent software).

Inductive agent_run (a : StunAgent) : list tx_call → StunAgent → Prop :=
| agent_run_nil : agent_run a [] a
| agent_run_snoc calls b c b' : agent_run a calls b → agent_step b c b' → agent_run a (calls ++ [c]) b'.

(** The table implements the bag. *)
Record agent_rel (conf : StunAgentConf) (l : list transaction) (agent : StunAgent) : Prop := {
  ar_len : length (sent_ids agent) = STUN_AGENT_MAX_SAVED_IDS;
  ar_conf : agent_conf agent = conf;
  ar_open : l ≡ₚ open_txs (sent_ids agent)
}.

Lemma open_txs_insert i s e l :
  l !! i = Some s →
  open_txs (<[i := e]> l) ++ (if si_valid s then [tx_of s] else []) ≡ₚ
    (if si_valid e then [tx_of e] else []) ++ open_txs l.
Proof.
  intros Hi. pose proof (lookup_lt_Some _ _ _ Hi). rewrite insert_take_drop by done.
  rewrite <- (take_drop_middle l i s) at 3 by done. unfold open_txs.
  rewrite !filter_app, !filter_cons, !fmap_app.
  destruct (si_valid s), (si_valid e); cbn; rewrite ?app_nil_r; solve_Permutation.
Qed.

Lemma clear_insert i l s : l !! i = Some s → clear i l = <[i := s <| si_valid := false |>]> l.
Proof.
  intros Hi. apply list_eq. intros j. rewrite clear_lookup. destruct (decide (i = j)) as [<- |].
  - rewrite Hi, list_lookup_insert_eq; [done |]. by eapply lookup_lt_Some.
  - by rewrite list_lookup_insert_ne.
Qed.

Lemma open_txs_clear i s l :
  l !! i = Some s → si_valid s = true → open_txs l ≡ₚ tx_of s :: open_txs (clear i l).
Proof.
  intros Hi Hv. rewrite (clear_insert _ _ _ Hi).
  pose proof (open_txs_insert i s (s <| si_valid := false |>) l Hi) as E. rewrite Hv in E. cbn in E.
  rewrite <- E. by rewrite Permutation_app_comm.
Qed.

Lemma open_txs_length l : (length (open_txs l) ≤ length l)%nat.
Proof. unfold open_txs. rewrite length_fmap. apply length_filter. Qed.

(** Closing the entry [i]: the bag loses its transaction. *)
Lemma rel_clear conf l agent agent' i s :
  agent_rel conf l agent → agent_conf agent' = agent_conf agent →
  sent_ids agent !! i = Some s → si_valid s = true → sent_ids agent' = clear i (sent_ids agent) →
  l ≡ₚ tx_of s :: open_txs (sent_ids agent') ∧
  agent_rel conf (open_txs (sent_ids agent')) agent'.
Proof.
  intros [Hl Hc Ho] Ec Hi Hv E. split; [by rewrite Ho, (open_txs_clear i s), E |].
  split; [| congruence | done]. rewrite E. unfold clear. by rewrite length_alter.
Qed.

Lemma step_refines conf l agent c agent' :
  agent_rel conf l agent → agent_step agent c agent' →
  ∃ l', tx_step l c l' ∧ agent_rel conf l' agent'.
Proof.
  intros Hrel Hs. pose proof Hrel as [Hl Hc Ho].
  assert (Hother : ∃ l', tx_step l TxOther l' ∧ agent_rel conf l' agent) by (exists l; split; [constructor | done]).
  destruct Hs as [a m b v st a' m' H | a m k n a' m' H Hn | a id a' r H | a sw].
  - unfold validate_call. apply validate_inv in H as [[-> ->] | (-> & Ec & H)]; [done |].
    destruct H as [[-> E] | (-> & id & me & i & s & -> & -> & (Hi & (Hv & Hm & Hid) & _)%list_find_Some & E)].
    + exists l. split; [constructor |]. split; rewrite ?E; [done | congruence | done].
    + destruct (rel_clear conf l a a' i s) as [Hp Hr]; [done.. |]. eexists. split; [| exact Hr].
      econstructor. rewrite Hp. unfold tx_of. by rewrite Hm, <- Hid.
  - unfold finish_call.
    apply finish_inv in H as [[-> [-> | ->]] | (i & old & e & Hf & -> & Hv & Hid & Hm & Hk & Hrem & Hlen)].
    + done.
    + by destruct (n =? 0).
    + destruct (Z.eqb_spec n 0) as [-> | _]; [done |]. rewrite Hrem, Hid, Hm.
      apply list_find_Some in Hf as (Hi & Hold & _).
      pose proof (open_txs_insert i old e _ Hi) as E. rewrite Hv, Hold in E.
      rewrite app_nil_r in E. cbn [app] in E. exists (tx_of e :: l). split.
      * unfold tx_of. rewrite Hk. constructor. rewrite Ho.
        pose proof (open_txs_length (<[i := e]> (sent_ids a))) as Hle. rewrite E, length_insert in Hle.
        cbn [length] in Hle. lia.
      * split; cbn; [by rewrite length_insert | done | by rewrite E, Ho].
  - unfold stun_agent_forget_transaction in H. destruct (list_find _ _) as [[i s] |] eqn:Hf.
    + injection H as <- <-. apply list_find_Some in Hf as (Hi & [Hv ->] & _).
      set (a' := _ <| sent_ids := _ |>).
      destruct (rel_clear conf l a a' i s) as [Hp Hr]; [done.. |].
      eexists. split; [by econstructor | exact Hr].
    + injection H as <- <-. exists l. split; [constructor | done]. apply list_find_None in Hf.
      rewrite Ho. unfold open_txs. apply Forall_fmap, Forall_forall.
      intros s [Hv Hin]%list_elem_of_filter. rewrite Forall_forall in Hf. cbn. intros <-.
      by apply (Hf s Hin).
  - exists l. split; [constructor |]. by split.
Qed.

Lemma run_refines (agent0 agent : StunAgent) known compat flags calls :
  length (sent_ids agent0) = STUN_AGENT_MAX_SAVED_IDS →
  agent_run (stun_agent_init agent0 known compat flags) calls agent →
  ∃ l, tx_run [] calls l ∧ agent_rel {| compatibility := compat; usage_flags := flags |} l agent.
Proof.
  intros Hlen Hrun. induction Hrun as [| calls b c b' _ (l & Hl & Hr) Hs].
  - exists []. split; [constructor |]. split; cbn; [by rewrite length_fmap | done |].
    unfold open_txs. clear Hlen. induction (sent_ids agent0) as [| s t IH]; [done |].
    by rewrite fmap_cons, filter_cons.
  - destruct (step_refines _ _ _ _ _ Hr Hs) as (l' & Hl' & Hr'). exists l'. by split; [econstructor |].
Qed.

(** C39: the table of saved transactions implements a bag of at most 200 open
    transactions.  From [stun_agent_init] on, over every sequence of
    validations, finished messages, forgotten transactions and changes of the
    software: finishing a request adds its identifier, method and key, and
    only when there is room; accepting a response removes a transaction with
    its identifier and method; [stun_agent_forget_transaction] removes one
    with the identifier, and returns false only when there is none; nothing
    else changes what is open.  The table keeps its 200 entries and the agent
    its configuration. *)
Theorem transactions_refine_bag (agent0 agent : StunAgent) (known : list Z)
    (compat : StunCompatibility) (flags : Z) (calls : list tx_call)
    (Hlen : length (sent_ids agent0) = STUN_AGENT_MAX_SAVED_IDS)
    (Hrun : agent_run (stun_agent_init agent0 known compat flags) calls agent) :
  ∃ l, tx_run [] calls l ∧ l ≡ₚ open_txs (sent_ids agent) ∧
    length (sent_ids agent) = STUN_AGENT_MAX_SAVED_IDS ∧
    agent_conf agent = {| compatibility := compat; usage_flags := flags |}.
Proof. destruct (run_refines _ _ _ _ _ _ Hlen Hrun) as (l & Hl & [? ? ?]). by exists l. Qed.

(** In the specification, what is open was opened by some call. *)
Lemma tx_run_opened calls l :
  tx_run [] calls l →
  l.*1.*1 ⊆+ omap (λ c, match c with TxOpened id _ _ => Some id | _ => None end) calls.
Proof.
  induction 1 as [| calls l1 c l2 _ IH Hs]; [done |]. rewrite omap_app.
  destruct Hs as [l id m k | l id m k l' E | l id m k l' E | l id | l]; cbn; rewrite ?app_nil_r; try done.
  - rewrite (Permutation_app_comm _ [id]). cbn. by apply submseteq_skip.
  - etrans; [| exact IH]. rewrite E. cbn. by apply submseteq_cons.
  - etrans; [| exact IH]. rewrite E. cbn. by apply submseteq_cons.
Qed.

Lemma open_txs_distinct l : NoDup (open_txs l).*1.*1 → sent_distinct l.
Proof.
  assert (Hin : ∀ (l : list StunAgentSavedIds) i s,
    l !! i = Some s → si_valid s = true → si_id s ∈ (open_txs l).*1.*1).
  { intros l0 i s Hi Hv. apply list_elem_of_fmap. exists (si_id s, si_method s). split; [done |].
    apply list_elem_of_fmap. exists (tx_of s). split; [done |]. apply list_elem_of_fmap. exists s.
    split; [done |]. apply list_elem_of_filter. split; [done |]. by eapply list_elem_of_lookup_2. }
  induction l as [| x l IH]; [done |]. unfold open_txs. rewrite filter_cons. intros Hnd.
  assert (Hd : sent_distinct l) by (apply IH; by case_decide; [apply NoDup_cons in Hnd as [_ ?] |]).
  assert (Hx : si_valid x = true → si_id x ∉ (open_txs l).*1.*1).
  { intros Hv. rewrite decide_True in Hnd by done. by apply NoDup_cons in Hnd as [? _]. }
  intros [| i] [| j] s t Hi Hj Hs Ht E; cbn in Hi, Hj; simplify_eq; [done | | |].
  - exfalso. apply (Hx Hs). rewrite E. by eapply Hin.
  - exfalso. apply (Hx Ht). rewrite <- E. by eapply Hin.
  - f_equal. by eapply (Hd i j s t).
Qed.

(** When no identifier is drawn twice, the open transactions have different
    identifiers; this is what [response_accepted_once] asks for. *)
Lemma drawn_ids_distinct agent0 agent known compat flags calls :
  length (sent_ids agent0) = STUN_AGENT_MAX_SAVED_IDS →
  agent_run (stun_agent_init agent0 known compat flags) calls agent →
  NoDup (omap (λ c, match c with TxOpened id _ _ => Some id | _ => None end) calls) →
  sent_distinct (sent_ids agent).
Proof.
  intros Hlen Hrun Hnd. destruct (run_refines _ _ _ _ _ _ Hlen Hrun) as (l & Hl & [_ _ Ho]).
  apply tx_run_opened, submseteq_Permutation in Hl as [k E]. rewrite Ho in E.
  apply open_txs_distinct. rewrite E in Hnd. by apply NoDup_app in Hnd as [? _].
Qed.

End finish.
End trans.


(** ** Witnesses *)

Definition no_entry : StunAgentSavedIds :=
  {| si_id := repeat 0 16; si_method := 0; si_key := None; si_long_term_key := repeat 0 16;
     si_long_term_valid := false; si_valid := false |}.

Definition demo_tid : bytes := be 4 STUN_MAGIC_COOKIE ++ repeat 9 12.

Definition demo_agent : StunAgent :=
  {| agent_conf := {| compatibility := STUN_COMPATIBILITY_RFC5389; usage_flags := 0 |};
     sent_ids := {| si_id := demo_tid; si_method := STUN_BINDING; si_key := None;
                    si_long_term_key := repeat 0 16; si_long_term_valid := false;
                    si_valid := true |} :: repeat no_entry 199;
     known_attributes := [STUN_ATTRIBUTE_USERNAME; 0];
     software_attribute := None;
     ms_ice2_send_legacy_connchecks := false |}.

(** An empty binding response to [demo_tid]. *)
Definition demo_response : bytes := [1; 1; 0; 0] ++ demo_tid.

Definition demo_empty : StunMessage := Build_StunMessage None [] None (repeat 0 16) false.

Lemma demo_agent_distinct : sent_distinct (sent_ids demo_agent).
Proof.
  assert (∀ i s, sent_ids demo_agent !! i = Some s → si_valid s = true → i = 0%nat) as H.
  { intros [| i] s; [done |]. cbn -[repeat]. intros Hs Hv. exfalso.
    apply list_elem_of_lookup_2, list_elem_of_In, repeat_spec in Hs. by subst. }
  intros i j s t Hs Ht Hvs Hvt _. by rewrite (H i s), (H j t).
Qed.

Lemma response_accepted_once_witness :
  ∃ agent' msg',
    @stun_agent_validate toy_crypto demo_agent demo_empty demo_response None
      = Done (STUN_VALIDATION_SUCCESS, agent', msg') ∧
    @stun_agent_validate toy_crypto agent' demo_empty demo_response None
      = Done (STUN_VALIDATION_UNMATCHED_RESPONSE, agent', fresh_msg agent' demo_empty demo_response).
Proof.
  eexists _, _. split; [vm_compute; reflexivity |].
  eapply (@response_accepted_once toy_crypto demo_agent _ demo_empty _ demo_empty demo_response None None
    STUN_VALIDATION_SUCCESS demo_agent_distinct);
    [vm_compute; reflexivity | reflexivity | vm_compute; reflexivity].
Defined.

Definition demo_binding : StunMessage :=
  Build_StunMessage (Some (agent_conf demo_agent)) ([0; 1; 0; 0] ++ demo_tid ++ repeat 0 40) None
    (repeat 0 16) false.

Lemma finish_table_full_witness :
  let agent := demo_agent <| sent_ids := repeat (no_entry <| si_valid := true |>) 200 |> in
  @stun_agent_finish_message toy_crypto agent demo_binding None = Done (0, agent, demo_binding).
Proof.
  intros agent. apply (@finish_table_full toy_crypto agent demo_binding None);
    [vm_compute; reflexivity | by_compute].
Defined.

(** From an initialised agent: a binding request is sent, its response
    accepted, and the transaction is unknown afterwards. *)
Definition demo_calls : list tx_call :=
  [TxOpened demo_tid STUN_BINDING None; TxAnswered demo_tid STUN_BINDING; TxUnknown demo_tid].

Lemma transactions_refine_bag_witness :
  ∃ agent l,
    @agent_run toy_crypto (stun_agent_init demo_agent [0] STUN_COMPATIBILITY_RFC5389 0) demo_calls agent ∧
    tx_run [] demo_calls l ∧ l ≡ₚ open_txs (sent_ids agent) ∧
    length (sent_ids agent) = STUN_AGENT_MAX_SAVED_IDS ∧
    agent_conf agent = {| compatibility := STUN_COMPATIBILITY_RFC5389; usage_flags := 0 |}.
Proof.
  assert (Hsnoc : ∀ a calls b c c' b', @agent_run toy_crypto a calls b → @agent_step toy_crypto b c' b' →
    c' = c → @agent_run toy_crypto a (calls ++ [c]) b') by (intros; subst; by econstructor).
  pose (a0 := stun_agent_init demo_agent [0] STUN_COMPATIBILITY_RFC5389 0).
  pose (sent := @stun_agent_finish_message toy_crypto a0 demo_binding None).
  pose (a1 := match sent with Done (_, a, _) => a | _ => a0 end).
  pose (m1 := match sent with Done (_, _, m) => m | _ => demo_binding end).
  pose (got := @stun_agent_validate toy_crypto a1 demo_empty demo_response None).
  pose (a2 := match got with Done (_, a, _) => a | _ => a1 end).
  assert (Hr : @agent_run toy_crypto a0 demo_calls a2).
  { apply (Hsnoc a0 (take 2 demo_calls) a2 _ (TxUnknown demo_tid)); [| | reflexivity].
    - eapply (Hsnoc a0 (take 1 demo_calls) a1).
      + eapply (Hsnoc a0 []); [constructor | |].
        * apply (@step_finish toy_crypto a0 demo_binding None 20 a1 m1);
            vm_compute; [reflexivity | discriminate].
        * vm_compute. reflexivity.
      + apply (@step_validate toy_crypto a1 demo_empty demo_response None STUN_VALIDATION_SUCCESS a2
          (fresh_msg a1 demo_empty demo_response)). vm_compute. reflexivity.
      + vm_compute. reflexivity.
    - apply (@step_forget toy_crypto a2 demo_tid a2 false). vm_compute. reflexivity. }
  clearbody a2.
  destruct (@transactions_refine_bag toy_crypto demo_agent a2 [0] STUN_COMPATIBILITY_RFC5389 0 demo_calls
    ltac:(reflexivity) Hr) as (l & Hl). by exists a2, l.
Defined.
