(* ===== verification/StunAuth.v ===== *)
(** * Message integrity end to end

    What [stun_agent_finish_message] signs is what [stun_agent_validate]
    checks: a finished message is accepted by a peer that knows the key, and an
    accepted message carries the digest of its octets under the key the
    validater gave. *)

From S2P Require Import Prelude Bytes StunCrc32 StunMessage StunFacts.
From S2P Require Import StunValidate StunBuild StunHmac StunAgent StunAgentTrans.

(** ** Unknown attributes *)

(** The mandatory types of [l] the agent does not know. *)
Definition unknown_type (ks : list Z) (t : Z) : bool :=
  negb (stun_optional t) && bool_decide (t ∉ ks).
Definition unknown_types (ks : list Z) (l : list attr) : list Z :=
  List.filter (unknown_type ks) (map at_type l).

Lemma is_unknown_spec ks t :
  Forall (λ k, k ≠ 0) ks → stun_agent_is_unknown (ks ++ [0]) t = Done (bool_decide (t ∉ ks)).
Proof.
  induction 1 as [| k ks Hk _ IH]; [done |]. cbn [stun_agent_is_unknown app].
  destruct (Z.eqb_spec k 0); [done |]. rewrite IH.
  destruct (Z.eqb_spec k t) as [-> |].
  - rewrite bool_decide_false; [done |]. intros Hn. apply Hn. left.
  - unfold mret, outcome_ret. f_equal. apply bool_decide_ext.
    rewrite not_elem_of_cons. intuition congruence.
Qed.

Lemma unknowns_loop_spec agent aligned l (p rest : bytes) ks max lst fuel :
  aligned = negb (usage agent STUN_AGENT_USAGE_NO_ALIGNED_ATTRIBUTES) →
  known_attributes agent = ks ++ [0] → Forall (λ k, k ≠ 0) ks →
  Forall (attr_ok aligned) l → (Z.to_nat (zlen (attrs_enc l)) ≤ fuel)%nat →
  unknowns_loop fuel agent (p ++ attrs_enc l ++ rest) (zlen p + zlen (attrs_enc l)) max (zlen p) lst
    = Done (lst ++ take (Z.to_nat (max - zlen lst)) (map htons (unknown_types ks l))).
Proof.
  intros Hal Hk Hks Hl. revert p lst fuel. induction Hl as [| a l Ha Hl IH]; intros p lst fuel Hf.
  - change (zlen (attrs_enc [])) with 0. rewrite Z.add_0_r.
    change (map htons (unknown_types ks [])) with (@nil Z). rewrite take_nil, app_nil_r.
    destruct fuel; cbn [unknowns_loop];
      (destruct (Z.ltb_spec (zlen p) (zlen p)); [lia | done]).
  - rewrite attrs_enc_cons, zlen_app in Hf |- *. pose proof (attr_enc_len_pos a).
    pose proof (zlen_nonneg (attrs_enc l)).
    destruct fuel as [| fuel]; [lia |]. cbn [unknowns_loop].
    destruct (Z.ltb_spec (zlen p) (zlen p + (zlen (attr_enc a) + zlen (attrs_enc l)))); [| lia].
    destruct (Z.ltb_spec (zlen lst) max); cbn [andb].
    2: { replace (Z.to_nat (max - zlen lst)) with 0%nat by lia. by rewrite app_nil_r. }
    rewrite <- (app_assoc (attr_enc a)).
    destruct (attr_header aligned p a (attrs_enc l ++ rest) (zlen p) Ha eq_refl) as [E1 E2].
    unfold STUN_ATTRIBUTE_TYPE_LEN, STUN_ATTRIBUTE_VALUE_POS.
    rewrite E2, bind_Done, E1, bind_Done.
    assert ((mret (negb (stun_optional (at_type a))) &&& stun_agent_is_unknown (known_attributes agent) (at_type a))
      = Done (unknown_type ks (at_type a))) as ->.
    { unfold and_then, mret, outcome_ret, unknown_type. rewrite bind_Done, Hk, is_unknown_spec by done.
      by destruct (negb (stun_optional _)). }
    rewrite bind_Done, <- Hal.
    specialize (IH (p ++ attr_enc a)). rewrite zlen_app in IH.
    pose proof (zlen_attr_enc aligned a Ha) as Hz.
    rewrite (attr_room_step aligned) in Hz by apply Ha.
    replace (zlen p + (4 + (if aligned then stun_align (zlen (at_val a)) else zlen (at_val a))))
      with (zlen p + zlen (attr_enc a)) by (rewrite Hz; unfold step_len; destruct aligned; lia).
    rewrite Z.add_assoc. rewrite <- !app_assoc in IH. rewrite IH by lia. f_equal.
    unfold unknown_types. cbn [map List.filter].
    destruct (unknown_type ks (at_type a)); [| done]. rewrite <- app_assoc. f_equal. cbn [map].
    replace (Z.to_nat (max - zlen lst)) with (S (Z.to_nat (max - zlen (lst ++ [htons (at_type a)]))))
      by slia. done.
Qed.

Lemma find_unknowns_list agent msg ty id l rest ks max :
  msg_repr msg ty id l rest → msg_agent msg = Some (agent_conf agent) →
  known_attributes agent = ks ++ [0] → Forall (λ k, k ≠ 0) ks →
  stun_agent_find_unknowns agent msg max
    = Done (take (Z.to_nat max) (map htons (unknown_types ks l))).
Proof.
  intros Hr Hagent Hk Hks.
  unfold stun_agent_find_unknowns. rewrite (stun_message_length_spec _ _ _ _ _ Hr), bind_Done.
  destruct Hr as [[-> Hty Hid Hok Hl _] Hf].
  change STUN_MESSAGE_ATTRIBUTES_POS with 20.
  pose proof (zlen_hdr_enc ty id (zlen (attrs_enc l)) Hty Hid) as Hh. rewrite <- Hh.
  rewrite (unknowns_loop_spec agent (negb (no_aligned msg)) _ _ _ ks); [| | done.. | slia].
  - change (zlen (@nil Z)) with 0. by rewrite Z.sub_0_r.
  - unfold no_aligned. by rewrite Hagent.
Qed.

(** [stun_agent_find_unknowns] on a well formed message lists, in order and
    up to [max] of them, exactly the mandatory types (below 0x8000) that are
    not in the agent's table of known attributes. *)
Theorem find_unknowns_spec (agent : StunAgent) (msg : StunMessage) (ty id : bytes)
    (l : list attr) (rest : bytes) (ks : list Z) (max : Z)
    (Hr : msg_repr msg ty id l rest) (Hagent : msg_agent msg = Some (agent_conf agent))
    (Hk : known_attributes agent = ks ++ [0]) (Hks : Forall (λ k, k ≠ 0) ks) :
  stun_agent_find_unknowns agent msg max
    = Done (take (Z.to_nat max) (map htons (unknown_types ks l))).
Proof. by apply (find_unknowns_list agent msg ty id l rest). Qed.

(** ** The octets signed and fingerprinted *)

Lemma htonl_u32 v : htonl (u32 v) = htonl v.
Proof. unfold htonl. by rewrite be4_u32. Qed.

Section signed.
Context {crypto : Crypto}.

Definition zero_pad (n : Z) : bytes :=
  if 0 <? n mod 64 then replicate (Z.to_nat (64 - n mod 64)) 0 else [].

(** The digest over type, length field [ml], identifier and the attributes [l]
    in front of MESSAGE-INTEGRITY. *)
Definition mac (ty id : bytes) (l : list attr) (ml : Z) (key : bytes) (padding : bool) : bytes :=
  hmac_sha1 key (ty ++ be 2 ml ++ id ++ attrs_enc l
                 ++ if padding then zero_pad (20 + zlen (attrs_enc l)) else []).

Lemma stun_sha1_layout ty id n l x ml key padding :
  zlen ty = 2 → zlen id = 16 →
  stun_sha1 (hdr_enc ty id n ++ attrs_enc l ++ x) (44 + zlen (attrs_enc l)) ml key padding
    = Done (mac ty id l ml key padding).
Proof.
  intros Hty Hid. pose proof (zlen_nonneg (attrs_enc l)). unfold stun_sha1.
  unfold assert_. destruct (Z.leb_spec 44 (44 + zlen (attrs_enc l))); [| lia]. rewrite bind_Done.
  unfold hdr_enc. rewrite <- !app_assoc.
  assert (slice (ty ++ be 2 n ++ id ++ attrs_enc l ++ x) 0 2 = Done ty) as ->
    by (by apply (slice_app [] ty)).
  rewrite bind_Done.
  assert (slice (ty ++ be 2 n ++ id ++ attrs_enc l ++ x) 4 (44 + zlen (attrs_enc l) - 28)
    = Done (id ++ attrs_enc l)) as ->.
  { rewrite (app_assoc ty), (app_assoc id). apply slice_app; slia. }
  rewrite bind_Done, le_htons, be2_u16. unfold mret, outcome_ret, mac, zero_pad.
  replace (44 + zlen (attrs_enc l) - 24) with (20 + zlen (attrs_enc l)) by lia.
  rewrite <- !app_assoc. by destruct padding.
Qed.

(** The FINGERPRINT word over the attributes [l] in front of it. *)
Definition crc_word (typo : bool) (m : bytes) : Z :=
  Z.lxor (fold_left (crc32_byte typo) m 0xffffffff) 0xffffffff.
Definition fpr_word (ty id : bytes) (l : list attr) (typo : bool) : Z :=
  htonl (Z.lxor (crc_word typo (ty ++ be 2 (8 + zlen (attrs_enc l)) ++ id ++ attrs_enc l)) 0x5354554e).

Lemma stun_fingerprint_layout ty id n l x typo :
  zlen ty = 2 → zlen id = 16 → 28 + zlen (attrs_enc l) < 2 ^ 16 →
  stun_fingerprint (hdr_enc ty id n ++ attrs_enc l ++ x) (28 + zlen (attrs_enc l)) typo
    = Done (fpr_word ty id l typo).
Proof.
  intros Hty Hid Hn. pose proof (zlen_nonneg (attrs_enc l)). unfold stun_fingerprint, stun_crc32.
  unfold hdr_enc. rewrite <- !app_assoc. cbn [crc32_loop crc_buf crc_off crc_len].
  assert (slice (ty ++ be 2 n ++ id ++ attrs_enc l ++ x) 0 2 = Done ty) as ->
    by (by apply (slice_app [] ty)).
  rewrite bind_Done, le_htons, be2_u16.
  assert (∀ v, slice (be 2 v) 0 2 = Done (be 2 v)) as ->.
  { intros v. rewrite <- (app_nil_r (be 2 v)) at 1. by apply (slice_app [] (be 2 v) []). }
  rewrite bind_Done.
  assert (slice (ty ++ be 2 n ++ id ++ attrs_enc l ++ x) 4 (u64 (28 + zlen (attrs_enc l) - 12))
    = Done (id ++ attrs_enc l)) as ->.
  { rewrite u64_small by (unfold is_u64; lia).
    rewrite (app_assoc ty), (app_assoc id). apply slice_app; slia. }
  rewrite bind_Done, <- !fold_left_app. unfold fpr_word, crc_word.
  replace (28 + zlen (attrs_enc l) - 20) with (8 + zlen (attrs_enc l)) by lia.
  done.
Qed.

(** ** The attributes [stun_agent_finish_message] adds *)

(** An appended attribute whose length is a multiple of four has no padding. *)
Lemma new_attr_mod4 aligned cookie type data :
  zlen data mod 4 = 0 → new_attr aligned cookie type data = Attr type data [].
Proof.
  intros H. unfold new_attr. rewrite (stun_padding_mod4 _ H).
  destruct aligned; [destruct cookie |]; cbn; by rewrite ?app_nil_r.
Qed.

Lemma attr_room_mod4_eq aligned n : n mod 4 = 0 → attr_room aligned n = 4 + n.
Proof. intros H. unfold attr_room. rewrite (stun_padding_mod4 _ H). destruct aligned; lia. Qed.

(** The value of the length field that is signed. *)
Definition signed_len (agent : StunAgent) (n : Z) : Z :=
  if bool_decide (agent_compat agent = STUN_COMPATIBILITY_MSICE2) &&
     usage agent STUN_AGENT_USAGE_USE_FINGERPRINT then n + 32 else n + 24.

Definition mi_attr (agent : StunAgent) (ty id : bytes) (l : list attr) (key : bytes) : attr :=
  Attr STUN_ATTRIBUTE_MESSAGE_INTEGRITY
    (mac ty id l (signed_len agent (zlen (attrs_enc l))) key
      (compat_old (agent_compat agent) || bool_decide (agent_compat agent = STUN_COMPATIBILITY_MSICE2)))
    [].

Definition fpr_attr (ty id : bytes) (l : list attr) : attr :=
  Attr STUN_ATTRIBUTE_FINGERPRINT (le 4 (fpr_word ty id l false)) [].

Lemma finish_sha_spec agent msg ty id l v rest key :
  msg_repr msg ty id (l ++ [Attr STUN_ATTRIBUTE_MESSAGE_INTEGRITY v []]) rest → zlen v = 20 →
  finish_sha agent msg key = Done (at_val (mi_attr agent ty id l key)).
Proof.
  intros Hr Hv. unfold finish_sha. rewrite (stun_message_length_spec _ _ _ _ _ Hr), bind_Done.
  destruct Hr as [[-> Hty Hid _ _ _] Hf].
  rewrite attrs_enc_snoc, zlen_app in *. pose proof (zlen_nonneg (attrs_enc l)).
  set (m := Attr _ _ _) in *. assert (zlen (attr_enc m) = 24) as Hm by (unfold attr_enc, m; cbn; slia).
  rewrite Hm in *. rewrite <- !app_assoc.
  replace (20 + (zlen (attrs_enc l) + 24)) with (44 + zlen (attrs_enc l)) by lia.
  unfold mi_attr, signed_len, compat_old. cbn [at_val].
  destruct (agent_compat agent), (usage agent STUN_AGENT_USAGE_USE_FINGERPRINT);
    repeat (case_bool_decide; try done); cbn [orb andb];
    rewrite u64_small, stun_sha1_layout by (done || unfold is_u64; lia);
    do 2 f_equal; lia.
Qed.

(** With the key at hand, [finish_integrity] appends MESSAGE-INTEGRITY. *)
Lemma finish_integrity_spec agent msg ty id l rest key :
  msg_repr msg ty id l rest → usage agent STUN_AGENT_USAGE_LONG_TERM_CREDENTIALS = false →
  24 ≤ zlen rest → 44 + zlen (attrs_enc l) < 2 ^ 16 →
  ∃ b rest', finish_integrity agent msg (Some key) = Done (msg <| msg_buffer := b |>, true) ∧
    zlen rest = 24 + zlen rest' ∧
    msg_repr (msg <| msg_buffer := b |>) ty id (l ++ [mi_attr agent ty id l key]) rest'.
Proof.
  intros Hr Hlt Hroom Hfit. unfold finish_integrity, finish_key. rewrite Hlt.
  assert (E : (if msg_long_term_valid msg then mret (msg, Some (msg_long_term_key msg))
    else mret (msg, Some key)) = @Done (StunMessage * option bytes)
      (msg, Some (if msg_long_term_valid msg then msg_long_term_key msg else key)))
    by (by destruct (msg_long_term_valid msg)).
  rewrite E, !bind_Done. clear E.
  assert (Hty : oc2007_type msg STUN_ATTRIBUTE_MESSAGE_INTEGRITY = STUN_ATTRIBUTE_MESSAGE_INTEGRITY)
    by (unfold oc2007_type; by destruct (is_oc2007 msg)).
  destruct (append_fill msg ty id l STUN_ATTRIBUTE_MESSAGE_INTEGRITY 20 rest)
    as (old & rest' & Hold & Hoko & Hz & -> & Hfill); try done.
  { by rewrite Hty. }
  { rewrite attr_room_mod4_eq by done. lia. }
  { rewrite attr_room_mod4_eq by done. lia. }
  rewrite bind_Done. rewrite attr_room_mod4_eq in Hz by done.
  destruct (Hfill old Hold Hoko) as [_ Hr0]. rewrite Hty, new_attr_mod4 in Hr0 by (by rewrite Hold).
  rewrite (finish_sha_spec _ _ _ _ _ _ _ _ Hr0 Hold), bind_Done.
  assert (zlen (at_val (mi_attr agent ty id l key)) = 20) as Hs by apply hmac_sha1_len.
  destruct (Hfill (at_val (mi_attr agent ty id l key))) as [Hst Hr1];
    [done | apply hmac_sha1_ok |].
  cbn [msg_buffer set_field set_msg_buffer]. rewrite Hst, bind_Done.
  eexists _, rest'. split; [done |]. split; [lia |].
  rewrite Hty, new_attr_mod4 in Hr1 by (by rewrite Hs). exact Hr1.
Qed.

Definition uses_fingerprint (agent : StunAgent) : bool :=
  compat_cookie (agent_compat agent) && usage agent STUN_AGENT_USAGE_USE_FINGERPRINT.

Definition fpr_attrs (agent : StunAgent) (ty id : bytes) (l : list attr) : list attr :=
  if uses_fingerprint agent then [fpr_attr ty id l] else [].

Lemma finish_fingerprint_spec agent msg ty id l rest :
  msg_repr msg ty id l rest → 8 ≤ zlen rest → 28 + zlen (attrs_enc l) < 2 ^ 16 →
  ∃ b rest', finish_fingerprint agent msg = Done (msg <| msg_buffer := b |>, true) ∧
    msg_repr (msg <| msg_buffer := b |>) ty id (l ++ fpr_attrs agent ty id l) rest'.
Proof.
  intros Hr Hroom Hfit. unfold finish_fingerprint, fpr_attrs. fold (uses_fingerprint agent).
  destruct (uses_fingerprint agent).
  2: { exists (msg_buffer msg), rest. rewrite app_nil_r. by destruct msg. }
  assert (Hty : oc2007_type msg STUN_ATTRIBUTE_FINGERPRINT = STUN_ATTRIBUTE_FINGERPRINT)
    by (unfold oc2007_type; by destruct (is_oc2007 msg)).
  destruct (append_fill msg ty id l STUN_ATTRIBUTE_FINGERPRINT 4 rest)
    as (old & rest' & Hold & Hoko & Hz & -> & Hfill); try done.
  { by rewrite Hty. }
  { rewrite attr_room_mod4_eq by done. lia. }
  { rewrite attr_room_mod4_eq by done. lia. }
  rewrite bind_Done.
  destruct (Hfill old Hold Hoko) as [_ Hr0]. rewrite Hty, new_attr_mod4 in Hr0 by (by rewrite Hold).
  rewrite (stun_message_length_spec _ _ _ _ _ Hr0), bind_Done.
  assert (zlen (attrs_enc (l ++ [Attr STUN_ATTRIBUTE_FINGERPRINT old []]))
    = 8 + zlen (attrs_enc l)) as ->
    by (rewrite attrs_enc_snoc, zlen_app; unfold attr_enc; cbn [at_type at_val at_pad]; slia).
  assert (stun_fingerprint (msg_buffer (msg <| msg_buffer :=
      appended msg ty id l STUN_ATTRIBUTE_FINGERPRINT 4 old rest' |>)) (28 + zlen (attrs_enc l)) false
    = Done (fpr_word ty id l false)) as Hfp.
  { destruct Hr0 as [[E Hlty Hlid _ _ _] _]. rewrite E, attrs_enc_snoc, <- app_assoc.
    by apply stun_fingerprint_layout. }
  replace (20 + (8 + zlen (attrs_enc l))) with (28 + zlen (attrs_enc l)) by lia.
  rewrite Hfp, bind_Done.
  destruct (Hfill (le 4 (fpr_word ty id l false))) as [Hst Hr1]; [done | apply le_ok |].
  cbn [msg_buffer set_field set_msg_buffer]. rewrite Hst, bind_Done. eexists _, rest'. split; [done |].
  rewrite Hty, new_attr_mod4 in Hr1 by done. exact Hr1.
Qed.

(** ** The receiving side *)

Lemma of_be_le4_htonl x : of_be (le 4 (htonl x)) = u32 x.
Proof. rewrite le_htonl. apply of_be_be. Qed.

Lemma check_fingerprint_spec agent msg ty id l rest :
  msg_repr msg ty id (l ++ [fpr_attr ty id l]) rest →
  Forall (λ a, passes STUN_ATTRIBUTE_FINGERPRINT a = true) l →
  stun_agent_check_fingerprint agent msg = Done true.
Proof.
  intros Hr Hp. unfold stun_agent_check_fingerprint.
  rewrite (stun_message_find32_spec _ _ _ _ _ Hr). unfold value.
  assert (Hty : oc2007_type msg STUN_ATTRIBUTE_FINGERPRINT = STUN_ATTRIBUTE_FINGERPRINT)
    by (unfold oc2007_type; by destruct (is_oc2007 msg)).
  rewrite Hty, attr_find_passes by done. cbn [attr_find at_type at_val fpr_attr].
  change (STUN_ATTRIBUTE_FINGERPRINT =? STUN_ATTRIBUTE_FINGERPRINT) with true. cbv iota.
  change (zlen (le 4 _) =? 4) with true. cbv iota. rewrite bind_Done.
  rewrite (stun_message_length_spec _ _ _ _ _ Hr), bind_Done.
  destruct Hr as [[E Hlty Hlid _ _ _] Hf].
  rewrite attrs_enc_snoc, zlen_app in *.
  assert (zlen (attr_enc (fpr_attr ty id l)) = 8) as Hz by reflexivity. rewrite Hz in *.
  replace (20 + (zlen (attrs_enc l) + 8)) with (28 + zlen (attrs_enc l)) by lia.
  rewrite E, <- app_assoc, (stun_fingerprint_layout ty id _ l _ false), bind_Done by (done || lia).
  unfold fpr_word. rewrite of_be_le4_htonl, htonl_u32, Z.eqb_refl. done.
Qed.

(** The value of an attribute in its place. *)
Lemma slice_value (p : bytes) l a tl (rest : bytes) :
  slice (p ++ attrs_enc (l ++ a :: tl) ++ rest) (zlen p + zlen (attrs_enc l) + 4) (zlen (at_val a))
    = Done (at_val a).
Proof.
  rewrite attrs_enc_app, attrs_enc_cons. unfold attr_enc.
  replace (p ++ (attrs_enc l ++ (be 2 (at_type a) ++ be 2 (zlen (at_val a)) ++ at_val a ++ at_pad a)
    ++ attrs_enc tl) ++ rest) with ((p ++ attrs_enc l ++ be 2 (at_type a) ++ be 2 (zlen (at_val a)))
    ++ at_val a ++ (at_pad a ++ attrs_enc tl ++ rest)) by (by rewrite <- !app_assoc).
  apply slice_app; slia.
Qed.

(** The attributes after MESSAGE-INTEGRITY of a message with fingerprint. *)
Lemma check_integrity_spec agent msg ty id l tl rest key md :
  msg_repr msg ty id (l ++ mi_attr agent ty id l key :: tl) rest →
  usage agent STUN_AGENT_USAGE_LONG_TERM_CREDENTIALS = false →
  Forall (λ a, passes STUN_ATTRIBUTE_MESSAGE_INTEGRITY a = true) l →
  zlen (attrs_enc tl) = (if uses_fingerprint agent then 8 else 0) →
  check_integrity agent msg key md = Done (msg <| msg_key := Some key |>, true).
Proof.
  intros Hr Hlt Hp Htl. unfold check_integrity.
  assert (Hty : oc2007_type msg STUN_ATTRIBUTE_MESSAGE_INTEGRITY = STUN_ATTRIBUTE_MESSAGE_INTEGRITY)
    by (unfold oc2007_type; by destruct (is_oc2007 msg)).
  set (mi := mi_attr agent ty id l key) in *.
  assert (zlen (at_val mi) = 20) as Hv by apply hmac_sha1_len.
  assert (zlen (attr_enc mi) = 24) as Hmi by (unfold attr_enc; rewrite !zlen_app, Hv; done).
  rewrite (stun_message_find_pos _ _ _ _ _ STUN_ATTRIBUTE_MESSAGE_INTEGRITY Hr), Hty,
    attr_pos_passes by done.
  assert (attr_pos (mi :: tl) STUN_ATTRIBUTE_MESSAGE_INTEGRITY = Some (4, 20)) as ->
    by (cbn [attr_pos]; by rewrite Hv).
  rewrite bind_Done, Hlt.
  unfold mret at 1, outcome_ret at 1. rewrite bind_Done.
  set (hash := 20 + (zlen (attrs_enc l) + 4)).
  assert (expected_sha agent msg hash key = Done (at_val mi)) as ->.
  { pose proof (stun_message_length_spec _ _ _ _ _ Hr) as Hlen.
    destruct Hr as [[E Hlty Hlid _ _ _] Hf].
    rewrite attrs_enc_app, attrs_enc_cons, !zlen_app, Hmi, Htl in *.
    pose proof (zlen_nonneg (attrs_enc l)).
    unfold expected_sha. rewrite E, Hlen, bind_Done, <- !app_assoc. unfold hash.
    replace (20 + (zlen (attrs_enc l) + 4) + 20) with (44 + zlen (attrs_enc l)) by lia.
    unfold mi, mi_attr, signed_len, uses_fingerprint, compat_cookie, compat_old in *. cbn [at_val].
    destruct (agent_compat agent), (usage agent STUN_AGENT_USAGE_USE_FINGERPRINT);
      repeat (case_bool_decide; try done); cbn [orb andb] in *;
      rewrite ?u64_small, stun_sha1_layout by (done || unfold is_u64; lia);
      do 2 f_equal; lia. }
  rewrite bind_Done.
  assert (slice (msg_buffer msg) hash 20 = Done (at_val mi)) as ->.
  { destruct Hr as [[E Hlty Hlid _ _ _] _].
    rewrite E, <- Hv. unfold hash.
    rewrite <- (zlen_hdr_enc ty id (zlen (attrs_enc (l ++ mi :: tl))) Hlty Hlid), Z.add_assoc.
    apply slice_value. }
  rewrite bind_Done, bool_decide_true by done. done.
Qed.
End signed.

(** ** A finished request is accepted *)

(** No attribute of [l] is MESSAGE-INTEGRITY or FINGERPRINT. *)
Definition plain (l : list attr) : Prop :=
  Forall (λ a, at_type a ≠ STUN_ATTRIBUTE_MESSAGE_INTEGRITY ∧ at_type a ≠ STUN_ATTRIBUTE_FINGERPRINT) l.

Lemma plain_passes l type :
  plain l → type = STUN_ATTRIBUTE_MESSAGE_INTEGRITY ∨ type = STUN_ATTRIBUTE_FINGERPRINT →
  Forall (λ a, passes type a = true) l.
Proof.
  intros Hl Ht. eapply List.Forall_impl; [| exact Hl]. intros a [H1 H2]. unfold passes.
  apply Z.eqb_neq in H1, H2. rewrite H1, H2. by destruct Ht as [-> | ->]; rewrite ?H1, ?H2.
Qed.

Lemma class_hdr m1 m2 ty x y :
  msg_buffer m1 = ty ++ x → msg_buffer m2 = ty ++ y → zlen ty = 2 →
  stun_message_get_class m1 = stun_message_get_class m2.
Proof.
  intros E1 E2 Hty. destruct ty as [| b0 [| b1 ty]]; try done.
  unfold stun_message_get_class. by rewrite E1, E2.
Qed.

Section receive.
Context {crypto : Crypto}.
Context (agent : StunAgent) (msg : StunMessage) (buffer ty id : bytes) (l : list attr).
Let m := fresh_msg agent msg buffer.

(** The checks before the credentials, on a well formed request. *)
Lemma validate_request_front validater :
  stun_wf (negb (usage agent STUN_AGENT_USAGE_NO_ALIGNED_ATTRIBUTES)) buffer ty id l [] →
  20 + zlen (attrs_enc l) < 2 ^ 16 →
  (compat_cookie (agent_compat agent) = true → id_cookie id = true) →
  (uses_fingerprint agent = true → stun_agent_check_fingerprint agent m = Done true) →
  stun_message_get_class m = Done STUN_REQUEST →
  stun_agent_validate agent msg buffer validater = validate_credentials agent m validater None.
Proof.
  intros Hwf Hfit Hcookie Hfpr Hclass.
  assert (zlen buffer = 20 + zlen (attrs_enc l)) as Hlen.
  { destruct Hwf as [[-> Hty Hid _ _ _] _].
    pose proof (zlen_hdr_enc ty id (zlen (attrs_enc l)) Hty Hid). rewrite !zlen_app, H.
    change (zlen (@nil Z)) with 0. lia. }
  pose proof (zlen_nonneg (attrs_enc l)).
  unfold stun_agent_validate. fold (fresh_msg agent msg buffer). fold m.
  rewrite (validate_complete _ _ _ _ _ _ (layout_bytes_ok _ _ _ _ _ _ (proj1 Hwf)) ltac:(lia) Hwf),
    bind_Done.
  unfold STUN_MESSAGE_BUFFER_INVALID, STUN_MESSAGE_BUFFER_INCOMPLETE.
  destruct (Z.eqb_spec (20 + zlen (attrs_enc l)) (-1)); [lia |].
  destruct (Z.eqb_spec (20 + zlen (attrs_enc l)) 0); [lia |].
  assert (s32 (zlen buffer) = 20 + zlen (attrs_enc l)) as -> by (unfold s32; zlia).
  rewrite Z.eqb_refl. cbn [negb].
  assert (msg_repr m ty id l []) as Hr.
  { split; [apply Hwf | lia]. }
  rewrite (stun_message_has_cookie_spec _ _ _ _ _ Hr).
  assert ((mret (compat_cookie (agent_compat agent)) &&&
    (Done (id_cookie id) ≫= λ b : bool, mret (negb b))) = Done false) as ->.
  { unfold and_then, mret, outcome_ret. rewrite !bind_Done.
    destruct (compat_cookie _); [by rewrite Hcookie | done]. }
  rewrite bind_Done. fold (uses_fingerprint agent).
  assert ((mret (uses_fingerprint agent) &&&
    (stun_agent_check_fingerprint agent m ≫= λ b : bool, mret (negb b))) = Done false) as ->.
  { unfold and_then, mret, outcome_ret. rewrite bind_Done.
    destruct (uses_fingerprint agent); [by rewrite Hfpr | done]. }
  rewrite bind_Done. unfold class_is. rewrite Hclass. done.
Qed.

(** The credentials of a request with USERNAME and a good MESSAGE-INTEGRITY. *)
Lemma validate_request_credentials v key u rest :
  msg_repr m ty id l rest →
  stun_message_get_class m = Done STUN_REQUEST →
  usage agent STUN_AGENT_USAGE_LONG_TERM_CREDENTIALS = false →
  usage agent STUN_AGENT_USAGE_IGNORE_CREDENTIALS = false →
  attr_find l STUN_ATTRIBUTE_USERNAME = Some u →
  is_Some (attr_find l STUN_ATTRIBUTE_MESSAGE_INTEGRITY) →
  (∀ p, slice buffer p (zlen u) = Done u → v agent m (Some p) (zlen u) = Done (Some (Some key))) →
  0 < zlen key →
  check_integrity agent m key None = Done (m <| msg_key := Some key |>, true) →
  validate_credentials agent m (Some v) None
    = validate_accept agent (m <| msg_key := Some key |>) None.
Proof.
  intros Hr Hclass Hlt Hig Hu Hmi Hv Hkey Hci.
  assert (∀ c, class_is m c = Done (bool_decide (STUN_REQUEST = c))) as Hcl
    by (intros c; unfold class_is; by rewrite Hclass).
  assert (∀ t, t ≠ STUN_ATTRIBUTE_REALM → t ≠ STUN_ATTRIBUTE_NONCE → oc2007_type m t = t) as Hoc.
  { intros t H1 H2. unfold oc2007_type. apply Z.eqb_neq in H1, H2. rewrite H1, H2.
    by destruct (is_oc2007 m). }
  assert (has_attr m STUN_ATTRIBUTE_MESSAGE_INTEGRITY = Done true) as Hhas.
  { unfold has_attr. rewrite (stun_message_has_attribute_spec _ _ _ _ _ Hr). unfold value.
    rewrite Hoc by done. by rewrite bool_decide_true. }
  assert (has_attr m STUN_ATTRIBUTE_USERNAME = Done true) as Hhasu.
  { unfold has_attr. rewrite (stun_message_has_attribute_spec _ _ _ _ _ Hr). unfold value.
    rewrite Hoc, Hu by done. done. }
  unfold validate_credentials.
  assert (ignore_credentials agent m = Done false) as ->.
  { unfold ignore_credentials. rewrite !Hcl, Hig. done. }
  rewrite bind_Done.
  assert (credentials_missing agent m = Done false) as ->.
  { unfold credentials_missing, lacks. rewrite !Hcl, Hig, Hlt.
    unfold has_attr in Hhas, Hhasu. unfold has_attr. rewrite Hhas, Hhasu.
    by destruct (usage agent STUN_AGENT_USAGE_SHORT_TERM_CREDENTIALS). }
  rewrite Hhas. cbn -[stun_message_find check_integrity].
  destruct (stun_message_find_spec m ty id l rest STUN_ATTRIBUTE_USERNAME Hr) as (r & -> & Hf).
  rewrite Hoc, Hu in Hf by done. destruct r as [[p n] |]; [| done].
  destruct Hf as (-> & a & c & E & <-). rewrite bind_Done. cbn [msg_buffer m fresh_msg] in E.
  rewrite (Hv (zlen a)), bind_Done.
  2: { rewrite E. by apply slice_app. }
  destruct (Z.ltb_spec 0 (zlen key)); [| lia]. by rewrite Hci.
Qed.
End receive.

Section end_to_end.
Context {crypto : Crypto}.

(** The attributes of a finished message. *)
Definition finished (agent : StunAgent) (ty id : bytes) (l : list attr) (key : option bytes) : list attr :=
  let l1 := match key with Some k => l ++ [mi_attr agent ty id l k] | None => l end in
  l1 ++ fpr_attrs agent ty id l1.

Lemma finished_cons agent ty id l key :
  finished agent ty id l (Some key)
  = l ++ mi_attr agent ty id l key :: fpr_attrs agent ty id (l ++ [mi_attr agent ty id l key]).
Proof. unfold finished. by rewrite <- app_assoc. Qed.

Lemma zlen_mi_attr agent ty id l key : zlen (attr_enc (mi_attr agent ty id l key)) = 24.
Proof.
  unfold attr_enc. rewrite !zlen_app. cbn [mi_attr at_type at_val at_pad]. unfold mac.
  by rewrite hmac_sha1_len.
Qed.

Lemma zlen_finished agent ty id l key :
  zlen (attrs_enc (finished agent ty id l (Some key))) = zlen (attrs_enc l) + 24 + (if uses_fingerprint agent then 8 else 0).
Proof.
  rewrite finished_cons, attrs_enc_app, attrs_enc_cons, !zlen_app, zlen_mi_attr.
  unfold fpr_attrs. destruct (uses_fingerprint agent); rewrite <- Z.add_assoc; done.
Qed.

Lemma method_hdr m ty x : msg_buffer m = ty ++ x → zlen ty = 2 → ∃ k, stun_message_get_method m = Done k.
Proof.
  intros E Hty. destruct ty as [| b0 [| b1 ty]]; try done.
  unfold stun_message_get_method. rewrite E. by eexists.
Qed.

Lemma repr_buffer msg ty id l rest :
  msg_repr msg ty id l rest →
  ∃ x, msg_buffer msg = ty ++ x ∧ zlen ty = 2.
Proof. intros [[E Hty _ _ _ _] _]. unfold hdr_enc in E. rewrite <- app_assoc in E. eauto. Qed.

(** The key that is used: the one the message already has, or the argument. *)
Definition effective_key (msg : StunMessage) (key : option bytes) : option bytes :=
  match msg_key msg with Some k => Some k | None => key end.

Lemma finish_message_spec agent msg ty id l rest key c :
  msg_repr msg ty id l rest →
  stun_message_get_class msg = Done c →
  (c = STUN_REQUEST → Exists (λ s, si_valid s = false) (sent_ids agent)) →
  usage agent STUN_AGENT_USAGE_LONG_TERM_CREDENTIALS = false →
  32 ≤ zlen rest → 52 + zlen (attrs_enc l) < 2 ^ 16 →
  let fin := finished agent ty id l (effective_key msg key) in
  ∃ agent' b rest', stun_agent_finish_message agent msg key
      = Done (20 + zlen (attrs_enc fin), agent',
              msg <| msg_buffer := b |> <| msg_key := effective_key msg key |>) ∧
    msg_repr (msg <| msg_buffer := b |>) ty id fin rest'.
Proof.
  intros Hr Hc Hslot Hlt Hroom Hfit fin. unfold stun_agent_finish_message. rewrite Hc, bind_Done.
  destruct (repr_buffer _ _ _ _ _ Hr) as (x & Ex & Hty).
  destruct (method_hdr _ _ _ Ex Hty) as [k ->]. rewrite bind_Done.
  match goal with |- context [match ?X with Some _ => _ | None => mret (0, agent, msg) end] =>
    assert (is_Some X) as [i ->] end.
  { case_bool_decide as Hreq; [| by eexists]. cbn [andb].
    destruct (negb _); [| by eexists].
    destruct (list_find _ _) as [[i s] |] eqn:E; [by eexists |].
    apply list_find_None in E. apply Exists_exists in Hslot as (s & Hs & Hv); [| done].
    rewrite Forall_forall in E. by destruct (E s Hs). }
  fold (effective_key msg key).
  assert (∃ b1 r1, finish_integrity agent msg (effective_key msg key)
      = Done (msg <| msg_buffer := b1 |>, true) ∧ 8 ≤ zlen r1 ∧
    let l1 := match effective_key msg key with
              | Some k => l ++ [mi_attr agent ty id l k] | None => l end in
    28 + zlen (attrs_enc l1) < 2 ^ 16 ∧ msg_repr (msg <| msg_buffer := b1 |>) ty id l1 r1)
    as (b1 & r1 & -> & Hz & Hfit1 & Hr1).
  { destruct (effective_key msg key) as [ek |].
    - destruct (finish_integrity_spec agent msg ty id l rest ek) as (b1 & r1 & E & Hz & Hr1);
        [done | done | lia | lia |].
      exists b1, r1. split_and!; [done | lia |].
      split; [rewrite attrs_enc_snoc, zlen_app, zlen_mi_attr; lia | done].
    - exists (msg_buffer msg), rest. split_and!; [by destruct msg | lia |].
      split; [lia | by destruct msg]. }
  rewrite bind_Done. cbn [negb].
  destruct (finish_fingerprint_spec agent (msg <| msg_buffer := b1 |>) ty id _ _ Hr1)
    as (b2 & r2 & -> & Hr2); [lia | done |].
  rewrite bind_Done. cbn [negb].
  change (msg <| msg_buffer := b1 |> <| msg_buffer := b2 |>) with (msg <| msg_buffer := b2 |>) in *.
  rewrite (stun_message_id_spec _ _ _ _ _ Hr2), bind_Done.
  destruct (repr_buffer _ _ _ _ _ Hr2) as (y & Ey & _).
  destruct (method_hdr _ _ _ Ey Hty) as [k' ->]. rewrite bind_Done.
  rewrite (stun_message_length_spec _ _ _ _ _ Hr2), bind_Done.
  eexists _, b2, r2. split; [| exact Hr2]. reflexivity.
Qed.

(** The finished attributes are what the receiver's checks look for. *)
Lemma finished_checks agent msg ty id l key rest :
  msg_repr msg ty id (finished agent ty id l (Some key)) rest → plain l →
  usage agent STUN_AGENT_USAGE_LONG_TERM_CREDENTIALS = false →
  (uses_fingerprint agent = true → stun_agent_check_fingerprint agent msg = Done true) ∧
  check_integrity agent msg key None = Done (msg <| msg_key := Some key |>, true) ∧
  is_Some (attr_find (finished agent ty id l (Some key)) STUN_ATTRIBUTE_MESSAGE_INTEGRITY).
Proof.
  intros Hr Hl Hlt.
  pose proof (plain_passes l _ Hl (or_introl eq_refl)) as Hp1.
  pose proof (plain_passes l _ Hl (or_intror eq_refl)) as Hp2. split_and!.
  - intros Hu. unfold finished, fpr_attrs in Hr. rewrite Hu in Hr.
    eapply check_fingerprint_spec; [exact Hr |].
    apply Forall_app. split; [done |]. by repeat constructor.
  - rewrite finished_cons in Hr. eapply check_integrity_spec; [exact Hr | done.. |].
    unfold fpr_attrs. by destruct (uses_fingerprint agent).
  - rewrite finished_cons, attr_find_passes by done. cbn. by eexists.
Qed.

Lemma finished_conf a b ty id l key :
  agent_conf a = agent_conf b → finished a ty id l key = finished b ty id l key.
Proof.
  intros E. unfold finished, mi_attr, fpr_attrs, signed_len, uses_fingerprint.
  by rewrite (compat_conf _ _ E), (usage_conf _ _ _ E).
Qed.

Lemma accept_known agent msg ty id l rest ks :
  msg_repr msg ty id l rest → msg_agent msg = Some (agent_conf agent) →
  known_attributes agent = ks ++ [0] → Forall (λ k, k ≠ 0) ks → unknown_types ks l = [] →
  ∃ agent', validate_accept agent msg None = Done (STUN_VALIDATION_SUCCESS, agent', msg) ∧
    sent_ids agent' = sent_ids agent.
Proof.
  intros Hr Ha Hk Hks Hun. unfold validate_accept.
  rewrite (stun_message_find32_spec _ _ _ _ _ Hr), bind_Done.
  set (agent' := if bool_decide _ then _ else agent).
  assert (agent_conf agent' = agent_conf agent ∧ known_attributes agent' = known_attributes agent
    ∧ sent_ids agent' = sent_ids agent) as (E1 & E2 & E3)
    by (unfold agent'; by destruct (bool_decide _)).
  rewrite (find_unknowns_list agent' msg ty id l rest ks) by congruence.
  rewrite Hun. by exists agent'.
Qed.

(** C10: a request finished with a short-term key is accepted by a peer of the
    same compatibility mode and usage flags, neither long-term credentials nor
    IGNORE_CREDENTIALS among them, that knows all attribute types of the request
    and whose validater knows the key of its username: it passes the format,
    cookie and fingerprint checks, the HMAC matches in every compatibility mode,
    and the message is given the key. *)
Theorem finished_request_accepted (sender receiver : StunAgent) (msg msg2 : StunMessage)
    (ty id : bytes) (l : list attr) (rest key u : bytes) (ks : list Z)
    (v : StunMessageIntegrityValidate)
    (Hr : msg_repr msg ty id l rest) (Hl : plain l)
    (Hagent : msg_agent msg = Some (agent_conf sender)) (Hk : msg_key msg = None)
    (Hreq : stun_message_get_class msg = Done STUN_REQUEST)
    (Htop : ∃ b0 b1, ty = [b0; b1] ∧ b0 < 64)
    (Hcookie : compat_cookie (agent_compat sender) = true → id_cookie id = true)
    (Hroom : 32 ≤ zlen rest) (Hfit : 52 + zlen (attrs_enc l) < 2 ^ 16)
    (Hslot : Exists (λ s, si_valid s = false) (sent_ids sender))
    (Hlt : usage sender STUN_AGENT_USAGE_LONG_TERM_CREDENTIALS = false)
    (Hig : usage sender STUN_AGENT_USAGE_IGNORE_CREDENTIALS = false)
    (Hpeer : agent_conf receiver = agent_conf sender)
    (Hknown : known_attributes receiver = ks ++ [0]) (Hks : Forall (λ k, k ≠ 0) ks)
    (Hall : unknown_types ks (finished sender ty id l (Some key)) = [])
    (Hu : attr_find l STUN_ATTRIBUTE_USERNAME = Some u) (Hkey : 0 < zlen key)
    (Hv : ∀ m p, slice (msg_buffer m) p (zlen u) = Done u →
       v receiver m (Some p) (zlen u) = Done (Some (Some key))) :
  ∃ n sender' msg', stun_agent_finish_message sender msg (Some key) = Done (n, sender', msg') ∧
    ∃ datagram receiver' m, slice (msg_buffer msg') 0 n = Done datagram ∧
    stun_agent_validate receiver msg2 datagram (Some v)
      = Done (STUN_VALIDATION_SUCCESS, receiver', m) ∧
    msg_key m = Some key ∧ sent_ids receiver' = sent_ids receiver.
Proof.
  destruct (finish_message_spec sender msg ty id l rest (Some key) STUN_REQUEST)
    as (s' & b & rest' & -> & Hr'); [done.. |].
  unfold effective_key in *. rewrite Hk in *.
  set (fin := finished sender ty id l (Some key)) in *.
  eexists _, _, _. split; [done |]. cbn [msg_buffer set_field set_msg_buffer set_msg_key].
  destruct Hr' as [[E Hty Hid Hok Hfl Hf] Hf2].
  cbn [msg_buffer set_field set_msg_buffer] in E.
  set (datagram := hdr_enc ty id (zlen (attrs_enc fin)) ++ attrs_enc fin).
  assert (zlen datagram = 20 + zlen (attrs_enc fin)) as Hdl.
  { unfold datagram. rewrite zlen_app, zlen_hdr_enc; done. }
  rewrite E, app_assoc. fold datagram.
  assert (slice (datagram ++ rest') 0 (20 + zlen (attrs_enc fin)) = Done datagram) as ->
    by (by apply (slice_app [] datagram)).
  set (m := fresh_msg receiver msg2 datagram).
  assert (Hno : negb (no_aligned m) = negb (no_aligned msg)).
  { unfold no_aligned. cbn [m fresh_msg msg_agent]. by rewrite Hpeer, Hagent. }
  assert (Hlay : layout (negb (no_aligned msg)) datagram ty id fin []).
  { split; try done; [by rewrite app_nil_r |]. rewrite !bytes_ok_app in *. split_and!; [tauto.. | constructor]. }
  assert (Hrm : msg_repr m ty id fin []).
  { split; [rewrite Hno; exact Hlay | done]. }
  assert (Hclass : stun_message_get_class m = Done STUN_REQUEST).
  { rewrite <- Hreq. destruct (repr_buffer _ _ _ _ _ Hr) as (x & Ex & _).
    destruct (repr_buffer _ _ _ _ _ Hrm) as (y & Ey & _). by eapply class_hdr. }
  assert (fin = finished receiver ty id l (Some key)) as Hfin by (by apply finished_conf).
  rewrite <- (usage_conf _ _ _ Hpeer) in Hlt. rewrite <- (usage_conf _ _ _ Hpeer) in Hig.
  rewrite <- (compat_conf _ _ Hpeer) in Hcookie.
  rewrite Hfin in Hrm.
  destruct (finished_checks receiver m ty id l key [] Hrm Hl Hlt) as (Hfp & Hci & Hmi).
  destruct (accept_known receiver (m <| msg_key := Some key |>) ty id fin [] ks)
    as (r' & Hacc & Hids); [by rewrite Hfin | done.. |].
  exists datagram, r', (m <| msg_key := Some key |>). split_and!; try done.
  rewrite <- Hacc, (validate_request_front receiver msg2 datagram ty id fin (Some v)); fold m; try done.
  - apply (validate_request_credentials receiver msg2 datagram ty id fin v key u []); fold m; try done.
    + by rewrite Hfin.
    + unfold fin. rewrite finished_cons. by apply attr_find_app.
    + by rewrite Hfin.
    + intros p Hs. by apply (Hv m p).
  - unfold usage. rewrite Hpeer. fold (usage sender STUN_AGENT_USAGE_NO_ALIGNED_ATTRIBUTES).
    unfold no_aligned in Hlay. rewrite Hagent in Hlay. by split.
  - lia.
Qed.
End end_to_end.

(** A short-term credential pair and its two peers. *)
Definition demo_user : bytes := [97; 58; 98].
Definition demo_key : bytes := [115; 51; 99; 114; 51; 116].
Definition demo_sender : StunAgent :=
  {| agent_conf := {| compatibility := STUN_COMPATIBILITY_RFC5389;
                      usage_flags := Z.lor STUN_AGENT_USAGE_SHORT_TERM_CREDENTIALS
                                           STUN_AGENT_USAGE_USE_FINGERPRINT |};
     sent_ids := repeat no_entry 200;
     known_attributes := [STUN_ATTRIBUTE_USERNAME; STUN_ATTRIBUTE_MESSAGE_INTEGRITY; 0];
     software_attribute := None;
     ms_ice2_send_legacy_connchecks := false |}.
Definition demo_attrs : list attr := [Attr STUN_ATTRIBUTE_USERNAME demo_user [0x20]].
Definition demo_signed : StunMessage :=
  {| msg_agent := Some (agent_conf demo_sender);
     msg_buffer := hdr_enc [0; 1] demo_tid 8 ++ attrs_enc demo_attrs ++ repeat 0 40;
     msg_key := None; msg_long_term_key := repeat 0 16; msg_long_term_valid := false |}.
Definition demo_validater : StunMessageIntegrityValidate :=
  stun_agent_default_validater
    [{| dv_username := demo_user; dv_username_len := 3; dv_password := Some demo_key |}].

Lemma demo_validater_knows m p :
  slice (msg_buffer m) p (zlen demo_user) = Done demo_user →
  demo_validater demo_sender m (Some p) (zlen demo_user) = Done (Some (Some demo_key)).
Proof.
  intros Hs. unfold demo_validater. cbn [stun_agent_default_validater dv_username_len].
  change (zlen demo_user =? 3) with true. cbv iota. by rewrite Hs.
Qed.

Lemma demo_signed_repr : msg_repr demo_signed [0; 1] demo_tid demo_attrs (repeat 0 40).
Proof.
  split; [split |]; try by_compute; try reflexivity.
  repeat constructor; by_compute || reflexivity.
Qed.

Lemma finished_request_accepted_witness :
  ∃ n sender' msg', @stun_agent_finish_message toy_crypto demo_sender demo_signed (Some demo_key)
      = Done (n, sender', msg') ∧
    ∃ datagram receiver' m, slice (msg_buffer msg') 0 n = Done datagram ∧
    @stun_agent_validate toy_crypto demo_sender demo_signed datagram (Some demo_validater)
      = Done (STUN_VALIDATION_SUCCESS, receiver', m) ∧
    msg_key m = Some demo_key ∧ sent_ids receiver' = sent_ids demo_sender.
Proof.
  apply (@finished_request_accepted toy_crypto demo_sender demo_sender demo_signed demo_signed
    [0; 1] demo_tid demo_attrs (repeat 0 40) demo_key demo_user
    [STUN_ATTRIBUTE_USERNAME; STUN_ATTRIBUTE_MESSAGE_INTEGRITY] demo_validater demo_signed_repr).
  - repeat constructor; by_compute.
  - reflexivity.
  - reflexivity.
  - reflexivity.
  - by exists 0, 1.
  - reflexivity.
  - by_compute.
  - by_compute.
  - by repeat constructor.
  - reflexivity.
  - reflexivity.
  - reflexivity.
  - reflexivity.
  - repeat constructor; by_compute.
  - vm_compute. reflexivity.
  - reflexivity.
  - reflexivity.
  - intros m p. apply demo_validater_knows.
Defined.

(** Three attributes, one of them mandatory and unknown. *)
Lemma find_unknowns_spec_witness :
  let l := [Attr 0x7fff [1; 2] [0; 0]; Attr 0x9999 [] []; Attr STUN_ATTRIBUTE_USERNAME [97] [0; 0; 0]] in
  let msg := {| msg_agent := Some (agent_conf demo_sender);
     msg_buffer := hdr_enc [0; 1] demo_tid 20 ++ attrs_enc l;
     msg_key := None; msg_long_term_key := repeat 0 16; msg_long_term_valid := false |} in
  stun_agent_find_unknowns demo_sender msg 1 = Done (take 1 (map htons [0x7fff])).
Proof.
  intros l msg.
  apply (find_unknowns_spec demo_sender msg [0; 1] demo_tid l []
    [STUN_ATTRIBUTE_USERNAME; STUN_ATTRIBUTE_MESSAGE_INTEGRITY] 1).
  - split; [split |]; try by_compute; try reflexivity.
    repeat constructor; by_compute || reflexivity.
  - reflexivity.
  - reflexivity.
  - repeat constructor; by_compute.
Defined.

(** ** An accepted request carries the digest *)

Lemma and_then_inv a b r :
  a &&& b = Done r → (a = Done false ∧ r = false) ∨ (a = Done true ∧ b = Done r).
Proof. unfold and_then. destruct a as [[] | |]; cbn; intros H; try done; [by right | left]. by inv_bind. Qed.
Lemma or_else_inv a b r :
  a ||| b = Done r → (a = Done true ∧ r = true) ∨ (a = Done false ∧ b = Done r).
Proof. unfold or_else. destruct a as [[] | |]; cbn; intros H; try done; [left | by right]. by inv_bind. Qed.

Section authentic.
Context {crypto : Crypto}.

(** [key] verifies the MESSAGE-INTEGRITY of [msg]: its 20 octets are the HMAC
    under [key] or, with long-term credentials, under the digest of USERNAME,
    REALM and [key]. *)
Definition verified (agent : StunAgent) (msg : StunMessage) (key : bytes) : Prop :=
  ∃ hash n k sha,
    stun_message_find msg STUN_ATTRIBUTE_MESSAGE_INTEGRITY = Done (Some (hash, n)) ∧
    (if usage agent STUN_AGENT_USAGE_LONG_TERM_CREDENTIALS
     then ∃ u ul r rl, stun_message_find msg STUN_ATTRIBUTE_USERNAME = Done (Some (u, ul)) ∧
       stun_message_find msg STUN_ATTRIBUTE_REALM = Done (Some (r, rl)) ∧
       stun_hash_creds (msg_buffer msg) r rl u ul key = Done k
     else k = key) ∧
    expected_sha agent msg hash k = Done sha ∧ slice (msg_buffer msg) hash 20 = Done sha.

Lemma check_integrity_verified agent msg key msg' :
  check_integrity agent msg key None = Done (msg', true) →
  stun_message_find msg STUN_ATTRIBUTE_MESSAGE_INTEGRITY ≠ Done None →
  verified agent msg key.
Proof.
  unfold check_integrity. intros H Hmi. inv_bind. rewrite Hm in Hmi.
  destruct a as [[hash n] |]; [| done]. inv_bind. destruct a as [[m k] |]; [| by inv_bind].
  inv_bind. case_bool_decide as E; inv_bind; [subst | by simplify_eq].
  exists hash, n, k, a0. split; [done |]. unfold verified.
  destruct (usage agent STUN_AGENT_USAGE_LONG_TERM_CREDENTIALS) eqn:Hlt; inv_bind.
  - destruct a as [d |]; simplify_eq.
    destruct a2 as [[u ul] |], a1 as [[r rl] |]; inv_bind; try done.
    split; [by eexists _, _, _, _ | done].
  - done.
Qed.

Lemma lacks_inv msg t b : lacks msg t = Done b → has_attr msg t = Done (negb b).
Proof. unfold lacks, has_attr. intros H. inv_bind. by rewrite negb_involutive. Qed.

Lemma or_else_false a b : a ||| b = Done false → a = Done false ∧ b = Done false.
Proof. intros [[? [=]] | H]%or_else_inv. done. Qed.

(** A request that lacks nothing its credentials need has USERNAME and
    MESSAGE-INTEGRITY. *)
Lemma missing_has agent msg :
  stun_message_get_class msg = Done STUN_REQUEST → credentials_missing agent msg = Done false →
  usage agent STUN_AGENT_USAGE_SHORT_TERM_CREDENTIALS = true ∨
  usage agent STUN_AGENT_USAGE_LONG_TERM_CREDENTIALS = true →
  has_attr msg STUN_ATTRIBUTE_USERNAME = Done true ∧
  has_attr msg STUN_ATTRIBUTE_MESSAGE_INTEGRITY = Done true.
Proof.
  intros Hc H Hcred. unfold credentials_missing in H.
  assert (class_is msg STUN_REQUEST = Done true) as Hreq by (unfold class_is; by rewrite Hc).
  rewrite !Hreq in H. cbn [or_else and_then] in H.
  apply and_then_inv in H as [[[=] _] | [_ H]].
  apply or_else_false in H as [H _]. apply or_else_false in H as [HS HL].
  destruct Hcred as [E | E]; [rewrite E in HS; clear HL | rewrite E in HL; clear HS].
  - apply and_then_inv in HS as [[[=] _] | [_ HS]].
    apply or_else_false in HS as [HU HS]. apply lacks_inv in HU, HS. by split.
  - apply and_then_inv in HL as [[H _] | [_ HL]]; [by vm_compute in H |].
    do 2 (apply or_else_false in HL as [HL _]).
    apply or_else_false in HL as [HU HL]. apply lacks_inv in HU, HL. by split.
Qed.

(** C30: acceptance of a request is backed by a key.  For an agent that uses
    credentials (short- or long-term, not told to ignore them), a request that
    [stun_agent_validate] accepts carries a USERNAME, which the validater was
    given and approved; and if the password the validater answered has at least
    one octet, MESSAGE-INTEGRITY holds the HMAC of the message under it.  (With
    no password, or an empty one, the digest is not looked at.) *)
Theorem accepted_request_authentic (agent agent' : StunAgent) (msg msg' : StunMessage)
    (buffer : bytes) (validater : option StunMessageIntegrityValidate) (st : StunValidationStatus)
    (Hrun : stun_agent_validate agent msg buffer validater = Done (st, agent', msg'))
    (Hacc : accepted st = true)
    (Hreq : stun_message_get_class (fresh_msg agent msg buffer) = Done STUN_REQUEST)
    (Hcred : usage agent STUN_AGENT_USAGE_SHORT_TERM_CREDENTIALS = true ∨
             usage agent STUN_AGENT_USAGE_LONG_TERM_CREDENTIALS = true)
    (Hig : usage agent STUN_AGENT_USAGE_IGNORE_CREDENTIALS = false) :
  ∃ v p len key, validater = Some v ∧
    stun_message_find (fresh_msg agent msg buffer) STUN_ATTRIBUTE_USERNAME = Done (Some (p, len)) ∧
    v agent (fresh_msg agent msg buffer) (Some p) len = Done (Some key) ∧
    match key with
    | Some k => 0 < zlen k → verified agent (fresh_msg agent msg buffer) k
    | None => True
    end.
Proof.
  unfold stun_agent_validate in Hrun. inv_bind.
  do 3 (break_in Hrun; [by inv_bind |]). break_in Hrun; [by inv_bind |].
  break_in Hrun; [by inv_bind |]. fold (fresh_msg agent msg buffer) in *.
  set (m := fresh_msg agent msg buffer) in *.
  assert ((class_is m STUN_RESPONSE ||| class_is m STUN_ERROR) = Done false) as E
    by (unfold class_is; by rewrite Hreq).
  rewrite E in *. simplify_eq. unfold validate_credentials in Hrun. inv_bind.
  assert (ignore_credentials agent m = Done false) as Ei
    by (unfold ignore_credentials, class_is; by rewrite Hreq, Hig).
  rewrite Ei in *. simplify_eq. break_in Hrun; [by inv_bind |].
  match goal with H : _ &&& credentials_missing agent m = Done false |- _ =>
    apply and_then_inv in H as [[[=] _] | [_ Hmiss]] end.
  destruct (missing_has agent m Hreq Hmiss Hcred) as [Hun Hmi].
  rewrite Hmi in *.
  match goal with H : Done true &&& _ = Done _ |- _ => apply and_then_inv in H as [[[=] _] | [_ H]] end.
  inv_bind. destruct a1 as [key |]; [| inv_bind; by simplify_eq].
  destruct validater as [v |]; [| by destruct a0 as [[? ?] |]].
  exists v.
  assert (match key with Some k => 0 < zlen k → verified agent m k | None => True end) as Hver.
  { destruct key as [k |]; [| done]. intros Hpos.
    destruct (Z.ltb_spec 0 (zlen k)); [| lia]. cbn [negb andb] in Hrun. inv_bind.
    match type of Hrun with match ?r with _ => _ end = _ => destruct r as [m' []] end;
      [| inv_bind; by simplify_eq].
    eapply check_integrity_verified; [eassumption |].
    unfold has_attr, stun_message_has_attribute in Hmi. intros En. by rewrite En in Hmi. }
  destruct a0 as [[p n] |]; [by eexists p, n, key |].
  unfold has_attr, stun_message_has_attribute in Hun.
  match goal with H : stun_message_find m _ = Done None |- _ => rewrite H in Hun end. by inv_bind.
Qed.
End authentic.

(** The request of [finished_request_accepted_witness]. *)
Definition demo_datagram : bytes :=
  match @stun_agent_finish_message toy_crypto demo_sender demo_signed (Some demo_key) with
  | Done (n, _, m) => take (Z.to_nat n) (msg_buffer m)
  | _ => []
  end.

Lemma accepted_request_authentic_witness :
  ∃ agent' msg',
    @stun_agent_validate toy_crypto demo_sender demo_signed demo_datagram (Some demo_validater)
      = Done (STUN_VALIDATION_SUCCESS, agent', msg') ∧
    ∃ v p len key, Some demo_validater = Some v ∧
      stun_message_find (fresh_msg demo_sender demo_signed demo_datagram) STUN_ATTRIBUTE_USERNAME
        = Done (Some (p, len)) ∧
      v demo_sender (fresh_msg demo_sender demo_signed demo_datagram) (Some p) len = Done (Some key) ∧
      match key with
      | Some k => 0 < zlen k →
          @verified toy_crypto demo_sender (fresh_msg demo_sender demo_signed demo_datagram) k
      | None => True
      end.
Proof.
  assert (∃ agent' msg',
    @stun_agent_validate toy_crypto demo_sender demo_signed demo_datagram (Some demo_validater)
      = Done (STUN_VALIDATION_SUCCESS, agent', msg')) as (a & m & H)
    by (eexists _, _; vm_compute; reflexivity).
  exists a, m. split; [exact H |].
  apply (@accepted_request_authentic toy_crypto demo_sender a demo_signed m demo_datagram
    (Some demo_validater) STUN_VALIDATION_SUCCESS H);
    [reflexivity | vm_compute; reflexivity | left; reflexivity | reflexivity].
Defined.

(** ** A short MESSAGE-INTEGRITY *)

Lemma slice_not_oof {A} (m : list A) i n : slice m i n ≠ Oof.
Proof. unfold slice. by destruct (_ && _)%bool. Qed.

Lemma expected_sha_not_oof `{Crypto} agent msg hash key : expected_sha agent msg hash key ≠ Oof.
Proof.
  assert (∀ len ml p, stun_sha1 (msg_buffer msg) len ml key p ≠ Oof) as Hs.
  { intros len ml p. unfold stun_sha1, assert_. destruct (44 <=? len); [| done].
    rewrite bind_Done. destruct (slice _ 0 2) eqn:E; [rewrite bind_Done | done | by apply slice_not_oof in E].
    destruct (slice _ 4 _) eqn:E2; [done | done | by apply slice_not_oof in E2]. }
  unfold expected_sha. destruct (compat_old _); [apply Hs |]. destruct (bool_decide _); [| apply Hs].
  destruct (stun_message_length msg) eqn:E; [apply Hs | done |].
  exfalso. revert E. unfold stun_message_length, stun_getw, getb. by repeat case_match.
Qed.

(** The length of a received MESSAGE-INTEGRITY is not checked.  When less
    than 20 octets follow its header in the datagram, the comparison with the
    digest reads past the end of the buffer. *)
Theorem check_integrity_overread `{Crypto} (agent : StunAgent) (msg : StunMessage)
    (key : bytes) (saved_md5 : option bytes) (hash n : Z)
    (Hfind : stun_message_find msg STUN_ATTRIBUTE_MESSAGE_INTEGRITY = Done (Some (hash, n)))
    (Hshort : zlen (msg_buffer msg) < hash + 20)
    (Hlt : usage agent STUN_AGENT_USAGE_LONG_TERM_CREDENTIALS = false) :
  check_integrity agent msg key saved_md5 = Ub.
Proof.
  unfold check_integrity. rewrite Hfind, bind_Done, Hlt.
  unfold mret at 1, outcome_ret at 1. rewrite bind_Done.
  destruct (expected_sha agent msg hash key) eqn:E; [rewrite bind_Done | done |].
  - by rewrite slice_out.
  - by apply expected_sha_not_oof in E.
Qed.

(** A datagram of 32 octets, accepted by the thorough check: USERNAME and an
    empty MESSAGE-INTEGRITY.  Its validation is undefined. *)
Lemma check_integrity_overread_witness :
  let buffer := [0; 1; 0; 12] ++ demo_tid ++ [0; 6; 0; 3] ++ demo_user ++ [0x20] ++ [0; 8; 0; 0] in
  let agent := demo_sender in
  let msg := fresh_msg agent demo_signed buffer in
  stun_message_validate_buffer_length buffer (zlen buffer) true = Done (zlen buffer) ∧
  @check_integrity toy_crypto agent msg demo_key None = Ub.
Proof.
  intros buffer agent msg. split; [vm_compute; reflexivity |].
  apply (@check_integrity_overread toy_crypto agent msg demo_key None 32 0);
    [vm_compute; reflexivity | by_compute | reflexivity].
Defined.
