(* ===== verification/StunTimer.v ===== *)
(** * Retransmission timers (stun/usages/timer.c)

    The clock is an argument.  [tv_sec] is a [long], [unsigned] is 32 bits. *)

From S2P Require Import Prelude.

Record timeval := { tv_sec : Z; tv_usec : Z }.

Record StunTimer := {
  deadline : timeval;
  delay : Z;
  retransmissions : Z;
  max_retransmissions : Z
}.

Inductive StunUsageTimerReturn :=
| STUN_USAGE_TIMER_RETURN_SUCCESS
| STUN_USAGE_TIMER_RETURN_RETRANSMIT
| STUN_USAGE_TIMER_RETURN_TIMEOUT.

Definition STUN_TIMER_DEFAULT_TIMEOUT : Z := 200.
Definition STUN_TIMER_DEFAULT_MAX_RETRANSMISSIONS : Z := 7.

(** [while (ts->tv_usec > 1000000)] *)
Fixpoint carry_loop (fuel : nat) (ts : timeval) : outcome timeval :=
  if 1000000 <? tv_usec ts then
    match fuel with
    | O => Oof
    | S fuel => carry_loop fuel {| tv_sec := tv_sec ts + 1; tv_usec := tv_usec ts - 1000000 |}
    end
  else mret ts.

Definition add_delay (ts : timeval) (delay : Z) : outcome timeval :=
  let ts := {| tv_sec := tv_sec ts + delay / 1000; tv_usec := tv_usec ts + delay mod 1000 * 1000 |} in
  carry_loop (Z.to_nat (tv_usec ts / 1000000)) ts.

Definition stun_timer_start (now : timeval) (initial_timeout max : Z) : outcome StunTimer :=
  d ← add_delay now initial_timeout;
  mret {| deadline := d; delay := initial_timeout; retransmissions := 1; max_retransmissions := max |}.

Definition stun_timer_start_reliable (now : timeval) (initial_timeout : Z) : outcome StunTimer :=
  stun_timer_start now initial_timeout 0.

Definition stun_timer_remainder (timer : StunTimer) (now : timeval) : Z :=
  let deadline := deadline timer in
  if tv_sec deadline <? tv_sec now then 0
  else
    let delay := u32 (tv_sec deadline - tv_sec now) in
    if (delay =? 0) && (tv_usec deadline <=? tv_usec now) then 0
    else u32 (u32 (delay * 1000) + Z.quot (s32 (tv_usec deadline - tv_usec now)) 1000).

Definition stun_timer_refresh (timer : StunTimer) (now : timeval)
  : outcome (StunTimer * StunUsageTimerReturn) :=
  if stun_timer_remainder timer now =? 0 then
    if max_retransmissions timer <=? retransmissions timer
    then mret (timer, STUN_USAGE_TIMER_RETURN_TIMEOUT)
    else
      let new_delay :=
        if retransmissions timer =? u32 (max_retransmissions timer - 1)
        then delay timer / 2 else u32 (delay timer * 2) in
      d ← add_delay (deadline timer) new_delay;
      mret ({| deadline := d; delay := new_delay;
               retransmissions := u32 (retransmissions timer + 1);
               max_retransmissions := max_retransmissions timer |},
            STUN_USAGE_TIMER_RETURN_RETRANSMIT)
  else mret (timer, STUN_USAGE_TIMER_RETURN_SUCCESS).

(** ** Time in microseconds *)

Definition us (t : timeval) : Z := tv_sec t * 1000000 + tv_usec t.

(** The clock gives [tv_usec] below a million; deadlines can reach it. *)
Definition clock_ok (t : timeval) : Prop := 0 ≤ tv_usec t < 1000000.
Definition tv_ok (t : timeval) : Prop := 0 ≤ tv_usec t ≤ 1000000.

Lemma carry_loop_spec fuel ts :
  0 ≤ tv_usec ts → (Z.to_nat (tv_usec ts / 1000000) ≤ fuel)%nat →
  ∃ r, carry_loop fuel ts = Done r ∧ us r = us ts ∧ tv_ok r.
Proof.
  revert ts. induction fuel as [| fuel IH]; intros ts Hu Hf; cbn [carry_loop];
    destruct (Z.ltb_spec 1000000 (tv_usec ts)).
  - zlia.
  - exists ts. unfold tv_ok. split_and!; done || lia.
  - destruct (IH {| tv_sec := tv_sec ts + 1; tv_usec := tv_usec ts - 1000000 |}) as (r & -> & Hr & Hok);
      cbn [tv_sec tv_usec]; [lia | zlia |].
    exists r. split_and!; [done | rewrite Hr; unfold us; cbn; lia | done].
  - exists ts. unfold tv_ok. split_and!; done || lia.
Qed.

Lemma add_delay_spec ts d :
  0 ≤ tv_usec ts → 0 ≤ d → ∃ r, add_delay ts d = Done r ∧ us r = us ts + d * 1000 ∧ tv_ok r.
Proof.
  intros Hu Hd. unfold add_delay.
  destruct (carry_loop_spec (Z.to_nat ((tv_usec ts + d mod 1000 * 1000) / 1000000))
    {| tv_sec := tv_sec ts + d / 1000; tv_usec := tv_usec ts + d mod 1000 * 1000 |})
    as (r & Hr & Hus & Hok); cbn [tv_sec tv_usec] in *; [zlia | done |].
  exists r. split_and!; [done | rewrite Hus; unfold us; cbn [tv_sec tv_usec]; zlia | done].
Qed.

(** Truncated division: off by less than one from the exact quotient. *)
Lemma quot_bounds a : - 1000 < Z.quot a 1000 * 1000 - a < 1000.
Proof. pose proof (Z.quot_rem' a 1000). pose proof (Z.rem_bound_abs a 1000 ltac:(lia)). lia. Qed.

(** [stun_timer_remainder] is the time to the deadline in milliseconds,
    rounded by less than one millisecond, and 0 once the deadline has passed,
    for deadlines less than 2^31 ms away; so a poll for the remainder ends less
    than a millisecond before or after the deadline. *)
Theorem stun_timer_remainder_spec (timer : StunTimer) (now : timeval)
    (Hd : tv_ok (deadline timer)) (Hn : clock_ok now)
    (Hnear : us (deadline timer) - us now < 2 ^ 31 * 1000) :
  let left := us (deadline timer) - us now in
  (left ≤ 0 → stun_timer_remainder timer now = 0) ∧
  (0 < left → - 1000 < stun_timer_remainder timer now * 1000 - left < 1000).
Proof.
  intros left. unfold left, stun_timer_remainder, us, tv_ok, clock_ok in *. clear left.
  set (d := deadline timer) in *.
  destruct (Z.ltb_spec (tv_sec d) (tv_sec now)).
  { split; intros; [done | lia]. }
  rewrite u32_small by (unfold is_u32; lia).
  destruct (Z.eqb_spec (tv_sec d - tv_sec now) 0) as [E | E]; cbn [andb].
  - destruct (Z.leb_spec (tv_usec d) (tv_usec now)); [split; intros; [done | lia] |].
    rewrite E. change (u32 (0 * 1000)) with 0.
    replace (s32 (tv_usec d - tv_usec now)) with (tv_usec d - tv_usec now) by (unfold s32; zlia).
    pose proof (quot_bounds (tv_usec d - tv_usec now)).
    pose proof (Z.quot_pos (tv_usec d - tv_usec now) 1000).
    rewrite u32_small by (unfold is_u32; lia). lia.
  - replace (s32 (tv_usec d - tv_usec now)) with (tv_usec d - tv_usec now) by (unfold s32; zlia).
    pose proof (quot_bounds (tv_usec d - tv_usec now)).
    rewrite (u32_small ((tv_sec d - tv_sec now) * 1000)) by (unfold is_u32; lia).
    rewrite u32_small by (unfold is_u32; lia). lia.
Qed.

Lemma stun_timer_remainder_spec_witness :
  let timer := {| deadline := {| tv_sec := 11; tv_usec := 200 |}; delay := 200;
                  retransmissions := 1; max_retransmissions := 7 |} in
  let now := {| tv_sec := 10; tv_usec := 999900 |} in
  - 1000 < stun_timer_remainder timer now * 1000 - 300 < 1000.
Proof.
  intros timer now. apply (stun_timer_remainder_spec timer now); by_compute.
Defined.

(** ** The schedule *)

(** The owner waits for the deadline and refreshes the timer, [k] times. *)
Fixpoint expire (k : nat) (timer : StunTimer)
  : outcome (StunTimer * list StunUsageTimerReturn) :=
  match k with
  | O => mret (timer, [])
  | S k =>
      '(timer, r) ← stun_timer_refresh timer (deadline timer);
      '(timer, rs) ← expire k timer;
      mret (timer, r :: rs)
  end.

Lemma remainder_at_deadline timer : stun_timer_remainder timer (deadline timer) = 0.
Proof.
  unfold stun_timer_remainder. rewrite Z.ltb_irrefl, Z.sub_diag. cbn.
  by rewrite Z.leb_refl.
Qed.

(** Towards zero. *)
Lemma quot_neg a : a ≤ 0 → a ≤ Z.quot a 1000 * 1000 ≤ 0.
Proof.
  intros Ha. replace a with (- - a) by lia. rewrite Z.quot_opp_l by lia.
  pose proof (Z.quot_rem' (- a) 1000). pose proof (Z.rem_bound_pos (- a) 1000). pose proof (Z.quot_pos (- a) 1000). lia.
Qed.

(** Without time left now, there is none later. *)
Lemma remainder_later timer now later :
  tv_ok (deadline timer) → clock_ok now → clock_ok later → us now ≤ us later →
  us (deadline timer) - us now < 2 ^ 31 * 1000 →
  stun_timer_remainder timer now = 0 → stun_timer_remainder timer later = 0.
Proof.
  unfold stun_timer_remainder, us, tv_ok, clock_ok. set (d := deadline timer). intros Hd Hn Hl Hle Hnear.
  destruct (Z.ltb_spec (tv_sec d) (tv_sec now)), (Z.ltb_spec (tv_sec d) (tv_sec later)); try done; [lia |].
  rewrite !(u32_small (_ - _)) by (unfold is_u32; lia).
  replace (s32 (tv_usec d - tv_usec now)) with (tv_usec d - tv_usec now) by (unfold s32; zlia).
  replace (s32 (tv_usec d - tv_usec later)) with (tv_usec d - tv_usec later) by (unfold s32; zlia).
  pose proof (quot_bounds (tv_usec d - tv_usec now)). pose proof (quot_bounds (tv_usec d - tv_usec later)).
  pose proof (Z.quot_pos (tv_usec d - tv_usec now) 1000).
  pose proof (Z.quot_le_mono (tv_usec d - tv_usec later) (tv_usec d - tv_usec now) 1000 ltac:(lia)).
  pose proof (Z.quot_pos (tv_usec d - tv_usec later) 1000).
  pose proof (quot_neg (tv_usec d - tv_usec now)). pose proof (quot_neg (tv_usec d - tv_usec later)).
  destruct (Z.eqb_spec (tv_sec d - tv_sec now) 0), (Z.eqb_spec (tv_sec d - tv_sec later) 0); cbn [andb];
    destruct (Z.leb_spec (tv_usec d) (tv_usec now)), (Z.leb_spec (tv_usec d) (tv_usec later)); try done;
    rewrite ?(u32_small ((_ - _) * 1000)) by (unfold is_u32; lia);
    rewrite ?u32_small by (unfold is_u32; lia); lia.
Qed.

(** One expiry before the last retransmission doubles the delay, the last one
    halves it. *)
Lemma refresh_due timer now :
  stun_timer_remainder timer now = 0 →
  tv_ok (deadline timer) → 0 ≤ delay timer → delay timer * 2 < 2 ^ 32 →
  0 ≤ retransmissions timer < max_retransmissions timer → max_retransmissions timer < 2 ^ 32 →
  let d := if retransmissions timer =? max_retransmissions timer - 1
           then delay timer / 2 else delay timer * 2 in
  ∃ t, stun_timer_refresh timer now = Done (t, STUN_USAGE_TIMER_RETURN_RETRANSMIT) ∧
    delay t = d ∧ retransmissions t = retransmissions timer + 1 ∧
    max_retransmissions t = max_retransmissions timer ∧
    us (deadline t) = us (deadline timer) + d * 1000 ∧ tv_ok (deadline t).
Proof.
  intros Hrem Hok Hd0 Hd Hr Hm d. unfold stun_timer_refresh. rewrite Hrem.
  cbn [Z.eqb]. destruct (Z.leb_spec (max_retransmissions timer) (retransmissions timer)); [lia |].
  rewrite (u32_small (max_retransmissions timer - 1)), (u32_small (delay timer * 2)) by
    (unfold is_u32; lia).
  fold d. destruct (add_delay_spec (deadline timer) d) as (r & -> & Hus & Hrok).
  { unfold tv_ok in Hok. lia. }
  { unfold d. destruct (_ =? _); zlia. }
  rewrite bind_Done. eexists. split; [done |].
  cbn. rewrite u32_small by (unfold is_u32; lia). done.
Qed.

Lemma refresh_step d dl r m dl' r' :
  dl' = (if r =? m - 1 then dl / 2 else dl * 2) → r' = r + 1 →
  tv_ok d → 0 ≤ dl → dl * 2 < 2 ^ 32 → 0 ≤ r < m → m < 2 ^ 32 →
  ∃ d', stun_timer_refresh (Build_StunTimer d dl r m) d
      = Done (Build_StunTimer d' dl' r' m, STUN_USAGE_TIMER_RETURN_RETRANSMIT) ∧
    us d' = us d + dl' * 1000 ∧ tv_ok d'.
Proof.
  intros -> -> Hok H0 Hd Hr Hm.
  destruct (refresh_due (Build_StunTimer d dl r m) d (remainder_at_deadline _)) as ([d' x y z] & E & Hx & Hy & Hz & Hu & Ho);
    [done.. |].
  cbn [delay retransmissions max_retransmissions deadline] in *. subst. by exists d'.
Qed.

(** The retransmission schedule of any timer that has a retransmission
    left: the first [k] expiries with [retransmissions + k < max] all ask for a
    retransmission, the delay is doubled each time, and the deadline moves on by
    exactly the sum [delay * (2 + 4 + .. + 2^k)] milliseconds. *)
Theorem timer_schedule (k : nat) (timer : StunTimer)
    (Hok : tv_ok (deadline timer)) (Hd0 : 0 ≤ delay timer)
    (Hd : delay timer * 2 ^ Z.of_nat k < 2 ^ 32) (Hr : 0 ≤ retransmissions timer)
    (Hk : retransmissions timer + Z.of_nat k < max_retransmissions timer)
    (Hm : max_retransmissions timer < 2 ^ 32) :
  ∃ t, expire k timer = Done (t, replicate k STUN_USAGE_TIMER_RETURN_RETRANSMIT) ∧
    delay t = delay timer * 2 ^ Z.of_nat k ∧
    retransmissions t = retransmissions timer + Z.of_nat k ∧
    max_retransmissions t = max_retransmissions timer ∧
    us (deadline t) = us (deadline timer) + delay timer * (2 ^ (Z.of_nat k + 1) - 2) * 1000.
Proof.
  revert timer Hok Hd0 Hd Hr Hk Hm. induction k as [| k IH]; intros timer Hok Hd0 Hd Hr Hk Hm.
  - exists timer. cbn. split_and!; [done | lia..].
  - replace (Z.of_nat (S k)) with (Z.of_nat k + 1) in * by lia.
    rewrite Z.pow_add_r in Hd by lia.
    assert (1 ≤ 2 ^ Z.of_nat k) by (pose proof (Z.pow_pos_nonneg 2 (Z.of_nat k)); lia).
    destruct (refresh_due timer (deadline timer) (remainder_at_deadline timer)) as (t & Ht & Hdt & Hrt & Hmt & Hut & Hokt);
      [done | done | nia | lia | done |].
    destruct (Z.eqb_spec (retransmissions timer) (max_retransmissions timer - 1)); [lia |].
    destruct (IH t Hokt) as (t' & Ht' & Hd' & Hr' & Hm' & Hu'); [lia | nia | lia | lia | lia |].
    exists t'. cbn [expire replicate]. rewrite Ht, bind_Done, Ht', bind_Done.
    rewrite !Z.pow_add_r in * by lia. split_and!; [done | nia | lia | lia | nia].
Qed.

(** From [stun_timer_start] with the defaults: 200 ms at the start, then five
    doublings (up to 6400 ms) in 12400 ms. *)
Lemma timer_schedule_witness :
  let start := {| tv_sec := 100; tv_usec := 0 |} in
  ∃ timer, stun_timer_start start STUN_TIMER_DEFAULT_TIMEOUT STUN_TIMER_DEFAULT_MAX_RETRANSMISSIONS
      = Done timer ∧
    ∃ t, expire 5 timer = Done (t, replicate 5 STUN_USAGE_TIMER_RETURN_RETRANSMIT) ∧
      delay t = 6400 ∧ retransmissions t = 6 ∧ max_retransmissions t = 7 ∧
      us (deadline t) = us (deadline timer) + 200 * (2 ^ 6 - 2) * 1000.
Proof.
  intros start. eexists. split; [vm_compute; reflexivity |].
  apply (timer_schedule 5 {| deadline := {| tv_sec := 100; tv_usec := 200000 |}; delay := 200;
    retransmissions := 1; max_retransmissions := 7 |}); by_compute.
Defined.

(** Whatever the parameters, a timer gives up: once the number of
    transmissions reaches the maximum every expiry is a TIMEOUT that leaves the
    timer as it is; a reliable timer times out at its first expiry. *)
Theorem timer_gives_up (timer : StunTimer) (now : timeval)
    (Hr : max_retransmissions timer ≤ retransmissions timer)
    (Hexp : us (deadline timer) ≤ us now) (Hd : tv_ok (deadline timer)) (Hn : clock_ok now) :
  stun_timer_refresh timer now = Done (timer, STUN_USAGE_TIMER_RETURN_TIMEOUT).
Proof.
  unfold stun_timer_refresh.
  assert (stun_timer_remainder timer now = 0) as ->.
  { unfold stun_timer_remainder, us, tv_ok, clock_ok in *.
    destruct (Z.ltb_spec (tv_sec (deadline timer)) (tv_sec now)); [done |].
    destruct (Z.eqb_spec (tv_sec (deadline timer)) (tv_sec now)) as [-> | ?].
    - rewrite Z.sub_diag. cbn.
      by destruct (Z.leb_spec (tv_usec (deadline timer)) (tv_usec now)); [| lia].
    - assert (tv_sec (deadline timer) = tv_sec now + 1 ∧ tv_usec (deadline timer) = 0 ∧ False) by lia.
      tauto. }
  cbn [Z.eqb]. by destruct (Z.leb_spec (max_retransmissions timer) (retransmissions timer)); [| lia].
Qed.

Lemma timer_gives_up_witness :
  ∃ timer, stun_timer_start_reliable {| tv_sec := 5; tv_usec := 0 |} 7900 = Done timer ∧
    stun_timer_refresh timer {| tv_sec := 13; tv_usec := 0 |}
      = Done (timer, STUN_USAGE_TIMER_RETURN_TIMEOUT).
Proof.
  eexists. split; [vm_compute; reflexivity |].
  apply timer_gives_up; by_compute.
Defined.

(** The defaults give 79 * 200 ms = 15800 ms from the first transmission to
    the TIMEOUT, over seven transmissions: 200, 400, 800, 1600, 3200, 6400 and
    a last 3200 ms. *)
Theorem timer_default_total (start : timeval) (Hs : clock_ok start) :
  ∃ timer t, stun_timer_start start STUN_TIMER_DEFAULT_TIMEOUT
      STUN_TIMER_DEFAULT_MAX_RETRANSMISSIONS = Done timer ∧
    expire 7 timer = Done (t, replicate 6 STUN_USAGE_TIMER_RETURN_RETRANSMIT
                              ++ [STUN_USAGE_TIMER_RETURN_TIMEOUT]) ∧
    us (deadline t) = us start + 79 * STUN_TIMER_DEFAULT_TIMEOUT * 1000.
Proof.
  unfold STUN_TIMER_DEFAULT_TIMEOUT, STUN_TIMER_DEFAULT_MAX_RETRANSMISSIONS, stun_timer_start.
  destruct (add_delay_spec start 200) as (d & -> & Hus & Hok); [unfold clock_ok in Hs; lia | lia |].
  rewrite bind_Done. eexists.
    destruct (refresh_step d 200 1 7 400 2) as (d1 & E1 & U1 & O1); [done | done | done | lia.. |].
  destruct (refresh_step d1 400 2 7 800 3) as (d2 & E2 & U2 & O2); [done | done | done | lia.. |].
  destruct (refresh_step d2 800 3 7 1600 4) as (d3 & E3 & U3 & O3); [done | done | done | lia.. |].
  destruct (refresh_step d3 1600 4 7 3200 5) as (d4 & E4 & U4 & O4); [done | done | done | lia.. |].
  destruct (refresh_step d4 3200 5 7 6400 6) as (d5 & E5 & U5 & O5); [done | done | done | lia.. |].
  destruct (refresh_step d5 6400 6 7 3200 7) as (d6 & E6 & U6 & O6); [done | done | done | lia.. |].
  eexists. split; [done |]. cbn [expire deadline].
  rewrite E1, bind_Done. cbn [deadline]. rewrite E2, bind_Done. cbn [deadline].
  rewrite E3, bind_Done. cbn [deadline]. rewrite E4, bind_Done. cbn [deadline].
  rewrite E5, bind_Done. cbn [deadline]. rewrite E6, bind_Done. cbn [deadline].
  pose proof (remainder_at_deadline (Build_StunTimer d6 3200 7 7)) as Hrem. cbn [deadline] in Hrem.
  unfold stun_timer_refresh. rewrite Hrem. split; [done |]. cbn [deadline]. lia.
Qed.

Lemma timer_default_total_witness :
  let start := {| tv_sec := 1; tv_usec := 999999 |} in
  ∃ timer t, stun_timer_start start STUN_TIMER_DEFAULT_TIMEOUT
      STUN_TIMER_DEFAULT_MAX_RETRANSMISSIONS = Done timer ∧
    expire 7 timer = Done (t, replicate 6 STUN_USAGE_TIMER_RETURN_RETRANSMIT
                              ++ [STUN_USAGE_TIMER_RETURN_TIMEOUT]) ∧
    us (deadline t) = us start + 79 * STUN_TIMER_DEFAULT_TIMEOUT * 1000.
Proof. intros start. apply (timer_default_total start). by_compute. Defined.
