(* ===== verification/StunIce.v ===== *)
(** * Connectivity checks (stun/usages/ice.c) *)

From S2P Require Import Prelude Bytes StunCrc32 StunMessage StunHmac StunAgent.

Inductive StunUsageIceCompatibility :=
| STUN_USAGE_ICE_COMPATIBILITY_RFC5245
| STUN_USAGE_ICE_COMPATIBILITY_GOOGLE
| STUN_USAGE_ICE_COMPATIBILITY_MSN
| STUN_USAGE_ICE_COMPATIBILITY_MSICE2.
#[export] Instance StunUsageIceCompatibility_eq_dec : EqDecision StunUsageIceCompatibility.
Proof. solve_decision. Defined.

Inductive StunUsageIceReturn :=
| STUN_USAGE_ICE_RETURN_SUCCESS
| STUN_USAGE_ICE_RETURN_ERROR
| STUN_USAGE_ICE_RETURN_INVALID
| STUN_USAGE_ICE_RETURN_ROLE_CONFLICT
| STUN_USAGE_ICE_RETURN_INVALID_REQUEST
| STUN_USAGE_ICE_RETURN_INVALID_METHOD
| STUN_USAGE_ICE_RETURN_MEMORY_ERROR
| STUN_USAGE_ICE_RETURN_INVALID_ADDRESS
| STUN_USAGE_ICE_RETURN_NO_MAPPED_ADDRESS.
#[export] Instance StunUsageIceReturn_eq_dec : EqDecision StunUsageIceReturn.
Proof. solve_decision. Defined.

(** [RFC5245 || MSICE2] *)
Definition ice_full (c : StunUsageIceCompatibility) : bool :=
  bool_decide (c = STUN_USAGE_ICE_COMPATIBILITY_RFC5245) ||
  bool_decide (c = STUN_USAGE_ICE_COMPATIBILITY_MSICE2).

Section ice.
Context {crypto : Crypto}.
Context (PACKAGE_STRING : bytes).

(** Builders that stop at the first attribute that does not fit: the message
    so far, and whether all fitted. *)
Definition append_step (msg : StunMessage)
    (app : StunMessage → outcome (StunMessage * StunMessageReturn))
    (next : StunMessage → outcome (StunMessage * bool)) : outcome (StunMessage * bool) :=
  '(msg, val) ← app msg;
  if bool_decide (val = STUN_MESSAGE_RETURN_SUCCESS) then next msg else mret (msg, false).

(** The role and priority attributes. *)
Definition conncheck_role (msg : StunMessage) (cand_use controlling : bool) (priority tie : Z)
    (next : StunMessage → outcome (StunMessage * bool)) : outcome (StunMessage * bool) :=
  let rest msg :=
    append_step msg (λ m, stun_message_append32 m STUN_ATTRIBUTE_PRIORITY priority) (λ msg,
    append_step msg (λ m, stun_message_append64 m
        (if controlling then STUN_ATTRIBUTE_ICE_CONTROLLING else STUN_ATTRIBUTE_ICE_CONTROLLED) tie)
      next) in
  if cand_use
  then append_step msg (λ m, stun_message_append_flag m STUN_ATTRIBUTE_USE_CANDIDATE) rest
  else rest msg.

(** The candidate identifier, zero-padded to a multiple of four octets. *)
Definition identifier_buf (candidate_identifier : bytes) : bytes :=
  let modulo4 := zlen candidate_identifier mod 4 in
  candidate_identifier ++ (if 0 <? modulo4 then replicate (Z.to_nat (4 - modulo4)) 0 else []).

Definition conncheck_attributes (msg : StunMessage) (username : option bytes)
    (cand_use controlling : bool) (priority tie : Z) (candidate_identifier : option bytes)
    (compatibility : StunUsageIceCompatibility) : outcome (StunMessage * bool) :=
  let identifier msg :=
    match candidate_identifier with
    | Some ci =>
        if bool_decide (compatibility = STUN_USAGE_ICE_COMPATIBILITY_MSICE2) then
          append_step msg (λ m, stun_message_append_bytes m STUN_ATTRIBUTE_CANDIDATE_IDENTIFIER
              (identifier_buf ci)) (λ msg,
          append_step msg (λ m, stun_message_append32 m STUN_ATTRIBUTE_MS_IMPLEMENTATION_VERSION 2)
            (λ msg, mret (msg, true)))
        else mret (msg, true)
    | None => mret (msg, true)
    end in
  let user msg :=
    match username with
    | Some u =>
        if 0 <? zlen u
        then append_step msg (λ m, stun_message_append_bytes m STUN_ATTRIBUTE_USERNAME u) identifier
        else identifier msg
    | None => identifier msg
    end in
  if ice_full compatibility then conncheck_role msg cand_use controlling priority tie user
  else user msg.

Definition stun_usage_ice_conncheck_create (agent : StunAgent) (msg : StunMessage) (buffer : bytes)
    (transid : bytes) (username password : option bytes) (cand_use controlling : bool)
    (priority tie : Z) (candidate_identifier : option bytes)
    (compatibility : StunUsageIceCompatibility) : outcome (Z * StunAgent * StunMessage) :=
  '(msg, _) ← stun_agent_init_request PACKAGE_STRING agent msg buffer STUN_BINDING transid;
  '(msg, ok) ← conncheck_attributes msg username cand_use controlling priority tie
    candidate_identifier compatibility;
  if (ok : bool) then stun_agent_finish_message agent msg password
  else mret (0, agent, msg).

(** ** Responses *)

Definition conncheck_mapped (msg : StunMessage) (addr : sockaddr_storage) (addrlen : Z)
    (compatibility : StunUsageIceCompatibility)
  : outcome (StunUsageIceReturn * sockaddr_storage * Z) :=
  '(val, addr, addrlen) ←
    (if bool_decide (compatibility = STUN_USAGE_ICE_COMPATIBILITY_MSN) then
       transid ← stun_message_id msg;
       let magic_cookie := of_le (take 4 transid) in
       stun_message_find_xor_addr_full msg STUN_ATTRIBUTE_XOR_MAPPED_ADDRESS addr addrlen
         (htonl magic_cookie)
     else stun_message_find_xor_addr msg STUN_ATTRIBUTE_XOR_MAPPED_ADDRESS addr addrlen);
  if bool_decide (val = STUN_MESSAGE_RETURN_SUCCESS)
  then mret (STUN_USAGE_ICE_RETURN_SUCCESS, addr, addrlen)
  else
    '(val, addr, addrlen) ← stun_message_find_addr msg STUN_ATTRIBUTE_MAPPED_ADDRESS addr addrlen;
    if bool_decide (val = STUN_MESSAGE_RETURN_SUCCESS)
    then mret (STUN_USAGE_ICE_RETURN_SUCCESS, addr, addrlen)
    else mret (STUN_USAGE_ICE_RETURN_NO_MAPPED_ADDRESS, addr, addrlen).

Definition stun_usage_ice_conncheck_process (msg : StunMessage) (addr : sockaddr_storage)
    (addrlen : Z) (compatibility : StunUsageIceCompatibility)
  : outcome (StunUsageIceReturn * sockaddr_storage * Z) :=
  method ← stun_message_get_method msg;
  if negb (method =? STUN_BINDING) then mret (STUN_USAGE_ICE_RETURN_INVALID, addr, addrlen)
  else
    c ← stun_message_get_class msg;
    match c with
    | STUN_REQUEST | STUN_INDICATION => mret (STUN_USAGE_ICE_RETURN_INVALID, addr, addrlen)
    | STUN_RESPONSE => conncheck_mapped msg addr addrlen compatibility
    | STUN_ERROR =>
        e ← stun_message_find_error msg;
        match e with
        | (STUN_MESSAGE_RETURN_SUCCESS, Some code) =>
            if code =? STUN_ERROR_ROLE_CONFLICT
            then mret (STUN_USAGE_ICE_RETURN_ROLE_CONFLICT, addr, addrlen)
            else mret (STUN_USAGE_ICE_RETURN_ERROR, addr, addrlen)
        | _ => mret (STUN_USAGE_ICE_RETURN_INVALID, addr, addrlen)
        end
    end.

(** ** Replies *)

(** Returns the new [*plen]. *)
Definition stun_bind_error (agent : StunAgent) (msg : StunMessage) (buf : bytes)
    (req : StunMessage) (code : Z) : outcome (Z * StunAgent * StunMessage) :=
  '(msg, val) ← stun_agent_init_error PACKAGE_STRING agent msg buf req code;
  if negb val then mret (0, agent, msg)
  else
    '(len, agent, msg) ← stun_agent_finish_message agent msg None;
    mret (len, agent, msg).

(** Result of [stun_usage_ice_conncheck_create_reply]. *)
Record ice_reply := {
  ir_return : StunUsageIceReturn;
  ir_plen : Z;
  ir_control : bool;
  ir_agent : StunAgent;
  ir_msg : StunMessage
}.

(** The label [failure]; in the SUCCESS case the source asserts [0]. *)
Definition reply_failure (val : StunMessageReturn) : outcome StunUsageIceReturn :=
  match val with
  | STUN_MESSAGE_RETURN_NOT_ENOUGH_SPACE => mret STUN_USAGE_ICE_RETURN_MEMORY_ERROR
  | STUN_MESSAGE_RETURN_INVALID | STUN_MESSAGE_RETURN_UNSUPPORTED_ADDRESS =>
      mret STUN_USAGE_ICE_RETURN_INVALID_ADDRESS
  | STUN_MESSAGE_RETURN_SUCCESS => Ub
  | STUN_MESSAGE_RETURN_NOT_FOUND => mret STUN_USAGE_ICE_RETURN_ERROR
  end.

(** The mapped address of the reply. *)
Definition reply_address (msg : StunMessage) (src : sockaddr_storage) (srclen : Z)
    (compatibility : StunUsageIceCompatibility) : outcome (StunMessage * StunMessageReturn) :=
  if bool_decide (compatibility = STUN_USAGE_ICE_COMPATIBILITY_MSN) then
    transid ← stun_message_id msg;
    stun_message_append_xor_addr_full msg STUN_ATTRIBUTE_XOR_MAPPED_ADDRESS src srclen
      (htonl (of_le (take 4 transid)))
  else
    cookie ← stun_message_has_cookie msg;
    if cookie && negb (bool_decide (compatibility = STUN_USAGE_ICE_COMPATIBILITY_GOOGLE))
    then stun_message_append_xor_addr msg STUN_ATTRIBUTE_XOR_MAPPED_ADDRESS src srclen
    else stun_message_append_addr msg STUN_ATTRIBUTE_MAPPED_ADDRESS src srclen.

(** The attributes of the reply, stopping at the first that does not fit. *)
Definition reply_attributes (msg req : StunMessage) (src : sockaddr_storage) (srclen : Z)
    (compatibility : StunUsageIceCompatibility) : outcome (StunMessage * StunMessageReturn) :=
  '(msg, val) ← reply_address msg src srclen compatibility;
  if negb (bool_decide (val = STUN_MESSAGE_RETURN_SUCCESS)) then mret (msg, val)
  else
    u ← stun_message_find req STUN_ATTRIBUTE_USERNAME;
    '(msg, val) ←
      (match u with
       | Some (username, username_len) =>
           d ← slice (msg_buffer req) username username_len;
           stun_message_append_bytes msg STUN_ATTRIBUTE_USERNAME d
       | None => mret (msg, val)
       end);
    if negb (bool_decide (val = STUN_MESSAGE_RETURN_SUCCESS)) then mret (msg, val)
    else if bool_decide (compatibility = STUN_USAGE_ICE_COMPATIBILITY_MSICE2)
    then stun_message_append32 msg STUN_ATTRIBUTE_MS_IMPLEMENTATION_VERSION 2
    else mret (msg, val).

(** From the role decision on: [ret] and [control] are already set. *)
Definition reply_response (agent : StunAgent) (req msg : StunMessage) (buf : bytes)
    (src : sockaddr_storage) (srclen : Z) (control : bool) (ret : StunUsageIceReturn)
    (compatibility : StunUsageIceCompatibility) : outcome ice_reply :=
  '(msg, ok) ← stun_agent_init_response PACKAGE_STRING agent msg buf req;
  if negb ok then
    r ← reply_failure STUN_MESSAGE_RETURN_SUCCESS;
    mret (Build_ice_reply r 0 control agent msg)
  else
    '(msg, val) ← reply_attributes msg req src srclen compatibility;
    if negb (bool_decide (val = STUN_MESSAGE_RETURN_SUCCESS)) then
      r ← reply_failure val;
      mret (Build_ice_reply r 0 control agent msg)
    else
      '(len, agent, msg) ← stun_agent_finish_message agent msg None;
      if len =? 0 then
        r ← reply_failure val;
        mret (Build_ice_reply r 0 control agent msg)
      else mret (Build_ice_reply ret len control agent msg).

(** RFC 5245, 7.2.1.1: whether the agent switches its role. *)
Definition switches (control : bool) (tie q : Z) : bool :=
  ((tie <? q) && control) || ((q <=? tie) && negb control).

Definition stun_usage_ice_conncheck_create_reply (agent : StunAgent) (req msg : StunMessage)
    (buf : bytes) (src : sockaddr_storage) (srclen : Z) (control : bool) (tie : Z)
    (compatibility : StunUsageIceCompatibility) : outcome ice_reply :=
  c ← stun_message_get_class req;
  if negb (bool_decide (c = STUN_REQUEST))
  then mret (Build_ice_reply STUN_USAGE_ICE_RETURN_INVALID_REQUEST 0 control agent msg)
  else
    method ← stun_message_get_method req;
    if negb (method =? STUN_BINDING) then
      '(len, agent, msg) ← stun_bind_error agent msg buf req STUN_ERROR_BAD_REQUEST;
      mret (Build_ice_reply STUN_USAGE_ICE_RETURN_INVALID_METHOD len control agent msg)
    else
      conflict ← stun_message_find64 req
        (if control then STUN_ATTRIBUTE_ICE_CONTROLLING else STUN_ATTRIBUTE_ICE_CONTROLLED);
      match conflict with
      | (STUN_MESSAGE_RETURN_SUCCESS, Some q) =>
          if switches control tie q then
            reply_response agent req msg buf src srclen (negb control)
              STUN_USAGE_ICE_RETURN_ROLE_CONFLICT compatibility
          else
            '(len, agent, msg) ← stun_bind_error agent msg buf req STUN_ERROR_ROLE_CONFLICT;
            mret (Build_ice_reply STUN_USAGE_ICE_RETURN_ROLE_CONFLICT len control agent msg)
      | _ =>
          (* the expected role attribute is only looked for to log its absence *)
          _ ← stun_message_find64 req
            (if control then STUN_ATTRIBUTE_ICE_CONTROLLED else STUN_ATTRIBUTE_ICE_CONTROLLING);
          reply_response agent req msg buf src srclen control STUN_USAGE_ICE_RETURN_SUCCESS
            compatibility
      end.

Definition stun_usage_ice_conncheck_priority (msg : StunMessage) : outcome Z :=
  r ← stun_message_find32 msg STUN_ATTRIBUTE_PRIORITY;
  mret (match r with (STUN_MESSAGE_RETURN_SUCCESS, Some v) => v | _ => 0 end).

Definition stun_usage_ice_conncheck_use_candidate (msg : StunMessage) : outcome bool :=
  r ← stun_message_find_flag msg STUN_ATTRIBUTE_USE_CANDIDATE;
  mret (bool_decide (r = STUN_MESSAGE_RETURN_SUCCESS)).

End ice.
