(* ===== verification/StunIceFacts.v ===== *)
(** * What the connectivity checks guarantee

    Role conflicts are resolved the same way on both sides, and the reply to a
    check carries the address the check came from. *)

From S2P Require Import Prelude Bytes StunCrc32 StunMessage StunFacts StunBuild.
From S2P Require Import StunRoundtrip StunHmac StunAgent StunAgentTrans StunAuth StunIce.

Section facts.
Context {crypto : Crypto}.
Context (PACKAGE_STRING : bytes).

(** ** Roles *)

Lemma reply_response_control agent req msg buf src srclen control ret compat r :
  reply_response PACKAGE_STRING agent req msg buf src srclen control ret compat = Done r →
  ir_control r = control.
Proof.
  unfold reply_response. intros H. inv_bind.
  repeat (first [break_in H | progress inv_bind]); by subst.
Qed.

(** The role attribute of [msg] names the role [control] with tie-breaker [q]. *)
Definition claims_role (msg : StunMessage) (control : bool) (q : Z) : Prop :=
  stun_message_find64 msg
    (if control then STUN_ATTRIBUTE_ICE_CONTROLLING else STUN_ATTRIBUTE_ICE_CONTROLLED)
  = Done (STUN_MESSAGE_RETURN_SUCCESS, Some q).

Definition binding_request (msg : StunMessage) : Prop :=
  stun_message_get_class msg = Done STUN_REQUEST ∧ stun_message_get_method msg = Done STUN_BINDING.

(** The role an agent has after it replied to a check claiming its own role. *)
Lemma create_reply_role agent req msg buf src srclen control tie compat q r :
  binding_request req → claims_role req control q →
  stun_usage_ice_conncheck_create_reply PACKAGE_STRING agent req msg buf src srclen control tie compat
    = Done r →
  ir_control r = (if switches control tie q then negb control else control).
Proof.
  intros [Hc Hm] Hq. unfold stun_usage_ice_conncheck_create_reply, claims_role in *.
  rewrite Hc, bind_Done, bool_decide_true by done. cbn [negb].
  rewrite Hm, bind_Done. change (STUN_BINDING =? STUN_BINDING) with true. cbn [negb].
  rewrite Hq, bind_Done. destruct (switches control tie q).
  - intros H. by apply reply_response_control in H.
  - intros H. inv_bind. repeat break_in H. by subst.
Qed.

(** Role conflicts are resolved.  Two agents that both believe to have the
    role [control] and check each other with different tie-breakers end up in
    opposite roles once both have replied, and the one with the larger
    tie-breaker is the controlling one. *)
Theorem ice_conflict_resolved (agentA agentB : StunAgent) (reqA reqB msgA msgB : StunMessage)
    (bufA bufB : bytes) (srcA srcB : sockaddr_storage) (lenA lenB tieA tieB : Z) (control : bool)
    (compat : StunUsageIceCompatibility) (rA rB : ice_reply)
    (HbA : binding_request reqA) (HbB : binding_request reqB)
    (HqA : claims_role reqA control tieA) (HqB : claims_role reqB control tieB)
    (Hties : tieA ≠ tieB)
    (HrA : stun_usage_ice_conncheck_create_reply PACKAGE_STRING agentA reqB msgA bufA srcB lenB
             control tieA compat = Done rA)
    (HrB : stun_usage_ice_conncheck_create_reply PACKAGE_STRING agentB reqA msgB bufB srcA lenA
             control tieB compat = Done rB) :
  ir_control rA = negb (ir_control rB) ∧ ir_control rA = (tieB <? tieA).
Proof.
  apply (create_reply_role _ _ _ _ _ _ _ _ _ tieB) in HrA; [| done | done].
  apply (create_reply_role _ _ _ _ _ _ _ _ _ tieA) in HrB; [| done | done].
  rewrite HrA, HrB. unfold switches. destruct control; zcase; cbn; try done; lia.
Qed.

Lemma oc2007_other m t :
  t ≠ STUN_ATTRIBUTE_REALM → t ≠ STUN_ATTRIBUTE_NONCE → oc2007_type m t = t.
Proof.
  intros H1 H2. unfold oc2007_type. apply Z.eqb_neq in H1, H2. rewrite H1, H2.
  by destruct (is_oc2007 m).
Qed.

(** Without a claim to the own role the reply is made as it is. *)
Lemma create_reply_no_conflict agent req ty id l rest msg buf src srclen control tie compat :
  binding_request req → msg_repr req ty id l rest →
  attr_find l (if control : bool then STUN_ATTRIBUTE_ICE_CONTROLLING
               else STUN_ATTRIBUTE_ICE_CONTROLLED) = None →
  stun_usage_ice_conncheck_create_reply PACKAGE_STRING agent req msg buf src srclen control tie compat
  = reply_response PACKAGE_STRING agent req msg buf src srclen control STUN_USAGE_ICE_RETURN_SUCCESS compat.
Proof.
  intros [Hc Hm] Hr Hno. unfold stun_usage_ice_conncheck_create_reply.
  rewrite Hc, bind_Done, bool_decide_true by done. cbn [negb].
  rewrite Hm, bind_Done. change (STUN_BINDING =? STUN_BINDING) with true. cbn [negb].
  rewrite !(stun_message_find64_spec _ _ _ _ _ Hr), bind_Done. unfold value.
  rewrite (oc2007_other req (if control then STUN_ATTRIBUTE_ICE_CONTROLLING
    else STUN_ATTRIBUTE_ICE_CONTROLLED)) by (by destruct control).
  by rewrite Hno.
Qed.

(** ** A small reply buffer *)

(** With a reply buffer shorter than a STUN header,
    [stun_usage_ice_conncheck_create_reply] runs into its assertion "shouldn't
    be reached" on every binding request without a role conflict: the label
    [failure] is reached with [val] still SUCCESS, instead of returning the
    documented MEMORY_ERROR. *)
Theorem reply_small_buffer_asserts (agent : StunAgent) (req msg : StunMessage)
    (ty id : bytes) (l : list attr) (rest buf : bytes)
    (src : sockaddr_storage) (srclen tie : Z) (control : bool) (compat : StunUsageIceCompatibility)
    (Hb : binding_request req) (Hr : msg_repr req ty id l rest)
    (Hno : attr_find l (if control then STUN_ATTRIBUTE_ICE_CONTROLLING
                        else STUN_ATTRIBUTE_ICE_CONTROLLED) = None)
    (Hsmall : zlen buf < 20) :
  stun_usage_ice_conncheck_create_reply PACKAGE_STRING agent req msg buf src srclen control tie compat
    = Ub.
Proof.
  destruct Hb as [Hc Hm]. rewrite (create_reply_no_conflict _ _ ty id l rest) by done.
  unfold reply_response, stun_agent_init_response. rewrite Hc, bind_Done, bool_decide_true by done.
  cbn [negb]. rewrite (stun_message_id_spec _ _ _ _ _ Hr), bind_Done, Hm, bind_Done.
  unfold stun_message_init, msg_buffer_len, answer_msg. cbn [msg_buffer].
  by destruct (Z.ltb_spec (zlen buf) STUN_MESSAGE_HEADER_LENGTH); [| clia].
Qed.

(** ** The reply carries the source address *)

(** No SOFTWARE attribute is added. *)
Definition no_software (agent : StunAgent) : Prop :=
  compat_cookie (agent_compat agent) &&
  (bool_decide (software_attribute agent ≠ None) || usage agent STUN_AGENT_USAGE_ADD_SOFTWARE) = false.

(** The response to [req] starts as an empty message with its identifier. *)
Lemma init_response_spec agent req msg ty id l rest h buf :
  binding_request req → msg_repr req ty id l rest → no_software agent →
  zlen h = 20 → bytes_ok buf →
  ∃ b, stun_agent_init_response PACKAGE_STRING agent msg (h ++ buf) req
      = Done ((answer_msg agent (h ++ buf) req) <| msg_buffer := b |>, true) ∧
    msg_repr ((answer_msg agent (h ++ buf) req) <| msg_buffer := b |>)
      (type_bytes STUN_RESPONSE STUN_BINDING) id [] buf.
Proof.
  intros [Hc Hm] Hr Hsw Hh Hbuf. destruct (repr_id _ _ _ _ _ Hr) as [Hid Hidok].
  unfold stun_agent_init_response. rewrite Hc, bind_Done, bool_decide_true by done. cbn [negb].
  rewrite (stun_message_id_spec _ _ _ _ _ Hr), bind_Done, Hm, bind_Done.
  destruct (stun_message_init_succeeds (answer_msg agent (h ++ buf) req) STUN_RESPONSE STUN_BINDING
    id h buf) as (b & -> & Hb); [done.. |].
  rewrite bind_Done. unfold put_software. rewrite Hsw. exists b. by split.
Qed.

(** The attributes of a reply: the masked source, and the username echoed. *)
Definition reply_attrs (aligned : bool) (id : bytes) (src : sockaddr_storage) (u : option bytes)
  : list attr :=
  Attr STUN_ATTRIBUTE_XOR_MAPPED_ADDRESS (addr_val (xor_addr STUN_MAGIC_COOKIE id src)) [] ::
  match u with
  | Some u => [new_attr aligned (id_cookie id) STUN_ATTRIBUTE_USERNAME u]
  | None => []
  end.

Definition user_room (aligned : bool) (u : option bytes) : Z :=
  match u with Some u => attr_room aligned (zlen u) | None => 0 end.

Lemma user_room_range aligned u : 0 ≤ user_room aligned u ≤ zlen (default [] u) + 7.
Proof.
  destruct u as [v |]; cbn [user_room default]; [| done].
  pose proof (stun_padding_range (zlen v)). pose proof (zlen_nonneg v).
  unfold attr_room. destruct aligned; cbn; lia.
Qed.

Lemma reply_attributes_spec req ty id l rest msg ty' src srclen buf :
  msg_repr req ty id l rest → msg_repr msg ty' id [] buf →
  id_cookie id = true → sockaddr_ok src → sizeof_addr src ≤ srclen →
  let u := attr_find l STUN_ATTRIBUTE_USERNAME in
  let room := user_room (aligned_of msg) u in
  24 + room ≤ zlen buf → 44 + room < 2 ^ 16 →
  ∃ b rest', reply_attributes msg req src srclen STUN_USAGE_ICE_COMPATIBILITY_RFC5245
      = Done (msg <| msg_buffer := b |>, STUN_MESSAGE_RETURN_SUCCESS) ∧
    zlen buf - 24 - room ≤ zlen rest' ∧
    zlen (attrs_enc (reply_attrs (aligned_of msg) id src u)) ≤ 24 + room ∧
    msg_repr (msg <| msg_buffer := b |>) ty' id (reply_attrs (aligned_of msg) id src u) rest'.
Proof.
  intros Hr Hm Hck Hsrc Hlen u room Hroom Hfit.
  assert (∀ m t, t ≠ STUN_ATTRIBUTE_REALM → t ≠ STUN_ATTRIBUTE_NONCE → oc2007_type m t = t) as Hoc.
  { intros m t H1 H2. unfold oc2007_type. apply Z.eqb_neq in H1, H2. rewrite H1, H2.
    by destruct (is_oc2007 m). }
  assert (0 ≤ room) as Hroom0 by apply user_room_range.
  assert (8 ≤ zlen (addr_val src) ≤ 20 ∧ zlen (addr_val src) mod 4 = 0) as [Hval Hmod].
  { split; [| by apply addr_val_ok].
    destruct src as [| ? ? a ? |]; cbn [addr_val sockaddr_ok] in *; [done | | done].
    destruct Hsrc as (_ & Ha & _). slia. }
  unfold reply_attributes, reply_address.
  rewrite !(bool_decide_false (STUN_USAGE_ICE_COMPATIBILITY_RFC5245 = _)) by done.
  rewrite (stun_message_has_cookie_spec _ _ _ _ _ Hm), bind_Done, Hck. cbn [negb andb].
  change (stun_message_append_xor_addr msg) with
    (λ t a n, stun_message_append_xor_addr_full msg t a n STUN_MAGIC_COOKIE). cbv beta.
  destruct (append_xor_addr_spec msg ty' id [] buf STUN_ATTRIBUTE_XOR_MAPPED_ADDRESS src srclen
    STUN_MAGIC_COOKIE) as (b1 & r1 & -> & Hz1 & Hr1); [| done | done |].
  { split; [done | by rewrite Hoc | | | by constructor];
      rewrite attr_room_mod4_eq by done; change (zlen (attrs_enc [])) with 0; lia. }
  rewrite bind_Done, bool_decide_true by done. cbn [negb]. rewrite Hoc in Hr1 by done.
  destruct (stun_message_find_spec req ty id l rest STUN_ATTRIBUTE_USERNAME Hr) as (r & -> & Hf).
  rewrite bind_Done. rewrite Hoc in Hf by done. fold u in Hf.
  assert (zlen (addr_val (xor_addr STUN_MAGIC_COOKIE id src)) = zlen (addr_val src)) as Hxl
    by (destruct (repr_id _ _ _ _ _ Hr); by apply xor_addr_spec).
  set (xa := Attr STUN_ATTRIBUTE_XOR_MAPPED_ADDRESS (addr_val (xor_addr STUN_MAGIC_COOKIE id src)) [])
    in *.
  assert (zlen (attr_enc xa) = 4 + zlen (addr_val src)) as Hl1.
  { unfold attr_enc. rewrite !zlen_app. cbn [xa at_type at_val at_pad]. rewrite Hxl. slia. }
  cbn [app] in Hr1.
  assert (zlen (attrs_enc [xa]) = 4 + zlen (addr_val src)) as Hl1'
    by (rewrite attrs_enc_cons, zlen_app, Hl1; change (zlen (attrs_enc [])) with 0; lia).
  destruct r as [[p n] |], u as [v |] eqn:Eu; try done.
  - destruct Hf as (-> & x & y & E & <-).
    rewrite E, (slice_app x v y), bind_Done by done.
    destruct (append_bytes_succeeds (msg <| msg_buffer := b1 |>) ty' id _ r1 STUN_ATTRIBUTE_USERNAME v Hr1)
      as (b2 & r2 & -> & Hz2 & Hr2).
    { by rewrite Hoc. }
    { eapply attr_find_bytes_ok; [apply Hr | exact Eu]. }
    { cbn [user_room] in room. change (aligned_of (msg <| msg_buffer := b1 |>)) with (aligned_of msg). lia. }
    { cbn [user_room] in room. change (aligned_of (msg <| msg_buffer := b1 |>)) with (aligned_of msg). lia. }
    change (aligned_of (msg <| msg_buffer := b1 |>)) with (aligned_of msg) in *.
    rewrite Hoc in Hr2 by done.
    rewrite bind_Done, bool_decide_true by done. cbn [negb].
    exists b2, r2. split_and!; [done | unfold room, user_room; lia | | exact Hr2].
    unfold reply_attrs. fold xa.
    rewrite attrs_enc_cons, zlen_app, Hl1, attrs_enc_cons, zlen_app, new_attr_room.
    change (zlen (attrs_enc [])) with 0. unfold room, user_room. lia.
  - rewrite bind_Done, bool_decide_true by done. cbn [negb].
    exists b1, r1. split_and!; [done | lia | | exact Hr1].
    unfold reply_attrs. fold xa. lia.
Qed.

Lemma response_type m x :
  msg_buffer m = type_bytes STUN_RESPONSE STUN_BINDING ++ x →
  stun_message_get_class m = Done STUN_RESPONSE ∧ stun_message_get_method m = Done STUN_BINDING.
Proof. intros E. unfold stun_message_get_class, stun_message_get_method. by rewrite E. Qed.

Lemma process_reply m id tl rest src x n :
  msg_repr m (type_bytes STUN_RESPONSE STUN_BINDING) id
    (Attr STUN_ATTRIBUTE_XOR_MAPPED_ADDRESS (addr_val (xor_addr STUN_MAGIC_COOKIE id src)) [] :: tl) rest →
  sockaddr_ok src → sizeof_addr src ≤ n ≤ sizeof_sockaddr_storage →
  stun_usage_ice_conncheck_process m x n STUN_USAGE_ICE_COMPATIBILITY_RFC5245
    = Done (STUN_USAGE_ICE_RETURN_SUCCESS, addr_norm src, sizeof_addr src).
Proof.
  intros Hr Hsrc Hn. destruct (repr_buffer _ _ _ _ _ Hr) as (y & E & _).
  destruct (response_type _ _ E) as [Hc Hm].
  unfold stun_usage_ice_conncheck_process. rewrite Hm, bind_Done.
  change (STUN_BINDING =? STUN_BINDING) with true. cbn [negb]. rewrite Hc, bind_Done.
  unfold conncheck_mapped.
  rewrite (bool_decide_false (STUN_USAGE_ICE_COMPATIBILITY_RFC5245 = _)) by done.
  change (stun_message_find_xor_addr m) with
    (λ t a n, stun_message_find_xor_addr_full m t a n STUN_MAGIC_COOKIE). cbv beta.
  destruct (find_xor_addr_spec _ _ _ _ _ STUN_ATTRIBUTE_XOR_MAPPED_ADDRESS src x n
    STUN_MAGIC_COOKIE Hr) as [_ ->]; [| done | done |].
  - unfold value. by rewrite oc2007_other.
  - by rewrite bind_Done, bool_decide_true.
Qed.

(** C36: the reply to a connectivity check tells the peer the address the check
    came from.  In the RFC5245 mode, for an agent with neither long-term
    credentials nor SOFTWARE, a well formed binding request with the RFC 5389
    cookie, a username of at most 512 octets and no role conflict, and a buffer
    of at least 620 octets, [stun_usage_ice_conncheck_create_reply] succeeds
    and keeps the role; the reply has the identifier of the request, and
    [stun_usage_ice_conncheck_process] on it yields the source address. *)
Theorem reply_maps_source (agent : StunAgent) (req msg : StunMessage) (ty id : bytes)
    (l : list attr) (rest h buf : bytes) (src x : sockaddr_storage) (srclen n tie : Z)
    (control : bool)
    (Hb : binding_request req) (Hr : msg_repr req ty id l rest)
    (Hno : attr_find l (if control then STUN_ATTRIBUTE_ICE_CONTROLLING
                        else STUN_ATTRIBUTE_ICE_CONTROLLED) = None)
    (Hck : id_cookie id = true) (Hsw : no_software agent)
    (Hlt : usage agent STUN_AGENT_USAGE_LONG_TERM_CREDENTIALS = false)
    (Hh : zlen h = 20) (Hbuf : bytes_ok buf)
    (Hsrc : sockaddr_ok src) (Hlen : sizeof_addr src ≤ srclen)
    (Hn : sizeof_addr src ≤ n ≤ sizeof_sockaddr_storage)
    (Huser : zlen (default [] (attr_find l STUN_ATTRIBUTE_USERNAME)) ≤ 512)
    (Hroom : 600 ≤ zlen buf) :
  ∃ r, stun_usage_ice_conncheck_create_reply PACKAGE_STRING agent req msg (h ++ buf) src srclen
      control tie STUN_USAGE_ICE_COMPATIBILITY_RFC5245 = Done r ∧
    ir_return r = STUN_USAGE_ICE_RETURN_SUCCESS ∧ ir_control r = control ∧
    0 < ir_plen r ≤ zlen (msg_buffer (ir_msg r)) ∧
    stun_message_id (ir_msg r) = Done id ∧
    stun_usage_ice_conncheck_process (ir_msg r) x n STUN_USAGE_ICE_COMPATIBILITY_RFC5245
      = Done (STUN_USAGE_ICE_RETURN_SUCCESS, addr_norm src, sizeof_addr src).
Proof.
  rewrite (create_reply_no_conflict agent req ty id l rest) by done. unfold reply_response.
  destruct (init_response_spec agent req msg ty id l rest h buf) as (b0 & -> & Hr0); [done.. |].
  rewrite bind_Done. cbn [negb]. set (m0 := _ <| msg_buffer := b0 |>) in *.
  destruct (reply_attributes_spec req ty id l rest m0 _ src srclen buf Hr Hr0)
    as (b1 & r1 & -> & Hz & Hl & Hr1); [done | done | done | | |].
  1, 2: pose proof (user_room_range (aligned_of m0) (attr_find l STUN_ATTRIBUTE_USERNAME)); lia.
  pose proof (user_room_range (aligned_of m0) (attr_find l STUN_ATTRIBUTE_USERNAME)).
  rewrite bind_Done, bool_decide_true by done. cbn [negb].
  destruct (repr_buffer _ _ _ _ _ Hr1) as (y & Ey & _).
  destruct (response_type _ _ Ey) as [Hc1 _].
  destruct (finish_message_spec agent (m0 <| msg_buffer := b1 |>) _ id _ r1 None STUN_RESPONSE Hr1 Hc1)
    as (a' & b2 & r2 & -> & Hr2); [done | done | lia | lia |].
  set (fin := finished _ _ _ _ _) in *. rewrite bind_Done. pose proof (zlen_nonneg (attrs_enc fin)).
  destruct (Z.eqb_spec (20 + zlen (attrs_enc fin)) 0); [lia |].
  eexists; split; [done |]. cbn [ir_return ir_control ir_plen ir_msg]. split_and!; try done.
  - lia.
  - destruct Hr2 as [[E Ht Hi _ _ _] _]. cbn [msg_buffer set_field set_msg_buffer set_msg_key] in E |- *.
    rewrite E, !zlen_app, zlen_hdr_enc by done.
    pose proof (zlen_nonneg r2). lia.
  - by eapply stun_message_id_spec.
  - assert (∃ tl, fin = Attr STUN_ATTRIBUTE_XOR_MAPPED_ADDRESS
      (addr_val (xor_addr STUN_MAGIC_COOKIE id src)) [] :: tl) as [tl Efin].
    { unfold fin, finished, reply_attrs.
      destruct (effective_key _ _); eexists; reflexivity. }
    rewrite Efin in Hr2. eapply process_reply; [exact Hr2 | done..].
Qed.
End facts.

(** ** Witnesses *)

(** A check claiming the controlling role with tie-breaker [tie]. *)
Definition demo_check_attrs (tie : Z) : list attr :=
  [Attr STUN_ATTRIBUTE_ICE_CONTROLLING (be 8 tie) []; Attr STUN_ATTRIBUTE_USERNAME demo_user [0x20]].
Definition demo_check (tie : Z) : StunMessage :=
  {| msg_agent := Some (agent_conf demo_agent);
     msg_buffer := hdr_enc [0; 1] demo_tid 20 ++ attrs_enc (demo_check_attrs tie);
     msg_key := Some demo_key; msg_long_term_key := repeat 0 16; msg_long_term_valid := false |}.
Definition demo_src : sockaddr_storage := sockaddr_in (htons 5000) (htonl 0xc0000201).

Lemma demo_check_attrs_ok tie : Forall (attr_ok true) (demo_check_attrs tie).
Proof.
  unfold demo_check_attrs. rewrite !Forall_cons. split_and!; [| split; by_compute | constructor].
  split; cbn [at_type at_val at_pad]; rewrite ?zlen_be; [by_compute.. | | by_compute].
  apply bytes_ok_app. split; [apply be_ok | constructor].
Qed.

Lemma zlen_demo_check tie : zlen (attrs_enc (demo_check_attrs tie)) = 20.
Proof.
  unfold demo_check_attrs. rewrite !attrs_enc_cons, !zlen_app. unfold attr_enc.
  cbn [at_type at_val at_pad]. by rewrite !zlen_app, !zlen_be.
Qed.

Lemma demo_check_repr tie : msg_repr (demo_check tie) [0; 1] demo_tid (demo_check_attrs tie) [].
Proof.
  split; [split | by rewrite zlen_demo_check].
  - cbn [msg_buffer demo_check]. by rewrite zlen_demo_check, app_nil_r.
  - done.
  - done.
  - by_compute.
  - apply demo_check_attrs_ok.
  - by rewrite zlen_demo_check.
Qed.

Lemma ice_conflict_resolved_witness :
  ∃ rA rB,
    @stun_usage_ice_conncheck_create_reply toy_crypto [0] demo_agent (demo_check 7) demo_empty
      (repeat 0 200) demo_src 16 true 5 STUN_USAGE_ICE_COMPATIBILITY_RFC5245 = Done rA ∧
    @stun_usage_ice_conncheck_create_reply toy_crypto [0] demo_agent (demo_check 5) demo_empty
      (repeat 0 200) demo_src 16 true 7 STUN_USAGE_ICE_COMPATIBILITY_RFC5245 = Done rB ∧
    ir_control rA = negb (ir_control rB) ∧ ir_control rA = (7 <? 5).
Proof.
  assert (∃ r, @stun_usage_ice_conncheck_create_reply toy_crypto [0] demo_agent (demo_check 7) demo_empty
      (repeat 0 200) demo_src 16 true 5 STUN_USAGE_ICE_COMPATIBILITY_RFC5245 = Done r) as [rA HA]
    by (eexists; vm_compute; reflexivity).
  assert (∃ r, @stun_usage_ice_conncheck_create_reply toy_crypto [0] demo_agent (demo_check 5) demo_empty
      (repeat 0 200) demo_src 16 true 7 STUN_USAGE_ICE_COMPATIBILITY_RFC5245 = Done r) as [rB HB]
    by (eexists; vm_compute; reflexivity).
  exists rA, rB. split; [exact HA |]. split; [exact HB |].
  refine (@ice_conflict_resolved toy_crypto [0] demo_agent demo_agent (demo_check 5) (demo_check 7)
    demo_empty demo_empty (repeat 0 200) (repeat 0 200) demo_src demo_src 16 16 5 7 true
    STUN_USAGE_ICE_COMPATIBILITY_RFC5245 rA rB _ _ _ _ _ HA HB);
    first [split; reflexivity | vm_compute; reflexivity | discriminate].
Defined.

Lemma reply_small_buffer_asserts_witness :
  @stun_usage_ice_conncheck_create_reply toy_crypto [0] demo_agent (demo_check 7) demo_empty
    (repeat 0 16) demo_src 16 false 5 STUN_USAGE_ICE_COMPATIBILITY_RFC5245 = Ub.
Proof.
  apply (@reply_small_buffer_asserts toy_crypto [0] demo_agent (demo_check 7) demo_empty [0; 1] demo_tid
    (demo_check_attrs 7) [] (repeat 0 16) demo_src 16 5 false STUN_USAGE_ICE_COMPATIBILITY_RFC5245);
    [split; reflexivity | apply demo_check_repr | reflexivity | by_compute].
Defined.

Lemma reply_maps_source_witness :
  ∃ r, @stun_usage_ice_conncheck_create_reply toy_crypto [0] demo_agent (demo_check 7) demo_empty
      (repeat 0 20 ++ repeat 0 600) demo_src 16 false 5 STUN_USAGE_ICE_COMPATIBILITY_RFC5245 = Done r ∧
    ir_return r = STUN_USAGE_ICE_RETURN_SUCCESS ∧ ir_control r = false ∧
    0 < ir_plen r ≤ zlen (msg_buffer (ir_msg r)) ∧
    stun_message_id (ir_msg r) = Done demo_tid ∧
    stun_usage_ice_conncheck_process (ir_msg r) (sockaddr_other 0) 128
        STUN_USAGE_ICE_COMPATIBILITY_RFC5245
      = Done (STUN_USAGE_ICE_RETURN_SUCCESS, demo_src, 16).
Proof.
  apply (@reply_maps_source toy_crypto [0] demo_agent (demo_check 7) demo_empty [0; 1] demo_tid
    (demo_check_attrs 7) [] (repeat 0 20) (repeat 0 600) demo_src (sockaddr_other 0) 16 128 5 false);
    first [apply demo_check_repr | split; reflexivity | reflexivity | by_compute | split; by_compute].
Defined.
