(* ===== verification/StunTurn.v ===== *)
(** * TURN requests and responses (stun/usages/turn.c) *)

From S2P Require Import Prelude Bytes StunCrc32 StunMessage StunHmac StunAgent StunIce.

Inductive StunUsageTurnRequestPorts :=
| STUN_USAGE_TURN_REQUEST_PORT_NORMAL
| STUN_USAGE_TURN_REQUEST_PORT_EVEN
| STUN_USAGE_TURN_REQUEST_PORT_EVEN_AND_RESERVE.
#[export] Instance StunUsageTurnRequestPorts_eq_dec : EqDecision StunUsageTurnRequestPorts.
Proof. solve_decision. Defined.

Inductive StunUsageTurnCompatibility :=
| STUN_USAGE_TURN_COMPATIBILITY_DRAFT9
| STUN_USAGE_TURN_COMPATIBILITY_GOOGLE
| STUN_USAGE_TURN_COMPATIBILITY_MSN
| STUN_USAGE_TURN_COMPATIBILITY_OC2007
| STUN_USAGE_TURN_COMPATIBILITY_RFC5766.
#[export] Instance StunUsageTurnCompatibility_eq_dec : EqDecision StunUsageTurnCompatibility.
Proof. solve_decision. Defined.

Inductive StunUsageTurnReturn :=
| STUN_USAGE_TURN_RETURN_RELAY_SUCCESS
| STUN_USAGE_TURN_RETURN_MAPPED_SUCCESS
| STUN_USAGE_TURN_RETURN_ERROR
| STUN_USAGE_TURN_RETURN_INVALID
| STUN_USAGE_TURN_RETURN_ALTERNATE_SERVER.
#[export] Instance StunUsageTurnReturn_eq_dec : EqDecision StunUsageTurnReturn.
Proof. solve_decision. Defined.

Definition REQUESTED_PROPS_E : Z := 0x80000000.
Definition REQUESTED_PROPS_R : Z := 0x40000000.
Definition STUN_ATTRIBUTE_MSN_MAPPED_ADDRESS : Z := 0x8000.
Definition TURN_REQUESTED_TRANSPORT_UDP : Z := 0x11000000.

Definition STUN_REFRESH : Z := 0x004.
Definition STUN_CREATEPERMISSION : Z := 0x008.
Definition STUN_ATTRIBUTE_LIFETIME : Z := 0x000D.
Definition STUN_ATTRIBUTE_MS_ALTERNATE_SERVER : Z := 0x000E.
Definition STUN_ATTRIBUTE_MAGIC_COOKIE : Z := 0x000F.
Definition STUN_ATTRIBUTE_BANDWIDTH : Z := 0x0010.
Definition STUN_ATTRIBUTE_XOR_PEER_ADDRESS : Z := 0x0012.
Definition STUN_ATTRIBUTE_RELAY_ADDRESS : Z := 0x0016.
Definition STUN_ATTRIBUTE_REQUESTED_PORT_PROPS : Z := 0x0018.
Definition STUN_ATTRIBUTE_REQUESTED_TRANSPORT : Z := 0x0019.
Definition STUN_ATTRIBUTE_RESERVATION_TOKEN : Z := 0x0022.
Definition STUN_ATTRIBUTE_MS_VERSION : Z := 0x8008.
Definition STUN_ATTRIBUTE_MS_XOR_MAPPED_ADDRESS : Z := 0x8020.
Definition STUN_ATTRIBUTE_ALTERNATE_SERVER : Z := 0x8023.

(** [DRAFT9 || RFC5766] *)
Definition turn_rfc (c : StunUsageTurnCompatibility) : bool :=
  bool_decide (c = STUN_USAGE_TURN_COMPATIBILITY_DRAFT9) ||
  bool_decide (c = STUN_USAGE_TURN_COMPATIBILITY_RFC5766).

(** ** Requests *)

Definition builder : Type := StunMessage → outcome (StunMessage * bool).

(** Append when the condition holds, then go on. *)
Definition append_when (b : bool) (app : StunMessage → outcome (StunMessage * StunMessageReturn))
    (next : builder) : builder := λ msg, if b then append_step msg app next else next msg.
Definition append_some (type : Z) (data : option bytes) (next : builder) : builder := λ msg,
  match data with
  | Some d => append_step msg (λ m, stun_message_append_bytes m type d) next
  | None => next msg
  end.
Definition append_done : builder := λ msg, mret (msg, true).

(** The value of an attribute of a received message. *)
Definition find_bytes (msg : StunMessage) (type : Z) : outcome (option bytes) :=
  r ← stun_message_find msg type;
  match r with
  | Some (p, len) => d ← slice (msg_buffer msg) p len; mret (Some d)
  | None => mret None
  end.

(** The realm and the nonce of the previous response, echoed. *)
Definition append_realm_nonce (previous_response : option StunMessage) (next : builder) : builder := λ msg,
  match previous_response with
  | None => next msg
  | Some prev =>
      realm ← find_bytes prev STUN_ATTRIBUTE_REALM;
      append_some STUN_ATTRIBUTE_REALM realm (λ msg,
        nonce ← find_bytes prev STUN_ATTRIBUTE_NONCE;
        append_some STUN_ATTRIBUTE_NONCE nonce next msg) msg
  end.

Definition append_reservation (previous_response : option StunMessage) (next : builder) : builder := λ msg,
  match previous_response with
  | None => next msg
  | Some prev =>
      r ← stun_message_find64 prev STUN_ATTRIBUTE_RESERVATION_TOKEN;
      match r with
      | (STUN_MESSAGE_RETURN_SUCCESS, Some v) =>
          append_step msg (λ m, stun_message_append64 m STUN_ATTRIBUTE_RESERVATION_TOKEN v) next
      | _ => next msg
      end
  end.

(** [username], if it is to be sent. *)
Definition turn_username (agent : StunAgent) (username : option bytes) (authenticated : bool)
  : option bytes :=
  match username with
  | Some u =>
      if (0 <? zlen u) && (usage agent STUN_AGENT_USAGE_SHORT_TERM_CREDENTIALS || authenticated)
      then Some u else None
  | None => None
  end.

(** [req] of [stun_usage_turn_create]. *)
Definition requested_props (request_props : StunUsageTurnRequestPorts) : Z :=
  match request_props with
  | STUN_USAGE_TURN_REQUEST_PORT_NORMAL => 0
  | STUN_USAGE_TURN_REQUEST_PORT_EVEN_AND_RESERVE => Z.lor REQUESTED_PROPS_R REQUESTED_PROPS_E
  | STUN_USAGE_TURN_REQUEST_PORT_EVEN => REQUESTED_PROPS_E
  end.

(** The result of appending MS-VERSION is not looked at. *)
Definition append_ms_version (compatibility : StunUsageTurnCompatibility) (next : builder) : builder := λ msg,
  if bool_decide (compatibility = STUN_USAGE_TURN_COMPATIBILITY_OC2007) then
    '(msg, _) ← stun_message_append32 msg STUN_ATTRIBUTE_MS_VERSION 1;
    next msg
  else next msg.

Definition turn_attributes (agent : StunAgent) (previous_response : option StunMessage)
    (request_props : StunUsageTurnRequestPorts) (bandwidth lifetime : Z) (username : option bytes)
    (compatibility : StunUsageTurnCompatibility) : builder :=
  let rfc := turn_rfc compatibility in
  append_when rfc (λ m, stun_message_append32 m STUN_ATTRIBUTE_REQUESTED_TRANSPORT TURN_REQUESTED_TRANSPORT_UDP)
  (append_when (rfc && (0 <=? bandwidth)) (λ m, stun_message_append32 m STUN_ATTRIBUTE_BANDWIDTH bandwidth)
  (append_when (negb rfc) (λ m, stun_message_append32 m STUN_ATTRIBUTE_MAGIC_COOKIE TURN_MAGIC_COOKIE)
  (append_ms_version compatibility
  (append_when (0 <=? lifetime) (λ m, stun_message_append32 m STUN_ATTRIBUTE_LIFETIME lifetime)
  (append_when (rfc && negb (bool_decide (request_props = STUN_USAGE_TURN_REQUEST_PORT_NORMAL)))
     (λ m, stun_message_append32 m STUN_ATTRIBUTE_REQUESTED_PORT_PROPS (requested_props request_props))
  (append_realm_nonce previous_response
  (append_reservation previous_response
  (append_some STUN_ATTRIBUTE_USERNAME
     (turn_username agent username (bool_decide (is_Some previous_response)))
  append_done)))))))).

Section turn.
Context {crypto : Crypto}.
Context (PACKAGE_STRING : bytes).

(** [return 0] at the first attribute that does not fit. *)
Definition finish_built (agent : StunAgent) (password : option bytes) (r : StunMessage * bool)
  : outcome (Z * StunAgent * StunMessage) :=
  let '(msg, ok) := r in
  if ok then stun_agent_finish_message agent msg password else mret (0, agent, msg).

Definition stun_usage_turn_create (agent : StunAgent) (msg : StunMessage) (buffer transid : bytes)
    (previous_response : option StunMessage) (request_props : StunUsageTurnRequestPorts)
    (bandwidth lifetime : Z) (username password : option bytes)
    (compatibility : StunUsageTurnCompatibility) : outcome (Z * StunAgent * StunMessage) :=
  '(msg, _) ← stun_agent_init_request PACKAGE_STRING agent msg buffer STUN_ALLOCATE transid;
  r ← turn_attributes agent previous_response request_props bandwidth lifetime username
    compatibility msg;
  finish_built agent password r.

Definition refresh_attributes (agent : StunAgent) (previous_response : option StunMessage)
    (lifetime : Z) (username : option bytes) : builder :=
  append_when (0 <=? lifetime) (λ m, stun_message_append32 m STUN_ATTRIBUTE_LIFETIME lifetime)
  (append_realm_nonce previous_response
  (append_some STUN_ATTRIBUTE_USERNAME
     (turn_username agent username (bool_decide (is_Some previous_response)))
  append_done)).

Definition stun_usage_turn_create_refresh (agent : StunAgent) (msg : StunMessage)
    (buffer transid : bytes) (previous_response : option StunMessage) (lifetime : Z)
    (username password : option bytes) (compatibility : StunUsageTurnCompatibility)
  : outcome (Z * StunAgent * StunMessage) :=
  if negb (turn_rfc compatibility) then
    stun_usage_turn_create agent msg buffer transid previous_response
      STUN_USAGE_TURN_REQUEST_PORT_NORMAL 0 lifetime username password compatibility
  else
    '(msg, _) ← stun_agent_init_request PACKAGE_STRING agent msg buffer STUN_REFRESH transid;
    r ← refresh_attributes agent previous_response lifetime username msg;
    finish_built agent password r.

(** The username of a permission may be empty. *)
Definition permission_username (agent : StunAgent) (username realm nonce : option bytes)
  : option bytes :=
  if usage agent STUN_AGENT_USAGE_SHORT_TERM_CREDENTIALS ||
     (bool_decide (is_Some nonce) && bool_decide (is_Some realm))
  then username else None.

Definition permission_attributes (agent : StunAgent) (username realm nonce : option bytes)
    (peer : sockaddr_storage) : builder :=
  append_when true (λ m, stun_message_append_xor_addr m STUN_ATTRIBUTE_XOR_PEER_ADDRESS peer
                           sizeof_sockaddr_storage)
  (append_some STUN_ATTRIBUTE_NONCE nonce
  (append_some STUN_ATTRIBUTE_REALM realm
  (append_some STUN_ATTRIBUTE_USERNAME (permission_username agent username realm nonce)
  append_done))).

Definition stun_usage_turn_create_permission (agent : StunAgent) (msg : StunMessage)
    (buffer transid : bytes) (username password realm nonce : option bytes)
    (peer : option sockaddr_storage) (compatibility : StunUsageTurnCompatibility)
  : outcome (Z * StunAgent * StunMessage) :=
  match peer with
  | None => mret (0, agent, msg)
  | Some peer =>
      '(msg, _) ← stun_agent_init_request PACKAGE_STRING agent msg buffer STUN_CREATEPERMISSION transid;
      r ← permission_attributes agent username realm nonce peer msg;
      finish_built agent password r
  end.
End turn.

(** ** Responses *)

(** An address argument: the storage and its length, in and out. *)
Definition addr_arg : Type := sockaddr_storage * Z.

(** What the arguments of [stun_usage_turn_process] point to, with the value it
    returns. *)
Record turn_result := {
  tr_return : StunUsageTurnReturn;
  tr_relay : addr_arg;
  tr_addr : addr_arg;
  tr_alternate : option addr_arg;
  tr_bandwidth : Z;
  tr_lifetime : Z
}.

Definition success (val : StunMessageReturn) : bool := bool_decide (val = STUN_MESSAGE_RETURN_SUCCESS).

Definition find_addr (msg : StunMessage) (type : Z) (a : addr_arg) : outcome (bool * addr_arg) :=
  '(val, addr, len) ← stun_message_find_addr msg type a.1 a.2;
  mret (success val, (addr, len)).
Definition find_xor_addr (msg : StunMessage) (type : Z) (a : addr_arg) : outcome (bool * addr_arg) :=
  '(val, addr, len) ← stun_message_find_xor_addr msg type a.1 a.2;
  mret (success val, (addr, len)).
Definition find_xor_addr_full (msg : StunMessage) (type : Z) (a : addr_arg) (cookie : Z)
  : outcome (bool * addr_arg) :=
  '(val, addr, len) ← stun_message_find_xor_addr_full msg type a.1 a.2 cookie;
  mret (success val, (addr, len)).

(** [stun_message_find32 (msg, type, &v)], the value returned ignored. *)
Definition find32_into (msg : StunMessage) (type v : Z) : outcome Z :=
  r ← stun_message_find32 msg type;
  mret (match r with (STUN_MESSAGE_RETURN_SUCCESS, Some v') => v' | _ => v end).

(** The case STUN_ERROR. *)
Definition turn_error (msg : StunMessage) (relay addr : addr_arg) (alternate : option addr_arg)
    (bandwidth lifetime : Z) (compatibility : StunUsageTurnCompatibility) : outcome turn_result :=
  let res ret alternate := mret (Build_turn_result ret relay addr alternate bandwidth lifetime) in
  e ← stun_message_find_error msg;
  match e with
  | (STUN_MESSAGE_RETURN_SUCCESS, Some code) =>
      alternate ←
        (match alternate with
         | Some a =>
             if bool_decide (compatibility = STUN_USAGE_TURN_COMPATIBILITY_OC2007) then
               '(_, a) ← find_addr msg STUN_ATTRIBUTE_MS_ALTERNATE_SERVER a;
               mret (Some a)
             else mret (Some a)
         | None => mret None
         end);
      if code / 100 =? 3 then
        match alternate with
        | Some a =>
            '(ok, a) ← find_addr msg STUN_ATTRIBUTE_ALTERNATE_SERVER a;
            if (ok : bool) then res STUN_USAGE_TURN_RETURN_ALTERNATE_SERVER (Some a)
            else res STUN_USAGE_TURN_RETURN_ERROR (Some a)
        | None =>
            has ← stun_message_has_attribute msg STUN_ATTRIBUTE_ALTERNATE_SERVER;
            if (has : bool) then res STUN_USAGE_TURN_RETURN_ALTERNATE_SERVER None
            else res STUN_USAGE_TURN_RETURN_ERROR None
        end
      else res STUN_USAGE_TURN_RETURN_ERROR alternate
  | _ => res STUN_USAGE_TURN_RETURN_INVALID alternate
  end.

(** The mapped address, whose absence is not an error, and the relayed one:
    whether each was found, and the two arguments. *)
Definition turn_addresses (msg : StunMessage) (relay addr : addr_arg)
    (compatibility : StunUsageTurnCompatibility) : outcome (bool * addr_arg * bool * addr_arg) :=
  match compatibility with
  | STUN_USAGE_TURN_COMPATIBILITY_DRAFT9 | STUN_USAGE_TURN_COMPATIBILITY_RFC5766 =>
      '(mapped, addr) ← find_xor_addr msg STUN_ATTRIBUTE_XOR_MAPPED_ADDRESS addr;
      '(relayed, relay) ← find_xor_addr msg STUN_ATTRIBUTE_RELAY_ADDRESS relay;
      mret (mapped, addr, relayed, relay)
  | STUN_USAGE_TURN_COMPATIBILITY_GOOGLE =>
      '(relayed, relay) ← find_addr msg STUN_ATTRIBUTE_MAPPED_ADDRESS relay;
      mret (false, addr, relayed, relay)
  | STUN_USAGE_TURN_COMPATIBILITY_MSN =>
      '(mapped, addr) ← find_addr msg STUN_ATTRIBUTE_MSN_MAPPED_ADDRESS addr;
      '(relayed, relay) ← find_addr msg STUN_ATTRIBUTE_MAPPED_ADDRESS relay;
      mret (mapped, addr, relayed, relay)
  | STUN_USAGE_TURN_COMPATIBILITY_OC2007 =>
      transid ← stun_message_id msg;
      '(mapped, addr) ← find_xor_addr_full msg STUN_ATTRIBUTE_MS_XOR_MAPPED_ADDRESS addr
        (htonl (of_le (take 4 transid)));
      '(relayed, relay) ← find_addr msg STUN_ATTRIBUTE_MAPPED_ADDRESS relay;
      mret (mapped, addr, relayed, relay)
  end.

Definition stun_usage_turn_process (msg : StunMessage) (relay addr : addr_arg)
    (alternate : option addr_arg) (bandwidth lifetime : Z)
    (compatibility : StunUsageTurnCompatibility) : outcome turn_result :=
  let res ret relay addr bandwidth lifetime :=
    mret (Build_turn_result ret relay addr alternate bandwidth lifetime) in
  method ← stun_message_get_method msg;
  if negb (method =? STUN_ALLOCATE) then res STUN_USAGE_TURN_RETURN_INVALID relay addr bandwidth lifetime
  else
    c ← stun_message_get_class msg;
    match c with
    | STUN_REQUEST | STUN_INDICATION => res STUN_USAGE_TURN_RETURN_INVALID relay addr bandwidth lifetime
    | STUN_ERROR => turn_error msg relay addr alternate bandwidth lifetime compatibility
    | STUN_RESPONSE =>
        '(mapped, addr, relayed, relay) ← turn_addresses msg relay addr compatibility;
        if (relayed : bool) then
          lifetime ← find32_into msg STUN_ATTRIBUTE_LIFETIME lifetime;
          bandwidth ← find32_into msg STUN_ATTRIBUTE_BANDWIDTH bandwidth;
          res (if mapped : bool then STUN_USAGE_TURN_RETURN_MAPPED_SUCCESS
               else STUN_USAGE_TURN_RETURN_RELAY_SUCCESS) relay addr bandwidth lifetime
        else res STUN_USAGE_TURN_RETURN_ERROR relay addr bandwidth lifetime
    end.

(** The value returned, and the lifetime. *)
Definition stun_usage_turn_refresh_process (msg : StunMessage) (lifetime : Z)
    (compatibility : StunUsageTurnCompatibility) : outcome (StunUsageTurnReturn * Z) :=
  method ← stun_message_get_method msg;
  if negb (method =? (if turn_rfc compatibility then STUN_REFRESH else STUN_ALLOCATE))
  then mret (STUN_USAGE_TURN_RETURN_INVALID, lifetime)
  else
    c ← stun_message_get_class msg;
    match c with
    | STUN_REQUEST | STUN_INDICATION => mret (STUN_USAGE_TURN_RETURN_INVALID, lifetime)
    | STUN_ERROR =>
        e ← stun_message_find_error msg;
        match e with
        | (STUN_MESSAGE_RETURN_SUCCESS, Some _) => mret (STUN_USAGE_TURN_RETURN_ERROR, lifetime)
        | _ => mret (STUN_USAGE_TURN_RETURN_INVALID, lifetime)
        end
    | STUN_RESPONSE =>
        lifetime ← find32_into msg STUN_ATTRIBUTE_LIFETIME lifetime;
        mret (STUN_USAGE_TURN_RETURN_RELAY_SUCCESS, lifetime)
    end.
