(* ===== verification/StunTurnFacts.v ===== *)
(** * TURN requests and responses: what they carry

    A builder on an abstract message: which attributes it appends ([emits]); the
    attributes of every TURN request; what a response means. *)

From S2P Require Import Prelude Bytes StunCrc32 StunMessage StunFacts StunBuild StunRoundtrip StunHmac StunAgent StunAgentTrans StunAuth StunIce StunIceFacts StunTurn.

(** ** Builders *)

(** Attributes to be appended to a message, by type and value. *)
Definition attr_data : Type := Z * bytes.
Definition opt_data (type : Z) (v : option bytes) : list attr_data :=
  match v with Some d => [(type, d)] | None => [] end.
Definition when_data (b : bool) (type : Z) (d : bytes) : list attr_data :=
  if b then [(type, d)] else [].

Section emits.
Context (m0 : StunMessage) (id : bytes).

Definition data_attr (x : attr_data) : attr :=
  new_attr (aligned_of m0) (id_cookie id) (oc2007_type m0 x.1) x.2.
Definition data_room (ads : list attr_data) : Z :=
  foldr (λ x n, attr_room (aligned_of m0) (zlen x.2) + n) 0 ads.
Definition data_ok (x : attr_data) : Prop := is_u16 (oc2007_type m0 x.1) ∧ bytes_ok x.2.

(** [b] appends [ads] to every message over [m0] that has room for them. *)
Definition emits (b : builder) (ads : list attr_data) : Prop :=
  ∀ buf ty l rest, msg_repr (m0 <| msg_buffer := buf |>) ty id l rest →
    data_room ads ≤ zlen rest → 20 + zlen (attrs_enc l) + data_room ads < 2 ^ 16 →
    ∃ buf' rest', b (m0 <| msg_buffer := buf |>) = Done (m0 <| msg_buffer := buf' |>, true) ∧
      zlen rest = data_room ads + zlen rest' ∧
      msg_repr (m0 <| msg_buffer := buf' |>) ty id (l ++ map data_attr ads) rest'.

Lemma attr_room_pos aligned n : 0 ≤ n → 4 ≤ attr_room aligned n.
Proof. intros. unfold attr_room. pose proof (stun_padding_range n). destruct aligned; lia. Qed.

Lemma data_room_nonneg ads : 0 ≤ data_room ads.
Proof.
  unfold data_room. induction ads as [| [t d] ads IH]; cbn [foldr fst snd]; [done |].
  pose proof (attr_room_pos (aligned_of m0) (zlen d) (zlen_nonneg d)). lia.
Qed.
Lemma data_room_cons type d ads :
  data_room ((type, d) :: ads) = attr_room (aligned_of m0) (zlen d) + data_room ads.
Proof. done. Qed.

Lemma emits_done : emits append_done [].
Proof.
  intros buf ty l rest Hr _ _. exists buf, rest. cbn [map]. by rewrite app_nil_r.
Qed.

(** What appends the octets [d]. *)
Definition appends (app : StunMessage → outcome (StunMessage * StunMessageReturn)) (type : Z) (d : bytes) : Prop :=
  ∀ buf ty l rest, msg_repr (m0 <| msg_buffer := buf |>) ty id l rest →
    app (m0 <| msg_buffer := buf |>) = stun_message_append_bytes (m0 <| msg_buffer := buf |>) type d.

(** One attribute more, whatever appends its octets. *)
Lemma emits_app app (next : builder) type d ads :
  appends app type d →
  data_ok (type, d) → emits next ads →
  emits (λ msg, append_step msg app next) ((type, d) :: ads).
Proof.
  intros Happ [Ht Hd] Hn buf ty l rest Hr Hroom Hfit. rewrite data_room_cons in *.
  pose proof (data_room_nonneg ads) as H0. unfold append_step.
  rewrite (Happ _ _ _ _ Hr).
  destruct (append_bytes_succeeds (m0 <| msg_buffer := buf |>) ty id l rest type d Hr Ht Hd)
    as (b1 & r1 & -> & Hz1 & Hr1); change (aligned_of (m0 <| msg_buffer := buf |>)) with (aligned_of m0) in *;
    [lia | lia |].
  rewrite bind_Done, bool_decide_true by done.
  set (a := new_attr _ _ _ _) in Hr1.
  assert (Ha : zlen (attrs_enc (l ++ [a])) = zlen (attrs_enc l) + attr_room (aligned_of m0) (zlen d)).
  { rewrite attrs_enc_snoc, zlen_app. unfold a. by rewrite new_attr_room. }
  destruct (Hn b1 ty (l ++ [a]) r1 Hr1) as (b2 & r2 & E & Hz2 & Hr2); [lia | lia |].
  exists b2, r2. split; [exact E |].
  cbn [map].
  split; [lia |]. by rewrite <- app_assoc in Hr2.
Qed.

Lemma emits_when b app (next : builder) type d ads :
  appends app type d →
  data_ok (type, d) → emits next ads →
  emits (append_when b app next) (when_data b type d ++ ads).
Proof. intros Ha Hd Hn. destruct b; [by apply emits_app | exact Hn]. Qed.

Lemma emits_some (next : builder) type v ads :
  (∀ d, v = Some d → data_ok (type, d)) → emits next ads →
  emits (append_some type v next) (opt_data type v ++ ads).
Proof. intros Hd Hn. destruct v as [d |]; [by apply emits_app; [| apply Hd |] | exact Hn]. Qed.

(** The result of the append ignored. *)
Lemma emits_force (next : builder) type d ads :
  data_ok (type, d) → emits next ads →
  emits (λ msg, '(msg, _) ← stun_message_append_bytes msg type d; next msg) ((type, d) :: ads).
Proof.
  intros Hd Hn buf ty l rest Hr Hroom Hfit.
  destruct (emits_app (λ m, stun_message_append_bytes m type d) append_done type d []
    (λ _ _ _ _ _, eq_refl) Hd emits_done buf ty l rest Hr) as (b1 & r1 & E & Hz1 & Hr1).
  1, 2: rewrite !data_room_cons in *; change (data_room []) with 0; pose proof (data_room_nonneg ads); lia.
  unfold append_step in E. apply bind_inv in E as ([m1 v] & E1 & E2). rewrite E1, bind_Done.
  destruct (bool_decide _); [| done]. injection E2 as ->.
  rewrite !data_room_cons in *. change (data_room []) with 0 in *.
  destruct (Hn b1 ty _ r1 Hr1) as (b2 & r2 & E & Hz2 & Hr2).
  - lia.
  - cbn [map]. rewrite attrs_enc_snoc, zlen_app. unfold data_attr. rewrite new_attr_room by done.
    cbn [fst snd]. lia.
  - exists b2, r2. split; [exact E |]. split; [lia |]. by rewrite <- app_assoc in Hr2.
Qed.
End emits.

Lemma oc2007_u16 m t : is_u16 t → is_u16 (oc2007_type m t).
Proof. unfold oc2007_type. intros. repeat case_match; done. Qed.

Lemma find_bytes_spec msg ty id l rest type :
  msg_repr msg ty id l rest → find_bytes msg type = Done (value msg l type).
Proof.
  intros Hr. unfold find_bytes, value.
  destruct (stun_message_find_spec msg ty id l rest type Hr) as (r & -> & Hf). rewrite bind_Done.
  destruct r as [[o n] |], (attr_find _ _) as [v |]; try done.
  destruct Hf as (-> & a & c & -> & <-). by rewrite (slice_app a v c).
Qed.

(** A previous response with the attributes it holds. *)
Definition previous : Type := option (StunMessage * list attr).
Definition previous_ok (prevs : previous) : Prop :=
  match prevs with
  | Some (prev, pl) => ∃ ty id rest, msg_repr prev ty id pl rest
  | None => True
  end.
Definition prev_value (prevs : previous) (type : Z) : option bytes :=
  match prevs with Some (prev, pl) => value prev pl type | None => None end.

Lemma prev_value_ok prevs type d : previous_ok prevs → prev_value prevs type = Some d → bytes_ok d.
Proof.
  destruct prevs as [[prev pl] |]; [| done]. intros (ty & id & rest & [[] _]) E.
  by eapply attr_find_bytes_ok.
Qed.

(** ** The attributes of each request *)

Definition realm_nonce_data (prevs : previous) : list attr_data :=
  opt_data STUN_ATTRIBUTE_REALM (prev_value prevs STUN_ATTRIBUTE_REALM) ++
  opt_data STUN_ATTRIBUTE_NONCE (prev_value prevs STUN_ATTRIBUTE_NONCE).

(** A reservation token has 8 octets. *)
Definition reservation (prevs : previous) : option bytes :=
  match prev_value prevs STUN_ATTRIBUTE_RESERVATION_TOKEN with
  | Some v => if zlen v =? 8 then Some v else None
  | None => None
  end.

Definition allocate_data (agent : StunAgent) (prevs : previous)
    (request_props : StunUsageTurnRequestPorts) (bandwidth lifetime : Z) (username : option bytes)
    (c : StunUsageTurnCompatibility) : list attr_data :=
  when_data (turn_rfc c) STUN_ATTRIBUTE_REQUESTED_TRANSPORT [17; 0; 0; 0] ++
  when_data (turn_rfc c && (0 <=? bandwidth)) STUN_ATTRIBUTE_BANDWIDTH (be 4 bandwidth) ++
  when_data (negb (turn_rfc c)) STUN_ATTRIBUTE_MAGIC_COOKIE (be 4 TURN_MAGIC_COOKIE) ++
  when_data (bool_decide (c = STUN_USAGE_TURN_COMPATIBILITY_OC2007)) STUN_ATTRIBUTE_MS_VERSION [0; 0; 0; 1] ++
  when_data (0 <=? lifetime) STUN_ATTRIBUTE_LIFETIME (be 4 lifetime) ++
  when_data (turn_rfc c && negb (bool_decide (request_props = STUN_USAGE_TURN_REQUEST_PORT_NORMAL)))
    STUN_ATTRIBUTE_REQUESTED_PORT_PROPS (be 4 (requested_props request_props)) ++
  realm_nonce_data prevs ++
  opt_data STUN_ATTRIBUTE_RESERVATION_TOKEN (reservation prevs) ++
  opt_data STUN_ATTRIBUTE_USERNAME (turn_username agent username (bool_decide (is_Some prevs))) ++ [].

Section requests.
Context (m0 : StunMessage) (id : bytes).

Lemma data_ok_be t v : is_u16 t → data_ok m0 (t, be 4 v).
Proof. split; [by apply oc2007_u16 | apply be_ok]. Qed.

Lemma emits_when32 b t v (next : builder) ads :
  is_u16 t → emits m0 id next ads →
  emits m0 id (append_when b (λ m, stun_message_append32 m t v) next) (when_data b t (be 4 v) ++ ads).
Proof.
  intros Ht Hn. apply emits_when; [| by apply data_ok_be | done].
  intros buf ty l rest _. unfold stun_message_append32. by rewrite le_htonl.
Qed.

Lemma emits_realm_nonce prevs (next : builder) ads :
  previous_ok prevs → emits m0 id next ads →
  emits m0 id (append_realm_nonce (fst <$> prevs) next) (realm_nonce_data prevs ++ ads).
Proof.
  intros Hp Hn. unfold realm_nonce_data. rewrite <- app_assoc.
  assert (Hok : ∀ t d, is_u16 t → prev_value prevs t = Some d → data_ok m0 (t, d)).
  { intros t d Ht Hd. split; [by apply oc2007_u16 | by eapply prev_value_ok]. }
  destruct prevs as [[prev pl] |]; [| exact Hn].
  destruct Hp as (ty & pid & rest & Hr). cbn [fmap option_fmap option_map fst append_realm_nonce].
  intros buf ty' l rest' Hm. cbn [append_realm_nonce]. rewrite (find_bytes_spec _ _ _ _ _ STUN_ATTRIBUTE_REALM Hr), bind_Done.
  revert buf ty' l rest' Hm. apply (emits_some m0 id); [intros d; by apply Hok |].
  intros buf ty' l rest' Hm. cbv beta. rewrite (find_bytes_spec _ _ _ _ _ _ Hr), bind_Done.
  revert buf ty' l rest' Hm. apply (emits_some m0 id); [intros d; by apply Hok | done].
Qed.
End requests.

Lemma emits_reservation (m0 : StunMessage) (id : bytes) prevs (next : builder) ads :
  previous_ok prevs → emits m0 id next ads →
  emits m0 id (append_reservation (fst <$> prevs) next)
    (opt_data STUN_ATTRIBUTE_RESERVATION_TOKEN (reservation prevs) ++ ads).
Proof.
  intros Hp Hn. destruct prevs as [[prev pl] |] eqn:Ep; [| exact Hn]. unfold reservation.
  assert (Hv : ∀ d, prev_value prevs STUN_ATTRIBUTE_RESERVATION_TOKEN = Some d → bytes_ok d)
    by (intros d; apply prev_value_ok; by rewrite Ep).
  rewrite Ep in Hv. destruct Hp as (ty & pid & rest & Hr).
  cbn [fmap option_fmap option_map fst append_reservation prev_value] in *.
  pose proof (stun_message_find64_spec _ _ _ _ _ Hr STUN_ATTRIBUTE_RESERVATION_TOKEN) as E.
  destruct (value prev pl STUN_ATTRIBUTE_RESERVATION_TOKEN) as [v |] eqn:Ev.
  - destruct (Z.eqb_spec (zlen v) 8) as [H8 | H8].
    + cbn [opt_data app]. intros buf ty' l rest' Hm. cbn [append_reservation]. rewrite E, bind_Done. revert buf ty' l rest' Hm.
      specialize (Hv v eq_refl). apply emits_app; [| by split; [apply oc2007_u16 |] | done].
      intros buf ty' l rest' _. unfold stun_message_append64. f_equal. rewrite !le_htonl, Z.shiftr_div_pow2 by lia.
      rewrite <- be8_split.
      * rewrite <- (be_of_be v Hv) at 2. f_equal. unfold zlen in H8. lia.
      * pose proof (of_be_range v Hv) as Hrange. by rewrite H8 in Hrange.
    + intros buf ty' l rest' Hm. cbn [append_reservation]. rewrite E, bind_Done. revert buf ty' l rest' Hm. exact Hn.
  - intros buf ty' l rest' Hm. cbn [append_reservation]. rewrite E, bind_Done. revert buf ty' l rest' Hm. exact Hn.
Qed.

Lemma turn_username_ok agent u b d : turn_username agent u b = Some d → u = Some d.
Proof. unfold turn_username. intros H. repeat case_match; congruence. Qed.

(** Octets the user gives. *)
Definition octets_ok (u : option bytes) : Prop := match u with Some d => bytes_ok d | None => True end.

Lemma emits_username (m0 : StunMessage) (id : bytes) agent u b :
  octets_ok u →
  emits m0 id (append_some STUN_ATTRIBUTE_USERNAME (turn_username agent u b) append_done)
    (opt_data STUN_ATTRIBUTE_USERNAME (turn_username agent u b) ++ []).
Proof.
  intros Hu. apply emits_some; [| apply emits_done]. intros d ->%turn_username_ok.
  split; [by apply oc2007_u16 | done].
Qed.

Lemma is_some_fst (prevs : previous) : bool_decide (is_Some (fst <$> prevs)) = bool_decide (is_Some prevs).
Proof. by destruct prevs. Qed.

Lemma emits_ms_version (m0 : StunMessage) (id : bytes) c (next : builder) ads :
  emits m0 id next ads →
  emits m0 id (append_ms_version c next)
    (when_data (bool_decide (c = STUN_USAGE_TURN_COMPATIBILITY_OC2007)) STUN_ATTRIBUTE_MS_VERSION
       [0; 0; 0; 1] ++ ads).
Proof.
  intros Hn. unfold append_ms_version. case_bool_decide; [| exact Hn].
  apply (emits_force m0 id next STUN_ATTRIBUTE_MS_VERSION (be 4 1)); [by apply data_ok_be | done].
Qed.

Lemma emits_allocate (m0 : StunMessage) (id : bytes) agent prevs props bandwidth lifetime u c :
  previous_ok prevs → octets_ok u →
  emits m0 id (turn_attributes agent (fst <$> prevs) props bandwidth lifetime u c)
    (allocate_data agent prevs props bandwidth lifetime u c).
Proof.
  intros Hp Hu. unfold turn_attributes, allocate_data.
  apply (emits_when32 m0 id _ _ TURN_REQUESTED_TRANSPORT_UDP); [done |].
  apply emits_when32; [done |]. apply emits_when32; [done |].
  apply emits_ms_version. apply emits_when32; [done |]. apply emits_when32; [done |].
  apply emits_realm_nonce; [done |]. apply emits_reservation; [done |].
  rewrite is_some_fst. by apply emits_username.
Qed.

Definition refresh_data (agent : StunAgent) (prevs : previous) (lifetime : Z) (username : option bytes)
  : list attr_data :=
  when_data (0 <=? lifetime) STUN_ATTRIBUTE_LIFETIME (be 4 lifetime) ++
  realm_nonce_data prevs ++
  opt_data STUN_ATTRIBUTE_USERNAME (turn_username agent username (bool_decide (is_Some prevs))) ++ [].

Lemma emits_refresh (m0 : StunMessage) (id : bytes) agent prevs lifetime u :
  previous_ok prevs → octets_ok u →
  emits m0 id (refresh_attributes agent (fst <$> prevs) lifetime u) (refresh_data agent prevs lifetime u).
Proof.
  intros Hp Hu. apply emits_when32; [done |]. apply emits_realm_nonce; [done |].
  rewrite is_some_fst. by apply emits_username.
Qed.

(** The peer of a permission is masked with the cookie. *)
Definition permission_data (id : bytes) (agent : StunAgent) (username realm nonce : option bytes)
    (peer : sockaddr_storage) : list attr_data :=
  when_data true STUN_ATTRIBUTE_XOR_PEER_ADDRESS (addr_val (xor_addr STUN_MAGIC_COOKIE id peer)) ++
  opt_data STUN_ATTRIBUTE_NONCE nonce ++
  opt_data STUN_ATTRIBUTE_REALM realm ++
  opt_data STUN_ATTRIBUTE_USERNAME (permission_username agent username realm nonce) ++ [].

Lemma appends_xor_addr (m0 : StunMessage) (id : bytes) type addr n :
  sockaddr_ok addr → sizeof_addr addr ≤ n →
  appends m0 id (λ m, stun_message_append_xor_addr m type addr n) type
    (addr_val (xor_addr STUN_MAGIC_COOKIE id addr)).
Proof.
  intros Hok Hn buf ty l rest Hr. pose proof (stun_message_id_spec _ _ _ _ _ Hr) as Eid.
  destruct (repr_id _ _ _ _ _ Hr) as [Hid Hidok]. pose proof (sizeof_addr_range addr).
  destruct (xor_addr_spec STUN_MAGIC_COOKIE id addr Hid Hidok Hok) as (Hxok & Hxs & _).
  unfold stun_message_append_xor_addr.
  set (len := if sizeof_sockaddr_storage <? n then sizeof_sockaddr_storage else n).
  assert (sizeof_addr addr ≤ len) by (unfold len, sizeof_sockaddr_storage in *; zcase; lia).
  unfold assert_. replace (2 <=? len) with true by lia. rewrite bind_Done.
  rewrite (stun_xor_address_spec _ id) by done. rewrite bind_Done, bool_decide_true by done.
  by rewrite append_addr_bytes by (done || lia).
Qed.

Lemma emits_permission (m0 : StunMessage) (id : bytes) agent u realm nonce peer :
  sockaddr_ok peer → octets_ok u → octets_ok realm → octets_ok nonce → zlen id = 16 → bytes_ok id →
  emits m0 id (permission_attributes agent u realm nonce peer)
    (permission_data id agent u realm nonce peer).
Proof.
  intros Hp Hu Hre Hno Hid Hidok. unfold permission_attributes, permission_data.
  destruct (xor_addr_spec STUN_MAGIC_COOKIE id peer Hid Hidok Hp) as (Hxok & _).
  assert (Hd : ∀ t v, is_u16 t → octets_ok v → ∀ d, v = Some d → data_ok m0 (t, d)).
  { intros t v Ht Hv d ->. split; [by apply oc2007_u16 | done]. }
  apply emits_when; [| split; [by apply oc2007_u16 | by apply addr_val_ok] |].
  { apply appends_xor_addr; [done |]. pose proof (sizeof_addr_range peer). unfold sizeof_sockaddr_storage. lia. }
  apply emits_some; [by apply Hd |]. apply emits_some; [by apply Hd |].
  apply emits_some; [| apply emits_done]. apply Hd; [done |]. unfold permission_username. by case_match.
Qed.

(** ** The requests *)

(** The identifier of a request: the first four octets are the cookie in the
    modes that have one. *)
Definition request_id (agent : StunAgent) (transid : bytes) : bytes :=
  if compat_cookie (agent_compat agent) then be 4 STUN_MAGIC_COOKIE ++ drop 4 transid else transid.

Section create.
Context {crypto : Crypto}.
Context (PACKAGE_STRING : bytes).
Context (agent : StunAgent) (msg : StunMessage) (h buf transid : bytes).
Context (Hsw : no_software agent) (Hh : zlen h = 20) (Hbuf : bytes_ok buf).
Context (Hid : zlen transid = 16) (Hidok : bytes_ok transid).

Let m0 : StunMessage := fresh_msg agent msg (h ++ buf).
Let id : bytes := request_id agent transid.

Lemma request_id_ok : zlen id = 16 ∧ bytes_ok id.
Proof.
  unfold id, request_id. destruct (compat_cookie _); [| done].
  destruct (split_at transid 4) as (x & y & E & Hx); [lia |]. rewrite E in *.
  apply bytes_ok_app in Hidok as [_ Hy]. rewrite zlen_app in Hid.
  rewrite drop_app_length' by (unfold zlen in Hx; lia).
  split; [rewrite zlen_app, zlen_be4; lia |]. apply bytes_ok_app. split; [apply be_ok | done].
Qed.

Lemma init_request_spec m :
  ∃ b, stun_agent_init_request PACKAGE_STRING agent msg (h ++ buf) m transid
      = Done (m0 <| msg_buffer := b |>, true) ∧
    msg_repr (m0 <| msg_buffer := b |>) (type_bytes STUN_REQUEST m) id [] buf.
Proof.
  unfold stun_agent_init_request. fold m0.
  destruct (stun_message_init_succeeds m0 STUN_REQUEST m transid h buf eq_refl Hh Hbuf Hid Hidok)
    as (b & -> & Hr). rewrite bind_Done. unfold put_cookie, put_software, id, request_id.
  destruct request_id_ok as [Hid' Hidok']. unfold id, request_id in Hid', Hidok'.
  unfold no_software in Hsw.
  destruct (compat_cookie (agent_compat agent)) eqn:Ec.
  - destruct Hr as [[E Ht Hi Hok Hat Hfits] Hlt]. cbn [msg_buffer set_field set_msg_buffer] in *.
    destruct (split_at transid 4) as (x & y & Et & Hx); [lia |].
    assert (Hdrop : drop 4 transid = y) by (rewrite Et; apply drop_app_length'; unfold zlen in Hx; lia).
    rewrite Hdrop in *. rewrite E. unfold hdr_enc. rewrite Et, <- !app_assoc, !(app_assoc (type_bytes _ _)).
    rewrite (store_app _ x (y ++ attrs_enc [] ++ buf)), bind_Done by done.
    rewrite Hsw, bind_Done. eexists. split; [done |].
    split; [| done]. cbn [msg_buffer set_field set_msg_buffer].
    split; [| done | done | | done | done].
    + unfold hdr_enc. by rewrite <- !app_assoc.
    + rewrite !bytes_ok_app in *. tauto.
  - rewrite bind_Done. cbn [andb] in *. rewrite bind_Done. by exists b.
Qed.

(** The message handed to [stun_agent_finish_message] is a request of method
    [m] that holds [ads]. *)
Definition carries (m : Z) (ads : list attr_data) (password : option bytes)
    (r : outcome (Z * StunAgent * StunMessage)) : Prop :=
  ∃ b rest, r = stun_agent_finish_message agent (m0 <| msg_buffer := b |>) password ∧
    zlen buf = data_room m0 ads + zlen rest ∧
    msg_repr (m0 <| msg_buffer := b |>) (type_bytes STUN_REQUEST m) id (map (data_attr m0 id) ads) rest.

(** There is room for [ads]. *)
Definition fits (ads : list attr_data) : Prop :=
  data_room m0 ads ≤ zlen buf ∧ 20 + data_room m0 ads < 2 ^ 16.

Lemma carries_built m ads (b : builder) password :
  emits m0 id b ads → fits ads →
  carries m ads password
    ('(msg, _) ← stun_agent_init_request PACKAGE_STRING agent msg (h ++ buf) m transid;
     r ← b msg;
     finish_built agent password r).
Proof.
  intros He [Hroom Hfit]. destruct (init_request_spec m) as (b0 & -> & Hr). rewrite bind_Done.
  destruct (He b0 _ _ _ Hr Hroom) as (b1 & rest & -> & Hz & Hr1); [by change (zlen (attrs_enc [])) with 0; lia |].
  rewrite bind_Done. by exists b1, rest.
Qed.

(** C33: a TURN client sends the attributes the mode asks for, in order.  Given a
    buffer with room, an allocation carries the transport (or the magic cookie of
    the older modes), bandwidth, lifetime and port properties as asked for, the
    realm, the nonce and the reservation token of the previous response and the
    user name; a refresh the lifetime, realm, nonce and user name; a permission
    the peer masked with the cookie, nonce, realm and user name; and nothing else
    before the integrity and the fingerprint that end the message.  The user name
    is sent only under short-term credentials or after a challenge. *)
Theorem turn_requests_carry (prevs : previous) (props : StunUsageTurnRequestPorts)
    (bandwidth lifetime : Z) (username password realm nonce : option bytes) (peer : sockaddr_storage)
    (c : StunUsageTurnCompatibility)
    (Hprev : previous_ok prevs) (Hu : octets_ok username) (Hre : octets_ok realm) (Hno : octets_ok nonce)
    (Hpeer : sockaddr_ok peer) :
  (fits (allocate_data agent prevs props bandwidth lifetime username c) →
   carries STUN_ALLOCATE (allocate_data agent prevs props bandwidth lifetime username c) password
     (stun_usage_turn_create PACKAGE_STRING agent msg (h ++ buf) transid (fst <$> prevs) props
        bandwidth lifetime username password c)) ∧
  (turn_rfc c = true → fits (refresh_data agent prevs lifetime username) →
   carries STUN_REFRESH (refresh_data agent prevs lifetime username) password
     (stun_usage_turn_create_refresh PACKAGE_STRING agent msg (h ++ buf) transid (fst <$> prevs)
        lifetime username password c)) ∧
  (fits (permission_data id agent username realm nonce peer) →
   carries STUN_CREATEPERMISSION (permission_data id agent username realm nonce peer) password
     (stun_usage_turn_create_permission PACKAGE_STRING agent msg (h ++ buf) transid username password
        realm nonce (Some peer) c)).
Proof.
  destruct request_id_ok as [Hi Hiok]. split_and!.
  - intros Hf. apply carries_built; [by apply emits_allocate | done].
  - intros Hrfc Hf. unfold stun_usage_turn_create_refresh. rewrite Hrfc.
    apply carries_built; [by apply emits_refresh | done].
  - intros Hf. apply carries_built; [by apply emits_permission | done].
Qed.
End create.

(** ** What an attribute of a response means *)

(** The address in the value of an address attribute. *)
Definition addr_value (v : bytes) : option sockaddr_storage :=
  match v with
  | _ :: family :: p0 :: p1 :: a =>
      if (family =? 1) && (zlen a =? 4) then Some (sockaddr_in (of_le [p0; p1]) (of_le a))
      else if (family =? 2) && (zlen a =? 16) then Some (sockaddr_in6 (of_le [p0; p1]) 0 a 0)
      else None
  | _ => None
  end.

(** The address, where [n] octets are enough for it. *)
Definition decoded (v : option bytes) (n : Z) : option sockaddr_storage :=
  a ← v ≫= addr_value;
  if sizeof_addr a <=? n then Some a else None.

(** The code in the value of an ERROR-CODE. *)
Definition error_value (v : bytes) : option Z :=
  match v with
  | _ :: _ :: b2 :: number :: _ =>
      let class := Z.land b2 0x7 in
      if (class <? 3) || (6 <? class) || (99 <? number) then None else Some (class * 100 + number)
  | _ => None
  end.

Lemma at_least_4 (v : bytes) : 4 ≤ zlen v → ∃ a b c d w, v = a :: b :: c :: d :: w.
Proof.
  destruct v as [| a [| b [| c [| d w]]]]; unfold zlen; cbn [length]; try lia. intros _. by eexists _, _, _, _, _.
Qed.

Section responses.
Context (msg : StunMessage) (ty id : bytes) (l : list attr) (rest : bytes).
Context (Hr : msg_repr msg ty id l rest).

(** The length a search for an address leaves. *)
Definition len_after (v : option bytes) (n : Z) : Z :=
  match v with
  | Some (_ :: family :: _ :: _ :: _) =>
      if family =? 1 then sizeof_sockaddr_in else if family =? 2 then sizeof_sockaddr_in6 else n
  | _ => n
  end.

(** What a search for an address leaves: the address when there is one, and
    in any case a length that is no larger than the storage. *)
Definition addr_found (o : option sockaddr_storage) (a' : addr_arg) : Prop :=
  a'.2 ≤ sizeof_sockaddr_storage ∧ match o with Some addr => a' = (addr, sizeof_addr addr) | None => True end.

Lemma find_addr_raw type x n :
  n ≤ sizeof_sockaddr_storage →
  ∃ val a', stun_message_find_addr msg type x n = Done (val, a'.1, a'.2) ∧
    success val = bool_decide (is_Some (decoded (value msg l type) n)) ∧ addr_found (decoded (value msg l type) n) a' ∧ a'.2 = len_after (value msg l type) n.
Proof.
  intros Hn. unfold stun_message_find_addr, decoded.
  destruct (stun_message_find_spec msg ty id l rest type Hr) as (r & -> & Hf). rewrite bind_Done.
  unfold StunFacts.value, len_after. destruct r as [[o k] |], (attr_find _ _) as [v |]; try done.
  2:{ eexists _, (x, n). by repeat split. }
  destruct Hf as (-> & a & c & E & <-). cbn [mbind option_bind].
  destruct (Z.ltb_spec (zlen v) 4) as [Hs | Hs].
  { eexists _, (x, n). split; [done |].
    destruct v as [| ? [| ? [| ? [| ? v]]]]; try (by repeat split). unfold zlen in Hs. cbn [length] in Hs. lia. }
  destruct (at_least_4 v Hs) as (b0 & f & p0 & p1 & w & ->). cbn [addr_value].
  assert (Hget : getb (msg_buffer msg) (zlen a + 1) = Done f).
  { rewrite E. change ((b0 :: f :: p0 :: p1 :: w) ++ c) with ([b0] ++ f :: (p0 :: p1 :: w) ++ c).
    rewrite app_assoc. apply getb_app. slia. }
  assert (Hport : slice (msg_buffer msg) (zlen a + 2) 2 = Done [p0; p1]).
  { rewrite E. change ((b0 :: f :: p0 :: p1 :: w) ++ c) with ([b0; f] ++ [p0; p1] ++ w ++ c).
    rewrite app_assoc. apply slice_app; slia. }
  assert (Haddr : slice (msg_buffer msg) (zlen a + 4) (zlen w) = Done w).
  { rewrite E. change ((b0 :: f :: p0 :: p1 :: w) ++ c) with ([b0; f; p0; p1] ++ w ++ c).
    rewrite app_assoc. apply slice_app; slia. }
  replace (zlen (b0 :: f :: p0 :: p1 :: w)) with (4 + zlen w) by slia.
  rewrite Hget, bind_Done, Hport.
  assert (Hst : sizeof_sockaddr_in ≤ sizeof_sockaddr_storage ∧ sizeof_sockaddr_in6 ≤ sizeof_sockaddr_storage)
    by (split; by_compute).
  destruct (f =? 1) eqn:E1; cbn [andb]; [| destruct (f =? 2) eqn:E2; cbn [andb]].
  - apply Z.eqb_eq in E1 as ->. change (1 =? 2) with false. cbn [andb].
    replace (4 + zlen w =? 8) with (zlen w =? 4) by lia.
    destruct (Z.eqb_spec (zlen w) 4) as [Hw | Hw]; cbn [negb]; rewrite ?orb_false_r, ?orb_true_r; cbv iota.
    2:{ eexists _, (x, sizeof_sockaddr_in). split; [done |]. by repeat split. }
    cbn [option_bind mbind sizeof_addr].
    destruct (Z.ltb_spec n sizeof_sockaddr_in), (Z.leb_spec sizeof_sockaddr_in n); try lia.
    + eexists _, (x, sizeof_sockaddr_in). split; [done |]. by repeat split.
    + rewrite Hw in Haddr. unfold assert_. replace (n <=? sizeof_sockaddr_storage) with true by lia.
      rewrite !bind_Done, Haddr, bind_Done. eexists _, (_, _). split; [done |]. by repeat split.
  - apply Z.eqb_eq in E2 as ->.
    replace (4 + zlen w =? 20) with (zlen w =? 16) by lia.
    destruct (Z.eqb_spec (zlen w) 16) as [Hw | Hw]; cbn [negb]; rewrite ?orb_false_r, ?orb_true_r; cbv iota.
    2:{ eexists _, (x, sizeof_sockaddr_in6). split; [done |]. by repeat split. }
    cbn [option_bind mbind sizeof_addr].
    destruct (Z.ltb_spec n sizeof_sockaddr_in6), (Z.leb_spec sizeof_sockaddr_in6 n); try lia.
    + eexists _, (x, sizeof_sockaddr_in6). split; [done |]. by repeat split.
    + rewrite Hw in Haddr. unfold assert_. replace (n <=? sizeof_sockaddr_storage) with true by lia.
      rewrite !bind_Done, Haddr, bind_Done. eexists _, (_, _). split; [done |]. by repeat split.
  - eexists _, (x, n). by repeat split.
Qed.

(** The plain and the XOR searches of [StunTurn]. *)
Lemma find_addr_ok type (a : addr_arg) :
  a.2 ≤ sizeof_sockaddr_storage →
  ∃ a', find_addr msg type a = Done (bool_decide (is_Some (decoded (value msg l type) a.2)), a') ∧
    addr_found (decoded (value msg l type) a.2) a' ∧ a'.2 = len_after (value msg l type) a.2.
Proof.
  destruct a as [x n]. intros Hn. destruct (find_addr_raw type x n Hn) as (v & a' & E & Hs & Ha & Hl).
  exists a'. unfold find_addr. cbn [fst snd]. rewrite E, bind_Done, Hs. by destruct a'.
Qed.

Definition unmasked (cookie : Z) (o : option sockaddr_storage) : option sockaddr_storage :=
  xor_addr cookie id <$> o.

Lemma decoded_ok type n addr :
  decoded (value msg l type) n = Some addr → sockaddr_ok addr ∧ sizeof_addr addr ≤ n.
Proof.
  unfold decoded. destruct (value msg l type) as [v |] eqn:Ev; [| done]. cbn [mbind option_bind].
  assert (Hok : bytes_ok v) by (eapply attr_find_bytes_ok; [apply Hr | exact Ev]).
  destruct v as [| b0 [| f [| p0 [| p1 w]]]]; try done. cbn [addr_value].
  apply (bytes_ok_app [b0; f]) in Hok as [_ Hok]. apply (bytes_ok_app [p0; p1]) in Hok as [Hp Hw].
  pose proof (of_le_range _ Hp) as Hport. pose proof (of_le_range w Hw) as Haddr.
  destruct (Z.eqb_spec f 1) as [-> |].
  - change (1 =? 2) with false. destruct (Z.eqb_spec (zlen w) 4) as [H4 |]; [| done].
    cbn [andb mbind option_bind]. rewrite H4 in Haddr.
    destruct (Z.leb_spec (sizeof_addr (sockaddr_in (of_le [p0; p1]) (of_le w))) n); [| done].
    by intros [= <-].
  - destruct (f =? 2); [| done]. destruct (Z.eqb_spec (zlen w) 16) as [H16 |]; [| done].
    cbn [andb mbind option_bind].
    destruct (Z.leb_spec (sizeof_addr (sockaddr_in6 (of_le [p0; p1]) 0 w 0)) n); [| done].
    by intros [= <-].
Qed.

Lemma find_xor_addr_full_ok type (a : addr_arg) cookie :
  a.2 ≤ sizeof_sockaddr_storage →
  ∃ a', find_xor_addr_full msg type a cookie
      = Done (bool_decide (is_Some (unmasked cookie (decoded (value msg l type) a.2))), a') ∧
    addr_found (unmasked cookie (decoded (value msg l type) a.2)) a'.
Proof.
  destruct a as [x n]. intros Hn. destruct (find_addr_raw type x n Hn) as (v & a' & E & Hs & [Hle Ha] & _).
  unfold find_xor_addr_full, stun_message_find_xor_addr_full, unmasked. cbn [fst snd] in *.
  rewrite E, bind_Done. unfold success in Hs. destruct a' as [x' n']. cbn [fst snd] in *.
  pose proof (decoded_ok type n) as Hdec.
  destruct (decoded (value msg l type) n) as [addr |].
  - destruct (Hdec addr) as [Hok _]; [done |]. injection Ha as -> ->.
    rewrite Hs, (bool_decide_true (is_Some _)) by done.
    rewrite (stun_xor_address_spec _ id), !bind_Done by (done || lia || by eapply stun_message_id_spec).
    exists (xor_addr cookie id addr, sizeof_addr addr). split; [by rewrite bool_decide_true |].
    split; [done |]. cbn. f_equal. by destruct addr.
  - rewrite Hs, bool_decide_false by (by intros []). rewrite bind_Done. unfold success. rewrite Hs.
    exists (x', n'). by rewrite !bool_decide_false by (by intros []).
Qed.

Lemma find_xor_addr_ok type (a : addr_arg) :
  a.2 ≤ sizeof_sockaddr_storage →
  ∃ a', find_xor_addr msg type a
      = Done (bool_decide (is_Some (unmasked STUN_MAGIC_COOKIE (decoded (value msg l type) a.2))), a') ∧
    addr_found (unmasked STUN_MAGIC_COOKIE (decoded (value msg l type) a.2)) a'.
Proof. apply find_xor_addr_full_ok. Qed.

Lemma find_error_ok :
  ∃ val, stun_message_find_error msg = Done (val, value msg l STUN_ATTRIBUTE_ERROR_CODE ≫= error_value) ∧
    success val = bool_decide (is_Some (value msg l STUN_ATTRIBUTE_ERROR_CODE ≫= error_value)).
Proof.
  unfold stun_message_find_error.
  destruct (stun_message_find_spec msg ty id l rest STUN_ATTRIBUTE_ERROR_CODE Hr) as (r & -> & Hf).
  rewrite bind_Done. unfold StunFacts.value. destruct r as [[o k] |], (attr_find _ _) as [v |]; try done.
  2:{ by eexists. }
  destruct Hf as (-> & a & c & E & <-). cbn [mbind option_bind].
  destruct (Z.ltb_spec (zlen v) 4) as [Hs | Hs].
  { eexists. destruct v as [| ? [| ? [| ? [| ? v]]]]; try done. unfold zlen in Hs. cbn [length] in Hs. lia. }
  destruct (at_least_4 v Hs) as (b0 & b1 & b2 & nb & w & ->). cbn [error_value].
  assert (H2 : getb (msg_buffer msg) (zlen a + 2) = Done b2).
  { rewrite E. change ((b0 :: b1 :: b2 :: nb :: w) ++ c) with ([b0; b1] ++ b2 :: (nb :: w) ++ c).
    rewrite app_assoc. apply getb_app. slia. }
  assert (H3 : getb (msg_buffer msg) (zlen a + 3) = Done nb).
  { rewrite E. change ((b0 :: b1 :: b2 :: nb :: w) ++ c) with ([b0; b1; b2] ++ nb :: w ++ c).
    rewrite app_assoc. apply getb_app. slia. }
  rewrite H2, bind_Done, H3, bind_Done. destruct (_ || _); by eexists.
Qed.

Definition number (type v : Z) : Z :=
  match value msg l type with Some d => if zlen d =? 4 then of_be d else v | None => v end.

Lemma find32_into_ok type v : find32_into msg type v = Done (number type v).
Proof.
  unfold find32_into, number. rewrite (stun_message_find32_spec _ _ _ _ _ Hr), bind_Done.
  destruct (value _ _ _) as [d |]; [| done]. by destruct (zlen d =? 4).
Qed.

(** The relayed and the mapped address of a response, in each mode; [n] is the
    space for it. *)
Definition relayed_address (c : StunUsageTurnCompatibility) (n : Z) : option sockaddr_storage :=
  if turn_rfc c then unmasked STUN_MAGIC_COOKIE (decoded (value msg l STUN_ATTRIBUTE_RELAY_ADDRESS) n)
  else decoded (value msg l STUN_ATTRIBUTE_MAPPED_ADDRESS) n.
Definition mapped_address (c : StunUsageTurnCompatibility) (n : Z) : option sockaddr_storage :=
  match c with
  | STUN_USAGE_TURN_COMPATIBILITY_DRAFT9 | STUN_USAGE_TURN_COMPATIBILITY_RFC5766 =>
      unmasked STUN_MAGIC_COOKIE (decoded (value msg l STUN_ATTRIBUTE_XOR_MAPPED_ADDRESS) n)
  | STUN_USAGE_TURN_COMPATIBILITY_GOOGLE => None
  | STUN_USAGE_TURN_COMPATIBILITY_MSN => decoded (value msg l STUN_ATTRIBUTE_MSN_MAPPED_ADDRESS) n
  | STUN_USAGE_TURN_COMPATIBILITY_OC2007 =>
      unmasked (htonl (of_le (take 4 id))) (decoded (value msg l STUN_ATTRIBUTE_MS_XOR_MAPPED_ADDRESS) n)
  end.

(** An error of class 3 names another server; [n] is the space left for its
    address when the caller wants it. *)
Definition redirected (code : Z) (n : option Z) : bool :=
  (code / 100 =? 3) &&
  match n with
  | Some n => bool_decide (is_Some (decoded (value msg l STUN_ATTRIBUTE_ALTERNATE_SERVER) n))
  | None => bool_decide (is_Some (value msg l STUN_ATTRIBUTE_ALTERNATE_SERVER))
  end.

Lemma turn_addresses_ok (c : StunUsageTurnCompatibility) (relay addr : addr_arg) :
  relay.2 ≤ sizeof_sockaddr_storage → addr.2 ≤ sizeof_sockaddr_storage →
  ∃ addr' relay',
    turn_addresses msg relay addr c
      = Done (bool_decide (is_Some (mapped_address c addr.2)), addr',
              bool_decide (is_Some (relayed_address c relay.2)), relay') ∧
    addr_found (mapped_address c addr.2) addr' ∧ addr_found (relayed_address c relay.2) relay'.
Proof.
  intros Hrl Had. unfold turn_addresses, relayed_address.
  destruct c; cbn [mapped_address]; change (turn_rfc _) with true || change (turn_rfc _) with false; cbv iota;
    [destruct (find_xor_addr_ok STUN_ATTRIBUTE_XOR_MAPPED_ADDRESS addr Had) as (a1 & -> & H1)
    | exists addr
    | destruct (find_addr_ok STUN_ATTRIBUTE_MSN_MAPPED_ADDRESS addr Had) as (a1 & -> & H1 & _)
    | rewrite (stun_message_id_spec _ _ _ _ _ Hr), bind_Done;
      destruct (find_xor_addr_full_ok STUN_ATTRIBUTE_MS_XOR_MAPPED_ADDRESS addr
        (htonl (of_le (take 4 id))) Had) as (a1 & -> & H1)
    | destruct (find_xor_addr_ok STUN_ATTRIBUTE_XOR_MAPPED_ADDRESS addr Had) as (a1 & -> & H1)];
    rewrite ?bind_Done;
    [destruct (find_xor_addr_ok STUN_ATTRIBUTE_RELAY_ADDRESS relay Hrl) as (a2 & -> & H2)
    | destruct (find_addr_ok STUN_ATTRIBUTE_MAPPED_ADDRESS relay Hrl) as (a2 & -> & H2 & _)
    | destruct (find_addr_ok STUN_ATTRIBUTE_MAPPED_ADDRESS relay Hrl) as (a2 & -> & H2 & _)
    | destruct (find_addr_ok STUN_ATTRIBUTE_MAPPED_ADDRESS relay Hrl) as (a2 & -> & H2 & _)
    | destruct (find_xor_addr_ok STUN_ATTRIBUTE_RELAY_ADDRESS relay Hrl) as (a2 & -> & H2)];
    rewrite bind_Done;
    [exists a1, a2 | exists a2 | exists a1, a2 | exists a1, a2 | exists a1, a2];
    (split; [done |]); split; first [eassumption | by split].
Qed.

(** What [stun_usage_turn_process] reads in a well formed message [msg]. *)
Definition turn_reading (method : Z) (class : StunClass) (c : StunUsageTurnCompatibility)
    (relay addr : Z) (alternate : option Z) : StunUsageTurnReturn :=
  if negb (method =? STUN_ALLOCATE) then STUN_USAGE_TURN_RETURN_INVALID
  else match class with
  | STUN_REQUEST | STUN_INDICATION => STUN_USAGE_TURN_RETURN_INVALID
  | STUN_ERROR =>
      match value msg l STUN_ATTRIBUTE_ERROR_CODE ≫= error_value with
      | None => STUN_USAGE_TURN_RETURN_INVALID
      | Some code => if redirected code alternate then STUN_USAGE_TURN_RETURN_ALTERNATE_SERVER
                     else STUN_USAGE_TURN_RETURN_ERROR
      end
  | STUN_RESPONSE =>
      match relayed_address c relay, mapped_address c addr with
      | None, _ => STUN_USAGE_TURN_RETURN_ERROR
      | Some _, None => STUN_USAGE_TURN_RETURN_RELAY_SUCCESS
      | Some _, Some _ => STUN_USAGE_TURN_RETURN_MAPPED_SUCCESS
      end
  end.

(** The space left for an alternate server: in the OC2007 mode a first search
    is for MS-ALTERNATE-SERVER. *)
Definition alternate_space (c : StunUsageTurnCompatibility) (n : Z) : Z :=
  if bool_decide (c = STUN_USAGE_TURN_COMPATIBILITY_OC2007)
  then len_after (value msg l STUN_ATTRIBUTE_MS_ALTERNATE_SERVER) n else n.

Lemma turn_error_ok relay addr (alternate : option addr_arg) bandwidth lifetime c :
  (∀ a, alternate = Some a → a.2 ≤ sizeof_sockaddr_storage) →
  let space := alternate_space c ∘ snd <$> alternate in
  ∃ r, turn_error msg relay addr alternate bandwidth lifetime c = Done r ∧
    tr_return r = turn_reading STUN_ALLOCATE STUN_ERROR c relay.2 addr.2 space ∧
    tr_relay r = relay ∧ tr_addr r = addr ∧ tr_bandwidth r = bandwidth ∧ tr_lifetime r = lifetime ∧
    (∀ a n, tr_return r = STUN_USAGE_TURN_RETURN_ALTERNATE_SERVER → space = Some n →
       decoded (value msg l STUN_ATTRIBUTE_ALTERNATE_SERVER) n = Some a →
       tr_alternate r = Some (a, sizeof_addr a)).
Proof.
  intros Halt space. unfold turn_error, turn_reading. change (STUN_ALLOCATE =? STUN_ALLOCATE) with true.
  destruct find_error_ok as (v & -> & Hv). rewrite bind_Done. cbn [negb].
  destruct (value msg l STUN_ATTRIBUTE_ERROR_CODE ≫= error_value) as [code |].
  2:{ unfold success in Hv. rewrite (bool_decide_false (is_Some None)) in Hv by (by intros []).
      eexists. split; [by destruct v |]. by split_and!. }
  unfold success in Hv. rewrite (bool_decide_true (is_Some _)) in Hv by done.
  apply bool_decide_eq_true in Hv as ->. unfold redirected.
  assert (Hfirst : ∃ alternate', match alternate with
      | Some a => if bool_decide (c = STUN_USAGE_TURN_COMPATIBILITY_OC2007) then
            '(_, a) ← find_addr msg STUN_ATTRIBUTE_MS_ALTERNATE_SERVER a; mret (Some a)
          else mret (Some a)
      | None => mret None
      end = Done alternate' ∧ snd <$> alternate' = space ∧
      (∀ a, alternate' = Some a → a.2 ≤ sizeof_sockaddr_storage)).
  { unfold space, alternate_space. destruct alternate as [a |]; [| by exists None].
    specialize (Halt a eq_refl). destruct (bool_decide _); [| exists (Some a); split_and!; [done.. | by intros ? [= <-]]].
    destruct (find_addr_ok STUN_ATTRIBUTE_MS_ALTERNATE_SERVER a Halt) as (a' & -> & [Hle _] & Hn).
    rewrite bind_Done. exists (Some a'). cbn. rewrite Hn. split_and!; [done.. | by intros ? [= <-]]. }
  destruct Hfirst as (alternate' & -> & <- & Halt'). rewrite bind_Done.
  destruct (code / 100 =? 3); cbn [andb].
  2:{ eexists. split; [done |]. by split_and!. }
  destruct alternate' as [a |]; cbn [fmap option_fmap option_map].
  - destruct (find_addr_ok STUN_ATTRIBUTE_ALTERNATE_SERVER a (Halt' a eq_refl)) as (a' & -> & [_ Ha] & _).
    rewrite bind_Done. destruct (decoded (value msg l STUN_ATTRIBUTE_ALTERNATE_SERVER) a.2) as [b |] eqn:Ed.
    + rewrite bool_decide_true by done. eexists. split; [done |]. split_and!; try done.
      cbn. intros a0 n _ [= <-]. rewrite Ed. intros [= <-]. by rewrite Ha.
    + rewrite bool_decide_false by (by intros []). eexists. split; [done |]. by split_and!.
  - rewrite (stun_message_has_attribute_spec _ _ _ _ _ Hr), bind_Done.
    destruct (bool_decide _); eexists; (split; [done |]); by split_and!.
Qed.

Definition refresh_reading (method : Z) (class : StunClass) (c : StunUsageTurnCompatibility)
  : StunUsageTurnReturn :=
  if negb (method =? (if turn_rfc c then STUN_REFRESH else STUN_ALLOCATE)) then STUN_USAGE_TURN_RETURN_INVALID
  else match class with
  | STUN_REQUEST | STUN_INDICATION => STUN_USAGE_TURN_RETURN_INVALID
  | STUN_ERROR =>
      if bool_decide (is_Some (value msg l STUN_ATTRIBUTE_ERROR_CODE ≫= error_value))
      then STUN_USAGE_TURN_RETURN_ERROR else STUN_USAGE_TURN_RETURN_INVALID
  | STUN_RESPONSE => STUN_USAGE_TURN_RETURN_RELAY_SUCCESS
  end.

Definition turn_success (ret : StunUsageTurnReturn) : bool :=
  bool_decide (ret = STUN_USAGE_TURN_RETURN_RELAY_SUCCESS) ||
  bool_decide (ret = STUN_USAGE_TURN_RETURN_MAPPED_SUCCESS).

(** C24: a TURN response is read for what its attributes say.  For a well formed
    message and address arguments no longer than their storage the parser
    returns; its verdict is the one of the attributes ([turn_reading]); on success
    the relayed address, in the second success also the mapped one, and on a
    redirection the alternate server are those of the attributes, unmasked where
    the mode masks them; lifetime and bandwidth are taken on success only, from
    attributes of four octets.  The parser of refresh responses likewise. *)
Theorem turn_process (method : Z) (class : StunClass) (relay addr : addr_arg)
    (alternate : option addr_arg) (bandwidth lifetime : Z) (c : StunUsageTurnCompatibility)
    (Hm : stun_message_get_method msg = Done method) (Hc : stun_message_get_class msg = Done class)
    (Hrl : relay.2 ≤ sizeof_sockaddr_storage) (Had : addr.2 ≤ sizeof_sockaddr_storage)
    (Halt : ∀ a, alternate = Some a → a.2 ≤ sizeof_sockaddr_storage) :
  (∃ r, stun_usage_turn_process msg relay addr alternate bandwidth lifetime c = Done r ∧
    tr_return r = turn_reading method class c relay.2 addr.2 (alternate_space c ∘ snd <$> alternate) ∧
    (turn_success (tr_return r) = true →
       ∃ a, relayed_address c relay.2 = Some a ∧ tr_relay r = (a, sizeof_addr a)) ∧
    (tr_return r = STUN_USAGE_TURN_RETURN_MAPPED_SUCCESS →
       ∃ a, mapped_address c addr.2 = Some a ∧ tr_addr r = (a, sizeof_addr a)) ∧
    (∀ a n, tr_return r = STUN_USAGE_TURN_RETURN_ALTERNATE_SERVER →
       alternate_space c ∘ snd <$> alternate = Some n →
       decoded (value msg l STUN_ATTRIBUTE_ALTERNATE_SERVER) n = Some a →
       tr_alternate r = Some (a, sizeof_addr a)) ∧
    tr_lifetime r = (if turn_success (tr_return r) then number STUN_ATTRIBUTE_LIFETIME lifetime else lifetime) ∧
    tr_bandwidth r = (if turn_success (tr_return r) then number STUN_ATTRIBUTE_BANDWIDTH bandwidth else bandwidth)) ∧
  stun_usage_turn_refresh_process msg lifetime c
    = Done (refresh_reading method class c,
            if turn_success (refresh_reading method class c) then number STUN_ATTRIBUTE_LIFETIME lifetime
            else lifetime).
Proof.
  split.
  - unfold stun_usage_turn_process. rewrite Hm, bind_Done. unfold turn_reading.
    destruct (Z.eqb_spec method STUN_ALLOCATE) as [-> |]; cbn [negb];
      [rewrite Hc, bind_Done | eexists; split; [done |]; by split_and!].
    destruct class; try (eexists; split; [done |]; by split_and!).
    + destruct (turn_addresses_ok c relay addr Hrl Had) as (a1 & a2 & -> & [_ Hma] & [_ Hra]).
      rewrite bind_Done. destruct (relayed_address c relay.2) as [b |].
      2:{ rewrite (bool_decide_false (is_Some None)) by (by intros []). eexists. split; [done |]. by split_and!. }
      rewrite (bool_decide_true (is_Some (Some b))), !find32_into_ok, !bind_Done by done. rewrite Hra. eexists. split; [done |]. cbn -[turn_success].
      destruct (mapped_address c addr.2) as [b' |];
        [rewrite bool_decide_true by done | rewrite bool_decide_false by (by intros [])];
        cbn -[turn_success]; split_and!; try done; [by exists b | intros _; by exists b' | by exists b].
    + destruct (turn_error_ok relay addr alternate bandwidth lifetime c Halt)
        as (r & -> & Hret & _ & _ & Hbw & Hlt & Ha).
      exists r. revert Hret. unfold turn_reading. change (STUN_ALLOCATE =? STUN_ALLOCATE) with true. cbn [negb].
      intros Hret. split; [done |]. split; [done |].
      assert (turn_success (tr_return r) = false ∧ tr_return r ≠ STUN_USAGE_TURN_RETURN_MAPPED_SUCCESS) as [-> ?]
        by (rewrite Hret; destruct (_ ≫= _) as [code |]; [destruct (redirected _ _) |]; done).
      split_and!; try done.
  - unfold stun_usage_turn_refresh_process, refresh_reading. rewrite Hm, bind_Done.
    destruct (method =? _); cbn [negb]; [| done]. rewrite Hc, bind_Done.
    destruct class; try done.
    + by rewrite find32_into_ok, bind_Done.
    + destruct find_error_ok as (v & -> & Hv). rewrite bind_Done. unfold success in Hv.
      destruct (value msg l STUN_ATTRIBUTE_ERROR_CODE ≫= error_value) as [code |].
      * rewrite (bool_decide_true (is_Some _)) in Hv by done.
        apply bool_decide_eq_true in Hv as ->. by rewrite bool_decide_true.
      * rewrite (bool_decide_false (is_Some None)) in Hv by (by intros []).
        rewrite bool_decide_false by (by intros []). by destruct v.
Qed.
End responses.

(** ** Witnesses *)

(** A server's answer to an allocation: relayed 192.0.2.1:5000, mapped
    192.0.2.2:6000, ten minutes. *)
Definition demo_relayed : sockaddr_storage := sockaddr_in (htons 5000) (htonl 0xc0000201).
Definition demo_mapped : sockaddr_storage := sockaddr_in (htons 6000) (htonl 0xc0000202).
Definition demo_allocated_attrs : list attr :=
  [Attr STUN_ATTRIBUTE_RELAY_ADDRESS (addr_val (xor_addr STUN_MAGIC_COOKIE demo_tid demo_relayed)) [];
   Attr STUN_ATTRIBUTE_XOR_MAPPED_ADDRESS (addr_val (xor_addr STUN_MAGIC_COOKIE demo_tid demo_mapped)) [];
   Attr STUN_ATTRIBUTE_LIFETIME (be 4 600) []].
Definition demo_allocated : StunMessage :=
  {| msg_agent := Some (agent_conf demo_agent);
     msg_buffer := hdr_enc [1; 3] demo_tid 32 ++ attrs_enc demo_allocated_attrs;
     msg_key := None; msg_long_term_key := repeat 0 16; msg_long_term_valid := false |}.

Lemma demo_allocated_repr : msg_repr demo_allocated [1; 3] demo_tid demo_allocated_attrs [].
Proof.
  split; [split |]; try by_compute.
  unfold demo_allocated_attrs. repeat constructor; by_compute.
Qed.

Lemma turn_process_witness :
  ∃ r, stun_usage_turn_process demo_allocated (sockaddr_other 0, 128) (sockaddr_other 0, 128) None 0 0
      STUN_USAGE_TURN_COMPATIBILITY_RFC5766 = Done r ∧
    tr_return r = STUN_USAGE_TURN_RETURN_MAPPED_SUCCESS ∧
    tr_relay r = (demo_relayed, 16) ∧ tr_addr r = (demo_mapped, 16) ∧ tr_lifetime r = 600.
Proof.
  destruct (turn_process demo_allocated [1; 3] demo_tid demo_allocated_attrs [] demo_allocated_repr
    STUN_ALLOCATE STUN_RESPONSE (sockaddr_other 0, 128) (sockaddr_other 0, 128) None 0 0
    STUN_USAGE_TURN_COMPATIBILITY_RFC5766) as [(r & E & Hret & Hrel & Hmap & _ & Hlt & _) _];
    [reflexivity | reflexivity | by_compute | by_compute | done |].
  exists r. assert (tr_return r = STUN_USAGE_TURN_RETURN_MAPPED_SUCCESS) as Hr
    by (rewrite Hret; vm_compute; reflexivity).
  destruct Hrel as (a & Ha & ->); [by rewrite Hr |]. destruct (Hmap Hr) as (b & Hb & ->).
  rewrite Hr in Hlt. vm_compute in Ha, Hb. injection Ha as <-. injection Hb as <-.
  split; [exact E |]. split; [exact Hr |]. split; [reflexivity |]. split; [reflexivity |].
  rewrite Hlt. vm_compute. reflexivity.
Defined.

Lemma turn_requests_carry_witness :
  @carries toy_crypto demo_agent demo_empty (repeat 0 20) (repeat 0 600) demo_tid STUN_ALLOCATE
    [(STUN_ATTRIBUTE_REQUESTED_TRANSPORT, be 4 TURN_REQUESTED_TRANSPORT_UDP)] None
    (@stun_usage_turn_create toy_crypto [0] demo_agent demo_empty (repeat 0 20 ++ repeat 0 600)
      demo_tid None STUN_USAGE_TURN_REQUEST_PORT_NORMAL (-1) (-1) None None
      STUN_USAGE_TURN_COMPATIBILITY_RFC5766).
Proof.
  refine (proj1 (@turn_requests_carry toy_crypto [0] demo_agent demo_empty (repeat 0 20) (repeat 0 600) demo_tid
    _ _ _ _ _ None STUN_USAGE_TURN_REQUEST_PORT_NORMAL (-1) (-1) None None None None demo_relayed
    STUN_USAGE_TURN_COMPATIBILITY_RFC5766 _ _ _ _ _) _);
    [exact eq_refl | reflexivity | by_compute | reflexivity | by_compute | exact I.. | split; by_compute
    | split; vm_compute; congruence].
Defined.
