(* ===== verification/StunEnds.v ===== *)
(** * Every STUN operation ends

    On a buffer of octets, valid or not, the searches, the check of a received
    message and the completion of a message leave their loops; what they may do
    beyond the bounds of the buffer is the subject of the other theorems. *)

From S2P Require Import Prelude Bytes StunCrc32 StunMessage StunFacts StunValidate StunHmac StunAgent StunAuth StunTimer StunTurn.

Definition ends {A} (m : outcome A) : Prop := m ≠ Oof.

Lemma ends_bind {A B} (m : outcome A) (f : A → outcome B) :
  ends m → (∀ a, m = Done a → ends (f a)) → ends (m ≫= f).
Proof. unfold ends. destruct m; [intros _ H; by apply H | done..]. Qed.
Lemma ends_done {A} (a : A) : ends (Done a).
Proof. done. Qed.
Lemma ends_ret {A} (a : A) : ends (mret a).
Proof. done. Qed.
Lemma ends_ub {A} : ends (@Ub A).
Proof. done. Qed.
Lemma ends_and a b : ends a → ends b → ends (a &&& b).
Proof. intros. unfold and_then. apply ends_bind; [done |]. by intros []. Qed.
Lemma ends_or a b : ends a → ends b → ends (a ||| b).
Proof. intros. unfold or_else. apply ends_bind; [done |]. by intros []. Qed.
Lemma ends_assert b : ends (assert_ b).
Proof. by destruct b. Qed.
Lemma ends_slice {A} (m : list A) i n : ends (slice m i n).
Proof. apply slice_not_oof. Qed.
Lemma ends_getb m i : ends (getb m i).
Proof. apply getb_not_oof. Qed.
Lemma ends_store {A} (m : list A) i d : ends (store m i d).
Proof. unfold ends, store. by repeat case_match. Qed.
Lemma ends_getw m i : ends (stun_getw m i).
Proof. unfold stun_getw. apply ends_bind; [apply ends_getb | intros]. apply ends_bind; [apply ends_getb | done]. Qed.
Lemma ends_setw m i v : ends (stun_setw m i v).
Proof. unfold stun_setw. apply ends_store. Qed.

Create HintDb ends discriminated.
#[export] Hint Resolve ends_done ends_ret ends_ub ends_assert ends_slice ends_getb ends_store ends_getw
  ends_setw : ends.

Ltac ends_step :=
  match goal with
  | |- ends (_ ≫= _) => apply ends_bind; [| intros ? ?]
  | |- ends (_ &&& _) => apply ends_and
  | |- ends (_ ||| _) => apply ends_or
  | |- ends (match ?x with _ => _ end) => destruct x eqn:?
  end.
Ltac ends := repeat (first [solve [eauto with ends] | ends_step]).

(** ** Header fields *)

Lemma ends_length msg : ends (stun_message_length msg).
Proof. unfold stun_message_length. ends. Qed.
Lemma ends_id msg : ends (stun_message_id msg).
Proof. unfold stun_message_id. ends. Qed.
#[export] Hint Resolve ends_length ends_id : ends.
Lemma ends_has_cookie msg : ends (stun_message_has_cookie msg).
Proof. unfold stun_message_has_cookie. ends. Qed.
Lemma ends_method msg : ends (stun_message_get_method msg).
Proof. unfold stun_message_get_method. ends. Qed.
Lemma ends_class msg : ends (stun_message_get_class msg).
Proof. unfold stun_message_get_class. ends. Qed.
#[export] Hint Resolve ends_has_cookie ends_method ends_class : ends.
Lemma ends_class_is msg c : ends (class_is msg c).
Proof. unfold class_is. ends. Qed.
#[export] Hint Resolve ends_class_is : ends.

(** ** Appending *)

Lemma ends_append msg type n : ends (stun_message_append msg type n).
Proof. unfold stun_message_append. ends. Qed.
#[export] Hint Resolve ends_append : ends.
Lemma ends_append_bytes msg type d : ends (stun_message_append_bytes msg type d).
Proof. unfold stun_message_append_bytes. ends. Qed.
Lemma ends_append_addr msg type a n : ends (stun_message_append_addr msg type a n).
Proof. unfold stun_message_append_addr. ends. Qed.
#[export] Hint Resolve ends_append_bytes ends_append_addr : ends.
Lemma ends_xor_address msg a n c : ends (stun_xor_address msg a n c).
Proof. unfold stun_xor_address. ends. Qed.
#[export] Hint Resolve ends_xor_address : ends.
Lemma ends_append_xor_addr msg type a n : ends (stun_message_append_xor_addr msg type a n).
Proof. unfold stun_message_append_xor_addr. ends. Qed.
#[export] Hint Resolve ends_append_xor_addr : ends.

(** ** Digests *)

Lemma ends_sha1 `{Crypto} m len ml key p : ends (stun_sha1 m len ml key p).
Proof. unfold stun_sha1. ends. Qed.
Lemma ends_trim m v n : ends (priv_trim_var m v n).
Proof. apply priv_trim_var_not_oof. Qed.
#[export] Hint Resolve ends_sha1 ends_trim : ends.
Lemma ends_hash_creds `{Crypto} m r rl u ul key : ends (stun_hash_creds m r rl u ul key).
Proof. unfold stun_hash_creds. ends. Qed.
Lemma ends_crc32 data typo : ends (stun_crc32 data typo).
Proof.
  unfold stun_crc32. apply ends_bind; [| ends]. generalize 0xffffffff.
  induction data as [| d data IH]; intros crc; cbn [crc32_loop]; ends.
Qed.
#[export] Hint Resolve ends_hash_creds ends_crc32 : ends.
Lemma ends_fingerprint m len typo : ends (stun_fingerprint m len typo).
Proof. unfold stun_fingerprint. ends. Qed.
#[export] Hint Resolve ends_fingerprint : ends.

(** ** Searches *)

Section octets.
Context (msg : StunMessage) (Hok : bytes_ok (msg_buffer msg)).

Lemma ends_find type : ends (stun_message_find msg type).
Proof. by apply stun_message_find_terminates. Qed.
#[local] Hint Resolve ends_find : ends.
Lemma ends_has_attribute type : ends (stun_message_has_attribute msg type).
Proof. unfold stun_message_has_attribute. ends. Qed.
Lemma ends_find32 type : ends (stun_message_find32 msg type).
Proof. unfold stun_message_find32. ends. Qed.
Lemma ends_find_error : ends (stun_message_find_error msg).
Proof. unfold stun_message_find_error. ends. Qed.
Lemma ends_find_addr type a n : ends (stun_message_find_addr msg type a n).
Proof. unfold stun_message_find_addr. ends. Qed.
#[local] Hint Resolve ends_find_addr : ends.
Lemma ends_find_xor_addr type a n : ends (stun_message_find_xor_addr msg type a n).
Proof. unfold stun_message_find_xor_addr. ends. Qed.
Lemma ends_find_bytes type : ends (find_bytes msg type).
Proof. unfold find_bytes. ends. Qed.
#[local] Hint Resolve ends_has_attribute ends_find32 ends_find_error : ends.

Lemma ends_check_fingerprint agent : ends (stun_agent_check_fingerprint agent msg).
Proof. unfold stun_agent_check_fingerprint. ends. Qed.
Lemma ends_error_in codes : ends (error_in msg codes).
Proof. unfold error_in. ends. Qed.
#[local] Hint Resolve ends_error_in : ends.
Lemma ends_ignore_credentials agent : ends (ignore_credentials agent msg).
Proof. unfold ignore_credentials. ends. Qed.
Lemma ends_lacks type : ends (lacks msg type).
Proof. unfold lacks. ends. Qed.
#[local] Hint Resolve ends_lacks : ends.
Lemma ends_credentials_missing agent : ends (credentials_missing agent msg).
Proof. unfold credentials_missing, has_attr. ends. Qed.

Lemma ends_is_unknown ks t : ends (stun_agent_is_unknown ks t).
Proof. induction ks; cbn [stun_agent_is_unknown]; ends. Qed.
#[local] Hint Resolve ends_is_unknown : ends.
Lemma unknowns_loop_fuel agent fuel len max offset lst :
  len - offset ≤ Z.of_nat fuel → ends (unknowns_loop fuel agent (msg_buffer msg) len max offset lst).
Proof.
  revert offset lst. induction fuel as [| fuel IH]; intros offset lst Hf; cbn [unknowns_loop];
    destruct (Z.ltb_spec offset len); cbn [andb]; try done; destruct (zlen lst <? max); try done; [lia |].
  apply ends_bind; [ends | intros alen Ha]. apply stun_getw_range in Ha; [| done].
  apply ends_bind; [ends | intros atype _]. apply ends_bind; [ends | intros b _].
  pose proof (stun_align_nonneg alen). apply IH. change STUN_ATTRIBUTE_VALUE_POS with 4.
  destruct (negb _); lia.
Qed.
Lemma ends_find_unknowns agent max : ends (stun_agent_find_unknowns agent msg max).
Proof.
  unfold stun_agent_find_unknowns. apply ends_bind; [ends | intros len _].
  apply unknowns_loop_fuel. change STUN_MESSAGE_ATTRIBUTES_POS with 20. lia.
Qed.
#[local] Hint Resolve ends_find_unknowns : ends.
Lemma ends_validate_accept agent i : ends (validate_accept agent msg i).
Proof. unfold validate_accept. ends. Qed.
End octets.
#[export] Hint Resolve ends_find ends_has_attribute ends_find32 ends_find_error ends_find_addr
  ends_find_xor_addr ends_find_bytes ends_check_fingerprint ends_ignore_credentials
  ends_credentials_missing ends_validate_accept ends_error_in : ends.

(** ** Agents *)

Section agent.
Context {crypto : Crypto}.

Lemma ends_expected_sha agent msg hash key : ends (expected_sha agent msg hash key).
Proof. apply expected_sha_not_oof. Qed.
#[local] Hint Resolve ends_expected_sha : ends.

Lemma ends_check_integrity agent msg key saved :
  bytes_ok (msg_buffer msg) → ends (check_integrity agent msg key saved).
Proof. intros. unfold check_integrity. ends. Qed.

Lemma check_integrity_buffer agent msg key saved m ok :
  check_integrity agent msg key saved = Done (m, ok) → msg_buffer m = msg_buffer msg.
Proof.
  unfold check_integrity. intros H. apply bind_inv in H as (h & _ & H).
  destruct h as [[hash n] |]; [| by inv_bind].
  apply bind_inv in H as (r & Er & H). destruct r as [[m1 k] |]; [| by inv_bind].
  assert (msg_buffer m1 = msg_buffer msg) as <-.
  { case_match; [| by inv_bind]. apply bind_inv in Er as (md & _ & Er). destruct md; [| by inv_bind].
    by injection Er as <- _. }
  inv_bind. by break_in H.
Qed.

Lemma ends_validate agent msg buffer :
  bytes_ok buffer → zlen buffer < 2 ^ 64 → ends (stun_agent_validate agent msg buffer None).
Proof.
  intros Hok Hlen. unfold stun_agent_validate.
  destruct (stun_validate_spec buffer (negb (usage agent STUN_AGENT_USAGE_NO_ALIGNED_ATTRIBUTES)) Hok Hlen)
    as (r & -> & _). rewrite bind_Done.
  set (m := Build_StunMessage _ _ _ _ _). assert (Hm : bytes_ok (msg_buffer m)) by done.
  assert (Hc : ∀ saved, ends (validate_credentials agent m None saved)).
  { intros saved. unfold validate_credentials.
    apply ends_bind; [ends | intros ignore _]. apply ends_bind; [ends | intros missing _].
    destruct missing; [ends |]. apply ends_bind; [unfold has_attr; ends | intros ask _].
    apply ends_bind; [ends | intros answer _]. destruct answer as [key |]; [| ends].
    apply ends_bind.
    { destruct key; [| ends]. case_match; [by apply ends_check_integrity | ends]. }
    intros [m' ok] E. destruct ok; [| ends]. apply ends_validate_accept.
    destruct key; [| by inv_bind]. case_match; [| by inv_bind].
    apply check_integrity_buffer in E. by rewrite E. }
  ends.
Qed.

Lemma ends_finish agent msg key :
  bytes_ok (msg_buffer msg) → ends (stun_agent_finish_message agent msg key).
Proof.
  intros Hok. unfold stun_agent_finish_message.
  apply ends_bind; [ends | intros c _]. apply ends_bind; [ends | intros m _].
  destruct (if _ : bool then _ else _); [| ends].
  apply ends_bind; [| intros [m1 ok] _; cbn beta iota; destruct ok; cbn [negb]; [| ends]].
  - unfold finish_integrity, finish_key, finish_sha. ends.
  - apply ends_bind; [| intros [m2 ok] _; ends]. unfold finish_fingerprint. ends.
Qed.
End agent.

(** ** Timers *)

Lemma carry_loop_ends fuel ts : tv_usec ts / 1000000 ≤ Z.of_nat fuel → ends (carry_loop fuel ts).
Proof.
  revert ts. induction fuel as [| fuel IH]; intros ts Hf; cbn [carry_loop];
    destruct (Z.ltb_spec 1000000 (tv_usec ts)); try done; [zlia |].
  apply IH. cbn [tv_usec]. zlia.
Qed.
Lemma ends_add_delay ts d : ends (add_delay ts d).
Proof. unfold add_delay. apply carry_loop_ends. cbn [tv_usec]. zlia. Qed.
#[export] Hint Resolve ends_add_delay : ends.
Lemma ends_timer_refresh t now : ends (stun_timer_refresh t now).
Proof. unfold stun_timer_refresh. ends. Qed.
#[export] Hint Resolve ends_timer_refresh : ends.
