(* ===== verification/StateMonad.v ===== *)
(** * State passing with outcomes

    Stateful C code that may fail an assertion or leave the bounds of an
    object: functions from a state to an outcome, with a weakest precondition
    (total: the run is [Done] and the postcondition holds) and a relational
    frame judgement for the fields a routine never touches. *)

From S2P Require Import Prelude.

Definition st (S A : Type) : Type := S → outcome (A * S).

#[export] Instance st_ret S : MRet (st S) := λ A a s, Done (a, s).
#[export] Instance st_bind S : MBind (st S) := λ A B f m s,
  match m s with Done (a, s) => f a s | Ub => Ub | Oof => Oof end.

Section st.
Context {S : Type}.

(** A local computation that does not see the state. *)
Definition lift {A} (m : outcome A) : st S A := λ s, a ← m; Done (a, s).
(** [self->priv->f] *)
Definition get {E} (proj : S → E) : st S E := λ s, Done (proj s, s).
(** [self->priv->f = v] *)
Definition put {E} (proj : S → E) `{!Setter proj} (v : E) : st S unit :=
  λ s, Done (tt, s <| proj := v |>).
(** [self->priv->f = g (self->priv->f)] *)
Definition upd {E} (proj : S → E) `{!Setter proj} (g : E → E) : st S unit :=
  λ s, Done (tt, s <| proj := g (proj s) |>).
Definition when (b : bool) (m : st S unit) : st S unit := if b then m else mret tt.
Definition ub {A} : st S A := λ _, Ub.
Definition oof {A} : st S A := λ _, Oof.
Definition assert_st (b : bool) : st S unit := lift (assert_ b).

Definition wp {A} (m : st S A) (Q : A → S → Prop) (s : S) : Prop :=
  match m s with Done (a, s) => Q a s | _ => False end.

Lemma wp_bind {A B} (m : st S A) (f : A → st S B) Q s :
  wp m (λ a, wp (f a) Q) s → wp (m ≫= f) Q s.
Proof. unfold wp, mbind, st_bind. by destruct (m s) as [[a s'] | |]. Qed.
Lemma wp_ret {A} (a : A) Q s : Q a s → wp (mret a) Q s.
Proof. done. Qed.
Lemma wp_get {E} (proj : S → E) Q s : Q (proj s) s → wp (get proj) Q s.
Proof. done. Qed.
Lemma wp_put {E} (proj : S → E) `{!Setter proj} v Q s :
  Q tt (s <| proj := v |>) → wp (put proj v) Q s.
Proof. done. Qed.
Lemma wp_upd {E} (proj : S → E) `{!Setter proj} g Q s :
  Q tt (s <| proj := g (proj s) |>) → wp (upd proj g) Q s.
Proof. done. Qed.
Lemma wp_lift {A} (m : outcome A) a Q s : m = Done a → Q a s → wp (lift m) Q s.
Proof. by intros ->. Qed.
Lemma wp_assert b Q s : b = true → Q tt s → wp (assert_st b) Q s.
Proof. by intros ->. Qed.
Lemma wp_mono {A} (m : st S A) (P Q : A → S → Prop) s :
  wp m P s → (∀ a s', P a s' → Q a s') → wp m Q s.
Proof. unfold wp. destruct (m s) as [[a s'] | |]; auto. Qed.
Lemma wp_when b m Q s :
  (b = true → wp m Q s) → (b = false → Q tt s) → wp (when b m) Q s.
Proof. destruct b; cbn; auto. Qed.
Lemma wp_done {A} (m : st S A) Q s : wp m Q s → ∃ a s', m s = Done (a, s') ∧ Q a s'.
Proof. unfold wp. destruct (m s) as [[a s'] | |]; try done. eauto. Qed.
Lemma wp_intro {A} (m : st S A) (Q : A → S → Prop) s a s' :
  m s = Done (a, s') → Q a s' → wp m Q s.
Proof. unfold wp. by intros ->. Qed.

(** [keeps R m]: every run of [m] that returns relates the two states. *)
Definition keeps (R : S → S → Prop) {A} (m : st S A) : Prop :=
  ∀ s a s', m s = Done (a, s') → R s s'.

Lemma st_bind_inv {A B} (m : st S A) (f : A → st S B) s b s'' :
  (m ≫= f) s = Done (b, s'') → ∃ a s', m s = Done (a, s') ∧ f a s' = Done (b, s'').
Proof. unfold mbind, st_bind. destruct (m s) as [[a s'] | |]; try done. eauto. Qed.

(** ** Running the code one step *)

Lemma bind_run {A B} (m : st S A) (f : A → st S B) s a s' :
  m s = Done (a, s') → (m ≫= f) s = f a s'.
Proof. unfold mbind, st_bind. by intros ->. Qed.
Lemma bind_get {E B} (proj : S → E) (f : E → st S B) s : (get proj ≫= f) s = f (proj s) s.
Proof. done. Qed.
Lemma bind_put {E B} (proj : S → E) `{!Setter proj} v (f : unit → st S B) s :
  (put proj v ≫= f) s = f tt (s <| proj := v |>).
Proof. done. Qed.
Lemma bind_upd {E B} (proj : S → E) `{!Setter proj} g (f : unit → st S B) s :
  (upd proj g ≫= f) s = f tt (s <| proj := g (proj s) |>).
Proof. done. Qed.
Lemma bind_ret {A B} (a : A) (f : A → st S B) s : (mret a ≫= f) s = f a s.
Proof. done. Qed.
Lemma bind_lift {A B} (a : A) (f : A → st S B) s : (lift (Done a) ≫= f) s = f a s.
Proof. done. Qed.
Lemma bind_assert {B} (f : unit → st S B) s : (assert_st true ≫= f) s = f tt s.
Proof. done. Qed.
Lemma bind_when_true {B} m (f : unit → st S B) s : (when true m ≫= f) s = (m ≫= f) s.
Proof. done. Qed.
Lemma bind_when_false {B} m (f : unit → st S B) s : (when false m ≫= f) s = f tt s.
Proof. done. Qed.
Lemma bind_bind {A B C} (m : st S A) (f : A → st S B) (g : B → st S C) s :
  ((m ≫= f) ≫= g) s = (m ≫= (λ a, f a ≫= g)) s.
Proof. unfold mbind, st_bind. by destruct (m s) as [[a s'] | |]. Qed.

Lemma st_lift_inv {A} (m : outcome A) s a s' :
  lift m s = Done (a, s') → m = Done a ∧ s' = s.
Proof. unfold lift. destruct m; cbn; try done. by intros [= <- <-]. Qed.
Lemma st_get_inv {E} (proj : S → E) s a s' : get proj s = Done (a, s') → a = proj s ∧ s' = s.
Proof. by intros [= <- <-]. Qed.
Lemma st_put_inv {E} (proj : S → E) `{!Setter proj} v s a s' :
  put proj v s = Done (a, s') → a = tt ∧ s' = s <| proj := v |>.
Proof. by intros [= <- <-]. Qed.
Lemma st_upd_inv {E} (proj : S → E) `{!Setter proj} g s a s' :
  upd proj g s = Done (a, s') → a = tt ∧ s' = s <| proj := g (proj s) |>.
Proof. by intros [= <- <-]. Qed.
Lemma st_assert_inv b s a s' :
  assert_st b s = Done (a, s') → b = true ∧ a = tt ∧ s' = s.
Proof. unfold assert_st, lift. destruct b; cbn; try done. by intros [= <- <-]. Qed.
Lemma st_ret_inv {A} (x : A) s a s' : (mret x : st S A) s = Done (a, s') → a = x ∧ s' = s.
Proof. by intros [= <- <-]. Qed.

Section keeps.
Context (R : S → S → Prop) `{!PreOrder R}.

Lemma keeps_bind {A B} (m : st S A) (f : A → st S B) :
  keeps R m → (∀ a, keeps R (f a)) → keeps R (m ≫= f).
Proof. intros Hm Hf s b s'' (a & s' & H1 & H2)%st_bind_inv. etransitivity; [by eapply Hm | by eapply Hf]. Qed.
Lemma keeps_ret {A} (a : A) : keeps R (mret a).
Proof. by intros s ? ? [= <- <-]. Qed.
Lemma keeps_get {E} (proj : S → E) : keeps R (get proj).
Proof. by intros s ? ? [= <- <-]. Qed.
Lemma keeps_lift {A} (m : outcome A) : keeps R (lift m).
Proof. unfold lift. intros s ? ? H. destruct m; cbn in H; by simplify_eq. Qed.
Lemma keeps_ub {A} : keeps R (@ub A).
Proof. by intros s ? ?. Qed.
Lemma keeps_oof {A} : keeps R (@oof A).
Proof. by intros s ? ?. Qed.
Lemma keeps_when b m : keeps R m → keeps R (when b m).
Proof. destruct b; [done | intros; apply keeps_ret]. Qed.
Lemma keeps_if {A} (b : bool) (m1 m2 : st S A) :
  keeps R m1 → keeps R m2 → keeps R (if b then m1 else m2).
Proof. by destruct b. Qed.
End keeps.
End st.

(** Run the code as far as it is known. *)
Ltac st_run :=
  repeat first
    [ rewrite bind_get | rewrite bind_put | rewrite bind_upd | rewrite bind_ret
    | rewrite bind_lift | rewrite bind_assert | rewrite bind_when_true | rewrite bind_when_false
    | rewrite bind_bind ].

(** Reduce a [wp] goal along the code. *)
Ltac wp_step :=
  match goal with
  | |- wp (_ ≫= _) _ _ => apply wp_bind
  | |- wp (mret _) _ _ => apply wp_ret
  | |- wp (get _) _ _ => apply wp_get
  | |- wp (put _ _) _ _ => apply wp_put
  | |- wp (upd _ _) _ _ => apply wp_upd
  end.
Ltac wp_steps := repeat wp_step.

(** Reduce a [keeps] goal along the code; leaves the assignments and calls. *)
Create HintDb keeps discriminated.
Ltac keeps_step :=
  match goal with
  | |- PreOrder _ => apply _
  | |- keeps _ (_ ≫= _) => apply keeps_bind; [.. | intros ?]
  | |- keeps _ (mret _) => apply keeps_ret
  | |- keeps _ (get _) => apply keeps_get
  | |- keeps _ (lift _) => apply keeps_lift
  | |- keeps _ (assert_st _) => apply keeps_lift
  | |- keeps _ ub => apply keeps_ub
  | |- keeps _ oof => apply keeps_oof
  | |- keeps _ (when _ _) => apply keeps_when
  | |- keeps _ (match ?x with _ => _ end) => destruct x
  end.

(** Split a returning run in [H] into its steps. *)
Ltac st_inv H :=
  repeat first
  [ let a := fresh "a" in let s := fresh "s" in let H1 := fresh "Hm" in
    apply st_bind_inv in H as (a & s & H1 & H);
    first [ apply st_lift_inv in H1 as [H1 ->]
          | apply st_get_inv in H1 as [-> ->]
          | apply st_put_inv in H1 as [-> ->]
          | apply st_upd_inv in H1 as [-> ->]
          | apply st_assert_inv in H1 as (? & -> & ->)
          | idtac ]; cbv beta in H ].

(** ** Termination

    [runs m Q s]: the run ends, and if it returns the postcondition holds.  What
    is left open is undefined behaviour. *)
Section runs.
Context {S : Type}.

Definition runs {A} (m : st S A) (Q : A → S → Prop) (s : S) : Prop :=
  match m s with Done (a, s) => Q a s | Ub => True | Oof => False end.

Lemma runs_bind {A B} (m : st S A) (f : A → st S B) Q s :
  runs m (λ a, runs (f a) Q) s → runs (m ≫= f) Q s.
Proof. unfold runs, mbind, st_bind. by destruct (m s) as [[a s'] | |]. Qed.
Lemma runs_ret {A} (a : A) Q s : Q a s → runs (mret a) Q s.
Proof. done. Qed.
Lemma runs_ub {A} (Q : A → S → Prop) s : runs ub Q s.
Proof. done. Qed.
Lemma runs_get {E} (proj : S → E) Q s : Q (proj s) s → runs (get proj) Q s.
Proof. done. Qed.
Lemma runs_put {E} (proj : S → E) `{!Setter proj} v Q s :
  Q tt (s <| proj := v |>) → runs (put proj v) Q s.
Proof. done. Qed.
Lemma runs_upd {E} (proj : S → E) `{!Setter proj} g Q s :
  Q tt (s <| proj := g (proj s) |>) → runs (upd proj g) Q s.
Proof. done. Qed.
Lemma runs_lift {A} (m : outcome A) Q s :
  m ≠ Oof → (∀ a, m = Done a → Q a s) → runs (lift m) Q s.
Proof. unfold runs, lift. destruct m; cbn; auto. Qed.
Lemma runs_assert b Q s : (b = true → Q tt s) → runs (assert_st b) Q s.
Proof. unfold runs, assert_st, lift. destruct b; cbn; auto. Qed.
Lemma runs_when b m Q s :
  (b = true → runs m Q s) → (b = false → Q tt s) → runs (when b m) Q s.
Proof. destruct b; cbn; auto. Qed.
Lemma runs_mono {A} (m : st S A) (P Q : A → S → Prop) s :
  runs m P s → (∀ a s', P a s' → Q a s') → runs m Q s.
Proof. unfold runs. destruct (m s) as [[a s'] | |]; auto. Qed.
Lemma runs_done {A} (m : st S A) Q s a s' : runs m Q s → m s = Done (a, s') → Q a s'.
Proof. unfold runs. by intros H E; rewrite E in H. Qed.
Lemma runs_ends {A} (m : st S A) Q s : runs m Q s → m s ≠ Oof.
Proof. unfold runs. by destruct (m s). Qed.
End runs.

(** Reduce a [runs] goal along the code. *)
Ltac runs_step :=
  match goal with
  | |- runs (_ ≫= _) _ _ => apply runs_bind
  | |- runs (mret _) _ _ => apply runs_ret
  | |- runs ub _ _ => apply runs_ub
  | |- runs (get _) _ _ => apply runs_get
  | |- runs (put _ _) _ _ => apply runs_put
  | |- runs (upd _ _) _ _ => apply runs_upd
  end.
Ltac runs_steps := repeat (runs_step; cbv beta).

(** ** Safety

    [safe m Q s]: no undefined behaviour, and if the run returns the
    postcondition holds.  What is left open is the end of the run. *)
Section safe.
Context {S : Type}.
Definition safe {A} (m : st S A) (Q : A → S → Prop) (s : S) : Prop :=
  match m s with Done (a, s) => Q a s | Ub => False | Oof => True end.

Lemma safe_bind {A B} (m : st S A) (f : A → st S B) Q s : safe m (λ a, safe (f a) Q) s → safe (m ≫= f) Q s.
Proof. unfold safe, mbind, st_bind. by destruct (m s) as [[a s'] | |]. Qed.
Lemma safe_ret {A} (a : A) Q s : Q a s → safe (mret a) Q s.
Proof. done. Qed.
Lemma safe_oof {A} (Q : A → S → Prop) s : safe oof Q s.
Proof. done. Qed.
Lemma safe_get {E} (proj : S → E) Q s : Q (proj s) s → safe (get proj) Q s.
Proof. done. Qed.
Lemma safe_put {E} (proj : S → E) `{!Setter proj} v Q s : Q tt (s <| proj := v |>) → safe (put proj v) Q s.
Proof. done. Qed.
Lemma safe_upd {E} (proj : S → E) `{!Setter proj} g Q s :
  Q tt (s <| proj := g (proj s) |>) → safe (upd proj g) Q s.
Proof. done. Qed.
Lemma safe_lift {A} (m : outcome A) Q s : m ≠ Ub → (∀ a, m = Done a → Q a s) → safe (lift m) Q s.
Proof. unfold safe, lift. destruct m; cbn; auto. Qed.
Lemma safe_assert b Q s : b = true → Q tt s → safe (assert_st b) Q s.
Proof. by intros ->. Qed.
Lemma safe_when b m Q s : (b = true → safe m Q s) → (b = false → Q tt s) → safe (when b m) Q s.
Proof. destruct b; cbn; auto. Qed.
Lemma safe_mono {A} (m : st S A) (P Q : A → S → Prop) s :
  safe m P s → (∀ a s', P a s' → Q a s') → safe m Q s.
Proof. unfold safe. destruct (m s) as [[a s'] | |]; auto. Qed.
End safe.

Ltac safe_step :=
  match goal with
  | |- safe (_ ≫= _) _ _ => apply safe_bind
  | |- safe (mret _) _ _ => apply safe_ret
  | |- safe oof _ _ => apply safe_oof
  | |- safe (get _) _ _ => apply safe_get
  | |- safe (put _ _) _ _ => apply safe_put
  | |- safe (upd _ _) _ _ => apply safe_upd
  end.
Ltac safe_steps := repeat (safe_step; cbv beta).
