(* ===== verification/PseudoTcpFifo.v ===== *)
(** * The byte ring of the pseudo-TCP socket (agent/pseudotcp.c, PseudoTcpFifo)

    The operations on the ring buffer, and their refinement to a list: the
    octets a reader sees are a prefix of the buffer rotated to the read
    position. *)

From S2P Require Import Prelude Bytes.

(** GLib's slice allocator: the contents of a fresh block are not specified. *)
Class SliceAlloc : Type := {
  g_slice_alloc : Z → bytes;
  g_slice_alloc_length : ∀ n, 0 ≤ n → zlen (g_slice_alloc n) = n
}.

(** [a % n] on unsigned operands: division by zero is undefined. *)
Definition umod (a n : Z) : outcome Z := if n =? 0 then Ub else mret (a mod n).

(** A NULL [buffer] is the empty block. *)
Record PseudoTcpFifo := {
  buffer : bytes;
  buffer_length : Z;
  data_length : Z;
  read_position : Z
}.
Definition eta_PseudoTcpFifo (b : PseudoTcpFifo) : PseudoTcpFifo :=
  Build_PseudoTcpFifo (buffer b) (buffer_length b) (data_length b) (read_position b).
#[export] Instance set_buffer : Setter buffer := ltac:(derive_setter eta_PseudoTcpFifo buffer).
#[export] Instance set_buffer_length : Setter buffer_length :=
  ltac:(derive_setter eta_PseudoTcpFifo buffer_length).
#[export] Instance set_data_length : Setter data_length :=
  ltac:(derive_setter eta_PseudoTcpFifo data_length).
#[export] Instance set_read_position : Setter read_position :=
  ltac:(derive_setter eta_PseudoTcpFifo read_position).

(** The zeroed structure of [g_new0]. *)
Definition fifo_zero : PseudoTcpFifo :=
  {| buffer := []; buffer_length := 0; data_length := 0; read_position := 0 |}.

Definition pseudo_tcp_fifo_init `{SliceAlloc} (b : PseudoTcpFifo) (size : Z) : PseudoTcpFifo :=
  b <| buffer := g_slice_alloc size |> <| buffer_length := size |>.

Definition pseudo_tcp_fifo_clear (b : PseudoTcpFifo) : PseudoTcpFifo :=
  b <| buffer := [] |> <| buffer_length := 0 |>.

Definition pseudo_tcp_fifo_get_buffered (b : PseudoTcpFifo) : Z := data_length b.

Definition pseudo_tcp_fifo_set_capacity `{SliceAlloc} (b : PseudoTcpFifo) (size : Z)
  : outcome (bool * PseudoTcpFifo) :=
  if size <? data_length b then mret (false, b)
  else if negb (size =? data_length b) then
    let fresh := g_slice_alloc size in
    let copy := data_length b in
    let tail_copy := Z.min copy (u64 (buffer_length b - read_position b)) in
    x ← slice (buffer b) (read_position b) tail_copy;
    fresh ← store fresh 0 x;
    y ← slice (buffer b) 0 (u64 (copy - tail_copy));
    fresh ← store fresh tail_copy y;
    mret (true, b <| buffer := fresh |> <| buffer_length := size |> <| read_position := 0 |>)
  else mret (true, b).

Definition pseudo_tcp_fifo_consume_read_data (b : PseudoTcpFifo) (size : Z)
  : outcome PseudoTcpFifo :=
  assert_ (size <=? data_length b);;
  rp ← umod (u64 (read_position b + size)) (buffer_length b);
  mret (b <| read_position := rp |> <| data_length := data_length b - size |>).

Definition pseudo_tcp_fifo_consume_write_buffer (b : PseudoTcpFifo) (size : Z)
  : outcome PseudoTcpFifo :=
  assert_ (size <=? u64 (buffer_length b - data_length b));;
  mret (b <| data_length := u64 (data_length b + size) |>).

Definition pseudo_tcp_fifo_get_write_remaining (b : PseudoTcpFifo) : Z :=
  u64 (buffer_length b - data_length b).

(** The octets copied out; their number is the value returned. *)
Definition pseudo_tcp_fifo_read_offset (b : PseudoTcpFifo) (n offset : Z) : outcome bytes :=
  let available := u64 (data_length b - offset) in
  rp ← umod (u64 (read_position b + offset)) (buffer_length b);
  let copy := Z.min n available in
  let tail_copy := Z.min copy (u64 (buffer_length b - rp)) in
  if data_length b <=? offset then mret []
  else
    x ← slice (buffer b) rp tail_copy;
    y ← slice (buffer b) 0 (copy - tail_copy);
    mret (x ++ y).

Definition pseudo_tcp_fifo_write_offset (b : PseudoTcpFifo) (src : bytes) (n offset : Z)
  : outcome (Z * PseudoTcpFifo) :=
  let available := u64 (buffer_length b - data_length b - offset) in
  wp ← umod (u64 (read_position b + data_length b + offset)) (buffer_length b);
  let copy := Z.min n available in
  let tail_copy := Z.min copy (u64 (buffer_length b - wp)) in
  if buffer_length b <=? u64 (data_length b + offset) then mret (0, b)
  else
    x ← slice src 0 tail_copy;
    m ← store (buffer b) wp x;
    y ← slice src tail_copy (copy - tail_copy);
    m ← store m 0 y;
    mret (copy, b <| buffer := m |>).

Definition pseudo_tcp_fifo_read (b : PseudoTcpFifo) (n : Z) : outcome (bytes * PseudoTcpFifo) :=
  x ← pseudo_tcp_fifo_read_offset b n 0;
  rp ← umod (u64 (read_position b + zlen x)) (buffer_length b);
  mret (x, b <| read_position := rp |> <| data_length := u64 (data_length b - zlen x) |>).

Definition pseudo_tcp_fifo_write (b : PseudoTcpFifo) (src : bytes) (n : Z)
  : outcome (Z * PseudoTcpFifo) :=
  '(copy, b) ← pseudo_tcp_fifo_write_offset b src n 0;
  mret (copy, b <| data_length := u64 (data_length b + copy) |>).

(** ** The abstract queue

    [ring b]: the buffer rotated to the read position.  [contents b]: the
    octets buffered, oldest first. *)
Definition ring (b : PseudoTcpFifo) : bytes :=
  drop (Z.to_nat (read_position b)) (buffer b) ++ take (Z.to_nat (read_position b)) (buffer b).
Definition contents (b : PseudoTcpFifo) : bytes := take (Z.to_nat (data_length b)) (ring b).

Record fifo_ok (b : PseudoTcpFifo) : Prop := {
  fo_len : zlen (buffer b) = buffer_length b;
  fo_pos : 0 < buffer_length b;
  fo_max : buffer_length b ≤ 2 ^ 32;
  fo_rp : 0 ≤ read_position b < buffer_length b;
  fo_dl : 0 ≤ data_length b ≤ buffer_length b
}.

Lemma ring_length b : fifo_ok b → zlen (ring b) = buffer_length b.
Proof. intros [H1 H2 H3 H4 H5]. unfold ring. rewrite zlen_app, zlen_drop, zlen_take by lia. lia. Qed.

Lemma contents_length b : fifo_ok b → zlen (contents b) = data_length b.
Proof.
  intros H. unfold contents. rewrite zlen_take; [done |]. rewrite (ring_length b H). apply H.
Qed.

(** The two blocks [memcpy] touches are one block of the rotated buffer. *)
Lemma ring_slice (m : bytes) rp off n :
  0 ≤ rp < zlen m → 0 ≤ off → 0 ≤ n → off + n ≤ zlen m →
  let p := (rp + off) mod zlen m in
  let t := Z.min n (zlen m - p) in
  ∃ x y, slice m p t = Done x ∧ slice m 0 (n - t) = Done y ∧
    x ++ y = take (Z.to_nat n) (drop (Z.to_nat off) (drop (Z.to_nat rp) m ++ take (Z.to_nat rp) m)).
Proof.
  intros Hrp Ho Hn Hle. cbn zeta. set (p := (rp + off) mod zlen m).
  set (t := Z.min n (zlen m - p)). assert (Ep : p = (rp + off) mod zlen m) by done.
  assert (Et : t = Z.min n (zlen m - p)) by done. clearbody p t.
  assert (0 < zlen m) by lia.
  destruct (split_at m rp) as (a & c & -> & Ha); [lia |].
  autorewrite with zlen in *.
  assert (E : drop (Z.to_nat rp) (a ++ c) ++ take (Z.to_nat rp) (a ++ c) = c ++ a).
  { rewrite take_app_length', drop_app_length' by (unfold zlen in *; lia). done. }
  rewrite E; clear E.
  destruct (Z.lt_ge_cases (rp + off) (zlen a + zlen c)) as [Hw | Hw].
  - assert (Hp : p = rp + off) by (rewrite Ep; apply Z.mod_small; lia).
    destruct (split_at c off) as (c1 & c2 & -> & Hc1); [lia |].
    autorewrite with zlen in *.
    rewrite <- (app_assoc c1 c2 a).
    rewrite (drop_app_length' c1) by (unfold zlen in *; lia).
    destruct (Z.le_gt_cases n (zlen c2)) as [Hn2 | Hn2].
    + assert (Ht : t = n) by lia. rewrite Ht, Hp.
      destruct (split_at c2 n) as (d1 & d2 & -> & Hd1); [lia |].
      exists d1, []. split_and!.
      * rewrite (app_assoc a c1). apply slice_app; slia.
      * replace (n - n) with 0 by lia. apply (slice_app [] []); done.
      * rewrite app_nil_r, <- (app_assoc d1). rewrite take_app_length'; [done | unfold zlen in *; lia].
    + assert (Ht : t = zlen c2) by lia. rewrite Ht, Hp.
      destruct (split_at a (n - zlen c2)) as (d1 & d2 & -> & Hd1); [lia |].
      exists c2, d1. split_and!.
      * rewrite (app_assoc _ c1 c2), <- (app_nil_r c2) at 1.

        apply slice_app; slia.
      * rewrite <- !app_assoc. apply (slice_app []); slia.
      * rewrite (app_assoc c2 d1). rewrite take_app_length'; [done |].
        rewrite length_app. unfold zlen in *; lia.
  - assert (Hp : p = off - zlen c).
    { rewrite Ep. symmetry. apply (Z.mod_unique_pos _ _ 1); lia. }
    assert (Ht : t = n) by lia. rewrite Ht, Hp.
    destruct (split_at a (off - zlen c)) as (a1 & a2 & -> & Ha1); [slia |].
    autorewrite with zlen in *.
    destruct (split_at a2 n) as (d1 & d2 & -> & Hd1); [lia |].
    exists d1, []. split_and!.
    + rewrite <- !app_assoc. apply slice_app; slia.
    + replace (n - n) with 0 by lia. apply (slice_app [] []); done.
    + rewrite app_nil_r, (app_assoc c a1). rewrite drop_app_length' by
        (rewrite length_app; unfold zlen in *; lia).
      rewrite take_app_length'; [done | unfold zlen in *; lia].
Qed.

Definition rot (m : bytes) (rp : Z) : bytes := drop (Z.to_nat rp) m ++ take (Z.to_nat rp) m.

Lemma rot_app (a c : bytes) rp : zlen a = rp → rot (a ++ c) rp = c ++ a.
Proof.
  intros H. unfold rot. by rewrite take_app_length', drop_app_length' by (unfold zlen in *; lia).
Qed.

Lemma ring_store (m src : bytes) rp off :
  0 ≤ rp < zlen m → 0 ≤ off → off + zlen src ≤ zlen m →
  let p := (rp + off) mod zlen m in
  let t := Z.min (zlen src) (zlen m - p) in
  ∃ m1 m2, store m p (take (Z.to_nat t) src) = Done m1 ∧
    store m1 0 (drop (Z.to_nat t) src) = Done m2 ∧ zlen m2 = zlen m ∧
    store (rot m rp) off src = Done (rot m2 rp).
Proof.
  intros Hrp Ho Hle. cbn zeta. set (p := (rp + off) mod zlen m).
  set (t := Z.min (zlen src) (zlen m - p)). assert (Ep : p = (rp + off) mod zlen m) by done.
  assert (Et : t = Z.min (zlen src) (zlen m - p)) by done. clearbody p t.
  destruct (split_at m rp) as (a & c & -> & Ha); [lia |].
  rewrite rot_app by done. autorewrite with zlen in *. zlen_pos.
  destruct (Z.lt_ge_cases (rp + off) (zlen a + zlen c)) as [Hw | Hw].
  - assert (Hp : p = rp + off) by (rewrite Ep; apply Z.mod_small; lia).
    destruct (split_at c off) as (c1 & c2 & -> & Hc1); [lia |].
    autorewrite with zlen in *. zlen_pos.
    destruct (Z.le_gt_cases (zlen src) (zlen c2)) as [Hn2 | Hn2].
    + assert (Ht : t = zlen src) by lia.
      destruct (split_at c2 (zlen src)) as (d1 & d2 & -> & Hd1); [lia |].
      rewrite take_ge, drop_ge by (unfold zlen in *; lia).
      exists (a ++ c1 ++ src ++ d2), (a ++ c1 ++ src ++ d2). split_and!.
      * rewrite (app_assoc a c1 (d1 ++ d2)), (app_assoc a c1 (src ++ d2)). apply store_app; slia.
      * apply store_nil. slia.
      * slia.
      * rewrite rot_app by done. rewrite <- !app_assoc. apply store_app; slia.
    + assert (Ht : t = zlen c2) by lia.
      destruct (split_at src t) as (s1 & s2 & -> & Hs1); [lia |].
      autorewrite with zlen in *. zlen_pos.
      rewrite take_app_length', drop_app_length' by (unfold zlen in *; lia).
      destruct (split_at a (zlen s2)) as (d1 & d2 & -> & Hd1); [lia |].
      exists ((d1 ++ d2) ++ c1 ++ s1), ((s2 ++ d2) ++ c1 ++ s1). split_and!.
      * pose proof (store_app ((d1 ++ d2) ++ c1) c2 [] s1 p ltac:(slia) ltac:(slia)) as X.
        rewrite !app_nil_r, <- !app_assoc in X. by rewrite <- !app_assoc.
      * rewrite <- !app_assoc. apply (store_app []); slia.
      * slia.
      * rewrite rot_app by slia. rewrite <- !app_assoc, (app_assoc c2 d1), (app_assoc s1 s2).
        apply store_app; slia.
  - assert (Hp : p = off - zlen c).
    { rewrite Ep. symmetry. apply (Z.mod_unique_pos _ _ 1); lia. }
    assert (Ht : t = zlen src) by lia.
    rewrite take_ge, drop_ge by (unfold zlen in *; lia).
    destruct (split_at a (off - zlen c)) as (a1 & a2 & -> & Ha1); [slia |].
    autorewrite with zlen in *. zlen_pos.
    destruct (split_at a2 (zlen src)) as (d1 & d2 & -> & Hd1); [lia |].
    autorewrite with zlen in *. zlen_pos.
    exists ((a1 ++ src ++ d2) ++ c), ((a1 ++ src ++ d2) ++ c). split_and!.
    + rewrite <- !app_assoc. apply store_app; slia.
    + apply store_nil. slia.
    + slia.
    + rewrite rot_app by slia. rewrite !(app_assoc c a1). apply store_app; slia.
Qed.

(** ** What each operation does to the queue *)

Lemma u64_in z : 0 ≤ z → z ≤ 2 ^ 40 → u64 z = z.
Proof. intros. apply u64_small. unfold is_u64. lia. Qed.

Lemma umod_in a n : 0 < n → umod a n = Done (a mod n).
Proof. intros. unfold umod. by destruct (Z.eqb_spec n 0); [lia |]. Qed.

Lemma fifo_init_ok `{SliceAlloc} size :
  0 < size ≤ 2 ^ 32 →
  fifo_ok (pseudo_tcp_fifo_init fifo_zero size) ∧
  contents (pseudo_tcp_fifo_init fifo_zero size) = [].
Proof.
  intros Hs. split; [| done]. split; cbn; try lia. apply g_slice_alloc_length; lia.
Qed.

Lemma fifo_read_offset_spec b n offset :
  fifo_ok b → 0 ≤ n ≤ 2 ^ 32 → 0 ≤ offset ≤ 2 ^ 32 →
  pseudo_tcp_fifo_read_offset b n offset =
    Done (take (Z.to_nat n) (drop (Z.to_nat offset) (contents b))).
Proof.
  intros Hb Hn Ho. pose proof Hb as [H1 H2 H3 H4 H5]. unfold pseudo_tcp_fifo_read_offset.
  rewrite umod_in by done. cbn [mbind outcome_bind].
  pose proof (contents_length b Hb) as Hc.
  destruct (Z.leb_spec (data_length b) offset) as [Hd | Hd].
  { by rewrite (drop_ge (contents b)), take_nil by (unfold zlen in *; lia). }
  rewrite !(u64_in (_ - offset)), (u64_in (_ + offset)) by lia.
  set (p := (read_position b + offset) mod buffer_length b).
  assert (0 ≤ p < buffer_length b) by (apply Z.mod_pos_bound; lia).
  rewrite u64_in by lia. set (copy := Z.min n (data_length b - offset)).
  destruct (ring_slice (buffer b) (read_position b) offset copy) as (x & y & Hx & Hy & E);
    [lia.. |].
  rewrite H1 in Hx, Hy. fold p in Hx, Hy. rewrite Hx. cbn [mbind outcome_bind]. rewrite Hy.
  cbn [mbind outcome_bind mret outcome_ret]. f_equal. rewrite E.
  unfold contents, ring. rewrite skipn_firstn_comm, take_take. f_equal. lia.
Qed.

(** Moving the read position rotates the buffer. *)
Definition fifo_skip (b : PseudoTcpFifo) (k : Z) : PseudoTcpFifo :=
  b <| read_position := (read_position b + k) mod buffer_length b |>
    <| data_length := data_length b - k |>.

Lemma rot_step (m : bytes) rp k :
  0 ≤ rp < zlen m → 0 ≤ k ≤ zlen m →
  rot m ((rp + k) mod zlen m) = rot (rot m rp) k.
Proof.
  intros Hrp Hk. destruct (split_at m rp) as (a & c & -> & Ha); [lia |].
  rewrite (rot_app a c rp) by done. autorewrite with zlen in *. zlen_pos.
  destruct (Z.lt_ge_cases k (zlen c)) as [Hc | Hc].
  - rewrite Z.mod_small by lia. destruct (split_at c k) as (c1 & c2 & -> & Hc1); [lia |].
    rewrite <- (app_assoc c1 c2 a), (app_assoc a c1 c2), (rot_app (a ++ c1) c2),
      (rot_app c1 (c2 ++ a)) by slia. by rewrite app_assoc.
  - rewrite <- (Z.mod_unique_pos _ (zlen a + zlen c) 1 (k - zlen c)) by lia.
    destruct (split_at a (k - zlen c)) as (a1 & a2 & -> & Ha1); [lia |].
    rewrite <- (app_assoc a1 a2 c), (rot_app a1 (a2 ++ c)) by done.
    rewrite (app_assoc c a1 a2), (rot_app (c ++ a1) a2) by slia. by rewrite app_assoc.
Qed.

Lemma fifo_skip_ok b k :
  fifo_ok b → 0 ≤ k ≤ data_length b →
  fifo_ok (fifo_skip b k) ∧ ring (fifo_skip b k) = rot (ring b) k ∧
  contents (fifo_skip b k) = drop (Z.to_nat k) (contents b).
Proof.
  intros Hb Hk. pose proof Hb as [H1 H2 H3 H4 H5].
  assert (Hr : ring (fifo_skip b k) = rot (ring b) k).
  { unfold ring at 1, fifo_skip; cbn. rewrite <- H1. apply rot_step; lia. }
  split_and!; [split; cbn; try lia; by apply Z.mod_pos_bound | done |].
  unfold contents. rewrite Hr. cbn. pose proof (ring_length b Hb).
  destruct (split_at (ring b) k) as (x & y & E & Hx); [lia |].
  rewrite E in *. rewrite rot_app by done.
  rewrite (take_app_le y) by (autorewrite with zlen in *; unfold zlen in *; lia).
  rewrite skipn_firstn_comm, drop_app_length' by (unfold zlen in *; lia).
  f_equal. lia.
Qed.

Lemma fifo_consume_read_spec b k :
  fifo_ok b → 0 ≤ k ≤ data_length b →
  pseudo_tcp_fifo_consume_read_data b k = Done (fifo_skip b k).
Proof.
  intros [H1 H2 H3 H4 H5] Hk. unfold pseudo_tcp_fifo_consume_read_data.
  destruct (Z.leb_spec k (data_length b)); [| lia].
  rewrite u64_in, umod_in by lia. done.
Qed.

Lemma fifo_consume_read_asserts b k :
  data_length b < k → pseudo_tcp_fifo_consume_read_data b k = Ub.
Proof.
  intros. unfold pseudo_tcp_fifo_consume_read_data.
  by destruct (Z.leb_spec k (data_length b)); [lia |].
Qed.

Lemma fifo_read_spec b n :
  fifo_ok b → 0 ≤ n ≤ 2 ^ 32 →
  pseudo_tcp_fifo_read b n =
    Done (take (Z.to_nat n) (contents b), fifo_skip b (Z.min n (data_length b))).
Proof.
  intros Hb Hn. pose proof Hb as [H1 H2 H3 H4 H5]. unfold pseudo_tcp_fifo_read.
  rewrite fifo_read_offset_spec by (done || lia). cbn [mbind outcome_bind drop].
  assert (Hl : zlen (take (Z.to_nat n) (contents b)) = Z.min n (data_length b)).
  { pose proof (contents_length b Hb). unfold zlen in *. rewrite length_take. lia. }
  rewrite drop_0, Hl, !u64_in, umod_in by lia. done.
Qed.

(** Octets become readable once the length covers them. *)
Definition fifo_grow (b : PseudoTcpFifo) (k : Z) : PseudoTcpFifo :=
  b <| data_length := data_length b + k |>.

Lemma fifo_grow_ok b k :
  fifo_ok b → 0 ≤ k ≤ buffer_length b - data_length b →
  fifo_ok (fifo_grow b k) ∧ ring (fifo_grow b k) = ring b.
Proof. intros [H1 H2 H3 H4 H5] Hk. split; [split; cbn; lia | done]. Qed.

Lemma fifo_write_remaining_spec b :
  fifo_ok b → pseudo_tcp_fifo_get_write_remaining b = buffer_length b - data_length b.
Proof. intros [H1 H2 H3 H4 H5]. apply u64_in; lia. Qed.

Lemma fifo_consume_write_spec b k :
  fifo_ok b → 0 ≤ k ≤ buffer_length b - data_length b →
  pseudo_tcp_fifo_consume_write_buffer b k = Done (fifo_grow b k).
Proof.
  intros [H1 H2 H3 H4 H5] Hk. unfold pseudo_tcp_fifo_consume_write_buffer.
  rewrite !u64_in by lia. by destruct (Z.leb_spec k (buffer_length b - data_length b)); [| lia].
Qed.

Lemma fifo_write_offset_spec b src n offset :
  fifo_ok b → 0 ≤ n ≤ zlen src → 0 ≤ offset ≤ 2 ^ 32 →
  data_length b + offset < buffer_length b →
  let copy := Z.min n (buffer_length b - data_length b - offset) in
  ∃ b', pseudo_tcp_fifo_write_offset b src n offset = Done (copy, b') ∧ fifo_ok b' ∧
    buffer_length b' = buffer_length b ∧ data_length b' = data_length b ∧
    store (ring b) (data_length b + offset) (take (Z.to_nat copy) src) = Done (ring b').
Proof.
  intros Hb Hn Ho Hd copy. pose proof Hb as [H1 H2 H3 H4 H5]. unfold pseudo_tcp_fifo_write_offset.
  rewrite !(u64_in (_ - offset)), !(u64_in (_ + offset)), umod_in by lia.
  cbn [mbind outcome_bind]. fold copy.
  set (p := (read_position b + data_length b + offset) mod buffer_length b).
  assert (0 ≤ p < buffer_length b) by (apply Z.mod_pos_bound; lia).
  rewrite u64_in by lia.
  destruct (Z.leb_spec (buffer_length b) (data_length b + offset)); [lia |].
  assert (Hcl : zlen (take (Z.to_nat copy) src) = copy) by (apply zlen_take; lia).
  destruct (ring_store (buffer b) (take (Z.to_nat copy) src) (read_position b)
    (data_length b + offset)) as (m1 & m2 & Hs1 & Hs2 & Hl & Hr); [lia.. |].
  rewrite H1, Hcl, Z.add_assoc in Hs1, Hs2. fold p in Hs1, Hs2.
  set (t := Z.min copy (buffer_length b - p)) in *.
  destruct (slice_in src 0 t) as (x & Hx & _); [lia.. |].
  assert (x = take (Z.to_nat t) (take (Z.to_nat copy) src)) as ->.
  { revert Hx. unfold slice. case_match; [| done]. intros [= <-].
    rewrite take_take. f_equal. lia. }
  rewrite Hx. cbn [mbind outcome_bind]. rewrite Hs1. cbn [mbind outcome_bind].
  destruct (slice_in src t (copy - t)) as (y & Hy & _); [lia.. |].
  assert (y = drop (Z.to_nat t) (take (Z.to_nat copy) src)) as ->.
  { revert Hy. unfold slice. case_match; [| done]. intros [= <-].
    rewrite skipn_firstn_comm. f_equal. lia. }
  rewrite Hy. cbn [mbind outcome_bind]. rewrite Hs2. cbn [mbind outcome_bind mret outcome_ret].
  eexists. split_and!; [done | split; cbn; lia | done | done | exact Hr].
Qed.

Lemma fifo_write_offset_full b src n offset :
  fifo_ok b → 0 ≤ offset ≤ 2 ^ 32 → buffer_length b ≤ data_length b + offset →
  pseudo_tcp_fifo_write_offset b src n offset = Done (0, b).
Proof.
  intros [H1 H2 H3 H4 H5] Ho Hd. unfold pseudo_tcp_fifo_write_offset.
  rewrite (u64_in (data_length b + offset)), umod_in by lia. cbn [mbind outcome_bind].
  by destruct (Z.leb_spec (buffer_length b) (data_length b + offset)); [| lia].
Qed.

Lemma fifo_write_spec b src n :
  fifo_ok b → 0 ≤ n ≤ zlen src →
  let copy := Z.min n (buffer_length b - data_length b) in
  ∃ b', pseudo_tcp_fifo_write b src n = Done (copy, b') ∧ fifo_ok b' ∧
    buffer_length b' = buffer_length b ∧
    data_length b' = data_length b + copy ∧
    contents b' = contents b ++ take (Z.to_nat copy) src.
Proof.
  intros Hb Hn copy. pose proof Hb as [H1 H2 H3 H4 H5]. unfold pseudo_tcp_fifo_write.
  destruct (Z.lt_ge_cases (data_length b) (buffer_length b)) as [Hd | Hd].
  - destruct (fifo_write_offset_spec b src n 0) as (b' & E & Hb' & Hbl & Hdl & Hr); [done | lia.. |].
    rewrite Z.sub_0_r in *. fold copy in E, Hr. rewrite E. cbn [mbind outcome_bind mret outcome_ret].
    rewrite u64_in by lia. exists (fifo_grow b' copy).
    split_and!; [by unfold fifo_grow | apply fifo_grow_ok; [done | lia] | done | cbn; lia |].
    apply store_inv in Hr as (a & b0 & c & Ea & Eb & Ha & Hb0).
    unfold contents. change (ring (fifo_grow b' copy)) with (ring b').
    change (data_length (fifo_grow b' copy)) with (data_length b' + copy).
    rewrite Ea, Eb. rewrite zlen_take in Hb0 by lia.
    rewrite Z.add_0_r in Ha. rewrite (take_app_length' a (b0 ++ c)) by (unfold zlen in *; lia).
    rewrite app_assoc, take_app_length'; [done |].
    rewrite length_app, length_take. unfold zlen in *. lia.
  - rewrite fifo_write_offset_full by (done || lia). cbn [mbind outcome_bind mret outcome_ret].
    replace copy with 0 by lia. rewrite u64_in by lia. exists (fifo_grow b 0).
    split_and!; [by unfold fifo_grow | apply fifo_grow_ok; [done | lia] | done | cbn; lia |].
    unfold contents, fifo_grow. cbn. by rewrite Z.add_0_r, app_nil_r.
Qed.

Lemma fifo_set_capacity_spec `{SliceAlloc} b size :
  fifo_ok b → data_length b < size ≤ 2 ^ 32 →
  ∃ b', pseudo_tcp_fifo_set_capacity b size = Done (true, b') ∧ fifo_ok b' ∧
    contents b' = contents b ∧ buffer_length b' = size ∧ data_length b' = data_length b.
Proof.
  intros Hb Hs. pose proof Hb as [H1 H2 H3 H4 H5]. unfold pseudo_tcp_fifo_set_capacity.
  destruct (Z.ltb_spec size (data_length b)); [lia |].
  destruct (Z.eqb_spec size (data_length b)); [lia |]. cbn [negb].
  destruct (ring_slice (buffer b) (read_position b) 0 (data_length b)) as (x & y & Hx & Hy & E);
    [lia.. |].
  rewrite Z.add_0_r, Z.mod_small, H1 in Hx, Hy by lia. change (Z.to_nat 0) with O in E.
  rewrite drop_0 in E. change (x ++ y = contents b) in E.
  rewrite !u64_in by lia. rewrite Hx. cbn [mbind outcome_bind].
  set (t := Z.min (data_length b) (buffer_length b - read_position b)) in *.
  assert (Hxl : zlen x = t) by (apply slice_inv in Hx as (? & ? & ? & ? & ?); done).
  assert (Hyl : zlen y = data_length b - t) by (apply slice_inv in Hy as (? & ? & ? & ? & ?); done).
  pose proof (g_slice_alloc_length size ltac:(lia)) as Hf.
  destruct (split_at (g_slice_alloc size) t) as (f1 & f2 & Ef & Hf1); [lia |]. rewrite Ef in *.
  destruct (split_at f2 (data_length b - t)) as (f2a & f2b & -> & Hf2);
      [autorewrite with zlen in Hf; lia |]. autorewrite with zlen in Hf. zlen_pos.
  rewrite (store_app [] f1 (f2a ++ f2b) x) by (done || lia).
  cbn [mbind outcome_bind app]. rewrite Hy. cbn [mbind outcome_bind].
  rewrite (store_app x f2a f2b y) by lia. cbn [mbind outcome_bind mret outcome_ret].
  eexists. split_and!; [done | split; cbn; autorewrite with zlen in *; lia | | done | done].
  unfold contents at 1, ring. cbn. rewrite drop_0, app_nil_r, app_assoc, E.
  apply take_app_length'. pose proof (contents_length b Hb). unfold zlen in *. lia.
Qed.

Lemma fifo_set_capacity_ok `{SliceAlloc} b size :
  fifo_ok b → data_length b ≤ size ≤ 2 ^ 32 →
  ∃ b', pseudo_tcp_fifo_set_capacity b size = Done (true, b') ∧ fifo_ok b'.
Proof.
  intros Hb Hs. destruct (decide (size = data_length b)) as [-> | Hne].
  - unfold pseudo_tcp_fifo_set_capacity. rewrite Z.ltb_irrefl, Z.eqb_refl. eauto.
  - destruct (fifo_set_capacity_spec b size) as (b' & ? & ? & _); [done | lia |]. eauto.
Qed.

(** ** Refinement: the ring is a bounded queue of octets *)

Record Queue := { q_bytes : bytes; q_cap : Z }.

Inductive FifoOp :=
| OpRead (n : Z)
| OpReadOffset (n offset : Z)
| OpConsume (n : Z)
| OpWrite (src : bytes) (n : Z)
| OpSetCapacity (size : Z).

Inductive FifoResult := RBytes (x : bytes) | RSize (n : Z) | RBool (b : bool) | RUnit.

Definition fifo_op `{SliceAlloc} (b : PseudoTcpFifo) (op : FifoOp)
  : outcome (FifoResult * PseudoTcpFifo) :=
  match op with
  | OpRead n => '(x, b) ← pseudo_tcp_fifo_read b n; mret (RBytes x, b)
  | OpReadOffset n o => x ← pseudo_tcp_fifo_read_offset b n o; mret (RBytes x, b)
  | OpConsume n => b ← pseudo_tcp_fifo_consume_read_data b n; mret (RUnit, b)
  | OpWrite src n => '(k, b) ← pseudo_tcp_fifo_write b src n; mret (RSize k, b)
  | OpSetCapacity size => '(r, b) ← pseudo_tcp_fifo_set_capacity b size; mret (RBool r, b)
  end.

(** The bounded queue: a capacity equal to the number of octets held is
    ignored. *)
Definition queue_op (q : Queue) (op : FifoOp) : FifoResult * Queue :=
  let len := zlen (q_bytes q) in
  match op with
  | OpRead n =>
      (RBytes (take (Z.to_nat n) (q_bytes q)),
       {| q_bytes := drop (Z.to_nat n) (q_bytes q); q_cap := q_cap q |})
  | OpReadOffset n o => (RBytes (take (Z.to_nat n) (drop (Z.to_nat o) (q_bytes q))), q)
  | OpConsume n => (RUnit, {| q_bytes := drop (Z.to_nat n) (q_bytes q); q_cap := q_cap q |})
  | OpWrite src n =>
      let k := Z.min n (q_cap q - len) in
      (RSize k, {| q_bytes := q_bytes q ++ take (Z.to_nat k) src; q_cap := q_cap q |})
  | OpSetCapacity size =>
      if size <? len then (RBool false, q)
      else (RBool true, {| q_bytes := q_bytes q;
                           q_cap := if size =? len then q_cap q else size |})
  end.

(** What the callers guarantee: [guint32] counts, a source at least as long as
    the count, and nothing consumed that is not there. *)
Definition op_ok (q : Queue) (op : FifoOp) : Prop :=
  match op with
  | OpRead n => 0 ≤ n ≤ 2 ^ 32
  | OpReadOffset n o => 0 ≤ n ≤ 2 ^ 32 ∧ 0 ≤ o ≤ 2 ^ 32
  | OpConsume n => 0 ≤ n ≤ zlen (q_bytes q)
  | OpWrite src n => 0 ≤ n ≤ zlen src
  | OpSetCapacity size => 0 ≤ size ≤ 2 ^ 32
  end.

Definition queue_of (b : PseudoTcpFifo) : Queue :=
  {| q_bytes := contents b; q_cap := buffer_length b |}.

(** C35: the ring buffer refines a bounded queue: from a well-formed ring,
    every operation whose arguments are in range returns without touching
    memory outside the buffer, leaves a well-formed ring, and its result and
    the octets buffered are those of the operation on the list. *)
Theorem fifo_refines_queue `{SliceAlloc} b op :
  fifo_ok b → op_ok (queue_of b) op →
  ∃ r b', fifo_op b op = Done (r, b') ∧ fifo_ok b' ∧ queue_op (queue_of b) op = (r, queue_of b').
Proof.
  intros Hb Hop. pose proof (contents_length b Hb) as Hc. pose proof Hb as [H1 H2 H3 H4 H5].
  destruct op as [n | n o | n | src n | size]; cbn [op_ok fifo_op queue_op q_bytes q_cap queue_of] in *.
  - rewrite fifo_read_spec by done. cbn.
    destruct (fifo_skip_ok b (Z.min n (data_length b))) as (Hok & _ & Hd); [done | lia |].
    do 2 eexists. split_and!; [done | done |]. unfold queue_of. rewrite Hd. do 2 f_equal.
    destruct (Z.le_gt_cases n (data_length b)); [by rewrite Z.min_l |].
    rewrite !drop_ge by (unfold zlen in *; lia). done.
  - rewrite fifo_read_offset_spec by (done || lia). cbn. do 2 eexists. split_and!; done.
  - rewrite fifo_consume_read_spec by (done || lia). cbn.
    destruct (fifo_skip_ok b n) as (Hok & _ & Hd); [done | lia |].
    do 2 eexists. split_and!; [done | done |]. unfold queue_of. by rewrite Hd.
  - destruct (fifo_write_spec b src n) as (b' & E & Hok & Hbl & Hdl & Hct); [done | done |].
    rewrite E. cbn. do 2 eexists. split_and!; [done | done |]. unfold queue_of.
    by rewrite Hct, Hbl, Hc.
  - destruct (Z.ltb_spec size (zlen (contents b))) as [Hs | Hs].
    { unfold pseudo_tcp_fifo_set_capacity. destruct (Z.ltb_spec size (data_length b)); [| lia].
      cbn. do 2 eexists. split_and!; done. }
    destruct (Z.eqb_spec size (zlen (contents b))) as [He | He].
    { unfold pseudo_tcp_fifo_set_capacity. rewrite He, Hc, Z.ltb_irrefl, Z.eqb_refl. cbn.
      do 2 eexists. split_and!; done. }
    destruct (fifo_set_capacity_spec b size) as (b' & E & Hok & Hct & Hbl & Hdl); [done | lia |].
    rewrite E. cbn. do 2 eexists. split_and!; [done | done |]. unfold queue_of. by rewrite Hct, Hbl.
Qed.

Definition zero_alloc : SliceAlloc.
Proof.
  refine {| g_slice_alloc := λ n, replicate (Z.to_nat n) 0 |}.
  intros n Hn. rewrite zlen_replicate. lia.
Defined.

(** A ring of six octets whose four octets of data wrap around. *)
Definition wrapped_fifo : PseudoTcpFifo :=
  {| buffer := [3; 4; 0; 0; 1; 2]; buffer_length := 6; data_length := 4; read_position := 4 |}.

Lemma fifo_refines_queue_witness :
  contents wrapped_fifo = [1; 2; 3; 4] ∧
  ∃ r b', @fifo_op zero_alloc wrapped_fifo (OpWrite [5; 6; 7] 3) = Done (r, b') ∧
    fifo_ok b' ∧ queue_op (queue_of wrapped_fifo) (OpWrite [5; 6; 7] 3) = (r, queue_of b').
Proof.
  split; [done |]. apply (@fifo_refines_queue zero_alloc).
  - split; vm_compute; split_and?; congruence.
  - vm_compute; split; congruence.
Defined.
