(* ===== verification/PseudoTcp.v ===== *)
(** * The pseudo-TCP socket (agent/pseudotcp.c)

    The whole socket: the segment queues, the congestion and retransmission
    state, the state machine and every entry point.  A socket is a record; a
    routine is a computation of [StateMonad] over it.

    Outgoing segments live in a store, [ssegs]: [slist] and [unsent_slist]
    hold their addresses and share them, as the two queues of the code share
    the [SSegment] objects.  Incoming segments are never shared and are kept
    by value.  [g_slice_free] removes the address; reading a freed or NULL
    segment is undefined.

    The callbacks write to [trace], newest first; what [WritePacket] answers
    may depend on everything that was written before.  The user's callbacks do
    not call back into the socket. *)

From S2P Require Import Prelude Bytes StateMonad PseudoTcpFifo.
From stdpp Require Import gmap.

#[global] Open Scope Z_scope.

(** ** Constants *)

Definition PACKET_MAXIMUMS : list Z :=
  [65535; 32000; 17914; 8166; 4352; 2002; 1492; 1006; 508; 296; 0].
Definition DEF_MTU : Z := 1400.
Definition MAX_PACKET : Z := 65532.
Definition MIN_PACKET : Z := 296.
Definition IP_HEADER_SIZE : Z := 20.
Definition UDP_HEADER_SIZE : Z := 8.
Definition JINGLE_HEADER_SIZE : Z := 64.
Definition HEADER_SIZE : Z := 24.
Definition PACKET_OVERHEAD : Z :=
  HEADER_SIZE + UDP_HEADER_SIZE + IP_HEADER_SIZE + JINGLE_HEADER_SIZE.
Definition MIN_RTO : Z := 1000.
Definition DEF_RTO : Z := 1000.
Definition MAX_RTO : Z := 60000.
Definition DEFAULT_ACK_DELAY : Z := 100.
Definition DEFAULT_NO_DELAY : bool := false.
Definition DEFAULT_RCV_BUF_SIZE : Z := 60 * 1024.
Definition DEFAULT_SND_BUF_SIZE : Z := 90 * 1024.

Definition TCP_OPT_EOL : Z := 0.
Definition TCP_OPT_NOOP : Z := 1.
Definition TCP_OPT_MSS : Z := 2.
Definition TCP_OPT_WND_SCALE : Z := 3.
Definition TCP_OPT_FIN_ACK : Z := 254.

Definition FLAG_NONE : Z := 0.
Definition FLAG_FIN : Z := 1.
Definition FLAG_CTL : Z := 2.
Definition FLAG_RST : Z := 4.
Definition CTL_CONNECT : Z := 0.

Definition DEFAULT_TIMEOUT : Z := 4000.
Definition CLOSED_TIMEOUT : Z := 60 * 1000.
Definition TIME_WAIT_TIMEOUT : Z := 1.

(** The values of <errno.h> on Linux. *)
Definition EWOULDBLOCK : Z := 11.
Definition EINVAL : Z := 22.
Definition EPIPE : Z := 32.
Definition EMSGSIZE : Z := 90.
Definition ECONNABORTED : Z := 103.
Definition ECONNRESET : Z := 104.
Definition ENOTCONN : Z := 107.
Definition ETIMEDOUT : Z := 110.

(** ** Modular time and sequence numbers *)

Definition bound (lower middle upper : Z) : Z := Z.min (Z.max lower middle) upper.

Definition time_is_between (later middle earlier : Z) : bool :=
  if earlier <=? later then (earlier <=? middle) && (middle <=? later)
  else negb ((later <? middle) && (middle <? earlier)).

(** The [long] is converted to [gint32]. *)
Definition time_diff (later earlier : Z) : Z :=
  let LAST := 0xFFFFFFFF in
  let HALF := 0x80000000 in
  s32 (if time_is_between (u32 (earlier + HALF)) later earlier then
         if earlier <=? later then u32 (later - earlier)
         else u32 (later + (LAST - earlier) + 1)
       else
         if later <=? earlier then - u32 (earlier - later)
         else - u32 (earlier + (LAST - later) + 1)).

Definition G_MAXUINT32 : Z := 2 ^ 32 - 1.
Definition LARGER (a b : Z) : bool := u32 (a - b - 1) <? Z.shiftr G_MAXUINT32 1.
Definition LARGER_OR_EQUAL (a b : Z) : bool := u32 (a - b) <? Z.shiftr G_MAXUINT32 1.
Definition SMALLER (a b : Z) : bool := LARGER b a.
Definition SMALLER_OR_EQUAL (a b : Z) : bool := LARGER_OR_EQUAL b a.

(** [x << k] of a [guint16] promoted to [int]: undefined when the width is
    exceeded or the value is not representable. *)
Definition shl_int (x k : Z) : outcome Z :=
  if (k <? 32) && (Z.shiftl x k <? 2 ^ 31) then mret (Z.shiftl x k) else Ub.

(** [x >> k] of a [guint32]. *)
Definition shr_u32 (x k : Z) : outcome Z := if k <? 32 then mret (Z.shiftr x k) else Ub.

Definition udiv (a n : Z) : outcome Z := if n =? 0 then Ub else mret (a / n).

(** ** Data *)

Inductive Shutdown := SD_NONE | SD_GRACEFUL | SD_FORCEFUL.
Inductive SendFlags :=
| sfNone | sfDelayedAck | sfImmediateAck | sfFin | sfRst | sfDuplicateAck.
Inductive ClosedownSource := CLOSEDOWN_LOCAL | CLOSEDOWN_REMOTE.
Inductive PseudoTcpWriteResult := WR_SUCCESS | WR_TOO_LARGE | WR_FAIL.
Inductive PseudoTcpShutdown :=
| PSEUDO_TCP_SHUTDOWN_RD | PSEUDO_TCP_SHUTDOWN_WR | PSEUDO_TCP_SHUTDOWN_RDWR.
Inductive PseudoTcpState :=
| PSEUDO_TCP_LISTEN
| PSEUDO_TCP_SYN_SENT
| PSEUDO_TCP_SYN_RECEIVED
| PSEUDO_TCP_ESTABLISHED
| PSEUDO_TCP_CLOSED
| PSEUDO_TCP_FIN_WAIT_1
| PSEUDO_TCP_FIN_WAIT_2
| PSEUDO_TCP_CLOSING
| PSEUDO_TCP_TIME_WAIT
| PSEUDO_TCP_CLOSE_WAIT
| PSEUDO_TCP_LAST_ACK.

#[export] Instance Shutdown_eq_dec : EqDecision Shutdown.
Proof. solve_decision. Defined.
#[export] Instance SendFlags_eq_dec : EqDecision SendFlags.
Proof. solve_decision. Defined.
#[export] Instance ClosedownSource_eq_dec : EqDecision ClosedownSource.
Proof. solve_decision. Defined.
#[export] Instance WriteResult_eq_dec : EqDecision PseudoTcpWriteResult.
Proof. solve_decision. Defined.
#[export] Instance ShutdownHow_eq_dec : EqDecision PseudoTcpShutdown.
Proof. solve_decision. Defined.
#[export] Instance PseudoTcpState_eq_dec : EqDecision PseudoTcpState.
Proof. solve_decision. Defined.

Record Segment := {
  seg_conv : Z;
  seg_seq : Z;
  seg_ack : Z;
  seg_flags : Z;
  seg_wnd : Z;
  seg_data : bytes;
  seg_len : Z;
  seg_tsval : Z;
  seg_tsecr : Z
}.

Record SSegment := { sseg_seq : Z; sseg_len : Z; sseg_xmit : Z; sseg_flags : Z }.
Definition eta_SSegment (g : SSegment) : SSegment :=
  Build_SSegment (sseg_seq g) (sseg_len g) (sseg_xmit g) (sseg_flags g).
#[export] Instance set_sseg_seq : Setter sseg_seq := ltac:(derive_setter eta_SSegment sseg_seq).
#[export] Instance set_sseg_len : Setter sseg_len := ltac:(derive_setter eta_SSegment sseg_len).
#[export] Instance set_sseg_xmit : Setter sseg_xmit := ltac:(derive_setter eta_SSegment sseg_xmit).

Record RSegment := { rseg_seq : Z; rseg_len : Z }.

(** Which of the optional callbacks are set. *)
Record PseudoTcpCallbacks := {
  PseudoTcpOpened : bool;
  PseudoTcpReadable : bool;
  PseudoTcpWritable : bool;
  PseudoTcpClosed : bool
}.

(** The calls of the callbacks. *)
Inductive Event :=
| EvWritePacket (pkt : bytes)
| EvOpened
| EvReadable
| EvWritable
| EvClosed (err : Z).

(** What the socket gets from outside: the allocator, the answer of the
    [WritePacket] callback after the calls made so far, and the successive
    readings of the monotonic clock, in microseconds. *)
Class Env : Type := {
  env_alloc :: SliceAlloc;
  WritePacket : list Event → bytes → PseudoTcpWriteResult;
  g_get_monotonic_time : nat → Z
}.

Record PseudoTcpSocket := {
  callbacks : PseudoTcpCallbacks;
  shutdown : Shutdown;
  shutdown_reads : bool;
  error : Z;
  state : PseudoTcpState;
  conv : Z;
  bReadEnable : bool;
  bWriteEnable : bool;
  bOutgoing : bool;
  last_traffic : Z;
  rlist : list RSegment;
  rbuf_len : Z;
  rcv_nxt : Z;
  rcv_wnd : Z;
  lastrecv : Z;
  rwnd_scale : Z;
  rbuf : PseudoTcpFifo;
  rcv_fin : Z;
  slist : list nat;
  unsent_slist : list nat;
  sbuf_len : Z;
  snd_nxt : Z;
  snd_wnd : Z;
  lastsend : Z;
  snd_una : Z;
  swnd_scale : Z;
  sbuf : PseudoTcpFifo;
  mss : Z;
  msslevel : Z;
  largest : Z;
  mtu_advise : Z;
  rto_base : Z;
  ts_recent : Z;
  ts_lastack : Z;
  rx_rttvar : Z;
  rx_srtt : Z;
  rx_rto : Z;
  ssthresh : Z;
  cwnd : Z;
  dup_acks : Z;
  recover : Z;
  fast_recovery : bool;
  t_ack : Z;
  last_acked_ts : Z;
  use_nagling : bool;
  ack_delay : Z;
  support_wnd_scale : bool;
  current_time : Z;
  support_fin_ack : bool;
  ssegs : gmap nat SSegment;
  next_sseg : nat;
  trace : list Event;
  clock_reads : nat
}.

Definition eta_Socket (s : PseudoTcpSocket) : PseudoTcpSocket :=
  Build_PseudoTcpSocket
    (callbacks s) (shutdown s) (shutdown_reads s) (error s) (state s) (conv s) (bReadEnable s)
    (bWriteEnable s) (bOutgoing s) (last_traffic s) (rlist s) (rbuf_len s) (rcv_nxt s)
    (rcv_wnd s) (lastrecv s) (rwnd_scale s) (rbuf s) (rcv_fin s) (slist s) (unsent_slist s)
    (sbuf_len s) (snd_nxt s) (snd_wnd s) (lastsend s) (snd_una s) (swnd_scale s) (sbuf s)
    (mss s) (msslevel s) (largest s) (mtu_advise s) (rto_base s) (ts_recent s) (ts_lastack s)
    (rx_rttvar s) (rx_srtt s) (rx_rto s) (ssthresh s) (cwnd s) (dup_acks s) (recover s)
    (fast_recovery s) (t_ack s) (last_acked_ts s) (use_nagling s) (ack_delay s)
    (support_wnd_scale s) (current_time s) (support_fin_ack s) (ssegs s) (next_sseg s)
    (trace s) (clock_reads s).

#[export] Instance fld_callbacks : Setter callbacks := ltac:(derive_setter eta_Socket callbacks).
#[export] Instance fld_shutdown : Setter shutdown := ltac:(derive_setter eta_Socket shutdown).
#[export] Instance fld_shutdown_reads : Setter shutdown_reads := ltac:(derive_setter eta_Socket shutdown_reads).
#[export] Instance fld_error : Setter error := ltac:(derive_setter eta_Socket error).
#[export] Instance fld_state : Setter state := ltac:(derive_setter eta_Socket state).
#[export] Instance fld_conv : Setter conv := ltac:(derive_setter eta_Socket conv).
#[export] Instance fld_bReadEnable : Setter bReadEnable := ltac:(derive_setter eta_Socket bReadEnable).
#[export] Instance fld_bWriteEnable : Setter bWriteEnable := ltac:(derive_setter eta_Socket bWriteEnable).
#[export] Instance fld_bOutgoing : Setter bOutgoing := ltac:(derive_setter eta_Socket bOutgoing).
#[export] Instance fld_last_traffic : Setter last_traffic := ltac:(derive_setter eta_Socket last_traffic).
#[export] Instance fld_rlist : Setter rlist := ltac:(derive_setter eta_Socket rlist).
#[export] Instance fld_rbuf_len : Setter rbuf_len := ltac:(derive_setter eta_Socket rbuf_len).
#[export] Instance fld_rcv_nxt : Setter rcv_nxt := ltac:(derive_setter eta_Socket rcv_nxt).
#[export] Instance fld_rcv_wnd : Setter rcv_wnd := ltac:(derive_setter eta_Socket rcv_wnd).
#[export] Instance fld_lastrecv : Setter lastrecv := ltac:(derive_setter eta_Socket lastrecv).
#[export] Instance fld_rwnd_scale : Setter rwnd_scale := ltac:(derive_setter eta_Socket rwnd_scale).
#[export] Instance fld_rbuf : Setter rbuf := ltac:(derive_setter eta_Socket rbuf).
#[export] Instance fld_rcv_fin : Setter rcv_fin := ltac:(derive_setter eta_Socket rcv_fin).
#[export] Instance fld_slist : Setter slist := ltac:(derive_setter eta_Socket slist).
#[export] Instance fld_unsent_slist : Setter unsent_slist := ltac:(derive_setter eta_Socket unsent_slist).
#[export] Instance fld_sbuf_len : Setter sbuf_len := ltac:(derive_setter eta_Socket sbuf_len).
#[export] Instance fld_snd_nxt : Setter snd_nxt := ltac:(derive_setter eta_Socket snd_nxt).
#[export] Instance fld_snd_wnd : Setter snd_wnd := ltac:(derive_setter eta_Socket snd_wnd).
#[export] Instance fld_lastsend : Setter lastsend := ltac:(derive_setter eta_Socket lastsend).
#[export] Instance fld_snd_una : Setter snd_una := ltac:(derive_setter eta_Socket snd_una).
#[export] Instance fld_swnd_scale : Setter swnd_scale := ltac:(derive_setter eta_Socket swnd_scale).
#[export] Instance fld_sbuf : Setter sbuf := ltac:(derive_setter eta_Socket sbuf).
#[export] Instance fld_mss : Setter mss := ltac:(derive_setter eta_Socket mss).
#[export] Instance fld_msslevel : Setter msslevel := ltac:(derive_setter eta_Socket msslevel).
#[export] Instance fld_largest : Setter largest := ltac:(derive_setter eta_Socket largest).
#[export] Instance fld_mtu_advise : Setter mtu_advise := ltac:(derive_setter eta_Socket mtu_advise).
#[export] Instance fld_rto_base : Setter rto_base := ltac:(derive_setter eta_Socket rto_base).
#[export] Instance fld_ts_recent : Setter ts_recent := ltac:(derive_setter eta_Socket ts_recent).
#[export] Instance fld_ts_lastack : Setter ts_lastack := ltac:(derive_setter eta_Socket ts_lastack).
#[export] Instance fld_rx_rttvar : Setter rx_rttvar := ltac:(derive_setter eta_Socket rx_rttvar).
#[export] Instance fld_rx_srtt : Setter rx_srtt := ltac:(derive_setter eta_Socket rx_srtt).
#[export] Instance fld_rx_rto : Setter rx_rto := ltac:(derive_setter eta_Socket rx_rto).
#[export] Instance fld_ssthresh : Setter ssthresh := ltac:(derive_setter eta_Socket ssthresh).
#[export] Instance fld_cwnd : Setter cwnd := ltac:(derive_setter eta_Socket cwnd).
#[export] Instance fld_dup_acks : Setter dup_acks := ltac:(derive_setter eta_Socket dup_acks).
#[export] Instance fld_recover : Setter recover := ltac:(derive_setter eta_Socket recover).
#[export] Instance fld_fast_recovery : Setter fast_recovery := ltac:(derive_setter eta_Socket fast_recovery).
#[export] Instance fld_t_ack : Setter t_ack := ltac:(derive_setter eta_Socket t_ack).
#[export] Instance fld_last_acked_ts : Setter last_acked_ts := ltac:(derive_setter eta_Socket last_acked_ts).
#[export] Instance fld_use_nagling : Setter use_nagling := ltac:(derive_setter eta_Socket use_nagling).
#[export] Instance fld_ack_delay : Setter ack_delay := ltac:(derive_setter eta_Socket ack_delay).
#[export] Instance fld_support_wnd_scale : Setter support_wnd_scale := ltac:(derive_setter eta_Socket support_wnd_scale).
#[export] Instance fld_current_time : Setter current_time := ltac:(derive_setter eta_Socket current_time).
#[export] Instance fld_support_fin_ack : Setter support_fin_ack := ltac:(derive_setter eta_Socket support_fin_ack).
#[export] Instance fld_ssegs : Setter ssegs := ltac:(derive_setter eta_Socket ssegs).
#[export] Instance fld_next_sseg : Setter next_sseg := ltac:(derive_setter eta_Socket next_sseg).
#[export] Instance fld_trace : Setter trace := ltac:(derive_setter eta_Socket trace).
#[export] Instance fld_clock_reads : Setter clock_reads := ltac:(derive_setter eta_Socket clock_reads).

Abbreviation M := (st PseudoTcpSocket).

Definition state_is (x : PseudoTcpState) : M bool := y ← get state; mret (bool_decide (y = x)).

(** ** The store of outgoing segments *)

Definition sseg_get (id : nat) : M SSegment := λ s,
  match ssegs s !! id with Some g => Done (g, s) | None => Ub end.
Definition sseg_put (id : nat) (g : SSegment) : M unit := upd ssegs (λ h, <[id := g]> h).
(** [g_slice_new0]: an address not in use. *)
Definition sseg_new (g : SSegment) : M nat :=
  id ← get next_sseg;
  put next_sseg (S id);; upd ssegs (λ h, <[id := g]> h);; mret id.
(** [g_slice_free] *)
Definition sseg_free (id : nat) : M unit := sseg_get id;; upd ssegs (λ h, delete id h).

(** [g_queue_peek_head]; dereferencing the NULL of an empty queue is undefined. *)
Definition peek_head (q : list nat) : M nat := match q with id :: _ => mret id | [] => ub end.

(** [g_queue_insert_after (q, g_queue_find (q, x), y)]; when [x] is not there
    the sibling is NULL and [y] becomes the head. *)
Fixpoint insert_after_found (q : list nat) (x y : nat) : list nat :=
  match q with
  | [] => []
  | z :: q => if (z =? x)%nat then z :: y :: q else z :: insert_after_found q x y
  end.
Definition insert_after (q : list nat) (x y : nat) : list nat :=
  if decide (x ∈ q) then insert_after_found q x y else y :: q.

Section env.
Context `{Env}.

Definition emit (e : Event) : M unit := upd trace (cons e).

(** ** Clock *)

Definition get_current_time : M Z :=
  t ← get current_time;
  if negb (t =? 0) then mret t
  else
    n ← get clock_reads;
    put clock_reads (S n);; mret (u32 (g_get_monotonic_time n / 1000)).

Definition pseudo_tcp_socket_set_time (t : Z) : M unit := put current_time t.

(** ** States *)

Definition pseudo_tcp_state_has_sent_fin (x : PseudoTcpState) : bool :=
  match x with
  | PSEUDO_TCP_LISTEN | PSEUDO_TCP_SYN_SENT | PSEUDO_TCP_SYN_RECEIVED
  | PSEUDO_TCP_ESTABLISHED | PSEUDO_TCP_CLOSE_WAIT => false
  | PSEUDO_TCP_CLOSED | PSEUDO_TCP_FIN_WAIT_1 | PSEUDO_TCP_FIN_WAIT_2
  | PSEUDO_TCP_CLOSING | PSEUDO_TCP_TIME_WAIT | PSEUDO_TCP_LAST_ACK => true
  end.

Definition pseudo_tcp_state_has_received_fin (x : PseudoTcpState) : bool :=
  match x with
  | PSEUDO_TCP_LISTEN | PSEUDO_TCP_SYN_SENT | PSEUDO_TCP_SYN_RECEIVED
  | PSEUDO_TCP_ESTABLISHED | PSEUDO_TCP_FIN_WAIT_1 | PSEUDO_TCP_FIN_WAIT_2 => false
  | PSEUDO_TCP_CLOSED | PSEUDO_TCP_CLOSING | PSEUDO_TCP_TIME_WAIT
  | PSEUDO_TCP_CLOSE_WAIT | PSEUDO_TCP_LAST_ACK => true
  end.

Definition pseudo_tcp_state_has_received_fin_ack (x : PseudoTcpState) : bool :=
  match x with
  | PSEUDO_TCP_LISTEN | PSEUDO_TCP_SYN_SENT | PSEUDO_TCP_SYN_RECEIVED
  | PSEUDO_TCP_ESTABLISHED | PSEUDO_TCP_FIN_WAIT_1 | PSEUDO_TCP_FIN_WAIT_2
  | PSEUDO_TCP_CLOSING | PSEUDO_TCP_CLOSE_WAIT | PSEUDO_TCP_LAST_ACK => false
  | PSEUDO_TCP_CLOSED | PSEUDO_TCP_TIME_WAIT => true
  end.

(** The transitions [set_state] asserts. *)
Definition TRANSITION (old_state new_state : PseudoTcpState) : bool :=
  match old_state, new_state with
  | PSEUDO_TCP_CLOSED, PSEUDO_TCP_SYN_SENT
  | PSEUDO_TCP_SYN_SENT, PSEUDO_TCP_CLOSED
  | PSEUDO_TCP_CLOSED, PSEUDO_TCP_LISTEN
  | PSEUDO_TCP_LISTEN, PSEUDO_TCP_CLOSED
  | PSEUDO_TCP_LISTEN, PSEUDO_TCP_SYN_SENT
  | PSEUDO_TCP_LISTEN, PSEUDO_TCP_SYN_RECEIVED
  | PSEUDO_TCP_SYN_SENT, PSEUDO_TCP_SYN_RECEIVED
  | PSEUDO_TCP_SYN_RECEIVED, PSEUDO_TCP_ESTABLISHED
  | PSEUDO_TCP_SYN_SENT, PSEUDO_TCP_ESTABLISHED
  | PSEUDO_TCP_SYN_RECEIVED, PSEUDO_TCP_FIN_WAIT_1
  | PSEUDO_TCP_ESTABLISHED, PSEUDO_TCP_FIN_WAIT_1
  | PSEUDO_TCP_ESTABLISHED, PSEUDO_TCP_CLOSE_WAIT
  | PSEUDO_TCP_FIN_WAIT_1, PSEUDO_TCP_FIN_WAIT_2
  | PSEUDO_TCP_FIN_WAIT_1, PSEUDO_TCP_CLOSING
  | PSEUDO_TCP_CLOSE_WAIT, PSEUDO_TCP_LAST_ACK
  | PSEUDO_TCP_FIN_WAIT_2, PSEUDO_TCP_TIME_WAIT
  | PSEUDO_TCP_CLOSING, PSEUDO_TCP_TIME_WAIT
  | PSEUDO_TCP_LAST_ACK, PSEUDO_TCP_CLOSED
  | PSEUDO_TCP_TIME_WAIT, PSEUDO_TCP_CLOSED
  | PSEUDO_TCP_SYN_RECEIVED, PSEUDO_TCP_LISTEN
  | PSEUDO_TCP_FIN_WAIT_1, PSEUDO_TCP_TIME_WAIT => true
  | _, _ => false
  end.

Definition set_state (new_state : PseudoTcpState) : M unit :=
  old_state ← get state;
  if decide (new_state = old_state) then mret tt
  else assert_st (TRANSITION old_state new_state);; put state new_state.

Definition set_state_closed (err : Z) : M unit :=
  set_state PSEUDO_TCP_CLOSED;;
  cb ← get callbacks;
  when (PseudoTcpClosed cb && negb (err =? 0)) (emit (EvClosed err)).

(** ** Maximum segment size *)

Definition packet_maximum (i : Z) : outcome Z := getb PACKET_MAXIMUMS i.

Fixpoint adjustMTU_loop (fuel : nat) : M unit :=
  match fuel with
  | O => oof
  | S fuel =>
      level ← get msslevel;
      next ← lift (packet_maximum (level + 1));
      if next >? 0 then
        here ← lift (packet_maximum level);
        advise ← get mtu_advise;
        if here <=? advise then mret tt
        else put msslevel (u32 (level + 1));; adjustMTU_loop fuel
      else mret tt
  end.

Definition adjustMTU : M unit :=
  put msslevel 0;;
  adjustMTU_loop (length PACKET_MAXIMUMS);;
  advise ← get mtu_advise;
  put mss (u32 (advise - PACKET_OVERHEAD));;
  m ← get mss;
  upd ssthresh (λ x, Z.max x (u32 (2 * m)));;
  upd cwnd (λ x, Z.max x m).

Definition set_state_established : M unit :=
  set_state PSEUDO_TCP_ESTABLISHED;;
  adjustMTU;;
  cb ← get callbacks;
  when (PseudoTcpOpened cb) (emit EvOpened).

(** ** Buffer sizes *)

Definition resize_send_buffer (new_size : Z) : M unit :=
  put sbuf_len new_size;;
  b ← get sbuf;
  '(_, b) ← lift (pseudo_tcp_fifo_set_capacity b new_size);
  put sbuf b.

(** [while (new_size > 0xFFFF)] *)
Fixpoint scale_loop (fuel : nat) (scale_factor new_size : Z) : outcome (Z * Z) :=
  if new_size >? 0xFFFF then
    match fuel with
    | O => Oof
    | S fuel => scale_loop fuel (u8 (scale_factor + 1)) (Z.shiftr new_size 1)
    end
  else mret (scale_factor, new_size).

Definition resize_receive_buffer (new_size : Z) : M unit :=
  len ← get rbuf_len;
  if len =? new_size then mret tt
  else
    '(scale_factor, new_size) ← lift (scale_loop 32 0 new_size);
    let new_size := u32 (Z.shiftl new_size scale_factor) in
    b ← get rbuf;
    '(result, b) ← lift (pseudo_tcp_fifo_set_capacity b new_size);
    put rbuf b;;
    assert_st result;;
    put rbuf_len new_size;;
    put rwnd_scale scale_factor;;
    put ssthresh new_size;;
    put rcv_wnd (u32 (pseudo_tcp_fifo_get_write_remaining b)).

(** ** Sending *)

(** The return value: the octets stored. *)
Definition queue (data : bytes) (len flags : Z) : M Z :=
  b ← get sbuf;
  let available_space := pseudo_tcp_fifo_get_write_remaining b in
  len ← (if len >? available_space then
           assert_st (flags =? FLAG_NONE);; mret (u32 available_space)
         else mret len : M Z);
  q ← get slist;
  tail ← (match last q with
          | Some id =>
              g ← sseg_get id;
              mret (if (sseg_flags g =? flags) && (sseg_xmit g =? 0) then Some (id, g) else None)
          | None => mret None
          end : M (option (nat * SSegment)));
  match tail with
  | Some (id, g) => sseg_put id (g <| sseg_len := u32 (sseg_len g + len) |>)
  | None =>
      una ← get snd_una;
      let snd_buffered := pseudo_tcp_fifo_get_buffered b in
      id ← sseg_new {| sseg_seq := u32 (una + snd_buffered); sseg_len := len;
                       sseg_xmit := 0; sseg_flags := flags |};
      upd slist (λ q, q ++ [id]);;
      upd unsent_slist (λ q, q ++ [id])
  end;;
  '(written, b) ← lift (pseudo_tcp_fifo_write b data len);
  put sbuf b;;
  mret (u32 written).

(** The CONNECT message and the options it announces. *)
Definition connect_message (s : PseudoTcpSocket) : bytes :=
  [CTL_CONNECT]
    ++ (if support_wnd_scale s then [TCP_OPT_WND_SCALE; 1; rwnd_scale s] else [])
    ++ (if support_fin_ack s then [TCP_OPT_FIN_ACK; 1; 0] else []).

Definition queue_connect_message : M unit :=
  buf ← get connect_message;
  let size := zlen buf in
  put snd_wnd size;;
  queue buf size FLAG_CTL;; mret tt.

Definition queue_fin_message : M unit :=
  fin_ack ← get support_fin_ack;
  assert_st fin_ack;;
  queue [] 0 FLAG_FIN;; mret tt.

Definition queue_rst_message : M unit :=
  fin_ack ← get support_fin_ack;
  assert_st fin_ack;;
  queue [] 0 FLAG_RST;; mret tt.

Definition packet_header (conv seq ack flags wnd tsval tsecr : Z) : bytes :=
  Bytes.le 4 (htonl conv) ++ Bytes.le 4 (htonl seq) ++ Bytes.le 4 (htonl ack) ++ [0; u8 flags] ++
  Bytes.le 2 (htons wnd) ++ Bytes.le 4 (htonl tsval) ++ Bytes.le 4 (htonl tsecr).

Definition packet (seq flags offset len now : Z) : M PseudoTcpWriteResult :=
  assert_st (HEADER_SIZE + len <=? MAX_PACKET);;
  cv ← get conv;
  nxt ← get rcv_nxt;
  wnd ← get rcv_wnd;
  scale ← get rwnd_scale;
  wnd ← lift (shr_u32 wnd scale);
  recent ← get ts_recent;
  let header := packet_header cv seq nxt flags (u16 wnd) now recent in
  put ts_lastack nxt;;
  payload ← (if negb (len =? 0) then
               b ← get sbuf;
               data ← lift (pseudo_tcp_fifo_read_offset b len offset);
               assert_st (zlen data =? len);; mret data
             else mret [] : M bytes);
  before ← get trace;
  emit (EvWritePacket (header ++ payload));;
  let wres := WritePacket before (header ++ payload) in
  if negb (bool_decide (wres = WR_SUCCESS)) && negb (len =? 0) then mret wres
  else
    put t_ack 0;;
    when (0 <? len) (put lastsend now);;
    put last_traffic now;;
    put bOutgoing true;;
    mret WR_SUCCESS.

(** The inner loop of [transmit]: the next level below [nTransmit]; [None]:
    EMSGSIZE. *)
Fixpoint lower_mss (fuel : nat) (nTransmit : Z) : M (option Z) :=
  match fuel with
  | O => oof
  | S fuel =>
      level ← get msslevel;
      next ← lift (packet_maximum (u32 (level + 1)));
      if next =? 0 then mret None
      else
        put msslevel (u32 (level + 1));;
        let m := u32 (next - PACKET_OVERHEAD) in
        put mss m;;
        put cwnd (u32 (2 * m));;
        if m <? nTransmit then mret (Some m) else lower_mss fuel nTransmit
  end.

(** The outer loop: the number of octets sent, or the error. *)
Fixpoint transmit_loop (fuel : nat) (segment : nat) (nTransmit now : Z) : M (Z + Z) :=
  match fuel with
  | O => oof
  | S fuel =>
      g ← sseg_get segment;
      una ← get snd_una;
      assert_st (u32 (sseg_seq g - una) <=? 1024 * 1024 * 64);;
      wres ← packet (sseg_seq g) (u8 (sseg_flags g)) (u32 (sseg_seq g - una)) nTransmit now;
      match wres with
      | WR_SUCCESS => mret (inl nTransmit)
      | WR_FAIL => mret (inr ECONNABORTED)
      | WR_TOO_LARGE =>
          n ← lower_mss (length PACKET_MAXIMUMS) nTransmit;
          match n with
          | None => mret (inr EMSGSIZE)
          | Some n => transmit_loop fuel segment n now
          end
      end
  end.

(** Zero, or the error. *)
Definition transmit (segment : nat) (now : Z) : M Z :=
  g ← sseg_get segment;
  m ← get mss;
  established ← state_is PSEUDO_TCP_ESTABLISHED;
  if (if (established : bool) then 15 else 30) <=? sseg_xmit g then mret ETIMEDOUT
  else
    sent ← transmit_loop (length PACKET_MAXIMUMS) segment (Z.min (sseg_len g) m) now;
    match sent with
    | inr err => mret err
    | inl nTransmit =>
        g ← sseg_get segment;
        when (nTransmit <? sseg_len g)
          (subseg ← sseg_new {| sseg_seq := u32 (sseg_seq g + nTransmit);
                                sseg_len := u32 (sseg_len g - nTransmit);
                                sseg_xmit := sseg_xmit g;
                                sseg_flags := sseg_flags g |};
           sseg_put segment (g <| sseg_len := nTransmit |>);;
           upd slist (λ q, insert_after q segment subseg);;
           when (sseg_xmit g =? 0) (upd unsent_slist (λ q, insert_after q segment subseg)));;
        g ← sseg_get segment;
        when (sseg_xmit g =? 0)
          (q ← get unsent_slist;
           assert_st (bool_decide (head q = Some segment));;
           upd unsent_slist tail;;
           upd snd_nxt (λ x, u32 (x + sseg_len g));;
           when ((sseg_len g =? 0) && flag (sseg_flags g) FLAG_FIN)
             (upd snd_nxt (λ x, u32 (x + 1))));;
        sseg_put segment (g <| sseg_xmit := u8 (sseg_xmit g + 1) |>);;
        base ← get rto_base;
        when (base =? 0) (put rto_base now);;
        mret 0
    end.

(** The walk of [closedown] to CLOSED, which is all of it for
    [CLOSEDOWN_REMOTE]. *)
Definition closedown_walk (err : Z) : M unit :=
  x ← get state;
  match x with
  | PSEUDO_TCP_LISTEN | PSEUDO_TCP_SYN_SENT => mret tt
  | PSEUDO_TCP_SYN_RECEIVED | PSEUDO_TCP_ESTABLISHED =>
      set_state PSEUDO_TCP_FIN_WAIT_1;;
      set_state PSEUDO_TCP_FIN_WAIT_2;;
      set_state PSEUDO_TCP_TIME_WAIT
  | PSEUDO_TCP_FIN_WAIT_1 =>
      set_state PSEUDO_TCP_FIN_WAIT_2;;
      set_state PSEUDO_TCP_TIME_WAIT
  | PSEUDO_TCP_FIN_WAIT_2 | PSEUDO_TCP_CLOSING => set_state PSEUDO_TCP_TIME_WAIT
  | PSEUDO_TCP_CLOSE_WAIT => set_state PSEUDO_TCP_LAST_ACK
  | PSEUDO_TCP_LAST_ACK | PSEUDO_TCP_TIME_WAIT | PSEUDO_TCP_CLOSED => mret tt
  end;;
  set_state_closed err.

(** How much the loop of [attempt_send] can be in a position to send. *)
Definition window_available (s : PseudoTcpSocket) : Z * Z :=
  let cw := if (dup_acks s =? 1) || (dup_acks s =? 2)
            then u32 (cwnd s + u32 (dup_acks s * mss s)) else cwnd s in
  let nWindow := Z.min (snd_wnd s) cw in
  let nInFlight := u32 (snd_nxt s - snd_una s) in
  let nUseable := if nInFlight <? nWindow then nWindow - nInFlight else 0 in
  let snd_buffered := pseudo_tcp_fifo_get_buffered (sbuf s) in
  let nAvailable := if snd_buffered <? nInFlight then 0
                    else Z.min (snd_buffered - nInFlight) (mss s) in
  if nUseable <? nAvailable then
    if u32 (nUseable * 4) <? nWindow then (nWindow, 0) else (nWindow, nUseable)
  else (nWindow, nAvailable).

(** Break the segment at [n]. *)
Definition split_unsent (sseg : nat) (n : Z) : M unit :=
  g ← sseg_get sseg;
  subseg ← sseg_new {| sseg_seq := u32 (sseg_seq g + n); sseg_len := u32 (sseg_len g - n);
                       sseg_xmit := 0; sseg_flags := sseg_flags g |};
  sseg_put sseg (g <| sseg_len := n |>);;
  upd unsent_slist (λ q, insert_after q sseg subseg);;
  upd slist (λ q, insert_after q sseg subseg).

Fixpoint attempt_send_loop (fuel : nat) (sflags : SendFlags) (now : Z) : M unit :=
  match fuel with
  | O => oof
  | S fuel =>
      '(_, nAvailable) ← get window_available;
      if decide (sflags = sfDuplicateAck) then
        nxt ← get snd_nxt;
        packet nxt 0 0 0 now;;
        attempt_send_loop fuel sfNone now
      else
        let forced := bool_decide (sflags = sfFin) || bool_decide (sflags = sfRst) in
        if (nAvailable =? 0) && negb forced then
          if decide (sflags = sfNone) then mret tt
          else
            t ← get t_ack;
            if bool_decide (sflags = sfImmediateAck) || bool_decide (sflags = sfDuplicateAck)
               || negb (t =? 0)
            then nxt ← get snd_nxt; packet nxt 0 0 0 now;; mret tt
            else put t_ack now
        else
          nagling ← get use_nagling;
          nxt ← get snd_nxt;
          una ← get snd_una;
          m ← get mss;
          if nagling && negb forced && (una <? nxt) && (nAvailable <? m) then mret tt
          else
            q ← get unsent_slist;
            match q with
            | [] => mret tt
            | sseg :: _ =>
                g ← sseg_get sseg;
                when ((nAvailable <? sseg_len g) && negb forced) (split_unsent sseg nAvailable);;
                transmit_status ← transmit sseg now;
                if negb (transmit_status =? 0) then closedown_walk transmit_status
                else
                  attempt_send_loop fuel
                    (if bool_decide (sflags = sfImmediateAck) || bool_decide (sflags = sfDelayedAck)
                     then sfNone else sflags) now
            end
  end.

(** The work the loop can still do: two units for each octet and one for each
    segment not yet sent. *)
Definition unsent_work (s : PseudoTcpSocket) : nat :=
  sum_list ((λ id, match ssegs s !! id with
                   | Some g => S (2 * Z.to_nat (sseg_len g)) | None => O end) <$> unsent_slist s).

Definition attempt_send (sflags : SendFlags) : M unit :=
  now ← get_current_time;
  last ← get lastsend;
  rto ← get rx_rto;
  m ← get mss;
  when (rto <? time_diff now last) (put cwnd m);;
  work ← get unsent_work;
  attempt_send_loop (S (S work)) sflags now.

Definition closedown (err : Z) (source : ClosedownSource) : M unit :=
  fin_ack ← get support_fin_ack;
  match source with
  | CLOSEDOWN_LOCAL =>
      if (fin_ack : bool) then queue_rst_message;; attempt_send sfRst
      else put shutdown SD_FORCEFUL
  | CLOSEDOWN_REMOTE => mret tt
  end;;
  closedown_walk err.

(** ** Options *)

Definition apply_window_scale_option (scale_factor : Z) : M unit := put swnd_scale scale_factor.
Definition apply_fin_ack_option : M unit := put support_fin_ack true.

(** The option's contents start at [data + pos]. *)
Definition apply_option (kind : Z) (data : bytes) (pos len : Z) : M unit :=
  if kind =? TCP_OPT_MSS then mret tt
  else if kind =? TCP_OPT_WND_SCALE then
    if negb (len =? 1) then mret tt
    else scale ← lift (getb data pos); apply_window_scale_option scale
  else if kind =? TCP_OPT_FIN_ACK then apply_fin_ack_option
  else mret tt.

(** Which of the two options were seen; [None]: the malformed list makes
    [parse_options] return. *)
Fixpoint options_loop (fuel : nat) (data : bytes) (len pos : Z) (has_wnd has_fin : bool)
  : M (option (bool * bool)) :=
  if pos <? len then
    match fuel with
    | O => oof
    | S fuel =>
        if len <? u32 (pos + 1) then mret None
        else
          kind ← lift (getb data pos);
          let pos := u32 (pos + 1) in
          if kind =? TCP_OPT_EOL then mret (Some (has_wnd, has_fin))
          else if kind =? TCP_OPT_NOOP then options_loop fuel data len pos has_wnd has_fin
          else if len <? u32 (pos + 1) then mret None
          else
            opt_len ← lift (getb data pos);
            let pos := u32 (pos + 1) in
            if len <? u32 (pos + opt_len) then mret None
            else if opt_len <=? u32 (len - pos) then
              apply_option kind data pos opt_len;;
              options_loop fuel data len (u32 (pos + opt_len))
                (has_wnd || (kind =? TCP_OPT_WND_SCALE))
                (has_fin || (negb (kind =? TCP_OPT_WND_SCALE) && (kind =? TCP_OPT_FIN_ACK)))
            else mret None
    end
  else mret (Some (has_wnd, has_fin)).

Definition parse_options (data : bytes) (len : Z) : M unit :=
  seen ← options_loop (S (Z.to_nat len)) data len 0 false false;
  match seen with
  | None => mret tt
  | Some (has_window_scaling_option, has_fin_ack_option) =>
      when (negb has_window_scaling_option)
        (scale ← get rwnd_scale;
         when (0 <? scale)
           (resize_receive_buffer DEFAULT_RCV_BUF_SIZE;; put swnd_scale 0));;
      when (negb has_fin_ack_option) (put support_fin_ack false)
  end.

(** ** Receiving *)

(** Control data; [None]: [process] returns FALSE. *)
Definition process_control (seg : Segment) : M (option bool) :=
  if flag (seg_flags seg) FLAG_CTL then
    if seg_len seg =? 0 then mret None
    else
      code ← lift (getb (seg_data seg) 0);
      if code =? CTL_CONNECT then
        parse_options (drop 1 (seg_data seg)) (u32 (seg_len seg - 1));;
        x ← get state;
        match x with
        | PSEUDO_TCP_LISTEN => set_state PSEUDO_TCP_SYN_RECEIVED;; queue_connect_message
        | PSEUDO_TCP_SYN_SENT => set_state_established
        | _ => mret tt
        end;;
        mret (Some true)
      else mret None
  else mret (Some false).

(** The round-trip estimate; false: the measure is negative and [process]
    returns FALSE.  [labs] and the products are taken at the widths of the
    code. *)
Definition process_rtt (seg : Segment) (now : Z) : M bool :=
  if negb (seg_tsecr seg =? 0) then
    let rtt := time_diff now (seg_tsecr seg) in
    if 0 <=? rtt then
      srtt ← get rx_srtt;
      (if srtt =? 0 then
         put rx_srtt rtt;; put rx_rttvar (rtt / 2)
       else
         rttvar ← get rx_rttvar;
         put rx_rttvar (u32 ((u32 (3 * rttvar) + Z.abs (rtt - srtt)) / 4));;
         put rx_srtt (u32 ((u32 (7 * srtt) + rtt) / 8)));;
      srtt ← get rx_srtt;
      rttvar ← get rx_rttvar;
      put rx_rto (bound MIN_RTO (u32 (srtt + Z.max 1 (u32 (4 * rttvar)))) MAX_RTO);;
      put last_acked_ts (seg_tsecr seg);; mret true
    else mret false
  else mret true.

(** Free the acknowledged segments. *)
Fixpoint free_acked (fuel : nat) (nFree : Z) : M unit :=
  if 0 <? nFree then
    match fuel with
    | O => oof
    | S fuel =>
        q ← get slist;
        assert_st (negb (bool_decide (q = [])));;
        id ← peek_head q;
        data ← sseg_get id;
        if nFree <? sseg_len data then
          sseg_put id (data <| sseg_len := sseg_len data - nFree |>
                            <| sseg_seq := u32 (sseg_seq data + nFree) |>)
        else
          upd largest (λ x, if x <? sseg_len data then sseg_len data else x);;
          sseg_free id;;
          put slist (tail q);;
          free_acked fuel (nFree - sseg_len data)
    end
  else mret tt.

(** Recovery and congestion avoidance after [nAcked] new octets; false: a
    failed retransmission closed the socket. *)
Definition congestion_acked (nAcked now : Z) : M bool :=
  dups ← get dup_acks;
  m ← get mss;
  if 3 <=? dups then
    una ← get snd_una;
    rcv ← get recover;
    if LARGER_OR_EQUAL una rcv then
      nxt ← get snd_nxt;
      let nInFlight := u32 (nxt - una) in
      thresh ← get ssthresh;
      put cwnd (Z.min thresh (u32 (Z.max nInFlight m + m)));;
      put fast_recovery false;;
      put dup_acks 0;; mret true
    else
      q ← get slist;
      id ← peek_head q;
      transmit_status ← transmit id now;
      if negb (transmit_status =? 0) then
        closedown transmit_status CLOSEDOWN_LOCAL;; mret false
      else
        m ← get mss;
        upd cwnd (λ x, u32 (x + ((if m <? nAcked then m else 0) - Z.min nAcked x)));;
        mret true
  else
    put dup_acks 0;;
    cw ← get cwnd;
    thresh ← get ssthresh;
    if cw <? thresh then put cwnd (u32 (cw + m));; mret true
    else
      step ← lift (udiv (u32 (m * m)) cw);
      put cwnd (u32 (cw + Z.max 1 step));; mret true.

(** An acknowledgement of new data; [None]: [process] returns FALSE;
    otherwise [is_fin_ack]. *)
Definition valuable_ack (seg : Segment) (now : Z) : M (option bool) :=
  ok ← process_rtt seg now;
  if negb ok then mret None
  else
    scale ← get swnd_scale;
    wnd ← lift (shl_int (seg_wnd seg) scale);
    put snd_wnd wnd;;
    una ← get snd_una;
    let nAcked := u32 (seg_ack seg - una) in
    put snd_una (seg_ack seg);;
    nxt ← get snd_nxt;
    put rto_base (if seg_ack seg =? nxt then 0 else now);;
    b ← get sbuf;
    x ← get state;
    let is_fin_ack := (nAcked =? data_length b + 1) && pseudo_tcp_state_has_sent_fin x in
    let nAcked := if is_fin_ack then nAcked - 1 else nAcked in
    b ← lift (pseudo_tcp_fifo_consume_read_data b nAcked);
    put sbuf b;;
    q ← get slist;
    free_acked (S (length q)) nAcked;;
    ok ← congestion_acked nAcked now;
    mret (if (ok : bool) then Some is_fin_ack else None).

(** A duplicate acknowledgement; false: [process] returns FALSE. *)
Definition duplicate_ack (seg : Segment) (now : Z) : M bool :=
  scale ← get swnd_scale;
  wnd ← lift (shl_int (seg_wnd seg) scale);
  put snd_wnd wnd;;
  una ← get snd_una;
  nxt ← get snd_nxt;
  if 0 <? seg_len seg then mret true
  else if negb (una =? nxt) then
    upd dup_acks (λ x, u8 (x + 1));;
    dups ← get dup_acks;
    if dups =? 3 then
      rcv ← get recover;
      acked_ts ← get last_acked_ts;
      if LARGER_OR_EQUAL una rcv || (seg_tsecr seg =? acked_ts) then
        q ← get slist;
        id ← peek_head q;
        transmit_status ← transmit id now;
        if negb (transmit_status =? 0) then
          closedown transmit_status CLOSEDOWN_LOCAL;; mret false
        else
          nxt ← get snd_nxt;
          una ← get snd_una;
          m ← get mss;
          put recover nxt;;
          let nInFlight := u32 (nxt - una) in
          put ssthresh (Z.max (nInFlight / 2) (u32 (2 * m)));;
          thresh ← get ssthresh;
          put cwnd (u32 (thresh + u32 (3 * m)));;
          put fast_recovery true;; mret true
      else mret true
    else if 3 <? dups then
      fast ← get fast_recovery;
      m ← get mss;
      when fast (upd cwnd (λ x, u32 (x + m)));; mret true
    else mret true
  else put dup_acks 0;; mret true.

(** [None]: [process] returns FALSE; otherwise [is_fin_ack]. *)
Definition process_ack (seg : Segment) (now : Z) : M (option bool) :=
  una ← get snd_una;
  nxt ← get snd_nxt;
  let is_valuable_ack := LARGER (seg_ack seg) una && SMALLER_OR_EQUAL (seg_ack seg) nxt in
  let is_duplicate_ack := seg_ack seg =? una in
  if is_valuable_ack then valuable_ack seg now
  else if is_duplicate_ack then
    ok ← duplicate_ack seg now;
    mret (if (ok : bool) then Some false else None)
  else mret (Some false).

(** The state machine of FIN and FIN-ACK; [None]: [process] returns FALSE;
    otherwise [received_fin]. *)
Definition process_fin (seg : Segment) (is_fin_ack : bool) : M (option bool) :=
  fin_ack ← get support_fin_ack;
  if (fin_ack : bool) then
    when (flag (seg_flags seg) FLAG_FIN) (put rcv_fin (seg_seq seg));;
    if flag (seg_flags seg) FLAG_FIN && negb (seg_len seg =? 0) then mret None
    else
      nxt ← get rcv_nxt;
      fin ← get rcv_fin;
      let received_fin := negb (nxt =? 0) && (u32 (nxt + seg_len seg) =? fin) in
      x ← get state;
      match x with
      | PSEUDO_TCP_ESTABLISHED => when received_fin (set_state PSEUDO_TCP_CLOSE_WAIT)
      | PSEUDO_TCP_CLOSING => when is_fin_ack (set_state PSEUDO_TCP_TIME_WAIT)
      | PSEUDO_TCP_LAST_ACK => when is_fin_ack (set_state_closed 0)
      | PSEUDO_TCP_FIN_WAIT_1 =>
          if is_fin_ack && received_fin then set_state PSEUDO_TCP_TIME_WAIT
          else if is_fin_ack then set_state PSEUDO_TCP_FIN_WAIT_2
          else when received_fin (set_state PSEUDO_TCP_CLOSING)
      | PSEUDO_TCP_FIN_WAIT_2 => when received_fin (set_state PSEUDO_TCP_TIME_WAIT)
      | PSEUDO_TCP_LISTEN | PSEUDO_TCP_SYN_SENT | PSEUDO_TCP_SYN_RECEIVED
      | PSEUDO_TCP_TIME_WAIT | PSEUDO_TCP_CLOSED | PSEUDO_TCP_CLOSE_WAIT => mret tt
      end;;
      mret (Some received_fin)
  else mret (Some false).

Definition notify_writable : M unit :=
  slen ← get sbuf_len;
  rlen ← get rbuf_len;
  let kIdealRefillSize := u32 (slen + rlen) / 2 in
  b ← get sbuf;
  let snd_buffered := pseudo_tcp_fifo_get_buffered b in
  enabled ← get bWriteEnable;
  when (enabled && (snd_buffered <? kIdealRefillSize))
    (put bWriteEnable false;;
     cb ← get callbacks;
     when (PseudoTcpWritable cb) (emit EvWritable)).

(** Which acknowledgement the segment asks for. *)
Definition ack_flags (seg : Segment) (received_fin : bool) (s : PseudoTcpSocket) : SendFlags :=
  if negb (seg_seq seg =? rcv_nxt s) then sfDuplicateAck
  else if negb (seg_len seg =? 0) then
    if ack_delay s =? 0 then sfImmediateAck else sfDelayedAck
  else if received_fin then sfImmediateAck
  else sfNone.

(** The part of the segment inside the receive buffer: its sequence number,
    data and length. *)
Definition fit_segment (seg : Segment) (nxt available_space : Z) : Z * bytes * Z :=
  let '(seq, data, len) :=
    if SMALLER (seg_seq seg) nxt then
      let nAdjust := u32 (nxt - seg_seq seg) in
      if nAdjust <? seg_len seg
      then (u32 (seg_seq seg + nAdjust), drop (Z.to_nat nAdjust) (seg_data seg),
            seg_len seg - nAdjust)
      else (seg_seq seg, seg_data seg, 0)
    else (seg_seq seg, seg_data seg, seg_len seg) in
  if available_space <? u32 (seq + len - nxt) then
    let nAdjust := u32 (u32 (seq + len - nxt) - available_space) in
    (seq, data, if nAdjust <? len then len - nAdjust else 0)
  else (seq, data, len).

(** Segments that arrived early and are now in sequence; [l] is [rlist]. *)
Fixpoint recover_rlist (l : list RSegment) (sflags : SendFlags) : M SendFlags :=
  match l with
  | [] => mret sflags
  | data :: l =>
      nxt ← get rcv_nxt;
      if SMALLER_OR_EQUAL (rseg_seq data) nxt then
        sflags ← (if LARGER (u32 (rseg_seq data + rseg_len data)) nxt then
                    let nAdjust := u32 (u32 (rseg_seq data + rseg_len data) - nxt) in
                    b ← get rbuf;
                    b ← lift (pseudo_tcp_fifo_consume_write_buffer b nAdjust);
                    put rbuf b;;
                    upd rcv_nxt (λ x, u32 (x + nAdjust));;
                    upd rcv_wnd (λ x, u32 (x - nAdjust));;
                    mret sfImmediateAck
                  else mret sflags : M SendFlags);
        put rlist l;;
        recover_rlist l sflags
      else mret sflags
  end.

Fixpoint insert_rseg (l : list RSegment) (r : RSegment) : list RSegment :=
  match l with
  | [] => [r]
  | x :: l => if SMALLER (rseg_seq x) (rseg_seq r) then x :: insert_rseg l r else r :: x :: l
  end.

(** Store the fitted segment; the acknowledgement to send and [bNewData]. *)
Definition store_segment (seq : Z) (data : bytes) (len : Z) (sflags : SendFlags)
  : M (SendFlags * bool) :=
  nxt ← get rcv_nxt;
  b ← get rbuf;
  '(res, b) ← lift (pseudo_tcp_fifo_write_offset b data len (u32 (seq - nxt)));
  put rbuf b;;
  assert_st (res =? len);;
  if seq =? nxt then
    b ← lift (pseudo_tcp_fifo_consume_write_buffer b len);
    put rbuf b;;
    upd rcv_nxt (λ x, u32 (x + len));;
    upd rcv_wnd (λ x, u32 (x - len));;
    l ← get rlist;
    sflags ← recover_rlist l sflags;
    mret (sflags, true)
  else
    upd rlist (λ l, insert_rseg l {| rseg_seq := seq; rseg_len := len |});;
    mret (sflags, false).

(** The data of the segment. *)
Definition process_data (seg : Segment) (sflags : SendFlags) : M (SendFlags * bool) :=
  nxt ← get rcv_nxt;
  b ← get rbuf;
  let '(seq, data, len) := fit_segment seg nxt (pseudo_tcp_fifo_get_write_remaining b) in
  fin_ack ← get support_fin_ack;
  down ← get shutdown;
  let bIgnoreData := flag (seg_flags seg) FLAG_CTL
                     || (negb fin_ack && negb (bool_decide (down = SD_NONE))) in
  if 0 <? len then
    if (bIgnoreData : bool) then
      when (seq =? nxt) (upd rcv_nxt (λ x, u32 (x + len)));; mret (sflags, false)
    else store_segment seq data len sflags
  else mret (sflags, false).

(** The part of [process] after the state machine of FIN. *)
Definition process_rest (seg : Segment) (received_fin : bool) : M bool :=
  notify_writable;;
  sflags ← get (ack_flags seg received_fin);
  '(sflags, bNewData) ← process_data seg sflags;
  when received_fin (upd rcv_nxt (λ x, u32 (x + 1)));;
  attempt_send sflags;;
  enabled ← get bReadEnable;
  cb ← get callbacks;
  when (bNewData && enabled && PseudoTcpReadable cb) (emit EvReadable);;
  mret true.

Definition process (seg : Segment) : M bool :=
  cv ← get conv;
  if negb (seg_conv seg =? cv) then mret false
  else
    now ← get_current_time;
    put lastrecv now;; put last_traffic now;;
    put bOutgoing false;;
    x ← get state;
    if bool_decide (x = PSEUDO_TCP_CLOSED)
       || (pseudo_tcp_state_has_received_fin_ack x && (0 <? seg_len seg)) then
      when (negb (flag (seg_flags seg) FLAG_RST)) (closedown 0 CLOSEDOWN_LOCAL);;
      mret false
    else if flag (seg_flags seg) FLAG_RST then
      closedown ECONNRESET CLOSEDOWN_REMOTE;; mret false
    else
      control ← process_control seg;
      match control with
      | None => mret false
      | Some bConnect =>
          lastack ← get ts_lastack;
          when (SMALLER_OR_EQUAL (seg_seq seg) lastack
                && SMALLER lastack (u32 (seg_seq seg + seg_len seg)))
            (put ts_recent (seg_tsval seg));;
          acked ← process_ack seg now;
          match acked with
          | None => mret false
          | Some is_fin_ack =>
              x ← get state;
              when (bool_decide (x = PSEUDO_TCP_SYN_RECEIVED) && negb bConnect)
                set_state_established;;
              fin ← process_fin seg is_fin_ack;
              match fin with
              | None => mret false
              | Some received_fin => process_rest seg received_fin
              end
          end
      end.

(** The segment [parse] reads off the header. *)
Definition parse_header (header data : bytes) (data_len : Z) : outcome Segment :=
  cv ← slice header 0 4;
  seq ← slice header 4 4;
  ack ← slice header 8 4;
  flags ← getb header 13;
  wnd ← slice header 14 2;
  tsval ← slice header 16 4;
  tsecr ← slice header 20 4;
  mret {| seg_conv := htonl (of_le cv); seg_seq := htonl (of_le seq);
          seg_ack := htonl (of_le ack); seg_flags := flags;
          seg_wnd := htons (of_le wnd); seg_data := data; seg_len := u32 data_len;
          seg_tsval := htonl (of_le tsval); seg_tsecr := htonl (of_le tsecr) |}.

Definition parse (header data : bytes) (data_len : Z) : M bool :=
  if negb (zlen header =? 24) then mret false
  else
    seg ← lift (parse_header header data data_len);
    process seg.

(** ** Entry points *)

Definition pseudo_tcp_socket_connect : M bool :=
  x ← get state;
  if negb (bool_decide (x = PSEUDO_TCP_LISTEN)) then put error EINVAL;; mret false
  else
    set_state PSEUDO_TCP_SYN_SENT;;
    queue_connect_message;;
    attempt_send sfNone;;
    mret true.

Definition pseudo_tcp_socket_notify_mtu (mtu : Z) : M unit :=
  put mtu_advise mtu;;
  established ← state_is PSEUDO_TCP_ESTABLISHED;
  when established adjustMTU.

(** The retransmission of [notify_clock]; true: the function returns. *)
Definition clock_retransmit (now : Z) : M bool :=
  base ← get rto_base;
  rto ← get rx_rto;
  if negb (base =? 0) && (time_diff (u32 (base + rto)) now <=? 0) then
    q ← get slist;
    assert_st (negb (bool_decide (q = [])));;
    id ← peek_head q;
    transmit_status ← transmit id now;
    if negb (transmit_status =? 0) then
      closedown transmit_status CLOSEDOWN_LOCAL;; mret true
    else
      nxt ← get snd_nxt;
      una ← get snd_una;
      m ← get mss;
      let nInFlight := u32 (nxt - una) in
      put ssthresh (Z.max (nInFlight / 2) (u32 (2 * m)));;
      put cwnd m;;
      x ← get state;
      let rto_limit := match x with
                       | PSEUDO_TCP_LISTEN | PSEUDO_TCP_SYN_SENT | PSEUDO_TCP_SYN_RECEIVED => DEF_RTO
                       | _ => MAX_RTO end in
      upd rx_rto (λ r, Z.min rto_limit (u32 (r * 2)));;
      put rto_base now;;
      put recover nxt;;
      dups ← get dup_acks;
      when (3 <=? dups) (put dup_acks 0;; put fast_recovery false);;
      mret false
  else mret false.

(** The window probe of [notify_clock]; true: the function returns. *)
Definition clock_probe (now : Z) : M bool :=
  wnd ← get snd_wnd;
  last ← get lastsend;
  rto ← get rx_rto;
  if (wnd =? 0) && (time_diff (u32 (last + rto)) now <=? 0) then
    recv ← get lastrecv;
    if 15000 <=? time_diff now recv then
      closedown ECONNABORTED CLOSEDOWN_LOCAL;; mret true
    else
      nxt ← get snd_nxt;
      packet (u32 (nxt - 1)) 0 0 0 now;;
      put lastsend now;;
      upd rx_rto (λ r, Z.min MAX_RTO (u32 (r * 2)));;
      mret false
  else mret false.

Definition pseudo_tcp_socket_notify_clock : M unit :=
  now ← get_current_time;
  x ← get state;
  if bool_decide (x = PSEUDO_TCP_CLOSED) then mret tt
  else
    fin_ack ← get support_fin_ack;
    when (fin_ack && bool_decide (x = PSEUDO_TCP_TIME_WAIT)) (set_state_closed 0);;
    x ← get state;
    when (fin_ack && bool_decide (x = PSEUDO_TCP_LAST_ACK))
      (queue_fin_message;; attempt_send sfFin);;
    closed ← clock_retransmit now;
    if (closed : bool) then mret tt
    else
      closed ← clock_probe now;
      if (closed : bool) then mret tt
      else
        t ← get t_ack;
        delay ← get ack_delay;
        when (negb (t =? 0) && (time_diff (u32 (t + delay)) now <=? 0))
          (nxt ← get snd_nxt; packet nxt 0 0 0 now;; mret tt).

Definition pseudo_tcp_socket_notify_packet (buf : bytes) (len : Z) : M bool :=
  if MAX_PACKET <? len then put error EMSGSIZE;; mret false
  else if len <? HEADER_SIZE then put error EINVAL;; mret false
  else
    header ← lift (slice buf 0 HEADER_SIZE);
    data ← lift (slice buf HEADER_SIZE (len - HEADER_SIZE));
    parse header data (len - HEADER_SIZE).

(** [NiceInputMessage]: the buffers and the length of the message. *)
Record NiceInputMessage := { im_buffers : list bytes; im_length : Z }.

Definition pseudo_tcp_socket_notify_message (message : NiceInputMessage) : M bool :=
  match im_buffers message with
  | [b] => pseudo_tcp_socket_notify_packet b (zlen b)
  | [b0; b1] =>
      assert_st (zlen b0 =? HEADER_SIZE);;
      if MAX_PACKET <? im_length message then mret false
      else if im_length message <? HEADER_SIZE then mret false
      else
        data ← lift (slice b1 0 (im_length message - zlen b0));
        parse b0 data (im_length message - zlen b0)
  | _ => ub
  end.

(** The return value and [*timeout]. *)
Definition pseudo_tcp_socket_get_next_clock (timeout : Z) : M (bool * Z) :=
  now ← get_current_time;
  down ← get shutdown;
  if bool_decide (down = SD_FORCEFUL) then
    closedown 0 CLOSEDOWN_REMOTE;; mret (false, timeout)
  else
    b ← get sbuf;
    let snd_buffered := pseudo_tcp_fifo_get_buffered b in
    x ← get state;
    t ← get t_ack;
    if bool_decide (down = SD_GRACEFUL)
       && (negb (bool_decide (x = PSEUDO_TCP_ESTABLISHED)) || ((snd_buffered =? 0) && (t =? 0))) then
      closedown 0 CLOSEDOWN_REMOTE;; mret (false, timeout)
    else
      fin_ack ← get support_fin_ack;
      let time_wait := fin_ack && bool_decide (x = PSEUDO_TCP_TIME_WAIT) in
      let closed_timeout := if time_wait then TIME_WAIT_TIMEOUT else CLOSED_TIMEOUT in
      if fin_ack && bool_decide (x = PSEUDO_TCP_CLOSED) then mret (false, timeout)
      else
        let timeout := if (timeout =? 0) || (timeout <? now)
                       then u32 (now + closed_timeout) else timeout in
        if time_wait then mret (true, Z.min timeout (u32 (now + TIME_WAIT_TIMEOUT)))
        else if bool_decide (x = PSEUDO_TCP_CLOSED) && negb fin_ack then
          mret (true, Z.min timeout (u32 (now + CLOSED_TIMEOUT)))
        else
          delay ← get ack_delay;
          base ← get rto_base;
          rto ← get rx_rto;
          wnd ← get snd_wnd;
          last ← get lastsend;
          let timeout := Z.min timeout (u32 (now + DEFAULT_TIMEOUT)) in
          let timeout := if negb (t =? 0) then Z.min timeout (u32 (t + delay)) else timeout in
          let timeout := if negb (base =? 0) then Z.min timeout (u32 (base + rto)) else timeout in
          let timeout := if wnd =? 0 then Z.min timeout (u32 (last + rto)) else timeout in
          mret (true, timeout).

Definition pseudo_tcp_socket_is_closed : M bool := state_is PSEUDO_TCP_CLOSED.

Definition pseudo_tcp_socket_is_closed_remotely : M bool :=
  x ← get state; mret (pseudo_tcp_state_has_received_fin x).

(** The return value and the octets copied. *)
Definition pseudo_tcp_socket_recv (len : Z) : M (Z * bytes) :=
  fin_ack ← get support_fin_ack;
  down ← get shutdown_reads;
  closed ← pseudo_tcp_socket_is_closed;
  x ← get state;
  if fin_ack && down then mret (0, [])
  else if negb fin_ack && closed then mret (0, [])
  else if negb fin_ack && negb (bool_decide (x = PSEUDO_TCP_ESTABLISHED)) then
    put error ENOTCONN;; mret (-1, [])
  else if len =? 0 then mret (0, [])
  else
    b ← get rbuf;
    '(data, b) ← lift (pseudo_tcp_fifo_read b len);
    put rbuf b;;
    let bytesread := zlen data in
    if (bytesread =? 0) && negb (pseudo_tcp_state_has_received_fin x
                                 || pseudo_tcp_state_has_received_fin_ack x) then
      put bReadEnable true;; put error EWOULDBLOCK;; mret (-1, [])
    else
      let available_space := pseudo_tcp_fifo_get_write_remaining b in
      wnd ← get rcv_wnd;
      rlen ← get rbuf_len;
      m ← get mss;
      when (Z.min (rlen / 2) m <=? u64 (available_space - wnd))
        (let bWasClosed := wnd =? 0 in
         put rcv_wnd (u32 available_space);;
         when bWasClosed (attempt_send sfImmediateAck));;
      mret (s32 bytesread, data).

Definition pseudo_tcp_socket_send (buf : bytes) (len : Z) : M Z :=
  x ← get state;
  if negb (bool_decide (x = PSEUDO_TCP_ESTABLISHED)) then
    put error (if pseudo_tcp_state_has_sent_fin x then EPIPE else ENOTCONN);; mret (-1)
  else
    b ← get sbuf;
    let available_space := pseudo_tcp_fifo_get_write_remaining b in
    if available_space =? 0 then
      put bWriteEnable true;; put error EWOULDBLOCK;; mret (-1)
    else
      n ← queue buf len FLAG_NONE;
      let written := s32 n in
      attempt_send sfNone;;
      when ((0 <? written) && (written <? len)) (put bWriteEnable true);;
      mret written.

Definition pseudo_tcp_socket_get_available_bytes : M Z :=
  b ← get rbuf; mret (s32 (pseudo_tcp_fifo_get_buffered b)).

Definition pseudo_tcp_socket_shutdown (how : PseudoTcpShutdown) : M unit :=
  fin_ack ← get support_fin_ack;
  if negb fin_ack then
    down ← get shutdown;
    when (bool_decide (down = SD_NONE)) (put shutdown SD_GRACEFUL)
  else
    match how with
    | PSEUDO_TCP_SHUTDOWN_RD | PSEUDO_TCP_SHUTDOWN_RDWR => put shutdown_reads true
    | PSEUDO_TCP_SHUTDOWN_WR => mret tt
    end;;
    if decide (how = PSEUDO_TCP_SHUTDOWN_RD) then mret tt
    else
      x ← get state;
      match x with
      | PSEUDO_TCP_LISTEN | PSEUDO_TCP_SYN_SENT => set_state_closed 0
      | PSEUDO_TCP_SYN_RECEIVED | PSEUDO_TCP_ESTABLISHED =>
          avail ← pseudo_tcp_socket_get_available_bytes;
          if 0 <? avail then closedown ECONNABORTED CLOSEDOWN_LOCAL
          else
            queue_fin_message;;
            attempt_send sfFin;;
            set_state PSEUDO_TCP_FIN_WAIT_1
      | PSEUDO_TCP_CLOSE_WAIT =>
          queue_fin_message;;
          attempt_send sfFin;;
          set_state PSEUDO_TCP_LAST_ACK
      | PSEUDO_TCP_CLOSING | PSEUDO_TCP_CLOSED | PSEUDO_TCP_FIN_WAIT_1
      | PSEUDO_TCP_FIN_WAIT_2 | PSEUDO_TCP_TIME_WAIT | PSEUDO_TCP_LAST_ACK => mret tt
      end.

Definition pseudo_tcp_socket_close (force : bool) : M unit :=
  x ← get state;
  if force && negb (bool_decide (x = PSEUDO_TCP_CLOSED)) then
    closedown ECONNABORTED CLOSEDOWN_LOCAL
  else pseudo_tcp_socket_shutdown PSEUDO_TCP_SHUTDOWN_RDWR.

Definition pseudo_tcp_socket_get_error : M Z := get error.

Definition pseudo_tcp_socket_get_available_send_space : M Z :=
  x ← get state;
  b ← get sbuf;
  let ret := if negb (pseudo_tcp_state_has_sent_fin x)
             then pseudo_tcp_fifo_get_write_remaining b else 0 in
  when (ret =? 0) (put bWriteEnable true);;
  mret ret.

Definition pseudo_tcp_socket_can_send : M bool :=
  n ← pseudo_tcp_socket_get_available_send_space; mret (0 <? n).

(** ** The GObject *)

Inductive Property :=
| PROP_CONVERSATION (v : Z)
| PROP_CALLBACKS (v : PseudoTcpCallbacks)
| PROP_STATE (v : PseudoTcpState)
| PROP_ACK_DELAY (v : Z)
| PROP_NO_DELAY (v : bool)
| PROP_RCV_BUF (v : Z)
| PROP_SND_BUF (v : Z)
| PROP_SUPPORT_FIN_ACK (v : bool).

(** PROP_STATE is read-only: the setter warns. *)
Definition pseudo_tcp_socket_set_property (p : Property) : M unit :=
  match p with
  | PROP_CONVERSATION v => put conv v
  | PROP_CALLBACKS c => put callbacks c
  | PROP_ACK_DELAY v => put ack_delay v
  | PROP_NO_DELAY v => put use_nagling (negb v)
  | PROP_RCV_BUF v =>
      listen ← state_is PSEUDO_TCP_LISTEN; when listen (resize_receive_buffer v)
  | PROP_SND_BUF v =>
      listen ← state_is PSEUDO_TCP_LISTEN; when listen (resize_send_buffer v)
  | PROP_SUPPORT_FIN_ACK v => put support_fin_ack v
  | PROP_STATE _ => mret tt
  end.

(** The values the getter returns, in the order of the enumeration. *)
Definition pseudo_tcp_socket_get_property (s : PseudoTcpSocket) : list Property :=
  [PROP_CONVERSATION (conv s); PROP_CALLBACKS (callbacks s); PROP_STATE (state s);
   PROP_ACK_DELAY (ack_delay s); PROP_NO_DELAY (negb (use_nagling s)); PROP_RCV_BUF (rbuf_len s);
   PROP_SND_BUF (sbuf_len s); PROP_SUPPORT_FIN_ACK (support_fin_ack s)].

Definition pseudo_tcp_socket_init : PseudoTcpSocket :=
  {| callbacks := Build_PseudoTcpCallbacks false false false false;
     shutdown := SD_NONE; shutdown_reads := false; error := 0;
     state := PSEUDO_TCP_LISTEN; conv := 0;
     bReadEnable := true; bWriteEnable := false; bOutgoing := false; last_traffic := 0;
     rlist := []; rbuf_len := DEFAULT_RCV_BUF_SIZE; rcv_nxt := 0; rcv_wnd := DEFAULT_RCV_BUF_SIZE;
     lastrecv := 0; rwnd_scale := 0;
     rbuf := pseudo_tcp_fifo_init fifo_zero DEFAULT_RCV_BUF_SIZE; rcv_fin := 0;
     slist := []; unsent_slist := []; sbuf_len := DEFAULT_SND_BUF_SIZE;
     snd_nxt := 0; snd_wnd := 1; lastsend := 0; snd_una := 0; swnd_scale := 0;
     sbuf := pseudo_tcp_fifo_init fifo_zero DEFAULT_SND_BUF_SIZE;
     mss := MIN_PACKET - PACKET_OVERHEAD; msslevel := 0; largest := 0; mtu_advise := DEF_MTU;
     rto_base := 0; ts_recent := 0; ts_lastack := 0;
     rx_rttvar := 0; rx_srtt := 0; rx_rto := DEF_RTO;
     ssthresh := DEFAULT_RCV_BUF_SIZE; cwnd := 2 * (MIN_PACKET - PACKET_OVERHEAD);
     dup_acks := 0; recover := 0; fast_recovery := false; t_ack := 0; last_acked_ts := 0;
     use_nagling := negb DEFAULT_NO_DELAY; ack_delay := DEFAULT_ACK_DELAY;
     support_wnd_scale := true; current_time := 0; support_fin_ack := true;
     ssegs := ∅; next_sseg := 0; trace := []; clock_reads := 0 |}.

(** The construct-only properties are set at construction. *)
Definition pseudo_tcp_socket_new (conversation : Z) (cb : PseudoTcpCallbacks) : PseudoTcpSocket :=
  pseudo_tcp_socket_init <| conv := conversation |> <| callbacks := cb |>.

Fixpoint free_all (q : list nat) : M unit :=
  match q with
  | [] => put slist []
  | id :: q => sseg_free id;; free_all q
  end.

Definition pseudo_tcp_socket_finalize : M unit :=
  q ← get slist;
  free_all q;;
  put unsent_slist [];;
  put rlist [];;
  upd rbuf pseudo_tcp_fifo_clear;;
  upd sbuf pseudo_tcp_fifo_clear.

End env.

(** ** Concrete sockets

    An environment, and sockets with buffers of 64 octets. *)

(** A network that always answers [r]. *)
Definition sample_env (r : PseudoTcpWriteResult) : Env :=
  {| env_alloc := zero_alloc; WritePacket := λ _ _, r; g_get_monotonic_time := λ _, 1000000 |}.

Definition sample_fifo (data : bytes) : PseudoTcpFifo :=
  {| buffer := data ++ replicate (64 - length data) 0; buffer_length := 64;
     data_length := zlen data; read_position := 0 |}.

(** A socket of conversation 7 at time 1000, with [received] in its receive
    buffer, expecting octet [nxt], and nothing sent beyond octet [una]. *)
Definition sample_socket (x : PseudoTcpState) (received : bytes) (nxt una : Z) : PseudoTcpSocket :=
  (@pseudo_tcp_socket_init (sample_env WR_SUCCESS))
    <| conv := 7 |> <| callbacks := Build_PseudoTcpCallbacks true true true true |>
    <| current_time := 1000 |> <| state := x |>
    <| rbuf := sample_fifo received |> <| rbuf_len := 64 |> <| rcv_wnd := 64 - zlen received |>
    <| sbuf := sample_fifo [] |> <| sbuf_len := 64 |> <| ssthresh := 64 |>
    <| rcv_nxt := nxt |> <| snd_una := una |> <| snd_nxt := una |> <| snd_wnd := 64 |>.

(** The same with [data] queued, of which the first [sent] octets have been
    sent in one segment. *)
Definition sample_sender (x : PseudoTcpState) (una : Z) (sent data : bytes) : PseudoTcpSocket :=
  (sample_socket x [] 100 una)
    <| sbuf := sample_fifo (sent ++ data) |> <| snd_nxt := u32 (una + zlen sent) |>
    <| slist := [0%nat; 1%nat] |> <| unsent_slist := [1%nat] |> <| next_sseg := 2%nat |>
    <| ssegs := <[0%nat := {| sseg_seq := una; sseg_len := zlen sent; sseg_xmit := 1;
                              sseg_flags := FLAG_NONE |}]>
                (<[1%nat := {| sseg_seq := u32 (una + zlen sent); sseg_len := zlen data;
                               sseg_xmit := 0; sseg_flags := FLAG_NONE |}]> ∅) |>.

Lemma sample_fifo_ok data : (length data ≤ 64)%nat → fifo_ok (sample_fifo data).
Proof.
  intros Hl. split; cbn; unfold zlen; rewrite ?length_app, ?length_replicate; lia.
Qed.
