(* ===== verification/PseudoTcpWire.v ===== *)
(** * Pseudo-TCP: sequence numbers, headers and options

    The modular order on times and sequence numbers, the header a socket
    writes as its peer reads it, and the option list. *)

From S2P Require Import Prelude Bytes StateMonad PseudoTcpFifo PseudoTcp.

(** ** Modular order *)

Lemma u32_add_l a b : u32 (u32 a + b) = u32 (a + b).
Proof. unfold u32. by rewrite Zplus_mod_idemp_l. Qed.
Lemma u32_sub_lr a b : u32 (u32 a - u32 b) = u32 (a - b).
Proof. unfold u32. by rewrite Zminus_mod_idemp_l, Zminus_mod_idemp_r. Qed.

Lemma time_diff_eq later earlier :
  is_u32 later → is_u32 earlier → time_diff later earlier = s32 (later - earlier).
Proof.
  unfold is_u32, time_diff, time_is_between, s32, u32. intros Hl He.
  repeat case_match; repeat match goal with
  | H : (_ <=? _) = _ |- _ => revert H
  | H : negb _ = _ |- _ => revert H
  | H : (_ && _)%bool = _ |- _ => revert H
  end; zcase; cbn; intros; try discriminate; zlia.
Qed.

Lemma modular_order (x y : Z) :
  - (2 ^ 31 - 1) < x - y < 2 ^ 31 - 1 →
  LARGER (u32 x) (u32 y) = bool_decide (y < x) ∧
  LARGER_OR_EQUAL (u32 x) (u32 y) = bool_decide (y ≤ x) ∧
  SMALLER (u32 x) (u32 y) = bool_decide (x < y) ∧
  SMALLER_OR_EQUAL (u32 x) (u32 y) = bool_decide (x ≤ y).
Proof.
  intros H. unfold SMALLER, SMALLER_OR_EQUAL, LARGER, LARGER_OR_EQUAL, u32.
  change (Z.shiftr G_MAXUINT32 1) with (2 ^ 31 - 1).
  split_and!; case_bool_decide; first [apply Z.ltb_lt | apply Z.ltb_ge]; zlia.
Qed.

(** Sequence numbers and times are compared around the 32-bit circle: for
    two positions less than 2^31 - 1 apart on the unbounded line, the
    comparison macros and the sign of [time_diff] on the wrapped values give
    the order of the positions, and [time_diff] is their exact distance. *)
Theorem modular_order_correct (x y : Z) :
  - (2 ^ 31 - 1) < x - y < 2 ^ 31 - 1 →
  time_diff (u32 x) (u32 y) = x - y ∧
  LARGER (u32 x) (u32 y) = bool_decide (y < x) ∧
  LARGER_OR_EQUAL (u32 x) (u32 y) = bool_decide (y ≤ x) ∧
  SMALLER (u32 x) (u32 y) = bool_decide (x < y) ∧
  SMALLER_OR_EQUAL (u32 x) (u32 y) = bool_decide (x ≤ y).
Proof.
  intros H. rewrite time_diff_eq by apply u32_range.
  split; [unfold s32, u32; zlia | by apply modular_order].
Qed.

Lemma modular_order_correct_witness :
  time_diff 5 (2 ^ 32 - 3) = 8 ∧ LARGER 5 (2 ^ 32 - 3) = true.
Proof.
  destruct (modular_order_correct (2 ^ 32 + 5) (2 ^ 32 - 3) ltac:(lia)) as (H1 & H2 & _).
  split; [exact H1 | exact H2].
Defined.

(** ** The header *)

Lemma htonl_htonl v : htonl (htonl v) = u32 v.
Proof.
  rewrite <- (htonl_involutive (u32 v)) by apply u32_range. unfold htonl at 4. by rewrite be4_u32.
Qed.

Lemma htons_htons v : htons (htons v) = u16 v.
Proof.
  unfold htons at 1. unfold be at 1. rewrite le_htons. unfold be. rewrite reverse_involutive, of_le_le.
  done.
Qed.

Lemma parse_packet_header cv seq ack flags wnd tsval tsecr data n :
  parse_header (packet_header cv seq ack flags wnd tsval tsecr) data n =
  Done {| seg_conv := u32 cv; seg_seq := u32 seq; seg_ack := u32 ack; seg_flags := u8 flags;
          seg_wnd := u16 wnd; seg_data := data; seg_len := u32 n;
          seg_tsval := u32 tsval; seg_tsecr := u32 tsecr |}.
Proof.
  transitivity (Done {| seg_conv := htonl (of_le (Bytes.le 4 (htonl cv)));
    seg_seq := htonl (of_le (Bytes.le 4 (htonl seq)));
    seg_ack := htonl (of_le (Bytes.le 4 (htonl ack))); seg_flags := u8 flags;
    seg_wnd := htons (of_le (Bytes.le 2 (htons wnd))); seg_data := data; seg_len := u32 n;
    seg_tsval := htonl (of_le (Bytes.le 4 (htonl tsval)));
    seg_tsecr := htonl (of_le (Bytes.le 4 (htonl tsecr))) |}).
  - reflexivity.
  - rewrite !of_le_le4 by apply htonl_range. rewrite of_le_le2 by apply htons_range.
    by rewrite !htonl_htonl, htons_htons.
Qed.

Lemma packet_header_length cv seq ack flags wnd tsval tsecr :
  zlen (packet_header cv seq ack flags wnd tsval tsecr) = 24.
Proof. reflexivity. Qed.

Section wire.
Context `{Env}.

(** The octets of a packet and the octets behind its header. *)
Definition packet_bytes (s : PseudoTcpSocket) (seq flags now : Z) (payload : bytes) : bytes :=
  packet_header (conv s) seq (rcv_nxt s) flags (u16 (Z.shiftr (rcv_wnd s) (rwnd_scale s))) now
    (ts_recent s) ++ payload.

(** What [packet] does, when it may be called. *)
Lemma packet_spec s seq flags offset len now :
  fifo_ok (sbuf s) → rwnd_scale s < 32 → 0 ≤ len → 24 + len ≤ MAX_PACKET → 0 ≤ offset →
  (len = 0 ∨ offset + len ≤ data_length (sbuf s)) →
  let payload := take (Z.to_nat len) (drop (Z.to_nat offset) (contents (sbuf s))) in
  let pkt := packet_bytes s seq flags now payload in
  let wres := WritePacket (trace s) pkt in
  let s1 := s <| ts_lastack := rcv_nxt s |> <| trace := EvWritePacket pkt :: trace s |> in
  packet seq flags offset len now s =
    (if negb (bool_decide (wres = WR_SUCCESS)) && negb (len =? 0) then Done (wres, s1)
     else Done (WR_SUCCESS,
       (if 0 <? len then s1 <| t_ack := 0 |> <| lastsend := now |> else s1 <| t_ack := 0 |>)
         <| last_traffic := now |> <| bOutgoing := true |>)).
Proof.
  intros Hb Hsc Hl Hmax Ho Hoff payload pkt wres s1.
  unfold packet. destruct (Z.leb_spec (HEADER_SIZE + len) MAX_PACKET); [| unfold HEADER_SIZE in *; lia].
  st_run. unfold shr_u32. destruct (Z.ltb_spec (rwnd_scale s) 32); [| lia]. st_run.
  pose proof (fo_max _ Hb). pose proof (fo_dl _ Hb). pose proof (contents_length _ Hb).
  assert (Hpay : (if negb (len =? 0) then
      b ← get sbuf; data ← lift (pseudo_tcp_fifo_read_offset b len offset);
      assert_st (zlen data =? len);; mret data else mret [] : M bytes)
      (s <| ts_lastack := rcv_nxt s |>) = Done (payload, s <| ts_lastack := rcv_nxt s |>)).
  { destruct (Z.eqb_spec len 0) as [-> | Hne]; [done |]. destruct Hoff as [-> | Hoff]; [done |].
    cbn [negb]. st_run. change (sbuf (s <| ts_lastack := rcv_nxt s |>)) with (sbuf s).
    rewrite fifo_read_offset_spec by (done || lia). st_run. fold payload.
    assert (zlen payload = len) as ->.
    { subst payload. unfold zlen in *. rewrite length_take, length_drop. lia. }
    rewrite Z.eqb_refl. st_run. done. }
  erewrite bind_run by exact Hpay. st_run. unfold emit. st_run.
  match goal with |- context [WritePacket ?a ?b] => change (WritePacket a b) with wres end.
  destruct (negb (bool_decide (wres = WR_SUCCESS)) && negb (len =? 0)); [done |].
  st_run. destruct (0 <? len); st_run; done.
Qed.

(** C40: what a socket sends is what its peer reads: the packet handed to
    [WritePacket] parses to a segment with the socket's conversation, the
    sequence number and flags asked for, the acknowledgement, scaled window
    and timestamps of the socket, and exactly the octets of the send buffer
    at the given offset. *)
Theorem packet_parse_roundtrip s seq flags offset len now :
  fifo_ok (sbuf s) → rwnd_scale s < 32 → 0 ≤ len → 24 + len ≤ MAX_PACKET → 0 ≤ offset →
  (len = 0 ∨ offset + len ≤ data_length (sbuf s)) →
  ∃ r s' header data,
    packet seq flags offset len now s = Done (r, s') ∧
    trace s' = EvWritePacket (header ++ data) :: trace s ∧
    zlen header = HEADER_SIZE ∧ zlen data = len ∧
    parse_header header data len =
      Done {| seg_conv := u32 (conv s); seg_seq := u32 seq; seg_ack := u32 (rcv_nxt s);
              seg_flags := u8 flags;
              seg_wnd := u16 (Z.shiftr (rcv_wnd s) (rwnd_scale s));
              seg_data := take (Z.to_nat len) (drop (Z.to_nat offset) (contents (sbuf s)));
              seg_len := len; seg_tsval := u32 now; seg_tsecr := u32 (ts_recent s) |}.
Proof.
  intros Hb Hsc Hl Hmax Ho Hoff. rewrite packet_spec by done.
  set (payload := take (Z.to_nat len) (drop (Z.to_nat offset) (contents (sbuf s)))).
  unfold packet_bytes. set (header := packet_header _ _ _ _ _ _ _).
  pose proof (fo_max _ Hb). pose proof (fo_dl _ Hb). pose proof (contents_length _ Hb).
  assert (Hp : zlen payload = len).
  { subst payload. unfold zlen in *. rewrite length_take, length_drop. lia. }
  destruct (_ && _)%bool; [| destruct (0 <? len)];
    do 2 eexists; exists header, payload; (split_and!; [done | done | done | done |]);
    unfold header; rewrite parse_packet_header; do 2 f_equal;
    unfold u16, MAX_PACKET in *; first [by rewrite Z.mod_mod | apply u32_small; unfold is_u32; lia].
Qed.

End wire.

Lemma packet_parse_roundtrip_witness :
  let s := sample_sender PSEUDO_TCP_ESTABLISHED 50 [1; 2; 3] [4; 5] in
  ∃ r s' header data,
    @packet (sample_env WR_SUCCESS) 53 0 3 2 1000 s = Done (r, s') ∧
    trace s' = EvWritePacket (header ++ data) :: trace s ∧
    zlen header = HEADER_SIZE ∧ zlen data = 2 ∧
    parse_header header data 2 =
      Done {| seg_conv := 7; seg_seq := 53; seg_ack := 100; seg_flags := 0; seg_wnd := 64;
              seg_data := [4; 5]; seg_len := 2; seg_tsval := 1000; seg_tsecr := 0 |}.
Proof.
  apply (@packet_parse_roundtrip (sample_env WR_SUCCESS)
    (sample_sender PSEUDO_TCP_ESTABLISHED 50 [1; 2; 3] [4; 5]) 53 0 3 2 1000).
  - by apply sample_fifo_ok, (bool_decide_unpack _).
  - done.
  - done.
  - done.
  - done.
  - right. by apply Z.leb_le.
Defined.

(** ** Options *)

Section options.
Context `{Env}.

(** The options a socket announces in its CONNECT message are the ones its
    peer applies: the peer's send window scale becomes the socket's receive
    window scale, and the peer keeps FIN-ACK support exactly when the socket
    has it. *)
Theorem connect_options_negotiated a b :
  support_wnd_scale a = true →
  parse_options (drop 1 (connect_message a)) (zlen (connect_message a) - 1) b =
    Done (tt, b <| swnd_scale := rwnd_scale a |> <| support_fin_ack := support_fin_ack a |>).
Proof.
  intros Hw. unfold connect_message. rewrite Hw. by destruct (support_fin_ack a).
Qed.

Definition opt_frame (s s' : PseudoTcpSocket) : Prop :=
  rbuf s' = rbuf s ∧ rwnd_scale s' = rwnd_scale s ∧ rbuf_len s' = rbuf_len s.

Lemma apply_option_wp kind data pos len s Q :
  (len = 1 → 0 ≤ pos < zlen data) →
  (∀ s', opt_frame s s' → Q tt s') → wp (apply_option kind data pos len) Q s.
Proof.
  intros Hp HQ. unfold apply_option, apply_window_scale_option, apply_fin_ack_option.
  destruct (kind =? TCP_OPT_MSS); [by apply HQ |].
  destruct (kind =? TCP_OPT_WND_SCALE).
  - destruct (Z.eqb_spec len 1) as [Hl | Hl]; cbn [negb]; [| by apply HQ].
    destruct (getb_in data pos (Hp Hl)) as (x & Hx & _).
    apply wp_bind, (wp_lift _ _ _ _ Hx), wp_put. by apply HQ.
  - destruct (kind =? TCP_OPT_FIN_ACK); [apply wp_put | apply wp_ret]; by apply HQ.
Qed.

Lemma options_loop_wp fuel data pos hw hf s :
  bytes_ok data → zlen data ≤ 2 ^ 31 → 0 ≤ pos ≤ zlen data → zlen data - pos < Z.of_nat fuel →
  wp (options_loop fuel data (zlen data) pos hw hf) (λ _ s', opt_frame s s') s.
Proof.
  intros Hd Hlen. revert pos hw hf s. induction fuel as [| fuel IH]; intros pos hw hf s Hpos Hf; [lia |].
  cbn [options_loop]. destruct (Z.ltb_spec pos (zlen data)) as [Hlt | Hge]; [| by apply wp_ret].
  rewrite (u32_small (pos + 1)) by (unfold is_u32; lia).
  destruct (Z.ltb_spec (zlen data) (pos + 1)); [by apply wp_ret |].
  destruct (getb_in data pos) as (kind & Hk & _); [lia |].
  apply wp_bind, (wp_lift _ _ _ _ Hk).
  destruct (kind =? TCP_OPT_EOL); [by apply wp_ret |].
  destruct (kind =? TCP_OPT_NOOP); [apply IH; lia |].
  rewrite (u32_small (pos + 1 + 1)) by (unfold is_u32; lia).
  destruct (Z.ltb_spec (zlen data) (pos + 1 + 1)); [by apply wp_ret |].
  destruct (getb_in data (pos + 1)) as (opt_len & Hol & _); [lia |].
  apply wp_bind, (wp_lift _ _ _ _ Hol).
  assert (Hr : is_u8 opt_len) by (by eapply getb_u8).
  unfold is_u8 in Hr. rewrite !(u32_small (pos + 1 + 1 + opt_len)) by (unfold is_u32; lia).
  destruct (Z.ltb_spec (zlen data) (pos + 1 + 1 + opt_len)); [by apply wp_ret |].
  rewrite u32_small by (unfold is_u32; lia).
  destruct (Z.leb_spec opt_len (zlen data - (pos + 1 + 1))); [| by apply wp_ret].
  apply wp_bind, apply_option_wp; [lia |]. intros s' (E1 & E2 & E3).
  eapply wp_mono; [apply IH; lia |]. intros _ s'' (F1 & F2 & F3). split_and!; congruence.
Qed.

Lemma resize_receive_buffer_default s :
  fifo_ok (rbuf s) → data_length (rbuf s) ≤ DEFAULT_RCV_BUF_SIZE →
  wp (resize_receive_buffer DEFAULT_RCV_BUF_SIZE) (λ _ s', fifo_ok (rbuf s')) s.
Proof.
  intros Hb Hd. unfold resize_receive_buffer. apply wp_bind, wp_get.
  destruct (rbuf_len s =? DEFAULT_RCV_BUF_SIZE); [by apply wp_ret |].
  apply wp_bind. eapply wp_lift; [reflexivity |]. apply wp_bind, wp_get.
  change (u32 (Z.shiftl DEFAULT_RCV_BUF_SIZE 0)) with DEFAULT_RCV_BUF_SIZE.
  destruct (fifo_set_capacity_ok (rbuf s) DEFAULT_RCV_BUF_SIZE) as (b' & E & Hb'); [done | done |].
  apply wp_bind. eapply wp_lift; [exact E |].
  apply wp_bind, wp_put, wp_bind, wp_assert; [done |].
  repeat (first [apply wp_bind | apply wp_put]). done.
Qed.

(** The option parser is safe on any octets a peer sends: it returns,
    without reading outside the octets it was given, provided the receive
    buffer never holds more than the default buffer size when the socket
    scales its window. *)
Theorem parse_options_safe s data :
  bytes_ok data → zlen data ≤ 2 ^ 31 → fifo_ok (rbuf s) →
  (rwnd_scale s ≤ 0 ∨ data_length (rbuf s) ≤ DEFAULT_RCV_BUF_SIZE) →
  ∃ s', parse_options data (zlen data) s = Done (tt, s') ∧ fifo_ok (rbuf s').
Proof.
  intros Hd Hl Hb Hr. enough (wp (parse_options data (zlen data)) (λ _ s', fifo_ok (rbuf s')) s) as W.
  { apply wp_done in W as ([] & s' & ? & ?). eauto. }
  unfold parse_options. apply wp_bind. pose proof (zlen_nonneg data).
  eapply wp_mono; [apply options_loop_wp; [done | done | lia | lia] |].
  intros [[hw hf] |] s' (E1 & E2 & E3); [| apply wp_ret; by rewrite E1].
  apply wp_bind, wp_when; intros _.
  - apply wp_bind, wp_get, wp_when;
      [| intros _; destruct hf; [apply wp_ret | apply wp_put]; cbn; by rewrite E1].
    rewrite E2. intros Hsc%Z.ltb_lt. apply wp_bind.
    eapply wp_mono; [apply resize_receive_buffer_default; rewrite E1; [done | lia] |].
    intros [] s'' Hs''. apply wp_put. destruct hf; [apply wp_ret | apply wp_put]; done.
  - destruct hf; [apply wp_ret | apply wp_put]; cbn; by rewrite E1.
Qed.

(** The proviso is needed: a CONNECT message without options that
    reaches a socket with a scaled window and more data in its receive buffer
    than the default size fails the assertion of [resize_receive_buffer]. *)
Theorem parse_options_resize_asserts s :
  0 < rwnd_scale s → rbuf_len s ≠ DEFAULT_RCV_BUF_SIZE →
  DEFAULT_RCV_BUF_SIZE < data_length (rbuf s) →
  parse_options [] 0 s = Ub.
Proof.
  intros Hs Hr Hd. unfold parse_options.
  erewrite bind_run by reflexivity. cbn [negb].
  apply Z.ltb_lt in Hs. unfold when at 1. st_run. rewrite Hs. cbn [when].
  unfold resize_receive_buffer. st_run.
  destruct (Z.eqb_spec (rbuf_len s) DEFAULT_RCV_BUF_SIZE); [done |].
  change (scale_loop 32 0 DEFAULT_RCV_BUF_SIZE) with (Done (0, DEFAULT_RCV_BUF_SIZE)). st_run.
  unfold pseudo_tcp_fifo_set_capacity.
  change (u32 (Z.shiftl DEFAULT_RCV_BUF_SIZE 0)) with DEFAULT_RCV_BUF_SIZE.
  destruct (Z.ltb_spec DEFAULT_RCV_BUF_SIZE (data_length (rbuf s))); [| lia].
  unfold mret, outcome_ret. st_run. done.
Qed.

End options.

Lemma connect_options_negotiated_witness :
  let a := (sample_socket PSEUDO_TCP_LISTEN [] 0 0) <| rwnd_scale := 3 |> in
  @parse_options (sample_env WR_SUCCESS) (drop 1 (connect_message a)) (zlen (connect_message a) - 1) a =
    Done (tt, a <| swnd_scale := 3 |> <| support_fin_ack := true |>).
Proof. cbv zeta. by apply (@connect_options_negotiated (sample_env WR_SUCCESS)). Defined.

Lemma parse_options_safe_witness :
  let s := sample_socket PSEUDO_TCP_LISTEN [] 0 0 in
  ∃ s', @parse_options (sample_env WR_SUCCESS) [2; 0; 3; 200; 7] (zlen [2; 0; 3; 200; 7]) s = Done (tt, s') ∧
    fifo_ok (rbuf s').
Proof.
  cbv zeta. apply (@parse_options_safe (sample_env WR_SUCCESS)).
  - by apply (bool_decide_unpack _).
  - by apply Z.leb_le.
  - by apply sample_fifo_ok, (bool_decide_unpack _).
  - by left.
Defined.

Lemma parse_options_resize_asserts_witness :
  let s := (sample_socket PSEUDO_TCP_ESTABLISHED [] 0 0) <| rwnd_scale := 1 |>
    <| rbuf := {| buffer := []; buffer_length := 100000; data_length := 80000;
                  read_position := 0 |} |> in
  @parse_options (sample_env WR_SUCCESS) [] 0 s = Ub.
Proof. cbv zeta. by apply (@parse_options_resize_asserts (sample_env WR_SUCCESS)). Defined.
