(* ===== verification/PseudoTcpStates.v ===== *)
(** * Pseudo-TCP: the state machine

    Every entry point moves the state along the transitions of RFC 793 that
    the code uses; CLOSED is final; [closedown] reaches it from every state. *)

From S2P Require Import Prelude Bytes StateMonad PseudoTcpFifo PseudoTcp.
From stdpp Require Import gmap.

#[global] Open Scope Z_scope.

(** The transitions taken: those [set_state] admits, less the ones out of
    CLOSED and back to LISTEN. *)
Definition state_step (x y : PseudoTcpState) : Prop :=
  TRANSITION x y = true ∧ x ≠ PSEUDO_TCP_CLOSED ∧ y ≠ PSEUDO_TCP_LISTEN.

Definition state_path (s s' : PseudoTcpSocket) : Prop := rtc state_step (state s) (state s').

#[export] Instance state_path_preorder : PreOrder state_path.
Proof. split; unfold state_path; [intros s; done | intros s1 s2 s3 ? ?; by etransitivity]. Qed.

(** What the receiver keeps is untouched: the buffer, the early segments, the
    next octet expected, the place of the FIN; and a receiver that is shut down
    stays so. *)
Definition same_rx (s s' : PseudoTcpSocket) : Prop :=
  rbuf s' = rbuf s ∧ PseudoTcp.rlist s' = PseudoTcp.rlist s ∧ rcv_nxt s' = rcv_nxt s ∧ rcv_fin s' = rcv_fin s ∧
  support_fin_ack s' = support_fin_ack s ∧ (shutdown s' = SD_NONE → shutdown s = SD_NONE).

#[export] Instance same_rx_preorder : PreOrder same_rx.
Proof.
  split; unfold same_rx; [by intros s; split_and! |].
  intros s1 s2 s3 (? & ? & ? & ? & ? & ?) (? & ? & ? & ? & ? & ?). split_and!; [congruence.. | auto].
Qed.

(** The routines that do not receive: the state moves, the receiver stays. *)
Definition frame (s s' : PseudoTcpSocket) : Prop := state_path s s' ∧ same_rx s s'.

#[export] Instance frame_preorder : PreOrder frame.
Proof.
  split; unfold frame; [by intros s; split | intros s1 s2 s3 [? ?] [? ?]; split; by etrans].
Qed.

Lemma frame_path {A} (m : M A) : keeps frame m → keeps state_path m.
Proof. intros Hm s a s' Hr. by eapply Hm. Qed.

(** The longest distance from LISTEN: no state is entered twice. *)
Definition state_rank (x : PseudoTcpState) : nat :=
  match x with
  | PSEUDO_TCP_LISTEN => 0
  | PSEUDO_TCP_SYN_SENT => 1
  | PSEUDO_TCP_SYN_RECEIVED => 2
  | PSEUDO_TCP_ESTABLISHED => 3
  | PSEUDO_TCP_FIN_WAIT_1 => 4
  | PSEUDO_TCP_FIN_WAIT_2 | PSEUDO_TCP_CLOSING | PSEUDO_TCP_CLOSE_WAIT => 5
  | PSEUDO_TCP_TIME_WAIT | PSEUDO_TCP_LAST_ACK => 6
  | PSEUDO_TCP_CLOSED => 7
  end.

Lemma state_step_rank x y : state_step x y → (state_rank x < state_rank y)%nat.
Proof. intros (H & H1 & H2). destruct x, y; cbn in *; first [done | lia]. Qed.

Lemma state_path_rank x y : rtc state_step x y → x = y ∨ (state_rank x < state_rank y)%nat.
Proof.
  induction 1 as [x | x y z Hxy Hyz IH]; [by left | right].
  apply state_step_rank in Hxy. destruct IH as [<- | IH]; lia.
Qed.

(** ** Every routine follows the transitions *)

Section paths.
Context `{Env}.

Ltac path_prim :=
  intros ? ? ? [= <- <-];
  first [by apply rtc_refl | split; [apply rtc_refl | by split_and!]].
Hint Extern 3 (keeps state_path _) => apply frame_path : keeps.
Ltac path :=
  repeat first
    [ progress keeps_step
    | path_prim
    | solve [auto 2 with keeps nocore]
    | match goal with |- keeps _ (let '_ := ?x in _) => destruct x end
    | match goal with |- keeps _ (decide_rel _ _ _) => idtac end ].

Lemma path_sseg_get id : keeps frame (sseg_get id).
Proof. intros s g s' Hr. unfold sseg_get in Hr. case_match; by simplify_eq. Qed.
Hint Resolve path_sseg_get : keeps.
Lemma path_sseg_put id g : keeps frame (sseg_put id g).
Proof. unfold sseg_put. path. Qed.
Lemma path_sseg_new g : keeps frame (sseg_new g).
Proof. unfold sseg_new. path. Qed.
Lemma path_sseg_free id : keeps frame (sseg_free id).
Proof. unfold sseg_free. path. Qed.
Lemma path_peek_head q : keeps frame (peek_head q).
Proof. unfold peek_head. path. Qed.
Lemma path_emit e : keeps frame (emit e).
Proof. unfold emit. path. Qed.
Lemma path_time : keeps frame get_current_time.
Proof. unfold get_current_time. path. Qed.
Lemma path_state_is x : keeps frame (state_is x).
Proof. unfold state_is. path. Qed.
Hint Resolve path_sseg_put path_sseg_new path_sseg_free path_peek_head path_emit path_time
  path_state_is : keeps.

Lemma path_set_state x :
  x ≠ PSEUDO_TCP_SYN_SENT → x ≠ PSEUDO_TCP_LISTEN → keeps frame (set_state x).
Proof.
  intros Hs Hl s a s' Hr. unfold set_state in Hr. apply st_bind_inv in Hr as (y & s1 & Hg & Hr).
  apply st_get_inv in Hg as [-> ->]. case_decide as Hd.
  { apply st_ret_inv in Hr as [-> ->]. done. }
  apply st_bind_inv in Hr as (u & s1 & Ha & Hr). apply st_assert_inv in Ha as (Ht & -> & ->).
  apply st_put_inv in Hr as [-> ->]. split; [| by split_and!].
  apply rtc_once. change (state_step (state s) x).
  split_and!; [done | | done]. intros E. rewrite E in Ht. by destruct x.
Qed.
Hint Extern 1 (keeps frame (set_state _)) =>
  apply path_set_state; discriminate : keeps.

Lemma path_set_state_closed err : keeps frame (set_state_closed err).
Proof. unfold set_state_closed. path. Qed.
Lemma path_adjustMTU_loop fuel : keeps frame (adjustMTU_loop fuel).
Proof. induction fuel; cbn; path; done. Qed.
Hint Resolve path_set_state_closed path_adjustMTU_loop : keeps.
Lemma path_adjustMTU : keeps frame adjustMTU.
Proof. unfold adjustMTU. path. Qed.
Hint Resolve path_adjustMTU : keeps.
Lemma path_established : keeps frame set_state_established.
Proof. unfold set_state_established. path. Qed.
Lemma path_resize_send n : keeps frame (resize_send_buffer n).
Proof. unfold resize_send_buffer. path. Qed.
Lemma path_resize_receive n : keeps state_path (resize_receive_buffer n).
Proof. unfold resize_receive_buffer. path. Qed.
Lemma path_queue d l f : keeps frame (queue d l f).
Proof. unfold queue. path. Qed.
Hint Resolve path_established path_resize_send path_resize_receive path_queue : keeps.
Lemma path_queue_connect : keeps frame queue_connect_message.
Proof. unfold queue_connect_message. path. Qed.
Lemma path_queue_fin : keeps frame queue_fin_message.
Proof. unfold queue_fin_message. path. Qed.
Lemma path_queue_rst : keeps frame queue_rst_message.
Proof. unfold queue_rst_message. path. Qed.
Lemma path_packet a b c d e : keeps frame (packet a b c d e).
Proof. unfold packet. path. Qed.
Hint Resolve path_queue_connect path_queue_fin path_queue_rst path_packet : keeps.
Lemma path_lower_mss fuel n : keeps frame (lower_mss fuel n).
Proof. induction fuel; cbn; path; done. Qed.
Hint Resolve path_lower_mss : keeps.
Lemma path_transmit_loop fuel a n now : keeps frame (transmit_loop fuel a n now).
Proof. revert n. induction fuel; intros n; cbn; path; done. Qed.
Hint Resolve path_transmit_loop : keeps.
Lemma path_transmit a now : keeps frame (transmit a now).
Proof. unfold transmit. path. Qed.
Lemma path_closedown_walk err : keeps frame (closedown_walk err).
Proof. unfold closedown_walk. path. Qed.
Lemma path_split a n : keeps frame (split_unsent a n).
Proof. unfold split_unsent. path. Qed.
Hint Resolve path_transmit path_closedown_walk path_split : keeps.
Lemma path_attempt_send_loop fuel fl now : keeps frame (attempt_send_loop fuel fl now).
Proof. revert fl. induction fuel; intros fl; cbn; path; done. Qed.
Hint Resolve path_attempt_send_loop : keeps.
Lemma path_attempt_send fl : keeps frame (attempt_send fl).
Proof. unfold attempt_send. path. Qed.
Hint Resolve path_attempt_send : keeps.
Lemma path_closedown err src : keeps frame (closedown err src).
Proof. unfold closedown. path. Qed.
Hint Resolve path_closedown : keeps.
Lemma path_apply_option k d p l : keeps state_path (apply_option k d p l).
Proof. unfold apply_option, apply_window_scale_option, apply_fin_ack_option. path. Qed.
Hint Resolve path_apply_option : keeps.
Lemma path_options_loop fuel d l p a b : keeps state_path (options_loop fuel d l p a b).
Proof. revert p a b. induction fuel; intros p a b; cbn; path; done. Qed.
Hint Resolve path_options_loop : keeps.
Lemma path_parse_options d l : keeps state_path (parse_options d l).
Proof. unfold parse_options. path. Qed.
Hint Resolve path_parse_options : keeps.
Lemma path_control seg : keeps state_path (process_control seg).
Proof. unfold process_control. path. Qed.
Lemma path_rtt seg now : keeps frame (process_rtt seg now).
Proof. unfold process_rtt. path. Qed.
Lemma path_free_acked fuel n : keeps frame (free_acked fuel n).
Proof. revert n. induction fuel; intros n; cbn; path; done. Qed.
Lemma path_congestion n now : keeps frame (congestion_acked n now).
Proof. unfold congestion_acked. path. Qed.
Hint Resolve path_control path_rtt path_free_acked path_congestion : keeps.
Lemma path_valuable_ack seg now : keeps frame (valuable_ack seg now).
Proof. unfold valuable_ack. path. Qed.
Lemma path_duplicate_ack seg now : keeps frame (duplicate_ack seg now).
Proof. unfold duplicate_ack. path. Qed.
Hint Resolve path_valuable_ack path_duplicate_ack : keeps.
Lemma path_process_ack seg now : keeps frame (process_ack seg now).
Proof. unfold process_ack. path. Qed.
Lemma path_process_fin seg b : keeps state_path (process_fin seg b).
Proof. unfold process_fin. path. Qed.
Lemma path_writable : keeps frame notify_writable.
Proof. unfold notify_writable. path. Qed.
Lemma path_recover_rlist l fl : keeps state_path (recover_rlist l fl).
Proof. revert fl. induction l; intros fl; cbn; path; done. Qed.
Hint Resolve path_process_ack path_process_fin path_writable path_recover_rlist : keeps.
Lemma path_store seq d l fl : keeps state_path (store_segment seq d l fl).
Proof. unfold store_segment. path. Qed.
Hint Resolve path_store : keeps.
Lemma path_process_data seg fl : keeps state_path (process_data seg fl).
Proof. unfold process_data. path. Qed.
Hint Resolve path_process_data : keeps.
Lemma path_process_rest seg b : keeps state_path (process_rest seg b).
Proof. unfold process_rest. path. Qed.
Hint Resolve path_process_rest : keeps.
Lemma path_process seg : keeps state_path (process seg).
Proof. unfold process. path. Qed.
Hint Resolve path_process : keeps.
Lemma path_parse h d n : keeps state_path (parse h d n).
Proof. unfold parse. path. Qed.
Hint Resolve path_parse : keeps.
Lemma path_retransmit now : keeps frame (clock_retransmit now).
Proof. unfold clock_retransmit. path. Qed.
Lemma path_probe now : keeps frame (clock_probe now).
Proof. unfold clock_probe. path. Qed.
Hint Resolve path_retransmit path_probe : keeps.

(** [connect] is the only caller that enters SYN-SENT, from LISTEN. *)
Lemma path_connect : keeps frame pseudo_tcp_socket_connect.
Proof.
  intros s a s' Hr. unfold pseudo_tcp_socket_connect in Hr.
  apply st_bind_inv in Hr as (x & s1 & Hg & Hr). apply st_get_inv in Hg as [-> ->].
  case_bool_decide as Hx; cbn [negb] in Hr.
  - apply st_bind_inv in Hr as (u & s1 & Hs & Hr). transitivity s1.
    + unfold set_state in Hs. rewrite bind_get, Hx in Hs. cbn in Hs. injection Hs as <- <-.
      split; [| by split_and!]. apply rtc_once. cbn. by rewrite Hx.
    + assert (K : keeps frame (queue_connect_message;; attempt_send sfNone;; mret true))
        by path. by eapply K.
  - assert (K : keeps frame (put error EINVAL;; mret false)) by path. by eapply K.
Qed.

(** The calls an application and the network make. *)
Inductive SocketOp :=
| OpConnect
| OpNotifyMtu (mtu : Z)
| OpNotifyClock
| OpNotifyPacket (buf : bytes) (len : Z)
| OpNotifyMessage (message : NiceInputMessage)
| OpGetNextClock (timeout : Z)
| OpRecv (len : Z)
| OpSend (buf : bytes) (len : Z)
| OpShutdown (how : PseudoTcpShutdown)
| OpClose (force : bool)
| OpSendSpace
| OpSetProperty (p : Property)
| OpSetTime (t : Z).

Definition socket_op (op : SocketOp) : M unit :=
  match op with
  | OpConnect => pseudo_tcp_socket_connect;; mret tt
  | OpNotifyMtu mtu => pseudo_tcp_socket_notify_mtu mtu
  | OpNotifyClock => pseudo_tcp_socket_notify_clock
  | OpNotifyPacket buf len => pseudo_tcp_socket_notify_packet buf len;; mret tt
  | OpNotifyMessage message => pseudo_tcp_socket_notify_message message;; mret tt
  | OpGetNextClock timeout => pseudo_tcp_socket_get_next_clock timeout;; mret tt
  | OpRecv len => pseudo_tcp_socket_recv len;; mret tt
  | OpSend buf len => pseudo_tcp_socket_send buf len;; mret tt
  | OpShutdown how => pseudo_tcp_socket_shutdown how
  | OpClose force => pseudo_tcp_socket_close force
  | OpSendSpace => pseudo_tcp_socket_get_available_send_space;; mret tt
  | OpSetProperty p => pseudo_tcp_socket_set_property p
  | OpSetTime t => pseudo_tcp_socket_set_time t
  end.

Lemma path_shutdown how : keeps frame (pseudo_tcp_socket_shutdown how).
Proof. unfold pseudo_tcp_socket_shutdown, pseudo_tcp_socket_get_available_bytes. path. Qed.
Hint Resolve path_connect path_shutdown : keeps.
Lemma path_notify_packet buf len : keeps state_path (pseudo_tcp_socket_notify_packet buf len).
Proof. unfold pseudo_tcp_socket_notify_packet. path. Qed.
Hint Resolve path_notify_packet : keeps.

Lemma path_op op : keeps state_path (socket_op op).
Proof.
  destruct op; cbn [socket_op];
    unfold pseudo_tcp_socket_notify_mtu, pseudo_tcp_socket_notify_clock,
      pseudo_tcp_socket_notify_message, pseudo_tcp_socket_get_next_clock, pseudo_tcp_socket_recv,
      pseudo_tcp_socket_is_closed, pseudo_tcp_socket_send, pseudo_tcp_socket_close,
      pseudo_tcp_socket_get_available_send_space, pseudo_tcp_socket_set_property,
      pseudo_tcp_socket_set_time; path.
Qed.

(** The calls that neither bring a segment, nor read, nor resize the receive
    buffer or change the way connections end. *)
Definition quiet (op : SocketOp) : bool :=
  match op with
  | OpNotifyPacket _ len => bool_decide (len < HEADER_SIZE ∨ MAX_PACKET < len)
  | OpNotifyMessage _ | OpRecv _ => false
  | OpSetProperty (PROP_RCV_BUF _ | PROP_SUPPORT_FIN_ACK _) => false
  | _ => true
  end.

Lemma frame_op op : quiet op = true → keeps frame (socket_op op).
Proof.
  destruct op as [| | | buf len | | | | | | | | p |]; cbn [socket_op quiet]; intros Hq;
    [.. | destruct p | ];
    try discriminate Hq;
    unfold pseudo_tcp_socket_notify_mtu, pseudo_tcp_socket_notify_clock,
      pseudo_tcp_socket_get_next_clock, pseudo_tcp_socket_send, pseudo_tcp_socket_close,
      pseudo_tcp_socket_get_available_send_space, pseudo_tcp_socket_set_property,
      pseudo_tcp_socket_set_time; try solve [path].
  - apply bool_decide_eq_true in Hq. unfold pseudo_tcp_socket_notify_packet.
    destruct (Z.ltb_spec MAX_PACKET len); [path |]. destruct (Z.ltb_spec len HEADER_SIZE); [path | lia].

Qed.

Definition socket_step (s s' : PseudoTcpSocket) : Prop := ∃ op, socket_op op s = Done (tt, s').

Lemma path_steps s s' : rtc socket_step s s' → state_path s s'.
Proof.
  induction 1 as [s | s1 s2 s3 (op & Hop) _ IH]; [done | etransitivity; [| exact IH]].
  by eapply path_op.
Qed.

(** C25: the socket only moves along the transitions of RFC 793: over any
    sequence of calls by the application, the clock and the network, the
    state follows a path of transitions that [set_state] admits; no state is
    entered a second time, so that the connection opens at most once, and
    CLOSED is final. *)
Theorem socket_follows_rfc793 s s' :
  rtc socket_step s s' →
  rtc (λ x y, TRANSITION x y = true) (state s) (state s') ∧
  (state s = state s' ∨ (state_rank (state s) < state_rank (state s'))%nat) ∧
  (state s = PSEUDO_TCP_CLOSED → state s' = PSEUDO_TCP_CLOSED).
Proof.
  intros Hp%path_steps. split_and!.
  - eapply rtc_subrel; [| exact Hp]. by intros x y (? & _).
  - by apply state_path_rank.
  - intros Hc. destruct (state_path_rank _ _ Hp) as [E | Hlt]; [congruence |].
    rewrite Hc in Hlt. destruct (state s'); cbn in Hlt; lia.
Qed.

(** ** closedown *)

(** The socket after [set_state_closed]. *)
Definition closed_with (err : Z) (s : PseudoTcpSocket) : PseudoTcpSocket :=
  if PseudoTcpClosed (callbacks s) && negb (err =? 0)
  then s <| state := PSEUDO_TCP_CLOSED |> <| trace := EvClosed err :: trace s |>
  else s <| state := PSEUDO_TCP_CLOSED |>.

Lemma set_state_run x s :
  state s = x ∨ TRANSITION (state s) x = true →
  set_state x s = Done (tt, s <| state := x |>).
Proof.
  intros Hx. unfold set_state. rewrite bind_get. case_decide as Hd.
  - subst x. by destruct s.
  - destruct Hx as [Hx | Ht]; [congruence | by rewrite Ht].
Qed.

Lemma closedown_walk_run s err : closedown_walk err s = Done (tt, closed_with err s).
Proof.
  assert (Hc : ∀ s1, (state s1 = PSEUDO_TCP_CLOSED ∨ TRANSITION (state s1) PSEUDO_TCP_CLOSED = true) →
    set_state_closed err s1 = Done (tt, closed_with err s1)).
  { intros s1 H1. unfold set_state_closed, closed_with.
    erewrite bind_run by (by apply set_state_run). st_run.
    change (callbacks (s1 <| state := PSEUDO_TCP_CLOSED |>)) with (callbacks s1).
    by destruct (_ && _)%bool. }
  unfold closedown_walk. rewrite bind_get.
  destruct (state s) eqn:Hs; st_run;
    repeat (erewrite bind_run by (apply set_state_run; cbn; rewrite ?Hs; auto));
    rewrite Hc by (cbn; rewrite ?Hs; auto); reflexivity.
Qed.

(** Closing a socket down never fails: from every state the walk of
    [closedown] makes only admitted transitions, ends in CLOSED, reports the
    error to the application exactly once when there is one, and changes
    nothing else. *)
Theorem closedown_remote_closes s err :
  closedown err CLOSEDOWN_REMOTE s = Done (tt, closed_with err s).
Proof. exact (closedown_walk_run s err). Qed.

(** ** shutdown *)

Lemma set_state_refused x s :
  state s ≠ x → TRANSITION (state s) x = false → set_state x s = Ub.
Proof.
  intros Hx Ht. unfold set_state. rewrite bind_get. case_decide; [congruence |]. by rewrite Ht.
Qed.

(** A write failure during [pseudo_tcp_socket_shutdown] aborts the
    process: when sending what is queued before the FIN closes the socket, the
    transition to FIN-WAIT-1 or LAST-ACK that follows starts from CLOSED, and
    the assertion of [set_state] fails. *)
Theorem shutdown_aborts_on_write_failure s s1 s2 :
  support_fin_ack s = true → data_length (rbuf s) = 0 →
  state s = PSEUDO_TCP_SYN_RECEIVED ∨ state s = PSEUDO_TCP_ESTABLISHED ∨
    state s = PSEUDO_TCP_CLOSE_WAIT →
  queue_fin_message s = Done (tt, s1) →
  attempt_send sfFin s1 = Done (tt, s2) → state s2 = PSEUDO_TCP_CLOSED →
  pseudo_tcp_socket_shutdown PSEUDO_TCP_SHUTDOWN_WR s = Ub.
Proof.
  intros Hf Hd Hs Hq Ha Hc. unfold pseudo_tcp_socket_shutdown. rewrite bind_get, Hf. cbn [negb].
  st_run. case_decide; [done |]. st_run.
  assert (Hg : pseudo_tcp_socket_get_available_bytes s = Done (0, s)).
  { unfold pseudo_tcp_socket_get_available_bytes, pseudo_tcp_fifo_get_buffered. st_run. by rewrite Hd. }
  destruct Hs as [-> | [-> | ->]];
    rewrite ?(bind_run _ _ _ _ _ Hg); cbn [Z.ltb Z.compare];
    rewrite (bind_run _ _ _ _ _ Hq), (bind_run _ _ _ _ _ Ha);
    apply set_state_refused; by rewrite Hc.
Qed.

End paths.

Lemma socket_follows_rfc793_witness :
  let s := sample_socket PSEUDO_TCP_LISTEN [] 0 0 in
  ∃ s', rtc (λ x y, TRANSITION x y = true) (state s) (state s') ∧
    (state s = state s' ∨ (state_rank (state s) < state_rank (state s'))%nat) ∧
    (state s = PSEUDO_TCP_CLOSED → state s' = PSEUDO_TCP_CLOSED) ∧
    state s' = PSEUDO_TCP_CLOSED.
Proof.
  cbv zeta.
  destruct (@socket_op (sample_env WR_SUCCESS) (OpClose true)
              (sample_socket PSEUDO_TCP_LISTEN [] 0 0)) as [[[] s'] | |] eqn:E;
    [| exfalso; vm_compute in E; discriminate E..].
  exists s'.
  destruct (@socket_follows_rfc793 (sample_env WR_SUCCESS) (sample_socket PSEUDO_TCP_LISTEN [] 0 0) s')
    as (H1 & H2 & H3).
  { apply rtc_once. exists (OpClose true). exact E. }
  split_and!; [exact H1 | exact H2 | exact H3 |].
  vm_compute in E. injection E as <-. reflexivity.
Defined.

(** Three octets sent, two queued behind them, and a network that fails. *)
Lemma shutdown_aborts_on_write_failure_witness :
  let s := sample_sender PSEUDO_TCP_ESTABLISHED 50 [1; 2; 3] [4; 5] in
  @pseudo_tcp_socket_shutdown (sample_env WR_FAIL) PSEUDO_TCP_SHUTDOWN_WR s = Ub.
Proof.
  cbv zeta.
  destruct (queue_fin_message (sample_sender PSEUDO_TCP_ESTABLISHED 50 [1; 2; 3] [4; 5]))
    as [[[] s1] | |] eqn:E1; [| exfalso; vm_compute in E1; discriminate E1..].
  destruct (@attempt_send (sample_env WR_FAIL) sfFin s1) as [[[] s2] | |] eqn:E2;
    [| exfalso; vm_compute in E1; injection E1 as <-; vm_compute in E2; discriminate E2..].
  apply (@shutdown_aborts_on_write_failure (sample_env WR_FAIL) _ s1 s2);
    [reflexivity | reflexivity | right; left; reflexivity | exact E1 | exact E2 |].
  vm_compute in E1. injection E1 as <-. vm_compute in E2. injection E2 as <-. reflexivity.
Defined.
