(* ===== verification/PseudoTcpReceive.v ===== *)
(** * Pseudo-TCP: reassembly of the received stream

    The peer's stream is a function from absolute positions to octets.  A
    segment is the octets of an interval of it.  Whatever the order, overlap
    and repetition in which segments arrive, the receive buffer holds an
    interval of the stream that starts where the application stopped reading. *)

From stdpp Require Import gmap sorting.
From S2P Require Import Prelude Bytes StateMonad PseudoTcpFifo PseudoTcp.
From S2P Require Import PseudoTcpWire PseudoTcpStates.

#[global] Open Scope Z_scope.

(** The octets of [str] from position [a] on. *)
Definition stream (str : Z → Z) (a : Z) (n : Z) : bytes := str <$> seqZ a n.

Lemma stream_length str a n : 0 ≤ n → zlen (stream str a n) = n.
Proof. intros. unfold zlen, stream. rewrite length_fmap, length_seqZ. lia. Qed.

Lemma stream_lookup str a n i :
  0 ≤ i < n → stream str a n !! Z.to_nat i = Some (str (a + i)).
Proof.
  intros Hi. unfold stream. rewrite list_lookup_fmap, lookup_seqZ_lt by lia. cbn. do 2 f_equal. lia.
Qed.

Lemma stream_app str a n m : 0 ≤ n → 0 ≤ m → stream str a (n + m) = stream str a n ++ stream str (a + n) m.
Proof. intros. unfold stream. by rewrite seqZ_app, fmap_app. Qed.

Lemma eq_stream str a n (m : bytes) :
  zlen m = n → (∀ i, 0 ≤ i < n → m !! Z.to_nat i = Some (str (a + i))) → m = stream str a n.
Proof.
  intros Hl Hm. apply list_eq. intros k. destruct (decide (Z.of_nat k < n)) as [Hk | Hk].
  - rewrite <- (Nat2Z.id k), Hm, stream_lookup by lia. done.
  - rewrite !lookup_ge_None_2; [done | |]; unfold zlen in *.
    + pose proof (stream_length str a n). unfold zlen in *. lia.
    + lia.
Qed.

Lemma drop_stream str a n k : 0 ≤ k ≤ n → drop (Z.to_nat k) (stream str a n) = stream str (a + k) (n - k).
Proof.
  intros. replace n with (k + (n - k)) at 1 by lia. rewrite stream_app by lia.
  apply drop_app_length'. pose proof (stream_length str a k). unfold zlen in *. lia.
Qed.

Lemma take_stream str a n k : 0 ≤ k ≤ n → take (Z.to_nat k) (stream str a n) = stream str a k.
Proof.
  intros. replace n with (k + (n - k)) at 1 by lia. rewrite stream_app by lia.
  apply take_app_length'. pose proof (stream_length str a k). unfold zlen in *. lia.
Qed.

Lemma store_lookup (m x m' : bytes) i j :
  store m i x = Done m' → 0 ≤ j →
  m' !! Z.to_nat j = if bool_decide (i ≤ j < i + zlen x) then x !! Z.to_nat (j - i) else m !! Z.to_nat j.
Proof.
  intros (a & b & c & -> & -> & Ha & Hb)%store_inv Hj. unfold zlen in *. case_bool_decide as Hc.
  - rewrite lookup_app_r, lookup_app_l by lia. f_equal. lia.
  - destruct (decide (j < i)).
    + rewrite !lookup_app_l by lia. done.
    + rewrite !(lookup_app_r a), !lookup_app_r by lia. f_equal. lia.
Qed.

(** An interval of the stream that arrived early. *)
Abbreviation early := (Z * Z)%type (only parsing).
Definition rseg_of (e : Z * Z) : RSegment := {| rseg_seq := u32 e.1; rseg_len := e.2 |}.

Section receive.
Context `{Env}.
Context (str : Z → Z).

(** The ring holds the octet of position [p], when its first octet is that of
    position [B]. *)
Definition good (b : PseudoTcpFifo) (B p : Z) : Prop := ring b !! Z.to_nat (p - B) = Some (str p).

Definition early_ok (b : PseudoTcpFifo) (B lo : Z) (e : Z * Z) : Prop :=
  lo < e.1 ∧ 1 ≤ e.2 ∧ e.1 + e.2 ≤ B + buffer_length b ∧
  ∀ p, e.1 ≤ p < e.1 + e.2 → good b B p.

(** [B]: where the application reads next; [P]: the next octet expected; [L]:
    the intervals that arrived early; [lo]: a bound below them. *)
Record recv_inv (B P lo : Z) (L : list (Z * Z)) (s : PseudoTcpSocket) : Prop := {
  ri_fifo : fifo_ok (rbuf s);
  ri_cap : buffer_length (rbuf s) ≤ 2 ^ 30;
  ri_len : data_length (rbuf s) = P - B;
  ri_nxt : rcv_nxt s = u32 P;
  ri_data : ∀ p, B ≤ p < P → good (rbuf s) B p;
  ri_rlist : rlist s = rseg_of <$> L;
  ri_early : Forall (early_ok (rbuf s) B lo) L;
  ri_sorted : StronglySorted (λ a b : Z * Z, a.1 ≤ b.1) L;
  ri_lo : B ≤ lo
}.

(** The octets buffered. *)
Lemma recv_contents B P lo L s :
  recv_inv B P lo L s → contents (rbuf s) = stream str B (P - B).
Proof.
  intros [Hf Hc Hl Hn Hd _ _ _]. pose proof (contents_length _ Hf). pose proof (fo_dl _ Hf).
  apply eq_stream; [lia |]. intros i Hi. unfold contents. rewrite lookup_take_lt by lia.
  specialize (Hd (B + i) ltac:(lia)). unfold good in Hd. replace (B + i - B) with i in Hd by lia. done.
Qed.

(** The result of advancing: up to [P'], with the window less by as much. *)
Definition advanced (B P : Z) (s s' : PseudoTcpSocket) (P' : Z) (L' : list (Z * Z)) : Prop :=
  P ≤ P' ∧ recv_inv B P' P' L' s' ∧ buffer_length (rbuf s') = buffer_length (rbuf s) ∧
  u32 (rcv_wnd s') = u32 (rcv_wnd s - (P' - P)).

Lemma recover_rlist_spec L : ∀ B P fl s,
  recv_inv B P B L s →
  wp (recover_rlist (rlist s) fl) (λ _ s', ∃ P' L', advanced B P s s' P' L') s.
Proof.
  induction L as [| [q l] L IH]; intros B P fl s Hi; pose proof Hi as [Hf Hc Hl Hn Hd Hr He Hs Hlo].
  - rewrite Hr. cbn [fmap list_fmap recover_rlist]. apply wp_ret. exists P, []. split_and!; [lia | | done |].
    + pose proof (fo_dl _ Hf). by split; try done; lia.
    + f_equal. lia.
  - rewrite Hr. cbn [fmap list_fmap recover_rlist]. apply wp_bind, wp_get.
    apply Forall_cons in He as [(He1 & He2 & He3 & He4) He]. cbn [fst snd] in *.
    pose proof (fo_dl _ Hf). apply StronglySorted_inv in Hs as [Hs Hs'].
    cbn [rseg_of rseg_seq rseg_len fst snd]. rewrite Hn.
    destruct (modular_order q P) as (_ & _ & _ & ->); [lia |]. case_bool_decide as Hq.
    + rewrite u32_add_l, u32_sub_lr.
      destruct (modular_order (q + l) P) as (-> & _); [lia |]. case_bool_decide as Hq2.
      * apply wp_bind, wp_bind, wp_get, wp_bind. rewrite (u32_small (q + l - P)) by (unfold is_u32; lia).
        eapply wp_lift; [apply fifo_consume_write_spec; [done | lia] |].
        apply wp_bind, wp_put, wp_bind, wp_upd, wp_bind, wp_upd, wp_ret, wp_bind, wp_put.
        set (s1 := _ <| rlist := _ |>).
        destruct (fifo_grow_ok (rbuf s) (q + l - P)) as (Hf' & Hring); [done | lia |].
        assert (Hi1 : recv_inv B (q + l) B L s1).
        { split; try done.
          - cbn. lia.
          - cbn. rewrite Hn, u32_add_l. f_equal. lia.
          - intros p Hp. change (good (rbuf s) B p).
            destruct (decide (p < P)); [apply Hd; lia | apply He4; lia]. }
        change (rseg_of <$> L) with (rlist s1).
        eapply wp_mono; [by apply IH |]. intros a s' (P' & L' & H1 & H2 & H3 & H4).
        exists P', L'. split_and!; [lia | done | done |]. rewrite H4. cbn.
        unfold u32. rewrite Zminus_mod_idemp_l. f_equal. lia.
      * apply wp_bind, wp_ret, wp_bind, wp_put. set (s1 := _ <| rlist := _ |>).
        change (rseg_of <$> L) with (rlist s1). eapply wp_mono.
        { apply (IH B P); split; done. }
        intros a s' (P' & L' & ?). exists P', L'. done.
    + apply wp_ret. exists P, ((q, l) :: L). split_and!; [lia | | done | f_equal; lia].
      split; try done; [| by constructor | lia]. constructor; [split_and!; [cbn; lia | done..] |].
      apply Forall_forall. intros [q' l'] Hin. rewrite Forall_forall in He, Hs'.
      destruct (He _ Hin) as (? & ? & ? & ?). specialize (Hs' _ Hin). cbn [fst snd] in *.
      split_and!; cbn [fst snd]; try done; lia.
Qed.

(** ** Storing a segment *)

(** Overwriting the ring with octets of the stream keeps what it holds. *)
Lemma store_good b b' B q l :
  fifo_ok b → B ≤ q → 0 ≤ l → q + l ≤ B + buffer_length b →
  store (ring b) (q - B) (stream str q l) = Done (ring b') →
  (∀ p, B ≤ p → good b B p → good b' B p) ∧ (∀ p, q ≤ p < q + l → good b' B p).
Proof.
  intros Hb Hq Hl Hle Hst. unfold good. pose proof (stream_length str q l Hl) as Hsl.
  assert (E : ∀ p, B ≤ p → ring b' !! Z.to_nat (p - B) =
    if bool_decide (q - B ≤ p - B < q - B + l) then stream str q l !! Z.to_nat (p - B - (q - B))
    else ring b !! Z.to_nat (p - B)).
  { intros p Hp. rewrite (store_lookup _ _ _ _ (p - B) Hst) by lia. by rewrite Hsl. }
  split; intros p Hp; [intros Hg |]; rewrite E by lia; case_bool_decide; try done; try lia;
    rewrite stream_lookup by lia; do 2 f_equal; lia.
Qed.

(** The abstract insertion. *)
Fixpoint insert_early (L : list (Z * Z)) (e : Z * Z) : list (Z * Z) :=
  match L with
  | [] => [e]
  | x :: L => if bool_decide (x.1 < e.1) then x :: insert_early L e else e :: x :: L
  end.

Lemma insert_early_in L e x : x ∈ insert_early L e ↔ x = e ∨ x ∈ L.
Proof.
  induction L as [| y L IH]; cbn [insert_early]; [set_solver |].
  case_bool_decide; rewrite !elem_of_cons, ?IH; tauto.
Qed.

Lemma insert_early_sorted L e :
  StronglySorted (λ a b : Z * Z, a.1 ≤ b.1) L →
  StronglySorted (λ a b : Z * Z, a.1 ≤ b.1) (insert_early L e).
Proof.
  induction 1 as [| x L Hs IH Hx]; cbn [insert_early]; [by repeat constructor |].
  case_bool_decide as Hc.
  - constructor; [done |]. apply Forall_forall. intros y [-> | Hy]%insert_early_in; [lia |].
    rewrite Forall_forall in Hx. auto.
  - constructor; [by constructor |]. constructor; [lia |].
    rewrite Forall_forall in *. intros y Hy. specialize (Hx y Hy). lia.
Qed.

Lemma insert_rseg_early L q l B cap :
  cap ≤ 2 ^ 30 → B ≤ q ≤ B + cap → Forall (λ e : Z * Z, B ≤ e.1 ≤ B + cap) L →
  insert_rseg (rseg_of <$> L) {| rseg_seq := u32 q; rseg_len := l |} =
    rseg_of <$> insert_early L (q, l).
Proof.
  intros Hc Hq. induction 1 as [| [x xl] L Hx HL IH]; [done |]. cbn [fst] in Hx.
  cbn [fmap list_fmap insert_rseg insert_early rseg_of rseg_seq fst snd].
  destruct (modular_order x q) as (_ & _ & -> & _); [lia |].
  case_bool_decide; [| done]. cbn [fmap list_fmap]. f_equal. exact IH.
Qed.

Lemma store_segment_spec B P L q l data fl s :
  recv_inv B P P L s → P ≤ q → 1 ≤ l → q + l ≤ B + buffer_length (rbuf s) →
  l ≤ zlen data → take (Z.to_nat l) data = stream str q l →
  wp (store_segment (u32 q) data l fl)
    (λ _ s', ∃ P' L', advanced B P s s' P' L' ∧ (q = P → q + l ≤ P')) s.
Proof.
  intros Hi Hq Hl Hle Hdl Hdata. pose proof Hi as [Hf Hc Hlen Hn Hd Hr He Hs Hlo].
  pose proof (fo_dl _ Hf). unfold store_segment. apply wp_bind, wp_get, wp_bind, wp_get, wp_bind.
  rewrite Hn, u32_sub_lr, (u32_small (q - P)) by (unfold is_u32; lia).
  destruct (fifo_write_offset_spec (rbuf s) data l (q - P)) as (b' & Hw & Hf' & Hbl & Hdl' & Hst);
    [done | lia.. |].
  rewrite Z.min_l in Hw, Hst by lia. rewrite Hdata in Hst.
  replace (data_length (rbuf s) + (q - P)) with (q - B) in Hst by lia.
  destruct (store_good (rbuf s) b' B q l) as (Hkeep & Hnew); [done | lia.. | done |].
  eapply wp_lift; [exact Hw |]. apply wp_bind, wp_put, wp_bind, wp_assert; [lia |].
  assert (Hearly : ∀ lo, B ≤ lo → Forall (early_ok (rbuf s) B lo) L → Forall (early_ok b' B lo) L).
  { intros lo Hlo' HL. eapply Forall_impl; [exact HL |]. intros e (E1 & E2 & E3 & E4).
    split_and!; [done | done | by rewrite Hbl |]. intros p Hp. apply Hkeep; [lia | by apply E4]. }
  assert (Hdata' : ∀ p, B ≤ p < P → good b' B p) by (intros p Hp; apply Hkeep; [lia | by apply Hd]).
  destruct (decide (q = P)) as [-> | Hne].
  - rewrite Z.eqb_refl. apply wp_bind.
    eapply wp_lift; [apply fifo_consume_write_spec; [done | lia] |].
    apply wp_bind, wp_put, wp_bind, wp_upd, wp_bind, wp_upd, wp_bind, wp_get, wp_bind.
    set (s1 := _ <| rcv_wnd := _ |>).
    destruct (fifo_grow_ok b' l) as (Hg & Hgr); [done | lia |].
    assert (Hi1 : recv_inv B (P + l) B L s1).
    { split; try done.
      - cbn. by rewrite Hbl.
      - cbn. lia.
      - cbn. by rewrite Hn, u32_add_l.
      - intros p Hp. change (good b' B p).
        destruct (decide (p < P)); [apply Hdata'; lia | apply Hnew; lia].
      - change (Forall (early_ok b' B B) L). apply Hearly; [lia |].
        eapply Forall_impl; [exact He |]. intros e (? & ? & ? & ?). split_and!; try done; lia. }
    eapply wp_mono; [by apply (recover_rlist_spec L B (P + l)) |].
    intros fl' s' (P' & L' & H1 & H2 & H3 & H4). apply wp_ret. exists P', L'. split; [| lia].
    split_and!; [lia | done | by rewrite H3 |]. rewrite H4. cbn. unfold u32.
    rewrite Zminus_mod_idemp_l. f_equal. lia.
  - assert (Hneq : u32 q ≠ u32 P) by (unfold u32; zlia).
    destruct (Z.eqb_spec (u32 q) (u32 P)) as [| _]; [done |].
    apply wp_bind, wp_upd, wp_ret. exists P, (insert_early L (q, l)). split; [| lia].
    split_and!; [lia | | done | cbn; f_equal; lia].
    split; try done.
    + cbn. by rewrite Hbl.
    + cbn. lia.
    + cbn. rewrite Hr. apply (insert_rseg_early _ _ _ B (buffer_length (rbuf s))); [done | lia |].
      eapply Forall_impl; [exact He |]. intros e (? & ? & ? & ?). lia.
    + cbn. apply Forall_forall. intros e [-> | Hin]%insert_early_in.
      * split_and!; cbn [fst snd]; [lia | done | by rewrite Hbl | done].
      * specialize (Hearly P ltac:(lia) He). rewrite Forall_forall in Hearly. by apply Hearly.
    + cbn. by apply insert_early_sorted.
Qed.

(** ** Fitting the segment to the buffer *)

Lemma fit_segment_spec seg q P space :
  seg_seq seg = u32 q → 0 ≤ seg_len seg ≤ 2 ^ 16 → 0 ≤ space ≤ 2 ^ 30 → - 2 ^ 30 ≤ q - P ≤ 2 ^ 30 →
  let q1 := Z.max q P in
  let e := Z.min (q + seg_len seg) (P + space) in
  (q1 < e → fit_segment seg (u32 P) space =
     (u32 q1, if bool_decide (q < P) then drop (Z.to_nat (P - q)) (seg_data seg) else seg_data seg,
      e - q1)) ∧
  (e ≤ q1 → ∃ x y, fit_segment seg (u32 P) space = (x, y, 0)).
Proof.
  intros Hseq Hl Hsp Hd q1 e. unfold fit_segment. rewrite Hseq.
  destruct (modular_order q P) as (_ & _ & -> & _); [lia |].
  assert (Hcut : ∀ (p : Z) (d : bytes) (l : Z), P ≤ p ≤ P + 2 ^ 30 → 0 ≤ l ≤ 2 ^ 16 →
    (if space <? u32 (u32 p + l - u32 P)
     then (u32 p, d, if u32 (u32 (u32 p + l - u32 P) - space) <? l
                     then l - u32 (u32 (u32 p + l - u32 P) - space) else 0)
     else (u32 p, d, l)) = (u32 p, d, Z.max 0 (Z.min (p + l) (P + space) - p))).
  { intros p d l Hp Hl'. assert (E : u32 (u32 p + l - u32 P) = p + l - P) by (unfold u32; zlia).
    rewrite E. destruct (Z.ltb_spec space (p + l - P)).
    - rewrite (u32_small (p + l - P - space)) by (unfold is_u32; lia).
      destruct (Z.ltb_spec (p + l - P - space) l); f_equal; lia.
    - f_equal. lia. }
  case_bool_decide as Hc.
  - rewrite u32_sub_lr, (u32_small (P - q)), u32_add_l by (unfold is_u32; lia).
    replace (q + (P - q)) with P by lia.
    destruct (Z.ltb_spec (P - q) (seg_len seg)).
    + rewrite Hcut by lia. split; intros; [do 2 f_equal; subst q1 e; f_equal; lia |].
      do 2 eexists. f_equal. lia.
    + assert (E : u32 (u32 q + 0 - u32 P) = q - P + 2 ^ 32) by (unfold u32; zlia).
      rewrite E. destruct (Z.ltb_spec space (q - P + 2 ^ 32)); [| lia].
      split; [lia |]. intros _. destruct (Z.ltb_spec (u32 (q - P + 2 ^ 32 - space)) 0); [| eauto].
      pose proof (u32_range (q - P + 2 ^ 32 - space)) as Hr. unfold is_u32 in Hr. lia.
  - rewrite Hcut by lia. split; intros; [f_equal; [f_equal; f_equal |]; lia |].
    do 2 eexists. f_equal. lia.
Qed.

(** ** Segments of the stream *)

Definition rx_inv (B P : Z) (s : PseudoTcpSocket) : Prop := ∃ L, recv_inv B P P L s.

(** [seg] carries the octets of the stream from position [q]. *)
Record segment_at (q : Z) (seg : Segment) : Prop := {
  sa_seq : seg_seq seg = u32 q;
  sa_len : 0 ≤ seg_len seg ≤ 2 ^ 16;
  sa_data : seg_data seg = stream str q (seg_len seg);
  sa_ctl : flag (seg_flags seg) FLAG_CTL = false
}.

(** The socket takes data: it is not shut down in the Jingle fashion. *)
Definition takes_data (s : PseudoTcpSocket) : Prop :=
  support_fin_ack s = true ∨ shutdown s = SD_NONE.

Lemma takes_data_flag s seg q :
  takes_data s → segment_at q seg →
  flag (seg_flags seg) FLAG_CTL
    || (negb (support_fin_ack s) && negb (bool_decide (shutdown s = SD_NONE))) = false.
Proof. intros Ht [_ _ _ ->]. destruct Ht as [-> | ->]; [done | by rewrite andb_false_r]. Qed.

Lemma process_data_wp B P s seg q fl :
  rx_inv B P s → segment_at q seg → - 2 ^ 30 ≤ q - P ≤ 2 ^ 30 → takes_data s →
  wp (process_data seg fl) (λ _ s', ∃ P' L', advanced B P s s' P' L' ∧
    (q ≤ P → Z.min (q + seg_len seg) (B + buffer_length (rbuf s)) ≤ P')) s.
Proof.
  intros [L Hi] Hseg Hq Ht. pose proof Hi as [Hf Hc Hlen Hn Hd Hr He Hs Hlo].
  pose proof (fo_dl _ Hf). pose proof Hseg as [Hseq Hsl Hsd _].
  unfold process_data. apply wp_bind, wp_get, wp_bind, wp_get.
  rewrite fifo_write_remaining_spec by done. rewrite Hn.
  destruct (fit_segment_spec seg q P (buffer_length (rbuf s) - data_length (rbuf s)))
    as (Hfit & Hout); [done | done | lia | lia |].
  replace (P + (buffer_length (rbuf s) - data_length (rbuf s))) with (B + buffer_length (rbuf s))
    in * by lia.
  set (q1 := Z.max q P) in *. set (e := Z.min (q + seg_len seg) (B + buffer_length (rbuf s))) in *.
  destruct (Z.lt_ge_cases q1 e) as [Hlt | Hge].
  - rewrite Hfit by done. apply wp_bind, wp_get, wp_bind, wp_get. rewrite (takes_data_flag s seg q) by done.
    destruct (Z.ltb_spec 0 (e - q1)); [| lia].
    eapply wp_mono; [apply (store_segment_spec B P L q1); [done | lia.. | |] |].
    + case_bool_decide; rewrite Hsd; rewrite ?drop_stream, stream_length by lia; lia.
    + case_bool_decide; rewrite Hsd.
      * rewrite drop_stream, take_stream by lia. f_equal; lia.
      * rewrite take_stream by lia. f_equal; lia.
    + intros r s' (P' & L' & Ha & Hp). exists P', L'. split; [done |]. intros Hle.
      specialize (Hp ltac:(lia)). lia.
  - destruct (Hout Hge) as (x & y & ->). apply wp_bind, wp_get, wp_bind, wp_get, wp_ret.
    exists P, L. split; [split_and!; [lia | done | done | f_equal; lia] | lia].
Qed.

(** C3: the receiver reassembles the peer's stream: a segment that carries any
    interval of the stream - early, late, repeated, overlapping what has
    arrived, or larger than the buffer - is processed without failing an
    assertion or leaving the buffer; the octets readable grow by the next
    octets of the stream and by nothing else; they grow at least up to the end
    of the segment, or of the buffer, when the segment is in sequence; and the
    window announced shrinks by as many octets. *)
Theorem process_data_reassembles B P s seg q fl :
  rx_inv B P s → segment_at q seg → - 2 ^ 30 ≤ q - P ≤ 2 ^ 30 → takes_data s →
  ∃ r s' P',
    process_data seg fl s = Done (r, s') ∧ rx_inv B P' s' ∧ P ≤ P' ∧
    contents (rbuf s') = contents (rbuf s) ++ stream str P (P' - P) ∧
    (q ≤ P → Z.min (q + seg_len seg) (B + buffer_length (rbuf s)) ≤ P') ∧
    u32 (rcv_wnd s') = u32 (rcv_wnd s - (P' - P)).
Proof.
  intros Hi Hseg Hq Ht.
  destruct (wp_done _ _ _ (process_data_wp B P s seg q fl Hi Hseg Hq Ht))
    as (r & s' & E & P' & L' & (H1 & H2 & H3 & H4) & H5).
  exists r, s', P'. split_and!; [done | by exists L' | done | | done | done].
  destruct Hi as [L Hi]. rewrite (recv_contents _ _ _ _ _ H2), (recv_contents _ _ _ _ _ Hi).
  pose proof (ri_len _ _ _ _ _ Hi). pose proof (fo_dl _ (ri_fifo _ _ _ _ _ Hi)).
  replace (P' - B) with (P - B + (P' - P)) by lia. rewrite stream_app by lia. do 2 f_equal. lia.
Qed.

(** ** The application reads *)

Lemma good_skip b B k p :
  fifo_ok b → 0 ≤ k ≤ data_length b → B + k ≤ p < B + buffer_length b →
  good b B p → good (fifo_skip b k) (B + k) p.
Proof.
  intros Hb Hk Hp Hg. unfold good in *. destruct (fifo_skip_ok b k Hb Hk) as (_ & -> & _).
  pose proof (ring_length _ Hb) as Hl. pose proof (fo_dl _ Hb). unfold rot, zlen in *.
  rewrite lookup_app_l by (rewrite length_drop; lia). rewrite lookup_drop, <- Hg. f_equal. lia.
Qed.

Lemma rx_inv_read B P s k :
  rx_inv B P s → 0 ≤ k ≤ data_length (rbuf s) →
  rx_inv (B + k) P (s <| rbuf := fifo_skip (rbuf s) k |>).
Proof.
  intros [L [Hf Hc Hl Hn Hd Hr He Hs Hlo]] Hk. exists L. pose proof (fo_dl _ Hf).
  split; try done; cbn; [by apply fifo_skip_ok | lia | | | lia].
  - intros p Hp. apply good_skip; [done | done | lia | apply Hd; lia].
  - eapply Forall_impl; [exact He |]. intros e (E1 & E2 & E3 & E4).
    split_and!; [done | done | cbn; lia |]. intros p Hp. apply good_skip; [done | done | lia | by apply E4].
Qed.

(** ** Whole calls *)

(** The call brings the segment. *)
Inductive delivers : SocketOp → Segment → Prop :=
| delivers_packet buf len header data seg :
    HEADER_SIZE ≤ len ≤ MAX_PACKET → slice buf 0 HEADER_SIZE = Done header →
    slice buf HEADER_SIZE (len - HEADER_SIZE) = Done data →
    parse_header header data (len - HEADER_SIZE) = Done seg →
    delivers (OpNotifyPacket buf len) seg
| delivers_message header b len data seg :
    HEADER_SIZE ≤ len ≤ MAX_PACKET → zlen header = HEADER_SIZE →
    slice b 0 (len - HEADER_SIZE) = Done data →
    parse_header header data (len - HEADER_SIZE) = Done seg →
    delivers (OpNotifyMessage {| im_buffers := [header; b]; im_length := len |}) seg.

Lemma delivers_process op seg s s' :
  delivers op seg → socket_op op s = Done (tt, s') → ∃ r, process seg s = Done (r, s').
Proof.
  intros [buf len header data g Hl Hh Hd Hp | header b len data g Hl Hh Hd Hp]; cbn [socket_op];
    intros Hr; apply st_bind_inv in Hr as (r & s1 & Hr & [_ <-]%st_ret_inv); exists r;
    [unfold pseudo_tcp_socket_notify_packet in Hr | unfold pseudo_tcp_socket_notify_message in Hr;
     cbn [im_buffers im_length] in Hr; rewrite Hh, bind_assert in Hr];
    destruct (Z.ltb_spec MAX_PACKET len); try lia; destruct (Z.ltb_spec len HEADER_SIZE); try lia.
  - pose proof Hh as (? & ? & _ & _ & Hz)%slice_inv.
    rewrite Hh, bind_lift, Hd, bind_lift in Hr. unfold parse in Hr. rewrite Hz, Hp in Hr. exact Hr.
  - rewrite Hd, bind_lift in Hr. unfold parse in Hr. rewrite Hh, Hp in Hr. exact Hr.
Qed.

(** What arrives when octet [P] is expected: no control data; octets of the
    stream near [P]; and none once the FIN was taken. *)
Record arrives (P : Z) (fin : bool) (seg : Segment) : Prop := {
  ar_ctl : flag (seg_flags seg) FLAG_CTL = false;
  ar_len : 0 ≤ seg_len seg ≤ 2 ^ 16;
  ar_data : 0 < seg_len seg → fin = false ∧ ∃ q, segment_at q seg ∧ - 2 ^ 30 ≤ q - P ≤ 2 ^ 30
}.

(** The segment completes what [process_fin] takes for all the peer sent. *)
Definition takes_fin (s : PseudoTcpSocket) (seg : Segment) : bool :=
  support_fin_ack s && negb (rcv_nxt s =? 0) &&
  (u32 (rcv_nxt s + seg_len seg) =? if flag (seg_flags seg) FLAG_FIN then seg_seq seg else rcv_fin s).

(** The receiver, what the application has read, and whether a FIN was taken:
    segments arrive, the application reads, and both sides of the connection
    make all the other calls. *)
Inductive rx_step (B0 : Z) :
  PseudoTcpSocket * bytes * bool → PseudoTcpSocket * bytes * bool → Prop :=
| rx_deliver s out fin op seg s' :
    delivers op seg → arrives (B0 + zlen out + data_length (rbuf s)) fin seg →
    socket_op op s = Done (tt, s') →
    rx_step B0 (s, out, fin) (s', out, fin || takes_fin s seg)
| rx_recv s out fin len r data s' :
    0 ≤ len ≤ 2 ^ 32 → pseudo_tcp_socket_recv len s = Done ((r, data), s') →
    rx_step B0 (s, out, fin) (s', out ++ data, fin)
| rx_quiet s out fin op s' :
    quiet op = true → socket_op op s = Done (tt, s') →
    rx_step B0 (s, out, fin) (s', out, fin).

(** What holds throughout: until the FIN is taken, and while data is taken,
    the invariant of the receiver; always that what was read and what is
    buffered are the next octets of the stream. *)
Record rx_good (B0 : Z) (s : PseudoTcpSocket) (out : bytes) (fin : bool) : Prop := {
  rg_out : out = stream str B0 (zlen out);
  rg_fifo : fifo_ok (rbuf s);
  rg_buf : contents (rbuf s) = stream str (B0 + zlen out) (data_length (rbuf s));
  rg_rx : fin = false → takes_data s →
    rx_inv (B0 + zlen out) (B0 + zlen out + data_length (rbuf s)) s
}.

(** Only these fields matter. *)
Lemma rx_good_same B0 s s' out fin fin' :
  rx_good B0 s out fin → rbuf s' = rbuf s → PseudoTcp.rlist s' = PseudoTcp.rlist s →
  rcv_nxt s' = rcv_nxt s → support_fin_ack s' = support_fin_ack s →
  (shutdown s' = SD_NONE → shutdown s = SD_NONE) → (fin = true → fin' = true) →
  rx_good B0 s' out fin'.
Proof.
  intros [Ho Hf Hb Hr] E1 E2 E3 E4 E5 E6. split; rewrite ?E1; try done. intros Hn Ht.
  destruct Hr as [L [? ? ? ? ? ? ? ? ?]].
  - by destruct fin; [discriminate (eq_trans (eq_sym Hn) (E6 eq_refl)) |].
  - destruct Ht as [Ht | Ht]; [left; congruence | right; auto].
  - exists L. split; rewrite ?E1, ?E2, ?E3; done.
Qed.

Lemma rx_good_frame B0 s s' out fin : rx_good B0 s out fin → frame s s' → rx_good B0 s' out fin.
Proof. intros Hg [_ (? & ? & ? & ? & ? & ?)]. by eapply rx_good_same. Qed.

Lemma fit_nothing seg nxt space : seg_len seg = 0 → (fit_segment seg nxt space).2 = 0.
Proof.
  intros Hl. assert (Hn : ∀ x, (u32 x <? 0) = false).
  { intros x. pose proof (u32_range x) as Hr. unfold is_u32 in Hr. lia. }
  unfold fit_segment. rewrite Hl.
  destruct (SMALLER (seg_seq seg) nxt); rewrite ?Hn; case_match; rewrite ?Hn; done.
Qed.

Lemma process_data_good B0 s out fin seg fl a s' :
  rx_good B0 s out fin → arrives (B0 + zlen out + data_length (rbuf s)) fin seg →
  process_data seg fl s = Done (a, s') → rx_good B0 s' out fin.
Proof.
  intros Hg [Hctl Hl Hd] Hr. destruct (decide (0 < seg_len seg)) as [Hpos | Hz].
  - destruct (Hd Hpos) as (Hfin & q & Hseg & Hq).
    assert (Hdec : takes_data s ∨ negb (support_fin_ack s)
              && negb (bool_decide (shutdown s = SD_NONE)) = true).
    { unfold takes_data. destruct (support_fin_ack s); [by left; left |]. case_bool_decide; auto. }
    destruct Hdec as [Ht | Hno].
    + destruct Hg as [Ho Hf Hb Hrx]. specialize (Hrx Hfin Ht). pose proof Hrx as [L Hi].
      destruct (wp_done _ _ _ (process_data_wp _ _ s seg q fl Hrx Hseg Hq Ht))
        as (a' & s'' & E' & P' & L' & (H1 & H2 & _) & _).
      rewrite Hr in E'. injection E' as <- <-. pose proof (ri_len _ _ _ _ _ H2) as Hlen.
      assert (E : B0 + zlen out + data_length (rbuf s') = P') by lia.
      split; [done | apply H2 | | by rewrite E; exists L'].
      rewrite (recv_contents _ _ _ _ _ H2). f_equal. lia.
    + assert (Hi : ∃ n, s' = s <| rcv_nxt := n |>).
      { unfold process_data in Hr. rewrite !bind_get in Hr.
        destruct (fit_segment _ _ _) as [[x y] z]. rewrite !bind_get, Hctl in Hr. cbn [orb] in Hr.
        rewrite Hno in Hr. exists (rcv_nxt s'). case_match.
        - apply st_bind_inv in Hr as ([] & s1 & Hw & [_ ->]%st_ret_inv). unfold when in Hw.
          case_match; [apply st_upd_inv in Hw as [_ ->] | apply st_ret_inv in Hw as [_ ->]]; by destruct s.
        - apply st_ret_inv in Hr as [_ ->]. by destruct s. }
      destruct Hi as [n ->]. destruct Hg as [Ho Hf Hb _]. split; try done. intros _ [Ht | Ht]; exfalso.
      * change (support_fin_ack s = true) in Ht. by rewrite Ht in Hno.
      * change (shutdown s = SD_NONE) in Ht. rewrite Ht, andb_false_r in Hno. done.
  - unfold process_data in Hr. rewrite !bind_get in Hr.
    pose proof (fit_nothing seg (rcv_nxt s) (pseudo_tcp_fifo_get_write_remaining (rbuf s))) as Hn.
    destruct (fit_segment _ _ _) as [[x y] z]. cbn [snd] in Hn. rewrite Hn in Hr by lia.
    rewrite !bind_get in Hr. cbn [Z.ltb Z.compare] in Hr. by apply st_ret_inv in Hr as [_ ->].
Qed.

Lemma process_fin_good B0 s out fin seg b a s' :
  rx_good B0 s out fin → process_fin seg b s = Done (a, s') →
  rx_good B0 s' out fin ∧ rbuf s' = rbuf s ∧ (a = Some true → takes_fin s seg = true).
Proof.
  intros Hg Hr. unfold process_fin in Hr. rewrite bind_get in Hr. unfold takes_fin.
  destruct (support_fin_ack s); [| apply st_ret_inv in Hr as [-> ->]; by split_and!].
  apply st_bind_inv in Hr as ([] & s1 & Hw & Hr).
  assert (Hs1 : s1 = s <| rcv_fin := if flag (seg_flags seg) FLAG_FIN then seg_seq seg else rcv_fin s |>).
  { clear Hr. destruct (flag (seg_flags seg) FLAG_FIN); cbn [when] in Hw; [by apply st_put_inv in Hw as [_ ->] |].
    apply st_ret_inv in Hw as [_ ->]. by destruct s. }
  assert (Hg1 : rx_good B0 s1 out fin) by (rewrite Hs1; by eapply rx_good_same).
  assert (Hb1 : rbuf s1 = rbuf s) by (by rewrite Hs1).
  destruct (flag (seg_flags seg) FLAG_FIN && negb (seg_len seg =? 0))%bool;
    [apply st_ret_inv in Hr as [-> ->]; by split_and! |].
  rewrite !bind_get in Hr. apply st_bind_inv in Hr as ([] & s2 & Hx & [-> ->]%st_ret_inv).
  assert (Hf : frame s1 s2).
  { refine ((_ : keeps frame _) _ _ _ Hx). repeat first
      [ progress keeps_step | apply path_set_state; discriminate | apply path_set_state_closed ]. }
  split_and!; [by eapply rx_good_frame | by destruct Hf as [_ (-> & _)] |].
  intros [= Hfin]. rewrite Hs1 in Hfin. exact Hfin.
Qed.


(** A run from [s] that returns leads to [Q]. *)
Definition leads {A} (m : M A) (Q : PseudoTcpSocket → Prop) (s : PseudoTcpSocket) : Prop :=
  ∀ a s', m s = Done (a, s') → Q s'.

Lemma leads_bind {A B} (m : M A) (f : A → M B) Q s :
  keeps frame m → (∀ a s1, frame s s1 → leads (f a) Q s1) → leads (m ≫= f) Q s.
Proof. intros Hm Hf b s' (a & s1 & H1 & H2)%st_bind_inv. by eapply Hf; [eapply Hm |]. Qed.

Lemma leads_ret {A} (a : A) (Q : PseudoTcpSocket → Prop) s : Q s → leads (mret a) Q s.
Proof. by intros HQ ? ? [-> ->]%st_ret_inv. Qed.

Lemma leads_get {E B} (proj : PseudoTcpSocket → E) (f : E → M B) Q s :
  leads (f (proj s)) Q s → leads (get proj ≫= f) Q s.
Proof. done. Qed.

(** An assignment to a field the receiver does not depend on. *)
Ltac put_frame := intros ? ? ? [= <- <-]; split; [apply rtc_refl | by split_and!].
(** The state after the next routine, reached in [H] from the first one. *)
Ltac along_as a H :=
  let s := fresh "t" in let H' := fresh in
  intros a s H'; pose proof (transitivity H H') as H''; clear H H'; rename H'' into H.
Ltac along H := let a := fresh in along_as a H.

Section process.
Context (B0 : Z) (out : bytes) (seg : Segment).

Lemma process_rest_good s fin fin' got :
  rx_good B0 s out fin → arrives (B0 + zlen out + data_length (rbuf s)) fin seg →
  (fin = true → fin' = true) → (got = true → fin' = true) →
  leads (process_rest seg got) (λ s', rx_good B0 s' out fin') s.
Proof.
  intros Hg Ha Hf Hgot. unfold process_rest. apply leads_bind; [apply path_writable |].
  intros _ s1 H1. apply (rx_good_frame _ _ s1) in Hg; [| done].
  destruct H1 as [_ (Hb & _)]. rewrite <- Hb in Ha. apply leads_get.
  intros a s' (x & s2 & H2 & Hr)%st_bind_inv.
  pose proof (process_data_good _ _ _ _ _ _ _ _ Hg Ha H2) as Hg2.
  destruct x as [fl new]. assert (H3 : rx_good B0 s2 out fin') by (by eapply rx_good_same).
  apply st_bind_inv in Hr as ([] & s3 & Hw & Hr).
  assert (H4 : rx_good B0 s3 out fin').
  { destruct got; cbn [when] in Hw; [| by apply st_ret_inv in Hw as [_ ->]].
    apply st_upd_inv in Hw as [_ ->]. destruct H3 as [? ? ? _]. specialize (Hgot eq_refl).
    split; try done. by rewrite Hgot. }
  eapply (rx_good_frame _ s3); [done |]. refine ((_ : keeps frame _) _ _ _ Hr).
  repeat first [ progress keeps_step | apply path_attempt_send | apply path_emit ].
Qed.

Lemma process_good s fin :
  rx_good B0 s out fin → arrives (B0 + zlen out + data_length (rbuf s)) fin seg →
  leads (process seg) (λ s', rx_good B0 s' out (fin || takes_fin s seg)) s.
Proof.
  intros Hg Ha. set (fin' := (fin || takes_fin s seg)%bool).
  assert (Hf' : fin = true → fin' = true) by (by intros E; subst fin'; rewrite E).
  assert (Hq : ∀ s1, frame s s1 → rx_good B0 s1 out fin').
  { intros s1 [_ (? & ? & ? & ? & ? & ?)]. by eapply rx_good_same. }
  unfold process. apply leads_get.
  destruct (seg_conv seg =? conv s); cbn [negb]; [| by apply leads_ret, Hq].
  apply leads_bind; [apply path_time | intros now s0 H1].
  do 3 (apply leads_bind; [put_frame |]; along H1). apply leads_get.
  case_match; [apply leads_bind; [apply keeps_when; [apply _ | apply path_closedown] |];
    along H1; by apply leads_ret, Hq |].
  destruct (flag (seg_flags seg) FLAG_RST);
    [apply leads_bind; [apply path_closedown |]; along H1; by apply leads_ret, Hq |].
  unfold process_control. rewrite (ar_ctl _ _ _ Ha). change (mret (Some false) ≫= ?f) with (f (Some false)).
  apply leads_get, leads_bind; [apply keeps_when; [apply _ | put_frame] |]. along H1.
  apply leads_bind; [apply path_process_ack |]. along_as acked H1.
  destruct acked as [fin_ack |]; [| by apply leads_ret, Hq].
  apply leads_get, leads_bind; [apply keeps_when; [apply _ | apply path_established] |].
  along H1.
  match type of H1 with frame _ ?x => rename x into s1 end.
  assert (Hg1 : rx_good B0 s1 out fin) by (by eapply rx_good_frame).
  intros a s' (got & s2 & (Hg2 & Hb & Hgot)%(process_fin_good _ _ _ _ _ _ _ _ Hg1) & Hr)%st_bind_inv.
  assert (Htf : takes_fin s1 seg = takes_fin s seg).
  { unfold takes_fin. by destruct H1 as [_ (_ & _ & -> & -> & -> & _)]. }
  destruct got as [got |]; [| apply st_ret_inv in Hr as [_ ->]; by eapply rx_good_same].
  eapply (process_rest_good s2 fin fin' got); [done | | done | | exact Hr].
  - rewrite Hb. by destruct H1 as [_ (-> & _)].
  - intros ->. subst fin'. rewrite <- Htf, Hgot by done. apply orb_true_r.
Qed.
End process.
(** Taking [data] off the buffer. *)
Lemma read_good B0 s out fin len data b :
  0 ≤ len ≤ 2 ^ 32 → rx_good B0 s out fin → pseudo_tcp_fifo_read (rbuf s) len = Done (data, b) →
  rx_good B0 (s <| rbuf := b |>) (out ++ data) fin.
Proof.
  intros Hn [Ho Hf Hb Hrx] E. pose proof (fo_dl _ Hf). rewrite fifo_read_spec in E by done.
  injection E as <- <-. set (k := Z.min len (data_length (rbuf s))).
  assert (Hk : 0 ≤ k ≤ data_length (rbuf s)) by lia.
  assert (Ht : take (Z.to_nat len) (contents (rbuf s)) = take (Z.to_nat k) (contents (rbuf s))).
  { pose proof (contents_length _ Hf). unfold zlen in *.
    destruct (Z.le_gt_cases len (data_length (rbuf s))); [by subst k; rewrite Z.min_l |].
    rewrite !take_ge by lia. done. }
  assert (Hd : drop (Z.to_nat k) (contents (rbuf s)) = contents (fifo_skip (rbuf s) k))
    by (symmetry; by apply fifo_skip_ok).
  rewrite Ht. rewrite Hb in Ht, Hd. rewrite Hb, take_stream by lia. rewrite drop_stream in Hd by lia.
  pose proof (zlen_nonneg out).
  assert (Hl : zlen (out ++ stream str (B0 + zlen out) k) = zlen out + k)
    by (rewrite zlen_app, stream_length by lia; lia).
  split.
  - rewrite Hl, stream_app by lia. by rewrite <- Ho.
  - by apply fifo_skip_ok.
  - rewrite Hl. change (contents (fifo_skip (rbuf s) k) =
      stream str (B0 + (zlen out + k)) (data_length (rbuf s) - k)). rewrite <- Hd. f_equal. lia.
  - intros F1 F2. rewrite Hl. specialize (Hrx F1 F2). apply (rx_inv_read _ _ _ k) in Hrx; [| done].
    change (data_length (rbuf (s <| rbuf := fifo_skip (rbuf s) k |>))) with (data_length (rbuf s) - k).
    replace (B0 + (zlen out + k) + (data_length (rbuf s) - k)) with (B0 + zlen out + data_length (rbuf s))
      by lia. by rewrite Z.add_assoc.
Qed.

Lemma recv_good B0 s out fin len r data s' :
  0 ≤ len ≤ 2 ^ 32 → rx_good B0 s out fin → pseudo_tcp_socket_recv len s = Done ((r, data), s') →
  rx_good B0 s' (out ++ data) fin.
Proof.
  intros Hn Hg Hr. assert (Hnil : ∀ t, frame s t → rx_good B0 t (out ++ []) fin).
  { intros t ?. rewrite app_nil_r. by eapply rx_good_frame. }
  unfold pseudo_tcp_socket_recv, pseudo_tcp_socket_is_closed, state_is in Hr.
  rewrite !bind_get in Hr. rewrite bind_bind, bind_get, bind_ret, bind_get in Hr.
  destruct (support_fin_ack s && shutdown_reads s)%bool;
    [apply st_ret_inv in Hr as [[= -> ->] ->]; by apply Hnil |].
  destruct (negb (support_fin_ack s) && bool_decide (state s = PSEUDO_TCP_CLOSED))%bool;
    [apply st_ret_inv in Hr as [[= -> ->] ->]; by apply Hnil |].
  destruct (negb (support_fin_ack s) && negb (bool_decide (state s = PSEUDO_TCP_ESTABLISHED)))%bool.
  { rewrite bind_put in Hr. apply st_ret_inv in Hr as [[= -> ->] ->]. apply Hnil.
    split; [apply rtc_refl | by split_and!]. }
  destruct (len =? 0); [apply st_ret_inv in Hr as [[= -> ->] ->]; by apply Hnil |].
  rewrite bind_get in Hr. apply st_bind_inv in Hr as ([d b] & s1 & (Hrd & ->)%st_lift_inv & Hr).
  rewrite bind_put in Hr. pose proof (read_good _ _ _ _ _ _ _ Hn Hg Hrd) as Hg1.
  match type of Hg1 with rx_good _ ?t _ _ => set (s1 := t) in * end. destruct (_ && _)%bool eqn:Hz.
  - apply andb_true_iff in Hz as [Hz _]. apply Z.eqb_eq in Hz.
    rewrite !bind_put in Hr. apply st_ret_inv in Hr as [[= -> ->] ->].
    assert (d = []) as -> by (destruct d; [done |]; rewrite zlen_cons in Hz; pose proof (zlen_nonneg d); lia).
    eapply rx_good_frame; [exact Hg1 |]. split; [apply rtc_refl | by split_and!].
  - assert (Hf : frame s1 s' ∧ d = data).
    { rewrite !bind_get in Hr. apply st_bind_inv in Hr as (u & s2 & Hw & [[= _ ->] ->]%st_ret_inv).
      split; [| done]. refine ((_ : keeps frame _) _ _ _ Hw).
      repeat first [ progress keeps_step | apply path_attempt_send | put_frame ]. }
    destruct Hf as [Hf <-]. by eapply rx_good_frame.
Qed.

Lemma rx_steps_good B0 x y :
  rtc (rx_step B0) x y → rx_good B0 x.1.1 x.1.2 x.2 → rx_good B0 y.1.1 y.1.2 y.2.
Proof.
  induction 1 as [x | x y z Hxy _ IH]; [done |]. intros Hg. apply IH. clear IH.
  destruct Hxy as [s out fin op seg s' Hop Ha Hr | s out fin len r data s' Hl Hr
    | s out fin op s' Hq Hr]; cbn [fst snd] in *.
  - destruct (delivers_process _ _ _ _ Hop Hr) as [r Hp]. by eapply (process_good B0 out seg s fin Hg Ha r s' Hp).
  - by eapply recv_good.
  - eapply rx_good_frame; [exact Hg |]. by eapply frame_op.
Qed.

(** C20: the application reads the peer's stream and nothing else: after any
    interleaving of packets, reads and other calls - connecting, sending, clock
    and MTU notices, shutting down, closing, but not resizing the receive buffer
    or switching FIN-ACK - what [pseudo_tcp_socket_recv] has returned followed by
    what is buffered is the stream from its first octet on.  The packets carry no
    control data, and octets of any interval of the stream that begins within
    2^30 of the next one expected, or none; once a segment met the condition on
    which [process_fin] takes it for the end of the stream ([takes_fin]) they
    carry none. *)
Theorem application_reads_stream B0 s0 s out fin :
  rx_inv B0 B0 s0 → rtc (rx_step B0) (s0, [], false) (s, out, fin) →
  out ++ contents (rbuf s) = stream str B0 (zlen out + data_length (rbuf s)).
Proof.
  intros [L0 H0] Hrun. apply rx_steps_good in Hrun; cbn [fst snd] in *.
  - destruct Hrun as [Ho Hf Hb _]. rewrite Hb. pose proof (zlen_nonneg out). pose proof (fo_dl _ Hf).
    rewrite stream_app by lia. by rewrite <- Ho.
  - pose proof (ri_len _ _ _ _ _ H0) as Hl. split; [done | apply H0 | |].
    + rewrite (recv_contents _ _ _ _ _ H0), Hl. f_equal. rewrite zlen_nil. lia.
    + intros _ _. exists L0. rewrite Hl, zlen_nil. replace (B0 + 0 + (B0 - B0)) with B0 by lia.
      by rewrite Z.add_0_r.
Qed.

End receive.

(** A socket that has buffered the first two octets of the stream 10, 11,
    12, ... *)
Definition sample_receiver : PseudoTcpSocket := sample_socket PSEUDO_TCP_ESTABLISHED [10; 11] 2 0.

Definition sample_segment (q len : Z) : Segment :=
  {| seg_conv := 7; seg_seq := u32 q; seg_ack := 0; seg_flags := 0; seg_wnd := 64;
     seg_data := stream (Z.add 10) q len; seg_len := len; seg_tsval := 0; seg_tsecr := 0 |}.

Lemma sample_segment_at q len : 0 ≤ len ≤ 2 ^ 16 → segment_at (Z.add 10) q (sample_segment q len).
Proof. by split. Qed.

Lemma sample_receiver_inv : rx_inv (Z.add 10) 0 2 sample_receiver.
Proof.
  exists []. split; try done.
  - intros p Hp. assert (p = 0 ∨ p = 1) as [-> | ->] by lia; reflexivity.
  - constructor.
Qed.

(** Octets 1 to 3 arrive. *)
Lemma process_data_reassembles_witness :
  ∃ r s' P',
    process_data (sample_segment 1 3) sfNone sample_receiver = Done (r, s') ∧
    rx_inv (Z.add 10) 0 P' s' ∧ 2 ≤ P' ∧
    contents (rbuf s') = [10; 11] ++ stream (Z.add 10) 2 (P' - 2) ∧
    (1 ≤ 2 → Z.min (1 + 3) (0 + 64) ≤ P') ∧
    u32 (rcv_wnd s') = u32 (62 - (P' - 2)).
Proof.
  apply (process_data_reassembles (Z.add 10) 0 2 sample_receiver (sample_segment 1 3) 1 sfNone).
  - apply sample_receiver_inv.
  - apply sample_segment_at. lia.
  - lia.
  - by left.
Defined.

(** The packet with [n] octets from position [q] on. *)
Definition sample_packet (q n flags : Z) : bytes :=
  packet_header 7 (u32 q) 0 flags 64 1000 0 ++ stream (Z.add 10) q n.

Definition sample_op (q n flags : Z) : SocketOp :=
  OpNotifyPacket (sample_packet q n flags) (HEADER_SIZE + n).

Definition parsed_segment (q n flags : Z) : Segment :=
  {| seg_conv := 7; seg_seq := u32 q; seg_ack := 0; seg_flags := flags; seg_wnd := 64;
     seg_data := stream (Z.add 10) q n; seg_len := n; seg_tsval := 1000; seg_tsecr := 0 |}.

Definition run_op (op : SocketOp) (s : PseudoTcpSocket) : PseudoTcpSocket :=
  match @socket_op (sample_env WR_SUCCESS) op s with Done (_, s') => s' | _ => s end.

Ltac data_step Hst H q s :=
  eapply (Hst q 2 0 s);
  [set_solver | reflexivity | apply H; vm_compute; split; discriminate | vm_compute; reflexivity..].

(** Octets 0 and 1 arrive, 4 and 5 early, the clock ticks, 2 and 3 arrive; the
    application reads four octets; the peer closes. *)
Lemma application_reads_stream_witness :
  ∃ s, [10; 11; 12; 13] ++ contents (rbuf s) = stream (Z.add 10) 0 (4 + data_length (rbuf s)) ∧
    data_length (rbuf s) = 2 ∧ state s = PSEUDO_TCP_CLOSE_WAIT.
Proof.
  pose (s0 := sample_socket PSEUDO_TCP_ESTABLISHED [] 0 0).
  pose (s1 := run_op (sample_op 0 2 0) s0). pose (s2 := run_op (sample_op 4 2 0) s1).
  pose (s3 := run_op OpNotifyClock s2). pose (s4 := run_op (sample_op 2 2 0) s3).
  pose (s5 := run_op (OpRecv 4) s4). pose (s6 := run_op (sample_op 6 0 FLAG_FIN) s5).
  exists s6. split; [| split; vm_compute; reflexivity].
  assert (Hdel : ∀ q n flags, (q, n, flags) ∈ [(0, 2, 0); (4, 2, 0); (2, 2, 0); (6, 0, FLAG_FIN)] →
    delivers (sample_op q n flags) (parsed_segment q n flags)).
  { intros q n flags Hin. repeat (apply elem_of_cons in Hin as [[= -> -> ->] | Hin]);
      [.. | by apply elem_of_nil in Hin];
      (eapply delivers_packet; [vm_compute; split; discriminate | vm_compute; reflexivity..]). }
  assert (Harr : ∀ q P n, 0 ≤ n ≤ 2 ^ 16 → - 2 ^ 30 ≤ q - P ≤ 2 ^ 30 →
    arrives (Z.add 10) P false (parsed_segment q n 0)) by (intros q P n ??; split; [done | done |];
      intros _; split; [done |]; exists q; by split).
  apply (@application_reads_stream (sample_env WR_SUCCESS) (Z.add 10) 0 s0 s6 [10; 11; 12; 13] true).
  - exists []. split; try done.
    + intros p Hp. lia.
    + constructor.
  - assert (Hst : ∀ q n f s out P fin', (q, n, f) ∈ [(0, 2, 0); (4, 2, 0); (2, 2, 0); (6, 0, FLAG_FIN)] →
      P = 0 + zlen out + data_length (rbuf s) → arrives (Z.add 10) P false (parsed_segment q n f) →
      @socket_op (sample_env WR_SUCCESS) (sample_op q n f) s = Done (tt, run_op (sample_op q n f) s) →
      fin' = takes_fin s (parsed_segment q n f) →
      @rx_step (sample_env WR_SUCCESS) (Z.add 10) 0 (s, out, false) (run_op (sample_op q n f) s, out, fin')).
    { intros q n f s out P fin' Hin -> Ha Hr ->.
      apply (rx_deliver _ 0 s out false (sample_op q n f) (parsed_segment q n f)); auto. }
    apply rtc_l with (s1, [], false); [data_step Hst Harr 0 s0 |].
    apply rtc_l with (s2, [], false); [data_step Hst Harr 4 s1 |].
    apply rtc_l with (s3, [], false);
      [apply (rx_quiet _ 0 s2 [] false OpNotifyClock); vm_compute; reflexivity |].
    apply rtc_l with (s4, [], false); [data_step Hst Harr 2 s3 |].
    apply rtc_l with (s5, [10; 11; 12; 13], false);
      [apply (rx_recv _ 0 s4 [] false 4 4 [10; 11; 12; 13]); [lia | vm_compute; reflexivity] |].
    apply rtc_once. eapply (Hst 6 0 FLAG_FIN s5); [set_solver | reflexivity | | vm_compute; reflexivity..].
    by split.
Defined.
