(* ===== verification/PseudoTcpSend.v ===== *)
(** * Pseudo-TCP: the send path

    The invariant of the two segment queues over the shared store, and that
    [queue], [transmit] and [attempt_send] preserve it, never fail an
    assertion and terminate. *)

From stdpp Require Import gmap.
From S2P Require Import Prelude Bytes StateMonad PseudoTcpFifo PseudoTcp.
From S2P Require Import PseudoTcpWire PseudoTcpStates.

#[global] Open Scope Z_scope.

(** The segment lies in the send buffer. *)
Definition in_buffer (una dl : Z) (g : SSegment) : Prop :=
  0 ≤ sseg_len g ∧ ∃ off, sseg_seq g = u32 (una + off) ∧ 0 ≤ off ∧ off + sseg_len g ≤ dl.

(** The unsent segments are a suffix of all of them, none of them has been
    transmitted and all of them are in the buffer. *)
Record queue_inv (s : PseudoTcpSocket) : Prop := {
  qi_fifo : fifo_ok (sbuf s);
  qi_cap : buffer_length (sbuf s) ≤ 2 ^ 26;
  qi_scale : rwnd_scale s < 32;
  qi_nodup : NoDup (slist s);
  qi_fresh : ∀ id, id ∈ slist s → (id < next_sseg s)%nat;
  qi_split : ∃ sent, slist s = sent ++ unsent_slist s ∧
    ∀ id, id ∈ sent → ∃ g, ssegs s !! id = Some g ∧ sseg_xmit g ≠ 0;
  qi_unsent : ∀ id, id ∈ unsent_slist s → ∃ g, ssegs s !! id = Some g ∧ sseg_xmit g = 0 ∧
    in_buffer (snd_una s) (data_length (sbuf s)) g
}.

Definition mss_inv (s : PseudoTcpSocket) : Prop :=
  0 < mss s ≤ MAX_PACKET - HEADER_SIZE ∧ 0 ≤ msslevel s ≤ 9.

Definition send_inv (s : PseudoTcpSocket) : Prop := queue_inv s ∧ mss_inv s.

(** What the invariant is about. *)
Definition qview (s : PseudoTcpSocket) :=
  (sbuf s, rwnd_scale s, slist s, unsent_slist s, (ssegs s, next_sseg s, snd_una s)).

Lemma queue_inv_ext s s' : qview s' = qview s → queue_inv s → queue_inv s'.
Proof.
  unfold qview. intros [= E1 E2 E3 E4 E5 E6 E7] [H1 H2 H3 H4 H5 H6 H7].
  split; rewrite ?E1, ?E2, ?E3, ?E4, ?E5, ?E6, ?E7; done.
Qed.

Lemma unsent_work_ext s s' : qview s' = qview s → unsent_work s' = unsent_work s.
Proof. unfold qview, unsent_work. by intros [= _ _ _ -> -> _ _]. Qed.

Lemma insert_after_spec sent x rest y :
  x ∉ sent → insert_after (sent ++ x :: rest) x y = sent ++ x :: y :: rest.
Proof.
  intros Hx. unfold insert_after. rewrite decide_True by set_solver.
  induction sent as [| z sent IH]; cbn [app insert_after_found]; [by rewrite Nat.eqb_refl |].
  destruct (Nat.eqb_spec z x) as [-> | Hne]; [set_solver |]. f_equal. apply IH. set_solver.
Qed.

(** Split the head of the unsent queue at [n], in both queues. *)
Lemma queue_inv_break s id rest g n :
  queue_inv s → unsent_slist s = id :: rest → ssegs s !! id = Some g → 0 ≤ n ≤ sseg_len g →
  let new := next_sseg s in
  let sub := {| sseg_seq := u32 (sseg_seq g + n); sseg_len := u32 (sseg_len g - n);
                sseg_xmit := 0; sseg_flags := sseg_flags g |} in
  let h := <[id := g <| sseg_len := n |>]> (<[new := sub]> (ssegs s)) in
  let s' := s <| next_sseg := S new |> <| ssegs := h |>
              <| slist := insert_after (slist s) id new |>
              <| unsent_slist := insert_after (unsent_slist s) id new |> in
  queue_inv s' ∧ unsent_slist s' = id :: new :: rest ∧ ssegs s' !! id = Some (g <| sseg_len := n |>) ∧
  unsent_work s' = S (unsent_work s).
Proof.
  intros [H1 H2 H3 H4 H5 (sent & Hs & Hsent) H7] Hu Hg Hn new sub h s'.
  rewrite Hs, Hu in H4. apply NoDup_app in H4 as (Hnd1 & Hnd2 & Hnd3).
  apply NoDup_cons in Hnd3 as [Hid Hnd3].
  assert (Hidn : id ∉ sent) by (intros Hin; by apply (Hnd2 id Hin), list_elem_of_here).
  assert (Hold : ∀ x, x ∈ sent ++ id :: rest → x ≠ new).
  { intros x Hx. rewrite <- Hu, <- Hs in Hx. apply H5 in Hx. unfold new. lia. }
  assert (Enew : ∀ x, x ∈ sent ++ id :: rest → x ≠ id → h !! x = ssegs s !! x).
  { intros x Hx Hne. unfold h. by rewrite !lookup_insert_ne by (try apply not_eq_sym; auto). }
  assert (Eid : h !! id = Some (g <| sseg_len := n |>)) by (unfold h; by rewrite lookup_insert_eq).
  assert (Hnid : new ≠ id) by (apply not_eq_sym, Hold; set_solver).
  assert (Esub : h !! new = Some sub) by
    (unfold h; rewrite lookup_insert_ne by done; by rewrite lookup_insert_eq).
  assert (Eu : unsent_slist s' = id :: new :: rest).
  { change (insert_after (unsent_slist s) id new = id :: new :: rest). rewrite Hu.
    apply (insert_after_spec [] id rest), not_elem_of_nil. }
  assert (Es : slist s' = sent ++ id :: new :: rest).
  { change (insert_after (slist s) id new = sent ++ id :: new :: rest). rewrite Hs, Hu.
    by apply insert_after_spec. }
  destruct (H7 id) as (g' & Hg' & Hxm & Hlen & off & Hoff & Ho1 & Ho2); [rewrite Hu; set_solver |].
  rewrite Hg in Hg'. injection Hg' as <-. pose proof (fo_dl _ H1). pose proof (fo_max _ H1).
  assert (Hsl : sseg_len sub = sseg_len g - n) by (apply u32_small; unfold is_u32; lia).
  split_and!; [split | done | done |].
  - done.
  - done.
  - done.
  - rewrite Es. apply NoDup_app. split_and!; [done | |].
    + intros x Hx Hx'. rewrite !elem_of_cons in Hx'. destruct Hx' as [-> | [-> | Hx']].
      * done.
      * by apply (Hold new); [set_solver |].
      * apply (Hnd2 x Hx). set_solver.
    + repeat constructor; [| | done].
      * intros [E | E]%elem_of_cons; [by symmetry in E; apply Hnid | done].
      * intros E. by apply (Hold new); [set_solver |].
  - rewrite Es. change (∀ x, x ∈ sent ++ id :: new :: rest → (x < S new)%nat). intros x Hx.
    rewrite elem_of_app, !elem_of_cons in Hx. unfold new in *.
    destruct Hx as [Hx | [-> | [-> | Hx]]]; [| | lia |];
      apply Nat.lt_lt_succ_r, H5; rewrite Hs, Hu; set_solver.
  - rewrite Es, Eu. exists sent. split; [done |]. intros x Hx. change (ssegs s') with h.
    rewrite Enew; [by apply Hsent | set_solver | intros ->; by apply Hidn].
  - rewrite Eu. change (ssegs s') with h. change (snd_una s') with (snd_una s).
    change (sbuf s') with (sbuf s). intros x Hx. rewrite !elem_of_cons in Hx.
    destruct Hx as [-> | [-> | Hx]].
    + eexists. split_and!; [exact Eid | done |]. split; cbn; [lia |]. exists off. split_and!; [done | lia..].
    + exists sub. split_and!; [done | done |]. split; [lia |]. exists (off + n). rewrite Hsl.
      split_and!; [| lia..]. cbn. rewrite Hoff, u32_add_l. f_equal. lia.
    + rewrite Enew; [apply H7; rewrite Hu; set_solver | set_solver | intros ->; by apply Hid].
  - unfold unsent_work at 1. rewrite Eu. change (ssegs s') with h. unfold unsent_work. rewrite Hu.
    cbn [fmap list_fmap sum_list]. rewrite Eid, Esub, Hg, Hsl. cbn [sseg_len set_field].
    assert (Er : ((λ id0, match h !! id0 with Some g0 => S (2 * Z.to_nat (sseg_len g0)) | None => O end)
      <$> rest) = ((λ id0, match ssegs s !! id0 with
                           | Some g0 => S (2 * Z.to_nat (sseg_len g0)) | None => O end) <$> rest)).
    { apply list_fmap_ext. intros i x Hx%list_elem_of_lookup_2.
      rewrite Enew; [done | set_solver | intros ->; by apply Hid]. }
    rewrite Er. cbn. lia.
Qed.

Section send.
Context `{Env}.

(** ** One packet *)

Lemma packet_wp s seq flags offset len now :
  queue_inv s → 0 ≤ len → 24 + len ≤ MAX_PACKET → 0 ≤ offset →
  (len = 0 ∨ offset + len ≤ data_length (sbuf s)) →
  wp (packet seq flags offset len now)
    (λ _ s', qview s' = qview s ∧ mss s' = mss s ∧ msslevel s' = msslevel s) s.
Proof.
  intros Hq Hl Hmax Ho Hoff.
  eapply wp_mono; [| intros a s' Hs'; exact Hs'].
  pose proof (packet_spec s seq flags offset len now (qi_fifo _ Hq) (qi_scale _ Hq) Hl Hmax Ho Hoff) as E.
  cbv zeta in E. unfold wp. rewrite E. destruct (_ && _)%bool; [done |]. by destruct (0 <? len).
Qed.

(** ** Lowering the segment size *)

(** [packet_maximum] along the levels. *)
Lemma packet_maximum_next level :
  0 ≤ level ≤ 9 →
  ∃ v, packet_maximum (level + 1) = Done v ∧
    (level = 9 ∧ v = 0 ∨ level ≤ 8 ∧ 296 ≤ v ≤ 32000).
Proof.
  intros Hl. assert (level = 0 ∨ level = 1 ∨ level = 2 ∨ level = 3 ∨ level = 4 ∨ level = 5 ∨
    level = 6 ∨ level = 7 ∨ level = 8 ∨ level = 9) as Hc by lia.
  repeat destruct Hc as [-> | Hc]; try subst level;
    (eexists; split; [reflexivity | lia]).
Qed.

Lemma lower_mss_wp fuel : ∀ s nT,
  mss_inv s → 9 - msslevel s < Z.of_nat fuel →
  wp (lower_mss fuel nT) (λ r s', qview s' = qview s ∧ mss_inv s' ∧
    match r with Some n => 0 < n < nT ∧ msslevel s < msslevel s' | None => True end) s.
Proof.
  induction fuel as [| fuel IH]; intros s nT [Hm Hlv] Hf; [lia |].
  cbn [lower_mss]. apply wp_bind, wp_get, wp_bind.
  rewrite (u32_small (msslevel s + 1)) by (unfold is_u32; lia).
  destruct (packet_maximum_next (msslevel s)) as (v & Hv & Hvr); [done |].
  eapply wp_lift; [exact Hv |]. destruct Hvr as [[Hl9 ->] | [Hl8 Hvr]].
  { apply wp_ret. by split_and!. }
  destruct (Z.eqb_spec v 0); [lia |].
  change PACKET_OVERHEAD with 116. rewrite (u32_small (v - 116)) by (unfold is_u32; lia).
  apply wp_bind, wp_put, wp_bind, wp_put, wp_bind, wp_put. set (s1 := _ <| cwnd := _ |>).
  assert (Hi1 : mss_inv s1).
  { split; cbn; [unfold MAX_PACKET, HEADER_SIZE |]; lia. }
  destruct (Z.ltb_spec (v - 116) nT).
  - apply wp_ret. split_and!; try done; cbn; lia.
  - eapply wp_mono; [apply (IH s1 nT Hi1); cbn; lia |].
    intros [n' |] s' (E1 & E2 & E3); (split_and!; [by rewrite E1 | done | ..]); try done; cbn in E3; lia.
Qed.

(** ** Transmitting a segment *)

Lemma in_buffer_offset una dl g :
  in_buffer una dl g → dl ≤ 2 ^ 26 →
  ∃ off, u32 (sseg_seq g - una) = off ∧ 0 ≤ off ∧ off + sseg_len g ≤ dl.
Proof.
  intros (Hl & off & E & H1 & H2) Hdl. exists off. split_and!; [| done | done].
  rewrite E. unfold u32. zlia.
Qed.

Lemma transmit_loop_wp fuel : ∀ s id g nT now,
  send_inv s → ssegs s !! id = Some g →
  in_buffer (snd_una s) (data_length (sbuf s)) g →
  0 ≤ nT ≤ sseg_len g → nT ≤ MAX_PACKET - HEADER_SIZE → 9 - msslevel s < Z.of_nat fuel →
  wp (transmit_loop fuel id nT now) (λ r s', qview s' = qview s ∧ mss_inv s' ∧
    match r with inl n => 0 ≤ n ≤ nT ∧ (0 < nT → 0 < n) | inr e => e ≠ 0 end) s.
Proof.
  induction fuel as [| fuel IH]; intros s id g nT now [Hq Hm] Hg Hb HnT HnT' Hf;
    [destruct Hm; lia |].
  pose proof (fo_dl _ (qi_fifo _ Hq)). pose proof (qi_cap _ Hq).
  destruct (in_buffer_offset _ _ _ Hb) as (off & Hoff & Ho1 & Ho2); [lia |].
  cbn [transmit_loop]. apply wp_bind. eapply wp_intro; [unfold sseg_get; by rewrite Hg |].
  apply wp_bind, wp_get, wp_bind. rewrite Hoff.
  apply wp_assert; [apply Z.leb_le; lia |]. apply wp_bind.
  unfold HEADER_SIZE in HnT'.
  eapply wp_mono; [apply packet_wp; [done | lia | lia | lia | right; lia] |].
  intros [| |] s1 (E1 & E2 & E3).
  - apply wp_ret. split_and!; [done | by unfold mss_inv; rewrite E2, E3 | lia | lia | done].
  - assert (Hm1 : mss_inv s1) by (by unfold mss_inv; rewrite E2, E3).
    apply wp_bind. eapply wp_mono; [apply lower_mss_wp; [done | destruct Hm1; cbn; lia] |].
    intros [n |] s2 (F1 & F2 & F3); [| apply wp_ret; split_and!; [congruence | done | done]].
    assert (Ev : qview s2 = qview s) by congruence.
    eapply wp_mono.
    { apply (IH s2 id g n now); [split; [by eapply queue_inv_ext | done] | | | lia | unfold HEADER_SIZE; lia | lia];
        unfold qview in Ev; injection Ev as Ea _ _ _ Eb _ Ec; by rewrite ?Ea, ?Eb, ?Ec. }
    intros r s3 (G1 & G2 & G3). split_and!; [congruence | done |]. destruct r; [lia | done].
  - apply wp_ret. split_and!; [done | by unfold mss_inv; rewrite E2, E3 | done].
Qed.

(** Pop the head of the unsent queue once it has been sent. *)
Lemma queue_inv_pop s id rest g xm :
  queue_inv s → unsent_slist s = id :: rest → ssegs s !! id = Some g → xm ≠ 0 →
  let s' := s <| unsent_slist := rest |> <| ssegs := <[id := g <| sseg_xmit := xm |>]> (ssegs s) |> in
  queue_inv s' ∧ unsent_work s = (unsent_work s' + S (2 * Z.to_nat (sseg_len g)))%nat.
Proof.
  intros [H1 H2 H3 H4 H5 (sent & Hs & Hsent) H7] Hu Hg Hx s'.
  rewrite Hs, Hu in H4. apply NoDup_app in H4 as (Hnd1 & Hnd2 & Hnd3).
  pose proof Hnd3 as Hnd. apply NoDup_cons in Hnd as [Hid Hnd].
  assert (Hne : ∀ x, x ≠ id → ssegs s' !! x = ssegs s !! x).
  { intros x Hxid. apply lookup_insert_ne. congruence. }
  split; [split; try done |].
  - change (NoDup (slist s)). rewrite Hs, Hu. by apply NoDup_app.
  - exists (sent ++ [id]). split; [change (slist s = (sent ++ [id]) ++ rest); by rewrite Hs, Hu, <- app_assoc |].
    intros x [Hin | ->%list_elem_of_singleton]%elem_of_app.
    + rewrite Hne; [by apply Hsent |]. intros ->. apply (Hnd2 id Hin). apply list_elem_of_here.
    + eexists. split; [apply lookup_insert_eq | done].
  - intros x Hin. change (x ∈ rest) in Hin. rewrite Hne; [| by intros ->].
    apply H7. rewrite Hu. by apply list_elem_of_further.
  - unfold unsent_work at 1. rewrite Hu. cbn [fmap list_fmap sum_list]. rewrite Hg.
    unfold unsent_work. change (unsent_slist s') with rest.
    assert (Er : ((λ i, match ssegs s' !! i with Some g0 => S (2 * Z.to_nat (sseg_len g0)) | None => O end)
      <$> rest) = ((λ i, match ssegs s !! i with
                         | Some g0 => S (2 * Z.to_nat (sseg_len g0)) | None => O end) <$> rest)).
    { apply list_fmap_ext. intros i x Hin%list_elem_of_lookup_2. rewrite Hne; [done | by intros ->]. }
    rewrite Er. cbn. lia.
Qed.

(** The second half of [transmit]: the head of the unsent queue has been sent. *)
Lemma transmit_pop_wp s id rest g now :
  queue_inv s → unsent_slist s = id :: rest → ssegs s !! id = Some g → sseg_xmit g = 0 →
  wp (g ← sseg_get id;
      when (sseg_xmit g =? 0)
        (q ← get unsent_slist;
         assert_st (bool_decide (head q = Some id));;
         upd unsent_slist tail;;
         upd snd_nxt (λ x, u32 (x + sseg_len g));;
         when ((sseg_len g =? 0) && flag (sseg_flags g) FLAG_FIN)
           (upd snd_nxt (λ x, u32 (x + 1))));;
      sseg_put id (g <| sseg_xmit := u8 (sseg_xmit g + 1) |>);;
      base ← get rto_base;
      when (base =? 0) (put rto_base now);;
      mret 0 : M Z)
    (λ r s', queue_inv s' ∧ sbuf s' = sbuf s ∧
       unsent_work s = (unsent_work s' + S (2 * Z.to_nat (sseg_len g)))%nat ∧
       r = 0 ∧ mss s' = mss s ∧ msslevel s' = msslevel s ∧ unsent_slist s' = rest ∧
       ∀ x, x ≠ id → ssegs s' !! x = ssegs s !! x) s.
Proof.
  intros Hq Hu Hg Hx.
  destruct (queue_inv_pop s id rest g (u8 (0 + 1)) Hq Hu Hg) as (Hq' & Hw); [done |].
  apply wp_bind. eapply wp_intro; [unfold sseg_get; by rewrite Hg |]. rewrite Hx. cbn [Z.eqb when].
  apply wp_bind, wp_bind, wp_get, wp_bind. rewrite Hu.
  apply wp_assert; [by apply bool_decide_true |].
  apply wp_bind, wp_upd, wp_bind, wp_upd, wp_when; intros _; [apply wp_upd |];
    (apply wp_bind, wp_upd, wp_bind, wp_get, wp_bind, wp_when; intros _; [apply wp_put |]);
    apply wp_ret;
    (split_and!; [eapply queue_inv_ext; [| exact Hq'] | done |
       rewrite Hw; f_equal; symmetry; apply unsent_work_ext | done | done | done | cbn; by rewrite Hu |
       intros x Hne; by apply lookup_insert_ne]);
    unfold qview; cbn; rewrite Hu; reflexivity.
Qed.

Lemma transmit_wp s id rest g now :
  send_inv s → unsent_slist s = id :: rest → ssegs s !! id = Some g →
  wp (transmit id now) (λ r s', send_inv s' ∧ sbuf s' = sbuf s ∧
    (r = 0 → (unsent_work s' + (if decide (0 < sseg_len g)%Z then 2 else 1) ≤ unsent_work s)%nat)) s.
Proof.
  intros Hi Hu Hg. pose proof Hi as [Hq [Hm Hlv]].
  destruct (qi_unsent _ Hq id) as (g' & Hg' & Hx & Hb); [rewrite Hu; apply list_elem_of_here |].
  rewrite Hg in Hg'. injection Hg' as <-.
  pose proof (proj1 Hb) as Hlen. unfold MAX_PACKET, HEADER_SIZE in Hm.
  unfold transmit. apply wp_bind. eapply wp_intro; [unfold sseg_get; by rewrite Hg |].
  apply wp_bind, wp_get, wp_bind. unfold state_is. apply wp_bind, wp_get, wp_ret. rewrite Hx.
  assert (((if bool_decide (state s = PSEUDO_TCP_ESTABLISHED) then 15 else 30) <=? 0) = false) as ->
    by (by case_bool_decide).
  apply wp_bind. eapply wp_mono.
  { apply (transmit_loop_wp _ s id g); [done | done | done | lia | | cbn; lia].
    unfold MAX_PACKET, HEADER_SIZE; lia. }
  intros [n | e] s1 (E1 & E2 & E3).
  2:{ apply wp_ret. split_and!; [split; [by eapply queue_inv_ext | done] | | done].
      unfold qview in E1. by injection E1 as -> _ _ _ _ _ _. }
  assert (Hq1 : queue_inv s1) by (by eapply queue_inv_ext).
  assert (Ework : unsent_work s1 = unsent_work s) by (by apply unsent_work_ext).
  unfold qview in E1. injection E1 as Eb Er Es Eu Eg En Ea.
  assert (Hg1 : ssegs s1 !! id = Some g) by (by rewrite Eg).
  assert (Hu1 : unsent_slist s1 = id :: rest) by (by rewrite Eu).
  apply wp_bind. eapply wp_intro; [unfold sseg_get; by rewrite Hg1 |].
  apply wp_bind, wp_when; intros Hn; rewrite ?Hx in *; cbn [Z.eqb when].
  - apply Z.ltb_lt in Hn. destruct (queue_inv_break s1 id rest g n Hq1 Hu1 Hg1) as (B1 & B2 & B3 & B4);
      [lia |]. cbv zeta in B1, B2, B3, B4.
    apply wp_bind, wp_bind, wp_get, wp_bind, wp_put, wp_bind, wp_upd, wp_ret, wp_bind, wp_upd,
      wp_bind, wp_upd, wp_upd.
    match type of B1 with queue_inv ?x => set (s2 := x) in * end.
    match goal with |- wp ?m ?Q _ => change (wp m Q s2) end.
    eapply wp_mono.
    { eapply (transmit_pop_wp s2 id _ _ now); [exact B1 | exact B2 | exact B3 | exact Hx]. }
    intros r s' (C1 & C2 & C3 & _ & C5 & C6 & _).
    split_and!; [split; [done | unfold mss_inv; rewrite C5, C6; exact E2] | rewrite C2; exact Eb |]. intros _.
    rewrite B4, Ework in C3. cbn in C3. case_decide; lia.
  - apply Z.ltb_ge in Hn.
    eapply wp_mono; [eapply (transmit_pop_wp s1 id rest g now); done |].
    intros r s' (C1 & C2 & C3 & _ & C5 & C6 & _).
    split_and!; [split; [done | unfold mss_inv; by rewrite C5, C6] | by rewrite C2 |]. intros _.
    rewrite Ework in C3. case_decide; lia.
Qed.

(** ** The loop of [attempt_send] *)

Lemma window_available_nonneg s : send_inv s → 0 ≤ (window_available s).2.
Proof.
  intros [Hq [Hm _]]. unfold window_available, pseudo_tcp_fifo_get_buffered.
  repeat case_match; cbn; lia.
Qed.

Lemma send_inv_closed err s : send_inv s → send_inv (closed_with err s).
Proof.
  intros [Hq Hm]. unfold closed_with. destruct (_ && _)%bool;
    (split; [eapply queue_inv_ext; [| exact Hq]; done | exact Hm]).
Qed.

(** Break the head if there is more than the window takes. *)
Lemma split_when_wp s id rest g n (b : bool) :
  send_inv s → unsent_slist s = id :: rest → ssegs s !! id = Some g → (b = true → 1 ≤ n) →
  wp (when ((n <? sseg_len g) && b) (split_unsent id n))
    (λ _ s', send_inv s' ∧ sbuf s' = sbuf s ∧ ∃ rest' g', unsent_slist s' = id :: rest' ∧
       ssegs s' !! id = Some g' ∧
       (unsent_work s' + 1 ≤ unsent_work s + (if decide (0 < sseg_len g')%Z then 2 else 1))%nat) s.
Proof.
  intros [Hq Hm] Hu Hg Hb. apply wp_when; intros Hc.
  - apply andb_true_iff in Hc as [Hn%Z.ltb_lt Hbt]. specialize (Hb Hbt).
    destruct (queue_inv_break s id rest g n Hq Hu Hg) as (B1 & B2 & B3 & B4); [lia |].
    cbv zeta in B1, B2, B3, B4. unfold split_unsent.
    apply wp_bind. eapply wp_intro; [unfold sseg_get; by rewrite Hg |].
    apply wp_bind, wp_bind, wp_get, wp_bind, wp_put, wp_bind, wp_upd, wp_ret, wp_bind, wp_upd,
      wp_bind, wp_upd, wp_upd.
    match type of B1 with queue_inv ?x => set (s2 := x) in * end.
    split_and!; [split; [exact B1 | exact Hm] | done |]. eexists _, _.
    split_and!; [exact B2 | exact B3 |].
    match goal with |- (unsent_work ?x + 1 ≤ _)%nat => change (unsent_work x) with (unsent_work s2) end.
    rewrite B4. cbn. case_decide; lia.
  - split_and!; [done | done |]. exists rest, g. split_and!; [done | done |].
    case_decide; lia.
Qed.

Lemma attempt_send_loop_wp fuel : ∀ s fl now,
  send_inv s →
  (unsent_work s + (if decide (fl = sfDuplicateAck) then 1 else 0) < fuel)%nat →
  wp (attempt_send_loop fuel fl now) (λ _ s', send_inv s' ∧ sbuf s' = sbuf s) s.
Proof.
  induction fuel as [| fuel IH]; intros s fl now Hi Hf; [lia |].
  pose proof (window_available_nonneg s Hi) as Hav. cbn [attempt_send_loop].
  apply wp_bind, wp_get. destruct (window_available s) as [w n]. cbn [snd] in Hav.
  assert (Hpkt : ∀ seq flags (Q : unit → PseudoTcpSocket → Prop) (k : M unit),
    (∀ s', qview s' = qview s → send_inv s' → wp k Q s') →
    wp (packet seq flags 0 0 now;; k) Q s).
  { intros seq flags Q k Hk. apply wp_bind. eapply wp_mono.
    { apply packet_wp; [apply Hi | lia | unfold MAX_PACKET; lia | lia | by left]. }
    intros r s' (E1 & E2 & E3). apply Hk; [done |]. destruct Hi as [Hq Hm].
    split; [by eapply queue_inv_ext | unfold mss_inv; by rewrite E2, E3]. }
  case_decide as Hd.
  { apply wp_bind, wp_get, Hpkt. intros s' Ev Hi'.
    eapply wp_mono; [apply (IH s' sfNone now Hi') |].
    - rewrite (unsent_work_ext _ _ Ev). case_decide; [done | lia].
    - intros _ s'' [? ->]. split; [done |]. unfold qview in Ev. by injection Ev as ->. }
  set (forced := bool_decide (fl = sfFin) || bool_decide (fl = sfRst)).
  clearbody forced. destruct ((n =? 0) && negb forced) eqn:Hstop.
  { case_decide; [by apply wp_ret |]. apply wp_bind, wp_get.
    match goal with |- wp (if ?b then _ else _) _ _ => destruct b end.
    - apply wp_bind, wp_get, Hpkt. intros s' Ev Hi'. apply wp_ret.
      split; [done |]. unfold qview in Ev. by injection Ev as ->.
    - apply wp_put. split; [| done]. destruct Hi as [Hq Hm].
      split; [eapply queue_inv_ext; [| exact Hq]; done | exact Hm]. }
  do 4 apply wp_bind, wp_get.
  match goal with |- wp (if ?b then _ else _) _ _ => destruct b end; [by apply wp_ret |].
  apply wp_bind, wp_get. destruct (unsent_slist s) as [| id rest] eqn:Hu; [by apply wp_ret |].
  destruct (qi_unsent _ (proj1 Hi) id) as (g & Hg & Hx & Hb); [rewrite Hu; apply list_elem_of_here |].
  apply wp_bind. eapply wp_intro; [unfold sseg_get; by rewrite Hg |].
  apply wp_bind. eapply wp_mono.
  { apply (split_when_wp s id rest g n); [done | done | done |].
    intros Hnf. rewrite Hnf, andb_true_r in Hstop. apply Z.eqb_neq in Hstop. lia. }
  intros [] s1 (Hi1 & Hsb & rest' & g' & Hu1 & Hg1 & Hw1).
  apply wp_bind. eapply wp_mono; [by apply (transmit_wp s1 id rest' g') |].
  intros r s2 (Hi2 & Hsb2 & Hw2). destruct (Z.eqb_spec r 0) as [Hr | Hr]; cbn [negb].
  - specialize (Hw2 Hr).
    eapply wp_mono; [apply (IH s2 _ now Hi2) |].
    + rewrite decide_False by (by match goal with |- (if ?b then _ else _) ≠ _ => destruct b end).
      destruct (decide (0 < sseg_len g')%Z); lia.
    + intros _ s3 [? ->]. split; [done | congruence].
  - eapply wp_intro; [apply closedown_walk_run |]. split; [by apply send_inv_closed |].
    transitivity (sbuf s2); [| congruence]. unfold closed_with.
    by destruct (PseudoTcpClosed (callbacks s2) && negb (r =? 0)).
Qed.

Lemma attempt_send_wp s fl :
  send_inv s → wp (attempt_send fl) (λ _ s', send_inv s' ∧ sbuf s' = sbuf s) s.
Proof.
  intros Hi. unfold attempt_send.
  assert (Ht : wp get_current_time (λ _ s', qview s' = qview s ∧ mss s' = mss s ∧
    msslevel s' = msslevel s) s).
  { unfold get_current_time. apply wp_bind, wp_get. destruct (negb _); [by apply wp_ret |].
    by apply wp_bind, wp_get, wp_bind, wp_put, wp_ret. }
  apply wp_bind. eapply wp_mono; [exact Ht |]. intros now s1 (E1 & E2 & E3).
  assert (Hi1 : send_inv s1).
  { destruct Hi as [Hq Hm]. split; [by eapply queue_inv_ext | unfold mss_inv; by rewrite E2, E3]. }
  assert (Hsb : sbuf s1 = sbuf s) by (unfold qview in E1; by injection E1).
  do 3 apply wp_bind, wp_get. apply wp_bind.
  apply wp_when; intros _; [apply wp_put |]; apply wp_bind, wp_get;
    (eapply wp_mono; [apply attempt_send_loop_wp | intros _ s2 [? ->]; split; [done | exact Hsb]]);
    try (case_decide; lia); [| exact Hi1].
  destruct Hi1 as [Hq Hm]. split; [eapply queue_inv_ext; [| exact Hq]; done | exact Hm].
Qed.

(** ** Queueing data *)

Lemma in_buffer_mono una dl dl' g : dl ≤ dl' → in_buffer una dl g → in_buffer una dl' g.
Proof. intros Hd (Hl & off & E & H1 & H2). split; [done |]. exists off. split_and!; [done.. | lia]. Qed.

(** Longer last segment, longer buffer. *)
Lemma queue_inv_extend s id g k b :
  queue_inv s → last (slist s) = Some id → ssegs s !! id = Some g → sseg_xmit g = 0 →
  0 ≤ k → fifo_ok b → buffer_length b = buffer_length (sbuf s) →
  data_length b = data_length (sbuf s) + k →
  queue_inv (s <| ssegs := <[id := g <| sseg_len := u32 (sseg_len g + k) |>]> (ssegs s) |>
               <| sbuf := b |>).
Proof.
  intros [H1 H2 H3 H4 H5 (sent & Hs & Hsent) H7] Hlast Hg Hx Hk Hb Hbl Hdl.
  pose proof (fo_dl _ Hb). apply last_Some in Hlast as (pre & Hpre).
  assert (Hin : id ∈ slist s) by (rewrite Hpre; set_solver).
  assert (Hns : id ∉ sent).
  { intros Hi. destruct (Hsent id Hi) as (g' & Hg' & Hx'). congruence. }
  split; try done; cbn.
  - by rewrite Hbl.
  - exists sent. split; [done |]. intros x Hi. rewrite lookup_insert_ne by (intros ->; by apply Hns).
    by apply Hsent.
  - intros x Hi. destruct (H7 x Hi) as (gx & Hgx & Hxx & Hbx).
    destruct (decide (x = id)) as [-> | Hne].
    + rewrite Hg in Hgx. injection Hgx as <-. eexists. split_and!; [apply lookup_insert_eq | done |].
      destruct Hbx as (Hl & off & E & F1 & F2). split; cbn [sseg_len set_field]; cbn.
      * apply u32_range.
      * exists off. rewrite (u32_small (sseg_len g + k)) by (unfold is_u32; lia). split_and!; [done | done | lia].
    + exists gx. rewrite lookup_insert_ne by congruence. split_and!; [done | done |].
      eapply in_buffer_mono; [| done]. lia.
Qed.

(** A new last segment. *)
Lemma queue_inv_push s k flags b :
  queue_inv s → 0 ≤ k → fifo_ok b → buffer_length b = buffer_length (sbuf s) →
  data_length b = data_length (sbuf s) + k →
  let new := next_sseg s in
  let g := {| sseg_seq := u32 (snd_una s + data_length (sbuf s)); sseg_len := k; sseg_xmit := 0;
              sseg_flags := flags |} in
  queue_inv (s <| next_sseg := S new |> <| ssegs := <[new := g]> (ssegs s) |>
               <| slist := slist s ++ [new] |> <| unsent_slist := unsent_slist s ++ [new] |>
               <| sbuf := b |>).
Proof.
  intros [H1 H2 H3 H4 H5 (sent & Hs & Hsent) H7] Hk Hb Hbl Hdl new g.
  pose proof (fo_dl _ Hb). pose proof (fo_dl _ H1).
  assert (Hold : ∀ x, x ∈ slist s → x ≠ new) by (intros x Hx%H5 ->; unfold new in Hx; lia).
  split; try done; cbn.
  - by rewrite Hbl.
  - apply NoDup_app. split_and!; [done | | apply NoDup_singleton].
    intros x Hx ->%list_elem_of_singleton. by apply (Hold new).
  - intros x [Hx%H5 | ->%list_elem_of_singleton]%elem_of_app; unfold new in *; lia.
  - exists sent. split; [by rewrite Hs, app_assoc |]. intros x Hx.
    rewrite lookup_insert_ne; [by apply Hsent |]. apply not_eq_sym, Hold. rewrite Hs. set_solver.
  - intros x [Hx | ->%list_elem_of_singleton]%elem_of_app.
    + destruct (H7 x Hx) as (gx & Hgx & Hxx & Hbx). exists gx.
      rewrite lookup_insert_ne by (apply not_eq_sym, Hold; rewrite Hs; set_solver).
      split_and!; [done | done |]. eapply in_buffer_mono; [| done]. lia.
    + exists g. split_and!; [apply lookup_insert_eq | done |]. split; [done |].
      exists (data_length (sbuf s)). cbn. split_and!; [done | lia..].
Qed.

Lemma queue_wp s data len flags :
  send_inv s → 0 ≤ len ≤ zlen data → len < 2 ^ 32 →
  (len ≤ buffer_length (sbuf s) - data_length (sbuf s) ∨ flags = FLAG_NONE) →
  let k := Z.min len (buffer_length (sbuf s) - data_length (sbuf s)) in
  wp (queue data len flags)
    (λ n s', n = k ∧ send_inv s' ∧ buffer_length (sbuf s') = buffer_length (sbuf s) ∧
       contents (sbuf s') = contents (sbuf s) ++ take (Z.to_nat k) data) s.
Proof.
  intros [Hq Hm] Hlen Hlen' Hfl k. pose proof (qi_fifo _ Hq) as Hb. pose proof (qi_cap _ Hq).
  pose proof (fo_dl _ Hb). unfold queue. apply wp_bind, wp_get, wp_bind.
  rewrite fifo_write_remaining_spec by done.
  assert (Hk : wp (if len >? buffer_length (sbuf s) - data_length (sbuf s) then
      assert_st (flags =? FLAG_NONE);; mret (u32 (buffer_length (sbuf s) - data_length (sbuf s)))
    else mret len : M Z) (λ n s', n = k ∧ s' = s) s).
  { rewrite Z.gtb_ltb. destruct (Z.ltb_spec (buffer_length (sbuf s) - data_length (sbuf s)) len).
    - apply wp_bind, wp_assert; [destruct Hfl as [| ->]; [lia | done] |]. apply wp_ret.
      split; [| done]. rewrite u32_small by (unfold is_u32; lia). lia.
    - apply wp_ret. split; [lia | done]. }
  eapply wp_mono; [exact Hk |]. intros ? ? (-> & ->). apply wp_bind, wp_get, wp_bind.
  destruct (fifo_write_spec (sbuf s) data k) as (b' & Hw & Hb' & Hbl & Hdl & Hct); [done | lia |].
  rewrite (Z.min_l k) in * by lia.
  assert (Hfin : ∀ s1, sbuf s1 = sbuf s → mss_inv s1 → queue_inv (s1 <| sbuf := b' |>) →
    wp ('(written, b) ← lift (pseudo_tcp_fifo_write (sbuf s) data k); put sbuf b;; mret (u32 written) : M Z)
      (λ n s', n = k ∧ send_inv s' ∧ buffer_length (sbuf s') = buffer_length (sbuf s) ∧
       contents (sbuf s') = contents (sbuf s) ++ take (Z.to_nat k) data) s1).
  { intros s1 Hs1 Hm1 Hq1. apply wp_bind. eapply wp_lift; [exact Hw |].
    apply wp_bind, wp_put, wp_ret. split_and!; [by apply u32_small; unfold is_u32; lia | done | done | done]. }
  assert (Hpush : wp ((una ← get snd_una;
      id ← sseg_new {| sseg_seq := u32 (una + data_length (sbuf s)); sseg_len := k;
                       sseg_xmit := 0; sseg_flags := flags |};
      upd slist (λ q, q ++ [id]);; upd unsent_slist (λ q, q ++ [id])) : M unit)
    (λ _ s1, sbuf s1 = sbuf s ∧ mss_inv s1 ∧ queue_inv (s1 <| sbuf := b' |>)) s).
  { apply wp_bind, wp_get, wp_bind, wp_bind, wp_get, wp_bind, wp_put, wp_bind, wp_upd, wp_ret,
      wp_bind, wp_upd, wp_upd. split_and!; [done | done |].
    apply (queue_inv_push s k flags b'); [done | lia | done..]. }
  destruct (last (slist s)) as [id |] eqn:Hlast.
  - assert (Hin : id ∈ slist s) by (apply last_Some in Hlast as (pre & ->); set_solver).
    destruct (qi_split _ Hq) as (sent & Hs & Hsent).
    assert (Hg : ∃ g, ssegs s !! id = Some g).
    { rewrite Hs in Hin. apply elem_of_app in Hin as [Hi | Hi].
      - destruct (Hsent id Hi) as (g & ? & _). by exists g.
      - destruct (qi_unsent _ Hq id Hi) as (g & ? & _). by exists g. }
    destruct Hg as (g & Hg). apply wp_bind. eapply wp_intro; [unfold sseg_get; by rewrite Hg |].
    apply wp_ret. destruct (_ && _)%bool eqn:Hcat.
    + apply wp_bind, wp_upd. apply andb_true_iff in Hcat as [_ Hx%Z.eqb_eq].
      apply Hfin; [done | exact Hm |].
      apply (queue_inv_extend s id g k b'); [done.. | lia | done | done | done].
    + apply wp_bind. eapply wp_mono; [exact Hpush |]. intros ? s1 (? & ? & ?). by apply Hfin.
  - apply wp_ret, wp_bind. eapply wp_mono; [exact Hpush |]. intros ? s1 (? & ? & ?). by apply Hfin.
Qed.

(** C4: sending always terminates safely: from a socket whose segment queues
    are well formed and whose segment size is positive, [attempt_send]
    returns for every flag and every sequence of answers of the network,
    without failing an assertion or touching a freed segment, the queues stay
    well formed and the send buffer is not changed. *)
Theorem attempt_send_terminates s fl :
  send_inv s → ∃ s', attempt_send fl s = Done (tt, s') ∧ send_inv s' ∧ sbuf s' = sbuf s.
Proof. intros Hi. destruct (wp_done _ _ _ (attempt_send_wp s fl Hi)) as ([] & s' & E & ? & ?). eauto. Qed.

(** [pseudo_tcp_socket_send] on an open connection accepts exactly what
    fits: it returns the number of octets taken, the smaller of the length and
    the free space, and appends those octets, in order, to the send buffer;
    a full buffer gives -1 and [EWOULDBLOCK] and leaves the buffer alone. *)
Theorem send_accepts_what_fits s data len :
  send_inv s → state s = PSEUDO_TCP_ESTABLISHED → 0 ≤ len ≤ zlen data → len < 2 ^ 32 →
  let free := buffer_length (sbuf s) - data_length (sbuf s) in
  (free = 0 → pseudo_tcp_socket_send data len s =
     Done (-1, s <| bWriteEnable := true |> <| error := EWOULDBLOCK |>)) ∧
  (0 < free → ∃ s', pseudo_tcp_socket_send data len s = Done (Z.min len free, s') ∧
     send_inv s' ∧
     contents (sbuf s') = contents (sbuf s) ++ take (Z.to_nat (Z.min len free)) data).
Proof.
  intros Hi Hst Hlen Hlen' free. pose proof (qi_fifo _ (proj1 Hi)) as Hb. pose proof (qi_cap _ (proj1 Hi)).
  pose proof (fo_dl _ Hb). unfold pseudo_tcp_socket_send.
  split; intros Hfree.
  - rewrite bind_get, Hst. cbn [negb bool_decide decide_rel]. rewrite bool_decide_true by done. cbn [negb].
    rewrite bind_get. rewrite fifo_write_remaining_spec by done. fold free. rewrite Hfree. done.
  - enough (wp (pseudo_tcp_socket_send data len) (λ n s', n = Z.min len free ∧ send_inv s' ∧
      contents (sbuf s') = contents (sbuf s) ++ take (Z.to_nat (Z.min len free)) data) s) as W.
    { apply wp_done in W as (n & s' & E & -> & ? & ?). exists s'. by split_and!. }
    unfold pseudo_tcp_socket_send. apply wp_bind, wp_get. rewrite Hst, bool_decide_true by done. cbn [negb].
    apply wp_bind, wp_get. rewrite fifo_write_remaining_spec by done. fold free.
    destruct (Z.eqb_spec free 0); [lia |]. apply wp_bind.
    eapply wp_mono; [apply queue_wp; [done | done | done | by right] |].
    intros n1 s1 (-> & Hi1 & Hbl & Hct). fold free in Hct |- *. apply wp_bind.
    eapply wp_mono; [by apply attempt_send_wp |]. intros [] s2 (Hi2 & Hsb).
    assert (Hs32 : s32 (Z.min len free) = Z.min len free) by (unfold s32; zlia).
    rewrite Hs32. apply wp_bind, wp_when; intros _; [apply wp_put |]; apply wp_ret;
      (split_and!; [done | | cbn; by rewrite Hsb]); [| done].
    destruct Hi2 as [Hq Hm]. split; [eapply queue_inv_ext; [| exact Hq]; done | exact Hm].
Qed.

End send.

(** Three octets sent and two queued satisfy the invariant. *)
Lemma sample_sender_inv : send_inv (sample_sender PSEUDO_TCP_ESTABLISHED 50 [1; 2; 3] [4; 5]).
Proof.
  split; [split | by vm_compute].
  - by apply sample_fifo_ok, (bool_decide_unpack _).
  - by vm_compute.
  - by vm_compute.
  - by apply (bool_decide_unpack _).
  - intros id Hid. cbn in Hid |- *. rewrite !elem_of_cons, elem_of_nil in Hid. lia.
  - exists [0%nat]. split; [done |]. intros id ->%list_elem_of_singleton. eexists.
    split; [reflexivity | done].
  - intros id ->%list_elem_of_singleton. eexists. split_and!; [reflexivity | done |].
    split; [by vm_compute |]. exists 3. split_and!; by vm_compute.
Qed.

Lemma attempt_send_terminates_witness :
  ∃ s', @attempt_send (sample_env WR_TOO_LARGE) sfFin
          (sample_sender PSEUDO_TCP_ESTABLISHED 50 [1; 2; 3] [4; 5]) = Done (tt, s') ∧
    send_inv s' ∧ contents (sbuf s') = [1; 2; 3; 4; 5].
Proof.
  destruct (@attempt_send_terminates (sample_env WR_TOO_LARGE)
    (sample_sender PSEUDO_TCP_ESTABLISHED 50 [1; 2; 3] [4; 5]) sfFin sample_sender_inv)
    as (s' & E & Hi & Hb).
  exists s'. split_and!; [exact E | exact Hi | by rewrite Hb].
Defined.

Lemma send_accepts_what_fits_witness :
  ∃ s', @pseudo_tcp_socket_send (sample_env WR_SUCCESS) [6; 7] 2
          (sample_sender PSEUDO_TCP_ESTABLISHED 50 [1; 2; 3] [4; 5]) = Done (2, s') ∧
    send_inv s' ∧ contents (sbuf s') = [1; 2; 3; 4; 5; 6; 7].
Proof.
  apply (@send_accepts_what_fits (sample_env WR_SUCCESS)
    (sample_sender PSEUDO_TCP_ESTABLISHED 50 [1; 2; 3] [4; 5]) [6; 7] 2).
  - exact sample_sender_inv.
  - reflexivity.
  - by vm_compute.
  - by vm_compute.
  - by vm_compute.
Defined.
