(* ===== verification/PseudoTcpHazards.v ===== *)
(** * Pseudo-TCP: what a peer or the path can provoke

    The segment size that follows from an MTU notice, and the inputs that
    take the socket outside its contract: acknowledgements of a repeated FIN,
    oversized window scales, a FIN believed too early, and MTUs no larger than
    the packet overhead. *)

From stdpp Require Import gmap.
From S2P Require Import Prelude Bytes StateMonad PseudoTcpFifo PseudoTcp.
From S2P Require Import PseudoTcpWire PseudoTcpStates PseudoTcpSend.

#[global] Open Scope Z_scope.

Section hazards.
Context `{Env}.

(** ** MTU notices *)

Lemma adjustMTU_loop_wp fuel : ∀ s,
  0 ≤ msslevel s ≤ 9 → 9 - msslevel s < Z.of_nat fuel →
  wp (adjustMTU_loop fuel) (λ _ s', s' = s <| msslevel := msslevel s' |> ∧ 0 ≤ msslevel s' ≤ 9) s.
Proof.
  induction fuel as [| fuel IH]; intros s Hl Hf; [lia |].
  cbn [adjustMTU_loop]. apply wp_bind, wp_get, wp_bind.
  destruct (packet_maximum_next (msslevel s)) as (v & Hv & Hvr); [done |].
  eapply wp_lift; [exact Hv |]. rewrite Z.gtb_ltb. destruct (Z.ltb_spec 0 v) as [Hpos | Hneg].
  - apply wp_bind. destruct (getb_in PACKET_MAXIMUMS (msslevel s)) as (x & Hx & _).
    { change (zlen PACKET_MAXIMUMS) with 11. lia. }
    eapply wp_lift; [exact Hx |]. apply wp_bind, wp_get.
    destruct (x <=? mtu_advise s); [apply wp_ret; by destruct s |].
    rewrite u32_small by (unfold is_u32; lia). apply wp_bind, wp_put.
    eapply wp_mono; [apply IH; cbn; lia |]. intros _ s' (E & ?). by split.
  - apply wp_ret. by destruct s.
Qed.

Lemma adjustMTU_wp s :
  wp adjustMTU (λ _ s', mss s' = u32 (mtu_advise s - PACKET_OVERHEAD) ∧ 0 ≤ msslevel s' ≤ 9 ∧
    qview s' = qview s ∧ state s' = state s) s.
Proof.
  unfold adjustMTU. apply wp_bind, wp_put, wp_bind. eapply wp_mono.
  { apply adjustMTU_loop_wp; cbn; lia. }
  intros _ s1 (E & Hl). set (l := msslevel s1) in *. clearbody l. subst s1.
  apply wp_bind, wp_get, wp_bind, wp_put, wp_bind, wp_get, wp_bind, wp_upd, wp_upd.
  split_and!; try reflexivity; apply Hl.
Qed.

(** The segment size after an MTU notice: on an open connection
    [pseudo_tcp_socket_notify_mtu] returns for every 16-bit MTU, leaves the
    segment queues alone, keeps the level inside the table of MTUs, and yields
    a segment size a packet can carry exactly when the MTU exceeds the 116
    octets of overhead. *)
Theorem notify_mtu_segment_size s mtu :
  state s = PSEUDO_TCP_ESTABLISHED → 0 ≤ mtu < 2 ^ 16 →
  ∃ s', pseudo_tcp_socket_notify_mtu mtu s = Done (tt, s') ∧
    qview s' = qview s ∧ 0 ≤ msslevel s' ≤ 9 ∧
    mss s' = u32 (mtu - 116) ∧ (mss_inv s' ↔ 116 < mtu).
Proof.
  intros Hs Hm. enough (wp (pseudo_tcp_socket_notify_mtu mtu) (λ _ s', qview s' = qview s ∧
    0 ≤ msslevel s' ≤ 9 ∧ mss s' = u32 (mtu - 116)) s) as W.
  { apply wp_done in W as ([] & s' & E & E1 & E2 & E3). exists s'. refine (conj E (conj E1 (conj E2 (conj E3 _)))).
    unfold mss_inv, MAX_PACKET, HEADER_SIZE. rewrite E3. unfold u32. split; intros Hx; zlia. }
  unfold pseudo_tcp_socket_notify_mtu, state_is.
  apply wp_bind, wp_put, wp_bind, wp_bind, wp_get, wp_ret. cbn [state set_field].
  change (state (s <| mtu_advise := mtu |>)) with (state s). rewrite Hs.
  rewrite bool_decide_true by done. cbn [when].
  eapply wp_mono; [apply adjustMTU_wp |]. by intros _ s' (E1 & E2 & E3 & _).
Qed.

(** ** Acknowledgements and FIN *)

(** A window scale of 32 or more makes the next acknowledgement undefined. *)
Theorem oversized_window_scale_undefined s seg now :
  32 ≤ swnd_scale s → seg_ack seg = snd_una s → process_ack seg now s = Ub.
Proof.
  intros Hsc Ha. unfold process_ack. st_run. rewrite Ha, Z.eqb_refl.
  destruct (modular_order (snd_una s) (snd_una s)) as (E & _); [lia |].
  assert (LARGER (snd_una s) (snd_una s) = false) as ->.
  { unfold LARGER. by replace (snd_una s - snd_una s - 1) with (-1) by lia. }
  cbn [andb]. unfold duplicate_ack. st_run. unfold shl_int.
  destruct (Z.ltb_spec (swnd_scale s) 32); [lia |]. done.
Qed.

Lemma process_fin_established s seg b :
  state s = PSEUDO_TCP_ESTABLISHED → support_fin_ack s = true →
  flag (seg_flags seg) FLAG_FIN = false → rcv_nxt s ≠ 0 →
  u32 (rcv_nxt s + seg_len seg) = rcv_fin s →
  process_fin seg b s = Done (Some true, s <| state := PSEUDO_TCP_CLOSE_WAIT |>).
Proof.
  intros Hst Hf Hfl Hn Heq. unfold process_fin. rewrite bind_get, Hf, Hfl. cbn [when andb].
  rewrite bind_ret. rewrite !bind_get, Hst. apply Z.eqb_neq in Hn. rewrite Hn, Heq, Z.eqb_refl.
  cbn [negb andb when]. erewrite bind_run; [reflexivity |].
  apply set_state_run. by rewrite Hst; right.
Qed.

(** A FIN is believed before the data that precedes it: [missing] octets
    before an early FIN are still to come when any segment of as many octets,
    wherever it lies, moves the connection to CLOSE-WAIT. *)
Theorem fin_taken_before_missing_data s seg missing :
  state s = PSEUDO_TCP_ESTABLISHED → support_fin_ack s = true → rcv_nxt s ≠ 0 →
  0 < missing → rcv_fin s = u32 (rcv_nxt s + missing) →
  seg_len seg = missing → flag (seg_flags seg) FLAG_FIN = false →
  process_fin seg false s = Done (Some true, s <| state := PSEUDO_TCP_CLOSE_WAIT |>).
Proof. intros. apply process_fin_established; [done.. |]. congruence. Qed.

(** A stream whose data ends at sequence number 2^32 is closed although no FIN
    was received: 0 stands for no FIN. *)
Theorem wraparound_taken_for_fin s seg :
  state s = PSEUDO_TCP_ESTABLISHED → support_fin_ack s = true → rcv_fin s = 0 →
  rcv_nxt s ≠ 0 → rcv_nxt s + seg_len seg = 2 ^ 32 → flag (seg_flags seg) FLAG_FIN = false →
  process_fin seg false s = Done (Some true, s <| state := PSEUDO_TCP_CLOSE_WAIT |>).
Proof. intros ? ? Hf ? Hw ?. apply process_fin_established; [done.. |]. by rewrite Hw, Hf. Qed.

End hazards.

Lemma notify_mtu_segment_size_witness :
  let s := sample_socket PSEUDO_TCP_ESTABLISHED [] 0 0 in
  ∃ s', pseudo_tcp_socket_notify_mtu 1400 s = Done (tt, s') ∧
    qview s' = qview s ∧ 0 ≤ msslevel s' ≤ 9 ∧ mss s' = 1284 ∧ (mss_inv s' ↔ 116 < 1400).
Proof.
  cbv zeta. apply (notify_mtu_segment_size (sample_socket PSEUDO_TCP_ESTABLISHED [] 0 0) 1400);
    [reflexivity | lia].
Defined.

(** ** A repeated FIN *)

(** The acknowledgement of the octet [ack], with nothing else. *)
Definition bare_ack (ack : Z) : bytes := packet_header 7 101 ack 0 64 1000 0.

(** A peer can abort the process once a FIN has been repeated: a
    connection the peer has closed is closed locally; every clock notice in
    LAST-ACK sends another FIN and takes another sequence number for it; and
    an acknowledgement of the second one, which is within what was sent, fails
    the assertion of [pseudo_tcp_fifo_consume_read_data], since only one octet
    beyond the buffer is taken for a FIN. *)
Theorem repeated_fin_ack_aborts :
  let env := sample_env WR_SUCCESS in
  let s0 := sample_socket PSEUDO_TCP_CLOSE_WAIT [] 101 50 in
  match pseudo_tcp_socket_close false s0 with
  | Done (_, s1) =>
      state s1 = PSEUDO_TCP_LAST_ACK ∧ snd_nxt s1 = 51 ∧
      match pseudo_tcp_socket_notify_clock s1 with
      | Done (_, s2) =>
          state s2 = PSEUDO_TCP_LAST_ACK ∧ snd_una s2 = 50 ∧ snd_nxt s2 = 52 ∧
          is_done (pseudo_tcp_socket_notify_packet (bare_ack 51) HEADER_SIZE s2) ∧
          pseudo_tcp_socket_notify_packet (bare_ack 52) HEADER_SIZE s2 = Ub
      | _ => False
      end
  | _ => False
  end.
Proof. vm_compute. split_and!; try reflexivity. by eexists. Qed.

(** ** A segment size of zero *)

Section zero_mss.
Context `{Env}.

(** What the loop of [attempt_send] keeps when the segment size is 0. *)
Definition stuck (s : PseudoTcpSocket) : Prop :=
  queue_inv s ∧ mss s = 0 ∧
  ∃ id rest g, unsent_slist s = id :: rest ∧ ssegs s !! id = Some g ∧ 0 < sseg_len g.

Lemma stuck_transmit s id rest now :
  stuck s → unsent_slist s = id :: rest →
  wp (transmit id now) (λ r s', r = 0 ∧ stuck s') s.
Proof.
  intros (Hq & Hm & id' & rest' & g & Hu' & Hg & Hl) Hu. rewrite Hu in Hu'. injection Hu' as <- <-.
  destruct (qi_unsent _ Hq id) as (g' & Hg' & Hx & Hb); [rewrite Hu; apply list_elem_of_here |].
  rewrite Hg in Hg'. injection Hg' as <-.
  pose proof (fo_dl _ (qi_fifo _ Hq)). pose proof (qi_cap _ Hq).
  unfold transmit. apply wp_bind. eapply wp_intro; [unfold sseg_get; by rewrite Hg |].
  apply wp_bind, wp_get, wp_bind. unfold state_is. apply wp_bind, wp_get, wp_ret. rewrite Hx, Hm.
  assert (((if bool_decide (state s = PSEUDO_TCP_ESTABLISHED) then 15 else 30) <=? 0) = false) as ->
    by (by case_bool_decide).
  rewrite Z.min_r by lia. apply wp_bind. cbn [length PACKET_MAXIMUMS transmit_loop].
  apply wp_bind. eapply wp_intro; [unfold sseg_get; by rewrite Hg |].
  destruct (in_buffer_offset _ _ _ Hb) as (off & Hoff & Ho1 & Ho2); [lia |].
  apply wp_bind, wp_get, wp_bind. rewrite Hoff. apply wp_assert; [apply Z.leb_le; lia |].
  apply wp_bind. pose proof (packet_spec s (sseg_seq g) (u8 (sseg_flags g)) off 0 now (qi_fifo _ Hq)
    (qi_scale _ Hq) ltac:(lia) ltac:(unfold MAX_PACKET; lia) Ho1 ltac:(by left)) as E.
  cbv zeta in E. rewrite andb_false_r in E. cbn [Z.ltb Z.compare] in E.
  eapply wp_intro; [exact E |]. apply wp_ret. clear E.
  lazymatch goal with |- wp _ _ ?x => set (s1 := x) | |- _ _ ?x => set (s1 := x) end. cbv beta iota.
  assert (Hq1 : queue_inv s1) by (by eapply queue_inv_ext; [| exact Hq]).
  apply wp_bind. eapply (wp_intro _ _ _ g s1); [unfold sseg_get; change (ssegs s1) with (ssegs s); by rewrite Hg |].
  destruct (queue_inv_break s1 id rest g 0 Hq1 Hu Hg) as (B1 & B2 & B3 & B4); [lia |].
  cbv zeta in B1, B2, B3, B4. apply Z.ltb_lt in Hl. rewrite Hl, Hx. cbn [when Z.eqb].
  apply wp_bind, wp_bind, wp_bind, wp_get, wp_bind, wp_put, wp_bind, wp_upd, wp_ret, wp_bind, wp_upd,
    wp_bind, wp_upd, wp_upd.
  match type of B1 with queue_inv ?x => set (s2 := x) in * end.
  match goal with |- wp ?m ?Q _ => change (wp m Q s2) end.
  eapply wp_mono; [eapply (transmit_pop_wp s2 id _ _ now); [exact B1 | exact B2 | exact B3 | exact Hx] |].
  intros r s' (C1 & C2 & C3 & -> & C5 & C6 & C7 & C8). split; [done |].
  split_and!; [done | by rewrite C5 |]. eexists _, rest, _. split_and!; [exact C7 | |].
  - rewrite C8.
    + change (ssegs s2) with (<[id := g <| sseg_len := 0 |>]> (<[next_sseg s1 :=
        {| sseg_seq := u32 (sseg_seq g + 0); sseg_len := u32 (sseg_len g - 0); sseg_xmit := 0;
           sseg_flags := sseg_flags g |}]> (ssegs s))).
      rewrite lookup_insert_ne; [apply lookup_insert_eq |]. intros E.
      assert (id < next_sseg s1)%nat by (apply (qi_fresh _ Hq1); change (slist s1) with (slist s);
        destruct (qi_split _ Hq) as (sent & -> & _); rewrite Hu; set_solver). lia.
    + intros E. assert (id < next_sseg s1)%nat by (apply (qi_fresh _ Hq1); change (slist s1) with (slist s);
        destruct (qi_split _ Hq) as (sent & -> & _); rewrite Hu; set_solver). lia.
  - apply Z.ltb_lt in Hl. cbn. rewrite u32_small by (unfold is_u32; lia). lia.
Qed.

(** With a segment size of 0 and data to send, the loop that flushes the data
    before a FIN or a RST never ends: every round sends an empty segment. *)
Theorem zero_mss_send_diverges fuel s now :
  stuck s → attempt_send_loop fuel sfFin now s = Oof.
Proof.
  revert s. induction fuel as [| fuel IH]; intros s Hs; [done |].
  pose proof Hs as (Hq & Hm & id & rest & g & Hu & Hg & Hl).
  destruct (wp_done _ _ _ (stuck_transmit s id rest now Hs Hu)) as (r & s' & E & -> & Hs').
  cbn [attempt_send_loop]. rewrite bind_get. destruct (window_available s) as [w n].
  rewrite decide_False by done. rewrite (bool_decide_true (sfFin = sfFin)) by done.
  cbn [orb negb]. rewrite andb_false_r, !bind_get, andb_false_r. cbn [andb].
  rewrite bind_get, Hu.
  erewrite bind_run by (unfold sseg_get; by rewrite Hg). rewrite andb_false_r. cbn [when].
  rewrite bind_ret, (bind_run _ _ _ _ _ E). cbn [Z.eqb negb]. rewrite !bool_decide_false by done.
  by apply IH.
Qed.

End zero_mss.
