(* ===== verification/NiceAddress.v ===== *)
(** * Transport addresses (agent/address.c)

    [NiceAddress] is a union of [struct sockaddr], [struct sockaddr_in] and
    [struct sockaddr_in6].  Its 28 octets are kept as the fields of the largest
    view, in the order of memory: the family, the port (both views), the word at
    offset 4 ([sin_addr.s_addr] or [sin6_flowinfo]), the 16 octets at offset 8
    ([sin6_addr], whose first eight are [sin_zero]) and [sin6_scope_id].  Ports
    and words are in network byte order.  The resolver of the C library
    ([inet_ntop], [getaddrinfo]) is a parameter. *)

From S2P Require Import Prelude Bytes StunMessage.

Definition AF_UNSPEC : Z := 0.
Definition AF_INET : Z := 2.
Definition AF_INET6 : Z := 10.

Record NiceAddress := {
  sa_family : Z;
  sa_port : Z;
  sa_word : Z;
  s6_addr : bytes;
  sin6_scope_id : Z
}.
#[export] Instance NiceAddress_eq_dec : EqDecision NiceAddress.
Proof. solve_decision. Defined.

Definition eta_NiceAddress (a : NiceAddress) : NiceAddress :=
  Build_NiceAddress (sa_family a) (sa_port a) (sa_word a) (s6_addr a) (sin6_scope_id a).
#[export] Instance set_sa_family : Setter sa_family := ltac:(derive_setter eta_NiceAddress sa_family).
#[export] Instance set_sa_port : Setter sa_port := ltac:(derive_setter eta_NiceAddress sa_port).
#[export] Instance set_sa_word : Setter sa_word := ltac:(derive_setter eta_NiceAddress sa_word).
#[export] Instance set_s6_addr : Setter s6_addr := ltac:(derive_setter eta_NiceAddress s6_addr).
#[export] Instance set_sin6_scope_id : Setter sin6_scope_id :=
  ltac:(derive_setter eta_NiceAddress sin6_scope_id).

Record address_ok (a : NiceAddress) : Prop := {
  ok_port : is_u16 (sa_port a);
  ok_word : is_u32 (sa_word a);
  ok_addr6 : bytes_ok (s6_addr a);
  ok_addr6_len : zlen (s6_addr a) = 16;
  ok_scope : is_u32 (sin6_scope_id a)
}.

Definition nice_address_init (addr : NiceAddress) : NiceAddress :=
  Build_NiceAddress AF_UNSPEC 0 0 (repeat 0 16) 0.

Definition nice_address_set_ipv4 (addr : NiceAddress) (addr_ipv4 : Z) : NiceAddress :=
  addr <| sa_family := AF_INET |>
       <| sa_word := if addr_ipv4 =? 0 then 0 else htonl addr_ipv4 |>
       <| sa_port := 0 |>.

(** [sin6_flowinfo] keeps the octets that were there. *)
Definition nice_address_set_ipv6 (addr : NiceAddress) (addr_ipv6 : bytes) : NiceAddress :=
  addr <| sa_family := AF_INET6 |> <| s6_addr := addr_ipv6 |> <| sa_port := 0 |>
       <| sin6_scope_id := 0 |>.

Definition nice_address_set_port (addr : NiceAddress) (port : Z) : NiceAddress :=
  if (sa_family addr =? AF_INET) || (sa_family addr =? AF_INET6)
  then addr <| sa_port := htons port |> else addr.

(** [ntohs] is [htons]. *)
Definition nice_address_get_port (addr : NiceAddress) : Z :=
  if (sa_family addr =? AF_INET) || (sa_family addr =? AF_INET6)
  then htons (sa_port addr) else 0.

(** [memcpy] of [sizeof (struct sockaddr_in)] = 16 octets. *)
Definition copy_in (dst src : NiceAddress) : NiceAddress :=
  dst <| sa_family := sa_family src |> <| sa_port := sa_port src |> <| sa_word := sa_word src |>
      <| s6_addr := take 8 (s6_addr src) ++ drop 8 (s6_addr dst) |>.

Definition nice_address_set_from_sockaddr (addr sa : NiceAddress) : NiceAddress :=
  if sa_family sa =? AF_INET then copy_in addr sa
  else if sa_family sa =? AF_INET6 then sa
  else addr.

Definition nice_address_copy_to_sockaddr (addr sa : NiceAddress) : NiceAddress :=
  if sa_family addr =? AF_INET then copy_in sa addr
  else if sa_family addr =? AF_INET6 then addr
  else sa.

(** The socket address the STUN layer hands over or receives, with
    [sin_zero] cleared. *)
Definition of_storage (s : sockaddr_storage) : NiceAddress :=
  match s with
  | sockaddr_in port a => Build_NiceAddress AF_INET port a (repeat 0 16) 0
  | sockaddr_in6 port flow a scope => Build_NiceAddress AF_INET6 port flow a scope
  | sockaddr_other f => Build_NiceAddress f 0 0 (repeat 0 16) 0
  end.
Definition to_storage (a : NiceAddress) : sockaddr_storage :=
  if sa_family a =? AF_INET then sockaddr_in (sa_port a) (sa_word a)
  else if sa_family a =? AF_INET6
  then sockaddr_in6 (sa_port a) (sa_word a) (s6_addr a) (sin6_scope_id a)
  else sockaddr_other (sa_family a).

Definition IN6_ARE_ADDR_EQUAL (a b : bytes) : bool := bool_decide (a = b).

Definition scopes_match (a b : NiceAddress) : bool :=
  (sin6_scope_id a =? 0) || (sin6_scope_id b =? 0) || (sin6_scope_id a =? sin6_scope_id b).

Definition nice_address_equal (a b : NiceAddress) : bool :=
  if negb (sa_family a =? sa_family b) then false
  else if sa_family a =? AF_INET then (sa_word a =? sa_word b) && (sa_port a =? sa_port b)
  else if sa_family a =? AF_INET6 then
    IN6_ARE_ADDR_EQUAL (s6_addr a) (s6_addr b) && (sa_port a =? sa_port b) && scopes_match a b
  else false.

Definition nice_address_equal_no_port (a b : NiceAddress) : bool :=
  if negb (sa_family a =? sa_family b) then false
  else if sa_family a =? AF_INET then sa_word a =? sa_word b
  else if sa_family a =? AF_INET6 then
    IN6_ARE_ADDR_EQUAL (s6_addr a) (s6_addr b) && scopes_match a b
  else false.

Definition ipv4_address_is_private (addr : Z) : bool :=
  let addr := htonl addr in
  (Z.land addr 0xff000000 =? 0x0a000000) || (Z.land addr 0xfff00000 =? 0xac100000) ||
  (Z.land addr 0xffff0000 =? 0xc0a80000) || (Z.land addr 0xff000000 =? 0x7f000000).

Definition ipv6_address_is_private (addr : bytes) : outcome bool :=
  a0 ← getb addr 0; a1 ← getb addr 1;
  mret (((a0 =? 0xfe) && (Z.land a1 0xc0 =? 0x80)) || (Z.land a0 0xfe =? 0xfc) ||
        bool_decide (addr = repeat 0 15 ++ [1])).

Definition nice_address_is_private (a : NiceAddress) : outcome bool :=
  if sa_family a =? AF_INET then mret (ipv4_address_is_private (sa_word a))
  else if sa_family a =? AF_INET6 then ipv6_address_is_private (s6_addr a)
  else mret false.

Definition nice_address_is_valid (a : NiceAddress) : bool :=
  (sa_family a =? AF_INET) || (sa_family a =? AF_INET6).

Definition nice_address_ip_version (addr : NiceAddress) : Z :=
  if sa_family addr =? AF_INET then 4 else if sa_family addr =? AF_INET6 then 6 else 0.

(** Numeric forms of addresses, by the C library.  [getaddrinfo] with
    [AI_NUMERICHOST] is [None] for a string that is no numeric address. *)
Class Resolver := {
  inet_ntop : Z → bytes → bytes;
  getaddrinfo : bytes → option NiceAddress
}.

Section resolver.
Context {resolver : Resolver}.

Definition nice_address_set_from_string (addr : NiceAddress) (str : bytes) : NiceAddress * bool :=
  match getaddrinfo str with
  | None => (addr, false)
  | Some ai => (nice_address_set_from_sockaddr addr ai, true)
  end.

(** [None]: nothing is written to the caller's buffer. *)
Definition nice_address_to_string (addr : NiceAddress) : option bytes :=
  if sa_family addr =? AF_INET then Some (inet_ntop AF_INET (le 4 (sa_word addr)))
  else if sa_family addr =? AF_INET6 then Some (inet_ntop AF_INET6 (s6_addr addr))
  else None.
End resolver.

(** ** Facts *)

(** A property of octets, by trying all of them. *)
Lemma u8_forall (P : Z → bool) :
  forallb P (map Z.of_nat (seq 0 256)) = true → ∀ x, is_u8 x → P x = true.
Proof.
  intros H x Hx. unfold is_u8 in Hx. rewrite forallb_forall in H. apply H, in_map_iff.
  exists (Z.to_nat x). rewrite in_seq. lia.
Qed.

Lemma land_block (m v n : Z) :
  0 ≤ n ≤ 32 → m = 2 ^ 32 - 2 ^ n → is_u32 v → Z.land v m = 2 ^ n * (v / 2 ^ n).
Proof.
  intros Hn -> Hv. unfold is_u32 in Hv.
  replace (2 ^ 32 - 2 ^ n) with (Z.shiftl (Z.ones (32 - n)) n).
  - replace (Z.land v (Z.shiftl (Z.ones (32 - n)) n))
      with (Z.shiftl (Z.land (Z.shiftr v n) (Z.ones (32 - n))) n).
    + rewrite Z.land_ones, Z.shiftl_mul_pow2, Z.shiftr_div_pow2 by lia.
      rewrite Z.mod_small; [lia |]. split; [apply Z.div_pos; lia |]. apply Z.div_lt_upper_bound; [lia |].
      rewrite <- Z.pow_add_r by lia. replace (n + (32 - n)) with 32 by lia. lia.
    + apply Z.bits_inj'; intros i Hi. rewrite !Z.land_spec, !Z.shiftl_spec by done.
      destruct (Z.ltb_spec i n).
      * rewrite (Z.testbit_neg_r _ (i - n)), (Z.testbit_neg_r (Z.ones _)) by lia. by rewrite andb_false_r.
      * rewrite Z.land_spec, Z.shiftr_spec by lia. by replace (i - n + n) with i by lia.
  - rewrite Z.shiftl_mul_pow2, Z.ones_equiv by lia.
    rewrite <- Z.sub_1_r, Z.mul_sub_distr_r, Z.mul_1_l, <- Z.pow_add_r by lia.
    by replace (32 - n + n) with 32 by lia.
Qed.

(** An address block given by a mask, as a range. *)
Lemma in_block v m n base :
  0 ≤ n ≤ 32 → m = 2 ^ 32 - 2 ^ n → is_u32 v → base mod 2 ^ n = 0 →
  Z.land v m = base ↔ base ≤ v < base + 2 ^ n.
Proof.
  intros Hn Hm Hv Hb. rewrite (land_block m v n) by done.
  pose proof (Z.pow_pos_nonneg 2 n ltac:(lia) ltac:(lia)) as Hp.
  apply Z.div_exact in Hb; [| lia]. pose proof (Z.div_mod v (2 ^ n) ltac:(lia)) as Hd.
  pose proof (Z.mod_pos_bound v (2 ^ n) Hp). rewrite Hb. split; [intros E | intros [H1 H2]].
  - lia.
  - enough (v / 2 ^ n = base / 2 ^ n) as -> by done.
    symmetry. apply (Z.div_unique_pos v (2 ^ n) _ (v - 2 ^ n * (base / 2 ^ n))); lia.
Qed.

Lemma set_ipv4_word addr v : is_u32 v → sa_word (nice_address_set_ipv4 addr v) = htonl v.
Proof. intros H. cbn. destruct (Z.eqb_spec v 0) as [-> |]; [by vm_compute | done]. Qed.

Lemma ipv4_private_ranges v : is_u32 v →
  ipv4_address_is_private (htonl v) = true ↔
    0x0a000000 ≤ v < 0x0b000000 ∨ 0xac100000 ≤ v < 0xac200000 ∨
    0xc0a80000 ≤ v < 0xc0a90000 ∨ 0x7f000000 ≤ v < 0x80000000.
Proof.
  intros Hv. unfold ipv4_address_is_private. rewrite htonl_involutive by done.
  rewrite !orb_true_iff, !Z.eqb_eq,
    (in_block v 0xff000000 24 0x0a000000), (in_block v 0xfff00000 20 0xac100000),
    (in_block v 0xffff0000 16 0xc0a80000), (in_block v 0xff000000 24 0x7f000000); try done.
  cbn. tauto.
Qed.

Lemma ula_octet x : is_u8 x → (Z.land x 0xfe =? 0xfc) = ((0xfc <=? x) && (x <? 0xfe)).
Proof.
  intros Hx. apply eqb_prop.
  by apply (u8_forall (λ x, eqb (Z.land x 0xfe =? 0xfc) ((0xfc <=? x) && (x <? 0xfe)))).
Qed.
Lemma link_local_octet x : is_u8 x → (Z.land x 0xc0 =? 0x80) = ((0x80 <=? x) && (x <? 0xc0)).
Proof.
  intros Hx. apply eqb_prop.
  by apply (u8_forall (λ x, eqb (Z.land x 0xc0 =? 0x80) ((0x80 <=? x) && (x <? 0xc0)))).
Qed.

Lemma of_be_cons b m : of_be (b :: m) = 2 ^ (8 * zlen m) * b + of_be m.
Proof. change (b :: m) with ([b] ++ m). rewrite of_be_app. unfold of_be at 1. cbn. lia. Qed.

Lemma of_be_eq_iff m1 m2 :
  bytes_ok m1 → bytes_ok m2 → length m1 = length m2 → m1 = m2 ↔ of_be m1 = of_be m2.
Proof.
  intros H1 H2 Hl. split; [by intros -> |]. intros E.
  rewrite <- (be_of_be m1), <- (be_of_be m2) by done. by rewrite Hl, E.
Qed.

(** The ranges of [ipv6_address_is_private]: fe80::/10, fc00::/7 and ::1. *)
Lemma ipv6_private_ranges a : bytes_ok a → zlen a = 16 →
  ∃ b, ipv6_address_is_private a = Done b ∧
  (b = true ↔ 0xfe80 * 2 ^ 112 ≤ of_be a < 0xfec0 * 2 ^ 112 ∨
              0xfc00 * 2 ^ 112 ≤ of_be a < 0xfe00 * 2 ^ 112 ∨ of_be a = 1).
Proof.
  intros Ha Hl. destruct a as [| a0 [| a1 r]]; [done | rewrite zlen_cons in Hl; done |].
  unfold ipv6_address_is_private. rewrite getb_0, bind_Done, (getb_app [a0] a1 r) by done.
  rewrite bind_Done. eexists; split; [done |].
  pose proof (proj1 (Forall_cons _ _ _) Ha) as [H0 [H1 Hr]%Forall_cons].
  rewrite !zlen_cons in Hl. pose proof (of_be_range r Hr) as Hrr.
  rewrite ula_octet, link_local_octet, !orb_true_iff, !andb_true_iff, bool_decide_eq_true by done.
  rewrite (of_be_eq_iff (a0 :: a1 :: r)) by (first [done | by_compute | unfold zlen in Hl; cbn; lia]).
  change (of_be (repeat 0 15 ++ [1])) with 1.
  rewrite !of_be_cons, zlen_cons. replace (zlen r) with 14 in * by lia.
  unfold is_u8 in *. rewrite !Z.leb_le, !Z.ltb_lt, Z.eqb_eq. lia.
Qed.

(** [nice_address_is_private] decides the address blocks it documents: for an
    IPv4 address set from a 32-bit host-order value, 10.0.0.0/8, 172.16.0.0/12,
    192.168.0.0/16 and 127.0.0.0/8; for an IPv6 address, fe80::/10, fc00::/7 and
    ::1, the address read as a 128-bit number; a port does not matter. *)
Theorem private_ranges (a : NiceAddress) (v port : Z) (b6 : bytes)
    (Hv : is_u32 v) (H6 : bytes_ok b6) (Hl : zlen b6 = 16) :
  (∃ p, nice_address_is_private (nice_address_set_port (nice_address_set_ipv4 a v) port) = Done p ∧
    (p = true ↔ 0x0a000000 ≤ v < 0x0b000000 ∨ 0xac100000 ≤ v < 0xac200000 ∨
                0xc0a80000 ≤ v < 0xc0a90000 ∨ 0x7f000000 ≤ v < 0x80000000)) ∧
  (∃ p, nice_address_is_private (nice_address_set_port (nice_address_set_ipv6 a b6) port) = Done p ∧
    (p = true ↔ 0xfe80 * 2 ^ 112 ≤ of_be b6 < 0xfec0 * 2 ^ 112 ∨
                0xfc00 * 2 ^ 112 ≤ of_be b6 < 0xfe00 * 2 ^ 112 ∨ of_be b6 = 1)).
Proof.
  split.
  - eexists; split; [reflexivity |]. pose proof (set_ipv4_word a v Hv) as E. cbn in E |- *.
    rewrite E. by apply ipv4_private_ranges.
  - by apply (ipv6_private_ranges b6).
Qed.

(** ** Equality *)

(** What [nice_address_equal] looks at. *)
Lemma nice_address_equal_spec a b :
  nice_address_equal a b = true ↔
    sa_family a = sa_family b ∧ sa_port a = sa_port b ∧
    ((sa_family a = AF_INET ∧ sa_word a = sa_word b) ∨
     (sa_family a = AF_INET6 ∧ s6_addr a = s6_addr b ∧ scopes_match a b = true)).
Proof.
  unfold nice_address_equal, IN6_ARE_ADDR_EQUAL, AF_INET, AF_INET6.
  zcase; cbn [negb]; rewrite ?andb_true_iff, ?bool_decide_eq_true, ?Z.eqb_eq; try done;
    intuition (try done; try lia).
Qed.

Lemma scopes_match_sym a b : scopes_match a b = scopes_match b a.
Proof.
  unfold scopes_match. rewrite (Z.eqb_sym (sin6_scope_id b) (sin6_scope_id a)).
  by rewrite (orb_comm (sin6_scope_id b =? 0)).
Qed.
Lemma scopes_match_refl a : scopes_match a a = true.
Proof. unfold scopes_match. rewrite Z.eqb_refl. by rewrite orb_true_r. Qed.

Lemma nice_address_equal_sym a b : nice_address_equal a b = nice_address_equal b a.
Proof.
  apply eq_true_iff_eq. rewrite !nice_address_equal_spec, (scopes_match_sym b a).
  intuition congruence.
Qed.
Lemma nice_address_equal_refl a : nice_address_is_valid a = true → nice_address_equal a a = true.
Proof.
  unfold nice_address_is_valid. rewrite orb_true_iff, !Z.eqb_eq, nice_address_equal_spec.
  rewrite scopes_match_refl. tauto.
Qed.

Lemma nice_address_equal_trans a b c :
  sa_family b = AF_INET ∨ sin6_scope_id b ≠ 0 →
  nice_address_equal a b = true → nice_address_equal b c = true → nice_address_equal a c = true.
Proof.
  rewrite !nice_address_equal_spec. unfold scopes_match, AF_INET, AF_INET6.
  rewrite !orb_true_iff, !Z.eqb_eq. intuition (try congruence; try lia).
Qed.

Lemma nice_address_equal_no_port_spec a b :
  nice_address_equal a b = nice_address_equal_no_port a b && (sa_port a =? sa_port b).
Proof.
  unfold nice_address_equal, nice_address_equal_no_port.
  destruct (negb _); [done |]. destruct (_ =? AF_INET); [done |]. destruct (_ =? AF_INET6); [| done].
  destruct (IN6_ARE_ADDR_EQUAL _ _), (sa_port a =? _), (scopes_match _ _); done.
Qed.

Lemma htons_involutive v : is_u16 v → htons (htons v) = v.
Proof.
  intros H. rewrite <- (of_le_le2 v H) at 2. unfold htons at 1, be. rewrite le_htons. unfold be.
  by rewrite reverse_involutive.
Qed.

(** What two equal transport addresses are.  On valid addresses
    [nice_address_equal] is reflexive; it is symmetric; it is
    [nice_address_equal_no_port] and equality of the ports as
    [nice_address_get_port] returns them; and it is transitive through an IPv4
    address or an IPv6 address with a scope (a scope of 0 matches any other). *)
Theorem address_equality (a b c : NiceAddress) (Ha : address_ok a) (Hb : address_ok b)
    (Hva : nice_address_is_valid a = true) (Hvb : nice_address_is_valid b = true)
    (Hs : sa_family b = AF_INET ∨ sin6_scope_id b ≠ 0) :
  nice_address_equal a a = true ∧
  nice_address_equal a b = nice_address_equal b a ∧
  nice_address_equal a b =
    nice_address_equal_no_port a b && (nice_address_get_port a =? nice_address_get_port b) ∧
  (nice_address_equal a b = true → nice_address_equal b c = true → nice_address_equal a c = true).
Proof.
  split_and!.
  - by apply nice_address_equal_refl.
  - apply nice_address_equal_sym.
  - rewrite nice_address_equal_no_port_spec. f_equal. unfold nice_address_get_port.
    unfold nice_address_is_valid in *. rewrite Hva, Hvb.
    destruct (Z.eqb_spec (sa_port a) (sa_port b)) as [E | Hne]; [by rewrite E, Z.eqb_refl |].
    symmetry. apply Z.eqb_neq. intros E. apply Hne.
    rewrite <- (htons_involutive _ (ok_port a Ha)), <- (htons_involutive _ (ok_port b Hb)). by rewrite E.
  - by apply nice_address_equal_trans.
Qed.

Definition demo_v4 : NiceAddress :=
  nice_address_set_port (nice_address_set_ipv4 (nice_address_init (Build_NiceAddress 0 0 0 [] 0)) 0xc0a80001) 7000.
Definition demo_v6 (scope : Z) : NiceAddress :=
  (nice_address_set_port (nice_address_set_ipv6 (nice_address_init demo_v4)
    (0xfe :: 0x80 :: repeat 0 13 ++ [1])) 7000) <| sin6_scope_id := scope |>.

(** A scope of 0 makes the relation fail to be transitive. *)
Lemma address_equal_not_transitive :
  nice_address_equal (demo_v6 1) (demo_v6 0) = true ∧
  nice_address_equal (demo_v6 0) (demo_v6 2) = true ∧
  nice_address_equal (demo_v6 1) (demo_v6 2) = false.
Proof. by vm_compute. Qed.

Lemma address_equality_witness :
  nice_address_equal (demo_v6 0) (demo_v6 0) = true ∧
  (nice_address_equal (demo_v6 0) (demo_v6 3) = true →
   nice_address_equal (demo_v6 3) (demo_v6 3) = true →
   nice_address_equal (demo_v6 0) (demo_v6 3) = true).
Proof.
  destruct (address_equality (demo_v6 0) (demo_v6 3) (demo_v6 3)) as (H1 & _ & _ & H2);
    [split; by_compute | split; by_compute | reflexivity | reflexivity | by right |].
  split; [exact H1 | exact H2].
Defined.

Lemma private_ranges_witness :
  (∃ p, nice_address_is_private (nice_address_set_port (nice_address_set_ipv4 demo_v4 0xac1fffff) 5) = Done p ∧
    (p = true ↔ 0x0a000000 ≤ 0xac1fffff < 0x0b000000 ∨ 0xac100000 ≤ 0xac1fffff < 0xac200000 ∨
                0xc0a80000 ≤ 0xac1fffff < 0xc0a90000 ∨ 0x7f000000 ≤ 0xac1fffff < 0x80000000)).
Proof.
  apply (private_ranges demo_v4 0xac1fffff 5 (repeat 0 16)); [split; [discriminate | reflexivity] | by_compute | reflexivity].
Defined.

(** ** Exchange with the STUN layer *)

(** [nice_address_copy_to_sockaddr] followed by [nice_address_set_from_sockaddr]
    is the identity up to equality of transport addresses, whatever the two
    buffers held; so is the passage through the socket address of the STUN
    layer. *)
Lemma sockaddr_roundtrip (a sa b : NiceAddress) :
  nice_address_is_valid a = true →
  nice_address_equal (nice_address_set_from_sockaddr b (nice_address_copy_to_sockaddr a sa)) a = true ∧
  nice_address_equal (nice_address_set_from_sockaddr b (of_storage (to_storage a))) a = true.
Proof.
  unfold nice_address_is_valid, nice_address_set_from_sockaddr, nice_address_copy_to_sockaddr, to_storage.
  rewrite orb_true_iff, !Z.eqb_eq, !nice_address_equal_spec. unfold scopes_match, AF_INET, AF_INET6.
  intros [E | E]; rewrite E; cbn; rewrite ?Z.eqb_refl, ?orb_true_r; rewrite ?E; cbn;
    split; split_and!; try done; first [by left | right; by rewrite Z.eqb_refl, orb_true_r | by right].
Qed.
