(* ===== verification/NiceCandidate.v ===== *)
(** * Candidates and their priorities (agent/candidate.c)

    Candidates, the priority formulas of the compatibility modes and the
    priority of a pair of candidates.  The list of local addresses
    ([nice_interfaces_get_local_ips]) comes from the operating system and is a
    parameter.  [guint] and [guint32] arithmetic is modulo 2^32. *)

From S2P Require Import Prelude Bytes NiceAddress.

Inductive NiceCandidateType :=
| NICE_CANDIDATE_TYPE_HOST
| NICE_CANDIDATE_TYPE_SERVER_REFLEXIVE
| NICE_CANDIDATE_TYPE_PEER_REFLEXIVE
| NICE_CANDIDATE_TYPE_RELAYED.
#[export] Instance NiceCandidateType_eq_dec : EqDecision NiceCandidateType.
Proof. solve_decision. Defined.

Inductive NiceCandidateTransport :=
| NICE_CANDIDATE_TRANSPORT_UDP
| NICE_CANDIDATE_TRANSPORT_TCP_ACTIVE
| NICE_CANDIDATE_TRANSPORT_TCP_PASSIVE
| NICE_CANDIDATE_TRANSPORT_TCP_SO.
#[export] Instance NiceCandidateTransport_eq_dec : EqDecision NiceCandidateTransport.
Proof. solve_decision. Defined.

Inductive NiceRelayType :=
| NICE_RELAY_TYPE_TURN_UDP
| NICE_RELAY_TYPE_TURN_TCP
| NICE_RELAY_TYPE_TURN_TLS.
#[export] Instance NiceRelayType_eq_dec : EqDecision NiceRelayType.
Proof. solve_decision. Defined.

Record TurnServer := {
  turn_server : NiceAddress;
  turn_username : bytes;
  turn_password : bytes;
  turn_type : NiceRelayType
}.

(** C strings are kept without their terminating NUL; sockets are known by
    their address ([None] for [NULL]). *)
Record NiceCandidate := {
  type : NiceCandidateType;
  transport : NiceCandidateTransport;
  addr : NiceAddress;
  base_addr : NiceAddress;
  priority : Z;
  cand_stream_id : Z;
  cand_component_id : Z;
  foundation : bytes;
  username : option bytes;
  password : option bytes;
  turn : option TurnServer;
  sockptr : option Z
}.

Definition eta_NiceCandidate (c : NiceCandidate) : NiceCandidate :=
  Build_NiceCandidate (type c) (transport c) (addr c) (base_addr c) (priority c) (cand_stream_id c)
    (cand_component_id c) (foundation c) (username c) (password c) (turn c) (sockptr c).
#[export] Instance set_type : Setter type := ltac:(derive_setter eta_NiceCandidate type).
#[export] Instance set_transport : Setter transport := ltac:(derive_setter eta_NiceCandidate transport).
#[export] Instance set_addr : Setter addr := ltac:(derive_setter eta_NiceCandidate addr).
#[export] Instance set_base_addr : Setter base_addr := ltac:(derive_setter eta_NiceCandidate base_addr).
#[export] Instance set_priority : Setter priority := ltac:(derive_setter eta_NiceCandidate priority).
#[export] Instance set_cand_stream_id : Setter cand_stream_id :=
  ltac:(derive_setter eta_NiceCandidate cand_stream_id).
#[export] Instance set_cand_component_id : Setter cand_component_id :=
  ltac:(derive_setter eta_NiceCandidate cand_component_id).
#[export] Instance set_foundation : Setter foundation := ltac:(derive_setter eta_NiceCandidate foundation).
#[export] Instance set_username : Setter username := ltac:(derive_setter eta_NiceCandidate username).
#[export] Instance set_password : Setter password := ltac:(derive_setter eta_NiceCandidate password).
#[export] Instance set_turn : Setter turn := ltac:(derive_setter eta_NiceCandidate turn).
#[export] Instance set_sockptr : Setter sockptr := ltac:(derive_setter eta_NiceCandidate sockptr).

Definition zero_address : NiceAddress := Build_NiceAddress AF_UNSPEC 0 0 (repeat 0 16) 0.

Definition nice_candidate_new (t : NiceCandidateType) : NiceCandidate :=
  {| type := t; transport := NICE_CANDIDATE_TRANSPORT_UDP; addr := zero_address;
     base_addr := zero_address; priority := 0; cand_stream_id := 0; cand_component_id := 0;
     foundation := []; username := None; password := None; turn := None; sockptr := None |}.

Definition nice_candidate_jingle_priority (candidate : NiceCandidate) : Z :=
  match type candidate with
  | NICE_CANDIDATE_TYPE_HOST => 1000
  | NICE_CANDIDATE_TYPE_SERVER_REFLEXIVE => 900
  | NICE_CANDIDATE_TYPE_PEER_REFLEXIVE => 900
  | NICE_CANDIDATE_TYPE_RELAYED => 500
  end.

Definition nice_candidate_msn_priority (candidate : NiceCandidate) : Z :=
  match type candidate with
  | NICE_CANDIDATE_TYPE_HOST => 830
  | NICE_CANDIDATE_TYPE_SERVER_REFLEXIVE => 550
  | NICE_CANDIDATE_TYPE_PEER_REFLEXIVE => 550
  | NICE_CANDIDATE_TYPE_RELAYED => 450
  end.

Definition nice_candidate_ice_priority_full (type_preference local_preference component_id : Z) : Z :=
  u32 (0x1000000 * type_preference + 0x100 * local_preference + (0x100 - component_id)).

Definition nice_candidate_ice_local_preference_full (direction_preference other_preference : Z) : Z :=
  u32 (0x2000 * direction_preference + other_preference).

Definition nice_candidate_ms_ice_local_preference_full
    (transport_preference direction_preference other_preference : Z) : Z :=
  u32 (0x1000 * transport_preference + 0x200 * direction_preference + 0x1 * other_preference).

(** [nice_interfaces_get_local_ips (TRUE)]: the addresses of the interfaces. *)
Class Interfaces := { local_ips : list bytes }.

Section priorities.
Context {resolver : Resolver} {interfaces : Interfaces}.

(** The position of [ip] in the list, counted in a [guint8]. *)
Fixpoint ip_index (ip : bytes) (ips : list bytes) (preference : Z) : Z :=
  match ips with
  | [] => preference
  | i :: ips => if decide (ip = i) then preference else ip_index ip ips (u8 (preference + 1))
  end.

(** The text buffer is not initialised when the address has no text form. *)
Definition nice_candidate_ip_local_preference (candidate : NiceCandidate) : outcome Z :=
  match nice_address_to_string
    (if decide (type candidate = NICE_CANDIDATE_TYPE_HOST) then addr candidate
     else base_addr candidate) with
  | None => Ub
  | Some ip_string => mret (ip_index ip_string local_ips 0)
  end.

Definition host_or_srflx (candidate : NiceCandidate) : bool :=
  match type candidate with
  | NICE_CANDIDATE_TYPE_SERVER_REFLEXIVE | NICE_CANDIDATE_TYPE_HOST => true
  | _ => false
  end.

Definition nice_candidate_ice_local_preference (candidate : NiceCandidate) : outcome Z :=
  let full direction_preference :=
    other ← nice_candidate_ip_local_preference candidate;
    mret (u16 (nice_candidate_ice_local_preference_full direction_preference other)) in
  match transport candidate with
  | NICE_CANDIDATE_TRANSPORT_TCP_ACTIVE => full (if host_or_srflx candidate then 4 else 6)
  | NICE_CANDIDATE_TRANSPORT_TCP_PASSIVE => full (if host_or_srflx candidate then 2 else 4)
  | NICE_CANDIDATE_TRANSPORT_TCP_SO => full (if host_or_srflx candidate then 6 else 2)
  | NICE_CANDIDATE_TRANSPORT_UDP => mret 1
  end.

Definition NICE_CANDIDATE_TRANSPORT_MS_PREF_UDP : Z := 15.
Definition NICE_CANDIDATE_TRANSPORT_MS_PREF_TCP : Z := 6.
Definition NICE_CANDIDATE_DIRECTION_MS_PREF_PASSIVE : Z := 2.
Definition NICE_CANDIDATE_DIRECTION_MS_PREF_ACTIVE : Z := 5.

Definition nice_candidate_ms_ice_local_preference (candidate : NiceCandidate) : outcome Z :=
  let '(transport_preference, direction_preference) :=
    match transport candidate with
    | NICE_CANDIDATE_TRANSPORT_TCP_SO | NICE_CANDIDATE_TRANSPORT_TCP_ACTIVE =>
        (NICE_CANDIDATE_TRANSPORT_MS_PREF_TCP, NICE_CANDIDATE_DIRECTION_MS_PREF_ACTIVE)
    | NICE_CANDIDATE_TRANSPORT_TCP_PASSIVE =>
        (NICE_CANDIDATE_TRANSPORT_MS_PREF_TCP, NICE_CANDIDATE_DIRECTION_MS_PREF_PASSIVE)
    | NICE_CANDIDATE_TRANSPORT_UDP => (NICE_CANDIDATE_TRANSPORT_MS_PREF_UDP, 0)
    end in
  other ← nice_candidate_ip_local_preference candidate;
  mret (nice_candidate_ms_ice_local_preference_full transport_preference direction_preference other).

Definition NICE_CANDIDATE_TYPE_PREF_HOST : Z := 120.
Definition NICE_CANDIDATE_TYPE_PREF_PEER_REFLEXIVE : Z := 110.
Definition NICE_CANDIDATE_TYPE_PREF_NAT_ASSISTED : Z := 105.
Definition NICE_CANDIDATE_TYPE_PREF_SERVER_REFLEXIVE : Z := 100.
Definition NICE_CANDIDATE_TYPE_PREF_RELAYED_UDP : Z := 30.
Definition NICE_CANDIDATE_TYPE_PREF_RELAYED : Z := 20.

Definition is_udp (candidate : NiceCandidate) : bool :=
  bool_decide (transport candidate = NICE_CANDIDATE_TRANSPORT_UDP).

(** A relayed candidate without server dereferences [NULL]. *)
Definition nice_candidate_ice_type_preference (candidate : NiceCandidate)
    (reliable nat_assisted : bool) : outcome Z :=
  type_preference ←
    match type candidate with
    | NICE_CANDIDATE_TYPE_HOST => Done NICE_CANDIDATE_TYPE_PREF_HOST
    | NICE_CANDIDATE_TYPE_PEER_REFLEXIVE => Done NICE_CANDIDATE_TYPE_PREF_PEER_REFLEXIVE
    | NICE_CANDIDATE_TYPE_SERVER_REFLEXIVE =>
        Done (if nat_assisted then NICE_CANDIDATE_TYPE_PREF_NAT_ASSISTED
              else NICE_CANDIDATE_TYPE_PREF_SERVER_REFLEXIVE)
    | NICE_CANDIDATE_TYPE_RELAYED =>
        match turn candidate with
        | None => Ub
        | Some t =>
            Done (if decide (turn_type t = NICE_RELAY_TYPE_TURN_UDP)
                  then NICE_CANDIDATE_TYPE_PREF_RELAYED_UDP else NICE_CANDIDATE_TYPE_PREF_RELAYED)
        end
    end;
  mret (if (reliable && is_udp candidate) || (negb reliable && negb (is_udp candidate))
        then type_preference / 2 else type_preference).

Definition nice_candidate_ice_priority (candidate : NiceCandidate) (reliable nat_assisted : bool)
  : outcome Z :=
  type_preference ← nice_candidate_ice_type_preference candidate reliable nat_assisted;
  local_preference ← nice_candidate_ice_local_preference candidate;
  mret (nice_candidate_ice_priority_full type_preference local_preference
          (cand_component_id candidate)).

(** The local preference is assigned to a [guint16]. *)
Definition nice_candidate_ms_ice_priority (candidate : NiceCandidate) (reliable nat_assisted : bool)
  : outcome Z :=
  type_preference ← nice_candidate_ice_type_preference candidate reliable nat_assisted;
  local_preference ← nice_candidate_ms_ice_local_preference candidate;
  mret (nice_candidate_ice_priority_full type_preference (u16 local_preference)
          (cand_component_id candidate)).
End priorities.

(** [2 * max] is a product of an [int] and a [guint32]: modulo 2^32. *)
Definition nice_candidate_pair_priority (o_prio a_prio : Z) : Z :=
  let max := if a_prio <? o_prio then o_prio else a_prio in
  let min := if o_prio <? a_prio then o_prio else a_prio in
  u64 (Z.shiftl 1 32 * min + u32 (2 * max) + (if a_prio <? o_prio then 1 else 0)).

Definition nice_candidate_copy (candidate : NiceCandidate) : NiceCandidate :=
  candidate <| turn := None |>.

Definition nice_candidate_equal_target (candidate1 candidate2 : NiceCandidate) : bool :=
  bool_decide (transport candidate1 = transport candidate2) &&
  nice_address_equal (addr candidate1) (addr candidate2).

(** ** Facts *)

Section facts.
Context {resolver : Resolver} {interfaces : Interfaces}.

Lemma ip_index_range ip ips p : is_u8 p → is_u8 (ip_index ip ips p).
Proof.
  revert p; induction ips as [| i ips IH]; intros p Hp; cbn; [done |].
  case_decide; [done | apply IH, u8_range].
Qed.

(** The address a candidate is told apart by. *)
Definition preference_address (c : NiceCandidate) : NiceAddress :=
  if decide (type c = NICE_CANDIDATE_TYPE_HOST) then addr c else base_addr c.

Lemma ip_local_preference_done c :
  nice_address_is_valid (preference_address c) = true →
  ∃ p, nice_candidate_ip_local_preference c = Done p ∧ is_u8 p.
Proof.
  unfold nice_address_is_valid, nice_candidate_ip_local_preference, nice_address_to_string.
  fold (preference_address c). intros H.
  destruct (sa_family _ =? AF_INET); [| destruct (_ =? AF_INET6); [| done]];
    (eexists; split; [done | by apply ip_index_range]).
Qed.

Lemma ice_local_preference_done c :
  nice_address_is_valid (preference_address c) = true →
  ∃ l, nice_candidate_ice_local_preference c = Done l ∧ is_u16 l.
Proof.
  intros H. destruct (ip_local_preference_done c H) as (p & Hp & _).
  unfold nice_candidate_ice_local_preference. rewrite Hp, !bind_Done.
  destruct (transport c); (eexists; split; [done |]); [done | apply u16_range..].
Qed.

Lemma ms_ice_local_preference_done c :
  nice_address_is_valid (preference_address c) = true →
  ∃ l, nice_candidate_ms_ice_local_preference c = Done l ∧ is_u16 l.
Proof.
  intros H. destruct (ip_local_preference_done c H) as (p & Hp & Hr).
  unfold nice_candidate_ms_ice_local_preference. unfold is_u8, is_u16 in *.
  destruct (transport c); rewrite Hp, bind_Done; (eexists; split; [done |]);
    unfold nice_candidate_ms_ice_local_preference_full, NICE_CANDIDATE_TRANSPORT_MS_PREF_UDP,
      NICE_CANDIDATE_TRANSPORT_MS_PREF_TCP, NICE_CANDIDATE_DIRECTION_MS_PREF_ACTIVE,
      NICE_CANDIDATE_DIRECTION_MS_PREF_PASSIVE; rewrite u32_small; unfold is_u32; lia.
Qed.

(** Ranks of the types, the better the higher. *)
Definition type_rank (t : NiceCandidateType) : Z :=
  match t with
  | NICE_CANDIDATE_TYPE_HOST => 3
  | NICE_CANDIDATE_TYPE_PEER_REFLEXIVE => 2
  | NICE_CANDIDATE_TYPE_SERVER_REFLEXIVE => 1
  | NICE_CANDIDATE_TYPE_RELAYED => 0
  end.

Definition turn_known (c : NiceCandidate) : Prop :=
  type c = NICE_CANDIDATE_TYPE_RELAYED → is_Some (turn c).

(** Type preferences lie in disjoint bands, ordered by rank; the transport that
    does not suit the agent halves them. *)
Definition preference_band (suited : bool) (rank : Z) : Z * Z :=
  if suited then
    (if rank =? 3 then (120, 120) else if rank =? 2 then (110, 110)
     else if rank =? 1 then (100, 105) else (20, 30))
  else
    (if rank =? 3 then (60, 60) else if rank =? 2 then (55, 55)
     else if rank =? 1 then (50, 52) else (10, 15)).

Lemma ice_type_preference_band c reliable nat_assisted :
  turn_known c →
  ∃ t, nice_candidate_ice_type_preference c reliable nat_assisted = Done t ∧
  (preference_band (negb (eqb reliable (is_udp c))) (type_rank (type c))).1 ≤ t
    ≤ (preference_band (negb (eqb reliable (is_udp c))) (type_rank (type c))).2.
Proof.
  intros Ht. unfold nice_candidate_ice_type_preference, turn_known in *.
  destruct (type c); [| destruct nat_assisted | | destruct Ht as [s Hs]; [done | rewrite Hs; case_decide]];
    rewrite bind_Done; (eexists; split; [done |]); destruct reliable, (is_udp c); by vm_compute.
Qed.

Definition preferable (c : NiceCandidate) : Prop :=
  turn_known c ∧ nice_address_is_valid (preference_address c) = true ∧ 1 ≤ cand_component_id c ≤ 256.

(** The fields of a priority. *)
Lemma priority_full_fields t l comp :
  10 ≤ t ≤ 120 → is_u16 l → 1 ≤ comp ≤ 256 →
  let p := nice_candidate_ice_priority_full t l comp in
  p = 2 ^ 24 * t + 2 ^ 8 * l + (256 - comp) ∧ 1 ≤ p ≤ 0x7effffff.
Proof.
  unfold is_u16, nice_candidate_ice_priority_full. intros. cbv zeta.
  rewrite u32_small by (unfold is_u32; lia). lia.
Qed.

Lemma band_range b r t :
  (preference_band b r).1 ≤ t ≤ (preference_band b r).2 → 10 ≤ t ≤ 120.
Proof. unfold preference_band. destruct b; zcase; cbn; lia. Qed.

Lemma priority_done c reliable nat_assisted (ms : bool) :
  preferable c →
  ∃ t l, (if ms then nice_candidate_ms_ice_priority c reliable nat_assisted
          else nice_candidate_ice_priority c reliable nat_assisted)
         = Done (nice_candidate_ice_priority_full t l (cand_component_id c)) ∧
    nice_candidate_ice_type_preference c reliable nat_assisted = Done t ∧ is_u16 l.
Proof.
  intros (Ht & Ha & _). destruct (ice_type_preference_band c reliable nat_assisted Ht) as (t & Et & _).
  destruct (ice_local_preference_done c Ha) as (l & El & Hl).
  destruct (ms_ice_local_preference_done c Ha) as (l' & El' & Hl').
  unfold nice_candidate_ms_ice_priority, nice_candidate_ice_priority. rewrite Et, !bind_Done.
  destruct ms; [rewrite El', bind_Done, u16_small by done | rewrite El, bind_Done]; eauto.
Qed.

(** Candidate priorities are the fields RFC 5245, 4.1.2.1 asks for.  For a
    component id of 1 to 256, a candidate with a valid address and, if relayed,
    a TURN server, both formulas return 2^24 t + 2^8 l + (256 - component) with
    a type preference 10 <= t <= 120 and a local preference l < 2^16, a number
    from 1 to 0x7effffff that determines t, l and the component; and of two
    candidates for transports that suit the agent alike the one of the better
    type (host, peer reflexive, server reflexive, relayed) has the higher
    priority. *)
Theorem candidate_priority_fields (c d : NiceCandidate) (reliable nat_c nat_d ms : bool)
    (Hc : preferable c) (Hd : preferable d) (Hsuit : is_udp c = is_udp d)
    (Hrank : type_rank (type d) < type_rank (type c)) :
  let prio x nat := if ms then nice_candidate_ms_ice_priority x reliable nat
                    else nice_candidate_ice_priority x reliable nat in
  ∃ pc pd t l, prio c nat_c = Done pc ∧ prio d nat_d = Done pd ∧
    nice_candidate_ice_type_preference c reliable nat_c = Done t ∧
    10 ≤ t ≤ 120 ∧ is_u16 l ∧ 1 ≤ pc ≤ 0x7effffff ∧
    pc / 2 ^ 24 = t ∧ pc / 2 ^ 8 mod 2 ^ 16 = l ∧ 256 - pc mod 2 ^ 8 = cand_component_id c ∧
    pd < pc.
Proof.
  cbv zeta. destruct (priority_done c reliable nat_c ms Hc) as (t & l & -> & Et & Hl).
  destruct (priority_done d reliable nat_d ms Hd) as (t' & l' & -> & Et' & Hl').
  destruct (ice_type_preference_band c reliable nat_c) as (t2 & E2 & B); [apply Hc |].
  destruct (ice_type_preference_band d reliable nat_d) as (t3 & E3 & B'); [apply Hd |].
  rewrite Et in E2. rewrite Et' in E3. injection E2 as <-. injection E3 as <-.
  destruct Hc as (_ & _ & Hc), Hd as (_ & _ & Hd).
  pose proof (band_range _ _ _ B) as R. pose proof (band_range _ _ _ B') as R'.
  destruct (priority_full_fields t l (cand_component_id c)) as [-> P]; [done.. |].
  destruct (priority_full_fields t' l' (cand_component_id d)) as [-> P']; [done.. |].
  exists (2 ^ 24 * t + 2 ^ 8 * l + (256 - cand_component_id c)),
    (2 ^ 24 * t' + 2 ^ 8 * l' + (256 - cand_component_id d)), t, l.
  unfold is_u16 in *. split_and!; try done; try zlia.
  enough (t' < t) by lia. rewrite <- Hsuit in B'. clear - B B' Hrank.
  destruct (eqb reliable (is_udp c)), (type c), (type d); cbn in *; lia.
Qed.
End facts.

(** ** Pair priorities *)

(** Lexicographic order on the smaller priority, the larger one and which side
    has the larger one. *)
Definition pair_key_lt (o a o' a' : Z) : Prop :=
  Z.min o a < Z.min o' a' ∨ Z.min o a = Z.min o' a' ∧
    (Z.max o a < Z.max o' a' ∨ Z.max o a = Z.max o' a' ∧ o ≤ a ∧ a' < o').

Lemma pair_priority_eq o a : 0 ≤ o < 2 ^ 31 → 0 ≤ a < 2 ^ 31 →
  nice_candidate_pair_priority o a = 2 ^ 32 * Z.min o a + 2 * Z.max o a + (if a <? o then 1 else 0).
Proof.
  intros Ho Ha. unfold nice_candidate_pair_priority. change (Z.shiftl 1 32) with (2 ^ 32).
  unfold u64, u32. zcase; rewrite (Z.mod_small (2 * _)) by lia; rewrite Z.mod_small by lia; lia.
Qed.

(** Pair priorities order pairs as RFC 5245, 5.7.2 does.  For priorities
    below 2^31 the 64-bit value compares as (min, max, controlling side larger)
    lexicographically, so different pairs of priorities have different pair
    priorities, and no step wraps around. *)
Theorem pair_priority_lexicographic (o a o' a' : Z) (Ho : 0 ≤ o < 2 ^ 31) (Ha : 0 ≤ a < 2 ^ 31)
    (Ho' : 0 ≤ o' < 2 ^ 31) (Ha' : 0 ≤ a' < 2 ^ 31) :
  (nice_candidate_pair_priority o a < nice_candidate_pair_priority o' a' ↔ pair_key_lt o a o' a') ∧
  (nice_candidate_pair_priority o a = nice_candidate_pair_priority o' a' ↔ o = o' ∧ a = a') ∧
  is_u64 (nice_candidate_pair_priority o a) ∧ nice_candidate_pair_priority o a < 2 ^ 63.
Proof.
  rewrite !pair_priority_eq by done. unfold pair_key_lt, is_u64.
  destruct (Z.ltb_spec a o), (Z.ltb_spec a' o'); split_and!; lia.
Qed.

(** Beyond 2^31, [2 * max] loses its top bit and the order is broken. *)
Lemma pair_priority_wraps :
  nice_candidate_pair_priority (2 ^ 31) 1 < nice_candidate_pair_priority 5 1 ∧
  nice_candidate_pair_priority (2 ^ 31 + 5) 1 = nice_candidate_pair_priority 5 1.
Proof. by vm_compute. Qed.

(** ** Witnesses *)

Definition demo_resolver : Resolver :=
  {| inet_ntop := λ f a, f :: a;
     getaddrinfo := λ s, match s with [] => None | _ => Some demo_v4 end |}.
Definition demo_interfaces : Interfaces := {| local_ips := [[2; 1; 2; 3; 4]; [2; 192; 168; 0; 1]] |}.

Definition demo_candidate (t : NiceCandidateType) : NiceCandidate :=
  (nice_candidate_new t) <| addr := demo_v4 |> <| base_addr := demo_v4 |> <| cand_component_id := 1 |>.

Lemma pair_priority_lexicographic_witness :
  nice_candidate_pair_priority 7 3 = nice_candidate_pair_priority 7 3 ↔ 7 = 7 ∧ 3 = 3.
Proof. apply (pair_priority_lexicographic 7 3 7 3); lia. Defined.

Lemma candidate_priority_fields_witness :
  let prio x := @nice_candidate_ice_priority demo_resolver demo_interfaces x false false in
  ∃ pc pd t l, prio (demo_candidate NICE_CANDIDATE_TYPE_HOST) = Done pc ∧
    prio (demo_candidate NICE_CANDIDATE_TYPE_SERVER_REFLEXIVE) = Done pd ∧
    @nice_candidate_ice_type_preference (demo_candidate NICE_CANDIDATE_TYPE_HOST) false false = Done t ∧
    10 ≤ t ≤ 120 ∧ is_u16 l ∧ 1 ≤ pc ≤ 0x7effffff ∧
    pc / 2 ^ 24 = t ∧ pc / 2 ^ 8 mod 2 ^ 16 = l ∧ 256 - pc mod 2 ^ 8 = 1 ∧ pd < pc.
Proof.
  apply (@candidate_priority_fields demo_resolver demo_interfaces
    (demo_candidate NICE_CANDIDATE_TYPE_HOST) (demo_candidate NICE_CANDIDATE_TYPE_SERVER_REFLEXIVE)
    false false false false); [split; [discriminate | by_compute].. | reflexivity | reflexivity].
Defined.
