(* ===== verification/GSList.v ===== *)
(** * GLib lists (glib/gslist.c)

    Sorted insertion and sorting as the check lists use them, for a comparison
    function as the code passes it (negative: the first goes first). *)

From stdpp Require Import sorting.
From S2P Require Import Prelude.

Section slist.
Context {A : Type} (compare : A → A → Z).

(** The new node goes before the first node it does not follow. *)
Fixpoint g_slist_insert_sorted (list : list A) (data : A) : Datatypes.list A :=
  match list with
  | [] => [data]
  | x :: list' => if 0 <? compare data x then x :: g_slist_insert_sorted list' data else data :: list
  end.

Fixpoint g_slist_sort_merge (l1 : list A) : list A → list A :=
  match l1 with
  | [] => λ l2, l2
  | x :: l1' =>
      fix merge (l2 : list A) : list A :=
        match l2 with
        | [] => l1
        | y :: l2' =>
            if compare x y <=? 0 then x :: g_slist_sort_merge l1' l2 else y :: merge l2'
        end
  end.

(** How often the loop of [g_slist_sort_real] advances [l1]: [l2] moves two
    nodes for each. *)
Fixpoint half_steps (l2 : list A) : nat :=
  match l2 with _ :: _ :: l2 => S (half_steps l2) | _ => 0 end.

Fixpoint g_slist_sort_real (fuel : nat) (list : list A) : outcome (Datatypes.list A) :=
  match fuel, list with
  | _, [] => mret []
  | _, [x] => mret [x]
  | O, _ => Oof
  | S fuel, _ :: _ :: l2 =>
      let n := S (half_steps l2) in
      a ← g_slist_sort_real fuel (take n list);
      b ← g_slist_sort_real fuel (drop n list);
      mret (g_slist_sort_merge a b)
  end.

(** Each half is shorter, so the length is enough fuel. *)
Definition g_slist_sort (list : list A) : outcome (Datatypes.list A) :=
  g_slist_sort_real (length list) list.

(** ** Correctness for a total preorder *)

Context (Htrans : ∀ x y z, compare x y ≤ 0 → compare y z ≤ 0 → compare x z ≤ 0).
Context (Htotal : ∀ x y, 0 < compare x y → compare y x ≤ 0).

Abbreviation le_cmp := (λ x y, compare x y ≤ 0).

Lemma insert_sorted_perm l x : g_slist_insert_sorted l x ≡ₚ x :: l.
Proof.
  induction l as [| y l IH]; cbn; [done |]. destruct (0 <? _); [| done].
  rewrite IH. apply Permutation_swap.
Qed.

Lemma insert_sorted_sorted l x :
  StronglySorted le_cmp l → StronglySorted le_cmp (g_slist_insert_sorted l x).
Proof.
  induction l as [| y l IH]; cbn; intros H; [by repeat constructor |].
  apply StronglySorted_cons in H as [Hy Hl]. destruct (Z.ltb_spec 0 (compare x y)) as [H | H].
  - constructor; [by apply IH |]. rewrite insert_sorted_perm. constructor; [by apply Htotal | done].
  - constructor; [by constructor |]. constructor; [done |].
    eapply Forall_impl; [exact Hy |]. intros z Hz. by eapply Htrans.
Qed.

Lemma sort_merge_perm l1 l2 : g_slist_sort_merge l1 l2 ≡ₚ l1 ++ l2.
Proof.
  revert l2. induction l1 as [| x l1 IH1]; intros l2; [done |].
  induction l2 as [| y l2 IH2]; cbn [g_slist_sort_merge]; [by rewrite app_nil_r |].
  destruct (_ <=? 0).
  - by rewrite IH1.
  - cbn [g_slist_sort_merge] in IH2. rewrite IH2. cbn. by rewrite <- !Permutation_middle, Permutation_swap.
Qed.

Lemma sort_merge_sorted l1 l2 :
  StronglySorted le_cmp l1 → StronglySorted le_cmp l2 →
  StronglySorted le_cmp (g_slist_sort_merge l1 l2).
Proof.
  revert l2. induction l1 as [| x l1 IH1]; intros l2 H1 H2; [done |].
  induction l2 as [| y l2 IH2]; cbn [g_slist_sort_merge]; [done |].
  pose proof (proj1 (StronglySorted_cons _ _ _) H1) as [Hx Hl1].
  pose proof (proj1 (StronglySorted_cons _ _ _) H2) as [Hy Hl2].
  destruct (Z.leb_spec (compare x y) 0) as [H | H].
  - constructor; [by apply IH1 |]. rewrite sort_merge_perm, Forall_app. split; [done |].
    constructor; [done |]. eapply Forall_impl; [exact Hy |]. intros z Hz. by eapply Htrans.
  - apply Htotal in H. constructor; [by apply IH2 |].
    change (Forall (le_cmp y) (g_slist_sort_merge (x :: l1) l2)).
    rewrite sort_merge_perm, Forall_app. split; [| done]. constructor; [done |].
    eapply Forall_impl; [exact Hx |]. intros z Hz. by eapply Htrans.
Qed.

Lemma half_steps_lt (l : list A) : (half_steps l ≤ length l)%nat.
Proof.
  enough (∀ n (l : list A), (length l ≤ n)%nat → (half_steps l ≤ length l)%nat) as H by by eapply H.
  clear. induction n as [| n IH]; intros [| x [| y l]] Hl; cbn in *; try lia.
  specialize (IH l). lia.
Qed.

Lemma sort_real_spec n l :
  (length l ≤ n)%nat →
  ∃ l', g_slist_sort_real n l = Done l' ∧ l' ≡ₚ l ∧ StronglySorted le_cmp l'.
Proof.
  revert l. induction n as [| n IH]; intros [| x [| y l]] Hn; cbn in Hn; try lia.
  1, 2, 3: eexists; split_and!; [done.. |]; by repeat constructor.
  cbn [g_slist_sort_real]. pose proof (half_steps_lt l).
  set (k := S (half_steps l)). set (l0 := x :: y :: l).
  destruct (IH (take k l0)) as (a & -> & Pa & Sa); [rewrite length_take; subst l0 k; cbn; lia |].
  destruct (IH (drop k l0)) as (b & -> & Pb & Sb); [rewrite length_drop; subst l0 k; cbn; lia |].
  rewrite !bind_Done. eexists; split_and!; [done | | by apply sort_merge_sorted].
  rewrite sort_merge_perm, Pa, Pb. by rewrite take_drop.
Qed.

Lemma g_slist_sort_spec l :
  ∃ l', g_slist_sort l = Done l' ∧ l' ≡ₚ l ∧ StronglySorted le_cmp l'.
Proof. by apply sort_real_spec. Qed.
End slist.

(** [g_slist_remove]: the first node with this datum. *)
Fixpoint g_slist_remove {A} `{EqDecision A} (list : list A) (data : A) : Datatypes.list A :=
  match list with
  | [] => []
  | x :: list => if decide (x = data) then list else x :: g_slist_remove list data
  end.

Lemma g_slist_remove_notin {A} `{EqDecision A} (l : list A) x : x ∉ l → g_slist_remove l x = l.
Proof.
  induction l as [| y l IH]; cbn; [done |]. intros [Hy Hl]%not_elem_of_cons.
  rewrite decide_False by done. by rewrite IH.
Qed.

Lemma g_slist_remove_filter {A} `{EqDecision A} (l : list A) x :
  NoDup l → g_slist_remove l x = filter (λ y, y ≠ x) l.
Proof.
  induction 1 as [| y l Hy Hl IH]; [done |]. cbn [g_slist_remove].
  destruct (decide (y = x)) as [-> | Hne].
  - rewrite filter_cons_False by auto. rewrite <- IH. by rewrite g_slist_remove_notin.
  - rewrite filter_cons_True by done. by rewrite IH.
Qed.
