(* ===== verification/IceAgent.v ===== *)
(** * The state of the ICE agent (agent/agent-priv.h, conncheck.h, component.h, stream.h)

    Streams, components, candidates, check pairs and STUN transactions.  Heap
    objects that the code shares by pointer (candidates, pairs, transactions)
    live in stores indexed by their address; freeing removes them, and reading
    through a dangling or [NULL] pointer is [Ub].  Streams and components are
    only reached through the agent, by their ids.  Effects outside the check
    lists (packets, signals, timers, the keepalive and TURN machinery) are
    recorded in [actions], the newest first. *)

From stdpp Require Import gmap.
From S2P Require Import Prelude Bytes StateMonad StunMessage StunAgent StunTimer StunIce NiceAddress NiceCandidate.
#[global] Open Scope Z_scope.

(** Addresses of candidates, pairs and STUN transactions. *)
Abbreviation cptr := positive (only parsing).
Abbreviation pptr := positive (only parsing).
Abbreviation tptr := positive (only parsing).

Inductive NiceCompatibility :=
| NICE_COMPATIBILITY_RFC5245
| NICE_COMPATIBILITY_GOOGLE
| NICE_COMPATIBILITY_MSN
| NICE_COMPATIBILITY_WLM2009
| NICE_COMPATIBILITY_OC2007
| NICE_COMPATIBILITY_OC2007R2.
#[export] Instance NiceCompatibility_eq_dec : EqDecision NiceCompatibility.
Proof. solve_decision. Defined.

Inductive NiceNominationMode :=
| NICE_NOMINATION_MODE_REGULAR
| NICE_NOMINATION_MODE_AGGRESSIVE.
#[export] Instance NiceNominationMode_eq_dec : EqDecision NiceNominationMode.
Proof. solve_decision. Defined.

Inductive NiceComponentState :=
| NICE_COMPONENT_STATE_DISCONNECTED
| NICE_COMPONENT_STATE_GATHERING
| NICE_COMPONENT_STATE_CONNECTING
| NICE_COMPONENT_STATE_CONNECTED
| NICE_COMPONENT_STATE_READY
| NICE_COMPONENT_STATE_FAILED.
#[export] Instance NiceComponentState_eq_dec : EqDecision NiceComponentState.
Proof. solve_decision. Defined.

(** The values of the enumeration, which the code compares with [<]. *)
Definition component_state_to_Z (s : NiceComponentState) : Z :=
  match s with
  | NICE_COMPONENT_STATE_DISCONNECTED => 0
  | NICE_COMPONENT_STATE_GATHERING => 1
  | NICE_COMPONENT_STATE_CONNECTING => 2
  | NICE_COMPONENT_STATE_CONNECTED => 3
  | NICE_COMPONENT_STATE_READY => 4
  | NICE_COMPONENT_STATE_FAILED => 5
  end.

Inductive NiceCheckState :=
| NICE_CHECK_WAITING
| NICE_CHECK_IN_PROGRESS
| NICE_CHECK_SUCCEEDED
| NICE_CHECK_FAILED
| NICE_CHECK_FROZEN
| NICE_CHECK_DISCOVERED.
#[export] Instance NiceCheckState_eq_dec : EqDecision NiceCheckState.
Proof. solve_decision. Defined.

Inductive NiceSocketType :=
| NICE_SOCKET_TYPE_UDP_BSD
| NICE_SOCKET_TYPE_TCP_BSD
| NICE_SOCKET_TYPE_PSEUDOSSL
| NICE_SOCKET_TYPE_HTTP
| NICE_SOCKET_TYPE_SOCKS5
| NICE_SOCKET_TYPE_UDP_TURN
| NICE_SOCKET_TYPE_UDP_TURN_OVER_TCP
| NICE_SOCKET_TYPE_TCP_ACTIVE
| NICE_SOCKET_TYPE_TCP_PASSIVE
| NICE_SOCKET_TYPE_TCP_SO.
#[export] Instance NiceSocketType_eq_dec : EqDecision NiceSocketType.
Proof. solve_decision. Defined.

Record StunTransaction := {
  next_tick : timeval;
  stun_timer : StunTimer;
  stun_message : option StunMessage   (* None: its buffer is NULL *)
}.

Definition eta_StunTransaction (r : StunTransaction) : StunTransaction :=
  Build_StunTransaction (next_tick r) (stun_timer r) (stun_message r).
#[export] Instance set_next_tick : Setter next_tick :=
  ltac:(derive_setter eta_StunTransaction next_tick).
#[export] Instance set_stun_timer : Setter stun_timer :=
  ltac:(derive_setter eta_StunTransaction stun_timer).
#[export] Instance set_stun_message : Setter stun_message :=
  ltac:(derive_setter eta_StunTransaction stun_message).

Record CandidateCheckPair := {
  p_stream_id : Z;
  p_component_id : Z;
  p_local : cptr;
  p_remote : cptr;
  p_sockptr : option Z;
  p_foundation : bytes;
  p_state : NiceCheckState;
  nominated : bool;
  valid : bool;
  use_candidate_on_next_check : bool;
  mark_nominated_on_response_arrival : bool;
  retransmit : bool;
  discovered_pair : option pptr;
  succeeded_pair : option pptr;
  p_priority : Z;
  prflx_priority : Z;
  stun_transactions : list tptr
}.

Definition eta_CandidateCheckPair (r : CandidateCheckPair) : CandidateCheckPair :=
  Build_CandidateCheckPair (p_stream_id r) (p_component_id r) (p_local r) (p_remote r)
    (p_sockptr r) (p_foundation r) (p_state r) (nominated r) (valid r)
    (use_candidate_on_next_check r) (mark_nominated_on_response_arrival r) (retransmit r)
    (discovered_pair r) (succeeded_pair r) (p_priority r) (prflx_priority r)
    (stun_transactions r).
#[export] Instance set_p_stream_id : Setter p_stream_id :=
  ltac:(derive_setter eta_CandidateCheckPair p_stream_id).
#[export] Instance set_p_component_id : Setter p_component_id :=
  ltac:(derive_setter eta_CandidateCheckPair p_component_id).
#[export] Instance set_p_local : Setter p_local :=
  ltac:(derive_setter eta_CandidateCheckPair p_local).
#[export] Instance set_p_remote : Setter p_remote :=
  ltac:(derive_setter eta_CandidateCheckPair p_remote).
#[export] Instance set_p_sockptr : Setter p_sockptr :=
  ltac:(derive_setter eta_CandidateCheckPair p_sockptr).
#[export] Instance set_p_foundation : Setter p_foundation :=
  ltac:(derive_setter eta_CandidateCheckPair p_foundation).
#[export] Instance set_p_state : Setter p_state :=
  ltac:(derive_setter eta_CandidateCheckPair p_state).
#[export] Instance set_nominated : Setter nominated :=
  ltac:(derive_setter eta_CandidateCheckPair nominated).
#[export] Instance set_valid : Setter valid := ltac:(derive_setter eta_CandidateCheckPair valid).
#[export] Instance set_use_candidate_on_next_check : Setter use_candidate_on_next_check :=
  ltac:(derive_setter eta_CandidateCheckPair use_candidate_on_next_check).
#[export] Instance set_mark_nominated_on_response_arrival : Setter mark_nominated_on_response_arrival :=
  ltac:(derive_setter eta_CandidateCheckPair mark_nominated_on_response_arrival).
#[export] Instance set_retransmit : Setter retransmit :=
  ltac:(derive_setter eta_CandidateCheckPair retransmit).
#[export] Instance set_discovered_pair : Setter discovered_pair :=
  ltac:(derive_setter eta_CandidateCheckPair discovered_pair).
#[export] Instance set_succeeded_pair : Setter succeeded_pair :=
  ltac:(derive_setter eta_CandidateCheckPair succeeded_pair).
#[export] Instance set_p_priority : Setter p_priority :=
  ltac:(derive_setter eta_CandidateCheckPair p_priority).
#[export] Instance set_prflx_priority : Setter prflx_priority :=
  ltac:(derive_setter eta_CandidateCheckPair prflx_priority).
#[export] Instance set_stun_transactions : Setter stun_transactions :=
  ltac:(derive_setter eta_CandidateCheckPair stun_transactions).

Record IncomingCheck := {
  ic_from : NiceAddress;
  ic_local_socket : Z;
  ic_priority : Z;
  ic_use_candidate : bool;
  ic_username : bytes
}.

(** [CandidatePair], without the keepalive. *)
Record CandidatePair := {
  sp_local : option cptr;
  sp_remote : option cptr;
  sp_priority : Z;
  sp_prflx_priority : Z
}.
Definition null_pair : CandidatePair :=
  {| sp_local := None; sp_remote := None; sp_priority := 0; sp_prflx_priority := 0 |}.

Record NiceComponent := {
  c_id : Z;
  c_state : NiceComponentState;
  local_candidates : list cptr;
  remote_candidates : list cptr;
  valid_candidates : list (option NiceCandidate);
  incoming_checks : list IncomingCheck;
  selected_pair : CandidatePair;
  turn_candidate : option cptr;
  restart_candidate : option cptr;
  turn_servers : list TurnServer;
  fallback_mode : bool;
  tcp_is_closed : bool   (* pseudo_tcp_socket_is_closed (component->tcp) *);
  component_stun_agent : StunAgent
}.

Definition eta_NiceComponent (r : NiceComponent) : NiceComponent :=
  Build_NiceComponent (c_id r) (c_state r) (local_candidates r) (remote_candidates r)
    (valid_candidates r) (incoming_checks r) (selected_pair r) (turn_candidate r)
    (restart_candidate r) (turn_servers r) (fallback_mode r) (tcp_is_closed r) (component_stun_agent r).
#[export] Instance set_c_id : Setter c_id := ltac:(derive_setter eta_NiceComponent c_id).
#[export] Instance set_c_state : Setter c_state := ltac:(derive_setter eta_NiceComponent c_state).
#[export] Instance set_local_candidates : Setter local_candidates :=
  ltac:(derive_setter eta_NiceComponent local_candidates).
#[export] Instance set_remote_candidates : Setter remote_candidates :=
  ltac:(derive_setter eta_NiceComponent remote_candidates).
#[export] Instance set_valid_candidates : Setter valid_candidates :=
  ltac:(derive_setter eta_NiceComponent valid_candidates).
#[export] Instance set_incoming_checks : Setter incoming_checks :=
  ltac:(derive_setter eta_NiceComponent incoming_checks).
#[export] Instance set_selected_pair : Setter selected_pair :=
  ltac:(derive_setter eta_NiceComponent selected_pair).
#[export] Instance set_turn_candidate : Setter turn_candidate :=
  ltac:(derive_setter eta_NiceComponent turn_candidate).
#[export] Instance set_restart_candidate : Setter restart_candidate :=
  ltac:(derive_setter eta_NiceComponent restart_candidate).
#[export] Instance set_turn_servers : Setter turn_servers :=
  ltac:(derive_setter eta_NiceComponent turn_servers).
#[export] Instance set_fallback_mode : Setter fallback_mode :=
  ltac:(derive_setter eta_NiceComponent fallback_mode).
#[export] Instance set_component_stun_agent : Setter component_stun_agent :=
  ltac:(derive_setter eta_NiceComponent component_stun_agent).

(** The credentials of a stream are arrays; [local_ufrag] is the C string in one,
    [local_ufrag_tail] what follows its terminating NUL. *)
Record NiceStream := {
  s_id : Z;
  n_components : Z;
  initial_binding_request_received : bool;
  components : list NiceComponent;
  conncheck_list : list pptr;
  stream_name : option bytes;
  local_ufrag : bytes;
  local_ufrag_tail : bytes;
  local_password : bytes;
  local_password_tail : bytes;
  remote_ufrag : bytes;
  remote_password : bytes;
  gathering : bool;
  peer_gathering_done : bool;
  tick_counter : Z
}.

Definition eta_NiceStream (r : NiceStream) : NiceStream :=
  Build_NiceStream (s_id r) (n_components r) (initial_binding_request_received r) (components r)
    (conncheck_list r) (stream_name r) (local_ufrag r) (local_ufrag_tail r) (local_password r)
    (local_password_tail r) (remote_ufrag r) (remote_password r)
    (gathering r) (peer_gathering_done r) (tick_counter r).
#[export] Instance set_s_id : Setter s_id := ltac:(derive_setter eta_NiceStream s_id).
#[export] Instance set_n_components : Setter n_components :=
  ltac:(derive_setter eta_NiceStream n_components).
#[export] Instance set_initial_binding_request_received : Setter initial_binding_request_received :=
  ltac:(derive_setter eta_NiceStream initial_binding_request_received).
#[export] Instance set_components : Setter components :=
  ltac:(derive_setter eta_NiceStream components).
#[export] Instance set_conncheck_list : Setter conncheck_list :=
  ltac:(derive_setter eta_NiceStream conncheck_list).
#[export] Instance set_local_ufrag : Setter local_ufrag :=
  ltac:(derive_setter eta_NiceStream local_ufrag).
#[export] Instance set_stream_name : Setter stream_name :=
  ltac:(derive_setter eta_NiceStream stream_name).
#[export] Instance set_local_ufrag_tail : Setter local_ufrag_tail :=
  ltac:(derive_setter eta_NiceStream local_ufrag_tail).
#[export] Instance set_local_password : Setter local_password :=
  ltac:(derive_setter eta_NiceStream local_password).
#[export] Instance set_local_password_tail : Setter local_password_tail :=
  ltac:(derive_setter eta_NiceStream local_password_tail).
#[export] Instance set_remote_ufrag : Setter remote_ufrag :=
  ltac:(derive_setter eta_NiceStream remote_ufrag).
#[export] Instance set_remote_password : Setter remote_password :=
  ltac:(derive_setter eta_NiceStream remote_password).
#[export] Instance set_gathering : Setter gathering := ltac:(derive_setter eta_NiceStream gathering).
#[export] Instance set_peer_gathering_done : Setter peer_gathering_done :=
  ltac:(derive_setter eta_NiceStream peer_gathering_done).
#[export] Instance set_tick_counter : Setter tick_counter :=
  ltac:(derive_setter eta_NiceStream tick_counter).

Record CandidateDiscovery := { d_stream_id : Z; d_done : bool }.

(** Effects on the rest of the agent and on the outside. *)
Inductive action :=
| Socket_send (sock : option Z) (to : NiceAddress) (buf : bytes)
| Signal_component_state (stream_id component_id : Z) (state : NiceComponentState)
| Process_queued_tcp_packets (stream_id component_id : Z)
| Signal_new_selected_pair (stream_id component_id : Z) (local remote : cptr)
| Signal_selected_remote_candidate (stream_id component_id : Z) (local : cptr) (remote : NiceCandidate)
| Signal_new_remote_candidate (candidate : cptr)
| Signal_initial_binding_request (stream_id : Z)
| Signal_candidate_gathering_done (stream_id : Z)
| Keepalive_tick
| Prune_turn_candidate (candidate : cptr)
| Schedule_timer (conncheck keepalive : bool)
| Stop_conncheck_timer
| Attach_socket (stream_id component_id sock : Z).

Record NiceAgent := {
  compat : NiceCompatibility;
  controlling_mode : bool;
  saved_controlling_mode : bool;
  use_ice_udp : bool;
  use_ice_tcp : bool;
  tie_breaker : Z;
  nomination_mode : NiceNominationMode;
  reliable : bool;
  force_relay : bool;
  max_conn_checks : Z;
  timer_ta : Z;
  idle_timeout : Z;
  stun_max_retransmissions : Z;
  stun_reliable_timeout : Z;
  next_candidate_id : Z;
  streams : list NiceStream;
  triggered_check_queue : list pptr;
  discovery_list : list CandidateDiscovery;
  discovery_timer_source : bool;
  conncheck_timer_source : bool;
  keepalive_timer_source : bool;
  conncheck_ongoing_idle_delay : Z;
  candidates : gmap positive NiceCandidate;
  pairs : gmap positive CandidateCheckPair;
  transactions : gmap positive StunTransaction;
  wall_clock : timeval   (* g_get_current_time *);
  stun_clock : timeval   (* the clock of stun/usages/timer.c *);
  transids : Z   (* number of transaction identifiers drawn *);
  rng_draws : Z   (* number of random numbers drawn *);
  actions : list action
}.

Definition eta_NiceAgent (r : NiceAgent) : NiceAgent :=
  Build_NiceAgent (compat r) (controlling_mode r) (saved_controlling_mode r) (use_ice_udp r)
    (use_ice_tcp r) (tie_breaker r) (nomination_mode r)
    (reliable r) (force_relay r) (max_conn_checks r) (timer_ta r) (idle_timeout r)
    (stun_max_retransmissions r) (stun_reliable_timeout r) (next_candidate_id r) (streams r)
    (triggered_check_queue r) (discovery_list r) (discovery_timer_source r) (conncheck_timer_source r)
    (keepalive_timer_source r) (conncheck_ongoing_idle_delay r) (candidates r) (pairs r)
    (transactions r) (wall_clock r) (stun_clock r) (transids r)
    (rng_draws r) (actions r).
#[export] Instance set_compat : Setter compat := ltac:(derive_setter eta_NiceAgent compat).
#[export] Instance set_controlling_mode : Setter controlling_mode :=
  ltac:(derive_setter eta_NiceAgent controlling_mode).
#[export] Instance set_saved_controlling_mode : Setter saved_controlling_mode :=
  ltac:(derive_setter eta_NiceAgent saved_controlling_mode).
#[export] Instance set_tie_breaker : Setter tie_breaker :=
  ltac:(derive_setter eta_NiceAgent tie_breaker).
#[export] Instance set_nomination_mode : Setter nomination_mode :=
  ltac:(derive_setter eta_NiceAgent nomination_mode).
#[export] Instance set_reliable : Setter reliable := ltac:(derive_setter eta_NiceAgent reliable).
#[export] Instance set_force_relay : Setter force_relay :=
  ltac:(derive_setter eta_NiceAgent force_relay).
#[export] Instance set_max_conn_checks : Setter max_conn_checks :=
  ltac:(derive_setter eta_NiceAgent max_conn_checks).
#[export] Instance set_timer_ta : Setter timer_ta := ltac:(derive_setter eta_NiceAgent timer_ta).
#[export] Instance set_idle_timeout : Setter idle_timeout :=
  ltac:(derive_setter eta_NiceAgent idle_timeout).
#[export] Instance set_stun_max_retransmissions : Setter stun_max_retransmissions :=
  ltac:(derive_setter eta_NiceAgent stun_max_retransmissions).
#[export] Instance set_stun_reliable_timeout : Setter stun_reliable_timeout :=
  ltac:(derive_setter eta_NiceAgent stun_reliable_timeout).
#[export] Instance set_next_candidate_id : Setter next_candidate_id :=
  ltac:(derive_setter eta_NiceAgent next_candidate_id).
#[export] Instance set_streams : Setter streams := ltac:(derive_setter eta_NiceAgent streams).
#[export] Instance set_triggered_check_queue : Setter triggered_check_queue :=
  ltac:(derive_setter eta_NiceAgent triggered_check_queue).
#[export] Instance set_discovery_list : Setter discovery_list :=
  ltac:(derive_setter eta_NiceAgent discovery_list).
#[export] Instance set_conncheck_timer_source : Setter conncheck_timer_source :=
  ltac:(derive_setter eta_NiceAgent conncheck_timer_source).
#[export] Instance set_keepalive_timer_source : Setter keepalive_timer_source :=
  ltac:(derive_setter eta_NiceAgent keepalive_timer_source).
#[export] Instance set_conncheck_ongoing_idle_delay : Setter conncheck_ongoing_idle_delay :=
  ltac:(derive_setter eta_NiceAgent conncheck_ongoing_idle_delay).
#[export] Instance set_candidates : Setter candidates :=
  ltac:(derive_setter eta_NiceAgent candidates).
#[export] Instance set_pairs : Setter pairs := ltac:(derive_setter eta_NiceAgent pairs).
#[export] Instance set_transactions : Setter transactions :=
  ltac:(derive_setter eta_NiceAgent transactions).
#[export] Instance set_wall_clock : Setter wall_clock :=
  ltac:(derive_setter eta_NiceAgent wall_clock).
#[export] Instance set_stun_clock : Setter stun_clock :=
  ltac:(derive_setter eta_NiceAgent stun_clock).
#[export] Instance set_transids : Setter transids := ltac:(derive_setter eta_NiceAgent transids).
#[export] Instance set_rng_draws : Setter rng_draws := ltac:(derive_setter eta_NiceAgent rng_draws).
#[export] Instance set_actions : Setter actions := ltac:(derive_setter eta_NiceAgent actions).

(** ** Access to the state *)

Abbreviation M := (st NiceAgent).

(** Objects on the heap.  Reading or writing through a dangling pointer is
    undefined. *)
Definition pair_at (p : pptr) : M CandidateCheckPair := λ a,
  match pairs a !! p with Some r => Done (r, a) | None => Ub end.
Definition upd_pair (p : pptr) (f : CandidateCheckPair → CandidateCheckPair) : M unit := λ a,
  match pairs a !! p with
  | Some r => Done (tt, a <| pairs := <[p := f r]> (pairs a) |>) | None => Ub
  end.
Definition new_pair (r : CandidateCheckPair) : M pptr := λ a,
  let p := fresh (dom (pairs a)) in Done (p, a <| pairs := <[p := r]> (pairs a) |>).
Definition free_pair (p : pptr) : M unit := λ a,
  match pairs a !! p with
  | Some _ => Done (tt, a <| pairs := delete p (pairs a) |>) | None => Ub
  end.

Definition cand_at (c : cptr) : M NiceCandidate := λ a,
  match candidates a !! c with Some r => Done (r, a) | None => Ub end.
Definition new_cand (r : NiceCandidate) : M cptr := λ a,
  let c := fresh (dom (candidates a)) in Done (c, a <| candidates := <[c := r]> (candidates a) |>).
Definition free_cand (c : cptr) : M unit := λ a,
  match candidates a !! c with
  | Some _ => Done (tt, a <| candidates := delete c (candidates a) |>) | None => Ub
  end.

Definition stun_at (t : tptr) : M StunTransaction := λ a,
  match transactions a !! t with Some r => Done (r, a) | None => Ub end.
Definition upd_stun (t : tptr) (f : StunTransaction → StunTransaction) : M unit := λ a,
  match transactions a !! t with
  | Some r => Done (tt, a <| transactions := <[t := f r]> (transactions a) |>) | None => Ub
  end.
Definition new_stun (r : StunTransaction) : M tptr := λ a,
  let t := fresh (dom (transactions a)) in
  Done (t, a <| transactions := <[t := r]> (transactions a) |>).
Definition free_stun (t : tptr) : M unit := λ a,
  match transactions a !! t with
  | Some _ => Done (tt, a <| transactions := delete t (transactions a) |>) | None => Ub
  end.

Definition act (e : action) : M unit := λ a, Done (tt, a <| actions := e :: actions a |>).

(** Streams and components by id: the first of the list. *)
Fixpoint update_first {A} (P : A → bool) (f : A → A) (l : list A) : list A :=
  match l with [] => [] | x :: l => if P x then f x :: l else x :: update_first P f l end.

Definition agent_find_stream (a : NiceAgent) (stream_id : Z) : option NiceStream :=
  List.find (λ s, s_id s =? stream_id) (streams a).
Definition nice_stream_find_component_by_id (stream : NiceStream) (id : Z) : option NiceComponent :=
  List.find (λ c, c_id c =? id) (components stream).
Definition agent_find_component (a : NiceAgent) (stream_id component_id : Z)
  : option (NiceStream * NiceComponent) :=
  s ← agent_find_stream a stream_id;
  c ← nice_stream_find_component_by_id s component_id;
  mret (s, c).

(** The stream (component) behind a pointer the code holds. *)
Definition stream_at (sid : Z) : M NiceStream := λ a,
  match agent_find_stream a sid with Some s => Done (s, a) | None => Ub end.
Definition comp_at (sid cid : Z) : M NiceComponent := λ a,
  match agent_find_component a sid cid with Some (_, c) => Done (c, a) | None => Ub end.

Definition upd_stream (sid : Z) (f : NiceStream → NiceStream) : M unit :=
  upd streams (update_first (λ s, s_id s =? sid) f).
Definition upd_comp (sid cid : Z) (f : NiceComponent → NiceComponent) : M unit :=
  upd_stream sid (λ s, s <| components := update_first (λ c, c_id c =? cid) f (components s) |>).

(** [for (i = l; i; i = i->next)] with a body that leaves the list alone. *)
Fixpoint for_each {A} (l : list A) (body : A → M unit) : M unit :=
  match l with [] => mret tt | x :: l => _ ← body x; for_each l body end.

(** The pairs of a list, read through their pointers. *)
Fixpoint pairs_at (l : list pptr) : M (list (pptr * CandidateCheckPair)) :=
  match l with
  | [] => mret []
  | p :: l => r ← pair_at p; rs ← pairs_at l; mret ((p, r) :: rs)
  end.

Definition checklist (sid : Z) : M (list (pptr * CandidateCheckPair)) :=
  s ← stream_at sid; pairs_at (conncheck_list s).

(** ** Component states (agent.c) *)

(** The transitions [agent_signal_component_state_change] asserts. *)
Definition transition (old_state new_state : NiceComponentState) : bool :=
  match old_state, new_state with
  | NICE_COMPONENT_STATE_DISCONNECTED, NICE_COMPONENT_STATE_FAILED
  | NICE_COMPONENT_STATE_GATHERING, NICE_COMPONENT_STATE_FAILED
  | NICE_COMPONENT_STATE_CONNECTING, NICE_COMPONENT_STATE_FAILED
  | NICE_COMPONENT_STATE_CONNECTED, NICE_COMPONENT_STATE_FAILED
  | NICE_COMPONENT_STATE_READY, NICE_COMPONENT_STATE_FAILED
  | NICE_COMPONENT_STATE_DISCONNECTED, NICE_COMPONENT_STATE_GATHERING
  | NICE_COMPONENT_STATE_GATHERING, NICE_COMPONENT_STATE_CONNECTING
  | NICE_COMPONENT_STATE_CONNECTING, NICE_COMPONENT_STATE_CONNECTED
  | NICE_COMPONENT_STATE_CONNECTED, NICE_COMPONENT_STATE_READY
  | NICE_COMPONENT_STATE_READY, NICE_COMPONENT_STATE_CONNECTED
  | NICE_COMPONENT_STATE_FAILED, NICE_COMPONENT_STATE_CONNECTING
  | NICE_COMPONENT_STATE_FAILED, NICE_COMPONENT_STATE_GATHERING
  | NICE_COMPONENT_STATE_DISCONNECTED, NICE_COMPONENT_STATE_CONNECTING => true
  | _, _ => false
  end.

Definition agent_signal_component_state_change (stream_id component_id : Z)
    (new_state : NiceComponentState) : M unit := λ a,
  match agent_find_component a stream_id component_id with
  | None => (mret tt : M unit) a
  | Some (_, component) =>
      (let old_state := c_state component in
       if decide (new_state = old_state) then mret tt
       else
         _ ← assert_st (transition old_state new_state);
         _ ← upd_comp stream_id component_id (λ c, c <| c_state := new_state |>);
         _ ← when (reliable a) (act (Process_queued_tcp_packets stream_id component_id));
         act (Signal_component_state stream_id component_id new_state)) a
  end.

Definition agent_candidate_pair_priority (local remote : cptr) : M Z :=
  l ← cand_at local; r ← cand_at remote;
  controlling ← get controlling_mode;
  mret (if (controlling : bool) then nice_candidate_pair_priority (priority l) (priority r)
        else nice_candidate_pair_priority (priority r) (priority l)).

Definition agent_to_ice_compatibility (c : NiceCompatibility) : StunUsageIceCompatibility :=
  match c with
  | NICE_COMPATIBILITY_GOOGLE => STUN_USAGE_ICE_COMPATIBILITY_GOOGLE
  | NICE_COMPATIBILITY_MSN => STUN_USAGE_ICE_COMPATIBILITY_MSN
  | NICE_COMPATIBILITY_WLM2009 => STUN_USAGE_ICE_COMPATIBILITY_MSICE2
  | NICE_COMPATIBILITY_OC2007 => STUN_USAGE_ICE_COMPATIBILITY_MSN
  | NICE_COMPATIBILITY_OC2007R2 => STUN_USAGE_ICE_COMPATIBILITY_MSICE2
  | NICE_COMPATIBILITY_RFC5245 => STUN_USAGE_ICE_COMPATIBILITY_RFC5245
  end.

Definition NICE_AGENT_IS_COMPATIBLE_WITH_RFC5245_OR_OC2007R2 (c : NiceCompatibility) : bool :=
  bool_decide (c = NICE_COMPATIBILITY_RFC5245) || bool_decide (c = NICE_COMPATIBILITY_OC2007R2).

(** ** Components (component.c) *)

Definition NICE_COMPONENT_MAX_VALID_CANDIDATES : Z := 50.

(** The copies kept for [g_return_val_if_fail] failures are [NULL]. *)
Definition equal_target_opt (c1 c2 : option NiceCandidate) : bool :=
  match c1, c2 with Some c1, Some c2 => nice_candidate_equal_target c1 c2 | _, _ => false end.

(** [count] is the length before the new candidate is prepended; the last
    element is the one deleted. *)
Definition add_valid (l : list (option NiceCandidate)) (candidate : option NiceCandidate)
  : list (option NiceCandidate) :=
  if existsb (λ c, equal_target_opt c candidate) l then l
  else
    let l' := (nice_candidate_copy <$> candidate) :: l in
    if NICE_COMPONENT_MAX_VALID_CANDIDATES <? zlen l then take (length l) l' else l'.

Definition nice_component_add_valid_candidate (sid cid : Z) (candidate : option cptr) : M unit :=
  r ← match candidate with Some c => r ← cand_at c; mret (Some r) | None => mret None end;
  upd_comp sid cid (λ c, c <| valid_candidates := add_valid (valid_candidates c) r |>).

(** The keepalive source of the old pair is destroyed, the pair zeroed. *)
Definition nice_component_clear_selected_pair (sid cid : Z) : M unit :=
  upd_comp sid cid (λ c, c <| selected_pair := null_pair |>).

(** The first candidate of [l] that satisfies [P]. *)
Fixpoint find_cand (P : cptr → NiceCandidate → bool) (l : list cptr) : M (option cptr) :=
  match l with
  | [] => mret None
  | c :: l => r ← cand_at c; if P c r then mret (Some c) else find_cand P l
  end.

Definition nice_component_find_remote_candidate (sid cid : Z) (a : NiceAddress)
    (t : NiceCandidateTransport) : M (option cptr) :=
  c ← comp_at sid cid;
  find_cand (λ _ r, nice_address_equal (addr r) a && bool_decide (transport r = t))
    (remote_candidates c).

Definition nice_component_find_pair (sid cid : Z) (lfoundation rfoundation : bytes)
  : M (option (cptr * cptr * Z)) :=
  c ← comp_at sid cid;
  l ← find_cand (λ _ r, bool_decide (foundation r = lfoundation)) (local_candidates c);
  r ← find_cand (λ _ r, bool_decide (foundation r = rfoundation)) (remote_candidates c);
  match l, r with
  | Some l, Some r => prio ← agent_candidate_pair_priority l r; mret (Some (l, r, prio))
  | _, _ => mret None
  end.
