(* ===== verification/CheckList.v ===== *)
(** * Check lists (agent/conncheck.c)

    The connectivity check lists of the streams of an agent: states of pairs,
    the queue of triggered checks, freezing and unfreezing, the STUN
    transactions of a pair, forming, limiting and pruning pairs, nomination and
    the state of a component.  A [NiceStream *] or [NiceComponent *] of the
    code is a stream id [sid], or [sid] and a component id [cid]. *)

From stdpp Require Import gmap.
From S2P Require Import Prelude Bytes StateMonad GSList StunCrc32 StunMessage StunHmac StunAgent StunTimer StunIce NiceAddress NiceCandidate IceAgent.
#[global] Open Scope Z_scope.

(** What the check lists use of the rest of the agent and of the system:
    cryptography, name resolution, interfaces, sockets, the transaction
    identifiers that are drawn, and GLib's base64 decoder. *)
Class AgentEnv := {
  env_crypto :: Crypto;
  PACKAGE_STRING : bytes;
  env_resolver :: Resolver;
  env_interfaces :: Interfaces;
  socket_type : Z → NiceSocketType;
  nice_socket_is_reliable : Z → bool;
  socket_addr : Z → NiceAddress;
  socket_has_fileno : Z → bool;
  nice_tcp_active_socket_connect : Z → NiceAddress → option Z;
  transid : Z → bytes;
  rng_int : Z → Z → Z → Z   (* the generator of the agent: the draw, the bounds *);
  rng_bytes : Z → Z → bytes;
  g_base64_decode : bytes → bytes;
  g_base64_encode : bytes → bytes
}.

Section checklist.
Context {env : AgentEnv}.

(** A socket pointer that is dereferenced. *)
Definition deref_socket (s : option Z) : M Z := match s with Some s => mret s | None => ub end.

(** ** Pair states and the triggered check queue *)

(** [GTimeVal] comparison. *)
Definition priv_timer_expired (timer now : timeval) : bool :=
  if tv_sec now =? tv_sec timer then tv_usec timer <=? tv_usec now
  else tv_sec timer <=? tv_sec now.

(** [g_time_val_add] for a non-negative number of microseconds. *)
Definition g_time_val_add (t : timeval) (microseconds : Z) : timeval :=
  let usec := tv_usec t + microseconds mod 1000000 in
  let sec := tv_sec t + microseconds / 1000000 in
  if 1000000 <=? usec then {| tv_sec := sec + 1; tv_usec := usec - 1000000 |}
  else {| tv_sec := sec; tv_usec := usec |}.

Definition SET_PAIR_STATE (p : pptr) (s : NiceCheckState) : M unit :=
  upd_pair p (λ r, r <| p_state := s |>).

Definition priv_add_pair_to_triggered_check_queue (p : pptr) : M unit :=
  _ ← SET_PAIR_STATE p NICE_CHECK_IN_PROGRESS;
  upd triggered_check_queue (λ q, if bool_decide (p ∈ q) then q else q ++ [p]).

Definition priv_remove_pair_from_triggered_check_queue (p : pptr) : M unit :=
  upd triggered_check_queue (λ q, g_slist_remove q p).

Definition priv_get_pair_from_triggered_check_queue : M (option pptr) :=
  q ← get triggered_check_queue;
  match q with
  | [] => mret None
  | p :: _ => _ ← priv_remove_pair_from_triggered_check_queue p; mret (Some p)
  end.

(** ** Searches *)

(** The first pair of a list that satisfies [P]. *)
Fixpoint find_pair (P : CandidateCheckPair → bool) (l : list pptr) : M (option pptr) :=
  match l with
  | [] => mret None
  | p :: l => r ← pair_at p; if P r then mret (Some p) else find_pair P l
  end.

Definition exists_pair (P : CandidateCheckPair → bool) (l : list pptr) : M bool :=
  o ← find_pair P l; mret (bool_decide (is_Some o)).

Definition in_state (s : NiceCheckState) (r : CandidateCheckPair) : bool :=
  bool_decide (p_state r = s).

Definition priv_is_checklist_active (sid : Z) : M bool :=
  s ← stream_at sid;
  exists_pair (λ p, in_state NICE_CHECK_WAITING p || in_state NICE_CHECK_IN_PROGRESS p)
    (conncheck_list s).

Definition priv_is_checklist_frozen (sid : Z) : M bool :=
  s ← stream_at sid;
  match conncheck_list s with
  | [] => mret false
  | l => b ← exists_pair (λ p, negb (in_state NICE_CHECK_FROZEN p)) l; mret (negb b)
  end.

Fixpoint all_components_valid (n : nat) (i : Z) (l : list pptr) : M bool :=
  match n with
  | O => mret true
  | S n =>
      b ← exists_pair (λ p, (p_component_id p =? i) && valid p) l;
      if (b : bool) then all_components_valid n (i + 1) l else mret false
  end.

Definition priv_all_components_have_valid_pair (sid : Z) : M bool :=
  s ← stream_at sid;
  all_components_valid (Z.to_nat (n_components s)) 1 (conncheck_list s).

(** Foundations are shorter than [NICE_CANDIDATE_PAIR_MAX_FOUNDATION]. *)
Definition priv_foundation_matches_a_valid_pair (f : bytes) (sid : Z) : M bool :=
  s ← stream_at sid;
  exists_pair (λ p, valid p && bool_decide (p_foundation p = f)) (conncheck_list s).

Definition priv_conn_check_find_next_waiting (l : list pptr) : M (option pptr) :=
  find_pair (in_state NICE_CHECK_WAITING) l.

Definition priv_conn_check_find_next_frozen (l : list pptr) : M (option pptr) :=
  find_pair (in_state NICE_CHECK_FROZEN) l.

(** The ids of the streams, in order. *)
Definition stream_ids : M (list Z) := l ← get streams; mret (map s_id l).

Fixpoint count_active (l : list Z) (n : Z) : M Z :=
  match l with
  | [] => mret n
  | sid :: l => b ← priv_is_checklist_active sid; count_active l (if (b : bool) then n + 1 else n)
  end.
Definition priv_number_of_active_check_lists : M Z := l ← stream_ids; count_active l 0.

Fixpoint first_frozen (l : list Z) : M (option Z) :=
  match l with
  | [] => mret None
  | sid :: l => b ← priv_is_checklist_frozen sid; if (b : bool) then mret (Some sid) else first_frozen l
  end.
Definition priv_find_first_frozen_check_list : M (option Z) := l ← stream_ids; first_frozen l.

(** ** Unfreezing *)

(** One step of the inner loop of [priv_conn_check_unfreeze_next], on the
    variables [pair] (whether it is set), [lowest_component_id] and
    [highest_priority]. *)
Definition unfreeze_step (p1 p2 : CandidateCheckPair) (v : bool * Z * Z) : bool * Z * Z :=
  let '(set, lowest_component_id, highest_priority) := v in
  if bool_decide (p_foundation p2 = p_foundation p1) &&
     ((p_component_id p2 <? lowest_component_id) ||
      ((p_component_id p2 =? lowest_component_id) && (highest_priority <? p_priority p2)))
  then (true, p_component_id p2, p_priority p2) else v.

(** The inner loop runs over the list [l] with [j], but takes its pair [p2]
    from [i]: it is [p1] in every round. *)
Definition unfreeze_inner (p1 : CandidateCheckPair) (n_comps : Z) (l : list pptr) : bool :=
  (fold_left (λ v _, unfreeze_step p1 p1 v) l (false, u32 (n_comps + 1), 0)).1.1.

Fixpoint unfreeze_outer (n_comps : Z) (list i : list pptr) (found_list : Datatypes.list bytes)
    (result : bool) : M bool :=
  match i with
  | [] => mret result
  | p :: i =>
      p1 ← pair_at p;
      if bool_decide (p_foundation p1 ∈ found_list)
      then unfreeze_outer n_comps list i found_list result
      else
        let found_list := p_foundation p1 :: found_list in
        if unfreeze_inner p1 n_comps list then
          _ ← SET_PAIR_STATE p NICE_CHECK_WAITING;
          unfreeze_outer n_comps list i found_list true
        else unfreeze_outer n_comps list i found_list result
  end.

Definition priv_conn_check_unfreeze_next (sid : Z) : M bool :=
  s ← stream_at sid;
  unfreeze_outer (n_components s) (conncheck_list s) (conncheck_list s) [] false.

(** Set the pairs of [l] that satisfy [P] to Waiting; whether there was one. *)
Fixpoint unfreeze_matching (P : CandidateCheckPair → M bool) (l : list pptr) (found : bool) : M bool :=
  match l with
  | [] => mret found
  | p :: l =>
      r ← pair_at p; b ← P r;
      if (b : bool) then _ ← SET_PAIR_STATE p NICE_CHECK_WAITING; unfreeze_matching P l true
      else unfreeze_matching P l found
  end.

(** Step (2) for one other stream [sid]; [ok_sid] is the stream of the check
    that succeeded. *)
Definition unfreeze_other (ok_sid sid : Z) : M unit :=
  if sid =? ok_sid then mret tt
  else
    s ← stream_at sid;
    let l := conncheck_list s in
    active ← priv_is_checklist_active sid;
    if (active : bool) then
      _ ← unfreeze_matching (λ p,
        if in_state NICE_CHECK_FROZEN p
        then priv_foundation_matches_a_valid_pair (p_foundation p) ok_sid else mret false) l false;
      mret tt
    else
      frozen ← priv_is_checklist_frozen sid;
      if (frozen : bool) then
        match_found ← unfreeze_matching
          (λ p, priv_foundation_matches_a_valid_pair (p_foundation p) ok_sid) l false;
        if (match_found : bool) then mret tt
        else _ ← priv_conn_check_unfreeze_next sid; mret tt
      else mret tt.

Definition priv_conn_check_unfreeze_related (sid : Z) (ok_check : pptr) : M unit :=
  ok ← pair_at ok_check;
  _ ← assert_st (in_state NICE_CHECK_SUCCEEDED ok);
  s ← stream_at sid;
  _ ← assert_st (s_id s =? p_stream_id ok);
  _ ← unfreeze_matching (λ p,
    mret ((p_stream_id p =? p_stream_id ok) && in_state NICE_CHECK_FROZEN p &&
          bool_decide (p_foundation p = p_foundation ok))) (conncheck_list s) false;
  all_valid ← priv_all_components_have_valid_pair (p_stream_id ok);
  if (all_valid : bool) then l ← stream_ids; for_each l (unfreeze_other (p_stream_id ok))
  else mret tt.

(** ** STUN transactions *)

Definition zero_transaction : StunTransaction :=
  {| next_tick := {| tv_sec := 0; tv_usec := 0 |};
     stun_timer := {| deadline := {| tv_sec := 0; tv_usec := 0 |}; delay := 0;
                      retransmissions := 0; max_retransmissions := 0 |};
     stun_message := None |}.

Definition priv_add_stun_transaction (p : pptr) : M tptr :=
  t ← new_stun zero_transaction;
  _ ← upd_pair p (λ r, r <| stun_transactions := t :: stun_transactions r |> <| retransmit := true |>);
  mret t.

Definition priv_forget_stun_transaction (sid cid : Z) (t : tptr) : M unit :=
  r ← stun_at t;
  match stun_message r with
  | None => mret tt
  | Some msg =>
      id ← lift (stun_message_id msg);
      upd_comp sid cid (λ c,
        c <| component_stun_agent := (stun_agent_forget_transaction (component_stun_agent c) id).1 |>)
  end.

Definition priv_remove_stun_transaction (p : pptr) (t : tptr) (sid cid : Z) : M unit :=
  _ ← priv_forget_stun_transaction sid cid t;
  _ ← upd_pair p (λ r, r <| stun_transactions := g_slist_remove (stun_transactions r) t |>);
  free_stun t.

(** [component]: the stream and component ids, or [None] for [NULL]. *)
Definition priv_free_all_stun_transactions (p : pptr) (component : option (Z * Z)) : M unit :=
  r ← pair_at p;
  _ ← match component with
      | Some (sid, cid) => for_each (stun_transactions r) (priv_forget_stun_transaction sid cid)
      | None => mret tt
      end;
  _ ← for_each (stun_transactions r) free_stun;
  upd_pair p (λ r, r <| stun_transactions := [] |>).

Definition candidate_check_pair_fail (sid : Z) (p : pptr) : M unit :=
  s ← stream_at sid;
  r ← pair_at p;
  let component := nice_stream_find_component_by_id s (p_component_id r) in
  _ ← SET_PAIR_STATE p NICE_CHECK_FAILED;
  priv_free_all_stun_transactions p ((λ c, (sid, c_id c)) <$> component).

Definition candidate_check_pair_free (p : pptr) : M unit :=
  _ ← priv_remove_pair_from_triggered_check_queue p;
  _ ← priv_free_all_stun_transactions p None;
  free_pair p.

(** ** Credentials of a check *)

Definition NICE_STREAM_MAX_UNAME : Z := 514.
Definition STUN_MAX_MESSAGE_SIZE_IPV6 : Z := 1280.
Definition colon : bytes := [58].

(** Decimal digits, as [%u] and [%d] print a non-negative number below 10^10. *)
Fixpoint digits (fuel : nat) (n : Z) (acc : bytes) : bytes :=
  match fuel with
  | O => acc
  | S fuel =>
      let acc := 48 + n mod 10 :: acc in
      if n / 10 =? 0 then acc else digits fuel (n / 10) acc
  end.
Definition show_decimal (n : Z) : bytes := digits 10 n [].

(** Returns the octets written to [dest]; they are [len] many. *)
Definition priv_gen_username (compat : NiceCompatibility) (component_id : Z)
    (remote local : bytes) (dest_len : Z) : bytes :=
  let remote_len := zlen remote in
  let local_len := zlen local in
  if (0 <? remote_len) && (0 <? local_len) then
    match compat with
    | NICE_COMPATIBILITY_RFC5245 =>
        if remote_len + local_len + 1 <=? dest_len then remote ++ colon ++ local else []
    | NICE_COMPATIBILITY_WLM2009 | NICE_COMPATIBILITY_OC2007R2 =>
        if remote_len + local_len + 4 <=? dest_len then
          let d := remote ++ colon ++ local in
          d ++ (if zlen d mod 4 =? 0 then [] else repeat 0 (Z.to_nat (4 - zlen d mod 4)))
        else []
    | NICE_COMPATIBILITY_GOOGLE =>
        if remote_len + local_len <=? dest_len then remote ++ local else []
    | NICE_COMPATIBILITY_MSN | NICE_COMPATIBILITY_OC2007 =>
        let component_str := show_decimal component_id in
        let local_decoded := g_base64_decode local in
        let remote_decoded := g_base64_decode remote in
        let total_len := zlen remote_decoded + zlen local_decoded + 3 + 2 * zlen component_str in
        let padding := 4 - total_len mod 4 in
        if total_len + padding <=? dest_len then
          remote_decoded ++ colon ++ component_str ++ colon ++ local_decoded ++ colon ++
          component_str ++ repeat 0 (Z.to_nat padding)
        else []
    end
  else [].

Definition priv_create_username (compat : NiceCompatibility) (stream : option NiceStream)
    (component_id : Z) (remote local : option NiceCandidate) (dest_len : Z) (inbound : bool) : bytes :=
  let or_ufrag (u : option bytes) (f : NiceStream → bytes) : option bytes :=
    match u with Some u => Some u | None => f <$> stream end in
  let remote_username := or_ufrag (remote ≫= username) remote_ufrag in
  let local_username := or_ufrag (local ≫= username) local_ufrag in
  match local_username, remote_username with
  | Some l, Some r =>
      if inbound then priv_gen_username compat component_id l r dest_len
      else priv_gen_username compat component_id r l dest_len
  | _, _ => []
  end.

(** [None]: [*password] is not assigned. *)
Definition priv_get_password (compat : NiceCompatibility) (stream : option NiceStream)
    (remote : option NiceCandidate) : option bytes :=
  if bool_decide (compat = NICE_COMPATIBILITY_GOOGLE) then None
  else match remote ≫= password with
       | Some p => Some p
       | None => remote_password <$> stream
       end.

(** ** Sending a check *)

(** RFC 5245, section 16. *)
Definition priv_compute_conncheck_timer (sid : Z) : M Z :=
  l ← checklist sid;
  let waiting_and_in_progress :=
    zlen (filter (λ '(_, p), in_state NICE_CHECK_IN_PROGRESS p = true ∨
                             in_state NICE_CHECK_WAITING p = true) l) in
  n ← priv_number_of_active_check_lists;
  ta ← get timer_ta;
  rel ← get reliable;
  let rto := u32 (u32 (ta * n) * waiting_and_in_progress) in
  mret (if (rel : bool) then Z.max rto 500 else Z.max rto 100).

(** [msg] is sent again with the checksum of the old clients, and restored. *)
Definition ms_ice2_legacy_conncheck_send (legacy : bool) (msg : StunMessage) (sock : option Z)
    (remote_addr : NiceAddress) : M unit :=
  if negb legacy then mret tt
  else
    f ← lift (stun_message_find msg STUN_ATTRIBUTE_FINGERPRINT);
    match f with
    | None => mret tt
    | Some (off, len) =>
        if negb (len =? 4) then mret tt
        else
          buffer_len ← lift (stun_message_length msg);
          fpr ← lift (stun_fingerprint (msg_buffer msg) buffer_len true);
          b ← lift (store (msg_buffer msg) off (Bytes.le 4 fpr));
          d ← lift (slice b 0 buffer_len);
          act (Socket_send sock remote_addr d)
    end.

(** Whether the check carries USE-CANDIDATE; in the modes without nomination
    attribute the pair is marked at once. *)
Definition check_cand_use (p : pptr) (r : CandidateCheckPair) : M bool :=
  c ← get compat;
  controlling ← get controlling_mode;
  if NICE_AGENT_IS_COMPATIBLE_WITH_RFC5245_OR_OC2007R2 c then
    mode ← get nomination_mode;
    mret (match mode with
          | NICE_NOMINATION_MODE_REGULAR => use_candidate_on_next_check r
          | NICE_NOMINATION_MODE_AGGRESSIVE => controlling
          end)
  else
    _ ← when controlling (upd_pair p (λ r, r <| nominated := controlling |>));
    mret controlling.

(** The timer of a new transaction, and its first timeout. *)
Definition start_transaction_timer (sid : Z) (t : tptr) (sock : option Z) : M unit :=
  clk ← get stun_clock;
  now ← get wall_clock;
  s ← deref_socket sock;
  '(timeout, timer) ←
    (if nice_socket_is_reliable s then
       timeout ← get stun_reliable_timeout;
       timer ← lift (stun_timer_start_reliable clk timeout);
       mret (timeout, timer)
     else
       timeout ← priv_compute_conncheck_timer sid;
       n ← get stun_max_retransmissions;
       timer ← lift (stun_timer_start clk timeout n);
       mret (timeout, timer));
  upd_stun t (λ r, r <| stun_timer := timer |>
                     <| next_tick := g_time_val_add now (u32 (timeout * 1000)) |>).

(** A TCP-ACTIVE candidate connects to the peer with a socket of its own. *)
Definition connect_tcp_active (sid cid : Z) (p : pptr) (r : CandidateCheckPair)
    (local remote : NiceCandidate) : M unit :=
  s ← deref_socket (p_sockptr r);
  if negb (socket_has_fileno s) && negb (bool_decide (socket_type s = NICE_SOCKET_TYPE_UDP_TURN)) &&
     bool_decide (transport local = NICE_CANDIDATE_TRANSPORT_TCP_ACTIVE)
  then
    match nice_tcp_active_socket_connect s (addr remote) with
    | Some new_socket =>
        _ ← upd_pair p (λ r, r <| p_sockptr := Some new_socket |>);
        act (Attach_socket sid cid new_socket)
    | None => mret tt
    end
  else mret tt.

(** Returns whether the result is 0 (success). *)
Definition conn_check_send (p : pptr) : M bool :=
  r ← pair_at p;
  let sid := p_stream_id r in
  let cid := p_component_id r in
  a ← get id;
  match agent_find_component a sid cid with
  | None => mret false
  | Some (stream, component) =>
      remote ← cand_at (p_remote r);
      local ← cand_at (p_local r);
      let uname := priv_create_username (compat a) (Some stream) cid (Some remote) (Some local)
        NICE_STREAM_MAX_UNAME false in
      let pwd := priv_get_password (compat a) (Some stream) (Some remote) in
      let pwd := if bool_decide (compat a = NICE_COMPATIBILITY_MSN) ||
                    bool_decide (compat a = NICE_COMPATIBILITY_OC2007)
                 then g_base64_decode <$> pwd else pwd in
      cand_use ← check_cand_use p r;
      if zlen uname =? 0 then mret false
      else
        t ← priv_add_stun_transaction p;
        n ← get transids;
        _ ← put transids (n + 1);
        '(buffer_len, sa, msg) ← lift (stun_usage_ice_conncheck_create PACKAGE_STRING
          (component_stun_agent component)
          {| msg_agent := None; msg_buffer := []; msg_key := None;
             msg_long_term_key := repeat 0 16; msg_long_term_valid := false |}
          (repeat 0 (Z.to_nat STUN_MAX_MESSAGE_SIZE_IPV6)) (transid n) (Some uname) pwd
          cand_use (controlling_mode a) (prflx_priority r) (tie_breaker a) (Some (foundation local))
          (agent_to_ice_compatibility (compat a)));
        _ ← upd_comp sid cid (λ c, c <| component_stun_agent := sa |>);
        _ ← upd_stun t (λ x, x <| stun_message := Some msg |>);
        if buffer_len =? 0 then
          _ ← priv_remove_stun_transaction p t sid cid;
          mret false
        else
          _ ← start_transaction_timer sid t (p_sockptr r);
          _ ← connect_tcp_active sid cid p r local remote;
          r ← pair_at p;
          d ← lift (slice (msg_buffer msg) 0 buffer_len);
          _ ← act (Socket_send (p_sockptr r) (addr remote) d);
          _ ← when (bool_decide (compat a = NICE_COMPATIBILITY_OC2007R2))
                (ms_ice2_legacy_conncheck_send (ms_ice2_send_legacy_connchecks sa) msg (p_sockptr r)
                   (addr remote));
          mret true
  end.

Definition priv_conn_check_initiate (p : pptr) : M bool :=
  _ ← SET_PAIR_STATE p NICE_CHECK_IN_PROGRESS;
  ok ← conn_check_send p;
  if (ok : bool) then mret true else _ ← SET_PAIR_STATE p NICE_CHECK_FAILED; mret false.

(** ** Forming the check list *)

Definition conn_check_compare (a b : CandidateCheckPair) : Z :=
  if p_priority b <? p_priority a then -1
  else if p_priority a <? p_priority b then 1 else 0.

Definition store_conncheck_list (sid : Z) (l : list pptr) : M unit :=
  upd_stream sid (λ s, s <| conncheck_list := l |>).

(** [g_slist_insert_sorted (list, pair, conn_check_compare)] *)
Definition insert_pair (sid : Z) (p : pptr) : M unit :=
  l ← checklist sid;
  r ← pair_at p;
  store_conncheck_list sid (g_slist_insert_sorted (λ x y, conn_check_compare x.2 y.2) l (p, r)).*1.

(** The loop of [priv_limit_conn_check_list_size]: [valid] pairs were seen. *)
Fixpoint limit_loop (l : list pptr) (valid upper_limit : Z) : M (list pptr) :=
  match l with
  | [] => mret []
  | p :: l =>
      let valid := u32 (valid + 1) in
      if upper_limit <? valid then
        _ ← candidate_check_pair_free p;
        limit_loop l valid upper_limit
      else l ← limit_loop l valid upper_limit; mret (p :: l)
  end.
Definition priv_limit_conn_check_list_size (l : list pptr) (upper_limit : Z) : M (list pptr) :=
  limit_loop l 0 upper_limit.

(** The loop under the label [again]: lower [priority], skipping 0, until [taken]
    does not hold. *)
Fixpoint unique_loop (fuel : nat) (taken : Z → bool) (priority : Z) : outcome Z :=
  let priority := if priority =? 0 then u32 (priority - 1) else priority in
  if taken priority then
    match fuel with O => Oof | S fuel => unique_loop fuel taken (u32 (priority - 1)) end
  else mret priority.

Fixpoint candidates_at (l : list cptr) : M (list NiceCandidate) :=
  match l with [] => mret [] | c :: l => r ← cand_at c; rs ← candidates_at l; mret (r :: rs) end.

(** At most as many rounds as there are candidates, and one more for 0. *)
Definition ensure_unique_priority (sid cid : Z) (prio : Z) : M Z :=
  c ← comp_at sid cid;
  cs ← candidates_at (local_candidates c);
  lift (unique_loop (S (length cs)) (λ q, existsb (λ r, priority r =? q) cs) prio).

Definition peer_reflexive_candidate_priority (local_candidate : cptr) : M Z :=
  l ← cand_at local_candidate;
  c ← get compat;
  rel ← get reliable;
  let candidate_priority := (nice_candidate_new NICE_CANDIDATE_TYPE_PEER_REFLEXIVE)
    <| transport := transport l |> <| cand_component_id := cand_component_id l |>
    <| base_addr := addr l |> in
  match c with
  | NICE_COMPATIBILITY_GOOGLE => mret (nice_candidate_jingle_priority candidate_priority)
  | NICE_COMPATIBILITY_MSN | NICE_COMPATIBILITY_OC2007 =>
      mret (nice_candidate_msn_priority candidate_priority)
  | NICE_COMPATIBILITY_OC2007R2 => lift (nice_candidate_ms_ice_priority candidate_priority rel false)
  | _ => lift (nice_candidate_ice_priority candidate_priority rel false)
  end.

(** The first pair of the component whose local candidate has this priority. *)
Fixpoint find_local_priority (cid local_priority : Z) (l : list pptr) : M (option CandidateCheckPair) :=
  match l with
  | [] => mret None
  | p :: l =>
      r ← pair_at p;
      if p_component_id r =? cid then
        c ← cand_at (p_local r);
        if priority c =? local_priority then mret (Some r) else find_local_priority cid local_priority l
      else find_local_priority cid local_priority l
  end.

Definition ensure_unique_prflx_priority (sid cid local_priority prflx : Z) : M Z :=
  s ← stream_at sid;
  o ← find_local_priority cid local_priority (conncheck_list s);
  match o with
  | Some r => mret (prflx_priority r)
  | None =>
      l ← checklist sid;
      lift (unique_loop (S (length l))
        (λ q, existsb (λ '(_, r), (p_component_id r =? cid) && (prflx_priority r =? q)) l) prflx)
  end.

(** [g_snprintf (foundation, NICE_CANDIDATE_PAIR_MAX_FOUNDATION, "%s:%s", ...)] *)
Definition pair_foundation (local remote : NiceCandidate) : bytes :=
  take 65 (foundation local ++ colon ++ foundation remote).

Definition zero_pair (sid cid : Z) (local remote : cptr) : CandidateCheckPair :=
  {| p_stream_id := sid; p_component_id := cid; p_local := local; p_remote := remote;
     p_sockptr := None; p_foundation := []; p_state := NICE_CHECK_WAITING; nominated := false;
     valid := false; use_candidate_on_next_check := false;
     mark_nominated_on_response_arrival := false; retransmit := false; discovered_pair := None;
     succeeded_pair := None; p_priority := 0; prflx_priority := 0; stun_transactions := [] |}.

Definition priv_add_new_check_pair (sid cid : Z) (local remote : cptr) (initial_state : NiceCheckState)
  : M pptr :=
  l ← cand_at local;
  r ← cand_at remote;
  let sock := if bool_decide (transport l = NICE_CANDIDATE_TRANSPORT_TCP_PASSIVE) &&
                 bool_decide (type r = NICE_CANDIDATE_TYPE_PEER_REFLEXIVE)
              then sockptr r else sockptr l in
  prio ← agent_candidate_pair_priority local remote;
  p ← new_pair ((zero_pair sid cid local remote) <| p_sockptr := sock |>
        <| p_foundation := pair_foundation l r |> <| p_priority := prio |>
        <| p_state := initial_state |>);
  q ← peer_reflexive_candidate_priority local;
  q ← ensure_unique_prflx_priority sid cid (priority l) q;
  _ ← upd_pair p (λ r, r <| prflx_priority := q |>);
  _ ← insert_pair sid p;
  c ← get compat;
  _ ← (if decide (c = NICE_COMPATIBILITY_RFC5245) then
         s ← stream_at sid;
         upper_limit ← get max_conn_checks;
         l ← priv_limit_conn_check_list_size (conncheck_list s) upper_limit;
         store_conncheck_list sid l
       else mret tt);
  mret p.

Definition conn_check_match_transport (t : NiceCandidateTransport) : NiceCandidateTransport :=
  match t with
  | NICE_CANDIDATE_TRANSPORT_TCP_ACTIVE => NICE_CANDIDATE_TRANSPORT_TCP_PASSIVE
  | NICE_CANDIDATE_TRANSPORT_TCP_PASSIVE => NICE_CANDIDATE_TRANSPORT_TCP_ACTIVE
  | NICE_CANDIDATE_TRANSPORT_TCP_SO | NICE_CANDIDATE_TRANSPORT_UDP => t
  end.

(** Returns the address of the pair, which may have been freed by the limit. *)
Definition priv_conn_check_add_for_candidate_pair_matched (sid cid : Z) (local remote : cptr)
    (initial_state : NiceCheckState) : M pptr :=
  p ← priv_add_new_check_pair sid cid local remote initial_state;
  c ← comp_at sid cid;
  _ ← agent_signal_component_state_change sid cid
    (if bool_decide (c_state c = NICE_COMPONENT_STATE_CONNECTED) ||
        bool_decide (c_state c = NICE_COMPONENT_STATE_READY)
     then NICE_COMPONENT_STATE_CONNECTED else NICE_COMPONENT_STATE_CONNECTING);
  mret p.

Definition conn_check_add_for_candidate_pair (sid cid : Z) (local remote : cptr) : M bool :=
  c ← get compat;
  l ← cand_at local;
  r ← cand_at remote;
  let prunes_srflx := match c with
    | NICE_COMPATIBILITY_RFC5245 | NICE_COMPATIBILITY_WLM2009 | NICE_COMPATIBILITY_OC2007R2 => true
    | _ => false end in
  if prunes_srflx && bool_decide (type l = NICE_CANDIDATE_TYPE_SERVER_REFLEXIVE) then mret false
  else if bool_decide (transport l = NICE_CANDIDATE_TRANSPORT_TCP_PASSIVE) then mret false
  else if bool_decide (transport l = conn_check_match_transport (transport r)) &&
          (sa_family (addr l) =? sa_family (addr r))
  then
    _ ← priv_conn_check_add_for_candidate_pair_matched sid cid local remote NICE_CHECK_FROZEN;
    mret true
  else mret false.

(** The two loops that pair one candidate with those of the other side. *)
Fixpoint add_for_each (sid cid : Z) (skip : NiceCandidate → bool) (pair_with : cptr → M bool)
    (l : list cptr) (added : Z) : M Z :=
  match l with
  | [] => mret added
  | c :: l =>
      r ← cand_at c;
      if skip r then add_for_each sid cid skip pair_with l added
      else
        ret ← pair_with c;
        add_for_each sid cid skip pair_with l (if (ret : bool) then added + 1 else added)
  end.

Definition conn_check_add_for_candidate (sid cid : Z) (remote : cptr) : M Z :=
  r ← cand_at remote;
  c ← get compat;
  if NICE_AGENT_IS_COMPATIBLE_WITH_RFC5245_OR_OC2007R2 c &&
     bool_decide (type r = NICE_CANDIDATE_TYPE_PEER_REFLEXIVE) then mret 0
  else
    relay ← get force_relay;
    comp ← comp_at sid cid;
    add_for_each sid cid (λ l, (relay : bool) && negb (bool_decide (type l = NICE_CANDIDATE_TYPE_RELAYED)))
      (λ local, conn_check_add_for_candidate_pair sid cid local remote) (local_candidates comp) 0.

Definition conn_check_add_for_local_candidate (sid cid : Z) (local : cptr) : M Z :=
  l ← cand_at local;
  c ← get compat;
  if NICE_AGENT_IS_COMPATIBLE_WITH_RFC5245_OR_OC2007R2 c &&
     bool_decide (type l = NICE_CANDIDATE_TYPE_PEER_REFLEXIVE) then mret 0
  else
    comp ← comp_at sid cid;
    add_for_each sid cid (λ _, false)
      (λ remote, conn_check_add_for_candidate_pair sid cid local remote) (remote_candidates comp) 0.

(** ** Freeing and pruning *)

Definition conn_check_stop : M unit :=
  on ← get conncheck_timer_source;
  if negb on then mret tt
  else
    _ ← act Stop_conncheck_timer;
    _ ← put conncheck_timer_source false;
    put conncheck_ongoing_idle_delay 0.

(** Free every pair of the stream's list. *)
Definition free_checklist (sid : Z) : M unit :=
  s ← stream_at sid;
  match conncheck_list s with
  | [] => mret tt
  | l => _ ← for_each l candidate_check_pair_free; store_conncheck_list sid []
  end.

Definition conn_check_free : M unit :=
  l ← stream_ids;
  _ ← for_each l free_checklist;
  conn_check_stop.

Definition conn_check_prune_stream (sid : Z) : M unit :=
  _ ← free_checklist sid;
  l ← get streams;
  if existsb (λ s, negb (bool_decide (conncheck_list s = []))) l then mret tt else conn_check_stop.

(** The highest priority of a nominated valid pair of the component. *)
Definition highest_nominated (cid : Z) (l : list (pptr * CandidateCheckPair)) : Z :=
  fold_left (λ h '(_, p),
    if (p_component_id p =? cid) && valid p && nominated p && (h <? p_priority p)
    then p_priority p else h) l 0.

(** One round of the pruning loop; returns the new [in_progress]. *)
Definition prune_pair (sid cid highest : Z) (p : pptr) (in_progress : Z) : M Z :=
  r ← pair_at p;
  if p_component_id r =? cid then
    if in_state NICE_CHECK_FROZEN r || in_state NICE_CHECK_WAITING r then
      _ ← candidate_check_pair_free p;
      s ← stream_at sid;
      _ ← store_conncheck_list sid (g_slist_remove (conncheck_list s) p);
      mret in_progress
    else if in_state NICE_CHECK_IN_PROGRESS r then
      if p_priority r <? highest then
        _ ← upd_pair p (λ r, r <| retransmit := false |>); mret in_progress
      else mret (in_progress + 1)
    else mret in_progress
  else mret in_progress.

Fixpoint prune_loop (sid cid highest : Z) (l : list pptr) (in_progress : Z) : M Z :=
  match l with
  | [] => mret in_progress
  | p :: l => n ← prune_pair sid cid highest p in_progress; prune_loop sid cid highest l n
  end.

Definition priv_prune_pending_checks (sid cid : Z) : M Z :=
  l ← checklist sid;
  prune_loop sid cid (highest_nominated cid l) l.*1 0.

(** Whether the pair uses the socket. *)
Definition pair_uses_socket (r : CandidateCheckPair) (sock : option Z) : M bool :=
  l ← cand_at (p_local r);
  if bool_decide (sockptr l = sock) then mret true
  else
    c ← cand_at (p_remote r);
    mret (bool_decide (sockptr c = sock) || bool_decide (p_sockptr r = sock)).

Definition prune_socket_pair (sid : Z) (sock : option Z) (p : pptr) : M unit :=
  r ← pair_at p;
  uses ← pair_uses_socket r sock;
  if (uses : bool) then
    _ ← candidate_check_pair_fail sid p;
    _ ← candidate_check_pair_free p;
    s ← stream_at sid;
    store_conncheck_list sid (g_slist_remove (conncheck_list s) p)
  else mret tt.

Definition conn_check_prune_socket (sid cid : Z) (sock : option Z) : M unit :=
  c ← comp_at sid cid;
  _ ← match sp_local (selected_pair c) with
      | Some l =>
          l ← cand_at l;
          when (bool_decide (sockptr l = sock) &&
                bool_decide (c_state c = NICE_COMPONENT_STATE_READY))
            (agent_signal_component_state_change sid cid NICE_COMPONENT_STATE_FAILED)
      | None => mret tt
      end;
  s ← stream_at sid;
  for_each (conncheck_list s) (prune_socket_pair sid sock).

(** ** Selected pairs and component states *)

(** [discovery_prune_socket] and [refresh_prune_candidate_async] are recorded
    as one action. *)
Definition nice_component_update_selected_pair (sid cid : Z) (pair : CandidatePair) : M unit :=
  c ← comp_at sid cid;
  _ ← match sp_local (selected_pair c), turn_candidate c with
      | Some l, Some t =>
          if decide (l = t) then
            r ← cand_at t;
            _ ← conn_check_prune_socket sid cid (sockptr r);
            _ ← act (Prune_turn_candidate t);
            upd_comp sid cid (λ c, c <| turn_candidate := None |>)
          else mret tt
      | _, _ => mret tt
      end;
  _ ← nice_component_clear_selected_pair sid cid;
  _ ← upd_comp sid cid (λ c, c <| selected_pair := pair |>);
  nice_component_add_valid_candidate sid cid (sp_remote pair).

Definition priv_update_selected_pair (sid cid : Z) (p : pptr) : M bool :=
  r ← pair_at p;
  c ← comp_at sid cid;
  _ ← when (sp_priority (selected_pair c) <? p_priority r)
    (_ ← nice_component_update_selected_pair sid cid
           {| sp_local := Some (p_local r); sp_remote := Some (p_remote r);
              sp_priority := p_priority r; sp_prflx_priority := 0 |};
     _ ← act Keepalive_tick;
     r ← pair_at p;
     act (Signal_new_selected_pair (p_stream_id r) cid (p_local r) (p_remote r)));
  mret true.

Definition settled (r : CandidateCheckPair) : bool :=
  in_state NICE_CHECK_FAILED r || in_state NICE_CHECK_SUCCEEDED r || in_state NICE_CHECK_DISCOVERED r.

(** One component, if it exists. *)
Definition fail_component (sid cid : Z) : M unit :=
  a ← get id;
  match agent_find_component a sid cid with
  | None => mret tt
  | Some (_, component) =>
      l ← checklist sid;
      _ ← for_each l (λ '(_, p), assert_st (p_stream_id p =? sid));
      let mine := filter (λ '(_, p), p_component_id p = cid) l in
      let completed := forallb (λ '(_, p), settled p) mine in
      let none_nominated := negb (existsb (λ '(_, p), nominated p) mine) in
      when (completed && none_nominated && negb (bool_decide (remote_candidates component = [])))
        (agent_signal_component_state_change sid cid NICE_COMPONENT_STATE_FAILED)
  end.

Definition priv_update_check_list_failed_components (sid : Z) : M unit :=
  s ← stream_at sid;
  match conncheck_list s with
  | [] => mret tt
  | _ =>
      d ← get discovery_list;
      if existsb (λ d, (d_stream_id d =? sid) && negb (d_done d)) d then mret tt
      else if negb (bool_decide (length d = 0%nat)) then mret tt
      else for_each (map Z.of_nat (seq 1 (Z.to_nat (n_components s)))) (fail_component sid)
  end.

(** [component->state < s] *)
Definition state_below (c : NiceComponent) (s : NiceComponentState) : bool :=
  component_state_to_Z (c_state c) <? component_state_to_Z s.

Definition priv_update_check_list_state_for_ready (sid cid : Z) : M unit :=
  l ← checklist sid;
  if existsb (λ '(_, p), (p_component_id p =? cid) && valid p && nominated p) l then
    n ← priv_prune_pending_checks sid cid;
    if n =? 0 then
      c ← comp_at sid cid;
      _ ← when (state_below c NICE_COMPONENT_STATE_CONNECTING ||
                bool_decide (c_state c = NICE_COMPONENT_STATE_FAILED))
        (agent_signal_component_state_change sid cid NICE_COMPONENT_STATE_CONNECTING);
      c ← comp_at sid cid;
      _ ← when (state_below c NICE_COMPONENT_STATE_CONNECTED)
        (agent_signal_component_state_change sid cid NICE_COMPONENT_STATE_CONNECTED);
      agent_signal_component_state_change sid cid NICE_COMPONENT_STATE_READY
    else mret tt
  else mret tt.

(** ** Walking the live check list *)

(** The node after [p]; [None] when the node of [p] was deleted. *)
Fixpoint next_node (p : pptr) (l : list pptr) : option (option pptr) :=
  match l with
  | [] => None
  | x :: l => if decide (x = p) then Some (head l) else next_node p l
  end.

(** [for (i = stream->conncheck_list; i; i = i->next)] with a body that may
    delete nodes: [i->next] is read after the body.  The body continues with
    new local variables ([inl]) or returns from the function ([inr]). *)
Fixpoint walk {V R} (fuel : nat) (sid : Z) (cur : option pptr) (body : V → pptr → M (V + R)) (v : V)
  : M (V + R) :=
  match cur with
  | None => mret (inl v)
  | Some p =>
      match fuel with
      | O => oof
      | S fuel =>
          r ← body v p;
          match r with
          | inr r => mret (inr r)
          | inl v =>
              s ← stream_at sid;
              match next_node p (conncheck_list s) with
              | None => ub
              | Some nxt => walk fuel sid nxt body v
              end
          end
      end
  end.

(** The bodies only delete nodes, so the length is enough. *)
Definition walk_checklist {V R} (sid : Z) (body : V → pptr → M (V + R)) (v : V) : M (V + R) :=
  s ← stream_at sid;
  walk (length (conncheck_list s)) sid (head (conncheck_list s)) body v.

Definition mark_nominated (sid cid : Z) (p : pptr) : M unit :=
  c ← get compat;
  let full := NICE_AGENT_IS_COMPATIBLE_WITH_RFC5245_OR_OC2007R2 c in
  r ← pair_at p;
  p ← (if in_state NICE_CHECK_SUCCEEDED r then
         match discovered_pair r with
         | Some d =>
             rd ← pair_at d;
             _ ← assert_st (in_state NICE_CHECK_DISCOVERED rd);
             mret d
         | None => mret p
         end
       else mret p);
  r ← pair_at p;
  _ ← when (full && in_state NICE_CHECK_IN_PROGRESS r)
        (upd_pair p (λ r, r <| mark_nominated_on_response_arrival := true |>));
  _ ← when (valid r || negb full) (upd_pair p (λ r, r <| nominated := true |>));
  _ ← when (valid r)
        (comp ← comp_at sid cid;
         _ ← when (bool_decide (c_state comp = NICE_COMPONENT_STATE_FAILED))
           (agent_signal_component_state_change sid cid NICE_COMPONENT_STATE_CONNECTING);
         _ ← priv_update_selected_pair sid cid p;
         comp ← comp_at sid cid;
         when (bool_decide (c_state comp = NICE_COMPONENT_STATE_CONNECTING))
           (agent_signal_component_state_change sid cid NICE_COMPONENT_STATE_CONNECTED));
  r ← pair_at p;
  when (nominated r) (priv_update_check_list_state_for_ready sid cid).

(** A pair matches when it has these two candidates ([None]: [NULL]). *)
Definition priv_mark_pair_nominated (sid cid : Z) (localcand remotecand : option cptr) : M unit :=
  c ← get compat;
  controlling ← get controlling_mode;
  if NICE_AGENT_IS_COMPATIBLE_WITH_RFC5245_OR_OC2007R2 c && (controlling : bool) then mret tt
  else
    _ ← walk_checklist sid (λ (_ : unit) p,
      r ← pair_at p;
      if bool_decide (Some (p_local r) = localcand) && bool_decide (Some (p_remote r) = remotecand)
      then _ ← mark_nominated sid cid p; mret (inl tt : unit + unit)
      else mret (inl tt)) tt;
    mret tt.
End checklist.
