(* ===== verification/CheckTick.v ===== *)
(** * Scheduling of checks (agent/conncheck.c)

    The timer callback of the check lists: retransmissions and ordinary checks
    of a stream, regular nomination, triggered checks, and the end of the
    processing. *)

From stdpp Require Import gmap.
From S2P Require Import Prelude Bytes StateMonad GSList StunMessage StunTimer NiceAddress NiceCandidate IceAgent CheckList.
#[global] Open Scope Z_scope.

Section tick.
Context {env : AgentEnv}.

(** ** One stream *)

Definition next_timeout (t : tptr) (timer : StunTimer) (now : timeval) : M unit :=
  clk ← get stun_clock;
  let timeout := stun_timer_remainder timer clk in
  upd_stun t (λ r, r <| next_tick := g_time_val_add now (u32 (timeout * 1000)) |>).

(** [stun_timer_refresh (&stun->timer)] *)
Definition refresh_transaction (t : tptr) : M (StunTimer * StunUsageTimerReturn) :=
  r ← stun_at t;
  clk ← get stun_clock;
  '(timer, ret) ← lift (stun_timer_refresh (stun_timer r) clk);
  _ ← upd_stun t (λ r, r <| stun_timer := timer |>);
  mret (timer, ret).

(** A transaction that is not the first of its pair only has its timer updated. *)
Definition tick_other (p : pptr) (sid cid : Z) (now : timeval) (t : tptr) : M unit :=
  r ← stun_at t;
  if priv_timer_expired (next_tick r) now then
    '(timer, ret) ← refresh_transaction t;
    match ret with
    | STUN_USAGE_TIMER_RETURN_TIMEOUT => priv_remove_stun_transaction p t sid cid
    | STUN_USAGE_TIMER_RETURN_RETRANSMIT => next_timeout t timer now
    | STUN_USAGE_TIMER_RETURN_SUCCESS => mret tt
    end
  else mret tt.

(** The label [timer_return_timeout]. *)
Definition timer_return_timeout (sid cid : Z) (p : pptr) : M unit :=
  _ ← candidate_check_pair_fail sid p;
  priv_update_check_list_state_for_ready sid cid.

(** The first transaction of a pair in progress.  [inl]: the new
    [keep_timer_going]; [inr]: the function returns. *)
Definition tick_first (sid cid : Z) (now : timeval) (keep : bool) (p : pptr) (t : tptr)
  : M (bool + bool) :=
  r ← stun_at t;
  if negb (priv_timer_expired (next_tick r) now) then mret (inl keep)
  else
    '(timer, ret) ← refresh_transaction t;
    match ret with
    | STUN_USAGE_TIMER_RETURN_TIMEOUT => _ ← timer_return_timeout sid cid p; mret (inl keep)
    | STUN_USAGE_TIMER_RETURN_RETRANSMIT =>
        rp ← pair_at p;
        if negb (retransmit rp) then _ ← timer_return_timeout sid cid p; mret (inl keep)
        else
          remote ← cand_at (p_remote rp);
          match stun_message r with
          | None => ub
          | Some msg =>
              len ← lift (stun_message_length msg);
              d ← lift (slice (msg_buffer msg) 0 len);
              _ ← act (Socket_send (p_sockptr rp) (addr remote) d);
              _ ← next_timeout t timer now;
              mret (inr true)
          end
    | STUN_USAGE_TIMER_RETURN_SUCCESS => _ ← next_timeout t timer now; mret (inl true)
    end.

Definition tick_pair (sid : Z) (now : timeval) (keep : bool) (p : pptr) : M (bool + bool) :=
  r ← pair_at p;
  match stun_transactions r with
  | [] => mret (inl keep)
  | first :: others =>
      a ← get id;
      match agent_find_component a (p_stream_id r) (p_component_id r) with
      | None => mret (inl keep)
      | Some (_, component) =>
          let cid := c_id component in
          _ ← for_each others (tick_other p (p_stream_id r) cid now);
          r ← pair_at p;
          if negb (in_state NICE_CHECK_IN_PROGRESS r) then mret (inl keep)
          else tick_first sid cid now keep p first
      end
  end.

(** The ordinary check, RFC 5245, 5.8. *)
Definition ordinary_check (sid : Z) (keep : bool) : M bool :=
  s ← stream_at sid;
  w ← priv_conn_check_find_next_waiting (conncheck_list s);
  match w with
  | Some p => _ ← priv_conn_check_initiate p; mret true
  | None =>
      frozen ← priv_is_checklist_frozen sid;
      if (frozen : bool) then mret keep
      else
        f ← priv_conn_check_find_next_frozen (conncheck_list s);
        match f with
        | Some p =>
            _ ← SET_PAIR_STATE p NICE_CHECK_WAITING;
            _ ← priv_conn_check_initiate p;
            mret true
        | None => mret keep
        end
  end.

Definition priv_conn_check_tick_stream (sid : Z) : M bool :=
  now ← get wall_clock;
  r ← walk_checklist sid (tick_pair sid now) false;
  match r with
  | inr b => mret b
  | inl keep => ordinary_check sid keep
  end.

(** ** Nomination *)

(** Nominated, or chosen to be. *)
Definition being_nominated (p : CandidateCheckPair) : bool :=
  nominated p || (use_candidate_on_next_check p && negb (in_state NICE_CHECK_FAILED p)).

Fixpoint find_other_stream_pair (sid : Z) (l : list Z) : M (option pptr) :=
  match l with
  | [] => mret None
  | s :: l =>
      if s =? sid then find_other_stream_pair sid l
      else
        st ← stream_at s;
        o ← find_pair being_nominated (conncheck_list st);
        match o with Some p => mret (Some p) | None => find_other_stream_pair sid l end
  end.

Definition succeeded_or_discovered (p : CandidateCheckPair) : bool :=
  in_state NICE_CHECK_SUCCEEDED p || in_state NICE_CHECK_DISCOVERED p.

(** Number of pairs of [l] that satisfy [P]. *)
Definition count_pairs (P : CandidateCheckPair → bool) (l : list (pptr * CandidateCheckPair)) : Z :=
  zlen (filter (λ x, P x.2 = true) l).

(** Same transport, same addresses up to the port. *)
Definition compatible_pairs (r : CandidateCheckPair) (other : pptr) : M bool :=
  lcand1 ← cand_at (p_local r);
  rcand1 ← cand_at (p_remote r);
  o ← pair_at other;
  lcand2 ← cand_at (p_local o);
  rcand2 ← cand_at (p_remote o);
  mret (bool_decide (transport lcand1 = transport lcand2) &&
        nice_address_equal_no_port (addr lcand1) (addr lcand2) &&
        nice_address_equal_no_port (addr rcand1) (addr rcand2)).

Definition compatible_with (r : CandidateCheckPair) (other : option pptr) : M bool :=
  match other with Some q => compatible_pairs r q | None => mret false end.

(** Result of the choice: [this_component_pair], [found_other_component_pair]
    and [found_other_stream_pair]. *)
Fixpoint select_pair (cid : Z) (other_component other_stream : option pptr) (l : list pptr)
    (this : option pptr) : M (option pptr * bool * bool) :=
  match l with
  | [] => mret (this, false, false)
  | p :: l =>
      r ← pair_at p;
      if (p_component_id r =? cid) && negb (nominated r) && negb (use_candidate_on_next_check r) && valid r
      then
        p ← match succeeded_pair r with
            | Some s => _ ← assert_st (in_state NICE_CHECK_DISCOVERED r); mret s
            | None => mret p
            end;
        r ← pair_at p;
        _ ← assert_st (in_state NICE_CHECK_SUCCEEDED r);
        let this := match this with None => Some p | Some _ => this end in
        match other_component, other_stream with
        | None, None => mret (this, false, false)
        | _, _ =>
            same ← compatible_with r other_component;
            if (same : bool) then mret (Some p, true, false)
            else
              same ← match other_component with
                     | None => compatible_with r other_stream
                     | Some _ => mret false
                     end;
              if (same : bool) then mret (Some p, false, true)
              else select_pair cid other_component other_stream l this
        end
      else select_pair cid other_component other_stream l this
  end.

Definition NICE_MIN_NUMBER_OF_VALID_PAIRS : Z := 2.

(** The number of valid host-host pairs of the component. *)
Fixpoint count_host_host (cid : Z) (l : list (pptr * CandidateCheckPair)) (n : Z) : M Z :=
  match l with
  | [] => mret n
  | (_, p) :: l =>
      if (p_component_id p =? cid) && valid p then
        lc ← cand_at (p_local p);
        rc ← cand_at (p_remote p);
        count_host_host cid l
          (if bool_decide (type lc = NICE_CANDIDATE_TYPE_HOST) &&
              bool_decide (type rc = NICE_CANDIDATE_TYPE_HOST) then n + 1 else n)
      else count_host_host cid l n
  end.

(** Regular nomination in one component; returns whether a pair was chosen. *)
Definition nominate_component (sid : Z) (other_stream_pair : option pptr) (cid : Z) : M bool :=
  l ← checklist sid;
  let mine p := p_component_id p =? cid in
  let n P := count_pairs (λ p, mine p && P p) l in
  p_host_host_valid ← count_host_host cid l 0;
  if 0 <? n use_candidate_on_next_check then mret false
  else
    let other_component_pair := fst <$> List.find (λ x, negb (mine x.2) && being_nominated x.2) l in
    '(this, found_component, found_stream) ←
      select_pair cid other_component_pair other_stream_pair l.*1 None;
    match this with
    | None => mret false
    | Some p =>
        let first_nomination := bool_decide (other_stream_pair = None) &&
                                bool_decide (other_component_pair = None) in
        let stopping_criterion :=
          (first_nomination && (0 <? p_host_host_valid)) ||
          (first_nomination && (NICE_MIN_NUMBER_OF_VALID_PAIRS <=? n valid)) ||
          (found_component : bool) || (found_stream : bool) ||
          ((n (in_state NICE_CHECK_WAITING) =? 0) && (n (in_state NICE_CHECK_IN_PROGRESS) =? 0) &&
           (n (in_state NICE_CHECK_FROZEN) =? 0)) in
        if stopping_criterion then
          _ ← upd_pair p (λ r, r <| use_candidate_on_next_check := true |>);
          _ ← priv_add_pair_to_triggered_check_queue p;
          mret true
        else mret false
    end.

(** The modes without nomination attribute: the best pair that worked. *)
Definition nominate_component_old (sid cid : Z) : M bool :=
  s ← stream_at sid;
  o ← find_pair (λ p, (p_component_id p =? cid) && succeeded_or_discovered p) (conncheck_list s);
  match o with
  | None => mret false
  | Some p =>
      _ ← upd_pair p (λ r, r <| nominated := true |>);
      _ ← priv_update_selected_pair sid cid p;
      _ ← priv_add_pair_to_triggered_check_queue p;
      mret true
  end.

Fixpoint any_component (f : Z → M bool) (l : list Z) (keep : bool) : M bool :=
  match l with
  | [] => mret keep
  | c :: l => b ← f c; any_component f l (keep || (b : bool))
  end.

Definition priv_conn_check_tick_stream_nominate (sid : Z) : M bool :=
  sids ← stream_ids;
  other_stream_pair ← find_other_stream_pair sid sids;
  s ← stream_at sid;
  l ← checklist sid;
  let s_inprogress := count_pairs (in_state NICE_CHECK_IN_PROGRESS) l in
  let s_nominated := count_pairs (λ p, succeeded_or_discovered p && nominated p) l in
  let s_waiting_for_nomination :=
    count_pairs (λ p, succeeded_or_discovered p && negb (nominated p)) l in
  let keep := 0 <? s_inprogress in
  c ← get compat;
  mode ← get nomination_mode;
  controlling ← get controlling_mode;
  keep ←
    (if (s_nominated <? n_components s) && (0 <? s_waiting_for_nomination) then
       if NICE_AGENT_IS_COMPATIBLE_WITH_RFC5245_OR_OC2007R2 c then
         if bool_decide (mode = NICE_NOMINATION_MODE_REGULAR) && (controlling : bool)
         then any_component (nominate_component sid other_stream_pair) (map c_id (components s)) keep
         else mret keep
       else if (controlling : bool)
       then any_component (nominate_component_old sid) (map c_id (components s)) keep
       else mret keep
     else mret keep);
  _ ← upd_stream sid (λ s, s <| tick_counter := u32 (tick_counter s + 1) |>);
  mret (keep : bool).

(** ** The agent *)

Fixpoint tick_streams (l : list Z) (keep : bool) : M bool :=
  match l with
  | [] => mret keep
  | sid :: l =>
      b1 ← priv_conn_check_tick_stream sid;
      b2 ← priv_conn_check_tick_stream_nominate sid;
      tick_streams l (keep || (b1 : bool) || (b2 : bool))
  end.

(** No work left: unfreeze the lists that are still frozen. *)
Fixpoint unfreeze_leftovers (l : list Z) (keep : bool) : M bool :=
  match l with
  | [] => mret keep
  | sid :: l =>
      frozen ← priv_is_checklist_frozen sid;
      keep ← (if (frozen : bool) then priv_conn_check_unfreeze_next sid else mret keep);
      s ← stream_at sid;
      unfreeze_leftovers l ((keep : bool) || negb (peer_gathering_done s))
  end.

Definition finish_stream (sid : Z) : M unit :=
  _ ← priv_update_check_list_failed_components sid;
  s ← stream_at sid;
  for_each (map c_id (components s)) (priv_update_check_list_state_for_ready sid).

(** The idle delay is added to [timer_ta] by [timer_ta] until the timeout. *)
Definition finish_tick (keep : bool) : M bool :=
  ta ← get timer_ta;
  _ ← upd conncheck_ongoing_idle_delay (λ d, if keep then 0 else u32 (d + ta));
  delay ← get conncheck_ongoing_idle_delay;
  timeout ← get idle_timeout;
  if negb keep && (timeout <=? delay) then
    l ← stream_ids;
    _ ← for_each l finish_stream;
    _ ← conn_check_stop;
    mret false
  else mret true.

Definition priv_conn_check_tick_agent_locked : M bool :=
  n ← priv_number_of_active_check_lists;
  _ ← (if n =? 0 then
         o ← priv_find_first_frozen_check_list;
         match o with
         | Some sid => _ ← priv_conn_check_unfreeze_next sid; mret tt
         | None => mret tt
         end
       else mret tt);
  o ← priv_get_pair_from_triggered_check_queue;
  match o with
  | Some p =>
      ok ← conn_check_send p;
      if (ok : bool) then mret true
      else _ ← SET_PAIR_STATE p NICE_CHECK_FAILED; mret false
  | None =>
      l ← stream_ids;
      keep ← tick_streams l false;
      keep ← (if (keep : bool) then mret true else unfreeze_leftovers l false);
      finish_tick keep
  end.

Definition conn_check_schedule_next : M unit :=
  c ← get conncheck_timer_source;
  k ← get keepalive_timer_source;
  _ ← when (negb c || negb k) (act (Schedule_timer (negb c) (negb k)));
  _ ← put conncheck_timer_source true;
  put keepalive_timer_source true.
End tick.
