(* ===== verification/CheckInbound.v ===== *)
(** * Inbound checks and responses (agent/conncheck.c, agent/discovery.c)

    Triggered checks, checks that arrive before the credentials, role changes,
    peer reflexive candidates, and the processing of a validated request or
    response. *)

From stdpp Require Import gmap.
From S2P Require Import Prelude Bytes StateMonad GSList StunMessage StunHmac StunAgent StunIce NiceAddress NiceCandidate IceAgent CheckList CheckTick.
#[global] Open Scope Z_scope.

Section inbound.
Context {env : AgentEnv}.

Definition NICE_AGENT_MAX_REMOTE_CANDIDATES : Z := 25.
Definition MAX_STUN_DATAGRAM_PAYLOAD : Z := 1300.

Definition priv_match_remote_candidate_transport_and_socket_type (candidate : NiceCandidate)
    (socket : Z) : bool :=
  negb (bool_decide (socket_type socket = NICE_SOCKET_TYPE_UDP_BSD) &&
        bool_decide (transport candidate = NICE_CANDIDATE_TRANSPORT_TCP_ACTIVE)) &&
  negb (bool_decide (socket_type socket = NICE_SOCKET_TYPE_TCP_BSD) &&
        bool_decide (transport candidate = NICE_CANDIDATE_TRANSPORT_UDP)).

(** The address a local candidate is reached at. *)
Definition reached_at (c : NiceCandidate) : NiceAddress :=
  if decide (type c = NICE_CANDIDATE_TYPE_RELAYED) then addr c else base_addr c.

(** ** Roles *)

Definition recalculate_pair (p : pptr) : M unit :=
  r ← pair_at p;
  prio ← agent_candidate_pair_priority (p_local r) (p_remote r);
  upd_pair p (λ r, r <| p_priority := prio |>).

Definition recalculate_stream (sid : Z) : M unit :=
  s ← stream_at sid;
  _ ← for_each (conncheck_list s) recalculate_pair;
  l ← checklist sid;
  l ← lift (g_slist_sort (λ x y, conn_check_compare x.2 y.2) l);
  store_conncheck_list sid l.*1.

Definition recalculate_pair_priorities : M unit :=
  l ← stream_ids;
  for_each l recalculate_stream.

Definition priv_check_for_role_conflict (control : bool) : M unit :=
  c ← get controlling_mode;
  if eqb control c then mret tt
  else
    _ ← put controlling_mode control;
    recalculate_pair_priorities.

(** ** Triggered checks *)

(** The pair an inbound check is about. *)
Fixpoint find_triggered (cid local_socket : Z) (remote_cand : cptr) (l : list pptr) : M (option pptr) :=
  match l with
  | [] => mret None
  | p :: l =>
      r ← pair_at p;
      if (p_component_id r =? cid) && bool_decide (p_remote r = remote_cand) then
        lc ← cand_at (p_local r);
        let sock := if decide (transport lc = NICE_CANDIDATE_TRANSPORT_TCP_PASSIVE)
                    then p_sockptr r else sockptr lc in
        if decide (sock = Some local_socket) then mret (Some p)
        else find_triggered cid local_socket remote_cand l
      else find_triggered cid local_socket remote_cand l
  end.

(** The switch on the state of the pair that was found. *)
Definition retrigger (sid cid : Z) (p : pptr) : M unit :=
  r ← pair_at p;
  match p_state r with
  | NICE_CHECK_WAITING | NICE_CHECK_FROZEN => priv_add_pair_to_triggered_check_queue p
  | NICE_CHECK_IN_PROGRESS =>
      s ← deref_socket (p_sockptr r);
      when (negb (nice_socket_is_reliable s) && retransmit r)
        (priv_add_pair_to_triggered_check_queue p)
  | NICE_CHECK_FAILED =>
      when (retransmit r)
        (_ ← priv_add_pair_to_triggered_check_queue p;
         c ← comp_at sid cid;
         when (bool_decide (c_state c = NICE_COMPONENT_STATE_FAILED))
           (_ ← agent_signal_component_state_change sid cid NICE_COMPONENT_STATE_CONNECTING;
            conn_check_schedule_next))
  | NICE_CHECK_SUCCEEDED => priv_update_check_list_state_for_ready sid cid
  | NICE_CHECK_DISCOVERED => mret tt
  end.

Definition priv_schedule_triggered_check (sid cid local_socket : Z) (remote_cand : cptr) : M bool :=
  s ← stream_at sid;
  o ← find_triggered cid local_socket remote_cand (conncheck_list s);
  match o with
  | Some p =>
      r ← pair_at p;
      p ← match succeeded_pair r with
          | Some q => _ ← assert_st (in_state NICE_CHECK_DISCOVERED r); mret q
          | None => mret p
          end;
      _ ← retrigger sid cid p;
      mret true
  | None =>
      c ← comp_at sid cid;
      local ← find_cand (λ _ r, bool_decide (sockptr r = Some local_socket)) (local_candidates c);
      match local with
      | Some local =>
          p ← priv_conn_check_add_for_candidate_pair_matched sid cid local remote_cand NICE_CHECK_WAITING;
          _ ← priv_add_pair_to_triggered_check_queue p;
          mret true
      | None => mret false
      end
  end.

(** A pair of a TCP-PASSIVE candidate is valid from the start. *)
Definition add_valid_pair (sid cid : Z) (local remote : cptr) : M unit :=
  p ← priv_conn_check_add_for_candidate_pair_matched sid cid local remote NICE_CHECK_SUCCEEDED;
  upd_pair p (λ r, r <| valid := true |>).

(** One early check; whether it was about a known remote candidate. *)
Definition process_early_check (sid cid : Z) (icheck : IncomingCheck) : M bool :=
  c ← comp_at sid cid;
  rcand ← find_cand (λ _ r,
    nice_address_equal (addr r) (ic_from icheck) &&
    priv_match_remote_candidate_transport_and_socket_type r (ic_local_socket icheck)) (remote_candidates c);
  match rcand with
  | None => mret false
  | Some rcand =>
      lcand ← find_cand (λ _ l, nice_address_equal (reached_at l) (socket_addr (ic_local_socket icheck)))
        (local_candidates c);
      match lcand with
      | None => ub
      | Some lcand =>
          l ← cand_at lcand;
          _ ← when (bool_decide (transport l = NICE_CANDIDATE_TRANSPORT_TCP_PASSIVE))
            (add_valid_pair sid cid lcand rcand);
          _ ← priv_schedule_triggered_check sid cid (ic_local_socket icheck) rcand;
          _ ← when (ic_use_candidate icheck)
            (priv_mark_pair_nominated sid cid (Some lcand) (Some rcand));
          mret true
      end
  end.

(** [kept]: the checks seen that stay in the queue. *)
Fixpoint process_early_checks (sid cid : Z) (kept l : list IncomingCheck) : M unit :=
  match l with
  | [] => mret tt
  | icheck :: l =>
      matched ← process_early_check sid cid icheck;
      if (matched : bool) then
        _ ← upd_comp sid cid (λ c, c <| incoming_checks := kept ++ l |>);
        process_early_checks sid cid kept l
      else process_early_checks sid cid (kept ++ [icheck]) l
  end.

Definition conn_check_remote_candidates_set (sid cid : Z) : M unit :=
  s ← stream_at sid;
  if bool_decide (remote_ufrag s = []) then mret tt
  else c ← comp_at sid cid; process_early_checks sid cid [] (incoming_checks c).

Definition conn_check_remote_credentials_set (sid : Z) : M unit :=
  s ← stream_at sid;
  for_each (map c_id (components s)) (conn_check_remote_candidates_set sid).

(** Whether the check was stored. *)
Definition priv_store_pending_check (sid cid : Z) (from : NiceAddress) (sock : Z) (username : bytes)
    (priority : Z) (use_candidate : bool) : M bool :=
  c ← comp_at sid cid;
  if NICE_AGENT_MAX_REMOTE_CANDIDATES <=? zlen (incoming_checks c) then mret false
  else
    _ ← upd_comp sid cid (λ c, c <| incoming_checks := incoming_checks c ++
      [ {| ic_from := from; ic_local_socket := sock; ic_priority := priority;
           ic_use_candidate := use_candidate; ic_username := username |} ] |>);
    mret true.

Definition priv_reply_to_conn_check (sid cid : Z) (lcand rcand : option cptr) (toaddr : NiceAddress)
    (sock rbuf_len : Z) (msg : StunMessage) (legacy use_candidate : bool) : M unit :=
  _ ← match rcand with
      | Some c => r ← cand_at c; assert_st (nice_address_equal (addr r) toaddr)
      | None => mret tt
      end;
  d ← lift (slice (msg_buffer msg) 0 rbuf_len);
  _ ← act (Socket_send (Some sock) toaddr d);
  c ← get compat;
  _ ← when (bool_decide (c = NICE_COMPATIBILITY_OC2007R2))
    (ms_ice2_legacy_conncheck_send legacy msg (Some sock) toaddr);
  s ← stream_at sid;
  match rcand with
  | Some rcand =>
      when (negb (bool_decide (remote_ufrag s = [])))
        (_ ← priv_schedule_triggered_check sid cid sock rcand;
         when use_candidate (priv_mark_pair_nominated sid cid lcand (Some rcand)))
  | None => mret tt
  end.

(** ** Peer reflexive candidates (discovery.c) *)

(** The first of two streams of candidates, over all streams and components. *)
Definition all_components : M (list NiceComponent) := l ← get streams; mret (concat (map components l)).

Definition priv_compare_turn_servers (turn1 turn2 : option TurnServer) : bool :=
  match turn1, turn2 with
  | None, None => true
  | Some t1, Some t2 => nice_address_equal_no_port (turn_server t1) (turn_server t2)
  | _, _ => false
  end.

(** Foundation and credentials of [n] for [candidate]. *)
Definition share_foundation (candidate n : NiceCandidate) : NiceCandidate :=
  candidate <| foundation := take 32 (foundation n) |>
    <| username := match username n with Some u => Some u | None => username candidate end |>
    <| password := match password n with Some u => Some u | None => password candidate end |>.

Definition same_local_foundation (c : NiceCompatibility) (candidate n : NiceCandidate) : bool :=
  bool_decide (type candidate = type n) && bool_decide (transport candidate = transport n) &&
  nice_address_equal_no_port (base_addr candidate) (base_addr n) &&
  (negb (bool_decide (type candidate = NICE_CANDIDATE_TYPE_RELAYED)) ||
   priv_compare_turn_servers (turn candidate) (turn n)) &&
  negb (bool_decide (c = NICE_COMPATIBILITY_GOOGLE) &&
        bool_decide (type n = NICE_CANDIDATE_TYPE_RELAYED)).

(** [candidate] is not on a list yet. *)
Definition priv_assign_foundation (candidate : NiceCandidate) : M NiceCandidate :=
  cs ← all_components;
  c ← get compat;
  o ← find_cand (λ _ n, same_local_foundation c candidate n) (concat (map local_candidates cs));
  match o with
  | Some n => n ← cand_at n; mret (share_foundation candidate n)
  | None =>
      i ← get next_candidate_id;
      _ ← put next_candidate_id (u32 (i + 1));
      mret (candidate <| foundation := show_decimal i |>)
  end.

Definition remote_prefix : bytes := [114; 101; 109; 111; 116; 101].

(** The loop over [highest]; at most one round per remote candidate fails. *)
Fixpoint highest_loop (fuel : nat) (taken : list bytes) (highest : Z) : outcome Z :=
  if bool_decide (take 32 (remote_prefix ++ show_decimal highest) ∈ taken) then
    match fuel with O => Oof | S fuel => highest_loop fuel taken (u32 (highest + 1)) end
  else mret highest.
Definition priv_highest_remote_foundation (c : NiceComponent) : M Z :=
  rs ← candidates_at (remote_candidates c);
  lift (highest_loop (length rs) (map foundation rs) 1).

Definition same_remote_foundation (candidate n : NiceCandidate) : bool :=
  bool_decide (type candidate = type n) && bool_decide (transport candidate = transport n) &&
  (cand_stream_id candidate =? cand_stream_id n) &&
  nice_address_equal_no_port (addr candidate) (addr n).

(** [component] is the last one with the id, whatever its stream. *)
Definition priv_assign_remote_foundation (candidate : NiceCandidate) : M NiceCandidate :=
  cs ← all_components;
  o ← find_cand (λ _ n, same_remote_foundation candidate n) (concat (map remote_candidates cs));
  match o with
  | Some n => n ← cand_at n; mret (share_foundation candidate n)
  | None =>
      match last (filter (λ c, c_id c = cand_component_id candidate) cs) with
      | Some component =>
          n ← priv_highest_remote_foundation component;
          mret (candidate <| foundation := take 32 (remote_prefix ++ show_decimal n) |>)
      | None => mret candidate
      end
  end.

(** The candidate is added unless it is redundant. *)
Definition priv_add_local_candidate_pruned (sid cid : Z) (candidate : NiceCandidate) : M (option cptr) :=
  comp ← comp_at sid cid;
  o ← find_cand (λ _ c,
    nice_address_equal (base_addr c) (base_addr candidate) &&
    nice_address_equal (addr c) (addr candidate) && bool_decide (transport c = transport candidate))
    (local_candidates comp);
  match o with
  | Some _ => mret None
  | None =>
      c ← new_cand candidate;
      _ ← upd_comp sid cid (λ comp, comp <| local_candidates := local_candidates comp ++ [c] |>);
      _ ← conn_check_add_for_local_candidate sid cid c;
      mret (Some c)
  end.

Definition udp_socket (sock : Z) : bool :=
  bool_decide (socket_type sock = NICE_SOCKET_TYPE_UDP_BSD) ||
  bool_decide (socket_type sock = NICE_SOCKET_TYPE_UDP_TURN).

Definition is_msn (c : NiceCompatibility) : bool :=
  bool_decide (c = NICE_COMPATIBILITY_MSN) || bool_decide (c = NICE_COMPATIBILITY_OC2007).

(** The username made of two decoded ones. *)
Definition joined_username (u1 u2 : option bytes) : bytes :=
  g_base64_encode (g_base64_decode (default [] u1) ++ g_base64_decode (default [] u2)).

Definition discovery_add_peer_reflexive_candidate (sid cid priority : Z) (address : NiceAddress)
    (base_socket : Z) (local remote : option cptr) : M (option cptr) :=
  a ← get id;
  match agent_find_component a sid cid with
  | None => mret None
  | Some _ =>
      l ← match local with Some c => r ← cand_at c; mret (Some r) | None => mret None end;
      r ← match remote with Some c => r ← cand_at c; mret (Some r) | None => mret None end;
      let t := match l, r with
               | Some l, _ => transport l
               | None, Some r => conn_check_match_transport (transport r)
               | None, None => if udp_socket base_socket then NICE_CANDIDATE_TRANSPORT_UDP
                               else NICE_CANDIDATE_TRANSPORT_TCP_PASSIVE
               end in
      candidate ← priv_assign_foundation
        ((nice_candidate_new NICE_CANDIDATE_TYPE_PEER_REFLEXIVE) <| transport := t |>
           <| cand_stream_id := sid |> <| cand_component_id := cid |> <| addr := address |>
           <| sockptr := Some base_socket |> <| base_addr := socket_addr base_socket |>
           <| NiceCandidate.priority := priority |>);
      let candidate :=
        match l, r with
        | Some l, Some r =>
            if is_msn (compat a) then
              candidate <| username := Some (joined_username (username l) (username r)) |>
                        <| password := password l |>
            else candidate <| username := username l |> <| password := password l |>
        | Some l, None => candidate <| username := username l |> <| password := password l |>
        | None, _ => candidate
        end in
      priv_add_local_candidate_pruned sid cid candidate
  end.

(** The priority of a candidate learnt from a check without PRIORITY. *)
Definition learnt_priority (c : NiceCompatibility) (rel : bool) (candidate : NiceCandidate) (prio : Z)
  : outcome Z :=
  if negb (prio =? 0) then mret prio
  else match c with
       | NICE_COMPATIBILITY_GOOGLE => mret (nice_candidate_jingle_priority candidate)
       | NICE_COMPATIBILITY_MSN | NICE_COMPATIBILITY_OC2007 =>
           mret (nice_candidate_msn_priority candidate)
       | NICE_COMPATIBILITY_OC2007R2 => nice_candidate_ms_ice_priority candidate rel false
       | _ => nice_candidate_ice_priority candidate rel false
       end.

Definition discovery_learn_remote_peer_reflexive_candidate (sid cid priority : Z)
    (remote_address : NiceAddress) (nicesock : Z) (local remote : option cptr) : M cptr :=
  c ← get compat;
  rel ← get reliable;
  l ← match local with Some c => r ← cand_at c; mret (Some r) | None => mret None end;
  r ← match remote with Some c => r ← cand_at c; mret (Some r) | None => mret None end;
  let t := match r, l with
           | Some r, _ => transport r
           | None, Some l => conn_check_match_transport (transport l)
           | None, None => if udp_socket nicesock then NICE_CANDIDATE_TRANSPORT_UDP
                           else NICE_CANDIDATE_TRANSPORT_TCP_ACTIVE
           end in
  let candidate :=
    (nice_candidate_new NICE_CANDIDATE_TYPE_PEER_REFLEXIVE) <| addr := remote_address |>
      <| base_addr := remote_address |> <| transport := t |> <| sockptr := Some nicesock |>
      <| cand_stream_id := sid |> <| cand_component_id := cid |> in
  prio ← lift (learnt_priority c rel candidate priority);
  candidate ← priv_assign_remote_foundation (candidate <| NiceCandidate.priority := prio |>);
  let candidate :=
    match r, l with
    | Some r, Some l =>
        if is_msn c then
          candidate <| username := Some (joined_username (username r) (username l)) |>
                    <| password := password r |>
        else candidate <| username := username r |> <| password := password r |>
    | Some r, None => candidate <| username := username r |> <| password := password r |>
    | None, _ => candidate
    end in
  p ← new_cand candidate;
  _ ← upd_comp sid cid (λ comp, comp <| remote_candidates := remote_candidates comp ++ [p] |>);
  _ ← act (Signal_new_remote_candidate p);
  mret p.

(** ** Responses *)

Definition priv_add_peer_reflexive_pair (sid cid : Z) (local_cand : cptr) (parent_pair : pptr) : M pptr :=
  l ← cand_at local_cand;
  parent ← pair_at parent_pair;
  remote ← cand_at (p_remote parent);
  prio ← agent_candidate_pair_priority local_cand (p_remote parent);
  p ← new_pair ((zero_pair sid cid local_cand (p_remote parent)) <| p_sockptr := sockptr l |>
        <| succeeded_pair := Some parent_pair |> <| p_state := NICE_CHECK_DISCOVERED |>
        <| p_foundation := pair_foundation l remote |> <| p_priority := prio |>
        <| nominated := nominated parent |>);
  _ ← upd_pair parent_pair (λ r, r <| discovered_pair := Some p |>);
  q ← peer_reflexive_candidate_priority local_cand;
  q ← ensure_unique_prflx_priority sid cid (priority l) q;
  _ ← upd_pair p (λ r, r <| prflx_priority := q |>);
  _ ← insert_pair sid p;
  mret p.

(** State, queue and transactions of a pair whose check succeeded. *)
Definition set_succeeded (sid cid : Z) (p : pptr) : M unit :=
  _ ← SET_PAIR_STATE p NICE_CHECK_SUCCEEDED;
  _ ← priv_remove_pair_from_triggered_check_queue p;
  priv_free_all_stun_transactions p (Some (sid, cid)).

Definition priv_process_response_check_for_reflexive (sid cid : Z) (p : pptr) (sock : Z)
    (mapped_sockaddr : NiceAddress) (local_candidate remote_candidate : option cptr) : M (option pptr) :=
  let mapped := nice_address_set_from_sockaddr zero_address mapped_sockaddr in
  comp ← comp_at sid cid;
  local_cand ← find_cand (λ _ c, nice_address_equal mapped (addr c)) (local_candidates comp);
  s ← stream_at sid;
  new_pair ← match local_cand with
    | Some c => find_pair (λ r, bool_decide (p_local r = c) &&
                                bool_decide (remote_candidate = Some (p_remote r))) (conncheck_list s)
    | None => mret None
    end;
  new_pair ←
    match new_pair with
    | Some np =>
        _ ← when (bool_decide (np = p)) (upd_pair p (λ r, r <| valid := true |>));
        _ ← set_succeeded sid cid p;
        _ ← nice_component_add_valid_candidate sid cid remote_candidate;
        mret (Some np)
    | None =>
        relay ← get force_relay;
        local_cand ←
          match local_cand with
          | Some c => mret (Some c)
          | None =>
              if (relay : bool) then mret None
              else
                r ← pair_at p;
                discovery_add_peer_reflexive_candidate sid cid (prflx_priority r) mapped sock
                  local_candidate remote_candidate
          end;
        np ← match local_cand with
             | Some c =>
                 np ← priv_add_peer_reflexive_pair sid cid c p;
                 _ ← upd_pair np (λ r, r <| valid := true |>);
                 mret (Some np)
             | None => mret None
             end;
        _ ← set_succeeded sid cid p;
        mret np
    end;
  _ ← match new_pair with
      | Some np =>
          r ← pair_at np;
          when (valid r) (nice_component_add_valid_candidate sid cid remote_candidate)
      | None => mret tt
      end;
  mret new_pair.

(** RFC 5245, 7.1.3.2.4: [ok_pair] is nominated. *)
Definition update_nominated (p ok_pair : pptr) : M unit :=
  c ← get compat;
  controlling ← get controlling_mode;
  mode ← get nomination_mode;
  r ← pair_at p;
  when (NICE_AGENT_IS_COMPATIBLE_WITH_RFC5245_OR_OC2007R2 c &&
        (if (controlling : bool) then
           match mode with
           | NICE_NOMINATION_MODE_REGULAR => use_candidate_on_next_check r
           | NICE_NOMINATION_MODE_AGGRESSIVE => negb (nominated r)
           end
         else mark_nominated_on_response_arrival r))
    (upd_pair ok_pair (λ r, r <| nominated := true |>)).

(** A success response to a check of [p]. *)
Definition process_success (sid cid : Z) (sock : Z) (from : NiceAddress)
    (local_candidate remote_candidate : option cptr) (p : pptr) (mapped : option NiceAddress) : M unit :=
  r ← pair_at p;
  remote ← cand_at (p_remote r);
  if negb (nice_address_equal from (addr remote)) then candidate_check_pair_fail sid p
  else
    ok_pair ←
      match mapped with
      | None =>
          _ ← SET_PAIR_STATE p NICE_CHECK_SUCCEEDED;
          _ ← upd_pair p (λ r, r <| valid := true |>);
          _ ← nice_component_add_valid_candidate sid cid (Some (p_remote r));
          mret None
      | Some mapped =>
          priv_process_response_check_for_reflexive sid cid p sock mapped local_candidate remote_candidate
      end;
    _ ← priv_conn_check_unfreeze_related sid p;
    let ok_pair := default p ok_pair in
    _ ← update_nominated p ok_pair;
    ok ← pair_at ok_pair;
    _ ← when (nominated ok)
      (_ ← priv_update_selected_pair sid cid ok_pair;
       c ← comp_at sid cid;
       when (negb (bool_decide (c_state c = NICE_COMPONENT_STATE_READY)))
         (agent_signal_component_state_change sid cid NICE_COMPONENT_STATE_CONNECTED));
    priv_update_check_list_state_for_ready sid cid.

(** The first transaction of the list with this identifier. *)
Fixpoint find_transaction (id : bytes) (l : list tptr) : M (option tptr) :=
  match l with
  | [] => mret None
  | t :: l =>
      r ← stun_at t;
      match stun_message r with
      | None => ub
      | Some msg =>
          i ← lift (stun_message_id msg);
          if bool_decide (i = id) then mret (Some t) else find_transaction id l
      end
  end.

Fixpoint find_request (id : bytes) (l : list pptr) : M (option (pptr * tptr)) :=
  match l with
  | [] => mret None
  | p :: l =>
      r ← pair_at p;
      o ← find_transaction id (stun_transactions r);
      match o with Some t => mret (Some (p, t)) | None => find_request id l end
  end.

Definition priv_map_reply_to_conn_check_request (sid cid sock : Z) (from : NiceAddress)
    (local_candidate remote_candidate : option cptr) (resp : StunMessage) : M bool :=
  response_id ← lift (stun_message_id resp);
  s ← stream_at sid;
  o ← find_request response_id (conncheck_list s);
  match o with
  | None => mret false
  | Some (p, t) =>
      c ← get compat;
      '(res, sockaddr, _) ← lift (stun_usage_ice_conncheck_process resp (sockaddr_other 0)
        sizeof_sockaddr_storage (agent_to_ice_compatibility c));
      _ ← match res with
          | STUN_USAGE_ICE_RETURN_SUCCESS =>
              _ ← priv_remove_stun_transaction p t sid cid;
              process_success sid cid sock from local_candidate remote_candidate p
                (Some (of_storage sockaddr))
          | STUN_USAGE_ICE_RETURN_NO_MAPPED_ADDRESS =>
              _ ← priv_remove_stun_transaction p t sid cid;
              process_success sid cid sock from local_candidate remote_candidate p None
          | STUN_USAGE_ICE_RETURN_ROLE_CONFLICT =>
              r ← stun_at t;
              match stun_message r with
              | None => ub
              | Some msg =>
                  f ← lift (stun_message_find64 msg STUN_ATTRIBUTE_ICE_CONTROLLED);
                  _ ← priv_check_for_role_conflict
                        (bool_decide (f.1 = STUN_MESSAGE_RETURN_SUCCESS));
                  _ ← priv_remove_stun_transaction p t sid cid;
                  priv_add_pair_to_triggered_check_queue p
              end
          | _ => candidate_check_pair_fail sid p
          end;
      mret true
  end.

(** ** Requests *)

(** The candidates an inbound message is about. *)
Definition inbound_candidates (sid cid nicesock : Z) (from : NiceAddress)
  : M (option cptr * option cptr) :=
  c ← comp_at sid cid;
  remote_candidate ← find_cand (λ _ r,
    nice_address_equal from (addr r) && priv_match_remote_candidate_transport_and_socket_type r nicesock)
    (remote_candidates c);
  local_candidate ← find_cand (λ _ l, nice_address_equal (socket_addr nicesock) (reached_at l))
    (local_candidates c);
  mret (local_candidate, remote_candidate).

(** A peer reflexive remote candidate, paired when the credentials are known. *)
Definition learn_remote (sid cid nicesock priority : Z) (from : NiceAddress)
    (local_candidate remote_candidate2 : option cptr) : M cptr :=
  remote ← discovery_learn_remote_peer_reflexive_candidate sid cid priority from nicesock
    local_candidate remote_candidate2;
  s ← stream_at sid;
  _ ← when (negb (bool_decide (remote_ufrag s = [])))
    (passive ← match local_candidate with
               | Some l => r ← cand_at l; mret (bool_decide (transport r = NICE_CANDIDATE_TRANSPORT_TCP_PASSIVE))
               | None => mret false
               end;
     match local_candidate with
     | Some l => if (passive : bool) then add_valid_pair sid cid l remote
                 else _ ← conn_check_add_for_candidate sid cid remote; mret tt
     | None => _ ← conn_check_add_for_candidate sid cid remote; mret tt
     end);
  mret remote.

(** The modes in which every check nominates. *)
Definition always_nominates (c : NiceCompatibility) : bool :=
  bool_decide (c = NICE_COMPATIBILITY_GOOGLE) || is_msn c.

Definition signal_initial_request (sid : Z) : M unit :=
  s ← stream_at sid;
  when (negb (initial_binding_request_received s))
    (_ ← upd_stream sid (λ s, s <| initial_binding_request_received := true |>);
     act (Signal_initial_binding_request sid)).

(** [case 1] of [conn_check_handle_inbound_stun], from the reply on: [reply] is
    the result of [stun_usage_ice_conncheck_create_reply], [username] the one
    of the request.  Returns the value of the handler's branch. *)
Definition request_accepted (sid cid nicesock : Z) (from : NiceAddress) (req : StunMessage)
    (username : bytes) (local_candidate remote_candidate remote_candidate2 : option cptr)
    (reply : ice_reply) : M unit :=
  c ← get compat;
  use ← lift (stun_usage_ice_conncheck_use_candidate req);
  prio ← lift (stun_usage_ice_conncheck_priority req);
  let use_candidate := use || always_nominates c in
  _ ← signal_initial_request sid;
  remote ← match remote_candidate with
           | Some r => mret r
           | None => learn_remote sid cid nicesock prio from local_candidate remote_candidate2
           end;
  _ ← nice_component_add_valid_candidate sid cid (Some remote);
  _ ← priv_reply_to_conn_check sid cid local_candidate (Some remote) from nicesock (ir_plen reply)
        (ir_msg reply) (ms_ice2_send_legacy_connchecks (ir_agent reply)) use_candidate;
  s ← stream_at sid;
  when (bool_decide (remote_ufrag s = []))
    (_ ← priv_store_pending_check sid cid from nicesock username prio use_candidate; mret tt).

(** The request branch in the modes without per-candidate keys.  [false]: the
    packet is ignored. *)
Definition inbound_request (sid cid nicesock : Z) (from : NiceAddress) (req : StunMessage)
    (username : bytes) (local_candidate remote_candidate remote_candidate2 : option cptr) : M bool :=
  control ← get controlling_mode;
  tie ← get tie_breaker;
  c ← get compat;
  comp ← comp_at sid cid;
  reply ← lift (stun_usage_ice_conncheck_create_reply PACKAGE_STRING (component_stun_agent comp) req
    {| msg_agent := None; msg_buffer := []; msg_key := None; msg_long_term_key := repeat 0 16;
       msg_long_term_valid := false |}
    (repeat 0 (Z.to_nat MAX_STUN_DATAGRAM_PAYLOAD)) (to_storage from) sizeof_sockaddr_storage
    control tie (agent_to_ice_compatibility c));
  _ ← upd_comp sid cid (λ x, x <| component_stun_agent := ir_agent reply |>);
  _ ← when (bool_decide (ir_return reply = STUN_USAGE_ICE_RETURN_ROLE_CONFLICT))
    (priv_check_for_role_conflict (ir_control reply));
  if bool_decide (ir_return reply = STUN_USAGE_ICE_RETURN_SUCCESS) ||
     bool_decide (ir_return reply = STUN_USAGE_ICE_RETURN_ROLE_CONFLICT)
  then
    _ ← request_accepted sid cid nicesock from req username local_candidate remote_candidate
          remote_candidate2 reply;
    mret true
  else mret false.
End inbound.
