(* ===== verification/CheckDemo.v ===== *)
(** * A small agent to run the check lists on

    An environment and an agent with one stream of one component, two local and
    one remote candidates, for concrete runs. *)

From stdpp Require Import gmap.
From S2P Require Import Prelude Bytes StateMonad StunMessage StunHmac StunAgent StunAgentTrans StunAuth StunTimer StunIce NiceAddress NiceCandidate IceAgent CheckList CheckTick CheckInbound.
#[global] Open Scope Z_scope.

(** The host 192.168.0.[n], port 7000. *)
Definition demo_host (n : Z) : NiceAddress :=
  nice_address_set_port (nice_address_set_ipv4 zero_address (0xc0a80000 + n)) 7000.

#[export] Instance demo_env : AgentEnv := {|
  env_crypto := toy_crypto;
  PACKAGE_STRING := [108; 105; 98; 110; 105; 99; 101];
  env_resolver := demo_resolver;
  env_interfaces := demo_interfaces;
  socket_type _ := NICE_SOCKET_TYPE_UDP_BSD;
  nice_socket_is_reliable _ := false;
  socket_addr s := demo_host s;
  socket_has_fileno _ := true;
  nice_tcp_active_socket_connect _ _ := None;
  transid n := be 4 n ++ repeat 0 12;
  rng_int n low high := low + n mod (high - low);
  rng_bytes n len := repeat (n mod 256) (Z.to_nat len);
  g_base64_decode b := b;
  g_base64_encode b := b
|}.

(** Local candidate on the socket [n]. *)
Definition demo_local (n prio : Z) : NiceCandidate :=
  (nice_candidate_new NICE_CANDIDATE_TYPE_HOST) <| addr := demo_host n |> <| base_addr := demo_host n |>
    <| cand_component_id := 1 |> <| cand_stream_id := 1 |> <| NiceCandidate.priority := prio |>
    <| foundation := [48 + n] |> <| sockptr := Some n |>.
Definition demo_remote (n prio : Z) : NiceCandidate := (demo_local n prio) <| sockptr := None |>.

Definition demo_component : NiceComponent :=
  {| c_id := 1; c_state := NICE_COMPONENT_STATE_GATHERING; local_candidates := [1; 2]%positive;
     remote_candidates := [3]%positive; valid_candidates := []; incoming_checks := [];
     selected_pair := null_pair; turn_candidate := None; restart_candidate := None;
     turn_servers := []; fallback_mode := false; tcp_is_closed := true; component_stun_agent := demo_sender |}.
Definition demo_stream : NiceStream :=
  {| s_id := 1; n_components := 1; initial_binding_request_received := false;
     components := [demo_component]; conncheck_list := []; stream_name := None;
     local_ufrag := [97; 98; 99; 100]; local_ufrag_tail := repeat 0 252;
     local_password := repeat 111 22; local_password_tail := repeat 0 234;
     remote_ufrag := [119; 120; 121; 122]; remote_password := repeat 112 22;
     gathering := false; peer_gathering_done := true; tick_counter := 0 |}.

(** [limit]: the greatest number of pairs of a stream. *)
Definition demo_ice (limit : Z) : NiceAgent :=
  {| compat := NICE_COMPATIBILITY_RFC5245; controlling_mode := true; saved_controlling_mode := true;
     use_ice_udp := true; use_ice_tcp := true; tie_breaker := 5;
     nomination_mode := NICE_NOMINATION_MODE_AGGRESSIVE; reliable := false; force_relay := false;
     max_conn_checks := limit; timer_ta := 20; idle_timeout := 5000; stun_max_retransmissions := 7;
     stun_reliable_timeout := 7900; next_candidate_id := 1; streams := [demo_stream];
     triggered_check_queue := []; discovery_list := []; discovery_timer_source := false; conncheck_timer_source := true;
     keepalive_timer_source := true; conncheck_ongoing_idle_delay := 0;
     candidates := list_to_map [(1%positive, demo_local 1 2000); (2%positive, demo_local 2 1000);
                                (3%positive, demo_remote 3 3000)];
     pairs := ∅; transactions := ∅; wall_clock := {| tv_sec := 100; tv_usec := 0 |};
     stun_clock := {| tv_sec := 50; tv_usec := 0 |}; transids := 0; rng_draws := 0; actions := [] |}.

(** The same agent with a nominated valid pair and a frozen one on its list. *)
Definition demo_pair (l : cptr) (st : NiceCheckState) (v : bool) (prio : Z) : CandidateCheckPair :=
  (zero_pair 1 1 l 3%positive) <| p_state := st |> <| valid := v |> <| nominated := v |> <| p_priority := prio |>
    <| p_foundation := [48 + Z.pos l; 58; 51] |>.
Definition demo_nominated : NiceAgent :=
  (demo_ice 100) <| streams := [demo_stream <| conncheck_list := [1; 2]%positive |>] |>
    <| pairs := <[1%positive := demo_pair 1 NICE_CHECK_SUCCEEDED true 2000]>
                (<[2%positive := demo_pair 2 NICE_CHECK_FROZEN false 1000]> ∅) |>.
