(* ===== verification/CheckListFacts.v ===== *)
(** * Check lists: reading the heap, searching, unique priorities

    Rules for the state accesses of the check lists, the searches in a list
    sorted by priority, and the loop that makes priorities unique. *)

From stdpp Require Import gmap sorting.
From S2P Require Import Prelude Bytes StateMonad GSList NiceAddress NiceCandidate IceAgent CheckList CheckDemo.
#[global] Open Scope Z_scope.

(** ** Running accesses *)

Lemma wp_pair_at p r Q a : pairs a !! p = Some r → Q r a → wp (pair_at p) Q a.
Proof. intros H. unfold wp, pair_at. by rewrite H. Qed.
Lemma wp_upd_pair p r f Q a :
  pairs a !! p = Some r → Q tt (a <| pairs := <[p := f r]> (pairs a) |>) → wp (upd_pair p f) Q a.
Proof. intros H. unfold wp, upd_pair. by rewrite H. Qed.
Lemma wp_free_pair p r Q a :
  pairs a !! p = Some r → Q tt (a <| pairs := delete p (pairs a) |>) → wp (free_pair p) Q a.
Proof. intros H. unfold wp, free_pair. by rewrite H. Qed.
Lemma wp_cand_at c r Q a : candidates a !! c = Some r → Q r a → wp (cand_at c) Q a.
Proof. intros H. unfold wp, cand_at. by rewrite H. Qed.
Lemma wp_stream_at sid s Q a : agent_find_stream a sid = Some s → Q s a → wp (stream_at sid) Q a.
Proof. intros H. unfold wp, stream_at. by rewrite H. Qed.
Lemma wp_comp_at sid cid s c Q a :
  agent_find_component a sid cid = Some (s, c) → Q c a → wp (comp_at sid cid) Q a.
Proof. intros H. unfold wp, comp_at. by rewrite H. Qed.

(** Every iteration keeps an invariant over the rest of the list. *)
Lemma wp_for_each {A} (l : list A) body (I : list A → NiceAgent → Prop) Q a :
  I l a →
  (∀ x l' a, I (x :: l') a → wp (body x) (λ _, I l') a) →
  (∀ a, I [] a → Q tt a) → wp (for_each l body) Q a.
Proof.
  intros Hi Hb Hq. revert a Hi. induction l as [| x l IH]; intros a Hi; cbn; [by apply Hq |].
  apply wp_bind. eapply wp_mono; [by apply Hb |]. cbn. intros _ a' Hi'. by apply IH.
Qed.

(** The records behind a list of addresses. *)
Definition records (m : gmap positive CandidateCheckPair) (l : list pptr) : list (pptr * CandidateCheckPair) :=
  omap (λ p, (p,.) <$> m !! p) l.

Definition alive (m : gmap positive CandidateCheckPair) (l : list pptr) : Prop :=
  Forall (λ p, is_Some (m !! p)) l.

Lemma records_cons m p r l : m !! p = Some r → records m (p :: l) = (p, r) :: records m l.
Proof. intros H. unfold records. cbn. by rewrite H. Qed.

Lemma records_fst m l : alive m l → (records m l).*1 = l.
Proof.
  induction 1 as [| p l [r Hr] _ IH]; [done |]. rewrite (records_cons _ _ _ _ Hr). cbn. by rewrite IH.
Qed.

Lemma elem_of_records m l p r : (p, r) ∈ records m l ↔ p ∈ l ∧ m !! p = Some r.
Proof.
  unfold records. rewrite list_elem_of_omap. split.
  - intros (q & Hq & E). destruct (m !! q) eqn:Hm; cbn in E; by simplify_eq.
  - intros [Hp Hm]. exists p. by rewrite Hm.
Qed.

Lemma wp_pairs_at l Q a : alive (pairs a) l → Q (records (pairs a) l) a → wp (pairs_at l) Q a.
Proof.
  revert Q. induction l as [| p l IH]; intros Q H HQ; cbn; [done |].
  apply Forall_cons in H as [[r Hr] Hl]. apply wp_bind. apply (wp_pair_at p r); [done |].
  apply wp_bind. apply IH; [done |]. apply wp_ret. by rewrite <- (records_cons _ _ _ _ Hr).
Qed.

Lemma wp_checklist sid s Q a :
  agent_find_stream a sid = Some s → alive (pairs a) (conncheck_list s) →
  Q (records (pairs a) (conncheck_list s)) a → wp (checklist sid) Q a.
Proof. intros Hs Hl HQ. apply wp_bind. apply (wp_stream_at sid s); [done |]. by apply wp_pairs_at. Qed.

(** A search returns the first pair that satisfies [P]. *)
Lemma wp_find_pair P l Q a :
  alive (pairs a) l →
  (∀ l1 p r l2, l = l1 ++ p :: l2 → pairs a !! p = Some r → P r = true →
     Forall (λ q, ∀ r, pairs a !! q = Some r → P r = false) l1 → Q (Some p) a) →
  (Forall (λ q, ∀ r, pairs a !! q = Some r → P r = false) l → Q None a) →
  wp (find_pair P l) Q a.
Proof.
  intros Hl Hsome Hnone. induction l as [| p l IH]; cbn; [by apply wp_ret, Hnone |].
  apply Forall_cons in Hl as [[r Hr] Hl]. apply wp_bind. apply (wp_pair_at p r); [done |].
  destruct (P r) eqn:HP; [by apply wp_ret, (Hsome [] p r l) |].
  assert (∀ r', pairs a !! p = Some r' → P r' = false) as Hp by (intros; by simplify_eq).
  apply IH; [done | |].
  - intros l1 q r' l2 -> Hq HPq H1. apply (Hsome (p :: l1) q r' l2); [done.. | by constructor].
  - intros H. apply Hnone. by constructor.
Qed.

Lemma wp_exists_pair P l Q a :
  alive (pairs a) l →
  (∀ b, b = true ↔ (∃ p r, p ∈ l ∧ pairs a !! p = Some r ∧ P r = true) → Q b a) →
  wp (exists_pair P l) Q a.
Proof.
  intros Hl HQ. apply wp_bind, wp_find_pair; [done | |].
  - intros l1 p r l2 -> Hp HP _. apply wp_ret, HQ. split; [intros _ | done].
    exists p, r. set_solver.
  - intros Hf. apply wp_ret, HQ. split; [done |]. intros (p & r & Hp & Hr & HP).
    rewrite Forall_forall in Hf. by rewrite (Hf p Hp r Hr) in HP.
Qed.

(** ** The order of the list *)

(** [p] goes before [q]. *)
Definition before (m : gmap positive CandidateCheckPair) (p q : pptr) : Prop :=
  ∀ r s, m !! p = Some r → m !! q = Some s → p_priority s ≤ p_priority r.

Definition sorted (m : gmap positive CandidateCheckPair) (l : list pptr) : Prop :=
  StronglySorted (before m) l.

(** A check list in order is searched in order of priority.  On a list sorted
    by descending priority whose pairs are allocated,
    [priv_conn_check_find_next_waiting] returns a pair in Waiting state of the
    highest priority among those in Waiting state, and [None] only when there
    is none; [priv_conn_check_find_next_frozen] does so for Frozen. *)
Theorem next_check_has_highest_priority (st : NiceCheckState) (l : list pptr) (a : NiceAgent)
    (Hl : alive (pairs a) l) (Hs : sorted (pairs a) l)
    (Hst : st = NICE_CHECK_WAITING ∨ st = NICE_CHECK_FROZEN) :
  ∃ o, (if decide (st = NICE_CHECK_WAITING) then priv_conn_check_find_next_waiting l
        else priv_conn_check_find_next_frozen l) a = Done (o, a) ∧
  match o with
  | Some p => p ∈ l ∧ ∃ r, pairs a !! p = Some r ∧ p_state r = st ∧
      ∀ q s, q ∈ l → pairs a !! q = Some s → p_state s = st → p_priority s ≤ p_priority r
  | None => ∀ q s, q ∈ l → pairs a !! q = Some s → p_state s ≠ st
  end.
Proof.
  assert (wp (find_pair (in_state st) l) (λ o a', a' = a ∧
    match o with
    | Some p => p ∈ l ∧ ∃ r, pairs a !! p = Some r ∧ p_state r = st ∧
        ∀ q s, q ∈ l → pairs a !! q = Some s → p_state s = st → p_priority s ≤ p_priority r
    | None => ∀ q s, q ∈ l → pairs a !! q = Some s → p_state s ≠ st
    end) a) as H.
  { apply wp_find_pair; [done | |].
    - intros l1 p r l2 -> Hp HP H1. split; [done |]. unfold in_state in HP.
      rewrite bool_decide_eq_true in HP.
      split; [apply elem_of_app; right; apply list_elem_of_here |]. exists r. split_and!; [done.. |].
      intros q s Hq Hqs Hst'. apply elem_of_app in Hq as [Hq | [-> | Hq]%elem_of_cons].
      + rewrite Forall_forall in H1. specialize (H1 q Hq s Hqs). unfold in_state in H1.
        by rewrite bool_decide_eq_false in H1.
      + simplify_eq. lia.
      + eapply StronglySorted_app_1_r in Hs. apply StronglySorted_cons in Hs as [Hf _].
        rewrite Forall_forall in Hf. by apply (Hf q Hq r s).
    - intros Hf. split; [done |]. intros q s Hq Hqs. rewrite Forall_forall in Hf.
      specialize (Hf q Hq s Hqs). unfold in_state in Hf. by rewrite bool_decide_eq_false in Hf. }
  apply wp_done in H as (o & a' & E & -> & HP). exists o. split; [| done].
  by destruct Hst as [-> | ->].
Qed.

(** ** Unique priorities *)

(** The [i]-th value tried: downwards from [n], around the 32-bit circle
    without 0. *)
Definition tried (n i : Z) : Z := (n - 1 - i) mod (2 ^ 32 - 1) + 1.

Lemma tried_range n i : 1 ≤ tried n i < 2 ^ 32.
Proof. unfold tried. pose proof (Z.mod_pos_bound (n - 1 - i) (2 ^ 32 - 1) ltac:(lia)). lia. Qed.

Lemma tried_inj n i j : 0 ≤ i < 2 ^ 32 - 1 → 0 ≤ j < 2 ^ 32 - 1 → tried n i = tried n j → i = j.
Proof. unfold tried. intros Hi Hj E. zlia. Qed.

(** Skipping 0. *)
Definition nonzero (p : Z) : Z := if p =? 0 then u32 (p - 1) else p.

Lemma tried_0 n : 1 ≤ n < 2 ^ 32 → tried n 0 = n.
Proof. unfold tried. intros. zlia. Qed.
Lemma tried_next n i : 0 ≤ i → nonzero (u32 (tried n i - 1)) = tried n (i + 1).
Proof.
  intros Hi. pose proof (tried_range n i) as H. unfold nonzero, u32.
  rewrite (Z.mod_small (tried n i - 1)) by lia. unfold tried in *.
  destruct (Z.eqb_spec ((n - 1 - i) mod (2 ^ 32 - 1) + 1 - 1) 0) as [E | E]; zlia.
Qed.

Lemma unique_loop_spec (vs : list Z) (n : Z) (fuel : nat) (i : nat) :
  1 ≤ n < 2 ^ 32 → zlen vs < 2 ^ 32 - 1 → (length vs ≤ i + fuel)%nat →
  (∀ j, (j < i)%nat → tried n (Z.of_nat j) ∈ vs) →
  ∀ p, nonzero p = tried n (Z.of_nat i) →
  ∃ k, unique_loop fuel (λ q, bool_decide (q ∈ vs)) p = Done (tried n (Z.of_nat k)) ∧
    (i ≤ k ≤ length vs)%nat ∧ (tried n (Z.of_nat k) ∉ vs) ∧ (∀ j, (j < k)%nat → tried n (Z.of_nat j) ∈ vs).
Proof.
  intros Hn Hlen. revert i. unfold zlen in Hlen.
  assert (∀ i, (∀ j, (j < i)%nat → tried n (Z.of_nat j) ∈ vs) → (i ≤ length vs)%nat) as Hpigeon.
  { intros i Hi. destruct (decide (i ≤ length vs)%nat) as [| Hgt]; [done | exfalso].
    set (l := map (λ j, tried n (Z.of_nat j)) (seq 0 (S (length vs)))).
    assert (NoDup l) as Hnd.
    { subst l. apply NoDup_fmap_2_strong; [| apply NoDup_seq]. intros x y Hx Hy E.
      apply elem_of_seq in Hx, Hy. apply tried_inj in E; lia. }
    assert (l ⊆ vs) as Hsub.
    { intros v Hv. subst l. apply list_elem_of_fmap in Hv as (j & -> & Hj).
      apply elem_of_seq in Hj. apply Hi. lia. }
    apply (NoDup_submseteq _ _ Hnd) in Hsub. apply submseteq_length in Hsub.
    subst l. rewrite length_map, length_seq in Hsub. lia. }
  induction fuel as [| fuel IH]; intros i Hf Hi p Hp; cbn [unique_loop]; fold (nonzero p); rewrite Hp.
  - case_bool_decide as Hin.
    + exfalso. enough (S i ≤ length vs)%nat by lia. apply Hpigeon. intros j Hj.
      destruct (decide (j = i)) as [-> |]; [done | apply Hi; lia].
    + exists i. split_and!; [done | lia | by apply Hpigeon | done | done].
  - case_bool_decide as Hin.
    + destruct (IH (S i)) with (p := u32 (tried n (Z.of_nat i) - 1)) as (k & E & Hk & Hr).
      * lia.
      * intros j Hj. destruct (decide (j = i)) as [-> |]; [done | apply Hi; lia].
      * rewrite tried_next by lia. f_equal. lia.
      * exists k. split_and!; [done | lia | lia | apply Hr..].
    + exists i. split_and!; [done | lia | by apply Hpigeon | done | done].
Qed.

Lemma unique_loop_ext fuel t1 t2 p :
  (∀ q, t1 q = t2 q) → unique_loop fuel t1 p = unique_loop fuel t2 p.
Proof.
  intros H. revert p. induction fuel as [| fuel IH]; intros p; cbn; rewrite H; [done |].
  by rewrite IH.
Qed.

Lemma wp_candidates_at l Q a :
  Forall (λ c, is_Some (candidates a !! c)) l →
  Q (omap (candidates a !!.) l) a → wp (candidates_at l) Q a.
Proof.
  revert Q. induction l as [| c l IH]; intros Q H HQ; cbn; [done |].
  apply Forall_cons in H as [[r Hr] Hl]. apply wp_bind. apply (wp_cand_at c r); [done |].
  apply wp_bind. apply IH; [done |]. apply wp_ret. cbn in HQ. by rewrite Hr in HQ.
Qed.

Lemma unique_loop_taken (vs : list Z) fuel p :
  is_u32 p → zlen vs < 2 ^ 32 - 1 → (length vs ≤ fuel)%nat →
  ∃ v k, unique_loop fuel (λ q, bool_decide (q ∈ vs)) p = Done v ∧ 1 ≤ v < 2 ^ 32 ∧ (v ∉ vs) ∧
    v = tried (nonzero p) (Z.of_nat k) ∧ (k ≤ length vs)%nat ∧
    ∀ j, (j < k)%nat → tried (nonzero p) (Z.of_nat j) ∈ vs.
Proof.
  intros Hp Hl Hf. unfold is_u32 in Hp.
  assert (1 ≤ nonzero p < 2 ^ 32) as Hn.
  { unfold nonzero, u32. destruct (Z.eqb_spec p 0) as [-> |]; [by vm_compute | lia]. }
  destruct (unique_loop_spec vs (nonzero p) fuel 0%nat) with (p := p) as (k & E & Hk & Hv & Hj);
    [done | done | lia | intros; lia | (by rewrite tried_0) |].
  exists (tried (nonzero p) (Z.of_nat k)), k. pose proof (tried_range (nonzero p) (Z.of_nat k)).
  by split_and!; try lia.
Qed.

(** C34: [ensure_unique_priority] terminates with a priority of its own.  For a
    component with fewer than 2^32 - 1 local candidates it returns without
    touching the state a priority from 1 to 2^32 - 1 that no local candidate of
    the component has, the first free one counting down from the wanted
    priority and around the 32-bit circle without 0. *)
Theorem ensure_unique_priority_fresh {env : AgentEnv} (sid cid prio : Z) (a : NiceAgent)
    (s : NiceStream) (c : NiceComponent) (Hc : agent_find_component a sid cid = Some (s, c))
    (Hl : Forall (λ l, is_Some (candidates a !! l)) (local_candidates c))
    (Hn : zlen (local_candidates c) < 2 ^ 32 - 1) (Hp : is_u32 prio) :
  let taken v := ∃ l r, l ∈ local_candidates c ∧ candidates a !! l = Some r ∧ priority r = v in
  ∃ v k, ensure_unique_priority sid cid prio a = Done (v, a) ∧ 1 ≤ v < 2 ^ 32 ∧ ¬ taken v ∧
    v = tried (nonzero prio) k ∧ 0 ≤ k ≤ zlen (local_candidates c) ∧
    ∀ j, 0 ≤ j < k → taken (tried (nonzero prio) j).
Proof.
  cbv zeta. set (cs := omap (candidates a !!.) (local_candidates c)).
  assert (∀ v, v ∈ map priority cs ↔
    ∃ l r, l ∈ local_candidates c ∧ candidates a !! l = Some r ∧ priority r = v) as Htaken.
  { intros v. rewrite list_elem_of_fmap. split.
    - intros (r & -> & (l & ? & ?)%list_elem_of_omap). eauto.
    - intros (l & r & Hl1 & Hr & <-). exists r. split; [done |]. apply list_elem_of_omap. eauto. }
  assert (length cs ≤ length (local_candidates c))%nat as Hlen.
  { subst cs. clear. induction (local_candidates c) as [| x l IH]; cbn; [lia |].
    destruct (candidates a !! x); cbn; lia. }
  destruct (unique_loop_taken (map priority cs) (S (length cs)) prio)
    as (v & k & E & Hv & Hv' & Hk & Hkl & Hj); [done | | |].
  1, 2: unfold zlen in *; rewrite length_map; lia.
  assert (wp (ensure_unique_priority sid cid prio) (λ x a', x = v ∧ a' = a) a) as H.
  { apply wp_bind. apply (wp_comp_at sid cid s c); [done |].
    apply wp_bind, wp_candidates_at; [done |]. apply (wp_lift _ v); [| done].
    rewrite <- E. apply unique_loop_ext. intros q. apply eq_bool_prop_intro.
    rewrite bool_decide_spec, Is_true_true, existsb_exists, list_elem_of_fmap. split.
    - intros (r & Hr%list_elem_of_In & Eq%Z.eqb_eq). by exists r.
    - intros (r & -> & Hr%list_elem_of_In). exists r. split; [done | apply Z.eqb_refl]. }
  apply wp_done in H as (x & a' & E' & -> & ->). exists v, (Z.of_nat k). rewrite length_map in Hkl.
  split_and!; try done; try (unfold zlen in *; lia).
  - by rewrite <- Htaken.
  - intros j Hj'. rewrite <- Htaken. replace j with (Z.of_nat (Z.to_nat j)) by lia. apply Hj. lia.
Qed.

(** ** Concrete runs *)

Lemma next_check_has_highest_priority_witness :
  ∃ o, priv_conn_check_find_next_frozen [1; 2]%positive demo_nominated = Done (o, demo_nominated) ∧
  match o with Some p => p ∈ [1; 2]%positive | None => True end.
Proof.
  destruct (next_check_has_highest_priority NICE_CHECK_FROZEN [1; 2]%positive demo_nominated) as (o & E & H).
  - repeat constructor; eexists; reflexivity.
  - repeat constructor. intros r t Hr Ht. injection Hr as <-. injection Ht as <-. by_compute.
  - right. reflexivity.
  - exists o. split; [exact E |]. destruct o as [p |]; [exact (proj1 H) | exact I].
Defined.

Lemma ensure_unique_priority_fresh_witness :
  ∃ v k, ensure_unique_priority 1 1 2000 (demo_ice 100) = Done (v, demo_ice 100) ∧
  v = tried (nonzero 2000) k ∧ 0 ≤ k ≤ 2.
Proof.
  destruct (ensure_unique_priority_fresh 1 1 2000 (demo_ice 100) demo_stream demo_component)
    as (v & k & E & _ & _ & Hv & Hk & _).
  - reflexivity.
  - repeat constructor; eexists; reflexivity.
  - reflexivity.
  - split; by_compute.
  - exists v, k. split; [exact E | split; [exact Hv | exact Hk]].
Defined.
