(* ===== verification/CheckListInv.v ===== *)
(** * Check lists stay well formed

    The invariant of the check lists of an agent: no dangling pairs in a list or
    in the triggered check queue, no pair twice, every pair in the list of its
    stream, and every list in order of descending priority; and that every
    operation of the check lists preserves it. *)

From stdpp Require Import gmap sorting.
From S2P Require Import Prelude Bytes StateMonad GSList NiceAddress NiceCandidate IceAgent CheckList CheckTick CheckInbound CheckListFacts.
#[global] Open Scope Z_scope.

(** ** The invariant *)

Record list_ok (m : gmap positive CandidateCheckPair) (s : NiceStream) : Prop := {
  lo_alive : alive m (conncheck_list s);
  lo_nodup : NoDup (conncheck_list s);
  lo_sorted : sorted m (conncheck_list s);
  lo_stream : ∀ p r, p ∈ conncheck_list s → m !! p = Some r → p_stream_id r = s_id s
}.

Record checks_ok (a : NiceAgent) : Prop := {
  ck_ids : NoDup (map s_id (streams a));
  ck_lists : Forall (list_ok (pairs a)) (streams a);
  ck_queue : NoDup (triggered_check_queue a);
  ck_queued : alive (pairs a) (triggered_check_queue a)
}.

(** What the invariant sees of a stream and of a pair. *)
Definition stream_view (s : NiceStream) : Z * list pptr := (s_id s, conncheck_list s).
Definition pair_view (r : CandidateCheckPair) : Z * Z := (p_stream_id r, p_priority r).

(** States that look the same to the invariant. *)
Record same_checks (a b : NiceAgent) : Prop := {
  sc_streams : map stream_view (streams a) = map stream_view (streams b);
  sc_pairs : ∀ p, pair_view <$> pairs a !! p = pair_view <$> pairs b !! p;
  sc_queue : triggered_check_queue a = triggered_check_queue b
}.

#[export] Instance same_checks_preorder : PreOrder same_checks.
Proof.
  split; [done |]. intros a b c [] []. split; [congruence | | congruence].
  intros p. congruence.
Qed.

Lemma view_alive m m' l :
  (∀ p, pair_view <$> m !! p = pair_view <$> m' !! p) → alive m l → alive m' l.
Proof.
  intros H Ha. eapply Forall_impl; [exact Ha |]. intros p [r Hr]. specialize (H p). rewrite Hr in H.
  destruct (m' !! p); [eauto | done].
Qed.

Lemma view_before m m' p q :
  (∀ p, pair_view <$> m !! p = pair_view <$> m' !! p) → before m p q → before m' p q.
Proof.
  intros H Hb r s Hr Hs. pose proof (H p) as Hp. pose proof (H q) as Hq. rewrite Hr in Hp. rewrite Hs in Hq.
  destruct (m !! p) as [r' |] eqn:E1; [| done]. destruct (m !! q) as [s' |] eqn:E2; [| done].
  cbn in Hp, Hq. injection Hp as _ Hp. injection Hq as _ Hq. rewrite <- Hp, <- Hq. by apply Hb.
Qed.

Lemma view_sorted m m' l :
  (∀ p, pair_view <$> m !! p = pair_view <$> m' !! p) → sorted m l → sorted m' l.
Proof.
  intros H. induction 1 as [| p l Hl IH Hp]; constructor; [done |].
  eapply Forall_impl; [exact Hp |]. intros q. by apply view_before.
Qed.

Lemma list_ok_view m m' s s' :
  stream_view s = stream_view s' → (∀ p, pair_view <$> m !! p = pair_view <$> m' !! p) →
  list_ok m s → list_ok m' s'.
Proof.
  unfold stream_view. intros [= Hid Hl] H [Ha Hn Hs Hst]. rewrite Hl in *. split.
  - by eapply view_alive.
  - done.
  - by eapply view_sorted.
  - intros p r Hp Hr. specialize (H p). rewrite Hr in H. destruct (m !! p) as [r' |] eqn:E; [| done].
    cbn in H. injection H as H _. rewrite <- H, <- Hid. by eapply Hst.
Qed.

Lemma same_checks_ok a b : same_checks a b → checks_ok a → checks_ok b.
Proof.
  intros [Hs Hp Hq] [Hi Hl Hn Ha]. split.
  - replace (map s_id (streams b)) with (map fst (map stream_view (streams b))) by
      (rewrite map_map; by apply map_ext). rewrite <- Hs, map_map. by erewrite map_ext.
  - revert Hs Hl. generalize (streams b). clear Hi. induction (streams a) as [| s l IH];
      intros [| s' l'] Hs Hl; try done. injection Hs as H1 H2 Hs. apply Forall_cons in Hl as [Hs1 Hl].
    constructor; [| by apply IH]. eapply list_ok_view; [| done..]. unfold stream_view. by f_equal.
  - by rewrite <- Hq.
  - rewrite <- Hq. by eapply view_alive.
Qed.

(** ** Preservation *)

Definition preserves {A} (m : M A) : Prop :=
  ∀ a x a', checks_ok a → m a = Done (x, a') → checks_ok a'.

Lemma preserves_keeps {A} (m : M A) : keeps same_checks m → preserves m.
Proof. intros H a x a' Ha E. eapply same_checks_ok; [by eapply H | done]. Qed.
Lemma preserves_bind {A B} (m : M A) (f : A → M B) :
  preserves m → (∀ x, preserves (f x)) → preserves (m ≫= f).
Proof. intros Hm Hf a y a'' Ha (x & a' & H1 & H2)%st_bind_inv. eapply Hf; [| done]. by eapply Hm. Qed.
Lemma preserves_ret {A} (x : A) : preserves (mret x).
Proof. by intros a ? ? Ha [= <- <-]. Qed.
Lemma preserves_when b m : preserves m → preserves (when b m).
Proof. destruct b; [done | intros; apply preserves_ret]. Qed.
Lemma preserves_for_each {A} (l : list A) body :
  (∀ x, preserves (body x)) → preserves (for_each l body).
Proof.
  intros H. induction l as [| x l IH]; cbn; [apply preserves_ret |]. by apply preserves_bind.
Qed.

(** Accesses that only read. *)
Lemma keeps_read {A} (f : NiceAgent → option A) :
  keeps same_checks (λ a, match f a with Some x => Done (x, a) | None => Ub end).
Proof. intros a x a' H. destruct (f a); by simplify_eq. Qed.
Lemma keeps_pair_at p : keeps same_checks (pair_at p).
Proof. apply keeps_read. Qed.
Lemma keeps_cand_at c : keeps same_checks (cand_at c).
Proof. apply keeps_read. Qed.
Lemma keeps_stun_at t : keeps same_checks (stun_at t).
Proof. apply keeps_read. Qed.
Lemma keeps_stream_at sid : keeps same_checks (stream_at sid).
Proof. apply keeps_read. Qed.
Lemma keeps_comp_at sid cid : keeps same_checks (comp_at sid cid).
Proof. intros a x a' H. unfold comp_at in H. destruct (agent_find_component a sid cid) as [[] |]; by simplify_eq. Qed.

(** Updates the invariant does not see. *)
Lemma keeps_upd_pair p f :
  (∀ r, pair_view (f r) = pair_view r) → keeps same_checks (upd_pair p f).
Proof.
  intros H a x a' E. unfold upd_pair in E. destruct (pairs a !! p) as [r |] eqn:Hr; simplify_eq.
  split; [done | | done]. intros q. cbn. destruct (decide (q = p)) as [-> |].
  - rewrite lookup_insert_eq, Hr. cbn. by rewrite H.
  - by rewrite lookup_insert_ne.
Qed.

Lemma map_view_update_first P f l :
  (∀ s, stream_view (f s) = stream_view s) →
  map stream_view (update_first P f l) = map stream_view l.
Proof.
  intros H. induction l as [| s l IH]; cbn; [done |]. destruct (P s); cbn; [by rewrite H | by rewrite IH].
Qed.

Lemma keeps_upd_stream sid f :
  (∀ s, stream_view (f s) = stream_view s) → keeps same_checks (upd_stream sid f).
Proof.
  intros H a x a' [= <- <-]. split; [| done | done]. cbn. by rewrite map_view_update_first.
Qed.
Lemma keeps_upd_comp sid cid f : keeps same_checks (upd_comp sid cid f).
Proof. by apply keeps_upd_stream. Qed.

Lemma keeps_new_cand r : keeps same_checks (new_cand r).
Proof. intros a x a' [= <- <-]. by split. Qed.
Lemma keeps_new_stun r : keeps same_checks (new_stun r).
Proof. intros a x a' [= <- <-]. by split. Qed.
Lemma keeps_upd_stun t f : keeps same_checks (upd_stun t f).
Proof. intros a x a' E. unfold upd_stun in E. destruct (transactions a !! t); simplify_eq. by split. Qed.
Lemma keeps_free_stun t : keeps same_checks (free_stun t).
Proof. intros a x a' E. unfold free_stun in E. destruct (transactions a !! t); simplify_eq. by split. Qed.
Lemma keeps_act e : keeps same_checks (act e).
Proof. intros a x a' [= <- <-]. by split. Qed.
Lemma keeps_put {E} (proj : NiceAgent → E) `{!Setter proj} v :
  (∀ a, same_checks a (a <| proj := v |>)) → keeps same_checks (put proj v).
Proof. intros H a x a' [= <- <-]. apply H. Qed.
Lemma keeps_upd {E} (proj : NiceAgent → E) `{!Setter proj} g :
  (∀ a v, same_checks a (a <| proj := v |>)) → keeps same_checks (upd proj g).
Proof. intros H a x a' [= <- <-]. apply H. Qed.
Lemma keeps_for_each {A} (l : list A) body :
  (∀ x, keeps same_checks (body x)) → keeps same_checks (for_each l body).
Proof.
  intros H. induction l as [| x l IH]; cbn; [by apply keeps_ret; apply _ |].
  apply keeps_bind; [apply _ | done | done].
Qed.
#[export] Hint Resolve keeps_pair_at keeps_cand_at keeps_stun_at keeps_stream_at keeps_comp_at
  keeps_upd_comp keeps_new_cand keeps_new_stun keeps_upd_stun keeps_free_stun keeps_act : keeps.

(** Updates of pairs, streams and agent fields that the invariant does not see. *)
Ltac keeps_update :=
  match goal with
  | |- keeps same_checks (upd_pair _ _) => apply keeps_upd_pair; done
  | |- keeps same_checks (upd_stream _ _) => apply keeps_upd_stream; done
  | |- keeps same_checks (put _ _) => apply keeps_put; by intros
  | |- keeps same_checks (upd _ _) => apply keeps_upd; by intros
  | |- keeps same_checks (for_each _ _) => apply keeps_for_each; intros ?
  end.
Ltac keeps_same := repeat first [keeps_step | keeps_update]; auto with keeps.

Section keeps_ops.
Context {env : AgentEnv}.

(** ** Operations the invariant does not see *)

Lemma keeps_deref_socket s : keeps same_checks (deref_socket s).
Proof. unfold deref_socket. keeps_same. Qed.
Lemma keeps_find_pair P l : keeps same_checks (find_pair P l).
Proof. induction l; cbn [find_pair]; keeps_same. Qed.
Hint Resolve keeps_deref_socket keeps_find_pair : keeps.
Lemma keeps_exists_pair P l : keeps same_checks (exists_pair P l).
Proof. unfold exists_pair. keeps_same. Qed.
Hint Resolve keeps_exists_pair : keeps.
Lemma keeps_active sid : keeps same_checks (priv_is_checklist_active sid).
Proof. unfold priv_is_checklist_active. keeps_same. Qed.
Lemma keeps_frozen sid : keeps same_checks (priv_is_checklist_frozen sid).
Proof. unfold priv_is_checklist_frozen. keeps_same. Qed.
Lemma keeps_all_components_valid n i l : keeps same_checks (all_components_valid n i l).
Proof. revert i. induction n; intros i; cbn [all_components_valid]; keeps_same. Qed.
Hint Resolve keeps_active keeps_frozen keeps_all_components_valid : keeps.
Lemma keeps_all_valid sid : keeps same_checks (priv_all_components_have_valid_pair sid).
Proof. unfold priv_all_components_have_valid_pair. keeps_same. Qed.
Lemma keeps_foundation_matches f sid : keeps same_checks (priv_foundation_matches_a_valid_pair f sid).
Proof. unfold priv_foundation_matches_a_valid_pair. keeps_same. Qed.
Lemma keeps_stream_ids : keeps same_checks stream_ids.
Proof. unfold stream_ids. keeps_same. Qed.
Lemma keeps_count_active l n : keeps same_checks (count_active l n).
Proof. revert n. induction l; intros n; cbn [count_active]; keeps_same. Qed.
Lemma keeps_first_frozen l : keeps same_checks (first_frozen l).
Proof. induction l; cbn [first_frozen]; keeps_same. Qed.
Hint Resolve keeps_all_valid keeps_foundation_matches keeps_stream_ids keeps_count_active
  keeps_first_frozen : keeps.
Lemma keeps_number_active : keeps same_checks priv_number_of_active_check_lists.
Proof. unfold priv_number_of_active_check_lists. keeps_same. Qed.
Lemma keeps_find_first_frozen : keeps same_checks priv_find_first_frozen_check_list.
Proof. unfold priv_find_first_frozen_check_list. keeps_same. Qed.
Lemma keeps_set_state p s : keeps same_checks (SET_PAIR_STATE p s).
Proof. unfold SET_PAIR_STATE. keeps_same. Qed.
Hint Resolve keeps_number_active keeps_find_first_frozen keeps_set_state : keeps.

Lemma keeps_unfreeze_outer n l i f b : keeps same_checks (unfreeze_outer n l i f b).
Proof. revert f b. induction i; intros f b; cbn [unfreeze_outer]; keeps_same. Qed.
Hint Resolve keeps_unfreeze_outer : keeps.
Lemma keeps_unfreeze_next sid : keeps same_checks (priv_conn_check_unfreeze_next sid).
Proof. unfold priv_conn_check_unfreeze_next. keeps_same. Qed.
Lemma keeps_unfreeze_matching P l b :
  (∀ r, keeps same_checks (P r)) → keeps same_checks (unfreeze_matching P l b).
Proof. intros HP. revert b. induction l; intros b; cbn [unfreeze_matching]; keeps_same. Qed.
Hint Resolve keeps_unfreeze_next : keeps.
Lemma keeps_unfreeze_other sid sid' : keeps same_checks (unfreeze_other sid sid').
Proof. unfold unfreeze_other. keeps_same; apply keeps_unfreeze_matching; intros ?; keeps_same. Qed.
Hint Resolve keeps_unfreeze_other : keeps.
Lemma keeps_unfreeze_related sid p : keeps same_checks (priv_conn_check_unfreeze_related sid p).
Proof.
  unfold priv_conn_check_unfreeze_related. keeps_same.
  apply keeps_unfreeze_matching; intros ?; keeps_same.
Qed.

Lemma keeps_add_transaction p : keeps same_checks (priv_add_stun_transaction p).
Proof. unfold priv_add_stun_transaction. keeps_same. Qed.
Lemma keeps_forget sid cid t : keeps same_checks (priv_forget_stun_transaction sid cid t).
Proof. unfold priv_forget_stun_transaction. keeps_same. Qed.
Hint Resolve keeps_unfreeze_related keeps_add_transaction keeps_forget : keeps.
Lemma keeps_remove_transaction p t sid cid : keeps same_checks (priv_remove_stun_transaction p t sid cid).
Proof. unfold priv_remove_stun_transaction. keeps_same. Qed.
Lemma keeps_free_all p c : keeps same_checks (priv_free_all_stun_transactions p c).
Proof. unfold priv_free_all_stun_transactions. keeps_same. Qed.
Hint Resolve keeps_remove_transaction keeps_free_all : keeps.
Lemma keeps_pair_fail sid p : keeps same_checks (candidate_check_pair_fail sid p).
Proof. unfold candidate_check_pair_fail. keeps_same. Qed.
Hint Resolve keeps_pair_fail : keeps.

Lemma keeps_pairs_at l : keeps same_checks (pairs_at l).
Proof. induction l; cbn [pairs_at]; keeps_same. Qed.
Hint Resolve keeps_pairs_at : keeps.
Lemma keeps_checklist sid : keeps same_checks (checklist sid).
Proof. unfold checklist. keeps_same. Qed.
Hint Resolve keeps_checklist : keeps.
Lemma keeps_compute_timer sid : keeps same_checks (priv_compute_conncheck_timer sid).
Proof. unfold priv_compute_conncheck_timer. keeps_same. Qed.
Lemma keeps_legacy_send l m s r : keeps same_checks (ms_ice2_legacy_conncheck_send l m s r).
Proof. unfold ms_ice2_legacy_conncheck_send. keeps_same. Qed.
Hint Resolve keeps_compute_timer keeps_legacy_send : keeps.
Lemma keeps_cand_use p r : keeps same_checks (check_cand_use p r).
Proof. unfold check_cand_use. keeps_same. Qed.
Lemma keeps_start_timer sid t s : keeps same_checks (start_transaction_timer sid t s).
Proof. unfold start_transaction_timer. keeps_same. Qed.
Lemma keeps_connect sid cid p r l c : keeps same_checks (connect_tcp_active sid cid p r l c).
Proof. unfold connect_tcp_active. keeps_same. Qed.
Hint Resolve keeps_cand_use keeps_start_timer keeps_connect : keeps.
Lemma keeps_send p : keeps same_checks (conn_check_send p).
Proof. unfold conn_check_send. keeps_same. Qed.
Hint Resolve keeps_send : keeps.
Lemma keeps_initiate p : keeps same_checks (priv_conn_check_initiate p).
Proof. unfold priv_conn_check_initiate. keeps_same. Qed.

Lemma keeps_signal sid cid s : keeps same_checks (agent_signal_component_state_change sid cid s).
Proof.
  intros a x a'. unfold agent_signal_component_state_change.
  destruct (agent_find_component a sid cid) as [[? c] |]; [| by intros [= <- <-]].
  intros E. match type of E with ?m a = _ =>
    assert (keeps same_checks m) as K by (cbv zeta; keeps_same); exact (K a x a' E) end.
Qed.
Lemma keeps_pair_priority l r : keeps same_checks (agent_candidate_pair_priority l r).
Proof. unfold agent_candidate_pair_priority. keeps_same. Qed.
Lemma keeps_add_valid_candidate sid cid c : keeps same_checks (nice_component_add_valid_candidate sid cid c).
Proof. unfold nice_component_add_valid_candidate. keeps_same. Qed.
Lemma keeps_clear_selected sid cid : keeps same_checks (nice_component_clear_selected_pair sid cid).
Proof. unfold nice_component_clear_selected_pair. keeps_same. Qed.
Lemma keeps_find_cand P l : keeps same_checks (find_cand P l).
Proof. induction l; cbn [find_cand]; keeps_same. Qed.
Hint Resolve keeps_initiate keeps_signal keeps_pair_priority keeps_add_valid_candidate
  keeps_clear_selected keeps_find_cand : keeps.

Lemma keeps_candidates_at l : keeps same_checks (candidates_at l).
Proof. induction l; cbn [candidates_at]; keeps_same. Qed.
Hint Resolve keeps_candidates_at : keeps.
Lemma keeps_prflx_priority c : keeps same_checks (peer_reflexive_candidate_priority c).
Proof. unfold peer_reflexive_candidate_priority. keeps_same. Qed.
Lemma keeps_find_local_priority cid q l : keeps same_checks (find_local_priority cid q l).
Proof. induction l; cbn [find_local_priority]; keeps_same. Qed.
Hint Resolve keeps_prflx_priority keeps_find_local_priority : keeps.
Lemma keeps_unique_prflx sid cid q r : keeps same_checks (ensure_unique_prflx_priority sid cid q r).
Proof. unfold ensure_unique_prflx_priority. keeps_same. Qed.
Lemma keeps_conn_check_stop : keeps same_checks conn_check_stop.
Proof. unfold conn_check_stop. keeps_same. Qed.
Lemma keeps_schedule_next : keeps same_checks conn_check_schedule_next.
Proof. unfold conn_check_schedule_next. keeps_same. Qed.
Hint Resolve keeps_unique_prflx keeps_conn_check_stop keeps_schedule_next : keeps.

Lemma keeps_fail_component sid cid : keeps same_checks (fail_component sid cid).
Proof. unfold fail_component. keeps_same. Qed.
Hint Resolve keeps_fail_component : keeps.
Lemma keeps_failed_components sid : keeps same_checks (priv_update_check_list_failed_components sid).
Proof. unfold priv_update_check_list_failed_components. keeps_same. Qed.

Lemma keeps_next_timeout t tm now : keeps same_checks (next_timeout t tm now).
Proof. unfold next_timeout. keeps_same. Qed.
Lemma keeps_refresh t : keeps same_checks (refresh_transaction t).
Proof. unfold refresh_transaction. keeps_same. Qed.
Hint Resolve keeps_failed_components keeps_next_timeout keeps_refresh : keeps.
Lemma keeps_tick_other p sid cid now t : keeps same_checks (tick_other p sid cid now t).
Proof. unfold tick_other. keeps_same. Qed.
Hint Resolve keeps_tick_other : keeps.
Lemma keeps_ordinary_check sid b : keeps same_checks (ordinary_check sid b).
Proof.
  unfold ordinary_check, priv_conn_check_find_next_waiting, priv_conn_check_find_next_frozen. keeps_same.
Qed.
Lemma keeps_find_other_stream sid l : keeps same_checks (find_other_stream_pair sid l).
Proof. induction l; cbn [find_other_stream_pair]; keeps_same. Qed.
Lemma keeps_compatible r o : keeps same_checks (compatible_with r o).
Proof. unfold compatible_with, compatible_pairs. keeps_same. Qed.
Hint Resolve keeps_ordinary_check keeps_find_other_stream keeps_compatible : keeps.
Lemma keeps_select_pair cid oc os l t : keeps same_checks (select_pair cid oc os l t).
Proof. revert t. induction l; intros t; cbn [select_pair]; keeps_same. Qed.
Lemma keeps_count_host cid l n : keeps same_checks (count_host_host cid l n).
Proof. revert n. induction l as [| [] l IH]; intros n; cbn [count_host_host]; keeps_same. Qed.
Lemma keeps_unfreeze_leftovers l b : keeps same_checks (unfreeze_leftovers l b).
Proof. revert b. induction l; intros b; cbn [unfreeze_leftovers]; keeps_same. Qed.
End keeps_ops.

#[export] Hint Resolve keeps_deref_socket keeps_find_pair keeps_exists_pair keeps_active keeps_frozen
  keeps_all_components_valid keeps_all_valid keeps_foundation_matches keeps_stream_ids
  keeps_count_active keeps_first_frozen keeps_number_active keeps_find_first_frozen keeps_set_state
  keeps_unfreeze_outer keeps_unfreeze_next keeps_unfreeze_other keeps_unfreeze_related
  keeps_add_transaction keeps_forget keeps_remove_transaction keeps_free_all keeps_pair_fail
  keeps_pairs_at keeps_checklist keeps_compute_timer keeps_legacy_send keeps_cand_use
  keeps_start_timer keeps_connect keeps_send keeps_initiate keeps_signal keeps_pair_priority
  keeps_add_valid_candidate keeps_clear_selected keeps_find_cand keeps_candidates_at
  keeps_prflx_priority keeps_find_local_priority keeps_unique_prflx keeps_conn_check_stop
  keeps_schedule_next keeps_fail_component keeps_failed_components keeps_next_timeout keeps_refresh
  keeps_tick_other keeps_ordinary_check keeps_find_other_stream keeps_compatible keeps_select_pair
  keeps_count_host keeps_unfreeze_leftovers : keeps.

(** ** The queue *)

Lemma preserves_upd_queue p :
  preserves (_ ← pair_at p; upd triggered_check_queue (λ q, if bool_decide (p ∈ q) then q else q ++ [p])).
Proof.
  intros a x a' [Hi Hl Hn Ha] (r & s & H1 & H2)%st_bind_inv. unfold pair_at in H1.
  destruct (pairs a !! p) as [r' |] eqn:Hp; simplify_eq. injection H2 as <- <-. split; cbn; try done.
  - case_bool_decide; [done |]. apply NoDup_app. split_and!; [done | | apply NoDup_singleton].
    intros q Hq ->%list_elem_of_singleton. done.
  - case_bool_decide; [done |]. apply Forall_app. split; [done |]. by repeat constructor.
Qed.

Section preserves_ops.
Context {env : AgentEnv}.

Lemma preserves_add_triggered p : preserves (priv_add_pair_to_triggered_check_queue p).
Proof.
  intros a x a' Ha (u & b & H1 & H2)%st_bind_inv.
  assert (checks_ok b) as Hb by (eapply preserves_keeps; [apply keeps_set_state | done..]).
  eapply (preserves_upd_queue p b x a' Hb). unfold SET_PAIR_STATE, upd_pair in H1.
  destruct (pairs a !! p) as [r |] eqn:Hr; simplify_eq. unfold mbind, st_bind, pair_at. cbn.
  rewrite lookup_insert_eq. exact H2.
Qed.

Lemma alive_remove m l p : alive m l → alive m (g_slist_remove l p).
Proof.
  induction 1 as [| q l Hq Hl IH]; cbn; [constructor |]. case_decide; [done | by constructor].
Qed.
Lemma NoDup_remove {A} `{EqDecision A} (l : list A) p : NoDup l → NoDup (g_slist_remove l p).
Proof. intros H. rewrite g_slist_remove_filter by done. by apply NoDup_filter. Qed.

Lemma preserves_remove_triggered p : preserves (priv_remove_pair_from_triggered_check_queue p).
Proof.
  intros a x a' [Hi Hl Hn Ha] [= <- <-]. split; cbn; [done.. | by apply NoDup_remove | by apply alive_remove].
Qed.

Lemma preserves_get_triggered : preserves priv_get_pair_from_triggered_check_queue.
Proof.
  unfold priv_get_pair_from_triggered_check_queue. apply preserves_bind; [by apply preserves_keeps; keeps_same |].
  intros [| p q]; [apply preserves_ret |]. apply preserves_bind; [apply preserves_remove_triggered |].
  intros _. apply preserves_ret.
Qed.
End preserves_ops.

(** ** Freeing pairs that are still linked *)

(** The invariant when the pairs [D] have been freed and their nodes not yet
    deleted. *)
Definition without (D l : list pptr) : list pptr := filter (λ p, p ∉ D) l.

Record checks_but (D : list pptr) (a : NiceAgent) : Prop := {
  cb_ids : NoDup (map s_id (streams a));
  cb_lists : Forall (λ s, list_ok (pairs a) (s <| conncheck_list := without D (conncheck_list s) |>)) (streams a);
  cb_queue : NoDup (triggered_check_queue a);
  cb_queued : alive (pairs a) (triggered_check_queue a)
}.

Lemma without_nil l : without [] l = l.
Proof.
  unfold without. induction l as [| p l IH]; [done |]. rewrite filter_cons_True by set_solver. by rewrite IH.
Qed.

Lemma checks_but_nil a : checks_ok a → checks_but [] a.
Proof.
  intros [Hi Hl Hn Ha]. split; try done. eapply Forall_impl; [exact Hl |]. intros s Hs.
  eapply list_ok_view; [| done | exact Hs]. unfold stream_view. cbn. by rewrite without_nil.
Qed.

Lemma same_checks_but D a b : same_checks a b → checks_but D a → checks_but D b.
Proof.
  intros [Hs Hp Hq] [Hi Hl Hn Ha]. split.
  - replace (map s_id (streams b)) with (map fst (map stream_view (streams b))) by
      (rewrite map_map; by apply map_ext). rewrite <- Hs, map_map. by erewrite map_ext.
  - revert Hs Hl. generalize (streams b). clear Hi. induction (streams a) as [| s l IH];
      intros [| s' l'] Hs Hl; try done. injection Hs as H1 H2 Hs. apply Forall_cons in Hl as [Hs1 Hl].
    constructor; [| by apply IH]. eapply list_ok_view; [| done..]. unfold stream_view. cbn. by rewrite H1, H2.
  - by rewrite <- Hq.
  - rewrite <- Hq. by eapply view_alive.
Qed.

Lemma Forall_filter {A} (Q P : A → Prop) `{Pdec : ∀ x, Decision (P x)} l : Forall Q l → Forall Q (filter P l).
Proof.
  rewrite !Forall_forall. intros H x [_ Hx]%list_elem_of_filter. by apply H.
Qed.

Lemma sorted_filter m l (P : pptr → Prop) `{Pdec : ∀ p, Decision (P p)} : sorted m l → sorted m (filter P l).
Proof.
  induction 1 as [| p l Hl IH Hp]; [constructor |]. destruct (decide (P p)).
  - rewrite filter_cons_True by done. constructor; [done |]. by apply Forall_filter.
  - by rewrite filter_cons_False.
Qed.

Lemma delete_before m p q s : before m q s → before (delete p m) q s.
Proof.
  intros H r t Hr Ht. apply lookup_delete_Some in Hr as [_ Hr], Ht as [_ Ht]. by apply H.
Qed.

Lemma list_ok_delete m s p l :
  list_ok m (s <| conncheck_list := l |>) → p ∉ l → list_ok (delete p m) (s <| conncheck_list := l |>).
Proof.
  intros [Ha Hn Hs Hst] Hp. cbn in *. split; cbn.
  - unfold alive in *. rewrite Forall_forall in *. intros q Hq. rewrite lookup_delete_ne by set_solver.
    by apply Ha.
  - done.
  - induction Hs as [| q l Hl IH Hq]; constructor.
    + apply IH; [by apply Forall_cons in Ha as [] | by apply NoDup_cons in Hn as [] | | set_solver].
      intros x r Hx. apply Hst. set_solver.
    + eapply Forall_impl; [exact Hq |]. intros x. apply delete_before.
  - intros q r Hq [_ Hr]%lookup_delete_Some. by eapply Hst.
Qed.

Lemma list_ok_filter m s l (P : pptr → Prop) `{Pdec : ∀ p, Decision (P p)} :
  list_ok m (s <| conncheck_list := l |>) → list_ok m (s <| conncheck_list := filter P l |>).
Proof.
  intros [Ha Hn Hs Hst]. cbn in *. split; cbn.
  - by apply Forall_filter.
  - by apply NoDup_filter.
  - by apply sorted_filter.
  - intros q r [_ Hq]%list_elem_of_filter. by apply Hst.
Qed.

Lemma without_cons p D l : without (p :: D) l = filter (λ q, q ≠ p) (without D l).
Proof.
  unfold without. rewrite list_filter_filter. apply list_filter_iff. intros q. set_solver.
Qed.

(** [candidate_check_pair_free] of a pair whose node is still there. *)
Lemma free_checks_but {env : AgentEnv} D p a x a' :
  checks_but D a → candidate_check_pair_free p a = Done (x, a') → checks_but (p :: D) a'.
Proof.
  intros Ha H. unfold candidate_check_pair_free in H.
  apply st_bind_inv in H as (u1 & b & H1 & H). injection H1 as <- <-.
  apply st_bind_inv in H as (u2 & c & H2 & H3).
  apply (keeps_free_all p None) in H2. unfold free_pair in H3.
  destruct (pairs c !! p) as [r |] eqn:Hr; simplify_eq.
  assert (checks_but D (a <| triggered_check_queue := g_slist_remove (triggered_check_queue a) p |>)) as Hb.
  { destruct Ha as [Hi Hl Hn Hal]. split; cbn; [done | done | by apply NoDup_remove | by apply alive_remove]. }
  pose proof (same_checks_but D _ _ H2 Hb) as [Hi Hl Hn Hal]. destruct Ha as [_ _ Hna _].
  split; cbn; [done | | done |].
  - eapply Forall_impl; [exact Hl |]. intros s Hs. rewrite without_cons.
    apply list_ok_delete; [by apply list_ok_filter |]. intros [Hp _]%list_elem_of_filter. done.
  - pose proof (sc_queue _ _ H2) as Hq. cbn in Hq. unfold alive in *. rewrite Forall_forall in *.
    intros q Hq'. rewrite lookup_delete_ne; [by apply Hal |]. intros <-. rewrite <- Hq in Hq'.
    rewrite g_slist_remove_filter in Hq' by done. by apply list_elem_of_filter in Hq' as [].
Qed.

(** ** Replacing a list *)

Lemma map_id_update_first P (f : NiceStream → NiceStream) l :
  (∀ s, s_id (f s) = s_id s) → map s_id (update_first P f l) = map s_id l.
Proof.
  intros H. induction l as [| s l IH]; cbn; [done |]. destruct (P s); cbn; [by rewrite H | by rewrite IH].
Qed.

Lemma Forall_update_first (Q : NiceStream → Prop) sid f l :
  NoDup (map s_id l) → (∀ s, s ∈ l → s_id s ≠ sid → Q s) →
  (∀ s, List.find (λ s, s_id s =? sid) l = Some s → Q (f s)) →
  Forall Q (update_first (λ s, s_id s =? sid) f l).
Proof.
  intros Hn Hother Hthis. induction l as [| s l IH]; cbn; [constructor |].
  cbn in Hn. apply NoDup_cons in Hn as [Hs Hn]. cbn in Hthis.
  destruct (Z.eqb_spec (s_id s) sid) as [E | E].
  - constructor; [by apply Hthis |]. rewrite Forall_forall. intros t Ht. apply Hother; [set_solver |].
    intros Et. apply Hs, list_elem_of_fmap. exists t. split; [congruence | done].
  - constructor; [apply Hother; [set_solver | done] |]. apply IH; [done | | done].
    intros t Ht. apply Hother. set_solver.
Qed.

Lemma without_disjoint D l : (∀ p, p ∈ D → p ∉ l) → without D l = l.
Proof.
  intros H. unfold without. induction l as [| p l IH]; [done |].
  rewrite filter_cons_True by (intros Hp; by apply (H p Hp), list_elem_of_here).
  rewrite IH; [done |]. intros q Hq Hl. by apply (H q Hq), list_elem_of_further.
Qed.

(** The pairs of [D] belong to the stream [sid]. *)
Definition only_in (sid : Z) (D : list pptr) (a : NiceAgent) : Prop :=
  ∀ s p, s ∈ streams a → s_id s ≠ sid → p ∈ D → p ∉ conncheck_list s.

Lemma set_list_ok D sid l a x a' :
  checks_but D a → only_in sid D a →
  (∀ s, agent_find_stream a sid = Some s → l = without D (conncheck_list s)) →
  store_conncheck_list sid l a = Done (x, a') → checks_ok a'.
Proof.
  intros [Hi Hl Hn Ha] Hd Hlist [= <- <-]. split; cbn; try done.
  - by rewrite map_id_update_first.
  - rewrite Forall_forall in Hl. apply Forall_update_first; [done | |].
    + intros s Hs Hne. specialize (Hl s Hs). rewrite without_disjoint in Hl by (by intros; eapply Hd).
      by destruct Hl.
    + intros s Hs. rewrite (Hlist s Hs). apply Hl. by apply find_some in Hs as [Hs%list_elem_of_In _].
Qed.

(** From the records of a list to the streams its pairs belong to. *)
Definition belongs (sid : Z) (l : list pptr) (a : NiceAgent) : Prop :=
  ∀ p r, p ∈ l → pairs a !! p = Some r → p_stream_id r = sid.

Lemma belongs_only_in sid p a r :
  checks_ok a → pairs a !! p = Some r → p_stream_id r = sid → only_in sid [p] a.
Proof.
  intros [_ Hl _ _] Hr Hs s q Hin Hne ->%list_elem_of_singleton Hp. rewrite Forall_forall in Hl.
  pose proof (lo_stream _ _ (Hl s Hin) p r Hp Hr). congruence.
Qed.

Lemma same_checks_pair a b p r :
  same_checks a b → pairs b !! p = Some r → ∃ r', pairs a !! p = Some r' ∧ pair_view r' = pair_view r.
Proof.
  intros [_ H _] Hr. specialize (H p). rewrite Hr in H. destruct (pairs a !! p) as [r' |]; [| done].
  cbn in H. injection H as H1 H2. exists r'. unfold pair_view. split; [done | by f_equal].
Qed.

Lemma same_checks_belongs sid l a b : same_checks a b → belongs sid l a → belongs sid l b.
Proof.
  intros H Hb p r Hp Hr. destruct (same_checks_pair _ _ _ _ H Hr) as (r' & Hr' & [= <- _]). by eapply Hb.
Qed.

Lemma only_in_streams sid D a b :
  map stream_view (streams a) = map stream_view (streams b) → only_in sid D a → only_in sid D b.
Proof.
  intros H Hd s p Hs Hne Hp. assert (stream_view s ∈ map stream_view (streams a)) as Hv.
  { rewrite H. by apply list_elem_of_fmap_2. }
  apply list_elem_of_fmap in Hv as (t & [= Hid Hl] & Ht). rewrite Hl. apply Hd; [done | congruence | done].
Qed.

(** What freeing does to the rest of the state. *)
Lemma free_frame {env : AgentEnv} p a x a' :
  candidate_check_pair_free p a = Done (x, a') →
  map stream_view (streams a') = map stream_view (streams a) ∧ is_Some (pairs a !! p) ∧
  (∀ q r, pairs a' !! q = Some r → q ≠ p ∧ ∃ r', pairs a !! q = Some r' ∧ pair_view r' = pair_view r).
Proof.
  intros H. unfold candidate_check_pair_free in H. apply st_bind_inv in H as (u1 & b & H1 & H).
  injection H1 as <- <-. apply st_bind_inv in H as (u2 & c & H2 & H3).
  apply (keeps_free_all p None) in H2. unfold free_pair in H3.
  destruct (pairs c !! p) as [r |] eqn:Hr; simplify_eq. split_and!.
  - cbn. by rewrite <- (sc_streams _ _ H2).
  - destruct (same_checks_pair _ _ _ _ H2 Hr) as (r' & Hr' & _). by exists r'.
  - intros q t Ht. cbn in Ht. apply lookup_delete_Some in Ht as [Hne Ht]. split; [congruence |].
    by apply (same_checks_pair _ _ _ _ H2).
Qed.

Lemma stream_at_inv sid a s a' : stream_at sid a = Done (s, a') → agent_find_stream a sid = Some s ∧ a' = a.
Proof. unfold stream_at. destruct (agent_find_stream a sid); intros; by simplify_eq. Qed.
Lemma pair_at_inv p a r a' : pair_at p a = Done (r, a') → pairs a !! p = Some r ∧ a' = a.
Proof. unfold pair_at. destruct (pairs a !! p); intros; by simplify_eq. Qed.
Lemma find_stream_in a sid s : agent_find_stream a sid = Some s → s ∈ streams a ∧ s_id s = sid.
Proof. intros [H1%list_elem_of_In H2%Z.eqb_eq]%find_some. done. Qed.

(** Freeing a pair of the stream and deleting its node. *)
Lemma free_and_unlink {env : AgentEnv} sid p a r x a' :
  checks_ok a → pairs a !! p = Some r → p_stream_id r = sid →
  (_ ← candidate_check_pair_free p; s ← stream_at sid;
   store_conncheck_list sid (g_slist_remove (conncheck_list s) p)) a = Done (x, a') →
  checks_ok a'.
Proof.
  intros Ha Hr Hs H. apply st_bind_inv in H as (u & b & H1 & H).
  pose proof (free_checks_but [] p a u b (checks_but_nil a Ha) H1) as Hb.
  pose proof (free_frame p a u b H1) as (Hst & _ & _).
  apply st_bind_inv in H as (s & c & [H2 ->]%stream_at_inv & H3).
  eapply (set_list_ok [p]); [done | | | exact H3].
  - eapply only_in_streams; [symmetry; exact Hst |]. by eapply belongs_only_in.
  - intros s' Hs'. rewrite H2 in Hs'. simplify_eq. rewrite g_slist_remove_filter.
    + unfold without. apply list_filter_iff. intros q. set_solver.
    + apply find_stream_in in H2 as [Hin _]. assert (stream_view s' ∈ map stream_view (streams a)) as Hv.
      { rewrite <- Hst. by apply list_elem_of_fmap_2. }
      apply list_elem_of_fmap in Hv as (t & [= _ ->] & Ht). destruct Ha as [_ Hl _ _].
      rewrite Forall_forall in Hl. apply (Hl t Ht).
Qed.
