(* ===== verification/CheckListOps.v ===== *)
(** * The operations of the check lists preserve the invariant

    Forming pairs, the size limit, freeing and pruning, role changes, the timer
    tick, responses and requests: each keeps the lists well formed. *)

From stdpp Require Import gmap sorting.
From S2P Require Import Prelude Bytes StateMonad GSList StunMessage StunAgent StunIce NiceAddress NiceCandidate IceAgent CheckList CheckTick CheckInbound CheckListFacts CheckListInv.
#[global] Open Scope Z_scope.

(** ** Reading a list *)

Lemma pairs_at_inv l a x a' :
  pairs_at l a = Done (x, a') → a' = a ∧ x = records (pairs a) l ∧ alive (pairs a) l.
Proof.
  revert x a'. induction l as [| p l IH]; intros x a'; cbn [pairs_at].
  - intros [= <- <-]. split_and!; [done | done | constructor].
  - intros (r & b & [Hr ->]%pair_at_inv & H)%st_bind_inv.
    apply st_bind_inv in H as (rs & c & (-> & -> & Ha)%IH & [= <- <-]).
    split_and!; [done | by rewrite (records_cons _ _ _ _ Hr) | by constructor].
Qed.

Lemma checklist_inv sid a x a' :
  checklist sid a = Done (x, a') →
  ∃ s, agent_find_stream a sid = Some s ∧ a' = a ∧ x = records (pairs a) (conncheck_list s) ∧
    alive (pairs a) (conncheck_list s).
Proof.
  intros (s & b & [Hs ->]%stream_at_inv & (-> & -> & Ha)%pairs_at_inv)%st_bind_inv. by exists s.
Qed.

(** ** The order of a list of records *)

Abbreviation rcmp := (λ x y : pptr * CandidateCheckPair, conn_check_compare x.2 y.2).

Lemma compare_le (r s : CandidateCheckPair) : conn_check_compare r s ≤ 0 ↔ p_priority s ≤ p_priority r.
Proof.
  unfold conn_check_compare.
  destruct (Z.ltb_spec (p_priority s) (p_priority r)); [lia |].
  destruct (Z.ltb_spec (p_priority r) (p_priority s)); lia.
Qed.
Lemma rcmp_trans x y z : rcmp x y ≤ 0 → rcmp y z ≤ 0 → rcmp x z ≤ 0.
Proof. rewrite !compare_le. lia. Qed.
Lemma rcmp_total x y : 0 < rcmp x y → rcmp y x ≤ 0.
Proof. rewrite compare_le. intros H. enough (¬ rcmp x y ≤ 0) as Hn; [rewrite compare_le in Hn; lia | cbn; lia]. Qed.

Definition of_map (m : gmap positive CandidateCheckPair) (L : list (pptr * CandidateCheckPair)) : Prop :=
  Forall (λ x, m !! x.1 = Some x.2) L.

Lemma records_of_map m l : of_map m (records m l).
Proof. apply Forall_forall. intros [p r] H. by apply elem_of_records in H as []. Qed.

Lemma sorted_of_records m L :
  of_map m L → StronglySorted (λ x y, rcmp x y ≤ 0) L → sorted m L.*1.
Proof.
  intros Hm. induction 1 as [| [p r] L HL IH Hp]; cbn; [constructor |].
  apply Forall_cons in Hm as [Hr Hm]. cbn in Hr. constructor; [by apply IH |].
  apply Forall_forall. intros q Hq. apply list_elem_of_fmap in Hq as ([q' s] & -> & Hs).
  intros r' s' Hr' Hs'. apply (proj1 (Forall_forall _ _)) with (x := (q', s)) in Hp; [| done].
  apply (proj1 (Forall_forall _ _)) with (x := (q', s)) in Hm; [| done]. cbn in *. simplify_eq.
  by apply compare_le.
Qed.

Lemma records_sorted m l : sorted m l → StronglySorted (λ x y, rcmp x y ≤ 0) (records m l).
Proof.
  induction 1 as [| p l Hl IH Hp]; [constructor |]. unfold records in *. cbn.
  destruct (m !! p) as [r |] eqn:Hr; cbn; [| done]. constructor; [done |].
  apply Forall_forall. intros [q s] Hq. rewrite Forall_forall in Hp. apply elem_of_records in Hq as [Hq Hs].
  apply compare_le. by apply (Hp q Hq).
Qed.

(** ** New pairs *)

Definition unlinked (p : pptr) (a : NiceAgent) : Prop := ∀ s, s ∈ streams a → p ∉ conncheck_list s.

(** [p] is a pair of the stream [sid] that is on no list yet. *)
Definition pending (sid : Z) (p : pptr) (a : NiceAgent) : Prop :=
  unlinked p a ∧ ∃ r, pairs a !! p = Some r ∧ p_stream_id r = sid.

Lemma same_checks_unlinked p a b : same_checks a b → unlinked p a → unlinked p b.
Proof.
  intros [H _ _] Hu s Hs. assert (stream_view s ∈ map stream_view (streams a)) as Hv.
  { rewrite H. by apply list_elem_of_fmap_2. }
  apply list_elem_of_fmap in Hv as (t & [= _ ->] & Ht). by apply Hu.
Qed.

Lemma same_checks_pending sid p a b : same_checks a b → pending sid p a → pending sid p b.
Proof.
  intros H [Hu (r & Hr & Hs)]. split; [by eapply same_checks_unlinked |].
  destruct H as [_ H _]. specialize (H p). rewrite Hr in H. destruct (pairs b !! p) as [r' |]; [| done].
  injection H as H _. exists r'. split; [done | congruence].
Qed.

Lemma list_ok_insert m s p r :
  list_ok m s → p ∉ conncheck_list s → list_ok (<[p := r]> m) s.
Proof.
  intros [Ha Hn Hs Hst] Hp. assert (∀ q, q ∈ conncheck_list s → <[p := r]> m !! q = m !! q) as E.
  { intros q Hq. rewrite lookup_insert_ne; [done |]. congruence. }
  split; [| done | |].
  - unfold alive in *. rewrite Forall_forall in *. intros q Hq. rewrite E by done. by apply Ha.
  - clear Ha Hn Hst Hp. unfold sorted in *. revert E. induction Hs as [| q l Hl IH Hq]; intros E; constructor.
    + apply IH. intros x Hx. apply E. set_solver.
    + apply Forall_forall. intros x Hx u v Hu Hv. rewrite Forall_forall in Hq.
      rewrite E in Hu, Hv by set_solver. by apply (Hq x Hx).
  - intros q t Hq Ht. rewrite E in Ht by done. by eapply Hst.
Qed.

Lemma new_pair_ok r a p a' :
  checks_ok a → new_pair r a = Done (p, a') → checks_ok a' ∧ pending (p_stream_id r) p a'.
Proof.
  intros [Hi Hl Hn Ha] [= <- <-]. set (p := fresh (dom (pairs a))).
  assert (pairs a !! p = None) as Hp by apply not_elem_of_dom, is_fresh.
  assert (∀ l, alive (pairs a) l → p ∉ l) as Hfree.
  { intros l Hal Hin. unfold alive in Hal. rewrite Forall_forall in Hal. destruct (Hal p Hin). congruence. }
  rewrite Forall_forall in Hl. split; [split; cbn; [done | | done |] | split; cbn].
  - apply Forall_forall. intros s Hs. apply list_ok_insert; [by apply Hl | apply Hfree, Hl, Hs].
  - eapply Forall_impl; [exact Ha |]. intros q Hq. cbn. destruct (decide (q = p)) as [-> |].
    + rewrite lookup_insert_eq. eauto.
    + by rewrite lookup_insert_ne.
  - intros s Hs. apply Hfree, Hl, Hs.
  - exists r. by rewrite lookup_insert_eq.
Qed.

(** Replacing the list of one stream. *)
Lemma set_list_ok' sid l a x a' :
  checks_ok a →
  (∀ s, agent_find_stream a sid = Some s → list_ok (pairs a) (s <| conncheck_list := l |>)) →
  store_conncheck_list sid l a = Done (x, a') → checks_ok a'.
Proof.
  intros [Hi Hl Hn Ha] H [= <- <-]. split; cbn; [by rewrite map_id_update_first | | done | done].
  rewrite Forall_forall in Hl. apply Forall_update_first; [done | | done]. intros s Hs _. by apply Hl.
Qed.

Lemma insert_pair_ok sid p a x a' :
  checks_ok a → pending sid p a → insert_pair sid p a = Done (x, a') → checks_ok a'.
Proof.
  intros Ha [Hu (r & Hr & Hs)] H. unfold insert_pair in H.
  apply st_bind_inv in H as (l & b & (s & Hfind & -> & -> & Hal)%checklist_inv & H).
  apply st_bind_inv in H as (r' & b & [Hr' ->]%pair_at_inv & H). simplify_eq.
  apply (set_list_ok' _ _ _ _ _ Ha) in H; [done |]. intros s' Hs'. rewrite Hfind in Hs'. injection Hs' as <-.
  destruct (find_stream_in _ _ _ Hfind) as [Hin Hid]. pose proof (ck_lists a Ha) as Hls.
  rewrite Forall_forall in Hls. destruct (Hls s Hin) as [_ Hnd Hso Hst].
  set (L := g_slist_insert_sorted rcmp (records (pairs a) (conncheck_list s)) (p, r)).
  assert (L ≡ₚ (p, r) :: records (pairs a) (conncheck_list s)) as HL by apply insert_sorted_perm.
  assert (L.*1 ≡ₚ p :: conncheck_list s) as HL1.
  { rewrite HL. cbn. by rewrite records_fst. }
  split; cbn; fold L.
  - unfold alive. rewrite HL1. constructor; [eauto | done].
  - rewrite HL1. constructor; [by apply Hu | done].
  - apply sorted_of_records.
    + unfold of_map. rewrite HL. constructor; [done | apply records_of_map].
    + apply insert_sorted_sorted; [apply rcmp_trans | apply rcmp_total |]. by apply records_sorted.
  - intros q t Hq Ht. rewrite HL1 in Hq. apply elem_of_cons in Hq as [-> | Hq]; [simplify_eq; congruence |].
    by eapply Hst.
Qed.

(** ** Freeing several pairs *)

Section ops.
Context {env : AgentEnv}.

Lemma without_app D D' l : without (D' ++ D) l = without D' (without D l).
Proof. unfold without. rewrite list_filter_filter. apply list_filter_iff. intros q. set_solver. Qed.

Lemma without_all D l : l ⊆ D → without D l = [].
Proof.
  intros H. unfold without. induction l as [| p l IH]; [done |]. rewrite filter_cons_False by set_solver.
  apply IH. set_solver.
Qed.

(** The limit frees the tail of the list. *)
Lemma limit_loop_but D l v u a x a' :
  NoDup l → checks_but D a → limit_loop l v u a = Done (x, a') →
  ∃ D', D' ⊆ l ∧ checks_but (D' ++ D) a' ∧ x = without D' l ∧
    map stream_view (streams a') = map stream_view (streams a).
Proof.
  intros Hl. revert D v a x a'. induction Hl as [| p l Hp Hl IH]; intros D v a x a' Ha H; cbn [limit_loop] in H.
  - injection H as <- <-. by exists [].
  - destruct (_ <? _).
    + apply st_bind_inv in H as (u1 & b & H1 & H2).
      pose proof (free_frame p a u1 b H1) as (Hst & _ & _).
      destruct (IH (p :: D) _ _ _ _ (free_checks_but D p a u1 b Ha H1) H2) as (D' & Hs & Hb & -> & Hst').
      exists (D' ++ [p]). split_and!.
      * intros q. rewrite elem_of_app, list_elem_of_singleton. set_solver.
      * by rewrite <- app_assoc.
      * rewrite without_app. f_equal. unfold without. rewrite filter_cons_False by set_solver.
        symmetry. apply without_disjoint. intros q ->%list_elem_of_singleton. done.
      * congruence.
    + apply st_bind_inv in H as (l' & b & H1 & [= <- <-]).
      destruct (IH D _ _ _ _ Ha H1) as (D' & Hs & Hb & -> & Hst).
      exists D'. split_and!; [set_solver | done | | done]. unfold without.
      rewrite filter_cons_True; [done |]. intros Hin. by apply Hp, Hs.
Qed.

Lemma list_only_in sid s D a :
  checks_ok a → agent_find_stream a sid = Some s → D ⊆ conncheck_list s → only_in sid D a.
Proof.
  intros Ha [Hin Hid]%find_stream_in HD t p Ht Hne Hp Hpt. pose proof (ck_lists a Ha) as Hl.
  rewrite Forall_forall in Hl. destruct (Hl s Hin) as [Hal _ _ Hst]. destruct (Hl t Ht) as [_ _ _ Hst'].
  unfold alive in Hal. rewrite Forall_forall in Hal. destruct (Hal p (HD p Hp)) as [r Hr].
  specialize (Hst p r (HD p Hp) Hr). specialize (Hst' p r Hpt Hr). congruence.
Qed.

Lemma find_stream_view a b sid s :
  map stream_view (streams b) = map stream_view (streams a) → agent_find_stream b sid = Some s →
  ∃ t, agent_find_stream a sid = Some t ∧ conncheck_list t = conncheck_list s.
Proof.
  unfold agent_find_stream. generalize (streams b). induction (streams a) as [| t l IH];
    intros [| s' l'] E; try done. injection E as E1 E2 E. cbn. rewrite <- E1.
  destruct (_ =? sid); [| by apply IH]. intros [= ->]. by exists t.
Qed.

Lemma set_list_freed sid s D l a b x a' :
  checks_ok a → agent_find_stream a sid = Some s → D ⊆ conncheck_list s → checks_but D b →
  l = without D (conncheck_list s) → map stream_view (streams b) = map stream_view (streams a) →
  store_conncheck_list sid l b = Done (x, a') → checks_ok a'.
Proof.
  intros Ha Hs HD Hb -> Hst H. eapply set_list_ok; [exact Hb | | | exact H].
  - eapply only_in_streams; [symmetry; exact Hst |]. by eapply list_only_in.
  - intros s' Hs'. destruct (find_stream_view _ _ _ _ Hst Hs') as (t & Ht & <-). by simplify_eq.
Qed.

Lemma stream_list_ok a sid s : checks_ok a → agent_find_stream a sid = Some s → list_ok (pairs a) s.
Proof. intros [_ H _ _] [Hin _]%find_stream_in. rewrite Forall_forall in H. by apply H. Qed.

Lemma preserves_limit sid u :
  preserves (s ← stream_at sid; upper ← get u; l ← priv_limit_conn_check_list_size (conncheck_list s) upper;
             store_conncheck_list sid l).
Proof.
  intros a x a' Ha (s & b & [Hs ->]%stream_at_inv & H)%st_bind_inv.
  apply st_bind_inv in H as (n & b & [= <- <-] & H).
  apply st_bind_inv in H as (l & b & H1 & H2).
  destruct (limit_loop_but [] _ _ _ _ _ _ (lo_nodup _ _ (stream_list_ok _ _ _ Ha Hs))
              (checks_but_nil a Ha) H1) as (D & HD & Hb & El & Hst).
  rewrite app_nil_r in Hb. by eapply set_list_freed.
Qed.

Lemma free_all_but D l a x a' :
  checks_but D a → for_each l candidate_check_pair_free a = Done (x, a') →
  ∃ D', D' ≡ₚ l ∧ checks_but (D' ++ D) a' ∧ map stream_view (streams a') = map stream_view (streams a).
Proof.
  revert D a. induction l as [| p l IH]; intros D a Ha H; cbn [for_each] in H.
  - injection H as <- <-. by exists [].
  - apply st_bind_inv in H as (u1 & b & H1 & H2).
    pose proof (free_frame p a u1 b H1) as (Hst & _ & _).
    destruct (IH (p :: D) b (free_checks_but D p a u1 b Ha H1) H2) as (D' & HD & Hb & Hst').
    exists (D' ++ [p]). rewrite <- app_assoc. split_and!; [by rewrite HD, Permutation_app_comm | done | congruence].
Qed.

Lemma preserves_free_checklist sid : preserves (free_checklist sid).
Proof.
  intros a x a' Ha (s & b & [Hs ->]%stream_at_inv & H)%st_bind_inv.
  assert (conncheck_list s ≠ [] →
    (_ ← for_each (conncheck_list s) candidate_check_pair_free; store_conncheck_list sid []) a = Done (x, a') →
    checks_ok a') as Hfree.
  { intros _ H'. apply st_bind_inv in H' as (u & b & H1 & H2).
    destruct (free_all_but [] _ _ _ _ (checks_but_nil a Ha) H1) as (D & HD & Hb & Hst).
    rewrite app_nil_r in Hb. eapply set_list_freed; [done | done | | done | | done | exact H2].
    - intros q. by rewrite HD.
    - symmetry. apply without_all. intros q. by rewrite HD. }
  destruct (conncheck_list s) eqn:El; [by injection H as <- <- | by apply Hfree].
Qed.

(** ** Pruning while walking a snapshot of the list *)

Lemma list_belongs a sid s :
  checks_ok a → agent_find_stream a sid = Some s → belongs sid (conncheck_list s) a.
Proof.
  intros Ha Hs p r Hp Hr. pose proof (find_stream_in _ _ _ Hs) as [_ <-].
  by eapply (lo_stream _ _ (stream_list_ok _ _ _ Ha Hs)).
Qed.

(** A step on a pair of the stream that keeps the invariant and the streams of
    the pairs. *)
Definition steps_ok (sid : Z) {A} (p : pptr) (m : M A) : Prop :=
  ∀ a x a', checks_ok a → belongs sid [p] a → m a = Done (x, a') →
  checks_ok a' ∧ ∀ l, belongs sid l a → belongs sid l a'.

Lemma steps_keeps sid p {A} (m : M A) : keeps same_checks m → steps_ok sid p m.
Proof.
  intros H a x a' Ha _ E. split; [by eapply preserves_keeps |]. intros l.
  apply same_checks_belongs. by eapply H.
Qed.

Lemma steps_bind sid p {A B} (m : M A) (f : A → M B) :
  steps_ok sid p m → (∀ x, steps_ok sid p (f x)) → steps_ok sid p (m ≫= f).
Proof.
  intros Hm Hf a y a'' Ha Hp (x & b & H1 & H2)%st_bind_inv.
  destruct (Hm a x b Ha Hp H1) as [Hb Hl]. destruct (Hf x b y a'' Hb (Hl _ Hp) H2) as [Ha' Hl'].
  split; [done |]. intros l Hl0. by apply Hl', Hl.
Qed.

Lemma steps_unlink sid p :
  steps_ok sid p (_ ← candidate_check_pair_free p; s ← stream_at sid;
                  store_conncheck_list sid (g_slist_remove (conncheck_list s) p)).
Proof.
  intros a x a' Ha Hp H. assert (is_Some (pairs a !! p)) as [r Hr].
  { apply st_bind_inv in H as (u & b & H1 & _). by apply free_frame in H1 as (_ & ? & _). }
  assert (p_stream_id r = sid) as Hs by (eapply Hp; [apply list_elem_of_here | done]).
  split; [by eapply free_and_unlink |]. intros l Hl.
  apply st_bind_inv in H as (u & b & H1 & H2). apply free_frame in H1 as (_ & _ & Hfree).
  apply st_bind_inv in H2 as (s & c & [_ ->]%stream_at_inv & [= <- <-]).
  intros q t Hq Ht. cbn in Ht. apply Hfree in Ht as (_ & t' & Ht' & [= <- _]). by eapply Hl.
Qed.

Lemma belongs_cons sid p l a : belongs sid (p :: l) a ↔ belongs sid [p] a ∧ belongs sid l a.
Proof.
  split.
  - intros H. split; intros q r Hq; apply H; set_solver.
  - intros [Hp Hl] q r [-> | Hq]%elem_of_cons; [apply Hp; set_solver | by apply Hl].
Qed.

Lemma steps_for_each sid (f : pptr → M unit) (l : list pptr) a x a' :
  (∀ p, steps_ok sid p (f p)) → checks_ok a → belongs sid l a → for_each l f a = Done (x, a') →
  checks_ok a'.
Proof.
  intros Hf. revert a. induction l as [| p l IH]; intros a Ha Hl H; cbn in H.
  - by injection H as <- <-.
  - apply st_bind_inv in H as (u & b & H1 & H2). apply belongs_cons in Hl as [Hp Hl].
    destruct (Hf p a u b Ha Hp H1) as [Hb Hl']. eapply IH; [exact Hb | by apply Hl' | exact H2].
Qed.

Lemma steps_prune_pair sid cid h p n : steps_ok sid p (prune_pair sid cid h p n).
Proof.
  unfold prune_pair. apply steps_bind; [apply steps_keeps; keeps_same |]. intros r.
  destruct (_ =? _); [| apply steps_keeps; keeps_same].
  destruct (in_state _ _ || _); [| apply steps_keeps; keeps_same].
  intros a x a' Ha Hp H. eapply (steps_unlink sid p a tt a' Ha Hp).
  apply st_bind_inv in H as (u & b & H1 & H). apply st_bind_inv in H as (s & c & H2 & H).
  apply st_bind_inv in H as (v & d & H3 & [= <- <-]). destruct v.
  rewrite (bind_run _ _ _ _ _ H1), (bind_run _ _ _ _ _ H2). exact H3.
Qed.

Lemma preserves_prune_pending sid cid : preserves (priv_prune_pending_checks sid cid).
Proof.
  intros a x a' Ha (L & b & (s & Hs & -> & -> & Hal)%checklist_inv & H)%st_bind_inv.
  rewrite records_fst in H by done. pose proof (list_belongs _ _ _ Ha Hs) as Hl.
  revert Ha Hl H. generalize (highest_nominated cid (records (pairs a) (conncheck_list s))) as h.
  generalize 0 as n. clear Hal Hs. revert a. induction (conncheck_list s) as [| p l IH]; intros a n h Ha Hl H.
  - by injection H as <- <-.
  - cbn [prune_loop] in H. apply st_bind_inv in H as (m & b & H1 & H2). apply belongs_cons in Hl as [Hp Hl].
    destruct (steps_prune_pair sid cid h p n a m b Ha Hp H1) as [Hb Hl'].
    eapply IH; [exact Hb | by apply Hl' | exact H2].
Qed.

Lemma preserves_prune_socket_list sid sock :
  preserves (s ← stream_at sid; for_each (conncheck_list s) (prune_socket_pair sid sock)).
Proof.
  intros a x a' Ha (s & b & [Hs ->]%stream_at_inv & H)%st_bind_inv.
  eapply (steps_for_each sid (prune_socket_pair sid sock)); [| done | by apply list_belongs | exact H].
  intros p. unfold prune_socket_pair, pair_uses_socket. apply steps_bind; [apply steps_keeps; keeps_same |].
  intros r. apply steps_bind; [apply steps_keeps; keeps_same |]. intros [|]; [| apply steps_keeps; keeps_same].
  apply steps_bind; [apply steps_keeps; keeps_same |]. intros _. apply steps_unlink.
Qed.

(** ** Adding a pair *)

(** A continuation that links the new pair [p]. *)
Definition links (sid : Z) (p : pptr) {A} (m : M A) : Prop :=
  ∀ a x a', checks_ok a → pending sid p a → m a = Done (x, a') → checks_ok a'.

Lemma preserves_new_pair r {A} (f : pptr → M A) :
  (∀ p, links (p_stream_id r) p (f p)) → preserves (new_pair r ≫= f).
Proof.
  intros Hf a x a' Ha (p & b & H1 & H2)%st_bind_inv. apply new_pair_ok in H1 as [Hb Hp]; [| done].
  by eapply Hf.
Qed.
Lemma links_keeps sid p {A B} (m : M A) (f : A → M B) :
  keeps same_checks m → (∀ x, links sid p (f x)) → links sid p (m ≫= f).
Proof.
  intros Hm Hf a y a' Ha Hp (x & b & H1 & H2)%st_bind_inv. pose proof (Hm _ _ _ H1) as Hs.
  eapply Hf; [by eapply same_checks_ok | by eapply same_checks_pending | exact H2].
Qed.
Lemma links_insert sid p {A} (f : unit → M A) :
  (∀ x, preserves (f x)) → links sid p (insert_pair sid p ≫= f).
Proof.
  intros Hf a y a' Ha Hp (x & b & H1 & H2)%st_bind_inv. eapply Hf; [| exact H2]. by eapply insert_pair_ok.
Qed.

Ltac links := repeat first [apply links_insert; intros ? | apply links_keeps; [keeps_same | intros ?]].

Lemma preserves_add_new_check_pair sid cid l r st : preserves (priv_add_new_check_pair sid cid l r st).
Proof.
  unfold priv_add_new_check_pair.
  do 3 (apply preserves_bind; [apply preserves_keeps; keeps_same | intros ?]).
  apply preserves_new_pair. intros p. links.
  apply preserves_bind; [apply preserves_keeps; keeps_same | intros c].
  apply preserves_bind; [| intros; apply preserves_ret].
  case_decide; [apply preserves_limit | apply preserves_ret].
Qed.

Lemma preserves_add_prflx_pair sid cid c p : preserves (priv_add_peer_reflexive_pair sid cid c p).
Proof.
  unfold priv_add_peer_reflexive_pair.
  do 4 (apply preserves_bind; [apply preserves_keeps; keeps_same | intros ?]).
  apply preserves_new_pair. intros q. links. apply preserves_ret.
Qed.

(** ** Walking the live list *)

Lemma preserves_walk {V R} fuel sid cur (body : V → pptr → M (V + R)) v :
  (∀ v p, preserves (body v p)) → preserves (walk fuel sid cur body v).
Proof.
  intros Hb. revert cur v. induction fuel as [| fuel IH]; intros [p |] v; cbn [walk];
    [by intros ? ? ? ? [=] | apply preserves_ret | | apply preserves_ret].
  apply preserves_bind; [apply Hb |]. intros [v' | r]; [| apply preserves_ret].
  apply preserves_bind; [apply preserves_keeps; keeps_same |]. intros s.
  destruct (next_node p (conncheck_list s)); [apply IH | by intros ? ? ? ? [=]].
Qed.
Lemma preserves_walk_checklist {V R} sid (body : V → pptr → M (V + R)) v :
  (∀ v p, preserves (body v p)) → preserves (walk_checklist sid body v).
Proof.
  intros Hb. apply preserves_bind; [apply preserves_keeps; keeps_same |]. intros s. by apply preserves_walk.
Qed.

(** ** Changing the role *)

(** Only the priorities of the pairs of [l] change. *)
Record reprioritized (l : list pptr) (a b : NiceAgent) : Prop := {
  rp_streams : map stream_view (streams a) = map stream_view (streams b);
  rp_queue : triggered_check_queue a = triggered_check_queue b;
  rp_others : ∀ p, p ∉ l → pair_view <$> pairs a !! p = pair_view <$> pairs b !! p;
  rp_ids : ∀ p, p_stream_id <$> pairs a !! p = p_stream_id <$> pairs b !! p
}.

#[local] Instance reprioritized_preorder l : PreOrder (reprioritized l).
Proof.
  split; [done |]. intros a b c [H1 H2 H3 H4] [H1' H2' H3' H4'].
  split; [congruence.. | |]; intros p; [intros Hp; rewrite H3 by done; by apply H3' | by rewrite H4].
Qed.

Lemma same_reprioritized l a b : same_checks a b → reprioritized l a b.
Proof.
  intros [Hs Hp Hq]. split; [done.. |]. intros p. specialize (Hp p).
  destruct (pairs a !! p), (pairs b !! p); try done. cbn in Hp |- *. injection Hp as -> _. done.
Qed.

Lemma keeps_recalculate_pair l p : p ∈ l → keeps (reprioritized l) (recalculate_pair p).
Proof.
  intros Hp a x a' H. apply st_bind_inv in H as (r & b & [Hr ->]%pair_at_inv & H).
  apply st_bind_inv in H as (prio & b & H1 & H2). apply keeps_pair_priority in H1.
  transitivity b; [by apply same_reprioritized |]. clear Hr H1. unfold upd_pair in H2.
  destruct (pairs b !! p) as [r' |] eqn:Hr; simplify_eq. split; [done | done | |]; intros q; cbn.
  - intros Hq. rewrite lookup_insert_ne; [done | congruence].
  - destruct (decide (q = p)) as [-> |]; [by rewrite lookup_insert_eq, Hr | by rewrite lookup_insert_ne].
Qed.

Lemma keeps_recalculate_pairs l : keeps (reprioritized l) (for_each l recalculate_pair).
Proof.
  assert (∀ l', l' ⊆ l → keeps (reprioritized l) (for_each l' recalculate_pair)) as H; [| by apply H].
  induction l' as [| p l' IH]; intros Hl; cbn [for_each]; [apply keeps_ret; apply _ |].
  apply keeps_bind; [apply _ | apply keeps_recalculate_pair; set_solver |]. intros _. apply IH. set_solver.
Qed.

Lemma reprioritized_alive l a b l' : reprioritized l a b → alive (pairs a) l' → alive (pairs b) l'.
Proof.
  intros H Ha. eapply Forall_impl; [exact Ha |]. intros p [r Hr]. pose proof (rp_ids _ _ _ H p) as Hp.
  rewrite Hr in Hp. destruct (pairs b !! p); [eauto | done].
Qed.

(** All but the order of the list [l] survives. *)
Lemma reprioritized_other sid s a b t t' :
  checks_ok a → agent_find_stream a sid = Some s → reprioritized (conncheck_list s) a b →
  t ∈ streams a → stream_view t = stream_view t' → s_id t ≠ sid → list_ok (pairs b) t'.
Proof.
  intros Ha Hs H Ht E Hne. pose proof (find_stream_in _ _ _ Hs) as [Hin Hid].
  pose proof (stream_list_ok a sid s Ha Hs) as Hok.
  pose proof (ck_lists a Ha) as Hl. rewrite Forall_forall in Hl. destruct (Hl t Ht) as [Hal Hnd Hso Hst].
  assert (∀ p, p ∈ conncheck_list t → p ∉ conncheck_list s) as Hd.
  { intros p Hp Hp'. unfold alive in Hal. rewrite Forall_forall in Hal. destruct (Hal p Hp) as [r Hr].
    pose proof (Hst p r Hp Hr). pose proof (lo_stream _ _ Hok p r Hp' Hr). congruence. }
  injection E as Ei El. split; rewrite <- El.
  - by eapply reprioritized_alive.
  - done.
  - clear - Hso Hd H. unfold sorted in *. induction Hso as [| p l Hl IH Hp]; constructor.
    + apply IH. intros q Hq. apply Hd. set_solver.
    + apply Forall_forall. intros q Hq r u Hr Hu. rewrite Forall_forall in Hp.
      pose proof (rp_others _ _ _ H p ltac:(apply Hd; set_solver)) as E1. rewrite Hr in E1.
      pose proof (rp_others _ _ _ H q ltac:(apply Hd; set_solver)) as E2. rewrite Hu in E2.
      destruct (pairs a !! p) as [r0 |] eqn:Er0; [| done]. destruct (pairs a !! q) as [u0 |] eqn:Eu0; [| done].
      injection E1 as _ <-. injection E2 as _ <-. by apply (Hp q Hq).
  - intros p r Hp Hr. pose proof (rp_ids _ _ _ H p) as Hpi. rewrite Hr in Hpi.
    destruct (pairs a !! p) as [r0 |] eqn:Er0; [| done]. injection Hpi as <-. rewrite <- Ei. by apply (Hst p).
Qed.

(** The list sorted again. *)
Lemma reprioritized_sorted sid s a b s' L :
  checks_ok a → agent_find_stream a sid = Some s → reprioritized (conncheck_list s) a b →
  stream_view s = stream_view s' → L ≡ₚ records (pairs b) (conncheck_list s') →
  StronglySorted (λ x y, rcmp x y ≤ 0) L → list_ok (pairs b) (s' <| conncheck_list := L.*1 |>).
Proof.
  intros Ha Hs H [= Hid El] HL Hso. destruct (stream_list_ok a sid s Ha Hs) as [Hal Hnd _ Hst].
  rewrite El in *. pose proof (reprioritized_alive _ _ _ _ H Hal) as Halb.
  assert (L.*1 ≡ₚ conncheck_list s') as HL1 by (by rewrite HL, records_fst).
  split; cbn.
  - unfold alive. by rewrite HL1.
  - by rewrite HL1.
  - apply sorted_of_records; [| done]. unfold of_map. rewrite HL. apply records_of_map.
  - intros p r Hp Hr. rewrite HL1 in Hp. pose proof (rp_ids _ _ _ H p) as Hpi. rewrite Hr in Hpi.
    destruct (pairs a !! p) as [r0 |] eqn:Er0; [| done]. injection Hpi as <-. rewrite <- Hid. by apply (Hst p).
Qed.

Lemma preserves_recalculate_stream sid : preserves (recalculate_stream sid).
Proof.
  intros a x a' Ha (s & b & [Hs ->]%stream_at_inv & H)%st_bind_inv.
  apply st_bind_inv in H as (u & b & H1 & H). apply keeps_recalculate_pairs in H1.
  apply st_bind_inv in H as (L & c & (s' & Hs' & -> & -> & Halb)%checklist_inv & H).
  apply st_bind_inv in H as (L' & c & [H2 ->]%st_lift_inv & [= <- <-]).
  destruct (g_slist_sort_spec rcmp rcmp_trans rcmp_total (records (pairs b) (conncheck_list s')))
    as (L0 & E & HL & Hso). rewrite E in H2. injection H2 as <-.
  pose proof H1 as [Hst Hq Ho Hi].
  assert (NoDup (map s_id (streams b))) as Hids.
  { replace (map s_id (streams b)) with (map fst (map stream_view (streams b))) by apply map_map.
    rewrite <- Hst, map_map. apply (ck_ids a Ha). }
  split; cbn.
  - by rewrite map_id_update_first.
  - apply Forall_update_first.
    + done.
    + intros t' Ht' Hne. assert (stream_view t' ∈ map stream_view (streams a)) as Hv.
      { rewrite Hst. by apply list_elem_of_fmap_2. }
      apply list_elem_of_fmap in Hv as (t & Et & Ht). symmetry in Et.
      eapply (reprioritized_other sid s); [done.. |]. injection Et as -> _. done.
    + intros s0 Hs0. assert (s0 = s') as -> by (unfold agent_find_stream in Hs'; congruence).
      destruct (find_stream_view a b sid s' (eq_sym Hst) Hs') as (s1 & Hs1 & El). simplify_eq.
      eapply (reprioritized_sorted sid s); try done. unfold stream_view. rewrite El.
      apply find_stream_in in Hs as [_ ->], Hs' as [_ ->]. done.
  - rewrite <- Hq. apply (ck_queue a Ha).
  - rewrite <- Hq. eapply reprioritized_alive; [done | apply (ck_queued a Ha)].
Qed.
End ops.

(** ** Every operation *)

#[export] Hint Resolve preserves_add_triggered preserves_remove_triggered preserves_get_triggered
  preserves_free_checklist preserves_prune_pending preserves_prune_socket_list
  preserves_add_new_check_pair preserves_add_prflx_pair preserves_recalculate_stream
  preserves_ret : preserves.

Ltac preserves_step :=
  match goal with
  | |- preserves _ => solve [auto with nocore preserves]
  | |- preserves _ => solve [apply preserves_keeps; keeps_same]
  | |- preserves (_ ≫= _) => apply preserves_bind; [| intros ?]
  | |- preserves (when _ _) => apply preserves_when
  | |- preserves (for_each _ _) => apply preserves_for_each; intros ?
  | |- preserves (walk_checklist _ _ _) => apply preserves_walk_checklist; intros ? ?
  | |- preserves (match ?x with _ => _ end) => destruct x
  end.
Ltac preserves_all := repeat preserves_step.

Section preserves_all.
Context {env : AgentEnv}.

Lemma preserves_recalculate : preserves recalculate_pair_priorities.
Proof. unfold recalculate_pair_priorities. preserves_all. Qed.
Hint Resolve preserves_recalculate : preserves.
Lemma preserves_role_conflict b : preserves (priv_check_for_role_conflict b).
Proof. unfold priv_check_for_role_conflict. preserves_all. Qed.
Lemma preserves_state_for_ready sid cid : preserves (priv_update_check_list_state_for_ready sid cid).
Proof. unfold priv_update_check_list_state_for_ready. preserves_all. Qed.
Lemma preserves_prune_socket sid cid sock : preserves (conn_check_prune_socket sid cid sock).
Proof.
  unfold conn_check_prune_socket. do 2 (apply preserves_bind; [apply preserves_keeps; keeps_same | intros ?]).
  apply preserves_prune_socket_list.
Qed.
Hint Resolve preserves_role_conflict preserves_state_for_ready preserves_prune_socket : preserves.
Lemma preserves_update_selected sid cid pr : preserves (nice_component_update_selected_pair sid cid pr).
Proof. unfold nice_component_update_selected_pair. preserves_all. Qed.
Hint Resolve preserves_update_selected : preserves.
Lemma preserves_update_selected_pair sid cid p : preserves (priv_update_selected_pair sid cid p).
Proof. unfold priv_update_selected_pair. preserves_all. Qed.
Hint Resolve preserves_update_selected_pair : preserves.
Lemma preserves_mark_nominated sid cid p : preserves (mark_nominated sid cid p).
Proof. unfold mark_nominated. preserves_all. Qed.
Hint Resolve preserves_mark_nominated : preserves.
Lemma preserves_mark_pair_nominated sid cid l r : preserves (priv_mark_pair_nominated sid cid l r).
Proof. unfold priv_mark_pair_nominated. preserves_all. Qed.
Lemma preserves_matched sid cid l r st :
  preserves (priv_conn_check_add_for_candidate_pair_matched sid cid l r st).
Proof. unfold priv_conn_check_add_for_candidate_pair_matched. preserves_all. Qed.
Hint Resolve preserves_mark_pair_nominated preserves_matched : preserves.
Lemma preserves_add_for_pair sid cid l r : preserves (conn_check_add_for_candidate_pair sid cid l r).
Proof. unfold conn_check_add_for_candidate_pair. preserves_all. Qed.
Lemma preserves_add_for_each sid cid skip f l n :
  (∀ c, preserves (f c)) → preserves (add_for_each sid cid skip f l n).
Proof. intros Hf. revert n. induction l; intros n; cbn [add_for_each]; preserves_all. Qed.
Hint Resolve preserves_add_for_pair preserves_add_for_each : preserves.
Lemma preserves_add_for_candidate sid cid r : preserves (conn_check_add_for_candidate sid cid r).
Proof. unfold conn_check_add_for_candidate. preserves_all. Qed.
Lemma preserves_add_for_local sid cid r : preserves (conn_check_add_for_local_candidate sid cid r).
Proof. unfold conn_check_add_for_local_candidate. preserves_all. Qed.
Hint Resolve preserves_add_for_candidate preserves_add_for_local : preserves.
Lemma preserves_conn_check_free : preserves conn_check_free.
Proof. unfold conn_check_free. preserves_all. Qed.
Lemma preserves_prune_stream sid : preserves (conn_check_prune_stream sid).
Proof. unfold conn_check_prune_stream. preserves_all. Qed.

(** *** The tick *)

Lemma preserves_timeout sid cid p : preserves (timer_return_timeout sid cid p).
Proof. unfold timer_return_timeout. preserves_all. Qed.
Hint Resolve preserves_timeout : preserves.
Lemma preserves_tick_first sid cid now keep p t : preserves (tick_first sid cid now keep p t).
Proof. unfold tick_first. preserves_all. Qed.
Hint Resolve preserves_tick_first : preserves.
Lemma preserves_tick_pair sid now keep p : preserves (tick_pair sid now keep p).
Proof. unfold tick_pair. preserves_all. Qed.
Hint Resolve preserves_tick_pair : preserves.
Lemma preserves_tick_stream sid : preserves (priv_conn_check_tick_stream sid).
Proof. unfold priv_conn_check_tick_stream. preserves_all. Qed.
Lemma preserves_nominate sid o cid : preserves (nominate_component sid o cid).
Proof. unfold nominate_component. preserves_all. Qed.
Lemma preserves_nominate_old sid cid : preserves (nominate_component_old sid cid).
Proof. unfold nominate_component_old. preserves_all. Qed.
Hint Resolve preserves_tick_stream preserves_nominate preserves_nominate_old : preserves.
Lemma preserves_any_component f l keep : (∀ c, preserves (f c)) → preserves (any_component f l keep).
Proof. intros Hf. revert keep. induction l; intros keep; cbn [any_component]; preserves_all. Qed.
Hint Resolve preserves_any_component : preserves.
Lemma preserves_stream_nominate sid : preserves (priv_conn_check_tick_stream_nominate sid).
Proof. unfold priv_conn_check_tick_stream_nominate. preserves_all. Qed.
Hint Resolve preserves_stream_nominate : preserves.
Lemma preserves_tick_streams l keep : preserves (tick_streams l keep).
Proof. revert keep. induction l; intros keep; cbn [tick_streams]; preserves_all. Qed.
Lemma preserves_finish_stream sid : preserves (finish_stream sid).
Proof. unfold finish_stream. preserves_all. Qed.
Hint Resolve preserves_tick_streams preserves_finish_stream : preserves.
Lemma preserves_finish_tick keep : preserves (finish_tick keep).
Proof. unfold finish_tick. preserves_all. Qed.
Hint Resolve preserves_finish_tick : preserves.
Lemma preserves_tick_agent : preserves priv_conn_check_tick_agent_locked.
Proof. unfold priv_conn_check_tick_agent_locked. preserves_all. Qed.
Hint Resolve preserves_conn_check_free preserves_prune_stream preserves_tick_agent : preserves.

(** *** Triggered checks *)

Lemma keeps_find_triggered cid sock c l : keeps same_checks (find_triggered cid sock c l).
Proof. induction l; cbn [find_triggered]; keeps_same. Qed.
Hint Resolve keeps_find_triggered : keeps.
Lemma preserves_retrigger sid cid p : preserves (retrigger sid cid p).
Proof. unfold retrigger. preserves_all. Qed.
Hint Resolve preserves_retrigger : preserves.
Lemma preserves_schedule_triggered sid cid sock c : preserves (priv_schedule_triggered_check sid cid sock c).
Proof. unfold priv_schedule_triggered_check. preserves_all. Qed.
Lemma preserves_add_valid_pair sid cid l r : preserves (add_valid_pair sid cid l r).
Proof. unfold add_valid_pair. preserves_all. Qed.
Hint Resolve preserves_schedule_triggered preserves_add_valid_pair : preserves.
Lemma preserves_early_check sid cid i : preserves (process_early_check sid cid i).
Proof. unfold process_early_check. preserves_all. Qed.
Hint Resolve preserves_early_check : preserves.
Lemma preserves_early_checks sid cid k l : preserves (process_early_checks sid cid k l).
Proof. revert k. induction l; intros k; cbn [process_early_checks]; preserves_all. Qed.
Hint Resolve preserves_early_checks : preserves.
Lemma preserves_candidates_set sid cid : preserves (conn_check_remote_candidates_set sid cid).
Proof. unfold conn_check_remote_candidates_set. preserves_all. Qed.
Hint Resolve preserves_candidates_set : preserves.
Lemma preserves_credentials_set sid : preserves (conn_check_remote_credentials_set sid).
Proof. unfold conn_check_remote_credentials_set. preserves_all. Qed.
Lemma keeps_store_pending sid cid f s u p b : keeps same_checks (priv_store_pending_check sid cid f s u p b).
Proof. unfold priv_store_pending_check. keeps_same. Qed.
Lemma preserves_reply sid cid l r t s n m lg u :
  preserves (priv_reply_to_conn_check sid cid l r t s n m lg u).
Proof. unfold priv_reply_to_conn_check. preserves_all. Qed.
Hint Resolve keeps_store_pending : keeps.
Hint Resolve preserves_reply : preserves.

(** *** Peer reflexive candidates *)

Lemma keeps_all_components : keeps same_checks all_components.
Proof. unfold all_components. keeps_same. Qed.
Hint Resolve keeps_all_components : keeps.
Lemma keeps_assign_foundation c : keeps same_checks (priv_assign_foundation c).
Proof. unfold priv_assign_foundation. keeps_same. Qed.
Lemma keeps_highest c : keeps same_checks (priv_highest_remote_foundation c).
Proof. unfold priv_highest_remote_foundation. keeps_same. Qed.
Hint Resolve keeps_assign_foundation keeps_highest : keeps.
Lemma keeps_assign_remote c : keeps same_checks (priv_assign_remote_foundation c).
Proof. unfold priv_assign_remote_foundation. keeps_same. Qed.
Hint Resolve keeps_assign_remote : keeps.
Lemma preserves_add_local_pruned sid cid c : preserves (priv_add_local_candidate_pruned sid cid c).
Proof. unfold priv_add_local_candidate_pruned. preserves_all. Qed.
Hint Resolve preserves_add_local_pruned : preserves.
Lemma preserves_add_prflx sid cid prio m sock l r :
  preserves (discovery_add_peer_reflexive_candidate sid cid prio m sock l r).
Proof. unfold discovery_add_peer_reflexive_candidate. preserves_all. Qed.
Lemma keeps_learn_remote sid cid prio f sock l r :
  keeps same_checks (discovery_learn_remote_peer_reflexive_candidate sid cid prio f sock l r).
Proof. unfold discovery_learn_remote_peer_reflexive_candidate. keeps_same. Qed.
Hint Resolve keeps_learn_remote : keeps.
Hint Resolve preserves_add_prflx : preserves.

(** *** Responses and requests *)

Lemma preserves_set_succeeded sid cid p : preserves (set_succeeded sid cid p).
Proof. unfold set_succeeded. preserves_all. Qed.
Hint Resolve preserves_set_succeeded : preserves.
Lemma preserves_process_response sid cid p sock m l r :
  preserves (priv_process_response_check_for_reflexive sid cid p sock m l r).
Proof. unfold priv_process_response_check_for_reflexive. preserves_all. Qed.
Lemma keeps_update_nominated p q : keeps same_checks (update_nominated p q).
Proof. unfold update_nominated. keeps_same. Qed.
Hint Resolve keeps_update_nominated : keeps.
Hint Resolve preserves_process_response : preserves.
Lemma preserves_process_success sid cid sock f l r p m : preserves (process_success sid cid sock f l r p m).
Proof. unfold process_success. preserves_all. Qed.
Lemma keeps_find_transaction i l : keeps same_checks (find_transaction i l).
Proof. induction l; cbn [find_transaction]; keeps_same. Qed.
Hint Resolve keeps_find_transaction : keeps.
Lemma keeps_find_request i l : keeps same_checks (find_request i l).
Proof. induction l; cbn [find_request]; keeps_same. Qed.
Hint Resolve keeps_find_request : keeps.
Hint Resolve preserves_process_success : preserves.
Lemma preserves_map_reply sid cid sock f l r m :
  preserves (priv_map_reply_to_conn_check_request sid cid sock f l r m).
Proof. unfold priv_map_reply_to_conn_check_request. preserves_all. Qed.
Lemma preserves_learn sid cid sock prio f l r : preserves (learn_remote sid cid sock prio f l r).
Proof. unfold learn_remote. preserves_all. Qed.
Lemma keeps_signal_initial sid : keeps same_checks (signal_initial_request sid).
Proof. unfold signal_initial_request. keeps_same. Qed.
Hint Resolve keeps_signal_initial : keeps.
Hint Resolve preserves_learn : preserves.
Lemma preserves_request_accepted sid cid sock f m u l r r2 reply :
  preserves (request_accepted sid cid sock f m u l r r2 reply).
Proof. unfold request_accepted. preserves_all. Qed.
Hint Resolve preserves_request_accepted : preserves.
Lemma preserves_inbound sid cid sock f m u l r r2 : preserves (inbound_request sid cid sock f m u l r r2).
Proof. unfold inbound_request. preserves_all. Qed.
End preserves_all.
