(* ===== verification/GStr.v ===== *)
(** * C strings (glib/gstrfuncs.c)

    The string functions of GLib that the SDP code calls.  A C string is the list
    of its octets, without the terminating NUL. *)

From S2P Require Import Prelude Bytes StunMessage CheckList.
From Stdlib Require String.
Import String.StringSyntax.
#[global] Open Scope Z_scope.

(** The octets of a literal. *)
Definition text (s : String.string) : bytes := str_bytes s.
Arguments text s%_string_scope.

Definition g_str_has_prefix (str prefix : bytes) : bool := bool_decide (take (length prefix) str = prefix).

(** The first occurrence of [d]: what is before it and what is after it. *)
Fixpoint strstr (s d : bytes) : option (bytes * bytes) :=
  if g_str_has_prefix s d then Some ([], drop (length d) s)
  else match s with
       | [] => None
       | c :: s => '(before, after) ← strstr s d; Some (c :: before, after)
       end.

(** The loop over the delimiters. *)
Fixpoint strsplit_loop (fuel : nat) (remainder d : bytes) : list bytes :=
  match fuel with
  | O => [remainder]
  | S fuel =>
      match strstr remainder d with
      | Some (before, after) => before :: strsplit_loop fuel after d
      | None => [remainder]
      end
  end.
(** [g_strsplit (string, delimiter, 0)] for a delimiter that is not empty. *)
Definition g_strsplit (string delimiter : bytes) : list bytes :=
  match string with [] => [] | _ => strsplit_loop (length string) string delimiter end.

(** The string in [dest] after [g_strlcpy (dest, src, dest_size)]. *)
Definition g_strlcpy (src : bytes) (dest_size : Z) : bytes := take (Z.to_nat (dest_size - 1)) src.

(** ** Numbers *)

Definition ISSPACE (c : Z) : bool :=
  (c =? 32) || (c =? 12) || (c =? 10) || (c =? 13) || (c =? 9) || (c =? 11).
Definition ISUPPER (c : Z) : bool := (65 <=? c) && (c <=? 90).
Definition ISLOWER (c : Z) : bool := (97 <=? c) && (c <=? 122).
Definition TOLOWER (c : Z) : Z := if ISUPPER c then c - 65 + 97 else c.
Definition TOUPPER (c : Z) : Z := if ISLOWER c then c - 97 + 65 else c.
Definition G_MAXUINT64 : Z := 2 ^ 64 - 1.

Fixpoint skip_space (s : bytes) : bytes :=
  match s with c :: s' => if ISSPACE c then skip_space s' else s | [] => [] end.

(** The value of a digit, in any base. *)
Definition digit_value (c : Z) : option Z :=
  if (48 <=? c) && (c <=? 57) then Some (c - 48)
  else if ISUPPER c || ISLOWER c then Some (TOUPPER c - 65 + 10)
  else None.

(** The loop over the digits in base 10: the number, and whether it went beyond
    64 bits. *)
Fixpoint parse_digits (s : bytes) (ui64 : Z) (overflow : bool) : Z * bool :=
  match s with
  | [] => (ui64, overflow)
  | c :: s =>
      match digit_value c with
      | Some v =>
          if 10 <=? v then (ui64, overflow)
          else if (G_MAXUINT64 / 10 <? ui64) || (ui64 =? G_MAXUINT64 / 10) && (G_MAXUINT64 mod 10 <? v)
          then parse_digits s ui64 true
          else parse_digits s (ui64 * 10 + v) overflow
      | None => (ui64, overflow)
      end
  end.

(** [g_parse_long_long (nptr, NULL, 10, &negative)]: the number and its sign. *)
Definition g_parse_long_long (nptr : bytes) : Z * bool :=
  let s := skip_space nptr in
  let '(negative, s) := match s with
                        | c :: s' => if c =? 45 then (true, s') else if c =? 43 then (false, s') else (false, s)
                        | [] => (false, [])
                        end in
  let '(ui64, overflow) := parse_digits s 0 false in
  (if overflow then G_MAXUINT64 else ui64, negative).
(** [g_ascii_strtoull (nptr, NULL, 10)] *)
Definition g_ascii_strtoull (nptr : bytes) : Z :=
  let '(result, negative) := g_parse_long_long nptr in
  if negative then u64 (- result) else result.

(** [%u] and [%d] *)
Definition show_u (n : Z) : bytes := show_decimal (u32 n).
Definition show_d (n : Z) : bytes := if s32 n <? 0 then 45 :: show_decimal (- s32 n) else show_decimal (s32 n).

(** ** Comparison *)

Fixpoint strcasecmp_loop (s1 s2 : bytes) : Z :=
  match s1, s2 with
  | a :: s1, b :: s2 => if TOLOWER a =? TOLOWER b then strcasecmp_loop s1 s2 else TOLOWER a - TOLOWER b
  | a :: _, [] => a
  | [], b :: _ => - b
  | [], [] => 0
  end.
(** [NULL] is a programming error, and then 0 is returned. *)
Definition g_ascii_strcasecmp (s1 s2 : option bytes) : Z :=
  match s1, s2 with Some s1, Some s2 => strcasecmp_loop s1 s2 | _, _ => 0 end.
