(* ===== verification/AgentApi.v ===== *)
(** * The calls of an application on the agent (agent/agent.c, stream.c, component.c)

    What an application does to an agent between the creation of a stream and the
    exchange of data: remote candidates and credentials, the end of gathering,
    the pair it selects itself, ICE restarts, names.  Each runs under the lock of
    the agent, so each is one computation.  UPnP is left out. *)

From stdpp Require Import gmap.
From S2P Require Import Prelude Bytes StateMonad StunMessage NiceAddress NiceCandidate IceAgent CheckList CheckTick CheckInbound GStr.
From Stdlib Require String.
Import String.StringSyntax.
#[global] Open Scope Z_scope.

Section api.
Context {env : AgentEnv}.

Definition upd_cand (c : cptr) (f : NiceCandidate → NiceCandidate) : M unit := λ a,
  match candidates a !! c with
  | Some r => Done (tt, a <| candidates := <[c := f r]> (candidates a) |>) | None => Ub
  end.

Definition NICE_CANDIDATE_MAX_FOUNDATION : Z := 33.
Definition NICE_STREAM_MAX_UFRAG : Z := 257.
Definition NICE_STREAM_MAX_PWD : Z := 257.
Definition NICE_STREAM_DEF_UFRAG : Z := 5.
Definition NICE_STREAM_DEF_PWD : Z := 23.

(** ** Remote candidates *)

(** The pairs of a remote candidate take over its foundation. *)
Definition update_pair_foundation (sid cid : Z) (remote : cptr) (p : pptr) : M unit :=
  r ← pair_at p;
  if decide (p_remote r = remote) then
    l ← cand_at (p_local r);
    c ← cand_at (p_remote r);
    let f := pair_foundation l c in
    if decide (p_foundation r = f) then mret tt
    else
      _ ← upd_pair p (λ r, r <| p_foundation := f |>);
      comp ← comp_at sid cid;
      when (bool_decide (sp_local (selected_pair comp) = Some (p_local r)) &&
            bool_decide (sp_remote (selected_pair comp) = Some (p_remote r)))
        (act (Signal_new_selected_pair (p_stream_id r) cid (p_local r) (p_remote r)))
  else mret tt.

Definition priv_update_pair_foundations (sid cid : Z) (remote : cptr) : M unit := λ a,
  match agent_find_component a sid cid with
  | Some (s, _) => for_each (conncheck_list s) (update_pair_foundation sid cid remote) a
  | None => Done (tt, a)
  end.

(** A credential that is not set yet takes the one of the update. *)
Definition first_of (old new : option bytes) : option bytes :=
  match old with Some _ => old | None => new end.

(** An existing candidate is updated. *)
Definition update_remote_candidate (sid cid : Z) (c : cptr) (d : NiceCandidate) : M unit :=
  _ ← upd_cand c (λ r, r <| base_addr := base_addr d |> <| NiceCandidate.priority := NiceCandidate.priority d |>
        <| foundation := g_strlcpy (foundation d) NICE_CANDIDATE_MAX_FOUNDATION |>
        <| NiceCandidate.username := first_of (NiceCandidate.username r) (NiceCandidate.username d) |>
        <| NiceCandidate.password := first_of (NiceCandidate.password r) (NiceCandidate.password d) |>);
  _ ← recalculate_pair_priorities;
  priv_update_pair_foundations sid cid c.

(** A new one is appended and paired. *)
Definition new_remote_candidate (sid cid : Z) (d : NiceCandidate) : M bool :=
  compat ← get compat; mode ← get nomination_mode;
  _ ← when (NICE_AGENT_IS_COMPATIBLE_WITH_RFC5245_OR_OC2007R2 compat &&
            bool_decide (mode = NICE_NOMINATION_MODE_AGGRESSIVE) &&
            negb (bool_decide (transport d = NICE_CANDIDATE_TRANSPORT_UDP)))
       (put nomination_mode NICE_NOMINATION_MODE_REGULAR);
  c ← new_cand ((nice_candidate_new (type d)) <| cand_stream_id := sid |> <| cand_component_id := cid |>
        <| addr := addr d |> <| base_addr := base_addr d |> <| transport := transport d |>
        <| NiceCandidate.priority := NiceCandidate.priority d |>
        <| NiceCandidate.username := NiceCandidate.username d |>
        <| NiceCandidate.password := NiceCandidate.password d |>
        <| foundation := g_strlcpy (foundation d) NICE_CANDIDATE_MAX_FOUNDATION |>);
  _ ← upd_comp sid cid (λ k, k <| remote_candidates := remote_candidates k ++ [c] |>);
  n ← conn_check_add_for_candidate sid cid c;
  if n <? 0 then _ ← free_cand c; mret false
  else mret true.

(** The attributes are those of [d]. *)
Definition priv_add_remote_candidate (sid cid : Z) (d : NiceCandidate) : M bool :=
  a ← get (λ a, a);
  if bool_decide (transport d = NICE_CANDIDATE_TRANSPORT_UDP) && negb (use_ice_udp a) then mret false
  else if negb (bool_decide (transport d = NICE_CANDIDATE_TRANSPORT_UDP)) && negb (use_ice_tcp a) then mret false
  else match agent_find_component a sid cid with
       | None => mret false
       | Some _ =>
           found ← nice_component_find_remote_candidate sid cid (addr d) (transport d);
           same ← (match found with
                   | Some c =>
                       r ← cand_at c;
                       if decide (type r = NICE_CANDIDATE_TYPE_PEER_REFLEXIVE) then
                         _ ← upd_cand c (λ r, r <| type := type d |> <| sockptr := None |>);
                         mret (Some c)
                       else mret (if bool_decide (type r = type d) then Some c else None)
                   | None => mret None
                   end);
           match same with
           | Some c => _ ← update_remote_candidate sid cid c d; mret true
           | None =>
               if decide (type d = NICE_CANDIDATE_TYPE_PEER_REFLEXIVE) then mret false
               else new_remote_candidate sid cid d
           end
       end.

Fixpoint add_remote_candidates (sid cid : Z) (candidates : list NiceCandidate) (added : Z) : M Z :=
  match candidates with
  | [] => mret added
  | d :: candidates =>
      if nice_address_is_valid (addr d) then
        res ← priv_add_remote_candidate sid cid d;
        add_remote_candidates sid cid candidates (if (res : bool) then added + 1 else added)
      else add_remote_candidates sid cid candidates added
  end.
Definition set_remote_candidates_locked (sid cid : Z) (candidates : list NiceCandidate) : M Z :=
  added ← add_remote_candidates sid cid candidates 0;
  _ ← when (0 <? added)
       (_ ← conn_check_remote_candidates_set sid cid; conn_check_schedule_next);
  mret added.

(** [g_return_val_if_fail (stream_id >= 1 && component_id >= 1, v)] *)
Definition ids_ok (ids : list Z) : bool := forallb (λ i, 1 <=? i) ids.

Definition nice_agent_set_remote_candidates (sid cid : Z) (candidates : list NiceCandidate) : M Z :=
  a ← get (λ a, a);
  if negb (ids_ok [sid; cid]) then mret 0
  else match agent_find_component a sid cid with
       | None => mret (-1)
       | Some _ => set_remote_candidates_locked sid cid candidates
       end.

(** ** Credentials *)

(** [None] stands for [NULL]. *)
Definition nice_agent_set_remote_credentials (sid : Z) (ufrag pwd : option bytes) : M bool :=
  a ← get (λ a, a);
  if negb (ids_ok [sid]) then mret false
  else match agent_find_stream a sid, ufrag, pwd with
       | Some _, Some ufrag, Some pwd =>
           _ ← upd_stream sid (λ s, s <| remote_ufrag := g_strlcpy ufrag NICE_STREAM_MAX_UFRAG |>
                 <| remote_password := g_strlcpy pwd NICE_STREAM_MAX_PWD |>);
           _ ← conn_check_remote_credentials_set sid;
           mret true
       | _, _, _ => mret false
       end.

(** An array that holds the string [s], a NUL and [tail], after [g_strlcpy] of
    [src] into it: the new string and tail. *)
Definition array_strlcpy (src s tail : bytes) (size : Z) : bytes * bytes :=
  let d := g_strlcpy src size in (d, drop (length d + 1) (s ++ 0 :: tail)).
(** After the octets [d] are stored at its start, without a NUL. *)
Fixpoint until_nul (b : bytes) : bytes * bytes :=
  match b with
  | [] => ([], [])
  | c :: b => if c =? 0 then ([], b) else let '(s, tail) := until_nul b in (c :: s, tail)
  end.
Definition array_overwrite (d s tail : bytes) : bytes * bytes :=
  until_nul (d ++ drop (length d) (s ++ 0 :: tail)).

Definition set_local_ufrag_array (a : bytes * bytes) (s : NiceStream) : NiceStream :=
  s <| local_ufrag := a.1 |> <| local_ufrag_tail := a.2 |>.
Definition set_local_password_array (a : bytes * bytes) (s : NiceStream) : NiceStream :=
  s <| local_password := a.1 |> <| local_password_tail := a.2 |>.

Definition nice_agent_set_local_credentials (sid : Z) (ufrag pwd : option bytes) : M bool :=
  a ← get (λ a, a);
  if negb (ids_ok [sid]) then mret false
  else match agent_find_stream a sid, ufrag, pwd with
       | Some _, Some ufrag, Some pwd =>
           _ ← upd_stream sid (λ s,
                 set_local_password_array
                   (array_strlcpy pwd (local_password s) (local_password_tail s) NICE_STREAM_MAX_PWD)
                 (set_local_ufrag_array
                   (array_strlcpy ufrag (local_ufrag s) (local_ufrag_tail s) NICE_STREAM_MAX_UFRAG) s));
           mret true
       | _, _, _ => mret false
       end.

(** Whether it succeeded, and the strings it hands out. *)
Definition nice_agent_get_local_credentials (a : NiceAgent) (sid : Z) : bool * option (bytes * bytes) :=
  if negb (ids_ok [sid]) then (false, None)
  else (true, (λ s, (local_ufrag s, local_password s)) <$> agent_find_stream a sid).

(** [ice_chars]: the characters of generated credentials. *)
Definition ice_chars : bytes :=
  text "ABCDEFGHIJKLMNOPQRSTUVWXYZabcdefghijklmnopqrstuvwxyz0123456789+/".
Definition nice_rng_generate_int (low high : Z) : M Z :=
  n ← get rng_draws;
  _ ← put rng_draws (n + 1);
  mret (rng_int n low high).
Fixpoint nice_rng_generate_bytes_print (len : nat) : M bytes :=
  match len with
  | O => mret []
  | S len =>
      i ← nice_rng_generate_int 0 (zlen ice_chars);
      c ← lift (getb ice_chars i);
      rest ← nice_rng_generate_bytes_print len;
      mret (c :: rest)
  end.
Definition priv_generate_tie_breaker : M unit :=
  n ← get rng_draws;
  _ ← put rng_draws (n + 1);
  put tie_breaker (of_le (rng_bytes n 8)).

Definition nice_stream_initialize_credentials (sid : Z) : M unit :=
  u ← nice_rng_generate_bytes_print (Z.to_nat (NICE_STREAM_DEF_UFRAG - 1));
  p ← nice_rng_generate_bytes_print (Z.to_nat (NICE_STREAM_DEF_PWD - 1));
  upd_stream sid (λ s,
    set_local_password_array (array_overwrite p (local_password s) (local_password_tail s))
    (set_local_ufrag_array (array_overwrite u (local_ufrag s) (local_ufrag_tail s)) s)).

(** ** ICE restarts *)

(** The remote candidate of the selected pair is kept aside, the others are
    freed. *)
Definition restart_remote (sid cid : Z) (c : cptr) : M unit :=
  comp ← comp_at sid cid;
  if decide (sp_remote (selected_pair comp) = Some c) then
    _ ← match restart_candidate comp with Some old => free_cand old | None => mret tt end;
    upd_comp sid cid (λ k, k <| restart_candidate := Some c |>)
  else free_cand c.
Definition nice_component_restart (sid cid : Z) : M unit :=
  comp ← comp_at sid cid;
  _ ← for_each (remote_candidates comp) (restart_remote sid cid);
  upd_comp sid cid (λ k, k <| remote_candidates := [] |> <| incoming_checks := [] |>
    <| selected_pair := {| sp_local := sp_local (selected_pair k); sp_remote := sp_remote (selected_pair k);
                           sp_priority := 0; sp_prflx_priority := sp_prflx_priority (selected_pair k) |} |>).

Definition nice_stream_restart (sid : Z) : M unit :=
  _ ← conn_check_prune_stream sid;
  _ ← upd_stream sid (λ s, s <| initial_binding_request_received := false |>);
  _ ← nice_stream_initialize_credentials sid;
  s ← stream_at sid;
  for_each (map c_id (components s)) (nice_component_restart sid).

Definition nice_agent_restart : M bool :=
  _ ← priv_generate_tie_breaker;
  saved ← get saved_controlling_mode;
  _ ← put controlling_mode saved;
  l ← stream_ids;
  _ ← for_each l nice_stream_restart;
  mret true.
Definition nice_agent_restart_stream (sid : Z) : M bool :=
  a ← get (λ a, a);
  match agent_find_stream a sid with
  | None => mret false
  | Some _ => _ ← nice_stream_restart sid; mret true
  end.

(** The role an application asks for is taken once every component is idle. *)
Definition priv_update_controlling_mode (value : bool) : M unit :=
  _ ← put saved_controlling_mode value;
  a ← get (λ a, a);
  if eqb (controlling_mode a) value then mret tt
  else if forallb (λ s, forallb (λ c, negb (component_state_to_Z NICE_COMPONENT_STATE_DISCONNECTED <?
                                            component_state_to_Z (c_state c))) (components s)) (streams a)
       then put controlling_mode value
       else mret tt.

(** ** The selected pair *)

(** Through the states that lead to READY. *)
Definition signal_ready (sid cid : Z) : M unit :=
  c ← comp_at sid cid;
  _ ← when ((component_state_to_Z (c_state c) <? component_state_to_Z NICE_COMPONENT_STATE_CONNECTING) ||
            bool_decide (c_state c = NICE_COMPONENT_STATE_FAILED))
       (agent_signal_component_state_change sid cid NICE_COMPONENT_STATE_CONNECTING);
  c ← comp_at sid cid;
  _ ← when (component_state_to_Z (c_state c) <? component_state_to_Z NICE_COMPONENT_STATE_CONNECTED)
       (agent_signal_component_state_change sid cid NICE_COMPONENT_STATE_CONNECTED);
  agent_signal_component_state_change sid cid NICE_COMPONENT_STATE_READY.

(** A reliable agent needs pseudo-TCP over a socket that is not reliable. *)
Definition tcp_missing (sid cid : Z) (local : cptr) : M bool :=
  a ← get (λ a, a);
  if reliable a then
    l ← cand_at local;
    s ← deref_socket (sockptr l);
    if nice_socket_is_reliable s then mret false
    else c ← comp_at sid cid; mret (tcp_is_closed c)
  else mret false.

Definition nice_agent_set_selected_pair (sid cid : Z) (lfoundation rfoundation : bytes) : M bool :=
  a ← get (λ a, a);
  if negb (ids_ok [sid; cid]) then mret false
  else match agent_find_component a sid cid with
       | None => mret false
       | Some _ =>
           found ← nice_component_find_pair sid cid lfoundation rfoundation;
           match found with
           | None => mret false
           | Some (l, r, prio) =>
               _ ← conn_check_prune_stream sid;
               missing ← tcp_missing sid cid l;
               if (missing : bool) then mret false
               else
                 _ ← signal_ready sid cid;
                 _ ← nice_component_update_selected_pair sid cid
                       {| sp_local := Some l; sp_remote := Some r; sp_priority := prio;
                          sp_prflx_priority := 0 |};
                 _ ← act (Signal_new_selected_pair sid cid l r);
                 mret true
           end
       end.

(** The host candidate that gives the pair of the highest priority. *)
Fixpoint best_local (candidate : NiceCandidate) (l : list cptr) (best : option cptr) (best_priority : Z)
  : M (option cptr * Z) :=
  match l with
  | [] => mret (best, best_priority)
  | c :: l =>
      tmp ← cand_at c;
      controlling ← get controlling_mode;
      let prio := if (controlling : bool)
                  then nice_candidate_pair_priority (NiceCandidate.priority tmp) (NiceCandidate.priority candidate)
                  else nice_candidate_pair_priority (NiceCandidate.priority candidate) (NiceCandidate.priority tmp) in
      if bool_decide (transport tmp = conn_check_match_transport (transport candidate)) &&
         (sa_family (addr tmp) =? sa_family (addr candidate)) &&
         bool_decide (type tmp = NICE_CANDIDATE_TYPE_HOST) && (best_priority <? prio)
      then best_local candidate l (Some c) prio
      else best_local candidate l best best_priority
  end.

Definition nice_component_set_selected_remote_candidate (sid cid : Z) (candidate : NiceCandidate)
  : M (option cptr) :=
  comp ← comp_at sid cid;
  '(best, prio) ← best_local candidate (local_candidates comp) None 0;
  match best with
  | None => mret None
  | Some local =>
      found ← nice_component_find_remote_candidate sid cid (addr candidate) (transport candidate);
      remote ← (match found with
                | Some c => mret c
                | None =>
                    c ← new_cand (nice_candidate_copy candidate);
                    _ ← upd_comp sid cid (λ k, k <| remote_candidates := remote_candidates k ++ [c] |>);
                    _ ← act (Signal_new_remote_candidate c);
                    mret c
                end);
      _ ← nice_component_clear_selected_pair sid cid;
      _ ← upd_comp sid cid (λ k, k <| fallback_mode := true |>
            <| selected_pair := {| sp_local := Some local; sp_remote := Some remote; sp_priority := prio;
                                   sp_prflx_priority := 0 |} |>);
      mret (Some local)
  end.

Definition nice_agent_set_selected_remote_candidate (sid cid : Z) (candidate : NiceCandidate) : M bool :=
  a ← get (λ a, a);
  if (sid =? 0) || (cid =? 0) then mret false
  else match agent_find_component a sid cid with
       | None => mret false
       | Some _ =>
           _ ← conn_check_prune_stream sid;
           before ← comp_at sid cid;
           lcandidate ← nice_component_set_selected_remote_candidate sid cid candidate;
           match lcandidate with
           | None => mret false
           | Some l =>
               missing ← tcp_missing sid cid l;
               if (missing : bool) then
                 _ ← upd_comp sid cid (λ k, k <| selected_pair :=
                       {| sp_local := sp_local (selected_pair before);
                          sp_remote := sp_remote (selected_pair before);
                          sp_priority := sp_priority (selected_pair before);
                          sp_prflx_priority := sp_prflx_priority (selected_pair k) |} |>);
                 mret false
               else
                 _ ← signal_ready sid cid;
                 _ ← act (Signal_selected_remote_candidate sid cid l candidate);
                 mret true
           end
       end.

(** ** The end of gathering *)

(** The remote candidates that a local one has no pair with yet. *)
Definition pair_if_missing (sid cid : Z) (local remote : cptr) : M unit :=
  l ← checklist sid;
  if existsb (λ '(_, r), bool_decide (p_local r = local) && bool_decide (p_remote r = remote)) l then mret tt
  else _ ← conn_check_add_for_candidate_pair sid cid local remote; mret tt.
Definition gathered_candidate (sid cid : Z) (local : cptr) : M unit :=
  l ← cand_at local;
  relay ← get force_relay; compat ← get compat;
  if (relay : bool) && negb (bool_decide (type l = NICE_CANDIDATE_TYPE_RELAYED)) then mret tt
  else if bool_decide (compat = NICE_COMPATIBILITY_OC2007R2) &&
          bool_decide (type l = NICE_CANDIDATE_TYPE_SERVER_REFLEXIVE) then
    _ ← upd_comp sid cid (λ k, k <| local_candidates := GSList.g_slist_remove (local_candidates k) local |>);
    free_cand local
  else
    comp ← comp_at sid cid;
    for_each (remote_candidates comp) (pair_if_missing sid cid local).
Definition gathered_component (sid cid : Z) : M unit :=
  comp ← comp_at sid cid;
  for_each (local_candidates comp) (gathered_candidate sid cid).
Definition gathered_stream (sid : Z) : M unit :=
  s ← stream_at sid;
  if gathering s then for_each (map c_id (components s)) (gathered_component sid) else mret tt.

Definition signal_stream_gathered (sid : Z) : M unit :=
  s ← stream_at sid;
  when (gathering s)
    (_ ← upd_stream sid (λ s, s <| gathering := false |>); act (Signal_candidate_gathering_done sid)).
Definition agent_signal_gathering_done : M unit :=
  l ← stream_ids; for_each l signal_stream_gathered.
Definition agent_gathering_done : M unit :=
  l ← stream_ids;
  _ ← for_each l gathered_stream;
  running ← get discovery_timer_source;
  when (negb running) agent_signal_gathering_done.

Definition nice_agent_peer_candidate_gathering_done (sid : Z) : M bool :=
  a ← get (λ a, a);
  match agent_find_stream a sid with
  | Some _ => _ ← upd_stream sid (λ s, s <| peer_gathering_done := true |>); mret true
  | None => mret false
  end.

(** ** Names, candidates, states *)

(** The loop over the streams: the stream to name, unless another has the name
    and comes first. *)
Fixpoint stream_to_name (l : list NiceStream) (sid : Z) (name : bytes) (found : option Z) : option Z :=
  match l with
  | [] => found
  | s :: l =>
      if negb (s_id s =? sid) && bool_decide (stream_name s = Some name) then None
      else stream_to_name l sid name (if s_id s =? sid then Some sid else found)
  end.
Definition nice_agent_set_stream_name (sid : Z) (name : bytes) : M bool :=
  a ← get (λ a, a);
  if negb (ids_ok [sid]) then mret false
  else match stream_to_name (streams a) sid name None with
       | None => mret false
       | Some sid => _ ← upd_stream sid (λ s, s <| stream_name := Some name |>); mret true
       end.
Definition nice_agent_get_stream_name (a : NiceAgent) (sid : Z) : option bytes :=
  if ids_ok [sid] then agent_find_stream a sid ≫= stream_name else None.

Definition NICE_COMPONENT_TYPE_RTP : Z := 1.
Definition NICE_COMPONENT_TYPE_RTCP : Z := 2.

Fixpoint default_rtp (relay : bool) (l : list cptr) (best : option (cptr * NiceCandidate))
  : M (option (cptr * NiceCandidate)) :=
  match l with
  | [] => mret best
  | c :: l =>
      r ← cand_at c;
      if relay && negb (bool_decide (type r = NICE_CANDIDATE_TYPE_RELAYED)) ||
         negb (nice_address_ip_version (addr r) =? 4)
      then default_rtp relay l best
      else match best with
           | Some (_, b) => if NiceCandidate.priority r <? NiceCandidate.priority b
                            then default_rtp relay l (Some (c, r)) else default_rtp relay l best
           | None => default_rtp relay l (Some (c, r))
           end
  end.
Definition default_other (relay : bool) (rtp : NiceCandidate) (l : list cptr)
  : M (option (cptr * NiceCandidate)) :=
  o ← find_cand (λ _ r,
        negb (relay && negb (bool_decide (type r = NICE_CANDIDATE_TYPE_RELAYED))) &&
        (nice_address_ip_version (addr r) =? 4) && bool_decide (foundation r = foundation rtp)) l;
  match o with Some c => r ← cand_at c; mret (Some (c, r)) | None => mret None end.
Definition get_default_local_candidate_locked (sid cid : Z) : M (option (cptr * NiceCandidate)) :=
  relay ← get force_relay;
  comp ← comp_at sid cid;
  if cid =? NICE_COMPONENT_TYPE_RTP then default_rtp relay (local_candidates comp) None
  else
    a ← get (λ a, a);
    match agent_find_component a sid NICE_COMPONENT_TYPE_RTP with
    | None => mret None
    | Some (_, rtp) =>
        d ← default_rtp relay (local_candidates rtp) None;
        match d with
        | None => mret None
        | Some (_, d) => default_other relay d (local_candidates comp)
        end
    end.
Definition nice_agent_get_default_local_candidate (sid cid : Z) : M (option NiceCandidate) :=
  a ← get (λ a, a);
  if negb (ids_ok [sid; cid]) then mret None
  else match agent_find_component a sid cid with
       | None => mret None
       | Some _ => d ← get_default_local_candidate_locked sid cid; mret (nice_candidate_copy ∘ snd <$> d)
       end.

Fixpoint copy_candidates (skip : NiceCandidate → bool) (l : list cptr) : M (list NiceCandidate) :=
  match l with
  | [] => mret []
  | c :: l =>
      r ← cand_at c;
      rest ← copy_candidates skip l;
      mret (if skip r then rest else nice_candidate_copy r :: rest)
  end.
Definition nice_agent_get_local_candidates (sid cid : Z) : M (list NiceCandidate) :=
  a ← get (λ a, a);
  if negb (ids_ok [sid; cid]) then mret []
  else match agent_find_component a sid cid with
       | None => mret []
       | Some (_, c) => copy_candidates (λ r, force_relay a &&
                          negb (bool_decide (type r = NICE_CANDIDATE_TYPE_RELAYED))) (local_candidates c)
       end.
Definition nice_agent_get_remote_candidates (sid cid : Z) : M (list NiceCandidate) :=
  a ← get (λ a, a);
  if negb (ids_ok [sid; cid]) then mret []
  else match agent_find_component a sid cid with
       | None => mret []
       | Some (_, c) => copy_candidates (λ _, false) (remote_candidates c)
       end.

Definition nice_agent_get_selected_pair (a : NiceAgent) (sid cid : Z) : option (cptr * cptr) :=
  if negb (ids_ok [sid; cid]) then None
  else match agent_find_component a sid cid with
       | Some (_, c) =>
           match sp_local (selected_pair c), sp_remote (selected_pair c) with
           | Some l, Some r => Some (l, r)
           | _, _ => None
           end
       | None => None
       end.
Definition nice_agent_get_component_state (a : NiceAgent) (sid cid : Z) : NiceComponentState :=
  match agent_find_component a sid cid with
  | Some (_, c) => c_state c
  | None => NICE_COMPONENT_STATE_FAILED
  end.
End api.
