(* ===== verification/Sdp.v ===== *)
(** * SDP (agent/agent.c)

    The description of an agent that applications exchange: its candidates, and
    the credentials of its streams, as lines of text, and the parser for what the
    peer sent.  A buffer that [nice_address_to_string] leaves alone holds no
    string. *)

From stdpp Require Import gmap.
From S2P Require Import Prelude Bytes StateMonad StunMessage NiceAddress NiceCandidate IceAgent CheckList CheckTick CheckInbound GStr AgentApi.
From Stdlib Require String.
Import String.StringSyntax.
#[global] Open Scope Z_scope.

Section sdp.
Context {env : AgentEnv}.

(** ** Generating *)

Definition cand_type_to_sdp (t : NiceCandidateType) : bytes :=
  match t with
  | NICE_CANDIDATE_TYPE_SERVER_REFLEXIVE => text "srflx"
  | NICE_CANDIDATE_TYPE_PEER_REFLEXIVE => text "prflx"
  | NICE_CANDIDATE_TYPE_RELAYED => text "relay"
  | NICE_CANDIDATE_TYPE_HOST => text "host"
  end.
Definition transport_to_sdp (t : NiceCandidateTransport) : bytes :=
  match t with NICE_CANDIDATE_TRANSPORT_UDP => text "UDP" | _ => text "TCP" end.
Definition transport_to_sdp_tcptype (t : NiceCandidateTransport) : bytes :=
  match t with
  | NICE_CANDIDATE_TRANSPORT_UDP => []
  | NICE_CANDIDATE_TRANSPORT_TCP_ACTIVE => text "active"
  | NICE_CANDIDATE_TRANSPORT_TCP_PASSIVE => text "passive"
  | NICE_CANDIDATE_TRANSPORT_TCP_SO => text "so"
  end.

Definition ip_string (a : NiceAddress) : outcome bytes :=
  match nice_address_to_string a with Some s => mret s | None => Ub end.
(** A port of 0 is written as the discard port. *)
Definition sdp_port (a : NiceAddress) : Z :=
  let port := nice_address_get_port a in if port =? 0 then 9 else port.

Definition generate_candidate_sdp (c : NiceCandidate) : outcome bytes :=
  ip ← ip_string (addr c);
  let head := text "a=candidate:" ++ take (Z.to_nat NICE_CANDIDATE_MAX_FOUNDATION) (foundation c) ++
    text " " ++ show_d (cand_component_id c) ++ text " " ++ transport_to_sdp (transport c) ++
    text " " ++ show_d (NiceCandidate.priority c) ++ text " " ++ ip ++ text " " ++ show_d (sdp_port (addr c)) ++
    text " typ " ++ cand_type_to_sdp (type c) in
  base ← (if nice_address_is_valid (base_addr c) && negb (nice_address_equal (addr c) (base_addr c))
          then ip ← ip_string (base_addr c);
               mret (text " raddr " ++ ip ++ text " rport " ++ show_d (sdp_port (base_addr c)))
          else mret []);
  let tcptype := if bool_decide (transport c = NICE_CANDIDATE_TRANSPORT_UDP) then []
                 else text " tcptype " ++ transport_to_sdp_tcptype (transport c) in
  mret (head ++ base ++ tcptype).

(** The lines of the candidates of one component. *)
Fixpoint generate_candidates (relay : bool) (l : list cptr) : M bytes :=
  match l with
  | [] => mret []
  | c :: l =>
      r ← cand_at c;
      if relay && negb (bool_decide (type r = NICE_CANDIDATE_TYPE_RELAYED)) then generate_candidates relay l
      else
        line ← lift (generate_candidate_sdp r);
        rest ← generate_candidates relay l;
        mret (line ++ text "
" ++ rest)
  end.
Fixpoint generate_components (relay : bool) (l : list NiceComponent) : M bytes :=
  match l with
  | [] => mret []
  | k :: l =>
      d ← generate_candidates relay (local_candidates k);
      rest ← generate_components relay l;
      mret (d ++ rest)
  end.

(** The addresses of the default candidates of RTP and RTCP. *)
Fixpoint default_addresses (sid : Z) (l : list NiceComponent) (rtp rtcp : NiceAddress)
  : M (NiceAddress * NiceAddress) :=
  match l with
  | [] => mret (rtp, rtcp)
  | k :: l =>
      if c_id k =? NICE_COMPONENT_TYPE_RTP then
        d ← get_default_local_candidate_locked sid (c_id k);
        default_addresses sid l (match d with Some (_, r) => addr r | None => rtp end) rtcp
      else if c_id k =? NICE_COMPONENT_TYPE_RTCP then
        d ← get_default_local_candidate_locked sid (c_id k);
        default_addresses sid l rtp (match d with Some (_, r) => addr r | None => rtcp end)
      else default_addresses sid l rtp rtcp
  end.

Definition generate_media_sdp (sid : Z) (s : NiceStream) : M bytes :=
  let any := nice_address_set_ipv4 (nice_address_init zero_address) 0 in
  '(rtp, rtcp) ← default_addresses sid (components s) any any;
  ip ← lift (ip_string rtp);
  mret (text "m=" ++ match stream_name s with Some n => n | None => text "-" end ++ text " " ++
        show_d (nice_address_get_port rtp) ++ text " ICE/SDP
c=IN IP4 " ++ ip ++ text "
" ++ (if nice_address_get_port rtcp =? 0 then []
      else text "a=rtcp:" ++ show_d (nice_address_get_port rtcp) ++ text "
")).

Definition generate_stream_sdp (sid : Z) (include_non_ice : bool) : M bytes :=
  s ← stream_at sid;
  media ← (if include_non_ice then generate_media_sdp sid s else mret []);
  relay ← get force_relay;
  cands ← generate_components relay (components s);
  mret (media ++ text "a=ice-ufrag:" ++ local_ufrag s ++ text "
a=ice-pwd:" ++ local_password s ++ text "
" ++ cands).

Fixpoint generate_streams (l : list Z) : M bytes :=
  match l with
  | [] => mret []
  | sid :: l => d ← generate_stream_sdp sid true; rest ← generate_streams l; mret (d ++ rest)
  end.
Definition nice_agent_generate_local_sdp : M bytes :=
  l ← stream_ids; generate_streams l.
Definition nice_agent_generate_local_stream_sdp (sid : Z) (include_non_ice : bool) : M (option bytes) :=
  a ← get (λ a, a);
  if negb (ids_ok [sid]) then mret None
  else match agent_find_stream a sid with
       | None => mret None
       | Some _ => d ← generate_stream_sdp sid include_non_ice; mret (Some d)
       end.
Definition nice_agent_generate_local_candidate_sdp (c : NiceCandidate) : outcome bytes :=
  generate_candidate_sdp c.

(** ** Parsing *)

(** The local variables of the loop over the tokens. *)
Record sdp_tokens := {
  t_foundation : option bytes;
  t_component_id : Z;
  t_transport : option bytes;
  t_priority : Z;
  t_addr : option bytes;
  t_port : Z;
  t_type : option bytes;
  t_raddr : option bytes;
  t_rport : Z;
  t_tcptype : option bytes
}.
Definition no_tokens : sdp_tokens := Build_sdp_tokens None 0 None 0 None 0 None None 0 None.
Definition eta_sdp_tokens (t : sdp_tokens) : sdp_tokens :=
  Build_sdp_tokens (t_foundation t) (t_component_id t) (t_transport t) (t_priority t) (t_addr t) (t_port t)
    (t_type t) (t_raddr t) (t_rport t) (t_tcptype t).
#[export] Instance set_t_foundation : Setter t_foundation := ltac:(derive_setter eta_sdp_tokens t_foundation).
#[export] Instance set_t_component_id : Setter t_component_id := ltac:(derive_setter eta_sdp_tokens t_component_id).
#[export] Instance set_t_transport : Setter t_transport := ltac:(derive_setter eta_sdp_tokens t_transport).
#[export] Instance set_t_priority : Setter t_priority := ltac:(derive_setter eta_sdp_tokens t_priority).
#[export] Instance set_t_addr : Setter t_addr := ltac:(derive_setter eta_sdp_tokens t_addr).
#[export] Instance set_t_port : Setter t_port := ltac:(derive_setter eta_sdp_tokens t_port).
#[export] Instance set_t_type : Setter t_type := ltac:(derive_setter eta_sdp_tokens t_type).
#[export] Instance set_t_raddr : Setter t_raddr := ltac:(derive_setter eta_sdp_tokens t_raddr).
#[export] Instance set_t_rport : Setter t_rport := ltac:(derive_setter eta_sdp_tokens t_rport).
#[export] Instance set_t_tcptype : Setter t_tcptype := ltac:(derive_setter eta_sdp_tokens t_tcptype).

Definition u16_of (s : bytes) : Z := u16 (g_ascii_strtoull s).
Definition u32_of (s : bytes) : Z := u32 (g_ascii_strtoull s).

(** The attribute [name] with its value. *)
Definition sdp_attribute (name value : bytes) (t : sdp_tokens) : sdp_tokens :=
  if bool_decide (name = text "typ") then t <| t_type := Some value |>
  else if bool_decide (name = text "raddr") then t <| t_raddr := Some value |>
  else if bool_decide (name = text "rport") then t <| t_rport := u16_of value |>
  else if bool_decide (name = text "tcptype") then t <| t_tcptype := Some value |>
  else t.

(** The loop from the [i]-th token on; [None] where a value is missing. *)
Fixpoint parse_tokens (i : nat) (tokens : list bytes) (t : sdp_tokens) : option sdp_tokens :=
  match tokens with
  | [] => Some t
  | x :: rest =>
      match i with
      | 0%nat => parse_tokens 1 rest (t <| t_foundation := Some x |>)
      | 1%nat => parse_tokens 2 rest (t <| t_component_id := u32_of x |>)
      | 2%nat => parse_tokens 3 rest (t <| t_transport := Some x |>)
      | 3%nat => parse_tokens 4 rest (t <| t_priority := u32_of x |>)
      | 4%nat => parse_tokens 5 rest (t <| t_addr := Some x |>)
      | 5%nat => parse_tokens 6 rest (t <| t_port := u16_of x |>)
      | _ => match rest with
             | [] => None
             | value :: rest => parse_tokens i rest (sdp_attribute x value t)
             end
      end
  end.

Definition sdp_type (type : bytes) : option NiceCandidateType :=
  if bool_decide (type = text "host") then Some NICE_CANDIDATE_TYPE_HOST
  else if bool_decide (type = text "srflx") then Some NICE_CANDIDATE_TYPE_SERVER_REFLEXIVE
  else if bool_decide (type = text "prflx") then Some NICE_CANDIDATE_TYPE_PEER_REFLEXIVE
  else if bool_decide (type = text "relay") then Some NICE_CANDIDATE_TYPE_RELAYED
  else None.

Definition is_case (s : option bytes) (name : bytes) : bool := g_ascii_strcasecmp s (Some name) =? 0.
Definition sdp_transport (transport tcptype : option bytes) : option NiceCandidateTransport :=
  if is_case transport (text "UDP") then Some NICE_CANDIDATE_TRANSPORT_UDP
  else if is_case transport (text "TCP-SO") then Some NICE_CANDIDATE_TRANSPORT_TCP_SO
  else if is_case transport (text "TCP-ACT") then Some NICE_CANDIDATE_TRANSPORT_TCP_ACTIVE
  else if is_case transport (text "TCP-PASS") then Some NICE_CANDIDATE_TRANSPORT_TCP_PASSIVE
  else if is_case transport (text "TCP") then
    if is_case tcptype (text "so") then Some NICE_CANDIDATE_TRANSPORT_TCP_SO
    else if is_case tcptype (text "active") then Some NICE_CANDIDATE_TRANSPORT_TCP_ACTIVE
    else if is_case tcptype (text "passive") then Some NICE_CANDIDATE_TRANSPORT_TCP_PASSIVE
    else None
  else None.

(** An address with its port, into a fresh candidate. *)
Definition sdp_address (ip : bytes) (port : Z) : option NiceAddress :=
  match nice_address_set_from_string zero_address ip with
  | (a, true) => Some (nice_address_set_port a port)
  | (_, false) => None
  end.

Definition sdp_candidate (sid : Z) (t : sdp_tokens) (ntype : NiceCandidateType)
    (ctransport : NiceCandidateTransport) : outcome (option NiceCandidate) :=
  match t_foundation t, t_addr t with
  | Some f, Some ip =>
      let candidate := (nice_candidate_new ntype) <| cand_component_id := t_component_id t |>
        <| cand_stream_id := sid |> <| transport := ctransport |>
        <| foundation := g_strlcpy f NICE_CANDIDATE_MAX_FOUNDATION |>
        <| NiceCandidate.priority := t_priority t |> in
      mret (a ← sdp_address ip (t_port t);
            let candidate := candidate <| addr := a |> in
            match t_raddr t with
            | Some raddr =>
                if t_rport t =? 0 then Some candidate
                else b ← sdp_address raddr (t_rport t); Some (candidate <| base_addr := b |>)
            | None => Some candidate
            end)
  | _, _ => Ub
  end.

(** [None] for [NULL]. *)
Definition nice_agent_parse_remote_candidate_sdp (sid : Z) (sdp : bytes) : outcome (option NiceCandidate) :=
  if negb (ids_ok [sid]) then mret None
  else if negb (g_str_has_prefix sdp (text "a=candidate:")) then mret None
  else match parse_tokens 0 (g_strsplit (drop 12 sdp) (text " ")) no_tokens with
       | None => mret None
       | Some t =>
           match t_type t ≫= sdp_type with
           | None => mret None
           | Some ntype =>
               match sdp_transport (t_transport t) (t_tcptype t) with
               | None => mret None
               | Some ctransport => sdp_candidate sid t ntype ctransport
               end
           end
       end.

(** What the loop over the lines of a stream collects: the candidates, the last
    first, and the strings stored through [ufrag] and [pwd]. *)
Fixpoint parse_stream_lines (sid : Z) (want_ufrag want_pwd : bool) (lines : list bytes)
    (candidates : list NiceCandidate) (ufrag pwd : option bytes)
  : outcome (list NiceCandidate * option bytes * option bytes) :=
  match lines with
  | [] => mret (candidates, ufrag, pwd)
  | l :: lines =>
      if want_ufrag && g_str_has_prefix l (text "a=ice-ufrag:") then
        parse_stream_lines sid want_ufrag want_pwd lines candidates (Some (drop 12 l)) pwd
      else if want_pwd && g_str_has_prefix l (text "a=ice-pwd:") then
        parse_stream_lines sid want_ufrag want_pwd lines candidates ufrag (Some (drop 10 l))
      else if g_str_has_prefix l (text "a=candidate:") then
        c ← nice_agent_parse_remote_candidate_sdp sid l;
        match c with
        | Some c => parse_stream_lines sid want_ufrag want_pwd lines (c :: candidates) ufrag pwd
        | None => mret ([], ufrag, pwd)
        end
      else parse_stream_lines sid want_ufrag want_pwd lines candidates ufrag pwd
  end.

Definition newline : bytes := [10].
Definition nice_agent_parse_remote_stream_sdp (a : NiceAgent) (sid : Z) (sdp : bytes) (want_ufrag want_pwd : bool)
  : outcome (list NiceCandidate * option bytes * option bytes) :=
  if negb (ids_ok [sid]) then mret ([], None, None)
  else match agent_find_stream a sid with
       | None => mret ([], None, None)
       | Some s => parse_stream_lines (s_id s) want_ufrag want_pwd (g_strsplit sdp newline) [] None None
       end.

(** One line for an agent.  [item] is the place of the current stream in the
    list; the result is the new place and what the line adds to the count, or
    [None] for an error. *)
Definition parse_candidate_line (sid : Z) (l : bytes) : M (option Z) :=
  c ← lift (nice_agent_parse_remote_candidate_sdp sid l);
  match c with
  | None => mret None
  | Some c =>
      a ← get (λ a, a);
      match agent_find_component a (cand_stream_id c) (cand_component_id c) with
      | None => mret None
      | Some (_, k) =>
          added ← set_remote_candidates_locked sid (c_id k) [c];
          mret (Some (if 0 <? added then 1 else 0))
      end
  end.

Definition next_item (item : option nat) : nat := match item with None => 0%nat | Some i => S i end.
(** The id of the current stream, if there is one. *)
Definition current_stream (a : NiceAgent) (item : option nat) : option Z :=
  i ← item; s_id <$> streams a !! i.

Fixpoint parse_lines (lines : list bytes) (item : option nat) (ret : Z) : M Z :=
  match lines with
  | [] => mret ret
  | l :: lines =>
      a ← get (λ a, a);
      if g_str_has_prefix l (text "m=") then
        if decide (next_item item < length (streams a))%nat then parse_lines lines (Some (next_item item)) ret
        else mret (-1)
      else if g_str_has_prefix l (text "a=ice-ufrag:") then
        match current_stream a item with
        | None => mret (-1)
        | Some sid =>
            _ ← upd_stream sid (λ s, s <| remote_ufrag := g_strlcpy (drop 12 l) NICE_STREAM_MAX_UFRAG |>);
            parse_lines lines item ret
        end
      else if g_str_has_prefix l (text "a=ice-pwd:") then
        match current_stream a item with
        | None => mret (-1)
        | Some sid =>
            _ ← upd_stream sid (λ s, s <| remote_password := g_strlcpy (drop 10 l) NICE_STREAM_MAX_PWD |>);
            parse_lines lines item ret
        end
      else if g_str_has_prefix l (text "a=candidate:") then
        match current_stream a item with
        | None => mret (-1)
        | Some sid =>
            added ← parse_candidate_line sid l;
            match added with
            | None => mret (-1)
            | Some n => parse_lines lines item (ret + n)
            end
        end
      else parse_lines lines item ret
  end.
Definition nice_agent_parse_remote_sdp (sdp : bytes) : M Z :=
  parse_lines (g_strsplit sdp newline) None 0.
End sdp.
