(* ===== verification/AgentApiInv.v ===== *)
(** * The calls of an application keep the check lists well formed *)

From stdpp Require Import gmap.
From S2P Require Import Prelude Bytes StateMonad GSList NiceAddress NiceCandidate IceAgent CheckList CheckTick CheckInbound CheckListFacts CheckListInv CheckListOps GStr AgentApi Sdp.
From Stdlib Require String.
Import String.StringSyntax.
#[global] Open Scope Z_scope.

Section api.
Context {env : AgentEnv}.

Hint Resolve preserves_recalculate preserves_add_for_candidate preserves_candidates_set preserves_credentials_set
  preserves_prune_stream preserves_prune_socket preserves_update_selected preserves_add_for_pair : preserves.

Lemma keeps_upd_cand c f : keeps same_checks (upd_cand c f).
Proof. intros a x a' E. unfold upd_cand in E. destruct (candidates a !! c); simplify_eq. by split. Qed.
Lemma keeps_free_cand c : keeps same_checks (free_cand c).
Proof. intros a x a' E. unfold free_cand in E. destruct (candidates a !! c); simplify_eq. by split. Qed.
Hint Resolve keeps_upd_cand keeps_free_cand : keeps.

(** ** Remote candidates *)

Lemma keeps_pair_foundation sid cid c p : keeps same_checks (update_pair_foundation sid cid c p).
Proof. unfold update_pair_foundation. keeps_same. Qed.
Hint Resolve keeps_pair_foundation : keeps.
Lemma keeps_pair_foundations sid cid c : keeps same_checks (priv_update_pair_foundations sid cid c).
Proof.
  intros a x a' E. unfold priv_update_pair_foundations in E.
  destruct (agent_find_component a sid cid) as [[s k] |]; [| by simplify_eq].
  eapply keeps_for_each; [| exact E]. intros p. apply keeps_pair_foundation.
Qed.
Hint Resolve keeps_pair_foundations : keeps.
Lemma keeps_find_remote sid cid a t : keeps same_checks (nice_component_find_remote_candidate sid cid a t).
Proof. unfold nice_component_find_remote_candidate. keeps_same. Qed.
Hint Resolve keeps_find_remote : keeps.
Lemma preserves_update_remote sid cid c d : preserves (update_remote_candidate sid cid c d).
Proof. unfold update_remote_candidate. preserves_all. Qed.
Lemma preserves_new_remote sid cid d : preserves (new_remote_candidate sid cid d).
Proof. unfold new_remote_candidate. preserves_all. Qed.
Hint Resolve preserves_update_remote preserves_new_remote : preserves.
Lemma preserves_add_remote sid cid d : preserves (priv_add_remote_candidate sid cid d).
Proof. unfold priv_add_remote_candidate. preserves_all. Qed.
Hint Resolve preserves_add_remote : preserves.
Lemma preserves_add_remotes sid cid l n : preserves (add_remote_candidates sid cid l n).
Proof. revert n. induction l; intros n; cbn [add_remote_candidates]; preserves_all. Qed.
Hint Resolve preserves_add_remotes : preserves.
Lemma preserves_set_remotes_locked sid cid l : preserves (set_remote_candidates_locked sid cid l).
Proof. unfold set_remote_candidates_locked. preserves_all. Qed.
Hint Resolve preserves_set_remotes_locked : preserves.
Lemma preserves_set_remotes sid cid l : preserves (nice_agent_set_remote_candidates sid cid l).
Proof. unfold nice_agent_set_remote_candidates. preserves_all. Qed.

(** ** A description of the peer *)

Lemma preserves_candidate_line sid l : preserves (parse_candidate_line sid l).
Proof. unfold parse_candidate_line. preserves_all. Qed.
Hint Resolve preserves_candidate_line : preserves.
Lemma preserves_parse_lines lines item ret : preserves (parse_lines lines item ret).
Proof.
  revert item ret. induction lines as [| l lines IH]; intros item ret; cbn [parse_lines]; [apply preserves_ret |].
  apply preserves_bind; [apply preserves_keeps, keeps_get; apply _ | intros a].
  destruct (g_str_has_prefix l (text "m=")); [destruct (decide _); [apply IH | apply preserves_ret] |].
  assert (∀ f : NiceStream → NiceStream, (∀ s, stream_view (f s) = stream_view s) →
    preserves (match current_stream a item with
               | None => mret (-1)
               | Some sid => _ ← upd_stream sid f; parse_lines lines item ret
               end)) as Hu.
  { intros f Hf. destruct (current_stream a item) as [sid |]; [| apply preserves_ret].
    apply preserves_bind; [by apply preserves_keeps, keeps_upd_stream | done]. }
  destruct (g_str_has_prefix l (text "a=ice-ufrag:")); [by apply Hu |].
  destruct (g_str_has_prefix l (text "a=ice-pwd:")); [by apply Hu |].
  destruct (g_str_has_prefix l (text "a=candidate:")); [| apply IH].
  destruct (current_stream a item) as [sid |]; [| apply preserves_ret].
  apply preserves_bind; [apply preserves_candidate_line |]. intros [n |]; [apply IH | apply preserves_ret].
Qed.
Lemma preserves_parse_sdp sdp : preserves (nice_agent_parse_remote_sdp sdp).
Proof. unfold nice_agent_parse_remote_sdp. apply preserves_parse_lines. Qed.

(** ** Credentials and restarts *)

Lemma preserves_set_remote_credentials sid u p : preserves (nice_agent_set_remote_credentials sid u p).
Proof. unfold nice_agent_set_remote_credentials. preserves_all. Qed.
Lemma keeps_set_local_credentials sid u p : keeps same_checks (nice_agent_set_local_credentials sid u p).
Proof. unfold nice_agent_set_local_credentials. keeps_same. Qed.
Lemma keeps_rng low high : keeps same_checks (nice_rng_generate_int low high).
Proof. unfold nice_rng_generate_int. keeps_same. Qed.
Hint Resolve keeps_rng : keeps.
Lemma keeps_rng_print n : keeps same_checks (nice_rng_generate_bytes_print n).
Proof. induction n; cbn [nice_rng_generate_bytes_print]; keeps_same. Qed.
Hint Resolve keeps_rng_print : keeps.
Lemma keeps_credentials sid : keeps same_checks (nice_stream_initialize_credentials sid).
Proof. unfold nice_stream_initialize_credentials. keeps_same. Qed.
Lemma keeps_tie_breaker : keeps same_checks priv_generate_tie_breaker.
Proof. unfold priv_generate_tie_breaker. keeps_same. Qed.
Lemma keeps_restart_remote sid cid c : keeps same_checks (restart_remote sid cid c).
Proof. unfold restart_remote. keeps_same. Qed.
Hint Resolve keeps_credentials keeps_tie_breaker keeps_restart_remote : keeps.
Lemma keeps_component_restart sid cid : keeps same_checks (nice_component_restart sid cid).
Proof. unfold nice_component_restart. keeps_same. Qed.
Hint Resolve keeps_component_restart : keeps.
Lemma preserves_stream_restart sid : preserves (nice_stream_restart sid).
Proof. unfold nice_stream_restart. preserves_all. Qed.
Hint Resolve preserves_stream_restart : preserves.
Lemma preserves_restart : preserves nice_agent_restart.
Proof. unfold nice_agent_restart. preserves_all. Qed.
Lemma preserves_restart_stream sid : preserves (nice_agent_restart_stream sid).
Proof. unfold nice_agent_restart_stream. preserves_all. Qed.
Lemma keeps_controlling_mode v : keeps same_checks (priv_update_controlling_mode v).
Proof. unfold priv_update_controlling_mode. keeps_same. Qed.

(** ** The selected pair *)

Lemma keeps_signal_ready sid cid : keeps same_checks (signal_ready sid cid).
Proof. unfold signal_ready. keeps_same. Qed.
Lemma keeps_tcp_missing sid cid l : keeps same_checks (tcp_missing sid cid l).
Proof. unfold tcp_missing. keeps_same. Qed.
Lemma keeps_component_find_pair sid cid l r : keeps same_checks (nice_component_find_pair sid cid l r).
Proof. unfold nice_component_find_pair. keeps_same. Qed.
Hint Resolve keeps_signal_ready keeps_tcp_missing keeps_component_find_pair : keeps.
Lemma preserves_set_selected_pair sid cid l r : preserves (nice_agent_set_selected_pair sid cid l r).
Proof. unfold nice_agent_set_selected_pair. preserves_all. Qed.
Lemma keeps_best_local d l b n : keeps same_checks (best_local d l b n).
Proof. revert b n. induction l; intros b n; cbn [best_local]; keeps_same. Qed.
Hint Resolve keeps_best_local : keeps.
Lemma keeps_set_selected_remote sid cid d :
  keeps same_checks (nice_component_set_selected_remote_candidate sid cid d).
Proof. unfold nice_component_set_selected_remote_candidate. keeps_same. Qed.
Hint Resolve keeps_set_selected_remote : keeps.
Lemma preserves_set_selected_remote sid cid d : preserves (nice_agent_set_selected_remote_candidate sid cid d).
Proof. unfold nice_agent_set_selected_remote_candidate. preserves_all. Qed.

(** ** Gathering *)

Lemma preserves_pair_if_missing sid cid l r : preserves (pair_if_missing sid cid l r).
Proof. unfold pair_if_missing. preserves_all. Qed.
Hint Resolve preserves_pair_if_missing : preserves.
Lemma preserves_gathered_candidate sid cid c : preserves (gathered_candidate sid cid c).
Proof. unfold gathered_candidate. preserves_all. Qed.
Hint Resolve preserves_gathered_candidate : preserves.
Lemma preserves_gathered_component sid cid : preserves (gathered_component sid cid).
Proof. unfold gathered_component. preserves_all. Qed.
Hint Resolve preserves_gathered_component : preserves.
Lemma preserves_gathered_stream sid : preserves (gathered_stream sid).
Proof. unfold gathered_stream. preserves_all. Qed.
Lemma keeps_stream_gathered sid : keeps same_checks (signal_stream_gathered sid).
Proof. unfold signal_stream_gathered. keeps_same. Qed.
Hint Resolve keeps_stream_gathered : keeps.
Lemma keeps_signal_gathered : keeps same_checks agent_signal_gathering_done.
Proof. unfold agent_signal_gathering_done. keeps_same. Qed.
Hint Resolve preserves_gathered_stream : preserves.
Hint Resolve keeps_signal_gathered : keeps.
Lemma preserves_gathering_done : preserves agent_gathering_done.
Proof. unfold agent_gathering_done. preserves_all. Qed.
Lemma keeps_peer_gathering_done sid : keeps same_checks (nice_agent_peer_candidate_gathering_done sid).
Proof. unfold nice_agent_peer_candidate_gathering_done. keeps_same. Qed.
Lemma keeps_set_stream_name sid n : keeps same_checks (nice_agent_set_stream_name sid n).
Proof. unfold nice_agent_set_stream_name. keeps_same. Qed.
End api.
