(* ===== verification/CheckHistory.v ===== *)
(** * Histories of the check lists

    The entry points of the check lists as the steps of a transition system:
    what happens to an agent between the start of connectivity checks and their
    end, in any order, and the invariant of every state it reaches. *)

From stdpp Require Import gmap sorting relations.
From S2P Require Import Prelude Bytes StateMonad GSList StunMessage StunHmac StunAgent StunAuth StunIce NiceAddress NiceCandidate IceAgent CheckList CheckTick CheckInbound CheckListFacts CheckListInv CheckListOps GStr AgentApi Sdp AgentApiInv CheckDemo.
#[global] Open Scope Z_scope.

Section history.
Context {env : AgentEnv}.

(** ** Entry points *)

Inductive CheckOp :=
| Tick
| Schedule_next
| Remote_candidate (sid cid : Z) (remote : cptr)
| Local_candidate (sid cid : Z) (local : cptr)
| Remote_candidates_set (sid cid : Z)
| Remote_credentials_set (sid : Z)
| Inbound_request (sid cid sock : Z) (from : NiceAddress) (req : StunMessage) (username : bytes)
    (local remote remote2 : option cptr)
| Inbound_response (sid cid sock : Z) (from : NiceAddress) (local remote : option cptr)
    (resp : StunMessage)
| Role_conflict (control : bool)
| Mark_nominated (sid cid : Z) (local remote : option cptr)
| Update_selected_pair (sid cid : Z) (pair : CandidatePair)
| Prune_socket (sid cid : Z) (sock : option Z)
| Prune_stream (sid : Z)
| Free_all
| Set_remote_candidates (sid cid : Z) (l : list NiceCandidate)
| Set_remote_credentials (sid : Z) (ufrag pwd : option bytes)
| Set_local_credentials (sid : Z) (ufrag pwd : option bytes)
| Set_selected_pair (sid cid : Z) (lfoundation rfoundation : bytes)
| Set_selected_remote (sid cid : Z) (d : NiceCandidate)
| Gathering_done
| Peer_gathering_done (sid : Z)
| Set_stream_name (sid : Z) (name : bytes)
| Set_controlling_mode (v : bool)
| Restart
| Restart_stream (sid : Z)
| Parse_remote_sdp (sdp : bytes).

Definition ignore {A} (m : M A) : M unit := _ ← m; mret tt.

Definition run_op (op : CheckOp) : M unit :=
  match op with
  | Tick => ignore priv_conn_check_tick_agent_locked
  | Schedule_next => conn_check_schedule_next
  | Remote_candidate sid cid c => ignore (conn_check_add_for_candidate sid cid c)
  | Local_candidate sid cid c => ignore (conn_check_add_for_local_candidate sid cid c)
  | Remote_candidates_set sid cid => conn_check_remote_candidates_set sid cid
  | Remote_credentials_set sid => conn_check_remote_credentials_set sid
  | Inbound_request sid cid sock from req u l r r2 =>
      ignore (inbound_request sid cid sock from req u l r r2)
  | Inbound_response sid cid sock from l r resp =>
      ignore (priv_map_reply_to_conn_check_request sid cid sock from l r resp)
  | Role_conflict control => priv_check_for_role_conflict control
  | Mark_nominated sid cid l r => priv_mark_pair_nominated sid cid l r
  | Update_selected_pair sid cid p => nice_component_update_selected_pair sid cid p
  | Prune_socket sid cid sock => conn_check_prune_socket sid cid sock
  | Prune_stream sid => conn_check_prune_stream sid
  | Free_all => conn_check_free
  | Set_remote_candidates sid cid l => ignore (nice_agent_set_remote_candidates sid cid l)
  | Set_remote_credentials sid u p => ignore (nice_agent_set_remote_credentials sid u p)
  | Set_local_credentials sid u p => ignore (nice_agent_set_local_credentials sid u p)
  | Set_selected_pair sid cid l r => ignore (nice_agent_set_selected_pair sid cid l r)
  | Set_selected_remote sid cid d => ignore (nice_agent_set_selected_remote_candidate sid cid d)
  | Gathering_done => agent_gathering_done
  | Peer_gathering_done sid => ignore (nice_agent_peer_candidate_gathering_done sid)
  | Set_stream_name sid n => ignore (nice_agent_set_stream_name sid n)
  | Set_controlling_mode v => priv_update_controlling_mode v
  | Restart => ignore nice_agent_restart
  | Restart_stream sid => ignore (nice_agent_restart_stream sid)
  | Parse_remote_sdp sdp => ignore (nice_agent_parse_remote_sdp sdp)
  end.

(** Several entry points in a row. *)
Fixpoint run_ops (ops : list CheckOp) : M unit :=
  match ops with [] => mret tt | op :: ops => _ ← run_op op; run_ops ops end.

(** One step of the agent: an entry point that returns; anything that leaves
    the lists, the queue and the priorities alone (time passes, candidates and
    credentials arrive, component states change); or a new stream. *)
Inductive step : NiceAgent → NiceAgent → Prop :=
| step_op op a a' : run_op op a = Done (tt, a') → step a a'
| step_other a a' : same_checks a a' → step a a'
| step_add_stream a s : conncheck_list s = [] → s_id s ∉ map s_id (streams a) →
    step a (a <| streams := streams a ++ [s] |>).

(** No checks yet. *)
Definition fresh_agent (a : NiceAgent) : Prop :=
  NoDup (map s_id (streams a)) ∧ Forall (λ s, conncheck_list s = []) (streams a) ∧
  triggered_check_queue a = [].

Lemma fresh_checks_ok a : fresh_agent a → checks_ok a.
Proof.
  intros (Hi & Hl & Hq). split; [done | | rewrite Hq; constructor | rewrite Hq; constructor].
  eapply Forall_impl; [exact Hl |]. intros s Hs.
  split; rewrite Hs; try constructor. intros p r Hp. by apply elem_of_nil in Hp.
Qed.

Lemma preserves_run_op op : preserves (run_op op).
Proof.
  destruct op; cbn [run_op]; unfold ignore; try (apply preserves_bind; [| intros; apply preserves_ret]).
  - apply preserves_tick_agent.
  - apply preserves_keeps; keeps_same.
  - apply preserves_add_for_candidate.
  - apply preserves_add_for_local.
  - apply preserves_candidates_set.
  - apply preserves_credentials_set.
  - apply preserves_inbound.
  - apply preserves_map_reply.
  - apply preserves_role_conflict.
  - apply preserves_mark_pair_nominated.
  - apply preserves_update_selected.
  - apply preserves_prune_socket.
  - apply preserves_prune_stream.
  - apply preserves_conn_check_free.
  - apply preserves_set_remotes.
  - apply preserves_set_remote_credentials.
  - apply preserves_keeps, keeps_set_local_credentials.
  - apply preserves_set_selected_pair.
  - apply preserves_set_selected_remote.
  - apply preserves_gathering_done.
  - apply preserves_keeps, keeps_peer_gathering_done.
  - apply preserves_keeps, keeps_set_stream_name.
  - apply preserves_keeps, keeps_controlling_mode.
  - apply preserves_restart.
  - apply preserves_restart_stream.
  - apply preserves_parse_sdp.
Qed.

Lemma preserves_run_ops ops : preserves (run_ops ops).
Proof.
  induction ops as [| op ops IH]; cbn; [apply preserves_ret |].
  apply preserves_bind; [apply preserves_run_op | done].
Qed.

Lemma step_checks_ok a a' : step a a' → checks_ok a → checks_ok a'.
Proof.
  intros Hs Ha. destruct Hs as [op a a' H | a a' H | a s Hs Hid].
  - by eapply preserves_run_op.
  - by eapply same_checks_ok.
  - destruct Ha as [Hi Hl Hn Hal]. split; cbn; [| | done | done].
    + rewrite map_app. apply NoDup_app. split_and!; [done | | apply NoDup_singleton].
      intros i Hi' ->%list_elem_of_singleton. done.
    + apply Forall_app. split; [done |]. constructor; [| constructor].
      split; rewrite Hs; try constructor. intros p r Hp. by apply elem_of_nil in Hp.
Qed.

Lemma run_ops_steps ops a a' : run_ops ops a = Done (tt, a') → rtc step a a'.
Proof.
  revert a. induction ops as [| op ops IH]; intros a H; cbn in H; [by injection H as <- |].
  apply st_bind_inv in H as ([] & b & H1 & H2). eapply rtc_l; [by eapply step_op | by apply IH].
Qed.

(** C2: the check lists of an agent are well formed in every state it reaches.
    From an agent without checks, through any sequence of timer ticks, new
    candidates and credentials, inbound requests and responses, role changes,
    nominations, prunings, restarts, parsed descriptions, pairs selected by the
    application and new streams: no list and no triggered check queue
    holds a pair that was freed or holds a pair twice, every pair is in the list
    of its own stream only, and every list is in order of descending priority. *)
Theorem check_lists_well_formed (a a' : NiceAgent) (Ha : fresh_agent a) (Hs : rtc step a a') :
  NoDup (map s_id (streams a')) ∧
  (∀ s, s ∈ streams a' →
     NoDup (conncheck_list s) ∧
     (∀ p, p ∈ conncheck_list s → ∃ r, pairs a' !! p = Some r ∧ p_stream_id r = s_id s) ∧
     (∀ l1 p l2 q l3 r1 r2, conncheck_list s = l1 ++ p :: l2 ++ q :: l3 →
        pairs a' !! p = Some r1 → pairs a' !! q = Some r2 → p_priority r2 ≤ p_priority r1)) ∧
  (∀ s t p, s ∈ streams a' → t ∈ streams a' → p ∈ conncheck_list s → p ∈ conncheck_list t → s_id s = s_id t) ∧
  NoDup (triggered_check_queue a') ∧
  (∀ p, p ∈ triggered_check_queue a' → is_Some (pairs a' !! p)).
Proof.
  assert (checks_ok a') as [Hi Hl Hn Hal].
  { apply fresh_checks_ok in Ha. induction Hs as [| a b c H _ IH]; [done |].
    by apply IH, (step_checks_ok a). }
  rewrite Forall_forall in Hl. unfold alive in Hal. rewrite Forall_forall in Hal.
  assert (∀ s p, s ∈ streams a' → p ∈ conncheck_list s →
    ∃ r, pairs a' !! p = Some r ∧ p_stream_id r = s_id s) as Hst.
  { intros s p Hs' Hp. destruct (Hl s Hs') as [Ha' _ _ Hst]. unfold alive in Ha'.
    rewrite Forall_forall in Ha'. destruct (Ha' p Hp) as [r Hr]. eauto. }
  split_and!; [done | | | done | done].
  - intros s Hs'. pose proof (Hl s Hs') as [_ Hnd Hso _]. split_and!; [done | by intros; apply Hst |].
    intros l1 p l2 q l3 r1 r2 E Hp Hq. rewrite E in Hso. apply StronglySorted_app_1_r in Hso.
    apply StronglySorted_cons in Hso as [Hf _]. rewrite Forall_forall in Hf.
    apply (Hf q); [set_solver | done | done].
  - intros s t p H1 H2 H3 H4. destruct (Hst s p H1 H3) as (r & Hr & <-).
    destruct (Hst t p H2 H4) as (r' & Hr' & <-). congruence.
Qed.
End history.

Definition returns {A} (r : outcome (A * NiceAgent)) : bool :=
  match r with Done _ => true | _ => false end.
Lemma returns_done {A} (r : outcome (A * NiceAgent)) :
  returns r = true → ∃ x a, r = Done (x, a).
Proof. destruct r as [[x a] | |]; [eauto | done..]. Qed.

(** Two pairs are formed, a triggered check is scheduled and both are sent; the
    role changes. *)
Definition demo_ops : list CheckOp :=
  [Remote_candidate 1 1 3%positive; Tick; Tick; Role_conflict false; Tick].

Lemma demo_fresh n : fresh_agent (demo_ice n).
Proof. split_and!; [apply NoDup_singleton | repeat constructor | done]. Qed.

Lemma check_lists_well_formed_witness :
  ∃ a', rtc step (demo_ice 100) a' ∧ run_ops demo_ops (demo_ice 100) = Done (tt, a') ∧
  NoDup (triggered_check_queue a') ∧ NoDup (map s_id (streams a')).
Proof.
  destruct (returns_done (run_ops demo_ops (demo_ice 100))) as ([] & a' & E); [by vm_compute |].
  exists a'. pose proof (run_ops_steps _ _ _ E) as Hs.
  destruct (check_lists_well_formed (demo_ice 100) a' (demo_fresh 100) Hs) as (H1 & _ & _ & H2 & _).
  split; [exact Hs | split; [exact E | split; [exact H2 | exact H1]]].
Defined.
