(* ===== verification/CheckPrune.v ===== *)
(** * Freeing, limiting and pruning: what is left

    The exact effect of freeing pairs, of the limit on the number of pairs, and
    of the end of checks for a component, when the STUN transactions belong to
    their pairs. *)

From stdpp Require Import gmap sorting.
From S2P Require Import Prelude Bytes StateMonad GSList StunMessage NiceAddress NiceCandidate IceAgent CheckList CheckTick CheckInbound CheckListFacts CheckListInv CheckListOps CheckDemo.
#[global] Open Scope Z_scope.

(** ** Ownership of transactions *)

(** Every transaction of a pair is allocated and belongs to it alone. *)
Record txs_ok (a : NiceAgent) : Prop := {
  tx_alive : ∀ p r t, pairs a !! p = Some r → t ∈ stun_transactions r → is_Some (transactions a !! t);
  tx_nodup : ∀ p r, pairs a !! p = Some r → NoDup (stun_transactions r);
  tx_owner : ∀ p q r s t, pairs a !! p = Some r → pairs a !! q = Some s →
    t ∈ stun_transactions r → t ∈ stun_transactions s → p = q
}.

(** The store without the transactions [l]. *)
Definition drop_txs (l : list tptr) (m : gmap positive StunTransaction) := fold_left (λ m t, delete t m) l m.

Lemma lookup_drop_txs l m t : drop_txs l m !! t = if bool_decide (t ∈ l) then None else m !! t.
Proof.
  revert m. induction l as [| x l IH]; intros m; cbn; [done |]. rewrite IH.
  destruct (decide (x = t)) as [-> | Hne].
  - rewrite lookup_delete_eq, (bool_decide_eq_true_2 (t ∈ t :: l)) by set_solver. by case_bool_decide.
  - rewrite lookup_delete_ne by done. by rewrite (bool_decide_ext (t ∈ l) (t ∈ x :: l)) by set_solver.
Qed.

Lemma run_free_stuns l a :
  NoDup l → (∀ t, t ∈ l → is_Some (transactions a !! t)) →
  for_each l free_stun a = Done (tt, a <| transactions := drop_txs l (transactions a) |>).
Proof.
  intros Hl. revert a. induction Hl as [| t l Ht Hl IH]; intros a Ha; cbn [for_each]; [destruct a; reflexivity |].
  unfold mbind at 1, st_bind. unfold free_stun at 1.
  destruct (Ha t ltac:(set_solver)) as [x ->]. rewrite IH; [done |].
  intros u Hu. cbn. rewrite lookup_delete_ne by set_solver. apply Ha. set_solver.
Qed.

Section prune.
Context {env : AgentEnv}.

(** The state after [p], whose record is [r], was freed. *)
Definition after_free (p : pptr) (r : CandidateCheckPair) (a : NiceAgent) : NiceAgent :=
  a <| triggered_check_queue := g_slist_remove (triggered_check_queue a) p |>
    <| transactions := drop_txs (stun_transactions r) (transactions a) |>
    <| pairs := delete p (pairs a) |>.

Lemma run_pair_free p r a :
  txs_ok a → pairs a !! p = Some r → candidate_check_pair_free p a = Done (tt, after_free p r a).
Proof.
  intros [H1 H2 _] Hr. unfold candidate_check_pair_free, priv_free_all_stun_transactions,
    priv_remove_pair_from_triggered_check_queue. st_run.
  set (b := a <| triggered_check_queue := _ |>).
  assert (pair_at p b = Done (r, b)) as Hb by (unfold pair_at; cbn; by rewrite Hr).
  rewrite (bind_run _ _ _ _ _ Hb). st_run.
  rewrite (bind_run _ _ _ _ _ (run_free_stuns (stun_transactions r) b (H2 p r Hr) (λ t, H1 p r t Hr))).
  unfold mbind, st_bind, upd_pair, free_pair. cbn. rewrite Hr. cbn. rewrite lookup_insert_eq.
  rewrite delete_insert_eq. reflexivity.
Qed.

Lemma after_free_txs p r a : txs_ok a → pairs a !! p = Some r → txs_ok (after_free p r a).
Proof.
  intros [H1 H2 H3] Hr. split; cbn.
  - intros q s t [Hne Hs]%lookup_delete_Some Ht. rewrite lookup_drop_txs.
    case_bool_decide as Hin; [| by eapply H1]. destruct Hne. by eapply H3.
  - intros q s [_ Hs]%lookup_delete_Some. by eapply H2.
  - intros q q' s s' t [_ Hs]%lookup_delete_Some [_ Hs']%lookup_delete_Some. by eapply H3.
Qed.

(** ** The limit *)

(** Only the pairs [D], their transactions and their places in the queue are
    gone. *)
Record freed (D : list pptr) (a b : NiceAgent) : Prop := {
  fr_pairs : ∀ p, pairs b !! p = if bool_decide (p ∈ D) then None else pairs a !! p;
  fr_queue : triggered_check_queue b = filter (λ p, p ∉ D) (triggered_check_queue a);
  fr_txs : ∀ t, (∀ p r, p ∈ D → pairs a !! p = Some r → t ∉ stun_transactions r) →
    transactions b !! t = transactions a !! t;
  fr_streams : streams b = streams a;
  fr_candidates : candidates b = candidates a;
  fr_actions : actions b = actions a
}.

Lemma freed_nil a : freed [] a a.
Proof.
  split; try done. induction (triggered_check_queue a) as [| p l IH]; [done |].
  rewrite filter_cons_True by set_solver. by rewrite <- IH.
Qed.

Lemma freed_cons p r D a b :
  NoDup (triggered_check_queue a) → pairs a !! p = Some r → freed D (after_free p r a) b →
  freed (p :: D) a b.
Proof.
  intros Hn Hr [H1 H2 H3 H4 H5 H6]. split; try done.
  - intros q. rewrite H1. cbn. destruct (decide (q = p)) as [-> | Hne].
    + rewrite lookup_delete_eq, (bool_decide_eq_true_2 (p ∈ p :: D)) by set_solver. by case_bool_decide.
    + rewrite lookup_delete_ne by done. by rewrite (bool_decide_ext (q ∈ D) (q ∈ p :: D)) by set_solver.
  - rewrite H2. cbn. rewrite g_slist_remove_filter by done. rewrite list_filter_filter.
    apply list_filter_iff. intros q. set_solver.
  - intros t Ht. rewrite H3; cbn.
    + rewrite lookup_drop_txs. case_bool_decide as Hin; [| done]. exfalso. by apply (Ht p r); [set_solver | ..].
    + intros q s Hq [_ Hs]%lookup_delete_Some. apply (Ht q s); [set_solver | done].
Qed.

Lemma run_limit_loop l v u a :
  txs_ok a → NoDup l → alive (pairs a) l → NoDup (triggered_check_queue a) →
  0 ≤ v → v + zlen l < 2 ^ 32 → 0 ≤ u →
  ∃ b, limit_loop l v u a = Done (take (Z.to_nat (u - v)) l, b) ∧ freed (drop (Z.to_nat (u - v)) l) a b ∧ txs_ok b.
Proof.
  intros Ht Hl. revert v a Ht. induction Hl as [| p l Hp Hl IH]; intros v a Ht Ha Hn Hv Hlen Hu; cbn [limit_loop].
  - rewrite take_nil, drop_nil. exists a. split_and!; [done | apply freed_nil | done].
  - rewrite zlen_cons in Hlen. pose proof (zlen_nonneg l). apply Forall_cons in Ha as [[r Hr] Ha].
    replace (u32 (v + 1)) with (v + 1) by (unfold u32; rewrite Z.mod_small; lia).
    destruct (Z.ltb_spec u (v + 1)) as [Hc | Hc].
    + rewrite (bind_run _ _ _ _ _ (run_pair_free p r a Ht Hr)).
      destruct (IH (v + 1) (after_free p r a)) as (b & E & Hf & Hb); try lia.
      * by apply after_free_txs.
      * unfold alive in *. rewrite Forall_forall in *. intros q Hq. cbn.
        rewrite lookup_delete_ne by congruence. by apply Ha.
      * cbn. by apply NoDup_remove.
      * replace (Z.to_nat (u - v)) with 0%nat by lia. replace (Z.to_nat (u - (v + 1))) with 0%nat in * by lia.
        rewrite !take_0, !drop_0 in *. exists b. split_and!; [done | by eapply freed_cons | done].
    + destruct (IH (v + 1) a) as (b & E & Hf & Hb); try done; try lia.
      rewrite (bind_run _ _ _ _ _ E). replace (Z.to_nat (u - v)) with (S (Z.to_nat (u - (v + 1)))) by lia.
      cbn. by exists b.
Qed.

(** C22: the limit keeps the pairs of the highest priority.  On a list in order,
    [priv_limit_conn_check_list_size] returns the first [upper] pairs of the
    list; exactly the other pairs are freed, with their transactions and their
    places in the triggered check queue, and none of them has a higher priority
    than a pair that is kept; nothing else changes. *)
Theorem limit_keeps_highest (sid upper : Z) (a : NiceAgent) (s : NiceStream)
    (Ha : checks_ok a) (Ht : txs_ok a) (Hs : agent_find_stream a sid = Some s)
    (Hlen : zlen (conncheck_list s) < 2 ^ 32) (Hu : 0 ≤ upper) :
  let kept := take (Z.to_nat upper) (conncheck_list s) in
  let cut := drop (Z.to_nat upper) (conncheck_list s) in
  ∃ b, priv_limit_conn_check_list_size (conncheck_list s) upper a = Done (kept, b) ∧
    freed cut a b ∧ txs_ok b ∧
    (∀ p q r t, p ∈ kept → q ∈ cut → pairs a !! p = Some r → pairs a !! q = Some t →
       p_priority t ≤ p_priority r) ∧
    (∀ p, p ∈ kept → is_Some (pairs b !! p) ∧ pairs b !! p = pairs a !! p).
Proof.
  cbv zeta. pose proof (stream_list_ok a sid s Ha Hs) as [Hal Hnd Hso _].
  destruct (run_limit_loop (conncheck_list s) 0 upper a) as (b & E & Hf & Hb);
    try done; try lia; [apply (ck_queue a Ha) |].
  rewrite Z.sub_0_r in *. exists b. split_and!; [exact E | done | done | |].
  - intros p q r t Hp Hq Hr Ht'. unfold sorted in Hso.
    rewrite <- (take_drop (Z.to_nat upper) (conncheck_list s)) in Hso.
    by apply (StronglySorted_app_1_elem_of _ _ _ p q Hso Hp Hq).
  - intros p Hp. assert (p ∉ drop (Z.to_nat upper) (conncheck_list s)) as Hn.
    { rewrite <- (take_drop (Z.to_nat upper) (conncheck_list s)) in Hnd.
      apply NoDup_app in Hnd as (_ & Hnd & _). by apply Hnd. }
    rewrite (fr_pairs _ _ _ Hf), bool_decide_eq_false_2 by done. split; [| done].
    unfold alive in Hal. rewrite Forall_forall in Hal. apply Hal. eapply subseteq_take, Hp.
Qed.
End prune.

(** With a full list the pair that was just formed is freed, and
    [priv_conn_check_add_for_candidate_pair_matched] returns its address:
    scheduling it uses it after it was freed. *)
Lemma triggered_check_on_full_list_undefined :
  (_ ← conn_check_add_for_candidate 1 1 3%positive; priv_schedule_triggered_check 1 1 2 3%positive)
    (demo_ice 1) = Ub.
Proof. by vm_compute. Qed.
