(* ===== verification/CheckReady.v ===== *)
(** * The end of checks for a component

    Pruning the pending checks of a component, and the state a component with a
    nominated pair reaches. *)

From stdpp Require Import gmap sorting.
From S2P Require Import Prelude Bytes StateMonad GSList StunMessage NiceAddress NiceCandidate IceAgent CheckList CheckTick CheckInbound CheckListFacts CheckListInv CheckListOps CheckPrune CheckDemo.
#[global] Open Scope Z_scope.

(** ** Pruning as a function on pairs *)

(** What pruning the component [cid] does to a pair: [None] if it is freed. *)
Definition prune_result (cid highest : Z) (r : CandidateCheckPair) : option CandidateCheckPair :=
  if p_component_id r =? cid then
    if in_state NICE_CHECK_FROZEN r || in_state NICE_CHECK_WAITING r then None
    else if in_state NICE_CHECK_IN_PROGRESS r && (p_priority r <? highest)
    then Some (r <| retransmit := false |>) else Some r
  else Some r.

(** The checks that go on. *)
Definition still_pending (cid highest : Z) (r : CandidateCheckPair) : bool :=
  (p_component_id r =? cid) && in_state NICE_CHECK_IN_PROGRESS r && negb (p_priority r <? highest).

(** Only pairs, their lists, transactions and places in the queue differ. *)
Definition same_rest (a b : NiceAgent) : Prop :=
  b = a <| streams := streams b |> <| triggered_check_queue := triggered_check_queue b |>
        <| pairs := pairs b |> <| transactions := transactions b |>.

#[export] Instance same_rest_preorder : PreOrder same_rest.
Proof.
  split; [intros []; reflexivity |]. intros [] [] [] H1 H2. unfold same_rest in *. cbn in *.
  injection H1; intros; subst. injection H2; intros; subst. reflexivity.
Qed.

(** Every pair [p] becomes [f p]; the list of [sid] keeps the pairs left. *)
Record pruned (sid : Z) (f : pptr → CandidateCheckPair → option CandidateCheckPair) (a b : NiceAgent) : Prop := {
  pr_pairs : ∀ p, pairs b !! p = pairs a !! p ≫= f p;
  pr_streams : streams b = update_first (λ s, s_id s =? sid)
    (λ s, s <| conncheck_list := filter (λ p, is_Some (pairs b !! p)) (conncheck_list s) |>) (streams a);
  pr_rest : same_rest a b
}.

Lemma update_first_ext P (f g : NiceStream → NiceStream) l :
  (∀ s, List.find P l = Some s → f s = g s) → update_first P f l = update_first P g l.
Proof.
  induction l as [| s l IH]; cbn; intros H; [done |]. destruct (P s); [by rewrite H | by rewrite IH].
Qed.
Lemma update_first_id P (f : NiceStream → NiceStream) l :
  (∀ s, List.find P l = Some s → f s = s) → update_first P f l = l.
Proof.
  induction l as [| s l IH]; cbn; intros H; [done |]. destruct (P s); [by rewrite H | by rewrite IH].
Qed.
Lemma update_first_twice P (f g : NiceStream → NiceStream) l :
  (∀ s, P (f s) = P s) → update_first P g (update_first P f l) = update_first P (λ s, g (f s)) l.
Proof.
  intros H. induction l as [| s l IH]; cbn; [done |]. destruct (P s) eqn:E; cbn; rewrite ?H, E; [done |].
  by rewrite IH.
Qed.
Lemma find_update_first {A} (P : A → bool) (f : A → A) l :
  (∀ x, P (f x) = P x) → List.find P (update_first P f l) = f <$> List.find P l.
Proof.
  intros H. induction l as [| x l IH]; cbn; [done |].
  destruct (P x) eqn:E; cbn; rewrite ?H, E; [done | by rewrite IH].
Qed.

Lemma set_list_self (s : NiceStream) l : l = conncheck_list s → s <| conncheck_list := l |> = s.
Proof. intros ->. by destruct s. Qed.

Lemma set_list_congr (s : NiceStream) l l' : l = l' → s <| conncheck_list := l |> = s <| conncheck_list := l' |>.
Proof. by intros ->. Qed.
Lemma set_list_twice (s : NiceStream) l0 l l' :
  l = l' → (s <| conncheck_list := l0 |>) <| conncheck_list := l |> = s <| conncheck_list := l' |>.
Proof. by intros ->. Qed.

Lemma pruned_compose sid f g a b c :
  pruned sid f a b → pruned sid g b c → pruned sid (λ p r, f p r ≫= g p) a c.
Proof.
  intros [H1 H2 H3] [H1' H2' H3']. split; [| | by transitivity b].
  - intros p. rewrite H1', H1. by destruct (pairs a !! p).
  - rewrite H2', H2, update_first_twice by done. apply update_first_ext. intros s _. cbn.
    apply set_list_twice. rewrite list_filter_filter. apply list_filter_iff. intros p.
    rewrite (H1' p). destruct (pairs b !! p); cbn; [split; [by intros [] | eauto] |].
    split; [by intros [] | by intros []].
Qed.

Lemma pruned_find sid f a b s :
  pruned sid f a b → agent_find_stream a sid = Some s →
  agent_find_stream b sid = Some (s <| conncheck_list := filter (λ p, is_Some (pairs b !! p)) (conncheck_list s) |>).
Proof.
  intros H Hs. unfold agent_find_stream in *. rewrite (pr_streams _ _ _ _ H).
  rewrite find_update_first by done. by rewrite Hs.
Qed.

Lemma filter_all {A} (P : A → Prop) `{Pdec : ∀ x, Decision (P x)} l : Forall P l → filter P l = l.
Proof. induction 1 as [| x l Hx Hl IH]; [done |]. by rewrite filter_cons_True, IH. Qed.

Lemma find_stream_is a sid s t :
  agent_find_stream a sid = Some s → List.find (λ s, s_id s =? sid) (streams a) = Some t → t = s.
Proof. unfold agent_find_stream. congruence. Qed.

Lemma list_filter_iff' {A} (P Q : A → Prop) `{Pdec : ∀ x, Decision (P x), Qdec : ∀ x, Decision (Q x)} (l : list A) :
  (∀ x, x ∈ l → P x ↔ Q x) → filter P l = filter Q l.
Proof.
  induction l as [| x l IH]; intros H; [done |]. rewrite !filter_cons, IH by (intros; apply H; set_solver).
  pose proof (H x (list_elem_of_here _ _)). repeat case_decide; tauto.
Qed.

Section ready.
Context {env : AgentEnv}.

(** ** One round *)

(** The list of the stream when a round starts. *)
Record round_ok (sid : Z) (a : NiceAgent) : Prop := {
  ro_txs : txs_ok a;
  ro_list : ∃ s, agent_find_stream a sid = Some s ∧ NoDup (conncheck_list s) ∧ alive (pairs a) (conncheck_list s)
}.

(** The round for the pair [p0]. *)
Definition prune_at (p0 : pptr) (cid highest : Z) (p : pptr) (r : CandidateCheckPair) :=
  if decide (p = p0) then prune_result cid highest r else Some r.

Lemma pruned_update sid p r r' a :
  round_ok sid a → pairs a !! p = Some r →
  pruned sid (λ q t, if decide (q = p) then Some r' else Some t) a (a <| pairs := <[p := r']> (pairs a) |>).
Proof.
  intros [_ (s & Hs & _ & Hal)] Hr. split; [| | destruct a; reflexivity].
  - intros q. cbn. destruct (decide (q = p)) as [-> | Hne].
    + by rewrite lookup_insert_eq, Hr.
    + rewrite lookup_insert_ne by done. by destruct (pairs a !! q).
  - symmetry. apply update_first_id. intros s' Hs'. pose proof (find_stream_is _ _ _ _ Hs Hs') as ->. apply set_list_self. cbn. apply filter_all.
    eapply Forall_impl; [exact Hal |]. intros q Hq. cbn. destruct (decide (q = p)) as [-> |].
    + rewrite lookup_insert_eq. eauto.
    + by rewrite lookup_insert_ne.
Qed.

Lemma pruned_nothing sid a : round_ok sid a → pruned sid (λ q t, Some t) a a.
Proof.
  intros [_ (s & Hs & _ & Hal)]. split; [| | by destruct a].
  - intros q. by destruct (pairs a !! q).
  - symmetry. apply update_first_id. intros s' Hs'. pose proof (find_stream_is _ _ _ _ Hs Hs') as ->. apply set_list_self. by apply filter_all.
Qed.

Lemma pruned_ext sid f g a b :
  pruned sid f a b → (∀ p r, pairs a !! p = Some r → f p r = g p r) → pruned sid g a b.
Proof.
  intros [H1 H2 H3] H. split; [| done | done]. intros p. rewrite H1.
  destruct (pairs a !! p) as [r |] eqn:Hr; cbn; [by apply H | done].
Qed.

Lemma pruned_free sid p r s a :
  round_ok sid a → pairs a !! p = Some r → agent_find_stream a sid = Some s →
  pruned sid (λ q t, if decide (q = p) then None else Some t) a
    ((after_free p r a) <| streams := update_first (λ s, s_id s =? sid)
       (λ t, t <| conncheck_list := g_slist_remove (conncheck_list s) p |>) (streams a) |>).
Proof.
  intros [_ (s' & Hs' & Hnd & Hal)] Hr Hs. rewrite Hs in Hs'. injection Hs' as <-. split; cbn; [| | by destruct a].
  - intros q. destruct (decide (q = p)) as [-> | Hne].
    + by rewrite lookup_delete_eq, Hr.
    + rewrite lookup_delete_ne by done. by destruct (pairs a !! q).
  - apply update_first_ext. intros t Ht. pose proof (find_stream_is _ _ _ _ Hs Ht) as ->.
    apply set_list_congr. rewrite g_slist_remove_filter by done. apply list_filter_iff'. intros q Hq. cbn.
    unfold alive in Hal. rewrite Forall_forall in Hal. destruct (decide (q = p)) as [-> | Hne].
    + rewrite lookup_delete_eq. split; [done | by intros []].
    + rewrite lookup_delete_ne by done. split; [intros _; by apply Hal | done].
Qed.

Lemma pruned_round_ok sid f a b : pruned sid f a b → txs_ok b → round_ok sid a → round_ok sid b.
Proof.
  intros H Hb [_ (s & Hs & Hnd & Hal)]. split; [done |]. eexists.
  split_and!; [by eapply pruned_find | cbn; by apply NoDup_filter |]. cbn.
  apply Forall_forall. by intros p [Hp _]%list_elem_of_filter.
Qed.

Lemma txs_ok_same a b :
  pairs b = pairs a → transactions b = transactions a → txs_ok a → txs_ok b.
Proof. intros Hp Ht [H1 H2 H3]. split; rewrite ?Hp, ?Ht; eauto. Qed.

Lemma txs_ok_update p r r' a :
  pairs a !! p = Some r → stun_transactions r' = stun_transactions r → txs_ok a →
  txs_ok (a <| pairs := <[p := r']> (pairs a) |>).
Proof.
  intros Hr Et [H1 H2 H3].
  assert (∀ q t, <[p := r']> (pairs a) !! q = Some t →
    ∃ t0, pairs a !! q = Some t0 ∧ stun_transactions t0 = stun_transactions t) as Hold.
  { intros q t. destruct (decide (q = p)) as [-> |].
    - rewrite lookup_insert_eq. intros [= <-]. by exists r.
    - rewrite lookup_insert_ne by done. by exists t. }
  split; cbn.
  - intros q t u (t0 & Hq & <-)%Hold. by eapply H1.
  - intros q t (t0 & Hq & <-)%Hold. by eapply H2.
  - intros q q' t t' u (t0 & Hq & <-)%Hold (t0' & Hq' & <-)%Hold. by eapply H3.
Qed.

(** Freeing [p] and deleting its node, before [k] is returned. *)
Lemma run_unlink {A} sid p r (k : A) a :
  round_ok sid a → pairs a !! p = Some r →
  ∃ b, (_ ← candidate_check_pair_free p; s ← stream_at sid;
        _ ← store_conncheck_list sid (g_slist_remove (conncheck_list s) p); mret k) a = Done (k, b) ∧
    pruned sid (λ q t, if decide (q = p) then None else Some t) a b ∧ round_ok sid b.
Proof.
  intros Ha Hr. pose proof (ro_txs _ _ Ha) as Ht.
  rewrite (bind_run _ _ _ _ _ (run_pair_free p r a Ht Hr)).
  destruct (ro_list _ _ Ha) as (s & Hs & _).
  assert (stream_at sid (after_free p r a) = Done (s, after_free p r a)) as E.
  { unfold stream_at, agent_find_stream in *. cbn. by rewrite Hs. }
  rewrite (bind_run _ _ _ _ _ E). pose proof (pruned_free sid p r s a Ha Hr Hs) as Hpr.
  eexists. split; [reflexivity |]. split; [exact Hpr |]. eapply pruned_round_ok; [exact Hpr | | done].
  eapply txs_ok_same; [| | by eapply after_free_txs]; done.
Qed.

Lemma run_prune_pair sid cid h p n r a :
  round_ok sid a → pairs a !! p = Some r →
  ∃ b, prune_pair sid cid h p n a = Done (n + (if still_pending cid h r then 1 else 0), b) ∧
    pruned sid (prune_at p cid h) a b ∧ round_ok sid b.
Proof.
  intros Ha Hr. unfold prune_pair.
  assert (pair_at p a = Done (r, a)) as Hp by (unfold pair_at; by rewrite Hr).
  rewrite (bind_run _ _ _ _ _ Hp).
  assert (∀ r' (k : Z), prune_result cid h r = Some r' → stun_transactions r' = stun_transactions r →
    ∃ b, Done (k, a <| pairs := <[p := r']> (pairs a) |>) = Done (k, b) ∧
      pruned sid (prune_at p cid h) a b ∧ round_ok sid b) as Hupd.
  { intros r' k E E2. eexists. split; [done |]. pose proof (pruned_update sid p r r' a Ha Hr) as Hpr.
    split; [| eapply pruned_round_ok; [exact Hpr | by eapply txs_ok_update, Ha | done]].
    eapply pruned_ext; [exact Hpr |]. intros q t Hq. unfold prune_at. case_decide; [| done]. by simplify_eq. }
  assert (∀ k : Z, prune_result cid h r = Some r →
    ∃ b, (mret k : M Z) a = Done (k, b) ∧ pruned sid (prune_at p cid h) a b ∧ round_ok sid b) as Hkeep.
  { intros k E. exists a. split; [done |]. split; [| done].
    eapply pruned_ext; [by apply pruned_nothing |]. intros q t Hq. unfold prune_at. case_decide; [| done].
    by simplify_eq. }
  unfold prune_result, still_pending in *. destruct (p_component_id r =? cid) eqn:Hc; cbn [andb];
    [| rewrite Z.add_0_r; by apply Hkeep].
  destruct (in_state NICE_CHECK_FROZEN r || in_state NICE_CHECK_WAITING r) eqn:Hfw.
  - replace (in_state NICE_CHECK_IN_PROGRESS r) with false
      by (unfold in_state in *; by destruct (p_state r)). cbn [andb]. rewrite Z.add_0_r.
    destruct (run_unlink sid p r n a Ha Hr) as (b & E & Hpr & Hb). exists b. split_and!; [exact E | | done].
    eapply pruned_ext; [exact Hpr |]. intros q t Hq. unfold prune_at, prune_result. case_decide; [| done].
    simplify_eq. by rewrite Hc, Hfw.
  - destruct (in_state NICE_CHECK_IN_PROGRESS r); cbn [andb] in *; [| rewrite Z.add_0_r; by apply Hkeep].
    destruct (p_priority r <? h); cbn [negb] in *; [| by apply Hkeep].
    rewrite Z.add_0_r. unfold mbind, st_bind, upd_pair. rewrite Hr. by apply Hupd.
Qed.

(** The number of checks of [l] that go on. *)
Definition pending_count (cid h : Z) (l : list (pptr * CandidateCheckPair)) : Z :=
  count_pairs (still_pending cid h) l.

Lemma pending_count_cons cid h p r l :
  pending_count cid h ((p, r) :: l) = (if still_pending cid h r then 1 else 0) + pending_count cid h l.
Proof.
  unfold pending_count, count_pairs. rewrite filter_cons. case_decide as E; cbn in E.
  - by rewrite zlen_cons, E.
  - by destruct (still_pending cid h r).
Qed.

Lemma records_ext m m' l : (∀ p, p ∈ l → m !! p = m' !! p) → records m l = records m' l.
Proof.
  unfold records. induction l as [| p l IH]; intros H; cbn; [done |].
  rewrite (H p) by set_solver. rewrite IH by (intros; apply H; set_solver). done.
Qed.

Lemma run_prune_loop sid cid h l n a :
  round_ok sid a → NoDup l → alive (pairs a) l →
  ∃ b, prune_loop sid cid h l n a = Done (n + pending_count cid h (records (pairs a) l), b) ∧
    pruned sid (λ p r, if decide (p ∈ l) then prune_result cid h r else Some r) a b ∧ round_ok sid b.
Proof.
  intros Ha Hl. revert n a Ha. induction Hl as [| p l Hp Hl IH]; intros n a Ha Hal; cbn [prune_loop].
  - exists a. rewrite Z.add_0_r. split_and!; [done | | done].
    eapply pruned_ext; [by apply pruned_nothing |]. intros p r _. by rewrite decide_False by apply not_elem_of_nil.
  - apply Forall_cons in Hal as [[r Hr] Hal].
    destruct (run_prune_pair sid cid h p n r a Ha Hr) as (b & E & Hpr & Hb).
    rewrite (bind_run _ _ _ _ _ E).
    assert (∀ q, q ∈ l → pairs b !! q = pairs a !! q) as Hsame.
    { intros q Hq. rewrite (pr_pairs _ _ _ _ Hpr). destruct (pairs a !! q) as [t |]; [| done]. cbn.
      unfold prune_at. rewrite decide_False; [done |]. by intros ->. }
    destruct (IH (n + (if still_pending cid h r then 1 else 0)) b Hb) as (c & E' & Hpr' & Hc).
    { unfold alive in *. rewrite Forall_forall in *. intros q Hq. rewrite Hsame by done. by apply Hal. }
    exists c. split_and!; [| | done].
    + rewrite E', (records_cons _ _ _ _ Hr), pending_count_cons, (records_ext (pairs b) (pairs a)) by done.
      do 2 f_equal. lia.
    + eapply pruned_ext; [by eapply pruned_compose |]. intros q t Hq. cbn. unfold prune_at.
      destruct (decide (q = p)) as [-> | Hne].
      * rewrite (decide_True (P := p ∈ p :: l)) by apply list_elem_of_here.
        destruct (prune_result cid h t) as [t' |]; cbn; [| done]. by rewrite decide_False.
      * cbn. destruct (decide (q ∈ l)); [by rewrite decide_True by set_solver | by rewrite decide_False by set_solver].
Qed.

Lemma run_checklist sid s a :
  agent_find_stream a sid = Some s → alive (pairs a) (conncheck_list s) →
  checklist sid a = Done (records (pairs a) (conncheck_list s), a).
Proof.
  intros Hs Hl. assert (wp (checklist sid) (λ x b, x = records (pairs a) (conncheck_list s) ∧ b = a) a) as H.
  { by eapply wp_checklist. }
  by apply wp_done in H as (x & b & E & -> & ->).
Qed.

Lemma prune_pending_run sid cid a s :
  checks_ok a → txs_ok a → agent_find_stream a sid = Some s →
  let l := records (pairs a) (conncheck_list s) in
  let h := highest_nominated cid l in
  ∃ b, priv_prune_pending_checks sid cid a = Done (pending_count cid h l, b) ∧
    pruned sid (λ p r, if decide (p ∈ conncheck_list s) then prune_result cid h r else Some r) a b ∧
    round_ok sid b.
Proof.
  intros Ha Ht Hs. pose proof (stream_list_ok a sid s Ha Hs) as [Hal Hnd _ _]. cbv zeta.
  unfold priv_prune_pending_checks. rewrite (bind_run _ _ _ _ _ (run_checklist sid s a Hs Hal)).
  rewrite records_fst by done. apply run_prune_loop; [by split; [| exists s] | done | done].
Qed.

(** C31: [priv_prune_pending_checks] ends the checks of a component.  It returns
    the number of checks of the component in progress whose priority is not
    below that of the best nominated valid pair.  The Frozen and Waiting pairs
    of the component are freed and leave the list, its checks in progress of a
    lower priority are no longer retransmitted, all other pairs are untouched,
    and the rest of the agent is untouched. *)
Theorem prune_pending_effect (sid cid : Z) (a : NiceAgent) (s : NiceStream)
    (Ha : checks_ok a) (Ht : txs_ok a) (Hs : agent_find_stream a sid = Some s) :
  let l := records (pairs a) (conncheck_list s) in
  let h := highest_nominated cid l in
  ∃ b, priv_prune_pending_checks sid cid a = Done (pending_count cid h l, b) ∧
    (∀ p, pairs b !! p = pairs a !! p ≫= λ r,
       if decide (p ∈ conncheck_list s) then prune_result cid h r else Some r) ∧
    agent_find_stream b sid =
      Some (s <| conncheck_list := filter (λ p, is_Some (pairs b !! p)) (conncheck_list s) |>) ∧
    same_rest a b ∧ txs_ok b.
Proof.
  destruct (prune_pending_run sid cid a s Ha Ht Hs) as (b & E & Hpr & Hb).
  exists b. split_and!; [exact E | apply (pr_pairs _ _ _ _ Hpr) | by eapply pruned_find | apply Hpr | apply Hb].
Qed.

(** ** The state of the component *)

Lemma find_component_inv a sid cid s c :
  agent_find_component a sid cid = Some (s, c) →
  agent_find_stream a sid = Some s ∧ nice_stream_find_component_by_id s cid = Some c.
Proof.
  unfold agent_find_component. destruct (agent_find_stream a sid) as [s' |]; [| done]. cbn.
  destruct (nice_stream_find_component_by_id s' cid) eqn:E; [| done]. intros [= <- <-]. done.
Qed.

Lemma find_component_intro a sid cid s c :
  agent_find_stream a sid = Some s → nice_stream_find_component_by_id s cid = Some c →
  agent_find_component a sid cid = Some (s, c).
Proof. unfold agent_find_component. intros ->. cbn. intros ->. done. Qed.

Lemma find_component_update sid cid s c (f : NiceComponent → NiceComponent) a b :
  agent_find_component a sid cid = Some (s, c) → (∀ x, c_id (f x) = c_id x) →
  streams b = update_first (λ s, s_id s =? sid)
    (λ s, s <| components := update_first (λ c, c_id c =? cid) f (components s) |>) (streams a) →
  ∃ s', agent_find_component b sid cid = Some (s', f c) ∧ conncheck_list s' = conncheck_list s.
Proof.
  intros [Hs Hc]%find_component_inv Hf Hb. eexists. split.
  - apply find_component_intro.
    + unfold agent_find_stream in *. rewrite Hb, find_update_first by done. by rewrite Hs.
    + unfold nice_stream_find_component_by_id in *. cbn. rewrite find_update_first by (intros; by rewrite Hf).
      by rewrite Hc.
  - done.
Qed.

(** The component is in state [st] in [b], the lists and pairs are those of [a]. *)
Record signalled (sid cid : Z) (st : NiceComponentState) (s : NiceStream) (c : NiceComponent) (a b : NiceAgent)
  : Prop := {
  sg_component : ∃ s', agent_find_component b sid cid = Some (s', c <| c_state := st |>) ∧
    conncheck_list s' = conncheck_list s;
  sg_pairs : pairs b = pairs a;
  sg_txs : transactions b = transactions a
}.

Lemma signalled_self sid cid s c a :
  agent_find_component a sid cid = Some (s, c) → signalled sid cid (c_state c) s c a a.
Proof. intros H. split; try done. exists s. by destruct c. Qed.

Lemma signalled_trans sid cid st st' s s' c a b b' :
  signalled sid cid st s c a b → conncheck_list s' = conncheck_list s →
  signalled sid cid st' s' (c <| c_state := st |>) b b' → signalled sid cid st' s c a b'.
Proof. intros [_ H2 H3] El [(s'' & H & El') H2' H3']. split; [exists s''; split; [done |] | |]; congruence. Qed.

Lemma wp_signal sid cid st s c (Q : unit → NiceAgent → Prop) a :
  agent_find_component a sid cid = Some (s, c) →
  st = c_state c ∨ transition (c_state c) st = true →
  (∀ b, signalled sid cid st s c a b → Q tt b) → wp (agent_signal_component_state_change sid cid st) Q a.
Proof.
  intros Hc Hst HQ. unfold agent_signal_component_state_change, wp. rewrite Hc.
  destruct (decide (st = c_state c)) as [-> | Hne]; [by apply HQ, signalled_self |].
  destruct Hst as [| Ht]; [done |]. rewrite Ht. unfold upd_comp, upd_stream. st_run.
  assert (∀ b, streams b = update_first (λ s, s_id s =? sid)
      (λ s, s <| components := update_first (λ c, c_id c =? cid) (λ c, c <| c_state := st |>) (components s) |>)
      (streams a) → pairs b = pairs a → transactions b = transactions a → Q tt b) as H.
  { intros b Hb Hp Htx. apply HQ. split; [| done | done]. by eapply find_component_update. }
  destruct (reliable a); by apply H.
Qed.

(** CONNECTING if nothing better, CONNECTED, READY: always a legal path. *)
Lemma wp_to_ready sid cid s c (Q : unit → NiceAgent → Prop) a :
  agent_find_component a sid cid = Some (s, c) →
  (∀ b, signalled sid cid NICE_COMPONENT_STATE_READY s c a b → Q tt b) →
  wp (c ← comp_at sid cid;
      _ ← when (state_below c NICE_COMPONENT_STATE_CONNECTING ||
                bool_decide (c_state c = NICE_COMPONENT_STATE_FAILED))
        (agent_signal_component_state_change sid cid NICE_COMPONENT_STATE_CONNECTING);
      c ← comp_at sid cid;
      _ ← when (state_below c NICE_COMPONENT_STATE_CONNECTED)
        (agent_signal_component_state_change sid cid NICE_COMPONENT_STATE_CONNECTED);
      agent_signal_component_state_change sid cid NICE_COMPONENT_STATE_READY) Q a.
Proof.
  intros Hc HQ. apply wp_bind. eapply wp_comp_at; [exact Hc |]. apply wp_bind.
  eapply (wp_mono _ (λ _ b, ∃ st, signalled sid cid st s c a b ∧
    st ≠ NICE_COMPONENT_STATE_DISCONNECTED ∧ st ≠ NICE_COMPONENT_STATE_GATHERING ∧
    st ≠ NICE_COMPONENT_STATE_FAILED)).
  { apply wp_when; intros Hw.
    - eapply wp_signal; [exact Hc | | by eexists]. unfold state_below in Hw.
      destruct (c_state c); cbn in *; try done; by right.
    - exists (c_state c). split; [by apply signalled_self |]. unfold state_below in Hw.
      by destruct (c_state c). }
  intros _ b (st & Hb & Hst). pose proof (sg_component _ _ _ _ _ _ _ Hb) as (s1 & Hc1 & El1).
  apply wp_bind. eapply wp_comp_at; [exact Hc1 |]. apply wp_bind.
  eapply (wp_mono _ (λ _ b, ∃ st, signalled sid cid st s c a b ∧
    (st = NICE_COMPONENT_STATE_CONNECTED ∨ st = NICE_COMPONENT_STATE_READY))).
  { apply wp_when; intros Hw; cbn in Hw.
    - eapply wp_signal; [exact Hc1 | | intros b' Hb'; eexists; split; [by eapply signalled_trans | by left]].
      destruct st; cbn in *; try naive_solver.
    - exists st. split; [done |]. destruct st; cbn in *; naive_solver. }
  intros _ b' (st' & Hb' & Hst'). pose proof (sg_component _ _ _ _ _ _ _ Hb') as (s2 & Hc2 & El2).
  eapply wp_signal; [exact Hc2 | | intros b2 Hb2; apply HQ; by eapply signalled_trans].
  destruct Hst' as [-> | ->]; [by right | by left].
Qed.

(** C6: a component becomes READY exactly when its checks have ended.
    [priv_update_check_list_state_for_ready] never fails an assertion, whatever
    the state of the component.  Without a nominated valid pair it does nothing.
    With one it prunes the pending checks, and then the component is READY if no
    check of a priority at least that of the best nominated pair is in progress,
    and otherwise in the state it was in. *)
Theorem ready_when_checks_end (sid cid : Z) (a : NiceAgent) (s : NiceStream) (c : NiceComponent)
    (Ha : checks_ok a) (Ht : txs_ok a) (Hc : agent_find_component a sid cid = Some (s, c)) :
  let l := records (pairs a) (conncheck_list s) in
  let h := highest_nominated cid l in
  let nominated_valid p r := p ∈ conncheck_list s ∧ pairs a !! p = Some r ∧
    p_component_id r = cid ∧ valid r = true ∧ nominated r = true in
  ∃ b, priv_update_check_list_state_for_ready sid cid a = Done (tt, b) ∧
    ((∀ p r, ¬ nominated_valid p r) → b = a) ∧
    (∀ p r, nominated_valid p r →
       (∀ q, pairs b !! q = pairs a !! q ≫= λ t,
          if decide (q ∈ conncheck_list s) then prune_result cid h t else Some t) ∧
       ∃ s', agent_find_component b sid cid = Some (s', c <| c_state :=
               if pending_count cid h l =? 0 then NICE_COMPONENT_STATE_READY else c_state c |>) ∧
         conncheck_list s' = filter (λ p, is_Some (pairs b !! p)) (conncheck_list s)).
Proof.
  cbv zeta. pose proof Hc as [Hs Hcs]%find_component_inv.
  pose proof (lo_alive _ _ (stream_list_ok a sid s Ha Hs)) as Hal.
  unfold priv_update_check_list_state_for_ready. rewrite (bind_run _ _ _ _ _ (run_checklist sid s a Hs Hal)).
  destruct (existsb _ _) eqn:Hex; cycle 1.
  { exists a. split_and!; [done | done |]. intros p r (Hp & Hr & <- & Hv & Hn). exfalso.
    assert (existsb (λ '(_, t), (p_component_id t =? p_component_id r) && valid t && nominated t)
      (records (pairs a) (conncheck_list s)) = true) as H; [| by rewrite H in Hex].
    apply existsb_exists. exists (p, r). rewrite Hv, Hn, Z.eqb_refl. split; [| done].
    apply list_elem_of_In, elem_of_records. done. }
  apply existsb_exists in Hex as ([p0 r0] & Hin%list_elem_of_In%elem_of_records & HP).
  apply andb_prop in HP as [[E%Z.eqb_eq Hv]%andb_prop Hn].
  destruct (prune_pending_run sid cid a s Ha Ht Hs) as (b & Hrun & Hpr & Hb).
  rewrite (bind_run _ _ _ _ _ Hrun). pose proof (pruned_find _ _ _ _ _ Hpr Hs) as Hfind.
  set (s1 := s <| conncheck_list := _ |>) in Hfind.
  assert (agent_find_component b sid cid = Some (s1, c)) as Hc1
    by (apply find_component_intro; [exact Hfind | exact Hcs]).
  destruct (Z.eqb_spec (pending_count cid (highest_nominated cid (records (pairs a) (conncheck_list s)))
    (records (pairs a) (conncheck_list s))) 0) as [E0 | E0].
  - pose proof (wp_to_ready sid cid s1 c (λ _ b', signalled sid cid NICE_COMPONENT_STATE_READY s1 c b b') b Hc1
      (λ b' H, H)) as (x & b' & Hrun' & [(s' & Hs' & El) Hp _])%wp_done. destruct x.
    exists b'. split; [exact Hrun' |]. split; [intros Hno; destruct (Hno p0 r0), Hin; by split_and! |].
    intros _ _ _. rewrite Hp. split; [apply (pr_pairs _ _ _ _ Hpr) |]. exists s'. by rewrite El.
  - exists b. split; [done |]. split; [intros Hno; destruct (Hno p0 r0), Hin; by split_and! |].
    intros _ _ _. split; [apply (pr_pairs _ _ _ _ Hpr) |]. exists s1. split; [| done].
    by replace (c <| c_state := c_state c |>) with c by by destruct c.
Qed.
End ready.

(** ** A concrete run *)

Lemma demo_pairs_inv p r :
  pairs demo_nominated !! p = Some r →
  (p = 1%positive ∧ r = demo_pair 1 NICE_CHECK_SUCCEEDED true 2000) ∨
  (p = 2%positive ∧ r = demo_pair 2 NICE_CHECK_FROZEN false 1000).
Proof.
  cbn. rewrite !lookup_insert_Some, lookup_empty. intros [[<- <-] | (_ & [[<- <-] | [_ [=]]])]; [by left | by right].
Qed.

Lemma demo_nominated_checks : checks_ok demo_nominated.
Proof.
  split; [apply NoDup_singleton | | constructor | constructor]. constructor; [| constructor]. split.
  - repeat constructor; eexists; reflexivity.
  - apply NoDup_cons. split; [by intros H%list_elem_of_singleton | apply NoDup_singleton].
  - repeat constructor. intros r t [= <-] [= <-]. done.
  - intros p r _ [[_ ->] | [_ ->]]%demo_pairs_inv; done.
Qed.

Lemma demo_nominated_txs : txs_ok demo_nominated.
Proof.
  split.
  - intros p r t [[_ ->] | [_ ->]]%demo_pairs_inv Ht; by apply elem_of_nil in Ht.
  - intros p r [[_ ->] | [_ ->]]%demo_pairs_inv; constructor.
  - intros p q r t u [[_ ->] | [_ ->]]%demo_pairs_inv _ Ht; by apply elem_of_nil in Ht.
Qed.

Lemma prune_pending_effect_witness :
  ∃ b, priv_prune_pending_checks 1 1 demo_nominated = Done (0, b) ∧ pairs b !! 2%positive = None.
Proof.
  destruct (prune_pending_effect 1 1 demo_nominated _ demo_nominated_checks demo_nominated_txs eq_refl)
    as (b & E & Hp & _). exists b. split; [exact E |]. rewrite Hp. reflexivity.
Defined.

Lemma ready_when_checks_end_witness :
  ∃ b s c, priv_update_check_list_state_for_ready 1 1 demo_nominated = Done (tt, b) ∧
  agent_find_component b 1 1 = Some (s, c) ∧ c_state c = NICE_COMPONENT_STATE_READY.
Proof.
  destruct (ready_when_checks_end 1 1 demo_nominated _ _ demo_nominated_checks demo_nominated_txs eq_refl)
    as (b & E & _ & H).
  destruct (H 1%positive (demo_pair 1 NICE_CHECK_SUCCEEDED true 2000)) as (_ & s & Hs & _);
    [split; [apply list_elem_of_here | split; [reflexivity | split; [reflexivity | split; reflexivity]]] |].
  exists b, s. eexists. split; [exact E | split; [exact Hs | reflexivity]].
Defined.

Lemma limit_keeps_highest_witness :
  ∃ b, priv_limit_conn_check_list_size [1; 2]%positive 1 demo_nominated = Done ([1%positive], b) ∧
  pairs b !! 2%positive = None.
Proof.
  destruct (limit_keeps_highest 1 1 demo_nominated _ demo_nominated_checks demo_nominated_txs eq_refl)
    as (b & E & Hf & _); [reflexivity | lia |].
  exists b. split; [exact E |]. rewrite (fr_pairs _ _ _ Hf). reflexivity.
Defined.
