(* ===== verification/AgentRestart.v ===== *)
(** * ICE restarts

    What [nice_agent_restart_stream] leaves of a stream: no pairs, no remote
    candidates but those of the selected pairs, new credentials. *)

From stdpp Require Import gmap sorting.
From S2P Require Import Prelude Bytes StateMonad GSList StunMessage NiceAddress NiceCandidate IceAgent CheckList CheckTick CheckInbound CheckListFacts CheckListInv CheckListOps CheckPrune CheckReady CheckDemo GStr AgentApi AgentApiInv.
#[global] Open Scope Z_scope.

(** The generator of random numbers: draws are within the bounds. *)
Class BoundedRng (env : AgentEnv) : Prop := {
  rng_in_range : ∀ n low high, low < high → low ≤ rng_int n low high < high
}.

(** ** One stream *)

(** Every other stream is as it was. *)
Record only_stream (sid : Z) (a b : NiceAgent) : Prop := {
  os_ids : map s_id (streams b) = map s_id (streams a);
  os_others : ∀ t, t ≠ sid → agent_find_stream b t = agent_find_stream a t
}.
#[export] Instance only_stream_preorder sid : PreOrder (only_stream sid).
Proof.
  split; [done |]. intros a b c [H1 H2] [H1' H2']. split; [congruence |]. intros t Ht. by rewrite H2', H2.
Qed.

Lemma only_stream_same sid a b c : streams c = streams b → only_stream sid a b → only_stream sid a c.
Proof. intros E [H1 H2]. split; unfold agent_find_stream in *; by rewrite E. Qed.

Lemma run_upd_stream sid f a s : agent_find_stream a sid = Some s → (∀ s, s_id (f s) = s_id s) →
  let b := a <| streams := update_first (λ s, s_id s =? sid) f (streams a) |> in
  upd_stream sid f a = Done (tt, b) ∧ agent_find_stream b sid = Some (f s) ∧ only_stream sid a b.
Proof.
  intros Hs Hf b. split_and!; [done | | split].
  - unfold b, agent_find_stream in *. cbn. rewrite find_update_first by (intros; by rewrite Hf). by rewrite Hs.
  - unfold b. cbn. apply map_id_update_first. done.
  - intros t Ht. unfold b, agent_find_stream. cbn. induction (streams a) as [| u l IH]; cbn; [done |].
    destruct (Z.eqb_spec (s_id u) sid) as [E | E]; cbn; [| by rewrite IH].
    rewrite Hf. by rewrite (proj2 (Z.eqb_neq (s_id u) t)) by congruence.
Qed.

(** ** Pairs *)

Lemma run_free_pairs l a :
  txs_ok a → NoDup l → alive (pairs a) l → NoDup (triggered_check_queue a) →
  ∃ b, for_each l candidate_check_pair_free a = Done (tt, b) ∧ freed l a b ∧ rng_draws b = rng_draws a.
Proof.
  intros Ht Hl. revert a Ht. induction Hl as [| p l Hp Hl IH]; intros a Ht Ha Hq; cbn [for_each].
  - exists a. split_and!; [done | apply freed_nil | done].
  - apply Forall_cons in Ha as [[r Hr] Ha]. rewrite (bind_run _ _ _ _ _ (run_pair_free p r a Ht Hr)).
    destruct (IH (after_free p r a)) as (b & E & Hf & Hd).
    + by apply after_free_txs.
    + unfold alive in *. rewrite Forall_forall in *. intros q Hq'. cbn.
      rewrite lookup_delete_ne by congruence. by apply Ha.
    + cbn. by apply NoDup_remove.
    + exists b. split_and!; [done | by eapply freed_cons | done].
Qed.

(** The pairs of the stream are gone, with their transactions and their places
    in the queue; nothing else of the heap changes. *)
Record unpaired (l : list pptr) (a b : NiceAgent) : Prop := {
  up_pairs : ∀ p, pairs b !! p = if bool_decide (p ∈ l) then None else pairs a !! p;
  up_queue : triggered_check_queue b = filter (λ p, p ∉ l) (triggered_check_queue a);
  up_txs : ∀ t, (∀ p r, p ∈ l → pairs a !! p = Some r → t ∉ stun_transactions r) →
    transactions b !! t = transactions a !! t;
  up_candidates : candidates b = candidates a;
  up_draws : rng_draws b = rng_draws a
}.

Lemma run_prune_stream sid a s :
  checks_ok a → txs_ok a → agent_find_stream a sid = Some s →
  ∃ b, conn_check_prune_stream sid a = Done (tt, b) ∧ unpaired (conncheck_list s) a b ∧ only_stream sid a b ∧
    agent_find_stream b sid = Some (s <| conncheck_list := [] |>).
Proof.
  intros Ha Ht Hs. destruct (stream_list_ok a sid s Ha Hs) as [Hal Hnd _ _].
  destruct (run_free_pairs (conncheck_list s) a Ht Hnd Hal (ck_queue _ Ha)) as (b & E & [F1 F2 F3 F4 F5 F6] & Hd).
  assert (∃ c, free_checklist sid a = Done (tt, c) ∧ unpaired (conncheck_list s) a c ∧ only_stream sid a c ∧
    agent_find_stream c sid = Some (s <| conncheck_list := [] |>)) as (c & Ec & Hu & Ho & Hc).
  { unfold free_checklist, mbind, st_bind. unfold stream_at. rewrite Hs.
    destruct (conncheck_list s) as [| p l] eqn:El.
    - exists a. split_and!; [done | | done |].
      + cbn in E. injection E as <-. by constructor.
      + rewrite Hs. f_equal. by rewrite <- El, set_list_self.
    - rewrite E. assert (agent_find_stream b sid = Some s) as Hbs.
      { unfold agent_find_stream in *. by rewrite F4. }
      destruct (run_upd_stream sid (λ s, s <| conncheck_list := [] |>) b s Hbs) as (E1 & E2 & E3 & E4); [done |].
      eexists. split_and!; [exact E1 | by constructor | | exact E2].
      split; [rewrite E3; by rewrite F4 |]. intros t Hne. rewrite E4 by done.
      unfold agent_find_stream. by rewrite F4. }
  unfold conn_check_prune_stream. rewrite (bind_run _ _ _ _ _ Ec). st_run.
  destruct (existsb _ _); [by exists c |]. unfold conn_check_stop. st_run.
  destruct (conncheck_timer_source c); cbn [negb]; [| by exists c].
  eexists. split_and!; [reflexivity | by destruct Hu; constructor | by eapply (only_stream_same sid a c) | done].
Qed.

(** ** Credentials *)

Lemma until_nul_app d b : 0 ∉ d → until_nul (d ++ b) = (d ++ (until_nul b).1, (until_nul b).2).
Proof.
  induction d as [| c d IH]; intros H; cbn; [by destruct (until_nul b) |].
  apply not_elem_of_cons in H as [Hc Hd]. rewrite (proj2 (Z.eqb_neq c 0)) by done. by rewrite IH.
Qed.
Lemma until_nul_string s b : 0 ∉ s → until_nul (s ++ 0 :: b) = (s, b).
Proof. intros H. rewrite until_nul_app by done. cbn. by rewrite app_nil_r. Qed.

(** A string written without its end over an array runs into what was there. *)
Definition leftover (n : nat) (s tail : bytes) : bytes := (until_nul (drop n (s ++ 0 :: tail))).1.
Lemma array_overwrite_string d s tail : 0 ∉ d → (array_overwrite d s tail).1 = d ++ leftover (length d) s tail.
Proof. intros H. unfold array_overwrite. by rewrite until_nul_app. Qed.
Lemma leftover_of_string n s tail : 0 ∉ s → (n ≤ length s)%nat → leftover n s tail = drop n s.
Proof.
  intros Hs Hn. unfold leftover. rewrite drop_app_le by done. rewrite until_nul_string; [done |].
  intros H. apply Hs. rewrite <- (take_drop n s). set_solver.
Qed.

Section restart.
Context {env : AgentEnv} {rng : BoundedRng env}.

Lemma run_bytes_print n a : ∃ l, nice_rng_generate_bytes_print n a =
    Done (l, a <| rng_draws := rng_draws a + Z.of_nat n |>) ∧ length l = n ∧ Forall (λ c, c ∈ ice_chars) l.
Proof.
  revert a. induction n as [| n IH]; intros a; cbn [nice_rng_generate_bytes_print].
  - exists []. split_and!; [| done | constructor]. unfold mret, st_ret. rewrite Z.add_0_r. by destruct a.
  - unfold nice_rng_generate_int. st_run. set (b := a <| rng_draws := _ |>).
    pose proof (rng_in_range (rng_draws a) 0 (zlen ice_chars) ltac:(reflexivity)) as Hr.
    set (i := rng_int _ _ _) in *.
    destruct (lookup_lt_is_Some_2 ice_chars (Z.to_nat i)) as [c Hc]; [unfold zlen in Hr; lia |].
    unfold getb. rewrite (proj2 (Z.ltb_ge i 0)) by lia. rewrite Hc. st_run.
    destruct (IH b) as (l & E & Hl & Hf). rewrite (bind_run _ _ _ _ _ E). exists (c :: l). split_and!.
    + replace (rng_draws a + Z.of_nat (S n)) with (rng_draws a + 1 + Z.of_nat n) by lia. reflexivity.
    + cbn. by rewrite Hl.
    + constructor; [by eapply list_elem_of_lookup_2 | done].
Qed.

(** ** Components *)

(** The remote candidates a restart frees: all but the one of the selected pair,
    whose predecessor goes instead. *)
Definition keeps_remote (k : NiceComponent) (c : cptr) : bool :=
  bool_decide (sp_remote (selected_pair k) = Some c).
Definition freed_remotes (k : NiceComponent) : list cptr :=
  List.filter (λ c, negb (keeps_remote k c)) (remote_candidates k) ++
  (if existsb (keeps_remote k) (remote_candidates k) then option_list (restart_candidate k) else []).
Definition restarted (k : NiceComponent) : NiceComponent :=
  k <| remote_candidates := [] |> <| incoming_checks := [] |>
    <| restart_candidate := if existsb (keeps_remote k) (remote_candidates k) then sp_remote (selected_pair k)
                            else restart_candidate k |>
    <| selected_pair := {| sp_local := sp_local (selected_pair k); sp_remote := sp_remote (selected_pair k);
                           sp_priority := 0; sp_prflx_priority := sp_prflx_priority (selected_pair k) |} |>.
(** The candidates a component keeps for its peer. *)
Definition remotes (k : NiceComponent) : list cptr := remote_candidates k ++ option_list (restart_candidate k).

(** The candidates [l] are freed. *)
Definition gone (l : list cptr) (m m' : gmap positive NiceCandidate) : Prop :=
  ∀ c, m' !! c = if bool_decide (c ∈ l) then None else m !! c.
Lemma gone_nil m : gone [] m m.
Proof. done. Qed.
Lemma gone_delete c m : gone [c] m (delete c m).
Proof.
  intros d. destruct (decide (d = c)) as [-> | Hne]; [by rewrite lookup_delete_eq, bool_decide_eq_true_2 by set_solver |].
  rewrite lookup_delete_ne by done. by rewrite bool_decide_eq_false_2 by set_solver.
Qed.
Lemma gone_app l l' m m' m'' : gone l m m' → gone l' m' m'' → gone (l ++ l') m m''.
Proof.
  intros H H' c. rewrite H', H. repeat case_bool_decide; try done; set_solver.
Qed.
Lemma gone_perm l l' m m' : (∀ c, c ∈ l ↔ c ∈ l') → gone l m m' → gone l' m m'.
Proof. intros H H' c. rewrite H'. by rewrite (bool_decide_ext (c ∈ l) (c ∈ l')). Qed.
Lemma gone_alive l m m' c : gone l m m' → c ∉ l → is_Some (m !! c) → is_Some (m' !! c).
Proof. intros H Hc. rewrite H. by rewrite bool_decide_eq_false_2. Qed.

(** The component [k] of the stream behind [pre]. *)
Record at_comp (sid : Z) (s : NiceStream) (pre : list NiceComponent) (k : NiceComponent) (post : list NiceComponent)
    (a : NiceAgent) : Prop := {
  ac_stream : agent_find_stream a sid = Some (s <| components := pre ++ k :: post |>);
  ac_first : c_id k ∉ map c_id pre
}.

Lemma find_comp_at pre k post : c_id k ∉ map c_id pre →
  List.find (λ c, c_id c =? c_id k) (pre ++ k :: post) = Some k.
Proof.
  induction pre as [| x pre IH]; cbn; intros H; [by rewrite Z.eqb_refl |].
  apply not_elem_of_cons in H as [Hx H]. rewrite (proj2 (Z.eqb_neq _ _)) by done. by apply IH.
Qed.
Lemma update_comp_at pre k post f : c_id k ∉ map c_id pre →
  update_first (λ c, c_id c =? c_id k) f (pre ++ k :: post) = pre ++ f k :: post.
Proof.
  induction pre as [| x pre IH]; cbn; intros H; [by rewrite Z.eqb_refl |].
  apply not_elem_of_cons in H as [Hx H]. rewrite (proj2 (Z.eqb_neq _ _)) by done. by rewrite IH.
Qed.

Lemma run_comp_at sid s pre k post a : at_comp sid s pre k post a → comp_at sid (c_id k) a = Done (k, a).
Proof.
  intros [Hs Hk]. unfold comp_at, agent_find_component. rewrite Hs. cbn.
  unfold nice_stream_find_component_by_id. cbn. by rewrite find_comp_at.
Qed.
Lemma run_upd_comp sid s pre k post f a : at_comp sid s pre k post a → c_id (f k) = c_id k →
  ∃ b, upd_comp sid (c_id k) f a = Done (tt, b) ∧ at_comp sid s pre (f k) post b ∧ only_stream sid a b ∧
    candidates b = candidates a.
Proof.
  intros [Hs Hk] Hf.
  destruct (run_upd_stream sid (λ s, s <| components := update_first (λ c, c_id c =? c_id k) f (components s) |>)
    a _ Hs) as (E1 & E2 & E3); [done |]. eexists. split_and!; [exact E1 | | exact E3 | done].
  split; [| by rewrite Hf]. rewrite E2. cbn. by rewrite update_comp_at.
Qed.

Lemma run_free_cand sid s pre k post c a : at_comp sid s pre k post a → is_Some (candidates a !! c) →
  ∃ b, free_cand c a = Done (tt, b) ∧ at_comp sid s pre k post b ∧ only_stream sid a b ∧
    gone [c] (candidates a) (candidates b).
Proof.
  intros [Hs Hk] [r Hr]. unfold free_cand. rewrite Hr. eexists. split; [reflexivity |].
  split_and!; [by split | done | apply gone_delete].
Qed.

Lemma run_restart_remotes l sid s pre k post a : at_comp sid s pre k post a →
  NoDup (l ++ option_list (restart_candidate k)) →
  (∀ c, c ∈ l ++ option_list (restart_candidate k) → is_Some (candidates a !! c)) →
  let kept := existsb (keeps_remote k) l in
  ∃ b, for_each l (restart_remote sid (c_id k)) a = Done (tt, b) ∧ only_stream sid a b ∧
    at_comp sid s pre (if kept then k <| restart_candidate := sp_remote (selected_pair k) |> else k) post b ∧
    gone (List.filter (λ c, negb (keeps_remote k c)) l ++ if kept then option_list (restart_candidate k) else [])
      (candidates a) (candidates b).
Proof.
  revert k a. induction l as [| c l IH]; intros k a Hk Hn Hal; cbn [for_each existsb List.filter app].
  { exists a. split_and!; [done.. | apply gone_nil]. }
  cbn [app] in Hn. apply NoDup_cons in Hn as [Hc Hn].
  destruct (decide (sp_remote (selected_pair k) = Some c)) as [Hs | Hs].
  - assert (keeps_remote k c = true) as -> by by apply bool_decide_eq_true.
    assert (∀ k', selected_pair k' = selected_pair k → existsb (keeps_remote k') l = false) as Hno.
    { intros k' Hk'. apply not_true_iff_false. rewrite existsb_exists. intros (d & Hd & Hd'%bool_decide_eq_true).
      rewrite Hk', Hs in Hd'. injection Hd' as ->. apply Hc. apply elem_of_app. left. by apply list_elem_of_In. }
    rewrite Hno by done. cbn [orb negb app].
    assert (∃ b, match restart_candidate k with Some old => free_cand old | None => mret tt end a = Done (tt, b) ∧
      at_comp sid s pre k post b ∧ only_stream sid a b ∧
      gone (option_list (restart_candidate k)) (candidates a) (candidates b)) as (b & Eb & Hb & Hob & Hgb).
    { destruct (restart_candidate k) as [old |] eqn:Eo; cbn [option_list] in *; [| by exists a; split_and!].
      apply (run_free_cand sid s pre k post); [done | apply Hal; set_solver]. }
    destruct (run_upd_comp sid s pre k post (λ k, k <| restart_candidate := Some c |>) b Hb)
      as (b2 & E2 & Hb2 & Ho2 & Hc2); [done |].
    assert (restart_remote sid (c_id k) c a = Done (tt, b2)) as Er.
    { unfold restart_remote. rewrite (bind_run _ _ _ _ _ (run_comp_at _ _ _ _ _ _ Hk)), decide_True by done.
      rewrite (bind_run _ _ _ _ _ Eb). exact E2. }
    rewrite (bind_run _ _ _ _ _ Er).
    destruct (IH (k <| restart_candidate := Some c |>) b2) as (b3 & E3 & Ho3 & Hb3 & Hg3); [done | | |].
    + cbn. apply NoDup_app in Hn as (Hn & _ & _). apply NoDup_app. split_and!; [done | | apply NoDup_singleton].
      intros d Hd ->%list_elem_of_singleton. apply Hc. apply elem_of_app. by left.
    + cbn. apply NoDup_app in Hn as (_ & Hn & _). intros d Hd. rewrite Hc2.
      assert (d ∈ l ∨ d = c) as Hd' by (apply elem_of_app in Hd as [|?%list_elem_of_singleton]; tauto).
      eapply gone_alive; [exact Hgb | | apply Hal; cbn; rewrite elem_of_cons, elem_of_app; tauto].
      destruct Hd' as [Hd' | ->]; [by apply Hn | intros Hr; apply Hc, elem_of_app; by right].
    + cbn [c_id] in E3. rewrite Hno in Hb3, Hg3 by done. exists b3. split_and!.
      * exact E3.
      * by do 2 (etransitivity; [eassumption |]).
      * by rewrite Hs.
      * rewrite Hc2 in Hg3. rewrite app_nil_r in Hg3. eapply gone_perm; [| eapply gone_app; [exact Hgb | exact Hg3]].
        intros d. cbn. set_solver.
  - assert (keeps_remote k c = false) as -> by by apply bool_decide_eq_false.
    cbn [orb negb app]. destruct (run_free_cand sid s pre k post c a Hk) as (b & Eb & Hb & Hob & Hgb);
      [apply Hal; set_solver |].
    assert (restart_remote sid (c_id k) c a = Done (tt, b)) as Er.
    { unfold restart_remote. by rewrite (bind_run _ _ _ _ _ (run_comp_at _ _ _ _ _ _ Hk)), decide_False. }
    rewrite (bind_run _ _ _ _ _ Er). destruct (IH k b Hb) as (b3 & E3 & Ho3 & Hb3 & Hg3); [done | |].
    + intros d Hd. eapply gone_alive; [exact Hgb | set_solver | apply Hal; set_solver].
    + exists b3. split_and!; [exact E3 | by transitivity b | done |].
      rewrite app_comm_cons. apply (gone_app [c] _ _ _ _ Hgb Hg3).
Qed.

Lemma restarted_id k : c_id (restarted k) = c_id k.
Proof. done. Qed.

Lemma run_component_restart sid s pre k post a : at_comp sid s pre k post a →
  NoDup (remotes k) → (∀ c, c ∈ remotes k → is_Some (candidates a !! c)) →
  ∃ b, nice_component_restart sid (c_id k) a = Done (tt, b) ∧ only_stream sid a b ∧
    at_comp sid s pre (restarted k) post b ∧ gone (freed_remotes k) (candidates a) (candidates b).
Proof.
  intros Hk Hn Ha. unfold nice_component_restart. rewrite (bind_run _ _ _ _ _ (run_comp_at _ _ _ _ _ _ Hk)).
  destruct (run_restart_remotes (remote_candidates k) sid s pre k post a Hk Hn Ha) as (b & E & Ho & Hb & Hg).
  rewrite (bind_run _ _ _ _ _ E).
  set (k' := if existsb _ _ then _ else _) in Hb.
  assert (c_id k' = c_id k) as Hid by (unfold k'; by destruct (existsb _ _)). rewrite <- Hid.
  edestruct (run_upd_comp sid s pre k' post) as (c & Ec & Hc & Hoc & Hcc); [exact Hb | | exists c].
  2:{ split; [exact Ec |]. split; [by transitivity b |]. split; [| by rewrite Hcc].
      refine (eq_ind _ (λ k, at_comp sid s pre k post c) Hc _ _). unfold restarted, k'.
      destruct (existsb _ _), k; reflexivity. }
  done.
Qed.

Lemma run_components_restart todo before sid s a :
  agent_find_stream a sid = Some (s <| components := map restarted before ++ todo |>) →
  NoDup (map c_id (before ++ todo)) → NoDup (concat (map remotes todo)) →
  (∀ c, c ∈ concat (map remotes todo) → is_Some (candidates a !! c)) →
  ∃ b, for_each (map c_id todo) (nice_component_restart sid) a = Done (tt, b) ∧ only_stream sid a b ∧
    agent_find_stream b sid = Some (s <| components := map restarted (before ++ todo) |>) ∧
    gone (concat (map freed_remotes todo)) (candidates a) (candidates b).
Proof.
  revert before a. induction todo as [| k todo IH]; intros before a Hs Hid Hn Ha; cbn [map concat for_each].
  { exists a. rewrite app_nil_r in *. split_and!; [done.. | apply gone_nil]. }
  cbn [map concat] in Hn, Ha. apply NoDup_app in Hn as (Hn1 & Hn2 & Hn3).
  assert (at_comp sid s (map restarted before) k todo a) as Hk.
  { split; [done |]. rewrite map_map. cbn. rewrite map_app in Hid. cbn in Hid.
    apply NoDup_app in Hid as (_ & Hid & _). intros Hin. apply (Hid _ Hin). by left. }
  destruct (run_component_restart sid s _ k todo a Hk Hn1) as (b & E & Ho & Hb & Hg).
  { intros c Hc. apply Ha, elem_of_app. by left. }
  rewrite (bind_run _ _ _ _ _ E).
  destruct (IH (before ++ [k]) b) as (d & Ed & Hod & Hd & Hgd); [| | done | |].
  - rewrite (ac_stream _ _ _ _ _ _ Hb). by rewrite map_app, <- app_assoc.
  - by rewrite <- app_assoc.
  - intros c Hc. eapply gone_alive; [exact Hg | | apply Ha, elem_of_app; by right].
    intros Hf. apply (Hn2 c); [| done]. revert Hf. unfold freed_remotes, remotes. rewrite !elem_of_app.
    intros [Hf | Hf]; [left | right]; [| destruct (existsb _ _); [done | by apply elem_of_nil in Hf]].
    apply list_elem_of_In, filter_In in Hf as [Hf _]. by apply list_elem_of_In.
  - exists d. split_and!; [done | by transitivity b | by rewrite <- app_assoc in Hd | by eapply gone_app].
Qed.

Lemma run_credentials sid a s : agent_find_stream a sid = Some s →
  ∃ b u p, nice_stream_initialize_credentials sid a = Done (tt, b) ∧ only_stream sid a b ∧
    length u = 4%nat ∧ length p = 22%nat ∧ Forall (λ c, c ∈ ice_chars) (u ++ p) ∧
    candidates b = candidates a ∧
    agent_find_stream b sid = Some (set_local_password_array (array_overwrite p (local_password s) (local_password_tail s))
      (set_local_ufrag_array (array_overwrite u (local_ufrag s) (local_ufrag_tail s)) s)) ∧
    pairs b = pairs a ∧ transactions b = transactions a ∧ triggered_check_queue b = triggered_check_queue a.
Proof.
  intros Hs. unfold nice_stream_initialize_credentials.
  destruct (run_bytes_print (Z.to_nat (NICE_STREAM_DEF_UFRAG - 1)) a) as (u & Eu & Hu & Fu).
  rewrite (bind_run _ _ _ _ _ Eu). set (a1 := a <| rng_draws := _ |>).
  destruct (run_bytes_print (Z.to_nat (NICE_STREAM_DEF_PWD - 1)) a1) as (p & Ep & Hp & Fp).
  rewrite (bind_run _ _ _ _ _ Ep). set (a2 := a1 <| rng_draws := _ |>).
  edestruct (run_upd_stream sid) as (E1 & E2 & E3); [| | eexists _, u, p; split_and!; [exact E1 | transitivity a2; [by apply (only_stream_same sid a a a2) | exact E3] | done | done | by apply Forall_app | done | exact E2 | done..]]; done.
Qed.

(** Restarts of components leave the pairs alone. *)
Definition same_heap (a b : NiceAgent) : Prop :=
  (pairs b, transactions b, triggered_check_queue b) = (pairs a, transactions a, triggered_check_queue a).
#[local] Instance same_heap_preorder : PreOrder same_heap.
Proof. split; unfold same_heap; congruence. Qed.
Lemma heap_component_restart sid cid : keeps same_heap (nice_component_restart sid cid).
Proof.
  assert (∀ sid cid, keeps same_heap (comp_at sid cid)) as H1.
  { intros x y b k b' E. unfold comp_at in E. by destruct (agent_find_component b x y) as [[] |]; simplify_eq. }
  assert (∀ c, keeps same_heap (free_cand c)) as H2.
  { intros c b [] b' E. unfold free_cand in E. by destruct (candidates b !! c); simplify_eq. }
  assert (∀ sid cid f, keeps same_heap (upd_comp sid cid f)) as H3 by (intros ? ? ? b [] b' E; by injection E as <-).
  unfold nice_component_restart. apply keeps_bind; [apply _ | done | intros k].
  apply keeps_bind; [apply _ | | done].
  induction (remote_candidates k) as [| c l IH]; cbn [for_each]; [by apply keeps_ret; apply _ |].
  apply keeps_bind; [apply _ | | done]. unfold restart_remote. repeat keeps_step; done.
Qed.
Lemma heap_components_restart sid l : keeps same_heap (for_each l (nice_component_restart sid)).
Proof.
  induction l as [| c l IH]; cbn [for_each]; [by apply keeps_ret; apply _ |].
  apply keeps_bind; [apply _ | apply heap_component_restart | done].
Qed.

(** A stream of an agent whose pointers are good: check lists and transactions,
    and the remote candidates of its components, which no two of them share. *)
Record restartable (a : NiceAgent) (s : NiceStream) : Prop := {
  ra_checks : checks_ok a;
  ra_txs : txs_ok a;
  ra_ids : NoDup (map c_id (components s));
  ra_remotes : NoDup (concat (map remotes (components s)));
  ra_alive : ∀ c, c ∈ concat (map remotes (components s)) → is_Some (candidates a !! c)
}.

Lemma unpaired_txs l a b : unpaired l a b → txs_ok a → txs_ok b.
Proof.
  intros [H1 _ H3 _ _] [T1 T2 T3].
  assert (∀ p r, pairs b !! p = Some r → pairs a !! p = Some r ∧ p ∉ l) as Hp.
  { intros p r. rewrite H1. by case_bool_decide. }
  split.
  - intros p r t [Hr Hl]%Hp Ht. rewrite H3; [by eapply T1 |]. intros q r' Hq Hr' Ht'.
    assert (p = q) as -> by by eapply T3. done.
  - intros p r [Hr _]%Hp. by eapply T2.
  - intros p q r r' t [Hr _]%Hp [Hr' _]%Hp. by eapply T3.
Qed.

(** What a component keeps it does not free, nor does another. *)
Lemma restarted_remotes k : remotes (restarted k) =
  if existsb (keeps_remote k) (remote_candidates k) then option_list (sp_remote (selected_pair k))
  else option_list (restart_candidate k).
Proof. unfold remotes, restarted. cbn. by destruct (existsb _ _). Qed.
Lemma freed_in_remotes k c : c ∈ freed_remotes k → c ∈ remotes k.
Proof.
  unfold freed_remotes, remotes. rewrite !elem_of_app, !list_elem_of_In, filter_In.
  intros [[? _] | H]; [by left |]. destruct (existsb _ _); [by right | done].
Qed.
Lemma restarted_in_remotes k c : c ∈ remotes (restarted k) → c ∈ remotes k.
Proof.
  rewrite restarted_remotes. unfold remotes. destruct (existsb _ _) eqn:E; rewrite elem_of_app; [| by right].
  apply existsb_exists in E as (d & Hd & Hk%bool_decide_eq_true). rewrite Hk. cbn.
  intros ->%list_elem_of_singleton. left. by apply list_elem_of_In.
Qed.
Lemma restarted_not_freed k c : NoDup (remotes k) → c ∈ remotes (restarted k) → c ∉ freed_remotes k.
Proof.
  intros (_ & Hn & _)%NoDup_app. rewrite restarted_remotes. unfold freed_remotes.
  rewrite elem_of_app, !list_elem_of_In, filter_In. destruct (existsb _ _) eqn:E.
  - apply existsb_exists in E as (d & Hd & Hk%bool_decide_eq_true). rewrite Hk. cbn. intros [-> | []].
    unfold keeps_remote. rewrite bool_decide_eq_true_2 by done. intros [[_ [=]] | Hr].
    apply (Hn c); by apply list_elem_of_In.
  - intros Hr [[Hd _] | []]. apply (Hn c); by apply list_elem_of_In.
Qed.
Lemma restarted_survive l c : NoDup (concat (map remotes l)) → c ∈ concat (map remotes (map restarted l)) →
  c ∈ concat (map remotes l) ∧ c ∉ concat (map freed_remotes l).
Proof.
  assert (∀ l c, c ∈ concat (map freed_remotes l) → c ∈ concat (map remotes l)) as Hf.
  { intros l' d. induction l' as [| k l' IH]; cbn; [done |]. rewrite !elem_of_app.
    intros [H%freed_in_remotes | H%IH]; tauto. }
  induction l as [| k l IH]; cbn [map concat]; [by intros _ ?%elem_of_nil |].
  intros (H1 & H2 & H3)%NoDup_app. rewrite !elem_of_app. intros [Hc | Hc].
  - split; [left; by apply restarted_in_remotes |]. intros [H | H%Hf]; [by eapply restarted_not_freed |].
    by apply (H2 c); [apply restarted_in_remotes |].
  - destruct (IH H3 Hc) as [Hr Hn]. split; [by right |]. intros [H%freed_in_remotes | H]; [by apply (H2 c) | done].
Qed.
Lemma restarted_nodup l : NoDup (concat (map remotes l)) → NoDup (concat (map remotes (map restarted l))).
Proof.
  induction l as [| k l IH]; cbn [map concat]; [done |]. intros (H1 & H2 & H3)%NoDup_app. apply NoDup_app. split_and!.
  - rewrite restarted_remotes. assert (∀ o : option cptr, NoDup (option_list o)) as Ho
      by (intros [c |]; [apply NoDup_singleton | constructor]). by destruct (existsb _ _).
  - intros c Hc%restarted_in_remotes [Hd _]%restarted_survive; [by apply (H2 c) | done].
  - by apply IH.
Qed.

(** C12: an ICE restart of a stream.  On a stream whose pointers are good the
    call succeeds without touching freed memory: the check list is empty and its
    pairs are gone, with their transactions and their places in the triggered
    check queue, and only those; every component forgets its remote candidates
    and the checks that came in, and frees exactly the candidates it no longer
    holds - the remote candidate of the selected pair is kept aside, its
    predecessor freed; fresh credentials of 4 and 22 characters stand at the
    start of the old ones, of which only what is longer is left; no other stream
    changes, and the stream can be restarted again. *)
Theorem ice_restart (sid : Z) (a : NiceAgent) (s : NiceStream)
    (Hs : agent_find_stream a sid = Some s) (Ha : restartable a s) :
  ∃ b s' u p, nice_agent_restart_stream sid a = Done (true, b) ∧ agent_find_stream b sid = Some s' ∧
    restartable b s' ∧ only_stream sid a b ∧
    conncheck_list s' = [] ∧ initial_binding_request_received s' = false ∧
    components s' = map restarted (components s) ∧
    (∀ q, pairs b !! q = if bool_decide (q ∈ conncheck_list s) then None else pairs a !! q) ∧
    triggered_check_queue b = filter (λ q, q ∉ conncheck_list s) (triggered_check_queue a) ∧
    (∀ t, (∀ q r, q ∈ conncheck_list s → pairs a !! q = Some r → t ∉ stun_transactions r) →
       transactions b !! t = transactions a !! t) ∧
    gone (concat (map freed_remotes (components s))) (candidates a) (candidates b) ∧
    length u = 4%nat ∧ length p = 22%nat ∧ Forall (λ c, c ∈ ice_chars) (u ++ p) ∧
    local_ufrag s' = u ++ leftover 4 (local_ufrag s) (local_ufrag_tail s) ∧
    local_password s' = p ++ leftover 22 (local_password s) (local_password_tail s).
Proof.
  destruct Ha as [Hck Htx Hids Hrem Hal]. unfold nice_agent_restart_stream. st_run. rewrite Hs.
  destruct (run_prune_stream sid a s Hck Htx Hs) as (b1 & E1 & Hu & Ho1 & Hs1).
  destruct (run_upd_stream sid (λ s, s <| initial_binding_request_received := false |>) b1 _ Hs1)
    as (E2 & Hs2 & Ho2); [done |]. set (b2 := b1 <| streams := _ |>) in *.
  destruct (run_credentials sid b2 _ Hs2) as (b3 & u & p & E3 & Ho3 & Hlu & Hlp & Hch & Hc3 & Hs3 & Hp3 & Ht3 & Hq3).
  set (s3 := set_local_password_array _ _) in *.
  destruct (run_components_restart (components s) [] sid s3 b3) as (b4 & E4 & Ho4 & Hs4 & Hg); [done | done | done | |].
  { intros c Hc. rewrite Hc3. cbn. rewrite (up_candidates _ _ _ Hu). by apply Hal. }
  assert (nice_stream_restart sid a = Done (tt, b4)) as E.
  { unfold nice_stream_restart. rewrite (bind_run _ _ _ _ _ E1), (bind_run _ _ _ _ _ E2), (bind_run _ _ _ _ _ E3).
    unfold stream_at. unfold mbind, st_bind. by rewrite Hs3. }
  assert (preserves (nice_stream_restart sid)) as Hpres by apply preserves_stream_restart.
  pose proof (heap_components_restart sid _ _ _ _ E4) as Hh. injection Hh as Hh1 Hh2 Hh3.
  rewrite Hc3 in Hg. change (candidates b2) with (candidates b1) in Hg. rewrite (up_candidates _ _ _ Hu) in Hg.
  assert (pairs b4 = pairs b1 ∧ transactions b4 = transactions b1 ∧ triggered_check_queue b4 = triggered_check_queue b1)
    as (Ep & Et & Eq) by (split_and!; etransitivity; eassumption).
  assert (∀ x, x ∈ ice_chars → x ≠ 0) as Hnul.
  { intros x Hx ->. revert Hx. apply (bool_decide_unpack _). by vm_compute. }
  assert (0 ∉ u ∧ 0 ∉ p) as [Nu Np].
  { rewrite Forall_app, !Forall_forall in Hch. destruct Hch as [H1 H2]. split; intros H.
    - by apply (Hnul 0 (H1 0 H)).
    - by apply (Hnul 0 (H2 0 H)). }
  eexists b4, _, u, p. split; [by rewrite (bind_run _ _ _ _ _ E) |]. split; [exact Hs4 |].
  split; [split |]; cbn [components]; change (components (set_field _ _ _)) with (map restarted (components s)).
  - by eapply Hpres.
  - eapply txs_ok_same; [exact Ep | exact Et | by eapply unpaired_txs].
  - rewrite map_map. by rewrite (map_ext _ c_id).
  - by apply restarted_nodup.
  - intros c Hc. destruct (restarted_survive _ _ Hrem Hc) as [Hr Hn]. eapply gone_alive; [exact Hg | done | by apply Hal].
  - split; [do 3 (etransitivity; [eassumption |]); done |]. split_and!; try done.
    + intros q. rewrite Ep. apply (up_pairs _ _ _ Hu).
    + rewrite Eq. apply (up_queue _ _ _ Hu).
    + intros t Ht. rewrite Et. by apply (up_txs _ _ _ Hu).
    + cbn. by rewrite array_overwrite_string, Hlu.
    + cbn. by rewrite array_overwrite_string, Hlp.
Qed.

End restart.

(** ** A concrete run *)

#[export] Instance demo_rng : BoundedRng demo_env.
Proof. constructor. intros n low high H. cbn. pose proof (Z.mod_pos_bound n (high - low)). lia. Qed.

(** The nominated pair is selected. *)
Definition demo_selected : NiceAgent :=
  demo_nominated <| streams := [demo_stream <| conncheck_list := [1; 2]%positive |>
    <| components := [demo_component <| selected_pair :=
         {| sp_local := Some 1%positive; sp_remote := Some 3%positive; sp_priority := 2000; sp_prflx_priority := 0 |} |>] |>] |>.

Lemma demo_selected_restartable s : agent_find_stream demo_selected 1 = Some s → restartable demo_selected s.
Proof.
  intros [= <-]. split.
  - eapply same_checks_ok; [| exact demo_nominated_checks]. by split.
  - by eapply txs_ok_same; [| | exact demo_nominated_txs].
  - apply NoDup_singleton.
  - apply NoDup_singleton.
  - intros c. cbn. intros ->%list_elem_of_singleton. by eexists.
Qed.

Lemma ice_restart_witness : ∃ b s', nice_agent_restart_stream 1 demo_selected = Done (true, b) ∧
  agent_find_stream b 1 = Some s' ∧ conncheck_list s' = [] ∧ pairs b !! 1%positive = None ∧
  restart_candidate <$> components s' = [Some 3%positive] ∧ is_Some (candidates b !! 3%positive).
Proof.
  destruct (@ice_restart demo_env demo_rng 1 demo_selected _ eq_refl (demo_selected_restartable _ eq_refl))
    as (b & s' & u & p & E & Hs & _ & _ & Hl & _ & Hc & Hp & _ & _ & Hg & _).
  exists b, s'. split; [exact E |]. split; [exact Hs |]. split; [exact Hl |]. split; [by rewrite Hp |].
  split; [by rewrite Hc |]. rewrite Hg. by eexists.
Defined.

(** After the application set a longer user name, what is left of it stands
    behind the new one. *)
Example restart_keeps_tail :
  match (_ ← nice_agent_set_local_credentials 1 (Some (repeat 122 8)) (Some (repeat 122 22)); nice_agent_restart_stream 1)
          demo_selected with
  | Done (true, b) => (λ s, drop 4 (local_ufrag s)) <$> agent_find_stream b 1 = Some (repeat 122 4)
  | _ => False
  end.
Proof. vm_compute. reflexivity. Qed.
