(* ===== verification/CheckRole.v ===== *)
(** * A change of role

    What a role conflict does to the check lists: new priorities, and the lists
    in their order. *)

From stdpp Require Import gmap sorting.
From S2P Require Import Prelude Bytes StateMonad GSList StunMessage NiceAddress NiceCandidate IceAgent CheckList CheckTick CheckInbound CheckListFacts CheckListInv CheckListOps CheckPrune CheckDemo CheckReady.
#[global] Open Scope Z_scope.

(** The priority of a pair in the role the agent has; the candidates are alive. *)
Definition role_priority (a : NiceAgent) (r : CandidateCheckPair) : Z :=
  match candidates a !! p_local r, candidates a !! p_remote r with
  | Some l, Some c =>
      if controlling_mode a then nice_candidate_pair_priority (priority l) (priority c)
      else nice_candidate_pair_priority (priority c) (priority l)
  | _, _ => 0
  end.
Definition reprio (a : NiceAgent) (r : CandidateCheckPair) : CandidateCheckPair :=
  r <| p_priority := role_priority a r |>.

(** The candidates of every pair are allocated. *)
Definition cands_ok (a : NiceAgent) : Prop :=
  ∀ p r, pairs a !! p = Some r → is_Some (candidates a !! p_local r) ∧ is_Some (candidates a !! p_remote r).

(** Some pairs have the priority of the role, and lists may be in another
    order. *)
Record repriod (a b : NiceAgent) : Prop := {
  ra_rest : b = a <| pairs := pairs b |> <| streams := streams b |>;
  ra_streams : Forall2 (λ s t, ∃ l, t = s <| conncheck_list := l |> ∧ l ≡ₚ conncheck_list s) (streams a) (streams b);
  ra_pairs : ∀ p, pairs b !! p = pairs a !! p ∨ pairs b !! p = reprio a <$> pairs a !! p
}.

Lemma repriod_reprio a b r : repriod a b → reprio b r = reprio a r.
Proof. intros [H _ _]. rewrite H. reflexivity. Qed.

Lemma reprio_idem a r : reprio a (reprio a r) = reprio a r.
Proof. done. Qed.

(** A pair with its new priority keeps it. *)
Lemma repriod_stable a b c p r :
  repriod a b → repriod b c → pairs b !! p = Some (reprio a r) → pairs c !! p = Some (reprio a r).
Proof.
  intros Hab [_ _ H] Hr. destruct (H p) as [-> | ->]; rewrite Hr; [done |]. cbn.
  by rewrite (repriod_reprio a b).
Qed.

#[export] Instance repriod_preorder : PreOrder repriod.
Proof.
  split.
  - intros a. split; [by destruct a | | by left]. induction (streams a) as [| s l IH]; constructor; [| done].
    exists (conncheck_list s). by destruct s.
  - intros a b c Hab Hbc. pose proof Hab as [H1 H2 H3]. pose proof Hbc as [H1' H2' H3']. split.
    + rewrite H1', H1. reflexivity.
    + revert H2'. generalize (streams c). clear - H2. induction H2 as [| s t l l' (x & -> & Hx) _ IH];
        intros c H; inversion H as [| ? u ? ? (y & -> & Hy) Hl]; subst; constructor; [| by apply IH].
      exists y. split; [done |]. cbn in Hy. by rewrite Hy.
    + intros p. destruct (H3' p) as [E | E]; rewrite E; [apply H3 |].
      destruct (H3 p) as [E' | E']; rewrite E'; destruct (pairs a !! p) as [r |]; cbn; try (by left); right;
        by rewrite !(repriod_reprio a b).
Qed.

Lemma repriod_cands a b : repriod a b → cands_ok a → cands_ok b.
Proof.
  intros H Ha p r Hr. assert (candidates b = candidates a) as -> by (rewrite (ra_rest _ _ H); done).
  destruct (ra_pairs _ _ H p) as [E | E]; rewrite E in Hr; [by apply (Ha p) |].
  destruct (pairs a !! p) as [r' |] eqn:Hr'; [| done]. injection Hr as <-. by apply (Ha p r').
Qed.

Lemma repriod_find a b sid s :
  repriod a b → agent_find_stream a sid = Some s →
  ∃ l, agent_find_stream b sid = Some (s <| conncheck_list := l |>) ∧ l ≡ₚ conncheck_list s.
Proof.
  intros [_ H _]. unfold agent_find_stream. induction H as [| s' t l l' (x & -> & Hx) _ IH]; [done |].
  cbn. destruct (_ =? _); [| done]. intros [= ->]. by exists x.
Qed.

(** ** One pair, one list, one stream *)

Lemma run_recalculate_pair p r a :
  cands_ok a → pairs a !! p = Some r →
  recalculate_pair p a = Done (tt, a <| pairs := <[p := reprio a r]> (pairs a) |>).
Proof.
  intros Ha Hr. destruct (Ha p r Hr) as [[l Hl] [c Hc]].
  unfold recalculate_pair, agent_candidate_pair_priority, reprio, role_priority.
  unfold mbind, st_bind, pair_at, cand_at, upd_pair, get, mret, st_ret. rewrite Hr, Hl, Hc, Hr.
  by destruct (controlling_mode a).
Qed.

Lemma repriod_one a p r :
  pairs a !! p = Some r → repriod a (a <| pairs := <[p := reprio a r]> (pairs a) |>).
Proof.
  intros Hr. split; [by destruct a | |].
  - apply (ra_streams a a). reflexivity.
  - intros q. cbn. destruct (decide (q = p)) as [-> |].
    + right. by rewrite lookup_insert_eq, Hr.
    + left. by rewrite lookup_insert_ne.
Qed.

Lemma run_recalculate_pairs l a :
  cands_ok a → alive (pairs a) l →
  ∃ b, for_each l recalculate_pair a = Done (tt, b) ∧ repriod a b ∧
    ∀ p r, p ∈ l → pairs a !! p = Some r → pairs b !! p = Some (reprio a r).
Proof.
  revert a. induction l as [| p l IH]; intros a Ha Hl; cbn [for_each].
  - exists a. split_and!; [done | reflexivity |]. intros p r Hp. by apply elem_of_nil in Hp.
  - apply Forall_cons in Hl as [[r Hr] Hl]. rewrite (bind_run _ _ _ _ _ (run_recalculate_pair p r a Ha Hr)).
    pose proof (repriod_one a p r Hr) as H1. set (a1 := a <| pairs := _ |>) in *.
    destruct (IH a1) as (b & E & H2 & Hb).
    + by eapply repriod_cands.
    + eapply Forall_impl; [exact Hl |]. intros q [t Hq]. destruct (ra_pairs _ _ H1 q) as [-> | ->]; rewrite Hq; eauto.
    + exists b. split_and!; [done | by transitivity a1 |]. intros q t Hq Ht.
      destruct (decide (q = p)) as [-> | Hne].
      * rewrite Hr in Ht. injection Ht as <-. eapply repriod_stable; [exact H1 | exact H2 |].
        unfold a1. cbn. by rewrite lookup_insert_eq.
      * apply elem_of_cons in Hq as [| Hq]; [done |]. rewrite <- (repriod_reprio a a1) by done.
        apply Hb; [done |]. unfold a1. cbn. by rewrite lookup_insert_ne.
Qed.

Lemma repriod_set_list sid l a s :
  agent_find_stream a sid = Some s → l ≡ₚ conncheck_list s →
  repriod a (a <| streams := update_first (λ s, s_id s =? sid) (λ s, s <| conncheck_list := l |>) (streams a) |>).
Proof.
  intros Hs Hl. split; [by destruct a | | by left]. cbn. unfold agent_find_stream in Hs.
  assert (∀ t : NiceStream, ∃ x, t = t <| conncheck_list := x |> ∧ x ≡ₚ conncheck_list t) as Hself.
  { intros t. exists (conncheck_list t). by destruct t. }
  induction (streams a) as [| t ts IH]; [done |]. cbn in Hs |- *. destruct (s_id t =? sid).
  - injection Hs as ->. constructor; [by exists l |]. clear - Hself. induction ts; by constructor.
  - constructor; [apply Hself | by apply IH].
Qed.

Lemma run_recalculate_stream sid s a :
  checks_ok a → cands_ok a → agent_find_stream a sid = Some s →
  ∃ b, recalculate_stream sid a = Done (tt, b) ∧ repriod a b ∧
    ∀ p r, p ∈ conncheck_list s → pairs a !! p = Some r → pairs b !! p = Some (reprio a r).
Proof.
  intros Ha Hc Hs. unfold recalculate_stream. pose proof (lo_alive _ _ (stream_list_ok a sid s Ha Hs)) as Hal.
  assert (stream_at sid a = Done (s, a)) as E by (unfold stream_at; by rewrite Hs).
  rewrite (bind_run _ _ _ _ _ E). clear E.
  destruct (run_recalculate_pairs (conncheck_list s) a Hc Hal) as (b & E & Hab & Hb).
  rewrite (bind_run _ _ _ _ _ E). clear E. destruct (repriod_find a b sid s Hab Hs) as (l & Hsb & Hl).
  assert (alive (pairs b) l) as Halb.
  { unfold alive in *. rewrite Hl. eapply Forall_impl; [exact Hal |]. intros q [t Hq].
    destruct (ra_pairs _ _ Hab q) as [-> | ->]; rewrite Hq; eauto. }
  rewrite (bind_run _ _ _ _ _ (run_checklist sid _ b Hsb Halb)).
  change (conncheck_list (s <| conncheck_list := l |>)) with l.
  destruct (g_slist_sort_spec rcmp rcmp_trans rcmp_total (records (pairs b) l)) as (L & E & HL & _).
  rewrite (bind_run _ _ b L b) by (unfold lift; by rewrite E). eexists. split; [reflexivity |].
  assert (L.*1 ≡ₚ l) as HL1 by (by rewrite HL, records_fst).
  pose proof (repriod_set_list sid L.*1 b _ Hsb HL1) as Hbc. split; [by transitivity b |].
  intros p r Hp Hr. cbn. by apply Hb.
Qed.

Lemma run_recalculate_streams sids a :
  checks_ok a → cands_ok a → (∀ sid, sid ∈ sids → is_Some (agent_find_stream a sid)) →
  ∃ b, for_each sids recalculate_stream a = Done (tt, b) ∧ repriod a b ∧ checks_ok b ∧
    ∀ sid s p r, sid ∈ sids → agent_find_stream a sid = Some s → p ∈ conncheck_list s →
      pairs a !! p = Some r → pairs b !! p = Some (reprio a r).
Proof.
  revert a. induction sids as [| sid sids IH]; intros a Ha Hc Hs; cbn [for_each].
  - exists a. split_and!; [done | reflexivity | done |]. intros sid s p r Hsid. by apply elem_of_nil in Hsid.
  - destruct (Hs sid) as [s Hsid]; [set_solver |].
    destruct (run_recalculate_stream sid s a Ha Hc Hsid) as (a1 & E & H1 & Ha1).
    rewrite (bind_run _ _ _ _ _ E). pose proof (preserves_recalculate_stream sid a tt a1 Ha E) as Hok.
    destruct (IH a1 Hok) as (b & E' & H2 & Hb & Hpairs).
    + by eapply repriod_cands.
    + intros sid' Hin. destruct (Hs sid') as [s' Hs']; [set_solver |].
      destruct (repriod_find _ _ _ _ H1 Hs') as (l & -> & _). eauto.
    + exists b. split_and!; [done | by transitivity a1 | done |]. intros sid' s' p r Hin Hs' Hp Hr.
      destruct (ra_pairs _ _ H1 p) as [Hr1 | Hr1]; rewrite Hr in Hr1; cbn in Hr1;
        [| by eapply repriod_stable; [exact H1 | ..]].
      apply elem_of_cons in Hin as [-> | Hin].
      * rewrite Hsid in Hs'. injection Hs' as <-. eapply repriod_stable; [exact H1 | done |]. by apply Ha1.
      * destruct (repriod_find _ _ _ _ H1 Hs') as (l & Hl & HP). rewrite <- (repriod_reprio a a1) by done.
        eapply Hpairs; [done | exact Hl | cbn; by rewrite HP | done].
Qed.

(** ** The agent *)

Lemma find_stream_of_in a s :
  NoDup (map s_id (streams a)) → s ∈ streams a → agent_find_stream a (s_id s) = Some s.
Proof.
  unfold agent_find_stream. induction (streams a) as [| t l IH]; intros Hn Hs; [by apply elem_of_nil in Hs |].
  cbn in Hn |- *. apply NoDup_cons in Hn as [Ht Hn]. apply elem_of_cons in Hs as [-> | Hs]; [by rewrite Z.eqb_refl |].
  destruct (Z.eqb_spec (s_id t) (s_id s)) as [E | _]; [| by apply IH].
  exfalso. apply Ht. rewrite E. by apply list_elem_of_fmap_2.
Qed.

(** C11: a role conflict gives every pair the priority of the new role and puts
    the lists back in order.  When the role changes, [priv_check_for_role_conflict]
    returns, the role is the new one, and the list of every stream is a
    permutation of the old one in order of descending priority, in which each
    pair has the priority that the formula gives for its two candidates in the
    new role and is unchanged otherwise. *)
Theorem role_change_reorders (control : bool) (a : NiceAgent)
    (Ha : checks_ok a) (Hc : cands_ok a) (Hne : control ≠ controlling_mode a) :
  ∃ b, priv_check_for_role_conflict control a = Done (tt, b) ∧
    controlling_mode b = control ∧ candidates b = candidates a ∧
    ∀ s, s ∈ streams a →
      ∃ l, agent_find_stream b (s_id s) = Some (s <| conncheck_list := l |>) ∧
        l ≡ₚ conncheck_list s ∧ sorted (pairs b) l ∧
        ∀ p, p ∈ l → ∃ r lc rc, pairs a !! p = Some r ∧
          candidates a !! p_local r = Some lc ∧ candidates a !! p_remote r = Some rc ∧
          pairs b !! p = Some (r <| p_priority :=
            if control then nice_candidate_pair_priority (priority lc) (priority rc)
            else nice_candidate_pair_priority (priority rc) (priority lc) |>).
Proof.
  unfold priv_check_for_role_conflict. st_run. rewrite (proj2 (eqb_false_iff control (controlling_mode a)) Hne).
  st_run. set (a1 := a <| controlling_mode := control |>).
  assert (same_checks a a1) as Hsame by by split.
  pose proof (same_checks_ok _ _ Hsame Ha) as Ha1. unfold recalculate_pair_priorities, stream_ids. st_run.
  destruct (run_recalculate_streams (map s_id (streams a1)) a1 Ha1) as (b & E & H1 & Hb & Hpairs).
  { exact Hc. }
  { intros sid (s & -> & Hs)%list_elem_of_fmap. rewrite (find_stream_of_in a1 s (ck_ids _ Ha1) Hs). eauto. }
  exists b. pose proof (ra_rest _ _ H1) as Hrest. split_and!; [exact E | by rewrite Hrest | by rewrite Hrest |].
  intros s Hs. pose proof (find_stream_of_in a1 s (ck_ids _ Ha1) Hs) as Hf.
  destruct (repriod_find _ _ _ _ H1 Hf) as (l & Hl & HP). exists l. split_and!; [done | done | |].
  - apply (lo_sorted _ _ (stream_list_ok b _ _ Hb Hl)).
  - intros p Hp. rewrite HP in Hp. pose proof (lo_alive _ _ (stream_list_ok a1 _ _ Ha1 Hf)) as Hal.
    unfold alive in Hal. rewrite Forall_forall in Hal. destruct (Hal p Hp) as [r Hr].
    destruct (Hc p r Hr) as [[lc Hlc] [rc Hrc]]. exists r, lc, rc. split_and!; [done.. |].
    rewrite (Hpairs (s_id s) s p r); [| by apply list_elem_of_fmap_2 | done..].
    unfold reprio, role_priority. cbn. by rewrite Hlc, Hrc.
Qed.

Lemma demo_nominated_cands : cands_ok demo_nominated.
Proof. intros p r [[_ ->] | [_ ->]]%demo_pairs_inv; split; eexists; reflexivity. Qed.

Lemma role_change_reorders_witness :
  ∃ b, priv_check_for_role_conflict false demo_nominated = Done (tt, b) ∧ controlling_mode b = false ∧
  ∃ l, agent_find_stream b 1 = Some (demo_stream <| conncheck_list := l |>) ∧ l ≡ₚ [1; 2]%positive.
Proof.
  destruct (role_change_reorders false demo_nominated demo_nominated_checks demo_nominated_cands)
    as (b & E & Hm & _ & H); [discriminate |].
  destruct (H (demo_stream <| conncheck_list := [1; 2]%positive |>)) as (l & Hl & HP & _);
    [apply list_elem_of_here |].
  exists b. split; [exact E | split; [exact Hm |]]. exists l. split; [exact Hl | exact HP].
Defined.
