(* ===== verification/CheckUnfreeze.v ===== *)
(** * Unfreezing, roles, and the ends of the component state machine

    Which pairs [priv_conn_check_unfreeze_next] sets to Waiting, what a change
    of role does to a check list, and two runs that end in an assertion
    failure. *)

From stdpp Require Import gmap sorting.
From S2P Require Import Prelude Bytes StateMonad GSList StunMessage NiceAddress NiceCandidate IceAgent CheckList CheckTick CheckInbound CheckListFacts CheckListInv CheckListOps CheckPrune CheckDemo CheckReady CheckHistory.
#[global] Open Scope Z_scope.

(** ** The leaders of a list *)

(** The first pair of [l] for each foundation that is not in [found]. *)
Fixpoint leaders (m : gmap positive CandidateCheckPair) (found : list bytes) (l : list pptr) : list pptr :=
  match l with
  | [] => []
  | p :: l =>
      match m !! p with
      | Some r => if decide (p_foundation r ∈ found) then leaders m found l
                  else p :: leaders m (p_foundation r :: found) l
      | None => leaders m found l
      end
  end.

Lemma leaders_sub m found l : leaders m found l ⊆ l.
Proof.
  revert found. induction l as [| p l IH]; intros found; cbn; [done |].
  destruct (m !! p) as [r |]; [case_decide |]; set_solver.
Qed.

Lemma leaders_ext m m' found l :
  (∀ p, p ∈ l → p_foundation <$> m !! p = p_foundation <$> m' !! p) → leaders m found l = leaders m' found l.
Proof.
  revert found. induction l as [| p l IH]; intros found H; cbn; [done |].
  pose proof (H p (list_elem_of_here _ _)) as Hp.
  assert (∀ f, leaders m f l = leaders m' f l) as Hl by (intros; apply IH; intros; apply H; set_solver).
  destruct (m !! p), (m' !! p); try done. cbn in Hp. injection Hp as ->. by rewrite !Hl.
Qed.

(** A leader has no pair of its foundation before it. *)
Lemma elem_of_leaders m found l1 p l2 r :
  NoDup (l1 ++ p :: l2) → m !! p = Some r →
  p ∈ leaders m found (l1 ++ p :: l2) ↔
  p_foundation r ∉ found ∧ ∀ q t, q ∈ l1 → m !! q = Some t → p_foundation t ≠ p_foundation r.
Proof.
  intros Hnd Hr. revert found. induction l1 as [| x l1 IH]; intros found; cbn in *.
  - rewrite Hr. apply NoDup_cons in Hnd as [Hp _]. pose proof (leaders_sub m found l2) as Hsub.
    case_decide as Hf; [set_solver |]. split; [intros _; split; [done | set_solver] | set_solver].
  - apply NoDup_cons in Hnd as [Hx Hnd]. assert (p ≠ x) as Hpx by set_solver.
    destruct (m !! x) as [t |] eqn:Ht; [case_decide as Hf |].
    + rewrite IH by done. split; intros [H1 H2]; (split; [done |]); [| set_solver].
      intros q u [-> | Hq]%elem_of_cons Hu; [simplify_eq; congruence | by eapply H2].
    + rewrite elem_of_cons, IH by done. rewrite not_elem_of_cons. split.
      * intros [| [[H1 H2] H3]]; [done |]. split; [done |].
        intros q u [-> | Hq]%elem_of_cons Hu; [simplify_eq; congruence | by eapply H3].
      * intros [H1 H2]. right. split; [split; [| done] | set_solver].
        intros E. by apply (H2 x t); [set_solver | ..].
    + rewrite IH by done. split; intros [H1 H2]; (split; [done |]); [| set_solver].
      intros q u [-> | Hq]%elem_of_cons Hu; [congruence | by eapply H2].
Qed.

(** ** Unfreezing *)

Definition waiting (r : CandidateCheckPair) : CandidateCheckPair := r <| p_state := NICE_CHECK_WAITING |>.

Lemma unfreeze_inner_true p1 n l :
  l ≠ [] → 0 ≤ n → n + 1 < 2 ^ 32 → p_component_id p1 ≤ n → unfreeze_inner p1 n l = true.
Proof.
  intros Hl Hn Hu Hc. unfold unfreeze_inner.
  assert (∀ l v, v.1.1 = true → (fold_left (λ v (_ : pptr), unfreeze_step p1 p1 v) l v).1.1 = true) as Hstay.
  { clear. induction l as [| x l IH]; intros [[b lo] hi] Hv; cbn; [done |]. apply IH. unfold unfreeze_step.
    by destruct (_ && _). }
  destruct l as [| x l]; [done |]. cbn [fold_left]. apply Hstay. unfold unfreeze_step.
  rewrite bool_decide_eq_true_2 by done. cbn [andb].
  replace (u32 (n + 1)) with (n + 1) by (unfold u32; rewrite Z.mod_small; lia).
  destruct (Z.ltb_spec (p_component_id p1) (n + 1)); [done | lia].
Qed.

Lemma run_unfreeze_outer n list l found res a :
  list ≠ [] → 0 ≤ n → n + 1 < 2 ^ 32 → NoDup l → alive (pairs a) l →
  (∀ p r, p ∈ l → pairs a !! p = Some r → p_component_id r ≤ n) →
  ∃ b, unfreeze_outer n list l found res a =
      Done (res || negb (bool_decide (leaders (pairs a) found l = [])), b) ∧
    b = a <| pairs := pairs b |> ∧
    ∀ p, pairs b !! p = if decide (p ∈ leaders (pairs a) found l) then waiting <$> pairs a !! p else pairs a !! p.
Proof.
  intros Hlist Hn Hn' Hnd. revert found res a. induction Hnd as [| p l Hp Hnd IH]; intros found res a Hal Hc.
  - exists a. cbn. rewrite orb_false_r. split_and!; [done | by destruct a | done].
  - apply Forall_cons in Hal as [[r Hr] Hal]. cbn [unfreeze_outer leaders]. rewrite Hr.
    assert (pair_at p a = Done (r, a)) as E by (unfold pair_at; by rewrite Hr).
    rewrite (bind_run _ _ _ _ _ E). clear E. rewrite bool_decide_decide.
    destruct (decide (p_foundation r ∈ found)) as [Hf | Hf].
    { apply IH; [done |]. intros q t Hq. apply Hc. set_solver. }
    rewrite (unfreeze_inner_true r n list Hlist Hn Hn' (Hc p r (list_elem_of_here _ _) Hr)).
    set (a1 := a <| pairs := <[p := waiting r]> (pairs a) |>).
    assert (SET_PAIR_STATE p NICE_CHECK_WAITING a = Done (tt, a1)) as E.
    { unfold SET_PAIR_STATE, upd_pair. by rewrite Hr. }
    rewrite (bind_run _ _ _ _ _ E). clear E.
    assert (∀ q, q ∈ l → pairs a1 !! q = pairs a !! q) as Hsame.
    { intros q Hq. cbn. rewrite lookup_insert_ne; [done | congruence]. }
    destruct (IH (p_foundation r :: found) true a1) as (b & E & Hb & Hpairs).
    { eapply Forall_impl; [exact Hal |]. intros q Hq. unfold a1. cbn. destruct (decide (q = p)) as [-> |].
      - rewrite lookup_insert_eq. eauto.
      - by rewrite lookup_insert_ne. }
    { intros q t Hq. rewrite Hsame by done. apply Hc. set_solver. }
    rewrite (leaders_ext (pairs a1) (pairs a)) in E, Hpairs by (intros; by rewrite Hsame).
    exists b. split_and!; [by rewrite E, orb_true_r | by rewrite Hb; destruct a |]. intros q. rewrite Hpairs.
    pose proof (leaders_sub (pairs a) (p_foundation r :: found) l) as Hsub. destruct (decide (q = p)) as [-> | Hq].
    + rewrite decide_False by set_solver. rewrite decide_True by set_solver. cbn.
      by rewrite lookup_insert_eq, Hr.
    + cbn. rewrite lookup_insert_ne by done. by apply decide_ext; set_solver.
Qed.

(** What [priv_conn_check_unfreeze_next] does on any list: for every foundation
    the first pair with this foundation (the one of the highest priority) is set
    to Waiting, no other pair changes, nothing else changes, and the result is
    whether the list has a pair. *)
Lemma unfreeze_next_first {env : AgentEnv} (sid : Z) (a : NiceAgent) (s : NiceStream)
    (Ha : checks_ok a) (Hs : agent_find_stream a sid = Some s)
    (Hn : 0 ≤ n_components s < 2 ^ 32 - 1)
    (Hc : ∀ p r, p ∈ conncheck_list s → pairs a !! p = Some r → p_component_id r ≤ n_components s) :
  ∃ b, priv_conn_check_unfreeze_next sid a = Done (negb (bool_decide (conncheck_list s = [])), b) ∧
    b = a <| pairs := pairs b |> ∧
    (∀ p, p ∉ conncheck_list s → pairs b !! p = pairs a !! p) ∧
    (∀ l1 p l2 r, conncheck_list s = l1 ++ p :: l2 → pairs a !! p = Some r →
       let first := ∀ q t, q ∈ l1 → pairs a !! q = Some t → p_foundation t ≠ p_foundation r in
       (first → pairs b !! p = Some (waiting r) ∧
          ∀ q t, q ∈ conncheck_list s → pairs a !! q = Some t → p_foundation t = p_foundation r →
            p_priority t ≤ p_priority r) ∧
       (¬ first → pairs b !! p = Some r)).
Proof.
  pose proof (stream_list_ok a sid s Ha Hs) as [Hal Hnd Hso _]. unfold priv_conn_check_unfreeze_next.
  assert (stream_at sid a = Done (s, a)) as E by (unfold stream_at; by rewrite Hs).
  rewrite (bind_run _ _ _ _ _ E). clear E. destruct (decide (conncheck_list s = [])) as [El | El].
  { rewrite El in *. exists a. split_and!; [done | by destruct a | done |]. intros [| ? l1]; intros; discriminate. }
  destruct (run_unfreeze_outer (n_components s) (conncheck_list s) (conncheck_list s) [] false a)
    as (b & E & Hb & Hpairs); try done; try lia.
  exists b. split_and!; [| done | |].
  - rewrite E. cbn [orb]. do 3 f_equal. apply bool_decide_ext. split; [| done]. intros Hl. exfalso.
    destruct (conncheck_list s) as [| p l]; [done |]. apply Forall_cons in Hal as [[r Hr] _]. cbn in Hl.
    rewrite Hr in Hl. by case_decide; [set_solver |].
  - intros p Hp. rewrite Hpairs, decide_False; [done |]. intros Hin. by apply leaders_sub in Hin.
  - intros l1 p l2 r El' Hr. rewrite Hpairs, El', Hr in *.
    pose proof (elem_of_leaders (pairs a) [] l1 p l2 r Hnd Hr) as Hlead. split; intros Hf.
    + rewrite decide_True by (apply Hlead; split; [set_solver | done]). split; [done |].
      intros q t Hq Ht Ef. apply elem_of_app in Hq as [Hq | [-> | Hq]%elem_of_cons].
      * by destruct (Hf q t Hq Ht).
      * simplify_eq. lia.
      * apply StronglySorted_app_1_r in Hso. apply StronglySorted_cons in Hso as [Hall _].
        rewrite Forall_forall in Hall. by apply (Hall q Hq r t).
    + rewrite decide_False; [done |]. intros [_ H]%Hlead. by apply Hf.
Qed.

Lemma first_of_foundation (m : gmap positive CandidateCheckPair) (l : list pptr) p r :
  p ∈ l → m !! p = Some r →
  ∃ l1 q l2 t, l = l1 ++ q :: l2 ∧ m !! q = Some t ∧ p_foundation t = p_foundation r ∧
    ∀ x y, x ∈ l1 → m !! x = Some y → p_foundation y ≠ p_foundation r.
Proof.
  intros Hp Hr. induction l as [| x l IH]; [set_solver |].
  destruct (decide (p_foundation <$> m !! x = Some (p_foundation r))) as [Hx | Hx].
  - apply fmap_Some in Hx as (t & Ht & Ef). exists [], x, l, t. split_and!; [done | done | done | set_solver].
  - apply elem_of_cons in Hp as [-> | Hp]; [rewrite Hr in Hx; done |].
    destruct (IH Hp) as (l1 & q & l2 & t & -> & Ht & Ef & Hall). exists (x :: l1), q, l2, t.
    split_and!; [done | done | done |]. intros y u [-> | Hy]%elem_of_cons Hu; [| by eapply Hall].
    intros E. rewrite Hu in Hx. cbn in Hx. congruence.
Qed.

(** The pairs of one foundation are ordered like their components, as the
    component id in the priority of a candidate (RFC 5245 4.1.2.1) makes them. *)
Definition component_order (m : gmap positive CandidateCheckPair) (l : list pptr) : Prop :=
  ∀ p q r t, p ∈ l → q ∈ l → m !! p = Some r → m !! q = Some t → p_foundation r = p_foundation t →
    p_component_id r < p_component_id t → p_priority t < p_priority r.

(** The pair RFC 5245 5.7.4 picks for its foundation: the lowest component id,
    and the highest priority among those. *)
Definition rfc_choice (m : gmap positive CandidateCheckPair) (l : list pptr) (t : CandidateCheckPair) : Prop :=
  ∀ p r, p ∈ l → m !! p = Some r → p_foundation r = p_foundation t →
    p_component_id t < p_component_id r ∨
    p_component_id t = p_component_id r ∧ p_priority r ≤ p_priority t.

(** C27: unfreezing as RFC 5245 5.7.4 has it.  On a check list that is Frozen, as
    the callers have it, and whose pairs of one foundation are ordered like their
    components, [priv_conn_check_unfreeze_next] returns TRUE exactly when there is
    a Frozen pair, and sets to Waiting, for every foundation on the list, one
    pair: one with the lowest component id, and the highest priority among
    those.  The other pairs stay Frozen, and nothing else changes. *)
Theorem unfreeze_next_rfc5245 {env : AgentEnv} (sid : Z) (a : NiceAgent) (s : NiceStream)
    (Ha : checks_ok a) (Hs : agent_find_stream a sid = Some s)
    (Hn : 0 ≤ n_components s < 2 ^ 32 - 1)
    (Hc : ∀ p r, p ∈ conncheck_list s → pairs a !! p = Some r → p_component_id r ≤ n_components s)
    (Hfrozen : ∀ p r, p ∈ conncheck_list s → pairs a !! p = Some r → p_state r = NICE_CHECK_FROZEN)
    (Hord : component_order (pairs a) (conncheck_list s)) :
  ∃ ret b, priv_conn_check_unfreeze_next sid a = Done (ret, b) ∧
    (ret = true ↔ ∃ p r, p ∈ conncheck_list s ∧ pairs a !! p = Some r ∧ p_state r = NICE_CHECK_FROZEN) ∧
    b = a <| pairs := pairs b |> ∧
    (∀ p, p ∉ conncheck_list s → pairs b !! p = pairs a !! p) ∧
    (∀ p r, p ∈ conncheck_list s → pairs a !! p = Some r →
       ∃ q t, q ∈ conncheck_list s ∧ pairs a !! q = Some t ∧ p_foundation t = p_foundation r ∧
         pairs b !! q = Some (waiting t) ∧ rfc_choice (pairs a) (conncheck_list s) t ∧
         ∀ q' t', q' ∈ conncheck_list s → q' ≠ q → pairs a !! q' = Some t' →
           p_foundation t' = p_foundation r → pairs b !! q' = Some t').
Proof.
  destruct (unfreeze_next_first sid a s Ha Hs Hn Hc) as (b & E & Hb & Hout & Hin).
  exists (negb (bool_decide (conncheck_list s = []))), b. split_and!; [done | | done | done |].
  - pose proof (lo_alive _ _ (stream_list_ok a sid s Ha Hs)) as Hal.
    rewrite negb_true_iff, bool_decide_eq_false. split; [| intros (p & r & Hp & _) El; rewrite El in Hp; set_solver].
    intros Hne. destruct (conncheck_list s) as [| p l] eqn:El; [done |]. apply Forall_cons in Hal as [[r Hr] _].
    exists p, r. split_and!; [set_solver | done |]. apply (Hfrozen p r); [set_solver | done].
  - intros p r Hp Hr. destruct (first_of_foundation (pairs a) _ p r Hp Hr) as (l1 & q & l2 & t & El & Ht & Ef & Hfirst).
    assert (Hq : q ∈ conncheck_list s) by (rewrite El; set_solver).
    destruct (Hin l1 q l2 t El Ht) as [[Hw Hmax] _]; [intros x y Hx Hy; rewrite Ef; by eapply Hfirst |].
    exists q, t. split_and!; try done.
    + intros x y Hx Hy Ey. specialize (Hmax x y Hx Hy Ey).
      destruct (Z.lt_trichotomy (p_component_id t) (p_component_id y)) as [? | [? | Hlt]]; [by left | by right |].
      specialize (Hord x q y t Hx Hq Hy Ht Ey Hlt). lia.
    + intros q' t' Hq' Hne Ht' Ef'. rewrite El in Hq'.
      apply elem_of_app in Hq' as [Hq' | [-> | Hq']%elem_of_cons]; [| done |].
      { by destruct (Hfirst q' t' Hq' Ht'). }
      apply list_elem_of_split in Hq' as (k1 & k2 & ->).
      apply (Hin (l1 ++ q :: k1) q' k2 t'); [by rewrite El, <- app_assoc | done |].
      intros Hf. apply (Hf q t); [set_solver | done | congruence].
Qed.

(** Two pairs of a foundation, one of each component. *)
Definition demo_frozen : NiceAgent :=
  demo_nominated <| streams := [demo_stream <| conncheck_list := [1; 2]%positive |> <| n_components := 2 |>] |>
    <| pairs := <[1%positive := demo_pair 1 NICE_CHECK_FROZEN false 2000]>
        (<[2%positive := (demo_pair 1 NICE_CHECK_FROZEN false 1000) <| p_component_id := 2 |>]> ∅) |>.

Lemma demo_frozen_inv p r :
  pairs demo_frozen !! p = Some r →
  p = 1%positive ∧ r = demo_pair 1 NICE_CHECK_FROZEN false 2000 ∨
  p = 2%positive ∧ r = (demo_pair 1 NICE_CHECK_FROZEN false 1000) <| p_component_id := 2 |>.
Proof.
  cbn. rewrite !lookup_insert_Some, lookup_empty. intros [[<- <-] | (_ & [[<- <-] | [_ [=]]])]; [by left | by right].
Qed.

Lemma demo_frozen_checks : checks_ok demo_frozen.
Proof.
  split; [apply NoDup_singleton | | constructor | constructor]. constructor; [| constructor]. split.
  - repeat constructor; eexists; reflexivity.
  - apply NoDup_cons. split; [by intros H%list_elem_of_singleton | apply NoDup_singleton].
  - repeat constructor. intros r t [= <-] [= <-]. done.
  - intros p r _ [[_ ->] | [_ ->]]%demo_frozen_inv; done.
Qed.

(** The pair of component 1 is unfrozen, the other one is not. *)
Lemma unfreeze_next_rfc5245_witness :
  ∃ ret b q t, priv_conn_check_unfreeze_next 1 demo_frozen = Done (ret, b) ∧
    pairs demo_frozen !! q = Some t ∧ p_component_id t = 1 ∧ pairs b !! q = Some (waiting t) ∧
    (∀ q' t', q' ∈ [1; 2]%positive → q' ≠ q → pairs demo_frozen !! q' = Some t' → pairs b !! q' = Some t').
Proof.
  destruct (unfreeze_next_rfc5245 1 demo_frozen _ demo_frozen_checks eq_refl)
    as (ret & b & E & _ & _ & _ & H).
  - split; by_compute.
  - intros p r _ [[_ ->] | [_ ->]]%demo_frozen_inv; by vm_compute.
  - by intros p r _ [[_ ->] | [_ ->]]%demo_frozen_inv.
  - by intros p q r t _ _ [[_ ->] | [_ ->]]%demo_frozen_inv [[_ ->] | [_ ->]]%demo_frozen_inv.
  - destruct (H 1%positive (demo_pair 1 NICE_CHECK_FROZEN false 2000)) as (q & t & Hq & Ht & _ & Hw & Hb & Ho);
      [by apply list_elem_of_here | reflexivity |].
    exists ret, b, q, t. split_and!; [exact E | exact Ht | | exact Hw |].
    + apply demo_frozen_inv in Ht as [[_ ->] | [_ ->]]; [reflexivity |].
      destruct (Hb 1%positive (demo_pair 1 NICE_CHECK_FROZEN false 2000)) as [Hlt | [Heq _]];
        [by apply list_elem_of_here | reflexivity | reflexivity | discriminate Hlt | discriminate Heq].
    + intros q' t' Hq' Hne Ht'. apply Ho; [exact Hq' | exact Hne | exact Ht' |].
      by apply demo_frozen_inv in Ht' as [[_ ->] | [_ ->]].
Defined.

(** ** What the comment promises *)

(** RFC 5245 5.7.4 picks the lowest component id of each foundation, and the
    inner loop of the code compares component ids; but its [p2] is the pair of
    the outer loop.  Here a pair of component 2 with the higher priority is
    unfrozen, and the pair of component 1 stays Frozen. *)
Lemma unfreeze_next_ignores_component_id :
  let a := demo_nominated <| streams := [demo_stream <| conncheck_list := [1; 2]%positive |> <| n_components := 2 |>] |>
    <| pairs := <[1%positive := (demo_pair 1 NICE_CHECK_FROZEN false 2000) <| p_component_id := 2 |>]>
        (<[2%positive := (demo_pair 1 NICE_CHECK_FROZEN false 1000)]> ∅) |> in
  ∃ b r1 r2, priv_conn_check_unfreeze_next 1 a = Done (true, b) ∧
    pairs b !! 1%positive = Some r1 ∧ p_component_id r1 = 2 ∧ p_state r1 = NICE_CHECK_WAITING ∧
    pairs b !! 2%positive = Some r2 ∧ p_component_id r2 = 1 ∧ p_state r2 = NICE_CHECK_FROZEN.
Proof.
  intros a. destruct (returns_done (priv_conn_check_unfreeze_next 1 a)) as (x & b & E); [by vm_compute |].
  pose proof E as E'. vm_compute in E'. injection E' as <- <-. rewrite E. by repeat eexists.
Qed.

(** ** Late success *)

(** A component that had FAILED may not become CONNECTED. *)
Lemma failed_to_connected_aborts {env : AgentEnv} (sid cid : Z) (a : NiceAgent) (s : NiceStream) (c : NiceComponent) :
  agent_find_component a sid cid = Some (s, c) → c_state c = NICE_COMPONENT_STATE_FAILED →
  agent_signal_component_state_change sid cid NICE_COMPONENT_STATE_CONNECTED a = Ub.
Proof. intros Hc Hs. unfold agent_signal_component_state_change. by rewrite Hc, Hs. Qed.

(** The component is READY on a relayed candidate that was forgotten
    ([turn_candidate]); a check of a better pair succeeds.  The new selected
    pair prunes the relay's socket, which declares the component FAILED, and
    [process_success] then signals CONNECTED. *)
Definition demo_relay (forgotten : option cptr) : NiceAgent :=
  demo_nominated
    <| streams := [demo_stream <| conncheck_list := [1; 2]%positive |>
         <| components := [demo_component <| c_state := NICE_COMPONENT_STATE_READY |>
              <| turn_candidate := forgotten |>
              <| selected_pair := {| sp_local := Some 2%positive; sp_remote := Some 3%positive;
                                     sp_priority := 1000; sp_prflx_priority := 0 |} |>] |>] |>
    <| pairs := <[1%positive := (demo_pair 1 NICE_CHECK_IN_PROGRESS true 2000)]>
         (<[2%positive := demo_pair 2 NICE_CHECK_SUCCEEDED true 1000]> ∅) |>.

Lemma better_pair_than_relay_aborts :
  let run t := process_success 1 1 1 (demo_host 3) (Some 1%positive) (Some 3%positive) 1%positive
    (Some (demo_host 1)) (demo_relay t) in
  run (Some 2%positive) = Ub ∧ returns (run None) = true.
Proof. by vm_compute. Qed.
