(* ===== verification/SdpFacts.v ===== *)
(** * SDP: what is described arrives

    Lines and tokens come apart the way they were put together; a candidate, a
    stream and a whole agent that are described are what the parser hands on; and
    what the parser makes of any other text. *)

From stdpp Require Import gmap.
From S2P Require Import Prelude Bytes StateMonad StunMessage NiceAddress NiceCandidate IceAgent CheckList CheckTick CheckInbound GStr AgentApi Sdp.
From Stdlib Require Znumtheory String.
Import String.StringSyntax.
#[global] Open Scope Z_scope.

(** ** Joining and splitting *)

Fixpoint join (x : Z) (l : list bytes) : bytes :=
  match l with [] => [] | [t] => t | t :: l => t ++ x :: join x l end.

Lemma join_cons x t l : l ≠ [] → join x (t :: l) = t ++ x :: join x l.
Proof. by destruct l. Qed.
Lemma has_prefix_app p s : g_str_has_prefix (p ++ s) p = true.
Proof. unfold g_str_has_prefix. by rewrite take_app_length, bool_decide_true. Qed.
Lemma has_prefix_single x c s : g_str_has_prefix (c :: s) [x] = (c =? x).
Proof.
  unfold g_str_has_prefix. change (take (length [x]) (c :: s)) with [c].
  destruct (Z.eqb_spec c x) as [-> |]; [by rewrite bool_decide_true | apply bool_decide_false; congruence].
Qed.

Lemma strstr_found x t r : x ∉ t → strstr (t ++ x :: r) [x] = Some (t, r).
Proof.
  induction t as [| c t IH]; intros H; cbn [strstr app].
  - rewrite has_prefix_single, Z.eqb_refl. done.
  - rewrite has_prefix_single. apply not_elem_of_cons in H as [Hc Ht].
    rewrite (proj2 (Z.eqb_neq c x)) by congruence. by rewrite IH.
Qed.
Lemma strstr_none x t : x ∉ t → strstr t [x] = None.
Proof.
  induction t as [| c t IH]; intros H; cbn [strstr]; [done |].
  rewrite has_prefix_single. apply not_elem_of_cons in H as [Hc Ht].
  rewrite (proj2 (Z.eqb_neq c x)) by congruence. by rewrite IH.
Qed.

Lemma split_join x l : ∀ t fuel, (length l ≤ fuel)%nat → Forall (λ t, x ∉ t) (t :: l) →
  strsplit_loop fuel (join x (t :: l)) [x] = t :: l.
Proof.
  induction l as [| u l IH]; intros t fuel Hf [Ht Hl]%Forall_cons.
  - cbn [join]. destruct fuel; cbn [strsplit_loop]; [done |]. by rewrite strstr_none.
  - destruct fuel as [| fuel]; [cbn in Hf; lia |]. rewrite join_cons by done. cbn [strsplit_loop].
    rewrite strstr_found by done. f_equal. apply IH; [cbn in Hf; lia | done].
Qed.
Lemma length_join x l : ∀ t, (length l ≤ length (join x (t :: l)))%nat.
Proof.
  induction l as [| u l IH]; intros t; cbn [length]; [lia |]. rewrite join_cons by done.
  specialize (IH u). rewrite length_app. cbn [length] in *. lia.
Qed.
Lemma g_strsplit_join x t l : Forall (λ t, x ∉ t) (t :: l) → join x (t :: l) ≠ [] →
  g_strsplit (join x (t :: l)) [x] = t :: l.
Proof.
  intros H Hn. unfold g_strsplit. destruct (join x (t :: l)) eqn:E; [done |]. rewrite <- E.
  apply split_join; [apply length_join | done].
Qed.

(** Lines, each with its end. *)
Definition lines_text (l : list bytes) : bytes := concat (map (λ t, t ++ newline) l).
Lemma lines_text_join l : lines_text l = join 10 (l ++ [[]]).
Proof.
  induction l as [| t l IH]; [done |]. cbn [app]. rewrite join_cons by (by destruct l). rewrite <- IH.
  unfold lines_text. cbn. by rewrite <- app_assoc.
Qed.
Lemma split_lines l : Forall (λ t, 10 ∉ t) l → l ≠ [] → g_strsplit (lines_text l) newline = l ++ [[]].
Proof.
  intros H Hn. rewrite lines_text_join. destruct l as [| t l]; [done |]. cbn [app].
  apply (g_strsplit_join 10 t (l ++ [[]])).
  - apply Forall_cons in H as [H1 H2]. apply Forall_cons. split; [done |]. apply Forall_app.
    split; [done |]. constructor; [set_solver | constructor].
  - rewrite join_cons by (by destruct l). by destruct t.
Qed.
Lemma lines_text_app l l' : lines_text (l ++ l') = lines_text l ++ lines_text l'.
Proof. unfold lines_text. by rewrite map_app, concat_app. Qed.

(** ** Numbers *)

Definition is_digit (c : Z) : Prop := 48 ≤ c ≤ 57.
Lemma digits_are_digits fuel n acc : 0 ≤ n → Forall is_digit acc → Forall is_digit (digits fuel n acc).
Proof.
  revert n acc. induction fuel as [| fuel IH]; intros n acc Hn H; cbn [digits]; [done |].
  assert (Forall is_digit (48 + n mod 10 :: acc)).
  { constructor; [| done]. unfold is_digit. pose proof (Z.mod_pos_bound n 10). lia. }
  destruct (n / 10 =? 0); [done |]. apply IH; [apply Z.div_pos; lia | done].
Qed.
Lemma digits_nonempty fuel n acc : (0 < fuel)%nat ∨ acc ≠ [] → digits fuel n acc ≠ [].
Proof.
  revert n acc. induction fuel as [| fuel IH]; intros n acc H; cbn [digits]; [destruct H; [lia | done] |].
  destruct (n / 10 =? 0); [done |]. apply IH. by right.
Qed.

Lemma parse_digit n v acc : 0 ≤ v < 10 ^ 10 → 0 ≤ n < 10 →
  parse_digits (48 + n :: acc) v false = parse_digits acc (v * 10 + n) false.
Proof.
  intros Hv Hn. cbn [parse_digits]. unfold digit_value.
  rewrite (proj2 (Z.leb_le 48 (48 + n))), (proj2 (Z.leb_le (48 + n) 57)) by lia. cbn [andb].
  replace (48 + n - 48) with n by lia. rewrite (proj2 (Z.leb_gt 10 n)) by lia.
  change (G_MAXUINT64 / 10) with 1844674407370955161.
  rewrite (proj2 (Z.ltb_ge 1844674407370955161 v)), (proj2 (Z.eqb_neq v 1844674407370955161)) by lia. done.
Qed.
Lemma parse_show fuel : ∀ n acc, (fuel ≤ 10)%nat → 0 ≤ n < 10 ^ Z.of_nat fuel →
  parse_digits (digits fuel n acc) 0 false = parse_digits acc n false.
Proof.
  induction fuel as [| fuel IH]; intros n acc Hf Hn; cbn [digits].
  - change (10 ^ Z.of_nat 0) with 1 in Hn. by replace n with 0 by lia.
  - assert (10 ^ Z.of_nat (S fuel) = 10 * 10 ^ Z.of_nat fuel) as E
      by (rewrite Nat2Z.inj_succ, Z.pow_succ_r; lia).
    pose proof (Z.mod_pos_bound n 10). pose proof (Z.div_mod n 10).
    destruct (Z.eqb_spec (n / 10) 0) as [E0 |].
    + rewrite (parse_digit (n mod 10) 0) by lia. f_equal. lia.
    + rewrite IH by lia. rewrite parse_digit; [f_equal; lia | | lia].
      split; [apply Z.div_pos; lia |]. apply Z.div_lt_upper_bound; [lia |].
      eapply Z.lt_le_trans; [apply Hn |]. rewrite E. apply Z.mul_le_mono_nonneg_l; [lia |].
      apply Z.pow_le_mono_r; lia.
Qed.

Lemma skip_digit s : Forall is_digit s → skip_space s = s.
Proof.
  destruct s as [| c s]; [done |]. intros [Hc _]%Forall_cons. cbn. unfold is_digit in Hc.
  replace (ISSPACE c) with false; [done |]. symmetry. unfold ISSPACE.
  repeat (apply orb_false_iff; split); apply Z.eqb_neq; lia.
Qed.
Lemma show_decimal_digits n : 0 ≤ n → Forall is_digit (show_decimal n).
Proof. intros. apply digits_are_digits; [lia | constructor]. Qed.

Lemma parse_negative s : g_parse_long_long (45 :: s)
  = let '(ui64, overflow) := parse_digits s 0 false in (if overflow then G_MAXUINT64 else ui64, true).
Proof. reflexivity. Qed.
Lemma parse_decimal n : 0 ≤ n < 10 ^ 10 → parse_digits (show_decimal n) 0 false = (n, false).
Proof. intros. unfold show_decimal. rewrite (parse_show 10) by (done || lia). done. Qed.

(** What [%d] prints of a word is read back as that word. *)
Lemma strtoull_show_d n : u32 (g_ascii_strtoull (show_d n)) = u32 n.
Proof.
  unfold g_ascii_strtoull, show_d.
  assert (- 2 ^ 31 ≤ s32 n < 2 ^ 31) as Hs.
  { unfold s32. pose proof (Z.mod_pos_bound (n + 2 ^ 31) (2 ^ 32)). lia. }
  assert (u32 (s32 n) = u32 n) as Eu.
  { unfold u32, s32. rewrite Zminus_mod_idemp_l. f_equal. lia. }
  destruct (Z.ltb_spec (s32 n) 0).
  - rewrite parse_negative, parse_decimal by lia.
    replace (- - s32 n) with (s32 n) by lia. rewrite <- Eu. unfold u32, u64. rewrite <- (Znumtheory.Zmod_div_mod (2 ^ 32) (2 ^ 64)); try lia.
    exists (2 ^ 32). lia.
  - pose proof (show_decimal_digits (s32 n)) as Hd. unfold g_parse_long_long. rewrite skip_digit by (apply Hd; lia).
    destruct (show_decimal (s32 n)) as [| c r] eqn:E.
    { exfalso. apply (digits_nonempty 10 (s32 n) []); [left; lia | done]. }
    apply Forall_cons in Hd as [Hc _]; [| lia]. unfold is_digit in Hc.
    rewrite (proj2 (Z.eqb_neq c 45)), (proj2 (Z.eqb_neq c 43)) by lia. rewrite <- E.
    by rewrite parse_decimal by lia.
Qed.
Lemma u16_of_show_d n : 0 ≤ n < 2 ^ 16 → u16_of (show_d n) = n.
Proof.
  intros Hn. unfold u16_of. pose proof (strtoull_show_d n) as H. unfold u16, u32 in *.
  rewrite (Znumtheory.Zmod_div_mod (2 ^ 16) (2 ^ 32)); [| lia | lia | exists (2 ^ 16); lia].
  rewrite H. rewrite <- Znumtheory.Zmod_div_mod; [apply Z.mod_small; lia | lia | lia | exists (2 ^ 16); lia].
Qed.

(** ** Candidates *)

(** Text without the separators of tokens and lines. *)
Definition plain (s : bytes) : Prop := 32 ∉ s ∧ 10 ∉ s.
Lemma plain_forall s (P : Z → Prop) : Forall P s → ¬ P 32 → ¬ P 10 → plain s.
Proof. rewrite Forall_forall. intros H H1 H2. split; eauto. Qed.
Lemma plain_app s t : plain s → plain t → plain (s ++ t).
Proof. unfold plain. rewrite !not_elem_of_app. tauto. Qed.
Lemma plain_digits s : Forall is_digit s → plain s.
Proof. intros H. apply (plain_forall _ _ H); unfold is_digit; lia. Qed.
Lemma plain_show_d n : plain (show_d n).
Proof.
  assert (- 2 ^ 31 ≤ s32 n) by (unfold s32; pose proof (Z.mod_pos_bound (n + 2 ^ 31) (2 ^ 32)); lia).
  unfold show_d. destruct (Z.ltb_spec (s32 n) 0).
  - apply (plain_app [45]); [split; set_solver |]. apply plain_digits, show_decimal_digits. lia.
  - by apply plain_digits, show_decimal_digits.
Qed.

(** The C library: a numeric host is read back up to its scope, and is written
    without separators. *)
Class NumericHosts (resolver : Resolver) : Prop := {
  numeric_host : ∀ a ip, address_ok a → nice_address_to_string a = Some ip →
    plain ip ∧ ∃ b, getaddrinfo ip = Some b ∧ address_ok b ∧ nice_address_equal_no_port b a = true
}.

(** What the peer hears of an address. *)
Definition heard_address {resolver : Resolver} (a : NiceAddress) : NiceAddress :=
  match nice_address_to_string a with
  | Some ip => nice_address_set_port (nice_address_set_from_string zero_address ip).1 (sdp_port a)
  | None => zero_address
  end.

Lemma sdp_port_range a : address_ok a → is_u16 (sdp_port a) ∧ sdp_port a ≠ 0.
Proof.
  intros _. unfold sdp_port. pose proof (htons_range (sa_port a)) as Hr. unfold is_u16 in *.
  unfold nice_address_get_port.
  destruct ((sa_family a =? AF_INET) || (sa_family a =? AF_INET6)); [| cbn; lia].
  destruct (Z.eqb_spec (htons (sa_port a)) 0); lia.
Qed.

Lemma equal_set_port a b port : nice_address_equal_no_port a b = true →
  nice_address_equal (nice_address_set_port a port) (nice_address_set_port b port) = true.
Proof.
  unfold nice_address_equal_no_port, nice_address_equal, nice_address_set_port.
  destruct (Z.eqb_spec (sa_family a) (sa_family b)) as [E |]; [| done]. rewrite E. cbn [negb].
  destruct (sa_family b =? AF_INET) eqn:E4; cbn; [rewrite E, Z.eqb_refl, E4, Z.eqb_refl; cbn; intros ->; done |].
  destruct (sa_family b =? AF_INET6) eqn:E6; cbn; [| done].
  rewrite E, Z.eqb_refl, E4, E6, Z.eqb_refl. cbn. unfold scopes_match. cbn.
  intros [-> ->]%andb_true_iff. done.
Qed.
Lemma equal_from_sockaddr a b : nice_address_equal_no_port b a = true →
  nice_address_equal_no_port (nice_address_set_from_sockaddr zero_address b) a = true.
Proof.
  unfold nice_address_equal_no_port, nice_address_set_from_sockaddr.
  destruct (Z.eqb_spec (sa_family b) (sa_family a)) as [E |]; [| done]. rewrite E. cbn [negb].
  destruct (sa_family a =? AF_INET) eqn:E4; [cbn; by rewrite E, Z.eqb_refl, E4 |].
  destruct (sa_family a =? AF_INET6) eqn:E6; [| done]. by rewrite E, Z.eqb_refl, E4, E6.
Qed.

Section candidates.
Context {env : AgentEnv} {hosts : NumericHosts env_resolver}.

Lemma heard_address_spec a : address_ok a → nice_address_is_valid a = true →
  ∃ ip, ip_string a = Done ip ∧ plain ip ∧ sdp_address ip (sdp_port a) = Some (heard_address a) ∧
    nice_address_equal (heard_address a) (nice_address_set_port a (sdp_port a)) = true.
Proof.
  intros Ha Hv. assert (∃ ip, nice_address_to_string a = Some ip) as [ip Hip].
  { unfold nice_address_is_valid, nice_address_to_string in *. apply orb_true_iff in Hv as [E | E]; rewrite E;
      [eauto |]. destruct (sa_family a =? AF_INET); eauto. }
  destruct (numeric_host a ip Ha Hip) as (Hp & b & Hb & Hob & Hn).
  exists ip. unfold ip_string, sdp_address, heard_address. rewrite Hip.
  unfold nice_address_set_from_string. rewrite Hb. split_and!; [done.. |]. cbn [fst].
  by apply equal_set_port, equal_from_sockaddr.
Qed.

(** Candidates that fit their types and whose foundation is one token. *)
Record describable (c : NiceCandidate) : Prop := {
  ds_foundation : plain (foundation c) ∧ zlen (foundation c) ≤ 32;
  ds_component : is_u32 (cand_component_id c);
  ds_priority : is_u32 (NiceCandidate.priority c);
  ds_addr : address_ok (addr c);
  ds_valid : nice_address_is_valid (addr c) = true;
  ds_base : address_ok (base_addr c)
}.

(** The base is described when it is another address. *)
Definition has_base (c : NiceCandidate) : bool :=
  nice_address_is_valid (base_addr c) && negb (nice_address_equal (addr c) (base_addr c)).

(** The candidate the peer makes of the description of [c]. *)
Definition heard (sid : Z) (c : NiceCandidate) : NiceCandidate :=
  (nice_candidate_new (type c)) <| cand_component_id := cand_component_id c |> <| cand_stream_id := sid |>
    <| transport := transport c |> <| foundation := foundation c |>
    <| NiceCandidate.priority := NiceCandidate.priority c |> <| addr := heard_address (addr c) |>
    <| base_addr := if has_base c then heard_address (base_addr c) else zero_address |>.

(** Address and port, as two tokens. *)
Definition address_tokens (a : NiceAddress) (ip : bytes) : list bytes := [ip; show_d (sdp_port a)].
Definition candidate_tokens (c : NiceCandidate) (ip base_ip : bytes) : list bytes :=
  [foundation c; show_d (cand_component_id c); transport_to_sdp (transport c);
   show_d (NiceCandidate.priority c); ip; show_d (sdp_port (addr c)); text "typ"; cand_type_to_sdp (type c)] ++
  (if has_base c then [text "raddr"; base_ip; text "rport"; show_d (sdp_port (base_addr c))] else []) ++
  (if bool_decide (transport c = NICE_CANDIDATE_TRANSPORT_UDP) then []
   else [text "tcptype"; transport_to_sdp_tcptype (transport c)]).
Definition candidate_line (c : NiceCandidate) (ip base_ip : bytes) : bytes :=
  text "a=candidate:" ++ join 32 (candidate_tokens c ip base_ip).

Lemma generate_candidate_line c ip base_ip :
  zlen (foundation c) ≤ 32 → ip_string (addr c) = Done ip →
  (has_base c = true → ip_string (base_addr c) = Done base_ip) →
  generate_candidate_sdp c = Done (candidate_line c ip base_ip).
Proof.
  intros Hf Hip Hb. unfold generate_candidate_sdp. rewrite Hip. cbn [mbind outcome_bind].
  rewrite take_ge by (unfold zlen in Hf; change (Z.to_nat NICE_CANDIDATE_MAX_FOUNDATION) with 33%nat; lia).
  fold (has_base c). unfold candidate_line, candidate_tokens.
  destruct (has_base c); [rewrite Hb by done |]; cbn [mbind outcome_bind mret outcome_ret];
    f_equal; case_bool_decide; cbn [app join]; rewrite <- ?app_assoc; cbn [app]; rewrite ?app_nil_r;
    repeat (rewrite <- ?app_assoc; cbn [app]); reflexivity.
Qed.

Lemma set_typ v t : sdp_attribute (text "typ") v t = t <| t_type := Some v |>.
Proof. reflexivity. Qed.
Lemma set_raddr v t : sdp_attribute (text "raddr") v t = t <| t_raddr := Some v |>.
Proof. reflexivity. Qed.
Lemma set_rport v t : sdp_attribute (text "rport") v t = t <| t_rport := u16_of v |>.
Proof. reflexivity. Qed.
Lemma set_tcptype v t : sdp_attribute (text "tcptype") v t = t <| t_tcptype := Some v |>.
Proof. reflexivity. Qed.

Definition heard_tokens (c : NiceCandidate) (ip base_ip : bytes) : sdp_tokens := {|
  t_foundation := Some (foundation c);
  t_component_id := cand_component_id c;
  t_transport := Some (transport_to_sdp (transport c));
  t_priority := NiceCandidate.priority c;
  t_addr := Some ip;
  t_port := sdp_port (addr c);
  t_type := Some (cand_type_to_sdp (type c));
  t_raddr := if has_base c then Some base_ip else None;
  t_rport := if has_base c then sdp_port (base_addr c) else 0;
  t_tcptype := if bool_decide (transport c = NICE_CANDIDATE_TRANSPORT_UDP) then None
               else Some (transport_to_sdp_tcptype (transport c))
|}.
Lemma parse_candidate_tokens c ip base_ip : describable c →
  parse_tokens 0 (candidate_tokens c ip base_ip) no_tokens = Some (heard_tokens c ip base_ip).
Proof.
  intros []. unfold candidate_tokens, heard_tokens.
  assert (u32_of (show_d (cand_component_id c)) = cand_component_id c) as E1
    by (unfold u32_of; rewrite strtoull_show_d; by apply Z.mod_small).
  assert (u32_of (show_d (NiceCandidate.priority c)) = NiceCandidate.priority c) as E2
    by (unfold u32_of; rewrite strtoull_show_d; by apply Z.mod_small).
  pose proof (sdp_port_range (addr c) ds_addr0) as [Hp _]. pose proof (sdp_port_range (base_addr c) ds_base0) as [Hq _].
  destruct (has_base c); case_bool_decide; cbn [app parse_tokens];
    rewrite ?set_typ, ?set_raddr, ?set_rport, ?set_tcptype, E1, E2, !u16_of_show_d by done; reflexivity.
Qed.

Lemma sdp_type_to_sdp t : sdp_type (cand_type_to_sdp t) = Some t.
Proof. by destruct t. Qed.
Lemma sdp_transport_to_sdp t :
  sdp_transport (Some (transport_to_sdp t))
    (if bool_decide (t = NICE_CANDIDATE_TRANSPORT_UDP) then None else Some (transport_to_sdp_tcptype t)) = Some t.
Proof. by destruct t. Qed.

Lemma candidate_tokens_plain c ip base_ip : describable c → plain ip → plain base_ip →
  Forall plain (candidate_tokens c ip base_ip).
Proof.
  intros [[Hf _] _ _ _ _ _] Hip Hb. unfold candidate_tokens.
  assert (∀ s : bytes, forallb (λ x, negb (x =? 32) && negb (x =? 10)) s = true → plain s) as Hs.
  { intros s E. rewrite forallb_forall in E. split; intros H%list_elem_of_In%E; done. }
  repeat first [apply Forall_app; split | apply Forall_cons; split | apply Forall_nil | case_match
               | apply plain_show_d | done].
  all: apply Hs; first [done | by destruct (transport c) | by destruct (type c)].
Qed.

(** A line of a described candidate is one line, and the parser makes the
    candidate of it that the peer hears. *)
Lemma candidate_described sid c : describable c → 1 ≤ sid →
  ∃ line, generate_candidate_sdp c = Done line ∧ 10 ∉ line ∧
    g_str_has_prefix line (text "a=candidate:") = true ∧
    nice_agent_parse_remote_candidate_sdp sid line = Done (Some (heard sid c)).
Proof.
  intros Hc Hsid. pose proof Hc as [[Hf Hl] _ _ Ha Hv Hb].
  destruct (heard_address_spec (addr c) Ha Hv) as (ip & Hip & Hpl & Hsa & _).
  assert (∃ base_ip, plain base_ip ∧ (has_base c = true → ip_string (base_addr c) = Done base_ip ∧
    sdp_address base_ip (sdp_port (base_addr c)) = Some (heard_address (base_addr c)))) as (base_ip & Hpb & Hbs).
  { destruct (has_base c) eqn:E; [| exists []; split; [split; set_solver | done]].
    apply andb_true_iff in E as [E _].
    destruct (heard_address_spec (base_addr c) Hb E) as (bip & ? & ? & ? & _). exists bip. eauto. }
  exists (candidate_line c ip base_ip).
  pose proof (candidate_tokens_plain c ip base_ip Hc Hpl Hpb) as Hpt.
  assert (join 32 (candidate_tokens c ip base_ip) ≠ []) as Hne.
  { unfold candidate_tokens. cbn [app]. rewrite join_cons by done. by destruct (foundation c). }
  split_and!.
  - apply generate_candidate_line; [done | done | naive_solver].
  - unfold candidate_line. rewrite not_elem_of_app. split; [vm_compute; set_solver |].
    revert Hpt. generalize (candidate_tokens c ip base_ip). induction l as [| t l IH]; [set_solver |].
    intros [[_ Ht] Hr]%Forall_cons. destruct l as [| u l]; [done |]. rewrite join_cons by done.
    rewrite not_elem_of_app, not_elem_of_cons. auto.
  - apply has_prefix_app.
  - unfold nice_agent_parse_remote_candidate_sdp, candidate_line.
    cbn [ids_ok forallb]. rewrite (proj2 (Z.leb_le 1 sid)) by lia. cbn [andb negb].
    rewrite has_prefix_app. cbn [negb]. rewrite drop_app_length' by done.
    change (text " ") with [32]. unfold candidate_tokens at 1. cbn [app].
    rewrite g_strsplit_join; [| | exact Hne].
    2:{ eapply Forall_impl; [exact Hpt |]. by intros t [? _]. }
    pose proof (parse_candidate_tokens c ip base_ip Hc) as Et. unfold candidate_tokens in Et. cbn [app] in Et.
    rewrite Et. cbn [heard_tokens t_type t_transport t_tcptype mbind option_bind].
    rewrite sdp_type_to_sdp, sdp_transport_to_sdp. unfold sdp_candidate. cbn [heard_tokens t_foundation t_addr].
    cbn [heard_tokens t_port t_raddr t_rport t_component_id t_priority]. rewrite Hsa. cbn [mbind option_bind].
    unfold heard, g_strlcpy. rewrite take_ge by
      (unfold zlen in Hl; change (Z.to_nat (NICE_CANDIDATE_MAX_FOUNDATION - 1)) with 32%nat; lia).
    pose proof (sdp_port_range (base_addr c) Hb) as [_ Hq].
    destruct (has_base c) eqn:E; [| reflexivity]. destruct (Hbs eq_refl) as [_ Hbs'].
    rewrite (proj2 (Z.eqb_neq _ 0)) by done. rewrite Hbs'. reflexivity.
Qed.

End candidates.

(** ** Streams *)

(** The local candidates an agent describes. *)
Definition hidden (a : NiceAgent) (r : NiceCandidate) : bool :=
  force_relay a && negb (bool_decide (type r = NICE_CANDIDATE_TYPE_RELAYED)).
Definition known (a : NiceAgent) (l : list cptr) : list NiceCandidate := omap (λ c, candidates a !! c) l.
Definition described (a : NiceAgent) (s : NiceStream) : list NiceCandidate :=
  List.filter (λ r, negb (hidden a r)) (known a (concat (map local_candidates (components s)))).

Record stream_describable (a : NiceAgent) (s : NiceStream) : Prop := {
  sd_alive : ∀ k c, k ∈ components s → c ∈ local_candidates k → is_Some (candidates a !! c);
  sd_candidates : Forall describable (described a s);
  sd_ufrag : 10 ∉ local_ufrag s;
  sd_password : 10 ∉ local_password s;
  sd_name : ∀ n, stream_name s = Some n → 10 ∉ n
}.

(** Lines the parsers pass over, and lines of candidates. *)
Definition passed_over (l : bytes) : Prop :=
  g_str_has_prefix l (text "m=") = false ∧ g_str_has_prefix l (text "a=ice-ufrag:") = false ∧
  g_str_has_prefix l (text "a=ice-pwd:") = false ∧ g_str_has_prefix l (text "a=candidate:") = false.
Definition candidate_of {env : AgentEnv} (l : bytes) (c : NiceCandidate) : Prop :=
  (∃ t, l = text "a=candidate:" ++ t) ∧
  ∀ sid, 1 ≤ sid → nice_agent_parse_remote_candidate_sdp sid l = Done (Some (heard sid c)).

Lemma text_plain t : forallb (λ x, negb (x =? 10)) t = true → 10 ∉ t.
Proof. intros E H%list_elem_of_In. rewrite forallb_forall in E. by apply E in H. Qed.
Ltac one_line := rewrite ?not_elem_of_app; repeat split; try done; try (apply text_plain; reflexivity).

Section streams.
Context {env : AgentEnv} {hosts : NumericHosts env_resolver}.

Lemma candidate_line_of c : describable c →
  ∃ line, generate_candidate_sdp c = Done line ∧ 10 ∉ line ∧ candidate_of line c.
Proof.
  intros Hc. destruct (candidate_described 1 c Hc ltac:(lia)) as (line & E & Hn & Hp & _).
  exists line. split_and!; [done.. |]. split.
  - apply bool_decide_eq_true in Hp. exists (drop 12 line).
    rewrite <- (take_drop 12 line) at 1. f_equal. exact Hp.
  - intros sid Hsid. destruct (candidate_described sid c Hc Hsid) as (line' & E' & _ & _ & H).
    rewrite E in E'. by injection E' as ->.
Qed.

Lemma generate_candidates_lines a l : (∀ c, c ∈ l → is_Some (candidates a !! c)) →
  Forall describable (List.filter (λ r, negb (hidden a r)) (known a l)) →
  ∃ ls, generate_candidates (force_relay a) l a = Done (lines_text ls, a) ∧ Forall (λ t, 10 ∉ t) ls ∧
    Forall2 candidate_of ls (List.filter (λ r, negb (hidden a r)) (known a l)).
Proof.
  induction l as [| c l IH]; intros Ha Hd; [exists []; split_and!; [done | constructor.. ] |].
  destruct (Ha c) as [r Hr]; [set_solver |]. unfold known in Hd. cbn [omap list_omap] in Hd. rewrite Hr in Hd.
  cbn [List.filter] in Hd.
  destruct IH as (ls & E & Hn & H2); [set_solver | by destruct (negb (hidden a r)); [apply Forall_cons in Hd as [_ Hd] |] |].
  cbn [generate_candidates]. unfold cand_at at 1. unfold mbind, st_bind. rewrite Hr.
  unfold known. cbn [omap list_omap]. rewrite Hr. cbn [List.filter]. fold (hidden a r).
  destruct (hidden a r) eqn:Eh; cbn [negb] in *; [by exists ls |].
  apply Forall_cons in Hd as [Hc Hd]. destruct (candidate_line_of r Hc) as (line & El & Hl & Hof).
  exists (line :: ls). split_and!; [| by constructor | by constructor].
  unfold lift. rewrite El. cbn. change (generate_candidates (force_relay a) l a) with
    (generate_candidates (force_relay a) l a). rewrite E. cbn. unfold mret, st_ret. do 2 f_equal.
  unfold lines_text. cbn. by rewrite <- app_assoc.
Qed.

Lemma known_app a l l' : known a (l ++ l') = known a l ++ known a l'.
Proof. unfold known. apply omap_app. Qed.

Lemma generate_components_lines a ks :
  (∀ k c, k ∈ ks → c ∈ local_candidates k → is_Some (candidates a !! c)) →
  Forall describable (List.filter (λ r, negb (hidden a r)) (known a (concat (map local_candidates ks)))) →
  ∃ ls, generate_components (force_relay a) ks a = Done (lines_text ls, a) ∧ Forall (λ t, 10 ∉ t) ls ∧
    Forall2 candidate_of ls (List.filter (λ r, negb (hidden a r)) (known a (concat (map local_candidates ks)))).
Proof.
  induction ks as [| k ks IH]; intros Ha Hd; [exists []; split_and!; [done | constructor..] |].
  cbn [map concat] in *. rewrite known_app, List.filter_app in *. apply Forall_app in Hd as [Hd1 Hd2].
  destruct (generate_candidates_lines a (local_candidates k)) as (ls1 & E1 & Hn1 & H1);
    [intros c Hc; apply (Ha k); set_solver | done |].
  destruct IH as (ls2 & E2 & Hn2 & H2); [intros k' c Hk; apply Ha; set_solver | done |].
  exists (ls1 ++ ls2). split_and!; [| by apply Forall_app | by apply Forall2_app].
  cbn [generate_components]. unfold mbind, st_bind. rewrite E1. cbn. rewrite E2. cbn.
  unfold mret, st_ret. by rewrite lines_text_app.
Qed.

(** *** The default candidates *)

Definition usable (r : NiceCandidate) : Prop := describable r ∧ nice_address_ip_version (addr r) = 4.

Lemma default_rtp_usable a l best :
  (∀ c, c ∈ l → is_Some (candidates a !! c)) →
  (∀ c r, c ∈ l → candidates a !! c = Some r → hidden a r = false → describable r) →
  (∀ c r, best = Some (c, r) → usable r) →
  ∃ d, default_rtp (force_relay a) l best a = Done (d, a) ∧ ∀ c r, d = Some (c, r) → usable r.
Proof.
  revert best. induction l as [| c l IH]; intros best Ha Hd Hb; [by exists best |].
  destruct (Ha c) as [r Hr]; [set_solver |]. cbn [default_rtp]. unfold cand_at. unfold mbind, st_bind. rewrite Hr.
  fold (hidden a r).
  assert (∀ b, (∀ c r, b = Some (c, r) → usable r) → ∃ d, default_rtp (force_relay a) l b a = Done (d, a) ∧
    ∀ c r, d = Some (c, r) → usable r) as Hrest by (intros b Hb'; apply IH; [set_solver.. | done]).
  destruct (hidden a r) eqn:Eh; cbn [orb]; [by apply Hrest |].
  destruct (Z.eqb_spec (nice_address_ip_version (addr r)) 4) as [E4 |]; cbn [negb]; [| by apply Hrest].
  assert (usable r) as Hu by (split; [apply (Hd c); [set_solver | done..] | done]).
  destruct best as [[c' b] |]; [case_match |]; apply Hrest; try done; by intros ? ? [= -> ->].
Qed.

Lemma find_cand_spec P l a : (∀ c, c ∈ l → is_Some (candidates a !! c)) →
  ∃ d, find_cand P l a = Done (d, a) ∧
    ∀ c, d = Some c → c ∈ l ∧ ∃ r, candidates a !! c = Some r ∧ P c r = true.
Proof.
  induction l as [| c l IH]; intros Ha; [by exists None |].
  destruct (Ha c) as [r Hr]; [set_solver |]. cbn [find_cand]. unfold cand_at. unfold mbind, st_bind. rewrite Hr.
  destruct (P c r) eqn:E; [exists (Some c); split; [done |]; intros ? [= <-]; split; [set_solver | eauto] |].
  destruct IH as (d & Ed & Hd); [set_solver |]. exists d. split; [done |]. intros c' Hc'.
  destruct (Hd c' Hc') as [? ?]. split; [set_solver | done].
Qed.

Lemma component_describable a s k : stream_describable a s → k ∈ components s →
  (∀ c, c ∈ local_candidates k → is_Some (candidates a !! c)) ∧
  (∀ c r, c ∈ local_candidates k → candidates a !! c = Some r → hidden a r = false → describable r).
Proof.
  intros [Ha Hd _ _ _] Hk. split; [intros c; by apply Ha |]. intros c r Hc Hr Hh.
  rewrite Forall_forall in Hd. apply Hd. unfold described. apply list_elem_of_In, filter_In. rewrite Hh. split; [| done].
  apply list_elem_of_In. unfold known. apply list_elem_of_omap. exists c. split; [| done].
  apply list_elem_of_In, in_concat. exists (local_candidates k).
  split; [apply in_map |]; by apply list_elem_of_In.
Qed.

Lemma default_candidate_usable a sid s k : agent_find_stream a sid = Some s → stream_describable a s →
  k ∈ components s →
  ∃ d, get_default_local_candidate_locked sid (c_id k) a = Done (d, a) ∧ ∀ c r, d = Some (c, r) → usable r.
Proof.
  intros Hs Hd Hk.
  assert (∃ k', nice_stream_find_component_by_id s (c_id k) = Some k' ∧ k' ∈ components s) as (k' & Ek & Hk').
  { unfold nice_stream_find_component_by_id. destruct (List.find _ _) eqn:E.
    - eexists; split; [done |]. apply find_some in E as [? _]. by apply list_elem_of_In.
    - exfalso. apply list_elem_of_In in Hk. pose proof (find_none _ _ E k Hk) as Hne. cbn in Hne.
      by rewrite Z.eqb_refl in Hne. }
  unfold get_default_local_candidate_locked. unfold mbind, st_bind, get, comp_at.
  unfold agent_find_component. rewrite Hs. cbn [mbind option_bind]. rewrite Ek. cbn [mret option_ret].
  destruct (component_describable a s k' Hd Hk') as [Ha Hde].
  destruct (Z.eqb_spec (c_id k) NICE_COMPONENT_TYPE_RTP); [by apply default_rtp_usable |].
  cbn [mbind option_bind mret option_ret]. rewrite Hs. cbn [mbind option_bind].
  destruct (nice_stream_find_component_by_id s NICE_COMPONENT_TYPE_RTP) as [kr |] eqn:Er; [cbn [mbind option_bind mret option_ret] | by exists None].
  assert (kr ∈ components s) as Hkr.
  { unfold nice_stream_find_component_by_id in Er. apply find_some in Er as [? _]. by apply list_elem_of_In. }
  destruct (component_describable a s kr Hd Hkr) as [Har Hder].
  destruct (default_rtp_usable a (local_candidates kr) None Har Hder) as (d & -> & Hu); [done |].
  destruct d as [[cr r] |]; [| by exists None]. unfold default_other. unfold mbind, st_bind.
  destruct (find_cand_spec (λ _ r0, negb (force_relay a && negb (bool_decide (type r0 = NICE_CANDIDATE_TYPE_RELAYED))) &&
    (nice_address_ip_version (addr r0) =? 4) && bool_decide (foundation r0 = foundation r)) (local_candidates k') a Ha)
    as (o & -> & Ho).
  destruct o as [c |]; [| by exists None]. destruct (Ho c eq_refl) as (Hin & q & Hq & Hp).
  unfold cand_at. rewrite Hq. exists (Some (c, q)). split; [done |]. intros ? ? [= <- <-].
  apply andb_true_iff in Hp as [[Hh H4]%andb_true_iff _]. split; [| by apply Z.eqb_eq].
  apply (Hde c); [done.. |]. fold (hidden a q) in Hh. by destruct (hidden a q).
Qed.

Definition v4_ok (a : NiceAddress) : Prop := address_ok a ∧ nice_address_ip_version a = 4.
Lemma usable_v4 r : usable r → v4_ok (addr r).
Proof. intros [[] ?]. by split. Qed.
Lemma v4_valid a : nice_address_ip_version a = 4 → nice_address_is_valid a = true.
Proof.
  unfold nice_address_ip_version, nice_address_is_valid. destruct (sa_family a =? AF_INET); [done |].
  by destruct (sa_family a =? AF_INET6).
Qed.

Lemma default_addresses_ok a sid s ks rtp rtcp : agent_find_stream a sid = Some s → stream_describable a s →
  (∀ k, k ∈ ks → k ∈ components s) → v4_ok rtp → v4_ok rtcp →
  ∃ x y, default_addresses sid ks rtp rtcp a = Done ((x, y), a) ∧ v4_ok x ∧ v4_ok y.
Proof.
  intros Hs Hd. revert rtp rtcp. induction ks as [| k ks IH]; intros rtp rtcp Hk Hx Hy; [by exists rtp, rtcp |].
  cbn [default_addresses].
  destruct (default_candidate_usable a sid s k Hs Hd) as (d & Ed & Hu); [apply Hk; set_solver |].
  assert (∀ z, v4_ok z → v4_ok (match d with Some (_, r) => addr r | None => z end)) as Hz.
  { intros z Hz. destruct d as [[c r] |]; [by eapply usable_v4, Hu | done]. }
  assert (∀ k, k ∈ ks → k ∈ components s) as Hks by set_solver.
  destruct (c_id k =? NICE_COMPONENT_TYPE_RTP); [| destruct (c_id k =? NICE_COMPONENT_TYPE_RTCP); [| by apply IH]];
    unfold mbind, st_bind; rewrite Ed; apply IH; auto.
Qed.

(** *** The lines of a stream *)

Lemma generate_media_lines a sid s : agent_find_stream a sid = Some s → stream_describable a s →
  ∃ m rest, generate_media_sdp sid s a = Done (lines_text (m :: rest), a) ∧ Forall (λ t, 10 ∉ t) (m :: rest) ∧
    (∃ t, m = text "m=" ++ t) ∧ Forall passed_over rest.
Proof.
  intros Hs Hd. unfold generate_media_sdp. unfold mbind, st_bind.
  set (any := nice_address_set_ipv4 (nice_address_init zero_address) 0).
  assert (v4_ok any) as Hany.
  { split; [| done]. split; cbn; unfold is_u16, is_u32; try done.
    unfold bytes_ok. repeat constructor; unfold is_u8; lia. }
  destruct (default_addresses_ok a sid s (components s) any any Hs Hd) as (rtp & rtcp & -> & [Ho H4] & _); [done.. |].
  destruct (heard_address_spec rtp Ho (v4_valid _ H4)) as (ip & Hip & [_ Hpl] & _).
  unfold lift. rewrite Hip. set (rp := show_d (nice_address_get_port rtp)).
  set (name := match stream_name s with Some n => n | None => text "-" end).
  assert (10 ∉ name) as Hname.
  { unfold name. destruct (stream_name s) eqn:E; [by apply (sd_name _ _ Hd) | by apply text_plain]. }
  assert (10 ∉ rp) as Hrp by apply plain_show_d.
  exists (text "m=" ++ name ++ text " " ++ rp ++ text " ICE/SDP"),
    ((text "c=IN IP4 " ++ ip) :: (if nice_address_get_port rtcp =? 0 then []
       else [text "a=rtcp:" ++ show_d (nice_address_get_port rtcp)])).
  split_and!.
  - unfold mret, st_ret, lines_text. do 2 f_equal. destruct (nice_address_get_port rtcp =? 0);
      cbn [map concat app]; repeat (rewrite <- ?app_assoc; cbn [app]); reflexivity.
  - apply Forall_cons. split; [one_line |]. apply Forall_cons. split; [one_line |].
    destruct (nice_address_get_port rtcp =? 0); constructor; [| constructor]. one_line. apply plain_show_d.
  - eauto.
  - apply Forall_cons. split; [done |]. destruct (nice_address_get_port rtcp =? 0); constructor; [done | constructor].
Qed.

Lemma generate_stream_lines a sid s incl : agent_find_stream a sid = Some s → stream_describable a s →
  ∃ media cl, generate_stream_sdp sid incl a =
      Done (lines_text (media ++ [text "a=ice-ufrag:" ++ local_ufrag s; text "a=ice-pwd:" ++ local_password s] ++ cl), a) ∧
    Forall (λ t, 10 ∉ t) (media ++ cl) ∧ Forall2 candidate_of cl (described a s) ∧
    (if incl : bool then ∃ m rest, media = m :: rest ∧ (∃ t, m = text "m=" ++ t) ∧ Forall passed_over rest
     else media = []).
Proof.
  intros Hs Hd. unfold generate_stream_sdp. unfold mbind, st_bind, stream_at. rewrite Hs. cbn [st_bind].
  destruct (generate_components_lines a (components s)) as (cl & Ecl & Hn & H2);
    [intros k c; apply (sd_alive _ _ Hd) | apply (sd_candidates _ _ Hd) |].
  assert (∃ media, (if incl then generate_media_sdp sid s else mret []) a = Done (lines_text media, a) ∧
    Forall (λ t, 10 ∉ t) media ∧ (if incl : bool then ∃ m rest, media = m :: rest ∧ (∃ t, m = text "m=" ++ t) ∧
      Forall passed_over rest else media = [])) as (media & -> & Hm & Hi).
  { destruct incl; [| by exists []]. destruct (generate_media_lines a sid s Hs Hd) as (m & rest & ? & ? & ? & ?).
    exists (m :: rest). eauto 10. }
  exists media, cl. unfold get. rewrite Ecl. split_and!; [| by apply Forall_app | done | done].
  unfold mret, st_ret. rewrite !lines_text_app. do 3 f_equal. unfold lines_text. cbn [map concat app].
  repeat (rewrite <- ?app_assoc; cbn [app]); reflexivity.
Qed.
End streams.

(** ** What the peer makes of it *)

(** The description of one stream. *)
Record description := {
  m_ufrag : bytes;
  m_password : bytes;
  m_candidates : list NiceCandidate
}.
Definition describes (a : NiceAgent) (s : NiceStream) : description :=
  {| m_ufrag := local_ufrag s; m_password := local_password s; m_candidates := described a s |}.

Section receive.
Context {env : AgentEnv}.

(** The candidates of a description are given to the [i]-th stream one by one;
    [None]: one is for a component that is not there. *)
Definition receive_candidate (sid : Z) (d : NiceCandidate) : M (option Z) :=
  a ← get (λ a, a);
  match agent_find_component a (cand_stream_id d) (cand_component_id d) with
  | None => mret None
  | Some (_, k) =>
      added ← set_remote_candidates_locked sid (c_id k) [d];
      mret (Some (if 0 <? added then 1 else 0))
  end.
Fixpoint receive_candidates (i : nat) (cs : list NiceCandidate) (ret : Z) : M (option Z) :=
  match cs with
  | [] => mret (Some ret)
  | c :: cs =>
      a ← get (λ a, a);
      match streams a !! i with
      | Some s =>
          if 1 <=? s_id s then
            n ← receive_candidate (s_id s) (heard (s_id s) c);
            match n with None => mret None | Some n => receive_candidates i cs (ret + n) end
          else mret None
      | None => mret None
      end
  end.
(** Descriptions go to the streams from the [i]-th on, in order: credentials,
    then candidates. *)
Fixpoint receive_streams (i : nat) (l : list description) (ret : Z) : M Z :=
  match l with
  | [] => mret ret
  | m :: l =>
      a ← get (λ a, a);
      match streams a !! i with
      | None => mret (-1)
      | Some s =>
          _ ← upd_stream (s_id s) (λ s, s <| remote_ufrag := take 256 (m_ufrag m) |>);
          _ ← upd_stream (s_id s) (λ s, s <| remote_password := take 256 (m_password m) |>);
          r ← receive_candidates i (m_candidates m) ret;
          match r with None => mret (-1) | Some ret => receive_streams (S i) l ret end
      end
  end.

(** *** One stream *)

Lemma parse_stream_candidates sid cl cs u p acc uf pw : Forall2 candidate_of cl cs → 1 ≤ sid →
  parse_stream_lines sid u p (cl ++ [[]]) acc uf pw = Done (rev (map (heard sid) cs) ++ acc, uf, pw).
Proof.
  intros H Hsid. revert acc. induction H as [| l c cl cs [[t ->] Hp] _ IH]; intros acc.
  - cbn. by destruct u, p.
  - cbn [app parse_stream_lines].
    change (g_str_has_prefix (text "a=candidate:" ++ t) (text "a=ice-ufrag:")) with false.
    change (g_str_has_prefix (text "a=candidate:" ++ t) (text "a=ice-pwd:")) with false.
    rewrite !andb_false_r, has_prefix_app, (Hp sid Hsid). cbn [mbind outcome_bind]. rewrite IH. cbn [map rev].
    by rewrite <- app_assoc.
Qed.
Lemma parse_stream_skip sid u p skip lines acc uf pw :
  Forall (λ l, g_str_has_prefix l (text "a=ice-ufrag:") = false ∧ g_str_has_prefix l (text "a=ice-pwd:") = false ∧
    g_str_has_prefix l (text "a=candidate:") = false) skip →
  parse_stream_lines sid u p (skip ++ lines) acc uf pw = parse_stream_lines sid u p lines acc uf pw.
Proof.
  induction 1 as [| l skip (H1 & H2 & H3) _ IH]; [done |]. cbn [app parse_stream_lines].
  by rewrite H1, H2, H3, !andb_false_r.
Qed.

(** *** The whole agent *)

Lemma current_upd_stream f sid i b b' x : (∀ s, s_id (f s) = s_id s) → upd_stream sid f b = Done (x, b') →
  current_stream b' (Some i) = current_stream b (Some i).
Proof.
  intros Hf [= <- <-]. unfold current_stream. cbn. revert i. generalize (streams b).
  induction l as [| s l IH]; intros i; cbn; [done |]. destruct (s_id s =? sid); destruct i; cbn; by rewrite ?Hf.
Qed.

Lemma parse_candidate_lines cl cs rest i : Forall2 candidate_of cl cs → ∀ ret b,
  parse_lines (cl ++ rest) (Some i) ret b =
  (r ← receive_candidates i cs ret;
   match r with None => mret (-1) | Some ret => parse_lines rest (Some i) ret end) b.
Proof.
  induction 1 as [| l c cl cs [[t ->] Hp] _ IH]; intros ret b; [done |].
  cbn [app parse_lines receive_candidates]. unfold mbind, st_bind, get at 1.
  change (g_str_has_prefix (text "a=candidate:" ++ t) (text "m=")) with false.
  change (g_str_has_prefix (text "a=candidate:" ++ t) (text "a=ice-ufrag:")) with false.
  change (g_str_has_prefix (text "a=candidate:" ++ t) (text "a=ice-pwd:")) with false.
  rewrite has_prefix_app. unfold get. unfold current_stream. cbn [mbind option_bind].
  destruct (streams b !! i) as [s |]; [| done]. cbn [fmap option_fmap option_map].
  unfold parse_candidate_line, receive_candidate. unfold mbind, st_bind, lift.
  destruct (Z.leb_spec 1 (s_id s)) as [Hs | Hs].
  - rewrite Hp by lia. generalize (heard (s_id s) c). intros d. unfold get, mret, st_ret. cbn [mbind outcome_bind].
    destruct (agent_find_component b (cand_stream_id d) (cand_component_id d)) as [[s' k] |]; [| done].
    destruct (set_remote_candidates_locked (s_id s) (c_id k) [d] b) as [[n b'] | |]; [| done..].
    cbn. rewrite IH. reflexivity.
  - unfold nice_agent_parse_remote_candidate_sdp. cbn [ids_ok forallb].
    rewrite (proj2 (Z.leb_gt 1 (s_id s))) by lia. reflexivity.
Qed.

Lemma parse_skip skip rest item : Forall passed_over skip → ∀ ret b,
  parse_lines (skip ++ rest) item ret b = parse_lines rest item ret b.
Proof.
  induction 1 as [| l skip (H1 & H2 & H3 & H4) _ IH]; intros ret b; [done |].
  cbn [app parse_lines]. unfold mbind, st_bind, get. by rewrite H1, H2, H3, H4.
Qed.

Lemma parse_media_line t rest item ret b : parse_lines ((text "m=" ++ t) :: rest) item ret b =
  if decide (next_item item < length (streams b))%nat then parse_lines rest (Some (next_item item)) ret b
  else Done (-1, b).
Proof.
  cbn [parse_lines]. unfold mbind, st_bind, get. rewrite has_prefix_app. cbv beta iota.
  by destruct (decide _).
Qed.
Lemma parse_ufrag_line t rest item ret b : parse_lines ((text "a=ice-ufrag:" ++ t) :: rest) item ret b =
  match current_stream b item with
  | None => Done (-1, b)
  | Some sid => (_ ← upd_stream sid (λ s, s <| remote_ufrag := take 256 t |>); parse_lines rest item ret) b
  end.
Proof.
  cbn [parse_lines]. unfold mbind, st_bind, get. rewrite has_prefix_app.
  change (g_str_has_prefix (text "a=ice-ufrag:" ++ t) (text "m=")) with false. cbv beta iota.
  by destruct (current_stream b item).
Qed.
Lemma parse_pwd_line t rest item ret b : parse_lines ((text "a=ice-pwd:" ++ t) :: rest) item ret b =
  match current_stream b item with
  | None => Done (-1, b)
  | Some sid => (_ ← upd_stream sid (λ s, s <| remote_password := take 256 t |>); parse_lines rest item ret) b
  end.
Proof.
  cbn [parse_lines]. unfold mbind, st_bind, get. rewrite has_prefix_app.
  change (g_str_has_prefix (text "a=ice-pwd:" ++ t) (text "m=")) with false.
  change (g_str_has_prefix (text "a=ice-pwd:" ++ t) (text "a=ice-ufrag:")) with false. cbv beta iota.
  by destruct (current_stream b item).
Qed.

Lemma parse_one_stream tm skip uf pw cl cs rest item ret b :
  Forall passed_over skip → Forall2 candidate_of cl cs →
  parse_lines ((text "m=" ++ tm) :: skip ++ [text "a=ice-ufrag:" ++ uf; text "a=ice-pwd:" ++ pw] ++ cl ++ rest) item ret b =
  (a ← get (λ a, a);
   match streams a !! next_item item with
   | None => mret (-1)
   | Some s =>
       _ ← upd_stream (s_id s) (λ s, s <| remote_ufrag := take 256 uf |>);
       _ ← upd_stream (s_id s) (λ s, s <| remote_password := take 256 pw |>);
       r ← receive_candidates (next_item item) cs ret;
       match r with None => mret (-1) | Some ret => parse_lines rest (Some (next_item item)) ret end
   end) b.
Proof.
  intros Hs Hc. rewrite parse_media_line. unfold mbind, st_bind, get.
  destruct (decide (next_item item < length (streams b))%nat) as [Hi | Hi].
  2:{ by rewrite (proj2 (lookup_ge_None _ _)) by lia. }
  destruct (lookup_lt_is_Some_2 _ _ Hi) as [s Es]. rewrite Es, parse_skip by done. cbn [app].
  rewrite parse_ufrag_line. unfold current_stream at 1. cbn [mbind option_bind]. rewrite Es.
  cbn [fmap option_fmap option_map]. unfold mbind, st_bind.
  destruct (upd_stream (s_id s) _ b) as [[[] b'] | |] eqn:E1; [| done..].
  assert (current_stream b' (Some (next_item item)) = current_stream b (Some (next_item item))) as Ecur
    by (eapply current_upd_stream; [| exact E1]; done).
  rewrite parse_pwd_line, Ecur. unfold current_stream. cbn [mbind option_bind]. rewrite Es.
  cbn [fmap option_fmap option_map]. unfold mbind, st_bind.
  destruct (upd_stream _ _ b') as [[[] b''] | |]; [| done..]. by apply parse_candidate_lines.
Qed.
End receive.

Section exchange.
Context {env : AgentEnv} {hosts : NumericHosts env_resolver}.

Lemma find_own_stream (l : list NiceStream) s : NoDup (map s_id l) → s ∈ l →
  List.find (λ t, s_id t =? s_id s) l = Some s.
Proof.
  induction l as [| t l IH]; intros Hnd Hs; [set_solver |]. cbn in Hnd |- *. apply NoDup_cons in Hnd as [Hn Hd].
  apply elem_of_cons in Hs as [-> | Hs]; [by rewrite Z.eqb_refl |].
  destruct (Z.eqb_spec (s_id t) (s_id s)) as [E |]; [| by apply IH].
  exfalso. apply Hn. rewrite E. apply list_elem_of_In, in_map. by apply list_elem_of_In.
Qed.

Lemma generate_streams_lines a l : NoDup (map s_id (streams a)) → l ⊆ streams a →
  Forall (stream_describable a) l →
  ∃ ls, generate_streams (map s_id l) a = Done (lines_text ls, a) ∧ Forall (λ t, 10 ∉ t) ls ∧
    (l = [] ↔ ls = []) ∧
    ∀ item ret b, parse_lines (ls ++ [[]]) item ret b = receive_streams (next_item item) (map (describes a) l) ret b.
Proof.
  intros Hn. induction l as [| s l IH]; intros Hin Hd; [by exists [] |].
  apply Forall_cons in Hd as [Hs Hd]. destruct IH as (ls & E & Hnl & Hem & Hp); [set_solver | done |].
  destruct (generate_stream_lines a (s_id s) s true) as (media & cl & Es & Hnm & H2 & m & skip & -> & [tm ->] & Hsk);
    [apply find_own_stream; [done | set_solver] | done |].
  eexists. split; [cbn [map generate_streams]; unfold mbind, st_bind; rewrite Es, E;
    unfold mret, st_ret; by rewrite <- lines_text_app |].
  apply Forall_app in Hnm as [Hnm Hncl]. split_and!.
  - repeat first [apply Forall_app; split | apply Forall_cons; split | apply Forall_nil]; try done.
    + by apply Forall_cons in Hnm as [? _].
    + by apply Forall_cons in Hnm as [_ ?].
    + one_line. apply (sd_ufrag _ _ Hs).
    + one_line. apply (sd_password _ _ Hs).
  - by split.
  - intros item ret b. rewrite <- !app_assoc.
    rewrite <- app_comm_cons. rewrite (parse_one_stream _ _ _ _ _ _ _ _ _ _ Hsk H2).
    cbn [map receive_streams describes m_ufrag m_password m_candidates].
    unfold mbind, st_bind, get. destruct (streams b !! next_item item) as [s' |]; [| done].
    destruct (upd_stream _ _ b) as [[[] b'] | |]; [| done..].
    destruct (upd_stream _ _ b') as [[[] b''] | |]; [| done..].
    destruct (receive_candidates _ _ _ b'') as [[[r |] b3] | |]; [| done..]. rewrite Hp.
    done.
Qed.

(** C8: what an agent describes is what its peer hears.  Of any agent whose
    candidates fit their types and whose names and credentials are single lines,
    the description is generated; a peer that parses it gives its streams, in
    order, the credentials and exactly the candidates described - a candidate
    for a component it does not have, or a stream too many, is an error; parsed
    for one stream the description yields its credentials and its candidates,
    the last first; and a candidate is heard with its type, transport,
    component, priority and foundation, and with its address. *)
Theorem sdp_exchange (a : NiceAgent) (Hids : NoDup (map s_id (streams a)))
    (Hd : Forall (stream_describable a) (streams a)) :
  (∃ sdp, nice_agent_generate_local_sdp a = Done (sdp, a) ∧
     ∀ b, nice_agent_parse_remote_sdp sdp b = receive_streams 0 (map (describes a) (streams a)) 0 b) ∧
  (∀ s non_ice, s ∈ streams a → 1 ≤ s_id s → ∃ sdp,
     nice_agent_generate_local_stream_sdp (s_id s) non_ice a = Done (Some sdp, a) ∧
     ∀ b t sid, agent_find_stream b sid = Some t → 1 ≤ sid →
       nice_agent_parse_remote_stream_sdp b sid sdp true true =
       Done (rev (map (heard sid) (described a s)), Some (local_ufrag s), Some (local_password s))) ∧
  (∀ s c sid, s ∈ streams a → c ∈ described a s →
     type (heard sid c) = type c ∧ transport (heard sid c) = transport c ∧
     cand_component_id (heard sid c) = cand_component_id c ∧ cand_stream_id (heard sid c) = sid ∧
     NiceCandidate.priority (heard sid c) = NiceCandidate.priority c ∧ foundation (heard sid c) = foundation c ∧
     nice_address_equal (addr (heard sid c)) (nice_address_set_port (addr c) (sdp_port (addr c))) = true).
Proof.
  split_and!.
  - destruct (generate_streams_lines a (streams a) Hids) as (ls & E & Hn & Hem & Hp); [done | done |].
    exists (lines_text ls). split.
    { unfold nice_agent_generate_local_sdp, stream_ids. unfold mbind, st_bind, get, mret, st_ret. exact E. }
    intros b. unfold nice_agent_parse_remote_sdp. destruct (streams a) as [| s l].
    + rewrite (proj1 Hem) by done. done.
    + rewrite split_lines; [| done | intros Hls; by apply Hem in Hls]. rewrite Hp. done.
  - intros s non_ice Hs Hid. rewrite Forall_forall in Hd. pose proof (Hd s Hs) as Hsd.
    assert (agent_find_stream a (s_id s) = Some s) as Hf by by apply find_own_stream.
    destruct (generate_stream_lines a (s_id s) s non_ice Hf Hsd) as (media & cl & E & Hn & H2 & Hi).
    exists (lines_text (media ++ [text "a=ice-ufrag:" ++ local_ufrag s; text "a=ice-pwd:" ++ local_password s] ++ cl)).
    split.
    { unfold nice_agent_generate_local_stream_sdp. unfold mbind, st_bind, get. cbn [ids_ok forallb].
      rewrite (proj2 (Z.leb_le 1 (s_id s))) by lia. cbn [andb negb]. by rewrite Hf, E. }
    intros b t sid Ht Hsid. unfold nice_agent_parse_remote_stream_sdp. cbn [ids_ok forallb].
    rewrite (proj2 (Z.leb_le 1 sid)) by lia. cbn [andb negb]. rewrite Ht.
    assert (s_id t = sid) as ->.
    { apply find_some in Ht as [_ Ht]. by apply Z.eqb_eq in Ht. }
    apply Forall_app in Hn as [Hn1 Hn2]. rewrite split_lines.
    + rewrite <- app_assoc, parse_stream_skip.
      2:{ destruct non_ice; [| rewrite Hi; constructor]. destruct Hi as (m & skip & -> & [tm ->] & Hsk).
          constructor; [done |]. eapply Forall_impl; [exact Hsk |]. intros l (? & ? & ? & ?). done. }
      cbn [app parse_stream_lines]. rewrite !has_prefix_app. cbn [andb].
      change (g_str_has_prefix (text "a=ice-pwd:" ++ local_password s) (text "a=ice-ufrag:")) with false. cbn iota.
      rewrite (parse_stream_candidates sid cl (described a s)) by done. by rewrite app_nil_r.
    + repeat first [apply Forall_app; split | apply Forall_cons; split | apply Forall_nil]; try done.
      * one_line. apply (sd_ufrag _ _ Hsd).
      * one_line. apply (sd_password _ _ Hsd).
    + by destruct media.
  - intros s c sid Hs Hc. rewrite Forall_forall in Hd. pose proof (sd_candidates _ _ (Hd s Hs)) as Hcs.
    rewrite Forall_forall in Hcs. destruct (Hcs c Hc) as [_ _ _ Ha Hv _].
    destruct (heard_address_spec (addr c) Ha Hv) as (ip & _ & _ & _ & He). done.
Qed.
End exchange.
