(* ===== verification/SdpDemo.v ===== *)
(** * A numeric resolver and an agent with something to describe

    Two letters for an octet: a C library whose numeric hosts are read back, and
    a stream with a host, a TCP and a relayed candidate. *)

From stdpp Require Import gmap.
From S2P Require Import Prelude Bytes StateMonad StunMessage StunHmac StunAgent StunAgentTrans NiceAddress NiceCandidate IceAgent CheckList CheckTick CheckInbound CheckDemo GStr AgentApi Sdp SdpFacts.
From Stdlib Require String.
Import String.StringSyntax.
#[global] Open Scope Z_scope.

Fixpoint letters (s : bytes) : bytes :=
  match s with [] => [] | b :: s => 65 + b / 16 :: 65 + b mod 16 :: letters s end.
Fixpoint octets (s : bytes) : option bytes :=
  match s with
  | [] => Some []
  | h :: l :: s => r ← octets s; Some (16 * (h - 65) + (l - 65) :: r)
  | _ => None
  end.
Definition letter_resolver : Resolver := {|
  inet_ntop _ a := letters a;
  getaddrinfo s :=
    b ← octets s;
    match length b with
    | 4%nat => Some (Build_NiceAddress AF_INET 0 (of_le b) (repeat 0 16) 0)
    | 16%nat => Some (Build_NiceAddress AF_INET6 0 0 b 0)
    | _ => None
    end
|}.

Lemma octets_letters s : bytes_ok s → octets (letters s) = Some s.
Proof.
  induction 1 as [| b s Hb _ IH]; [done |]. cbn [letters octets]. rewrite IH. cbn. do 2 f_equal.
  pose proof (Z.div_mod b 16). unfold is_u8 in Hb. lia.
Qed.
Lemma letters_plain s : bytes_ok s → plain (letters s).
Proof.
  intros Hs. apply (plain_forall _ (λ x, 65 ≤ x)); [| lia..].
  induction Hs as [| b s Hb _ IH]; cbn [letters]; repeat constructor; [.. | done];
    unfold is_u8 in Hb; [pose proof (Z.div_pos b 16) | pose proof (Z.mod_pos_bound b 16)]; lia.
Qed.

#[export] Instance letter_hosts : NumericHosts letter_resolver.
Proof.
  constructor. intros a ip [] Hip. unfold nice_address_to_string in Hip. cbn [inet_ntop letter_resolver] in Hip.
  destruct (Z.eqb_spec (sa_family a) AF_INET) as [E4 | E4];
    [| destruct (Z.eqb_spec (sa_family a) AF_INET6) as [E6 | E6]]; [..| done]; apply (inj Some) in Hip as <-.
  - split; [apply letters_plain, le_ok |]. eexists. split_and!.
    + cbn [getaddrinfo letter_resolver]. rewrite octets_letters by apply le_ok. cbn [mbind option_bind].
      rewrite length_le. reflexivity.
    + rewrite of_le_le. constructor; cbn [sa_port sa_word s6_addr sin6_scope_id]; [by_compute | | by_compute..].
      unfold is_u32. apply Z.mod_pos_bound. lia.
    + unfold nice_address_equal_no_port. cbn [sa_family sa_word]. rewrite E4, of_le_le. cbn [Z.eqb negb].
      change (AF_INET =? AF_INET) with true. cbn. apply Z.eqb_eq. by apply Z.mod_small.
  - split; [by apply letters_plain |]. eexists. split_and!.
    + cbn [getaddrinfo letter_resolver]. rewrite octets_letters by done. cbn [mbind option_bind].
      assert (length (s6_addr a) = 16%nat) as -> by (unfold zlen in ok_addr6_len; lia). reflexivity.
    + constructor; cbn [sa_port sa_word s6_addr sin6_scope_id]; [by_compute | by_compute | done | done | by_compute].
    + unfold nice_address_equal_no_port. cbn [sa_family s6_addr]. rewrite E6.
      change (AF_INET6 =? AF_INET6) with true. change (AF_INET6 =? AF_INET) with false. cbn [negb].
      unfold IN6_ARE_ADDR_EQUAL, scopes_match. cbn [sin6_scope_id]. rewrite bool_decide_eq_true_2 by done.
      done.
Qed.

#[export] Instance sdp_env : AgentEnv := {|
  env_crypto := toy_crypto;
  PACKAGE_STRING := text "libnice";
  env_resolver := letter_resolver;
  env_interfaces := demo_interfaces;
  socket_type _ := NICE_SOCKET_TYPE_UDP_BSD;
  nice_socket_is_reliable _ := false;
  socket_addr s := demo_host s;
  socket_has_fileno _ := true;
  nice_tcp_active_socket_connect _ _ := None;
  transid n := be 4 n ++ repeat 0 12;
  rng_int n low high := low + n mod (high - low);
  rng_bytes n len := repeat (n mod 256) (Z.to_nat len);
  g_base64_decode b := b;
  g_base64_encode b := b
|}.

(** A host, a passive TCP and a relayed candidate. *)
Definition sdp_agent : NiceAgent :=
  (demo_ice 100) <| streams := [demo_stream <| stream_name := Some (text "audio") |>
      <| local_ufrag := text "abcd" |> <| local_password := text "efghijklmnopqrstuvwxyz" |>
      <| components := [demo_component <| local_candidates := [1; 2; 3]%positive |> <| remote_candidates := [] |>] |>] |>
    <| candidates := list_to_map
         [(1%positive, demo_local 1 2130706431);
          (2%positive, (demo_local 2 4294967295) <| transport := NICE_CANDIDATE_TRANSPORT_TCP_PASSIVE |>);
          (3%positive, (demo_local 3 100) <| type := NICE_CANDIDATE_TYPE_RELAYED |> <| base_addr := demo_host 9 |>)] |>.

Ltac describe := constructor; [split; [split |] | | | constructor | | constructor]; by_compute.

Lemma sdp_agent_describable : Forall (stream_describable sdp_agent) (streams sdp_agent).
Proof.
  constructor; [| constructor]. constructor.
  - intros k c Hk Hc. apply list_elem_of_singleton in Hk as ->.
    revert Hc. cbn. rewrite !elem_of_cons, elem_of_nil. intros [-> | [-> | [-> | []]]]; by eexists.
  - let l := eval vm_compute in (known sdp_agent [1; 2; 3]%positive) in change (Forall describable l).
    repeat (apply Forall_cons; split); [describe.. | constructor].
  - by_compute.
  - by_compute.
  - intros n [= <-]. by_compute.
Qed.

Lemma sdp_exchange_witness : ∃ sdp, nice_agent_generate_local_sdp sdp_agent = Done (sdp, sdp_agent) ∧
  ∀ b, nice_agent_parse_remote_sdp sdp b =
    receive_streams 0 (map (describes sdp_agent) (streams sdp_agent)) 0 b.
Proof.
  apply (@sdp_exchange sdp_env letter_hosts sdp_agent); [by_compute | apply sdp_agent_describable].
Defined.

(** ** Hazards *)

(** A TCP candidate without [tcptype] is taken as simultaneous-open: the
    comparison of [NULL] with a string is 0. *)
Example tcp_without_tcptype :
  match nice_agent_parse_remote_candidate_sdp 1
      (text "a=candidate:1 1 TCP 100 " ++ letters [192; 168; 0; 1] ++ text " 9 typ host") with
  | Done (Some c) => transport c = NICE_CANDIDATE_TRANSPORT_TCP_SO
  | _ => False
  end.
Proof. vm_compute. reflexivity. Qed.

(** [%d] prints a priority of 2^31 and more as a negative number. *)
Example priority_printed_negative :
  match generate_candidate_sdp ((demo_local 2 4294967295) <| foundation := text "f" |>) with
  | Done l => take 22 l = text "a=candidate:f 1 UDP -1"
  | _ => False
  end.
Proof. vm_compute. reflexivity. Qed.

(** An unknown stream: no credentials, and success. *)
Example unknown_stream_credentials : nice_agent_get_local_credentials sdp_agent 7 = (true, None).
Proof. reflexivity. Qed.

(** A candidate that is at the address of one of another type is added each time
    it is set. *)
Example candidate_added_again :
  let host := (demo_local 5 100) <| sockptr := None |> in
  let relay := host <| type := NICE_CANDIDATE_TYPE_RELAYED |> in
  match nice_agent_set_remote_candidates 1 1 [host; relay; relay; relay] sdp_agent with
  | Done (n, b) => n = 4 ∧ (λ k, length (remote_candidates k)) <$> (agent_find_component b 1 1 ≫= λ x, Some x.2) = Some 4%nat
  | _ => False
  end.
Proof. vm_compute. split; reflexivity. Qed.
