(* ===== verification/NiceSocket.v ===== *)
(** * Messages, sockets and their send queues (socket/socket.c, agent/agent.c)

    The vectored messages the sockets exchange, the interface every socket
    implements (the function pointers of [struct _NiceSocket]), the wrappers
    around it, and the queue of messages that wait for a connection.  A socket
    on top of another keeps the state of its base; a base that was freed is
    [None]. *)

From S2P Require Import Prelude Bytes StateMonad StunMessage NiceAddress.

(** ** Messages *)

(** [buffer] is the object the vector points into, from that point on; [size]
    is what the vector claims. *)
Record GInputVector := { iv_buffer : bytes; iv_size : Z }.

(** [n_buffers] of -1 marks a NULL-terminated array: the list of vectors
    either way.  [from] is a pointer that may be NULL. *)
Record NiceInputMessage := {
  im_buffers : list GInputVector;
  im_from : option NiceAddress;
  im_length : Z
}.
Record NiceOutputMessage := { om_buffers : list bytes }.

Definition eta_NiceInputMessage (m : NiceInputMessage) : NiceInputMessage :=
  Build_NiceInputMessage (im_buffers m) (im_from m) (im_length m).
#[export] Instance set_im_buffers : Setter im_buffers :=
  ltac:(derive_setter eta_NiceInputMessage im_buffers).
#[export] Instance set_im_from : Setter im_from := ltac:(derive_setter eta_NiceInputMessage im_from).
#[export] Instance set_im_length : Setter im_length :=
  ltac:(derive_setter eta_NiceInputMessage im_length).

Fixpoint sizes (vs : list Z) : Z := match vs with [] => 0 | v :: vs => v + sizes vs end.

Definition output_message_get_size (message : NiceOutputMessage) : Z :=
  sizes (map zlen (om_buffers message)).
Definition input_message_get_size (message : NiceInputMessage) : Z :=
  sizes (map iv_size (im_buffers message)).

(** The loop of [memcpy_buffer_to_input_message]: the vectors and the octets
    copied. *)
Fixpoint fill_vectors (vs : list GInputVector) (buffer : bytes)
  : outcome (list GInputVector * Z) :=
  match vs with
  | [] => mret ([], 0)
  | v :: vs' =>
      if zlen buffer =? 0 then mret (vs, 0)
      else
        let len := Z.min (iv_size v) (zlen buffer) in
        b ← store (iv_buffer v) 0 (take (Z.to_nat len) buffer);
        '(r, n) ← fill_vectors vs' (drop (Z.to_nat len) buffer);
        mret ({| iv_buffer := b; iv_size := iv_size v |} :: r, len + n)
  end.

Definition memcpy_buffer_to_input_message (message : NiceInputMessage) (buffer : bytes)
  : outcome (NiceInputMessage * Z) :=
  '(vs, n) ← fill_vectors (im_buffers message) buffer;
  mret (message <| im_buffers := vs |> <| im_length := n |>, n).

(** ** Memory that is not initialised *)

Class Malloc : Type := {
  g_malloc : Z → bytes;
  g_malloc_length : ∀ n, 0 ≤ n → zlen (g_malloc n) = n
}.

(** The loop of [compact_message]. *)
Fixpoint compact_loop (bufs : list bytes) (buffer : bytes) (length offset : Z) : outcome bytes :=
  match bufs with
  | [] => mret buffer
  | b :: bufs =>
      let len := Z.min (u64 (length - offset)) (zlen b) in
      d ← slice b 0 len;
      buffer ← store buffer offset d;
      compact_loop bufs buffer length (offset + len)
  end.
Definition compact_message `{Malloc} (message : NiceOutputMessage) (buffer_length : Z)
  : outcome bytes := compact_loop (om_buffers message) (g_malloc buffer_length) buffer_length 0.
Definition compact_output_message `{Malloc} (message : NiceOutputMessage) : outcome (bytes * Z) :=
  let buffer_length := output_message_get_size message in
  b ← compact_message message buffer_length;
  mret (b, buffer_length).

(** ** The socket interface *)

(** A callback and its user data. *)
Definition NiceSocketWritableCb : Type := Z * Z.

Class NiceSocket (S : Type) : Type := {
  recv_messages : list NiceInputMessage → st S (Z * list NiceInputMessage);
  send_messages : option NiceAddress → list NiceOutputMessage → st S Z;
  send_messages_reliable : option NiceAddress → list NiceOutputMessage → st S Z;
  is_reliable : S → outcome bool;
  can_send : option NiceAddress → S → outcome bool;
  set_writable_callback : option NiceSocketWritableCb → st S unit
}.

(** Run a computation on a field. *)
Definition on {S E A} (proj : S → E) `{!Setter proj} (m : st E A) : st S A :=
  λ s, '(a, e) ← m (proj s); Done (a, s <| proj := e |>).

Lemma wp_on {S E A} (proj : S → E) `{!Setter proj} (m : st E A) Q s :
  wp m (λ a e, Q a (s <| proj := e |>)) (proj s) → wp (on proj m) Q s.
Proof. unfold wp, on. by destruct (m (proj s)) as [[a e] | |]. Qed.

Section wrappers.
Context {S : Type} `{!NiceSocket S}.

(** A call through the base pointer: [None] is NULL. *)
Definition on_base {A} (m : st S A) : st (option S) A := λ s,
  match s with
  | None => Ub
  | Some s => '(a, s) ← m s; Done (a, Some s)
  end.

(** The three checked calls return -1 on a NULL socket. *)
Definition nice_socket_recv_messages (messages : list NiceInputMessage)
  : st (option S) (Z * list NiceInputMessage) := λ s,
  match s with None => Done ((-1, messages), s) | Some _ => on_base (recv_messages messages) s end.
Definition nice_socket_send_messages (to : option NiceAddress) (messages : list NiceOutputMessage)
  : st (option S) Z := λ s,
  match s with None => Done (-1, s) | Some _ => on_base (send_messages to messages) s end.
Definition nice_socket_send_messages_reliable (to : option NiceAddress)
    (messages : list NiceOutputMessage) : st (option S) Z := λ s,
  match s with None => Done (-1, s) | Some _ => on_base (send_messages_reliable to messages) s end.

(** Receive into a buffer of [len] octets: the return value and the buffer. *)
Definition nice_socket_recv (from : option NiceAddress) (len : Z) (buf : bytes)
  : st (option S) (Z * bytes) :=
  '(ret, ms) ← on_base (recv_messages [{| im_buffers := [{| iv_buffer := buf; iv_size := len |}];
                                          im_from := from; im_length := 0 |}]);
  match ms with
  | [{| im_buffers := [{| iv_buffer := buf |}]; im_length := length |}] =>
      mret (if ret =? 1 then length else ret, buf)
  | _ => ub
  end.

Definition nice_socket_send (to : option NiceAddress) (buf : bytes) : st (option S) Z :=
  ret ← on_base (send_messages to [{| om_buffers := [buf] |}]);
  mret (if ret =? 1 then zlen buf else ret).
Definition nice_socket_send_reliable (to : option NiceAddress) (buf : bytes) : st (option S) Z :=
  ret ← on_base (send_messages_reliable to [{| om_buffers := [buf] |}]);
  mret (if ret =? 1 then zlen buf else ret).

Definition nice_socket_is_reliable (s : option S) : outcome bool :=
  match s with None => Ub | Some s => is_reliable s end.
Definition nice_socket_can_send (to : option NiceAddress) (s : option S) : outcome bool :=
  match s with None => Ub | Some s => can_send to s end.
Definition nice_socket_set_writable_callback (cb : option NiceSocketWritableCb)
  : st (option S) unit := on_base (set_writable_callback cb).

(** [close] frees the base in turn: nothing of it can be observed afterwards. *)
Definition nice_socket_free : st (option S) unit := λ _, Done (tt, None).
End wrappers.

(** ** Send queues *)

Record NiceSocketQueuedSend := { tbs_buf : bytes; tbs_length : Z; tbs_to : NiceAddress }.

Definition address_zero : NiceAddress := Build_NiceAddress 0 0 0 (repeat 0 16) 0.

(** The loop that compacts the buffers of a message: the buffer and how much of
    it was written. *)
Fixpoint queue_compact (bufs : list bytes) (buf : bytes) (message_len_remaining offset : Z)
  : outcome (bytes * Z) :=
  match bufs with
  | [] => mret (buf, offset)
  | b :: bufs =>
      let len := Z.min (zlen b) message_len_remaining in
      d ← slice b 0 len;
      buf ← store buf offset d;
      queue_compact bufs buf (message_len_remaining - len) (offset + len)
  end.

Fixpoint nice_socket_queue_send `{Malloc} (send_queue : list NiceSocketQueuedSend)
    (to : option NiceAddress) (messages : list NiceOutputMessage)
  : outcome (list NiceSocketQueuedSend) :=
  match messages with
  | [] => mret send_queue
  | message :: messages =>
      let message_len := output_message_get_size message in
      if message_len =? 0 then nice_socket_queue_send send_queue to messages
      else
        '(buf, offset) ← queue_compact (om_buffers message) (g_malloc message_len) message_len 0;
        _ ← assert_ (offset =? message_len);
        let tbs := {| tbs_buf := buf; tbs_length := message_len;
                      tbs_to := match to with Some a => a | None => address_zero end |} in
        nice_socket_queue_send (send_queue ++ [tbs]) to messages
  end.

(** The loop that copies the message from [message_offset] on. *)
Fixpoint queue_copy (bufs : list bytes) (buf : bytes) (length offset message_offset : Z)
  : outcome bytes :=
  match bufs with
  | [] => mret buf
  | b :: bufs =>
      if zlen b <=? message_offset
      then queue_copy bufs buf length offset (message_offset - zlen b)
      else
        let len := Z.min (u64 (length - offset)) (zlen b - message_offset) in
        d ← slice b message_offset len;
        buf ← store buf offset d;
        queue_copy bufs buf length (offset + len)
          (if len <=? message_offset then message_offset - len else 0)
  end.

(** [io_source]: [None] when the caller passes no place for a source, else
    whether a source is there already; the result says whether one is. *)
Definition nice_socket_queue_send_with_callback `{Malloc}
    (send_queue : list NiceSocketQueuedSend) (message : NiceOutputMessage)
    (message_offset message_len : Z) (head : bool) (io_source : option bool)
  : outcome (list NiceSocketQueuedSend * option bool) :=
  if message_len <=? message_offset then mret (send_queue, io_source)
  else
    let length := message_len - message_offset in
    buf ← queue_copy (om_buffers message) (g_malloc length) length 0 message_offset;
    let tbs := {| tbs_buf := buf; tbs_length := length; tbs_to := address_zero |} in
    mret (if head then tbs :: send_queue else send_queue ++ [tbs],
          match io_source with None => None | Some _ => Some true end).

Fixpoint nice_socket_flush_send_queue {S} `{!NiceSocket S} (send_queue : list NiceSocketQueuedSend)
  : st (option S) unit :=
  match send_queue with
  | [] => mret tt
  | tbs :: send_queue =>
      let to := if nice_address_is_valid (tbs_to tbs) then Some (tbs_to tbs) else None in
      buf ← lift (slice (tbs_buf tbs) 0 (tbs_length tbs));
      _ ← nice_socket_send_reliable to buf;
      nice_socket_flush_send_queue send_queue
  end.

(** ** Operating system sockets *)

Inductive GIOErrorEnum :=
| G_IO_ERROR_FAILED
| G_IO_ERROR_WOULD_BLOCK
| G_IO_ERROR_OTHER.
#[export] Instance GIOErrorEnum_eq_dec : EqDecision GIOErrorEnum.
Proof. solve_decision. Defined.

(** The result of a transfer: octets, or -1 and the error. *)
Inductive g_result :=
| G_BYTES (n : Z)
| G_ERROR (e : GIOErrorEnum).

Class GSocket (G : Type) : Type := {
  g_socket_receive_message : list GInputVector → st G (g_result * list GInputVector);
  g_socket_send_message : list bytes → st G g_result
}.

(** The result: whether the queue was emptied, and the queue. *)
Fixpoint nice_socket_flush_send_queue_to_socket {G} `{!GSocket G, !Malloc}
    (send_queue : list NiceSocketQueuedSend) : st G (bool * list NiceSocketQueuedSend) :=
  match send_queue with
  | [] => mret (true, [])
  | tbs :: send_queue =>
      buf ← lift (slice (tbs_buf tbs) 0 (tbs_length tbs));
      ret ← g_socket_send_message [buf];
      match ret with
      | G_ERROR G_IO_ERROR_WOULD_BLOCK =>
          '(q, _) ← lift (nice_socket_queue_send_with_callback send_queue
            {| om_buffers := [buf] |} 0 (tbs_length tbs) true None);
          mret (false, q)
      | G_ERROR _ => nice_socket_flush_send_queue_to_socket send_queue
      | G_BYTES ret =>
          if ret <? s32 (tbs_length tbs) then
            rest ← lift (slice buf ret (tbs_length tbs - ret));
            '(q, _) ← lift (nice_socket_queue_send_with_callback send_queue
              {| om_buffers := [rest] |} 0 (zlen rest) true None);
            mret (false, q)
          else nice_socket_flush_send_queue_to_socket send_queue
      end
  end.
