(* ===== verification/TcpBsd.v ===== *)
(** * TCP sockets (socket/tcp-bsd.c)

    Sending on a non-blocking stream socket, with what could not be sent kept in
    a queue that the main loop flushes, and receiving.  The socket of the
    operating system is the parameter [GSocket].  Creating and connecting it,
    and the GSource plumbing, are left out: [io_source] tells whether the source
    that calls [socket_send_more] is there. *)

From S2P Require Import Prelude Bytes StateMonad StunMessage NiceAddress NiceSocket.

Section tcp.
Context {G : Type} `{!GSocket G, !Malloc}.

(** [writable_calls] logs the calls of the writable callback, the newest
    first. *)
Record TcpPriv := {
  fileno : G;
  remote_addr : NiceAddress;
  send_queue : list NiceSocketQueuedSend;
  io_source : bool;
  tcp_error : bool;
  tcp_reliable : bool;
  writable_cb : option NiceSocketWritableCb;
  writable_calls : list NiceSocketWritableCb
}.
Definition eta_TcpPriv (p : TcpPriv) : TcpPriv :=
  Build_TcpPriv (fileno p) (remote_addr p) (send_queue p) (io_source p) (tcp_error p)
    (tcp_reliable p) (writable_cb p) (writable_calls p).
#[export] Instance set_fileno : Setter fileno := ltac:(derive_setter eta_TcpPriv fileno).
#[export] Instance set_send_queue : Setter send_queue := ltac:(derive_setter eta_TcpPriv send_queue).
#[export] Instance set_io_source : Setter io_source := ltac:(derive_setter eta_TcpPriv io_source).
#[export] Instance set_tcp_error : Setter tcp_error := ltac:(derive_setter eta_TcpPriv tcp_error).
#[export] Instance set_writable_cb : Setter writable_cb :=
  ltac:(derive_setter eta_TcpPriv writable_cb).
#[export] Instance set_writable_calls : Setter writable_calls :=
  ltac:(derive_setter eta_TcpPriv writable_calls).

Definition nice_tcp_bsd_socket_new_from_gsock (gsock : G) (remote_addr : NiceAddress)
    (reliable : bool) : TcpPriv :=
  Build_TcpPriv gsock remote_addr [] false false reliable None [].

(** ** Receiving *)

(** The loop of [socket_recv_messages], at message [i]: the value returned from
    inside it, or the count it ends with. *)
Fixpoint recv_loop (i : Z) (messages : list NiceInputMessage)
  : st TcpPriv ((Z + Z) * list NiceInputMessage) :=
  match messages with
  | [] => mret (inr i, [])
  | message :: rest =>
      '(len, vs) ← on fileno (g_socket_receive_message (im_buffers message));
      let n := match len with G_BYTES n => n | G_ERROR _ => -1 end in
      let message := message <| im_buffers := vs |> <| im_length := Z.max n 0 |> in
      match len with
      | G_BYTES 0 => _ ← put tcp_error true; mret (inr i, message :: rest)
      | G_ERROR e =>
          mret (inl (if bool_decide (e = G_IO_ERROR_WOULD_BLOCK) then 0 else -1), message :: rest)
      | G_BYTES _ =>
          addr ← get remote_addr;
          let message := message <| im_from := match im_from message with
                                               | None => None | Some _ => Some addr end |> in
          '(r, rest) ← recv_loop (i + 1) rest;
          mret (r, message :: rest)
      end
  end.

(** A call that would block after some messages were received returns 0, the
    messages in hand are lost. *)
Definition tcp_socket_recv_messages (messages : list NiceInputMessage)
  : st TcpPriv (Z * list NiceInputMessage) :=
  error ← get tcp_error;
  if (error : bool) then mret (-1, messages)
  else
    '(r, messages) ← recv_loop 0 messages;
    match r with
    | inl ret => mret (ret, messages)
    | inr i =>
        error ← get tcp_error;
        mret (if (error : bool) && (i =? 0) then -1 else i, messages)
    end.

(** ** Sending *)

(** Queue what is left of [message] from [message_offset] on. *)
Definition tcp_queue (message : NiceOutputMessage) (message_offset message_len : Z) (head : bool)
  : st TcpPriv unit :=
  q ← get send_queue;
  src ← get io_source;
  '(q, src) ← lift (nice_socket_queue_send_with_callback q message message_offset message_len head
    (Some src));
  _ ← put send_queue q;
  put io_source (match src with Some b => b | None => false end).

Definition tcp_socket_send_message (message : NiceOutputMessage) (reliable : bool)
  : st TcpPriv Z :=
  error ← get tcp_error;
  if (error : bool) then mret (-1)
  else
    let message_len := output_message_get_size message in
    q ← get send_queue;
    match q with
    | [] =>
        ret ← on fileno (g_socket_send_message (om_buffers message));
        match ret with
        | G_ERROR G_IO_ERROR_OTHER => mret (-1)
        | G_ERROR _ => _ ← tcp_queue message 0 message_len false; mret message_len
        | G_BYTES ret =>
            if ret <? message_len
            then _ ← tcp_queue message ret message_len true; mret message_len
            else mret ret
        end
    | _ =>
        if reliable
        then _ ← tcp_queue message 0 message_len false; mret message_len
        else mret 0
    end.

Fixpoint send_loop (i : Z) (messages : list NiceOutputMessage) : st TcpPriv Z :=
  match messages with
  | [] => mret i
  | message :: messages =>
      len ← tcp_socket_send_message message false;
      if len <? 0 then mret (if 0 <? i then i else len)
      else if len =? 0 then mret i
      else send_loop (i + 1) messages
  end.
Definition tcp_socket_send_messages (to : option NiceAddress) (messages : list NiceOutputMessage)
  : st TcpPriv Z := send_loop 0 messages.

Fixpoint send_reliable_loop (i : Z) (messages : list NiceOutputMessage) : st TcpPriv Z :=
  match messages with
  | [] => mret i
  | message :: messages =>
      len ← tcp_socket_send_message message true;
      if len <? 0 then mret (-1) else send_reliable_loop (i + 1) messages
  end.
Definition tcp_socket_send_messages_reliable (to : option NiceAddress)
    (messages : list NiceOutputMessage) : st TcpPriv Z := send_reliable_loop 0 messages.

Definition tcp_socket_is_reliable (p : TcpPriv) : outcome bool := mret (tcp_reliable p).
Definition tcp_socket_can_send (addr : option NiceAddress) (p : TcpPriv) : outcome bool :=
  mret (bool_decide (send_queue p = [])).
Definition tcp_socket_set_writable_callback (cb : option NiceSocketWritableCb)
  : st TcpPriv unit := put writable_cb cb.

(** The callback of the source: [hup] is [condition & G_IO_HUP].  Returns
    whether the source stays; it is not run once destroyed. *)
Definition socket_send_more (hup : bool) : st TcpPriv bool :=
  finished ← (if hup then mret true
              else
                q ← get send_queue;
                '(b, q) ← on fileno (nice_socket_flush_send_queue_to_socket q);
                _ ← put send_queue q;
                mret b);
  if (finished : bool) then
    _ ← put io_source false;
    cb ← get writable_cb;
    calls ← get writable_calls;
    _ ← match cb with Some cb => put writable_calls (cb :: calls) | None => mret tt end;
    mret false
  else mret true.

#[export] Instance tcp_socket : NiceSocket TcpPriv := {|
  recv_messages := tcp_socket_recv_messages;
  send_messages := tcp_socket_send_messages;
  send_messages_reliable := tcp_socket_send_messages_reliable;
  is_reliable := tcp_socket_is_reliable;
  can_send := tcp_socket_can_send;
  set_writable_callback := tcp_socket_set_writable_callback
|}.
End tcp.
Arguments TcpPriv G : clear implicits.
