(* ===== verification/TcpStream.v ===== *)
(** * TCP sockets carry a byte stream

    What the operating system promises of a stream socket, what a socket of the
    library promises to the one on top of it, and that tcp-bsd.c keeps the order
    of the octets over partial sends and the queue; with a scripted operating
    system socket to run on. *)

From S2P Require Import Prelude Bytes StateMonad StunMessage NiceAddress NiceSocket TcpBsd.

(** A vector that points into an object at least as large as it says. *)
Definition vector_ok (v : GInputVector) : Prop := 0 ≤ iv_size v ≤ zlen (iv_buffer v).
(** The same vector with other contents. *)
Definition same_shape (v v' : GInputVector) : Prop :=
  iv_size v' = iv_size v ∧ zlen (iv_buffer v') = zlen (iv_buffer v).

(** ** The operating system *)

(** [wire]: the octets accepted so far; [inbox]: the octets still to be read.
    A failed call transfers nothing. *)
Class GSocketLaws (G : Type) `{!GSocket G} : Type := {
  wire : G → bytes;
  inbox : G → bytes;
  g_send_law (g : G) (bufs : list bytes) : ∃ ret g',
    g_socket_send_message bufs g = Done (ret, g') ∧ inbox g' = inbox g ∧
    match ret with
    | G_BYTES n => 0 ≤ n ≤ zlen (concat bufs) ∧ wire g' = wire g ++ take (Z.to_nat n) (concat bufs)
    | G_ERROR _ => wire g' = wire g
    end;
  g_receive_law (g : G) (vs : list GInputVector) : Forall vector_ok vs → ∃ ret vs' g',
    g_socket_receive_message vs g = Done ((ret, vs'), g') ∧ wire g' = wire g ∧
    match ret with
    | G_BYTES n => ∃ chunk, inbox g = chunk ++ inbox g' ∧ fill_vectors vs chunk = Done (vs', n) ∧
        zlen chunk = n
    | G_ERROR _ => inbox g' = inbox g ∧ vs' = vs
    end
}.

(** Sending fails in no other way than by blocking. *)
Class GSocketBlocks (G : Type) `{!GSocket G} : Prop :=
  g_send_blocks (g g' : G) bufs e :
    g_socket_send_message bufs g = Done (G_ERROR e, g') → e = G_IO_ERROR_WOULD_BLOCK.

(** ** What a socket promises to the socket above it *)

(** [unread]: the octets still to come up; [written]: the octets taken from
    above so far, in the order in which they go out; [usable]: the states in
    which the promise holds.  A receive of one message fills its vectors with a
    non-empty prefix of what is unread, or returns 0 and hands over nothing, or fails and
    promises nothing more.  A reliable send of one buffer takes all of it. *)
Class StreamSocket (S : Type) `{!NiceSocket S} : Type := {
  unread : S → bytes;
  written : S → bytes;
  usable : S → Prop;
  recv_law (s : S) (vs : list GInputVector) (from : option NiceAddress) :
    usable s → Forall vector_ok vs →
    ∃ ret vs' from' n s',
      recv_messages [{| im_buffers := vs; im_from := from; im_length := 0 |}] s
      = Done ((ret, [{| im_buffers := vs'; im_from := from'; im_length := n |}]), s') ∧
      Forall2 same_shape vs vs' ∧
      (ret < 0 ∨
       usable s' ∧ written s' = written s ∧
       (ret = 0 ∧ n = 0 ∧ unread s' = unread s ∧ vs' = vs ∨
        ret = 1 ∧ 0 < n ∧
          ∃ chunk, unread s = chunk ++ unread s' ∧ zlen chunk = n ∧
                   fill_vectors vs chunk = Done (vs', n)));
  send_law (s : S) (to : option NiceAddress) (b : bytes) :
    usable s → zlen b < 2 ^ 31 →
    ∃ s', send_messages_reliable to [{| om_buffers := [b] |}] s = Done (1, s') ∧
      usable s' ∧ unread s' = unread s ∧ written s' = written s ++ b
}.

(** Filling one vector. *)
Lemma fill_one (b : bytes) size chunk n vs :
  0 ≤ size ≤ zlen b → fill_vectors [{| iv_buffer := b; iv_size := size |}] chunk = Done (vs, n) →
  zlen chunk = n →
  0 ≤ n ≤ size ∧
  vs = [{| iv_buffer := chunk ++ drop (Z.to_nat n) b; iv_size := size |}].
Proof.
  intros Hs Hf Hn. cbn [fill_vectors iv_size iv_buffer] in Hf. pose proof (zlen_nonneg chunk).
  destruct (Z.eqb_spec (zlen chunk) 0) as [E | E].
  { injection Hf as <- <-. rewrite (zlen_0_inv chunk E). split; [lia | done]. }
  inv_bind. assert (Hmin : Z.min size (zlen chunk) = zlen chunk) by lia.
  rewrite Hmin in *. split; [lia |].
  rewrite take_ge in Hm by (unfold zlen; lia). apply store_inv in Hm as (a1 & b0 & c & -> & -> & Ha & Hb).
  rewrite (zlen_0_inv a1 Ha). cbn. do 2 f_equal.
  rewrite drop_app_length' by (unfold zlen in *; lia). done.
Qed.

Lemma fill_shape vs : ∀ chunk vs' n,
  fill_vectors vs chunk = Done (vs', n) → Forall2 same_shape vs vs' ∧ n ≤ zlen chunk.
Proof.
  induction vs as [| v vs IH]; intros chunk vs' n Hf; cbn [fill_vectors] in Hf.
  { injection Hf as <- <-. split; [constructor | apply zlen_nonneg]. }
  destruct (Z.eqb_spec (zlen chunk) 0) as [E | E].
  { injection Hf as <- <-. split; [| lia].
    constructor; [by split |]. apply Forall_Forall2_diag, Forall_forall. by split. }
  apply bind_inv in Hf as (b & Hb & Hf). apply bind_inv in Hf as ([r m] & Hr & [= <- <-]).
  apply store_length in Hb. destruct (IH _ _ _ Hr) as [Hsh Hm].
  split; [by constructor |]. pose proof (zlen_nonneg chunk).
  destruct (decide (0 ≤ iv_size v)).
  - rewrite zlen_drop in Hm by lia. lia.
  - rewrite Z.min_l in * by lia.
    replace (Z.to_nat (iv_size v)) with 0%nat in Hm by lia. rewrite drop_0 in Hm. lia.
Qed.

(** A receive into one vector. *)
Lemma recv_law_one {S} `{!NiceSocket S, !StreamSocket S} (s : S) (b : bytes) (size : Z)
    (from : option NiceAddress) :
  usable s → 0 ≤ size ≤ zlen b →
  ∃ ret b' from' n s',
    recv_messages [{| im_buffers := [{| iv_buffer := b; iv_size := size |}]; im_from := from;
                      im_length := 0 |}] s
    = Done ((ret, [{| im_buffers := [{| iv_buffer := b'; iv_size := size |}]; im_from := from';
                      im_length := n |}]), s') ∧
    zlen b' = zlen b ∧
    (ret < 0 ∨
     usable s' ∧ written s' = written s ∧
     (ret = 0 ∧ n = 0 ∧ unread s' = unread s ∧ b' = b ∨
      ret = 1 ∧ 0 < n ≤ size ∧
        ∃ chunk, unread s = chunk ++ unread s' ∧ zlen chunk = n ∧
                 b' = chunk ++ drop (Z.to_nat n) b)).
Proof.
  intros Hs Hsz.
  destruct (recv_law s [{| iv_buffer := b; iv_size := size |}] from Hs)
    as (ret & vs' & from' & n & s' & E & Hsh & Hc); [by repeat constructor; apply Hsz |].
  inversion Hsh as [| v v' l l' [Hsize Hlen] Hnil]; subst. inversion Hnil; subst.
  destruct v' as [b' size']. cbn [iv_size iv_buffer] in *. subst size'.
  exists ret, b', from', n, s'. split; [exact E |]. split; [done |].
  destruct Hc as [? | (Hs' & Hw & [(-> & -> & Hu & [= ->]) | (-> & Hn & chunk & Hu & Hl & Hf)])];
    [by left | right | right]; (split; [done |]; split; [done |]); [by left | right].
  destruct (fill_one b size chunk n _ Hsz Hf Hl) as [? [= ->]].
  split; [done |]. split; [lia |]. by exists chunk.
Qed.

(** ** The queue *)

Definition queued (q : list NiceSocketQueuedSend) : bytes := concat (map tbs_buf q).
Definition queue_ok (q : list NiceSocketQueuedSend) : Prop :=
  Forall (λ tbs, zlen (tbs_buf tbs) = tbs_length tbs ∧ 0 < tbs_length tbs < 2 ^ 31) q.

(** Vectors whose tail is copied right, wherever the message is cut: before
    the last octet, every vector holds at most two. *)
Fixpoint cut_safe (bufs : list bytes) : Prop :=
  match bufs with
  | [] => True
  | b :: bufs => (zlen b ≤ 2 ∨ concat bufs = []) ∧ cut_safe bufs
  end.

Lemma output_size m : output_message_get_size m = zlen (concat (om_buffers m)).
Proof.
  unfold output_message_get_size. induction (om_buffers m) as [| b bufs IH]; [done |].
  cbn [map sizes concat]. rewrite IH. slia.
Qed.

Lemma concat_nil_inv {A} (b : list A) bufs : concat (b :: bufs) = [] → b = [] ∧ concat bufs = [].
Proof. cbn. apply app_eq_nil. Qed.

Lemma queue_copy_none bufs buf length offset mo :
  concat bufs = [] → 0 ≤ mo → queue_copy bufs buf length offset mo = Done buf.
Proof.
  revert mo. induction bufs as [| b bufs IH]; intros mo Hc Hm; [done |].
  apply concat_nil_inv in Hc as [-> Hc]. cbn [queue_copy]. rewrite zlen_nil.
  replace (0 <=? mo) with true by lia. apply IH; [done | lia].
Qed.

Lemma queue_copy_spec bufs : ∀ pre hole mo,
  cut_safe bufs → 0 ≤ mo ≤ zlen (concat bufs) → zlen hole = zlen (concat bufs) - mo →
  zlen (pre ++ hole) < 2 ^ 64 →
  queue_copy bufs (pre ++ hole) (zlen (pre ++ hole)) (zlen pre) mo
  = Done (pre ++ drop (Z.to_nat mo) (concat bufs)).
Proof.
  induction bufs as [| b bufs IH]; intros pre hole mo Hs Hm Hh Hl.
  { cbn [concat] in *. rewrite zlen_nil in *. rewrite (zlen_0_inv hole) by lia. by rewrite drop_nil. }
  destruct Hs as [Hb Hs]. cbn [queue_copy concat] in *. rewrite zlen_app in Hm, Hh.
  destruct (Z.leb_spec (zlen b) mo) as [Hlt | Hlt].
  { rewrite (IH pre hole (mo - zlen b)); [| done | lia | lia | done].
    do 2 f_equal. rewrite drop_app_ge by (unfold zlen in *; lia). f_equal. unfold zlen; lia. }
  assert (Hu : u64 (zlen (pre ++ hole) - zlen pre) = zlen hole)
    by (rewrite u64_small; [| unfold is_u64]; slia).
  rewrite Hu, Z.min_r by slia.
  destruct (split_at b mo) as (b1 & b2 & -> & H1); [lia |].
  rewrite <- (app_nil_r (b1 ++ b2)) at 1. rewrite <- app_assoc.
  rewrite (slice_app b1 b2 []) by slia. rewrite bind_Done.
  destruct (split_at hole (zlen b2)) as (h1 & h2 & -> & Hh1); [slia |].
  rewrite (store_app pre h1 h2 b2), bind_Done by slia.
  replace (drop (Z.to_nat mo) ((b1 ++ b2) ++ concat bufs)) with (b2 ++ concat bufs).
  2:{ rewrite <- app_assoc. subst mo. unfold zlen. by rewrite Nat2Z.id, drop_app_length. }
  replace (zlen (pre ++ h1 ++ h2)) with (zlen ((pre ++ b2) ++ h2)) in * by slia.
  replace (zlen pre + (zlen (b1 ++ b2) - mo)) with (zlen (pre ++ b2)) by slia.
  rewrite (app_assoc pre b2 h2).
  destruct Hb as [Hb | Hb].
  - replace (if _ <=? _ then _ else 0) with 0 by (zlen_simpl; zcase; slia).
    rewrite IH; [by rewrite <- app_assoc | done | slia | slia | done].
  - rewrite Hb, app_nil_r. rewrite queue_copy_none; [| done | zcase; slia].
    rewrite Hb in Hh. rewrite (zlen_0_inv h2) by slia. by rewrite app_nil_r.
Qed.

Section malloc.
Context `{!Malloc}.

(** Queueing the rest of a message whose vectors are safe to cut. *)
Lemma queue_rest q message mo head src :
  cut_safe (om_buffers message) → queue_ok q →
  let m := concat (om_buffers message) in
  0 ≤ mo < zlen m → zlen m < 2 ^ 31 →
  ∃ q' src', nice_socket_queue_send_with_callback q message mo (zlen m) head src = Done (q', src') ∧
    queue_ok q' ∧
    queued q' = (if head then drop (Z.to_nat mo) m ++ queued q else queued q ++ drop (Z.to_nat mo) m).
Proof.
  intros Hs Hq m Hm Hl. unfold nice_socket_queue_send_with_callback.
  replace (zlen m <=? mo) with false by lia.
  pose proof (g_malloc_length (zlen m - mo) ltac:(lia)) as Hg.
  pose proof (queue_copy_spec (om_buffers message) [] (g_malloc (zlen m - mo)) mo Hs) as E.
  cbn [app] in E. change (zlen []) with 0 in E. rewrite Hg in E.
  rewrite E by (unfold m in *; lia). rewrite bind_Done. do 2 eexists. split; [done |].
  assert (zlen (drop (Z.to_nat mo) (concat (om_buffers message))) = zlen m - mo)
    by (apply zlen_drop; unfold m in *; lia).
  destruct head; unfold queue_ok, queued in *.
  - split; [| by cbn]. constructor; [cbn; lia | done].
  - split; [apply Forall_app; split; [done |]; constructor; [cbn; lia | done] |].
    rewrite map_app, concat_app. cbn. by rewrite app_nil_r.
Qed.

(** A message in one piece. *)
Lemma cut_safe_single b : cut_safe [b].
Proof. split; [by right | done]. Qed.
End malloc.

Section tcp.
Context {G : Type} `{!GSocket G, !GSocketLaws G, !Malloc}.
Implicit Types (p : TcpPriv G) (m : NiceOutputMessage).

(** Everything handed to the socket that has not been lost. *)
Definition sent p : bytes := wire (fileno p) ++ queued (send_queue p).

(** A message of the library: under 2 GiB, and safe to cut. *)
Definition sendable m : Prop := cut_safe (om_buffers m) ∧ output_message_get_size m < 2 ^ 31.
Definition payload (ms : list NiceOutputMessage) : bytes := concat (map (λ m, concat (om_buffers m)) ms).

(** What sending leaves alone. *)
Definition same_receiver p p' : Prop :=
  inbox (fileno p') = inbox (fileno p) ∧ tcp_error p' = tcp_error p ∧ remote_addr p' = remote_addr p.

Lemma tcp_queue_spec p m mo (head : bool) :
  sendable m → queue_ok (send_queue p) → 0 ≤ mo → (head = true → send_queue p = []) →
  ∃ p', tcp_queue m mo (output_message_get_size m) head p = Done (tt, p') ∧
    queue_ok (send_queue p') ∧ same_receiver p p' ∧ fileno p' = fileno p ∧
    queued (send_queue p') = queued (send_queue p) ++ drop (Z.to_nat mo) (concat (om_buffers m)).
Proof.
  intros [Hs Hl] Hq Hm Hh. unfold tcp_queue. rewrite output_size in *. st_run.
  destruct (Z.lt_ge_cases mo (zlen (concat (om_buffers m)))).
  - destruct (queue_rest (send_queue p) m mo head (Some (io_source p)) Hs Hq)
      as (q' & src' & -> & Hq' & E); [lia | done |].
    rewrite bind_lift. st_run. eexists; split; [done |]. split_and!; try done. transitivity (queued q'); [done |]. rewrite E.
    destruct head; [| done]. rewrite (Hh eq_refl). cbn. by rewrite app_nil_r.
  - unfold nice_socket_queue_send_with_callback.
    replace (zlen _ <=? mo) with true by lia. rewrite bind_lift. st_run.
    eexists; split; [done |]. split_and!; try done.
    rewrite drop_ge by (unfold zlen in *; lia). by rewrite app_nil_r.
Qed.

(** One message: sent or queued in full, refused, or failed. *)
Lemma send_message_spec p m reliable :
  sendable m → queue_ok (send_queue p) →
  ∃ ret p', tcp_socket_send_message m reliable p = Done (ret, p') ∧
    queue_ok (send_queue p') ∧ same_receiver p p' ∧
    (ret = output_message_get_size m ∧ sent p' = sent p ++ concat (om_buffers m) ∨
     ret = 0 ∧ reliable = false ∧ sent p' = sent p ∨
     ret = -1 ∧ sent p' = sent p ∧ (tcp_error p = true ∨ ¬ GSocketBlocks G)).
Proof.
  intros Hm Hq. unfold tcp_socket_send_message. st_run.
  destruct (tcp_error p) eqn:He; [eexists _, _; split; [done |]; split_and!; [done | done | right; right; auto] |].
  st_run. destruct (send_queue p) as [| tbs q] eqn:Eq.
  - destruct (g_send_law (fileno p) (om_buffers m)) as (ret & g' & Hg & Hi & Hr).
    rewrite (bind_run (on fileno _) _ p ret (p <| fileno := g' |>)) by (unfold on; by rewrite Hg).
    set (p1 := p <| fileno := g' |>).
    assert (Hp1 : same_receiver p p1) by done.
    assert (Hq1 : send_queue p1 = []) by done.
    assert (Hok1 : queue_ok (send_queue p1)) by (rewrite Hq1; constructor).
    assert (Hs0 : sent p = wire (fileno p)) by (unfold sent; rewrite Eq; cbn; apply app_nil_r).
    assert (Hs1 : sent p1 = wire g') by (unfold sent; rewrite Hq1; cbn; apply app_nil_r).
    rewrite output_size. destruct ret as [n | e].
    + destruct Hr as [Hn Hw]. destruct (Z.ltb_spec n (zlen (concat (om_buffers m)))).
      * destruct (tcp_queue_spec p1 m n true) as (p' & Hp' & Hq' & Hsr & Hf & E); try done; [lia |].
        rewrite output_size in Hp'. rewrite (bind_run _ _ _ _ _ Hp').
        eexists _, _; split; [done |]. split; [done |]. split.
        { unfold same_receiver in *. destruct Hsr as (-> & -> & ->). done. }
        left. split; [done |]. unfold sent at 1. rewrite Hf, E, Hq1. cbn [queued map concat app].
        rewrite Hs0. cbn. by rewrite Hw, <- app_assoc, take_drop.
      * eexists _, _; split; [done |]. split_and!; try done. left. split; [lia |].
        rewrite Hs0, Hs1, Hw. by rewrite take_ge by (unfold zlen in *; lia).
    + destruct (decide (e = G_IO_ERROR_OTHER)) as [-> | Hne].
      * eexists _, _; split; [done |]. split_and!; try done. right; right.
        rewrite Hs0, Hs1. split_and!; try done. right. intros Hb. by specialize (Hb _ _ _ _ Hg).
      * destruct (tcp_queue_spec p1 m 0 false) as (p' & Hp' & Hq' & Hsr & Hf & E); try done.
        rewrite output_size in Hp'.
        eexists _, _; split.
        { destruct e; [rewrite (bind_run _ _ _ _ _ Hp'); done
                      | rewrite (bind_run _ _ _ _ _ Hp'); done | done]. }
        split; [done |]. split.
        { unfold same_receiver in *. destruct Hsr as (-> & -> & ->). done. }
        left. split; [done |]. unfold sent at 1. rewrite Hf, E, Hq1, Hs0.
        cbn -[concat]. by rewrite drop_0, Hr.
  - destruct reliable.
    + destruct (tcp_queue_spec p m 0 false) as (p' & Hp' & Hq' & Hsr & Hf & E); try done;
        [by rewrite Eq |].
      rewrite (bind_run _ _ _ _ _ Hp'). eexists _, _; split; [done |]. split_and!; try apply Hsr; try done.
      left. split; [done |]. unfold sent. rewrite Hf, E, drop_0. by rewrite app_assoc.
    + eexists _, _; split; [done |]. rewrite Eq. split_and!; try done. right; left. done.
Qed.

Lemma send_loop_spec ms : ∀ i p,
  0 ≤ i → Forall sendable ms → queue_ok (send_queue p) →
  ∃ ret p', send_loop i ms p = Done (ret, p') ∧ queue_ok (send_queue p') ∧ same_receiver p p' ∧
    ret - i ≤ zlen ms ∧ (0 < i → i ≤ ret) ∧
    sent p' = sent p ++ payload (take (Z.to_nat (ret - i)) ms).
Proof.
  induction ms as [| m ms IH]; intros i p Hi Hms Hq; cbn [send_loop].
  { exists i, p. rewrite Z.sub_diag. split_and!; try done; cbn; try lia; by rewrite app_nil_r. }
  apply Forall_cons in Hms as [Hm Hms].
  destruct (send_message_spec p m false Hm Hq) as (ret & p1 & Hr & Hq1 & Hs1 & Hc).
  rewrite (bind_run _ _ _ _ _ Hr). rewrite output_size in Hc.
  assert (Hstop : ∀ j, j ≤ i → sent p1 = sent p →
    sent p1 = sent p ++ payload (take (Z.to_nat (j - i)) (m :: ms))).
  { intros j Hj ->. replace (Z.to_nat (j - i)) with 0%nat by lia. cbn. by rewrite app_nil_r. }
  pose proof (zlen_nonneg (concat (om_buffers m))). pose proof (zlen_nonneg ms).
  rewrite zlen_cons.
  destruct (Z.ltb_spec ret 0).
  { eexists _, p1; split; [done |]. split_and!; try done; zcase; try lia;
      (apply Hstop; [lia |]; destruct Hc as [[? ?] | [[? ?] | [? [? ?]]]]; [lia | lia | done]). }
  destruct (Z.eqb_spec ret 0).
  { eexists _, p1; split; [done |]. split_and!; try done; try lia. apply Hstop; [lia |].
    destruct Hc as [[? E] | [[_ [_ E]] | [? [? ?]]]]; [| done | lia].
    rewrite E. rewrite (zlen_0_inv (concat _)) by lia. by rewrite app_nil_r. }
  destruct Hc as [[Hret E] | [[? ?] | [? [? ?]]]]; [| lia | lia].
  destruct (IH (i + 1) p1) as (r & p' & Hl & Hq' & Hs' & Hle & Hge & Es); [lia | done | done |].
  eexists r, p'; split; [done |]. split_and!; try done; try lia.
  - unfold same_receiver in *. destruct Hs1 as (<- & <- & <-). done.
  - rewrite Es, E. replace (Z.to_nat (r - i)) with (S (Z.to_nat (r - (i + 1)))) by lia.
    cbn. by rewrite app_assoc.
Qed.

Lemma send_reliable_loop_spec ms : ∀ i p,
  0 ≤ i → Forall sendable ms → queue_ok (send_queue p) → GSocketBlocks G →
  ∃ ret p', send_reliable_loop i ms p = Done (ret, p') ∧ queue_ok (send_queue p') ∧ same_receiver p p' ∧
    (tcp_error p = false ∧ ret = i + zlen ms ∧ sent p' = sent p ++ payload ms ∨
     tcp_error p = true ∧ sent p' = sent p ∧ ret = if bool_decide (ms = []) then i else -1).
Proof.
  intros i p Hi Hms Hq Hb. revert i p Hi Hms Hq.
  induction ms as [| m ms IH]; intros i p Hi Hms Hq; cbn [send_reliable_loop].
  { exists i, p. split_and!; try done. destruct (tcp_error p); [by right | left]. split_and!; [done | | ].
    - rewrite zlen_nil. lia.
    - cbn. by rewrite app_nil_r. }
  apply Forall_cons in Hms as [Hm Hms].
  destruct (send_message_spec p m true Hm Hq) as (ret & p1 & Hr & Hq1 & Hs1 & Hc).
  rewrite (bind_run _ _ _ _ _ Hr). rewrite output_size in Hc.
  pose proof (zlen_nonneg (concat (om_buffers m))). rewrite zlen_cons.
  destruct (tcp_error p) eqn:He.
  { unfold tcp_socket_send_message in Hr. rewrite bind_get, He in Hr. injection Hr as <- <-. cbn.
    eexists _, p. split; [done |]. split_and!; try done. by right. }
  destruct Hc as [[Hret E] | [[_ [? _]] | [_ [_ [? | ?]]]]]; [| done..].
  replace (ret <? 0) with false by lia.
  destruct (IH (i + 1) p1) as (r & p' & Hl & Hq' & Hs' & Hc); [lia | done | done |].
  eexists r, p'; split; [done |]. destruct Hs1 as (H1 & H2 & H3), Hs' as (H4 & H5 & H6).
  split_and!; try done; [unfold same_receiver; split_and!; congruence |].
  left. destruct Hc as [(_ & -> & Es) | (? & _)]; [| congruence].
  split_and!; [done | lia |]. rewrite Es, E. cbn. by rewrite app_assoc.
Qed.

(** Flushing sends from the front of the queue. *)
Lemma flush_spec q : ∀ g, queue_ok q → GSocketBlocks G →
  ∃ b q' g', nice_socket_flush_send_queue_to_socket q g = Done ((b, q'), g') ∧ queue_ok q' ∧
    inbox g' = inbox g ∧ wire g' ++ queued q' = wire g ++ queued q ∧ (b = true → q' = []).
Proof.
  induction q as [| tbs q IH]; intros g Hq Hb; cbn [nice_socket_flush_send_queue_to_socket].
  { eexists true, [], g. split_and!; done. }
  apply Forall_cons in Hq as [[Hl Hr] Hq].
  replace (slice (tbs_buf tbs) 0 (tbs_length tbs)) with (Done (tbs_buf tbs)).
  2:{ symmetry. rewrite <- (app_nil_r (tbs_buf tbs)) at 1. by apply (slice_app [] _ []). }
  st_run. destruct (g_send_law g [tbs_buf tbs]) as (ret & g1 & Hg & Hi & Hc).
  cbn [concat] in Hc. rewrite app_nil_r in Hc. rewrite (bind_run _ _ _ _ _ Hg).
  assert (Hmsg : ∀ b : bytes, 0 < zlen b < 2 ^ 31 → ∃ q' src,
    nice_socket_queue_send_with_callback q {| om_buffers := [b] |} 0 (zlen b) true None
      = Done (q', src) ∧ queue_ok q' ∧ queued q' = b ++ queued q).
  { intros b Hlb. destruct (queue_rest q {| om_buffers := [b] |} 0 true None) as (q' & src & E & H1 & H2);
      [apply cut_safe_single | done | cbn; rewrite app_nil_r; lia.. |].
    cbn [om_buffers concat] in E, H2. rewrite app_nil_r in E, H2. rewrite E. eauto. }
  destruct ret as [n | e].
  - destruct Hc as [Hn Hw].
    replace (s32 (tbs_length tbs)) with (tbs_length tbs) by (unfold s32; zlia).
    destruct (Z.ltb_spec n (tbs_length tbs)).
    + destruct (split_at (tbs_buf tbs) n) as (b1 & b2 & Eb & H1); [lia |].
      assert (zlen (tbs_buf tbs) = zlen b1 + zlen b2) by (rewrite Eb; slia).
      assert (Hsl : slice (tbs_buf tbs) n (tbs_length tbs - n) = Done b2).
      { rewrite Eb, <- (app_nil_r (b1 ++ b2)), <- app_assoc. apply slice_app; slia. }
      rewrite Hsl. st_run.
      destruct (Hmsg b2) as (q' & src & -> & Hq' & E); [lia |]. st_run.
      eexists false, q', g1. split_and!; try done.
      rewrite E, Hw, Eb. subst n. unfold zlen. rewrite Nat2Z.id, take_app_length.
      cbn. rewrite Eb. by rewrite <- !app_assoc.
    + destruct (IH g1 Hq Hb) as (b & q' & g' & -> & Hq' & Hi' & E & Hfin).
      eexists _, _, _; split; [done |]. split_and!; try done; [congruence |].
      rewrite E, Hw, take_ge by (unfold zlen in *; lia). cbn. by rewrite app_assoc.
  - specialize (Hb _ _ _ _ Hg). subst e.
    destruct (Hmsg (tbs_buf tbs)) as (q' & src & E0 & Hq' & E); [lia |].
    rewrite <- Hl, E0. st_run. eexists false, q', g1. split_and!; try done.
    rewrite E, Hc. done.
Qed.

(** ** Histories *)

Inductive TcpOp :=
| op_send (ms : list NiceOutputMessage)
| op_send_reliable (ms : list NiceOutputMessage)
| op_send_more (hup : bool)
| op_recv (ms : list NiceInputMessage).

(** Run an operation; the result is what it sent as far as the caller knows. *)
Definition run_tcp_op (o : TcpOp) : st (TcpPriv G) bytes :=
  match o with
  | op_send ms => ret ← send_messages None ms; mret (payload (take (Z.to_nat ret) ms))
  | op_send_reliable ms =>
      ret ← send_messages_reliable None ms; mret (payload (take (Z.to_nat ret) ms))
  | op_send_more hup => _ ← socket_send_more hup; mret []
  | op_recv ms => _ ← recv_messages ms; mret []
  end.
Fixpoint run_tcp (os : list TcpOp) : st (TcpPriv G) bytes :=
  match os with
  | [] => mret []
  | o :: os => b ← run_tcp_op o; r ← run_tcp os; mret (b ++ r)
  end.

Definition tcp_op_ok (o : TcpOp) : Prop :=
  match o with
  | op_send ms | op_send_reliable ms => Forall sendable ms
  | op_send_more _ => True
  | op_recv ms => Forall (λ im, Forall vector_ok (im_buffers im)) ms
  end.

Lemma recv_loop_keeps (ms : list NiceInputMessage) : ∀ i p, Forall (λ im, Forall vector_ok (im_buffers im)) ms →
  ∃ r p', recv_loop i ms p = Done (r, p') ∧ wire (fileno p') = wire (fileno p) ∧
    send_queue p' = send_queue p.
Proof.
  induction ms as [| im ms IH]; intros i p Hv; cbn [recv_loop]; [by eexists _, p |].
  apply Forall_cons in Hv as [Hm Hms].
  destruct (g_receive_law (fileno p) (im_buffers im) Hm) as (ret & vs & g' & Hg & Hw & _).
  rewrite (bind_run (on fileno _) _ p (ret, vs) (p <| fileno := g' |>))
    by (unfold on; by rewrite Hg).
  destruct ret as [n | e]; [| by eexists _, _]. destruct n as [| n | n]; [by eexists _, _ | |];
    (rewrite bind_get;
     destruct (IH (i + 1) (p <| fileno := g' |>) Hms) as ((r & rest) & p' & E & Hw' & Hq');
     rewrite (bind_run _ _ _ _ _ E); eexists _, _; split; [done |]; by rewrite Hw', Hq').
Qed.

Lemma recv_keeps ms p : Forall (λ im, Forall vector_ok (im_buffers im)) ms →
  ∃ r p', tcp_socket_recv_messages ms p = Done (r, p') ∧ wire (fileno p') = wire (fileno p) ∧
    send_queue p' = send_queue p.
Proof.
  intros Hms. unfold tcp_socket_recv_messages. rewrite bind_get.
  destruct (tcp_error p); [by eexists _, _ |].
  destruct (recv_loop_keeps ms 0 p Hms) as ((r & rest) & p' & E & Hwq).
  rewrite (bind_run _ _ _ _ _ E). destruct r; [by eexists _, _ | rewrite bind_get; by eexists _, _].
Qed.

Lemma socket_send_more_spec hup p :
  queue_ok (send_queue p) → GSocketBlocks G →
  ∃ b p', socket_send_more hup p = Done (b, p') ∧ queue_ok (send_queue p') ∧ sent p' = sent p ∧
    (hup = false → b = false → send_queue p' = []) ∧ (b = false → io_source p' = false).
Proof.
  intros Hq Hb. unfold socket_send_more. destruct hup.
  { rewrite bind_ret, bind_put, !bind_get. cbn [writable_cb].
    destruct (writable_cb _); (eexists _, _; split; [done |]; split_and!; done). }
  rewrite bind_bind, bind_get.
  destruct (flush_spec (send_queue p) (fileno p) Hq Hb) as (b & q' & g' & E & Hq' & _ & Es & Hfin).
  rewrite bind_bind, (bind_run (on fileno _) _ p (b, q') (p <| fileno := g' |>))
    by (unfold on; by rewrite E).
  rewrite bind_bind, bind_put, bind_ret.
  destruct b; [| by eexists _, _].
  rewrite bind_put, !bind_get.
  assert (Hq'' : q' = []) by auto. rewrite Hq'' in *.
  destruct (writable_cb _); eexists _, _; split_and!; done.
Qed.

(** C17: a TCP socket keeps the order of the octets.  Over any history of sends,
    reliable sends, flushes from the main loop and receives, in which the system
    takes any part of what it is given, what has reached the system followed by
    what is queued is what was there before followed by the messages the calls
    report as sent; nothing is lost, repeated or reordered, and no call leaves
    the bounds of a buffer.  The system's sends fail only by blocking, and every
    message is safe to cut: its vectors but the last hold at most two octets. *)
Theorem tcp_stream_intact (os : list TcpOp) (p : TcpPriv G)
    (Hos : Forall tcp_op_ok os) (Hq : queue_ok (send_queue p)) (Hb : GSocketBlocks G) :
  ∃ out p', run_tcp os p = Done (out, p') ∧ queue_ok (send_queue p') ∧
    sent p' = sent p ++ out.
Proof.
  revert p Hq. induction os as [| o os IH]; intros p Hq; cbn [run_tcp].
  { eexists [], p. by rewrite app_nil_r. }
  apply Forall_cons in Hos as [Ho Hos].
  assert (∃ out p', run_tcp_op o p = Done (out, p') ∧ queue_ok (send_queue p') ∧
    sent p' = sent p ++ out) as (out & p1 & E & Hq1 & Es).
  { destruct o as [ms | ms | hup | ms]; cbn [run_tcp_op tcp_op_ok] in *.
    - destruct (send_loop_spec ms 0 p) as (ret & p' & E & Hq' & _ & _ & _ & Es); try done.
      rewrite (bind_run _ _ _ _ _ E). rewrite Z.sub_0_r in Es. eauto.
    - destruct (send_reliable_loop_spec ms 0 p) as (ret & p' & E & Hq' & _ & Hc); try done.
      rewrite (bind_run _ _ _ _ _ E). eexists _, p'. split_and!; [done | done |].
      destruct Hc as [(_ & -> & ->) | (_ & -> & ->)].
      + unfold zlen. by rewrite take_ge by lia.
      + destruct ms; cbn; by rewrite app_nil_r.
    - destruct (socket_send_more_spec hup p Hq Hb) as (b & p' & E & Hq' & Es & _).
      rewrite (bind_run _ _ _ _ _ E). eexists [], p'. by rewrite app_nil_r.
    - destruct (recv_keeps ms p Ho) as (r & p' & E & Hw & Hsq).
      rewrite (bind_run _ _ _ _ _ E). eexists [], p'. unfold sent. by rewrite Hw, Hsq, app_nil_r. }
  destruct (IH Hos p1 Hq1) as (r & p' & E' & Hq' & Es').
  rewrite (bind_run _ _ _ _ _ E), (bind_run _ _ _ _ _ E'). eexists _, p'. split_and!; try done.
  by rewrite Es', Es, app_assoc.
Qed.

(** A TCP socket is a stream socket. *)
Context `{!GSocketBlocks G}.
Definition tcp_usable p : Prop := tcp_error p = false ∧ queue_ok (send_queue p).

Lemma tcp_recv_law p (vs : list GInputVector) (from : option NiceAddress) :
  tcp_usable p → Forall vector_ok vs →
  ∃ ret vs' from' n p',
    recv_messages [{| im_buffers := vs; im_from := from; im_length := 0 |}] p
    = Done ((ret, [{| im_buffers := vs'; im_from := from'; im_length := n |}]), p') ∧
    Forall2 same_shape vs vs' ∧
    (ret < 0 ∨
     tcp_usable p' ∧ sent p' = sent p ∧
     (ret = 0 ∧ n = 0 ∧ inbox (fileno p') = inbox (fileno p) ∧ vs' = vs ∨
      ret = 1 ∧ 0 < n ∧
        ∃ chunk, inbox (fileno p) = chunk ++ inbox (fileno p') ∧ zlen chunk = n ∧
                 fill_vectors vs chunk = Done (vs', n))).
Proof.
  intros [He Hq] Hs.
  change (@recv_messages (TcpPriv G) _) with (@tcp_socket_recv_messages G _).
  unfold tcp_socket_recv_messages. rewrite bind_get, He. unfold recv_loop.
  destruct (g_receive_law (fileno p) vs Hs) as (ret & vs' & g' & Hg & Hw & Hc).
  assert (Hsent : sent (p <| fileno := g' |>) = sent p) by (unfold sent; cbn; by rewrite Hw).
  cbn [im_buffers]. rewrite bind_bind.
  rewrite (bind_run (on fileno _) _ p (ret, vs') (p <| fileno := g' |>)) by (unfold on; by rewrite Hg).
  destruct ret as [n | e].
  - destruct Hc as (chunk & Hi & Hf & Hl). destruct (fill_shape _ _ _ _ Hf) as [Hsh _].
    pose proof (zlen_nonneg chunk).
    destruct n as [| n | n]; [| | lia].
    + rewrite bind_bind, bind_put. eexists (-1), _, _, _, _. split; [done |]. split; [done |]. left. lia.
    + rewrite bind_bind, bind_get, bind_bind, bind_ret.
      rewrite bind_ret, bind_get, (andb_false_r _ : _ && (0 + 1 =? 0) = false).
      eexists 1, _, _, (Z.pos n), _. split; [done |]. split; [done |]. right.
      split; [by split |]. split; [done |]. right. split; [done |]. split; [lia |]. by exists chunk.
  - destruct Hc as [Hi ->]. rewrite bind_ret.
    assert (Hrefl : Forall2 same_shape vs vs) by (apply Forall_Forall2_diag, Forall_forall; by split).
    destruct (decide (e = G_IO_ERROR_WOULD_BLOCK)) as [-> | Hne].
    + eexists 0, vs, _, 0, _. split; [done |]. split; [done |]. right.
      split; [by split |]. split; [done |]. by left.
    + rewrite bool_decide_false by done. eexists (-1), _, _, _, _. split; [done |]. split; [done |]. left. lia.
Qed.

Lemma tcp_send_law p (to : option NiceAddress) (b : bytes) :
  tcp_usable p → zlen b < 2 ^ 31 →
  ∃ p', send_messages_reliable to [{| om_buffers := [b] |}] p = Done (1, p') ∧
    tcp_usable p' ∧ inbox (fileno p') = inbox (fileno p) ∧ sent p' = sent p ++ b.
Proof.
  intros [He Hq] Hb.
  destruct (send_reliable_loop_spec [{| om_buffers := [b] |}] 0 p)
    as (ret & p' & E & Hq' & (Hi & He' & _) & Hc); [done | | done | done |].
  { constructor; [| done]. split; [apply cut_safe_single |]. rewrite output_size. cbn.
    by rewrite app_nil_r. }
  destruct Hc as [(_ & -> & Es) | (? & _)]; [| congruence].
  exists p'. split; [exact E |]. split; [split; [congruence | done] |]. split; [done |].
  rewrite Es. cbn. by rewrite !app_nil_r.
Qed.

#[export] Instance tcp_stream_socket : StreamSocket (TcpPriv G) :=
  {| unread := λ p, inbox (fileno p); written := sent; usable := tcp_usable;
     recv_law := tcp_recv_law; send_law := tcp_send_law |}.
End tcp.

(** ** A scripted system socket

    [s_tx] and [s_rx] are the amounts the next sends take and the next receives
    give; 0, or the end of the script, is a call that would block. *)
Record script := {
  s_wire : bytes;
  s_inbox : bytes;
  s_tx : list Z;
  s_rx : list Z
}.

Definition script_send (bufs : list bytes) : st script g_result := λ s,
  let data := concat bufs in
  match s_tx s with
  | n :: tx =>
      if n <=? 0 then Done (G_ERROR G_IO_ERROR_WOULD_BLOCK, Build_script (s_wire s) (s_inbox s) tx (s_rx s))
      else
        let n := Z.min n (zlen data) in
        Done (G_BYTES n, Build_script (s_wire s ++ take (Z.to_nat n) data) (s_inbox s) tx (s_rx s))
  | [] => Done (G_ERROR G_IO_ERROR_WOULD_BLOCK, s)
  end.

Definition script_receive (vs : list GInputVector) : st script (g_result * list GInputVector) := λ s,
  match s_rx s with
  | n :: rx =>
      if n <=? 0
      then Done ((G_ERROR G_IO_ERROR_WOULD_BLOCK, vs), Build_script (s_wire s) (s_inbox s) (s_tx s) rx)
      else
        let n := Z.to_nat (Z.min n (sizes (map iv_size vs))) in
        '(vs, n') ← fill_vectors vs (take n (s_inbox s));
        Done ((G_BYTES n', vs), Build_script (s_wire s) (drop n (s_inbox s)) (s_tx s) rx)
  | [] => Done ((G_ERROR G_IO_ERROR_WOULD_BLOCK, vs), s)
  end.

#[export] Instance script_socket : GSocket script :=
  {| g_socket_receive_message := script_receive; g_socket_send_message := script_send |}.

Lemma sizes_nonneg vs : Forall vector_ok vs → 0 ≤ sizes (map iv_size vs).
Proof. induction 1 as [| v vs [Hv _] _ IH]; cbn; lia. Qed.

Lemma fill_vectors_fits vs : ∀ chunk,
  Forall vector_ok vs → zlen chunk ≤ sizes (map iv_size vs) →
  ∃ vs', fill_vectors vs chunk = Done (vs', zlen chunk).
Proof.
  induction vs as [| v vs IH]; intros chunk Hv Hc; cbn [map sizes fill_vectors] in *.
  { rewrite (zlen_0_inv chunk) by slia. by exists []. }
  apply Forall_cons in Hv as [[Hv1 Hv2] Hv]. pose proof (zlen_nonneg chunk).
  destruct (Z.eqb_spec (zlen chunk) 0) as [-> | Hn]; [by eexists |].
  destruct (split_at chunk (Z.min (iv_size v) (zlen chunk))) as (c1 & c2 & -> & H1); [lia |].
  rewrite <- H1. replace (Z.to_nat (zlen c1)) with (length c1) by (unfold zlen; lia).
  rewrite take_app_length, drop_app_length.
  destruct (split_at (iv_buffer v) (zlen c1)) as (b1 & b2 & -> & H2); [slia |].
  rewrite (store_app [] b1 b2 c1) by done. rewrite bind_Done.
  pose proof (sizes_nonneg vs Hv). destruct (IH c2 Hv) as [vs' ->]; [slia |]. rewrite bind_Done. eexists. by rewrite zlen_app.
Qed.

#[export] Instance script_laws : GSocketLaws script.
Proof.
  refine {| wire := s_wire; inbox := s_inbox |}.
  - intros g bufs. cbn [g_socket_send_message script_socket]. unfold script_send.
    destruct (s_tx g) as [| n tx]; [by eexists _, _ |].
    destruct (Z.leb_spec n 0); [by eexists _, _ |].
    pose proof (zlen_nonneg (concat bufs)). eexists _, _; split; [done |]. split_and!; try done; lia.
  - intros g vs Hv. cbn [g_socket_receive_message script_socket]. unfold script_receive.
    destruct (s_rx g) as [| n rx]; [by eexists _, _, _ |].
    destruct (Z.leb_spec n 0); [by eexists _, _, _ |].
    pose proof (sizes_nonneg vs Hv).
    set (chunk := take (Z.to_nat (Z.min n (sizes (map iv_size vs)))) (s_inbox g)).
    destruct (fill_vectors_fits vs chunk Hv) as [vs' E].
    { unfold chunk, zlen. rewrite length_take. lia. }
    rewrite E, bind_Done. eexists _, _, _; split; [done |]. split; [done |].
    exists chunk. split_and!; [| done | done]. symmetry. apply take_drop.
Defined.

#[export] Instance script_blocks : GSocketBlocks script.
Proof.
  intros g g' bufs e. cbn [g_socket_send_message script_socket]. unfold script_send.
  destruct (s_tx g); [congruence |]. by case_match; intros [=].
Qed.

#[export] Instance poison_malloc : Malloc.
Proof.
  refine {| g_malloc := λ n, replicate (Z.to_nat n) 0xa5 |}.
  intros n Hn. unfold zlen. rewrite length_replicate. lia.
Defined.

Definition sample_tcp (s : script) : TcpPriv script :=
  nice_tcp_bsd_socket_new_from_gsock s address_zero true.
Definition one_buffer (b : bytes) : NiceOutputMessage := {| om_buffers := [b] |}.

Lemma tcp_stream_intact_witness :
  let p := sample_tcp {| s_wire := []; s_inbox := []; s_tx := [2; 0; 1; 1]; s_rx := [] |} in
  ∃ out p', run_tcp [op_send_reliable [one_buffer [1; 2; 3]; one_buffer [4; 5]]; op_send_more false;
                     op_send [one_buffer [6]]; op_send_more false] p = Done (out, p') ∧
    queue_ok (send_queue p') ∧ sent p' = sent p ++ out.
Proof.
  intros p. apply tcp_stream_intact; [| constructor | apply _].
  repeat constructor; cbn; try lia; by right.
Defined.

(** Two messages, the first cut after two octets; a flush sends one more, and
    the second message stays in the queue. *)
Example tcp_run :
  ('(out, p) ← run_tcp [op_send_reliable [one_buffer [1; 2; 3]; one_buffer [4; 5]]; op_send_more false]
      (sample_tcp {| s_wire := []; s_inbox := []; s_tx := [2; 1]; s_rx := [] |});
   Done (out, wire (fileno p), queued (send_queue p)))
  = Done ([1; 2; 3; 4; 5], [1; 2; 3], [4; 5]).
Proof. vm_compute. reflexivity. Qed.

(** ** Cut messages

    A message of two buffers cut in the second half of the first: the offset
    that is left after the first buffer is taken off the second one too, so the
    queue holds the wrong octets, followed by memory nobody wrote. *)
Lemma cut_message_corrupted :
  let m := {| om_buffers := [[1; 2; 3; 4; 5; 6; 7; 8; 9; 10]; [11; 12; 13; 14; 15; 16; 17; 18; 19; 20]] |} in
  ('(out, p) ← run_tcp [op_send_reliable [m]]
      (sample_tcp {| s_wire := []; s_inbox := []; s_tx := [8]; s_rx := [] |});
   Done (out, wire (fileno p), queued (send_queue p)))
  = Done (payload [m], [1; 2; 3; 4; 5; 6; 7; 8], [9; 10; 17; 18; 19; 20] ++ replicate 6 0xa5).
Proof. vm_compute. reflexivity. Qed.

(** A receive into two messages that would block at the second returns 0: the
    octets of the first are gone. *)
Lemma received_message_dropped :
  let m := {| im_buffers := [{| iv_buffer := [0; 0]; iv_size := 2 |}]; im_from := None; im_length := 0 |} in
  ('(ret, _, p) ← tcp_socket_recv_messages [m; m]
      (sample_tcp {| s_wire := []; s_inbox := [1; 2]; s_tx := []; s_rx := [2] |});
   Done (ret, inbox (fileno p)))
  = Done (0, []).
Proof. vm_compute. reflexivity. Qed.

(** A receive of no octets is taken for the end of the stream. *)
Lemma empty_receive_is_an_error (p : TcpPriv script) b :
  tcp_error p = false → s_rx (fileno p) = [1] →
  ∃ ms p', tcp_socket_recv_messages
      [{| im_buffers := [{| iv_buffer := b; iv_size := 0 |}]; im_from := None; im_length := 0 |}] p
    = Done ((-1, ms), p') ∧ tcp_error p' = true.
Proof.
  intros He Hs. unfold tcp_socket_recv_messages, recv_loop. rewrite bind_get, He.
  cbn [im_buffers].
  assert (Hr : on fileno (g_socket_receive_message [{| iv_buffer := b; iv_size := 0 |}]) p
    = Done ((G_BYTES 0, [{| iv_buffer := b; iv_size := 0 |}]),
            p <| fileno := Build_script (s_wire (fileno p)) (s_inbox (fileno p)) (s_tx (fileno p)) [] |>)).
  { unfold on. cbn [g_socket_receive_message script_socket]. unfold script_receive. by rewrite Hs. }
  rewrite bind_bind, (bind_run _ _ _ _ _ Hr). by eexists _, _.
Qed.

(** ** Sockets on top of stream sockets

    Lemmas the proxy sockets share: what they queue before the connection
    stands goes out in order when it does. *)

Section malloc.
Context `{!Malloc}.

Lemma queue_compact_spec bufs : ∀ pre hole,
  zlen hole = zlen (concat bufs) →
  queue_compact bufs (pre ++ hole) (zlen hole) (zlen pre)
  = Done (pre ++ concat bufs, zlen (pre ++ concat bufs)).
Proof.
  induction bufs as [| b bufs IH]; intros pre hole Hh; cbn [queue_compact concat] in *.
  { rewrite (zlen_0_inv hole) by slia. by rewrite app_nil_r. }
  rewrite zlen_app in Hh. pose proof (zlen_nonneg (concat bufs)).
  rewrite Z.min_l by lia. rewrite <- (app_nil_r b) at 1.
  rewrite (slice_app [] b []), bind_Done by done.
  destruct (split_at hole (zlen b)) as (h1 & h2 & -> & H1); [slia |].
  rewrite (store_app pre h1 h2 b) by done. rewrite bind_Done.
  rewrite app_assoc. replace (zlen (h1 ++ h2) - zlen b) with (zlen h2) by slia.
  replace (zlen pre + zlen b) with (zlen (pre ++ b)) by slia.
  rewrite IH by slia. by rewrite <- app_assoc.
Qed.

(** What can be queued: under 2 GiB each. *)
Definition queueable (ms : list NiceOutputMessage) : Prop :=
  Forall (λ m, output_message_get_size m < 2 ^ 31) ms.

Lemma queue_send_spec to ms : ∀ q, queueable ms →
  ∃ q', nice_socket_queue_send q to ms = Done q' ∧ queued q' = queued q ++ payload ms ∧
    (queue_ok q → queue_ok q').
Proof.
  induction ms as [| m ms IH]; intros q Hms; cbn [nice_socket_queue_send].
  { exists q. cbn. by rewrite app_nil_r. }
  apply Forall_cons in Hms as [Hm Hms]. rewrite output_size in *.
  pose proof (zlen_nonneg (concat (om_buffers m))). unfold payload. cbn [map concat].
  destruct (Z.eqb_spec (zlen (concat (om_buffers m))) 0) as [E | E].
  { rewrite (zlen_0_inv _ E). by apply IH. }
  set (n := zlen (concat (om_buffers m))) in *.
  pose proof (g_malloc_length n ltac:(lia)) as Hg.
  pose proof (queue_compact_spec (om_buffers m) [] (g_malloc n) Hg) as Hc.
  cbn [app] in Hc. rewrite Hg in Hc. change (zlen (@nil Z)) with 0 in Hc. rewrite Hc, bind_Done.
  rewrite Z.eqb_refl. cbn [assert_]. rewrite bind_Done.
  destruct (IH (q ++ [{| tbs_buf := concat (om_buffers m); tbs_length := n;
    tbs_to := match to with Some a => a | None => address_zero end |}]) Hms) as (q' & E' & Hq & Hok).
  exists q'. split; [exact E' |]. split.
  - rewrite Hq. unfold queued, payload. rewrite map_app, concat_app. cbn. by rewrite app_nil_r, app_assoc.
  - intros Hq0. apply Hok, Forall_app. split; [done |]. constructor; [cbn; lia | done].
Qed.
End malloc.

Section flush.
Context {B : Type} `{!NiceSocket B, !StreamSocket B}.

Lemma send_reliable_spec (s : B) to b : usable s → zlen b < 2 ^ 31 →
  ∃ s', nice_socket_send_reliable to b (Some s) = Done (zlen b, Some s') ∧ usable s' ∧
    unread s' = unread s ∧ written s' = written s ++ b.
Proof.
  intros Hs Hb. destruct (send_law s to b Hs Hb) as (s' & E & H).
  exists s'. split; [| done]. unfold nice_socket_send_reliable.
  rewrite (bind_run _ _ _ 1 (Some s')); [done |]. unfold on_base. by rewrite E.
Qed.

(** Flushing the queue of a proxy sends it in order, whole. *)
Lemma flush_queue_spec q : ∀ s : B, usable s → queue_ok q →
  ∃ s', nice_socket_flush_send_queue q (Some s) = Done (tt, Some s') ∧ usable s' ∧
    unread s' = unread s ∧ written s' = written s ++ queued q.
Proof.
  induction q as [| tbs q IH]; intros s Hs Hq; cbn [nice_socket_flush_send_queue].
  { exists s. by rewrite app_nil_r. }
  apply Forall_cons in Hq as [[Hl Hr] Hq].
  assert (Hsl : slice (tbs_buf tbs) 0 (tbs_length tbs) = Done (tbs_buf tbs)).
  { rewrite <- (app_nil_r (tbs_buf tbs)) at 1. by apply (slice_app [] _ []). }
  rewrite Hsl, bind_lift.
  destruct (send_reliable_spec s (if nice_address_is_valid (tbs_to tbs) then Some (tbs_to tbs) else None)
    (tbs_buf tbs) Hs) as (s1 & E & Hs1 & Hu1 & Hw1); [lia |].
  rewrite (bind_run _ _ _ _ _ E).
  destruct (IH s1 Hs1 Hq) as (s' & E' & Hs' & Hu' & Hw').
  exists s'. split_and!; [done | done | congruence |]. rewrite Hw', Hw1. cbn. by rewrite app_assoc.
Qed.
End flush.
