(* ===== verification/TurnTcp.v ===== *)
(** * TURN messages over a stream (socket/udp-turn-over-tcp.c)

    Framing and unframing of STUN messages and channel data on a connection to a
    TURN server, over any base socket.  A received frame is assembled in
    [recv_buf], an array of 65536 octets inside [TurnTcpPriv]; [expecting_len]
    is 0 while the header of the next frame is incomplete. *)

From S2P Require Import Prelude Bytes StateMonad StunMessage NiceAddress NiceSocket.

Inductive NiceTurnSocketCompatibility :=
| NICE_TURN_SOCKET_COMPATIBILITY_DRAFT9
| NICE_TURN_SOCKET_COMPATIBILITY_GOOGLE
| NICE_TURN_SOCKET_COMPATIBILITY_MSN
| NICE_TURN_SOCKET_COMPATIBILITY_OC2007
| NICE_TURN_SOCKET_COMPATIBILITY_RFC5766.
#[export] Instance NiceTurnSocketCompatibility_eq_dec : EqDecision NiceTurnSocketCompatibility.
Proof. solve_decision. Defined.

Definition MS_TURN_CONTROL_MESSAGE : Z := 2.
Definition MS_TURN_END_TO_END_DATA : Z := 3.
Definition MAGIC_COOKIE_OFFSET : Z := 20 + 2 + 2 + 2.

Section turn_tcp.
Context {S : Type} `{!NiceSocket S}.

Record TurnTcpPriv := {
  tt_compatibility : NiceTurnSocketCompatibility;
  recv_buf : bytes;
  recv_buf_len : Z;
  expecting_len : Z;
  base_socket : option S
}.
Definition eta_TurnTcpPriv (p : TurnTcpPriv) : TurnTcpPriv :=
  Build_TurnTcpPriv (tt_compatibility p) (recv_buf p) (recv_buf_len p) (expecting_len p) (base_socket p).
#[export] Instance set_recv_buf : Setter recv_buf := ltac:(derive_setter eta_TurnTcpPriv recv_buf).
#[export] Instance set_recv_buf_len : Setter recv_buf_len :=
  ltac:(derive_setter eta_TurnTcpPriv recv_buf_len).
#[export] Instance set_expecting_len : Setter expecting_len :=
  ltac:(derive_setter eta_TurnTcpPriv expecting_len).
#[export] Instance set_base_socket : Setter base_socket :=
  ltac:(derive_setter eta_TurnTcpPriv base_socket).

Definition nice_udp_turn_over_tcp_socket_new (base_socket : option S)
    (compatibility : NiceTurnSocketCompatibility) : TurnTcpPriv :=
  Build_TurnTcpPriv compatibility (replicate (Z.to_nat 65536) 0) 0 0 base_socket.

(** [DRAFT9 || RFC5766] *)
Definition turn_standard (c : NiceTurnSocketCompatibility) : bool :=
  bool_decide (c = NICE_TURN_SOCKET_COMPATIBILITY_DRAFT9) ||
  bool_decide (c = NICE_TURN_SOCKET_COMPATIBILITY_RFC5766).

Definition padlen (len : Z) : Z := if len mod 4 =? 0 then 0 else 4 - len mod 4.

(** ** Receiving *)

(** One receive of [size] octets behind the first [recv_buf_len] of the buffer:
    the return value and the length.  The sender's address goes to the place
    the caller's message points to. *)
Definition recv_some (recv_message : NiceInputMessage) (size : Z)
  : st TurnTcpPriv (Z * Z * NiceInputMessage) :=
  buf ← get recv_buf;
  len ← get recv_buf_len;
  '(ret, ms) ← on base_socket (nice_socket_recv_messages
    [{| im_buffers := [{| iv_buffer := drop (Z.to_nat len) buf; iv_size := u64 size |}];
        im_from := im_from recv_message; im_length := 0 |}]);
  match ms with
  | [{| im_buffers := [{| iv_buffer := b |}]; im_from := from; im_length := n |}] =>
      _ ← put recv_buf (take (Z.to_nat len) buf ++ b);
      mret (ret, n, recv_message <| im_from := from |>)
  | _ => ub
  end.

(** A [guint16] of the buffer, in network order. *)
Definition recv_u16 (i : Z) : st TurnTcpPriv Z :=
  buf ← get recv_buf;
  d ← lift (slice buf (2 * i) 2);
  mret (of_be d).

(** The header of a frame has been read: sets [expecting_len]; [false] when the
    stream makes no sense. *)
Definition recv_header (c : NiceTurnSocketCompatibility) : st TurnTcpPriv bool :=
  match c with
  | NICE_TURN_SOCKET_COMPATIBILITY_DRAFT9 | NICE_TURN_SOCKET_COMPATIBILITY_RFC5766 =>
      magic ← recv_u16 0;
      packetlen ← recv_u16 1;
      _ ← put expecting_len ((if magic <? 0x4000 then 20 else 4) + packetlen);
      mret true
  | NICE_TURN_SOCKET_COMPATIBILITY_GOOGLE =>
      compat_len ← recv_u16 0;
      _ ← put expecting_len compat_len;
      _ ← put recv_buf_len 0;
      mret true
  | NICE_TURN_SOCKET_COMPATIBILITY_OC2007 =>
      buf ← get recv_buf;
      pt ← lift (getb buf 0);
      packetlen ← recv_u16 1;
      if negb (pt =? MS_TURN_CONTROL_MESSAGE) && negb (pt =? MS_TURN_END_TO_END_DATA)
      then mret false
      else
        _ ← put expecting_len (packetlen + 2);
        _ ← put recv_buf_len 2;
        d ← lift (slice buf 2 2);
        buf ← lift (store buf 0 d);
        _ ← put recv_buf buf;
        mret true
  | NICE_TURN_SOCKET_COMPATIBILITY_MSN => mret true
  end.

(** The body of a frame. *)
Definition recv_body (c : NiceTurnSocketCompatibility) (recv_message : NiceInputMessage)
  : st TurnTcpPriv (Z * NiceInputMessage) :=
  expecting ← get expecting_len;
  len ← get recv_buf_len;
  let padlen := if turn_standard c then padlen expecting else 0 in
  '(ret, n, recv_message) ← recv_some recv_message (expecting + padlen - len);
  if ret <? 0 then mret (ret, recv_message)
  else
    _ ← upd recv_buf_len (λ l, l + n);
    len ← get recv_buf_len;
    if len =? expecting + padlen then
      buf ← get recv_buf;
      d ← lift (slice buf 0 len);
      '(recv_message, ret) ← lift (memcpy_buffer_to_input_message recv_message d);
      _ ← put expecting_len 0;
      _ ← put recv_buf_len 0;
      mret (ret, recv_message)
    else mret (0, recv_message).

(** The header takes 4 octets, or 2. *)
Definition headerlen (c : NiceTurnSocketCompatibility) : option Z :=
  match c with
  | NICE_TURN_SOCKET_COMPATIBILITY_DRAFT9 | NICE_TURN_SOCKET_COMPATIBILITY_RFC5766
  | NICE_TURN_SOCKET_COMPATIBILITY_OC2007 => Some 4
  | NICE_TURN_SOCKET_COMPATIBILITY_GOOGLE => Some 2
  | NICE_TURN_SOCKET_COMPATIBILITY_MSN => None
  end.

Definition turn_tcp_recv_message (recv_message : NiceInputMessage)
  : st TurnTcpPriv (Z * NiceInputMessage) :=
  c ← get tt_compatibility;
  expecting ← get expecting_len;
  if expecting =? 0 then
    match headerlen c with
    | None => mret (-1, recv_message)
    | Some headerlen =>
        len ← get recv_buf_len;
        '(ret, n, recv_message) ← recv_some recv_message (headerlen - len);
        if ret <? 0 then mret (ret, recv_message)
        else
          _ ← upd recv_buf_len (λ l, l + n);
          len ← get recv_buf_len;
          if len <? headerlen then mret (0, recv_message)
          else
            ok ← recv_header c;
            if negb ok then mret (-1, recv_message) else recv_body c recv_message
    end
  else recv_body c recv_message.

(** The loop over the messages, at message [i]. *)
Fixpoint turn_tcp_recv_loop (i : Z) (messages : list NiceInputMessage)
  : st TurnTcpPriv (Z * list NiceInputMessage) :=
  match messages with
  | [] => mret (i, [])
  | m :: rest =>
      '(len, m) ← turn_tcp_recv_message m;
      let m := m <| im_length := Z.max len 0 |> in
      if len <=? 0 then mret (if (len <? 0) && (i =? 0) then -1 else i, m :: rest)
      else
        '(r, rest) ← turn_tcp_recv_loop (i + 1) rest;
        mret (r, m :: rest)
  end.
Definition turn_tcp_recv_messages (messages : list NiceInputMessage)
  : st TurnTcpPriv (Z * list NiceInputMessage) := turn_tcp_recv_loop 0 messages.

(** ** Sending *)

(** The search for the magic cookie in the vectors of a message, [buf_offset]
    octets in: the cookie, 0 when it is not there in one piece. *)
Fixpoint find_cookie (bufs : list bytes) (buf_offset : Z) : outcome Z :=
  match bufs with
  | [] => mret 0
  | b :: bufs =>
      if MAGIC_COOKIE_OFFSET - buf_offset <? zlen b then
        if 4 + MAGIC_COOKIE_OFFSET - buf_offset <? zlen b then
          d ← slice b (MAGIC_COOKIE_OFFSET - buf_offset) 4;
          mret (of_be d)
        else mret 0
      else find_cookie bufs (u16 (buf_offset + zlen b))
  end.

(** The vectors sent for a message: a header before it or padding behind it. *)
Definition frame_buffers (c : NiceTurnSocketCompatibility) (message : NiceOutputMessage)
  : outcome (list bytes) :=
  let size := output_message_get_size message in
  match c with
  | NICE_TURN_SOCKET_COMPATIBILITY_GOOGLE => mret (be 2 size :: om_buffers message)
  | NICE_TURN_SOCKET_COMPATIBILITY_DRAFT9 | NICE_TURN_SOCKET_COMPATIBILITY_RFC5766 =>
      mret (om_buffers message ++ [replicate (Z.to_nat (padlen size)) 0])
  | NICE_TURN_SOCKET_COMPATIBILITY_OC2007 =>
      cookie ← (if 4 + MAGIC_COOKIE_OFFSET <? u16 size then find_cookie (om_buffers message) 0
                else mret 0);
      mret ([if cookie =? TURN_MAGIC_COOKIE then MS_TURN_CONTROL_MESSAGE else MS_TURN_END_TO_END_DATA; 0]
            :: om_buffers message)
  | NICE_TURN_SOCKET_COMPATIBILITY_MSN => mret (om_buffers message)
  end.

Definition turn_tcp_send_message (to : option NiceAddress) (message : NiceOutputMessage)
    (reliable : bool) : st TurnTcpPriv Z :=
  c ← get tt_compatibility;
  bufs ← lift (frame_buffers c message);
  let local_message := {| om_buffers := bufs |} in
  ret ← on base_socket (if reliable then nice_socket_send_messages_reliable to [local_message]
                        else nice_socket_send_messages to [local_message]);
  mret (if ret =? 1 then output_message_get_size local_message else ret).

Fixpoint turn_tcp_send_loop (to : option NiceAddress) (i : Z) (messages : list NiceOutputMessage)
  : st TurnTcpPriv Z :=
  match messages with
  | [] => mret i
  | m :: messages =>
      len ← turn_tcp_send_message to m false;
      if len <? 0 then mret (if 0 <? i then i else len)
      else if len =? 0 then mret i
      else turn_tcp_send_loop to (i + 1) messages
  end.
Definition turn_tcp_send_messages (to : option NiceAddress) (messages : list NiceOutputMessage)
  : st TurnTcpPriv Z := turn_tcp_send_loop to 0 messages.

Fixpoint turn_tcp_send_reliable_loop (to : option NiceAddress) (i : Z)
    (messages : list NiceOutputMessage) : st TurnTcpPriv Z :=
  match messages with
  | [] => mret i
  | m :: messages =>
      len ← turn_tcp_send_message to m true;
      if len <? 0 then mret len else turn_tcp_send_reliable_loop to (i + 1) messages
  end.
Definition turn_tcp_send_messages_reliable (to : option NiceAddress)
    (messages : list NiceOutputMessage) : st TurnTcpPriv Z :=
  turn_tcp_send_reliable_loop to 0 messages.

Definition turn_tcp_is_reliable (p : TurnTcpPriv) : outcome bool :=
  nice_socket_is_reliable (base_socket p).
Definition turn_tcp_can_send (addr : option NiceAddress) (p : TurnTcpPriv) : outcome bool :=
  nice_socket_can_send addr (base_socket p).
Definition turn_tcp_set_writable_callback (cb : option NiceSocketWritableCb) : st TurnTcpPriv unit :=
  on base_socket (nice_socket_set_writable_callback cb).

#[export] Instance turn_tcp_socket : NiceSocket TurnTcpPriv := {|
  recv_messages := turn_tcp_recv_messages;
  send_messages := turn_tcp_send_messages;
  send_messages_reliable := turn_tcp_send_messages_reliable;
  is_reliable := turn_tcp_is_reliable;
  can_send := turn_tcp_can_send;
  set_writable_callback := turn_tcp_set_writable_callback
|}.
End turn_tcp.
Arguments TurnTcpPriv S : clear implicits.
