(* ===== verification/TurnTcpStream.v ===== *)
(** * TURN over a stream: reassembly

    The frames of each compatibility mode, and that unframing gives back the
    messages the peer framed, however the connection cuts the stream. *)

From S2P Require Import Prelude Bytes StateMonad StunMessage NiceAddress NiceSocket TcpBsd TcpStream TurnTcp.

(** ** Frames *)

(** The [i]-th 16-bit word of a stream, in network order. *)
Definition word16 (u : bytes) (i : Z) : Z := of_be (take 2 (drop (Z.to_nat (2 * i)) u)).

(** The octets of a frame, padding included, from its header. *)
Definition frame_total (c : NiceTurnSocketCompatibility) (u : bytes) : Z :=
  match c with
  | NICE_TURN_SOCKET_COMPATIBILITY_DRAFT9 | NICE_TURN_SOCKET_COMPATIBILITY_RFC5766 =>
      let e := (if word16 u 0 <? 0x4000 then 20 else 4) + word16 u 1 in e + padlen e
  | NICE_TURN_SOCKET_COMPATIBILITY_GOOGLE => 2 + word16 u 0
  | NICE_TURN_SOCKET_COMPATIBILITY_OC2007 => 4 + word16 u 1
  | NICE_TURN_SOCKET_COMPATIBILITY_MSN => 0
  end.

(** The octets of the header that are not handed up. *)
Definition frame_skip (c : NiceTurnSocketCompatibility) : Z :=
  match c with
  | NICE_TURN_SOCKET_COMPATIBILITY_GOOGLE | NICE_TURN_SOCKET_COMPATIBILITY_OC2007 => 2
  | _ => 0
  end.

Definition payload_type_ok (c : NiceTurnSocketCompatibility) (u : bytes) : Prop :=
  c = NICE_TURN_SOCKET_COMPATIBILITY_OC2007 →
  u !! 0%nat = Some MS_TURN_CONTROL_MESSAGE ∨ u !! 0%nat = Some MS_TURN_END_TO_END_DATA.

(** A frame the receiver takes: whole, with a valid header, and no larger than
    the buffer. *)
Record well_framed (c : NiceTurnSocketCompatibility) (f : bytes) : Prop := {
  wf_ok : bytes_ok f;
  wf_header : ∃ h, headerlen c = Some h ∧ h ≤ zlen f;
  wf_total : zlen f = frame_total c f;
  wf_type : payload_type_ok c f;
  wf_fits : zlen f - frame_skip c ≤ 65536
}.

Lemma word16_app u v i : 0 ≤ i → 2 * i + 2 ≤ zlen u → word16 (u ++ v) i = word16 u i.
Proof.
  intros Hi Hl. unfold word16. rewrite drop_app_le by (unfold zlen in Hl; lia).
  rewrite take_app_le; [done |]. rewrite length_drop. unfold zlen in Hl; lia.
Qed.

Lemma word16_range u i : bytes_ok u → 0 ≤ word16 u i < 2 ^ 16.
Proof.
  intros Hu. unfold word16.
  pose proof (of_be_range (take 2 (drop (Z.to_nat (2 * i)) u))) as H.
  assert (Hl : zlen (take 2 (drop (Z.to_nat (2 * i)) u)) ≤ 2) by (unfold zlen; rewrite length_take; lia).
  pose proof (zlen_nonneg (take 2 (drop (Z.to_nat (2 * i)) u))).
  assert (2 ^ (8 * zlen (take 2 (drop (Z.to_nat (2 * i)) u))) ≤ 2 ^ 16) by (apply Z.pow_le_mono_r; lia).
  specialize (H (Forall_take _ _ _ (Forall_drop _ _ _ Hu))). lia.
Qed.

Lemma frame_total_app c u v h :
  headerlen c = Some h → h ≤ zlen u → frame_total c (u ++ v) = frame_total c u.
Proof.
  intros Hh Hl. destruct c; try discriminate Hh; injection Hh as <-; cbn [frame_total];
    rewrite ?word16_app by lia; done.
Qed.

Lemma headerlen_range c h : headerlen c = Some h → 2 ≤ h ≤ 4.
Proof. destruct c; intros [= <-]; lia. Qed.

Lemma padlen_range e : 0 ≤ padlen e < 4.
Proof. unfold padlen. zcase; zlia. Qed.
Lemma padlen_padded e : padlen (e + padlen e) = 0.
Proof. unfold padlen. zcase; zlia. Qed.

(** The slices the code reads are the words of the stream. *)
Lemma slice_word u v i : 0 ≤ i → 2 * i + 2 ≤ zlen u →
  ∃ d, slice (u ++ v) (2 * i) 2 = Done d ∧ of_be d = word16 u i.
Proof.
  intros Hi Hl. unfold slice.
  replace ((0 <=? 2 * i) && (0 <=? 2) && (2 * i + 2 <=? zlen (u ++ v)))%bool with true
    by (symmetry; rewrite !andb_true_iff, !Z.leb_le; slia).
  eexists; split; [done |]. rewrite <- (word16_app u v i) by lia. done.
Qed.

(** What fits is copied. *)
Lemma fill_vectors_total vs : ∀ d, Forall vector_ok vs →
  ∃ vs' n, fill_vectors vs d = Done (vs', n) ∧ 0 ≤ n.
Proof.
  induction vs as [| v vs IH]; intros d Hv; cbn [fill_vectors]; [by eexists _, _ |].
  apply Forall_cons in Hv as [[Hv1 Hv2] Hv]. pose proof (zlen_nonneg d).
  destruct (Z.eqb_spec (zlen d) 0); [by eexists _, _ |].
  set (len := Z.min (iv_size v) (zlen d)). unfold store.
  rewrite zlen_take by lia. replace ((0 <=? 0) && (0 + len <=? zlen (iv_buffer v)))%bool with true
    by (symmetry; rewrite !andb_true_iff, !Z.leb_le; lia).
  rewrite bind_Done. destruct (IH (drop (Z.to_nat len) d) Hv) as (vs' & n' & -> & Hn').
  rewrite bind_Done. eexists _, _. split; [done | lia].
Qed.

(** ** The state of the receiver *)

Section receiver.
Context {B : Type} `{!NiceSocket B, !StreamSocket B}.
Implicit Types (p : TurnTcpPriv B) (m : NiceInputMessage).

(** The buffer starts with the octets [b]. *)
Definition holds p (b : bytes) : Prop :=
  recv_buf_len p = zlen b ∧ zlen (recv_buf p) = 65536 ∧ ∃ tail, recv_buf p = b ++ tail.

(** [cur]: the octets of the current frame taken from the stream so far. *)
Inductive assembling p : bytes → Prop :=
| assembling_header cur h :
    expecting_len p = 0 → headerlen (tt_compatibility p) = Some h → zlen cur < h → holds p cur →
    assembling p cur
| assembling_body cur h :
    headerlen (tt_compatibility p) = Some h → h ≤ zlen cur →
    expecting_len p ≠ 0 →
    expecting_len p + (if turn_standard (tt_compatibility p) then padlen (expecting_len p) else 0)
      = frame_total (tt_compatibility p) cur - frame_skip (tt_compatibility p) →
    zlen cur < frame_total (tt_compatibility p) cur →
    holds p (drop (Z.to_nat (frame_skip (tt_compatibility p))) cur) →
    assembling p cur.

(** What a receive into the buffer leaves alone. *)
Definition same_frame p p' : Prop :=
  tt_compatibility p' = tt_compatibility p ∧ expecting_len p' = expecting_len p.

Lemma recv_some_spec p m b size s :
  base_socket p = Some s → usable s → holds p b → 0 ≤ size → zlen b + size ≤ 65536 →
  ∃ ret n m' p', recv_some m size p = Done ((ret, n, m'), p') ∧ im_buffers m' = im_buffers m ∧
    same_frame p p' ∧
    (ret < 0 ∨
     0 ≤ ret ∧ ∃ s' chunk, (base_socket p' = Some s' ∧ usable s') ∧ unread s = chunk ++ unread s' ∧
       zlen chunk = n ∧ n ≤ size ∧ recv_buf_len p' = zlen b ∧ zlen (recv_buf p') = 65536 ∧
       ∃ tail, recv_buf p' = b ++ chunk ++ tail).
Proof.
  intros Hb Hus (Hl & Hz & tail & Hbuf) Hs Hfit. unfold recv_some. rewrite !bind_get, Hl, Hbuf.
  replace (Z.to_nat (zlen b)) with (length b) by (unfold zlen; lia).
  rewrite drop_app_length, take_app_length.
  assert (Hzt : zlen tail = 65536 - zlen b) by (rewrite Hbuf in Hz; slia).
  rewrite u64_small by (unfold is_u64; slia).
  destruct (recv_law_one s tail size (im_from m)) as (ret & b' & from & n & s' & E & Hzb & Hc); [done | lia |].
  rewrite (bind_run (on base_socket _) _ p (ret, [{| im_buffers := [{| iv_buffer := b'; iv_size := size |}];
    im_from := from; im_length := n |}]) (p <| base_socket := Some s' |>)).
  2:{ unfold on. rewrite Hb. unfold nice_socket_recv_messages, on_base. by rewrite E. }
  rewrite bind_put. eexists ret, n, _, _; split; [done |]. split_and!; [done | done |].
  destruct Hc as [Hc | (Hus' & _ & [(-> & -> & Hu & ->) | (-> & Hn & chunk & Hu & Hlen & ->)])];
    [by left | right | right].
  - split; [done |]. exists s', []. split_and!; try done; [by rewrite <- Hz, Hbuf | by exists tail].
  - split; [done |]. exists s', chunk. split_and!; try done; [lia | | by eexists].
    change (zlen (b ++ chunk ++ drop (Z.to_nat n) tail) = 65536).
    rewrite !zlen_app, zlen_drop by lia. lia.
Qed.

Lemma assembling_nil p h :
  expecting_len p = 0 → recv_buf_len p = 0 → zlen (recv_buf p) = 65536 →
  headerlen (tt_compatibility p) = Some h → assembling p [].
Proof.
  intros He Hl Hz Hh. eapply assembling_header; [done | done | |].
  - revert Hh. by destruct (tt_compatibility p); intros [= <-].
  - split_and!; [done | done | by eexists].
Qed.

(** The payload went into the caller's message. *)
Definition delivered m m' (ret : Z) (d : bytes) : Prop :=
  fill_vectors (im_buffers m) d = Done (im_buffers m', ret) ∧ im_length m' = ret ∧ 0 ≤ ret.

(** A call on the way through a frame of which [cur] has been taken: it fails,
    or takes some more, or completes the frame. *)
Definition advances p m s cur (ret : Z) m' p' : Prop :=
  tt_compatibility p' = tt_compatibility p ∧
  (ret < 0 ∨
   ∃ s' chunk, (base_socket p' = Some s' ∧ usable s') ∧ unread s = chunk ++ unread s' ∧
     (ret = 0 ∧ assembling p' (cur ++ chunk) ∨
      zlen (cur ++ chunk) = frame_total (tt_compatibility p) (cur ++ chunk) ∧ assembling p' [] ∧
      delivered m m' ret (drop (Z.to_nat (frame_skip (tt_compatibility p))) (cur ++ chunk)))).

Lemma frame_skip_header c h : headerlen c = Some h → 0 ≤ frame_skip c ≤ h.
Proof. destruct c; intros [= <-]; cbn; lia. Qed.

Lemma recv_body_spec p m cur s h :
  let c := tt_compatibility p in
  base_socket p = Some s → usable s → headerlen c = Some h → h ≤ zlen cur ≤ frame_total c cur →
  expecting_len p + (if turn_standard c then padlen (expecting_len p) else 0)
    = frame_total c cur - frame_skip c →
  holds p (drop (Z.to_nat (frame_skip c)) cur) → frame_total c cur - frame_skip c ≤ 65536 →
  Forall vector_ok (im_buffers m) →
  ∃ ret m' p', recv_body c m p = Done ((ret, m'), p') ∧ advances p m s cur ret m' p'.
Proof.
  intros c Hb Hus Hh Hcur He Hhold Hfit Hv. unfold recv_body. rewrite !bind_get.
  fold c. pose proof (frame_skip_header c h Hh) as Hsk.
  set (pad := if turn_standard c then padlen (expecting_len p) else 0) in *.
  assert (Hzc : zlen (drop (Z.to_nat (frame_skip c)) cur) = zlen cur - frame_skip c)
    by (apply zlen_drop; lia).
  pose proof Hhold as (Hrl & _ & _). rewrite Hrl, Hzc.
  destruct (recv_some_spec p m (drop (Z.to_nat (frame_skip c)) cur)
    (expecting_len p + pad - (zlen cur - frame_skip c)) s) as (ret & n & m1 & p1 & E & Hm1 & [Hc1 He1] & Hr);
    [done | done | done | lia | lia |].
  rewrite (bind_run _ _ _ _ _ E).
  destruct (Z.ltb_spec ret 0) as [Hneg | Hpos].
  { eexists _, _, _; split; [done |]. split; [done | by left]. }
  destruct Hr as [? | (_ & s' & chunk & Hb1 & Hu & Hn & Hns & Hl1 & Hz1 & tail & Hbuf)]; [lia |].
  rewrite bind_upd, bind_get. cbn [recv_buf_len set_field set_recv_buf_len].
  rewrite Hl1, Hzc. subst n.
  assert (Ht : frame_total c (cur ++ chunk) = frame_total c cur) by (eapply frame_total_app; [done | lia]).
  assert (Hd : drop (Z.to_nat (frame_skip c)) (cur ++ chunk)
    = drop (Z.to_nat (frame_skip c)) cur ++ chunk) by (apply drop_app_le; unfold zlen in *; lia).
  destruct (Z.eqb_spec (zlen cur - frame_skip c + zlen chunk) (expecting_len p + pad)) as [Hall | Hpart].
  - rewrite bind_get. cbn [recv_buf set_field set_recv_buf_len].
    rewrite Hbuf, app_assoc, <- Hd.
    assert (Hsl : ∀ b : bytes, zlen b = zlen cur - frame_skip c + zlen chunk →
      slice (b ++ tail) 0 (zlen cur - frame_skip c + zlen chunk) = Done b).
    { intros b Hlb. apply (slice_app [] b tail); [done | by rewrite Hlb]. }
    rewrite Hsl by (rewrite Hd; slia). rewrite bind_lift.
    unfold memcpy_buffer_to_input_message. rewrite Hm1.
    destruct (fill_vectors_total (im_buffers m) (drop (Z.to_nat (frame_skip c)) (cur ++ chunk)) Hv)
      as (vs' & n' & Hf & Hn'). rewrite Hf, bind_Done, bind_lift, !bind_put.
    eexists _, _, _; split; [done |]. split; [done |]. right.
    exists s', chunk. split; [done |]. split; [done |]. right. fold c. split_and!.
    + rewrite Ht. slia.
    + by eapply assembling_nil; [done | done | done | rewrite <- Hh; unfold c; f_equal].
    + by split_and!.
  - eexists 0, _, _; split; [done |]. split; [done |]. right.
    exists s', chunk. split; [done |]. split; [done |]. left. split; [done |].
    eapply assembling_body with (h := h); cbn [tt_compatibility expecting_len set_field set_recv_buf_len];
      unfold eta_TurnTcpPriv; cbn [tt_compatibility expecting_len]; rewrite ?Hc1; fold c.
    all: try done; rewrite ?Ht, ?He1; try slia.
    + destruct (decide (expecting_len p = 0)) as [E0 | ?]; [| done].
      exfalso. assert (pad = 0) by (unfold pad; rewrite E0; by destruct (turn_standard c)). slia.
    + rewrite Hd. split_and!.
      * cbn. by rewrite zlen_app, Hzc.
      * done.
      * exists tail. cbn. by rewrite Hbuf, app_assoc.
Qed.

Lemma recv_u16_spec p b i :
  holds p b → 0 ≤ i → 2 * i + 2 ≤ zlen b → recv_u16 i p = Done (word16 b i, p).
Proof.
  intros (_ & _ & tail & Hbuf) Hi Hl. unfold recv_u16. rewrite bind_get, Hbuf.
  destruct (slice_word b tail i Hi Hl) as (d & -> & <-). by rewrite bind_lift.
Qed.

Lemma recv_header_spec p cur h :
  let c := tt_compatibility p in
  holds p cur → headerlen c = Some h → zlen cur = h → bytes_ok cur → payload_type_ok c cur →
  ∃ p', recv_header c p = Done (true, p') ∧ tt_compatibility p' = c ∧
    base_socket p' = base_socket p ∧
    expecting_len p' + (if turn_standard c then padlen (expecting_len p') else 0)
      = frame_total c cur - frame_skip c ∧
    holds p' (drop (Z.to_nat (frame_skip c)) cur).
Proof.
  intros c Hhold Hh Hl Hok Hty. pose proof Hhold as (Hrl & Hz & tail & Hbuf).
  destruct c eqn:Ec; try discriminate Hh; injection Hh as <-; cbn [recv_header].
  1, 4: rewrite (bind_run _ _ _ _ _ (recv_u16_spec p cur 0 Hhold ltac:(lia) ltac:(lia)));
    rewrite (bind_run _ _ _ _ _ (recv_u16_spec p cur 1 Hhold ltac:(lia) ltac:(lia)));
    rewrite bind_put; (eexists; split; [done |]; split_and!; [done | done | by rewrite Z.sub_0_r | done]).
  - rewrite (bind_run _ _ _ _ _ (recv_u16_spec p cur 0 Hhold ltac:(lia) ltac:(lia))).
    rewrite !bind_put. eexists; split; [done |]. split_and!; [done | done | change (word16 cur 0 + 0 = 2 + word16 cur 0 - 2); lia |].
    destruct cur as [| x [| y [| z cur]]]; try done; [| rewrite !zlen_cons in Hl; slia].
    split_and!; [done | done |]. exists (x :: y :: tail). done.
  - rewrite bind_get, Hbuf.
    destruct cur as [| x [| y [| z [| w [| ? cur]]]]]; try done; [| rewrite !zlen_cons in Hl; slia].
    cbn [app]. rewrite getb_0, bind_lift.
    rewrite (bind_run _ _ _ _ _ (recv_u16_spec p _ 1 Hhold ltac:(lia) ltac:(done))).
    replace (negb (x =? MS_TURN_CONTROL_MESSAGE) && negb (x =? MS_TURN_END_TO_END_DATA))%bool with false.
    2:{ symmetry. apply andb_false_iff. rewrite !negb_false_iff, !Z.eqb_eq.
        destruct (Hty eq_refl) as [[= ->] | [= ->]]; auto. }
    rewrite !bind_put, (slice_app [x; y] [z; w] tail) by done. rewrite bind_lift.
    change (x :: y :: z :: w :: tail) with ([] ++ [x; y] ++ (z :: w :: tail)).
    rewrite (store_app [] [x; y] (z :: w :: tail) [z; w]) by done.
    rewrite bind_lift, bind_put. eexists; split; [done |]. split_and!; [done | done | |].
    { set (w16 := word16 _ 1). change (w16 + 2 + 0 = 4 + w16 - 2). lia. }
    split_and!; [done | rewrite Hbuf in Hz; exact Hz |]. by exists (z :: w :: tail).
Qed.

(** The states of [turn_tcp_recv_message] on a stream that starts with a
    well-formed frame: it fails, or stays inside the frame, or hands it up. *)
Lemma recv_message_spec p m s cur f rest :
  let c := tt_compatibility p in
  base_socket p = Some s → usable s → assembling p cur → cur ++ unread s = f ++ rest → well_framed c f →
  Forall vector_ok (im_buffers m) →
  ∃ ret m' p', turn_tcp_recv_message m p = Done ((ret, m'), p') ∧ tt_compatibility p' = c ∧
  (ret < 0 ∨
   ∃ s', (base_socket p' = Some s' ∧ usable s') ∧
    (ret = 0 ∧ (∃ cur', assembling p' cur' ∧ cur' ++ unread s' = f ++ rest) ∨
     unread s' = rest ∧ assembling p' [] ∧
     delivered m m' ret (drop (Z.to_nat (frame_skip c)) f))).
Proof.
  intros c Hb Hus Has Hu Hwf Hv. destruct Hwf as [Hok (h & Hh & Hhl) Htot Hty Hfit].
  (* any state inside the body *)
  assert (Hbody : ∀ p1 m1 s1 cur1, tt_compatibility p1 = c → base_socket p1 = Some s1 → usable s1 →
    im_buffers m1 = im_buffers m → h ≤ zlen cur1 → zlen cur1 ≤ zlen f → cur1 ++ unread s1 = f ++ rest →
    expecting_len p1 + (if turn_standard c then padlen (expecting_len p1) else 0)
      = frame_total c cur1 - frame_skip c →
    holds p1 (drop (Z.to_nat (frame_skip c)) cur1) →
    ∃ ret m' p', recv_body c m1 p1 = Done ((ret, m'), p') ∧ tt_compatibility p' = c ∧
    (ret < 0 ∨ ∃ s', (base_socket p' = Some s' ∧ usable s') ∧
      (ret = 0 ∧ (∃ cur', assembling p' cur' ∧ cur' ++ unread s' = f ++ rest) ∨
       unread s' = rest ∧ assembling p' [] ∧
       delivered m m' ret (drop (Z.to_nat (frame_skip c)) f)))).
  { intros p1 m1 s1 cur1 Hc1 Hb1 Hus1 Hm1 Hlo Hhi Hu1 He1 Hh1.
    assert (Htot1 : frame_total c cur1 = zlen f).
    { rewrite Htot, <- (frame_total_app c cur1 (unread s1) h), Hu1 by done.
      by apply (frame_total_app c f rest h). }
    destruct (recv_body_spec p1 m1 cur1 s1 h) as (ret & m' & p' & E & Hadv);
      rewrite ?Hc1; try done; [lia | lia | by rewrite Hm1 |].
    rewrite Hc1 in E. exists ret, m', p'. split; [done |].
    destruct Hadv as [Hc' Hadv]. rewrite Hc1 in *. split; [done |].
    destruct Hadv as [? | (s' & chunk & Hb' & Hun & Hcase)]; [by left | right].
    exists s'. split; [done |]. rewrite Hun, app_assoc in Hu1.
    destruct Hcase as [[-> Ha'] | (Hz & Ha' & Hd)]; [left; eauto | right].
    rewrite (frame_total_app c cur1 chunk h), Htot1 in Hz by done.
    apply app_inj_zlen in Hu1 as [E1 E2]; [| done]. rewrite E1 in Hd. split_and!; [done | done |].
    unfold delivered in *. by rewrite Hm1 in Hd. }
  unfold turn_tcp_recv_message. rewrite !bind_get. fold c.
  destruct Has as [cur h' He Hh' Hcur Hhold | cur h' Hh' Hcur He Hsum Hlt Hhold];
    fold c in Hh'; rewrite Hh in Hh'; injection Hh' as <-.
  - rewrite He, Hh. cbn [Z.eqb]. rewrite bind_get.
    pose proof Hhold as (Hrl & _). rewrite Hrl. pose proof (zlen_nonneg cur).
    pose proof (headerlen_range c h Hh).
    destruct (recv_some_spec p m cur (h - zlen cur) s) as (ret & n & m1 & p1 & E & Hm1 & [Hc1 He1] & Hr);
      [done | done | done | lia | lia |].
    rewrite (bind_run _ _ _ _ _ E).
    destruct (Z.ltb_spec ret 0) as [Hneg | Hpos].
    { eexists _, _, _; split; [done |]. split; [done | by left]. }
    destruct Hr as [? | (_ & s' & chunk & [Hb1 Hus1] & Hun & Hn & Hns & Hl1 & Hz1 & tail & Hbuf)]; [lia |].
    rewrite bind_upd, bind_get. cbn [recv_buf_len set_field set_recv_buf_len].
    rewrite Hl1. subst n.
    set (p2 := _ : TurnTcpPriv B).
    assert (Hh2 : holds p2 (cur ++ chunk)).
    { split_and!; [cbn; slia | done | exists tail; cbn; by rewrite Hbuf, app_assoc]. }
    rewrite Hun, app_assoc in Hu.
    destruct (Z.ltb_spec (zlen cur + zlen chunk) h) as [Hshort | Hfull].
    + eexists 0, _, _; split; [done |]. split; [done |]. right. exists s'. split; [done |]. left.
      split; [done |]. exists (cur ++ chunk). split; [| done].
      eapply assembling_header with (h := h); [by rewrite <- He, <- He1 | | slia | done].
      change (tt_compatibility p2) with (tt_compatibility p1). by rewrite Hc1.
    + assert (Hlen : zlen (cur ++ chunk) = h) by slia.
      assert (Hpre : ∃ f2, f = (cur ++ chunk) ++ f2).
      { destruct (split_at f h) as (f1 & f2 & -> & Hf1); [slia |].
        rewrite <- (app_assoc f1) in Hu. apply app_inj_zlen in Hu as [-> _]; [by eexists | by rewrite Hf1]. }
      destruct Hpre as [f2 Hf].
      destruct (recv_header_spec p2 (cur ++ chunk) h) as (p3 & E3 & Hc3 & Hb3 & He3 & Hh3).
      { done. } { by change (tt_compatibility p2) with (tt_compatibility p1); rewrite Hc1. } { done. }
      { rewrite Hf in Hok. by apply bytes_ok_app in Hok as [? _]. }
      { change (tt_compatibility p2) with (tt_compatibility p1). rewrite Hc1. fold c.
        intros Hoc. specialize (Hty Hoc). rewrite Hf in Hty.
        rewrite lookup_app_l in Hty; [done |]. unfold zlen in Hlen. lia. }
      change (tt_compatibility p2) with (tt_compatibility p1) in E3, Hc3, He3, Hh3.
      rewrite Hc1 in E3, Hc3, He3, Hh3. fold c in E3, Hc3, He3, Hh3.
      rewrite (bind_run _ _ _ _ _ E3). cbn [negb].
      apply (Hbody p3 m1 s' (cur ++ chunk)); try done; [by rewrite Hb3 | lia | rewrite Hf; slia].
  - destruct (Z.eqb_spec (expecting_len p) 0); [done |].
    apply (Hbody p m s cur); try done. rewrite Htot.
    assert (frame_total c cur = frame_total c f) as <-; [| fold c in Hlt; lia].
    rewrite <- (frame_total_app c cur (unread s) h), Hu by done. by apply (frame_total_app c f rest h).
Qed.

Lemma recv_message_idle p s m :
  base_socket p = Some s → usable s → assembling p [] → unread s = [] →
  ∃ ret m' p', turn_tcp_recv_message m p = Done ((ret, m'), p') ∧
    tt_compatibility p' = tt_compatibility p ∧
    (ret < 0 ∨ ret = 0 ∧ assembling p' [] ∧ ∃ s', base_socket p' = Some s' ∧ usable s' ∧ unread s' = []).
Proof.
  intros Hb Husb Has Hu. unfold turn_tcp_recv_message. rewrite !bind_get.
  inversion Has as [cur h He Hh Hcur Hhold | cur h Hh Hl ? ? ? ?]; subst.
  2:{ pose proof (headerlen_range _ h Hh). change (zlen (@nil Z)) with 0 in Hl. lia. }
  rewrite He, Hh. cbn [Z.eqb]. pose proof (headerlen_range _ h Hh) as Hr.
  pose proof Hhold as (Hrl & _). rewrite bind_get, Hrl. change (zlen (@nil Z)) with 0.
  destruct (recv_some_spec p m [] (h - 0) s) as (ret & n & m1 & p1 & E & _ & [Hc1 He1] & Hc);
    [done | done | done | lia | rewrite zlen_nil; lia |].
  rewrite (bind_run _ _ _ _ _ E).
  destruct (Z.ltb_spec ret 0) as [Hneg | Hpos].
  { eexists _, _, _; split; [done |]. split; [done | by left]. }
  destruct Hc as [? | (_ & s' & chunk & [Hb1 Hus1] & Hus & Hn & Hns & Hl1 & Hz1 & tail & Hbuf)]; [lia |].
  rewrite Hu in Hus. symmetry in Hus. apply app_eq_nil in Hus as [-> Hus].
  rewrite bind_upd, bind_get. cbn [recv_buf_len set_field set_recv_buf_len].
  rewrite Hl1. subst n. change (zlen (@nil Z)) with 0. change (0 + 0) with 0.
  destruct (Z.ltb_spec 0 h); [| lia].
  eexists 0, _, _; split; [done |]. split; [done |]. right. split; [done |]. split; [| by exists s'].
  eapply assembling_nil with (h := h); [by rewrite <- He, <- He1 | done | done |].
  by rewrite <- Hh, <- Hc1.
Qed.

(** ** Receiving a whole stream *)

Definition fresh_message : NiceInputMessage :=
  {| im_buffers := [{| iv_buffer := replicate (Z.to_nat 65536) 0; iv_size := 65536 |}];
     im_from := None; im_length := 0 |}.
Definition message_contents m : bytes :=
  take (Z.to_nat (im_length m)) (concat (map iv_buffer (im_buffers m))).

(** [k] calls with a fresh message each, up to the first error: the messages
    received, and whether there was no error. *)
Fixpoint receive (k : nat) : st (TurnTcpPriv B) (list bytes * bool) :=
  match k with
  | O => mret ([], true)
  | S k =>
      '(ret, m) ← turn_tcp_recv_message fresh_message;
      if ret <? 0 then mret ([], false)
      else
        '(r, ok) ← receive k;
        mret (if ret =? 0 then r else message_contents m :: r, ok)
  end.

Lemma fresh_ok : Forall vector_ok (im_buffers fresh_message).
Proof.
  repeat constructor; cbn [iv_size iv_buffer]; [lia |].
  unfold zlen. rewrite length_replicate. lia.
Qed.

Lemma delivered_fresh m ret d :
  delivered fresh_message m ret d → zlen d ≤ 65536 → ret = zlen d ∧ message_contents m = d.
Proof.
  intros (Hf & Hl & _) Hd. pose proof (zlen_nonneg d). unfold message_contents. rewrite Hl.
  destruct (fill_one (replicate (Z.to_nat 65536) 0) 65536 d (zlen d) (im_buffers m)) as [_ E].
  - unfold zlen. rewrite length_replicate. lia.
  - destruct (fill_vectors_fits (im_buffers fresh_message) d fresh_ok) as (vs & E); [cbn; lia |].
    unfold fresh_message in *. cbn [im_buffers] in *. rewrite Hf in E. injection E as _ Er. by rewrite Hf, Er.
  - done.
  - destruct (fill_vectors_fits (im_buffers fresh_message) d fresh_ok) as (vs & E'); [cbn; lia |].
    rewrite Hf in E'. injection E' as _ ->. split; [done |].
    rewrite E. cbn [map iv_buffer concat]. rewrite app_nil_r.
    apply take_app_length'. unfold zlen. lia.
Qed.

Definition frame_payload (c : NiceTurnSocketCompatibility) (f : bytes) : bytes :=
  drop (Z.to_nat (frame_skip c)) f.
Definition nonempty (d : bytes) : Prop := d ≠ [].
#[export] Instance nonempty_dec d : Decision (nonempty d).
Proof. unfold nonempty. apply _. Defined.

Lemma receive_spec k : ∀ p s cur fs,
  let c := tt_compatibility p in
  base_socket p = Some s → usable s → assembling p cur → cur ++ unread s = concat fs →
  Forall (well_framed c) fs → (fs = [] → cur = []) →
  ∃ ds ok p' n, receive k p = Done ((ds, ok), p') ∧
    ds = filter nonempty (map (frame_payload c) (take n fs)) ∧
    (ok = true → ∃ s' cur', base_socket p' = Some s' ∧ assembling p' cur' ∧
       tt_compatibility p' = c ∧ cur' ++ unread s' = concat (drop n fs)).
Proof.
  induction k as [| k IH]; intros p s cur fs c Hb Hus Has Hu Hwf Hnil; cbn [receive].
  { eexists [], true, p, 0%nat. split_and!; try done. intros _. by exists s, cur. }
  destruct fs as [| f fs].
  - rewrite (Hnil eq_refl) in *. cbn [app concat] in Hu.
    destruct (recv_message_idle p s fresh_message Hb Hus Has Hu) as (ret & m & p1 & E & Hc1 & Hcase).
    rewrite (bind_run _ _ _ _ _ E).
    destruct (Z.ltb_spec ret 0); [eexists [], false, p1, 0%nat; split_and!; [done | done | discriminate] |].
    destruct Hcase as [? | (-> & Has1 & s' & Hb1 & Hus1 & Hu1)]; [lia |].
    destruct (IH p1 s' [] []) as (ds & ok & p' & n & E' & -> & Hok); rewrite ?Hc1; try done.
    rewrite (bind_run _ _ _ _ _ E'). rewrite take_nil, drop_nil in *.
    eexists _, ok, p', 0%nat. split_and!; [done | done |]. intros Ht.
    destruct (Hok Ht) as (s'' & cur' & ?). exists s'', cur'. by rewrite Hc1 in *.
  - apply Forall_cons in Hwf as [Hf Hwf]. cbn [concat] in Hu.
    destruct (recv_message_spec p fresh_message s cur f (concat fs)) as (ret & m & p1 & E & Hc1 & Hcase);
      [done | done | done | done | done | apply fresh_ok |].
    rewrite (bind_run _ _ _ _ _ E).
    destruct (Z.ltb_spec ret 0); [eexists [], false, p1, 0%nat; split_and!; [done | done | discriminate] |].
    destruct Hcase as [? | (s' & [Hb1 Hus1] & [(-> & cur' & Has1 & Hu1) | (Hu1 & Has1 & Hd)])]; [lia | |].
    + destruct (IH p1 s' cur' (f :: fs)) as (ds & ok & p' & n & E' & -> & Hok);
        rewrite ?Hc1; try done; [by constructor |].
      rewrite (bind_run _ _ _ _ _ E'). rewrite Hc1 in *. by eexists _, ok, p', n.
    + destruct (IH p1 s' [] fs) as (ds & ok & p' & n & E' & -> & Hok); rewrite ?Hc1; try done.
      rewrite (bind_run _ _ _ _ _ E'). rewrite Hc1 in *.
      pose proof (wf_fits _ _ Hf) as Hfit. destruct (wf_header _ _ Hf) as (h & Hh & Hhl).
      pose proof (frame_skip_header _ _ Hh).
      destruct (delivered_fresh m ret _ Hd) as [Hret Hm].
      { rewrite zlen_drop; unfold c in *; lia. }
      eexists _, ok, p', (S n). split_and!; [done | | done].
      cbn [take map]. unfold c, frame_payload in *. rewrite filter_cons, Hm, Hret.
      destruct (Z.eqb_spec (zlen (drop (Z.to_nat (frame_skip (tt_compatibility p))) f)) 0) as [E0 | E0].
      * rewrite decide_False; [done |]. unfold nonempty. apply zlen_0_inv in E0. tauto.
      * rewrite decide_True; [done |]. intros Hn. by rewrite Hn in E0.
Qed.
End receiver.

(** ** What the sender frames *)

Definition message_octets (m : NiceOutputMessage) : bytes := concat (om_buffers m).

(** The octets put on the connection for a message, and what comes out of them:
    the message, with the padding of the standard framing. *)
Definition framed (c : NiceTurnSocketCompatibility) (m : NiceOutputMessage) : bytes :=
  match frame_buffers c m with Done bufs => concat bufs | _ => [] end.
Definition padded (c : NiceTurnSocketCompatibility) (m : NiceOutputMessage) : bytes :=
  message_octets m ++
  (if turn_standard c then replicate (Z.to_nat (padlen (zlen (message_octets m)))) 0 else []).

(** What can be framed: for the standard, a STUN message or channel data whose
    length field is right; for OC2007, what carries an RFC 4571 length. *)
Definition turn_message (c : NiceTurnSocketCompatibility) (m : NiceOutputMessage) : Prop :=
  let d := message_octets m in
  bytes_ok d ∧ zlen (padded c m) ≤ 65536 ∧
  match c with
  | NICE_TURN_SOCKET_COMPATIBILITY_DRAFT9 | NICE_TURN_SOCKET_COMPATIBILITY_RFC5766 =>
      4 ≤ zlen d ∧ zlen d = (if word16 d 0 <? 0x4000 then 20 else 4) + word16 d 1
  | NICE_TURN_SOCKET_COMPATIBILITY_GOOGLE => 0 < zlen d < 2 ^ 16
  | NICE_TURN_SOCKET_COMPATIBILITY_OC2007 => 2 ≤ zlen d ∧ zlen d = 2 + word16 d 0
  | NICE_TURN_SOCKET_COMPATIBILITY_MSN => False
  end.

Lemma find_cookie_total bufs : ∀ off, 0 ≤ off ≤ MAGIC_COOKIE_OFFSET →
  ∃ cookie, find_cookie bufs off = Done cookie.
Proof.
  unfold MAGIC_COOKIE_OFFSET.
  induction bufs as [| b bufs IH]; intros off Ho; cbn [find_cookie]; [by eexists |].
  unfold MAGIC_COOKIE_OFFSET. pose proof (zlen_nonneg b).
  destruct (Z.ltb_spec (20 + 2 + 2 + 2 - off) (zlen b)).
  - destruct (Z.ltb_spec (4 + (20 + 2 + 2 + 2) - off) (zlen b)); [| by eexists].
    destruct (slice_in b (20 + 2 + 2 + 2 - off) 4) as (d & -> & _); [lia.. |]. by eexists.
  - apply IH. rewrite u16_small; unfold is_u16; lia.
Qed.

Lemma frame_buffers_total c m : ∃ bufs, frame_buffers c m = Done bufs.
Proof.
  destruct c; cbn [frame_buffers]; try by eexists.
  destruct (_ <? _); [| by eexists].
  destruct (find_cookie_total (om_buffers m) 0) as [cookie ->]; [unfold MAGIC_COOKIE_OFFSET; lia |].
  by eexists.
Qed.

Lemma word16_cons2 x y d i : 0 ≤ i → word16 (x :: y :: d) (i + 1) = word16 d i.
Proof.
  intros Hi. unfold word16. replace (Z.to_nat (2 * (i + 1))) with (S (S (Z.to_nat (2 * i)))) by lia.
  done.
Qed.

Lemma be_word16 v d : is_u16 v → word16 (be 2 v ++ d) 0 = v.
Proof.
  intros Hv. rewrite word16_app by (rewrite ?zlen_be2; lia). unfold word16.
  cbn [Z.mul Z.to_nat]. rewrite drop_0, take_ge by (rewrite <- (Nat2Z.id (length _));
    pose proof (zlen_be2 v); unfold zlen in *; lia).
  rewrite of_be_be. by rewrite Z.mod_small by apply Hv.
Qed.

(** A framed message is a frame, and its payload is the padded message. *)
Lemma framed_well_framed c m : turn_message c m →
  well_framed c (framed c m) ∧ frame_payload c (framed c m) = padded c m ∧ padded c m ≠ [].
Proof.
  intros (Hok & Hfit & Hm). unfold framed, padded, frame_payload in *.
  pose proof (output_size m) as Hsz.
  destruct (frame_buffers_total c m) as [bufs Hb]. rewrite Hb.
  pose proof (zlen_nonneg (message_octets m)).
  assert (Hne : padded c m ≠ []).
  { unfold padded. intros [Hn _]%app_eq_nil. rewrite Hn in Hm.
    change (zlen (@nil Z)) with 0 in Hm. destruct c; lia. }
  assert (Hst : turn_standard c = match c with
    | NICE_TURN_SOCKET_COMPATIBILITY_DRAFT9 | NICE_TURN_SOCKET_COMPATIBILITY_RFC5766 => true
    | _ => false end) by (by destruct c).
  unfold padded in *. rewrite Hst in *. clear Hst. fold (message_octets m) in Hsz.
  assert (Hpadok : ∀ n, bytes_ok (replicate n 0)) by (intros n; apply Forall_replicate; done).
  destruct c; cbn [frame_buffers] in *; try done.
  1, 4: destruct Hm as [Hl Hd]; injection Hb as <-;
    rewrite concat_app; cbn [concat]; rewrite app_nil_r; fold (message_octets m); rewrite Hsz in *;
    (split; [| done]); split; cbn [frame_total frame_skip];
    [ apply bytes_ok_app; split; [done | apply Hpadok] | exists 4; split; [done |]; slia
    | rewrite !word16_app by lia; rewrite <- Hd, zlen_app, zlen_replicate;
      pose proof (padlen_range (zlen (message_octets m))); lia
    | done | cbn [frame_skip]; lia ].
  - injection Hb as <-. cbn [concat]. fold (message_octets m). rewrite Hsz in *.
    rewrite app_nil_r in *. split; [| by split; [| done]]. split; cbn [frame_total frame_skip].
    + apply bytes_ok_app. split; [apply be_ok | done].
    + exists 2. split; [done |]. slia.
    + rewrite be_word16, zlen_app, zlen_be2; [lia |]. unfold is_u16. lia.
    + done.
    + rewrite zlen_app, zlen_be2. lia.
  - apply bind_inv in Hb as (cookie & _ & [= <-]). cbn [concat]. fold (message_octets m).
    rewrite app_nil_r in *. destruct Hm as [Hl Hd].
    split; [| by split; [| done]]. split; cbn [frame_total frame_skip app].
    + constructor; [by destruct (cookie =? _) |]. by constructor.
    + exists 4. split; [done |]. rewrite !zlen_cons. lia.
    + rewrite !zlen_cons, (word16_cons2 _ _ _ 0) by lia. lia.
    + intros _. destruct (cookie =? _); [by left | by right].
    + rewrite !zlen_cons. lia.
Qed.

(** C7: TURN over a stream delivers what the peer sent.  When a connection
    carries the frames of a list of messages, in the framing of any of the
    compatibility modes that has one, then, whatever part of the stream each
    receive of the base socket hands over, [k] calls deliver a prefix of the
    messages, each whole, once and in order (with the padding of the standard
    framing); no call leaves the receive buffer or fails an assertion; and
    unless the base socket reported an error, once its stream is used up every
    message has been delivered. *)
Theorem turn_tcp_reassembles {B} `{!NiceSocket B, !StreamSocket B} (c : NiceTurnSocketCompatibility)
    (s : B) (ms : list NiceOutputMessage) (k : nat)
    (Hs : usable s) (Hms : Forall (turn_message c) ms) (Hu : unread s = concat (map (framed c) ms))
    (Hc : c ≠ NICE_TURN_SOCKET_COMPATIBILITY_MSN) :
  ∃ ds ok p' n, receive k (nice_udp_turn_over_tcp_socket_new (Some s) c) = Done ((ds, ok), p') ∧
    ds = map (padded c) (take n ms) ∧
    (ok = true → ∃ s', base_socket p' = Some s' ∧ (unread s' = [] → (length ms ≤ n)%nat)).
Proof.
  set (p := nice_udp_turn_over_tcp_socket_new (Some s) c).
  assert (Hwf : Forall (well_framed c) (map (framed c) ms)).
  { apply Forall_map. eapply Forall_impl; [exact Hms |]. intros m Hm. by apply framed_well_framed. }
  destruct (headerlen c) as [h |] eqn:Hh; [| by destruct c].
  destruct (receive_spec k p s [] (map (framed c) ms)) as (ds & ok & p' & n & E & -> & Hok);
    [done | done | | done | done | done |].
  { eapply assembling_nil; [done | done | | done]. cbn. unfold zlen. rewrite length_replicate. lia. }
  eexists _, ok, p', n. split_and!; [exact E | |].
  - rewrite firstn_map. change (tt_compatibility p) with c.
    pose proof (Forall_take _ n _ Hms) as Ht. clear -Ht. induction Ht as [| m l Hm _ IH]; [done |].
    cbn [map]. destruct (framed_well_framed c m Hm) as (_ & -> & Hne).
    rewrite filter_cons_True by done. by rewrite IH.
  - intros Ht. destruct (Hok Ht) as (s' & cur & Hb & Has & Hc' & Hcu). exists s'. split; [done |].
    intros Hs'. rewrite Hs', app_nil_r in Hcu. change (tt_compatibility p) with c in *.
    destruct (decide (length ms ≤ n)%nat) as [| Hn]; [done | exfalso].
    destruct (drop n (map (framed c) ms)) as [| f fs] eqn:Ef.
    { apply (f_equal length) in Ef. rewrite length_drop, length_map in Ef. cbn in Ef. lia. }
    apply (Forall_drop _ n) in Hwf. rewrite Ef in Hwf. apply Forall_cons in Hwf as [[_ (h' & Hh' & Hl) Htot _ _] _].
    rewrite Hh in Hh'. injection Hh' as <-. cbn [concat] in Hcu.
    assert (zlen f ≤ zlen cur) by (rewrite Hcu; slia).
    destruct Has as [cur h1 _ Hh1 Hlt _ | cur h1 Hh1 _ _ _ Hlt _]; rewrite Hc' in *.
    + rewrite Hh in Hh1. injection Hh1 as <-. lia.
    + rewrite Hcu, (frame_total_app c f _ h) in Hlt by done. rewrite <- Htot, <- Hcu in Hlt. lia.
Qed.

(** ** Runs *)

(** A TCP socket whose peer sends [inbox], in pieces of the sizes of [rx]. *)
Definition tcp_receiving (inbox : bytes) (rx : list Z) : TcpPriv script :=
  sample_tcp {| s_wire := []; s_inbox := inbox; s_tx := []; s_rx := rx |}.
Definition channel_data : NiceOutputMessage := {| om_buffers := [[0x40; 0; 0; 5]; [1; 2; 3; 4; 5]] |}.
Definition stun_binding : NiceOutputMessage := {| om_buffers := [[0; 1; 0; 0] ++ replicate 16 7] |}.

Lemma turn_tcp_reassembles_witness :
  let c := NICE_TURN_SOCKET_COMPATIBILITY_RFC5766 in
  let ms := [channel_data; stun_binding] in
  let s := tcp_receiving (concat (map (framed c) ms)) [1; 3; 0; 2; 6; 4; 16] in
  ∃ ds ok p' n, receive 6 (nice_udp_turn_over_tcp_socket_new (Some s) c) = Done ((ds, ok), p') ∧
    ds = map (padded c) (take n ms) ∧
    (ok = true → ∃ s', base_socket p' = Some s' ∧ (unread s' = [] → (length ms ≤ n)%nat)).
Proof.
  intros c ms s. apply turn_tcp_reassembles; [split; [done | constructor] | | reflexivity | done].
  constructor; [| constructor; [| constructor]]; split_and!; by_compute.
Defined.

Example turn_tcp_run :
  let c := NICE_TURN_SOCKET_COMPATIBILITY_RFC5766 in
  let s := tcp_receiving (concat (map (framed c) [channel_data; stun_binding])) [1; 3; 0; 2; 6; 4; 16] in
  ('(r, _) ← receive 7 (nice_udp_turn_over_tcp_socket_new (Some s) c); Done r)
  = Done ([padded c channel_data; padded c stun_binding], true).
Proof. vm_compute. reflexivity. Qed.

(** The length field of a frame is not checked against the buffer: channel data
    of 65535 octets, which the server may announce, runs over its end. *)
Lemma oversized_frame_overflows :
  let c := NICE_TURN_SOCKET_COMPATIBILITY_RFC5766 in
  let s := tcp_receiving ([0x40; 0; 0xff; 0xff] ++ replicate (Z.to_nat 65536) 1) [4; 65536] in
  receive 1 (nice_udp_turn_over_tcp_socket_new (Some s) c) = Ub.
Proof. vm_compute. reflexivity. Qed.

(** Channel data without data asks the base socket for no octets; a TCP socket
    takes the answer for the end of the stream. *)
Lemma empty_channel_data_ends_connection :
  let c := NICE_TURN_SOCKET_COMPATIBILITY_RFC5766 in
  let s := tcp_receiving ([0x40; 0; 0; 0] ++ framed c stun_binding) [4; 1; 20; 20] in
  ('(r, p) ← receive 4 (nice_udp_turn_over_tcp_socket_new (Some s) c);
   Done (r, match base_socket p with Some s => tcp_error s | None => false end))
  = Done (([], false), true).
Proof. vm_compute. reflexivity. Qed.

(** A frame of unknown type leaves the OC2007 receiver with its header in the
    buffer: every later call fails, although the connection is fine. *)
Lemma bad_payload_type_sticks :
  let c := NICE_TURN_SOCKET_COMPATIBILITY_OC2007 in
  let s := tcp_receiving [9; 0; 0; 0; 2; 0; 0; 1; 5] [4; 4; 4] in
  ('(ret1, _, p) ← turn_tcp_recv_message fresh_message (nice_udp_turn_over_tcp_socket_new (Some s) c);
   '(ret2, _, p) ← turn_tcp_recv_message fresh_message p;
   Done (ret1, ret2, match base_socket p with Some s => tcp_error s | None => false end))
  = Done (-1, -1, true).
Proof. vm_compute. reflexivity. Qed.
