(* ===== verification/PseudoSsl.v ===== *)
(** * The pseudo-SSL handshake (socket/pseudossl.c)

    A socket that exchanges two fixed hellos with a proxy before it passes data
    through; reliable messages sent before that are queued. *)

From S2P Require Import Prelude Bytes StateMonad StunMessage NiceAddress NiceSocket TcpBsd TcpStream.

Inductive NicePseudoSSLSocketCompatibility :=
| NICE_PSEUDOSSL_SOCKET_COMPATIBILITY_GOOGLE
| NICE_PSEUDOSSL_SOCKET_COMPATIBILITY_MSOC.

Definition SSL_SERVER_GOOGLE_HANDSHAKE : bytes := [
  0x16; 0x03; 0x01; 0; 0x4a; 0x02; 0; 0;
  0x46; 0x03; 0x01; 0x42; 0x85; 0x45; 0xa7; 0x27;
  0xa9; 0x5d; 0xa0; 0xb3; 0xc5; 0xe7; 0x53; 0xda;
  0x48; 0x2b; 0x3f; 0xc6; 0x5a; 0xca; 0x89; 0xc1;
  0x58; 0x52; 0xa1; 0x78; 0x3c; 0x5b; 0x17; 0x46;
  0; 0x85; 0x3f; 0x20; 0x0e; 0xd3; 0x06; 0x72;
  0x5b; 0x5b; 0x1b; 0x5f; 0x15; 0xac; 0x13; 0xf9;
  0x88; 0x53; 0x9d; 0x9b; 0xe8; 0x3d; 0x7b; 0x0c;
  0x30; 0x32; 0x6e; 0x38; 0x4d; 0xa2; 0x75; 0x57;
  0x41; 0x6c; 0x34; 0x5c; 0; 0x04; 0].

Definition SSL_CLIENT_GOOGLE_HANDSHAKE : bytes := [
  0x80; 0x46; 0x01; 0x03; 0x01; 0; 0x2d; 0;
  0; 0; 0x10; 0x01; 0; 0x80; 0x03; 0;
  0x80; 0x07; 0; 0xc0; 0x06; 0; 0x40; 0x02;
  0; 0x80; 0x04; 0; 0x80; 0; 0; 0x04;
  0; 0xfe; 0xff; 0; 0; 0x0a; 0; 0xfe;
  0xfe; 0; 0; 0x09; 0; 0; 0x64; 0;
  0; 0x62; 0; 0; 0x03; 0; 0; 0x06;
  0x1f; 0x17; 0x0c; 0xa6; 0x2f; 0; 0x78; 0xfc;
  0x46; 0x55; 0x2e; 0xb1; 0x83; 0x39; 0xf1; 0xea].

Definition SSL_SERVER_MSOC_HANDSHAKE : bytes := [
  0x16; 0x03; 0x01; 0; 0x4e; 0x02; 0; 0;
  0x46; 0x03; 0x01; 0; 0; 0; 0; 0;
  0; 0; 0; 0; 0; 0; 0; 0;
  0; 0; 0; 0; 0; 0; 0; 0;
  0; 0; 0; 0; 0; 0; 0; 0;
  0; 0; 0; 0x20; 0; 0; 0; 0;
  0; 0; 0; 0; 0; 0; 0; 0;
  0; 0; 0; 0; 0; 0; 0; 0;
  0; 0; 0; 0; 0; 0; 0; 0;
  0; 0; 0; 0; 0; 0x18; 0; 0x0e;
  0; 0; 0].

Definition SSL_CLIENT_MSOC_HANDSHAKE : bytes := [
  0x16; 0x03; 0x01; 0; 0x2d; 0x01; 0; 0;
  0x29; 0x03; 0x01; 0xc1; 0xfc; 0xd5; 0xa3; 0x6d;
  0x93; 0xdd; 0x7e; 0x0b; 0x45; 0x67; 0x3f; 0xec;
  0x79; 0x85; 0xfb; 0xbc; 0x3f; 0xd6; 0x60; 0xc2;
  0xce; 0x84; 0x85; 0x08; 0x1b; 0x81; 0x21; 0xbc;
  0xaa; 0x10; 0xfb; 0; 0; 0x02; 0; 0x18;
  0x01; 0].

Section pseudossl.
Context {B : Type} `{!NiceSocket B, !Malloc}.

Record PseudoSSLPriv := {
  handshaken : bool;
  ssl_base : option B;
  ssl_queue : list NiceSocketQueuedSend;
  ssl_compatibility : NicePseudoSSLSocketCompatibility
}.
Definition eta_PseudoSSLPriv (p : PseudoSSLPriv) : PseudoSSLPriv :=
  Build_PseudoSSLPriv (handshaken p) (ssl_base p) (ssl_queue p) (ssl_compatibility p).
#[export] Instance set_handshaken : Setter handshaken := ltac:(derive_setter eta_PseudoSSLPriv handshaken).
#[export] Instance set_ssl_base : Setter ssl_base := ltac:(derive_setter eta_PseudoSSLPriv ssl_base).
#[export] Instance set_ssl_queue : Setter ssl_queue := ltac:(derive_setter eta_PseudoSSLPriv ssl_queue).

Definition client_handshake (c : NicePseudoSSLSocketCompatibility) : bytes :=
  match c with
  | NICE_PSEUDOSSL_SOCKET_COMPATIBILITY_MSOC => SSL_CLIENT_MSOC_HANDSHAKE
  | NICE_PSEUDOSSL_SOCKET_COMPATIBILITY_GOOGLE => SSL_CLIENT_GOOGLE_HANDSHAKE
  end.
Definition server_handshake (c : NicePseudoSSLSocketCompatibility) : bytes :=
  match c with
  | NICE_PSEUDOSSL_SOCKET_COMPATIBILITY_MSOC => SSL_SERVER_MSOC_HANDSHAKE
  | NICE_PSEUDOSSL_SOCKET_COMPATIBILITY_GOOGLE => SSL_SERVER_GOOGLE_HANDSHAKE
  end.

Definition nice_pseudossl_socket_new (base : option B) (c : NicePseudoSSLSocketCompatibility)
  : outcome PseudoSSLPriv :=
  '(_, base) ← nice_socket_send_reliable None (client_handshake c) base;
  mret (Build_PseudoSSLPriv false base [] c).

(** [memset (buf + i, 0, n)] *)
Definition clear_range (buf : bytes) (i n : Z) : outcome bytes :=
  store buf i (replicate (Z.to_nat n) 0).

(** The random number and the session of the MSOC hello are not compared. *)
Definition server_handshake_valid (c : NicePseudoSSLSocketCompatibility) (data : bytes)
    (length : Z) : outcome bool :=
  match c with
  | NICE_PSEUDOSSL_SOCKET_COMPATIBILITY_MSOC =>
      if length =? zlen SSL_SERVER_MSOC_HANDSHAKE then
        data ← clear_range data 11 32;
        data ← clear_range data 44 32;
        d ← slice data 0 (zlen SSL_SERVER_MSOC_HANDSHAKE);
        mret (bool_decide (SSL_SERVER_MSOC_HANDSHAKE = d))
      else mret false
  | NICE_PSEUDOSSL_SOCKET_COMPATIBILITY_GOOGLE =>
      if length =? zlen SSL_SERVER_GOOGLE_HANDSHAKE then
        d ← slice data 0 (zlen SSL_SERVER_GOOGLE_HANDSHAKE);
        mret (bool_decide (SSL_SERVER_GOOGLE_HANDSHAKE = d))
      else mret false
  end.

(** [data] is a local array of 83 octets; what it holds before is not read. *)
Definition ssl_recv_messages (messages : list NiceInputMessage)
  : st PseudoSSLPriv (Z * list NiceInputMessage) :=
  done ← get handshaken;
  c ← get ssl_compatibility;
  if (done : bool) then
    base ← get ssl_base;
    match base with
    | None => mret (0, messages)
    | Some _ => on ssl_base (nice_socket_recv_messages messages)
    end
  else
    '(ret, ms) ← on ssl_base (nice_socket_recv_messages
      [{| im_buffers := [{| iv_buffer := g_malloc 83; iv_size := zlen (server_handshake c) |}];
          im_from := None; im_length := 0 |}]);
    if ret <=? 0 then mret (ret, messages)
    else
      match ms with
      | [{| im_buffers := [{| iv_buffer := data |}]; im_length := length |}] =>
          valid ← (if ret =? 1 then lift (server_handshake_valid c data length) else mret false);
          if (valid : bool) then
            _ ← put handshaken true;
            q ← get ssl_queue;
            _ ← on ssl_base (nice_socket_flush_send_queue q);
            _ ← put ssl_queue [];
            mret (0, messages)
          else
            _ ← on ssl_base nice_socket_free;
            mret (-1, messages)
      | _ => ub
      end.

Definition ssl_send_messages (to : option NiceAddress) (messages : list NiceOutputMessage)
  : st PseudoSSLPriv Z :=
  done ← get handshaken;
  if (done : bool) then on ssl_base (nice_socket_send_messages to messages) else mret 0.

Definition ssl_send_messages_reliable (to : option NiceAddress) (messages : list NiceOutputMessage)
  : st PseudoSSLPriv Z :=
  done ← get handshaken;
  if (done : bool) then on ssl_base (nice_socket_send_messages_reliable to messages)
  else
    q ← get ssl_queue;
    q ← lift (nice_socket_queue_send q to messages);
    _ ← put ssl_queue q;
    mret (zlen messages).

Definition ssl_is_reliable (p : PseudoSSLPriv) : outcome bool := nice_socket_is_reliable (ssl_base p).
Definition ssl_can_send (addr : option NiceAddress) (p : PseudoSSLPriv) : outcome bool :=
  nice_socket_can_send addr (ssl_base p).
Definition ssl_set_writable_callback (cb : option NiceSocketWritableCb) : st PseudoSSLPriv unit :=
  on ssl_base (nice_socket_set_writable_callback cb).

#[export] Instance pseudossl_socket : NiceSocket PseudoSSLPriv := {|
  recv_messages := ssl_recv_messages;
  send_messages := ssl_send_messages;
  send_messages_reliable := ssl_send_messages_reliable;
  is_reliable := ssl_is_reliable;
  can_send := ssl_can_send;
  set_writable_callback := ssl_set_writable_callback
|}.
End pseudossl.
Arguments PseudoSSLPriv B : clear implicits.

(** ** Facts *)

(** The hello with what is not compared cleared. *)
Definition masked (c : NicePseudoSSLSocketCompatibility) (h : bytes) : bytes :=
  match c with
  | NICE_PSEUDOSSL_SOCKET_COMPATIBILITY_MSOC =>
      take 11 h ++ replicate 32 0 ++ take 1 (drop 43 h) ++ replicate 32 0 ++ drop 76 h
  | NICE_PSEUDOSSL_SOCKET_COMPATIBILITY_GOOGLE => h
  end.
Definition is_server_hello (c : NicePseudoSSLSocketCompatibility) (h : bytes) : Prop :=
  zlen h = zlen (server_handshake c) ∧ masked c h = server_handshake c.

Lemma slice_whole (b : bytes) n : zlen b = n → slice b 0 n = Done b.
Proof. intros H. rewrite <- (app_nil_r b) at 1. by apply (slice_app [] b []). Qed.

(** The comparison of [length] octets received at the start of [data]. *)
Lemma server_handshake_valid_spec c h rest :
  zlen (h ++ rest) = 83 →
  server_handshake_valid c (h ++ rest) (zlen h) = Done (bool_decide (is_server_hello c h)).
Proof.
  intros Hl. unfold server_handshake_valid, is_server_hello. destruct c; cbn [server_handshake masked].
  - destruct (Z.eqb_spec (zlen h) (zlen SSL_SERVER_GOOGLE_HANDSHAKE)) as [E | E].
    + rewrite (slice_app [] h rest), bind_Done by done. f_equal. apply bool_decide_ext. split; [by intros <- | by intros [_ ->]].
    + f_equal. symmetry. apply bool_decide_false. by intros [? _].
  - destruct (Z.eqb_spec (zlen h) (zlen SSL_SERVER_MSOC_HANDSHAKE)) as [E | E].
    + assert (rest = []) as -> by (apply zlen_0_inv; change (zlen SSL_SERVER_MSOC_HANDSHAKE) with 83 in E; slia).
      rewrite app_nil_r in *. unfold clear_range. change (Z.to_nat 32) with 32%nat.
      assert (∃ a b x d e, h = a ++ b ++ x ++ d ++ e ∧ zlen a = 11 ∧ zlen b = 32 ∧ zlen x = 1 ∧
        zlen d = 32 ∧ zlen e = 7) as (a & b & x & d & e & -> & Ha & Hb & Hx & Hd & He).
      { destruct (split_at h 11) as (a & h1 & -> & Ha); [lia |].
        destruct (split_at h1 32) as (b & h2 & -> & Hb); [slia |].
        destruct (split_at h2 1) as (x & h3 & -> & Hx); [slia |].
        destruct (split_at h3 32) as (d & e & -> & Hd); [slia |].
        exists a, b, x, d, e. split_and!; try done. slia. }
      rewrite (store_app a b _ (replicate 32 0)), bind_Done by (rewrite ?zlen_replicate; lia).
      rewrite (app_assoc a), (app_assoc (a ++ replicate 32 0)).
      rewrite (store_app ((a ++ replicate 32 0) ++ x) d e (replicate 32 0)), bind_Done by slia.
      rewrite slice_whole, bind_Done by (change (zlen SSL_SERVER_MSOC_HANDSHAKE) with 83; slia).
      f_equal. apply bool_decide_ext.
      assert (Hm : masked NICE_PSEUDOSSL_SOCKET_COMPATIBILITY_MSOC (a ++ b ++ x ++ d ++ e)
        = ((a ++ replicate 32 0) ++ x) ++ replicate 32 0 ++ e).
      { unfold masked. rewrite take_app_length' by (unfold zlen in Ha; lia).
        rewrite (app_assoc a b), (drop_app_length' (a ++ b)) by (rewrite length_app; unfold zlen in *; lia).
        rewrite take_app_length' by (unfold zlen in Hx; lia).
        rewrite <- !app_assoc. do 4 f_equal.
        rewrite (app_assoc a b), (app_assoc (a ++ b) x), (app_assoc ((a ++ b) ++ x) d).
        apply drop_app_length'. rewrite !length_app. unfold zlen in *. lia. }
      cbn [masked] in Hm. rewrite Hm. split; [by intros <- | by intros [_ ->]].
    + f_equal. symmetry. apply bool_decide_false. by intros [? _].
Qed.

Lemma server_handshake_length c : 0 < zlen (server_handshake c) ≤ 83.
Proof. by destruct c. Qed.

Section facts.
Context {B : Type} `{!NiceSocket B, !Malloc, !StreamSocket B}.
Implicit Types (p : PseudoSSLPriv B).

(** What a receive during the handshake does. *)
Definition gate_outcome p (s : B) (ret : Z) p' : Prop :=
  ssl_compatibility p' = ssl_compatibility p ∧
  (ret < 0 ∧ handshaken p' = false ∧
     (ssl_base p' = None → ∃ chunk rest, unread s = chunk ++ rest ∧ chunk ≠ [] ∧
        ¬ is_server_hello (ssl_compatibility p) chunk) ∨
   ret = 0 ∧ handshaken p' = false ∧ ssl_queue p' = ssl_queue p ∧
     (∃ s', ssl_base p' = Some s' ∧ usable s' ∧ unread s' = unread s ∧ written s' = written s) ∨
   ret = 0 ∧ handshaken p' = true ∧ ssl_queue p' = [] ∧
     (∃ s' hello, ssl_base p' = Some s' ∧ usable s' ∧ unread s = hello ++ unread s' ∧
        is_server_hello (ssl_compatibility p) hello ∧ written s' = written s ++ queued (ssl_queue p))).

Lemma pseudossl_gate_run p (s : B) (messages : list NiceInputMessage)
    (Hh : handshaken p = false) (Hb : ssl_base p = Some s) (Hs : usable s) (Hq : queue_ok (ssl_queue p)) :
  ∃ ret p', ssl_recv_messages messages p = Done ((ret, messages), p') ∧ gate_outcome p s ret p'.
Proof.
  unfold ssl_recv_messages. rewrite !bind_get, Hh.
  set (c := ssl_compatibility p). pose proof (server_handshake_length c) as Hl.
  pose proof (g_malloc_length 83 ltac:(lia)) as Hg.
  destruct (recv_law_one s (g_malloc 83) (zlen (server_handshake c)) None Hs) as (ret & data & from & n & s1 & E & Hzd & Hc);
    [lia |].
  rewrite (bind_run (on ssl_base _) _ p (ret, [{| im_buffers := [{| iv_buffer := data;
    iv_size := zlen (server_handshake c) |}]; im_from := from; im_length := n |}]) (p <| ssl_base := Some s1 |>)).
  2:{ unfold on. rewrite Hb. unfold nice_socket_recv_messages, on_base. by rewrite E. }
  destruct Hc as [Hneg | (Hs1 & Hw1 & [(-> & -> & Hu & ->) | (-> & Hn & chunk & Hu & Hlen & Hd)])].
  - replace (ret <=? 0) with true by lia. eexists ret, _. split; [done |]. split; [done |]. by left.
  - eexists 0, _. split; [done |]. split; [done |]. right; left. split_and!; try done. by exists s1.
  - cbn [Z.leb Z.compare Z.eqb Pos.eqb]. subst n.
    rewrite Hd, server_handshake_valid_spec.
    2:{ rewrite zlen_app, zlen_drop; lia. }
    rewrite bind_lift. destruct (bool_decide_reflect (is_server_hello c chunk)) as [Hhello | Hno].
    + rewrite bind_put, bind_get.
      destruct (flush_queue_spec (ssl_queue p) s1 Hs1 Hq) as (s2 & Ef & Hs2 & Hu2 & Hw2).
      assert (Hon : on ssl_base (nice_socket_flush_send_queue (ssl_queue p))
          (p <| ssl_base := Some s1 |> <| handshaken := true |>)
        = Done (tt, p <| ssl_base := Some s1 |> <| handshaken := true |> <| ssl_base := Some s2 |>))
        by (unfold on; cbn -[nice_socket_flush_send_queue]; by rewrite Ef).
      rewrite (bind_run _ _ _ _ _ Hon).
      rewrite bind_put. eexists 0, _. split; [done |]. split; [done |]. right; right. split_and!; try done.
      exists s2, chunk. split_and!; [done | done | by rewrite Hu2 | done |].
      by rewrite Hw2, Hw1.
    + eexists (-1), _. split; [done |]. split; [done |]. left. split; [lia |]. split; [done |].
      intros _. exists chunk, (unread s1). split_and!; [done | | done]. intros ->. change (zlen (@nil Z)) with 0 in Hn. lia.
Qed.

(** The pseudo-SSL gate.  While the handshake is open, a receive hands up
    nothing, and either waits with nothing written and the queue as it was, or
    has taken exactly a server hello (the random number and the session of the
    MSOC one aside), passes everything queued so far to the base socket in
    order, and opens; or has taken something else, drops the base socket and
    fails; or passes on the base socket's error.  Until it opens no message of
    the application reaches the base socket. *)
Theorem pseudossl_gate p (s : B) (messages : list NiceInputMessage)
    (Hh : handshaken p = false) (Hb : ssl_base p = Some s) (Hs : usable s) (Hq : queue_ok (ssl_queue p)) :
  ∃ ret p', ssl_recv_messages messages p = Done ((ret, messages), p') ∧ gate_outcome p s ret p'.
Proof. by apply pseudossl_gate_run. Qed.

(** ** A pseudo-SSL socket is a stream socket *)

Definition ssl_unread p : bytes :=
  match ssl_base p with
  | None => []
  | Some s => if handshaken p then unread s
              else drop (length (server_handshake (ssl_compatibility p))) (unread s)
  end.
Definition ssl_written p : bytes :=
  match ssl_base p with
  | None => []
  | Some s => if handshaken p then written s else written s ++ queued (ssl_queue p)
  end.
Definition ssl_usable p : Prop :=
  ∃ s, ssl_base p = Some s ∧ usable s ∧ (handshaken p = false → queue_ok (ssl_queue p)).

Lemma ssl_recv_law p (vs : list GInputVector) (from : option NiceAddress) :
  ssl_usable p → Forall vector_ok vs →
  ∃ ret vs' from' n p',
    recv_messages [{| im_buffers := vs; im_from := from; im_length := 0 |}] p
    = Done ((ret, [{| im_buffers := vs'; im_from := from'; im_length := n |}]), p') ∧
    Forall2 same_shape vs vs' ∧
    (ret < 0 ∨
     ssl_usable p' ∧ ssl_written p' = ssl_written p ∧
     (ret = 0 ∧ n = 0 ∧ ssl_unread p' = ssl_unread p ∧ vs' = vs ∨
      ret = 1 ∧ 0 < n ∧
        ∃ chunk, ssl_unread p = chunk ++ ssl_unread p' ∧ zlen chunk = n ∧
                 fill_vectors vs chunk = Done (vs', n))).
Proof.
  intros (s & Hb & Hs & Hq) Hsz. cbn [recv_messages pseudossl_socket].
  destruct (handshaken p) eqn:Hh.
  - destruct (recv_law s vs from Hs Hsz) as (ret & vs' & from' & n & s' & E & Hz & Hc).
    unfold ssl_recv_messages. rewrite !bind_get, Hh, bind_get, Hb.
    eexists ret, vs', from', n, (p <| ssl_base := Some s' |>). split.
    { unfold on. rewrite Hb. unfold nice_socket_recv_messages, on_base. by rewrite E. }
    split; [done |]. unfold ssl_unread, ssl_written, ssl_usable. cbn [ssl_base set_field set_ssl_base].
    change (handshaken (p <| ssl_base := Some s' |>)) with (handshaken p). rewrite Hb, Hh.
    destruct Hc as [? | (Hs' & Hw & Hc)]; [by left | right]. split; [| done].
    exists s'. by split_and!.
  - destruct (pseudossl_gate_run p s [{| im_buffers := vs;
      im_from := from; im_length := 0 |}] Hh Hb Hs (Hq eq_refl)) as (ret & p' & E & Hc & Hcase).
    eexists ret, vs, from, 0, p'. split; [exact E |].
    split; [apply Forall_Forall2_diag, Forall_forall; by split |].
    unfold ssl_unread, ssl_written, ssl_usable. rewrite Hb, Hh, Hc.
    destruct Hcase as [(? & _) | [(-> & Hh' & Hq' & s' & Hb' & Hs' & Hu' & Hw') |
      (-> & Hh' & Hq' & s' & hello & Hb' & Hs' & Hu' & [Hl _] & Hw')]]; [by left | right | right];
      rewrite Hb', Hh'.
    + split; [exists s'; rewrite Hq'; by split_and!; auto |]. rewrite Hw', Hq'. split; [done |]. left.
      by rewrite Hu'.
    + split; [by exists s' |]. split; [done |]. left. split_and!; try done.
      rewrite Hu'. rewrite drop_app_length'; [done |]. unfold zlen in Hl. lia.
Qed.

Lemma ssl_send_law p (to : option NiceAddress) (b : bytes) :
  ssl_usable p → zlen b < 2 ^ 31 →
  ∃ p', send_messages_reliable to [{| om_buffers := [b] |}] p = Done (1, p') ∧
    ssl_usable p' ∧ ssl_unread p' = ssl_unread p ∧ ssl_written p' = ssl_written p ++ b.
Proof.
  intros (s & Hb & Hs & Hq) Hl. cbn [send_messages_reliable pseudossl_socket].
  unfold ssl_send_messages_reliable, ssl_usable, ssl_unread, ssl_written. rewrite bind_get, Hb.
  destruct (handshaken p) eqn:Hh.
  - destruct (send_law s to b Hs Hl) as (s' & E & Hs' & Hu' & Hw').
    exists (p <| ssl_base := Some s' |>). split.
    { unfold on. rewrite Hb. unfold nice_socket_send_messages_reliable, on_base. by rewrite E. }
    cbn [ssl_base set_field set_ssl_base].
    change (handshaken (p <| ssl_base := Some s' |>)) with (handshaken p). rewrite Hh.
    split; [exists s'; by split_and! |]. done.
  - rewrite bind_get.
    destruct (queue_send_spec to [{| om_buffers := [b] |}] (ssl_queue p)) as (q & E & Hq' & Hok).
    { constructor; [| done]. rewrite output_size. cbn. by rewrite app_nil_r. }
    rewrite E, bind_lift, bind_put. eexists. split; [done |].
    change (ssl_base (p <| ssl_queue := q |>)) with (ssl_base p).
    change (handshaken (p <| ssl_queue := q |>)) with (handshaken p).
    rewrite Hb, Hh. split; [exists s; split_and!; auto |]. split; [done |].
    change (ssl_queue (p <| ssl_queue := q |>)) with q. rewrite Hq'. unfold payload. cbn.
    by rewrite !app_nil_r, app_assoc.
Qed.

#[export] Instance ssl_stream_socket : StreamSocket (PseudoSSLPriv B) :=
  {| unread := ssl_unread; written := ssl_written; usable := ssl_usable;
     recv_law := ssl_recv_law; send_law := ssl_send_law |}.
End facts.

(** ** Runs *)

Definition hello : bytes := server_handshake NICE_PSEUDOSSL_SOCKET_COMPATIBILITY_GOOGLE.
Definition sample_ssl (inbox : bytes) (rx : list Z) : PseudoSSLPriv (TcpPriv script) :=
  Build_PseudoSSLPriv false
    (Some (sample_tcp {| s_wire := []; s_inbox := inbox; s_tx := [1000; 1000]; s_rx := rx |}))
    [{| tbs_buf := [1; 2; 3]; tbs_length := 3; tbs_to := address_zero |}]
    NICE_PSEUDOSSL_SOCKET_COMPATIBILITY_GOOGLE.

Lemma pseudossl_gate_witness :
  let p := sample_ssl (hello ++ [7]) [79] in
  let s := sample_tcp {| s_wire := []; s_inbox := hello ++ [7]; s_tx := [1000; 1000]; s_rx := [79] |} in
  ∃ ret p', ssl_recv_messages [] p = Done ((ret, []), p') ∧ gate_outcome p s ret p'.
Proof.
  intros p s. apply pseudossl_gate; [done | done | split; [done | constructor] |].
  constructor; [by vm_compute | constructor].
Defined.

(** The hello in two segments is taken for a wrong one, and the connection is
    dropped. *)
Lemma split_hello_rejected :
  ('(ret, _, p) ← ssl_recv_messages [] (sample_ssl hello [40; 39]); Done (ret, bool_decide (ssl_base p = None)))
  = Done (-1, true).
Proof. vm_compute. reflexivity. Qed.

(** Asking a socket whose handshake failed whether it is reliable, or whether it
    can send, goes through the NULL base. *)
Lemma failed_handshake_null {B} `{!NiceSocket B} (p : PseudoSSLPriv B) addr :
  ssl_base p = None → ssl_is_reliable p = Ub ∧ ssl_can_send addr p = Ub.
Proof. unfold ssl_is_reliable, ssl_can_send. by intros ->. Qed.
