(* ===== verification/Socks5.v ===== *)
(** * The SOCKS5 client (socket/socks5.c)

    The handshake with a SOCKS5 proxy, driven by the receive calls, after which
    data passes through; reliable messages sent before that are queued.  Local
    arrays hold what [g_malloc] gives until something is received into them. *)

From S2P Require Import Prelude Bytes StateMonad StunMessage NiceAddress NiceSocket TcpBsd TcpStream.

Inductive SocksState :=
| SOCKS_STATE_INIT
| SOCKS_STATE_AUTH
| SOCKS_STATE_CONNECT
| SOCKS_STATE_CONNECTED
| SOCKS_STATE_ERROR.
#[export] Instance SocksState_eq_dec : EqDecision SocksState.
Proof. solve_decision. Defined.

Section socks5.
Context {B : Type} `{!NiceSocket B, !Malloc}.

(** Strings are their octets without the NUL; [None] is NULL. *)
Record Socks5Priv := {
  socks_state : SocksState;
  socks_base : option B;
  socks_addr : NiceAddress;
  socks_username : option bytes;
  socks_password : option bytes;
  socks_queue : list NiceSocketQueuedSend
}.
Definition eta_Socks5Priv (p : Socks5Priv) : Socks5Priv :=
  Build_Socks5Priv (socks_state p) (socks_base p) (socks_addr p) (socks_username p)
    (socks_password p) (socks_queue p).
#[export] Instance set_socks_state : Setter socks_state := ltac:(derive_setter eta_Socks5Priv socks_state).
#[export] Instance set_socks_base : Setter socks_base := ltac:(derive_setter eta_Socks5Priv socks_base).
#[export] Instance set_socks_queue : Setter socks_queue := ltac:(derive_setter eta_Socks5Priv socks_queue).

Definition socks_greeting (username password : option bytes) : bytes :=
  match username, password with
  | None, None => [0x05; 0x01; 0x00]
  | _, _ => [0x05; 0x02; 0x00; 0x02]
  end.

(** [None]: no address, no socket. *)
Definition nice_socks5_socket_new (base : option B) (addr : option NiceAddress)
    (username password : option bytes) : outcome (option Socks5Priv) :=
  match addr with
  | None => mret None
  | Some addr =>
      '(_, base) ← nice_socket_send_reliable None (socks_greeting username password) base;
      mret (Some (Build_Socks5Priv SOCKS_STATE_INIT base addr username password []))
  end.

(** Receive [size] octets into the local array [data]: the return value and the
    array.  A NULL base gives -1. *)
Definition socks_recv (data : bytes) (size : Z) : st Socks5Priv (Z * bytes) :=
  '(ret, ms) ← on socks_base (nice_socket_recv_messages
    [{| im_buffers := [{| iv_buffer := data; iv_size := size |}]; im_from := None; im_length := 0 |}]);
  match ms with
  | [{| im_buffers := [{| iv_buffer := data |}] |}] => mret (ret, data)
  | _ => ub
  end.

(** The label [error]. *)
Definition socks_error : st Socks5Priv Z :=
  _ ← on socks_base nice_socket_free;
  _ ← put socks_state SOCKS_STATE_ERROR;
  mret (-1).

(** The connect request; an address of another family is never written. *)
Definition connect_request (addr : NiceAddress) : outcome bytes :=
  if sa_family addr =? AF_INET
  then mret ([0x05; 0x01; 0x00; 0x01] ++ le 4 (sa_word addr) ++ le 2 (sa_port addr))
  else if sa_family addr =? AF_INET6
  then mret ([0x05; 0x01; 0x00; 0x04] ++ s6_addr addr ++ le 2 (sa_port addr))
  else Ub.

(** The label [send_connect]. *)
Definition send_connect : st Socks5Priv Z :=
  addr ← get socks_addr;
  msg ← lift (connect_request addr);
  _ ← on socks_base (nice_socket_send_reliable None msg);
  _ ← put socks_state SOCKS_STATE_CONNECT;
  mret 0.

Definition string_or_empty (s : option bytes) : bytes := match s with Some s => s | None => [] end.

(** The username and password message, when both fit. *)
Definition auth_request (username password : option bytes) : option bytes :=
  match username, password with
  | None, None => None
  | _, _ =>
      let u := string_or_empty username in
      let w := string_or_empty password in
      if (255 <? zlen u) || (255 <? zlen w) then None
      else Some ([0x01; zlen u] ++ u ++ [zlen w] ++ w)
  end.

Definition socks_init : st Socks5Priv Z :=
  '(ret, data) ← socks_recv (g_malloc 2) 2;
  if ret <=? 0 then mret ret
  else if negb (ret =? 1) then socks_error
  else
    d0 ← lift (getb data 0);
    d1 ← lift (getb data 1);
    if negb (d0 =? 0x05) then socks_error
    else if d1 =? 0x02 then
      username ← get socks_username;
      password ← get socks_password;
      match auth_request username password with
      | None => socks_error
      | Some msg =>
          _ ← on socks_base (nice_socket_send_reliable None msg);
          _ ← put socks_state SOCKS_STATE_AUTH;
          mret 0
      end
    else if d1 =? 0x00 then send_connect
    else socks_error.

Definition socks_auth : st Socks5Priv Z :=
  '(ret, data) ← socks_recv (g_malloc 2) 2;
  if ret <=? 0 then mret ret
  else if negb (ret =? 1) then mret 0
  else
    d0 ← lift (getb data 0);
    d1 ← lift (getb data 1);
    if (d0 =? 0x01) && (d1 =? 0x00) then send_connect else socks_error.

Definition socks_connect : st Socks5Priv Z :=
  '(ret, data) ← socks_recv (g_malloc 22) 4;
  if ret <=? 0 then mret ret
  else if negb (ret =? 1) then socks_error
  else
    d0 ← lift (getb data 0);
    d1 ← lift (getb data 1);
    d2 ← lift (getb data 2);
    d3 ← lift (getb data 3);
    if negb (d0 =? 0x05) || negb (d1 =? 0x00) || negb (d2 =? 0x00) then socks_error
    else
      match (if d3 =? 0x01 then Some 6 else if d3 =? 0x04 then Some 18 else None) with
      | None => socks_error
      | Some size =>
          '(ret, _) ← socks_recv data size;
          if negb (ret =? 1) then socks_error
          else
            q ← get socks_queue;
            _ ← on socks_base (nice_socket_flush_send_queue q);
            _ ← put socks_queue [];
            _ ← put socks_state SOCKS_STATE_CONNECTED;
            mret 0
      end.

(** The address of the peer, for the messages received. *)
Fixpoint set_from (n : nat) (addr : NiceAddress) (messages : list NiceInputMessage)
  : list NiceInputMessage :=
  match n, messages with
  | S n, m :: ms =>
      m <| im_from := match im_from m with None => None | Some _ => Some addr end |>
        :: set_from n addr ms
  | _, _ => messages
  end.

Definition socks5_recv_messages (messages : list NiceInputMessage)
  : st Socks5Priv (Z * list NiceInputMessage) :=
  state ← get socks_state;
  match state with
  | SOCKS_STATE_CONNECTED =>
      '(ret, messages) ← on socks_base (nice_socket_recv_messages messages);
      if ret <=? 0 then mret (ret, messages)
      else
        addr ← get socks_addr;
        mret (ret, set_from (Z.to_nat ret) addr messages)
  | SOCKS_STATE_INIT => ret ← socks_init; mret (ret, messages)
  | SOCKS_STATE_AUTH => ret ← socks_auth; mret (ret, messages)
  | SOCKS_STATE_CONNECT => ret ← socks_connect; mret (ret, messages)
  | SOCKS_STATE_ERROR => ret ← socks_error; mret (ret, messages)
  end.

Definition socks5_send_messages (to : option NiceAddress) (messages : list NiceOutputMessage)
  : st Socks5Priv Z :=
  state ← get socks_state;
  match state with
  | SOCKS_STATE_CONNECTED => on socks_base (nice_socket_send_messages to messages)
  | SOCKS_STATE_ERROR => mret (-1)
  | _ => mret 0
  end.

Definition socks5_send_messages_reliable (to : option NiceAddress) (messages : list NiceOutputMessage)
  : st Socks5Priv Z :=
  state ← get socks_state;
  match state with
  | SOCKS_STATE_CONNECTED => on socks_base (nice_socket_send_messages_reliable to messages)
  | SOCKS_STATE_ERROR => mret (-1)
  | _ =>
      q ← get socks_queue;
      q ← lift (nice_socket_queue_send q to messages);
      _ ← put socks_queue q;
      mret (zlen messages)
  end.

Definition socks5_is_reliable (p : Socks5Priv) : outcome bool := nice_socket_is_reliable (socks_base p).
Definition socks5_can_send (addr : option NiceAddress) (p : Socks5Priv) : outcome bool :=
  nice_socket_can_send addr (socks_base p).
Definition socks5_set_writable_callback (cb : option NiceSocketWritableCb) : st Socks5Priv unit :=
  on socks_base (nice_socket_set_writable_callback cb).

#[export] Instance socks5_socket : NiceSocket Socks5Priv := {|
  recv_messages := socks5_recv_messages;
  send_messages := socks5_send_messages;
  send_messages_reliable := socks5_send_messages_reliable;
  is_reliable := socks5_is_reliable;
  can_send := socks5_can_send;
  set_writable_callback := socks5_set_writable_callback
|}.
End socks5.
Arguments Socks5Priv B : clear implicits.

(** ** Facts *)

Section facts.
Context {B : Type} `{!NiceSocket B, !Malloc, !StreamSocket B}.
Implicit Types (p : Socks5Priv B).

(** What the handshake needs of the socket. *)
Record socks_ok p (s : B) : Prop := {
  so_base : socks_base p = Some s;
  so_usable : usable s;
  so_queue : queue_ok (socks_queue p);
  so_addr : nice_address_is_valid (socks_addr p) = true;
  so_addr_ok : address_ok (socks_addr p)
}.

Lemma socks_recv_spec p s data size :
  socks_base p = Some s → usable s → 0 ≤ size ≤ zlen data →
  ∃ ret data' s', socks_recv data size p = Done ((ret, data'), p <| socks_base := Some s' |>) ∧
    zlen data' = zlen data ∧
    (ret < 0 ∨ usable s' ∧ written s' = written s ∧
      (ret = 0 ∧ unread s' = unread s ∨
       ret = 1 ∧ ∃ chunk, unread s = chunk ++ unread s' ∧ 0 < zlen chunk ≤ size ∧
         data' = chunk ++ drop (length chunk) data)).
Proof.
  intros Hb Hs Hsz. unfold socks_recv.
  destruct (recv_law_one s data size None Hs Hsz) as (ret & data' & from & n & s' & E & Hz & Hc).
  exists ret, data', s'. split.
  { rewrite (bind_run (on socks_base _) _ p (ret, [{| im_buffers := [{| iv_buffer := data';
      iv_size := size |}]; im_from := from; im_length := n |}]) (p <| socks_base := Some s' |>)); [done |].
    unfold on. rewrite Hb. unfold nice_socket_recv_messages, on_base. by rewrite E. }
  split; [done |]. destruct Hc as [? | (Hs' & Hw & [(-> & _ & Hu & _) | (-> & Hn & chunk & Hu & Hl & Hd)])];
    [by left | right | right]; (split; [done |]; split; [done |]); [by left | right].
  split; [done |]. exists chunk. split_and!; [done | lia | lia |].
  rewrite Hd. do 2 f_equal. unfold zlen in Hl. lia.
Qed.

Lemma socks_error_spec p :
  socks_error p = Done (-1, p <| socks_base := None |> <| socks_state := SOCKS_STATE_ERROR |>).
Proof. done. Qed.

Lemma socks_send_spec p s b :
  socks_base p = Some s → usable s → zlen b < 2 ^ 31 →
  ∃ s', on socks_base (nice_socket_send_reliable None b) p = Done (zlen b, p <| socks_base := Some s' |>) ∧
    usable s' ∧ unread s' = unread s ∧ written s' = written s ++ b.
Proof.
  intros Hb Hs Hl. destruct (send_reliable_spec s None b Hs Hl) as (s' & E & Hp).
  exists s'. split; [| done]. unfold on. by rewrite Hb, E.
Qed.

Lemma connect_request_spec a :
  nice_address_is_valid a = true → address_ok a →
  ∃ msg, connect_request a = Done msg ∧ zlen msg < 2 ^ 31.
Proof.
  intros Hv Ha. unfold connect_request, nice_address_is_valid in *.
  destruct (sa_family a =? AF_INET); [eexists; split; [done |]; by cbn |].
  cbn [orb] in Hv. rewrite Hv. eexists; split; [done |].
  pose proof (ok_addr6_len a Ha). slia.
Qed.

Lemma auth_request_length u w msg : auth_request u w = Some msg → zlen msg < 2 ^ 31.
Proof.
  unfold auth_request. intros Hm.
  assert (∃ a b, (if (255 <? zlen a) || (255 <? zlen b) then None
    else Some ([0x01; zlen a] ++ a ++ [zlen b] ++ b)) = Some msg) as (a & b & Hab).
  { destruct u, w; try discriminate; eauto. }
  destruct ((255 <? zlen a) || (255 <? zlen b)) eqn:E; [discriminate Hab |]. injection Hab as <-.
  apply orb_false_iff in E as [?%Z.ltb_ge ?%Z.ltb_ge]. slia.
Qed.

(** The buffer of [n] octets into which [chunk] was read: what did not arrive
    is what the allocation left there. *)
Definition reply_buffer (n : Z) (chunk : bytes) : bytes := chunk ++ drop (length chunk) (g_malloc n).

(** A step of the handshake from [s] to [s'], on [chunk] off the stream. *)
Definition socks_progress p (s : B) (chunk : bytes) p' (s' : B) : Prop :=
  match socks_state p with
  | SOCKS_STATE_INIT =>
      socks_queue p' = socks_queue p ∧
      zlen chunk ≤ 2 ∧
      (socks_state p' = SOCKS_STATE_AUTH ∧ reply_buffer 2 chunk = [0x05; 0x02] ∧
       (∃ msg, auth_request (socks_username p) (socks_password p) = Some msg ∧
               written s' = written s ++ msg) ∨
       socks_state p' = SOCKS_STATE_CONNECT ∧ reply_buffer 2 chunk = [0x05; 0x00] ∧
       (∃ msg, connect_request (socks_addr p) = Done msg ∧ written s' = written s ++ msg))
  | SOCKS_STATE_AUTH =>
      socks_queue p' = socks_queue p ∧
      socks_state p' = SOCKS_STATE_CONNECT ∧ zlen chunk ≤ 2 ∧ reply_buffer 2 chunk = [0x01; 0x00] ∧
      ∃ msg, connect_request (socks_addr p) = Done msg ∧ written s' = written s ++ msg
  | SOCKS_STATE_CONNECT =>
      socks_queue p' = [] ∧ socks_state p' = SOCKS_STATE_CONNECTED ∧
      written s' = written s ++ queued (socks_queue p) ∧
      ∃ reply address, chunk = reply ++ address ∧ 0 < zlen reply ≤ 4 ∧
        (take 4 (reply_buffer 22 reply) = [0x05; 0x00; 0x00; 0x01] ∧ 0 < zlen address ≤ 6 ∨
         take 4 (reply_buffer 22 reply) = [0x05; 0x00; 0x00; 0x04] ∧ 0 < zlen address ≤ 18)
  | _ => False
  end.

(** What a receive during the handshake does. *)
Definition socks_outcome p (s : B) (ret : Z) p' : Prop :=
  socks_addr p' = socks_addr p ∧ socks_username p' = socks_username p ∧
  socks_password p' = socks_password p ∧
  (ret < 0 ∧ socks_queue p' = socks_queue p ∧
     (socks_base p' = None ∧ socks_state p' = SOCKS_STATE_ERROR ∨ socks_state p' = socks_state p) ∨
   ret = 0 ∧ ∃ s', socks_base p' = Some s' ∧ usable s' ∧
     (socks_state p' = socks_state p ∧ socks_queue p' = socks_queue p ∧ unread s' = unread s ∧
        written s' = written s ∨
      ∃ chunk, chunk ≠ [] ∧ unread s = chunk ++ unread s' ∧ socks_progress p s chunk p' s')).

Lemma outcome_error p s p1 :
  socks_addr p1 = socks_addr p → socks_username p1 = socks_username p →
  socks_password p1 = socks_password p → socks_queue p1 = socks_queue p →
  ∃ ret p', socks_error p1 = Done (ret, p') ∧ socks_outcome p s ret p'.
Proof.
  intros Ha Hu Hw Hq. rewrite socks_error_spec. eexists _, _; split; [done |]. split_and!; try done.
  left. split; [lia |]. split; [done |]. by left.
Qed.

Lemma outcome_stay p s s' ret :
  ret ≤ 0 →
  (ret < 0 ∨ usable s' ∧ written s' = written s ∧ unread s' = unread s) →
  socks_outcome p s ret (p <| socks_base := Some s' |>).
Proof.
  intros Hr Hc. split_and!; try done. destruct (decide (ret < 0)) as [? | ?].
  - left. split; [done |]. split; [done |]. by right.
  - destruct Hc as [? | (? & ? & ?)]; [done |]. right. split; [lia |]. exists s'.
    split; [done |]. split; [done |]. by left.
Qed.

(** The first octets of a buffer. *)
Lemma take_octet (data : bytes) n d :
  getb data (Z.of_nat n) = Done d → take (S n) data = take n data ++ [d].
Proof.
  intros Hg. apply take_S_r. unfold getb in Hg. rewrite (proj2 (Z.ltb_ge (Z.of_nat n) 0)) in Hg by lia.
  rewrite Nat2Z.id in Hg. destruct (data !! n); [by injection Hg as -> | done].
Qed.

Lemma two_octets (data : bytes) d0 d1 :
  getb data 0 = Done d0 → getb data 1 = Done d1 → take 2 data = [d0; d1].
Proof. intros H0 H1. by rewrite (take_octet _ 1 d1 H1), (take_octet _ 0 d0 H0). Qed.

Lemma four_octets (data : bytes) d0 d1 d2 d3 :
  getb data 0 = Done d0 → getb data 1 = Done d1 → getb data 2 = Done d2 → getb data 3 = Done d3 →
  take 4 data = [d0; d1; d2; d3].
Proof.
  intros H0 H1 H2 H3. by rewrite (take_octet _ 3 d3 H3), (take_octet _ 2 d2 H2), (two_octets _ d0 d1).
Qed.

Lemma getb_total (data : bytes) i : 0 ≤ i < zlen data → ∃ d, getb data i = Done d.
Proof. intros Hi. destruct (getb_in data i Hi) as (d & ? & _). eauto. Qed.

(** The connect request is sent and the state set. *)
Lemma send_connect_spec p s :
  socks_ok p s →
  ∃ s' msg, send_connect p
      = Done (0, p <| socks_base := Some s' |> <| socks_state := SOCKS_STATE_CONNECT |>) ∧
    connect_request (socks_addr p) = Done msg ∧
    usable s' ∧ unread s' = unread s ∧ written s' = written s ++ msg.
Proof.
  intros [Hb Hs Hq Ha Hao]. destruct (connect_request_spec _ Ha Hao) as (msg & Em & Hl).
  destruct (socks_send_spec p s msg Hb Hs Hl) as (s' & E & Hs' & Hu & Hw).
  exists s', msg. split; [| done]. unfold send_connect. rewrite bind_get, Em, bind_lift.
  by rewrite (bind_run _ _ _ _ _ E), bind_put.
Qed.

Lemma socks_ok_base p s s' : socks_ok p s → usable s' → socks_ok (p <| socks_base := Some s' |>) s'.
Proof. intros [] Hs. by split. Qed.

Lemma chunk_nonempty (chunk : bytes) n : 0 < zlen chunk ≤ n → chunk ≠ [].
Proof. intros Hn ->. change (zlen (@nil Z)) with 0 in Hn. lia. Qed.

Lemma socks_init_spec p s :
  socks_state p = SOCKS_STATE_INIT → socks_ok p s →
  ∃ ret p', socks_init p = Done (ret, p') ∧ socks_outcome p s ret p'.
Proof.
  intros Hst Hok. pose proof (g_malloc_length 2 ltac:(lia)) as Hg. unfold socks_init.
  destruct (socks_recv_spec p s (g_malloc 2) 2 (so_base _ _ Hok) (so_usable _ _ Hok))
    as (ret & data & s1 & E & Hz & Hc); [lia |].
  rewrite (bind_run _ _ _ _ _ E).
  destruct (Z.leb_spec ret 0) as [Hle | Hgt].
  { eexists _, _; split; [done |]. apply outcome_stay; [done |].
    destruct Hc as [? | (? & ? & [[_ ?] | [-> _]])]; [by left | by right | lia]. }
  destruct Hc as [? | (Hs1 & Hw1 & [[? _] | (-> & chunk & Hu & Hl & Hd)])]; [lia | lia |].
  cbn [Z.eqb Pos.eqb negb].
  destruct (getb_total data 0) as [d0 H0]; [lia |]. destruct (getb_total data 1) as [d1 H1]; [lia |].
  rewrite H0, H1, !bind_lift. pose proof (socks_ok_base p s s1 Hok Hs1) as Hok1.
  assert (Htwo : reply_buffer 2 chunk = [d0; d1]).
  { change (reply_buffer 2 chunk) with (chunk ++ drop (length chunk) (g_malloc 2)). rewrite <- Hd.
    rewrite <- (two_octets data d0 d1) by done. symmetry. apply take_ge. unfold zlen in *. lia. }
  destruct (Z.eqb_spec d0 0x05) as [-> |]; cbn [negb]; [| by apply outcome_error].
  destruct (Z.eqb_spec d1 0x02) as [-> |].
  - rewrite !bind_get.
    change (socks_username (p <| socks_base := Some s1 |>)) with (socks_username p).
    change (socks_password (p <| socks_base := Some s1 |>)) with (socks_password p).
    destruct (auth_request (socks_username p) (socks_password p)) as [msg |] eqn:Ea; [| by apply outcome_error].
    destruct (socks_send_spec (p <| socks_base := Some s1 |>) s1 msg) as (s2 & E2 & Hs2 & Hu2 & Hw2);
      [done | done | by eapply auth_request_length |].
    rewrite (bind_run _ _ _ _ _ E2), bind_put. eexists 0, _; split; [done |]. split_and!; try done.
    right. split; [done |]. exists s2. split; [done |]. split; [done |]. right. exists chunk.
    split; [by eapply chunk_nonempty |]. split; [by rewrite Hu2 |]. unfold socks_progress. rewrite Hst.
    split; [done |]. split; [lia |]. left. split; [done |]. split; [done |]. exists msg. by rewrite Hw2, Hw1.
  - destruct (Z.eqb_spec d1 0x00) as [-> |]; [| by apply outcome_error].
    destruct (send_connect_spec _ s1 Hok1) as (s2 & msg & E2 & Em & Hs2 & Hu2 & Hw2).
    rewrite E2. eexists 0, _; split; [done |]. split_and!; try done.
    right. split; [done |]. exists s2. split; [done |]. split; [done |]. right. exists chunk.
    split; [by eapply chunk_nonempty |]. split; [by rewrite Hu2 |]. unfold socks_progress. rewrite Hst.
    split; [done |]. split; [lia |]. right. split; [done |]. split; [done |]. exists msg. by rewrite Hw2, Hw1.
Qed.

Lemma socks_auth_spec p s :
  socks_state p = SOCKS_STATE_AUTH → socks_ok p s →
  ∃ ret p', socks_auth p = Done (ret, p') ∧ socks_outcome p s ret p'.
Proof.
  intros Hst Hok. pose proof (g_malloc_length 2 ltac:(lia)) as Hg. unfold socks_auth.
  destruct (socks_recv_spec p s (g_malloc 2) 2 (so_base _ _ Hok) (so_usable _ _ Hok))
    as (ret & data & s1 & E & Hz & Hc); [lia |].
  rewrite (bind_run _ _ _ _ _ E).
  destruct (Z.leb_spec ret 0) as [Hle | Hgt].
  { eexists _, _; split; [done |]. apply outcome_stay; [done |].
    destruct Hc as [? | (? & ? & [[_ ?] | [-> _]])]; [by left | by right | lia]. }
  destruct Hc as [? | (Hs1 & Hw1 & [[? _] | (-> & chunk & Hu & Hl & Hd)])]; [lia | lia |].
  cbn [Z.eqb Pos.eqb negb].
  destruct (getb_total data 0) as [d0 H0]; [lia |]. destruct (getb_total data 1) as [d1 H1]; [lia |].
  rewrite H0, H1, !bind_lift. pose proof (socks_ok_base p s s1 Hok Hs1) as Hok1.
  assert (Htwo : reply_buffer 2 chunk = [d0; d1]).
  { change (reply_buffer 2 chunk) with (chunk ++ drop (length chunk) (g_malloc 2)). rewrite <- Hd.
    rewrite <- (two_octets data d0 d1) by done. symmetry. apply take_ge. unfold zlen in *. lia. }
  destruct (Z.eqb_spec d0 0x01) as [-> |]; cbn [andb]; [| by apply outcome_error].
  destruct (Z.eqb_spec d1 0x00) as [-> |]; [| by apply outcome_error].
  destruct (send_connect_spec _ s1 Hok1) as (s2 & msg & E2 & Em & Hs2 & Hu2 & Hw2).
  rewrite E2. eexists 0, _; split; [done |]. split_and!; try done.
  right. split; [done |]. exists s2. split; [done |]. split; [done |]. right. exists chunk.
  split; [by eapply chunk_nonempty |]. split; [by rewrite Hu2 |]. unfold socks_progress. rewrite Hst.
  split; [done |]. split; [done |]. split; [lia |]. split; [done |]. exists msg. by rewrite Hw2, Hw1.
Qed.

Lemma socks_connect_spec p s :
  socks_state p = SOCKS_STATE_CONNECT → socks_ok p s →
  ∃ ret p', socks_connect p = Done (ret, p') ∧ socks_outcome p s ret p'.
Proof.
  intros Hst Hok. pose proof (g_malloc_length 22 ltac:(lia)) as Hg. unfold socks_connect.
  destruct (socks_recv_spec p s (g_malloc 22) 4 (so_base _ _ Hok) (so_usable _ _ Hok))
    as (ret & data & s1 & E & Hz & Hc); [lia |].
  rewrite (bind_run _ _ _ _ _ E).
  destruct (Z.leb_spec ret 0) as [Hle | Hgt].
  { eexists _, _; split; [done |]. apply outcome_stay; [done |].
    destruct Hc as [? | (? & ? & [[_ ?] | [-> _]])]; [by left | by right | lia]. }
  destruct Hc as [? | (Hs1 & Hw1 & [[? _] | (-> & chunk & Hu & Hl & Hd)])]; [lia | lia |].
  cbn [Z.eqb Pos.eqb negb].
  destruct (getb_total data 0) as [d0 H0]; [lia |]. destruct (getb_total data 1) as [d1 H1]; [lia |].
  destruct (getb_total data 2) as [d2 H2]; [lia |]. destruct (getb_total data 3) as [d3 H3]; [lia |].
  rewrite H0, H1, H2, H3, !bind_lift. pose proof (socks_ok_base p s s1 Hok Hs1) as Hok1.
  assert (Hfour : take 4 (reply_buffer 22 chunk) = [d0; d1; d2; d3]).
  { change (reply_buffer 22 chunk) with (chunk ++ drop (length chunk) (g_malloc 22)). rewrite <- Hd.
    by apply four_octets. }
  destruct (Z.eqb_spec d0 0x05) as [-> |]; cbn [negb orb]; [| by apply outcome_error].
  destruct (Z.eqb_spec d1 0x00) as [-> |]; cbn [negb orb]; [| by apply outcome_error].
  destruct (Z.eqb_spec d2 0x00) as [-> |]; cbn [negb orb]; [| by apply outcome_error].
  assert (Hsize : ∀ size, 0 ≤ size ≤ 22 →
    (take 4 (reply_buffer 22 chunk) = [0x05; 0x00; 0x00; 0x01] ∧ size ≤ 6 ∨
     take 4 (reply_buffer 22 chunk) = [0x05; 0x00; 0x00; 0x04] ∧ size ≤ 18) →
    ∃ ret p', ('(ret, _) ← socks_recv data size;
       if negb (ret =? 1) then socks_error
       else
         q ← get socks_queue;
         _ ← on socks_base (nice_socket_flush_send_queue q);
         _ ← put socks_queue [];
         _ ← put socks_state SOCKS_STATE_CONNECTED;
         mret 0) (p <| socks_base := Some s1 |>) = Done (ret, p') ∧ socks_outcome p s ret p').
  { intros size Hsz Hreply.
    destruct (socks_recv_spec (p <| socks_base := Some s1 |>) s1 data size)
      as (ret & data2 & s2 & E2 & _ & Hc); [done | done | lia |].
    rewrite (bind_run _ _ _ _ _ E2).
    destruct (Z.eqb_spec ret 1) as [-> | Hn]; cbn [negb]; [| by apply outcome_error].
    destruct Hc as [? | (Hs2 & Hw2 & [[? _] | (_ & chunk2 & Hu2 & Hl2 & _)])]; [lia | lia |].
    rewrite bind_get.
    destruct (flush_queue_spec (socks_queue p) s2 Hs2 (so_queue _ _ Hok)) as (s3 & Ef & Hs3 & Hu3 & Hw3).
    set (p2 := p <| socks_base := Some s1 |> <| socks_base := Some s2 |>).
    change (socks_queue p2) with (socks_queue p).
    assert (Hon : on socks_base (nice_socket_flush_send_queue (socks_queue p)) p2
      = Done (tt, p2 <| socks_base := Some s3 |>))
      by (unfold on; cbn -[nice_socket_flush_send_queue]; by rewrite Ef).
    rewrite (bind_run _ _ _ _ _ Hon), !bind_put.
    eexists 0, _; split; [done |]. split_and!; try done.
    right. split; [done |]. exists s3. split; [done |]. split; [done |]. right. exists (chunk ++ chunk2).
    split; [intros [-> _]%app_eq_nil; exact (chunk_nonempty [] 4 Hl eq_refl) |].
    split; [by rewrite Hu, Hu2, Hu3, app_assoc |]. unfold socks_progress. rewrite Hst.
    split; [done |]. split; [done |]. split; [by rewrite Hw3, Hw2, Hw1 |].
    exists chunk, chunk2. split; [done |]. split; [lia |].
    destruct Hreply as [[? ?] | [? ?]]; [left | right]; (split; [done | lia]). }
  destruct (Z.eqb_spec d3 0x01) as [-> |].
  { apply Hsize; [lia |]. left. split; [done | lia]. }
  destruct (Z.eqb_spec d3 0x04) as [-> |]; [| by apply outcome_error].
  apply Hsize; [lia |]. right. split; [done | lia].
Qed.

(** C29: the SOCKS5 gate.  During the handshake a receive hands up nothing and
    sends only messages of the protocol: it waits, or takes a reply off the
    stream and goes on to the next state, the request of that state (the
    credentials, the address of the peer) sent.  The replies it accepts are
    those of RFC 1928 and 1929: version 5 and the method asked for, version 1
    and success, version 5 and success with an IPv4 or IPv6 address; they are
    compared in the buffer they were read into, whose octets that did not
    arrive are those of the allocation.  Messages of the application stay
    queued until the proxy reports the connection, when they are passed on in
    order; a receive that fails leaves them queued, and drops the base socket
    unless it is the base socket that failed. *)
Theorem socks5_gate p (s : B) (messages : list NiceInputMessage) (Hok : socks_ok p s)
    (Hst : socks_state p ≠ SOCKS_STATE_CONNECTED ∧ socks_state p ≠ SOCKS_STATE_ERROR) :
  ∃ ret p', socks5_recv_messages messages p = Done ((ret, messages), p') ∧ socks_outcome p s ret p'.
Proof.
  unfold socks5_recv_messages. rewrite bind_get. destruct Hst as [H1 H2].
  destruct (socks_state p) eqn:Hst; [| | | done | done].
  - destruct (socks_init_spec p s Hst Hok) as (ret & p' & E & Ho).
    exists ret, p'. by rewrite (bind_run _ _ _ _ _ E).
  - destruct (socks_auth_spec p s Hst Hok) as (ret & p' & E & Ho).
    exists ret, p'. by rewrite (bind_run _ _ _ _ _ E).
  - destruct (socks_connect_spec p s Hst Hok) as (ret & p' & E & Ho).
    exists ret, p'. by rewrite (bind_run _ _ _ _ _ E).
Qed.
End facts.

(** ** Runs *)

Definition proxy_peer : NiceAddress := Build_NiceAddress AF_INET 0x5000 0x0100007f (repeat 0 16) 0.
Definition sample_socks (inbox : bytes) (rx : list Z) : Socks5Priv (TcpPriv script) :=
  Build_Socks5Priv SOCKS_STATE_INIT
    (Some (sample_tcp {| s_wire := []; s_inbox := inbox; s_tx := replicate 9 1000; s_rx := rx |}))
    proxy_peer (Some [65; 66]) (Some [67])
    [{| tbs_buf := [1; 2; 3]; tbs_length := 3; tbs_to := address_zero |}].

Lemma socks5_gate_witness :
  let p := sample_socks [0x05; 0x02] [2] in
  let s := sample_tcp {| s_wire := []; s_inbox := [0x05; 0x02]; s_tx := replicate 9 1000; s_rx := [2] |} in
  ∃ ret p', socks5_recv_messages [] p = Done ((ret, []), p') ∧ socks_outcome p s ret p'.
Proof.
  intros p s. apply socks5_gate; [| by split]. split; [done | split; [done | constructor] | | done |].
  - constructor; [by vm_compute | constructor].
  - split; by_compute.
Defined.

Fixpoint calls (n : nat) (p : Socks5Priv (TcpPriv script)) : outcome (Socks5Priv (TcpPriv script)) :=
  match n with
  | O => Done p
  | S n => '(_, p) ← socks5_recv_messages [] p; calls n p
  end.

(** The whole handshake with credentials: what is on the wire at the end. *)
Example socks5_run :
  (p ← calls 3 (sample_socks ([0x05; 0x02] ++ [0x01; 0x00] ++ [0x05; 0x00; 0x00; 0x01] ++ replicate 6 9)
                 [2; 2; 4; 6]);
   Done (socks_state p, (λ s, wire (fileno s)) <$> socks_base p))
  = Done (SOCKS_STATE_CONNECTED,
      Some ([0x01; 2; 65; 66; 1; 67] ++ [0x05; 0x01; 0x00; 0x01; 0x7f; 0; 0; 1; 0; 0x50] ++ [1; 2; 3])).
Proof. vm_compute. reflexivity. Qed.

(** The length of a reply is not looked at: when only its first octet has
    arrived, the second is whatever the stack holds. *)
Definition zero_malloc : Malloc.
Proof.
  refine {| g_malloc := λ n, replicate (Z.to_nat n) 0 |}.
  intros n Hn. unfold zlen. rewrite length_replicate. lia.
Defined.
Lemma short_reply_accepted :
  ('(_, _, p) ← @socks5_recv_messages _ _ zero_malloc [] (sample_socks [0x05] [1]); Done (socks_state p))
  = Done SOCKS_STATE_CONNECT.
Proof. vm_compute. reflexivity. Qed.

(** A connect reply in two segments is taken for an error. *)
Lemma split_connect_reply_rejected :
  (p ← calls 3 (sample_socks ([0x05; 0x02] ++ [0x01; 0x00] ++ [0x05; 0x00; 0x00; 0x01] ++ replicate 6 9)
                 [2; 2; 4; 0; 6]);
   Done (socks_state p))
  = Done SOCKS_STATE_ERROR.
Proof. vm_compute. reflexivity. Qed.
