(* ===== verification/HttpProxy.v ===== *)
(** * The HTTP proxy client (socket/http.c)

    An HTTP CONNECT, the parsing of the proxy's answer in a ring buffer that
    grows, and the pass-through after it.  [recv_buf] is [rb_buf]; a logical
    position [pos] of the ring is the octet at [(pos + rb_pos) % rb_length]. *)

From S2P Require Import Prelude Bytes StateMonad StunMessage NiceAddress NiceSocket PseudoTcpFifo.
From Stdlib Require Import Ascii.
From Stdlib Require String.
Import String.StringSyntax.

#[global] Open Scope Z_scope.

Inductive HttpState :=
| HTTP_STATE_INIT
| HTTP_STATE_HEADERS
| HTTP_STATE_BODY
| HTTP_STATE_CONNECTED
| HTTP_STATE_ERROR.
#[export] Instance HttpState_eq_dec : EqDecision HttpState.
Proof. solve_decision. Defined.

(** The octets of a string literal, and of a decimal number. *)
Definition octets (s : String.string) : bytes :=
  map (λ a, Z.of_N (N_of_ascii a)) (String.list_ascii_of_string s).
Arguments octets s%_string_scope.
Fixpoint decimal (fuel : nat) (n : Z) : bytes :=
  match fuel with
  | O => []
  | S fuel => (if n <? 10 then [] else decimal fuel (n / 10)) ++ [48 + n mod 10]
  end.
Definition crlf : bytes := [13; 10].

Class Base64 : Type := { g_base64_encode : bytes → bytes }.

Definition G_MAXSIZE : Z := 2 ^ 64 - 1.

Section http.
Context {B : Type} `{!NiceSocket B, !Malloc, !Resolver, !Base64}.

Record HttpPriv := {
  http_state : HttpState;
  http_base : option B;
  http_addr : NiceAddress;
  http_username : option bytes;
  http_password : option bytes;
  http_queue : list NiceSocketQueuedSend;
  rb_buf : bytes;
  rb_length : Z;
  rb_pos : Z;
  rb_fill : Z;
  content_length : Z
}.
Definition eta_HttpPriv (p : HttpPriv) : HttpPriv :=
  Build_HttpPriv (http_state p) (http_base p) (http_addr p) (http_username p) (http_password p)
    (http_queue p) (rb_buf p) (rb_length p) (rb_pos p) (rb_fill p) (content_length p).
#[export] Instance set_http_state : Setter http_state := ltac:(derive_setter eta_HttpPriv http_state).
#[export] Instance set_http_base : Setter http_base := ltac:(derive_setter eta_HttpPriv http_base).
#[export] Instance set_http_queue : Setter http_queue := ltac:(derive_setter eta_HttpPriv http_queue).
#[export] Instance set_rb_buf : Setter rb_buf := ltac:(derive_setter eta_HttpPriv rb_buf).
#[export] Instance set_rb_length : Setter rb_length := ltac:(derive_setter eta_HttpPriv rb_length).
#[export] Instance set_rb_pos : Setter rb_pos := ltac:(derive_setter eta_HttpPriv rb_pos).
#[export] Instance set_rb_fill : Setter rb_fill := ltac:(derive_setter eta_HttpPriv rb_fill).
#[export] Instance set_content_length : Setter content_length :=
  ltac:(derive_setter eta_HttpPriv content_length).

(** ** Connecting *)

Definition connect_request_text (host : bytes) (port : Z) (username password : option bytes) : bytes :=
  let credential :=
    match username with
    | None => []
    | Some u =>
        let userpass := u ++ octets ":" ++ match password with Some w => w | None => [] end in
        octets "Proxy-Authorization: Basic " ++ g_base64_encode userpass ++ crlf
    end in
  octets "CONNECT " ++ host ++ octets ":" ++ decimal 5 port ++ octets " HTTP/1.0" ++ crlf ++
  octets "Host: " ++ host ++ crlf ++
  octets "User-Agent: libnice" ++ crlf ++
  octets "Content-Length: 0" ++ crlf ++
  octets "Proxy-Connection: Keep-Alive" ++ crlf ++
  octets "Connection: Keep-Alive" ++ crlf ++
  octets "Cache-Control: no-cache" ++ crlf ++
  octets "Pragma: no-cache" ++ crlf ++
  credential ++ crlf.

(** [None]: no address, no socket.  For an address of another family [host] is
    never written. *)
Definition nice_http_socket_new (base : option B) (addr : option NiceAddress)
    (username password : option bytes) : outcome (option HttpPriv) :=
  match addr with
  | None => mret None
  | Some addr =>
      match nice_address_to_string addr with
      | None => Ub
      | Some host =>
          '(_, base) ← nice_socket_send_messages_reliable None
            [{| om_buffers := [connect_request_text host (nice_address_get_port addr) username password] |}] base;
          mret (Some (Build_HttpPriv HTTP_STATE_INIT base addr username password [] [] 0 0 0 0))
      end
  end.

(** ** The ring buffer *)

Definition assert_ring_buffer_valid (p : HttpPriv) : outcome unit :=
  _ ← assert_ (rb_fill p <=? rb_length p);
  _ ← assert_ ((rb_pos p =? 0) || (rb_pos p <? rb_length p));
  assert_ ((rb_length p =? 0) || negb (bool_decide (rb_buf p = []))).

(** [GET_BYTE (pos)] *)
Definition GET_BYTE (p : HttpPriv) (pos : Z) : outcome Z :=
  i ← umod (pos + rb_pos p) (rb_length p);
  getb (rb_buf p) i.

(** Copies up to [buffer_length] octets into [buffer]: how many, and the
    buffer. *)
Definition ring_copy (p : HttpPriv) (buffer : bytes) (buffer_length : Z) : outcome (Z * bytes) :=
  if rb_length p <? rb_pos p + rb_fill p then
    let len := Z.min (rb_length p - rb_pos p) buffer_length in
    d ← slice (rb_buf p) (rb_pos p) len;
    buffer ← store buffer 0 d;
    let len2 := Z.min (rb_fill p - len) (buffer_length - len) in
    d ← slice (rb_buf p) 0 len2;
    buffer ← store buffer len d;
    mret (len + len2, buffer)
  else
    let len := Z.min (rb_fill p) buffer_length in
    d ← slice (rb_buf p) (rb_pos p) len;
    buffer ← store buffer 0 d;
    mret (len, buffer).

(** The same, popping what was copied. *)
Definition memcpy_ring_buffer_to_buffer (p : HttpPriv) (buffer : bytes) (buffer_length : Z)
  : outcome (Z * bytes * HttpPriv) :=
  '(consumed, buffer) ← ring_copy p buffer buffer_length;
  pos ← umod (rb_pos p + consumed) (rb_length p);
  mret (consumed, buffer, p <| rb_pos := pos |> <| rb_fill := rb_fill p - consumed |>).

(** The vectors of one message: their sizes become what was copied. *)
Fixpoint ring_to_vectors (p : HttpPriv) (vs : list GInputVector)
  : outcome (list GInputVector * HttpPriv) :=
  match vs with
  | [] => mret ([], p)
  | v :: vs' =>
      if rb_fill p <=? 0 then mret (vs, p)
      else
        '(n, b, p) ← memcpy_ring_buffer_to_buffer p (iv_buffer v) (iv_size v);
        '(r, p) ← ring_to_vectors p vs';
        mret ({| iv_buffer := b; iv_size := n |} :: r, p)
  end.

(** Returns the number of messages touched; [length] is not set. *)
Fixpoint memcpy_ring_buffer_to_input_messages (p : HttpPriv) (messages : list NiceInputMessage)
  : outcome (Z * list NiceInputMessage * HttpPriv) :=
  match messages with
  | [] => mret (0, [], p)
  | m :: ms =>
      if rb_fill p <=? 0 then mret (0, messages, p)
      else
        '(vs, p) ← ring_to_vectors p (im_buffers m);
        '(i, r, p) ← memcpy_ring_buffer_to_input_messages p ms;
        mret (1 + i, m <| im_buffers := vs |> :: r, p)
  end.

(** ** Parsing *)

Inductive parsed :=
| NOT_ENOUGH_DATA
| PARSE_ERROR
| PARSED (pos : Z).

Definition SPACE : Z := 32.
Definition CR : Z := 13.
Definition LF : Z := 10.

(** The loop of [EAT_WHITESPACE]. *)
Fixpoint eat_loop (fuel : nat) (p : HttpPriv) (pos : Z) : outcome Z :=
  if pos <? rb_fill p then
    b ← GET_BYTE p pos;
    if b =? SPACE then match fuel with O => Oof | S fuel => eat_loop fuel p (pos + 1) end
    else mret pos
  else mret pos.
Definition EAT_WHITESPACE (p : HttpPriv) (pos : Z) (next : Z → outcome parsed) : outcome parsed :=
  pos ← eat_loop (Z.to_nat (rb_fill p)) p pos;
  if rb_fill p <=? pos then mret NOT_ENOUGH_DATA else next pos.

(** Octets at [pos], compared one by one. *)
Fixpoint bytes_at (p : HttpPriv) (pos : Z) (bs : bytes) : outcome bool :=
  match bs with
  | [] => mret true
  | b :: bs => x ← GET_BYTE p pos; if x =? b then bytes_at p (pos + 1) bs else mret false
  end.

Definition ascii_isdigit (b : Z) : bool := (48 <=? b) && (b <=? 57).

(** Skip to the end of the line: the loop before [pos += 2]. *)
Fixpoint skip_line_loop (fuel : nat) (p : HttpPriv) (pos : Z) : outcome Z :=
  if pos + 1 <? rb_fill p then
    a ← GET_BYTE p pos;
    if a =? CR then mret pos
    else
      b ← GET_BYTE p (pos + 1);
      if b =? LF then mret pos
      else match fuel with O => Oof | S fuel => skip_line_loop fuel p (pos + 1) end
  else mret pos.
Definition skip_line (p : HttpPriv) (pos : Z) : outcome parsed :=
  pos ← skip_line_loop (Z.to_nat (rb_fill p)) p pos;
  if rb_fill p <=? pos + 1 then mret NOT_ENOUGH_DATA else mret (PARSED (pos + 2)).

(** The status line. *)
Definition parse_status (p : HttpPriv) : outcome parsed :=
  EAT_WHITESPACE p 0 (λ pos,
  if rb_fill p <? pos + 7 then mret NOT_ENOUGH_DATA
  else
    http ← bytes_at p pos (octets "HTTP/1.");
    if negb http then mret PARSE_ERROR
    else
      let pos := pos + 7 in
      if rb_fill p <=? pos then mret NOT_ENOUGH_DATA
      else
        v ← GET_BYTE p pos;
        if negb (v =? 48) && negb (v =? 49) then mret PARSE_ERROR
        else
          let pos := pos + 1 in
          if rb_fill p <=? pos then mret NOT_ENOUGH_DATA
          else
            sp ← GET_BYTE p pos;
            if negb (sp =? SPACE) then mret PARSE_ERROR
            else
              EAT_WHITESPACE p pos (λ pos,
              if rb_fill p <? pos + 3 then mret NOT_ENOUGH_DATA
              else
                c0 ← GET_BYTE p pos;
                if negb (c0 =? 50) then mret PARSE_ERROR
                else
                  c1 ← GET_BYTE p (pos + 1);
                  if negb (ascii_isdigit c1) then mret PARSE_ERROR
                  else
                    c2 ← GET_BYTE p (pos + 2);
                    if negb (ascii_isdigit c2) then mret PARSE_ERROR
                    else skip_line p pos)).

(** The name of the header, in either case: pairs of an upper and a lower case
    letter. *)
Definition content_length_name : list (Z * Z) :=
  [(67, 99); (111, 79); (110, 78); (116, 84); (101, 69); (110, 78); (116, 84); (45, 45);
   (76, 108); (101, 69); (110, 78); (103, 71); (116, 84); (104, 72); (58, 58)].
Fixpoint name_at (p : HttpPriv) (pos : Z) (cs : list (Z * Z)) : outcome bool :=
  match cs with
  | [] => mret true
  | (u, l) :: cs =>
      x ← GET_BYTE p pos;
      if (x =? u) || (x =? l) then name_at p (pos + 1) cs else mret false
  end.

(** The loop over the digits of the value: where it stops and the new
    [content_length].  The octet at [pos] is read before [pos] is compared with
    the fill. *)
Fixpoint content_loop (fuel : nat) (p : HttpPriv) (pos len : Z) : outcome (parsed * Z) :=
  byte ← GET_BYTE p pos;
  if byte =? CR then mret (PARSED pos, len)
  else if negb (ascii_isdigit byte) then mret (PARSE_ERROR, 0)
  else
    let val := byte - 48 in
    if (G_MAXSIZE / 10 <? len) || (G_MAXSIZE - val <? len * 10) then mret (PARSED pos, 0)
    else
      let len := len * 10 + val in
      if rb_fill p <? pos + 1 then mret (NOT_ENOUGH_DATA, len)
      else match fuel with O => Oof | S fuel => content_loop fuel p (pos + 1) len end.

(** One header line: where it ends and the new [content_length]. *)
Definition parse_header_line (p : HttpPriv) : outcome (parsed * Z) :=
  name ← (if 15 <? rb_fill p then name_at p 0 content_length_name else mret false);
  '(r, len) ←
    (if (name : bool) then
       pos ← eat_loop (Z.to_nat (rb_fill p)) p 15;
       if rb_fill p <=? pos then mret (NOT_ENOUGH_DATA, content_length p)
       else content_loop (Z.to_nat (rb_fill p)) p pos 0
     else mret (PARSED 0, content_length p));
  match r with
  | PARSED pos => r ← skip_line p pos; mret (r, len)
  | _ => mret (r, len)
  end.

(** ** Receiving *)

(** A computation that reads the state. *)
Definition reads {A} (f : HttpPriv → outcome A) : st HttpPriv A := λ p, a ← f p; Done (a, p).

(** The label [error]. *)
Definition http_error : st HttpPriv Z :=
  _ ← on http_base nice_socket_free;
  _ ← put http_state HTTP_STATE_ERROR;
  mret (-1).

(** Drop [n] octets that have been parsed. *)
Definition ring_consume (n : Z) : st HttpPriv unit := λ p,
  pos ← umod (rb_pos p + n) (rb_length p);
  Done (tt, p <| rb_pos := pos |> <| rb_fill := rb_fill p - n |>).

(** From the label [retry] on. *)
Fixpoint http_retry (fuel : nat) (messages : list NiceInputMessage)
  : st HttpPriv (Z * list NiceInputMessage) := λ p,
  match fuel with
  | O => Oof
  | S fuel =>
      match http_state p with
      | HTTP_STATE_INIT =>
          r ← parse_status p;
          match r with
          | NOT_ENOUGH_DATA => Done ((0, messages), p)
          | PARSE_ERROR => (ret ← http_error; mret (ret, messages)) p
          | PARSED pos =>
              (_ ← ring_consume pos;
               _ ← put content_length 0;
               _ ← put http_state HTTP_STATE_HEADERS;
               http_retry fuel messages) p
          end
      | HTTP_STATE_HEADERS =>
          '(r, len) ← parse_header_line p;
          (_ ← put content_length len;
           match r with
           | NOT_ENOUGH_DATA => mret (0, messages)
           | PARSE_ERROR => ret ← http_error; mret (ret, messages)
           | PARSED pos =>
               _ ← ring_consume pos;
               _ ← when (pos =? 2) (put http_state HTTP_STATE_BODY);
               http_retry fuel messages
           end) p
      | HTTP_STATE_BODY =>
          if content_length p =? 0
          then (_ ← put http_state HTTP_STATE_CONNECTED; http_retry fuel messages) p
          else if rb_fill p =? 0 then Done ((0, messages), p)
          else
            let consumed := Z.min (content_length p) (rb_fill p) in
            (_ ← ring_consume consumed;
             _ ← upd content_length (λ l, l - consumed);
             http_retry fuel messages) p
      | HTTP_STATE_CONNECTED =>
          '(len, messages, p) ← memcpy_ring_buffer_to_input_messages p messages;
          (_ ← on http_base (nice_socket_flush_send_queue (http_queue p));
           _ ← put http_queue [];
           mret (len, messages)) p
      | HTTP_STATE_ERROR => (ret ← http_error; mret (ret, messages)) p
      end
  end.

(** [g_realloc] of a ring that is full, as a flat array. *)
Definition http_grow : st HttpPriv unit := λ p,
  if rb_fill p =? rb_length p then
    let n := Z.max (u64 (rb_length p * 2)) 1024 in
    Done (tt, p <| rb_length := n |> <| rb_buf := rb_buf p ++ g_malloc (n - rb_length p) |>)
  else Done (tt, p).

(** The free part of the ring as one or two vectors, and the ring with them
    written back. *)
Definition ring_vectors (p : HttpPriv) : outcome (list GInputVector) :=
  if rb_length p <? rb_pos p + rb_fill p then
    i ← umod (rb_pos p + rb_fill p) (rb_length p);
    d ← slice (rb_buf p) i (rb_length p - rb_fill p);
    mret [{| iv_buffer := d; iv_size := rb_length p - rb_fill p |}; {| iv_buffer := []; iv_size := 0 |}]
  else
    let i := rb_pos p + rb_fill p in
    d ← slice (rb_buf p) i (rb_length p - i);
    d' ← slice (rb_buf p) 0 (rb_pos p);
    mret [{| iv_buffer := d; iv_size := rb_length p - i |}; {| iv_buffer := d'; iv_size := rb_pos p |}].
Definition ring_write_back (p : HttpPriv) (d d' : bytes) : outcome bytes :=
  if rb_length p <? rb_pos p + rb_fill p then
    i ← umod (rb_pos p + rb_fill p) (rb_length p);
    store (rb_buf p) i d
  else
    buf ← store (rb_buf p) (rb_pos p + rb_fill p) d;
    store buf 0 d'.

(** Enough turns for every state and every octet in the ring. *)
Definition retry_fuel (p : HttpPriv) : nat := Z.to_nat (rb_fill p) + 4.

(** One receive into the ring: the value of the base socket. *)
Definition http_fill : st HttpPriv Z :=
  _ ← http_grow;
  _ ← reads assert_ring_buffer_valid;
  vs ← reads ring_vectors;
  '(ret, ms) ← on http_base (nice_socket_recv_messages
    [{| im_buffers := vs; im_from := None; im_length := 0 |}]);
  match ms with
  | [{| im_buffers := [{| iv_buffer := d |}; {| iv_buffer := d' |}]; im_length := n |}] =>
      buf ← reads (λ p, ring_write_back p d d');
      _ ← put rb_buf buf;
      _ ← when (0 <? ret) (_ ← upd rb_fill (λ f, f + n); reads assert_ring_buffer_valid);
      mret ret
  | _ => ub
  end.

Definition http_recv_slow (messages : list NiceInputMessage)
  : st HttpPriv (Z * list NiceInputMessage) :=
  ret ← http_fill;
  if ret <=? 0 then mret (ret, messages)
  else
    fuel ← get retry_fuel;
    http_retry fuel messages.

(** The address of the peer, for the messages received. *)
Fixpoint http_set_from (n : nat) (addr : NiceAddress) (messages : list NiceInputMessage)
  : list NiceInputMessage :=
  match n, messages with
  | S n, m :: ms =>
      m <| im_from := match im_from m with None => None | Some _ => Some addr end |>
        :: http_set_from n addr ms
  | _, _ => messages
  end.

Definition http_recv_messages (messages : list NiceInputMessage)
  : st HttpPriv (Z * list NiceInputMessage) :=
  state ← get http_state;
  if bool_decide (state = HTTP_STATE_CONNECTED) then
    '(ret, messages) ← on http_base (nice_socket_recv_messages messages);
    if ret <=? 0 then mret (ret, messages)
    else
      addr ← get http_addr;
      mret (ret, http_set_from (Z.to_nat ret) addr messages)
  else http_recv_slow messages.

(** ** Sending *)

Definition http_send_messages (to : option NiceAddress) (messages : list NiceOutputMessage)
  : st HttpPriv Z :=
  state ← get http_state;
  match state with
  | HTTP_STATE_CONNECTED => on http_base (nice_socket_send_messages to messages)
  | HTTP_STATE_ERROR => mret (-1)
  | _ => mret 0
  end.

Definition http_send_messages_reliable (to : option NiceAddress) (messages : list NiceOutputMessage)
  : st HttpPriv Z :=
  state ← get http_state;
  match state with
  | HTTP_STATE_CONNECTED => on http_base (nice_socket_send_messages_reliable to messages)
  | HTTP_STATE_ERROR => mret (-1)
  | _ =>
      q ← get http_queue;
      q ← lift (nice_socket_queue_send q to messages);
      _ ← put http_queue q;
      mret (zlen messages)
  end.

Definition http_is_reliable (p : HttpPriv) : outcome bool := nice_socket_is_reliable (http_base p).
Definition http_can_send (addr : option NiceAddress) (p : HttpPriv) : outcome bool :=
  nice_socket_can_send addr (http_base p).
Definition http_set_writable_callback (cb : option NiceSocketWritableCb) : st HttpPriv unit :=
  on http_base (nice_socket_set_writable_callback cb).

#[export] Instance http_socket : NiceSocket HttpPriv := {|
  recv_messages := http_recv_messages;
  send_messages := http_send_messages;
  send_messages_reliable := http_send_messages_reliable;
  is_reliable := http_is_reliable;
  can_send := http_can_send;
  set_writable_callback := http_set_writable_callback
|}.
End http.
Arguments HttpPriv B : clear implicits.
