(* ===== verification/HttpFacts.v ===== *)
(** * The HTTP proxy client: the ring buffer and the parser

    The parser stays inside the ring and ends, whatever a proxy answers; what a
    receive adds to the ring; and the answers on which the code loses data. *)

From S2P Require Import Prelude Bytes StateMonad StunMessage NiceAddress NiceSocket PseudoTcpFifo TcpBsd TcpStream HttpProxy.
From Stdlib Require String.
Import String.StringSyntax.

(** Stores and loads at the start of an object. *)
Lemma store_front (b b' c : bytes) : zlen b' = zlen b → store (b ++ c) 0 b' = Done (b' ++ c).
Proof. intros E. by apply (store_app [] b c b' 0). Qed.
Lemma slice_front (b c : bytes) n : n = zlen b → slice (b ++ c) 0 n = Done b.
Proof. intros E. by apply (slice_app [] b c 0 n). Qed.

Section facts.
Context {B : Type} `{!NiceSocket B, !Malloc, !StreamSocket B}.
Implicit Types (p : HttpPriv B).

(** ** The ring *)

(** Nothing allocated yet, or at least 1024 octets. *)
Definition ring_ok p : Prop :=
  zlen (rb_buf p) = rb_length p ∧ 0 ≤ rb_fill p ≤ rb_length p ∧ 0 ≤ content_length p ∧
  (rb_length p = 0 ∧ rb_pos p = 0 ∨ 1024 ≤ rb_length p ∧ 0 ≤ rb_pos p < rb_length p).

(** The ring in use. *)
Definition ring_alloc p : Prop := ring_ok p ∧ 0 < rb_length p.

(** The octets in the ring, in order. *)
Definition ring_contents p : bytes :=
  take (Z.to_nat (rb_fill p)) (drop (Z.to_nat (rb_pos p)) (rb_buf p) ++ rb_buf p).

Lemma GET_BYTE_total p pos : ring_alloc p → ∃ b, GET_BYTE p pos = Done b.
Proof.
  intros [(Hz & _) Hl]. unfold GET_BYTE, umod.
  replace (rb_length p =? 0) with false by lia. rewrite bind_Done.
  destruct (getb_in (rb_buf p) ((pos + rb_pos p) mod rb_length p)) as (b & E & _); [| eauto].
  rewrite Hz. apply Z.mod_pos_bound. lia.
Qed.

Lemma bytes_at_total p bs : ring_alloc p → ∀ pos, ∃ b, bytes_at p pos bs = Done b.
Proof.
  intros Hp. induction bs as [| x bs IH]; intros pos; cbn [bytes_at]; [by eexists |].
  destruct (GET_BYTE_total p pos Hp) as [b ->]. rewrite bind_Done. by destruct (b =? x); [| eexists].
Qed.

Lemma name_at_total p cs : ring_alloc p → ∀ pos, ∃ b, name_at p pos cs = Done b.
Proof.
  intros Hp. induction cs as [| [u l] cs IH]; intros pos; cbn [name_at]; [by eexists |].
  destruct (GET_BYTE_total p pos Hp) as [b ->]. rewrite bind_Done. by destruct (_ || _); [| eexists].
Qed.

Lemma eat_loop_total p : ring_alloc p → ∀ fuel pos, rb_fill p - pos ≤ Z.of_nat fuel →
  ∃ r, eat_loop fuel p pos = Done r ∧ pos ≤ r.
Proof.
  intros Hp. induction fuel as [| fuel IH]; intros pos Hf; cbn [eat_loop].
  - replace (pos <? rb_fill p) with false by lia. by exists pos.
  - destruct (Z.ltb_spec pos (rb_fill p)); [| by exists pos].
    destruct (GET_BYTE_total p pos Hp) as [b ->]. rewrite bind_Done.
    destruct (b =? SPACE); [| by exists pos].
    destruct (IH (pos + 1)) as (r & -> & ?); [lia |]. exists r. split; [done | lia].
Qed.

(** A result of the parser that lies in the ring. *)
Definition parsed_ok p (r : parsed) : Prop :=
  match r with PARSED pos => 2 ≤ pos ≤ rb_fill p | _ => True end.

Lemma EAT_WHITESPACE_total p pos next :
  ring_alloc p → 0 ≤ pos →
  (∀ q, pos ≤ q → q < rb_fill p → ∃ r, next q = Done r ∧ parsed_ok p r) →
  ∃ r, EAT_WHITESPACE p pos next = Done r ∧ parsed_ok p r.
Proof.
  intros Hp H0 Hn. unfold EAT_WHITESPACE.
  destruct (eat_loop_total p Hp (Z.to_nat (rb_fill p)) pos) as (q & -> & Hq); [lia |].
  rewrite bind_Done. destruct (Z.leb_spec (rb_fill p) q); [by eexists | by apply Hn].
Qed.

Lemma skip_line_loop_total p : ring_alloc p → ∀ fuel pos, rb_fill p - pos ≤ Z.of_nat fuel →
  ∃ r, skip_line_loop fuel p pos = Done r ∧ pos ≤ r.
Proof.
  intros Hp. induction fuel as [| fuel IH]; intros pos Hf; cbn [skip_line_loop].
  - replace (pos + 1 <? rb_fill p) with false by lia. by exists pos.
  - destruct (Z.ltb_spec (pos + 1) (rb_fill p)); [| by exists pos].
    destruct (GET_BYTE_total p pos Hp) as [a ->]. rewrite bind_Done.
    destruct (a =? CR); [by exists pos |].
    destruct (GET_BYTE_total p (pos + 1) Hp) as [b ->]. rewrite bind_Done.
    destruct (b =? LF); [by exists pos |].
    destruct (IH (pos + 1)) as (r & -> & ?); [lia |]. exists r. split; [done | lia].
Qed.

Lemma skip_line_total p pos : ring_alloc p → 0 ≤ pos →
  ∃ r, skip_line p pos = Done r ∧ parsed_ok p r.
Proof.
  intros Hp H0. unfold skip_line.
  destruct (skip_line_loop_total p Hp (Z.to_nat (rb_fill p)) pos) as (q & -> & Hq); [lia |].
  rewrite bind_Done. destruct (Z.leb_spec (rb_fill p) (q + 1)); eexists; (split; [done |]); cbn; [done | lia].
Qed.

(** Read the next octet, or stop here. *)
Ltac http_step Hp :=
  match goal with
  | |- ∃ r, (if ?b then _ else _) = Done r ∧ _ => destruct b; [by eexists |]
  | |- ∃ r, (GET_BYTE ?p ?pos ≫= _) = Done r ∧ _ =>
      let b := fresh "b" in destruct (GET_BYTE_total p pos Hp) as [b ->]; rewrite bind_Done
  end.

Lemma parse_status_total p : ring_alloc p → ∃ r, parse_status p = Done r ∧ parsed_ok p r.
Proof.
  intros Hp. unfold parse_status. apply EAT_WHITESPACE_total; [done | lia |]. intros pos H0 _.
  http_step Hp. edestruct (bytes_at_total p) as [b ->]; [done |]. rewrite bind_Done.
  do 7 http_step Hp.
  apply EAT_WHITESPACE_total; [done | lia |]. intros q Hq _.
  do 7 http_step Hp. apply skip_line_total; [done | lia].
Qed.

Lemma content_loop_total p : ring_alloc p → ∀ fuel pos len,
  0 ≤ pos → 0 ≤ len → rb_fill p - pos ≤ Z.of_nat fuel →
  ∃ r n, content_loop fuel p pos len = Done (r, n) ∧ 0 ≤ n ∧
    match r with PARSED q => pos ≤ q | _ => True end.
Proof.
  intros Hp. induction fuel as [| fuel IH]; intros pos len H0 Hl Hf; cbn [content_loop];
    destruct (GET_BYTE_total p pos Hp) as [b ->]; rewrite bind_Done;
    (destruct (b =? CR); [by eexists _, _ |]);
    (destruct (ascii_isdigit b) eqn:Hd; cbn [negb]; [| by eexists _, _]);
    apply andb_true_iff in Hd as [?%Z.leb_le ?%Z.leb_le];
    (destruct (_ || _); [by eexists _, _ |]).
  - replace (rb_fill p <? pos + 1) with true by lia. eexists _, _. split; [done |]. split; [lia | done].
  - destruct (Z.ltb_spec (rb_fill p) (pos + 1)).
    { eexists _, _. split; [done |]. split; [lia | done]. }
    destruct (IH (pos + 1) (len * 10 + (b - 48))) as (r & n & -> & Hn & Hr); [lia.. |].
    eexists _, _. split; [done |]. split; [done |]. destruct r; try done. lia.
Qed.

Lemma parse_header_line_total p : ring_alloc p →
  ∃ r n, parse_header_line p = Done (r, n) ∧ 0 ≤ n ∧ parsed_ok p r.
Proof.
  intros Hp. pose proof Hp as [(_ & _ & Hcl & _) _]. unfold parse_header_line.
  assert (∃ b, (if 15 <? rb_fill p then name_at p 0 content_length_name else mret false) = Done b) as [b ->].
  { destruct (15 <? rb_fill p); [by apply name_at_total | by eexists]. }
  rewrite bind_Done.
  assert (Hskip : ∀ q n, 0 ≤ q → 0 ≤ n → ∃ r n',
    (r ← skip_line p q; mret (r, n)) = Done (r, n') ∧ 0 ≤ n' ∧ parsed_ok p r).
  { intros q n Hq Hn. destruct (skip_line_total p q Hp Hq) as (r & -> & Hr).
    rewrite bind_Done. by eexists _, _. }
  destruct b; [| rewrite bind_Done; by apply Hskip].
  destruct (eat_loop_total p Hp (Z.to_nat (rb_fill p)) 15) as (q & -> & Hq); [lia |].
  rewrite bind_Done. destruct (Z.leb_spec (rb_fill p) q); [rewrite bind_Done; by eexists _, _ |].
  destruct (content_loop_total p Hp (Z.to_nat (rb_fill p)) q 0) as (r & n & -> & Hn & Hr); [lia.. |].
  rewrite bind_Done. destruct r; [by eexists _, _ | by eexists _, _ | apply Hskip; [lia | done]].
Qed.

(** ** Taking octets out *)

(** Dropping [n] octets from the front of the ring. *)
Lemma ring_rotate (buf : bytes) (pos fill n : Z) :
  0 ≤ pos < zlen buf → 0 ≤ n ≤ fill → fill ≤ zlen buf →
  take (Z.to_nat (fill - n)) (drop (Z.to_nat ((pos + n) mod zlen buf)) buf ++ buf)
  = drop (Z.to_nat n) (take (Z.to_nat fill) (drop (Z.to_nat pos) buf ++ buf)).
Proof.
  intros Hp Hn Hf. rewrite skipn_firstn_comm.
  replace (Z.to_nat fill - Z.to_nat n)%nat with (Z.to_nat (fill - n)) by lia.
  assert (Hd : length (drop (Z.to_nat pos) buf) = Z.to_nat (zlen buf - pos))
    by (rewrite length_drop; unfold zlen; lia).
  destruct (Z.lt_ge_cases (pos + n) (zlen buf)).
  - rewrite Z.mod_small by lia. rewrite drop_app_le by lia. rewrite drop_drop.
    by replace (Z.to_nat pos + Z.to_nat n)%nat with (Z.to_nat (pos + n)) by lia.
  - replace ((pos + n) mod zlen buf) with (pos + n - zlen buf)
      by (apply (Z.mod_unique_pos _ _ 1); lia).
    rewrite drop_app_ge by lia. rewrite Hd.
    replace (Z.to_nat n - Z.to_nat (zlen buf - pos))%nat with (Z.to_nat (pos + n - zlen buf)) by lia.
    apply take_app_le. rewrite length_drop. unfold zlen in *. lia.
Qed.

Lemma ring_consume_spec p n :
  ring_alloc p → 0 ≤ n ≤ rb_fill p →
  ∃ p', ring_consume n p = Done (tt, p') ∧ ring_alloc p' ∧ rb_fill p' = rb_fill p - n ∧
    http_state p' = http_state p ∧ content_length p' = content_length p ∧
    http_base p' = http_base p ∧ http_queue p' = http_queue p ∧
    ring_contents p' = drop (Z.to_nat n) (ring_contents p).
Proof.
  intros [(Hz & Hf & Hc & Hcase) Hl] Hn. unfold ring_consume, umod.
  replace (rb_length p =? 0) with false by lia. rewrite bind_Done.
  pose proof (Z.mod_pos_bound (rb_pos p + n) (rb_length p) ltac:(lia)).
  eexists; split; [done |]. split.
  { split; [| done]. split; [done |]. split; [cbn; lia |]. split; [done |]. right. cbn. lia. }
  split_and!; try done. unfold ring_contents. cbn -[take drop]. rewrite <- Hz. apply ring_rotate; lia.
Qed.

(** Copying out of the ring never leaves either buffer, and pops what it
    copies. *)
Lemma ring_to_buffer_spec p b size :
  ring_alloc p → 0 ≤ size ≤ zlen b →
  ∃ n b' p', memcpy_ring_buffer_to_buffer p b size = Done (n, b', p') ∧
    n = Z.min (rb_fill p) size ∧ ring_alloc p' ∧ rb_fill p' = rb_fill p - n ∧
    http_base p' = http_base p ∧ http_queue p' = http_queue p ∧ http_state p' = http_state p ∧
    b' = take (Z.to_nat n) (ring_contents p) ++ drop (Z.to_nat n) b ∧
    ring_contents p' = drop (Z.to_nat n) (ring_contents p).
Proof.
  intros Hp Hs. pose proof Hp as [(Hz & Hf & Hc & Hcase) Hl]. unfold memcpy_ring_buffer_to_buffer.
  set (n := Z.min (rb_fill p) size).
  assert (Hcopy : ring_copy p b size
    = Done (n, take (Z.to_nat n) (ring_contents p) ++ drop (Z.to_nat n) b)).
  { unfold ring_copy, ring_contents. rewrite take_take.
    replace (Z.to_nat n `min` Z.to_nat (rb_fill p))%nat with (Z.to_nat n) by lia.
    destruct (split_at (rb_buf p) (rb_pos p)) as (b0 & b1 & Eb & Hb0); [lia |].
    rewrite Eb in *. rewrite zlen_app in Hz.
    replace (Z.to_nat (rb_pos p)) with (length b0) by (unfold zlen in Hb0; lia). rewrite drop_app_length.
    destruct (Z.ltb_spec (rb_length p) (rb_pos p + rb_fill p)).
    - cbv zeta. set (len := Z.min (rb_length p - rb_pos p) size).
      destruct (split_at b1 len) as (b2 & b3 & -> & Hb2); [lia |]. rewrite zlen_app in Hz.
      rewrite (slice_app b0 b2 b3 (rb_pos p) len), bind_Done by lia.
      destruct (split_at b len) as (c1 & c2 & -> & Hc1); [lia |]. rewrite zlen_app in Hs.
      rewrite (store_front c1 b2 c2), bind_Done by lia.
      set (len2 := Z.min (rb_fill p - len) (size - len)).
      destruct (split_at (b0 ++ b2 ++ b3) len2) as (e1 & e2 & Ee & He1); [rewrite !zlen_app; lia |].
      rewrite Ee, (slice_front e1 e2), bind_Done by done.
      destruct (split_at c2 len2) as (c3 & c4 & -> & Hc3); [lia |].
      rewrite (store_app b2 c3 c4 e1), bind_Done by lia.
      replace (len + len2) with n by lia. f_equal. f_equal.
      rewrite <- Ee. replace (Z.to_nat n) with (length (b2 ++ e1)) by (rewrite length_app; unfold zlen in *; lia).
      rewrite (app_assoc c1 c3), (drop_app_length' (c1 ++ c3)) by (rewrite !length_app; unfold zlen in *; lia).
      rewrite app_assoc. f_equal.
      destruct (decide (len2 = 0)) as [E0 | E0].
      + rewrite (zlen_0_inv e1) by lia. rewrite app_nil_r, <- app_assoc. symmetry. apply take_app_length.
      + assert (b3 = []) as -> by (apply zlen_0_inv; lia). rewrite app_nil_r in *. rewrite Ee, app_assoc.
        symmetry. apply take_app_length.
    - cbv zeta. fold n. destruct (split_at b1 n) as (b2 & b3 & -> & Hb2); [lia |].
      rewrite (slice_app b0 b2 b3 (rb_pos p) n), bind_Done by lia.
      destruct (split_at b n) as (c1 & c2 & -> & Hc1); [lia |].
      rewrite (store_front c1 b2 c2), bind_Done by lia.
      replace (Z.to_nat n) with (length b2) by (unfold zlen in *; lia).
      rewrite <- (app_assoc b2), take_app_length. rewrite drop_app_length' by (unfold zlen in *; lia). done. }
  rewrite Hcopy, bind_Done.
  destruct (ring_consume_spec p n Hp) as (p' & E & Hp' & Hf' & H1 & H2 & H3 & H4 & H5); [lia |].
  unfold ring_consume in E. apply bind_inv in E as (q & Eq & [= E]). rewrite Eq, bind_Done.
  eexists n, _, p'. split; [by rewrite E |]. split_and!; try done.
Qed.

(** In order, over the base socket [s]. *)
Definition http_ok p (s : B) : Prop :=
  ring_alloc p ∧ http_base p = Some s ∧ usable s ∧ queue_ok (http_queue p).

Definition messages_ok (ms : list NiceInputMessage) : Prop :=
  Forall (λ im, Forall vector_ok (im_buffers im)) ms.

(** Octets leave the ring at the front only. *)
Definition popped p p' : Prop := ∃ cut, ring_contents p = cut ++ ring_contents p'.
#[export] Instance popped_preorder : PreOrder popped.
Proof.
  split; [by exists [] |]. intros p1 p2 p3 [c E] [c' E']. exists (c ++ c').
  by rewrite E, E', app_assoc.
Qed.

(** The parts the copying and the parser leave alone. *)
Definition same_stack p p' : Prop :=
  http_base p' = http_base p ∧ http_queue p' = http_queue p ∧ http_state p' = http_state p.

Lemma ring_to_vectors_total vs : ∀ p, ring_alloc p → Forall vector_ok vs →
  ∃ r p', ring_to_vectors p vs = Done (r, p') ∧ ring_alloc p' ∧ same_stack p p' ∧ popped p p'.
Proof.
  induction vs as [| v vs IH]; intros p Hp Hv; cbn [ring_to_vectors]; [by eexists _, p |].
  apply Forall_cons in Hv as [Hv Hvs]. destruct (rb_fill p <=? 0); [by eexists _, p |].
  destruct (ring_to_buffer_spec p (iv_buffer v) (iv_size v) Hp Hv)
    as (n & b' & p1 & -> & _ & Hp1 & _ & H1 & H2 & H3 & _ & Hc). rewrite bind_Done.
  destruct (IH p1 Hp1 Hvs) as (r & p' & -> & Hp' & (H4 & H5 & H6) & Hpop). rewrite bind_Done.
  eexists _, p'. split; [done |]. split; [done |]. split; [split_and!; congruence |].
  transitivity p1; [| done]. exists (take (Z.to_nat n) (ring_contents p)).
  by rewrite Hc, take_drop.
Qed.

Lemma ring_to_messages_total ms : ∀ p, ring_alloc p → messages_ok ms →
  ∃ i r p', memcpy_ring_buffer_to_input_messages p ms = Done (i, r, p') ∧ ring_alloc p' ∧
    same_stack p p' ∧ popped p p'.
Proof.
  induction ms as [| im ms IH]; intros p Hp Hv; cbn [memcpy_ring_buffer_to_input_messages];
    [by eexists _, _, p |].
  apply Forall_cons in Hv as [Hv Hms]. destruct (rb_fill p <=? 0); [by eexists _, _, p |].
  destruct (ring_to_vectors_total (im_buffers im) p Hp Hv) as (vs & p1 & -> & Hp1 & (H1 & H2 & H3) & Hc).
  rewrite bind_Done. destruct (IH p1 Hp1 Hms) as (i & r & p' & -> & Hp' & (H4 & H5 & H6) & Hc').
  rewrite bind_Done. eexists _, _, p'. split; [done |]. split; [done |].
  split; [split_and!; congruence |]. by transitivity p1.
Qed.

(** The result of parsing: the socket has failed and has no base, or it is in
    order; the queue goes out when the connection is made, and only then. *)
Definition http_result p (s : B) p' : Prop :=
  ring_ok p' ∧ popped p p' ∧
  (http_base p' = None ∧ http_state p' = HTTP_STATE_ERROR ∨
   ∃ s', http_ok p' s' ∧ unread s' = unread s ∧
     (http_state p' = HTTP_STATE_CONNECTED ∧ http_queue p' = [] ∧
        written s' = written s ++ queued (http_queue p) ∨
      http_state p' ≠ HTTP_STATE_CONNECTED ∧ http_queue p' = http_queue p ∧ written s' = written s)).

Lemma http_error_spec p s p0 :
  ring_ok p → popped p0 p → ∃ p', http_error p = Done (-1, p') ∧ http_result p0 s p'.
Proof. intros Hp Hc. eexists; split; [done |]. split; [apply Hp | split; [done | by left]]. Qed.

Lemma http_result_pending p s :
  http_ok p s → http_state p ≠ HTTP_STATE_CONNECTED → http_result p s p.
Proof.
  intros Hp Hst. split; [apply Hp |]. split; [done |]. right. exists s. split; [done |].
  split; [done |]. by right.
Qed.

Lemma http_result_after p s p1 p' :
  popped p p1 → http_queue p1 = http_queue p → http_result p1 s p' → http_result p s p'.
Proof.
  intros Hc Hq (Hr & Hc' & H'). split; [done |]. split; [by transitivity p1 |].
  by rewrite <- Hq.
Qed.

(** How many turns each state still takes at most. *)
Definition rank (x : HttpState) : Z :=
  match x with
  | HTTP_STATE_INIT => 4 | HTTP_STATE_HEADERS => 3 | HTTP_STATE_BODY => 2
  | HTTP_STATE_CONNECTED => 1 | HTTP_STATE_ERROR => 1
  end.

Lemma http_ok_consumed p p' s :
  http_ok p s → ring_alloc p' → http_base p' = http_base p → http_queue p' = http_queue p →
  http_ok p' s.
Proof. intros (_ & Hb & Hs & Hq) Hp' E1 E2. split; [done |]. by rewrite E1, E2. Qed.

Lemma ring_alloc_length p n : ring_alloc p → 0 ≤ n → ring_alloc (p <| content_length := n |>).
Proof. intros [(? & ? & _ & ?) ?] Hn. split; [| done]. split_and!; try done; cbn; lia. Qed.

Lemma http_ok_length p s n : http_ok p s → 0 ≤ n → http_ok (p <| content_length := n |>) s.
Proof. intros (Hp & Hb & Hq) Hn. split; [by apply ring_alloc_length |]. by split. Qed.

Lemma popped_drop p p' n : ring_contents p' = drop n (ring_contents p) → popped p p'.
Proof. intros E. exists (take n (ring_contents p)). by rewrite E, take_drop. Qed.

(** The parser ends, with an answer, in the ring. *)
Lemma http_retry_total fuel : ∀ p s messages,
  http_ok p s → messages_ok messages → rank (http_state p) + rb_fill p ≤ Z.of_nat fuel →
  ∃ ret ms p', http_retry fuel messages p = Done ((ret, ms), p') ∧ http_result p s p'.
Proof.
  induction fuel as [| fuel IH]; intros p s messages Hok Hm Hf; cbn [http_retry].
  { destruct Hok as ([(_ & Hfill & _) _] & _). destruct (http_state p); cbn in Hf; lia. }
  pose proof Hok as (Hp & Hb & Hs & Hq). pose proof Hp as [(_ & Hfill & Hcl & _) _].
  assert (Herr : ∃ ret ms p', (ret ← http_error; mret (ret, messages)) p = Done ((ret, ms), p')
      ∧ http_result p s p').
  { destruct (http_error_spec p s p) as (p' & E & Hr); [apply Hp | done |].
    eexists _, _, p'. by rewrite (bind_run _ _ _ _ _ E). }
  assert (Hgo : ∀ p1 x, http_ok p1 s → popped p p1 → http_queue p1 = http_queue p →
      http_state p1 = x → rank x + rb_fill p1 ≤ Z.of_nat fuel →
      ∃ ret ms p', http_retry fuel messages p1 = Done ((ret, ms), p') ∧ http_result p s p').
  { intros p1 x H1 Hc Hq1 Hx Hr. destruct (IH p1 s messages H1 Hm) as (ret & ms & p' & E & Hres);
      [by rewrite Hx |]. eexists _, _, p'. split; [exact E |]. by apply (http_result_after p s p1). }
  destruct (http_state p) eqn:Hst; cbn [rank] in Hf.
  - destruct (parse_status_total p Hp) as (r & -> & Hr). rewrite bind_Done.
    destruct r as [| | pos]; [| done |].
    { eexists _, _, p. split; [done |]. apply http_result_pending; congruence. }
    cbn [parsed_ok] in Hr.
    destruct (ring_consume_spec p pos Hp) as (p1 & E & Hp1 & Hf1 & Hst1 & Hcl1 & Hb1 & Hq1 & Hc1); [lia |].
    rewrite (bind_run _ _ _ _ _ E), !bind_put.
    apply (Hgo _ HTTP_STATE_HEADERS); [| by apply (popped_drop p _ (Z.to_nat pos)) | done | done | cbn; lia].
    apply (http_ok_consumed p); try done. by apply (ring_alloc_length p1 0).
  - destruct (parse_header_line_total p Hp) as (r & n & -> & Hn & Hr). rewrite bind_Done, bind_put.
    pose proof (http_ok_length p s n Hok Hn) as Hok0. set (p0 := p <| content_length := n |>) in *.
    assert (Hst0 : http_state p0 = HTTP_STATE_HEADERS) by done.
    destruct r as [| | pos].
    + eexists _, _, p0; split; [done |]. apply (http_result_after p s p0); [by exists [] | done |].
      apply http_result_pending; [done | by rewrite Hst0].
    + destruct (http_error_spec p0 s p) as (p' & E & Hr'); [apply Hok0 | by exists [] |].
      eexists _, _, p'. by rewrite (bind_run _ _ _ _ _ E).
    + cbn [parsed_ok] in Hr.
      destruct (ring_consume_spec p0 pos) as (p1 & E & Hp1 & Hf1 & Hst1 & Hcl1 & Hb1 & Hq1 & Hc1);
        [apply Hok0 | cbn; lia |].
      rewrite (bind_run _ _ _ _ _ E). change (rb_fill p0) with (rb_fill p) in Hf1.
      assert (Hok1 : http_ok p1 s) by (by apply (http_ok_consumed p0)).
      assert (Hpop : popped p p1) by (by apply (popped_drop p _ (Z.to_nat pos))).
      destruct (pos =? 2).
      * rewrite bind_when_true, bind_put.
        apply (Hgo _ HTTP_STATE_BODY); [done | done | done | done | cbn; lia].
      * rewrite bind_when_false. apply (Hgo _ HTTP_STATE_HEADERS); try done; [congruence |]. cbn. lia.
  - destruct (Z.eqb_spec (content_length p) 0).
    + rewrite bind_put.
      apply (Hgo _ HTTP_STATE_CONNECTED); [done | by exists [] | done | done | cbn; lia].
    + destruct (Z.eqb_spec (rb_fill p) 0).
      { eexists _, _, p. split; [done |]. apply http_result_pending; congruence. }
      cbv zeta.
      destruct (ring_consume_spec p (Z.min (content_length p) (rb_fill p)) Hp)
        as (p1 & E & Hp1 & Hf1 & Hst1 & Hcl1 & Hb1 & Hq1 & Hc1); [lia |].
      rewrite (bind_run _ _ _ _ _ E), bind_upd.
      apply (Hgo _ HTTP_STATE_BODY); [| by eapply popped_drop | done | cbn; congruence | cbn; lia].
      apply http_ok_length; [by apply (http_ok_consumed p) | lia].
  - destruct (ring_to_messages_total messages p Hp Hm) as (i & r & p1 & -> & Hp1 & (Hb1 & Hq1 & Hst1) & Hc1).
    rewrite bind_Done.
    destruct (flush_queue_spec (http_queue p1) s Hs) as (s2 & Ef & Hs2 & Hu2 & Hw2); [by rewrite Hq1 |].
    assert (Hon : on http_base (nice_socket_flush_send_queue (http_queue p1)) p1
      = Done (tt, p1 <| http_base := Some s2 |>)) by (unfold on; by rewrite Hb1, Hb, Ef).
    rewrite (bind_run _ _ _ _ _ Hon), bind_put. eexists _, _, _; split; [done |].
    split; [apply Hp1 |]. split; [done |]. right. exists s2.
    split; [by split_and!; [apply Hp1.. | | |  constructor] |]. split; [done |]. left.
    split; [cbn; congruence |]. split; [done |]. by rewrite Hw2, Hq1.
  - done.
Qed.

(** ** Putting octets in *)

Definition whole (b : bytes) : GInputVector := {| iv_buffer := b; iv_size := zlen b |}.

(** Filling two vectors: the first before the second. *)
Lemma fill_two (b1 b2 chunk : bytes) vs n :
  fill_vectors [whole b1; whole b2] chunk = Done (vs, n) → zlen chunk = n →
  ∃ c1 c2 d1 d2, chunk = c1 ++ c2 ∧
    vs = [{| iv_buffer := c1 ++ d1; iv_size := zlen b1 |}; {| iv_buffer := c2 ++ d2; iv_size := zlen b2 |}] ∧
    zlen (c1 ++ d1) = zlen b1 ∧ zlen (c2 ++ d2) = zlen b2 ∧ (c2 = [] ∨ d1 = []).
Proof.
  intros Hf Hn. cbn [fill_vectors whole iv_size iv_buffer] in Hf.
  destruct (Z.eqb_spec (zlen chunk) 0) as [E | E].
  { injection Hf as <- <-. rewrite (zlen_0_inv _ E). exists [], [], b1, b2. split_and!; try done. by left. }
  pose proof (zlen_nonneg chunk). pose proof (zlen_nonneg b1). pose proof (zlen_nonneg b2).
  destruct (split_at chunk (Z.min (zlen b1) (zlen chunk))) as (c1 & c2 & -> & Hc1); [lia |].
  rewrite <- Hc1 in Hf. replace (Z.to_nat (zlen c1)) with (length c1) in Hf by (unfold zlen; lia).
  rewrite take_app_length, drop_app_length in Hf.
  destruct (split_at b1 (zlen c1)) as (e1 & d1 & -> & He1); [lia |].
  rewrite (store_front e1 c1 d1), bind_Done in Hf by done. rewrite zlen_app in Hn.
  destruct (Z.eqb_spec (zlen c2) 0) as [E2 | E2].
  { injection Hf as <- <-. rewrite (zlen_0_inv _ E2). exists c1, [], d1, b2.
    split_and!; try done; [rewrite !zlen_app; lia | by left]. }
  apply bind_inv in Hf as ([r m] & Hr & [= <- <-]). apply bind_inv in Hr as (q & Hq & [= <- <-]).
  assert (Hd1 : d1 = []) by (apply zlen_0_inv; rewrite zlen_app in Hc1; slia). subst d1.
  assert (Hmin : Z.min (zlen b2) (zlen c2) = zlen c2) by lia. rewrite Hmin in Hq.
  rewrite take_ge in Hq by (unfold zlen; lia).
  destruct (split_at b2 (zlen c2)) as (e2 & d2 & -> & He2); [slia |].
  rewrite (store_front e2 c2 d2) in Hq by done. injection Hq as <-.
  exists c1, c2, [], d2. split_and!; try done; [rewrite !zlen_app in *; lia.. | by right].
Qed.

(** The ring and its free part. *)
Definition ring_room p : Prop := ring_alloc p ∧ rb_fill p < rb_length p.

Lemma ring_receive p vs :
  ring_room p → ring_vectors p = Done vs →
  ∃ d d', vs = [whole d; whole d'] ∧ zlen d + zlen d' = rb_length p - rb_fill p ∧
    (∀ e e', zlen e = zlen d → zlen e' = zlen d' → ∃ buf, ring_write_back p e e' = Done buf ∧
       zlen buf = rb_length p ∧
       ∀ c1 c2 r r', e = c1 ++ r → e' = c2 ++ r' → (c2 = [] ∨ r = []) →
         take (Z.to_nat (rb_fill p + zlen (c1 ++ c2))) (drop (Z.to_nat (rb_pos p)) buf ++ buf)
         = ring_contents p ++ c1 ++ c2).
Proof.
  intros [[(Hz & Hf & _ & Hcase) Hl] Hroom] Hv. unfold ring_vectors, ring_write_back, ring_contents in *.
  destruct (Z.ltb_spec (rb_length p) (rb_pos p + rb_fill p)) as [Hwr | Hnw].
  - assert (Hmod : umod (rb_pos p + rb_fill p) (rb_length p) = Done (rb_pos p + rb_fill p - rb_length p)).
    { unfold umod. replace (rb_length p =? 0) with false by lia.
      unfold mret, outcome_ret. f_equal. symmetry. apply (Z.mod_unique_pos _ _ 1); lia. }
    rewrite Hmod, bind_Done in *.
    destruct (split_at (rb_buf p) (rb_pos p + rb_fill p - rb_length p)) as (W & FT & Eb & HW); [lia |].
    destruct (split_at FT (rb_length p - rb_fill p)) as (F & T & -> & HF); [rewrite Eb in Hz; slia |].
    rewrite Eb in *. rewrite !zlen_app in Hz.
    rewrite (slice_app W F T) in Hv by lia. injection Hv as <-.
    exists F, []. split; [by rewrite <- HF |]. split; [change (zlen (@nil Z)) with 0; lia |].
    intros e e' He He'. rewrite ?bind_Done, (store_app W F T e) by lia. eexists. split; [done |].
    split; [rewrite !zlen_app; lia |]. intros c1 c2 r r' -> -> _.
    assert (c2 = []) as -> by (apply zlen_0_inv; rewrite zlen_app in He'; slia). rewrite app_nil_r.
    replace (Z.to_nat (rb_pos p)) with (length (W ++ F)) by (rewrite length_app; unfold zlen in *; lia).
    rewrite (app_assoc W F T), drop_app_length, <- (app_assoc W F T).
    rewrite !(app_assoc T W), (take_app_length' (T ++ W)) by (rewrite length_app; unfold zlen in *; lia).
    rewrite (app_assoc W (c1 ++ r) T), drop_app_length' by (rewrite !length_app; unfold zlen in *;
      rewrite ?length_app in *; lia).
    rewrite <- !app_assoc, !(app_assoc T W), (app_assoc (T ++ W) c1). apply take_app_length'.
    rewrite !length_app. unfold zlen in *. lia.
  - destruct (split_at (rb_buf p) (rb_pos p)) as (A & CR' & Eb & HA); [lia |].
    destruct (split_at CR' (rb_fill p)) as (C & R & -> & HC); [rewrite Eb in Hz; slia |].
    rewrite Eb in *. rewrite !zlen_app in Hz. cbv zeta in Hv.
    rewrite (app_assoc A C R), <- (app_nil_r R) in Hv.
    assert (HAC : rb_pos p + rb_fill p = zlen (A ++ C)) by slia.
    rewrite (slice_app (A ++ C) R [] _ _ HAC) in Hv by lia. rewrite bind_Done, app_nil_r, <- (app_assoc A C R), (slice_front A (C ++ R)), bind_Done in Hv by done.
    injection Hv as <-. exists R, A. split; [unfold whole; do 3 f_equal; [| f_equal; f_equal]; lia |].
    split; [lia |]. intros e e' He He'.
    rewrite (app_assoc A C R), <- (app_nil_r R).
    rewrite (store_app (A ++ C) R [] e _ HAC), bind_Done by lia.
    rewrite <- (app_assoc A C), (store_front A e' (C ++ e ++ [])) by done. rewrite !app_nil_r.
    eexists. split; [done |]. split; [rewrite !zlen_app; lia |]. intros c1 c2 r r' -> -> Hc.
    replace (Z.to_nat (rb_pos p)) with (length A) by (unfold zlen in *; lia).
    rewrite <- (app_assoc A C R), drop_app_length, <- (app_assoc C R).
    rewrite (take_app_length' C) by (unfold zlen in *; lia).
    rewrite drop_app_length' by (unfold zlen in *; lia).
    destruct Hc as [-> | ->]; rewrite ?app_nil_r, <- ?app_assoc.
    + rewrite (app_assoc C c1). apply take_app_length'. rewrite !length_app. unfold zlen in *. lia.
    + rewrite (app_assoc c1 c2), (app_assoc C (c1 ++ c2)). apply take_app_length'.
      rewrite !length_app. unfold zlen in *. rewrite ?length_app in *. lia.
Qed.

(** A full ring that has wrapped is not copied right when it grows. *)
Definition flat p : Prop := rb_fill p = rb_length p → rb_pos p = 0.

Lemma http_grow_spec p :
  ring_ok p → rb_length p < 2 ^ 62 →
  ∃ p', http_grow p = Done (tt, p') ∧ ring_room p' ∧ same_stack p p' ∧
    (flat p → ring_contents p' = ring_contents p).
Proof.
  intros (Hz & Hf & Hc & Hcase) Hl. unfold http_grow.
  destruct (Z.eqb_spec (rb_fill p) (rb_length p)) as [E | E].
  - rewrite u64_small by (unfold is_u64; lia). set (n := Z.max (rb_length p * 2) 1024).
    pose proof (g_malloc_length (n - rb_length p) ltac:(lia)) as Hg.
    eexists. split; [done |]. split; [| split; [done |]].
    + split; [| cbn; lia]. split; [| cbn; lia]. split; [cbn; rewrite zlen_app; lia |].
      split; [cbn; lia |]. split; [done |]. right. cbn. lia.
    + intros Hpos. specialize (Hpos E). unfold ring_contents. cbn -[take drop].
      rewrite Hpos. change (Z.to_nat 0) with 0%nat. rewrite !drop_0, <- app_assoc.
      rewrite !take_app_le; [done | unfold zlen in *; lia..].
  - exists p. split; [done |]. split; [| done]. split; [| lia]. split; [by split | lia].
Qed.

Lemma ring_valid p : ring_alloc p → assert_ring_buffer_valid p = Done tt.
Proof.
  intros [(Hz & Hf & _ & Hc) Hl]. unfold assert_ring_buffer_valid.
  replace (rb_fill p <=? rb_length p) with true by lia.
  replace ((rb_pos p =? 0) || (rb_pos p <? rb_length p)) with true by lia.
  cbn [assert_]. rewrite !bind_Done.
  rewrite bool_decide_false; [by rewrite orb_true_r |]. intros E. rewrite E in Hz.
  change (zlen []) with 0 in Hz. lia.
Qed.
Lemma ring_vectors_total p : ring_alloc p → ∃ vs, ring_vectors p = Done vs.
Proof.
  intros [(Hz & Hf & _ & Hc) Hl]. unfold ring_vectors.
  destruct (Z.ltb_spec (rb_length p) (rb_pos p + rb_fill p)).
  - unfold umod. replace (rb_length p =? 0) with false by lia. rewrite bind_Done.
    pose proof (Z.mod_unique_pos (rb_pos p + rb_fill p) (rb_length p) 1
                  (rb_pos p + rb_fill p - rb_length p) ltac:(lia) ltac:(lia)) as <-.
    edestruct (slice_in (rb_buf p)) as (r & -> & _); [..| rewrite bind_Done; by eexists]; lia.
  - cbv zeta. edestruct (slice_in (rb_buf p) (rb_pos p + rb_fill p)) as (r & -> & _);
      [..| rewrite bind_Done]; [lia.. |].
    edestruct (slice_in (rb_buf p) 0) as (r' & -> & _); [..| rewrite bind_Done; by eexists]; lia.
Qed.

(** What a receive leaves of the ring: its octets are followed by what came
    in. *)
Lemma http_fill_spec p s :
  ring_ok p → rb_length p < 2 ^ 62 → http_base p = Some s → usable s → queue_ok (http_queue p) →
  ∃ ret p' chunk, http_fill p = Done (ret, p') ∧ http_state p' = http_state p ∧
    ring_alloc p' ∧ (flat p → ring_contents p' = ring_contents p ++ chunk) ∧
    http_queue p' = http_queue p ∧
    (ret < 0 ∧ chunk = [] ∨ ∃ s', http_ok p' s' ∧ written s' = written s ∧ unread s = chunk ++ unread s').
Proof.
  intros Hp Hlen Hb Hs Hq. unfold http_fill.
  destruct (http_grow_spec p Hp Hlen) as (p1 & E1 & Hroom & (Hb1 & Hq1 & Hst1) & Hc1).
  rewrite (bind_run _ _ _ _ _ E1). pose proof Hroom as [Hal Hlt].
  rewrite (bind_run (reads _) _ p1 tt p1) by (unfold reads; by rewrite ring_valid).
  destruct (ring_vectors_total p1 Hal) as [vs Hvs].
  rewrite (bind_run (reads _) _ p1 vs p1) by (unfold reads; by rewrite Hvs).
  destruct (ring_receive p1 vs Hroom Hvs) as (d & d' & -> & Hd & Hback).
  pose proof (zlen_nonneg d). pose proof (zlen_nonneg d').
  destruct (recv_law s [whole d; whole d'] None Hs)
    as (ret & vs' & from & n & s' & Er & Hsh & Hcase); [repeat constructor; cbn; lia |].
  assert (Hon : on http_base (nice_socket_recv_messages
      [{| im_buffers := [whole d; whole d']; im_from := None; im_length := 0 |}]) p1
    = Done ((ret, [{| im_buffers := vs'; im_from := from; im_length := n |}]), p1 <| http_base := Some s' |>)).
  { unfold on, nice_socket_recv_messages. by rewrite Hb1, Hb; cbn; rewrite Er. }
  rewrite (bind_run _ _ _ _ _ Hon). clear Hon.
  inversion Hsh as [| ? v1 ? l1 [_ Hv1] Hsh1]; subst. inversion Hsh1 as [| ? v2 ? l2 [_ Hv2] Hsh2]; subst.
  inversion Hsh2; subst. destruct v1 as [e size1], v2 as [e' size2]. cbn [whole iv_buffer iv_size] in *.
  destruct (Hback e e' Hv1 Hv2) as (buf & Ew & Hbuf & Hcont). set (p2 := p1 <| http_base := Some s' |>).
  rewrite (bind_run (reads _) _ p2 buf p2)
    by (unfold reads; change (ring_write_back p2 e e') with (ring_write_back p1 e e'); by rewrite Ew).
  rewrite bind_put.
  pose proof Hal as [(_ & Hf1 & Hcl1 & Hcas1) Hl1].
  assert (Hdone : ∀ k chunk, 0 ≤ k → rb_fill p1 + k ≤ rb_length p1 →
    take (Z.to_nat (rb_fill p1 + k)) (drop (Z.to_nat (rb_pos p1)) buf ++ buf) = ring_contents p1 ++ chunk →
    let p3 := p2 <| rb_buf := buf |> <| rb_fill := rb_fill p1 + k |> in
    ring_alloc p3 ∧ (flat p → ring_contents p3 = ring_contents p ++ chunk)).
  { intros k c Hk Hkl Hc. split; [| intros Hfl; by rewrite <- Hc1].
    split; [| done]. split; [done |]. split; [cbn; lia |]. by split. }
  pose proof (Hcont [] [] e e' eq_refl eq_refl (or_introl eq_refl)) as Hnone.
  rewrite app_nil_r in Hnone. change (zlen ([] ++ [])) with 0 in Hnone.
  specialize (Hdone 0 []) as Hdone0. rewrite ?app_nil_r, Z.add_0_r in *.
  destruct (Hdone0 ltac:(lia) ltac:(lia) Hnone) as [Hal3 Hfl3].
  change (p2 <| rb_buf := buf |> <| rb_fill := rb_fill p1 |>) with (p2 <| rb_buf := buf |>) in *.
  destruct Hcase as [Hneg | (Hs' & Hw & [(-> & -> & Hu & _) | (-> & Hn & chunk & Hu & Hl & Hfv)])].
  - replace (0 <? ret) with false by lia. rewrite bind_when_false. eexists ret, _, [].
    split; [done |]. rewrite app_nil_r. split; [done |]. split; [done |]. split; [done |]. split; [done |]. by left.
  - rewrite bind_when_false. eexists 0, _, []. split; [done |]. rewrite app_nil_r.
    split; [done |]. split; [done |]. split; [done |]. split; [done |]. right. exists s'.
    split; [| done]. do 3 (split; [done |]). cbn. by rewrite Hq1.
  - destruct (fill_two d d' chunk _ n Hfv Hl) as (c1 & c2 & r1 & r2 & -> & [= -> -> -> ->] & Hd1 & Hd2 & Hc).
    pose proof (Hcont c1 c2 r1 r2 eq_refl eq_refl Hc) as Hsome. rewrite Hl in Hsome.
    assert (Hfit : rb_fill p1 + n ≤ rb_length p1) by (revert Hd1 Hd2 Hl Hd; slia).
    destruct (Hdone n (c1 ++ c2) ltac:(lia) Hfit Hsome) as [Hal4 Hfl4].
    rewrite bind_when_true, bind_bind, bind_upd.
    change (rb_fill (p2 <| rb_buf := buf |>)) with (rb_fill p1).
    set (p3 := _ <| rb_fill := _ |>) in *.
    rewrite (bind_run (reads _) _ p3 tt p3) by (unfold reads; by rewrite ring_valid).
    eexists 1, p3, (c1 ++ c2). split; [done |]. split; [done |]. split; [done |]. split; [done |].
    split; [done |]. right. exists s'. split; [| done]. do 3 (split; [done |]). by change (queue_ok (http_queue p1)); rewrite Hq1.
Qed.

(** ** A receive *)

(** A socket that has not answered yet.  Below 2^30 octets the positions, 32 bits
    wide in the code, do not wrap. *)
Record http_waiting p (s : B) : Prop := {
  hw_state : http_state p ≠ HTTP_STATE_CONNECTED;
  hw_ring : ring_ok p;
  hw_length : rb_length p < 2 ^ 30;
  hw_base : http_base p = Some s;
  hw_usable : usable s;
  hw_queue : queue_ok (http_queue p)
}.

(** The end of a receive that took [chunk] from below: the base failed, the
    answer was refused and the base freed, or all is in order.  The queue goes
    out when the connection is made, and only then. *)
Definition http_outcome p (s : B) (ret : Z) (chunk : bytes) p' : Prop :=
  ret < 0 ∧ chunk = [] ∧ http_state p' = http_state p ∨
  http_base p' = None ∧ http_state p' = HTTP_STATE_ERROR ∨
  ∃ s', http_ok p' s' ∧ unread s = chunk ++ unread s' ∧
    (http_state p' = HTTP_STATE_CONNECTED ∧ http_queue p' = [] ∧
       written s' = written s ++ queued (http_queue p) ∨
     http_state p' ≠ HTTP_STATE_CONNECTED ∧ http_queue p' = http_queue p ∧ written s' = written s).

(** C23: whatever a proxy answers, in whatever pieces, a receive of the HTTP
    client before the connection is made ends without leaving a buffer.  The ring
    stays valid and is a queue: its octets followed by what the base gave are what
    was taken off the front (parsed, or handed up) followed by what it holds now,
    unless it was full and wrapped.  The messages queued meanwhile go out, in
    order, in the call that makes the connection and in no other. *)
Theorem http_recv_safe p s messages (Hp : http_waiting p s) (Hm : messages_ok messages) :
  ∃ ret ms p' chunk, http_recv_messages messages p = Done ((ret, ms), p') ∧ ring_ok p' ∧
    (flat p → ∃ cut, ring_contents p ++ chunk = cut ++ ring_contents p') ∧
    http_outcome p s ret chunk p'.
Proof.
  destruct Hp as [Hst Hr Hl Hb Hs Hq].
  destruct (http_fill_spec p s Hr ltac:(lia) Hb Hs Hq) as (ret & p1 & chunk & E & Hst1 & Hal & Hc & Hq1 & Hcase).
  unfold http_recv_messages. rewrite bind_get, bool_decide_false by done.
  unfold http_recv_slow. rewrite (bind_run _ _ _ _ _ E).
  assert (Hstay : flat p → ∃ cut, ring_contents p ++ chunk = cut ++ ring_contents p1)
    by (intros Hf; exists []; by rewrite Hc).
  destruct (Z.leb_spec ret 0) as [Hret | Hret].
  - eexists ret, messages, p1, chunk. split; [done |]. split; [apply Hal |]. split; [done |].
    destruct Hcase as [[? ->] | (s' & Hok & Hw & Hu)]; [by left |].
    right. right. exists s'. split; [done |]. split; [done |]. right. by rewrite Hst1.
  - destruct Hcase as [[? _] | (s' & Hok & Hw & Hu)]; [lia |]. rewrite bind_get.
    destruct (http_retry_total (retry_fuel p1) p1 s' messages Hok Hm) as (r & ms & p' & E' & Hr' & Hpop & Hres).
    { destruct Hal as [(_ & ? & _) _]. unfold retry_fuel. destruct (http_state p1); cbn; lia. }
    eexists r, ms, p', chunk. split; [exact E' |]. split; [done |]. split.
    { intros Hf. destruct Hpop as [cut Ec]. exists cut. by rewrite <- Ec, Hc. }
    right. destruct Hres as [? | (s2 & Hok2 & Hu2 & Hfin)]; [by left | right].
    exists s2. split; [done |]. split; [congruence |]. by rewrite <- Hw, <- Hq1.
Qed.
End facts.

(** ** Runs *)

Definition http_peer : NiceAddress := Build_NiceAddress AF_INET 0x5000 0x0100007f (repeat 0 16) 0.
Definition sample_http (inbox : bytes) (rx : list Z) : HttpPriv (TcpPriv script) :=
  Build_HttpPriv HTTP_STATE_INIT
    (Some (sample_tcp {| s_wire := []; s_inbox := inbox; s_tx := replicate 9 1000; s_rx := rx |}))
    http_peer None None [{| tbs_buf := [1; 2; 3]; tbs_length := 3; tbs_to := address_zero |}]
    [] 0 0 0 0.
Definition answer : bytes := octets "HTTP/1.0 200 OK" ++ crlf.
Definition into (n : nat) : NiceInputMessage :=
  {| im_buffers := [{| iv_buffer := replicate n 0; iv_size := Z.of_nat n |}]; im_from := None; im_length := 0 |}.

Lemma http_recv_safe_witness :
  let p := sample_http (answer ++ crlf ++ [7; 8]) [1000] in
  let s := sample_tcp {| s_wire := []; s_inbox := answer ++ crlf ++ [7; 8]; s_tx := replicate 9 1000; s_rx := [1000] |} in
  ∃ ret ms p' chunk, http_recv_messages [into 4] p = Done ((ret, ms), p') ∧ ring_ok p' ∧
    (flat p → ∃ cut, ring_contents p ++ chunk = cut ++ ring_contents p') ∧
    http_outcome p s ret chunk p'.
Proof.
  intros p s. apply http_recv_safe; [| repeat constructor; by_compute].
  split; [done | | by_compute | done | by split; [| constructor] | ].
  - split; [done |]. split; [split; by_compute |]. split; [by_compute | by left].
  - constructor; [split; by_compute | constructor].
Defined.

Fixpoint http_calls (n : nat) (im : NiceInputMessage) (p : HttpPriv (TcpPriv script))
  : outcome (Z * list NiceInputMessage * HttpPriv (TcpPriv script)) :=
  match n with
  | O => Ub
  | S O => http_recv_messages [im] p
  | S n => '(_, p) ← http_recv_messages [im] p; http_calls n im p
  end.

(** An answer in three pieces; the queue goes out at the end, and the octets
    after the headers come up in the caller's buffer. *)
Example http_run :
  ('(ret, ms, p) ← http_calls 3 (into 4) (sample_http (answer ++ octets "A: b" ++ crlf ++ crlf ++ [7; 8]) [9; 10; 1000]);
   Done (ret, ms, http_state p, rb_fill p, (λ s, wire (fileno s)) <$> http_base p))
  = Done (1, [{| im_buffers := [{| iv_buffer := [7; 8; 0; 0]; iv_size := 2 |}]; im_from := None; im_length := 0 |}],
          HTTP_STATE_CONNECTED, 0, Some [1; 2; 3]).
Proof. vm_compute. reflexivity. Qed.

(** ** Answers on which the client loses data

    A header line that fills the ring and wraps: the ring grows as a flat array,
    and the octets after the old end are whatever the new memory holds. *)
Lemma wrapped_growth_corrupts :
  ('(_, _, p) ← http_calls 2 (into 0) (sample_http (answer ++ replicate 1024 65) [1024; 17]);
   '(_, p') ← http_grow p;
   Done (rb_fill p, rb_length p', take 17 (drop 1007 (ring_contents p)), take 17 (drop 1007 (ring_contents p'))))
  = Done (1024, 2048, replicate 17 65, replicate 17 0xa5).
Proof. vm_compute. reflexivity. Qed.

(** What came with the headers and did not fit the caller's buffers stays in the
    ring for good: the next receive gives what the base has after it. *)
Lemma surplus_never_delivered :
  ('(_, ms, p) ← http_calls 1 (into 2) (sample_http (answer ++ crlf ++ [1; 2; 3; 4]) [23; 1000]);
   '(_, ms', p) ← http_calls 1 (into 2)
      (p <| http_base := Some (sample_tcp {| s_wire := []; s_inbox := [5; 6]; s_tx := []; s_rx := [2] |}) |>);
   Done (map im_buffers (ms ++ ms'), ring_contents p))
  = Done ([[{| iv_buffer := [1; 2]; iv_size := 2 |}]; [{| iv_buffer := [5; 6]; iv_size := 2 |}]], [3; 4]).
Proof. vm_compute. reflexivity. Qed.

(** A content length cut after a digit: the octet after the end of the data is
    looked at, and the answer is refused. *)
Lemma split_content_length_rejected :
  let head := answer ++ octets "Content-Length: 1" in
  ('(ret, _, p) ← http_recv_messages [into 4] (sample_http (head ++ octets "0" ++ crlf ++ crlf) [zlen head]);
   Done (ret, http_state p, bool_decide (http_base p = None)))
  = Done (-1, HTTP_STATE_ERROR, true).
Proof. vm_compute. reflexivity. Qed.
