(* ===== verification/StunOctets.v ===== *)
(** * Messages built on octets stay octets

    The buffer of a message under construction keeps holding octets, whatever
    else is in it; and what the validation and the searches hand on. *)

From S2P Require Import Prelude Bytes StunMessage StunFacts StunRoundtrip StunHmac StunAgent StunAgentTrans StunTurn StunEnds.

Definition octets_kept {A} (msg : StunMessage) (r : outcome (StunMessage * A)) : Prop :=
  bytes_ok (msg_buffer msg) → ∀ m a, r = Done (m, a) → bytes_ok (msg_buffer m).

Lemma slice_octets (b : bytes) i n r : slice b i n = Done r → bytes_ok b → bytes_ok r.
Proof. intros (x & y & -> & _)%slice_inv. rewrite !bytes_ok_app. tauto. Qed.

Lemma setw_octets b i v r : stun_setw b i v = Done r → bytes_ok b → bytes_ok r.
Proof.
  unfold stun_setw. intros E Hb. eapply store_bytes_ok; [exact E | done |].
  repeat constructor; apply u8_range.
Qed.

Lemma append_octets msg type n : octets_kept msg (stun_message_append msg type n).
Proof.
  intros Hok m a H. unfold stun_message_append in H. apply bind_inv in H as (len & _ & H).
  destruct (_ <? _); [by injection H as <- _ |].
  apply bind_inv in H as (b1 & E1 & H). apply (setw_octets _ _ _ _ E1) in Hok.
  apply bind_inv in H as ([[b2 a2] l2] & E2 & H). assert (Hb2 : bytes_ok b2).
  { destruct (no_aligned msg); [inv_bind; by eapply setw_octets |]. inv_bind.
    match goal with E : stun_setw _ _ _ = Done _ |- _ => apply setw_octets in E; [| done] end.
    destruct (0 <? _); inv_bind; [| done].
    eapply store_bytes_ok; [eassumption | done |]. apply Forall_replicate. by_compute. }
  inv_bind. cbn. by eapply setw_octets.
Qed.

Lemma append_bytes_octets msg type d : bytes_ok d → octets_kept msg (stun_message_append_bytes msg type d).
Proof.
  intros Hd Hok m a H. unfold stun_message_append_bytes in H. apply bind_inv in H as ([m1 ptr] & E & H).
  apply append_octets in E; [| done]. destruct ptr; inv_bind; [| done]. cbn. by eapply store_bytes_ok.
Qed.

Lemma append_addr_octets msg type a n :
  sockaddr_ok a → octets_kept msg (stun_message_append_addr msg type a n).
Proof.
  intros Ha Hok m r H. unfold stun_message_append_addr in H.
  destruct (_ <? _); [by injection H as <- _ |].
  assert (Hput : ∀ pa fam port alen, bytes_ok pa → is_u8 fam →
    ('(msg, ptr) ← stun_message_append msg type (4 + alen);
      match ptr with
      | None => mret (msg, STUN_MESSAGE_RETURN_NOT_ENOUGH_SPACE)
      | Some ptr =>
          pa ← slice pa 0 alen;
          b ← store (msg_buffer msg) ptr ([0; fam] ++ le 2 port ++ pa);
          mret (msg <| msg_buffer := b |>, STUN_MESSAGE_RETURN_SUCCESS)
      end) = Done (m, r) → bytes_ok (msg_buffer m)).
  { intros pa fam port alen Hpa Hfam E. apply bind_inv in E as ([m1 ptr] & E1 & E).
    apply append_octets in E1; [| done]. destruct ptr; inv_bind; [| done].
    cbn. eapply store_bytes_ok; [eassumption | done |]. rewrite !bytes_ok_app.
    split_and!; [| apply le_ok | by eapply slice_octets].
    apply Forall_cons. split; [by_compute | by apply Forall_singleton]. }
  destruct a as [p x | p f x s |]; [| | done].
  - by eapply Hput; [apply le_ok | | exact H].
  - destruct (_ <? _); [by injection H as <- _ |]. by eapply Hput; [apply Ha | | exact H].
Qed.

(** The address stays one of its family, without a scope if it had none. *)
Lemma xor_address_ok msg a n c val a' :
  bytes_ok (msg_buffer msg) → sockaddr_ok a → stun_xor_address msg a n c = Done (val, a') →
  sockaddr_ok a' ∧ match a, a' with
                   | sockaddr_in _ _, sockaddr_in _ _ => True
                   | sockaddr_in6 _ f _ s, sockaddr_in6 _ f' _ s' => f' = f ∧ s' = s
                   | _, _ => False
                   end.
Proof.
  intros Hok Ha E. unfold stun_xor_address in E. destruct a as [p x | p f x s |]; [| | done].
  - destruct (_ <? _); injection E as _ <-; [done |]. destruct Ha as [Hp Hx]. cbn.
    split_and!; [| | done].
    + by apply (lxor_range 16); [lia | | apply htons_range].
    + by apply (lxor_range 32); [lia | | apply htonl_range].
  - destruct (_ <? _); [by injection E as _ <- |]. apply bind_inv in E as (id & Eid & E). injection E as _ <-.
    destruct Ha as (Hp & Hl & Hx). pose proof (slice_octets _ _ _ _ Eid Hok) as Hid.
    apply slice_inv in Eid as (u & v & _ & _ & Hz). destruct (xor_bytes_spec x id) as (H1 & H2 & _); [lia | done.. |].
    cbn. split_and!; [| lia | done | done | done]. by apply (lxor_range 16); [lia | | apply htons_range].
Qed.

Lemma append_xor_addr_octets msg type a n :
  sockaddr_ok a → octets_kept msg (stun_message_append_xor_addr msg type a n).
Proof.
  intros Ha Hok m r H. unfold stun_message_append_xor_addr in H. apply bind_inv in H as ([] & _ & H).
  apply bind_inv in H as ([val tmp] & E & H). destruct (bool_decide _); [| by injection H as <- _].
  apply xor_address_ok in E as [Ht _]; [| done..]. by eapply append_addr_octets.
Qed.

Lemma init_octets msg c m id : bytes_ok id → octets_kept msg (stun_message_init msg c m id).
Proof.
  intros Hid Hok m' r H. unfold stun_message_init in H. destruct (_ <? _); [by injection H as <- _ |].
  unfold stun_set_type in H. inv_bind. cbn.
  eapply store_bytes_ok; [eassumption | | by eapply slice_octets].
  eapply store_bytes_ok; [eassumption | | repeat constructor; apply u8_range].
  eapply store_bytes_ok; [eassumption | done | by_compute].
Qed.

Lemma init_indication_octets agent msg buffer m id msg' ok :
  bytes_ok buffer → bytes_ok id →
  stun_agent_init_indication agent msg buffer m id = Done (msg', ok) → bytes_ok (msg_buffer msg').
Proof.
  intros Hb Hid H. unfold stun_agent_init_indication in H. apply bind_inv in H as ([m1 r] & E & H).
  apply init_octets in E; [| done..]. destruct r; [| by injection H as <- _].
  apply bind_inv in H as (m2 & E2 & H). injection H as <- _. unfold put_cookie in E2.
  destruct (compat_cookie _); inv_bind; [| done]. cbn. eapply store_bytes_ok; [eassumption | done | apply le_ok].
Qed.

(** ** What is read *)

Lemma find_bytes_octets msg type d : bytes_ok (msg_buffer msg) → find_bytes msg type = Done (Some d) → bytes_ok d.
Proof.
  intros Hok H. unfold find_bytes in H. apply bind_inv in H as ([[p n] |] & _ & H); [inv_bind | discriminate H].
  by eapply slice_octets.
Qed.

(** An address found is one of the two families, without flow label or scope. *)
Lemma find_addr_octets msg type junk n a k :
  bytes_ok (msg_buffer msg) →
  stun_message_find_addr msg type junk n = Done (STUN_MESSAGE_RETURN_SUCCESS, a, k) →
  sockaddr_ok a ∧ addr_norm a = a.
Proof.
  intros Hok H. unfold stun_message_find_addr in H. apply bind_inv in H as ([[p l] |] & _ & H); [| done].
  destruct (_ <? _); [done |]. apply bind_inv in H as (fam & _ & H).
  destruct (fam =? 1); [| destruct (fam =? 2); [| done]].
  - destruct (_ || _); [done |]. inv_bind.
    match goal with E1 : slice _ _ 2 = Done ?b1, E2 : slice _ _ 4 = Done ?b2 |- _ =>
      pose proof (slice_octets _ _ _ _ E1 Hok); pose proof (slice_octets _ _ _ _ E2 Hok);
      apply slice_inv in E1 as (? & ? & _ & _ & Hz1); apply slice_inv in E2 as (? & ? & _ & _ & Hz2);
      pose proof (of_le_range b1) as Hr1; pose proof (of_le_range b2) as Hr2 end.
    rewrite Hz1 in Hr1. rewrite Hz2 in Hr2. split; [| done]. split; [by apply Hr1 | by apply Hr2].
  - destruct (_ || _); [done |]. inv_bind.
    match goal with E1 : slice _ _ 2 = Done ?b1, E2 : slice _ _ 16 = Done ?b2 |- _ =>
      pose proof (slice_octets _ _ _ _ E1 Hok); pose proof (slice_octets _ _ _ _ E2 Hok);
      apply slice_inv in E1 as (? & ? & _ & _ & Hz1); apply slice_inv in E2 as (? & ? & _ & _ & Hz2);
      pose proof (of_le_range b1) as Hr1 end.
    rewrite Hz1 in Hr1. split; [| done]. split; [by apply Hr1 | done].
Qed.

Lemma find_xor_addr_octets msg type junk n a k :
  bytes_ok (msg_buffer msg) →
  stun_message_find_xor_addr msg type junk n = Done (STUN_MESSAGE_RETURN_SUCCESS, a, k) →
  sockaddr_ok a ∧ addr_norm a = a.
Proof.
  intros Hok H. unfold stun_message_find_xor_addr in H. apply bind_inv in H as ([[val b] l] & E & H).
  destruct (bool_decide_reflect (val = STUN_MESSAGE_RETURN_SUCCESS)) as [-> |]; [| by injection H].
  apply find_addr_octets in E as [Hb Hn]; [| done]. apply bind_inv in H as ([v b'] & E & H). injection H as _ <- _.
  apply xor_address_ok in E as [Hb' Hs]; [| done..]. split; [done |].
  destruct b, b'; try done. injection Hn as <- <-. by destruct Hs as [-> ->].
Qed.

Section validate.
Context {crypto : Crypto}.

(** The validation leaves the settings of the agent alone, and hands on the
    buffer it was given. *)
Lemma validate_keeps agent msg buffer st agent' msg' :
  stun_agent_validate agent msg buffer None = Done (st, agent', msg') →
  agent_conf agent' = agent_conf agent ∧ software_attribute agent' = software_attribute agent ∧
  (st = STUN_VALIDATION_SUCCESS → msg_buffer msg' = buffer).
Proof.
  assert (Hacc : ∀ m idx, validate_accept agent m idx = Done (st, agent', msg') →
    agent_conf agent' = agent_conf agent ∧ software_attribute agent' = software_attribute agent ∧ msg' = m).
  { intros m idx H. unfold validate_accept in H. inv_bind. destruct (0 <? zlen _); inv_bind; repeat case_match; done. }
  assert (Hcred : ∀ m saved, validate_credentials agent m None saved = Done (st, agent', msg') →
    agent_conf agent' = agent_conf agent ∧ software_attribute agent' = software_attribute agent ∧
    (st = STUN_VALIDATION_SUCCESS → msg_buffer msg' = msg_buffer m)).
  { intros m saved H. unfold validate_credentials in H.
    apply bind_inv in H as (ig & _ & H). apply bind_inv in H as (mi & _ & H). break_in H; [done |].
    lazymatch type of H with (match ?x with _ => _ end) = _ => destruct x as [key |] end; [| by inv_bind].
    apply bind_inv in H as ([m2 ok] & E & H). assert (Hb : msg_buffer m2 = msg_buffer m).
    { destruct key as [l |]; [| by inv_bind]. destruct (negb ig && (0 <? zlen l)); [by apply check_integrity_buffer in E | by inv_bind]. }
    destruct ok; [| injection H as <- <- <-; done].
    apply Hacc in H as (H1 & H2 & ->). done. }
  intros H. unfold stun_agent_validate in H. inv_bind.
  do 3 (break_in H; [done |]). break_in H; [done |]. break_in H; [done |]. break_in H.
  - break_in H; [| done]. by apply Hcred in H.
  - by apply Hcred in H.
Qed.
End validate.
