(* ===== verification/UdpTurn.v ===== *)
(** * TURN relays (socket/udp-turn.c)

    The client of a TURN server: a socket whose messages to a peer travel as
    send indications or channel data through the server.  The state keeps the
    channels, the one channel request in flight and the peers that wait for
    theirs, the permissions granted and asked for, the data queued until a
    permission is granted, and the timeouts attached to the main context.

    One clock reading stands for all those of one operation; the identifiers of
    requests are drawn from a supply.  [fuel] bounds the nested timer ticks. *)

From S2P Require Import Prelude Bytes StateMonad StunCrc32 StunMessage StunHmac StunAgent StunTimer StunIce StunTurn NiceAddress NiceSocket TurnTcp.

Definition STUN_END_TIMEOUT : Z := 8000.
Definition STUN_MAX_MS_REALM_LEN : Z := 128.
Definition STUN_EXPIRE_TIMEOUT : Z := 60.
Definition STUN_PERMISSION_TIMEOUT : Z := 300 - STUN_EXPIRE_TIMEOUT.
Definition STUN_BINDING_TIMEOUT : Z := 600 - STUN_EXPIRE_TIMEOUT.
Definition STUN_MAX_MESSAGE_SIZE : Z := 65552.
Definition STUN_TIMER_DEFAULT_RELIABLE_TIMEOUT : Z := 7900.

Definition STUN_OLD_SET_ACTIVE_DST : Z := 0x006.
Definition STUN_IND_SEND : Z := 0x006.
Definition STUN_IND_DATA : Z := 0x007.
Definition STUN_CHANNELBIND : Z := 0x009.
Definition STUN_ATTRIBUTE_CHANNEL_NUMBER : Z := 0x000C.
Definition STUN_ATTRIBUTE_DESTINATION_ADDRESS : Z := 0x0011.
Definition STUN_ATTRIBUTE_REMOTE_ADDRESS : Z := 0x0012.
Definition STUN_ATTRIBUTE_PEER_ADDRESS : Z := 0x0012.
Definition STUN_ATTRIBUTE_DATA : Z := 0x0013.
Definition STUN_ATTRIBUTE_OPTIONS : Z := 0x8001.
Definition STUN_ATTRIBUTE_MS_SEQUENCE_NUMBER : Z := 0x8050.

Definition STUN_ALL_KNOWN_ATTRIBUTES : list Z :=
  [0x0001; 0x0002; 0x0003; 0x0004; 0x0005; 0x0006; 0x0007; 0x0008; 0x0009; 0x000A; 0x000B; 0x000C;
   0x000D; 0x000F; 0x0010; 0x0011; 0x0012; 0x0012; 0x0012; 0x0013; 0x0014; 0x0015; 0x0016; 0x0016;
   0x0016; 0x0017; 0x0018; 0x0018; 0x0018; 0x0019; 0x001A; 0x0020; 0x0021; 0x0022; 0x0022; 0x0023;
   0x0024; 0x0025; 0].

Inductive NiceSocketType :=
| NICE_SOCKET_TYPE_UDP_BSD
| NICE_SOCKET_TYPE_TCP_BSD
| NICE_SOCKET_TYPE_PSEUDOSSL
| NICE_SOCKET_TYPE_HTTP
| NICE_SOCKET_TYPE_SOCKS5
| NICE_SOCKET_TYPE_UDP_TURN
| NICE_SOCKET_TYPE_UDP_TURN_OVER_TCP
| NICE_SOCKET_TYPE_TCP_ACTIVE
| NICE_SOCKET_TYPE_TCP_PASSIVE
| NICE_SOCKET_TYPE_TCP_SO.
#[export] Instance NiceSocketType_eq_dec : EqDecision NiceSocketType.
Proof. solve_decision. Defined.

(** ** Data *)

(** The buffer is that of the message. *)
Record TURNMessage := { tm_message : StunMessage; tm_timer : StunTimer }.

(** [timeout_source] is the number of a timeout of the main context. *)
Record ChannelBinding := {
  cb_peer : NiceAddress;
  cb_channel : Z;
  cb_renew : bool;
  cb_timeout_source : option Z
}.
Definition eta_ChannelBinding (b : ChannelBinding) : ChannelBinding :=
  Build_ChannelBinding (cb_peer b) (cb_channel b) (cb_renew b) (cb_timeout_source b).
#[export] Instance set_cb_renew : Setter cb_renew := ltac:(derive_setter eta_ChannelBinding cb_renew).
#[export] Instance set_cb_timeout_source : Setter cb_timeout_source :=
  ltac:(derive_setter eta_ChannelBinding cb_timeout_source).

Record SendRequest := { sr_id : bytes; sr_source : Z }.

(** Data sent while a permission is being obtained; the length is that of the
    octets. *)
Record SendData := { sd_data : bytes; sd_reliable : bool }.

Inductive GSourceFunc :=
| priv_retransmissions_tick_cb
| priv_retransmissions_create_permission_tick_cb
| priv_forget_send_request_timeout_cb
| priv_permission_timeout_cb
| priv_binding_expired_timeout_cb
| priv_binding_timeout_cb.

(** A timeout attached to the main context; the interval is in milliseconds. *)
Record GSource := { gs_id : Z; gs_interval : Z; gs_function : GSourceFunc }.

(** Decoding of base64, the random identifiers of requests, and the values of
    locals that are not initialised. *)
Class TurnEnv : Type := {
  g_base64_decode : bytes → bytes;
  make_transid : Z → bytes;
  make_transid_length : ∀ n, zlen (make_transid n) = 16;
  make_transid_ok : ∀ n, bytes_ok (make_transid n);
  junk_sockaddr : sockaddr_storage;
  junk_address : NiceAddress
}.

Section udp_turn.
Context {S : Type} `{!NiceSocket S, !Malloc, !TurnEnv} {crypto : Crypto}.
Context (PACKAGE_STRING : bytes).

(** [send_data_queues] is a hash table of queues by peer.  The last three are
    not fields of the code: the timeouts attached to the main context, and how
    many sources and identifiers were made so far. *)
Record UdpTurnPriv := {
  ut_agent : StunAgent;
  channels : list ChannelBinding;
  pending_bindings : list NiceAddress;
  current_binding : option ChannelBinding;
  current_binding_msg : option TURNMessage;
  pending_permissions : list TURNMessage;
  tick_source_channel_bind : option Z;
  tick_source_create_permission : option Z;
  ut_base : option S;
  ut_base_type : NiceSocketType;
  server_addr : NiceAddress;
  ut_username : option bytes;
  ut_password : option bytes;
  ut_compatibility : NiceTurnSocketCompatibility;
  send_requests : list SendRequest;
  ms_realm : bytes;
  ms_connection_id : bytes;
  ms_sequence_num : Z;
  ms_connection_id_valid : bool;
  permissions : list NiceAddress;
  sent_permissions : list NiceAddress;
  send_data_queues : list (NiceAddress * list SendData);
  permission_timeout_source : option Z;
  cached_realm : option bytes;
  cached_nonce : option bytes;
  fragment_buffer : option bytes;
  ut_from : NiceAddress;
  sources : list GSource;
  next_source : Z;
  next_transid : Z
}.
Definition eta_UdpTurnPriv (p : UdpTurnPriv) : UdpTurnPriv :=
  Build_UdpTurnPriv (ut_agent p) (channels p) (pending_bindings p) (current_binding p)
    (current_binding_msg p) (pending_permissions p) (tick_source_channel_bind p)
    (tick_source_create_permission p) (ut_base p) (ut_base_type p) (server_addr p)
    (ut_username p) (ut_password p) (ut_compatibility p) (send_requests p) (ms_realm p)
    (ms_connection_id p) (ms_sequence_num p) (ms_connection_id_valid p) (permissions p)
    (sent_permissions p) (send_data_queues p) (permission_timeout_source p)
    (cached_realm p) (cached_nonce p) (fragment_buffer p) (ut_from p) (sources p)
    (next_source p) (next_transid p).
#[export] Instance set_ut_agent : Setter ut_agent := ltac:(derive_setter eta_UdpTurnPriv ut_agent).
#[export] Instance set_channels : Setter channels := ltac:(derive_setter eta_UdpTurnPriv channels).
#[export] Instance set_pending_bindings : Setter pending_bindings := ltac:(derive_setter eta_UdpTurnPriv pending_bindings).
#[export] Instance set_current_binding : Setter current_binding := ltac:(derive_setter eta_UdpTurnPriv current_binding).
#[export] Instance set_current_binding_msg : Setter current_binding_msg := ltac:(derive_setter eta_UdpTurnPriv current_binding_msg).
#[export] Instance set_pending_permissions : Setter pending_permissions := ltac:(derive_setter eta_UdpTurnPriv pending_permissions).
#[export] Instance set_tick_source_channel_bind : Setter tick_source_channel_bind := ltac:(derive_setter eta_UdpTurnPriv tick_source_channel_bind).
#[export] Instance set_tick_source_create_permission : Setter tick_source_create_permission := ltac:(derive_setter eta_UdpTurnPriv tick_source_create_permission).
#[export] Instance set_ut_base : Setter ut_base := ltac:(derive_setter eta_UdpTurnPriv ut_base).
#[export] Instance set_send_requests : Setter send_requests := ltac:(derive_setter eta_UdpTurnPriv send_requests).
#[export] Instance set_ms_realm : Setter ms_realm := ltac:(derive_setter eta_UdpTurnPriv ms_realm).
#[export] Instance set_ms_connection_id : Setter ms_connection_id := ltac:(derive_setter eta_UdpTurnPriv ms_connection_id).
#[export] Instance set_ms_sequence_num : Setter ms_sequence_num := ltac:(derive_setter eta_UdpTurnPriv ms_sequence_num).
#[export] Instance set_ms_connection_id_valid : Setter ms_connection_id_valid := ltac:(derive_setter eta_UdpTurnPriv ms_connection_id_valid).
#[export] Instance set_permissions : Setter permissions := ltac:(derive_setter eta_UdpTurnPriv permissions).
#[export] Instance set_sent_permissions : Setter sent_permissions := ltac:(derive_setter eta_UdpTurnPriv sent_permissions).
#[export] Instance set_send_data_queues : Setter send_data_queues := ltac:(derive_setter eta_UdpTurnPriv send_data_queues).
#[export] Instance set_permission_timeout_source : Setter permission_timeout_source := ltac:(derive_setter eta_UdpTurnPriv permission_timeout_source).
#[export] Instance set_cached_realm : Setter cached_realm := ltac:(derive_setter eta_UdpTurnPriv cached_realm).
#[export] Instance set_cached_nonce : Setter cached_nonce := ltac:(derive_setter eta_UdpTurnPriv cached_nonce).
#[export] Instance set_fragment_buffer : Setter fragment_buffer := ltac:(derive_setter eta_UdpTurnPriv fragment_buffer).
#[export] Instance set_ut_from : Setter ut_from := ltac:(derive_setter eta_UdpTurnPriv ut_from).
#[export] Instance set_sources : Setter sources := ltac:(derive_setter eta_UdpTurnPriv sources).
#[export] Instance set_next_source : Setter next_source := ltac:(derive_setter eta_UdpTurnPriv next_source).
#[export] Instance set_next_transid : Setter next_transid := ltac:(derive_setter eta_UdpTurnPriv next_transid).

(** ** Creation *)

Definition zero_agent : StunAgent :=
  {| agent_conf := {| compatibility := STUN_COMPATIBILITY_RFC3489; usage_flags := 0 |};
     sent_ids := replicate STUN_AGENT_MAX_SAVED_IDS
       {| si_id := replicate 16 0; si_method := 0; si_key := None;
          si_long_term_key := replicate 16 0; si_long_term_valid := false; si_valid := false |};
     known_attributes := []; software_attribute := None; ms_ice2_send_legacy_connchecks := false |}.

Definition turn_stun_agent (c : NiceTurnSocketCompatibility) : StunAgent :=
  match c with
  | NICE_TURN_SOCKET_COMPATIBILITY_DRAFT9 | NICE_TURN_SOCKET_COMPATIBILITY_RFC5766 =>
      stun_agent_init zero_agent STUN_ALL_KNOWN_ATTRIBUTES STUN_COMPATIBILITY_RFC5389
        STUN_AGENT_USAGE_LONG_TERM_CREDENTIALS
  | NICE_TURN_SOCKET_COMPATIBILITY_MSN =>
      stun_agent_init zero_agent STUN_ALL_KNOWN_ATTRIBUTES STUN_COMPATIBILITY_RFC3489
        (Z.lor STUN_AGENT_USAGE_SHORT_TERM_CREDENTIALS STUN_AGENT_USAGE_NO_INDICATION_AUTH)
  | NICE_TURN_SOCKET_COMPATIBILITY_GOOGLE =>
      stun_agent_init zero_agent STUN_ALL_KNOWN_ATTRIBUTES STUN_COMPATIBILITY_RFC3489
        (Z.lor STUN_AGENT_USAGE_SHORT_TERM_CREDENTIALS STUN_AGENT_USAGE_IGNORE_CREDENTIALS)
  | NICE_TURN_SOCKET_COMPATIBILITY_OC2007 =>
      stun_agent_init zero_agent STUN_ALL_KNOWN_ATTRIBUTES STUN_COMPATIBILITY_OC2007
        (Z.lor STUN_AGENT_USAGE_LONG_TERM_CREDENTIALS STUN_AGENT_USAGE_NO_ALIGNED_ATTRIBUTES)
  end.

(** The MSN and OC2007 modes get credentials in base64; the Google mode has no
    password. *)
Definition nice_udp_turn_socket_new (base_socket : option S) (base_type : NiceSocketType)
    (server_addr : NiceAddress) (username password : bytes)
    (compatibility : NiceTurnSocketCompatibility) : UdpTurnPriv :=
  let encoded := bool_decide (compatibility = NICE_TURN_SOCKET_COMPATIBILITY_MSN) ||
                 bool_decide (compatibility = NICE_TURN_SOCKET_COMPATIBILITY_OC2007) in
  {| ut_agent := turn_stun_agent compatibility;
     channels := []; pending_bindings := []; current_binding := None; current_binding_msg := None;
     pending_permissions := []; tick_source_channel_bind := None; tick_source_create_permission := None;
     ut_base := base_socket; ut_base_type := base_type; server_addr := server_addr;
     ut_username := Some (if encoded then g_base64_decode username else username);
     ut_password :=
       if encoded then Some (g_base64_decode password)
       else if bool_decide (compatibility = NICE_TURN_SOCKET_COMPATIBILITY_GOOGLE) then None
       else Some password;
     ut_compatibility := compatibility;
     send_requests := []; ms_realm := replicate (Z.to_nat (STUN_MAX_MS_REALM_LEN + 1)) 0;
     ms_connection_id := replicate 20 0; ms_sequence_num := 0; ms_connection_id_valid := false;
     permissions := []; sent_permissions := []; send_data_queues := [];
     permission_timeout_source := None; cached_realm := None; cached_nonce := None;
     fragment_buffer := None; ut_from := Build_NiceAddress 0 0 0 (replicate 16 0) 0;
     sources := []; next_source := 1; next_transid := 0 |}.

(** ** The main context *)

Definition source_add (interval : Z) (function : GSourceFunc) : st UdpTurnPriv Z :=
  id ← get next_source;
  _ ← put next_source (id + 1);
  _ ← upd sources (λ l, l ++ [{| gs_id := id; gs_interval := interval; gs_function := function |}]);
  mret id.
Definition priv_timeout_add_with_context (interval : Z) (function : GSourceFunc) : st UdpTurnPriv Z :=
  source_add interval function.
Definition priv_timeout_add_seconds_with_context (interval : Z) (function : GSourceFunc)
  : st UdpTurnPriv Z := source_add (interval * 1000) function.

(** [g_source_destroy], [g_source_unref] on a source that may be NULL. *)
Definition source_destroy (id : option Z) : st UdpTurnPriv unit :=
  match id with
  | Some id => upd sources (List.filter (λ s, negb (gs_id s =? id)))
  | None => mret tt
  end.

Definition draw_transid : st UdpTurnPriv bytes :=
  n ← get next_transid;
  _ ← put next_transid (n + 1);
  mret (make_transid n).

(** ** Helpers *)

Definition blank_message : StunMessage := Build_StunMessage None [] None (g_malloc 16) false.
(** A [TURNMessage] that was just allocated, cleared. *)
Definition zero_message : StunMessage := Build_StunMessage None [] None (replicate 16 0) false.
Definition zero_buffer : bytes := replicate (Z.to_nat STUN_MAX_MESSAGE_SIZE) 0.

(** [nice_address_copy_to_sockaddr (a, &sa.addr)] *)
Definition sockaddr_of (a : NiceAddress) : sockaddr_storage :=
  if nice_address_is_valid a then to_storage a else junk_sockaddr.

(** Append, the result not looked at. *)
Definition append_any (b : bool) (app : StunMessage → outcome (StunMessage * StunMessageReturn))
    (next : builder) : builder := λ msg,
  if b then '(msg, _) ← app msg; next msg else next msg.

Definition stun_message_append_ms_connection_id (msg : StunMessage) (ms_connection_id : bytes)
    (ms_sequence_num : Z) : outcome (StunMessage * StunMessageReturn) :=
  id ← slice ms_connection_id 0 20;
  stun_message_append_bytes msg STUN_ATTRIBUTE_MS_SEQUENCE_NUMBER (id ++ be 4 ms_sequence_num).

(** A string in memory, up to its terminator. *)
Fixpoint c_string (b : bytes) : outcome bytes :=
  match b with
  | [] => Ub
  | c :: b => if c =? 0 then mret [] else s ← c_string b; mret (c :: s)
  end.

Definition stun_message_ensure_ms_realm (msg : StunMessage) (realm : bytes)
  : outcome (StunMessage * StunMessageReturn) :=
  method ← stun_message_get_method msg;
  if (method =? STUN_SEND) || (method =? STUN_OLD_SET_ACTIVE_DST) then
    r ← c_string realm;
    stun_message_append_bytes msg STUN_ATTRIBUTE_REALM r
  else mret (msg, STUN_MESSAGE_RETURN_SUCCESS).

(** [priv->username != NULL && priv->username_len > 0] *)
Definition nonempty (d : option bytes) : option bytes :=
  match d with Some b => if 0 <? zlen b then Some b else None | None => None end.

Definition priv_is_peer_in_list (l : list NiceAddress) (peer : NiceAddress) : bool :=
  existsb (λ a, nice_address_equal a peer) l.
Definition priv_has_permission_for_peer (p : UdpTurnPriv) (peer : NiceAddress) : bool :=
  priv_is_peer_in_list (permissions p) peer.
Definition priv_has_sent_permission_for_peer (p : UdpTurnPriv) (peer : NiceAddress) : bool :=
  priv_is_peer_in_list (sent_permissions p) peer.
Definition priv_add_permission_for_peer (peer : NiceAddress) : st UdpTurnPriv unit :=
  upd permissions (λ l, l ++ [peer]).
Definition priv_add_sent_permission_for_peer (peer : NiceAddress) : st UdpTurnPriv unit :=
  upd sent_permissions (λ l, l ++ [peer]).

(** The loop goes on from the second element after a removal, and ends after
    the removal of the first. *)
Fixpoint remove_loop (fuel : nat) (l : list NiceAddress) (i : nat) (peer : NiceAddress)
  : outcome (list NiceAddress) :=
  match fuel with
  | O => Oof
  | Datatypes.S fuel =>
      match l !! i with
      | None => mret l
      | Some a =>
          if nice_address_equal a peer then
            match i with
            | O => mret (delete 0%nat l)
            | Datatypes.S _ => remove_loop fuel (delete i l) 1 peer
            end
          else remove_loop fuel l (Datatypes.S i) peer
      end
  end.
Definition priv_remove_peer_from_list (l : list NiceAddress) (peer : NiceAddress)
  : outcome (list NiceAddress) :=
  remove_loop (Datatypes.S (length l) * Datatypes.S (length l)) l 0 peer.
Definition priv_remove_sent_permission_for_peer (peer : NiceAddress) : st UdpTurnPriv unit :=
  l ← get sent_permissions;
  l ← lift (priv_remove_peer_from_list l peer);
  put sent_permissions l.
Definition priv_clear_permissions : st UdpTurnPriv unit := put permissions [].

(** ** Sending through the base socket *)

Definition base_is_reliable : st UdpTurnPriv bool := λ p,
  r ← nice_socket_is_reliable (ut_base p); Done (r, p).

(** One message, always; over a reliable base it is framed (RFC 4571). *)
Definition socket_send_messages_wrapped (to : NiceAddress) (message : NiceOutputMessage)
    (reliable : bool) : st UdpTurnPriv Z :=
  let send ms := on ut_base (if reliable then nice_socket_send_messages_reliable (Some to) ms
                             else nice_socket_send_messages (Some to) ms) in
  rel ← base_is_reliable;
  if negb rel then send [message]
  else
    let message_len := output_message_get_size message in
    _ ← assert_st (message_len <=? 65535);
    ret ← send [{| om_buffers := be 2 message_len :: om_buffers message |}];
    mret (if ret =? 1 then message_len else ret).

Definition socket_send_wrapped (to : NiceAddress) (buf : bytes) (reliable : bool) : st UdpTurnPriv Z :=
  rel ← base_is_reliable;
  if negb rel then
    ret ← socket_send_messages_wrapped to {| om_buffers := [buf] |} reliable;
    mret (if ret =? 1 then zlen buf else ret)
  else
    let ms := [{| om_buffers := [be 2 (u16 (zlen buf)); buf] |}] in
    ret ← on ut_base (if reliable then nice_socket_send_messages_reliable (Some to) ms
                      else nice_socket_send_messages (Some to) ms);
    mret (if ret =? 1 then zlen buf else ret).

(** The queue of a peer in the hash table. *)
Definition queue_lookup (qs : list (NiceAddress * list SendData)) (to : NiceAddress)
  : option (list SendData) :=
  snd <$> List.find (λ q, nice_address_equal q.1 to) qs.
Fixpoint queue_push (qs : list (NiceAddress * list SendData)) (to : NiceAddress) (d : SendData)
  : list (NiceAddress * list SendData) :=
  match qs with
  | [] => [(to, [d])]
  | (a, q) :: qs => if nice_address_equal a to then (a, q ++ [d]) :: qs else (a, q) :: queue_push qs to d
  end.
Fixpoint queue_remove (qs : list (NiceAddress * list SendData)) (to : NiceAddress)
  : list (NiceAddress * list SendData) :=
  match qs with
  | [] => []
  | (a, q) :: qs => if nice_address_equal a to then qs else (a, q) :: queue_remove qs to
  end.

Definition socket_enqueue_data (to : NiceAddress) (buf : bytes) (reliable : bool) : st UdpTurnPriv unit :=
  upd send_data_queues (λ qs, queue_push qs to {| sd_data := buf; sd_reliable := reliable |}).

Fixpoint dequeue_loop (q : list SendData) : st UdpTurnPriv unit :=
  match q with
  | [] => mret tt
  | d :: q =>
      server ← get server_addr;
      _ ← socket_send_wrapped server (sd_data d) (sd_reliable d);
      dequeue_loop q
  end.
Definition socket_dequeue_all_data (to : NiceAddress) : st UdpTurnPriv unit :=
  qs ← get send_data_queues;
  match queue_lookup qs to with
  | Some q => _ ← dequeue_loop q; upd send_data_queues (λ qs, queue_remove qs to)
  | None => mret tt
  end.

(** The octets of a message that was built. *)
Definition message_octets (msg : StunMessage) : outcome bytes :=
  len ← stun_message_length msg;
  slice (msg_buffer msg) 0 len.

Definition stun_finish (msg : StunMessage) : st UdpTurnPriv (Z * StunMessage) :=
  agent ← get ut_agent;
  password ← get ut_password;
  '(len, agent, msg) ← lift (stun_agent_finish_message agent msg password);
  _ ← put ut_agent agent;
  mret (len, msg).

(** The start of the timer of a request. *)
Definition start_timer (now : timeval) : st UdpTurnPriv StunTimer :=
  rel ← base_is_reliable;
  lift (if (rel : bool) then stun_timer_start_reliable now STUN_TIMER_DEFAULT_RELIABLE_TIMEOUT
        else stun_timer_start now STUN_TIMER_DEFAULT_TIMEOUT STUN_TIMER_DEFAULT_MAX_RETRANSMISSIONS).
(** Reliably over a reliable base, else reliably if the base can. *)
Definition send_request (buf : bytes) : st UdpTurnPriv Z :=
  server ← get server_addr;
  rel ← base_is_reliable;
  if (rel : bool) then socket_send_wrapped server buf true
  else
    res ← socket_send_wrapped server buf true;
    if res <? 0 then socket_send_wrapped server buf false else mret res.

(** The peer a request is about, in its XOR-PEER-ADDRESS. *)
Definition request_peer (msg : StunMessage) : outcome NiceAddress :=
  '(_, sa, _) ← stun_message_find_xor_addr msg STUN_ATTRIBUTE_XOR_PEER_ADDRESS junk_sockaddr
    sizeof_sockaddr_storage;
  mret (nice_address_set_from_sockaddr junk_address (of_storage sa)).

(** The two cases in which a request is sent again with the credentials of the
    answer. *)
Definition retry_authenticated (sent answer : StunMessage) : outcome bool :=
  sent_realm ← find_bytes sent STUN_ATTRIBUTE_REALM;
  recv_realm ← find_bytes answer STUN_ATTRIBUTE_REALM;
  e ← stun_message_find_error answer;
  mret match e with
       | (STUN_MESSAGE_RETURN_SUCCESS, Some code) =>
           (code =? STUN_ERROR_STALE_NONCE) ||
           (code =? STUN_ERROR_UNAUTHORIZED) &&
             negb match recv_realm, sent_realm with
                  | Some r, Some s => (0 <? zlen r) && bool_decide (s = r)
                  | _, _ => false
                  end
       | _ => false
       end.

(** ** Requests for channels

    [priv_schedule_tick] calls these, and some of these call it. *)
Section tick.
Context (now : timeval) (priv_schedule_tick : st UdpTurnPriv unit).

Definition priv_send_turn_message (msg : StunMessage) : st UdpTurnPriv unit :=
  buf ← lift (message_octets msg);
  _ ← put current_binding_msg None;
  _ ← send_request buf;
  timer ← start_timer now;
  _ ← put current_binding_msg (Some {| tm_message := msg; tm_timer := timer |});
  priv_schedule_tick.

Definition channel_bind_attributes (username realm nonce : option bytes) (channel : Z)
    (peer : NiceAddress) : builder :=
  append_when true (λ m, stun_message_append32 m STUN_ATTRIBUTE_CHANNEL_NUMBER (u32 (channel * 2 ^ 16)))
  (append_when true (λ m, stun_message_append_xor_addr m STUN_ATTRIBUTE_PEER_ADDRESS (sockaddr_of peer)
                            sizeof_sockaddr_storage)
  match nonempty username, nonempty realm, nonempty nonce with
  | Some u, Some r, Some n =>
      append_some STUN_ATTRIBUTE_USERNAME (Some u)
      (append_some STUN_ATTRIBUTE_REALM (Some r)
      (append_some STUN_ATTRIBUTE_NONCE (Some n) append_done))
  | _, _, _ => append_done
  end).

(** A request with the attributes, without credentials; [None] where the code
    gives up. *)
Definition new_request (method : Z) (attributes : builder) : st UdpTurnPriv (option StunMessage) :=
  agent ← get ut_agent;
  transid ← draw_transid;
  '(msg, ok) ← lift (stun_agent_init_request PACKAGE_STRING agent zero_message zero_buffer method transid);
  if negb ok then mret None
  else
    '(msg, ok) ← lift (attributes msg);
    mret (if (ok : bool) then Some msg else None).

(** Finish and send; whether it could be finished. *)
Definition finish_and_send (msg : StunMessage) (before : st UdpTurnPriv unit) : st UdpTurnPriv bool :=
  '(len, msg) ← stun_finish msg;
  if 0 <? len then _ ← before; _ ← priv_send_turn_message msg; mret true
  else mret false.

Definition priv_send_channel_bind (channel : Z) (peer : NiceAddress) : st UdpTurnPriv bool :=
  username ← get ut_username; realm ← get cached_realm; nonce ← get cached_nonce;
  msg ← new_request STUN_CHANNELBIND (channel_bind_attributes username realm nonce channel peer);
  match msg with
  | None => mret false
  | Some msg => finish_and_send msg (mret tt)
  end.

(** The first channel number not in use, by the code's loop, whose restart goes
    on with the second channel. *)
Fixpoint channel_loop (fuel : nat) (l : list ChannelBinding) (i : nat) (channel : Z) : outcome Z :=
  match fuel with
  | O => Oof
  | Datatypes.S fuel =>
      match l !! i with
      | None => mret channel
      | Some b => if channel =? cb_channel b then channel_loop fuel l 1 (u16 (channel + 1))
                  else channel_loop fuel l (Datatypes.S i) channel
      end
  end.
Definition free_channel (l : list ChannelBinding) : outcome Z :=
  channel_loop (Datatypes.S (Datatypes.S (length l)) * Datatypes.S (Datatypes.S (length l))) l 0 0x4000.

Definition new_binding (channel : Z) (peer : NiceAddress) : ChannelBinding :=
  {| cb_peer := peer; cb_channel := channel; cb_renew := false; cb_timeout_source := None |}.

(** The OC2007 connection and realm; the sequence number counts up. *)
Definition append_ms_identity (msg : StunMessage) : st UdpTurnPriv StunMessage :=
  valid ← get ms_connection_id_valid;
  msg ← (if (valid : bool) then
           _ ← upd ms_sequence_num (λ n, u32 (n + 1));
           id ← get ms_connection_id; seq ← get ms_sequence_num;
           '(msg, _) ← lift (stun_message_append_ms_connection_id msg id seq);
           mret msg
         else mret msg);
  realm ← get ms_realm;
  '(msg, _) ← lift (stun_message_ensure_ms_realm msg realm);
  mret msg.

(** The MSN and OC2007 request that makes a peer the active destination. *)
Definition set_active_destination (peer : NiceAddress) : st UdpTurnPriv bool :=
  username ← get ut_username; c ← get ut_compatibility;
  msg ← new_request STUN_OLD_SET_ACTIVE_DST
    (append_when true (λ m, stun_message_append32 m STUN_ATTRIBUTE_MAGIC_COOKIE TURN_MAGIC_COOKIE)
    (append_some STUN_ATTRIBUTE_USERNAME (nonempty username) append_done));
  match msg with
  | None => mret false
  | Some msg =>
      msg ← (if bool_decide (c = NICE_TURN_SOCKET_COMPATIBILITY_OC2007) then append_ms_identity msg
             else mret msg);
      '(msg, ok) ← lift (append_when true (λ m, stun_message_append_addr m
          STUN_ATTRIBUTE_DESTINATION_ADDRESS (sockaddr_of peer) sizeof_sockaddr_storage) append_done msg);
      if negb ok then mret false
      else finish_and_send msg (put current_binding (Some (new_binding 0 peer)))
  end.

Definition priv_add_channel_binding (peer : NiceAddress) : st UdpTurnPriv bool :=
  cur ← get current_binding;
  match cur with
  | Some _ => _ ← upd pending_bindings (λ l, l ++ [peer]); mret false
  | None =>
      c ← get ut_compatibility;
      match c with
      | NICE_TURN_SOCKET_COMPATIBILITY_DRAFT9 | NICE_TURN_SOCKET_COMPATIBILITY_RFC5766 =>
          chs ← get channels;
          channel ← lift (free_channel chs);
          if (0x4000 <=? channel) && (channel <? 0xffff) then
            ret ← priv_send_channel_bind channel peer;
            _ ← when ret (put current_binding (Some (new_binding channel peer)));
            mret ret
          else mret false
      | NICE_TURN_SOCKET_COMPATIBILITY_MSN | NICE_TURN_SOCKET_COMPATIBILITY_OC2007 =>
          set_active_destination peer
      | NICE_TURN_SOCKET_COMPATIBILITY_GOOGLE =>
          _ ← put current_binding (Some (new_binding 0 peer));
          mret true
      end
  end.

(** Drop the head once its request was sent, or cannot be. *)
Fixpoint pending_loop (fuel : nat) : st UdpTurnPriv unit :=
  match fuel with
  | O => oof
  | Datatypes.S fuel =>
      l ← get pending_bindings;
      match l with
      | [] => mret tt
      | peer :: _ =>
          ret ← priv_add_channel_binding peer;
          _ ← upd pending_bindings tail;
          if (ret : bool) then mret tt else pending_loop fuel
      end
  end.

Definition renew_first : st UdpTurnPriv unit :=
  chs ← get channels;
  match List.find cb_renew chs with
  | Some b => _ ← priv_send_channel_bind (cb_channel b) (cb_peer b); mret tt
  | None => mret tt
  end.

Definition priv_process_pending_bindings : st UdpTurnPriv unit :=
  l ← get pending_bindings;
  _ ← pending_loop (Datatypes.S (length l));
  l ← get pending_bindings; m ← get current_binding_msg;
  match l, m with [], None => renew_first | _, _ => mret tt end.
End tick.

(** ** Retransmissions *)

Section retransmissions.
Context (now : timeval).

(** After a timeout the request is given up: the data are sent as if the
    permission had been granted. *)
Definition priv_retransmissions_create_permission_tick_unlocked (i : nat) : st UdpTurnPriv bool :=
  l ← get pending_permissions;
  match l !! i with
  | None => ub
  | Some m =>
      '(timer, verdict) ← lift (stun_timer_refresh (tm_timer m) now);
      _ ← upd pending_permissions <[i := {| tm_message := tm_message m; tm_timer := timer |}]>;
      match verdict with
      | STUN_USAGE_TIMER_RETURN_TIMEOUT =>
          id ← lift (stun_message_id (tm_message m));
          _ ← upd ut_agent (λ a, (stun_agent_forget_transaction a id).1);
          to ← lift (request_peer (tm_message m));
          _ ← priv_remove_sent_permission_for_peer to;
          _ ← upd pending_permissions (delete i);
          _ ← priv_add_permission_for_peer to;
          _ ← socket_dequeue_all_data to;
          mret false
      | STUN_USAGE_TIMER_RETURN_RETRANSMIT =>
          buf ← lift (message_octets (tm_message m));
          server ← get server_addr;
          _ ← socket_send_wrapped server buf false;
          mret true
      | STUN_USAGE_TIMER_RETURN_SUCCESS => mret true
      end
  end.

(** The loop over the permission requests from the [i]-th on: those before it
    are not due.  Returns the smallest remaining time. *)
Fixpoint permissions_loop (fuel : nat) (i : nat) (min_timeout : Z) : st UdpTurnPriv Z :=
  match fuel with
  | O => oof
  | Datatypes.S fuel =>
      l ← get pending_permissions;
      match l !! i with
      | None => mret min_timeout
      | Some m =>
          let timeout := stun_timer_remainder (tm_timer m) now in
          if 0 <? timeout then permissions_loop fuel (Datatypes.S i) (Z.min min_timeout timeout)
          else
            _ ← priv_retransmissions_create_permission_tick_unlocked i;
            permissions_loop fuel i min_timeout
      end
  end.

(** Every request is refreshed at most as often as it is retransmitted. *)
Definition permissions_fuel (l : list TURNMessage) : nat := Datatypes.S (10 * length l).
Definition G_MAXUINT : Z := 2 ^ 32 - 1.

(** The body of the tick; returns whether there is something left to wait for. *)
Definition retransmissions_tick (priv_schedule_tick : st UdpTurnPriv unit) : st UdpTurnPriv bool :=
  cur ← get current_binding_msg;
  ret ← match cur with
        | None => mret false
        | Some m =>
            '(timer, verdict) ← lift (stun_timer_refresh (tm_timer m) now);
            _ ← put current_binding_msg (Some {| tm_message := tm_message m; tm_timer := timer |});
            match verdict with
            | STUN_USAGE_TIMER_RETURN_TIMEOUT =>
                id ← lift (stun_message_id (tm_message m));
                _ ← upd ut_agent (λ a, (stun_agent_forget_transaction a id).1);
                _ ← put current_binding None;
                _ ← put current_binding_msg None;
                _ ← priv_process_pending_bindings now priv_schedule_tick;
                mret false
            | STUN_USAGE_TIMER_RETURN_RETRANSMIT =>
                buf ← lift (message_octets (tm_message m));
                server ← get server_addr;
                _ ← socket_send_wrapped server buf false;
                mret true
            | STUN_USAGE_TIMER_RETURN_SUCCESS => mret true
            end
        end;
  _ ← when ret priv_schedule_tick;
  mret ret.

(** The second half of [priv_schedule_tick]. *)
Definition schedule_create_permission_tick : st UdpTurnPriv unit :=
  source ← get tick_source_create_permission;
  _ ← source_destroy source;
  _ ← put tick_source_create_permission None;
  l ← get pending_permissions;
  min_timeout ← permissions_loop (permissions_fuel l) 0 G_MAXUINT;
  if min_timeout =? G_MAXUINT then mret tt
  else
    source ← priv_timeout_add_with_context min_timeout priv_retransmissions_create_permission_tick_cb;
    put tick_source_create_permission (Some source).

Fixpoint priv_schedule_tick (fuel : nat) : st UdpTurnPriv unit :=
  match fuel with
  | O => oof
  | Datatypes.S fuel =>
      source ← get tick_source_channel_bind;
      _ ← source_destroy source;
      _ ← put tick_source_channel_bind None;
      cur ← get current_binding_msg;
      _ ← match cur with
          | Some m =>
              let timeout := stun_timer_remainder (tm_timer m) now in
              if 0 <? timeout then
                source ← priv_timeout_add_with_context timeout priv_retransmissions_tick_cb;
                put tick_source_channel_bind (Some source)
              else _ ← retransmissions_tick (priv_schedule_tick fuel); mret tt
          | None => mret tt
          end;
      schedule_create_permission_tick
  end.

(** Retransmissions, the time-out, and the request that follows it. *)
Definition tick_fuel : nat := 12.
Definition schedule_tick : st UdpTurnPriv unit := priv_schedule_tick tick_fuel.
Definition priv_retransmissions_tick_unlocked : st UdpTurnPriv bool := retransmissions_tick schedule_tick.
Definition send_channel_bind : Z → NiceAddress → st UdpTurnPriv bool := priv_send_channel_bind now schedule_tick.
Definition add_channel_binding : NiceAddress → st UdpTurnPriv bool := priv_add_channel_binding now schedule_tick.
Definition process_pending_bindings : st UdpTurnPriv unit := priv_process_pending_bindings now schedule_tick.

Definition nice_udp_turn_socket_set_peer (peer : NiceAddress) : st UdpTurnPriv bool :=
  add_channel_binding peer.

(** ** Permissions *)

(** The peer counts as asked for even where no request can be built. *)
Definition priv_send_create_permission (peer : NiceAddress) : st UdpTurnPriv Z :=
  p ← get (λ p, p);
  _ ← when (negb (priv_has_sent_permission_for_peer p peer)) (priv_add_sent_permission_for_peer peer);
  transid ← draw_transid;
  '(len, agent, msg) ← lift (stun_usage_turn_create_permission PACKAGE_STRING (ut_agent p) zero_message
    zero_buffer transid (ut_username p) (ut_password p) (cached_realm p) (cached_nonce p)
    (Some (sockaddr_of peer)) STUN_USAGE_TURN_COMPATIBILITY_RFC5766);
  _ ← put ut_agent agent;
  if 0 <? len then
    buf ← lift (slice (msg_buffer msg) 0 len);
    res ← send_request buf;
    timer ← start_timer now;
    _ ← upd pending_permissions (λ l, l ++ [{| tm_message := msg; tm_timer := timer |}]);
    _ ← schedule_tick;
    mret res
  else mret 0.

(** ** Timeouts

    The callbacks; [source] is the source that fired.  The result says whether
    it stays. *)

Definition priv_forget_send_request_timeout (source : Z) : st UdpTurnPriv bool :=
  l ← get send_requests;
  match List.find (λ r, sr_source r =? source) l with
  | Some r =>
      _ ← upd ut_agent (λ a, (stun_agent_forget_transaction a (sr_id r)).1);
      _ ← put send_requests (List.filter (λ r, negb (sr_source r =? source)) l);
      mret false
  | None => ub
  end.

Definition priv_permission_timeout : st UdpTurnPriv bool :=
  _ ← priv_clear_permissions;
  mret true.

Definition find_index {A} (f : A → bool) (l : list A) : option (nat * A) :=
  list_find (λ a, f a = true) l.

(** [source] stays NULL in the code: the binding looked for is one without a
    timeout. *)
Definition priv_binding_expired_timeout : st UdpTurnPriv bool :=
  chs ← get channels;
  match find_index (λ b, bool_decide (cb_timeout_source b = None)) chs with
  | None => mret false
  | Some (i, b) =>
      _ ← put channels (delete i chs);
      cur ← get current_binding; msg ← get current_binding_msg;
      refreshed ← match msg, cur with
                  | Some m, None =>
                      to ← lift (request_peer (tm_message m));
                      mret (nice_address_equal (cb_peer b) to)
                  | _, _ => mret false
                  end;
      if (refreshed : bool) then _ ← put current_binding (Some b); mret false
      else _ ← add_channel_binding (cb_peer b); mret false
  end.

Definition priv_binding_timeout (source : Z) : st UdpTurnPriv bool :=
  chs ← get channels;
  match find_index (λ b, bool_decide (cb_timeout_source b = Some source)) chs with
  | None => mret false
  | Some (i, b) =>
      _ ← source_destroy (cb_timeout_source b);
      expiry ← priv_timeout_add_seconds_with_context STUN_EXPIRE_TIMEOUT priv_binding_expired_timeout_cb;
      _ ← put channels (<[i := b <| cb_renew := true |> <| cb_timeout_source := Some expiry |>]> chs);
      m ← get current_binding_msg;
      match m with
      | None => _ ← send_channel_bind (cb_channel b) (cb_peer b); mret false
      | Some _ => mret false
      end
  end.

Definition priv_retransmissions_tick : st UdpTurnPriv bool :=
  ret ← priv_retransmissions_tick_unlocked;
  _ ← (if (ret : bool) then mret tt
       else
         source ← get tick_source_channel_bind;
         _ ← source_destroy source;
         put tick_source_channel_bind None);
  mret false.

Definition priv_retransmissions_create_permission_tick : st UdpTurnPriv bool :=
  _ ← schedule_tick;
  mret false.

(** The main context runs a source that is still attached. *)
Definition dispatch (source : Z) : st UdpTurnPriv unit :=
  l ← get sources;
  match List.find (λ s, gs_id s =? source) l with
  | None => mret tt
  | Some s =>
      keep ← match gs_function s with
             | priv_retransmissions_tick_cb => priv_retransmissions_tick
             | priv_retransmissions_create_permission_tick_cb => priv_retransmissions_create_permission_tick
             | priv_forget_send_request_timeout_cb => priv_forget_send_request_timeout source
             | priv_permission_timeout_cb => priv_permission_timeout
             | priv_binding_expired_timeout_cb => priv_binding_expired_timeout
             | priv_binding_timeout_cb => priv_binding_timeout source
             end;
      if (keep : bool) then mret tt else source_destroy (Some source)
  end.

(** ** Credentials of the server *)

(** [g_memdup] of nothing is NULL. *)
Definition cached (d : option bytes) : option bytes :=
  match d with Some b => if (0 <? zlen b) && (zlen b <? 764) then Some b else None | None => None end.
Definition nice_udp_turn_socket_cache_realm_nonce (msg : StunMessage) : st UdpTurnPriv unit :=
  realm ← lift (find_bytes msg STUN_ATTRIBUTE_REALM);
  _ ← put cached_realm (cached realm);
  nonce ← lift (find_bytes msg STUN_ATTRIBUTE_NONCE);
  put cached_nonce (cached nonce).

Definition nice_udp_turn_socket_set_ms_realm (msg : StunMessage) : st UdpTurnPriv unit :=
  realm ← lift (find_bytes msg STUN_ATTRIBUTE_REALM);
  match realm with
  | Some r =>
      if zlen r <=? STUN_MAX_MS_REALM_LEN then
        b ← get ms_realm;
        b ← lift (store b 0 (r ++ [0]));
        put ms_realm b
      else mret tt
  | None => mret tt
  end.

(** [ntohl ((uint32_t) *(ms_seq_num + 20))]: of one octet. *)
Definition nice_udp_turn_socket_set_ms_connection_id (msg : StunMessage) : st UdpTurnPriv unit :=
  d ← lift (find_bytes msg STUN_ATTRIBUTE_MS_SEQUENCE_NUMBER);
  match d with
  | Some d =>
      if zlen d =? 24 then
        id ← lift (slice d 0 20);
        _ ← put ms_connection_id id;
        b ← lift (getb d 20);
        _ ← put ms_sequence_num (htonl b);
        put ms_connection_id_valid true
      else mret tt
  | None => mret tt
  end.

(** ** Sending *)

(** The loop that copies the buffers of a message behind the header. *)
Fixpoint channel_data_loop (bufs : list bytes) (buffer : bytes) (message_len message_offset : Z)
  : outcome bytes :=
  match bufs with
  | [] => mret buffer
  | b :: bufs =>
      let out_len := Z.min (u64 (message_len - message_offset)) (zlen b) in
      d ← slice b 0 out_len;
      buffer ← store buffer (4 + message_offset) d;
      channel_data_loop bufs buffer message_len (message_offset + out_len)
  end.

(** Channel data; [None] where the message is too long. *)
Definition channel_data (channel : Z) (message : NiceOutputMessage) : outcome (option bytes) :=
  let message_len := output_message_get_size message in
  if message_len + 4 <=? STUN_MAX_MESSAGE_SIZE then
    buffer ← store (g_malloc STUN_MAX_MESSAGE_SIZE) 0 (be 2 channel);
    buffer ← store buffer 2 (be 2 (u16 message_len));
    buffer ← channel_data_loop (om_buffers message) buffer message_len 0;
    d ← slice buffer 0 (message_len + 4);
    mret (Some d)
  else mret None.

(** A send indication, or in the older modes a send request; [None] where the
    code gives up. *)
Definition send_head (to : NiceAddress) : st UdpTurnPriv (option StunMessage) :=
  agent ← get ut_agent; username ← get ut_username; c ← get ut_compatibility;
  cur ← get current_binding;
  transid ← draw_transid;
  if turn_standard c then
    '(msg, ok) ← lift (stun_agent_init_indication agent blank_message (g_malloc STUN_MAX_MESSAGE_SIZE)
      STUN_IND_SEND transid);
    if negb ok then mret None
    else
      '(msg, ok) ← lift (append_when true (λ m, stun_message_append_xor_addr m
        STUN_ATTRIBUTE_PEER_ADDRESS (sockaddr_of to) sizeof_sockaddr_storage) append_done msg);
      mret (if (ok : bool) then Some msg else None)
  else
    '(msg, ok) ← lift (stun_agent_init_request PACKAGE_STRING agent blank_message
      (g_malloc STUN_MAX_MESSAGE_SIZE) STUN_SEND transid);
    if negb ok then mret None
    else
      let locking := bool_decide (c = NICE_TURN_SOCKET_COMPATIBILITY_GOOGLE) &&
        match cur with Some b => nice_address_equal (cb_peer b) to | None => false end in
      '(msg, ok) ← lift (
        append_when true (λ m, stun_message_append32 m STUN_ATTRIBUTE_MAGIC_COOKIE TURN_MAGIC_COOKIE)
        (append_some STUN_ATTRIBUTE_USERNAME (nonempty username)
        (append_when true (λ m, stun_message_append_addr m STUN_ATTRIBUTE_DESTINATION_ADDRESS
           (sockaddr_of to) sizeof_sockaddr_storage)
        (append_any locking (λ m, stun_message_append32 m STUN_ATTRIBUTE_OPTIONS 1)
        append_done))) msg);
      mret (if (ok : bool) then Some msg else None).

Definition send_ms (msg : StunMessage) : st UdpTurnPriv StunMessage :=
  c ← get ut_compatibility;
  if bool_decide (c = NICE_TURN_SOCKET_COMPATIBILITY_OC2007) then
    '(msg, _) ← lift (stun_message_append32 msg STUN_ATTRIBUTE_MS_VERSION 1);
    append_ms_identity msg
  else mret msg.

(** Requests are remembered for [STUN_END_TIMEOUT]. *)
Definition remember_request (msg : StunMessage) : st UdpTurnPriv unit :=
  c ← get ut_compatibility;
  class ← lift (stun_message_get_class msg);
  if bool_decide (class = STUN_REQUEST) &&
     negb (bool_decide (c = NICE_TURN_SOCKET_COMPATIBILITY_OC2007)) then
    id ← lift (stun_message_id msg);
    source ← priv_timeout_add_with_context STUN_END_TIMEOUT priv_forget_send_request_timeout_cb;
    upd send_requests (λ l, l ++ [{| sr_id := id; sr_source := source |}])
  else mret tt.

(** The octets of the message that carries the data ([None]: the code gives
    up; empty: the message could not be finished). *)
Definition build_send (to : NiceAddress) (message : NiceOutputMessage) : st UdpTurnPriv (option bytes) :=
  msg ← send_head to;
  match msg with
  | None => mret None
  | Some msg =>
      msg ← send_ms msg;
      '(compacted, _) ← lift (compact_output_message message);
      '(msg, ok) ← lift (append_some STUN_ATTRIBUTE_DATA (Some compacted) append_done msg);
      if negb ok then mret None
      else
        '(msg_len, msg) ← stun_finish msg;
        if 0 <? msg_len then
          _ ← remember_request msg;
          d ← lift (slice (msg_buffer msg) 0 msg_len);
          mret (Some d)
        else mret (Some [])
  end.

(** A message that was built goes out, or waits for the permission. *)
Definition send_built (to : NiceAddress) (d : bytes) (reliable : bool) : st UdpTurnPriv Z :=
  p ← get (λ p, p);
  if bool_decide (ut_compatibility p = NICE_TURN_SOCKET_COMPATIBILITY_RFC5766) &&
     negb (priv_has_permission_for_peer p to) then
    _ ← (if priv_has_sent_permission_for_peer p to then mret tt
         else _ ← priv_send_create_permission to; mret tt);
    _ ← socket_enqueue_data to d reliable;
    mret (zlen d)
  else
    ret ← socket_send_messages_wrapped (server_addr p) {| om_buffers := [d] |} reliable;
    mret (if ret =? 1 then zlen d else ret).

(** Send [message] itself. *)
Definition send_plain (to : NiceAddress) (message : NiceOutputMessage) (reliable : bool)
  : st UdpTurnPriv Z :=
  ret ← socket_send_messages_wrapped to message reliable;
  mret (if ret =? 1 then output_message_get_size message else ret).

Definition turn_send_message (to : NiceAddress) (message : NiceOutputMessage) (reliable : bool)
  : st UdpTurnPriv Z :=
  chs ← get channels; c ← get ut_compatibility; server ← get server_addr;
  let binding := List.find (λ b, nice_address_equal (cb_peer b) to) chs in
  match binding with
  | Some b =>
      if turn_standard c then
        d ← lift (channel_data (cb_channel b) message);
        match d with
        | None => mret (-1)
        | Some d => send_built to d reliable
        end
      else send_plain server message reliable
  | None =>
      d ← build_send to message;
      match d with
      | None => mret (-1)
      | Some d => if 0 <? zlen d then send_built to d reliable else send_plain to message reliable
      end
  end.

(** The loops stop at the first message that is not sent; the reliable one
    then fails as a whole. *)
Fixpoint turn_send_loop (to : NiceAddress) (messages : list NiceOutputMessage) (i : Z)
  : st UdpTurnPriv Z :=
  match messages with
  | [] => mret i
  | message :: messages =>
      len ← turn_send_message to message false;
      if len <? 0 then mret (if 0 <? i then i else len)
      else if len =? 0 then mret i
      else turn_send_loop to messages (i + 1)
  end.
Definition turn_send_messages (to : NiceAddress) (messages : list NiceOutputMessage)
  : st UdpTurnPriv Z := turn_send_loop to messages 0.

Fixpoint turn_send_reliable_loop (to : NiceAddress) (messages : list NiceOutputMessage) (i : Z)
  : st UdpTurnPriv Z :=
  match messages with
  | [] => mret i
  | message :: messages =>
      len ← turn_send_message to message true;
      if len <? 0 then mret len
      else if len =? 0 then mret i
      else turn_send_reliable_loop to messages (i + 1)
  end.
Definition turn_send_messages_reliable (to : NiceAddress) (messages : list NiceOutputMessage)
  : st UdpTurnPriv Z :=
  type ← get ut_base_type;
  if bool_decide (type = NICE_SOCKET_TYPE_UDP_BSD) then mret (-1)
  else turn_send_reliable_loop to messages 0.

(** ** Receiving *)

(** How the code goes on: with the data as they are, with nothing for the
    caller, with the lock of the MSN and Google modes, or with the data of an
    indication. *)
Inductive parse_goto :=
| goto_recv
| goto_done
| goto_msn_google_lock
| goto_data (data : bytes) (from : NiceAddress).

(** A response to a send request. *)
Definition parse_send (msg : StunMessage) : st UdpTurnPriv parse_goto :=
  class ← lift (stun_message_get_class msg);
  if bool_decide (class = STUN_RESPONSE) then
    id ← lift (stun_message_id msg);
    l ← get send_requests; c ← get ut_compatibility;
    _ ← match find_index (λ r, bool_decide (sr_id r = id)) l with
        | Some (i, r) =>
            _ ← put send_requests (delete i l);
            _ ← source_destroy (Some (sr_source r));
            upd ut_agent (λ a, (stun_agent_forget_transaction a (sr_id r)).1)
        | None => mret tt
        end;
    if bool_decide (c = NICE_TURN_SOCKET_COMPATIBILITY_GOOGLE) then
      opts ← lift (stun_message_find32 msg STUN_ATTRIBUTE_OPTIONS);
      mret match opts with
           | (STUN_MESSAGE_RETURN_SUCCESS, Some v) => if flag v 1 then goto_msn_google_lock else goto_done
           | _ => goto_done
           end
    else mret goto_done
  else mret goto_done.

Definition parse_set_active (msg : StunMessage) : st UdpTurnPriv parse_goto :=
  cur ← get current_binding; m ← get current_binding_msg;
  match cur, m with
  | Some _, Some m =>
      response_id ← lift (stun_message_id msg);
      request_id ← lift (stun_message_id (tm_message m));
      if bool_decide (request_id = response_id) then
        _ ← put current_binding_msg None;
        class ← lift (stun_message_get_class msg);
        c ← get ut_compatibility;
        if bool_decide (class = STUN_RESPONSE) &&
           (bool_decide (c = NICE_TURN_SOCKET_COMPATIBILITY_OC2007) ||
            bool_decide (c = NICE_TURN_SOCKET_COMPATIBILITY_MSN))
        then mret goto_msn_google_lock
        else _ ← put current_binding None; mret goto_done
      else mret goto_done
  | _, _ => mret goto_done
  end.

(** The binding at position [i] has been confirmed. *)
Definition binding_confirmed (i : nat) : st UdpTurnPriv unit :=
  chs ← get channels;
  match chs !! i with
  | None => ub
  | Some b =>
      _ ← source_destroy (cb_timeout_source b);
      source ← priv_timeout_add_seconds_with_context STUN_BINDING_TIMEOUT priv_binding_timeout_cb;
      put channels (<[i := b <| cb_renew := false |> <| cb_timeout_source := Some source |>]> chs)
  end.

(** An answer to a channel request: of the current binding, or else the
    refresh of the channel of the peer it is about. *)
Definition parse_channel_bind (msg : StunMessage) : st UdpTurnPriv parse_goto :=
  m ← get current_binding_msg;
  match m with
  | None => mret goto_done
  | Some m =>
      response_id ← lift (stun_message_id msg);
      request_id ← lift (stun_message_id (tm_message m));
      if negb (bool_decide (request_id = response_id)) then mret goto_done
      else
        cur ← get current_binding; chs ← get channels;
        refreshed ← match cur with
                    | Some _ => mret None
                    | None =>
                        to ← lift (request_peer (tm_message m));
                        mret (find_index (λ b, nice_address_equal (cb_peer b) to) chs)
                    end;
        class ← lift (stun_message_get_class msg);
        match class with
        | STUN_ERROR =>
            retry ← lift (retry_authenticated (tm_message m) msg);
            if (retry : bool) then
              _ ← put current_binding_msg None;
              _ ← nice_udp_turn_socket_cache_realm_nonce msg;
              match cur, refreshed with
              | Some b, _ | None, Some (_, b) =>
                  _ ← send_channel_bind (cb_channel b) (cb_peer b); mret goto_done
              | None, None => mret goto_done
              end
            else
              _ ← put current_binding None;
              _ ← put current_binding_msg None;
              _ ← process_pending_bindings;
              mret goto_done
        | STUN_RESPONSE =>
            _ ← put current_binding_msg None;
            _ ← match cur with
                | Some b => put channels (chs ++ [b])
                | None => mret tt
                end;
            _ ← put current_binding None;
            _ ← match cur, refreshed with
                | Some _, _ => binding_confirmed (length chs)
                | None, Some (i, _) => binding_confirmed i
                | None, None => mret tt
                end;
            _ ← process_pending_bindings;
            mret goto_done
        | _ => mret goto_done
        end
  end.

(** The first request with the identifier of the answer. *)
Fixpoint find_request (l : list TURNMessage) (id : bytes) (i : nat) : outcome (option (nat * StunMessage)) :=
  match l with
  | [] => mret None
  | m :: l =>
      request_id ← stun_message_id (tm_message m);
      if bool_decide (request_id = id) then mret (Some (i, tm_message m))
      else find_request l id (Datatypes.S i)
  end.

(** An answer to a permission request: sent again with credentials, or the
    permission counts as granted, errors included. *)
Definition parse_create_permission (msg : StunMessage) : st UdpTurnPriv parse_goto :=
  l ← get pending_permissions;
  r ← match l with
      | [] => mret None
      | _ => id ← lift (stun_message_id msg); lift (find_request l id 0)
      end;
  match r with
  | None => mret goto_done
  | Some (i, request) =>
      to ← lift (request_peer request);
      class ← lift (stun_message_get_class msg);
      retry ← (if bool_decide (class = STUN_ERROR) then lift (retry_authenticated request msg)
               else mret false);
      if (retry : bool) then
        _ ← put pending_permissions (delete i l);
        _ ← nice_udp_turn_socket_cache_realm_nonce msg;
        _ ← priv_send_create_permission to;
        mret goto_done
      else
        _ ← priv_remove_sent_permission_for_peer to;
        _ ← priv_add_permission_for_peer to;
        source ← get permission_timeout_source;
        _ ← match source with
            | None =>
                when (bool_decide (class = STUN_RESPONSE))
                  (source ← priv_timeout_add_seconds_with_context STUN_PERMISSION_TIMEOUT
                              priv_permission_timeout_cb;
                   put permission_timeout_source (Some source))
            | Some _ => mret tt
            end;
        _ ← socket_dequeue_all_data to;
        _ ← upd pending_permissions (delete i);
        mret goto_done
  end.

(** Data of a peer; [from] is the address the caller passed. *)
Definition parse_data_indication (msg : StunMessage) (from : NiceAddress) : st UdpTurnPriv parse_goto :=
  c ← get ut_compatibility;
  '(val, sa, _) ← lift (
    if turn_standard c
    then stun_message_find_xor_addr msg STUN_ATTRIBUTE_REMOTE_ADDRESS junk_sockaddr sizeof_sockaddr_storage
    else stun_message_find_addr msg STUN_ATTRIBUTE_REMOTE_ADDRESS junk_sockaddr sizeof_sockaddr_storage);
  if negb (success val) then mret goto_recv
  else
    data ← lift (find_bytes msg STUN_ATTRIBUTE_DATA);
    match data with
    | None => mret goto_recv
    | Some data =>
        let from := nice_address_set_from_sockaddr from (of_storage sa) in
        p ← get (λ p, p);
        _ ← when (bool_decide (c = NICE_TURN_SOCKET_COMPATIBILITY_RFC5766) &&
                  negb (priv_has_permission_for_peer p from) &&
                  negb (priv_has_sent_permission_for_peer p from))
              (_ ← priv_send_create_permission from; mret tt);
        mret (goto_data data from)
    end.

(** A message of the server that validates. *)
Definition parse_control (msg : StunMessage) (from : NiceAddress) : st UdpTurnPriv parse_goto :=
  c ← get ut_compatibility;
  cookie ← lift (if turn_standard c then mret true
                 else r ← stun_message_find32 msg STUN_ATTRIBUTE_MAGIC_COOKIE;
                      mret match r with
                           | (STUN_MESSAGE_RETURN_SUCCESS, Some v) => v =? TURN_MAGIC_COOKIE
                           | _ => false
                           end);
  if negb cookie then mret goto_recv
  else
    method ← lift (stun_message_get_method msg);
    class ← lift (stun_message_get_class msg);
    if method =? STUN_SEND then parse_send msg
    else if method =? STUN_OLD_SET_ACTIVE_DST then parse_set_active msg
    else if method =? STUN_CHANNELBIND then parse_channel_bind msg
    else if method =? STUN_CREATEPERMISSION then parse_create_permission msg
    else if bool_decide (class = STUN_INDICATION) && (method =? STUN_IND_DATA)
    then parse_data_indication msg from
    else mret goto_recv.

Definition msn_google_lock : st UdpTurnPriv unit :=
  cur ← get current_binding;
  match cur with
  | Some b =>
      _ ← put channels [b];
      _ ← put current_binding None;
      process_pending_bindings
  | None => mret tt
  end.

(** What the caller gets: the length, whether it is from this socket, the
    address and the buffer. *)
Record parsed := { pr_length : Z; pr_from_sock : bool; pr_from : NiceAddress; pr_buf : bytes }.

(** [recv_buf] is the object the data are in, at offset [off]. *)
Definition recv_data (buf : bytes) (len : Z) (recv_from : NiceAddress) (recv_buf : bytes)
    (off recv_len : Z) : st UdpTurnPriv parsed :=
  chs ← get channels; c ← get ut_compatibility;
  '(binding, off, recv_len) ← lift (
    match chs with
    | [] => mret (None, off, recv_len)
    | b :: _ =>
        if turn_standard c then
          d ← slice recv_buf off 2;
          match List.find (λ b, cb_channel b =? of_be d) chs with
          | Some b => l ← slice recv_buf (off + 2) 2; mret (Some b, off + 4, of_be l)
          | None => mret (None, off, recv_len)
          end
        else mret (Some b, off, recv_len)
    end);
  let n := Z.min len recv_len in
  d ← lift (slice recv_buf off n);
  buf ← lift (store buf 0 d);
  mret {| pr_length := n; pr_from_sock := bool_decide (is_Some binding);
          pr_from := match binding with Some b => cb_peer b | None => recv_from end; pr_buf := buf |}.

(** Over a reliable base the first two octets are the frame; a length below two
    wraps, and the validation reads wherever that leads. *)
Definition nice_udp_turn_socket_parse_recv (from : NiceAddress) (len : Z) (buf : bytes)
    (recv_from : NiceAddress) (recv_buf : bytes) (recv_len : Z) : st UdpTurnPriv parsed :=
  rel ← base_is_reliable;
  server ← get server_addr;
  let off := if (rel : bool) then 2 else 0 in
  let recv_len := if rel then u64 (recv_len - 2) else recv_len in
  let nothing := {| pr_length := 0; pr_from_sock := false; pr_from := from; pr_buf := buf |} in
  next ← (if nice_address_equal server recv_from then
            agent ← get ut_agent;
            d ← lift (slice recv_buf off recv_len);
            '(valid, agent, msg) ← lift (stun_agent_validate agent blank_message d None);
            _ ← put ut_agent agent;
            match valid with
            | STUN_VALIDATION_SUCCESS => parse_control msg from
            | _ => mret goto_recv
            end
          else mret goto_recv);
  match next with
  | goto_recv => recv_data buf len recv_from recv_buf off recv_len
  | goto_done => mret nothing
  | goto_msn_google_lock => _ ← msn_google_lock; mret nothing
  | goto_data data from =>
      let n := Z.min len (zlen data) in
      d ← lift (slice data 0 n);
      buf ← lift (store buf 0 d);
      mret {| pr_length := n; pr_from_sock := true; pr_from := from; pr_buf := buf |}
  end.

(** The vectors of an input message, as sources of [message->length] octets. *)
Definition compact_input_message (message : NiceInputMessage) : outcome bytes :=
  compact_message {| om_buffers := map (λ v, take (Z.to_nat (iv_size v)) (iv_buffer v)) (im_buffers message) |}
    (im_length message).

Definition nice_udp_turn_socket_parse_recv_message (message : NiceInputMessage)
  : st UdpTurnPriv (Z * bool * NiceInputMessage) :=
  match im_from message with
  | None => ub
  | Some from =>
      match im_buffers message with
      | [v] =>
          r ← nice_udp_turn_socket_parse_recv from (im_length message) (iv_buffer v) from (iv_buffer v)
                (im_length message);
          _ ← assert_st (pr_length r <=? im_length message);
          mret (if 0 <? pr_length r then 1 else 0, pr_from_sock r,
                message <| im_buffers := [{| iv_buffer := pr_buf r; iv_size := iv_size v |}] |>
                        <| im_from := Some (pr_from r) |> <| im_length := pr_length r |>)
      | _ =>
          buf ← lift (compact_input_message message);
          r ← nice_udp_turn_socket_parse_recv from (im_length message) buf from buf (im_length message);
          d ← lift (slice (pr_buf r) 0 (pr_length r));
          '(message, len) ← lift (memcpy_buffer_to_input_message message d);
          mret (if 0 <? len then 1 else 0, pr_from_sock r, message <| im_from := Some (pr_from r) |>)
      end
  end.

(** Frames that were kept from earlier messages, into the first of [ms]: the
    messages filled, the others, and what is left. *)
Fixpoint fill_from_fragments (from : NiceAddress) (ms : list NiceInputMessage) (f_buffer : bytes)
  : outcome (list NiceInputMessage * list NiceInputMessage * bytes) :=
  match ms with
  | [] => mret ([], [], f_buffer)
  | m :: ms' =>
      if zlen f_buffer <? 2 then mret ([], ms, f_buffer)
      else
        h ← slice f_buffer 0 2;
        let msg_len := of_be h + 2 in
        if zlen f_buffer <? msg_len then mret ([], ms, f_buffer)
        else
          '(m, _) ← memcpy_buffer_to_input_message m (take (Z.to_nat msg_len) f_buffer);
          _ ← assert_ (bool_decide (is_Some (im_from m)));
          '(filled, rest, f_buffer) ← fill_from_fragments from ms' (drop (Z.to_nat msg_len) f_buffer);
          mret (m <| im_from := Some from |> :: filled, rest, f_buffer)
  end.

(** Data of a reliable base: what is not a whole frame is kept; the part that
    can be returned. *)
Definition keep_fragment (buffer : bytes) (parsed : Z) (from : NiceAddress) : st UdpTurnPriv Z :=
  frag ← get fragment_buffer;
  msg_len ← (match frag with
             | Some _ => mret 0
             | None =>
                 h ← lift (slice buffer 0 2);
                 mret (if parsed <? of_be h + 2 then 0 else of_be h + 2)
             end);
  let frag := match frag with
              | None => if negb (msg_len =? parsed) then Some [] else None
              | Some f => Some f
              end in
  match frag with
  | Some f =>
      d ← lift (slice buffer msg_len (parsed - msg_len));
      _ ← put fragment_buffer (Some (f ++ d));
      _ ← put ut_from from;
      mret msg_len
  | None => mret parsed
  end.

(** One message of the base socket: the message, and whether it failed. *)
Definition parse_message (message : NiceInputMessage) : st UdpTurnPriv (NiceInputMessage * bool) :=
  let single := match im_buffers message with [v] => Some v | _ => None end in
  buffer ← lift (match single with
                 | Some v => mret (iv_buffer v)
                 | None => compact_input_message message
                 end);
  match im_from message with
  | None => ub
  | Some recv_from =>
      r ← nice_udp_turn_socket_parse_recv junk_address (im_length message) buffer recv_from buffer
            (im_length message);
      let parsed := s32 (pr_length r) in
      let message := message <| im_length := Z.max parsed 0 |>
                             <| im_from := Some (if 0 <? parsed then pr_from r else recv_from) |> in
      rel ← base_is_reliable;
      parsed' ← (if (rel : bool) && (0 <? parsed) then keep_fragment (pr_buf r) parsed (pr_from r)
                 else mret parsed);
      let message := message <| im_length := Z.max parsed' 0 |> in
      message ← lift (match single with
        | Some v => mret (message <| im_buffers := [{| iv_buffer := pr_buf r; iv_size := iv_size v |}] |>)
        | None =>
            if 0 <? parsed' then
              d ← slice (pr_buf r) 0 parsed';
              '(message, _) ← memcpy_buffer_to_input_message message d;
              mret message
            else mret message
        end);
      mret (message, parsed <? 0)
  end.

(** The loop over the messages received: the messages, how many count as
    received, and whether the first failed. *)
Fixpoint parse_messages (first : bool) (ms : list NiceInputMessage) (n_output_messages : Z)
  : st UdpTurnPriv (list NiceInputMessage * Z * bool) :=
  match ms with
  | [] => mret ([], n_output_messages, false)
  | m :: ms =>
      if im_length m =? 0 then
        '(ms, n, e) ← parse_messages false ms n_output_messages;
        mret (m :: ms, n, e)
      else
        '(m, error) ← parse_message m;
        if (error : bool) then mret (m :: ms, n_output_messages, first)
        else
          '(ms, n, e) ← parse_messages false ms (n_output_messages + 1);
          mret (m :: ms, n, e)
  end.

Definition turn_recv_messages (recv_messages : list NiceInputMessage)
  : st UdpTurnPriv (Z * list NiceInputMessage) :=
  frag ← get fragment_buffer; from ← get ut_from;
  '(filled, ms) ← (match frag with
    | Some f =>
        '(filled, rest, f) ← lift (fill_from_fragments from recv_messages f);
        _ ← put fragment_buffer (if zlen f =? 0 then None else Some f);
        mret (filled, rest)
    | None => mret ([], recv_messages)
    end);
  '(n_messages, ms) ← on ut_base (nice_socket_recv_messages ms);
  if n_messages <? 0 then mret (n_messages, filled ++ ms)
  else
    '(parsed, n, error) ← parse_messages true (take (Z.to_nat n_messages) ms) (zlen filled);
    mret (if (error : bool) then -1 else n, filled ++ parsed ++ drop (Z.to_nat n_messages) ms).

Definition turn_is_reliable (p : UdpTurnPriv) : outcome bool := nice_socket_is_reliable (ut_base p).
Definition turn_can_send (addr : option NiceAddress) (p : UdpTurnPriv) : outcome bool :=
  nice_socket_can_send addr (ut_base p).
Definition turn_set_writable_callback (cb : option NiceSocketWritableCb) : st UdpTurnPriv unit :=
  on ut_base (nice_socket_set_writable_callback cb).

(** What is freed with the socket: afterwards only the sources that are still
    attached could be observed. *)
Definition turn_socket_close : st UdpTurnPriv unit :=
  p ← get (λ p, p);
  _ ← upd sources (List.filter (λ s, negb (
        existsb (λ b, bool_decide (cb_timeout_source b = Some (gs_id s))) (channels p) ||
        bool_decide (tick_source_channel_bind p = Some (gs_id s)) ||
        bool_decide (tick_source_create_permission p = Some (gs_id s)) ||
        existsb (λ r, sr_source r =? gs_id s) (send_requests p) ||
        bool_decide (permission_timeout_source p = Some (gs_id s)))));
  mret tt.
End retransmissions.

(** A NULL address is read through, where there is a message to send. *)
Definition to_peer {A} (to : option NiceAddress) (messages : list A) (m : NiceAddress → st UdpTurnPriv Z)
  : st UdpTurnPriv Z :=
  match to, messages with
  | Some to, _ => m to
  | None, [] => mret 0
  | None, _ => ub
  end.

(** The socket at a reading of the clock. *)
Definition udp_turn_socket (now : timeval) : NiceSocket UdpTurnPriv := {|
  recv_messages := turn_recv_messages now;
  send_messages to ms := to_peer to ms (λ to, turn_send_messages now to ms);
  send_messages_reliable to ms := to_peer to ms (λ to, turn_send_messages_reliable now to ms);
  is_reliable := turn_is_reliable;
  can_send := turn_can_send;
  set_writable_callback := turn_set_writable_callback
|}.
End udp_turn.
Arguments UdpTurnPriv S : clear implicits.
