(* ===== verification/UdpTurnBuild.v ===== *)
(** * The requests of a TURN socket

    What is in a permission or channel request when it is sent, in every
    credential mode: the peer it is about can be read back from it. *)

From S2P Require Import Prelude Bytes StateMonad StunCrc32 StunMessage StunFacts StunBuild StunRoundtrip StunHmac StunAgent StunAgentTrans StunAuth StunTimer StunIce StunIceFacts StunTurn StunTurnFacts StunEnds NiceAddress NiceSocket TurnTcp UdpTurn.

(** ** Completion keeps what was appended *)

Section finish.
Context {crypto : Crypto}.

Lemma finish_key_view agent msg key m k :
  finish_key agent msg key = Done (m, k) →
  msg_buffer m = msg_buffer msg ∧ msg_agent m = msg_agent msg.
Proof.
  unfold finish_key. intros H. apply bind_inv in H as ([m1 md] & E & H).
  assert (msg_buffer m1 = msg_buffer msg ∧ msg_agent m1 = msg_agent msg).
  { repeat break_in E; done. }
  destruct md; by inv_bind.
Qed.

Lemma repr_same_view m m' ty id l rest :
  msg_buffer m' = msg_buffer m → msg_agent m' = msg_agent m →
  msg_repr m ty id l rest → msg_repr m' ty id l rest.
Proof. intros Hb Ha. unfold msg_repr, no_aligned. by rewrite Hb, Ha. Qed.

Lemma finish_integrity_extends agent msg ty id l rest key m ok :
  msg_repr msg ty id l rest → 32 ≤ zlen rest → 52 + zlen (attrs_enc l) < 2 ^ 16 →
  finish_integrity agent msg key = Done (m, ok) →
  ok = true ∧ msg_agent m = msg_agent msg ∧
  ∃ l' rest', msg_repr m ty id (l ++ l') rest' ∧ 8 ≤ zlen rest' ∧ 28 + zlen (attrs_enc (l ++ l')) < 2 ^ 16.
Proof.
  intros Hr Hroom Hfit H. unfold finish_integrity in H.
  assert (Hsame : ∀ m', msg_buffer m' = msg_buffer msg → msg_agent m' = msg_agent msg →
    ∃ l' rest', msg_repr m' ty id (l ++ l') rest' ∧ 8 ≤ zlen rest' ∧ 28 + zlen (attrs_enc (l ++ l')) < 2 ^ 16).
  { intros m' Hb Ha. exists [], rest. rewrite app_nil_r. split_and!; [by eapply repr_same_view | lia | lia]. }
  destruct key as [key |]; [| injection H as <- <-; eauto].
  apply bind_inv in H as ([m1 k] & Ek & H). apply finish_key_view in Ek as [Hb Ha].
  destruct k as [k |]; [| injection H as <- <-; eauto].
  pose proof (repr_same_view _ _ _ _ _ _ Hb Ha Hr) as Hr1.
  assert (Hty : oc2007_type m1 STUN_ATTRIBUTE_MESSAGE_INTEGRITY = STUN_ATTRIBUTE_MESSAGE_INTEGRITY)
    by (unfold oc2007_type; by destruct (is_oc2007 m1)).
  destruct (append_fill m1 ty id l STUN_ATTRIBUTE_MESSAGE_INTEGRITY 20 rest)
    as (old & rest' & Hold & Hoko & Hz & Happ & Hfill); try done; [by rewrite Hty | | |].
  1, 2: rewrite attr_room_mod4_eq by done; lia.
  rewrite Happ, bind_Done in H. rewrite attr_room_mod4_eq in Hz by done.
  destruct (Hfill old Hold Hoko) as [_ Hr0]. rewrite Hty, new_attr_mod4 in Hr0 by (by rewrite Hold).
  rewrite (finish_sha_spec _ _ _ _ _ _ _ _ Hr0 Hold), bind_Done in H.
  match type of H with (store _ _ ?d ≫= _) = _ => destruct (Hfill d) as [Hst Hr2] end;
    [apply hmac_sha1_len | apply hmac_sha1_ok |].
  cbn [msg_buffer set_field set_msg_buffer] in H. rewrite Hst, bind_Done in H. injection H as <- <-.
  split; [done |]. split; [exact Ha |]. eexists _, rest'. split; [exact Hr2 |]. split; [lia |].
  rewrite attrs_enc_snoc, zlen_app, new_attr_room.
  match goal with |- context [attr_room _ (zlen ?d)] => assert (zlen d = 20) as -> by apply hmac_sha1_len end.
  rewrite attr_room_mod4_eq by done. lia.
Qed.

Lemma finish_extends agent msg ty id l rest key n a' m :
  msg_repr msg ty id l rest → 32 ≤ zlen rest → 52 + zlen (attrs_enc l) < 2 ^ 16 →
  stun_agent_finish_message agent msg key = Done (n, a', m) →
  msg_agent m = msg_agent msg ∧
  (∃ l' rest', msg_repr m ty id (l ++ l') rest' ∧ (0 < n → n = 20 + zlen (attrs_enc (l ++ l')))) ∧
  agent_conf a' = agent_conf agent ∧ software_attribute a' = software_attribute agent.
Proof.
  intros Hr Hroom Hfit H.
  assert (Hconf : agent_conf a' = agent_conf agent ∧ software_attribute a' = software_attribute agent).
  { apply finish_inv in H as [[-> _] | (i & old & e & _ & -> & _)]; done. }
  assert (Hnone : ∃ l' rest', msg_repr msg ty id (l ++ l') rest' ∧ (0 < 0 → 0 = 20 + zlen (attrs_enc (l ++ l')))).
  { exists [], rest. rewrite app_nil_r. split; [done | lia]. }
  unfold stun_agent_finish_message in H.
  apply bind_inv in H as (c & _ & H). apply bind_inv in H as (me & _ & H).
  match type of H with (match ?x with Some _ => _ | None => _ end) = _ => destruct x end;
    [| injection H as <- <- <-; by split_and!].
  apply bind_inv in H as ([m1 ok] & E1 & H).
  destruct (finish_integrity_extends _ _ _ _ _ _ _ _ _ Hr Hroom Hfit E1)
    as (-> & Ha1 & l1 & r1 & Hr1 & Hz1 & Hf1). cbn [negb] in H.
  destruct (finish_fingerprint_spec agent m1 ty id (l ++ l1) r1 Hr1 Hz1 Hf1) as (b2 & r2 & E2 & Hr2).
  rewrite E2, bind_Done in H. cbn [negb] in H.
  rewrite (stun_message_id_spec _ _ _ _ _ Hr2), bind_Done in H.
  apply bind_inv in H as (me' & _ & H). rewrite (stun_message_length_spec _ _ _ _ _ Hr2), bind_Done in H.
  injection H as <- <- <-. split; [exact Ha1 |]. split; [| exact Hconf].
  rewrite <- app_assoc in *. exists (l1 ++ fpr_attrs agent ty id (l ++ l1)), r2. split; [exact Hr2 | done].
Qed.
End finish.

(** ** Peers

    Transport addresses without a scope; on these [nice_address_equal] compares
    [peer_key]. *)
Definition plain (a : NiceAddress) : Prop :=
  sa_family a = AF_INET ∨ sa_family a = AF_INET6 ∧ sin6_scope_id a = 0.
Definition peer_ok (a : NiceAddress) : Prop := plain a ∧ sockaddr_ok (to_storage a).

Definition peer_key (a : NiceAddress) : Z * Z * bytes :=
  (sa_family a, sa_port a, if sa_family a =? AF_INET then [sa_word a] else s6_addr a).

Lemma equal_key a b : plain a → plain b → nice_address_equal a b = bool_decide (peer_key a = peer_key b).
Proof.
  intros Ha Hb. unfold nice_address_equal, peer_key, scopes_match, IN6_ARE_ADDR_EQUAL.
  destruct (Z.eqb_spec (sa_family a) (sa_family b)) as [E |]; cbn [negb];
    [| symmetry; apply bool_decide_false; congruence].
  rewrite <- E. destruct (Z.eqb_spec (sa_family a) AF_INET) as [Ea | Ea].
  - destruct (Z.eqb_spec (sa_word a) (sa_word b)), (Z.eqb_spec (sa_port a) (sa_port b)); cbn [andb]; symmetry;
      first [apply bool_decide_true; congruence | apply bool_decide_false; congruence].
  - destruct Ha as [? | [Ha6 Hs]]; [done |]. rewrite Ha6, Hs. change (0 =? 0) with true.
    change (AF_INET6 =? AF_INET6) with true. cbn [orb]. rewrite andb_true_r.
    destruct (bool_decide_reflect (s6_addr a = s6_addr b)), (Z.eqb_spec (sa_port a) (sa_port b)); cbn [andb];
      symmetry; first [apply bool_decide_true; congruence | apply bool_decide_false; congruence].
Qed.

Lemma in_list_key l a : Forall plain l → plain a →
  priv_is_peer_in_list l a = bool_decide (peer_key a ∈ peer_key <$> l).
Proof.
  intros Hl Ha. unfold priv_is_peer_in_list. induction Hl as [| b l Hb Hl IH]; cbn [existsb fmap list_fmap].
  - symmetry. apply bool_decide_false, not_elem_of_nil.
  - rewrite IH, equal_key by done.
    destruct (bool_decide_reflect (peer_key b = peer_key a)) as [E1 | E1]; cbn [orb].
    + symmetry. apply bool_decide_true. rewrite <- E1. apply elem_of_cons. by left.
    + apply bool_decide_ext. rewrite elem_of_cons. split; [by right | intros [? |]; [congruence | done]].
Qed.

Section peers.
Context `{!TurnEnv}.

Lemma peer_sockaddr a : peer_ok a → sockaddr_of a = to_storage a.
Proof.
  intros [Ha _]. unfold sockaddr_of, nice_address_is_valid.
  by destruct Ha as [-> | [-> _]].
Qed.

(** The peer that was sent comes back as the same peer. *)
Lemma peer_back a : peer_ok a →
  let a' := nice_address_set_from_sockaddr junk_address (of_storage (addr_norm (to_storage a))) in
  peer_ok a' ∧ peer_key a' = peer_key a.
Proof.
  intros [Ha Hok] a'. unfold a', nice_address_set_from_sockaddr, to_storage, peer_ok, plain, peer_key in *.
  destruct Ha as [Ha | [Ha Hs]]; rewrite Ha in *.
  - change (AF_INET =? AF_INET) with true in *. cbv iota in *. cbn in *. split; [| done].
    split; [by left | exact Hok].
  - change (AF_INET6 =? AF_INET) with false in *. change (AF_INET6 =? AF_INET6) with true in *. cbv iota in *.
    cbn in *. split; [| done]. split; [by right | exact Hok].
Qed.
End peers.

Lemma attr_room_le aligned n : attr_room aligned n ≤ n + 7.
Proof. unfold attr_room. pose proof (stun_padding_range n). destruct aligned; lia. Qed.

Lemma zlen_addr_val a : sockaddr_ok a → zlen (addr_val a) ≤ 20.
Proof. destruct a; cbn -[Z.le zlen]; [done | intros (_ & H & _); slia | done]. Qed.

(** A message about the peer [a]. *)
Section about.
Context `{!TurnEnv}.

Definition about (m : StunMessage) (a : NiceAddress) : Prop :=
  bytes_ok (msg_buffer m) ∧ is_done (stun_message_id m) ∧
  request_peer m = Done (nice_address_set_from_sockaddr junk_address (of_storage (addr_norm (to_storage a)))).

Lemma about_peer m a : about m a → peer_ok a →
  ∃ a', request_peer m = Done a' ∧ peer_ok a' ∧ peer_key a' = peer_key a.
Proof. intros (_ & _ & E) Ha. destruct (peer_back a Ha) as [H1 H2]. eauto. Qed.

Lemma repr_about m ty id l rest a :
  msg_repr m ty id l rest → peer_ok a →
  attr_find l STUN_ATTRIBUTE_XOR_PEER_ADDRESS = Some (addr_val (xor_addr STUN_MAGIC_COOKIE id (to_storage a))) →
  about m a.
Proof.
  intros Hr Ha Hv. split; [by eapply layout_bytes_ok, Hr |].
  split; [eexists; by eapply stun_message_id_spec |]. unfold request_peer.
  change (stun_message_find_xor_addr m) with
    (λ t a n, stun_message_find_xor_addr_full m t a n STUN_MAGIC_COOKIE). cbv beta.
  pose proof (sizeof_addr_range (to_storage a)).
  destruct (find_xor_addr_spec m ty id l rest STUN_ATTRIBUTE_XOR_PEER_ADDRESS (to_storage a) junk_sockaddr
    sizeof_sockaddr_storage STUN_MAGIC_COOKIE Hr) as [_ ->]; [| by apply Ha | unfold sizeof_sockaddr_storage; lia | done].
  unfold value. by rewrite oc2007_other.
Qed.
End about.

(** ** The agent of the RFC 5766 mode *)

Definition turn_conf (agent : StunAgent) : Prop :=
  agent_conf agent = agent_conf (turn_stun_agent NICE_TURN_SOCKET_COMPATIBILITY_RFC5766) ∧
  software_attribute agent = None.

Lemma turn_conf_software agent : turn_conf agent → no_software agent.
Proof. intros [Hc Hs]. unfold no_software, agent_compat, usage. by rewrite Hc, Hs. Qed.

Definition credential_ok (n : Z) (d : option bytes) : Prop :=
  match d with Some b => bytes_ok b ∧ zlen b ≤ n | None => True end.

Lemma credential_octets n d : credential_ok n d → octets_ok d.
Proof. destruct d; [by intros [] | done]. Qed.

Lemma opt_room m n type d : credential_ok n d → 0 ≤ n → data_room m (opt_data type d) ≤ n + 7.
Proof.
  destruct d as [b |]; cbn [opt_data credential_ok]; [| intros; change (data_room m []) with 0; lia].
  intros [_ Hb] Hn. rewrite data_room_cons. change (data_room m []) with 0.
  pose proof (attr_room_le (aligned_of m) (zlen b)). lia.
Qed.
Lemma data_room_app m l1 l2 : data_room m (l1 ++ l2) = data_room m l1 + data_room m l2.
Proof. unfold data_room. induction l1 as [| x l1 IH]; cbn [app foldr]; lia. Qed.

Section requests.
Context `{!TurnEnv} {crypto : Crypto}.
Context (PACKAGE_STRING : bytes).

Lemma zero_buffer_split : zero_buffer = replicate 20 0 ++ replicate (Z.to_nat (STUN_MAX_MESSAGE_SIZE - 20)) 0.
Proof. reflexivity. Qed.

(** A request that carries the peer first or second, and is then finished. *)
Lemma carried_about agent (transid : bytes) pre peer ads password method r n a' m :
  turn_conf agent → zlen transid = 16 → bytes_ok transid → peer_ok peer →
  let id := request_id agent transid in
  Forall (λ x : attr_data, x.1 = STUN_ATTRIBUTE_CHANNEL_NUMBER) pre →
  let data := pre ++ (STUN_ATTRIBUTE_XOR_PEER_ADDRESS, addr_val (xor_addr STUN_MAGIC_COOKIE id (to_storage peer))) :: ads in
  data_room (fresh_msg agent zero_message zero_buffer) data ≤ 65000 →
  carries agent zero_message (replicate 20 0) (replicate (Z.to_nat (STUN_MAX_MESSAGE_SIZE - 20)) 0) transid
    method data password r →
  ends r ∧ (r = Done (n, a', m) → turn_conf a' ∧ (0 < n → about m peer)).
Proof.
  intros [Hconf Hsw] Hid Hidok Hpeer id Hpre data Hroom (b & rest & -> & Hz & Hr).
  set (m0 := fresh_msg agent zero_message zero_buffer) in *.
  change (fresh_msg agent zero_message (replicate 20 0 ++ replicate (Z.to_nat (STUN_MAX_MESSAGE_SIZE - 20)) 0))
    with m0 in *. fold id in Hr.
  assert (Hlen : zlen (attrs_enc (map (data_attr m0 id) data)) = data_room m0 data).
  { unfold data_room. clearbody data. clear. induction data as [| x data IH]; [done |].
    cbn [map foldr]. rewrite attrs_enc_cons, zlen_app, IH. unfold data_attr. by rewrite new_attr_room. }
  rewrite zlen_replicate in Hz. change (Z.of_nat (Z.to_nat (STUN_MAX_MESSAGE_SIZE - 20))) with 65532 in Hz.
  split; [apply ends_finish; eapply layout_bytes_ok, Hr |]. intros E.
  destruct (finish_extends _ _ _ _ _ _ _ _ _ _ Hr ltac:(lia) ltac:(lia) E)
    as (_ & (l' & rest' & Hr' & _) & Hc' & Hs').
  split; [split; congruence |]. intros _. eapply repr_about; [exact Hr' | done |].
  destruct (repr_id _ _ _ _ _ Hr) as [Hid' Hidok'].
  destruct (xor_addr_spec STUN_MAGIC_COOKIE id (to_storage peer) Hid' Hidok') as (Hxok & _); [apply Hpeer |].
  destruct (addr_val_ok _ Hxok) as [_ Hmod]. unfold data. rewrite map_app, <- app_assoc. cbn [map app].
  clear -Hpre Hmod. induction Hpre as [| [t v] pre Ht _ IH].
  - cbn [map app]. unfold data_attr at 1. cbn [fst snd]. rewrite new_attr_mod4 by done. by rewrite oc2007_other.
  - cbn [fst] in Ht. subst t. cbn [map app]. rewrite <- IH. unfold data_attr at 1. cbn [fst snd].
    rewrite oc2007_other by done. unfold new_attr. by repeat case_match.
Qed.

Lemma when_data_true type d l : when_data true type d ++ l = (type, d) :: l.
Proof. done. Qed.

Context (username realm nonce password : option bytes).
Context (Hu : credential_ok 60000 username) (Hre : credential_ok 763 realm) (Hno : credential_ok 763 nonce).

Lemma permission_username_ok agent : credential_ok 60000 (permission_username agent username realm nonce).
Proof. unfold permission_username. by case_match. Qed.

(** A permission request. *)
Lemma permission_request agent transid peer :
  turn_conf agent → zlen transid = 16 → bytes_ok transid → peer_ok peer →
  let r := stun_usage_turn_create_permission PACKAGE_STRING agent zero_message zero_buffer transid
    username password realm nonce (Some (sockaddr_of peer)) STUN_USAGE_TURN_COMPATIBILITY_RFC5766 in
  ends r ∧ ∀ n a' m, r = Done (n, a', m) → turn_conf a' ∧ (0 < n → about m peer).
Proof.
  intros Hc Hid Hidok Hpeer r. set (id := request_id agent transid).
  destruct (xor_addr_spec STUN_MAGIC_COOKIE id (to_storage peer)) as (Hxok & _ & _ & _);
    [by apply request_id_ok.. | apply Hpeer |].
  assert (Hroom : data_room (fresh_msg agent zero_message zero_buffer)
    (permission_data id agent username realm nonce (to_storage peer)) ≤ 65000).
  { unfold permission_data. rewrite !data_room_app.
    pose proof (opt_room (fresh_msg agent zero_message zero_buffer) 763 STUN_ATTRIBUTE_REALM realm Hre).
    pose proof (opt_room (fresh_msg agent zero_message zero_buffer) 763 STUN_ATTRIBUTE_NONCE nonce Hno).
    pose proof (opt_room (fresh_msg agent zero_message zero_buffer) 60000 STUN_ATTRIBUTE_USERNAME _
      (permission_username_ok agent)).
    change (data_room _ []) with 0. cbn [when_data]. rewrite data_room_cons. change (data_room _ []) with 0.
    pose proof (attr_room_le (aligned_of (fresh_msg agent zero_message zero_buffer))
      (zlen (addr_val (xor_addr STUN_MAGIC_COOKIE id (to_storage peer))))).
    pose proof (zlen_addr_val _ Hxok). lia. }
  assert (Hcar : carries agent zero_message (replicate 20 0)
    (replicate (Z.to_nat (STUN_MAX_MESSAGE_SIZE - 20)) 0) transid STUN_CREATEPERMISSION
    (permission_data id agent username realm nonce (to_storage peer)) password r).
  { unfold r, stun_usage_turn_create_permission. rewrite peer_sockaddr, zero_buffer_split by done.
    apply carries_built; try done.
    - by apply turn_conf_software.
    - apply Forall_replicate. by_compute.
    - apply emits_permission; try done; [apply Hpeer | by eapply credential_octets.. | by apply request_id_ok | by apply request_id_ok].
    - rewrite zero_buffer_split in Hroom. fold id. split; [| lia]. rewrite zlen_replicate.
      change (Z.of_nat (Z.to_nat (STUN_MAX_MESSAGE_SIZE - 20))) with 65532. lia. }
  assert (H0 : ∀ n a' m, ends r ∧ (r = Done (n, a', m) → turn_conf a' ∧ (0 < n → about m peer))).
  { intros n a' m. by eapply (carried_about agent transid [] peer); [.. | exact Hroom | exact Hcar]. }
  split; [by apply (H0 0 agent zero_message) | intros n a' m; apply H0].
Qed.

Lemma nonempty_some d b : nonempty d = Some b → d = Some b.
Proof. destruct d as [x |]; cbn [nonempty]; [| done]. by destruct (0 <? zlen x). Qed.

(** The attributes of a channel request: the channel, the peer, and the
    credentials when all three are known. *)
Definition channel_bind_data (id : bytes) (channel : Z) (peer : NiceAddress) : list attr_data :=
  [(STUN_ATTRIBUTE_CHANNEL_NUMBER, be 4 (u32 (channel * 2 ^ 16)))] ++
  (STUN_ATTRIBUTE_XOR_PEER_ADDRESS, addr_val (xor_addr STUN_MAGIC_COOKIE id (to_storage peer))) ::
  match nonempty username, nonempty realm, nonempty nonce with
  | Some u, Some r, Some n =>
      [(STUN_ATTRIBUTE_USERNAME, u); (STUN_ATTRIBUTE_REALM, r); (STUN_ATTRIBUTE_NONCE, n)]
  | _, _, _ => []
  end.

Lemma emits_channel_bind m0 id channel peer :
  zlen id = 16 → bytes_ok id → peer_ok peer →
  emits m0 id (channel_bind_attributes username realm nonce channel peer) (channel_bind_data id channel peer).
Proof.
  intros Hid Hidok Hpeer. unfold channel_bind_attributes, channel_bind_data. rewrite peer_sockaddr by done.
  destruct (xor_addr_spec STUN_MAGIC_COOKIE id (to_storage peer) Hid Hidok) as (Hxok & _); [apply Hpeer |].
  apply (emits_when32 m0 id true); [done |].
  apply (emits_when m0 id true _ _ STUN_ATTRIBUTE_PEER_ADDRESS);
    [| split; [by apply oc2007_u16 | by apply addr_val_ok] |].
  { apply appends_xor_addr; [apply Hpeer |]. pose proof (sizeof_addr_range (to_storage peer)).
    unfold sizeof_sockaddr_storage. lia. }
  destruct (nonempty username) as [u |] eqn:Eu, (nonempty realm) as [r |] eqn:Er, (nonempty nonce) as [n |] eqn:En;
    try apply emits_done.
  apply nonempty_some in Eu as Eu'. apply nonempty_some in Er as Er'. apply nonempty_some in En as En'.
  rewrite Eu', Er', En' in *. destruct Hu as [Hu' _], Hre as [Hre' _], Hno as [Hno' _].
  assert (Hd : ∀ t v, is_u16 t → bytes_ok v → data_ok m0 (t, v)) by (by split; [apply oc2007_u16 |]).
  apply (emits_some m0 id _ _ (Some u)); [intros d [= <-]; by apply Hd |].
  apply (emits_some m0 id _ _ (Some r)); [intros d [= <-]; by apply Hd |].
  apply (emits_some m0 id _ _ (Some n)); [intros d [= <-]; by apply Hd | apply emits_done].
Qed.

Lemma channel_bind_room m id channel peer :
  zlen id = 16 → bytes_ok id → peer_ok peer → data_room m (channel_bind_data id channel peer) ≤ 65000.
Proof.
  intros Hid Hidok Hpeer. unfold channel_bind_data.
  destruct (xor_addr_spec STUN_MAGIC_COOKIE id (to_storage peer) Hid Hidok) as (Hxok & _); [apply Hpeer |].
  pose proof (zlen_addr_val _ Hxok). cbn [app]. rewrite !data_room_cons, zlen_be4.
  set (a := zlen (addr_val _)) in *.
  pose proof (attr_room_le (aligned_of m) a). pose proof (attr_room_le (aligned_of m) 4).
  destruct (nonempty username) as [u |] eqn:Eu, (nonempty realm) as [r |] eqn:Er, (nonempty nonce) as [n |] eqn:En;
    try (change (data_room m []) with 0; lia).
  apply nonempty_some in Eu. apply nonempty_some in Er. apply nonempty_some in En. rewrite Eu, Er, En in *.
  destruct Hu, Hre, Hno. rewrite !data_room_cons. change (data_room m []) with 0.
  pose proof (attr_room_le (aligned_of m) (zlen u)). pose proof (attr_room_le (aligned_of m) (zlen r)).
  pose proof (attr_room_le (aligned_of m) (zlen n)). lia.
Qed.

(** A channel request. *)
Lemma channel_request agent transid channel peer :
  turn_conf agent → zlen transid = 16 → bytes_ok transid → peer_ok peer →
  ∃ m0 m1, stun_agent_init_request PACKAGE_STRING agent zero_message zero_buffer STUN_CHANNELBIND transid
      = Done (m0, true) ∧
    channel_bind_attributes username realm nonce channel peer m0 = Done (m1, true) ∧
    ends (stun_agent_finish_message agent m1 password) ∧
    ∀ n a' m, stun_agent_finish_message agent m1 password = Done (n, a', m) →
      turn_conf a' ∧ (0 < n → about m peer).
Proof.
  intros Hc Hid Hidok Hpeer. set (id := request_id agent transid).
  destruct (request_id_ok agent transid Hid Hidok) as [Hi Hiok]. fold id in Hi, Hiok.
  rewrite zero_buffer_split.
  destruct (init_request_spec PACKAGE_STRING agent zero_message (replicate 20 0)
    (replicate (Z.to_nat (STUN_MAX_MESSAGE_SIZE - 20)) 0) transid) with (m := STUN_CHANNELBIND)
    as (b0 & -> & Hr); [by apply turn_conf_software | done | apply Forall_replicate; by_compute | done | done |].
  set (m0 := fresh_msg agent zero_message _) in *. fold id in Hr.
  pose proof (channel_bind_room m0 id channel peer Hi Hiok Hpeer) as Hroom.
  destruct (emits_channel_bind m0 id channel peer Hi Hiok Hpeer b0 _ _ _ Hr) as (b1 & rest & E1 & Hz & Hr1).
  { rewrite zlen_replicate. change (Z.of_nat (Z.to_nat (STUN_MAX_MESSAGE_SIZE - 20))) with 65532. lia. }
  { change (zlen (attrs_enc [])) with 0. lia. }
  eexists _, (m0 <| msg_buffer := b1 |>). split; [done |]. split; [exact E1 |].
  set (r := stun_agent_finish_message _ _ _).
  assert (H0 : ∀ n a' m, ends r ∧ (r = Done (n, a', m) → turn_conf a' ∧ (0 < n → about m peer))).
  { intros n a' m. eapply (carried_about agent transid
      [(STUN_ATTRIBUTE_CHANNEL_NUMBER, be 4 (u32 (channel * 2 ^ 16)))] peer _ password STUN_CHANNELBIND r n a' m);
      [done | done | done | done | by repeat constructor | exact Hroom |].
    exists b1, rest. split_and!; [done | exact Hz | exact Hr1]. }
  split; [by apply (H0 0 agent zero_message) | intros n a' m; apply H0].
Qed.
End requests.
