(* ===== verification/UdpTurnInv.v ===== *)
(** * The invariant of a TURN socket

    In the RFC 5766 and draft modes, over any base socket whose calls end: what
    holds between the calls of a TURN socket, and that every call ends. *)

From S2P Require Import Prelude Bytes StateMonad StunCrc32 StunMessage StunFacts StunHmac StunAgent StunAgentTrans StunAuth StunTimer StunIce StunTurn StunTurnFacts StunEnds NiceAddress NiceSocket TurnTcp UdpTurn UdpTurnBuild.

(** The buffers of messages hold octets, and the length is a [gsize]. *)
Definition input_octets (m : NiceInputMessage) : Prop :=
  Forall (λ v, bytes_ok (iv_buffer v)) (im_buffers m) ∧ im_length m < 2 ^ 64.

(** Calls of the base socket end; what it hands up are octets. *)
Class EndingSocket (S : Type) `{!NiceSocket S} : Prop := {
  is_reliable_ends : ∀ s : S, is_reliable s ≠ Oof;
  send_ends : ∀ to ms (s : S), send_messages to ms s ≠ Oof;
  send_reliable_ends : ∀ to ms (s : S), send_messages_reliable to ms s ≠ Oof;
  recv_ends : ∀ ms (s : S), Forall input_octets ms →
    runs (recv_messages ms) (λ r _, Forall input_octets r.2) s
}.

(** ** Lists of peers *)

Definition keys (l : list NiceAddress) : list (Z * Z * bytes) := peer_key <$> l.

Lemma keys_delete l i : keys (delete i l) = delete i (keys l).
Proof. apply list_fmap_delete. Qed.

Lemma remove_loop_none fuel l i peer :
  (∀ j a, (i ≤ j)%nat → l !! j = Some a → nice_address_equal a peer = false) →
  (length l - i < fuel)%nat → remove_loop fuel l i peer = Done l.
Proof.
  revert i. induction fuel as [| fuel IH]; intros i Hno Hf; [lia |]. cbn [remove_loop].
  destruct (l !! i) as [a |] eqn:E; [| done]. rewrite (Hno i a) by done.
  apply lookup_lt_Some in E. apply IH; [| lia]. intros j b Hj. apply Hno. lia.
Qed.

Lemma remove_loop_spec fuel l i peer :
  plain peer → Forall plain l → NoDup (keys l) →
  (∀ j a, (j < i)%nat → l !! j = Some a → peer_key a ≠ peer_key peer) →
  (length l - i + length l < fuel)%nat →
  ∃ l', remove_loop fuel l i peer = Done l' ∧ l' `sublist_of` l ∧
    ∀ a, a ∈ l' ↔ a ∈ l ∧ peer_key a ≠ peer_key peer.
Proof.
  intros Hp Hl Hnd. revert i. induction fuel as [| fuel IH]; intros i Hno Hf; [lia |]. cbn [remove_loop].
  destruct (l !! i) as [a |] eqn:E.
  2:{ exists l. split; [done |]. split; [done |]. intros a. split; [| tauto]. intros Ha. split; [done |].
      apply list_elem_of_lookup in Ha as [j Hj]. apply (Hno j); [| done].
      apply lookup_ge_None in E. apply lookup_lt_Some in Hj. lia. }
  assert (Ha : plain a) by (rewrite Forall_forall in Hl; apply Hl; by eapply list_elem_of_lookup_2).
  pose proof (lookup_lt_Some _ _ _ E) as Hi. rewrite equal_key by done.
  destruct (bool_decide_reflect (peer_key a = peer_key peer)) as [Ek | Ek].
  2:{ apply IH; [| lia]. intros j b Hj Hb. destruct (decide (j = i)) as [-> |]; [congruence |].
      apply (Hno j); [lia | done]. }
  assert (Hout : ∀ j b, l !! j = Some b → peer_key b = peer_key peer → j = i).
  { intros j b Hj Hb. eapply (NoDup_lookup (keys l)); [exact Hnd | |].
    - unfold keys. rewrite list_lookup_fmap, Hj. cbn. reflexivity.
    - unfold keys. rewrite list_lookup_fmap, E. cbn. congruence. }
  exists (delete i l).
  assert (Hmem : ∀ b, b ∈ delete i l ↔ b ∈ l ∧ peer_key b ≠ peer_key peer).
  { intros b. split.
    - intros Hb. apply list_elem_of_lookup in Hb as [j Hj].
      destruct (decide (j < i)%nat) as [Hji | Hji].
      + rewrite list_lookup_delete_lt in Hj by done. split; [by eapply list_elem_of_lookup_2 |].
        intros Hk. apply (Hout j b Hj) in Hk. lia.
      + rewrite list_lookup_delete_ge in Hj by lia. split; [by eapply list_elem_of_lookup_2 |].
        intros Hk. apply (Hout _ b Hj) in Hk. lia.
    - intros [Hb Hk]. apply list_elem_of_lookup in Hb as [j Hj].
      assert (j ≠ i) by (intros ->; congruence).
      destruct (decide (j < i)%nat) as [Hji | Hji].
      + apply (list_elem_of_lookup_2 _ j). by rewrite list_lookup_delete_lt.
      + apply (list_elem_of_lookup_2 _ (pred j)). rewrite list_lookup_delete_ge by lia.
        by replace (S (pred j)) with j by lia. }
  split; [| split; [apply sublist_delete | done]].
  destruct i as [| i]; [done |]. apply remove_loop_none.
  - intros j b Hj Hb. apply list_elem_of_lookup_2, Hmem in Hb as [Hb Hk].
    rewrite equal_key by (try done; rewrite Forall_forall in Hl; by apply Hl).
    by apply bool_decide_false.
  - rewrite length_delete by done. lia.
Qed.

Lemma remove_peer_spec l peer :
  plain peer → Forall plain l → NoDup (keys l) →
  ∃ l', priv_remove_peer_from_list l peer = Done l' ∧ l' `sublist_of` l ∧
    ∀ a, a ∈ l' ↔ a ∈ l ∧ peer_key a ≠ peer_key peer.
Proof. intros. apply remove_loop_spec; try done; [lia |]. nia. Qed.

(** ** The table of queues *)

Section queues.
Implicit Types (qs : list (NiceAddress * list SendData)).

Definition queue_keys qs : list (Z * Z * bytes) := keys (fst <$> qs).

Lemma queue_push_keys qs to d :
  plain to → Forall plain (fst <$> qs) →
  queue_keys (queue_push qs to d)
    = if bool_decide (peer_key to ∈ queue_keys qs) then queue_keys qs else queue_keys qs ++ [peer_key to].
Proof.
  intros Ht. induction qs as [| [a q] qs IH]; [done |]. cbn [fmap list_fmap fst]. intros [Ha Hqs]%Forall_cons.
  cbn [queue_push]. rewrite equal_key by done.
  destruct (bool_decide_reflect (peer_key a = peer_key to)) as [E | E].
  - rewrite bool_decide_true; [done |]. rewrite <- E. apply elem_of_cons. by left.
  - change (queue_keys ((a, q) :: queue_push qs to d)) with (peer_key a :: queue_keys (queue_push qs to d)).
    rewrite IH by done. change (queue_keys ((a, q) :: qs)) with (peer_key a :: queue_keys qs).
    case_bool_decide as E1.
    + rewrite bool_decide_true; [done |]. apply elem_of_cons. by right.
    + rewrite bool_decide_false; [done |]. rewrite elem_of_cons. intros [? |]; [congruence | done].
Qed.

Lemma queue_push_peers qs to d a q :
  (a, q) ∈ queue_push qs to d → a ∈ fst <$> qs ∨ a = to.
Proof.
  induction qs as [| [b r] qs IH]; cbn [queue_push].
  - intros H%list_elem_of_singleton. injection H as -> _. by right.
  - destruct (nice_address_equal b to).
    + intros [E | H]%elem_of_cons; left; apply elem_of_cons; [left; by injection E | right].
      apply list_elem_of_fmap. by exists (a, q).
    + intros [E | H]%elem_of_cons; [left; apply elem_of_cons; left; by injection E |].
      apply IH in H as [? | ?]; [left; apply elem_of_cons; by right | by right].
Qed.

Lemma queue_remove_sublist qs to : queue_remove qs to `sublist_of` qs.
Proof.
  induction qs as [| [a q] qs IH]; [done |]. cbn [queue_remove].
  destruct (nice_address_equal a to); [by apply sublist_cons | by apply sublist_skip].
Qed.

Lemma queue_remove_keys qs to a :
  plain to → Forall plain (fst <$> qs) → NoDup (queue_keys qs) →
  a ∈ fst <$> queue_remove qs to → peer_key a ≠ peer_key to.
Proof.
  intros Ht. induction qs as [| [b q] qs IH]; [by intros _ _ ?%elem_of_nil |]. cbn [fmap list_fmap fst queue_remove].
  intros [Hb Hqs]%Forall_cons Hnd. change (NoDup (peer_key b :: queue_keys qs)) in Hnd.
  apply NoDup_cons in Hnd as [Hnin Hnd]. rewrite equal_key by done.
  destruct (bool_decide_reflect (peer_key b = peer_key to)) as [E | E].
  - intros Ha Ek. apply Hnin. rewrite E, <- Ek. unfold queue_keys, keys. by apply list_elem_of_fmap_2.
  - cbn [fmap list_fmap fst]. intros [-> | Ha]%elem_of_cons; [done | by apply IH].
Qed.

Lemma queue_lookup_none qs to :
  plain to → Forall plain (fst <$> qs) → queue_lookup qs to = None → peer_key to ∉ queue_keys qs.
Proof.
  intros Ht Hqs Hn Hin. unfold queue_lookup in Hn. apply fmap_None in Hn.
  apply list_elem_of_fmap in Hin as (a & Ek & ((b & q) & -> & Hin)%list_elem_of_fmap).
  eapply List.find_none in Hn; [| by apply list_elem_of_In]. cbn [fst] in *.
  rewrite equal_key, bool_decide_true in Hn; try done.
  rewrite Forall_forall in Hqs. apply Hqs, list_elem_of_fmap. by exists (b, q).
Qed.
End queues.

(** ** Timers *)

Definition timer_ok (t : StunTimer) : Prop := 1 ≤ retransmissions t ∧ max_retransmissions t ≤ 7.
Definition fresh (now : timeval) (t : StunTimer) : Prop := 0 < stun_timer_remainder t now.
#[export] Instance fresh_dec now t : Decision (fresh now t).
Proof. unfold fresh. apply _. Defined.

Lemma remainder_nonneg t now : 0 ≤ stun_timer_remainder t now.
Proof. unfold stun_timer_remainder. repeat case_match; try done; apply u32_range. Qed.

Lemma start_fresh now d max t :
  clock_ok now → 2 ≤ d < 2 ^ 30 → max ≤ 7 → stun_timer_start now d max = Done t → timer_ok t ∧ fresh now t.
Proof.
  intros Hn Hd Hmax. unfold stun_timer_start.
  destruct (add_delay_spec now d) as (r & -> & Hus & Hok); [apply Hn | lia |].
  rewrite bind_Done. intros [= <-]. split; [by split |]. unfold fresh.
  destruct (stun_timer_remainder_spec {| deadline := r; delay := d; retransmissions := 1;
    max_retransmissions := max |} now) as [_ H]; cbn [deadline]; [done | done | lia |].
  cbn [deadline] in H. lia.
Qed.

(** An expired timer: the next turn, or the end. *)
Lemma refresh_expired_cases t now t' v :
  timer_ok t → ¬ fresh now t → stun_timer_refresh t now = Done (t', v) →
  (v = STUN_USAGE_TIMER_RETURN_TIMEOUT ∧ t' = t) ∨
  (v = STUN_USAGE_TIMER_RETURN_RETRANSMIT ∧ timer_ok t' ∧ retransmissions t < 7 ∧
   retransmissions t' = retransmissions t + 1).
Proof.
  intros [Hr Hm] Hf. unfold fresh in Hf. pose proof (remainder_nonneg t now).
  unfold stun_timer_refresh. replace (stun_timer_remainder t now =? 0) with true by lia.
  destruct (Z.leb_spec (max_retransmissions t) (retransmissions t)).
  - intros [= <- <-]. by left.
  - destruct (add_delay _ _) as [d | |]; [rewrite bind_Done | done | done]. intros [= <- <-]. right.
    unfold timer_ok. cbn [retransmissions max_retransmissions]. rewrite u32_small by (unfold is_u32; lia).
    split_and!; try done; lia.
Qed.
Lemma refresh_keeps_ok t now t' v : timer_ok t → stun_timer_refresh t now = Done (t', v) → timer_ok t'.
Proof.
  intros Ht E. destruct (decide (0 < stun_timer_remainder t now)) as [Hf | Hf].
  - unfold stun_timer_refresh in E. replace (stun_timer_remainder t now =? 0) with false in E by lia.
    by injection E as <- _.
  - destruct (refresh_expired_cases t now t' v Ht Hf E) as [[_ ->] | (_ & ? & _)]; done.
Qed.

(** ** The invariant *)

Section inv.
Context {S : Type} `{!NiceSocket S, !Malloc, !TurnEnv} {crypto : Crypto}.
Implicit Types (p : UdpTurnPriv S).

(** Channels are numbered from 0x4000 on, each with a timeout; the next number
    is the one being asked for. *)
Record channels_inv (chs : list ChannelBinding) (cur : option ChannelBinding) : Prop := {
  ci_numbers : ∀ i b, chs !! i = Some b → cb_channel b = 0x4000 + Z.of_nat i;
  ci_timeouts : Forall (λ b, is_Some (cb_timeout_source b)) chs;
  ci_peers : Forall (λ b, peer_ok (cb_peer b)) chs;
  ci_bound : 0x4000 + zlen chs ≤ 0xffff;
  ci_current : ∀ b, cur = Some b →
    cb_channel b = 0x4000 + zlen chs ∧ cb_channel b < 0xffff ∧ cb_timeout_source b = None ∧ peer_ok (cb_peer b)
}.

(** A request in flight. *)
Definition message_inv (m : TURNMessage) (a : NiceAddress) : Prop :=
  about (tm_message m) a ∧ peer_ok a ∧ timer_ok (tm_timer m).

(** Permission requests are for different peers, all of them counted as asked
    for; data wait only for peers asked for. *)
Record perms_inv (pend : list TURNMessage) (sent : list NiceAddress)
    (queues : list (NiceAddress * list SendData)) : Prop := {
  pi_sent : Forall peer_ok sent;
  pi_sent_nodup : NoDup (keys sent);
  pi_pending : ∃ peers, Forall2 message_inv pend peers ∧ NoDup (keys peers) ∧ keys peers ⊆ keys sent;
  pi_queues : Forall peer_ok (fst <$> queues);
  pi_queues_nodup : NoDup (queue_keys queues);
  pi_queues_sent : queue_keys queues ⊆ keys sent
}.

(** Where the socket keeps the number of a timeout. *)
Definition referenced p (id : Z) : Prop :=
  (∃ b, b ∈ channels p ∧ cb_timeout_source b = Some id) ∨
  tick_source_channel_bind p = Some id ∨ tick_source_create_permission p = Some id ∨
  (∃ r, r ∈ send_requests p ∧ sr_source r = id) ∨ permission_timeout_source p = Some id.

Record turn_inv p : Prop := {
  ti_mode : turn_standard (ut_compatibility p) = true;
  ti_conf : turn_conf (ut_agent p);
  ti_user : credential_ok 60000 (ut_username p);
  ti_realm : credential_ok 763 (cached_realm p);
  ti_nonce : credential_ok 763 (cached_nonce p);
  ti_channels : channels_inv (channels p) (current_binding p);
  ti_waiting : Forall peer_ok (pending_bindings p);
  ti_message : ∀ m, current_binding_msg p = Some m → ∃ a, message_inv m a;
  ti_perms : perms_inv (pending_permissions p) (sent_permissions p) (send_data_queues p);
  ti_granted : Forall peer_ok (permissions p);
  ti_sources : Forall (λ s, referenced p (gs_id s)) (sources p)
}.

Lemma peer_ok_plain l : Forall peer_ok l → Forall plain l.
Proof. intros Hl. eapply List.Forall_impl; [| exact Hl]. by intros a []. Qed.

(** ** Channel numbers *)

Lemma channel_loop_spec l i k fuel :
  (∀ j b, l !! j = Some b → cb_channel b = 0x4000 + Z.of_nat j) → 0x4000 + zlen l ≤ 0xffff →
  (1 ≤ i ≤ k)%nat → (k ≤ length l)%nat →
  ((length l - k) * Datatypes.S (length l) + (length l - i) < fuel)%nat →
  channel_loop fuel l i (0x4000 + Z.of_nat k) = Done (0x4000 + zlen l).
Proof.
  intros Hnum Hb. revert i k. induction fuel as [| fuel IH]; intros i k Hik Hk Hf; [by apply Nat.nlt_0_r in Hf |]. cbn [channel_loop].
  destruct (l !! i) as [b |] eqn:E.
  - pose proof (lookup_lt_Some _ _ _ E). rewrite (Hnum _ _ E).
    destruct (Z.eqb_spec (0x4000 + Z.of_nat k) (0x4000 + Z.of_nat i)) as [Eq | Eq].
    + assert (i = k) as -> by lia. rewrite u16_small by (unfold is_u16, zlen in *; lia).
      replace (0x4000 + Z.of_nat k + 1) with (0x4000 + Z.of_nat (Datatypes.S k)) by lia.
      apply IH; [lia | lia | nia].
    + apply IH; [lia | lia | nia].
  - apply lookup_ge_None in E. unfold zlen. unfold mret, outcome_ret. do 2 f_equal. lia.
Qed.

Lemma free_channel_spec l cur : channels_inv l cur → free_channel l = Done (0x4000 + zlen l).
Proof.
  intros [Hnum _ _ Hb _]. unfold free_channel. destruct l as [| b l].
  - reflexivity.
  - set (L := b :: l) in *.
    assert (Hf : (length L * Datatypes.S (length L) + length L
      < pred (Datatypes.S (Datatypes.S (length L)) * Datatypes.S (Datatypes.S (length L))))%nat) by nia.
    destruct (Datatypes.S (Datatypes.S (length L)) * Datatypes.S (Datatypes.S (length L)))%nat as [| f]; [lia |].
    cbn [channel_loop pred] in *. change (L !! 0%nat) with (Some b). cbv iota beta.
    rewrite (Hnum 0%nat b eq_refl). change (0x4000 =? 0x4000 + Z.of_nat 0) with true. cbv iota.
    change (u16 (0x4000 + 1)) with (0x4000 + Z.of_nat 1).
    apply channel_loop_spec; [done | done | lia | unfold L; cbn; lia |]. nia.
Qed.
End inv.

(** ** The steps that touch one field *)

Lemma runs_lift_ends {S A} (m : outcome A) (Q : A → S → Prop) (s : S) :
  ends m → (∀ a, m = Done a → Q a s) → runs (lift m) Q s.
Proof. apply runs_lift. Qed.

Section steps.
Context {S : Type} `{!NiceSocket S, !EndingSocket S, !Malloc, !TurnEnv} {crypto : Crypto}.
Context (PACKAGE_STRING : bytes).
Implicit Types (p : UdpTurnPriv S).

Lemma base_eta p : p <| ut_base := ut_base p |> = p.
Proof. by destruct p. Qed.
Lemma sources_eta p : p <| sources := sources p |> = p.
Proof. by destruct p. Qed.

Lemma runs_reliable (Q : bool → UdpTurnPriv S → Prop) p : (∀ r, Q r p) → runs base_is_reliable Q p.
Proof.
  intros HQ. unfold runs, base_is_reliable, nice_socket_is_reliable.
  destruct (ut_base p) as [b |]; [| done]. pose proof (is_reliable_ends b).
  by destruct (is_reliable b); cbn.
Qed.

Lemma runs_on_base {A} (m : st S A) (Q : A → UdpTurnPriv S → Prop) p :
  (∀ s, m s ≠ Oof) → (∀ a b, Q a (p <| ut_base := b |>)) → runs (on ut_base (on_base m)) Q p.
Proof.
  intros Hm HQ. unfold runs, on, on_base. destruct (ut_base p) as [s |]; [| done].
  specialize (Hm s). by destruct (m s) as [[a s'] | |]; cbn.
Qed.

Lemma runs_send (reliable : bool) to ms (Q : Z → UdpTurnPriv S → Prop) p :
  (∀ r b, Q r (p <| ut_base := b |>)) →
  runs (on ut_base (if reliable then nice_socket_send_messages_reliable to ms
                    else nice_socket_send_messages to ms)) Q p.
Proof.
  intros HQ. unfold runs, on, nice_socket_send_messages_reliable, nice_socket_send_messages, on_base.
  destruct (ut_base p) as [s |] eqn:E; [| destruct reliable; apply HQ].
  pose proof (send_ends to ms s). pose proof (send_reliable_ends to ms s).
  destruct reliable; [by destruct (send_messages_reliable to ms s) as [[a s'] | |]; cbn
    | by destruct (send_messages to ms s) as [[a s'] | |]; cbn].
Qed.

Lemma runs_wrapped to m reliable (Q : Z → UdpTurnPriv S → Prop) p :
  (∀ r b, Q r (p <| ut_base := b |>)) → runs (socket_send_messages_wrapped to m reliable) Q p.
Proof.
  intros HQ. unfold socket_send_messages_wrapped. runs_steps. apply runs_reliable. intros [|]; cbn [negb].
  - runs_steps. apply runs_assert. intros _. runs_steps. apply runs_send. intros r b. runs_steps. apply HQ.
  - by apply runs_send.
Qed.

Lemma runs_send_wrapped to buf reliable (Q : Z → UdpTurnPriv S → Prop) p :
  (∀ r b, Q r (p <| ut_base := b |>)) → runs (socket_send_wrapped to buf reliable) Q p.
Proof.
  intros HQ. unfold socket_send_wrapped. runs_steps. apply runs_reliable. intros [|]; cbn [negb].
  - runs_steps. apply runs_send. intros r b. runs_steps. apply HQ.
  - runs_steps. apply runs_wrapped. intros r b. runs_steps. apply HQ.
Qed.

Lemma runs_send_request buf (Q : Z → UdpTurnPriv S → Prop) p :
  (∀ r b, Q r (p <| ut_base := b |>)) → runs (send_request buf) Q p.
Proof.
  intros HQ. unfold send_request. runs_steps. apply runs_reliable. intros [|]; [by apply runs_send_wrapped |].
  runs_steps. apply runs_send_wrapped. intros r b. destruct (r <? 0); [| by runs_steps].
  apply runs_send_wrapped. intros r' b'. exact (HQ r' b').
Qed.

Lemma runs_start_timer now (Q : StunTimer → UdpTurnPriv S → Prop) p :
  clock_ok now → (∀ t, timer_ok t → fresh now t → Q t p) → runs (start_timer now) Q p.
Proof.
  intros Hn HQ. unfold start_timer. runs_steps. apply runs_reliable.
  intros r. apply runs_lift.
  - assert (∀ d max, ends (stun_timer_start now d max)) as Hs by (intros; unfold stun_timer_start; ends).
    destruct r; apply Hs.
  - intros t Et. destruct r; apply start_fresh in Et as [Hok Hf]; try done; by apply HQ.
Qed.

Lemma runs_dequeue_loop q (Q : unit → UdpTurnPriv S → Prop) p :
  (∀ b, Q tt (p <| ut_base := b |>)) → runs (dequeue_loop q) Q p.
Proof.
  revert p. induction q as [| d q IH]; intros p HQ; cbn [dequeue_loop].
  - rewrite <- (base_eta p). apply HQ.
  - runs_steps. apply runs_send_wrapped. intros r b. apply IH. intros b'. exact (HQ b').
Qed.

Lemma queue_remove_none (qs : list (NiceAddress * list SendData)) to :
  queue_lookup qs to = None → queue_remove qs to = qs.
Proof.
  unfold queue_lookup. rewrite fmap_None. induction qs as [| [a q] qs IH]; [done |].
  cbn [List.find queue_remove fst]. destruct (nice_address_equal a to); [done |]. intros E. by rewrite IH.
Qed.

Lemma runs_dequeue to (Q : unit → UdpTurnPriv S → Prop) p :
  (∀ b, Q tt (p <| ut_base := b |> <| send_data_queues := queue_remove (send_data_queues p) to |>)) →
  runs (socket_dequeue_all_data to) Q p.
Proof.
  intros HQ. unfold socket_dequeue_all_data. runs_steps.
  destruct (queue_lookup (send_data_queues p) to) as [q |] eqn:E.
  - runs_steps. apply runs_dequeue_loop. intros b. runs_steps. apply HQ.
  - runs_steps. specialize (HQ (ut_base p)). rewrite base_eta, queue_remove_none in HQ by done.
    by destruct p.
Qed.

Definition destroyed (id : option Z) (l : list GSource) : list GSource :=
  match id with Some id => List.filter (λ s, negb (gs_id s =? id)) l | None => l end.

Lemma runs_destroy id (Q : unit → UdpTurnPriv S → Prop) p :
  Q tt (p <| sources := destroyed id (sources p) |>) → runs (source_destroy id) Q p.
Proof. intros HQ. destruct id; [exact HQ |]. cbn [destroyed] in HQ. by rewrite sources_eta in HQ. Qed.

Lemma destroyed_forall (P : GSource → Prop) id l :
  Forall P l → Forall (λ s, P s ∧ id ≠ Some (gs_id s)) (destroyed id l).
Proof.
  intros Hl. rewrite Forall_forall in *. intros s Hs. destruct id as [id |]; cbn [destroyed] in Hs.
  - apply list_elem_of_In, List.filter_In in Hs as [Hs Hid]. split; [by apply Hl, list_elem_of_In |].
    intros [= ->]. by rewrite Z.eqb_refl in Hid.
  - by split; [apply Hl |].
Qed.

Lemma runs_source_add n f (Q : Z → UdpTurnPriv S → Prop) p :
  Q (next_source p) (p <| next_source := next_source p + 1 |>
    <| sources := sources p ++ [{| gs_id := next_source p; gs_interval := n; gs_function := f |}] |>) →
  runs (source_add n f) Q p.
Proof. done. Qed.

Lemma runs_draw (Q : bytes → UdpTurnPriv S → Prop) p :
  Q (make_transid (next_transid p)) (p <| next_transid := next_transid p + 1 |>) → runs draw_transid Q p.
Proof. done. Qed.
End steps.

(** Fields of the invariant that the last steps did not touch. *)
Ltac keep H := destruct H as [? ? ? ? ? ? ? ? ? ? ?]; split; try assumption.
