(* ===== verification/UdpTurnRuns.v ===== *)
(** * Every call of a TURN socket ends and keeps the invariant *)

From S2P Require Import Prelude Bytes StateMonad StunCrc32 StunMessage StunFacts StunHmac StunAgent StunAgentTrans StunAuth StunTimer StunIce StunTurn StunTurnFacts StunEnds NiceAddress NiceSocket TurnTcp UdpTurn UdpTurnBuild UdpTurnInv.

Section runs.
Context {S : Type} `{!NiceSocket S, !EndingSocket S, !Malloc, !TurnEnv} {crypto : Crypto}.
Context (PACKAGE_STRING : bytes).
Context (now : timeval) (Hnow : clock_ok now).
Implicit Types (p : UdpTurnPriv S).

(** Permission requests that are not due stay. *)
Definition keeps_fresh p p' : Prop :=
  ∀ m, m ∈ pending_permissions p → fresh now (tm_timer m) → m ∈ pending_permissions p'.
Definition same_bindings p p' : Prop :=
  channels p' = channels p ∧ current_binding p' = current_binding p ∧
  pending_bindings p' = pending_bindings p.
Definition request_fresh p : Prop :=
  ∃ m, current_binding_msg p = Some m ∧ fresh now (tm_timer m).

Lemma keeps_same p p' : pending_permissions p' = pending_permissions p → keeps_fresh p p'.
Proof. by intros E m Hm _; rewrite E. Qed.
Lemma keeps_trans p1 p2 p3 : keeps_fresh p1 p2 → keeps_fresh p2 p3 → keeps_fresh p1 p3.
Proof. intros H1 H2 m Hm Hf. by apply H2, Hf; apply H1. Qed.

Section tick.
Context (sched : st (UdpTurnPriv S) unit).
Context (Hsched : ∀ p, turn_inv p → request_fresh p →
  runs sched (λ _ p', turn_inv p' ∧ same_bindings p p' ∧ request_fresh p' ∧ keeps_fresh p p') p).

Lemma send_turn_message_runs msg a p :
  turn_inv p → about msg a → peer_ok a →
  runs (priv_send_turn_message now sched msg)
    (λ _ p', turn_inv p' ∧ same_bindings p p' ∧ request_fresh p' ∧ keeps_fresh p p') p.
Proof.
  intros Hp Hm Ha. unfold priv_send_turn_message. runs_steps. apply runs_lift; [unfold message_octets; apply ends_bind; ends |].
  intros buf _. runs_steps. apply runs_send_request. intros r b. runs_steps.
  apply runs_start_timer; [done |]. intros t Ht Hf. runs_steps.
  set (m := {| tm_message := msg; tm_timer := t |}).
  eapply runs_mono; [apply Hsched; [| by exists m] | done].
  keep Hp. intros m' [= <-]. by exists a.
Qed.

Lemma runs_lift_done {A} (m : outcome A) a (Q : A → UdpTurnPriv S → Prop) p :
  m = Done a → Q a p → runs (lift m) Q p.
Proof. by intros ->. Qed.

Lemma send_channel_bind_runs channel peer p :
  turn_inv p → peer_ok peer →
  runs (priv_send_channel_bind PACKAGE_STRING now sched channel peer)
    (λ r p', turn_inv p' ∧ same_bindings p p' ∧ keeps_fresh p p' ∧
       if (r : bool) then request_fresh p' else current_binding_msg p' = current_binding_msg p) p.
Proof.
  intros Hp Hpeer. unfold priv_send_channel_bind, new_request. runs_steps. apply runs_draw. runs_steps.
  destruct (channel_request PACKAGE_STRING (ut_username p) (cached_realm p) (cached_nonce p) (ut_password p)
    (ti_user _ Hp) (ti_realm _ Hp) (ti_nonce _ Hp) (ut_agent p) (make_transid (next_transid p)) channel peer
    (ti_conf _ Hp) (make_transid_length _) (make_transid_ok _) Hpeer) as (m0 & m1 & E0 & E1 & Hends & Hfin).
  eapply runs_lift_done; [exact E0 |]. cbn [negb]. runs_steps.
  eapply runs_lift_done; [exact E1 |]. clear E0 E1. runs_steps.
  unfold finish_and_send, stun_finish. runs_steps. apply runs_lift; [exact Hends |].
  intros [[n a'] m] E. apply Hfin in E as [Hconf Habout]. runs_steps.
  destruct (Z.ltb_spec 0 n) as [Hn | Hn]; runs_steps.
  - eapply runs_mono; [eapply send_turn_message_runs; [| by apply Habout | done] |].
    + keep Hp.
    + intros _ p' (H1 & H2 & H3 & H4). runs_steps. by split_and!.
  - split_and!; try done; [keep Hp | by apply keeps_same].
Qed.

(** With a binding being requested the peer waits; else the request is sent. *)
Lemma add_channel_binding_runs peer p :
  turn_inv p → peer_ok peer →
  runs (priv_add_channel_binding PACKAGE_STRING now sched peer)
    (λ r p', turn_inv p' ∧ channels p' = channels p ∧ keeps_fresh p p' ∧
       (current_binding p = None → pending_bindings p' = pending_bindings p ∧
          if (r : bool) then request_fresh p' else current_binding p' = None ∧ current_binding_msg p' = current_binding_msg p)) p.
Proof.
  intros Hp Hpeer. unfold priv_add_channel_binding. runs_steps.
  destruct (current_binding p) as [b |] eqn:Ecur.
  { runs_steps. split_and!; [keep Hp | done | by apply keeps_same | done]. apply Forall_app. by rewrite Forall_singleton. }
  runs_steps. pose proof (ti_mode _ Hp) as Hmode.
  assert (Hmain : runs (chs ← get channels; channel ← lift (free_channel chs);
      if (0x4000 <=? channel) && (channel <? 0xffff) then
        ret ← priv_send_channel_bind PACKAGE_STRING now sched channel peer;
        _ ← when ret (put current_binding (Some (new_binding channel peer))); mret ret
      else mret false)
    (λ r p', turn_inv p' ∧ channels p' = channels p ∧ keeps_fresh p p' ∧
       (None = @None ChannelBinding → pending_bindings p' = pending_bindings p ∧
          if (r : bool) then request_fresh p' else current_binding p' = None ∧ current_binding_msg p' = current_binding_msg p)) p).
  { runs_steps. eapply runs_lift_done; [eapply free_channel_spec, (ti_channels _ Hp) |].
    destruct (Z.leb_spec 0x4000 (0x4000 + zlen (channels p)));
      [| runs_steps; split_and!; [done | done | by apply keeps_same | done]].
    destruct (Z.ltb_spec (0x4000 + zlen (channels p)) 0xffff) as [Hlt | ?]; cbn [andb];
      [| runs_steps; split_and!; [done | done | by apply keeps_same | done]].
    runs_steps. eapply runs_mono; [by apply send_channel_bind_runs |].
    intros r p' (Hp' & (Hch & Hcur & Hpend) & Hkeep & Hr). rewrite Ecur in Hcur.
    runs_steps. apply runs_when; intros Er; runs_steps; subst r.
    - split_and!; try done. keep Hp'.
      match goal with Hc : channels_inv _ _ |- _ => destruct Hc as [C1 C2 C3 C4 C5] end.
      split; try assumption. intros b [= <-]. cbn [new_binding cb_channel cb_timeout_source cb_peer].
      change (channels (p' <| current_binding := _ |>)) with (channels p'). by rewrite Hch.
    - split_and!; try done; by rewrite ?Hcur. }
  revert Hmain. destruct (ut_compatibility p) eqn:Ec; try discriminate Hmode; exact (λ h, h).
Qed.

Lemma pending_loop_runs fuel p :
  turn_inv p → current_binding p = None → (length (pending_bindings p) < fuel)%nat →
  runs (pending_loop PACKAGE_STRING now sched fuel)
    (λ _ p', turn_inv p' ∧ keeps_fresh p p' ∧ (request_fresh p' ∨ current_binding_msg p' = current_binding_msg p)) p.
Proof.
  revert p. induction fuel as [| fuel IH]; intros p Hp Hcur Hf; [lia |]. cbn [pending_loop]. runs_steps.
  destruct (pending_bindings p) as [| peer l] eqn:El; [runs_steps; split_and!; [done | by apply keeps_same | by right] |].
  runs_steps. assert (Hl : Forall peer_ok (peer :: l)) by (rewrite <- El; apply Hp).
  apply Forall_cons in Hl as [Hpeer Hl].
  eapply runs_mono; [by apply add_channel_binding_runs |].
  intros r p' (Hp' & Hch & Hkeep & Hrest). destruct (Hrest Hcur) as [Hpend Hr]. runs_steps.
  assert (Hp'' : turn_inv (p' <| pending_bindings := tail (pending_bindings p') |>)).
  { keep Hp'. rewrite Hpend. by rewrite El. }
  destruct r; runs_steps; [split_and!; try done; by left |].
  destruct Hr as [Hr1 Hr2]. eapply runs_mono; [apply IH; [done | done |] |].
  - change (pending_bindings (p' <| pending_bindings := tail (pending_bindings p') |>))
      with (tail (pending_bindings p')). rewrite Hpend, El. cbn in *. lia.
  - intros _ p3 (H1 & H2 & H3). split_and!; [done | | ].
    + intros m Hm Hfr. apply H2; [| done]. by apply Hkeep.
    + destruct H3 as [? | H3]; [by left | right]. by rewrite H3.
Qed.

Lemma process_pending_bindings_runs p :
  turn_inv p → current_binding p = None →
  runs (priv_process_pending_bindings PACKAGE_STRING now sched) (λ _ p', turn_inv p' ∧ keeps_fresh p p') p.
Proof.
  intros Hp Hcur. unfold priv_process_pending_bindings. runs_steps.
  eapply runs_mono; [apply pending_loop_runs; [done | done | lia] |].
  intros _ p' (Hp' & Hkeep & _). runs_steps.
  destruct (pending_bindings p') as [| ? ?]; [| by runs_steps].
  destruct (current_binding_msg p'); [by runs_steps |]. unfold renew_first. runs_steps.
  destruct (List.find cb_renew (channels p')) as [b |] eqn:E; [| by runs_steps].
  apply List.find_some in E as [Hin _]. runs_steps.
  eapply runs_mono; [apply send_channel_bind_runs; [done |] |].
  - pose proof (ci_peers _ _ (ti_channels _ Hp')) as Hpe. rewrite Forall_forall in Hpe. apply Hpe, list_elem_of_In, Hin.
  - intros r p'' (H1 & _ & H2 & _). runs_steps. split; [done |]. intros m Hm Hf. apply H2; [| done]. by apply Hkeep.
Qed.
End tick.

(** ** Permission requests *)

Lemma sublist_forall {A} (P : A → Prop) l l' : Forall P l → l' `sublist_of` l → Forall P l'.
Proof. rewrite !Forall_forall. intros Hl Hs x Hx. by apply Hl, (elem_of_sublist l'). Qed.

(** No request for the peer is in flight. *)
Definition unrequested (pend : list TURNMessage) (sent : list NiceAddress) (peer : NiceAddress) : Prop :=
  ∃ peers, Forall2 message_inv pend peers ∧ NoDup (peer_key peer :: keys peers) ∧ keys peers ⊆ keys sent.

(** A request that goes was the only one for its peer. *)
Lemma pending_delete pend sent qs i m a :
  perms_inv pend sent qs → pend !! i = Some m → request_peer (tm_message m) = Done a →
  peer_ok a ∧ unrequested (delete i pend) sent a.
Proof.
  intros [P1 P2 (peers & P3 & P4 & P5) P6 P7 P8] Hi Ha.
  destruct (Forall2_lookup_l _ _ _ _ _ P3 Hi) as (b & Hb & Habout & Hok & _).
  destruct (about_peer _ _ Habout Hok) as (a' & Ea & Ha' & Hkey). rewrite Ea in Ha. injection Ha as ->.
  split; [done |]. assert (Hki : keys peers !! i = Some (peer_key a))
    by (unfold keys; rewrite list_lookup_fmap, Hb; cbn; by rewrite Hkey).
  exists (delete i peers). split_and!.
  - by apply Forall2_delete.
  - rewrite keys_delete. constructor; [| eapply sublist_NoDup; [exact P4 | apply sublist_delete]].
    intros Hk. apply list_elem_of_lookup in Hk as [j Hj].
    destruct (decide (j < i)%nat) as [Hji | Hji].
    + rewrite list_lookup_delete_lt in Hj by done. pose proof (NoDup_lookup _ _ _ _ P4 Hj Hki). lia.
    + rewrite list_lookup_delete_ge in Hj by lia. pose proof (NoDup_lookup _ _ _ _ P4 Hj Hki). lia.
  - intros k Hk. apply P5. rewrite keys_delete in Hk. by eapply elem_of_sublist; [| apply sublist_delete].
Qed.

(** The invariant for permissions when the request of a peer goes, and with it
    the count as asked for and the queue. *)
Lemma perms_delete pend sent qs i m a sent' qs' :
  perms_inv pend sent qs → pend !! i = Some m → request_peer (tm_message m) = Done a →
  sent' `sublist_of` sent → (∀ b, b ∈ sent' ↔ b ∈ sent ∧ peer_key b ≠ peer_key a) →
  qs' = queue_remove qs a →
  perms_inv (delete i pend) sent' qs' ∧ peer_ok a.
Proof.
  intros HP Hi Ha Hsub Hmem ->. destruct (pending_delete _ _ _ _ _ _ HP Hi Ha) as (Ha' & peers & P3 & P4 & P5).
  destruct HP as [P1 P2 _ P6 P7 P8]. apply NoDup_cons in P4 as [P4 P4'].
  assert (Hq : queue_remove qs a `sublist_of` qs) by apply queue_remove_sublist.
  assert (Hkeys : ∀ k, k ∈ keys sent → k ≠ peer_key a → k ∈ keys sent').
  { intros k (b' & -> & Hb')%list_elem_of_fmap Hne. apply list_elem_of_fmap_2, Hmem. done. }
  split; [| done]. split.
  - exact (sublist_forall _ _ _ P1 Hsub).
  - eapply sublist_NoDup; [exact P2 |]. by apply fmap_sublist.
  - exists peers. split_and!; [done | done |]. intros k Hk. apply Hkeys; [by apply P5 | by intros ->].
  - eapply sublist_forall; [exact P6 | by apply fmap_sublist].
  - eapply sublist_NoDup; [exact P7 |]. by do 2 apply fmap_sublist.
  - intros k Hk. apply Hkeys.
    + apply P8. eapply elem_of_sublist; [exact Hk |]. by do 2 apply fmap_sublist.
    + apply list_elem_of_fmap in Hk as (b' & -> & Hb').
      by apply (queue_remove_keys qs); [apply Ha' | apply peer_ok_plain | |].
Qed.

Lemma forget_conf a id : turn_conf a → turn_conf (stun_agent_forget_transaction a id).1.
Proof. unfold stun_agent_forget_transaction. by destruct (list_find _ _) as [[? ?] |]. Qed.

Lemma delete_insert_same {A} (l : list A) i x : delete i (<[i := x]> l) = delete i l.
Proof. revert i. induction l as [| y l IH]; intros [| i]; [done.. |]. cbn. by rewrite IH. Qed.

Lemma pending_message p i m : turn_inv p → pending_permissions p !! i = Some m → ∃ a, message_inv m a.
Proof.
  intros Hp Hi. destruct (pi_pending _ _ _ (ti_perms _ Hp)) as (peers & H2 & _).
  destruct (Forall2_lookup_l _ _ _ _ _ H2 Hi) as (b & _ & Hb). by exists b.
Qed.

(** One request whose time is over: it goes, or it is sent once more. *)
Lemma permission_tick_runs i m p :
  turn_inv p → pending_permissions p !! i = Some m → ¬ fresh now (tm_timer m) →
  runs (priv_retransmissions_create_permission_tick_unlocked now i)
    (λ _ p', turn_inv p' ∧ same_bindings p p' ∧ current_binding_msg p' = current_binding_msg p ∧
       tick_source_create_permission p' = tick_source_create_permission p ∧
       (pending_permissions p' = delete i (pending_permissions p) ∨
        ∃ m', pending_permissions p' = <[i := m']> (pending_permissions p) ∧
          retransmissions (tm_timer m) < 7 ∧
          retransmissions (tm_timer m') = retransmissions (tm_timer m) + 1)) p.
Proof.
  intros Hp Hi Hf. destruct (pending_message _ _ _ Hp Hi) as (a & Habout & Hok & Ht).
  unfold priv_retransmissions_create_permission_tick_unlocked. runs_steps. rewrite Hi. runs_steps.
  apply runs_lift; [apply ends_timer_refresh |]. intros [t v] E. runs_steps.
  destruct (about_peer _ _ Habout Hok) as (a' & Ea & Ha' & Hkey).
  destruct (refresh_expired_cases _ _ _ _ Ht Hf E) as [[-> ->] | (-> & Ht' & Hr & Hr')]; clear E; runs_steps.
  - apply runs_lift; [apply ends_id |]. intros id _. runs_steps. eapply runs_lift_done; [exact Ea |]. runs_steps.
    pose proof (ti_perms _ Hp) as HP.
    destruct (remove_peer_spec (sent_permissions p) a') as (sent' & Es & Hsub & Hmem);
      [by apply Ha' | apply peer_ok_plain, HP | apply HP |].
    unfold priv_remove_sent_permission_for_peer. runs_steps. eapply runs_lift_done; [exact Es |]. clear Es. runs_steps.
    unfold priv_add_permission_for_peer. runs_steps.
    apply runs_dequeue. intros b. runs_steps. split_and!; [| done | done | done | left; apply delete_insert_same].
    destruct (perms_delete _ _ _ i m a' sent' _ HP Hi Ea Hsub Hmem eq_refl) as [HP' _].
    keep Hp; [by apply forget_conf | by rewrite <- (delete_insert_same _ i {| tm_message := tm_message m; tm_timer := tm_timer m |}) in HP' |].
    apply Forall_app. by rewrite Forall_singleton.
  - apply runs_lift; [unfold message_octets; apply ends_bind; ends |]. intros buf _. runs_steps.
    apply runs_send_wrapped. intros r b. runs_steps.
    split_and!; [| done | done | done | right; by exists {| tm_message := tm_message m; tm_timer := t |}].
    destruct (ti_perms _ Hp) as [P1 P2 (peers & P3 & P4 & P5) P6 P7 P8]. keep Hp. split; try assumption.
    exists peers. split_and!; try assumption.
    destruct (Forall2_lookup_l _ _ _ _ _ P3 Hi) as (b' & Hb' & Hab & Hokb & _).
    rewrite <- (list_insert_id peers i b') by done. by apply Forall2_insert.
Qed.

(** Fuel for the loop: one round for a request that is not due, else one for
    each retransmission that is left. *)
Definition request_rounds (m : TURNMessage) : nat :=
  if bool_decide (fresh now (tm_timer m)) then 1
  else Datatypes.S (Z.to_nat (8 - retransmissions (tm_timer m))).
Definition rounds (l : list TURNMessage) : nat := foldr (λ m n, (request_rounds m + n)%nat) 0%nat l.

Lemma drop_delete_same {A} (l : list A) i : drop i (delete i l) = drop (Datatypes.S i) l.
Proof. revert i. induction l as [| y l IH]; intros [| i]; [done.. |]. apply IH. Qed.
Lemma drop_insert_same {A} (l : list A) i x y : l !! i = Some y → drop i (<[i := x]> l) = x :: drop (Datatypes.S i) l.
Proof. revert i. induction l as [| z l IH]; intros [| i] Hi; [done.. |]. by apply IH. Qed.
Lemma other_elem_delete {A} (l : list A) i x y : l !! i = Some y → x ∈ l → x ≠ y → x ∈ delete i l.
Proof.
  revert i. induction l as [| z l IH]; intros i Hi Hx Hne; [done |]. apply elem_of_cons in Hx.
  destruct i as [| i]; cbn in *.
  - injection Hi as ->. by destruct Hx.
  - apply elem_of_cons. destruct Hx as [-> | Hx]; [by left | right; by apply IH].
Qed.
Lemma other_elem_insert {A} (l : list A) i x y z : l !! i = Some y → x ∈ l → x ≠ y → x ∈ <[i := z]> l.
Proof.
  revert i. induction l as [| w l IH]; intros i Hi Hx Hne; [done |]. apply elem_of_cons in Hx.
  destruct i as [| i]; cbn in *.
  - injection Hi as ->. apply elem_of_cons. right. by destruct Hx.
  - apply elem_of_cons. destruct Hx as [-> | Hx]; [by left | right; by apply IH].
Qed.

Lemma permissions_loop_runs fuel i min_timeout p :
  turn_inv p → (rounds (drop i (pending_permissions p)) < fuel)%nat →
  runs (permissions_loop now fuel i min_timeout)
    (λ _ p', turn_inv p' ∧ same_bindings p p' ∧ current_binding_msg p' = current_binding_msg p ∧
       tick_source_create_permission p' = tick_source_create_permission p ∧ keeps_fresh p p') p.
Proof.
  revert i min_timeout p. induction fuel as [| fuel IH]; intros i mt p Hp Hf; [lia |].
  cbn [permissions_loop]. runs_steps. destruct (pending_permissions p !! i) as [m |] eqn:Ei;
    [| runs_steps; split_and!; [done.. | by apply keeps_same]].
  rewrite (drop_S _ _ _ Ei) in Hf. cbn [rounds foldr] in Hf. fold (rounds (drop (Datatypes.S i) (pending_permissions p))) in Hf.
  destruct (Z.ltb_spec 0 (stun_timer_remainder (tm_timer m) now)) as [Hr | Hr].
  { apply IH; [done |]. unfold request_rounds in Hf. rewrite bool_decide_true in Hf by done. lia. }
  assert (Hnf : ¬ fresh now (tm_timer m)) by (unfold fresh; lia).
  destruct (pending_message _ _ _ Hp Ei) as (a & _ & _ & Ht).
  unfold request_rounds in Hf at 1. rewrite bool_decide_false in Hf by done.
  runs_steps. eapply runs_mono; [by eapply permission_tick_runs |].
  intros _ p1 (Hp1 & (B1 & B2 & B3) & Hmsg & Htick & Hl).
  assert (Hk : keeps_fresh p p1).
  { intros m' Hm' Hf'. assert (m' ≠ m) by (by intros ->).
    destruct Hl as [-> | (m2 & -> & _)]; [by eapply other_elem_delete | by eapply other_elem_insert]. }
  eapply runs_mono; [apply IH; [done |] |].
  - destruct Hl as [-> | (m2 & -> & Hr1 & Hr2)].
    + rewrite drop_delete_same. lia.
    + erewrite drop_insert_same by done. cbn [rounds foldr]. fold (rounds (drop (Datatypes.S i) (pending_permissions p))).
      unfold request_rounds at 1. rewrite Hr2. case_bool_decide; lia.
  - intros _ p2 (Hp2 & (C1 & C2 & C3) & Hmsg2 & Htick2 & Hk2).
    split_and!; [done | split_and!; congruence | congruence.. | by eapply keeps_trans].
Qed.

Lemma rounds_bound l : Forall (λ m, 1 ≤ retransmissions (tm_timer m)) l → (rounds l < permissions_fuel l)%nat.
Proof.
  unfold permissions_fuel. induction 1 as [| m l Hm _ IH]; [cbn; lia |]. cbn [rounds foldr length].
  fold (rounds l). unfold request_rounds. case_bool_decide; lia.
Qed.
Lemma pending_rounds p : turn_inv p → (rounds (pending_permissions p) < permissions_fuel (pending_permissions p))%nat.
Proof.
  intros Hp. apply rounds_bound, Forall_forall. intros m [i Hi]%list_elem_of_lookup.
  by destruct (pending_message _ _ _ Hp Hi) as (a & _ & _ & [? _]).
Qed.

(** ** The tick sources *)

Lemma renew_channel_tick p :
  turn_inv p →
  turn_inv (p <| sources := destroyed (tick_source_channel_bind p) (sources p) |> <| tick_source_channel_bind := None |>).
Proof.
  intros Hp. pose proof (destroyed_forall _ (tick_source_channel_bind p) _ (ti_sources _ Hp)) as Hs. keep Hp.
  eapply List.Forall_impl; [| exact Hs]. intros s [[? | [E | [? | [? | ?]]]] Hne].
  - by left.
  - done.
  - right; right; by left.
  - right; right; right; by left.
  - by do 4 right.
Qed.
Lemma renew_permission_tick p :
  turn_inv p →
  turn_inv (p <| sources := destroyed (tick_source_create_permission p) (sources p) |> <| tick_source_create_permission := None |>).
Proof.
  intros Hp. pose proof (destroyed_forall _ (tick_source_create_permission p) _ (ti_sources _ Hp)) as Hs. keep Hp.
  eapply List.Forall_impl; [| exact Hs]. intros s [[? | [? | [E | [? | ?]]]] Hne].
  - by left.
  - right; by left.
  - done.
  - right; right; right; by left.
  - by do 4 right.
Qed.

Lemma add_channel_tick n f p :
  turn_inv p → tick_source_channel_bind p = None →
  turn_inv (p <| next_source := next_source p + 1 |>
    <| sources := sources p ++ [{| gs_id := next_source p; gs_interval := n; gs_function := f |}] |>
    <| tick_source_channel_bind := Some (next_source p) |>).
Proof.
  intros Hp Hnone. pose proof (ti_sources _ Hp) as Hs. keep Hp. apply Forall_app. split.
  - eapply List.Forall_impl; [| exact Hs]. intros s [? | [E | [? | [? | ?]]]];
      [by left | congruence | right; right; by left | right; right; right; by left | by do 4 right].
  - apply Forall_singleton. right. by left.
Qed.
Lemma add_permission_tick n f p :
  turn_inv p → tick_source_create_permission p = None →
  turn_inv (p <| next_source := next_source p + 1 |>
    <| sources := sources p ++ [{| gs_id := next_source p; gs_interval := n; gs_function := f |}] |>
    <| tick_source_create_permission := Some (next_source p) |>).
Proof.
  intros Hp Hnone. pose proof (ti_sources _ Hp) as Hs. keep Hp. apply Forall_app. split.
  - eapply List.Forall_impl; [| exact Hs]. intros s [? | [? | [E | [? | ?]]]];
      [by left | right; by left | congruence | right; right; right; by left | by do 4 right].
  - apply Forall_singleton. right. right. by left.
Qed.

(** What a tick with nothing due leaves as it was. *)
Definition tick_quiet p p' : Prop :=
  turn_inv p' ∧ same_bindings p p' ∧ current_binding_msg p' = current_binding_msg p ∧ keeps_fresh p p'.

Lemma schedule_permission_runs p : turn_inv p → runs (schedule_create_permission_tick now) (λ _ p', tick_quiet p p') p.
Proof.
  intros Hp. unfold schedule_create_permission_tick. runs_steps. apply runs_destroy. runs_steps.
  eapply runs_mono; [apply permissions_loop_runs; [by apply renew_permission_tick | exact (pending_rounds p Hp)] |].
  intros mt p' (Hp' & Hb & Hmsg & Htick & Hk). destruct (mt =? G_MAXUINT); [by runs_steps |].
  runs_steps. apply runs_source_add. runs_steps. by split; [apply add_permission_tick |].
Qed.

Definition request_quiet p : Prop := current_binding_msg p = None ∨ request_fresh p.

Lemma quiet_trans p1 p2 p3 : tick_quiet p1 p2 → tick_quiet p2 p3 → tick_quiet p1 p3.
Proof.
  intros (_ & (A1 & A2 & A3) & A4 & A5) (B0 & (B1 & B2 & B3) & B4 & B5).
  split_and!; [done | split_and!; congruence | congruence | by eapply keeps_trans].
Qed.

Lemma schedule_quiet_runs fuel p :
  turn_inv p → request_quiet p → runs (priv_schedule_tick PACKAGE_STRING now (Datatypes.S fuel)) (λ _ p', tick_quiet p p') p.
Proof.
  intros Hp Hq. cbn [priv_schedule_tick]. runs_steps. apply runs_destroy. runs_steps.
  set (p1 := p <| sources := destroyed (tick_source_channel_bind p) (sources p) |> <| tick_source_channel_bind := None |>).
  assert (Hp1 : turn_inv p1) by apply (renew_channel_tick p Hp).
  change (current_binding_msg p1) with (current_binding_msg p).
  destruct Hq as [-> | (m & -> & Hf)]; runs_steps.
  - by eapply runs_mono; [apply schedule_permission_runs |].
  - unfold fresh in Hf. replace (0 <? stun_timer_remainder (tm_timer m) now) with true by lia.
    unfold priv_timeout_add_with_context. runs_steps. apply runs_source_add. runs_steps.
    by eapply runs_mono; [apply schedule_permission_runs, (add_channel_tick _ _ p1 Hp1 eq_refl) |].
Qed.


(** ** The tick *)

Lemma schedule_fresh_runs fuel p :
  turn_inv p → request_fresh p →
  runs (priv_schedule_tick PACKAGE_STRING now (Datatypes.S fuel))
    (λ _ p', turn_inv p' ∧ same_bindings p p' ∧ request_fresh p' ∧ keeps_fresh p p') p.
Proof.
  intros Hp Hf. eapply runs_mono; [by apply schedule_quiet_runs; [| right] |].
  intros _ p' (H1 & H2 & H3 & H4). split_and!; try done. destruct Hf as (m & E & Hf). exists m. by rewrite H3.
Qed.

(** Rounds of the tick until the request is due no more. *)
Definition request_budget p : nat :=
  match current_binding_msg p with
  | None => 1
  | Some m => if bool_decide (fresh now (tm_timer m)) then 1
              else Datatypes.S (Datatypes.S (Z.to_nat (7 - retransmissions (tm_timer m))))
  end.

Lemma no_current chs cur : channels_inv chs cur → channels_inv chs None.
Proof. by intros [? ? ? ? _]. Qed.

Lemma retransmissions_tick_runs fuel p :
  turn_inv p → (request_budget p ≤ Datatypes.S (Datatypes.S fuel))%nat →
  (∀ p', turn_inv p' → (request_budget p' ≤ Datatypes.S fuel)%nat →
     runs (priv_schedule_tick PACKAGE_STRING now (Datatypes.S fuel)) (λ _ p'', turn_inv p'' ∧ keeps_fresh p' p'') p') →
  runs (retransmissions_tick PACKAGE_STRING now (priv_schedule_tick PACKAGE_STRING now (Datatypes.S fuel)))
    (λ _ p', turn_inv p' ∧ keeps_fresh p p') p.
Proof.
  intros Hp Hb IH. unfold retransmissions_tick. runs_steps. unfold request_budget in Hb.
  destruct (current_binding_msg p) as [m |] eqn:Em; [| runs_steps; by split; [| apply keeps_same]].
  destruct (ti_message _ Hp m Em) as (a & Habout & Ha & Ht).
  assert (Hset : ∀ t, timer_ok t →
    turn_inv (p <| current_binding_msg := Some {| tm_message := tm_message m; tm_timer := t |} |>)).
  { intros t Hok. keep Hp. intros m' [= <-]. by exists a. }
  runs_steps. apply runs_lift; [apply ends_timer_refresh |]. intros [t v] E. runs_steps.
  assert (Htok : timer_ok t) by by eapply refresh_keeps_ok.
  destruct (bool_decide_reflect (fresh now (tm_timer m))) as [Hf | Hf].
  - assert (t = tm_timer m ∧ v = STUN_USAGE_TIMER_RETURN_SUCCESS) as [-> ->].
    { unfold stun_timer_refresh in E. unfold fresh in Hf.
      replace (stun_timer_remainder (tm_timer m) now =? 0) with false in E by lia. by injection E as <- <-. }
    runs_steps. cbn [when]. eapply runs_mono; [apply IH; [by apply Hset |] |].
    + unfold request_budget. cbn. rewrite bool_decide_true by done. lia.
    + intros _ p' [H1 H2]. by runs_steps.
  - destruct (refresh_expired_cases _ _ _ _ Ht Hf E) as [[-> ->] | (-> & _ & Hr & Hr')]; clear E; runs_steps.
    + apply runs_lift; [apply ends_id |]. intros id _. runs_steps.
      eapply runs_mono; [eapply process_pending_bindings_runs; [intros p' ? ?; by apply schedule_fresh_runs | | done] |].
      * keep Hp; [by apply forget_conf | by eapply no_current | done].
      * intros _ p' [H1 H2]. by runs_steps.
    + apply runs_lift; [unfold message_octets; apply ends_bind; ends |]. intros buf _. runs_steps.
      apply runs_send_wrapped. intros r b. runs_steps. cbn [when]. eapply runs_mono; [apply IH |].
      * pose proof (Hset t Htok) as Hs. keep Hs.
      * unfold request_budget. cbn. case_bool_decide; lia.
      * intros _ p' [H1 H2]. by runs_steps.
Qed.

Lemma schedule_runs fuel p :
  turn_inv p → (request_budget p ≤ fuel)%nat →
  runs (priv_schedule_tick PACKAGE_STRING now fuel) (λ _ p', turn_inv p' ∧ keeps_fresh p p') p.
Proof.
  revert p. induction fuel as [| fuel IH]; intros p Hp Hb.
  { unfold request_budget in Hb. repeat case_match; lia. }
  assert (Hcase : request_quiet p ∨ ∃ m, current_binding_msg p = Some m ∧ ¬ fresh now (tm_timer m)).
  { unfold request_quiet, request_fresh. destruct (current_binding_msg p) as [m |]; [| by left; left].
    destruct (decide (fresh now (tm_timer m))); [left; right; by exists m | right; by exists m]. }
  destruct Hcase as [Hq | (m & Em & Hnf)].
  { eapply runs_mono; [by apply schedule_quiet_runs |]. by intros _ p' (H1 & _ & _ & H2). }
  destruct fuel as [| f] eqn:Ef.
  { unfold request_budget in Hb. rewrite Em, bool_decide_false in Hb by done. lia. }
  rewrite <- Ef in *. cbn [priv_schedule_tick]. runs_steps. apply runs_destroy. runs_steps.
  set (p1 := p <| sources := destroyed (tick_source_channel_bind p) (sources p) |> <| tick_source_channel_bind := None |>).
  assert (Hp1 : turn_inv p1) by apply (renew_channel_tick p Hp).
  change (current_binding_msg p1) with (current_binding_msg p). rewrite Em.
  unfold fresh in Hnf. replace (0 <? stun_timer_remainder (tm_timer m) now) with false by lia.
  runs_steps. rewrite Ef in IH, Hb |- *. eapply runs_mono; [by apply retransmissions_tick_runs |].
  intros r p2 [Hp2 Hk]. runs_steps. eapply runs_mono; [by apply schedule_permission_runs |].
  intros _ p3 (Hp3 & _ & _ & Hk3). split; [done |]. eapply keeps_trans; [exact Hk | exact Hk3].
Qed.

Lemma budget_bound p : turn_inv p → (request_budget p ≤ 8)%nat.
Proof.
  intros Hp. unfold request_budget. destruct (current_binding_msg p) as [m |] eqn:E; [| lia].
  destruct (ti_message _ Hp m E) as (a & _ & _ & [Hr _]). case_bool_decide; lia.
Qed.

(** The fuel of the model is enough. *)
Lemma schedule_tick_runs p :
  turn_inv p → runs (schedule_tick PACKAGE_STRING now) (λ _ p', turn_inv p' ∧ keeps_fresh p p') p.
Proof. intros Hp. apply schedule_runs; [done |]. pose proof (budget_bound p Hp). unfold tick_fuel. lia. Qed.

Lemma schedule_tick_fresh p :
  turn_inv p → request_fresh p →
  runs (schedule_tick PACKAGE_STRING now)
    (λ _ p', turn_inv p' ∧ same_bindings p p' ∧ request_fresh p' ∧ keeps_fresh p p') p.
Proof. intros. by apply schedule_fresh_runs. Qed.

Lemma tick_unlocked_runs p :
  turn_inv p → runs (priv_retransmissions_tick_unlocked PACKAGE_STRING now) (λ _ p', turn_inv p' ∧ keeps_fresh p p') p.
Proof.
  intros Hp. apply (retransmissions_tick_runs 11); [done | pose proof (budget_bound p Hp); lia |].
  intros p' Hp' _. by apply schedule_tick_runs.
Qed.
End runs.
