(* ===== verification/UdpTurnCalls.v ===== *)
(** * The calls of a TURN socket: permissions, channels, timeouts

    Every operation ends and keeps the invariant, in the RFC 5766 and draft
    modes: what is sent for a permission, what the timeouts do, and the parts
    that the answers of the server run. *)

From S2P Require Import Prelude Bytes StateMonad StunCrc32 StunMessage StunFacts StunRoundtrip StunHmac StunAgent StunAgentTrans StunAuth StunTimer StunIce StunTurn StunTurnFacts StunEnds StunOctets NiceAddress NiceSocket TurnTcp UdpTurn UdpTurnBuild UdpTurnInv UdpTurnRuns.

Section calls.
Context {S : Type} `{!NiceSocket S, !EndingSocket S, !Malloc, !TurnEnv} {crypto : Crypto}.
Context (PACKAGE_STRING : bytes).
Context (now : timeval) (Hnow : clock_ok now).
Implicit Types (p : UdpTurnPriv S).

(** ** Permissions *)

Lemma unsent_unrequested pend sent qs peer :
  perms_inv pend sent qs → peer_key peer ∉ keys sent → unrequested pend sent peer.
Proof.
  intros [_ _ (peers & H1 & H2 & H3) _ _ _] Hn. exists peers. split_and!; try done.
  constructor; [| done]. intros Hin. by apply Hn, H3.
Qed.

Lemma has_sent_key p a : turn_inv p → peer_ok a →
  priv_has_sent_permission_for_peer p a = bool_decide (peer_key a ∈ keys (sent_permissions p)).
Proof. intros Hp Ha. apply in_list_key; [apply peer_ok_plain, (pi_sent _ _ _ (ti_perms _ Hp)) | apply Ha]. Qed.

Lemma keys_snoc l a : keys (l ++ [a]) = keys l ++ [peer_key a].
Proof. unfold keys. by rewrite fmap_app. Qed.

Lemma perms_add_sent p peer :
  turn_inv p → peer_ok peer → priv_has_sent_permission_for_peer p peer = false →
  turn_inv (p <| sent_permissions := sent_permissions p ++ [peer] |>).
Proof.
  intros Hp Hpeer Hhas. rewrite has_sent_key in Hhas by done. apply bool_decide_eq_false in Hhas.
  destruct (ti_perms _ Hp) as [P1 P2 (peers & P3 & P4 & P5) P6 P7 P8]. keep Hp.
  assert (Hsub : keys (sent_permissions p) ⊆ keys (sent_permissions p ++ [peer]))
    by (rewrite keys_snoc; intros k ?; apply elem_of_app; by left).
  split; try assumption.
  - apply Forall_app. by rewrite Forall_singleton.
  - change (NoDup (keys (sent_permissions p ++ [peer]))). rewrite keys_snoc.
    apply NoDup_app. split_and!; [done | | apply NoDup_singleton]. by intros k Hin ->%list_elem_of_singleton.
  - exists peers. split_and!; [done | done | by etrans].
  - by etrans.
Qed.

(** Afterwards the peer counts as asked for. *)
Lemma create_permission_runs peer p :
  turn_inv p → peer_ok peer → unrequested (pending_permissions p) (sent_permissions p) peer →
  runs (priv_send_create_permission PACKAGE_STRING now peer)
    (λ _ p', turn_inv p' ∧ peer_key peer ∈ keys (sent_permissions p')) p.
Proof.
  intros Hp Hpeer (peers & Hpend & Hnd & Hsub).
  destruct (permission_request PACKAGE_STRING (ut_username p) (cached_realm p) (cached_nonce p) (ut_password p)
    (ti_user _ Hp) (ti_realm _ Hp) (ti_nonce _ Hp) (ut_agent p) (make_transid (next_transid p)) peer
    (ti_conf _ Hp) (make_transid_length _) (make_transid_ok _) Hpeer) as [Hends Hfin].
  unfold priv_send_create_permission. runs_steps.
  eapply runs_mono with (P := λ _ p1, turn_inv p1 ∧ peer_key peer ∈ keys (sent_permissions p1) ∧
    pending_permissions p1 = pending_permissions p ∧ keys (sent_permissions p) ⊆ keys (sent_permissions p1) ∧
    next_transid p1 = next_transid p).
  { apply runs_when; intros E.
    - apply negb_true_iff in E. unfold priv_add_sent_permission_for_peer. runs_steps.
      pose proof (perms_add_sent _ _ Hp Hpeer E). split_and!; [done | | done | | done].
      + change (peer_key peer ∈ keys (sent_permissions p ++ [peer])). rewrite keys_snoc. apply elem_of_app. right. by left.
      + change (keys (sent_permissions p) ⊆ keys (sent_permissions p ++ [peer])). rewrite keys_snoc.
        intros k ?. apply elem_of_app. by left.
    - apply negb_false_iff in E. rewrite has_sent_key in E by done. apply bool_decide_eq_true in E. by split_and!. }
  intros _ p1 (Hp1 & Hin1 & Hpend1 & Hsub1 & Htr). runs_steps. apply runs_draw. rewrite Htr. runs_steps.
  apply runs_lift; [exact Hends |]. intros [[n a'] m] E. apply Hfin in E as [Hconf Habout]. runs_steps.
  destruct (Z.ltb_spec 0 n) as [Hn | Hn]; [| runs_steps; split; [keep Hp1 | done]].
  runs_steps. apply runs_lift; [apply ends_slice |]. intros buf _. runs_steps.
  apply runs_send_request. intros r b. runs_steps. apply runs_start_timer; [done |]. intros t Ht Hf. runs_steps.
  set (tm := {| tm_message := m; tm_timer := t |}).
  eapply runs_mono; [apply schedule_tick_runs; [done |] |].
  - destruct (ti_perms _ Hp1) as [P1 P2 _ P6 P7 P8]. keep Hp1. split; try assumption.
    apply NoDup_cons in Hnd as [Hnin Hnd]. exists (peers ++ [peer]). split_and!.
    + change (Forall2 message_inv (pending_permissions p1 ++ [tm]) (peers ++ [peer])).
      rewrite Hpend1. apply Forall2_app; [done |]. constructor; [| constructor]. split_and!; [by apply Habout | done | done].
    + rewrite keys_snoc. apply NoDup_app. split_and!; [done | | apply NoDup_singleton].
      by intros k Hin ->%list_elem_of_singleton.
    + rewrite keys_snoc. intros k [Hk | ->%list_elem_of_singleton]%elem_of_app; [by apply Hsub1, Hsub | done].
  - intros _ p2 [Hp2 Hk]. runs_steps. split; [done |].
    assert (Htm : tm ∈ pending_permissions p2).
    { apply Hk; [| done]. apply elem_of_app. right. by left. }
    apply list_elem_of_lookup in Htm as [j Hj].
    destruct (ti_perms _ Hp2) as [_ _ (peers2 & Q3 & _ & Q5) _ _ _].
    destruct (Forall2_lookup_l _ _ _ _ _ Q3 Hj) as (a2 & Ha2 & Hab2 & Hok2 & _).
    destruct (about_peer _ _ (Habout Hn) Hpeer) as (x & Ex & _ & Kx).
    destruct (about_peer _ _ Hab2 Hok2) as (y & Ey & _ & Ky). cbn [tm tm_message] in Ey.
    apply Q5, list_elem_of_lookup. exists j. unfold keys. rewrite list_lookup_fmap, Ha2. cbn. congruence.
Qed.

(** ** Channels *)

Lemma set_peer_runs peer p :
  turn_inv p → peer_ok peer →
  runs (nice_udp_turn_socket_set_peer PACKAGE_STRING now peer) (λ _ p', turn_inv p') p.
Proof.
  intros Hp Hpeer. eapply runs_mono; [apply add_channel_binding_runs; [done | | done | done] | by intros r p' []].
  intros p' ? ?. by apply schedule_tick_fresh.
Qed.

Lemma send_channel_runs channel peer p :
  turn_inv p → peer_ok peer →
  runs (send_channel_bind PACKAGE_STRING now channel peer) (λ _ p', turn_inv p') p.
Proof.
  intros Hp Hpeer. unfold send_channel_bind.
  eapply runs_mono; [apply send_channel_bind_runs; [exact Hnow | | exact Hp | exact Hpeer] | by intros r p' []].
  intros p' ? ?. by apply schedule_tick_fresh.
Qed.

Lemma pending_bindings_runs p :
  turn_inv p → current_binding p = None →
  runs (process_pending_bindings PACKAGE_STRING now) (λ _ p', turn_inv p') p.
Proof.
  intros Hp Hc. unfold process_pending_bindings.
  eapply runs_mono; [apply process_pending_bindings_runs; [exact Hnow | | exact Hp | exact Hc] | by intros r p' []].
  intros p' ? ?. by apply schedule_tick_fresh.
Qed.

(** A binding gets a new timeout in place of the one it had. *)
Lemma renewed_sources (p : UdpTurnPriv S) chs i b b' n f :
  chs !! i = Some b → cb_timeout_source b' = Some (next_source p) →
  Forall (λ s, referenced (p <| channels := chs |>) (gs_id s)) (sources p) →
  Forall (λ s, referenced (p <| channels := <[i := b']> chs |>) (gs_id s))
    (destroyed (cb_timeout_source b) (sources p) ++
     [{| gs_id := next_source p; gs_interval := n; gs_function := f |}]).
Proof.
  intros Hi Hb' Hs. pose proof (destroyed_forall _ (cb_timeout_source b) _ Hs) as Hd.
  pose proof (lookup_lt_Some _ _ _ Hi) as Hlt.
  apply Forall_app. split.
  - eapply List.Forall_impl; [| exact Hd]. intros s [[(c & Hc & Ec) | Hrest] Hne]; [left | by right].
    exists c. split; [| done]. change (c ∈ <[i := b']> chs).
    apply (other_elem_insert _ _ _ b); [done | done |]. intros ->. by apply Hne.
  - apply Forall_singleton. left. exists b'. split; [| done]. change (b' ∈ <[i := b']> chs).
    apply list_elem_of_lookup. exists i. by apply list_lookup_insert_eq.
Qed.

Lemma channels_update (chs : list ChannelBinding) cur i b b' :
  channels_inv chs cur → chs !! i = Some b → cb_channel b' = cb_channel b → cb_peer b' = cb_peer b →
  is_Some (cb_timeout_source b') → channels_inv (<[i := b']> chs) cur.
Proof.
  intros [C1 C2 C3 C4 C5] Hi Hch Hpe Hto. pose proof (lookup_lt_Some _ _ _ Hi) as Hlt.
  assert (Hlen : zlen (<[i := b']> chs) = zlen chs) by (unfold zlen; by rewrite length_insert).
  split.
  - intros j c Hj. destruct (decide (j = i)) as [-> | Hne].
    + rewrite list_lookup_insert_eq in Hj by done. injection Hj as <-. rewrite Hch. by apply C1.
    + rewrite list_lookup_insert_ne in Hj by done. by apply C1.
  - by apply Forall_insert.
  - apply Forall_insert; [done |]. rewrite Hpe. by eapply Forall_lookup_1 in C3.
  - by rewrite Hlen.
  - by rewrite Hlen.
Qed.

(** ** Timeouts *)

(** What a callback has to establish; [source] is then detached, or stays. *)
Definition fired (source : Z) (keep : bool) p : Prop :=
  if keep then turn_inv p else turn_inv (p <| sources := destroyed (Some source) (sources p) |>).

Lemma sources_sublist p l : turn_inv p → (∀ s, s ∈ l → s ∈ sources p) → turn_inv (p <| sources := l |>).
Proof.
  intros Hp Hl. pose proof (ti_sources _ Hp) as Hs. keep Hp. rewrite Forall_forall in Hs.
  apply Forall_forall. intros s Hs'. by apply (Hs s), Hl.
Qed.
Lemma destroyed_sub id (l : list GSource) s : s ∈ destroyed id l → s ∈ l.
Proof. 
  destruct id; [| done]. cbn [destroyed]. intros Hs%list_elem_of_In.
  apply List.filter_In in Hs as [Hs _]. by apply list_elem_of_In.
Qed.

Lemma fired_done source p : turn_inv p → fired source false p.
Proof. intros Hp. apply sources_sublist; [done |]. intros s. apply destroyed_sub. Qed.

(** Requests whose source goes can be forgotten. *)
Lemma drop_requests (p : UdpTurnPriv S) l source :
  turn_inv p → (∀ r, r ∈ send_requests p → sr_source r ≠ source → r ∈ l) →
  turn_inv (p <| send_requests := l |> <| sources := destroyed (Some source) (sources p) |>).
Proof.
  intros Hp Hl. pose proof (destroyed_forall _ (Some source) _ (ti_sources _ Hp)) as Hs. keep Hp.
  eapply List.Forall_impl; [| exact Hs]. intros s [[? | [? | [? | [(r & Hr & Er) | ?]]]] Hne].
  - by left.
  - right; by left.
  - right; right; by left.
  - right; right; right; left. exists r. split; [| done]. apply Hl; congruence.
  - by do 4 right.
Qed.

Lemma forget_agent (p : UdpTurnPriv S) id : turn_inv p → turn_inv (p <| ut_agent := (stun_agent_forget_transaction (ut_agent p) id).1 |>).
Proof. intros Hp. keep Hp. by apply forget_conf. Qed.

Lemma forget_send_request_runs source p :
  turn_inv p → runs (priv_forget_send_request_timeout source) (fired source) p.
Proof.
  intros Hp. unfold priv_forget_send_request_timeout. runs_steps.
  destruct (List.find _ _) as [r |]; [| done]. runs_steps.
  apply (drop_requests _ _ source (forget_agent _ (sr_id r) Hp)).
  intros r' Hr' Hne. apply list_elem_of_In, List.filter_In. split; [by apply list_elem_of_In |].
  by destruct (Z.eqb_spec (sr_source r') source).
Qed.

Lemma permission_timeout_runs source p : turn_inv p → runs priv_permission_timeout (fired source) p.
Proof. intros Hp. unfold priv_permission_timeout, priv_clear_permissions. runs_steps. cbn [fired]. keep Hp. constructor. Qed.

Lemma find_index_some {A} (f : A → bool) l i a : find_index f l = Some (i, a) → l !! i = Some a ∧ f a = true.
Proof. by intros (? & ? & _)%list_find_Some. Qed.

(** There is no binding without a timeout: the binding that expired stays. *)
Lemma expired_stays (chs : list ChannelBinding) cur :
  channels_inv chs cur → find_index (λ b, bool_decide (cb_timeout_source b = None)) chs = None.
Proof.
  intros Hc. apply list_find_None. eapply List.Forall_impl; [| exact (ci_timeouts _ _ Hc)].
  intros b [t Ht] E. apply bool_decide_eq_true in E. congruence.
Qed.

Lemma expired_runs source p : turn_inv p → runs (priv_binding_expired_timeout PACKAGE_STRING now) (fired source) p.
Proof.
  intros Hp. unfold priv_binding_expired_timeout. runs_steps.
  rewrite (expired_stays _ _ (ti_channels _ Hp)). runs_steps. by apply fired_done.
Qed.

Lemma binding_timeout_runs source p : turn_inv p → runs (priv_binding_timeout PACKAGE_STRING now source) (fired source) p.
Proof.
  intros Hp. unfold priv_binding_timeout. runs_steps.
  destruct (find_index _ _) as [[i b] |] eqn:E; [| runs_steps; by apply fired_done].
  apply find_index_some in E as [Hi Eb]. apply bool_decide_eq_true in Eb. runs_steps. apply runs_destroy. runs_steps.
  unfold priv_timeout_add_seconds_with_context. apply runs_source_add. runs_steps.
  set (b' := b <| cb_renew := true |> <| cb_timeout_source := Some _ |>).
  match goal with |- runs _ _ ?q => assert (Hq : turn_inv q) end.
  { pose proof (renewed_sources p _ i b b' (STUN_EXPIRE_TIMEOUT * 1000) priv_binding_expired_timeout_cb Hi eq_refl (ti_sources _ Hp)) as Hs.
    keep Hp. by eapply channels_update. }
  match goal with |- runs (match ?x with _ => _ end) _ _ => destruct x end; runs_steps; [by apply fired_done |].
  eapply runs_mono; [apply send_channel_runs; [exact Hq |] |].
  - by eapply Forall_lookup_1 in Hi; [| exact (ci_peers _ _ (ti_channels _ Hp))].
  - intros r p' Hp'. runs_steps. by apply fired_done.
Qed.

Lemma retransmissions_runs source p : turn_inv p → runs (priv_retransmissions_tick PACKAGE_STRING now) (fired source) p.
Proof.
  intros Hp. unfold priv_retransmissions_tick. runs_steps. eapply runs_mono; [by apply tick_unlocked_runs |].
  intros r p' [Hp' _]. runs_steps. destruct r; runs_steps; [by apply fired_done |].
  apply runs_destroy. runs_steps. apply fired_done. by apply renew_channel_tick.
Qed.

Lemma create_permission_tick_runs source p :
  turn_inv p → runs (priv_retransmissions_create_permission_tick PACKAGE_STRING now) (fired source) p.
Proof.
  intros Hp. unfold priv_retransmissions_create_permission_tick. runs_steps.
  eapply runs_mono; [by apply schedule_tick_runs |]. intros r p' [Hp' _]. runs_steps. by apply fired_done.
Qed.

Lemma dispatch_runs source p : turn_inv p → runs (dispatch PACKAGE_STRING now source) (λ _ p', turn_inv p') p.
Proof.
  intros Hp. unfold dispatch. runs_steps. destruct (List.find _ _) as [s |]; [| by runs_steps]. runs_steps.
  apply runs_mono with (P := fired source).
  - destruct (gs_function s); [by apply retransmissions_runs | by apply create_permission_tick_runs
      | by apply forget_send_request_runs | by apply permission_timeout_runs | by apply expired_runs
      | by apply binding_timeout_runs].
  - intros [|] p' Hf; runs_steps; [exact Hf |]. by apply runs_destroy.
Qed.
End calls.
