(* ===== verification/UdpTurnSend.v ===== *)
(** * The calls of a TURN socket: sending

    Every message given to the socket is sent, queued or refused, and the
    invariant is kept. *)

From S2P Require Import Prelude Bytes StateMonad StunMessage StunFacts StunRoundtrip StunHmac StunAgent StunAgentTrans StunAuth StunTimer StunIce StunTurn StunEnds StunOctets NiceAddress NiceSocket TurnTcp UdpTurn UdpTurnBuild UdpTurnInv UdpTurnRuns UdpTurnCalls.

(** ** Copies of messages *)

Lemma compact_loop_octets bufs buffer len off r :
  Forall bytes_ok bufs → bytes_ok buffer → compact_loop bufs buffer len off = Done r → bytes_ok r.
Proof.
  revert buffer off. induction bufs as [| b bufs IH]; intros buffer off Hb Hok H; cbn [compact_loop] in H;
    [by injection H as <- |]. apply Forall_cons in Hb as [Hb Hbs].
  apply bind_inv in H as (d & Ed & H). apply bind_inv in H as (buffer' & Es & H).
  eapply IH; [exact Hbs | | exact H]. eapply store_bytes_ok; [exact Es | done | by eapply slice_octets].
Qed.
Lemma ends_compact_loop bufs buffer len off : ends (compact_loop bufs buffer len off).
Proof. revert buffer off. induction bufs as [| b bufs IH]; intros buffer off; cbn [compact_loop]; ends. Qed.
Lemma ends_channel_loop bufs buffer len off : ends (channel_data_loop bufs buffer len off).
Proof. revert buffer off. induction bufs as [| b bufs IH]; intros buffer off; cbn [channel_data_loop]; ends. Qed.
#[export] Hint Resolve ends_compact_loop ends_channel_loop : ends.

Section send.
Context {S : Type} `{!NiceSocket S, !EndingSocket S, !Malloc, !TurnEnv} {crypto : Crypto}.
Context (PACKAGE_STRING : bytes).
Context (now : timeval) (Hnow : clock_ok now).
Context (Hmalloc : ∀ n, bytes_ok (g_malloc n)).
Implicit Types (p : UdpTurnPriv S).

Definition output_octets (m : NiceOutputMessage) : Prop := Forall bytes_ok (om_buffers m).

Lemma compact_octets m d n : output_octets m → compact_output_message m = Done (d, n) → bytes_ok d.
Proof.
  intros Hm E. unfold compact_output_message, compact_message in E. inv_bind. by eapply compact_loop_octets.
Qed.

Lemma ends_channel_data channel m : ends (channel_data channel m).
Proof. unfold channel_data. ends. Qed.

Lemma standard_not c : turn_standard c = true → c ≠ NICE_TURN_SOCKET_COMPATIBILITY_OC2007 ∧
  c ≠ NICE_TURN_SOCKET_COMPATIBILITY_GOOGLE ∧ c ≠ NICE_TURN_SOCKET_COMPATIBILITY_MSN.
Proof. by destruct c. Qed.

(** The head of the message that carries the data. *)
Lemma send_head_runs to p :
  turn_inv p → peer_ok to →
  runs (send_head PACKAGE_STRING to)
    (λ msg p', turn_inv p' ∧ match msg with Some m => bytes_ok (msg_buffer m) | None => True end) p.
Proof.
  intros Hp Hto. unfold send_head. runs_steps. apply runs_draw. runs_steps. rewrite (ti_mode _ Hp).
  apply runs_bind, runs_lift_ends; [unfold stun_agent_init_indication, stun_message_init, stun_set_type, put_cookie; ends |].
  intros [msg ok] E. apply init_indication_octets in E; [| apply Hmalloc | apply make_transid_ok].
  cbv beta iota. destruct ok; cbn [negb]; [| runs_steps; split; [keep Hp | done]].
  runs_steps. apply runs_lift_ends; [unfold append_when, append_step, append_done; ends |]. intros [msg' ok'] E'.
  assert (bytes_ok (msg_buffer msg')).
  { unfold append_when, append_step, append_done in E'. apply bind_inv in E' as ([m1 r] & E1 & E').
    apply append_xor_addr_octets in E1; [| rewrite peer_sockaddr by done; apply Hto | done].
    destruct (bool_decide _); by injection E' as <- _. }
  runs_steps. split; [keep Hp |]. by destruct ok'.
Qed.

Lemma remember_runs msg p : turn_inv p → runs (remember_request msg) (λ _ p', turn_inv p') p.
Proof.
  intros Hp. unfold remember_request. runs_steps. apply runs_lift; [apply ends_class |]. intros c _.
  destruct (_ && _); [| by runs_steps]. runs_steps. apply runs_lift; [apply ends_id |]. intros id _. runs_steps.
  unfold priv_timeout_add_with_context. apply runs_source_add. runs_steps.
  pose proof (ti_sources _ Hp) as Hs. keep Hp. apply Forall_app. split.
  - eapply List.Forall_impl; [| exact Hs]. intros s [? | [? | [? | [(r & Hr & Er) | ?]]]].
    + by left.
    + right; by left.
    + right; right; by left.
    + right; right; right; left. exists r. split; [| done]. apply elem_of_app. by left.
    + by do 4 right.
  - apply Forall_singleton. right; right; right; left.
    exists {| sr_id := id; sr_source := next_source p |}. split; [| done]. apply elem_of_app. right. by left.
Qed.

Lemma stun_finish_runs msg (Q : Z * StunMessage → UdpTurnPriv S → Prop) p :
  turn_inv p → bytes_ok (msg_buffer msg) → (∀ r a, turn_inv (p <| ut_agent := a |>) → Q r (p <| ut_agent := a |>)) →
  runs (stun_finish msg) Q p.
Proof.
  intros Hp Hok HQ. unfold stun_finish. runs_steps. apply runs_lift; [by apply ends_finish |].
  intros [[n a] m] E. runs_steps. apply HQ. pose proof (ti_conf _ Hp) as Hc. keep Hp.
  by apply finish_inv in E as [[-> _] | (i & old & e & _ & -> & _)].
Qed.

Lemma build_send_runs to m p :
  turn_inv p → peer_ok to → output_octets m →
  runs (build_send PACKAGE_STRING to m) (λ _ p', turn_inv p') p.
Proof.
  intros Hp Hto Hm. unfold build_send. runs_steps. eapply runs_mono; [by apply send_head_runs |].
  intros [msg |] p1 [Hp1 Hok]; runs_steps; [| done].
  unfold send_ms. runs_steps. destruct (standard_not _ (ti_mode _ Hp1)) as (Hc & _).
  rewrite bool_decide_false by done. runs_steps.
  apply runs_lift_ends; [unfold compact_output_message, compact_message; ends |]. intros [d n] Ed.
  apply compact_octets in Ed; [| done]. runs_steps.
  apply runs_lift_ends; [unfold append_some, append_step, append_done; ends |]. intros [msg' ok] E.
  assert (Hok' : bytes_ok (msg_buffer msg')).
  { unfold append_some, append_step, append_done in E. apply bind_inv in E as ([m1 r] & E1 & E).
    apply append_bytes_octets in E1; [| done..]. destruct (bool_decide _); by injection E as <- _. }
  destruct ok; cbn [negb]; [| by runs_steps]. runs_steps. apply stun_finish_runs; [done.. |].
  intros [len m2] a Ha. destruct (0 <? len); runs_steps; [| done].
  eapply runs_mono; [by apply remember_runs |]. intros ? p2 Hp2. runs_steps.
  apply runs_lift; [apply ends_slice |]. intros b _. by runs_steps.
Qed.

Lemma queue_message to d reliable p :
  turn_inv p → peer_ok to → peer_key to ∈ keys (sent_permissions p) →
  turn_inv (p <| send_data_queues := queue_push (send_data_queues p) to {| sd_data := d; sd_reliable := reliable |} |>).
Proof.
  intros Hp Hto Hin. destruct (ti_perms _ Hp) as [P1 P2 P3 P6 P7 P8]. keep Hp.
  pose proof (queue_push_keys (send_data_queues p) to {| sd_data := d; sd_reliable := reliable |}
    ltac:(apply Hto) (peer_ok_plain _ P6)) as Hk. split; try assumption.
  - apply Forall_forall. intros a ([a' q] & -> & Ha)%list_elem_of_fmap. cbn [fst].
    apply queue_push_peers in Ha as [Ha | ->]; [| done]. rewrite Forall_forall in P6. by apply P6.
  - change (NoDup (queue_keys (queue_push (send_data_queues p) to {| sd_data := d; sd_reliable := reliable |}))).
    rewrite Hk. case_bool_decide; [done |]. apply NoDup_app. split_and!; [done | | apply NoDup_singleton].
    by intros k Hin' ->%list_elem_of_singleton.
  - change (queue_keys (queue_push (send_data_queues p) to {| sd_data := d; sd_reliable := reliable |})
      ⊆ keys (sent_permissions p)).
    rewrite Hk. case_bool_decide; [done |]. intros k [Hk' | ->%list_elem_of_singleton]%elem_of_app; [by apply P8 | done].
Qed.

Lemma base_changed b p : turn_inv p → turn_inv (p <| ut_base := b |>).
Proof. intros Hp. keep Hp. Qed.

Lemma send_built_runs to d reliable p :
  turn_inv p → peer_ok to → runs (send_built PACKAGE_STRING now to d reliable) (λ _ p', turn_inv p') p.
Proof.
  intros Hp Hto. unfold send_built. runs_steps. destruct (_ && _).
  - runs_steps. apply runs_mono with (P := λ _ p', turn_inv p' ∧ peer_key to ∈ keys (sent_permissions p')).
    + pose proof (has_sent_key p to Hp Hto) as Hs. destruct (priv_has_sent_permission_for_peer p to).
      * runs_steps. split; [done |]. symmetry in Hs. by apply bool_decide_eq_true in Hs.
      * runs_steps. symmetry in Hs. apply bool_decide_eq_false in Hs.
        eapply runs_mono; [apply create_permission_runs; [done | done | done |] | intros ? p' Hp'; by runs_steps].
        by eapply unsent_unrequested; [exact (ti_perms _ Hp) |].
    + intros _ p' [Hp' Hin]. unfold socket_enqueue_data. runs_steps. by apply queue_message.
  - runs_steps. apply runs_wrapped. intros r b. runs_steps. by apply base_changed.
Qed.

Lemma send_plain_runs to m reliable p : turn_inv p → runs (send_plain to m reliable) (λ _ p', turn_inv p') p.
Proof. intros Hp. unfold send_plain. runs_steps. apply runs_wrapped. intros r b. runs_steps. by apply base_changed. Qed.

Lemma send_message_runs to m reliable p :
  turn_inv p → peer_ok to → output_octets m →
  runs (turn_send_message PACKAGE_STRING now to m reliable) (λ _ p', turn_inv p') p.
Proof.
  intros Hp Hto Hm. unfold turn_send_message. runs_steps. destruct (List.find _ _) as [b |].
  - rewrite (ti_mode _ Hp). runs_steps. apply runs_lift_ends; [apply ends_channel_data |].
    intros [d |] _; [by apply send_built_runs | by runs_steps].
  - runs_steps. eapply runs_mono; [by apply build_send_runs |]. intros [d |] p' Hp'; [| by runs_steps].
    destruct (0 <? zlen d); [by apply send_built_runs | by apply send_plain_runs].
Qed.

Lemma send_messages_runs to ms p :
  turn_inv p → peer_ok to → Forall output_octets ms →
  runs (turn_send_messages PACKAGE_STRING now to ms) (λ _ p', turn_inv p') p.
Proof.
  intros Hp Hto Hms. unfold turn_send_messages. generalize 0 as i. revert p Hp.
  induction Hms as [| m ms Hm _ IH]; intros p Hp i; cbn [turn_send_loop]; [by runs_steps |]. runs_steps.
  eapply runs_mono; [by apply send_message_runs |]. intros len p' Hp'.
  destruct (len <? 0); [by runs_steps |]. destruct (len =? 0); [by runs_steps |]. by apply IH.
Qed.

Lemma send_messages_reliable_runs to ms p :
  turn_inv p → peer_ok to → Forall output_octets ms →
  runs (turn_send_messages_reliable PACKAGE_STRING now to ms) (λ _ p', turn_inv p') p.
Proof.
  intros Hp Hto Hms. unfold turn_send_messages_reliable. runs_steps.
  destruct (bool_decide _); [by runs_steps |]. generalize 0 as i. revert p Hp.
  induction Hms as [| m ms Hm _ IH]; intros p Hp i; cbn [turn_send_reliable_loop]; [by runs_steps |]. runs_steps.
  eapply runs_mono; [by apply send_message_runs |]. intros len p' Hp'.
  destruct (len <? 0); [by runs_steps |]. destruct (len =? 0); [by runs_steps |]. by apply IH.
Qed.
End send.
