(* ===== verification/UdpTurnRecv.v ===== *)
(** * The calls of a TURN socket: receiving

    What the messages of the server do to the socket, and the invariant of the
    whole. *)

From S2P Require Import Prelude Bytes StateMonad StunCrc32 StunMessage StunFacts StunRoundtrip StunHmac StunAgent StunAgentTrans StunAuth StunTimer StunIce StunTurn StunTurnFacts StunEnds StunOctets NiceAddress NiceSocket TurnTcp UdpTurn UdpTurnBuild UdpTurnInv UdpTurnRuns UdpTurnCalls UdpTurnSend.

Section recv.
Context {S : Type} `{!NiceSocket S, !EndingSocket S, !Malloc, !TurnEnv} {crypto : Crypto}.
Context (PACKAGE_STRING : bytes).
Context (now : timeval) (Hnow : clock_ok now).
Implicit Types (p : UdpTurnPriv S).

Lemma wire_peer from sa :
  sockaddr_ok sa → addr_norm sa = sa → peer_ok (nice_address_set_from_sockaddr from (of_storage sa)).
Proof.
  destruct sa as [port a | port f a s |]; [| | done].
  - intros Hok _. split; [by left | exact Hok].
  - intros Hok Hn. injection Hn as <- <-. split; [by right | exact Hok].
Qed.

(** What an answer leaves; the socket never takes the way of the MSN and Google
    modes. *)
Definition answered (next : parse_goto) p : Prop := turn_inv p ∧ next ≠ goto_msn_google_lock.

Lemma parse_send_runs msg p : turn_inv p → bytes_ok (msg_buffer msg) → runs (parse_send msg) answered p.
Proof.
  intros Hp Hok. unfold parse_send. runs_steps. apply runs_lift; [apply ends_class |]. intros c _.
  destruct (bool_decide _); [| by runs_steps]. runs_steps. apply runs_lift; [apply ends_id |]. intros id _. runs_steps.
  apply runs_mono with (P := λ _ p', turn_inv p').
  - destruct (find_index _ _) as [[i r] |] eqn:E; [| by runs_steps]. apply find_index_some in E as [Hi _].
    runs_steps. apply runs_destroy. runs_steps.
    apply (forget_agent _ (sr_id r) (drop_requests p (delete i (send_requests p)) (sr_source r) Hp
      ltac:(intros r' Hr' Hne; apply (other_elem_delete _ _ _ r); [done | done |]; by intros ->))).
  - intros _ p' Hp'. destruct (standard_not _ (ti_mode _ Hp)) as (_ & Hc & _). rewrite bool_decide_false by done.
    by runs_steps.
Qed.

Lemma parse_set_active_runs msg p : turn_inv p → runs (parse_set_active msg) answered p.
Proof.
  intros Hp. unfold parse_set_active. runs_steps.
  destruct (current_binding p) as [b |] eqn:Eb; [| by runs_steps].
  destruct (current_binding_msg p) as [m |]; [| by runs_steps]. runs_steps.
  apply runs_lift; [apply ends_id |]. intros id _. runs_steps. apply runs_lift; [apply ends_id |]. intros id' _.
  destruct (bool_decide _); [| by runs_steps]. runs_steps. apply runs_lift; [apply ends_class |]. intros c _. runs_steps.
  destruct (standard_not _ (ti_mode _ Hp)) as (H1 & _ & H2).
  change (ut_compatibility (p <| current_binding_msg := None |>)) with (ut_compatibility p).
  rewrite !(bool_decide_false (ut_compatibility p = _)) by done. rewrite andb_false_r. runs_steps. split; [| done].
  pose proof (no_current _ _ (ti_channels _ Hp)). keep Hp. done.
Qed.

(** ** Credentials *)

Lemma cached_ok d : match d with Some b => bytes_ok b | None => True end → credential_ok 763 (cached d).
Proof.
  destruct d as [b |]; [| done]. intros Hb. cbn [cached]. destruct (_ && _) eqn:E; [| done]. split; [done |]. lia.
Qed.

Lemma cache_runs msg (Q : unit → UdpTurnPriv S → Prop) p :
  bytes_ok (msg_buffer msg) →
  (∀ r n, credential_ok 763 r → credential_ok 763 n → Q tt (p <| cached_realm := r |> <| cached_nonce := n |>)) →
  runs (nice_udp_turn_socket_cache_realm_nonce msg) Q p.
Proof.
  intros Hok HQ. unfold nice_udp_turn_socket_cache_realm_nonce. runs_steps.
  apply runs_lift; [by apply ends_find_bytes |]. intros r Er. runs_steps.
  apply runs_lift; [by apply ends_find_bytes |]. intros n En. runs_steps.
  apply HQ; apply cached_ok; [destruct r | destruct n]; try done; by eapply find_bytes_octets.
Qed.

Lemma ends_retry sent answer :
  bytes_ok (msg_buffer sent) → bytes_ok (msg_buffer answer) → ends (retry_authenticated sent answer).
Proof. intros. unfold retry_authenticated. ends. Qed.
#[local] Hint Resolve ends_retry : ends.

(** ** Channels *)

Definition confirmed (b : ChannelBinding) (id : Z) : ChannelBinding :=
  b <| cb_renew := false |> <| cb_timeout_source := Some id |>.

Lemma binding_confirmed_runs p chs i b :
  turn_inv p → chs !! i = Some b →
  Forall (λ s, referenced (p <| channels := chs |>) (gs_id s)) (sources p) →
  (∀ id, channels_inv (<[i := confirmed b id]> chs) (current_binding p)) →
  runs (binding_confirmed i)
    (λ _ p', turn_inv p' ∧ current_binding p' = current_binding p) (p <| channels := chs |>).
Proof.
  intros Hp Hi Hs Hch. unfold binding_confirmed. runs_steps.
  change (channels (p <| channels := chs |>)) with chs. rewrite Hi. runs_steps. apply runs_destroy. runs_steps.
  unfold priv_timeout_add_seconds_with_context. apply runs_source_add. runs_steps. split; [| done].
  pose proof (renewed_sources p chs i b (confirmed b (next_source p)) (STUN_BINDING_TIMEOUT * 1000)
    priv_binding_timeout_cb Hi eq_refl Hs) as Hs'.
  pose proof (Hch (next_source p)). keep Hp.
Qed.

(** The binding that was asked for joins the channels. *)
Lemma channels_snoc chs b id :
  channels_inv chs (Some b) →
  channels_inv (<[length chs := confirmed b id]> (chs ++ [b])) None.
Proof.
  intros [C1 C2 C3 C4 C5]. destruct (C5 b eq_refl) as (Hn & Hlt & Ht & Hb).
  rewrite insert_app_r_alt, Nat.sub_diag by done. cbn [insert list_insert].
  assert (Hz : zlen (chs ++ [confirmed b id]) = zlen chs + 1) by slia.
  split; [| | | lia | done].
  - intros j c Hj. destruct (decide (j < length chs)%nat) as [Hjl | Hjl].
    + rewrite lookup_app_l in Hj by done. by apply C1.
    + rewrite lookup_app_r in Hj by lia. apply list_lookup_singleton_Some in Hj as [Hj <-].
      assert (j = length chs) as -> by lia. exact Hn.
  - apply Forall_app. split; [done |]. apply Forall_singleton. by eexists.
  - apply Forall_app. split; [done |]. by apply Forall_singleton.
Qed.

Lemma more_channels_sources p b :
  turn_inv p → Forall (λ s, referenced (p <| channels := channels p ++ [b] |>) (gs_id s)) (sources p).
Proof.
  intros Hp. eapply List.Forall_impl; [| exact (ti_sources _ Hp)]. intros s [(c & Hc & Ec) | ?]; [left | by right].
  exists c. split; [| done]. apply elem_of_app. by left.
Qed.

(** The request is over. *)
Lemma message_over p : turn_inv p → turn_inv (p <| current_binding_msg := None |>).
Proof. intros Hp. by keep Hp. Qed.
Lemma binding_over p : turn_inv p → turn_inv (p <| current_binding := None |>).
Proof. intros Hp. pose proof (no_current _ _ (ti_channels _ Hp)). by keep Hp. Qed.

Lemma pending_answered p :
  turn_inv p → current_binding p = None →
  runs (process_pending_bindings PACKAGE_STRING now) (λ _, runs (mret goto_done) answered) p.
Proof.
  intros Hp Hc. eapply runs_mono; [by apply pending_bindings_runs |]. intros ? p' Hp'. by runs_steps.
Qed.

Lemma channel_peer p i b : turn_inv p → channels p !! i = Some b → peer_ok (cb_peer b).
Proof. intros Hp Hi. by eapply Forall_lookup_1 in Hi; [| exact (ci_peers _ _ (ti_channels _ Hp))]. Qed.

Lemma parse_channel_bind_runs msg p :
  turn_inv p → bytes_ok (msg_buffer msg) → runs (parse_channel_bind PACKAGE_STRING now msg) answered p.
Proof.
  intros Hp Hok. unfold parse_channel_bind. runs_steps.
  destruct (current_binding_msg p) as [m |] eqn:Em; [| by runs_steps].
  destruct (ti_message _ Hp m Em) as (a & Habout & Ha & _). runs_steps.
  apply runs_lift; [apply ends_id |]. intros id _. runs_steps. apply runs_lift; [apply ends_id |]. intros id' _.
  destruct (bool_decide _); cbn [negb]; [| by runs_steps]. runs_steps.
  apply runs_mono with (P := λ r p', p' = p ∧ ∀ i b, r = Some (i, b) → current_binding p = None ∧ channels p !! i = Some b).
  { destruct (current_binding p) as [b |]; [by runs_steps |]. runs_steps.
    destruct (about_peer _ _ Habout Ha) as (to & Eto & _). eapply runs_lift_done; [exact Eto |]. runs_steps.
    split; [done |]. intros i b E. split; [done |]. by apply find_index_some in E as [? _]. }
  intros refreshed ? [-> Href]. runs_steps. apply runs_lift; [apply ends_class |]. intros class _.
  destruct class; [by runs_steps | by runs_steps | |]; runs_steps.
  - (* response *)
    pose proof (message_over _ Hp) as Hp1. set (p1 := p <| current_binding_msg := None |>) in *.
    destruct (current_binding p) as [b |] eqn:Eb; runs_steps.
    + pose proof (binding_over _ Hp1) as Hp2.
      eapply runs_mono.
      * refine (binding_confirmed_runs (p1 <| current_binding := None |>) (channels p ++ [b]) (length (channels p)) b Hp2 _ _ _).
        -- by rewrite lookup_app_r, Nat.sub_diag by done.
        -- exact (more_channels_sources _ b Hp2).
        -- intros id2. apply channels_snoc. rewrite <- Eb. exact (ti_channels _ Hp).
      * intros ? p3 [Hp3 Hc3]. runs_steps. by apply pending_answered.
    + pose proof (binding_over _ Hp1) as Hp2. destruct refreshed as [[i b] |].
      * destruct (Href i b eq_refl) as [_ Hi]. eapply runs_mono.
        -- refine (binding_confirmed_runs (p1 <| current_binding := None |>) (channels p) i b Hp2 Hi _ _).
           ++ exact (ti_sources _ Hp2).
           ++ intros id2. eapply channels_update; [exact (ti_channels _ Hp2) | exact Hi | done | done | by eexists].
        -- intros ? p3 [Hp3 Hc3]. runs_steps. by apply pending_answered.
      * runs_steps. by apply pending_answered.
  - (* error *)
    apply runs_lift_ends; [apply ends_retry; [apply Habout | done] |]. intros retry _. destruct retry; runs_steps.
    + apply cache_runs; [done |]. intros r n Hr Hn. runs_steps.
      assert (Hq : turn_inv (p <| current_binding_msg := None |> <| cached_realm := r |> <| cached_nonce := n |>)) by (by keep Hp).
      destruct (current_binding p) as [b |] eqn:Eb.
      * runs_steps. eapply runs_mono; [apply send_channel_runs; [done | exact Hq |] | intros ? p' Hp'; by runs_steps].
        by destruct (ci_current _ _ (ti_channels _ Hp) b Eb) as (_ & _ & _ & ?).
      * destruct refreshed as [[i b] |]; [| by runs_steps]. runs_steps. destruct (Href i b eq_refl) as [_ Hi].
        eapply runs_mono; [apply send_channel_runs; [done | exact Hq | by eapply channel_peer] | intros ? p' Hp'; by runs_steps].
    + apply pending_answered; [| done]. apply message_over. by apply binding_over.
Qed.

(** ** Permissions *)

Lemma find_request_spec l id k :
  match find_request l id k with
  | Done (Some (i, r)) => ∃ m, (k ≤ i)%nat ∧ l !! (i - k)%nat = Some m ∧ tm_message m = r
  | Oof => False
  | _ => True
  end.
Proof.
  revert k. induction l as [| m l IH]; intros k; [done |]. cbn [find_request].
  pose proof (ends_id (tm_message m)) as He. destruct (stun_message_id (tm_message m)) as [x | |]; [| done..].
  rewrite bind_Done. destruct (bool_decide _).
  - exists m. by rewrite Nat.sub_diag.
  - specialize (IH (Datatypes.S k)). destruct (find_request l id (Datatypes.S k)) as [[[i r] |] | |]; [| done..].
    destruct IH as (m' & Hk & Hi & Er). exists m'. split; [lia |].
    replace (i - k)%nat with (Datatypes.S (i - Datatypes.S k)) by lia. done.
Qed.

(** Back from the state without the request and the queue. *)
Lemma permission_granted p i m a sent' :
  turn_inv p → pending_permissions p !! i = Some m → request_peer (tm_message m) = Done a →
  sent' `sublist_of` sent_permissions p → (∀ b, b ∈ sent' ↔ b ∈ sent_permissions p ∧ peer_key b ≠ peer_key a) →
  turn_inv (p <| sent_permissions := sent' |> <| permissions := permissions p ++ [a] |>
    <| send_data_queues := queue_remove (send_data_queues p) a |>
    <| pending_permissions := delete i (pending_permissions p) |>).
Proof.
  intros Hp Hi Ha Hsub Hmem.
  destruct (perms_delete _ _ _ i m a sent' _ (ti_perms _ Hp) Hi Ha Hsub Hmem eq_refl) as [HP Hok].
  keep Hp. apply Forall_app. by rewrite Forall_singleton.
Qed.

(** The timeout of all permissions. *)
Lemma permission_timeout_sources p n f :
  turn_inv p → permission_timeout_source p = None →
  turn_inv (p <| next_source := next_source p + 1 |>
    <| sources := sources p ++ [{| gs_id := next_source p; gs_interval := n; gs_function := f |}] |>
    <| permission_timeout_source := Some (next_source p) |>).
Proof.
  intros Hp Hnone. pose proof (ti_sources _ Hp) as Hs. keep Hp. apply Forall_app. split.
  - eapply List.Forall_impl; [| exact Hs]. intros s [? | [? | [? | [? | E]]]];
      [by left | right; by left | right; right; by left | right; right; right; by left | congruence].
  - apply Forall_singleton. by do 4 right.
Qed.

Lemma parse_create_permission_runs msg p :
  turn_inv p → bytes_ok (msg_buffer msg) → runs (parse_create_permission PACKAGE_STRING now msg) answered p.
Proof.
  intros Hp Hok. unfold parse_create_permission. runs_steps.
  apply runs_mono with (P := λ r p', p' = p ∧ ∀ i q, r = Some (i, q) →
    ∃ m, pending_permissions p !! i = Some m ∧ tm_message m = q).
  { destruct (pending_permissions p) as [| m0 l] eqn:El; [by runs_steps |]. runs_steps.
    apply runs_lift; [apply ends_id |]. intros id _. runs_steps.
    pose proof (find_request_spec (m0 :: l) id 0) as Hf. apply runs_lift; [by destruct (find_request _ _ _) |].
    intros r E. rewrite E in Hf. split; [done |]. intros i q ->. destruct Hf as (m & _ & Hi & Em).
    exists m. by rewrite Nat.sub_0_r in Hi. }
  intros [[i q] |] ? [-> Hr]; runs_steps; [| done].
  destruct (Hr i q eq_refl) as (m & Hi & <-). destruct (pending_message _ _ _ Hp Hi) as (a & Habout & Hpeer & _).
  destruct (about_peer _ _ Habout Hpeer) as (to & Eto & Hto & _). eapply runs_lift_done; [exact Eto |]. runs_steps.
  apply runs_lift; [apply ends_class |]. intros class _. runs_steps.
  apply runs_mono with (P := λ (_ : bool) p', p' = p).
  { destruct (bool_decide _); [| by runs_steps]. apply runs_lift_ends; [apply ends_retry; [apply Habout | done] | done]. }
  intros retry ? ->. destruct retry; runs_steps.
  - destruct (pending_delete _ _ _ _ _ _ (ti_perms _ Hp) Hi Eto) as [_ Hun].
    apply cache_runs; [done |]. intros r n Hr' Hn. runs_steps.
    eapply runs_mono; [apply create_permission_runs; [done | | exact Hto | exact Hun] | intros ? p' [Hp' _]; by runs_steps].
    destruct (ti_perms _ Hp) as [P1 P2 _ P6 P7 P8]. destruct Hun as (peers & Q3 & Q4 & Q5).
    apply NoDup_cons in Q4 as [_ Q4]. keep Hp. split; try assumption. by exists peers.
  - pose proof (ti_perms _ Hp) as HP.
    destruct (remove_peer_spec (sent_permissions p) to) as (sent' & Es & Hsub & Hmem);
      [by apply Hto | apply peer_ok_plain, HP | apply HP |].
    unfold priv_remove_sent_permission_for_peer, priv_add_permission_for_peer. runs_steps.
    eapply runs_lift_done; [exact Es |]. clear Es. runs_steps.
    assert (Hend : ∀ q, turn_inv q → pending_permissions q = pending_permissions p → sent_permissions q = sent_permissions p →
      send_data_queues q = send_data_queues p →
      runs (socket_dequeue_all_data to)
        (λ _, runs (_ ← upd pending_permissions (delete i); mret goto_done) answered)
        (q <| sent_permissions := sent' |> <| permissions := permissions q ++ [to] |>)).
    { intros q Hq E1 E2 E3. apply runs_dequeue. intros b. runs_steps. split; [| done].
      rewrite <- E1 in Hi. rewrite <- E2 in Hsub.
      apply (base_changed b _ (permission_granted q i m to sent' Hq Hi Eto Hsub
        ltac:(intros x; rewrite E2; apply Hmem))). }
    match goal with |- runs (match ?x with _ => _ end) _ _ => change x with (permission_timeout_source p) end.
    destruct (permission_timeout_source p) as [src |] eqn:Esrc; runs_steps; [by apply (Hend p) |].
    apply runs_when; intros Ec; runs_steps; [| by apply (Hend p)]. unfold priv_timeout_add_seconds_with_context. runs_steps.
    apply runs_source_add. runs_steps.
    exact (Hend _ (permission_timeout_sources p (STUN_PERMISSION_TIMEOUT * 1000) priv_permission_timeout_cb Hp Esrc)
      eq_refl eq_refl eq_refl).
Qed.

(** ** Data *)

Lemma parse_data_runs msg from p :
  turn_inv p → bytes_ok (msg_buffer msg) → runs (parse_data_indication PACKAGE_STRING now msg from) answered p.
Proof.
  intros Hp Hok. unfold parse_data_indication. runs_steps. rewrite (ti_mode _ Hp).
  apply runs_lift; [by apply ends_find_xor_addr |]. intros [[val sa] n] E.
  destruct val; try by (cbn; runs_steps). cbn [negb success]. apply find_xor_addr_octets in E as [Hsa Hn]; [| done].
  change (negb (success STUN_MESSAGE_RETURN_SUCCESS)) with false. cbv iota.
  runs_steps. apply runs_lift; [by apply ends_find_bytes |]. intros [d |] _; runs_steps; [| done].
  set (from' := nice_address_set_from_sockaddr from (of_storage sa)).
  assert (Hfrom : peer_ok from') by by apply wire_peer.
  apply runs_when; intros Ec; runs_steps; [| done].
  apply andb_prop in Ec as [_ Ec]. apply negb_true_iff in Ec. rewrite has_sent_key in Ec by done.
  apply bool_decide_eq_false in Ec.
  eapply runs_mono; [apply create_permission_runs; [done | done | done |] | intros ? p' [Hp' _]; by runs_steps].
  by eapply unsent_unrequested; [exact (ti_perms _ Hp) |].
Qed.

Lemma parse_control_runs msg from p :
  turn_inv p → bytes_ok (msg_buffer msg) → runs (parse_control PACKAGE_STRING now msg from) answered p.
Proof.
  intros Hp Hok. unfold parse_control. runs_steps. rewrite (ti_mode _ Hp).
  eapply runs_lift_done; [done |]. cbn [negb]. runs_steps.
  apply runs_lift; [apply ends_method |]. intros k _. runs_steps. apply runs_lift; [apply ends_class |]. intros c _.
  destruct (k =? STUN_SEND); [by apply parse_send_runs |].
  destruct (k =? STUN_OLD_SET_ACTIVE_DST); [by apply parse_set_active_runs |].
  destruct (k =? STUN_CHANNELBIND); [by apply parse_channel_bind_runs |].
  destruct (k =? STUN_CREATEPERMISSION); [by apply parse_create_permission_runs |].
  destruct (_ && _); [by apply parse_data_runs | by runs_steps].
Qed.

Lemma ends_recv_data_part chs (std : bool) recv_buf off recv_len :
  ends (match chs with
        | [] => mret (None, off, recv_len)
        | b :: _ =>
            if std then
              d ← slice recv_buf off 2;
              match List.find (λ b, cb_channel b =? of_be d) chs with
              | Some b => l ← slice recv_buf (off + 2) 2; mret (Some b, off + 4, of_be l)
              | None => mret (None, off, recv_len)
              end
            else mret (Some b, off, recv_len)
        end).
Proof. ends. Qed.

Lemma recv_data_runs buf len recv_from recv_buf off recv_len p :
  turn_inv p → runs (recv_data buf len recv_from recv_buf off recv_len) (λ _ p', turn_inv p') p.
Proof.
  intros Hp. unfold recv_data. runs_steps. apply runs_lift_ends; [apply ends_recv_data_part |].
  intros [[b o] l] _. runs_steps. apply runs_lift_ends; [ends |]. intros d _. runs_steps.
  apply runs_lift_ends; [ends |]. intros x _. by runs_steps.
Qed.

Lemma parse_recv_runs from len buf recv_from recv_buf recv_len p :
  turn_inv p → bytes_ok recv_buf → recv_len < 2 ^ 64 →
  runs (nice_udp_turn_socket_parse_recv PACKAGE_STRING now from len buf recv_from recv_buf recv_len)
    (λ _ p', turn_inv p') p.
Proof.
  intros Hp Hok Hlen. unfold nice_udp_turn_socket_parse_recv. runs_steps. apply runs_reliable. intros rel. runs_steps.
  apply runs_mono with (P := answered).
  - destruct (nice_address_equal _ _); [| by runs_steps]. runs_steps.
    apply runs_lift_ends; [ends |]. intros d Ed. pose proof (slice_octets _ _ _ _ Ed Hok) as Hd.
    apply slice_inv in Ed as (? & ? & _ & _ & Hz). runs_steps.
    assert (zlen d < 2 ^ 64) by (rewrite Hz; destruct rel; [apply u64_range | done]).
    apply runs_lift; [by apply ends_validate |]. intros [[st a] msg] E.
    apply validate_keeps in E as (Hc & Hs & Hb). runs_steps.
    assert (Hp' : turn_inv (p <| ut_agent := a |>)).
    { destruct (ti_conf _ Hp) as [K1 K2]. assert (turn_conf a) by (split; congruence). by keep Hp. }
    destruct st; try by runs_steps. apply parse_control_runs; [exact Hp' |]. by rewrite Hb.
  - intros next p' [Hp' Hn]. destruct next as [| | | data f]; [by apply recv_data_runs | by runs_steps | done |].
    runs_steps. apply runs_lift_ends; [ends |]. intros d _. runs_steps.
    apply runs_lift_ends; [ends |]. intros b _. by runs_steps.
Qed.

(** ** Messages *)

Lemma message_vectors_octets v vs : Forall (λ v, bytes_ok (iv_buffer v)) (v :: vs) → bytes_ok (iv_buffer v).
Proof. by intros [? _]%Forall_cons. Qed.

Lemma ends_fill_vectors vs buffer : ends (fill_vectors vs buffer).
Proof. revert buffer. induction vs as [| v vs IH]; intros buffer; cbn [fill_vectors]; ends. Qed.
#[local] Hint Resolve ends_fill_vectors : ends.
Lemma ends_memcpy m d : ends (memcpy_buffer_to_input_message m d).
Proof. unfold memcpy_buffer_to_input_message. ends. Qed.
#[local] Hint Resolve ends_memcpy : ends.

Lemma ends_fill_fragments from ms f : ends (fill_from_fragments from ms f).
Proof. revert f. induction ms as [| m ms IH]; intros f; cbn [fill_from_fragments]; ends. Qed.

Context (Hmalloc : ∀ n, bytes_ok (g_malloc n)).

Lemma compact_input_octets m d : input_octets m → compact_input_message m = Done d → bytes_ok d.
Proof.
  intros [Hm _] E. unfold compact_input_message, compact_message in E. eapply compact_loop_octets; [| | exact E].
  - cbn [om_buffers]. apply Forall_forall. intros b Hb%list_elem_of_In.
    apply in_map_iff in Hb as (v & <- & Hv%list_elem_of_In). rewrite Forall_forall in Hm. by apply Forall_take, Hm.
  - apply Hmalloc.
Qed.

Lemma keep_fragment_runs buffer n from p : turn_inv p → runs (keep_fragment buffer n from) (λ _ p', turn_inv p') p.
Proof.
  intros Hp. unfold keep_fragment. runs_steps. apply runs_mono with (P := λ _ p', turn_inv p').
  - destruct (fragment_buffer p); runs_steps; [done |]. apply runs_lift_ends; [ends |]. intros h _. by runs_steps.
  - intros k p' Hp'. destruct (match fragment_buffer p with Some _ => _ | None => _ end) as [f |]; runs_steps; [| done].
    apply runs_lift_ends; [ends |]. intros d _. runs_steps. by keep Hp'.
Qed.

Lemma parse_message_runs m p :
  turn_inv p → input_octets m → runs (parse_message PACKAGE_STRING now m) (λ _ p', turn_inv p') p.
Proof.
  intros Hp Hm. unfold parse_message. runs_steps.
  apply runs_mono with (P := λ b p', p' = p ∧ bytes_ok b).
  { apply runs_lift_ends; [unfold compact_input_message, compact_message; ends |]. intros b E. split; [done |].
    destruct (im_buffers m) as [| v [| w l]] eqn:El; [by eapply compact_input_octets | | by eapply compact_input_octets].
    injection E as <-. destruct Hm as [Hm _]. rewrite El in Hm. by eapply message_vectors_octets. }
  intros buffer ? [-> Hb]. destruct (im_from m) as [from |]; [| done]. runs_steps.
  eapply runs_mono; [apply parse_recv_runs; [done | done | apply Hm] |]. intros r p1 Hp1. runs_steps.
  apply runs_reliable. intros rel. runs_steps. apply runs_mono with (P := λ _ p', turn_inv p').
  { destruct (_ && _); [by apply keep_fragment_runs | by runs_steps]. }
  intros n p2 Hp2. runs_steps. apply runs_lift_ends; [ends |]. intros x _. by runs_steps.
Qed.

Lemma parse_messages_runs first ms n p :
  turn_inv p → Forall input_octets ms →
  runs (parse_messages PACKAGE_STRING now first ms n) (λ _ p', turn_inv p') p.
Proof.
  intros Hp Hms. revert first n p Hp. induction Hms as [| m ms Hm _ IH]; intros first n p Hp; cbn [parse_messages];
    [by runs_steps |]. destruct (im_length m =? 0); runs_steps.
  - eapply runs_mono; [by apply IH |]. intros [[l k] e] p' Hp'. by runs_steps.
  - eapply runs_mono; [by apply parse_message_runs |]. intros [m' e] p' Hp'. destruct e; [by runs_steps |]. runs_steps.
    eapply runs_mono; [by apply IH |]. intros [[l k] e] p2 Hp2. by runs_steps.
Qed.

Lemma recv_messages_runs ms p :
  turn_inv p → Forall input_octets ms →
  runs (turn_recv_messages PACKAGE_STRING now ms) (λ _ p', turn_inv p') p.
Proof.
  intros Hp Hms. unfold turn_recv_messages. runs_steps.
  apply runs_mono with (P := λ r p', turn_inv p' ∧ Forall input_octets r.2).
  { destruct (fragment_buffer p) as [f |]; [| by runs_steps]. runs_steps.
    apply runs_lift_ends; [apply ends_fill_fragments |]. intros [[filled rest] f'] E. runs_steps. split; [by keep Hp |].
    cbn [snd]. clear Hp. revert filled f f' E. induction Hms as [| m ms Hm Hms IH]; intros filled f f' E; cbn [fill_from_fragments] in E.
    - by injection E as <- <- <-.
    - destruct (_ <? 2); [injection E as _ <- _; by constructor |]. apply bind_inv in E as (h & _ & E).
      destruct (_ <? _); [injection E as _ <- _; by constructor |]. apply bind_inv in E as ([m' k] & _ & E).
      apply bind_inv in E as ([] & _ & E). apply bind_inv in E as ([[fl rs] f2] & E2 & E). injection E as _ <- _.
      by eapply IH. }
  intros [filled rest] p1 [Hp1 Hrest]. runs_steps.
  apply runs_mono with (P := λ r p', turn_inv p' ∧ Forall input_octets r.2).
  { unfold runs, on, nice_socket_recv_messages. destruct (ut_base p1) as [s |] eqn:Eb; [| split; [by apply base_changed | done]].
    unfold on_base. pose proof (recv_ends rest s Hrest) as Hr. unfold runs in Hr.
    destruct (recv_messages rest s) as [[r s'] | |]; cbn; [| done..]. split; [by apply base_changed | done]. }
  intros [n l] p2 [Hp2 Hl]. destruct (n <? 0); [by runs_steps |]. runs_steps.
  eapply runs_mono; [apply parse_messages_runs; [done | by apply Forall_take] |].
  intros [[l' k] e] p3 Hp3. by runs_steps.
Qed.
End recv.
