(* ===== verification/UdpTurnDemo.v ===== *)
(** * A TURN socket to run

    A base socket that records what it is given, and a TURN socket on top of
    it, for computed examples. *)

From S2P Require Import Prelude Bytes StateMonad StunCrc32 StunMessage StunHmac StunAgent StunAgentTrans StunTimer StunIce StunTurn StunEnds NiceAddress NiceSocket TurnTcp UdpTurn UdpTurnBuild UdpTurnInv.

(** ** The base *)

Record recorder := { rec_wire : list (NiceAddress * bytes) }.
Definition record_all (to : option NiceAddress) (ms : list NiceOutputMessage) : st recorder Z := λ s,
  match to with
  | Some to => Done (zlen ms, {| rec_wire := rec_wire s ++ map (λ m, (to, concat (om_buffers m))) ms |})
  | None => Done (-1, s)
  end.
#[export] Instance recorder_socket : NiceSocket recorder := {|
  recv_messages ms := mret (0, ms);
  send_messages := record_all;
  send_messages_reliable := record_all;
  is_reliable _ := Done false;
  can_send _ _ := Done true;
  set_writable_callback _ := mret tt
|}.
#[export] Instance recorder_ends : EndingSocket recorder.
Proof. split; [done | by intros [to |] ms s | by intros [to |] ms s | done]. Qed.

#[export] Instance zeroed : Malloc.
Proof.
  refine {| g_malloc := λ n, replicate (Z.to_nat n) 0 |}.
  intros n Hn. unfold zlen. rewrite length_replicate. lia.
Defined.
Lemma zeroed_octets n : bytes_ok (g_malloc n).
Proof. apply Forall_replicate. by_compute. Qed.

#[export] Instance counting : TurnEnv.
Proof.
  refine {| g_base64_decode := λ b, b; make_transid := λ n, replicate 12 7 ++ be 4 n;
            junk_sockaddr := sockaddr_other 0; junk_address := Build_NiceAddress 0 0 0 (replicate 16 0) 0 |}.
  - intros n. rewrite zlen_app, zlen_be4. reflexivity.
  - intros n. apply bytes_ok_app. split; [by_compute | apply be_ok].
Defined.

(** ** The socket *)

Definition demo_clock : timeval := {| tv_sec := 1000; tv_usec := 0 |}.
Definition ipv4 (host port : Z) : NiceAddress := Build_NiceAddress AF_INET (htons port) (htonl host) (replicate 16 0) 0.
Definition demo_server : NiceAddress := ipv4 0xc0000201 3478.
Definition demo_peer : NiceAddress := ipv4 0xc0000202 5000.
Definition demo_turn : UdpTurnPriv recorder :=
  nice_udp_turn_socket_new (Some {| rec_wire := [] |}) NICE_SOCKET_TYPE_UDP_BSD demo_server [117] [112]
    NICE_TURN_SOCKET_COMPATIBILITY_RFC5766.
Definition demo_data (b : bytes) : NiceOutputMessage := {| om_buffers := [b] |}.

Lemma demo_peer_ok : peer_ok demo_peer.
Proof. split; [by left | by_compute]. Qed.
