(* ===== verification/UdpTurnFacts.v ===== *)
(** * What holds of every TURN socket

    A socket in the RFC 5766 or draft mode, over any base socket whose calls
    end, through any sequence of calls and timeouts. *)

From S2P Require Import Prelude Bytes StateMonad StunCrc32 StunMessage StunFacts StunRoundtrip StunHmac StunAgent StunAgentTrans StunAuth StunTimer StunIce StunTurn StunTurnFacts StunEnds StunOctets NiceAddress NiceSocket TurnTcp UdpTurn UdpTurnBuild UdpTurnInv UdpTurnRuns UdpTurnCalls UdpTurnSend UdpTurnRecv UdpTurnDemo.

(** ** The calls from outside *)

Inductive turn_op :=
| op_set_peer (peer : NiceAddress)
| op_send (to : NiceAddress) (ms : list NiceOutputMessage)
| op_send_reliable (to : NiceAddress) (ms : list NiceOutputMessage)
| op_recv (ms : list NiceInputMessage)
| op_timeout (source : Z).

Definition op_ok (op : turn_op) : Prop :=
  match op with
  | op_set_peer peer => peer_ok peer
  | op_send to ms | op_send_reliable to ms => peer_ok to ∧ Forall output_octets ms
  | op_recv ms => Forall input_octets ms
  | op_timeout _ => True
  end.

Section facts.
Context {S : Type} `{!NiceSocket S, !EndingSocket S, !Malloc, !TurnEnv} {crypto : Crypto}.
Context (PACKAGE_STRING : bytes).
Implicit Types (p : UdpTurnPriv S).

Definition run_op (now : timeval) (op : turn_op) : st (UdpTurnPriv S) unit :=
  match op with
  | op_set_peer peer => _ ← nice_udp_turn_socket_set_peer PACKAGE_STRING now peer; mret tt
  | op_send to ms => _ ← turn_send_messages PACKAGE_STRING now to ms; mret tt
  | op_send_reliable to ms => _ ← turn_send_messages_reliable PACKAGE_STRING now to ms; mret tt
  | op_recv ms => _ ← turn_recv_messages PACKAGE_STRING now ms; mret tt
  | op_timeout source => dispatch PACKAGE_STRING now source
  end.

Inductive reachable : UdpTurnPriv S → Prop :=
| reach_new base type server username password c :
    turn_standard c = true → bytes_ok username → zlen username ≤ 60000 →
    reachable (nice_udp_turn_socket_new base type server username password c)
| reach_op now op p p' :
    reachable p → clock_ok now → op_ok op → run_op now op p = Done (tt, p') → reachable p'.

Lemma new_inv base type server username password c :
  turn_standard c = true → bytes_ok username → zlen username ≤ 60000 →
  turn_inv (nice_udp_turn_socket_new (S := S) base type server username password c).
Proof.
  intros Hc Hu Hl.
  assert (Henc : bool_decide (c = NICE_TURN_SOCKET_COMPATIBILITY_MSN) ||
    bool_decide (c = NICE_TURN_SOCKET_COMPATIBILITY_OC2007) = false) by by destruct c.
  unfold nice_udp_turn_socket_new. rewrite Henc. split; cbn [ut_compatibility ut_agent ut_username cached_realm cached_nonce
    channels current_binding pending_bindings current_binding_msg pending_permissions sent_permissions
    send_data_queues permissions sources]; try done.
  - destruct c; try discriminate Hc; by split.
  - split; try constructor; try done. exists []. by repeat constructor.
Qed.

Context (Hmalloc : ∀ n, bytes_ok (g_malloc n)).

Lemma op_runs now op p :
  turn_inv p → clock_ok now → op_ok op → runs (run_op now op) (λ _ p', turn_inv p') p.
Proof.
  intros Hp Hnow Hop. destruct op as [peer | to ms | to ms | ms | source]; cbn [run_op op_ok] in *; runs_steps.
  - by apply set_peer_runs.
  - by apply send_messages_runs; [| | | apply Hop..].
  - by apply send_messages_reliable_runs; [| | | apply Hop..].
  - by apply recv_messages_runs.
  - by apply dispatch_runs.
Qed.

Lemma reachable_inv p : reachable p → turn_inv p.
Proof.
  induction 1 as [| now op p p' _ IH Hnow Hop E]; [by apply new_inv |].
  exact (runs_done _ _ _ _ _ (op_runs now op p IH Hnow Hop) E).
Qed.

(** C5: every call of a TURN socket and every timeout ends, in any state that
    calls and timeouts can lead to: the nested ticks, the loops over the
    permission requests, the waiting peers and the channel numbers, and the
    parsing of whatever the base socket delivers. *)
Theorem turn_socket_ends now op p :
  reachable p → clock_ok now → op_ok op → run_op now op p ≠ Oof.
Proof. intros Hp Hnow Hop. eapply runs_ends, op_runs; [by apply reachable_inv | done..]. Qed.

(** C19: in every state a TURN socket of the DRAFT9 or RFC5766 mode can be in
    ([reachable]), the channels are numbered
    without gaps from 0x4000 on and each has a timeout, so that no number
    is given to two peers; the permission requests in flight are about
    different peers, all counted as asked for; and data wait only for peers
    that are counted as asked for, in one queue for each. *)
Theorem turn_socket_consistent p :
  reachable p →
  (∀ i b, channels p !! i = Some b → cb_channel b = 0x4000 + Z.of_nat i ∧ is_Some (cb_timeout_source b)) ∧
  0x4000 + zlen (channels p) ≤ 0xffff ∧
  (∀ b, current_binding p = Some b → cb_channel b = 0x4000 + zlen (channels p)) ∧
  (∃ peers, Forall2 (λ m a, ∃ a', request_peer (tm_message m) = Done a' ∧ nice_address_equal a' a = true)
      (pending_permissions p) peers ∧
    NoDup (keys peers) ∧ Forall (λ a, priv_has_sent_permission_for_peer p a = true) peers) ∧
  NoDup (queue_keys (send_data_queues p)) ∧
  (∀ a q, (a, q) ∈ send_data_queues p → priv_has_sent_permission_for_peer p a = true).
Proof.
  intros Hp%reachable_inv. destruct (ti_channels _ Hp) as [C1 C2 _ C4 C5].
  destruct (ti_perms _ Hp) as [_ _ (peers & P3 & P4 & P5) P6 P7 P8].
  assert (Hsent : ∀ a, peer_ok a → peer_key a ∈ keys (sent_permissions p) → priv_has_sent_permission_for_peer p a = true).
  { intros a Ha Hin. rewrite has_sent_key by done. by apply bool_decide_eq_true. }
  assert (Hpeers : Forall peer_ok peers).
  { apply Forall_forall. intros a [i Hi]%list_elem_of_lookup.
    by destruct (Forall2_lookup_r _ _ _ _ _ P3 Hi) as (m & _ & _ & ? & _). }
  split_and!; try done.
  - intros i b Hi. split; [by apply C1 | by eapply Forall_lookup_1 in Hi; [| exact C2]].
  - intros b Hb. by destruct (C5 b Hb) as (? & _).
  - exists peers. split_and!; [| done |].
    + eapply Forall2_impl; [exact P3 |]. intros m a (Hab & Ha & _).
      destruct (about_peer _ _ Hab Ha) as (a' & E & Ha' & Hk). exists a'. split; [done |].
      rewrite equal_key by (apply Ha' || apply Ha). by apply bool_decide_eq_true.
    + apply Forall_forall. intros a Ha. rewrite Forall_forall in Hpeers. apply Hsent; [by apply Hpeers |].
      apply P5. by apply list_elem_of_fmap_2.
  - intros a q Hq. assert (Ha : a ∈ fst <$> send_data_queues p) by (apply list_elem_of_fmap; by exists (a, q)).
    apply Hsent; [rewrite Forall_forall in P6; by apply P6 |]. apply P8. by apply list_elem_of_fmap_2.
Qed.

(** C26: every timeout that is attached to the main context on behalf of a TURN
    socket can be found from the socket, so that closing it in any state leaves
    none behind that would run on freed memory. *)
Theorem turn_close_detaches p :
  reachable p → ∃ p', turn_socket_close p = Done (tt, p') ∧ sources p' = [].
Proof.
  intros Hp%reachable_inv. eexists. split; [reflexivity |].
  pose proof (ti_sources _ Hp) as Hs. cbn. rewrite Forall_forall in Hs.
  apply elem_of_nil_inv. intros s Hin%list_elem_of_In. apply List.filter_In in Hin as [Hin Hneg].
  apply list_elem_of_In in Hin. apply negb_true_iff in Hneg. rewrite !orb_false_iff in Hneg.
  destruct Hneg as ((((N1 & N2) & N3) & N4) & N5).
  destruct (Hs s Hin) as [(b & Hb & Eb) | [E | [E | [(r & Hr & Er) | E]]]].
  - apply list_elem_of_In in Hb. rewrite <- not_true_iff_false in N1. apply N1, existsb_exists. exists b.
    split; [done |]. by apply bool_decide_eq_true.
  - by rewrite bool_decide_true in N2.
  - by rewrite bool_decide_true in N3.
  - apply list_elem_of_In in Hr. rewrite <- not_true_iff_false in N4. apply N4, existsb_exists. exists r.
    split; [done |]. by apply Z.eqb_eq.
  - by rewrite bool_decide_true in N5.
Qed.

(** The expiry of a binding has no effect: the code looks for a binding without
    a timeout, and there is none. *)
Lemma expired_binding_stays now p :
  reachable p → priv_binding_expired_timeout PACKAGE_STRING now p = Done (false, p).
Proof.
  intros Hp%reachable_inv. unfold priv_binding_expired_timeout, mbind, st_bind, get. cbv beta iota.
  by rewrite (expired_stays _ _ (ti_channels _ Hp)).
Qed.
End facts.

(** ** A run *)

(** The state after a call that returns. *)
Definition after {S} `{!NiceSocket S, !Malloc, !TurnEnv} {crypto : Crypto} (PACKAGE_STRING : bytes)
    (now : timeval) (op : turn_op) (p : UdpTurnPriv S) : UdpTurnPriv S :=
  match run_op PACKAGE_STRING now op p with Done (_, p') => p' | _ => p end.
Definition returns {A} (m : outcome A) : bool := match m with Done _ => true | _ => false end.

Lemma after_reachable {S} `{!NiceSocket S, !Malloc, !TurnEnv} {crypto : Crypto} PACKAGE_STRING now op (p : UdpTurnPriv S) :
  reachable PACKAGE_STRING p → clock_ok now → op_ok op → returns (run_op PACKAGE_STRING now op p) = true →
  reachable PACKAGE_STRING (after PACKAGE_STRING now op p).
Proof.
  intros Hp Hnow Hop. unfold after, returns. destruct (run_op PACKAGE_STRING now op p) as [[[] p'] | |] eqn:E; [| done..].
  intros _. by apply (reach_op PACKAGE_STRING now op p).
Qed.

(** Data for a peer without permission: the request is on the wire, the data
    wait. *)
Definition demo_send : turn_op := op_send demo_peer [demo_data [1; 2; 3]].
Definition demo_waiting : UdpTurnPriv recorder := after (crypto := toy_crypto) [0] demo_clock demo_send demo_turn.

Lemma demo_waiting_state :
  map (λ w, (w.1, take 2 w.2)) (default [] (rec_wire <$> ut_base demo_waiting)) = [(demo_server, [0; 8])] ∧
  length (pending_permissions demo_waiting) = 1%nat ∧ length (send_data_queues demo_waiting) = 1%nat.
Proof. vm_compute. split_and!; reflexivity. Qed.

Lemma demo_waiting_reachable : reachable (crypto := toy_crypto) [0] demo_waiting.
Proof.
  apply after_reachable.
  - apply reach_new; [done | by_compute | by_compute].
  - by_compute.
  - split; [exact demo_peer_ok |]. apply Forall_singleton. apply Forall_singleton. by_compute.
  - vm_compute. reflexivity.
Qed.

Lemma turn_socket_ends_witness :
  run_op (crypto := toy_crypto) [0] demo_clock (op_timeout 1) demo_waiting ≠ Oof.
Proof.
  apply (turn_socket_ends [0] zeroed_octets demo_clock (op_timeout 1) demo_waiting demo_waiting_reachable); [by_compute | exact I].
Defined.

Lemma turn_socket_consistent_witness :
  (∃ peers, Forall2 (λ m a, ∃ a', request_peer (tm_message m) = Done a' ∧ nice_address_equal a' a = true)
      (pending_permissions demo_waiting) peers ∧ NoDup (keys peers) ∧
    Forall (λ a, priv_has_sent_permission_for_peer demo_waiting a = true) peers) ∧
  NoDup (queue_keys (send_data_queues demo_waiting)).
Proof.
  destruct (turn_socket_consistent [0] zeroed_octets demo_waiting demo_waiting_reachable) as (_ & _ & _ & H & Hq & _).
  exact (conj H Hq).
Defined.

Lemma turn_close_detaches_witness :
  sources demo_waiting ≠ [] ∧ ∃ p', turn_socket_close demo_waiting = Done (tt, p') ∧ sources p' = [].
Proof.
  split; [vm_compute; discriminate |].
  exact (turn_close_detaches [0] zeroed_octets demo_waiting demo_waiting_reachable).
Defined.
