(* ===== verification/UdpTurnData.v ===== *)
(** * Data through a TURN relay

    The frames of channel data, and the data that wait for a permission. *)

From S2P Require Import Prelude Bytes StateMonad StunCrc32 StunMessage StunFacts StunHmac StunAgent StunTimer StunIce StunTurn StunEnds NiceAddress NiceSocket TurnTcp UdpTurn UdpTurnBuild UdpTurnInv UdpTurnRuns UdpTurnCalls UdpTurnSend UdpTurnRecv UdpTurnDemo UdpTurnFacts.

Lemma sizes_zlen (bufs : list bytes) : sizes (map zlen bufs) = zlen (concat bufs).
Proof. induction bufs as [| b bufs IH]; [done |]. cbn [map sizes concat]. rewrite IH. slia. Qed.
Lemma message_size m : output_message_get_size m = zlen (concat (om_buffers m)).
Proof. apply sizes_zlen. Qed.

(** ** Channel data *)

Lemma channel_data_fills bufs pre old post len off :
  zlen pre = 4 + off → zlen old = zlen (concat bufs) → len - off = zlen (concat bufs) → len - off < 2 ^ 64 →
  channel_data_loop bufs (pre ++ old ++ post) len off = Done (pre ++ concat bufs ++ post).
Proof.
  revert pre old off. induction bufs as [| b bufs IH]; intros pre old off Hpre Hold Hlen Hmax; cbn [channel_data_loop concat] in *.
  - destruct old; [done |]. slia.
  - rewrite zlen_app in Hold, Hlen. pose proof (zlen_nonneg (concat bufs)). pose proof (zlen_nonneg b).
    rewrite u64_small by (unfold is_u64; lia). rewrite Z.min_r by lia.
    assert (slice b 0 (zlen b) = Done b) as ->.
    { rewrite <- (app_nil_r b) at 1. exact (slice_app [] b [] 0 (zlen b) eq_refl eq_refl). }
    rewrite bind_Done. rewrite <- (take_drop (length b) old) at 1.
    set (o1 := take (length b) old). set (o2 := drop (length b) old).
    assert (Hl : (length b ≤ length old)%nat) by (unfold zlen in *; lia).
    rewrite <- app_assoc. rewrite (store_app pre o1 (o2 ++ post) b); [| lia |].
    2:{ unfold o1, zlen. rewrite length_take. lia. }
    rewrite bind_Done. replace (pre ++ b ++ o2 ++ post) with ((pre ++ b) ++ o2 ++ post) by by rewrite <- app_assoc.
    rewrite IH; [by rewrite <- !app_assoc | rewrite zlen_app; lia | | lia | lia].
    unfold o2, zlen in *. rewrite length_drop. lia.
Qed.

Section channel.
Context `{!Malloc}.

(** The frame; beyond 65535 octets the length is truncated. *)
Lemma channel_data_spec channel m :
  let data := concat (om_buffers m) in
  zlen data + 4 ≤ STUN_MAX_MESSAGE_SIZE →
  channel_data channel m = Done (Some (be 2 channel ++ be 2 (u16 (zlen data)) ++ data)).
Proof.
  intros data Hlen. unfold channel_data. rewrite message_size. fold data.
  replace (zlen data + 4 <=? STUN_MAX_MESSAGE_SIZE) with true by lia. pose proof (zlen_nonneg data).
  pose proof (g_malloc_length STUN_MAX_MESSAGE_SIZE ltac:(done)) as Hm. set (buf := g_malloc STUN_MAX_MESSAGE_SIZE) in *.
  rewrite <- (take_drop 2 buf), <- (take_drop 2 (drop 2 buf)), drop_drop.
  rewrite <- (take_drop (length data) (drop (2 + 2) buf)), drop_drop.
  set (b0 := take 2 buf). set (b1 := take 2 (drop 2 buf)). set (b2 := take (length data) (drop (2 + 2) buf)).
  set (b3 := drop (2 + 2 + length data) buf).
  assert (L0 : zlen b0 = 2) by (unfold b0, zlen, STUN_MAX_MESSAGE_SIZE in *; rewrite length_take; lia).
  assert (L1 : zlen b1 = 2) by (unfold b1, zlen, STUN_MAX_MESSAGE_SIZE in *; rewrite length_take, length_drop; lia).
  assert (L2 : zlen b2 = zlen data) by (unfold b2, zlen, STUN_MAX_MESSAGE_SIZE in *; rewrite length_take, length_drop; lia).
  change (b0 ++ b1 ++ b2 ++ b3) with ([] ++ b0 ++ b1 ++ b2 ++ b3).
  rewrite (store_app [] b0 (b1 ++ b2 ++ b3) (be 2 channel) 0 eq_refl ltac:(by rewrite L0)), bind_Done.
  cbn [app].
  rewrite (store_app (be 2 channel) b1 (b2 ++ b3) (be 2 (u16 (zlen data))) 2 eq_refl ltac:(by rewrite L1)), bind_Done.
  rewrite app_assoc, (channel_data_fills (om_buffers m) _ b2 b3); [| done | done | fold data; lia | fold data; unfold STUN_MAX_MESSAGE_SIZE in *; lia].
  rewrite bind_Done. fold data. rewrite <- app_assoc.
  match goal with |- context [slice ?x _ _] => change x with ([] ++ x) end.
  replace ([] ++ be 2 channel ++ be 2 (u16 (zlen data)) ++ data ++ b3)
    with ([] ++ (be 2 channel ++ be 2 (u16 (zlen data)) ++ data) ++ b3) by (by rewrite <- !app_assoc).
  rewrite (slice_app [] (be 2 channel ++ be 2 (u16 (zlen data)) ++ data) b3 0 (zlen data + 4) eq_refl);
    [done | slia].
Qed.
End channel.

(** A datagram that begins with a channel number is no STUN message. *)
Lemma channel_not_stun `{crypto : Crypto} agent msg channel d :
  0x4000 ≤ channel < 2 ^ 16 →
  stun_agent_validate agent msg (be 2 channel ++ d) None = Done (STUN_VALIDATION_NOT_STUN, agent, msg).
Proof.
  intros Hc. unfold stun_agent_validate, stun_message_validate_buffer_length, stun_message_validate_buffer_length_fast.
  change (be 2 channel ++ d) with (u8 (channel / 2 ^ 8) :: u8 channel :: d).
  set (buf := u8 (channel / 2 ^ 8) :: u8 channel :: d).
  assert (Hl : 2 ≤ zlen buf) by (unfold buf; rewrite !zlen_cons; pose proof (zlen_nonneg d); lia).
  destruct (Z.ltb_spec (zlen buf) 1); [lia |]. cbn [orb Z.eqb StunMessage.iv_buffer].
  match goal with |- context [iv_getb ?v 0] => change (iv_getb v 0) with (Done (u8 (channel / 2 ^ 8))) end.
  rewrite bind_Done.
  assert (Hb : Z.shiftr (u8 (channel / 2 ^ 8)) 6 ≠ 0).
  { unfold u8. rewrite Z.shiftr_div_pow2 by lia. rewrite Z.mod_small by zlia. zlia. }
  by destruct (Z.eqb_spec (Z.shiftr (u8 (channel / 2 ^ 8)) 6) 0).
Qed.

Lemma find_channel (chs : list ChannelBinding) cur i b :
  channels_inv chs cur → chs !! i = Some b → List.find (λ c, cb_channel c =? cb_channel b) chs = Some b.
Proof.
  intros [Hnum _ _ _ _] Hi. rewrite (Hnum _ _ Hi).
  assert (Hk : ∀ l k, (∀ j c, l !! j = Some c → cb_channel c = 0x4000 + Z.of_nat (k + j)) → (k ≤ i)%nat → l !! (i - k)%nat = Some b →
    List.find (λ c, cb_channel c =? 0x4000 + Z.of_nat i) l = Some b).
  { intros l. induction l as [| c l IH]; intros k Hl Hk Hb; [done |]. cbn [List.find].
    rewrite (Hl 0%nat c eq_refl). destruct (decide (k = i)) as [-> | Hne].
    - rewrite Nat.sub_diag in Hb. injection Hb as ->. by rewrite Nat.add_0_r, Z.eqb_refl.
    - destruct (Z.eqb_spec (0x4000 + Z.of_nat (k + 0)) (0x4000 + Z.of_nat i)); [lia |].
      apply (IH (Datatypes.S k)); [| lia |].
      + intros j x Hj. rewrite (Hl (Datatypes.S j) x Hj). lia.
      + by replace (i - k)%nat with (Datatypes.S (i - Datatypes.S k)) in Hb by lia. }
  apply (Hk chs 0%nat); [by intros j c Hj; apply Hnum | lia | by rewrite Nat.sub_0_r].
Qed.

Section data.
Context {S : Type} `{!NiceSocket S, !Malloc, !TurnEnv} {crypto : Crypto}.
Context (PACKAGE_STRING : bytes).
Implicit Types (p : UdpTurnPriv S).

Lemma agent_eta p : p <| ut_agent := ut_agent p |> = p.
Proof. by destruct p. Qed.

(** C28: channel data round trip: the frame that is sent for a message on a
    channel, read by the socket, is handed up as coming from the peer of that
    channel, with the octets of the message and no others, whoever delivered
    the datagram and whatever follows it in the buffer. *)
Theorem channel_data_roundtrip now p i b m
    (Hmode : turn_standard (ut_compatibility p) = true)
    (Hch : channels_inv (channels p) (current_binding p))
    (Hrel : base_is_reliable p = Done (false, p))
    (Hi : channels p !! i = Some b) (Hsize : output_message_get_size m ≤ 65535) :
  ∃ d, channel_data (cb_channel b) m = Done (Some d) ∧ zlen d = 4 + output_message_get_size m ∧
    ∀ from buf recv_from slack, output_message_get_size m ≤ zlen buf →
      nice_udp_turn_socket_parse_recv PACKAGE_STRING now from (zlen buf) buf recv_from (d ++ slack) (zlen d) p
        = Done ({| pr_length := output_message_get_size m; pr_from_sock := true; pr_from := cb_peer b;
                   pr_buf := concat (om_buffers m) ++ drop (Z.to_nat (output_message_get_size m)) buf |}, p).
Proof.
  rewrite !message_size in *. set (data := concat (om_buffers m)) in *.
  rewrite channel_data_spec by (unfold data in *; unfold STUN_MAX_MESSAGE_SIZE; lia). fold data.
  rewrite u16_small by (unfold is_u16; pose proof (zlen_nonneg data); lia).
  set (d := be 2 (cb_channel b) ++ be 2 (zlen data) ++ data). exists d. split; [done |].
  assert (Hd : zlen d = 4 + zlen data) by (unfold d; slia). split; [done |].
  intros from buf recv_from slack Hbuf. pose proof (zlen_nonneg data). pose proof (zlen_nonneg slack).
  assert (Hcb : 0x4000 ≤ cb_channel b < 2 ^ 16).
  { rewrite (ci_numbers _ _ Hch _ _ Hi). pose proof (ci_bound _ _ Hch). apply lookup_lt_Some in Hi. unfold zlen in *. lia. }
  assert (Hdata : recv_data buf (zlen buf) recv_from (d ++ slack) 0 (zlen d) p
    = Done ({| pr_length := zlen data; pr_from_sock := true; pr_from := cb_peer b;
               pr_buf := data ++ drop (Z.to_nat (zlen data)) buf |}, p)).
  { unfold recv_data, mbind, st_bind, get. cbv beta iota. rewrite Hmode.
    assert (Hslices : d ++ slack = be 2 (cb_channel b) ++ be 2 (zlen data) ++ data ++ slack)
      by (unfold d; by rewrite <- !app_assoc).
    pose proof (slice_app [] (be 2 (cb_channel b)) (be 2 (zlen data) ++ data ++ slack) 0 2 eq_refl eq_refl) as E1.
    pose proof (slice_app (be 2 (cb_channel b)) (be 2 (zlen data)) (data ++ slack) 2 2 eq_refl eq_refl) as E2.
    pose proof (slice_app (be 2 (cb_channel b) ++ be 2 (zlen data)) data slack 4 (zlen data) eq_refl eq_refl) as E3.
    rewrite <- app_assoc in E3. cbn [app] in E1. rewrite <- Hslices in E1, E2, E3.
    destruct (channels p) as [| c0 chs] eqn:Echs; [done |]. rewrite <- Echs in *. unfold lift.
    rewrite E1. rewrite bind_Done. rewrite of_be_be, Z.mod_small by (change (8 * Z.of_nat 2) with 16; lia).
    rewrite (find_channel _ _ _ _ Hch Hi). change (0 + 2) with 2. change (0 + 4) with 4. rewrite E2, bind_Done.
    rewrite of_be_be, Z.mod_small by (change (8 * Z.of_nat 2) with 16; lia).
    unfold mret at 1, outcome_ret at 1. rewrite bind_Done. cbv beta iota zeta.
    rewrite Z.min_r by lia. rewrite E3, bind_Done.
    rewrite <- (take_drop (Z.to_nat (zlen data)) buf) at 1.
    pose proof (store_app [] (take (Z.to_nat (zlen data)) buf) (drop (Z.to_nat (zlen data)) buf) data 0 eq_refl
      ltac:(rewrite zlen_take; lia)) as E4.
    cbn [app] in E4. rewrite E4, bind_Done. reflexivity. }
  unfold nice_udp_turn_socket_parse_recv, mbind, st_bind. rewrite Hrel. cbv beta iota.
  unfold get. cbv beta iota. destruct (nice_address_equal _ _); [| exact Hdata].
  unfold lift. rewrite (slice_app [] d slack 0 (zlen d) eq_refl eq_refl : slice (d ++ slack) 0 (zlen d) = Done d), bind_Done.
  unfold d at 1. rewrite channel_not_stun by done. rewrite bind_Done. unfold put. cbv beta iota.
  rewrite agent_eta. exact Hdata.
Qed.
End data.

(** ** A channel *)

Definition demo_binding : ChannelBinding :=
  {| cb_peer := demo_peer; cb_channel := 0x4000; cb_renew := false; cb_timeout_source := Some 9 |}.
Definition demo_bound : UdpTurnPriv recorder := demo_turn <| channels := [demo_binding] |>.

Lemma demo_bound_channels : channels_inv (channels demo_bound) (current_binding demo_bound).
Proof.
  split; [| by repeat constructor | apply Forall_singleton; exact demo_peer_ok | by_compute | done].
  intros [| i] b E; [by injection E as <- | done].
Qed.

Lemma channel_data_roundtrip_witness :
  ∃ d, channel_data 0x4000 {| om_buffers := [[1; 2]; [3]] |} = Done (Some d) ∧ zlen d = 7 ∧
    ∀ slack, nice_udp_turn_socket_parse_recv (crypto := toy_crypto) [0] demo_clock address_zero 5
        (replicate 5 0) demo_server (d ++ slack) 7 demo_bound
      = Done ({| pr_length := 3; pr_from_sock := true; pr_from := demo_peer; pr_buf := [1; 2; 3; 0; 0] |}, demo_bound).
Proof.
  assert (Hrel : base_is_reliable demo_bound = Done (false, demo_bound)) by reflexivity.
  destruct (channel_data_roundtrip (S := recorder) (crypto := toy_crypto) [0] demo_clock demo_bound 0 demo_binding
    {| om_buffers := [[1; 2]; [3]] |} eq_refl demo_bound_channels Hrel eq_refl ltac:(by_compute))
    as (d & E & Hd & Hread).
  exists d. split; [exact E |]. split; [exact Hd |]. intros slack.
  pose proof (Hread address_zero (replicate 5 0) demo_server slack ltac:(by_compute)) as R. rewrite Hd in R. exact R.
Defined.

(** Data of 65536 octets go out in a frame that says 0. *)
Lemma channel_length_truncated channel b :
  zlen b = 65536 → channel_data channel {| om_buffers := [b] |} = Done (Some (be 2 channel ++ [0; 0] ++ b)).
Proof.
  intros Hb. rewrite channel_data_spec; cbn [om_buffers concat]; rewrite app_nil_r, Hb; [reflexivity |]. by_compute.
Qed.
