(* ===== verification/UdpTurnQueue.v ===== *)
(** * The queue of a peer without a permission

    Data for a peer that waits for its permission go out when it is granted:
    each once, in the order of the sends, before whatever is sent later.  And the
    runs that show where the TURN socket falls short. *)

From S2P Require Import Prelude Bytes StateMonad StunCrc32 StunMessage StunFacts StunHmac StunAgent StunTimer StunIce StunTurn StunEnds NiceAddress NiceSocket TurnTcp UdpTurn UdpTurnBuild UdpTurnInv UdpTurnRuns UdpTurnCalls UdpTurnSend UdpTurnRecv UdpTurnDemo UdpTurnFacts UdpTurnData.

(** A base socket that takes every datagram. *)
Class Datagram (S : Type) `{!NiceSocket S} := {
  wire : S → list (NiceAddress * bytes);
  dg_unreliable : ∀ s : S, is_reliable s = Done false;
  dg_send : ∀ to m (s : S), ∃ s', send_messages (Some to) [m] s = Done (1, s') ∧
    wire s' = wire s ++ [(to, concat (om_buffers m))];
  dg_send_reliable : ∀ to m (s : S), ∃ s', send_messages_reliable (Some to) [m] s = Done (1, s') ∧
    wire s' = wire s ++ [(to, concat (om_buffers m))]
}.

Section queue.
Context {S : Type} `{!NiceSocket S, !EndingSocket S, !Malloc, !TurnEnv, !Datagram S} {crypto : Crypto}.
Context (PACKAGE_STRING : bytes) (now : timeval).
Implicit Types (p : UdpTurnPriv S).

(** Run a step whose result is known. *)
Lemma bind_known {A B} (m : st (UdpTurnPriv S) A) (f : A → st (UdpTurnPriv S) B) p a p' :
  m p = Done (a, p') → (m ≫= f) p = f a p'.
Proof. unfold mbind, st_bind. by intros ->. Qed.

Lemma reliable_known p s : ut_base p = Some s → base_is_reliable p = Done (false, p).
Proof. intros E. unfold base_is_reliable, nice_socket_is_reliable. by rewrite E, dg_unreliable. Qed.

Lemma sent_on_wire to m (reliable : bool) p s :
  ut_base p = Some s →
  ∃ s', on ut_base (if reliable then nice_socket_send_messages_reliable (Some to) [m]
                    else nice_socket_send_messages (Some to) [m]) p = Done (1, p <| ut_base := Some s' |>) ∧
    wire s' = wire s ++ [(to, concat (om_buffers m))].
Proof.
  intros E. unfold on, nice_socket_send_messages_reliable, nice_socket_send_messages, on_base. rewrite E.
  destruct reliable.
  - destruct (dg_send_reliable to m s) as (s' & -> & Hw). by exists s'.
  - destruct (dg_send to m s) as (s' & -> & Hw). by exists s'.
Qed.

Lemma wrapped_on_wire to m reliable p s :
  ut_base p = Some s →
  ∃ s', socket_send_messages_wrapped to m reliable p = Done (1, p <| ut_base := Some s' |>) ∧
    wire s' = wire s ++ [(to, concat (om_buffers m))].
Proof.
  intros E. destruct (sent_on_wire to m reliable p s E) as (s' & Hs & Hw). exists s'. split; [| done].
  unfold socket_send_messages_wrapped. rewrite (bind_known _ _ _ _ _ (reliable_known p s E)). exact Hs.
Qed.

Lemma send_wrapped_on_wire to d reliable p s :
  ut_base p = Some s →
  ∃ s', socket_send_wrapped to d reliable p = Done (zlen d, p <| ut_base := Some s' |>) ∧
    wire s' = wire s ++ [(to, d)].
Proof.
  intros E. destruct (wrapped_on_wire to {| om_buffers := [d] |} reliable p s E) as (s' & Hs & Hw). exists s'.
  cbn [om_buffers concat] in Hw. rewrite app_nil_r in Hw. split; [| done].
  unfold socket_send_wrapped. rewrite (bind_known _ _ _ _ _ (reliable_known p s E)). cbn [negb].
  by rewrite (bind_known _ _ _ _ _ Hs).
Qed.

(** The queue leaves in order. *)
Lemma dequeued q p s :
  ut_base p = Some s →
  ∃ s', dequeue_loop q p = Done (tt, p <| ut_base := Some s' |>) ∧
    wire s' = wire s ++ ((λ d, (server_addr p, sd_data d)) <$> q).
Proof.
  revert p s. induction q as [| d q IH]; intros p s E; cbn [dequeue_loop].
  - exists s. rewrite <- E, base_eta. by rewrite app_nil_r.
  - destruct (send_wrapped_on_wire (server_addr p) (sd_data d) (sd_reliable d) p s E) as (s1 & E1 & W1).
    destruct (IH (p <| ut_base := Some s1 |>) s1) as (s2 & E2 & W2); [done |]. exists s2. split.
    + rewrite (bind_known (get server_addr) _ p (server_addr p) p eq_refl), (bind_known _ _ _ _ _ E1). exact E2.
    + rewrite W2, W1. cbn [fmap list_fmap]. by rewrite <- app_assoc.
Qed.

Lemma queue_lookup_push qs to d :
  plain to → Forall plain (fst <$> qs) →
  queue_lookup (queue_push qs to d) to = Some (default [] (queue_lookup qs to) ++ [d]).
Proof.
  intros Ht. unfold queue_lookup. induction qs as [| [a q] qs IH]; cbn [queue_push fmap list_fmap fst].
  - intros _. cbn [List.find fst]. by rewrite equal_key, bool_decide_true.
  - intros [Ha Hqs]%Forall_cons. destruct (nice_address_equal a to) eqn:E; cbn [List.find fst]; rewrite E; [done |].
    by apply IH.
Qed.

Lemma queue_lookup_remove qs to :
  plain to → Forall plain (fst <$> qs) → NoDup (queue_keys qs) → queue_lookup (queue_remove qs to) to = None.
Proof.
  intros Ht Hqs Hnd. destruct (queue_lookup (queue_remove qs to) to) eqn:E; [| done].
  unfold queue_lookup in E. apply fmap_Some in E as ([a q] & E & _). apply List.find_some in E as [Hin E].
  cbn [fst] in E. apply list_elem_of_In in Hin.
  assert (Ha : a ∈ fst <$> queue_remove qs to) by (apply list_elem_of_fmap; by exists (a, q)).
  pose proof (queue_remove_keys qs to a Ht Hqs Hnd Ha) as Hne.
  rewrite equal_key in E; [by apply bool_decide_eq_true in E | | done].
  assert (Hsub : (fst <$> queue_remove qs to) `sublist_of` (fst <$> qs)) by (apply fmap_sublist, queue_remove_sublist).
  rewrite Forall_forall in Hqs. apply Hqs. by eapply elem_of_sublist.
Qed.

(** ** Sends that wait *)

(** A send for each of the messages that were built. *)
Fixpoint send_each (to : NiceAddress) (ds : list SendData) : st (UdpTurnPriv S) unit :=
  match ds with
  | [] => mret tt
  | d :: ds => _ ← send_built PACKAGE_STRING now to (sd_data d) (sd_reliable d); send_each to ds
  end.
Definition queue_pushes (to : NiceAddress) (ds : list SendData) (qs : list (NiceAddress * list SendData)) :=
  foldl (λ qs d, queue_push qs to d) qs ds.

Lemma queues_eta p : p <| send_data_queues := send_data_queues p |> = p.
Proof. by destruct p. Qed.

Lemma send_waits to ds p :
  ut_compatibility p = NICE_TURN_SOCKET_COMPATIBILITY_RFC5766 →
  priv_has_permission_for_peer p to = false → priv_has_sent_permission_for_peer p to = true →
  send_each to ds p = Done (tt, p <| send_data_queues := queue_pushes to ds (send_data_queues p) |>).
Proof.
  intros Hc Hno Hsent. revert p Hc Hno Hsent. induction ds as [| d ds IH]; intros p Hc Hno Hsent; cbn [send_each].
  { cbn [queue_pushes foldl]. by rewrite queues_eta. }
  erewrite bind_known.
  2:{ unfold send_built. rewrite (bind_known (get (λ p, p)) _ p p p eq_refl), Hc, Hno, Hsent.
      rewrite bool_decide_true by done. reflexivity. }
  rewrite IH by done. by destruct d.
Qed.

Lemma pushes_lookup to ds qs :
  plain to → Forall plain (fst <$> qs) →
  default [] (queue_lookup (queue_pushes to ds qs) to) = default [] (queue_lookup qs to) ++ ds.
Proof.
  intros Ht. revert qs. induction ds as [| d ds IH]; intros qs Hqs; cbn [queue_pushes foldl]; [by rewrite app_nil_r |].
  fold (queue_pushes to ds (queue_push qs to d)). rewrite IH.
  - rewrite queue_lookup_push by done. cbn [from_option id]. by rewrite <- app_assoc.
  - rewrite Forall_forall in *. intros a ([a' q] & -> & Ha)%list_elem_of_fmap. cbn [fst].
    apply queue_push_peers in Ha as [Ha | ->]; [by apply Hqs | done].
Qed.

Lemma pushes_inv to ds p :
  turn_inv p → peer_ok to → peer_key to ∈ keys (sent_permissions p) →
  turn_inv (p <| send_data_queues := queue_pushes to ds (send_data_queues p) |>).
Proof.
  intros Hp Hto Hin. revert p Hp Hin. induction ds as [| d ds IH]; intros p Hp Hin; cbn [queue_pushes foldl].
  { by rewrite queues_eta. }
  pose proof (queue_message to (sd_data d) (sd_reliable d) p Hp Hto Hin) as Hq.
  specialize (IH _ Hq Hin). by destruct d.
Qed.

Lemma queue_lookup_key (qs : list (NiceAddress * list SendData)) a b :
  Forall plain (fst <$> qs) → plain a → plain b → peer_key a = peer_key b → queue_lookup qs a = queue_lookup qs b.
Proof.
  intros Hqs Ha Hb Hk. unfold queue_lookup. f_equal. induction qs as [| [c q] qs IH]; [done |].
  cbn [fmap list_fmap fst] in Hqs. apply Forall_cons in Hqs as [Hc Hqs]. cbn [List.find fst].
  rewrite !equal_key, Hk by done. case_bool_decide; [done |]. by apply IH.
Qed.

(** ** The answer *)

Lemma permission_answer p s i m to id answer :
  turn_inv p → ut_base p = Some s → pending_permissions p !! i = Some m → request_peer (tm_message m) = Done to →
  stun_message_id answer = Done id → find_request (pending_permissions p) id 0 = Done (Some (i, tm_message m)) →
  stun_message_get_class answer = Done STUN_RESPONSE →
  ∃ p' s', parse_create_permission PACKAGE_STRING now answer p = Done (goto_done, p') ∧
    ut_base p' = Some s' ∧
    wire s' = wire s ++ ((λ d, (server_addr p, sd_data d)) <$> default [] (queue_lookup (send_data_queues p) to)) ∧
    permissions p' = permissions p ++ [to] ∧ send_data_queues p' = queue_remove (send_data_queues p) to ∧
    ut_compatibility p' = ut_compatibility p ∧ server_addr p' = server_addr p.
Proof.
  intros Hp Hs Hi Hto Hid Hfind Hclass. pose proof (ti_perms _ Hp) as HP.
  destruct (pending_delete _ _ _ _ _ _ HP Hi Hto) as [Hok _].
  destruct (remove_peer_spec (sent_permissions p) to) as (sent' & Es & _);
    [by apply Hok | apply peer_ok_plain, HP | apply HP |].
  unfold parse_create_permission. rewrite (bind_known (get pending_permissions) _ p _ p eq_refl).
  rewrite (bind_known _ _ p (Some (i, tm_message m)) p).
  2:{ destruct (pending_permissions p) as [| m0 l]; [done |]. unfold mbind, st_bind, lift.
      rewrite Hid, bind_Done. cbv beta iota. by rewrite Hfind. }
  cbv beta iota. rewrite (bind_known _ _ p to p) by (unfold lift; by rewrite Hto).
  rewrite (bind_known _ _ p STUN_RESPONSE p) by (unfold lift; by rewrite Hclass).
  rewrite (bind_known _ _ p false p) by done. cbv iota.
  set (p1 := p <| sent_permissions := sent' |>).
  rewrite (bind_known _ _ p tt p1).
  2:{ unfold priv_remove_sent_permission_for_peer.
      rewrite (bind_known (get sent_permissions) _ p _ p eq_refl). unfold mbind, st_bind, lift. by rewrite Es. }
  set (p2 := p1 <| permissions := permissions p ++ [to] |>).
  rewrite (bind_known (priv_add_permission_for_peer to) _ p1 tt p2 eq_refl).
  rewrite (bind_known (get permission_timeout_source) _ p2 _ p2 eq_refl).
  assert (Hsrc : ∃ p3, (match permission_timeout_source p2 with
      | None => when (bool_decide (STUN_RESPONSE = STUN_RESPONSE))
          (source ← priv_timeout_add_seconds_with_context STUN_PERMISSION_TIMEOUT priv_permission_timeout_cb;
           put permission_timeout_source (Some source))
      | Some _ => mret tt end) p2 = Done (tt, p3) ∧
    ut_base p3 = Some s ∧ server_addr p3 = server_addr p ∧ permissions p3 = permissions p ++ [to] ∧
    send_data_queues p3 = send_data_queues p ∧ ut_compatibility p3 = ut_compatibility p).
  { destruct (permission_timeout_source p2); eexists; (split; [reflexivity |]); by split_and!. }
  destruct Hsrc as (p3 & E3 & B3 & A3 & G3 & Q3 & C3). rewrite (bind_known _ _ _ _ _ E3). clear E3.
  assert (Hq : ∃ p4 s4, socket_dequeue_all_data to p3 = Done (tt, p4) ∧ ut_base p4 = Some s4 ∧
    wire s4 = wire s ++ ((λ d, (server_addr p, sd_data d)) <$> default [] (queue_lookup (send_data_queues p) to)) ∧
    permissions p4 = permissions p ++ [to] ∧ send_data_queues p4 = queue_remove (send_data_queues p) to ∧
    ut_compatibility p4 = ut_compatibility p ∧ server_addr p4 = server_addr p).
  { unfold socket_dequeue_all_data. rewrite (bind_known (get send_data_queues) _ p3 _ p3 eq_refl), Q3.
    destruct (queue_lookup (send_data_queues p) to) as [q |] eqn:Eq.
    - destruct (dequeued q p3 s B3) as (s4 & E4 & W4). rewrite (bind_known _ _ _ _ _ E4).
      eexists _, s4. split; [reflexivity |]. rewrite A3 in W4. split_and!; [done | done | exact G3 | by rewrite <- Q3 | exact C3 | exact A3].
    - exists p3, s. split_and!; [done | done | by rewrite app_nil_r | done | by rewrite queue_remove_none | done | done]. }
  destruct Hq as (p4 & s4 & E4 & B4 & W4 & G4 & Q4 & C4 & A4). rewrite (bind_known _ _ _ _ _ E4).
  eexists _, s4. split; [reflexivity |]. by split_and!.
Qed.

(** C9: in the RFC 5766 mode, over a base that takes every datagram: data for a
    peer whose permission has been asked for put nothing on the wire.  When the
    server grants it they go to the server, after those that waited already,
    each once and in the order of the sends; then nothing waits, and later data
    go out at once. *)
Theorem turn_permission_gate p s i m to to' id answer ds d
    (Hmalloc : ∀ n, bytes_ok (g_malloc n))
    (Hp : reachable PACKAGE_STRING p) (Hs : ut_base p = Some s)
    (Hmode : ut_compatibility p = NICE_TURN_SOCKET_COMPATIBILITY_RFC5766)
    (Hto : peer_ok to) (Hno : priv_has_permission_for_peer p to = false)
    (Hi : pending_permissions p !! i = Some m) (Hpeer : request_peer (tm_message m) = Done to')
    (Heq : nice_address_equal to' to = true)
    (Hid : stun_message_id answer = Done id)
    (Hfind : find_request (pending_permissions p) id 0 = Done (Some (i, tm_message m)))
    (Hclass : stun_message_get_class answer = Done STUN_RESPONSE) :
  ∃ p1 p2 p3 s2 s3,
    send_each to ds p = Done (tt, p1) ∧ ut_base p1 = Some s ∧
    parse_create_permission PACKAGE_STRING now answer p1 = Done (goto_done, p2) ∧ ut_base p2 = Some s2 ∧
    wire s2 = wire s ++
      ((λ d, (server_addr p, sd_data d)) <$> default [] (queue_lookup (send_data_queues p) to) ++ ds) ∧
    queue_lookup (send_data_queues p2) to = None ∧
    send_built PACKAGE_STRING now to (sd_data d) (sd_reliable d) p2 = Done (zlen (sd_data d), p3) ∧
    ut_base p3 = Some s3 ∧ wire s3 = wire s2 ++ [(server_addr p, sd_data d)].
Proof.
  apply reachable_inv in Hp; [| done]. pose proof (ti_perms _ Hp) as HP.
  destruct (pending_delete _ _ _ _ _ _ HP Hi Hpeer) as [Hok' _].
  assert (Hk : peer_key to' = peer_key to).
  { rewrite equal_key in Heq by (apply Hok' || apply Hto). by apply bool_decide_eq_true in Heq. }
  assert (Hin : peer_key to ∈ keys (sent_permissions p)).
  { destruct (pi_pending _ _ _ HP) as (peers & P3 & _ & P5).
    destruct (Forall2_lookup_l _ _ _ _ _ P3 Hi) as (b & Hb & Habout & Hb' & _).
    destruct (about_peer _ _ Habout Hb') as (x & Ex & _ & Kx). rewrite Ex in Hpeer. injection Hpeer as ->.
    rewrite <- Hk, Kx. apply P5. apply list_elem_of_fmap_2. by eapply list_elem_of_lookup_2. }
  assert (Hsent : priv_has_sent_permission_for_peer p to = true)
    by (rewrite has_sent_key by done; by apply bool_decide_eq_true).
  pose proof (send_waits to ds p Hmode Hno Hsent) as E1. pose proof (pushes_inv to ds p Hp Hto Hin) as Hp1.
  set (p1 := p <| send_data_queues := queue_pushes to ds (send_data_queues p) |>) in *.
  destruct (permission_answer p1 s i m to' id answer Hp1 Hs Hi Hpeer Hid Hfind Hclass)
    as (p2 & s2 & E2 & B2 & W2 & G2 & Q2 & C2 & A2).
  assert (Hplain : Forall plain (fst <$> send_data_queues p1)) by apply peer_ok_plain, (pi_queues _ _ _ (ti_perms _ Hp1)).
  rewrite (queue_lookup_key _ to' to) in W2 by (done || apply Hok' || apply Hto).
  change (send_data_queues p1) with (queue_pushes to ds (send_data_queues p)) in W2. rewrite (pushes_lookup to ds) in W2 by first [apply Hto | apply peer_ok_plain, HP].
  destruct (wrapped_on_wire (server_addr p2) {| om_buffers := [sd_data d] |} (sd_reliable d) p2 s2 B2) as (s3 & E3 & W3).
  exists p1, p2, (p2 <| ut_base := Some s3 |>), s2, s3. split_and!; [exact E1 | done | exact E2 | done | exact W2 | | | done |].
  - rewrite Q2. rewrite (queue_lookup_key _ to to').
    + apply queue_lookup_remove; [apply Hok' | done | exact (pi_queues_nodup _ _ _ (ti_perms _ Hp1))].
    + eapply sublist_forall; [exact Hplain |]. apply fmap_sublist, queue_remove_sublist.
    + apply Hto.
    + apply Hok'.
    + done.
  - unfold send_built. rewrite (bind_known (get (λ p, p)) _ p2 p2 p2 eq_refl).
    assert (priv_has_permission_for_peer p2 to = true) as ->.
    { unfold priv_has_permission_for_peer, priv_is_peer_in_list. rewrite G2. apply existsb_exists. exists to'.
      split; [apply in_or_app; right; by left | done]. }
    rewrite andb_false_r. rewrite (bind_known _ _ _ _ _ E3). reflexivity.
  - rewrite W3, A2. cbn [om_buffers concat]. by rewrite app_nil_r.
Qed.
End queue.

(** ** A run *)

#[export] Instance recorder_datagram : Datagram recorder.
Proof.
  refine {| wire := rec_wire; dg_unreliable := λ s, eq_refl |};
    intros to m s; eexists; (split; [reflexivity |]); reflexivity.
Defined.

(** The answer of the server to the request in flight. *)
Definition demo_granted : StunMessage :=
  Build_StunMessage None ([1; 8; 0; 0] ++ [0x21; 0x12; 0xa4; 0x42] ++ drop 4 (make_transid 1)) None (replicate 16 0) false.

Definition demo_id : bytes := [0x21; 0x12; 0xa4; 0x42] ++ drop 4 (make_transid 1).

(** What is in flight: the request for the peer, with that identifier. *)
Lemma demo_in_flight : ∃ s m to,
  ut_base demo_waiting = Some s ∧ pending_permissions demo_waiting !! 0%nat = Some m ∧
  request_peer (tm_message m) = Done to ∧ nice_address_equal to demo_peer = true ∧
  find_request (pending_permissions demo_waiting) demo_id 0 = Done (Some (0%nat, tm_message m)).
Proof.
  assert (match ut_base demo_waiting, pending_permissions demo_waiting with
          | Some _, m :: _ =>
              match request_peer (tm_message m), stun_message_id (tm_message m) with
              | Done to, Done id => nice_address_equal to demo_peer && bool_decide (id = demo_id)
              | _, _ => false
              end
          | _, _ => false
          end = true) as E by (vm_compute; reflexivity).
  destruct (ut_base demo_waiting) as [s |]; [| discriminate E].
  destruct (pending_permissions demo_waiting) as [| m l]; [discriminate E |].
  destruct (request_peer (tm_message m)) as [to | |] eqn:Eto; [| discriminate E..].
  destruct (stun_message_id (tm_message m)) as [id | |] eqn:Eid; [| discriminate E..].
  apply andb_prop in E as [Eeq Ed]. exists s, m, to. split_and!; [done.. |].
  cbn [find_request]. rewrite Eid, bind_Done. by rewrite Ed.
Qed.

Lemma turn_permission_gate_witness :
  ∃ s p1 p2 p3 s2 s3,
    ut_base demo_waiting = Some s ∧
    send_each (crypto := toy_crypto) [0] demo_clock demo_peer [] demo_waiting = Done (tt, p1) ∧
    parse_create_permission (crypto := toy_crypto) [0] demo_clock demo_granted p1 = Done (goto_done, p2) ∧
    wire s2 = wire s ++ ((λ d, (demo_server, sd_data d)) <$>
      default [] (queue_lookup (send_data_queues demo_waiting) demo_peer) ++ []) ∧
    send_built (crypto := toy_crypto) [0] demo_clock demo_peer [5] false p2 = Done (1, p3) ∧
    wire s3 = wire s2 ++ [(demo_server, [5])].
Proof.
  destruct demo_in_flight as (s & m & to & Hs & Hm & Hto & Heq & Hfind).
  assert (Hno : priv_has_permission_for_peer demo_waiting demo_peer = false) by (vm_compute; reflexivity).
  assert (Hmode : ut_compatibility demo_waiting = NICE_TURN_SOCKET_COMPATIBILITY_RFC5766) by (vm_compute; reflexivity).
  assert (Hserver : server_addr demo_waiting = demo_server) by (vm_compute; reflexivity).
  destruct (turn_permission_gate (crypto := toy_crypto) [0] demo_clock demo_waiting s 0 m demo_peer to demo_id
    demo_granted [] {| sd_data := [5]; sd_reliable := false |} zeroed_octets demo_waiting_reachable Hs Hmode
    demo_peer_ok Hno Hm Hto Heq ltac:(vm_compute; reflexivity) Hfind ltac:(vm_compute; reflexivity))
    as (p1 & p2 & p3 & s2 & s3 & E1 & _ & E2 & _ & W2 & _ & E3 & _ & W3).
  rewrite Hserver in W2, W3. exists s, p1, p2, p3, s2, s3. split_and!; [exact Hs | exact E1 | exact E2 | exact W2 | exact E3 | exact W3].
Defined.

(** ** Where the TURN socket falls short

    What the theorems exclude from their hypotheses or cannot promise. *)

(** The length in a channel frame is not compared with the length of the
    datagram: octets that an earlier datagram left in the buffer are handed up. *)
Lemma stale_octets_delivered :
  (r ← recv_data (replicate 8 0) 8 demo_server ([0x40; 0; 0; 4] ++ [9; 8; 7; 6]) 0 4 demo_bound;
   Done (pr_length r.1, take 4 (pr_buf r.1)))
  = Done (4, [9; 8; 7; 6]).
Proof. vm_compute. reflexivity. Qed.

(** Nor is the sender of the datagram. *)
Lemma stranger_speaks_for_peer :
  (r ← recv_data (replicate 8 0) 8 (ipv4 0x0a000001 9) ([0x40; 0; 0; 1] ++ [9]) 0 5 demo_bound;
   Done (pr_from r.1, pr_from_sock r.1)) = Done (demo_peer, true).
Proof. vm_compute. reflexivity. Qed.

(** *** A request that is never sent again *)

Definition demo_peer2 : NiceAddress := ipv4 0xc0000203 5001.

(** The retransmission timeout of the channel request runs when it is due. *)
Definition tick_due (p : UdpTurnPriv recorder) : UdpTurnPriv recorder :=
  match tick_source_channel_bind p, current_binding_msg p with
  | Some id, Some m => after (crypto := toy_crypto) [0] (deadline (tm_timer m)) (op_timeout id) p
  | _, _ => p
  end.
Definition two_peers : UdpTurnPriv recorder :=
  after (crypto := toy_crypto) [0] demo_clock (op_set_peer demo_peer2)
    (after (crypto := toy_crypto) [0] demo_clock (op_set_peer demo_peer) demo_turn).
(** The server does not answer. *)
Definition unanswered : UdpTurnPriv recorder := Nat.iter 7 tick_due two_peers.

Definition view (p : UdpTurnPriv recorder) : nat * option NiceAddress * bool * option Z * nat :=
  (length (default [] (rec_wire <$> ut_base p)), cb_peer <$> current_binding p,
   bool_decide (is_Some (current_binding_msg p)), tick_source_channel_bind p, length (sources p)).

(** When the request for the first peer is given up, the one for the second is
    sent, but the callback then drops the timeout made for it: no retransmission
    follows, and the peers after it wait for ever. *)
Lemma request_without_timeout :
  view two_peers = (1%nat, Some demo_peer, true, Some 1, 1%nat) ∧
  view unanswered = (8%nat, Some demo_peer2, true, None, 0%nat).
Proof. vm_compute. split; reflexivity. Qed.
