(* ===== verification/StunBind.v ===== *)
(** * Binding discovery (stun/usages/bind.c)

    The request and the reading of its answer, the keepalive, and the blocking
    run of a transaction over a socket of its own.  The operating system is a
    class over the states of the world; poll is there (HAVE_POLL), flags and
    options of the socket are left out.  The copy of the server's address keeps
    all of it, where the code keeps the first [dstlen] octets: no more is used. *)

From S2P Require Import Prelude Bytes StateMonad StunCrc32 StunMessage StunHmac StunAgent StunTimer StunTurn NiceAddress UdpTurn.
#[global] Open Scope Z_scope.

Inductive StunUsageBindReturn :=
| STUN_USAGE_BIND_RETURN_SUCCESS
| STUN_USAGE_BIND_RETURN_ERROR
| STUN_USAGE_BIND_RETURN_INVALID
| STUN_USAGE_BIND_RETURN_ALTERNATE_SERVER
| STUN_USAGE_BIND_RETURN_TIMEOUT.
#[export] Instance StunUsageBindReturn_eq_dec : EqDecision StunUsageBindReturn.
Proof. solve_decision. Defined.

Inductive StunUsageTransReturn :=
| STUN_USAGE_TRANS_RETURN_SUCCESS
| STUN_USAGE_TRANS_RETURN_ERROR
| STUN_USAGE_TRANS_RETURN_RETRY
| STUN_USAGE_TRANS_RETURN_INVALID_ADDRESS
| STUN_USAGE_TRANS_RETURN_UNSUPPORTED.
#[export] Instance StunUsageTransReturn_eq_dec : EqDecision StunUsageTransReturn.
Proof. solve_decision. Defined.

(** ** Messages *)

(** The case STUN_ERROR. *)
Definition bind_error (msg : StunMessage) (addr : addr_arg) (alternate_server : option addr_arg)
  : outcome (StunUsageBindReturn * addr_arg * option addr_arg) :=
  e ← stun_message_find_error msg;
  match e with
  | (STUN_MESSAGE_RETURN_SUCCESS, Some code) =>
      if code / 100 =? 3 then
        match alternate_server with
        | Some a =>
            '(ok, a) ← find_addr msg STUN_ATTRIBUTE_ALTERNATE_SERVER a;
            mret (if ok : bool then STUN_USAGE_BIND_RETURN_ALTERNATE_SERVER
                  else STUN_USAGE_BIND_RETURN_ERROR, addr, Some a)
        | None =>
            has ← stun_message_has_attribute msg STUN_ATTRIBUTE_ALTERNATE_SERVER;
            mret (if has : bool then STUN_USAGE_BIND_RETURN_ALTERNATE_SERVER
                  else STUN_USAGE_BIND_RETURN_ERROR, addr, None)
        end
      else mret (STUN_USAGE_BIND_RETURN_ERROR, addr, alternate_server)
  | _ => mret (STUN_USAGE_BIND_RETURN_INVALID, addr, alternate_server)
  end.

(** The value returned and what the arguments point to. *)
Definition stun_usage_bind_process (msg : StunMessage) (addr : addr_arg) (alternate_server : option addr_arg)
  : outcome (StunUsageBindReturn * addr_arg * option addr_arg) :=
  method ← stun_message_get_method msg;
  if negb (method =? STUN_BINDING) then mret (STUN_USAGE_BIND_RETURN_INVALID, addr, alternate_server)
  else
    c ← stun_message_get_class msg;
    match c with
    | STUN_REQUEST | STUN_INDICATION => mret (STUN_USAGE_BIND_RETURN_INVALID, addr, alternate_server)
    | STUN_ERROR => bind_error msg addr alternate_server
    | STUN_RESPONSE =>
        '(ok, addr) ← find_xor_addr msg STUN_ATTRIBUTE_XOR_MAPPED_ADDRESS addr;
        if (ok : bool) then mret (STUN_USAGE_BIND_RETURN_SUCCESS, addr, alternate_server)
        else
          '(ok, addr) ← find_addr msg STUN_ATTRIBUTE_MAPPED_ADDRESS addr;
          mret (if ok : bool then STUN_USAGE_BIND_RETURN_SUCCESS else STUN_USAGE_BIND_RETURN_ERROR,
                addr, alternate_server)
    end.

Section create.
Context {crypto : Crypto}.
Context (PACKAGE_STRING : bytes).

Definition stun_usage_bind_create (agent : StunAgent) (msg : StunMessage) (buffer transid : bytes)
  : outcome (Z * StunAgent * StunMessage) :=
  '(msg, _) ← stun_agent_init_request PACKAGE_STRING agent msg buffer STUN_BINDING transid;
  stun_agent_finish_message agent msg None.
Definition stun_usage_bind_keepalive (agent : StunAgent) (msg : StunMessage) (buf transid : bytes)
  : outcome (Z * StunAgent * StunMessage) :=
  '(msg, _) ← stun_agent_init_indication agent msg buf STUN_BINDING transid;
  stun_agent_finish_message agent msg None.
End create.

(** ** The transport *)

Record StunTransport := { tr_fd : Z; tr_own_fd : Z; tr_dstlen : Z; tr_dst : sockaddr_storage }.

Definition SOCK_DGRAM : Z := 2.
Definition sockaddr_family (a : sockaddr_storage) : Z :=
  match a with
  | sockaddr_in _ _ => AF_INET
  | sockaddr_in6 _ _ _ _ => AF_INET6
  | sockaddr_other f => f
  end.

(** A socket call may change the world in any way. *)
Class BindOs (W : Type) := {
  os_gettimeofday : W → timeval * W;
  os_socket : Z → Z → Z → W → Z * W            (* family, type, protocol *);
  os_connect : Z → addr_arg → W → bool * W      (* connected, or in progress *);
  os_sendto : Z → bytes → option addr_arg → W → Z * W;
  os_errqueue : Z → W → bool * W                (* an error was taken from the queue *);
  os_recv : Z → Z → W → option bytes * W;
  os_poll : Z → Z → W → Z * W;
  os_close : Z → W → W
}.

(** What was done to sockets, the newest first. *)
Inductive bind_event :=
| Opened (fd : Z)
| Closed (fd : Z)
| Sent (fd : Z) (data : bytes) (dst : sockaddr_storage).

Section transport.
Context {W : Type} {os : BindOs W}.

(** The variables of [stun_usage_bind_run] that its helpers change. *)
Record BindRun := {
  br_world : W;
  br_trans : StunTransport;
  br_timer : StunTimer;
  br_agent : StunAgent;
  br_log : list bind_event
}.
Definition eta_BindRun (r : BindRun) : BindRun :=
  Build_BindRun (br_world r) (br_trans r) (br_timer r) (br_agent r) (br_log r).
#[export] Instance set_br_world : Setter br_world := ltac:(derive_setter eta_BindRun br_world).
#[export] Instance set_br_trans : Setter br_trans := ltac:(derive_setter eta_BindRun br_trans).
#[export] Instance set_br_timer : Setter br_timer := ltac:(derive_setter eta_BindRun br_timer).
#[export] Instance set_br_agent : Setter br_agent := ltac:(derive_setter eta_BindRun br_agent).
#[export] Instance set_br_log : Setter br_log := ltac:(derive_setter eta_BindRun br_log).

Abbreviation M := (st BindRun).

Definition os_call {A} (f : W → A * W) : M A := λ r,
  let '(x, w) := f (br_world r) in Done (x, r <| br_world := w |>).
Definition log (e : bind_event) : M unit := upd br_log (cons e).

Definition stun_trans_init (fd : Z) (srv : option addr_arg) : M StunUsageTransReturn :=
  _ ← assert_st (negb (fd =? -1));
  tr ← get br_trans;
  let '(dst, srvlen) := match srv with Some a => a | None => (tr_dst tr, 0) end in
  if sizeof_sockaddr_storage <? srvlen then mret STUN_USAGE_TRANS_RETURN_INVALID_ADDRESS
  else
    _ ← put br_trans {| tr_fd := fd; tr_own_fd := -1; tr_dstlen := srvlen; tr_dst := dst |};
    mret STUN_USAGE_TRANS_RETURN_SUCCESS.

Definition stun_socket (family type proto : Z) : M Z :=
  fd ← os_call (os_socket family type proto);
  if fd =? -1 then mret (-1) else _ ← log (Opened fd); mret fd.
Definition close (fd : Z) : M unit :=
  _ ← os_call (λ w, (tt, os_close fd w)); log (Closed fd).

Definition stun_trans_create (type proto : Z) (srv : addr_arg) : M StunUsageTransReturn :=
  if srv.2 <? sizeof_sockaddr then mret STUN_USAGE_TRANS_RETURN_INVALID_ADDRESS
  else
    fd ← stun_socket (sockaddr_family srv.1) type proto;
    if fd =? -1 then mret STUN_USAGE_TRANS_RETURN_ERROR
    else
      val ← (if negb (type =? SOCK_DGRAM) then
               ok ← os_call (os_connect fd srv);
               if (ok : bool) then stun_trans_init fd None else mret STUN_USAGE_TRANS_RETURN_ERROR
             else stun_trans_init fd (Some srv));
      if bool_decide (val = STUN_USAGE_TRANS_RETURN_SUCCESS) then
        tr ← get br_trans;
        _ ← put br_trans {| tr_fd := tr_fd tr; tr_own_fd := tr_fd tr; tr_dstlen := tr_dstlen tr; tr_dst := tr_dst tr |};
        mret STUN_USAGE_TRANS_RETURN_SUCCESS
      else _ ← close fd; mret val.

Definition stun_trans_deinit : M unit :=
  tr ← get br_trans;
  _ ← assert_st (negb (tr_fd tr =? -1));
  _ ← when (negb (tr_own_fd tr =? -1)) (close (tr_own_fd tr));
  put br_trans {| tr_fd := -1; tr_own_fd := -1; tr_dstlen := tr_dstlen tr; tr_dst := tr_dst tr |}.

Definition stun_err_dequeue (fd : Z) : M bool := os_call (os_errqueue fd).

Fixpoint stun_trans_sendto (fuel : nat) (buf : bytes) (dst : addr_arg) : M Z :=
  match fuel with
  | O => oof
  | S fuel =>
      tr ← get br_trans;
      val ← os_call (os_sendto (tr_fd tr) buf (if 0 <? dst.2 then Some dst else None));
      _ ← log (Sent (tr_fd tr) buf dst.1);
      if val =? -1 then
        again ← stun_err_dequeue (tr_fd tr);
        if (again : bool) then stun_trans_sendto fuel buf dst else mret val
      else mret val
  end.
Definition stun_trans_send (fuel : nat) (buf : bytes) : M Z :=
  tr ← get br_trans; stun_trans_sendto fuel buf (tr_dst tr, tr_dstlen tr).

(** [None]: -1. *)
Definition stun_trans_recv (maxlen : Z) : M (option bytes) :=
  tr ← get br_trans;
  val ← os_call (os_recv (tr_fd tr) maxlen);
  match val with
  | Some b => mret (Some b)
  | None => _ ← stun_err_dequeue (tr_fd tr); mret None
  end.

Definition stun_trans_poll (delay : Z) : M StunUsageTransReturn :=
  tr ← get br_trans;
  n ← os_call (os_poll (tr_fd tr) (s32 delay));
  mret (if n <=? 0 then STUN_USAGE_TRANS_RETURN_RETRY else STUN_USAGE_TRANS_RETURN_SUCCESS).

(** ** The run *)

Definition timer_start : M unit :=
  now ← os_call os_gettimeofday;
  t ← lift (stun_timer_start now STUN_TIMER_DEFAULT_TIMEOUT STUN_TIMER_DEFAULT_MAX_RETRANSMISSIONS);
  put br_timer t.
Definition timer_refresh : M StunUsageTimerReturn :=
  now ← os_call os_gettimeofday;
  t ← get br_timer;
  '(t, r) ← lift (stun_timer_refresh t now);
  _ ← put br_timer t;
  mret r.

(** The inner loop: a datagram, or the value to return. *)
Fixpoint await_datagram (fuel : nat) (req : bytes) : M (StunUsageBindReturn + bytes) :=
  match fuel with
  | O => oof
  | S fuel =>
      let receive :=
        val ← stun_trans_recv STUN_MAX_MESSAGE_SIZE;
        match val with Some b => mret (inr b) | None => await_datagram fuel req end in
      now ← os_call os_gettimeofday;
      t ← get br_timer;
      ret ← stun_trans_poll (stun_timer_remainder t now);
      if bool_decide (ret = STUN_USAGE_TRANS_RETURN_RETRY) then
        r ← timer_refresh;
        match r with
        | STUN_USAGE_TIMER_RETURN_TIMEOUT => mret (inl STUN_USAGE_BIND_RETURN_TIMEOUT)
        | STUN_USAGE_TIMER_RETURN_RETRANSMIT =>
            val ← stun_trans_send fuel req;
            if val <? -1 then mret (inl STUN_USAGE_BIND_RETURN_ERROR) else await_datagram fuel req
        | STUN_USAGE_TIMER_RETURN_SUCCESS => receive
        end
      else receive
  end.

Section run.
Context {crypto : Crypto}.

(** The outer loop. *)
Fixpoint bind_loop (fuel : nat) (req : bytes) (msg : StunMessage) (addr alternate_server : addr_arg)
  : M (StunUsageBindReturn * addr_arg) :=
  match fuel with
  | O => oof
  | S fuel =>
      r ← await_datagram fuel req;
      match r with
      | inl bind_ret => mret (bind_ret, addr)
      | inr buf =>
          agent ← get br_agent;
          '(valid, agent, msg) ← lift (stun_agent_validate agent msg buf None);
          _ ← put br_agent agent;
          match valid with
          | STUN_VALIDATION_UNKNOWN_ATTRIBUTE => mret (STUN_USAGE_BIND_RETURN_ERROR, addr)
          | STUN_VALIDATION_SUCCESS =>
              '(bind_ret, addr, alternate) ← lift (stun_usage_bind_process msg addr (Some alternate_server));
              let alternate_server := default alternate_server alternate in
              match bind_ret with
              | STUN_USAGE_BIND_RETURN_ALTERNATE_SERVER =>
                  _ ← stun_trans_deinit;
                  _ ← assert_st (negb (sockaddr_family alternate_server.1 =? AF_UNSPEC));
                  ret ← stun_trans_create SOCK_DGRAM 0 alternate_server;
                  if negb (bool_decide (ret = STUN_USAGE_TRANS_RETURN_SUCCESS))
                  then mret (STUN_USAGE_BIND_RETURN_ERROR, addr)
                  else
                    val ← stun_trans_send fuel req;
                    if val <? -1 then mret (STUN_USAGE_BIND_RETURN_ERROR, addr)
                    else _ ← timer_start; bind_loop fuel req msg addr alternate_server
              | STUN_USAGE_BIND_RETURN_INVALID => bind_loop fuel req msg addr alternate_server
              | _ => mret (bind_ret, addr)
              end
          | _ => bind_loop fuel req msg addr alternate_server
          end
      end
  end.

(** [req], [msg] and [req_buf]: what the locals hold before they are set. *)
Definition stun_usage_bind_run (PACKAGE_STRING : bytes) (fuel : nat) (req msg : StunMessage)
    (req_buf transid : bytes) (srv addr : addr_arg) : M (StunUsageBindReturn * addr_arg) :=
  _ ← upd br_trans (λ tr, {| tr_fd := -1; tr_own_fd := tr_own_fd tr; tr_dstlen := tr_dstlen tr; tr_dst := tr_dst tr |});
  _ ← upd br_agent (λ a, stun_agent_init a STUN_ALL_KNOWN_ATTRIBUTES STUN_COMPATIBILITY_RFC3489 0);
  agent ← get br_agent;
  '(len, agent, req) ← lift (stun_usage_bind_create PACKAGE_STRING agent req req_buf transid);
  _ ← put br_agent agent;
  data ← lift (slice (msg_buffer req) 0 len);
  ret ← stun_trans_create SOCK_DGRAM 0 srv;
  res ← (if negb (bool_decide (ret = STUN_USAGE_TRANS_RETURN_SUCCESS))
         then mret (STUN_USAGE_BIND_RETURN_ERROR, addr)
         else
           val ← stun_trans_send fuel data;
           if val <? -1 then mret (STUN_USAGE_BIND_RETURN_ERROR, addr)
           else
             _ ← timer_start;
             bind_loop fuel data msg addr (sockaddr_other AF_UNSPEC, sizeof_sockaddr_storage));
  tr ← get br_trans;
  _ ← when (negb (tr_fd tr =? -1)) stun_trans_deinit;
  mret res.
End run.
End transport.
