(* ===== verification/StunBindFacts.v ===== *)
(** * Theorems about binding discovery

    What an answer says; that a run leaves the socket calls balanced, sends
    nothing but its request and believes only an answer to it; that a run
    over a silent network gives up; and what the code does not see. *)

From S2P Require Import Prelude Bytes StateMonad StunCrc32 StunMessage StunFacts StunValidate StunBuild StunRoundtrip StunHmac StunAgent StunAgentTrans StunAuth StunTimer StunTurn StunTurnFacts StunEnds StunOctets NiceAddress UdpTurn StunBind.
#[global] Open Scope Z_scope.

(** ** Runs that return *)

Definition returns {A} (m : outcome A) : Prop := ∃ a, m = Done a.
Lemma returns_ret {A} (a : A) : returns (mret a).
Proof. by exists a. Qed.
Lemma returns_bind {A B} (m : outcome A) (f : A → outcome B) :
  returns m → (∀ a, returns (f a)) → returns (m ≫= f).
Proof. intros [a ->] H. apply H. Qed.
Lemma returns_and a b : returns a → returns b → returns (a &&& b).
Proof. intros Ha Hb. unfold and_then. apply returns_bind; [done |]. intros [|]; [done | apply returns_ret]. Qed.
Lemma returns_or a b : returns a → returns b → returns (a ||| b).
Proof. intros Ha Hb. unfold or_else. apply returns_bind; [done |]. intros []; [apply returns_ret | done]. Qed.

Create HintDb returns discriminated.
#[export] Hint Resolve returns_ret : returns.
Ltac returns_step :=
  match goal with
  | |- returns (_ &&& _) => apply returns_and
  | |- returns (_ ||| _) => apply returns_or
  | |- returns (_ ≫= _) => apply returns_bind; [| intros ?]
  | |- returns (match ?x with _ => _ end) => destruct x
  end.
Ltac returns := repeat (first [solve [eauto with returns] | returns_step]).

(** The first call of the goal returns. *)
Ltac run_first x :=
  lazymatch goal with
  | |- context [?m ≫= _ = _] =>
      let H := fresh in
      assert (returns m) as [x H]; [returns; eauto with returns | rewrite H, bind_Done; clear H]
  end.

Section answer.
Context (msg : StunMessage) (ty id : bytes) (l : list attr) (rest : bytes).
Context (Hr : msg_repr msg ty id l rest).
Local Abbreviation value := (StunFacts.value msg l).

Lemma repr_class : returns (stun_message_get_class msg).
Proof.
  destruct (repr_buffer _ _ _ _ _ Hr) as (x & E & Hty). destruct ty as [| b0 [| b1 ty']]; try done.
  unfold stun_message_get_class. rewrite E. by eexists.
Qed.
Lemma repr_method : returns (stun_message_get_method msg).
Proof. destruct (repr_buffer _ _ _ _ _ Hr) as (x & E & Hty). by eapply method_hdr. Qed.
Lemma repr_class_is c : returns (class_is msg c).
Proof. unfold class_is. pose proof repr_class. returns. Qed.
Lemma answer_id : returns (stun_message_id msg).
Proof. eexists. by eapply stun_message_id_spec. Qed.
Lemma repr_has type : returns (has_attr msg type).
Proof. eexists. by eapply stun_message_has_attribute_spec. Qed.
Lemma repr_lacks type : returns (lacks msg type).
Proof. unfold lacks. apply returns_bind; [apply repr_has | intros; returns]. Qed.
Lemma repr_error_in codes : returns (error_in msg codes).
Proof.
  unfold error_in. destruct (find_error_ok msg ty id l rest Hr) as (v & E & _). rewrite E, bind_Done. returns.
Qed.
Lemma repr_find type : returns (stun_message_find msg type).
Proof. destruct (stun_message_find_spec msg ty id l rest type Hr) as (r & E & _). by exists r. Qed.
Lemma repr_find32 type : returns (stun_message_find32 msg type).
Proof. eexists. by eapply stun_message_find32_spec. Qed.

#[local] Hint Resolve repr_class_is repr_has repr_lacks repr_error_in : returns.
Lemma repr_ignore a : returns (ignore_credentials a msg).
Proof. unfold ignore_credentials. returns. Qed.
Lemma repr_missing a : returns (credentials_missing a msg).
Proof. unfold credentials_missing. returns. Qed.

(** ** What an answer says *)

(** The length that a search for an address which fails leaves. *)
Lemma find_xor_addr_len type (a a' : addr_arg) :
  a.2 ≤ sizeof_sockaddr_storage → find_xor_addr msg type a = Done (false, a') →
  a'.2 = len_after (value type) a.2.
Proof.
  destruct a as [x n]. intros Hn H.
  destruct (find_addr_raw msg ty id l rest Hr type x n Hn) as (v & [x' n'] & E & Hs & [_ Hf] & Hl).
  unfold find_xor_addr, find_xor_addr_full, stun_message_find_xor_addr, stun_message_find_xor_addr_full in H.
  cbn [fst snd] in *. rewrite E in H. rewrite bind_Done in H.
  pose proof (decoded_ok msg ty id l rest Hr type n) as Hdec.
  unfold success in Hs. rewrite Hs in H.
  destruct (decoded (value type) n) as [addr |].
  - destruct (Hdec addr) as [Hok _]; [done |]. injection Hf as -> ->.
    rewrite bool_decide_true in H by done.
    by rewrite (stun_xor_address_spec _ id), !bind_Done in H by (done || lia || by eapply stun_message_id_spec).
  - rewrite (bool_decide_false (is_Some None)) in H by (by intros []). rewrite bind_Done in H.
    unfold success in H. rewrite Hs in H. by injection H as <-.
Qed.

(** The address an answer maps, where the caller has [n] octets for it:
    XOR-MAPPED-ADDRESS, and failing that MAPPED-ADDRESS with the length the
    first search left. *)
Definition bound_address (n : Z) : option sockaddr_storage :=
  match unmasked id STUN_MAGIC_COOKIE (decoded (value STUN_ATTRIBUTE_XOR_MAPPED_ADDRESS) n) with
  | Some a => Some a
  | None => decoded (value STUN_ATTRIBUTE_MAPPED_ADDRESS) (len_after (value STUN_ATTRIBUTE_XOR_MAPPED_ADDRESS) n)
  end.

Definition bind_reading (method : Z) (class : StunClass) (addr : Z) (alternate : option Z)
  : StunUsageBindReturn :=
  if negb (method =? STUN_BINDING) then STUN_USAGE_BIND_RETURN_INVALID
  else match class with
  | STUN_REQUEST | STUN_INDICATION => STUN_USAGE_BIND_RETURN_INVALID
  | STUN_ERROR =>
      match value STUN_ATTRIBUTE_ERROR_CODE ≫= error_value with
      | None => STUN_USAGE_BIND_RETURN_INVALID
      | Some code => if redirected msg l code alternate then STUN_USAGE_BIND_RETURN_ALTERNATE_SERVER
                     else STUN_USAGE_BIND_RETURN_ERROR
      end
  | STUN_RESPONSE =>
      match bound_address addr with
      | Some _ => STUN_USAGE_BIND_RETURN_SUCCESS
      | None => STUN_USAGE_BIND_RETURN_ERROR
      end
  end.

(** What the arguments point to afterwards. *)
Record bind_result (method : Z) (class : StunClass) (addr : addr_arg) (alternate : option addr_arg)
    (ret : StunUsageBindReturn) (addr' : addr_arg) (alternate' : option addr_arg) : Prop := {
  bres_ret : ret = bind_reading method class addr.2 (snd <$> alternate);
  bres_len : addr'.2 ≤ sizeof_sockaddr_storage;
  bres_addr : ret = STUN_USAGE_BIND_RETURN_SUCCESS →
    ∃ a, bound_address addr.2 = Some a ∧ addr' = (a, sizeof_addr a);
  bres_same : ret = STUN_USAGE_BIND_RETURN_INVALID → addr' = addr ∧ alternate' = alternate;
  bres_kept : ret = STUN_USAGE_BIND_RETURN_ALTERNATE_SERVER → addr' = addr;
  bres_alternate : ∀ b, ret = STUN_USAGE_BIND_RETURN_ALTERNATE_SERVER → alternate = Some b →
    ∃ a, decoded (value STUN_ATTRIBUTE_ALTERNATE_SERVER) b.2 = Some a ∧ alternate' = Some (a, sizeof_addr a)
}.

Lemma bind_error_ok (addr : addr_arg) (alternate : option addr_arg) :
  addr.2 ≤ sizeof_sockaddr_storage → (∀ a, alternate = Some a → a.2 ≤ sizeof_sockaddr_storage) →
  ∃ ret alternate', bind_error msg addr alternate = Done (ret, addr, alternate') ∧
    bind_result STUN_BINDING STUN_ERROR addr alternate ret addr alternate'.
Proof.
  intros Hn Halt. unfold bind_error.
  destruct (find_error_ok msg ty id l rest Hr) as (v & -> & Hv). rewrite bind_Done. unfold success in Hv.
  destruct (value STUN_ATTRIBUTE_ERROR_CODE ≫= error_value) as [code |] eqn:Ec.
  2:{ rewrite (bool_decide_false (is_Some None)) in Hv by (by intros []).
      eexists _, _. split; [by destruct v |]. split; try done. unfold bind_reading. by rewrite Ec. }
  rewrite (bool_decide_true (is_Some _)) in Hv by done. apply bool_decide_eq_true in Hv as ->.
  destruct (code / 100 =? 3) eqn:E3.
  2:{ eexists _, _. split; [done |]. split; try done. unfold bind_reading. cbn [negb]. rewrite Ec. unfold redirected. by rewrite E3. }
  destruct alternate as [a |].
  - destruct (find_addr_ok msg ty id l rest Hr STUN_ATTRIBUTE_ALTERNATE_SERVER a (Halt a eq_refl)) as (a' & -> & [_ Hf] & _).
    rewrite bind_Done. eexists _, _. split; [done |].
    destruct (decoded (value STUN_ATTRIBUTE_ALTERNATE_SERVER) a.2) as [b |] eqn:Ed.
    + rewrite bool_decide_true by done. split; try done.
      * unfold bind_reading. cbn [negb fmap option_fmap option_map]. rewrite Ec. unfold redirected.
        by rewrite E3, Ed, (bool_decide_true (is_Some _)).
      * intros ? _ [= <-]. rewrite Ed. exists b. by rewrite Hf.
    + rewrite bool_decide_false by (by intros []). split; try done.
      unfold bind_reading. cbn [negb fmap option_fmap option_map]. rewrite Ec. unfold redirected.
      by rewrite E3, Ed, (bool_decide_false (is_Some None)) by (by intros []).
  - rewrite (stun_message_has_attribute_spec _ _ _ _ _ Hr), bind_Done. eexists _, _. split; [done |].
    split; try done; try (by case_bool_decide).
    unfold bind_reading. cbn [negb fmap option_fmap option_map]. rewrite Ec. unfold redirected. rewrite E3.
    cbn [andb]. by destruct (bool_decide _).
Qed.

(** The reading of a well formed answer: the verdict is that of its attributes,
    on success the address is the mapped one, on a redirection the other
    server's; an answer that is passed over leaves the arguments alone. *)
Lemma bind_process_ok (method : Z) (class : StunClass) (addr : addr_arg) (alternate : option addr_arg) :
  stun_message_get_method msg = Done method → stun_message_get_class msg = Done class →
  addr.2 ≤ sizeof_sockaddr_storage → (∀ a, alternate = Some a → a.2 ≤ sizeof_sockaddr_storage) →
  ∃ ret addr' alternate', stun_usage_bind_process msg addr alternate = Done (ret, addr', alternate') ∧
    bind_result method class addr alternate ret addr' alternate'.
Proof.
  intros Hm Hc Hn Halt. unfold stun_usage_bind_process. rewrite Hm, bind_Done.
  destruct (method =? STUN_BINDING) eqn:Em; cbn [negb].
  2:{ eexists _, _, _. split; [done |]. split; try done. unfold bind_reading. by rewrite Em. }
  rewrite Hc, bind_Done. apply Z.eqb_eq in Em as ->.
  destruct class; try (eexists _, _, _; by split).
  - destruct (find_xor_addr_ok msg ty id l rest Hr STUN_ATTRIBUTE_XOR_MAPPED_ADDRESS addr Hn) as (a1 & E & [Hle Hf]).
    pose proof (find_xor_addr_len STUN_ATTRIBUTE_XOR_MAPPED_ADDRESS addr a1 Hn) as Hlen.
    rewrite E, bind_Done. unfold bind_reading, bound_address in *.
    destruct (unmasked id STUN_MAGIC_COOKIE _) as [b |] eqn:Eb.
    + rewrite bool_decide_true by done. eexists _, _, _. split; [done |]. split; try done.
      * unfold bind_reading, bound_address. by rewrite Eb.
      * intros _. unfold bound_address. rewrite Eb. exists b. done.
    + rewrite (bool_decide_false (is_Some None)) in * by (by intros []). specialize (Hlen E).
      destruct (find_addr_ok msg ty id l rest Hr STUN_ATTRIBUTE_MAPPED_ADDRESS a1 Hle) as (a2 & -> & [Hle2 Hf2] & _).
      rewrite bind_Done, Hlen in *. eexists _, _, _. split; [done |].
      destruct (decoded (value STUN_ATTRIBUTE_MAPPED_ADDRESS) _) as [b |] eqn:Ed;
        [rewrite (bool_decide_true (is_Some _)) by done | rewrite (bool_decide_false (is_Some None)) by (by intros [])];
        (split; [unfold bind_reading, bound_address; by rewrite Eb, Ed | done | | done..]); [| done].
      intros _. unfold bound_address. rewrite Eb, Ed. by exists b.
  - destruct (bind_error_ok addr alternate Hn Halt) as (ret & alt & -> & H). eauto.
Qed.
End answer.
#[export] Hint Resolve repr_class repr_method repr_class_is answer_id repr_has repr_lacks repr_error_in repr_find
  repr_find32 repr_ignore repr_missing : returns.

(** ** The agent of a run *)

(** Without credentials, waiting for answers to binding requests named [id] only. *)
Record plain (id : bytes) (a : StunAgent) : Prop := {
  plain_conf : agent_conf a = {| compatibility := STUN_COMPATIBILITY_RFC3489; usage_flags := 0 |};
  plain_known : known_attributes a = STUN_ALL_KNOWN_ATTRIBUTES;
  plain_sent : Forall (λ s, si_valid s = true → si_key s = None ∧ si_id s = id) (sent_ids a)
}.

Lemma plain_clear id i l :
  Forall (λ s, si_valid s = true → si_key s = None ∧ si_id s = id) l →
  Forall (λ s, si_valid s = true → si_key s = None ∧ si_id s = id) (clear i l).
Proof.
  rewrite !Forall_lookup. intros H j s. rewrite clear_lookup. destruct (decide (i = j)); [| apply H].
  rewrite fmap_Some. by intros (x & _ & ->).
Qed.

Lemma accept_plain_known a m idx st a' m' :
  validate_accept a m idx = Done (st, a', m') → known_attributes a' = known_attributes a.
Proof. unfold validate_accept. intros H. inv_bind. destruct (0 <? zlen _); inv_bind; by repeat case_match. Qed.

Section plain.
Context {crypto : Crypto}.
Context (id : bytes) (a : StunAgent) (Ha : plain id a).

Lemma accept_plain m ty i l idx :
  msg_repr m ty i l [] → msg_agent m = Some (agent_conf a) → returns (validate_accept a m idx).
Proof.
  intros Hr Hag. unfold validate_accept.
  apply returns_bind; [by eauto with returns | intros v].
  set (a' := if bool_decide _ then _ else _).
  assert (Hc : agent_conf a' = agent_conf a ∧ known_attributes a' = known_attributes a)
    by (unfold a'; destruct (bool_decide _), idx; done).
  destruct Hc as [Hc Hk].
  rewrite (find_unknowns_list a' m ty i l [] (removelast STUN_ALL_KNOWN_ATTRIBUTES)).
  - rewrite bind_Done. case_match; [| returns]. apply returns_bind; [eauto with returns | intros; returns].
  - done.
  - by rewrite Hc.
  - by rewrite Hk, (plain_known id a Ha).
  - by_compute.
Qed.

Lemma credentials_plain m ty i l saved :
  msg_repr m ty i l [] → msg_agent m = Some (agent_conf a) →
  (∀ k s, saved = Some (k, s) → si_key s = None) →
  ∃ st a', validate_credentials a m None saved = Done (st, a', m) ∧ known_attributes a' = known_attributes a.
Proof.
  intros Hr Hag Hkey. unfold validate_credentials.
  assert (match saved with Some (_, s) => si_key s | None => None end = None) as ->
    by (destruct saved as [[k s] |]; eauto).
  run_first ig. run_first mi.
  destruct mi; [by eexists _, _ |]. run_first ask. destruct ask.
  - destruct (repr_find m ty i l [] Hr STUN_ATTRIBUTE_USERNAME) as [u ->]. rewrite bind_Done.
    destruct u as [[? ?] |]; rewrite bind_Done; by eexists _, _.
  - rewrite !bind_Done. destruct (accept_plain m ty i l (fst <$> saved) Hr Hag) as ([[st a'] m'] & E).
    rewrite E. pose proof (accept_plain_known _ _ _ _ _ _ E) as Hk. apply validate_accept_inv in E as (_ & -> & _).
    by eexists _, _.
Qed.

(** What the validation of a datagram says. *)
Record heard (buf : bytes) (st : StunValidationStatus) (a' : StunAgent) (m : StunMessage) : Prop := {
  heard_plain : plain id a';
  heard_msg : st = STUN_VALIDATION_SUCCESS → ∃ ty i l, msg_repr m ty i l [] ∧ msg_buffer m = buf ∧
    ((class_is m STUN_RESPONSE ||| class_is m STUN_ERROR) = Done true → i = id)
}.

Lemma validate_returns m buf :
  bytes_ok buf → zlen buf < 2 ^ 16 →
  ∃ st a' m', stun_agent_validate a m buf None = Done (st, a', m') ∧
    (st = STUN_VALIDATION_SUCCESS → m' = fresh_msg a m buf ∧ ∃ ty i l, msg_repr m' ty i l []) ∧
    known_attributes a' = known_attributes a.
Proof.
  intros Hok Hlen. unfold stun_agent_validate. fold (fresh_msg a m buf).
  destruct (stun_validate_spec buf (negb (usage a STUN_AGENT_USAGE_NO_ALIGNED_ATTRIBUTES)) Hok) as (r & -> & Hcase & _);
    [lia |]. rewrite bind_Done.
  destruct (Z.eqb_spec r STUN_MESSAGE_BUFFER_INVALID); [by eexists _, _, _ |].
  destruct (Z.eqb_spec r STUN_MESSAGE_BUFFER_INCOMPLETE); [by eexists _, _, _ |].
  destruct Hcase as [? | [? | (ty & i & l & rest & -> & Hwf & _)]]; [done.. |].
  assert (zlen buf = 20 + zlen (attrs_enc l) + zlen rest) as Hz.
  { destruct Hwf as [-> Hty Hid _ _ _]. pose proof (zlen_hdr_enc ty i (zlen (attrs_enc l)) Hty Hid). rewrite !zlen_app. lia. }
  pose proof (zlen_nonneg rest). pose proof (zlen_nonneg (attrs_enc l)).
  replace (s32 (zlen buf)) with (zlen buf) by (unfold s32; zlia).
  destruct (Z.eqb_spec (20 + zlen (attrs_enc l)) (zlen buf)) as [E |]; cbn [negb]; [| by eexists _, _, _].
  assert (rest = []) as -> by (apply zlen_0_inv; lia).
  assert (Hr : msg_repr (fresh_msg a m buf) ty i l []) by (split; [exact Hwf | lia]).
  assert (agent_compat a = STUN_COMPATIBILITY_RFC3489) as -> by (unfold agent_compat; by rewrite (plain_conf id a Ha)).
  change (compat_cookie STUN_COMPATIBILITY_RFC3489) with false. cbn [andb].
  assert (Hno : ∀ x, (mret false &&& x) = Done false) by done. rewrite !Hno, !bind_Done.
  run_first resp. destruct resp.
  - rewrite (stun_message_id_spec _ _ _ _ _ Hr), bind_Done.
    destruct (repr_method _ _ _ _ _ Hr) as [k ->]. rewrite bind_Done.
    destruct (list_find _ _) as [[j s] |] eqn:Ef; [| by eexists _, _, _].
    destruct (credentials_plain (fresh_msg a m buf) ty i l (Some (j, s)) Hr) as (st & a' & -> & Hk); [done | |].
    + intros ? ? [= <- <-]. apply list_find_Some in Ef as (Hj & (Hv & _) & _).
      pose proof (plain_sent id a Ha) as Hs. rewrite Forall_lookup in Hs. by apply (Hs j s).
    + eexists _, _, _. split_and!; eauto.
  - destruct (credentials_plain (fresh_msg a m buf) ty i l None Hr) as (st & a' & -> & Hk); [done | done |].
    eexists _, _, _. split_and!; eauto.
Qed.

Lemma validate_plain m buf :
  bytes_ok buf → zlen buf < 2 ^ 16 →
  ∃ st a' m', stun_agent_validate a m buf None = Done (st, a', m') ∧ heard buf st a' m'.
Proof.
  intros Hok Hlen. destruct (validate_returns m buf Hok Hlen) as (st & a' & m' & E & Hsucc & Hk).
  exists st, a', m'. split; [done |]. pose proof (plain_sent id a Ha) as Hs.
  apply validate_inv in E as [[Hst ->] | (_ & Hc & E)]; [split; [done | by intros ->] |].
  split.
  - split; [by rewrite Hc, (plain_conf id a Ha) | by rewrite Hk, (plain_known id a Ha) |].
    destruct E as [[_ ->] | (_ & ? & ? & i & ? & _ & _ & _ & ->)]; [done | by apply plain_clear].
  - intros Est. destruct (Hsucc Est) as (-> & ty & i & l & Hr). exists ty, i, l. split_and!; [done.. |].
    intros Hresp. destruct E as [[E _] | (_ & i' & k & j & s & Hi & _ & Hf & _)]; [congruence |].
    rewrite (stun_message_id_spec _ _ _ _ _ Hr) in Hi. injection Hi as ->.
    apply list_find_Some in Hf as (Hj & (Hv & _ & ->) & _). rewrite Forall_lookup in Hs. by apply (Hs j s).
Qed.
End plain.

(** ** The request *)

Definition binding_request (transid : bytes) : bytes := hdr_enc (type_bytes STUN_REQUEST STUN_BINDING) transid 0.

Lemma bind_create_ok {crypto : Crypto} PACKAGE_STRING a msg buf transid :
  sent_ids a ≠ [] → bytes_ok buf → 20 ≤ zlen buf → zlen transid = 16 → bytes_ok transid →
  ∃ a' req,
    stun_usage_bind_create PACKAGE_STRING
      (stun_agent_init a STUN_ALL_KNOWN_ATTRIBUTES STUN_COMPATIBILITY_RFC3489 0) msg buf transid = Done (20, a', req) ∧
    plain transid a' ∧ slice (msg_buffer req) 0 20 = Done (binding_request transid).
Proof.
  intros Hne Hok Hlen Hid Hidok. unfold stun_usage_bind_create.
  set (ag := stun_agent_init a _ _ _).
  destruct (split_at buf 20) as (h & rest & -> & Hh); [lia |]. apply bytes_ok_app in Hok as [_ Hrest].
  destruct (init_request_spec PACKAGE_STRING ag msg h rest transid eq_refl Hh Hrest Hid Hidok STUN_BINDING)
    as (b & -> & Hr). rewrite bind_Done.
  change (request_id ag transid) with transid in Hr.
  set (m := (fresh_msg ag msg (h ++ rest)) <| msg_buffer := b |>) in *.
  assert (E : b = binding_request transid ++ rest) by (by destruct Hr as [[? _ _ _ _ _] _]).
  assert (Hc : stun_message_get_class m = Done STUN_REQUEST ∧ stun_message_get_method m = Done STUN_BINDING).
  { unfold stun_message_get_class, stun_message_get_method, m. cbn [msg_buffer set_field set_msg_buffer].
    rewrite E. by split. }
  destruct Hc as [Hc Hm]. unfold stun_agent_finish_message. rewrite Hc, bind_Done, Hm, bind_Done.
  destruct (sent_ids a) as [| s0 sl] eqn:Es; [done |].
  assert (Ef : sent_ids ag = s0 <| si_valid := false |> :: ((λ s, s <| si_valid := false |>) <$> sl))
    by (unfold ag, stun_agent_init; by rewrite Es).
  rewrite Ef. cbn [list_find]. rewrite decide_True by done. cbv zeta.
  change (bool_decide (STUN_REQUEST = STUN_REQUEST) && _) with true. cbv iota.
  change (match msg_key m with Some k => Some k | None => None end) with (@None bytes).
  change (finish_integrity ag m _) with (Done (m, true)). rewrite bind_Done. cbn [negb].
  change (finish_fingerprint ag m) with (Done (m, true)). rewrite bind_Done. cbn [negb].
  rewrite (stun_message_id_spec _ _ _ _ _ Hr), bind_Done, Hm, bind_Done, (stun_message_length_spec _ _ _ _ _ Hr), bind_Done.
  eexists _, _. split; [done |]. split; [split; [done.. |] |].
  - assert (Forall (λ s, si_valid s = true → si_key s = None ∧ si_id s = transid)
      ((λ s, s <| si_valid := false |>) <$> sl)) by (apply Forall_fmap, Forall_true; by intros x [=]).
    by constructor.
  - change (slice b 0 20 = Done (binding_request transid)). rewrite E.
    change (binding_request transid ++ rest) with ([] ++ binding_request transid ++ rest).
    apply slice_app; [done |]. symmetry. by apply (zlen_hdr_enc _ _ 0).
Qed.

(** ** A run *)

(** The socket calls, the newest first: a socket is opened, only [data] is sent
    over it, and it is closed before the next one.  The index is the open one. *)
Inductive sessions (data : bytes) : option Z → list bind_event → Prop :=
| sessions_none : sessions data None []
| sessions_open fd l : fd ≠ -1 → sessions data None l → sessions data (Some fd) (Opened fd :: l)
| sessions_sent fd dst l : sessions data (Some fd) l → sessions data (Some fd) (Sent fd data dst :: l)
| sessions_close fd l : sessions data (Some fd) l → sessions data None (Closed fd :: l).
#[export] Hint Constructors sessions : core.

Lemma add_delay_not_ub ts d : add_delay ts d ≠ Ub.
Proof.
  unfold add_delay. generalize (Z.to_nat (tv_usec {| tv_sec := tv_sec ts + d / 1000;
    tv_usec := tv_usec ts + d mod 1000 * 1000 |} / 1000000)) as fuel.
  intros fuel. generalize {| tv_sec := tv_sec ts + d / 1000; tv_usec := tv_usec ts + d mod 1000 * 1000 |} as t.
  induction fuel as [| fuel IH]; intros t; cbn [carry_loop]; by case_match.
Qed.
Lemma timer_start_not_ub now i n : stun_timer_start now i n ≠ Ub.
Proof. unfold stun_timer_start. pose proof (add_delay_not_ub now i). by destruct (add_delay now i). Qed.
Lemma timer_refresh_not_ub t now : stun_timer_refresh t now ≠ Ub.
Proof.
  unfold stun_timer_refresh. repeat (case_match; [| done]). case_match; [done |].
  match goal with |- add_delay ?a ?b ≫= _ ≠ _ => pose proof (add_delay_not_ub a b); by destruct (add_delay a b) end.
Qed.

Section bind_run.
Context {W : Type} {os : BindOs W} {crypto : Crypto}.
Local Abbreviation R := (@BindRun W).
(** A datagram is less than 2^16 octets long. *)
Context (Hrecv : ∀ fd n w d w', os_recv fd n w = (Some d, w') → bytes_ok d ∧ zlen d < 2 ^ 16).
Context (data transid : bytes).

(** The transport is open, with a socket of its own. *)
Record live (s : R) : Prop := {
  live_own : tr_own_fd (br_trans s) = tr_fd (br_trans s);
  live_fd : tr_fd (br_trans s) ≠ -1;
  live_log : sessions data (Some (tr_fd (br_trans s))) (br_log s);
  live_agent : plain transid (br_agent s)
}.
(** There is no transport. *)
Record idle (s : R) : Prop := {
  idle_fd : tr_fd (br_trans s) = -1;
  idle_log : sessions data None (br_log s);
  idle_agent : plain transid (br_agent s)
}.

(** [d] came from the network. *)
Definition received (d : bytes) : Prop := ∃ fd n w w', os_recv fd n w = (Some d, w').

(** [addr] is the address in a binding response with the identifier of the
    request, where the caller has [n] octets for it. *)
Definition answered (n : Z) (addr : addr_arg) : Prop :=
  ∃ msg ty l a, received (msg_buffer msg) ∧ msg_repr msg ty transid l [] ∧
    stun_message_get_class msg = Done STUN_RESPONSE ∧ stun_message_get_method msg = Done STUN_BINDING ∧
    bound_address msg transid l n = Some a ∧ addr = (a, sizeof_addr a).

Lemma safe_os {A} (f : W → A * W) Q (s : R) :
  (∀ a w, f (br_world s) = (a, w) → Q a (s <| br_world := w |>)) → safe (os_call f) Q s.
Proof. unfold safe, os_call. intros H. destruct (f (br_world s)) as [a w]. by apply H. Qed.

(** A socket that is open, and possibly the transport over it. *)
Definition opened (fd : Z) (r : StunUsageTransReturn) (s : R) : Prop :=
  sessions data (Some fd) (br_log s) ∧ plain transid (br_agent s) ∧
  tr_fd (br_trans s) = if bool_decide (r = STUN_USAGE_TRANS_RETURN_SUCCESS) then fd else -1.

Lemma init_safe fd a (s : R) :
  fd ≠ -1 → opened fd STUN_USAGE_TRANS_RETURN_ERROR s → safe (stun_trans_init fd a) (opened fd) s.
Proof.
  intros Hfd (Hl & Hp & Hf). unfold stun_trans_init. apply safe_bind, safe_assert; [lia |]. safe_steps.
  set (dn := match a with Some a => a | None => _ end). destruct dn as [dst n].
  destruct (_ <? n); safe_steps; done.
Qed.

Lemma create_safe type proto srv (s : R) :
  idle s → safe (stun_trans_create type proto srv)
    (λ r s', if bool_decide (r = STUN_USAGE_TRANS_RETURN_SUCCESS) then live s' else idle s') s.
Proof.
  intros [H1 H2 H3]. unfold stun_trans_create. destruct (_ <? _); [by apply safe_ret |].
  unfold stun_socket, log, close. apply safe_bind, safe_bind, safe_os. intros fd w _.
  destruct (Z.eqb_spec fd (-1)) as [-> | Hfd]; [by apply safe_ret |].
  safe_steps. destruct (Z.eqb_spec fd (-1)) as [| _]; [done |].
  apply safe_bind, safe_mono with (P := opened fd).
  - destruct (negb _); [| apply init_safe; [done | split; cbn; auto]].
    apply safe_bind, safe_os. intros ok w' _. destruct ok; [apply init_safe; [done |] | apply safe_ret];
      split; cbn; auto.
  - intros r s' (Hl & Hp & Hf). case_bool_decide as Hr; [by safe_steps; split; cbn; rewrite ?Hf |].
    apply safe_bind, safe_bind, safe_os. intros [] w' _. safe_steps.
    unfold log. safe_steps. rewrite bool_decide_false by done. split; cbn; eauto.
Qed.

Lemma deinit_safe (s : R) : live s → safe stun_trans_deinit (λ _, idle) s.
Proof.
  intros [H1 H2 H3 H4]. unfold stun_trans_deinit, close, log. safe_steps. apply safe_assert; [lia |].
  apply safe_bind, safe_when; [| lia]. intros _. apply safe_bind, safe_os. intros [] w _. safe_steps.
  rewrite H1. split; cbn; eauto.
Qed.

Lemma send_safe fuel (s : R) : live s → safe (stun_trans_send fuel data) (λ _, live) s.
Proof.
  unfold stun_trans_send. intros H. safe_steps. set (dst := (_, _)). clearbody dst.
  revert s H. induction fuel as [| fuel IH]; intros s H; [done |].
  cbn [stun_trans_sendto]. unfold log, stun_err_dequeue. safe_steps. apply safe_os. intros val w _. safe_steps.
  assert (H' : live (s <| br_world := w |> <| br_log := Sent (tr_fd (br_trans s)) data dst.1 :: br_log s |>))
    by (destruct H; split; cbn; auto).
  destruct (val =? -1); [| by apply safe_ret].
  apply safe_bind, safe_os. intros again w' _. destruct again; [apply IH | apply safe_ret]; by destruct H'; split.
Qed.

Lemma timer_start_safe (s : R) : live s → safe timer_start (λ _, live) s.
Proof.
  intros H. unfold timer_start. apply safe_bind, safe_os. intros now w _. apply safe_bind, safe_lift; [apply timer_start_not_ub |].
  intros t _. safe_steps. by destruct H; split.
Qed.
Lemma timer_refresh_safe (s : R) : live s → safe timer_refresh (λ _, live) s.
Proof.
  intros H. unfold timer_refresh. apply safe_bind, safe_os. intros now w _. safe_steps.
  apply safe_lift; [apply timer_refresh_not_ub |]. intros [t r] _. safe_steps. by destruct H; split.
Qed.

Definition awaited (r : StunUsageBindReturn + bytes) : Prop :=
  match r with
  | inl ret => ret ≠ STUN_USAGE_BIND_RETURN_SUCCESS
  | inr d => received d ∧ bytes_ok d ∧ zlen d < 2 ^ 16
  end.

Lemma await_safe fuel (s : R) : live s → safe (await_datagram fuel data) (λ r s', awaited r ∧ live s') s.
Proof.
  revert s. induction fuel as [| fuel IH]; intros s H; [done |]. cbn [await_datagram].
  assert (Hw : ∀ w (s' : R), live s' → live (s' <| br_world := w |>)) by (by intros w s' []; split).
  set (receive := stun_trans_recv _ ≫= _).
  assert (Hreceive : ∀ s', live s' → safe receive (λ r s', awaited r ∧ live s') s').
  { intros s' H'. unfold receive, stun_trans_recv, stun_err_dequeue. safe_steps. apply safe_os.
    intros [d |] w E; safe_steps; [| apply safe_os; intros ? ? _; safe_steps; by apply IH, Hw, Hw].
    split; [| by apply Hw]. split; [by eexists _, _, _, _ | by eapply Hrecv]. }
  clearbody receive. apply safe_bind, safe_os. intros now w _. unfold stun_trans_poll. safe_steps. apply safe_os.
  intros n w' _. safe_steps. case_bool_decide; [| by apply Hreceive, Hw, Hw].
  apply safe_bind. eapply safe_mono; [by apply timer_refresh_safe, Hw, Hw |].
  intros [] s' H'; [by apply Hreceive | | by apply safe_ret].
  apply safe_bind. eapply safe_mono; [by apply send_safe |]. intros val s'' H''.
  destruct (val <? -1); [by apply safe_ret | by apply IH].
Qed.

(** A run that ends has opened and closed, and believes an answer only. *)
Definition bind_settled (n : Z) (r : StunUsageBindReturn * addr_arg) (s : R) : Prop :=
  (live s ∨ idle s) ∧ (r.1 = STUN_USAGE_BIND_RETURN_SUCCESS → answered n r.2).

Lemma decoded_family v n a : decoded v n = Some a → sockaddr_family a ≠ AF_UNSPEC ∧ sizeof_addr a ≤ sizeof_sockaddr_storage.
Proof.
  unfold decoded. destruct (v ≫= addr_value) as [b |] eqn:E; [| done]. cbn [mbind option_bind].
  destruct (_ <=? n); [| done]. intros [= ->]. destruct v as [v |]; [| done]. cbn [mbind option_bind] in E.
  destruct v as [| ? [| f [| p0 [| p1 v]]]]; try done. cbn [addr_value] in E.
  repeat case_match; simplify_eq; by split.
Qed.

Lemma bind_loop_safe fuel (s : R) msg (addr alternate : addr_arg) :
  live s → addr.2 ≤ sizeof_sockaddr_storage → alternate.2 ≤ sizeof_sockaddr_storage →
  safe (bind_loop fuel data msg addr alternate) (bind_settled addr.2) s.
Proof.
  revert s msg alternate. induction fuel as [| fuel IH]; intros s msg alternate H Hn Halt; [done |].
  cbn [bind_loop]. apply safe_bind. eapply safe_mono; [by apply await_safe |]. intros [ret | d] s1 [Hd H1].
  { apply safe_ret. split; [by left | done]. }
  destruct Hd as (Hd & Hok & Hlen). safe_steps.
  destruct (validate_plain transid (br_agent s1) (live_agent s1 H1) msg d Hok Hlen) as (st & ag & m & -> & [Hp Hm]).
  apply safe_lift; [done |]. intros ? [= <-]. safe_steps.
  assert (H2 : live (s1 <| br_agent := ag |>)) by (destruct H1; by split).
  destruct st; try (by apply IH); try (apply safe_ret; split; [by left | done]).
  destruct (Hm eq_refl) as (ty & i & l & Hr & Hbuf & Hid). clear Hm.
  destruct (repr_class m ty i l [] Hr) as [c Hc], (repr_method m ty i l [] Hr) as [k Hk].
  destruct (bind_process_ok m ty i l [] Hr k c addr (Some alternate) Hk Hc Hn) as (ret & addr' & alt' & -> & Hres);
    [by intros ? [= <-] |].
  apply safe_bind, safe_lift; [done |]. intros ? [= <-].
  destruct ret.
  - apply safe_ret. split; [by left |]. intros _. cbn [fst snd].
    destruct (bres_addr _ _ _ _ _ _ _ _ _ _ Hres eq_refl) as (a & Ha & ->).
    pose proof (bres_ret _ _ _ _ _ _ _ _ _ _ Hres) as Hread. unfold bind_reading in Hread.
    destruct (Z.eqb_spec k STUN_BINDING) as [-> |]; [| done]. cbn [negb] in Hread.
    assert (c = STUN_RESPONSE) as ->.
    { destruct c; try done. repeat case_match; done. }
    assert (i = transid) as -> by (apply Hid; unfold class_is; by rewrite Hc).
    exists m, ty, l, a. by rewrite Hbuf.
  - apply safe_ret. split; [by left | done].
  - destruct (bres_same _ _ _ _ _ _ _ _ _ _ Hres eq_refl) as [-> ->]. by apply IH.
  - rewrite (bres_kept _ _ _ _ _ _ _ _ _ _ Hres eq_refl).
    destruct (bres_alternate _ _ _ _ _ _ _ _ _ _ Hres alternate eq_refl eq_refl) as (a & Ha & ->). cbn [default].
    apply decoded_family in Ha as [Hfam Hsize].
    apply safe_bind. eapply safe_mono; [by apply deinit_safe |]. intros [] s3 H3.
    apply safe_bind, safe_assert. { apply negb_true_iff, Z.eqb_neq, Hfam. }
    apply safe_bind. eapply safe_mono; [by apply create_safe |]. intros r s4 H4.
    cbv beta in H4. destruct (bool_decide _); cbn [negb]; [| apply safe_ret; split; [by right | done]].
    apply safe_bind. eapply safe_mono; [by apply send_safe |]. intros v s5 H5.
    destruct (v <? -1); [apply safe_ret; split; [by left | done] |].
    apply safe_bind. eapply safe_mono; [by apply timer_start_safe |]. intros [] s6 H6. by apply IH.
  - apply safe_ret. split; [by left | done].
Qed.
End bind_run.

(** C14: what a run of binding discovery leaves and believes.  With buffers of
    the right size, for any operating system whose datagrams are less than 2^16
    octets, [stun_usage_bind_run] has no undefined behaviour; when it returns,
    the sockets it opened are closed, one after the other, nothing but its
    binding request was sent over them, and the transport is gone; and an
    address it reports is that of a well formed binding response it received,
    with the identifier of the request. *)
Theorem bind_run_safe {W} {os : BindOs W} {crypto : Crypto} (PACKAGE_STRING : bytes) (fuel : nat)
    (req msg : StunMessage) (req_buf transid : bytes) (srv addr : addr_arg) (s : BindRun)
    (Hrecv : ∀ fd n w d w', os_recv fd n w = (Some d, w') → bytes_ok d ∧ zlen d < 2 ^ 16)
    (Hbuf : bytes_ok req_buf) (Hlen : zlen req_buf = STUN_MAX_MESSAGE_SIZE)
    (Hid : zlen transid = 16) (Hidok : bytes_ok transid)
    (Haddr : addr.2 ≤ sizeof_sockaddr_storage)
    (Hsent : sent_ids (br_agent s) ≠ []) (Hlog : br_log s = []) :
  safe (stun_usage_bind_run PACKAGE_STRING fuel req msg req_buf transid srv addr) (λ r s',
    sessions (binding_request transid) None (br_log s') ∧ tr_fd (br_trans s') = -1 ∧
    (r.1 = STUN_USAGE_BIND_RETURN_SUCCESS → answered transid addr.2 r.2)) s.
Proof.
  unfold stun_usage_bind_run. safe_steps.
  destruct (bind_create_ok PACKAGE_STRING (br_agent s) req req_buf transid Hsent Hbuf ltac:(rewrite Hlen; done) Hid Hidok)
    as (ag & rq & E & Hp & Es).
  cbn [br_agent set_field set_br_agent set_br_trans]. rewrite E.
  apply safe_lift; [done |]. intros ? [= <-]. safe_steps.
  apply safe_lift; [by rewrite Es |]. intros ?. rewrite Es. intros [= <-].
  apply safe_bind. eapply safe_mono.
  { eapply create_safe. split; [done | cbn; rewrite Hlog; constructor | done]. }
  intros r s1 H1. cbv beta in H1. apply safe_bind.
  apply safe_mono with (P := bind_settled (binding_request transid) transid addr.2).
  - destruct (bool_decide _); cbn [negb]; [| apply safe_ret; split; [by right | done]].
    apply safe_bind. eapply safe_mono; [by apply send_safe |]. intros v s2 H2.
    destruct (v <? -1); [apply safe_ret; split; [by left | done] |].
    apply safe_bind. eapply safe_mono; [eapply timer_start_safe; exact H2 |]. intros [] s3 H3.
    by apply bind_loop_safe.
  - intros [ret addr'] s2 [Hs Ha]. safe_steps. apply safe_when.
    + intros Hfd. destruct Hs as [Hl | [Hf _ _]]; [| by rewrite Hf in Hfd].
      eapply safe_mono; [by apply deinit_safe |]. intros [] s3 [? ? _]. by safe_steps.
    + intros Hfd. destruct Hs as [[_ Hne _ _] | [? ? _]]; [lia |]. by safe_steps.
Qed.

(** ** A silent network *)

Section silent.
Context {W : Type} {os : BindOs W} {crypto : Crypto}.
Context (clock : W → timeval) (slack : Z).
Local Abbreviation R := (@BindRun W).

(** Time goes on, by at most [n * slack]. *)
Definition within (n : Z) (w w' : W) : Prop := us (clock w) ≤ us (clock w') ≤ us (clock w) + n * slack.
Abbreviation later := (within 1).

(** A call takes at most [slack] microseconds; a call of the socket may fail, but
    leaves no error to take from the queue; nothing is received, and a poll
    waits as long as it was asked to, and at most [slack] longer. *)
Record silent : Prop := {
  silent_clock : ∀ w, clock_ok (clock w);
  silent_time : ∀ w, ∃ w', os_gettimeofday w = (clock w, w') ∧ later w w';
  silent_socket : ∀ f t p w, ∃ fd w', os_socket f t p w = (fd, w') ∧ fd ≠ -1 ∧ later w w';
  silent_send : ∀ fd b a w, ∃ n w', os_sendto fd b a w = (n, w') ∧ -1 ≤ n ∧ later w w';
  silent_queue : ∀ fd w, ∃ w', os_errqueue fd w = (false, w') ∧ later w w';
  silent_recv : ∀ fd n w, ∃ w', os_recv fd n w = (None, w') ∧ later w w';
  silent_poll : ∀ fd d w, 0 ≤ d → ∃ n w', os_poll fd d w = (n, w') ∧ n ≤ 0 ∧
    us (clock w) + d * 1000 ≤ us (clock w') ≤ us (clock w) + d * 1000 + slack;
  silent_close : ∀ fd w, later w (os_close fd w)
}.
Context (Hos : silent).
Context (data : bytes) (fd : Z) (dst : sockaddr_storage) (start : Z).

(** The delays of a run, and the time from its start to the [k]-th deadline. *)
Definition delays : list Z := [200; 400; 800; 1600; 3200; 6400; 3200].
Definition elapsed (k : nat) : Z := foldr Z.add 0 (take k delays) * 1000.

(** The timer goes through them. *)
Lemma delays_next k d :
  (1 ≤ k < 7)%nat → nth_error delays (k - 1) = Some d →
  let d' := if Z.of_nat k =? 7 - 1 then d / 2 else d * 2 in
  nth_error delays k = Some d' ∧ elapsed (S k) = elapsed k + d' * 1000 ∧ 0 ≤ d ≤ 6400 ∧ 200 ≤ d' ≤ 6400.
Proof.
  intros Hk. destruct k as [| [| [| [| [| [| [| k]]]]]]]; try lia; intros [= <-]; cbv zeta; by_compute.
Qed.

(** After [k] transmissions. *)
Record waiting (k : nat) (s : R) : Prop := {
  wait_fd : tr_fd (br_trans s) = fd;
  wait_own : tr_own_fd (br_trans s) = fd;
  wait_dst : tr_dst (br_trans s) = dst;
  wait_log : br_log s = replicate k (Sent fd data dst) ++ [Opened fd];
  wait_delay : nth_error delays (k - 1) = Some (delay (br_timer s));
  wait_count : retransmissions (br_timer s) = Z.of_nat k;
  wait_max : max_retransmissions (br_timer s) = 7;
  wait_ok : tv_ok (deadline (br_timer s));
  wait_deadline : us (deadline (br_timer s)) = start + elapsed k;
  wait_near : us (deadline (br_timer s)) - us (clock (br_world s)) ≤ 7000 * 1000
}.

(** When calls are prompt, the run is never late for a deadline by more than
    three of them. *)
Definition prompt : Prop := slack ≤ 24 * 1000.
Definition on_time (s : R) : Prop :=
  prompt → us (clock (br_world s)) ≤ us (deadline (br_timer s)) + 3 * slack.

(** The time left. *)
Definition left (s : R) : Z := us (deadline (br_timer s)) - us (clock (br_world s)).

Lemma bind_os {A B} (f : W → A * W) (g : A → st R B) (s : R) a w :
  f (br_world s) = (a, w) → (os_call f ≫= g) s = g a (s <| br_world := w |>).
Proof. intros E. unfold os_call, mbind, st_bind. by rewrite E. Qed.

Lemma waiting_later k s w :
  waiting k s → us (clock (br_world s)) ≤ us (clock w) → waiting k (s <| br_world := w |>).
Proof. intros [] H. split; try done. cbn. lia. Qed.

(** One send: it is made once, whether it fails or not. *)
Lemma send_once (s : R) :
  ∃ v w, -1 ≤ v ∧ within 2 (br_world s) w ∧ ∀ fuel, stun_trans_send (S fuel) data s
    = Done (v, s <| br_world := w |> <| br_log := Sent (tr_fd (br_trans s)) data (tr_dst (br_trans s)) :: br_log s |>).
Proof.
  destruct (silent_send Hos (tr_fd (br_trans s)) data
    (if 0 <? tr_dstlen (br_trans s) then Some (tr_dst (br_trans s), tr_dstlen (br_trans s)) else None) (br_world s))
    as (n & w & E & Hn & Hl).
  destruct (silent_queue Hos (tr_fd (br_trans s)) w) as (w' & E' & Hl'). unfold within in *.
  exists n, (if n =? -1 then w' else w). split; [done |]. split; [destruct (n =? -1); lia |]. intros fuel.
  unfold stun_trans_send. rewrite bind_get. cbn [stun_trans_sendto]. rewrite bind_get.
  erewrite bind_os by exact E. unfold log. rewrite bind_upd.
  destruct (Z.eqb_spec n (-1)) as [-> |]; [| done]. unfold stun_err_dequeue. by erewrite bind_os by exact E'.
Qed.

Lemma refresh_run (s : R) t r :
  stun_timer_refresh (br_timer s) (clock (br_world s)) = Done (t, r) →
  ∃ w, later (br_world s) w ∧ timer_refresh s = Done (r, s <| br_world := w |> <| br_timer := t |>).
Proof.
  intros E. unfold timer_refresh. destruct (silent_time Hos (br_world s)) as (w & Ew & Hl). exists w. split; [done |].
  erewrite bind_os by exact Ew. rewrite bind_get. cbn [br_timer set_field set_br_world]. rewrite E, bind_lift. done.
Qed.

(** What the code does with the return of [stun_timer_refresh]. *)
Definition after_poll (fuel : nat) (r : StunUsageTimerReturn) : st R (StunUsageBindReturn + bytes) :=
  match r with
  | STUN_USAGE_TIMER_RETURN_TIMEOUT => mret (inl STUN_USAGE_BIND_RETURN_TIMEOUT)
  | STUN_USAGE_TIMER_RETURN_RETRANSMIT =>
      val ← stun_trans_send fuel data;
      if val <? -1 then mret (inl STUN_USAGE_BIND_RETURN_ERROR) else await_datagram fuel data
  | STUN_USAGE_TIMER_RETURN_SUCCESS =>
      val ← stun_trans_recv STUN_MAX_MESSAGE_SIZE;
      match val with Some b => mret (inr b) | None => await_datagram fuel data end
  end.

(** The wait of a round: [w] is the world after the poll. *)
Lemma round_poll k s :
  waiting k s → ∃ w, us (clock (br_world s)) ≤ us (clock w) ∧
    (let r := stun_timer_remainder (br_timer s) (clock (br_world s)) * 1000 in
     us (clock (br_world s)) + r ≤ us (clock w) ≤ us (clock (br_world s)) + r + 2 * slack) ∧
    ∀ fuel, await_datagram (S fuel) data s =
      (timer_refresh ≫= after_poll fuel) (s <| br_world := w |>).
Proof.
  intros Hw. destruct (silent_time Hos (br_world s)) as (w1 & E1 & H1).
  pose proof (stun_timer_remainder_spec (br_timer s) (clock (br_world s)) (wait_ok _ _ Hw) (silent_clock Hos _)
    ltac:(pose proof (wait_near _ _ Hw); lia)) as [Hr0 Hr1].
  set (r := stun_timer_remainder _ _) in *. pose proof (wait_near _ _ Hw) as Hnear.
  assert (0 ≤ r < 2 ^ 31) by (destruct (Z.le_gt_cases (us (deadline (br_timer s)) - us (clock (br_world s))) 0); lia).
  destruct (silent_poll Hos fd r w1) as (n & w & E & Hn & Ht); [lia |].
  exists w. unfold within in *. split; [lia |]. split; [lia |]. intros fuel. cbn [await_datagram].
  erewrite bind_os by exact E1. rewrite bind_get. cbn [br_timer set_field set_br_world]. fold r.
  unfold stun_trans_poll. rewrite bind_bind, bind_get. cbn [br_trans set_field set_br_world]. rewrite (wait_fd _ _ Hw).
  assert (s32 r = r) as -> by (unfold s32; zlia).
  rewrite bind_bind. erewrite bind_os by exact E. rewrite bind_ret.
  rewrite (proj2 (Z.leb_le n 0) Hn). done.
Qed.

(** The deadline is not reached: nothing to receive, and another round. *)
Lemma round_early (s : R) :
  stun_timer_remainder (br_timer s) (clock (br_world s)) ≠ 0 →
  ∃ w, within 3 (br_world s) w ∧
    ∀ fuel, (timer_refresh ≫= after_poll fuel) s = await_datagram fuel data (s <| br_world := w |>).
Proof.
  intros Hr. assert (E : stun_timer_refresh (br_timer s) (clock (br_world s)) = Done (br_timer s, STUN_USAGE_TIMER_RETURN_SUCCESS))
    by (unfold stun_timer_refresh; by destruct (Z.eqb_spec (stun_timer_remainder (br_timer s) (clock (br_world s))) 0)).
  apply refresh_run in E as (w & Hl & E).
  destruct (silent_recv Hos (tr_fd (br_trans s)) STUN_MAX_MESSAGE_SIZE w) as (w2 & E2 & H2).
  destruct (silent_queue Hos (tr_fd (br_trans s)) w2) as (w3 & E3 & H3).
  exists w3. split; [unfold within in *; lia |]. intros fuel. erewrite bind_run by exact E. cbn [after_poll].
  unfold stun_trans_recv. rewrite bind_bind, bind_get, bind_bind. erewrite bind_os by exact E2.
  cbv iota. rewrite bind_bind. unfold stun_err_dequeue. erewrite bind_os by exact E3. done.
Qed.

(** The deadline: [k + 1] transmissions, the next one as the timer says. *)
Lemma round_again k s :
  waiting k s → (1 ≤ k < 7)%nat → stun_timer_remainder (br_timer s) (clock (br_world s)) = 0 →
  ∃ s', waiting (S k) s' ∧ within 3 (br_world s) (br_world s') ∧
    us (deadline (br_timer s)) + 200 * 1000 ≤ us (deadline (br_timer s')) ∧
    ∀ fuel, (timer_refresh ≫= after_poll (S fuel)) s = await_datagram (S fuel) data s'.
Proof.
  intros Hw Hk Hrem.
  pose proof (stun_timer_remainder_spec (br_timer s) (clock (br_world s)) (wait_ok _ _ Hw) (silent_clock Hos _)
    ltac:(pose proof (wait_near _ _ Hw); lia)) as [_ Hr1]. rewrite Hrem in Hr1.
  destruct Hw as [Hfd Hown Hdst Hlog Hd Hc Hm Hok Hdl Hnear].
  destruct (delays_next k _ Hk Hd) as (Hnext & Hel & Hdel & Hdel').
  destruct (refresh_due (br_timer s) (clock (br_world s)) Hrem Hok) as (t & E & Ht & Htr & Htm & Htd & Htok); [lia.. |].
  apply refresh_run in E as (w & Hl & E).
  set (s1 := s <| br_world := w |> <| br_timer := t |>) in *.
  destruct (send_once s1) as (v & w' & Hv & Hl' & Es).
  eexists. split; [| split; [| split]]; cycle 3.
  { intros fuel. erewrite bind_run by exact E. cbn [after_poll]. erewrite bind_run by exact (Es fuel).
    rewrite (proj2 (Z.ltb_ge v (-1)) Hv). done. }
  3:{ rewrite Hc, Hm in Htd. change (us (deadline (br_timer s)) + 200 * 1000 ≤ us (deadline t)). lia. }
  2:{ unfold within in *. cbn in *. lia. }
  unfold within in *. rewrite Hc, Hm in *. split; try done.
  - cbn. by rewrite Hfd, Hdst, Hlog.
  - change (nth_error delays (S k - 1) = Some (delay t)). by rewrite Ht, Nat.sub_succ, Nat.sub_0_r.
  - change (retransmissions t = Z.of_nat (S k)). lia.
  - change (us (deadline t) = start + elapsed (S k)). lia.
  - change (us (deadline t) - us (clock w') ≤ 7000 * 1000). change (br_world s1) with w in Hl'.
    destruct (Z.le_gt_cases (us (deadline (br_timer s)) - us (clock (br_world s))) 0); lia.
Qed.

(** The last deadline. *)
Lemma round_last s :
  waiting 7 s → stun_timer_remainder (br_timer s) (clock (br_world s)) = 0 →
  ∃ w, later (br_world s) w ∧
    ∀ fuel, (timer_refresh ≫= after_poll fuel) s = Done (inl STUN_USAGE_BIND_RETURN_TIMEOUT, s <| br_world := w |>).
Proof.
  intros Hw Hrem.
  assert (E : stun_timer_refresh (br_timer s) (clock (br_world s)) = Done (br_timer s, STUN_USAGE_TIMER_RETURN_TIMEOUT)).
  { unfold stun_timer_refresh. by rewrite Hrem, (wait_count _ _ Hw), (wait_max _ _ Hw). }
  apply refresh_run in E as (w & Hl & E). exists w. split; [done |]. intros fuel. by erewrite bind_run by exact E.
Qed.

(** The rounds that are left: two for each deadline, one where less than a
    millisecond is left. *)
Definition rounds (k : nat) (s : R) : nat := 2 * (7 - k) + (if left s <? 1000 then 1 else 2).

(** How far the remainder of a timer is off. *)
Lemma remainder_bounds k s :
  waiting k s → let r := stun_timer_remainder (br_timer s) (clock (br_world s)) * 1000 in
  (left s ≤ 0 → r = 0) ∧ (0 < left s → - 1000 < r - left s < 1000).
Proof.
  intros Hw.
  pose proof (stun_timer_remainder_spec (br_timer s) (clock (br_world s)) (wait_ok _ _ Hw) (silent_clock Hos _)
    ltac:(pose proof (wait_near _ _ Hw); lia)) as [Hr0 Hr1].
  unfold left. split; [intros Hl; by rewrite (Hr0 Hl) | exact Hr1].
Qed.

Lemma await_times_out n : ∀ k s, waiting k s → (1 ≤ k ≤ 7)%nat → (rounds k s ≤ n)%nat → on_time s →
  ∃ s', waiting 7 s' ∧ left s' < 1000 ∧ (prompt → - left s' < 1000 + 6 * slack) ∧
    ∀ fuel, (n < fuel)%nat → await_datagram fuel data s = Done (inl STUN_USAGE_BIND_RETURN_TIMEOUT, s').
Proof.
  induction n as [| n IH]; intros k s Hw Hk Hn Hon; [unfold rounds in Hn; destruct (left s <? 1000); lia |].
  destruct (round_poll k s Hw) as (w & Hl & Ht & Hround). cbv zeta in Ht.
  pose proof (waiting_later k s w Hw Hl) as Hw1. set (s1 := s <| br_world := w |>) in *.
  destruct (remainder_bounds k s Hw) as [Hr0 Hr1]. destruct (remainder_bounds k s1 Hw1) as [Hq0 Hq1].
  change (br_timer s1) with (br_timer s) in *. change (br_world s1) with w in *.
  assert (Hl1 : left s1 = left s - (us (clock w) - us (clock (br_world s)))) by (unfold left; cbn; lia).
  assert (Hlate : prompt → - left s1 < 1000 + 5 * slack).
  { intros Hp. specialize (Hon Hp). assert (0 ≤ slack) by lia. assert (- left s ≤ 3 * slack) by (unfold left; lia).
    destruct (Z.le_gt_cases (left s) 0) as [Hz | Hz]; [specialize (Hr0 Hz) | specialize (Hr1 Hz)]; lia. }
  destruct (Z.eq_dec (stun_timer_remainder (br_timer s) (clock w)) 0) as [Hz | Hnz].
  - assert (Hleft : left s1 < 1000) by (destruct (Z.le_gt_cases (left s1) 0); lia).
    destruct (Nat.eq_dec k 7) as [-> | Hne].
    + destruct (round_last s1 Hw1 Hz) as (w' & Hl' & E). unfold within in Hl'. change (br_world s1) with w in Hl'.
      exists (s1 <| br_world := w' |>).
      assert (Hl2 : left (s1 <| br_world := w' |>) = left s1 - (us (clock w') - us (clock w))) by (unfold left; cbn; lia).
      split_and!.
      * apply waiting_later; [done |]. change (br_world s1) with w. lia.
      * lia.
      * intros Hp. specialize (Hlate Hp). lia.
      * intros [| fuel] Hf; [lia |]. by rewrite Hround, E.
    + destruct (round_again k s1 Hw1 ltac:(lia) Hz) as (s2 & Hw2 & Hl2 & Hd2 & E).
      change (br_timer s1) with (br_timer s) in Hd2.
      destruct (IH (S k) s2 Hw2) as (s3 & Hw3 & Hs3 & Hp3 & E3); [lia | | |].
      { unfold rounds in *. destruct (left s2 <? 1000), (left s <? 1000); lia. }
      { intros Hp. specialize (Hlate Hp). unfold within, left, prompt in *.
        change (br_world s1) with w in *. change (br_timer s1) with (br_timer s) in *. lia. }
      exists s3. split_and!; [done.. |]. intros [| [| fuel]] Hf; [lia | lia |]. rewrite Hround, E. apply E3. lia.
  - destruct (round_early s1 Hnz) as (w' & Hl' & E). unfold within in Hl'. change (br_world s1) with w in Hl'.
    assert (Hw2 : waiting k (s1 <| br_world := w' |>))
      by (apply waiting_later; [done |]; change (br_world s1) with w; lia).
    set (s2 := s1 <| br_world := w' |>) in *.
    assert (Hpos : 0 < left s1) by (destruct (Z.le_gt_cases (left s1) 0) as [Hc |]; [specialize (Hq0 Hc); lia | done]).
    assert (left s2 < 1000 ∧ 1000 ≤ left s) as [H2 Hs].
    { unfold left in *. change (br_timer s2) with (br_timer s). change (br_timer s1) with (br_timer s) in *.
      change (br_world s2) with w'. change (br_world s1) with w in *.
      assert (stun_timer_remainder (br_timer s) (clock (br_world s)) ≠ 0) as Hne.
      { intros Hz. apply Hnz. eapply remainder_later; [apply (wait_ok _ _ Hw) | apply (silent_clock Hos) | apply (silent_clock Hos) | exact Hl | | exact Hz].
        pose proof (wait_near _ _ Hw). lia. }
      destruct (Z.le_gt_cases (us (deadline (br_timer s)) - us (clock (br_world s))) 0); lia. }
    destruct (IH k s2 Hw2 Hk) as (s3 & Hw3 & Hs3 & Hp3 & E3).
    { unfold rounds in *. destruct (Z.ltb_spec (left s2) 1000), (Z.ltb_spec (left s) 1000); lia. }
    { intros _. unfold left in Hpos. change (br_timer s2) with (br_timer s). change (br_timer s1) with (br_timer s) in Hpos.
      change (br_world s2) with w'. change (br_world s1) with w in Hpos. lia. }
    exists s3. split_and!; [done.. |]. intros [| fuel] Hf; [lia |]. rewrite Hround, E. apply E3. lia.
Qed.
End silent.

Lemma timer_start_run {W} {os : BindOs W} (clock : W → timeval) slack (Hos : silent clock slack) (s : BindRun) :
  ∃ w d, within clock slack 1 (br_world s) w ∧ us d = us (clock (br_world s)) + 200 * 1000 ∧ tv_ok d ∧
    timer_start s = Done (tt, s <| br_world := w |> <| br_timer := Build_StunTimer d 200 1 7 |>).
Proof.
  destruct (silent_time clock slack Hos (br_world s)) as (w & E & Hl).
  destruct (add_delay_spec (clock (br_world s)) 200) as (d & Ed & Hd & Hok); [apply (silent_clock clock slack Hos) | lia |].
  exists w, d. split_and!; [done.. |]. unfold timer_start. erewrite bind_os by exact E.
  unfold stun_timer_start. change STUN_TIMER_DEFAULT_TIMEOUT with 200. by rewrite Ed.
Qed.

Lemma create_run {W} {os : BindOs W} (clock : W → timeval) slack (Hos : silent clock slack) srv (s : BindRun) :
  sizeof_sockaddr ≤ srv.2 ≤ sizeof_sockaddr_storage →
  ∃ fd w, fd ≠ -1 ∧ within clock slack 1 (br_world s) w ∧
    stun_trans_create SOCK_DGRAM 0 srv s = Done (STUN_USAGE_TRANS_RETURN_SUCCESS,
      s <| br_world := w |> <| br_log := Opened fd :: br_log s |>
        <| br_trans := {| tr_fd := fd; tr_own_fd := fd; tr_dstlen := srv.2; tr_dst := srv.1 |} |>).
Proof.
  intros [H1 H2]. destruct (silent_socket clock slack Hos (sockaddr_family srv.1) SOCK_DGRAM 0 (br_world s)) as (fd & w & E & Hfd & Hl).
  exists fd, w. split_and!; [done.. |]. unfold stun_trans_create. rewrite (proj2 (Z.ltb_ge _ _) H1).
  unfold stun_socket. rewrite bind_bind. erewrite bind_os by exact E. rewrite (proj2 (Z.eqb_neq _ _) Hfd).
  unfold log. rewrite bind_bind, bind_upd, bind_ret, (proj2 (Z.eqb_neq _ _) Hfd).
  change (negb (SOCK_DGRAM =? SOCK_DGRAM)) with false. cbv iota. unfold stun_trans_init.
  rewrite (proj2 (Z.eqb_neq _ _) Hfd). destruct srv as [dst n]. cbn [fst snd] in *.
  rewrite bind_bind, bind_assert, bind_bind, bind_get, (proj2 (Z.ltb_ge _ _) H2). done.
Qed.


(** A redirected run is deaf: the error response that names the other server
    has closed the transaction, and the request is sent again as it is, so no
    answer is accepted any more. *)
Lemma redirected_run_deaf {W} {os : BindOs W} {crypto : Crypto} (data : bytes) (s : BindRun) fuel msg (addr alternate : addr_arg) :
  (∀ fd n w d w', os_recv fd n w = (Some d, w') → bytes_ok d ∧ zlen d < 2 ^ 16) →
  agent_conf (br_agent s) = {| compatibility := STUN_COMPATIBILITY_RFC3489; usage_flags := 0 |} →
  known_attributes (br_agent s) = STUN_ALL_KNOWN_ATTRIBUTES →
  Forall (λ e, si_valid e = false) (sent_ids (br_agent s)) →
  tr_own_fd (br_trans s) = tr_fd (br_trans s) → tr_fd (br_trans s) ≠ -1 →
  sessions data (Some (tr_fd (br_trans s))) (br_log s) →
  addr.2 ≤ sizeof_sockaddr_storage → alternate.2 ≤ sizeof_sockaddr_storage →
  safe (bind_loop fuel data msg addr alternate) (λ r _, r.1 ≠ STUN_USAGE_BIND_RETURN_SUCCESS) s.
Proof.
  intros Hrecv Hc Hk Hv Hown Hfd Hl Hn Halt.
  eapply safe_mono; [eapply (bind_loop_safe Hrecv data []); [| done..] |].
  - split; [done.. |]. split; [done.. |]. eapply Forall_impl; [exact Hv |]. cbn. intros e He. congruence.
  - intros [r a] s' [_ Ha] E. destruct (Ha E) as (m & ty & l & b & _ & [[_ _ Hid _ _ _] _] & _). discriminate Hid.
Qed.

Lemma safe_done {S A} (m : st S A) Q s a s' : safe m Q s → m s = Done (a, s') → Q a s'.
Proof. unfold safe. by intros H E; rewrite E in H. Qed.

(** ** A network to run on *)

(** Microseconds, and the datagrams that arrive, one after the other. *)
Definition demo_clock (t : Z) : timeval := {| tv_sec := t / 1000000; tv_usec := t mod 1000000 |}.
Definition demo_world : Type := Z * list bytes.

Definition deliverable (d : bytes) : bool := bool_decide (bytes_ok d) && (zlen d <? 2 ^ 16).

#[local] Instance demo_os : BindOs demo_world := {|
  os_gettimeofday w := (demo_clock w.1, w);
  os_socket _ _ _ w := (5, w);
  os_connect _ _ w := (true, w);
  os_sendto _ b _ w := (zlen b, w);
  os_errqueue _ w := (false, w);
  os_recv _ _ w := match w.2 with
                   | d :: ds => (if deliverable d then Some d else None, (w.1, ds))
                   | [] => (None, w)
                   end;
  os_poll _ d w := match w.2 with [] => (0, (w.1 + d * 1000, [])) | _ => (1, w) end;
  os_close _ w := w
|}.

Lemma demo_recv fd n (w : demo_world) d w' : os_recv fd n w = (Some d, w') → bytes_ok d ∧ zlen d < 2 ^ 16.
Proof.
  destruct w as [t [| x l]]; cbn; [done |]. destruct (deliverable x) eqn:E; [| done]. intros [= -> _].
  unfold deliverable in E. apply andb_true_iff in E as [E1 E2]. apply bool_decide_eq_true in E1. by split; [| lia].
Qed.

Definition demo_server : addr_arg := (sockaddr_in (htons 3478) (htonl 0xc0000207), 16).
Definition demo_addr : addr_arg := (sockaddr_other 0, sizeof_sockaddr_storage).
Definition demo_buffer : bytes := repeat 0 (Z.to_nat STUN_MAX_MESSAGE_SIZE).
Definition demo_start {W} (w : W) : BindRun :=
  {| br_world := w; br_trans := {| tr_fd := 0; tr_own_fd := 0; tr_dstlen := 0; tr_dst := sockaddr_other 0 |};
     br_timer := {| deadline := demo_clock 0; delay := 0; retransmissions := 0; max_retransmissions := 0 |};
     br_agent := zero_agent; br_log := [] |}.
Definition demo_blank : StunMessage := Build_StunMessage None [] None (repeat 0 16) false.
Local Abbreviation demo_bind inbox :=
  (@stun_usage_bind_run demo_world demo_os toy_crypto [] 40 demo_blank demo_blank demo_buffer demo_tid
    demo_server demo_addr (@demo_start demo_world (0, inbox))).

(** Answers: 192.0.2.1:5000 in XOR-MAPPED-ADDRESS; and a redirection to
    192.0.2.7:3478. *)
Definition demo_answer : bytes :=
  let l := [Attr STUN_ATTRIBUTE_XOR_MAPPED_ADDRESS (addr_val (xor_addr STUN_MAGIC_COOKIE demo_tid demo_relayed)) []] in
  hdr_enc (type_bytes STUN_RESPONSE STUN_BINDING) demo_tid (zlen (attrs_enc l)) ++ attrs_enc l.
Definition demo_redirect : bytes :=
  let l := [Attr STUN_ATTRIBUTE_ERROR_CODE [0; 0; 3; 0] []; Attr STUN_ATTRIBUTE_ALTERNATE_SERVER (addr_val demo_server.1) []] in
  hdr_enc (type_bytes STUN_ERROR STUN_BINDING) demo_tid (zlen (attrs_enc l)) ++ attrs_enc l.

(** Junk is passed over, the answer is taken. *)
Lemma bind_run_safe_witness :
  ∃ s', demo_bind [[1; 2; 3]; demo_answer] = Done (STUN_USAGE_BIND_RETURN_SUCCESS, (demo_relayed, 16), s') ∧
    sessions (binding_request demo_tid) None (br_log s') ∧ tr_fd (br_trans s') = -1 ∧
    @answered _ demo_os demo_tid sizeof_sockaddr_storage (demo_relayed, 16).
Proof.
  assert (E : ∃ s', demo_bind [[1; 2; 3]; demo_answer] = Done (STUN_USAGE_BIND_RETURN_SUCCESS, (demo_relayed, 16), s'))
    by (eexists; vm_compute; reflexivity).
  destruct E as [s' E]. exists s'. split; [exact E |].
  pose proof (@bind_run_safe _ demo_os toy_crypto [] 40 demo_blank demo_blank demo_buffer demo_tid demo_server
    demo_addr (@demo_start demo_world (0, [[1; 2; 3]; demo_answer])) demo_recv) as H.
  lapply H; [clear H; intros H | by_compute]. lapply H; [clear H; intros H | by_compute].
  lapply H; [clear H; intros H | by_compute]. lapply H; [clear H; intros H | by_compute].
  lapply H; [clear H; intros H | by_compute]. lapply H; [clear H; intros H | done].
  lapply H; [clear H; intros H | done].
  apply (λ H, safe_done _ _ _ _ _ H E) in H. destruct H as (H1 & H2 & H3).
  split; [exact H1 |]. split; [exact H2 | exact (H3 eq_refl)].
Defined.

(** The other server answers, and is not heard. *)
Example redirected_answer_lost :
  ∃ a s', demo_bind [demo_redirect; demo_answer] = Done (STUN_USAGE_BIND_RETURN_TIMEOUT, a, s').
Proof. eexists _, _. vm_compute. reflexivity. Qed.

(** An XOR-MAPPED-ADDRESS of IPv6 does not fit sixteen octets; it leaves the
    length of an IPv6 address, and the MAPPED-ADDRESS is stored with it. *)
Definition demo_ip6 : sockaddr_storage := sockaddr_in6 0 0 (repeat 1 16) 0.
Definition demo_two_answers : StunMessage :=
  let l := [Attr STUN_ATTRIBUTE_XOR_MAPPED_ADDRESS (addr_val demo_ip6) []; Attr STUN_ATTRIBUTE_MAPPED_ADDRESS (addr_val demo_ip6) []] in
  demo_blank <| msg_buffer := hdr_enc (type_bytes STUN_RESPONSE STUN_BINDING) demo_tid (zlen (attrs_enc l)) ++ attrs_enc l |>.
Example bind_process_overruns :
  stun_usage_bind_process demo_two_answers (sockaddr_other 0, 16) None
    = Done (STUN_USAGE_BIND_RETURN_SUCCESS, (demo_ip6, sizeof_sockaddr_in6), None).
Proof. vm_compute. reflexivity. Qed.

(** Nothing arrives. *)
Definition quiet_os : BindOs Z := {|
  os_gettimeofday t := (demo_clock t, t);
  os_socket _ _ _ t := (5, t);
  os_connect _ _ t := (true, t);
  os_sendto _ _ _ t := (-1, t);
  os_errqueue _ t := (false, t);
  os_recv _ _ t := (None, t);
  os_poll _ d t := (0, t + d * 1000);
  os_close _ t := t
|}.
Lemma us_demo_clock t : us (demo_clock t) = t.
Proof. unfold us, demo_clock. cbn. zlia. Qed.
Lemma quiet_silent : @silent Z quiet_os demo_clock 0.
Proof.
  assert (∀ t, within demo_clock 0 1 t t) by (unfold within; intros; lia).
  split; intros; cbn; try (by eexists _, _); try (by eexists).
  - unfold clock_ok, demo_clock. cbn. zlia.
  - eexists _, _. split; [done |]. split; [done |]. rewrite !us_demo_clock. lia.
  - done.
Qed.
