(* ===== verification/UdpBsd.v ===== *)
(** * UDP sockets (socket/udp-bsd.c)

    Sending datagrams, with the socket address of the last peer kept, and
    receiving them.  The socket of the operating system is a parameter; the
    conversions of socket addresses are GLib's (gio/gsocketaddress.c,
    ginetsocketaddress.c), which keep neither the flow label nor the scope.
    AF_UNIX is left out.  A [union] on the stack is not initialised:
    [StackJunk]. *)

From S2P Require Import Prelude Bytes StateMonad StunMessage NiceAddress NiceSocket.
#[global] Open Scope Z_scope.

(** ** Socket addresses *)

(** The port is in the order of the host. *)
Inductive GSocketAddress :=
| g_inet4 (addr : Z) (port : Z)
| g_inet6 (addr : bytes) (port : Z).
#[export] Instance GSocketAddress_eq_dec : EqDecision GSocketAddress.
Proof. solve_decision. Defined.

Definition g_socket_address_new_from_native (sa : NiceAddress) : option GSocketAddress :=
  if sa_family sa =? AF_UNSPEC then None
  else if sa_family sa =? AF_INET then Some (g_inet4 (sa_word sa) (htons (sa_port sa)))
  else if sa_family sa =? AF_INET6 then Some (g_inet6 (s6_addr sa) (htons (sa_port sa)))
  else None.

(** Into [dest], which is large enough. *)
Definition g_inet_socket_address_to_native (a : GSocketAddress) (dest : NiceAddress) : NiceAddress :=
  match a with
  | g_inet4 addr port =>
      dest <| sa_family := AF_INET |> <| sa_port := htons port |> <| sa_word := addr |>
           <| s6_addr := repeat 0 8 ++ drop 8 (s6_addr dest) |>
  | g_inet6 addr port => Build_NiceAddress AF_INET6 (htons port) 0 addr 0
  end.

(** A socket for the family of [name], IPv4 where it has none, and [name]. *)
Definition socket_of_family {G} (g_socket_new : Z → option G) (name : NiceAddress) : option G * NiceAddress :=
  if (sa_family name =? AF_UNSPEC) || (sa_family name =? AF_INET)
  then (g_socket_new AF_INET, name <| sa_family := AF_INET |>)
  else if sa_family name =? AF_INET6 then (g_socket_new AF_INET6, name)
  else (None, name).

(** The address a socket is to be bound to; [None] is NULL. *)
Class StackJunk : Type := { stack_address : NiceAddress }.
Definition wanted_name `{StackJunk} (addr : option NiceAddress) : NiceAddress :=
  match addr with
  | Some a => nice_address_copy_to_sockaddr a stack_address
  | None => address_zero <| sa_family := AF_UNSPEC |>
  end.

(** ** The operating system *)

Inductive g_udp_error :=
| G_UDP_WOULD_BLOCK
| G_UDP_CONNECTION_CLOSED
| G_UDP_MESSAGE_TOO_LARGE
| G_UDP_ERROR.

Class GDatagramSocket (G : Type) : Type := {
  g_socket_new : Z → option G;                                (* for a family *)
  g_socket_bind : GSocketAddress → st G bool;
  g_socket_get_local_address : G → option GSocketAddress;
  g_datagram_receive : bool → list GInputVector →             (* whether the sender is asked for *)
    st G ((Z + g_udp_error) * option GSocketAddress * list GInputVector);
  g_datagram_send : option GSocketAddress → list bytes → st G (Z + g_udp_error)
}.

Section udp.
Context {G : Type} `{!GDatagramSocket G, stack : StackJunk}.

(** [usock_addr] is the address of the socket itself. *)
Record UdpBsdSocketPrivate := {
  usock_fileno : G;
  usock_addr : NiceAddress;
  niceaddr : NiceAddress;
  gaddr : option GSocketAddress
}.
Definition eta_UdpBsdSocketPrivate (p : UdpBsdSocketPrivate) : UdpBsdSocketPrivate :=
  Build_UdpBsdSocketPrivate (usock_fileno p) (usock_addr p) (niceaddr p) (gaddr p).
#[export] Instance set_usock_fileno : Setter usock_fileno := ltac:(derive_setter eta_UdpBsdSocketPrivate usock_fileno).
#[export] Instance set_niceaddr : Setter niceaddr := ltac:(derive_setter eta_UdpBsdSocketPrivate niceaddr).
#[export] Instance set_gaddr : Setter gaddr := ltac:(derive_setter eta_UdpBsdSocketPrivate gaddr).

(** ** Opening *)

(** [None]: NULL. *)
Definition nice_udp_bsd_socket_new (addr : option NiceAddress) : outcome (option UdpBsdSocketPrivate) :=
  let '(gsock, name) := socket_of_family g_socket_new (wanted_name addr) in
  match gsock with
  | None => mret None
  | Some gsock =>
      '(gret, gsock) ← match g_socket_address_new_from_native name with
                       | Some gaddr => g_socket_bind gaddr gsock
                       | None => mret (false, gsock)
                       end;
      if negb gret then mret None
      else
        match g_socket_get_local_address gsock with
        | None => mret None
        | Some gaddr =>
            let name := g_inet_socket_address_to_native gaddr name in
            mret (Some {| usock_fileno := gsock; usock_addr := nice_address_set_from_sockaddr address_zero name;
                          niceaddr := nice_address_init address_zero; gaddr := None |})
        end
  end.

(** ** Receiving *)

(** What one call reads: the return value, whether it is an error, and the
    message. *)
Definition udp_receive (recv_message : NiceInputMessage)
  : st UdpBsdSocketPrivate (Z * bool * NiceInputMessage) :=
  '(recvd, from, vs) ← on usock_fileno
    (g_datagram_receive (bool_decide (im_from recv_message ≠ None)) (im_buffers recv_message));
  let '(recvd, error) :=
    match recvd with
    | inl n => (n, false)
    | inr G_UDP_WOULD_BLOCK | inr G_UDP_CONNECTION_CLOSED => (0, false)
    | inr G_UDP_MESSAGE_TOO_LARGE => (input_message_get_size recv_message, false)
    | inr G_UDP_ERROR => (-1, true)
    end in
  let recv_message := recv_message <| im_buffers := vs |> <| im_length := Z.max recvd 0 |> in
  let recv_message :=
    match im_from recv_message, from with
    | Some old, Some gaddr =>
        if 0 <? recvd then
          recv_message <| im_from :=
            Some (nice_address_set_from_sockaddr old (g_inet_socket_address_to_native gaddr stack_address)) |>
        else recv_message
    | _, _ => recv_message
    end in
  mret (recvd, error, recv_message).

(** The loop, at message [i]: the count and the last [error]. *)
Fixpoint udp_recv_loop (i : Z) (messages : list NiceInputMessage)
  : st UdpBsdSocketPrivate (Z * bool * list NiceInputMessage) :=
  match messages with
  | [] => mret (i, false, [])
  | recv_message :: rest =>
      '(recvd, error, recv_message) ← udp_receive recv_message;
      if recvd <=? 0 then mret (i, error, recv_message :: rest)
      else
        '(n, error, rest) ← udp_recv_loop (i + 1) rest;
        mret (n, error, recv_message :: rest)
  end.
Definition udp_recv_messages (messages : list NiceInputMessage)
  : st UdpBsdSocketPrivate (Z * list NiceInputMessage) :=
  '(i, error, messages) ← udp_recv_loop 0 messages;
  mret (if (error : bool) && (i =? 0) then -1 else i, messages).

(** ** Sending *)

(** The socket address of [to], from the one kept: [None] when there is none. *)
Definition udp_destination (to : NiceAddress) : st UdpBsdSocketPrivate (option (option GSocketAddress)) :=
  a ← get niceaddr;
  if negb (nice_address_is_valid a) || negb (nice_address_equal a to) then
    _ ← put gaddr None;
    match g_socket_address_new_from_native (nice_address_copy_to_sockaddr to stack_address) with
    | Some g => _ ← put gaddr (Some g); _ ← put niceaddr to; mret (Some (Some g))
    | None => mret None
    end
  else g ← get gaddr; mret (Some g).

Definition udp_send_message (to : option NiceAddress) (message : NiceOutputMessage)
  : st UdpBsdSocketPrivate Z :=
  match to with
  | None => ub
  | Some to =>
      dst ← udp_destination to;
      match dst with
      | None => mret (-1)
      | Some dst =>
          len ← on usock_fileno (g_datagram_send dst (om_buffers message));
          mret match len with
               | inl n => n
               | inr G_UDP_WOULD_BLOCK => 0
               | inr _ => -1
               end
      end
  end.

Fixpoint udp_send_loop (i : Z) (to : option NiceAddress) (messages : list NiceOutputMessage)
  : st UdpBsdSocketPrivate Z :=
  match messages with
  | [] => mret i
  | message :: messages =>
      len ← udp_send_message to message;
      if len <? 0 then mret (if 0 <? i then i else len)
      else if len =? 0 then mret i
      else udp_send_loop (i + 1) to messages
  end.
Definition udp_send_messages (to : option NiceAddress) (messages : list NiceOutputMessage)
  : st UdpBsdSocketPrivate Z := udp_send_loop 0 to messages.
Definition udp_send_messages_reliable (to : option NiceAddress) (messages : list NiceOutputMessage)
  : st UdpBsdSocketPrivate Z := mret (-1).

#[export] Instance udp_bsd_socket : NiceSocket UdpBsdSocketPrivate := {|
  recv_messages := udp_recv_messages;
  send_messages := udp_send_messages;
  send_messages_reliable := udp_send_messages_reliable;
  is_reliable _ := mret false;
  can_send _ _ := mret true;
  set_writable_callback _ := mret tt
|}.
End udp.
Arguments UdpBsdSocketPrivate G : clear implicits.
