(* ===== verification/UdpBsdFacts.v ===== *)
(** * Theorems about UDP sockets

    The socket address that is kept is the one a conversion would give, in every
    history of calls; receiving fills the messages in order; and a TURN socket
    may stand on a UDP socket: its calls end. *)

From S2P Require Import Prelude Bytes StateMonad StunMessage StunHmac StunAgentTrans StunTimer NiceAddress NiceSocket UdpTurn UdpTurnInv UdpTurnDemo UdpTurnFacts UdpBsd.
#[global] Open Scope Z_scope.

(** ** Socket addresses *)

(** A conversion of a valid address does not depend on what the stack held. *)
Lemma native_copy a sa :
  nice_address_is_valid a = true →
  g_socket_address_new_from_native (nice_address_copy_to_sockaddr a sa) = g_socket_address_new_from_native a ∧
  is_Some (g_socket_address_new_from_native a).
Proof.
  unfold nice_address_is_valid, nice_address_copy_to_sockaddr. rewrite orb_true_iff, !Z.eqb_eq.
  unfold g_socket_address_new_from_native, copy_in.
  intros [E | E]; rewrite E; change (AF_INET6 =? AF_INET) with false; change (AF_INET =? AF_INET) with true;
    cbv iota; cbn; rewrite ?E; split; (done || by eexists).
Qed.

(** Equal addresses have the same socket address: the port and the host decide. *)
Lemma native_equal a b :
  nice_address_equal a b = true → g_socket_address_new_from_native a = g_socket_address_new_from_native b.
Proof.
  rewrite nice_address_equal_spec. unfold g_socket_address_new_from_native.
  intros (Ef & Ep & [[E Ew] | (E & E6 & _)]); rewrite <- Ef, Ep, E, ?Ew, ?E6; done.
Qed.

(** A received sender reads as an address equal to the sent one. *)
Lemma native_back a sa old g :
  address_ok a → g_socket_address_new_from_native a = Some g →
  nice_address_equal (nice_address_set_from_sockaddr old (g_inet_socket_address_to_native g sa)) a = true.
Proof.
  intros Hok. unfold g_socket_address_new_from_native. rewrite nice_address_equal_spec.
  destruct (Z.eqb_spec (sa_family a) AF_UNSPEC); [done |].
  destruct (Z.eqb_spec (sa_family a) AF_INET) as [E |]; [| destruct (Z.eqb_spec (sa_family a) AF_INET6) as [E |]; [| done]];
    intros [= <-]; unfold nice_address_set_from_sockaddr; cbn -[htons];
    rewrite E, htons_involutive by apply Hok; split_and!; try done; [by left | by right].
Qed.

Lemma st_bind_eq {S A B} (m : st S A) (f : A → st S B) s :
  (m ≫= f) s = match m s with Done (a, s) => f a s | Ub => Ub | Oof => Oof end.
Proof. done. Qed.
Lemma bind_on {S E A B} (proj : S → E) `{!Setter proj} (m : st E A) (f : A → st S B) s :
  (on proj m ≫= f) s
    = match m (proj s) with Done (a, e) => f a (s <| proj := e |>) | Ub => Ub | Oof => Oof end.
Proof. unfold on. rewrite st_bind_eq. by destruct (m (proj s)) as [[a e] | |]. Qed.

Lemma runs_on {S E A} (proj : S → E) `{!Setter proj} (m : st E A) (Q : A → S → Prop) s :
  runs m (λ a e, Q a (s <| proj := e |>)) (proj s) → runs (on proj m) Q s.
Proof. unfold runs, on. by destruct (m (proj s)) as [[a e] | |]. Qed.
Lemma runs_ends_only {S A} (m : st S A) s : m s ≠ Oof → runs m (λ _ _, True) s.
Proof. unfold runs. by destruct (m s) as [[? ?] | |]. Qed.

Section facts.
Context {G : Type} `{!GDatagramSocket G, stack : StackJunk}.
Implicit Types s : UdpBsdSocketPrivate G.

(** ** Sending *)

(** The address kept is that of the last peer. *)
Definition coherent s : Prop :=
  nice_address_is_valid (niceaddr s) = true → gaddr s = g_socket_address_new_from_native (niceaddr s).

Lemma destination_spec to s :
  nice_address_is_valid to = true → coherent s →
  ∃ s', udp_destination to s = Done (Some (g_socket_address_new_from_native to), s') ∧
    usock_fileno s' = usock_fileno s ∧ usock_addr s' = usock_addr s ∧ coherent s'.
Proof.
  intros Hv Hc. unfold udp_destination. rewrite bind_get.
  destruct (nice_address_is_valid (niceaddr s)) eqn:Ev; cbn [negb orb];
    [destruct (nice_address_equal (niceaddr s) to) eqn:Ee; cbn [negb] |].
  - rewrite bind_get, (Hc Ev), (native_equal _ _ Ee). exists s. by split_and!.
  - rewrite bind_put. destruct (native_copy to stack_address Hv) as [-> [g Eg]]. rewrite Eg, !bind_put.
    eexists. split; [done |]. split_and!; try done. unfold coherent. cbn. by rewrite Eg.
  - rewrite bind_put. destruct (native_copy to stack_address Hv) as [-> [g Eg]]. rewrite Eg, !bind_put.
    eexists. split; [done |]. split_and!; try done. unfold coherent. cbn. by rewrite Eg.
Qed.

(** What sending is meant to be: each message to [dst], until one is not taken. *)
Fixpoint direct_send (i : Z) (dst : option GSocketAddress) (messages : list NiceOutputMessage) : st G Z :=
  match messages with
  | [] => mret i
  | message :: messages =>
      r ← g_datagram_send dst (om_buffers message);
      let len := match r with inl n => n | inr G_UDP_WOULD_BLOCK => 0 | inr _ => -1 end in
      if len <? 0 then mret (if 0 <? i then i else len)
      else if len =? 0 then mret i
      else direct_send (i + 1) dst messages
  end.

(** The same run, on the socket and on what the operating system has of it. *)
Definition same_run {A} (m : outcome (A * UdpBsdSocketPrivate G)) (d : outcome (A * G)) s : Prop :=
  match d with
  | Done (a, g) => ∃ s', m = Done (a, s') ∧ usock_fileno s' = g ∧ usock_addr s' = usock_addr s ∧ coherent s'
  | Ub => m = Ub
  | Oof => m = Oof
  end.

Lemma send_loop_direct to ms i s :
  nice_address_is_valid to = true → coherent s →
  same_run (udp_send_loop i (Some to) ms s)
    (direct_send i (g_socket_address_new_from_native to) ms (usock_fileno s)) s.
Proof.
  intros Hv. revert i s. induction ms as [| m ms IH]; intros i s Hc; cbn [udp_send_loop direct_send].
  { by exists s. }
  destruct (destination_spec to s Hv Hc) as (s1 & E & Hf & Ha & Hc1).
  unfold udp_send_message. rewrite bind_bind. erewrite bind_run by exact E. cbv beta iota.
  rewrite bind_bind, bind_on, Hf, (st_bind_eq (g_datagram_send _ _)).
  destruct (g_datagram_send (g_socket_address_new_from_native to) (om_buffers m) (usock_fileno s)) as [[r g] | |];
    [| done..]. cbv beta iota.
  rewrite bind_ret. set (s2 := s1 <| usock_fileno := g |>).
  assert (Hc2 : coherent s2) by exact Hc1.
  set (len := match r with inl n => n | inr G_UDP_WOULD_BLOCK => 0 | inr _ => -1 end).
  replace (match r with inl n => n | inr G_UDP_WOULD_BLOCK => 0 | inr _ => -1 end) with len by done.
  destruct (len <? 0); [by exists s2 |]. destruct (len =? 0); [by exists s2 |].
  specialize (IH (i + 1) s2 Hc2). unfold same_run in *.
  change (usock_addr s2) with (usock_addr s1) in IH. rewrite Ha in IH. exact IH.
Qed.

(** ** Receiving *)

(** Receiving leaves what sending keeps alone. *)
Definition same_peer s s' : Prop :=
  niceaddr s' = niceaddr s ∧ gaddr s' = gaddr s ∧ usock_addr s' = usock_addr s.
#[local] Instance same_peer_pre : PreOrder same_peer.
Proof. unfold same_peer. split; [done |]. intros ? ? ? (-> & -> & ->) (-> & -> & ->). by split_and!. Qed.

Lemma keeps_on {A} (m : st G A) : keeps same_peer (on usock_fileno m).
Proof.
  intros s a s' Hr. unfold on in Hr. destruct (m (usock_fileno s)) as [[x e] | |]; [| done..]. injection Hr as _ <-. done.
Qed.
Lemma receive_keeps m : keeps same_peer (udp_receive m).
Proof. unfold udp_receive. apply keeps_bind; [apply _ | apply keeps_on | intros [[r f] vs]]. repeat keeps_step. Qed.
Lemma udp_recv_loop_keeps i ms : keeps same_peer (udp_recv_loop i ms).
Proof.
  revert i. induction ms as [| m ms IH]; intros i; cbn [udp_recv_loop]; [apply keeps_ret, _ |].
  apply keeps_bind; [apply _ | apply receive_keeps | intros [[recvd error] m']].
  destruct (recvd <=? 0); [apply keeps_ret, _ |]. apply keeps_bind; [apply _ | apply IH |].
  intros [[n e] rest]. apply keeps_ret, _.
Qed.
Lemma udp_recv_keeps ms : keeps same_peer (udp_recv_messages ms).
Proof.
  unfold udp_recv_messages. apply keeps_bind; [apply _ | apply udp_recv_loop_keeps |].
  intros [[n e] rest]. apply keeps_ret, _.
Qed.

(** ** Every history *)

(** A socket that was opened, and then used with valid addresses. *)
Inductive udp_reachable : UdpBsdSocketPrivate G → Prop :=
| udp_reach_new addr s : nice_udp_bsd_socket_new addr = Done (Some s) → udp_reachable s
| udp_reach_send to ms s n s' :
    udp_reachable s → nice_address_is_valid to = true → udp_send_messages (Some to) ms s = Done (n, s') → udp_reachable s'
| udp_reach_send_reliable to ms s n s' :
    udp_reachable s → udp_send_messages_reliable to ms s = Done (n, s') → udp_reachable s'
| udp_reach_recv ms s r s' : udp_reachable s → udp_recv_messages ms s = Done (r, s') → udp_reachable s'.

Lemma new_coherent addr s : nice_udp_bsd_socket_new addr = Done (Some s) → coherent s.
Proof.
  unfold nice_udp_bsd_socket_new. intros H.
  destruct (socket_of_family _ _) as [[gsock |] name]; [| done].
  apply bind_inv in H as ([[] g'] & _ & H); [| done]. cbn [negb] in H.
  case_match; [| done]. injection H as <-. by intros H.
Qed.

Lemma reachable_coherent s : udp_reachable s → coherent s.
Proof.
  induction 1 as [addr s H | to ms s n s' _ IH Hv H | to ms s n s' _ IH H | ms s r s' _ IH H].
  - by eapply new_coherent.
  - pose proof (send_loop_direct to ms 0 s Hv IH) as Hr. unfold udp_send_messages in H. rewrite H in Hr. revert Hr. unfold same_run.
    destruct (direct_send _ _ _ _) as [[k g] | |]; [| done..]. intros (s1 & [= _ ->] & _ & _ & Hc). exact Hc.
  - injection H as _ <-. exact IH.
  - apply udp_recv_keeps in H as (H1 & H2 & _). unfold coherent. by rewrite H1, H2.
Qed.

(** C21: the socket address a UDP socket keeps is never stale.  Whatever was sent
    and received before, sending to a valid address does what a conversion of
    that address for every message would do: the same datagrams, to the same
    destination, with the same return value, until one is not taken. *)
Theorem udp_sends_to_peer (to : NiceAddress) (ms : list NiceOutputMessage) s
    (Hs : udp_reachable s) (Hto : nice_address_is_valid to = true) :
  is_Some (g_socket_address_new_from_native to) ∧
  same_run (udp_send_messages (Some to) ms s)
    (direct_send 0 (g_socket_address_new_from_native to) ms (usock_fileno s)) s.
Proof.
  split; [by apply (native_copy to stack_address) |].
  apply send_loop_direct; [done | by apply reachable_coherent].
Qed.
End facts.

(** ** Calls end *)

(** The calls of the operating system end, what they store are octets, and
    vectors are memory. *)
Class GDatagramLaws (G : Type) `{!GDatagramSocket G} : Prop := {
  datagram_send_ends : ∀ dst bufs (g : G), g_datagram_send dst bufs g ≠ Oof;
  datagram_receive_octets : ∀ from vs (g : G),
    Forall (λ v, bytes_ok (iv_buffer v)) vs →
    runs (g_datagram_receive from vs) (λ r _, Forall (λ v, bytes_ok (iv_buffer v)) r.2 ∧
      match r.1.1 with
      | inl n => n < 2 ^ 63
      | inr G_UDP_MESSAGE_TOO_LARGE => sizes (map iv_size vs) < 2 ^ 63
      | inr _ => True
      end) g
}.

Section ends.
Context {G : Type} `{!GDatagramSocket G, stack : StackJunk, !GDatagramLaws G}.
Implicit Types s : UdpBsdSocketPrivate G.

Lemma udp_send_ends to ms s : udp_send_messages to ms s ≠ Oof.
Proof.
  apply (runs_ends _ (λ _ _, True)). unfold udp_send_messages. generalize 0 as i. revert s.
  induction ms as [| m ms IH]; intros s i; cbn [udp_send_loop]; [done |].
  apply runs_bind. unfold udp_send_message. destruct to as [to |]; [| done].
  apply runs_bind. apply runs_mono with (P := λ _ _, True).
  - unfold udp_destination. runs_steps. destruct (_ || _); runs_steps; [| done]. destruct (g_socket_address_new_from_native _); runs_steps; done.
  - intros dst s1 _. destruct dst as [dst |]; cbv iota.
    2:{ by apply runs_ret. }
    apply runs_bind, runs_on. eapply runs_mono; [apply runs_ends_only, datagram_send_ends |].
    intros len g _. apply runs_ret. set (n := match len with inl n => n | inr _ => _ end).
    destruct (n <? 0); [done |]. destruct (n =? 0); [done | apply IH].
Qed.

Lemma udp_receive_octets m s : input_octets m → runs (udp_receive m) (λ r _, input_octets r.2) s.
Proof.
  intros [Hok Hlen]. unfold udp_receive. apply runs_bind, runs_on.
  eapply runs_mono; [by apply datagram_receive_octets |]. intros [[recvd from] vs] g [Hvs Hn]. cbn [fst snd] in *.
  unfold input_message_get_size.
  assert (Hmax : ∀ n : Z, n < 2 ^ 63 → Z.max n 0 < 2 ^ 64) by lia.
  destruct recvd as [n | []]; runs_steps; cbn [im_from set_field set_im_buffers set_im_length];
    repeat case_match; (split; [exact Hvs | cbn; by apply Hmax]).
Qed.

(** A UDP socket is a base for a TURN socket. *)
#[export] Instance udp_bsd_ends : EndingSocket (UdpBsdSocketPrivate G).
Proof.
  split; [done | by apply udp_send_ends | done |].
  intros ms s Hms. cbn [recv_messages udp_bsd_socket]. unfold udp_recv_messages.
  apply runs_bind. apply runs_mono with (P := λ r _, Forall input_octets r.2).
  - generalize 0 as i. revert s. induction Hms as [| m ms Hm Hms IH]; intros s i; cbn [udp_recv_loop].
    { apply runs_ret. constructor. }
    apply runs_bind. eapply runs_mono; [by apply udp_receive_octets |]. intros [[recvd error] m'] s1 Hm'. cbn [snd] in Hm'.
    destruct (recvd <=? 0); [apply runs_ret; by constructor |]. cbn [snd].
    apply runs_bind. eapply runs_mono; [apply IH |]. intros [[n e] rest] s2 Hrest. apply runs_ret. by constructor.
  - intros [[n e] rest] s1 H. by apply runs_ret.
Qed.
End ends.

(** Every call and every timeout of a TURN socket over a UDP socket ends. *)
Lemma turn_over_udp_ends {G} `{!GDatagramSocket G, stack : StackJunk, !GDatagramLaws G, !Malloc, !TurnEnv} {crypto : Crypto}
    PACKAGE_STRING now op (p : UdpTurnPriv (UdpBsdSocketPrivate G)) :
  (∀ n, bytes_ok (g_malloc n)) → reachable PACKAGE_STRING p → clock_ok now → op_ok op →
  run_op PACKAGE_STRING now op p ≠ Oof.
Proof. intros Hm Hp Hnow Hop. eapply runs_ends, op_runs; [done | by eapply (reachable_inv PACKAGE_STRING) | done..]. Qed.

(** ** A network to run on *)

(** What was sent where, the newest last; [net_room] datagrams are still taken. *)
Record net := { net_out : list (option GSocketAddress * bytes); net_room : Z }.
#[local] Instance net_socket : GDatagramSocket net := {|
  g_socket_new _ := Some {| net_out := []; net_room := 3 |};
  g_socket_bind _ := mret true;
  g_socket_get_local_address _ := Some (g_inet4 0 5000);
  g_datagram_receive _ vs := mret (inr G_UDP_WOULD_BLOCK, None, vs);
  g_datagram_send dst bufs g :=
    if net_room g =? 0 then Done (inr G_UDP_WOULD_BLOCK, g)
    else Done (inl (zlen (concat bufs)),
               {| net_out := net_out g ++ [(dst, concat bufs)]; net_room := net_room g - 1 |})
|}.
#[local] Instance clear_stack : StackJunk := {| stack_address := address_zero |}.

Definition demo_udp : UdpBsdSocketPrivate net :=
  {| usock_fileno := {| net_out := []; net_room := 3 |}; usock_addr := ipv4 0 5000;
     niceaddr := address_zero; gaddr := None |}.
Lemma demo_udp_reachable : udp_reachable demo_udp.
Proof. apply (udp_reach_new None). vm_compute. reflexivity. Qed.

(** Two datagrams to one peer, then two to another; the last finds no room. *)
Definition demo_other : NiceAddress := ipv4 0xc0000203 6000.
Definition demo_sent : UdpBsdSocketPrivate net :=
  match udp_send_messages (Some demo_peer) [demo_data [1]; demo_data [2]] demo_udp with
  | Done (_, s) => s | _ => demo_udp end.
Lemma demo_sent_reachable : udp_reachable demo_sent.
Proof. eapply (udp_reach_send demo_peer [demo_data [1]; demo_data [2]] demo_udp 2); [apply demo_udp_reachable | done | done]. Qed.

Lemma udp_sends_to_peer_witness :
  same_run (udp_send_messages (Some demo_other) [demo_data [3]; demo_data [4]] demo_sent)
    (Done (1, {| net_out := [(Some (g_inet4 (htonl 0xc0000202) 5000), [1]); (Some (g_inet4 (htonl 0xc0000202) 5000), [2]);
                             (Some (g_inet4 (htonl 0xc0000203) 6000), [3])]; net_room := 0 |})) demo_sent.
Proof. exact (proj2 (udp_sends_to_peer demo_other [demo_data [3]; demo_data [4]] demo_sent demo_sent_reachable eq_refl)). Defined.

(** ** Inputs on which the code falls short *)

(** A send to an address that cannot be converted forgets the socket address,
    but not whose it was: what is then sent to that peer has no destination. *)
Example failed_send_loses_peer :
  match udp_send_messages (Some address_zero) [demo_data [7]] demo_sent with
  | Done (-1, s) =>
      match udp_send_messages (Some demo_peer) [demo_data [8]] s with
      | Done (1, s) => last (net_out (usock_fileno s)) = Some (None, [8])
      | _ => False
      end
  | _ => False
  end.
Proof. reflexivity. Qed.

(** An empty datagram goes out, and is reported as one that would block: the
    message behind it is not sent. *)
Example empty_datagram_stops :
  match udp_send_messages (Some demo_peer) [demo_data []; demo_data [9]] demo_udp with
  | Done (n, s) => n = 0 ∧ net_out (usock_fileno s) = [(Some (g_inet4 (htonl 0xc0000202) 5000), [])]
  | _ => False
  end.
Proof. by split. Qed.
