(* ===== verification/TcpOpen.v ===== *)
(** * Opening TCP connections (socket/tcp-bsd.c, tcp-active.c, tcp-passive.c)

    A connection to an address, the active socket (the promise of one), and the
    passive socket, which listens.  The socket of the operating system is a
    parameter; main contexts and options of sockets are left out.

    A listener and the connections it accepted refer to each other: the listener
    finds a connection by the address of the peer, and a connection that is
    closed takes itself out of the table of the listener.  Both live in stores
    indexed by address; a socket that is closed leaves its store.  The
    GHashTable is an association list: a key that is inserted again keeps its
    place. *)

From stdpp Require Import gmap.
From S2P Require Import Prelude Bytes StateMonad StunMessage NiceAddress NiceSocket TcpBsd UdpBsd.
#[global] Open Scope Z_scope.

(** The outcome of [g_socket_connect]; PENDING is the error of a connection
    that goes on in the background. *)
Inductive g_connect_result := G_CONNECTED | G_CONNECT_PENDING | G_CONNECT_FAILED.

Class GStreamSocket (G : Type) : Type := {
  g_stream_new : Z → option G;                                (* for a family *)
  g_stream_bind : GSocketAddress → st G bool;
  g_stream_listen : st G bool;
  g_stream_connect : GSocketAddress → st G g_connect_result;
  g_stream_accept : st G (option G);
  g_stream_get_local_address : G → option GSocketAddress;
  g_stream_get_remote_address : G → option GSocketAddress
}.

Section tcp.
Context {G : Type} `{!GStreamSocket G, stack : StackJunk}.

(** A connected socket: the address of the NiceSocket, and its private part. *)
Definition TcpConnection : Type := NiceAddress * TcpPriv G.

(** A new socket that connects to [gaddr], bound before when there is an
    address to bind to; a failure to bind is passed over. *)
Definition stream_connect (gsock : G) (local : option GSocketAddress) (gaddr : GSocketAddress) : outcome (option G) :=
  gsock ← match local with
          | Some local => '(_, gsock) ← g_stream_bind local gsock; mret gsock
          | None => mret gsock
          end;
  '(gret, gsock) ← g_stream_connect gaddr gsock;
  match gret with
  | G_CONNECT_FAILED => mret None
  | G_CONNECTED | G_CONNECT_PENDING => mret (Some gsock)
  end.

(** The socket is bound once it is connected. *)
Definition nice_tcp_bsd_socket_new (local_addr : NiceAddress) (remote_addr : option NiceAddress) (reliable : bool)
  : outcome (option TcpConnection) :=
  match remote_addr with
  | None => mret None
  | Some remote_addr =>
      let '(gsock, name) := socket_of_family g_stream_new (nice_address_copy_to_sockaddr remote_addr stack_address) in
      match gsock, g_socket_address_new_from_native name with
      | Some gsock, Some gaddr =>
          gsock ← stream_connect gsock None gaddr;
          match gsock with
          | None => mret None
          | Some gsock =>
              match g_socket_address_new_from_native (nice_address_copy_to_sockaddr local_addr name) with
              | None => mret None
              | Some gaddr =>
                  '(_, gsock) ← g_stream_bind gaddr gsock;
                  mret (Some (local_addr, nice_tcp_bsd_socket_new_from_gsock gsock remote_addr reliable))
              end
          end
      | _, _ => mret None
      end
  end.

(** ** Active sockets *)

Record TcpActivePriv := { active_addr : NiceAddress; active_local_addr : GSocketAddress }.

Definition nice_tcp_active_socket_new (addr : option NiceAddress) : option TcpActivePriv :=
  let local_addr := match addr with Some a => nice_address_set_port a 0 | None => address_zero end in
  let name := match addr with
              | Some _ => nice_address_copy_to_sockaddr local_addr stack_address
              | None => address_zero <| sa_family := AF_UNSPEC |>
              end in
  gaddr ← g_socket_address_new_from_native name;
  Some {| active_addr := local_addr; active_local_addr := gaddr |}.

#[export] Instance tcp_active_socket : NiceSocket TcpActivePriv := {|
  recv_messages ms := mret (-1, ms);
  send_messages _ _ := mret (-1);
  send_messages_reliable _ _ := mret (-1);
  is_reliable _ := mret true;
  can_send _ _ := mret false;
  set_writable_callback _ := mret tt
|}.

(** Accepting and connecting read an address back from the new socket. *)
Definition address_of (gaddr : option GSocketAddress) (name old : NiceAddress) : option NiceAddress :=
  nice_address_set_from_sockaddr old ∘ (λ g, g_inet_socket_address_to_native g name) <$> gaddr.

Definition nice_tcp_active_socket_connect (sock : TcpActivePriv) (addr : option NiceAddress)
  : outcome (option TcpConnection) :=
  match addr with
  | None => mret None
  | Some addr =>
      let '(gsock, name) := socket_of_family g_stream_new (nice_address_copy_to_sockaddr addr stack_address) in
      match gsock, g_socket_address_new_from_native name with
      | Some gsock, Some gaddr =>
          gsock ← stream_connect gsock (Some (active_local_addr sock)) gaddr;
          match gsock with
          | None => mret None
          | Some gsock =>
              match address_of (g_stream_get_local_address gsock) name stack_address with
              | None => mret None
              | Some local_addr => mret (Some (local_addr, nice_tcp_bsd_socket_new_from_gsock gsock addr true))
              end
          end
      | _, _ => mret None
      end
  end.
End tcp.
Arguments TcpConnection G : clear implicits.

(** ** Passive sockets *)

(** *** The table of connections *)

(** [nice_address_hash] prints the address into a buffer that nothing else
    writes: an address of no family leaves it as it was. *)
Definition hashed (a : NiceAddress) {S A} (m : st S A) : st S A := if nice_address_is_valid a then m else ub.

Definition connections : Type := list (NiceAddress * Z).
Fixpoint conn_lookup (l : connections) (to : NiceAddress) : option Z :=
  match l with
  | [] => None
  | (k, c) :: l => if nice_address_equal k to then Some c else conn_lookup l to
  end.
Fixpoint conn_insert (l : connections) (key : NiceAddress) (c : Z) : connections :=
  match l with
  | [] => [(key, c)]
  | (k, c') :: l => if nice_address_equal k key then (k, c) :: l else (k, c') :: conn_insert l key c
  end.
Fixpoint conn_remove (l : connections) (to : NiceAddress) : connections :=
  match l with
  | [] => []
  | (k, c) :: l => if nice_address_equal k to then l else (k, c) :: conn_remove l to
  end.

Section passive.
Context {G : Type} `{!GSocket G, !GStreamSocket G, malloc : Malloc, stack : StackJunk}.

(** *** The sockets *)

Record TcpPassivePriv := {
  ps_fileno : G;
  ps_addr : NiceAddress;
  ps_connections : connections;
  ps_writable_cb : option NiceSocketWritableCb
}.
(** A connection that was accepted: its NiceSocket, and [passive_parent]. *)
Record TcpChild := { ch_addr : NiceAddress; ch_priv : TcpPriv G; ch_parent : option Z }.

(** [cb_calls] logs the calls of the callback of a listener, the newest first. *)
Record TcpWorld := {
  passives : gmap Z TcpPassivePriv;
  children : gmap Z TcpChild;
  cb_calls : list (Z * NiceSocketWritableCb)
}.
Definition eta_TcpWorld (w : TcpWorld) : TcpWorld := Build_TcpWorld (passives w) (children w) (cb_calls w).
#[export] Instance set_passives : Setter passives := ltac:(derive_setter eta_TcpWorld passives).
#[export] Instance set_children : Setter children := ltac:(derive_setter eta_TcpWorld children).
#[export] Instance set_cb_calls : Setter cb_calls := ltac:(derive_setter eta_TcpWorld cb_calls).

Abbreviation M := (st TcpWorld).

(** Through a pointer. *)
Definition passive_at (p : Z) : M TcpPassivePriv := λ w,
  match passives w !! p with Some r => Done (r, w) | None => Ub end.
Definition child_at (c : Z) : M TcpChild := λ w,
  match children w !! c with Some r => Done (r, w) | None => Ub end.
Definition put_passive (p : Z) (r : TcpPassivePriv) : M unit := upd passives (insert p r).
Definition put_child (c : Z) (r : TcpChild) : M unit := upd children (insert c r).

(** A call of a connection. *)
Definition on_child {A} (c : Z) (m : st (TcpPriv G) A) : M A :=
  r ← child_at c;
  '(a, priv) ← lift (m (ch_priv r));
  _ ← put_child c {| ch_addr := ch_addr r; ch_priv := priv; ch_parent := ch_parent r |};
  mret a.

(** *** Listening and accepting *)

Definition nice_tcp_passive_socket_new (addr : option NiceAddress) : M (option Z) :=
  let '(gsock, name) := socket_of_family g_stream_new (wanted_name addr) in
  match gsock, g_socket_address_new_from_native name with
  | Some gsock, Some gaddr =>
      '(gret, gsock) ← lift (g_stream_bind gaddr gsock);
      '(gret, gsock) ← (if gret : bool then lift (g_stream_listen gsock) else mret (false, gsock));
      if negb gret then mret None
      else
        match address_of (g_stream_get_local_address gsock) name address_zero with
        | None => mret None
        | Some a =>
            ps ← get passives;
            let p := fresh (dom ps) in
            _ ← put_passive p {| ps_fileno := gsock; ps_addr := a; ps_connections := []; ps_writable_cb := None |};
            mret (Some p)
        end
  | _, _ => mret None
  end.

(** Callbacks are numbers; 1 is [_child_writable_cb]. *)
Definition child_writable_cb : Z := 1.

Definition nice_tcp_passive_socket_accept (sock : Z) : M (option Z) :=
  r ← passive_at sock;
  '(gsock, fileno) ← lift (g_stream_accept (ps_fileno r));
  _ ← put_passive sock {| ps_fileno := fileno; ps_addr := ps_addr r; ps_connections := ps_connections r;
                          ps_writable_cb := ps_writable_cb r |};
  match gsock with
  | None => mret None
  | Some gsock =>
      match address_of (g_stream_get_remote_address gsock) stack_address stack_address with
      | None => mret None
      | Some remote_addr =>
          cs ← get children;
          let new_socket := fresh (dom cs) in
          let priv := nice_tcp_bsd_socket_new_from_gsock gsock remote_addr true in
          _ ← put_child new_socket {| ch_addr := ps_addr r; ch_priv := priv; ch_parent := Some sock |};
          _ ← on_child new_socket (tcp_socket_set_writable_callback (Some (child_writable_cb, sock)));
          r ← passive_at sock;
          _ ← hashed remote_addr (mret tt);
          _ ← put_passive sock {| ps_fileno := ps_fileno r; ps_addr := ps_addr r;
                                  ps_connections := conn_insert (ps_connections r) remote_addr new_socket;
                                  ps_writable_cb := ps_writable_cb r |};
          mret (Some new_socket)
      end
  end.

(** *** Closing *)

Definition nice_tcp_passive_socket_remove_connection (sock : Z) (to : NiceAddress) : M unit :=
  r ← passive_at sock;
  hashed to
    (put_passive sock {| ps_fileno := ps_fileno r; ps_addr := ps_addr r;
                         ps_connections := conn_remove (ps_connections r) to; ps_writable_cb := ps_writable_cb r |}).

Definition passive_close (sock : Z) : M unit :=
  _ ← passive_at sock; upd passives (delete sock).

(** [socket_close] of a connection. *)
Definition child_close (c : Z) : M unit :=
  r ← child_at c;
  _ ← match ch_parent r with
      | Some p => nice_tcp_passive_socket_remove_connection p (remote_addr (ch_priv r))
      | None => mret tt
      end;
  upd children (delete c).

(** *** Sending *)

Definition passive_lookup (sock : Z) (to : option NiceAddress) : M (option Z) :=
  r ← passive_at sock;
  match to with
  | Some to => hashed to (mret (conn_lookup (ps_connections r) to))
  | None => mret None
  end.

Definition passive_send_messages (sock : Z) (to : option NiceAddress) (messages : list NiceOutputMessage) : M Z :=
  peer_socket ← passive_lookup sock to;
  match peer_socket with
  | Some c => on_child c (tcp_socket_send_messages to messages)
  | None => mret (-1)
  end.
Definition passive_send_messages_reliable (sock : Z) (to : option NiceAddress) (messages : list NiceOutputMessage)
  : M Z :=
  peer_socket ← passive_lookup sock to;
  match peer_socket with
  | Some c => on_child c (tcp_socket_send_messages_reliable to messages)
  | None => mret (-1)
  end.
Definition passive_can_send (sock : Z) (addr : option NiceAddress) : M bool :=
  peer_socket ← passive_lookup sock addr;
  match peer_socket with
  | Some c => r ← child_at c; lift (tcp_socket_can_send addr (ch_priv r))
  | None => mret false
  end.

(** [_child_writable_cb]. *)
Definition call_child_writable_cb (sock : Z) : M unit :=
  r ← passive_at sock;
  match ps_writable_cb r with Some cb => upd cb_calls (cons (sock, cb)) | None => mret tt end.
Definition passive_set_writable_callback (sock : Z) (cb : option NiceSocketWritableCb) : M unit :=
  r ← passive_at sock;
  put_passive sock {| ps_fileno := ps_fileno r; ps_addr := ps_addr r; ps_connections := ps_connections r;
                      ps_writable_cb := cb |}.

(** The source of a connection that was to be written to: [socket_send_more],
    and the callback it calls once it has finished. *)
Definition child_send_more (c : Z) (hup : bool) : M bool :=
  more ← on_child c (socket_send_more hup);
  if (more : bool) then mret true
  else
    r ← child_at c;
    _ ← match writable_cb (ch_priv r) with
        | Some (f, data) => when (f =? child_writable_cb) (call_child_writable_cb data)
        | None => mret tt
        end;
    mret false.
End passive.
Arguments TcpPassivePriv G : clear implicits.
Arguments TcpChild G : clear implicits.
Arguments TcpWorld G : clear implicits.

(** ** Facts *)

Section facts.
Context {G : Type} `{!GStreamSocket G, stack : StackJunk}.

(** A connection that an active socket makes to a valid address is one to that
    address, reliable, with nothing queued and no error, over a socket of the
    operating system that was asked to connect there. *)
Lemma active_connection (sock : TcpActivePriv) (addr local : NiceAddress) (p : TcpPriv G) :
  nice_address_is_valid addr = true →
  nice_tcp_active_socket_connect sock (Some addr) = Done (Some (local, p)) →
  remote_addr p = addr ∧ tcp_reliable p = true ∧ send_queue p = [] ∧ tcp_error p = false ∧
  ∃ gaddr g0 g1 b r, g_socket_address_new_from_native addr = Some gaddr ∧
    g_stream_bind (active_local_addr sock) g0 = Done (b, g1) ∧
    g_stream_connect gaddr g1 = Done (r, fileno p) ∧ r ≠ G_CONNECT_FAILED.
Proof.
  intros Hv H. unfold nice_tcp_active_socket_connect, socket_of_family in H.
  assert (Hn : g_socket_address_new_from_native (nice_address_copy_to_sockaddr addr stack_address)
    = g_socket_address_new_from_native addr ∧
    sa_family (nice_address_copy_to_sockaddr addr stack_address) = sa_family addr).
  { revert Hv. unfold nice_address_is_valid, nice_address_copy_to_sockaddr. rewrite orb_true_iff, !Z.eqb_eq.
    unfold g_socket_address_new_from_native, copy_in.
    intros [E | E]; rewrite E; cbn; by rewrite ?E. }
  destruct Hn as [Hn Hf]. set (name := nice_address_copy_to_sockaddr addr stack_address) in *.
  assert (Hsome : ∀ f nm, (if (sa_family name =? AF_UNSPEC) || (sa_family name =? AF_INET)
      then (g_stream_new AF_INET, name <| sa_family := AF_INET |>)
      else if sa_family name =? AF_INET6 then (g_stream_new AF_INET6, name) else (None, name)) = (Some f, nm) →
      g_socket_address_new_from_native nm = g_socket_address_new_from_native addr).
  { rewrite <- Hn, Hf. clearbody name. intros f nm. revert Hv. unfold nice_address_is_valid. rewrite orb_true_iff, !Z.eqb_eq.
    unfold g_socket_address_new_from_native.
    intros [E | E]; rewrite E; cbn; intros [= _ <-]; cbn; by rewrite ?Hf, ?E. }
  destruct (if _ || _ then _ else _) as [[g0 |] nm]; [| done]. rewrite (Hsome g0 nm eq_refl) in H.
  destruct (g_socket_address_new_from_native addr) as [gaddr |]; [| done].
  apply bind_inv in H as (gs & E & H). unfold stream_connect in E.
  apply bind_inv in E as (g1 & E1 & E). apply bind_inv in E1 as ([b g1'] & E1 & [= <-]).
  apply bind_inv in E as ([r g2] & E2 & E). destruct gs as [gs |]; [| done].
  destruct (address_of _ _ _); [| done]. injection H as <- <-. split_and!; try done.
  exists gaddr, g0, g1', b, r. destruct r; [by injection E as <- | by injection E as <- | done].
Qed.

(** Without an address to bind to there is no active socket: the address of no
    family has no socket address. *)
Lemma active_without_address : nice_tcp_active_socket_new None = None.
Proof. done. Qed.
End facts.
