(* ===== verification/TcpPassiveFacts.v ===== *)
(** * What passive TCP sockets guarantee

    The table of a listener and the connections it accepted agree in every
    history in which no two live connections of a listener have the same peer
    and a listener is closed after its connections: a message goes to the
    connection of its peer, and nothing that was closed is touched.  Without
    either, closing a connection goes wrong. *)

From stdpp Require Import gmap.
From S2P Require Import Prelude Bytes StateMonad StunMessage NiceAddress NiceSocket TcpBsd UdpBsd TcpOpen.
#[global] Open Scope Z_scope.

(** ** Keys *)

(** What GLib gives back: a family, and no scope. *)
Definition plain_key (a : NiceAddress) : Prop :=
  nice_address_is_valid a = true ∧ (sa_family a = AF_INET ∨ sin6_scope_id a = 0).

Lemma key_of_address gaddr name old a : address_of gaddr name old = Some a → plain_key a.
Proof.
  unfold address_of. destruct gaddr as [g |]; [| done]. cbn. intros [= <-]. destruct g; (split; [done |]); [by left | by right].
Qed.

Lemma key_join a b to : plain_key a → plain_key b →
  nice_address_equal a to = true → nice_address_equal b to = true → nice_address_equal a b = true.
Proof.
  unfold plain_key. rewrite !nice_address_equal_spec. unfold scopes_match, AF_INET, AF_INET6.
  rewrite !orb_true_iff, !Z.eqb_eq. intros [_ Ha] [_ Hb]. intuition (try congruence; try lia).
Qed.

(** ** Tables *)

(** Every connection has one entry, and the keys differ. *)
Record table_ok (l : connections) : Prop := {
  table_values : NoDup l.*2;
  table_keys k c k' c' : (k, c) ∈ l → (k', c') ∈ l → nice_address_equal k k' = true → c = c';
  table_plain k c : (k, c) ∈ l → plain_key k
}.

Lemma table_tail x l : table_ok (x :: l) → table_ok l.
Proof.
  intros [H1 H2 H3]. rewrite fmap_cons, NoDup_cons in H1. split; [by destruct H1 | |].
  - intros k c k' c' Hk Hk'. apply H2; by apply elem_of_cons; right.
  - intros k c Hk. apply (H3 k c). by apply elem_of_cons; right.
Qed.

Lemma lookup_in l to c : conn_lookup l to = Some c → ∃ k, (k, c) ∈ l ∧ nice_address_equal k to = true.
Proof.
  induction l as [| [k c'] l IH]; cbn [conn_lookup]; [done |].
  destruct (nice_address_equal k to) eqn:E.
  - intros [= <-]. exists k. split; [apply elem_of_cons; by left | done].
  - intros (k1 & H1 & H2)%IH. exists k1. split; [apply elem_of_cons; by right | done].
Qed.
Lemma lookup_none l to : conn_lookup l to = None → ∀ k c, (k, c) ∈ l → nice_address_equal k to = false.
Proof.
  induction l as [| [k c'] l IH]; cbn [conn_lookup]; [by intros _ k c ?%not_elem_of_nil |].
  destruct (nice_address_equal k to) eqn:E; [done |].
  intros H k1 c1 [[= -> ->] | H1]%elem_of_cons; [done | by apply (IH H k1 c1)].
Qed.
Lemma lookup_iff l to c : table_ok l →
  conn_lookup l to = Some c ↔ ∃ k, (k, c) ∈ l ∧ nice_address_equal k to = true.
Proof.
  intros Hl. split; [apply lookup_in |]. intros (k & Hk & E).
  destruct (conn_lookup l to) as [c' |] eqn:Hc.
  - apply lookup_in in Hc as (k' & Hk' & E'). f_equal. eapply table_keys; [exact Hl | exact Hk' | exact Hk |].
    eapply key_join; [by eapply table_plain.. | |]; eassumption.
  - by rewrite (lookup_none l to Hc k c Hk) in E.
Qed.

Lemma insert_new l k c : (∀ k' c', (k', c') ∈ l → nice_address_equal k' k = false) →
  conn_insert l k c = l ++ [(k, c)].
Proof.
  induction l as [| [k' c'] l IH]; cbn [conn_insert]; [done |]. intros H.
  rewrite (H k' c') by (apply elem_of_cons; by left). cbn. f_equal. apply IH.
  intros k1 c1 H1. apply (H k1 c1). apply elem_of_cons. by right.
Qed.

Lemma remove_sub l to x : x ∈ (conn_remove l to).*2 → x ∈ l.*2.
Proof.
  induction l as [| [k c] l IH]; cbn [conn_remove]; [done |].
  destruct (nice_address_equal k to); cbn; rewrite ?elem_of_cons; tauto.
Qed.
Lemma remove_nodup l to : NoDup l.*2 → NoDup (conn_remove l to).*2.
Proof.
  induction l as [| [k c] l IH]; cbn [conn_remove]; [done |].
  destruct (nice_address_equal k to); cbn; rewrite !NoDup_cons; [by intros [] |].
  intros [Hc Hl]. split; [by intros ?%remove_sub | by apply IH].
Qed.
(** The entry of a connection is the one its peer's address removes. *)
Lemma remove_in l k c : table_ok l → (k, c) ∈ l →
  ∀ k' c', (k', c') ∈ conn_remove l k ↔ (k', c') ∈ l ∧ c' ≠ c.
Proof.
  intros Hl Hk k' c'. induction l as [| [k0 c0] l IH]; [by apply not_elem_of_nil in Hk |].
  assert (Hnd : c0 ∉ l.*2) by (pose proof (table_values _ Hl) as H; rewrite fmap_cons, NoDup_cons in H; by destruct H).
  assert (Hin : ∀ k1, (k1, c0) ∉ l) by (intros k1 H1; apply Hnd, list_elem_of_fmap; by exists (k1, c0)).
  cbn [conn_remove]. destruct (nice_address_equal k0 k) eqn:E.
  - assert (c0 = c) as -> by (eapply table_keys; [exact Hl | apply elem_of_cons; by left | exact Hk | exact E]).
    rewrite elem_of_cons. split; [| by intros [[[= -> ->] | H1] ?]].
    intros H1. split; [by right |]. intros ->. by eapply Hin.
  - apply elem_of_cons in Hk as [[= -> ->] | Hk].
    { rewrite nice_address_equal_refl in E; [done |]. eapply (table_plain _ Hl). apply elem_of_cons. by left. }
    rewrite !elem_of_cons, (IH (table_tail _ _ Hl) Hk). split; [| tauto].
    intros [[= -> ->] | [H1 H2]]; [| tauto]. split; [by left |]. intros ->. by eapply Hin.
Qed.

Section passive.
Context {G : Type} `{!GSocket G, !GStreamSocket G, malloc : Malloc, stack : StackJunk}.
Implicit Types (w : TcpWorld G) (r : TcpPassivePriv G) (ch : TcpChild G).

(** ** What a connection keeps *)

Definition same_connection (s s' : TcpPriv G) : Prop :=
  remote_addr s' = remote_addr s ∧ writable_cb s' = writable_cb s.
#[local] Instance same_connection_pre : PreOrder same_connection.
Proof. unfold same_connection. split; [done |]. intros ? ? ? (-> & ->) (-> & ->). done. Qed.

Ltac connection := repeat (keeps_step; try apply _).
Lemma connection_on {A} (m : st G A) : keeps same_connection (on fileno m).
Proof. intros s a s' H. unfold on in H. destruct (m (fileno s)) as [[x e] | |]; [| done..]. by injection H as _ <-. Qed.
Lemma connection_put_queue q : keeps same_connection (put send_queue q).
Proof. by intros s a s' [= _ <-]. Qed.
Lemma connection_put_source b : keeps same_connection (put io_source b).
Proof. by intros s a s' [= _ <-]. Qed.
Lemma connection_put_error b : keeps same_connection (put tcp_error b).
Proof. by intros s a s' [= _ <-]. Qed.
Lemma connection_put_calls l : keeps same_connection (put writable_calls l).
Proof. by intros s a s' [= _ <-]. Qed.
#[local] Hint Resolve connection_on connection_put_queue connection_put_source connection_put_error
  connection_put_calls : keeps.

Lemma connection_recv_loop i ms : keeps same_connection (recv_loop i ms).
Proof. revert i. induction ms as [| m ms IH]; intros i; cbn [recv_loop]; connection; auto with keeps. Qed.
Lemma connection_queue m off len head : keeps same_connection (tcp_queue m off len head).
Proof. unfold tcp_queue. connection; auto with keeps. Qed.
#[local] Hint Resolve connection_recv_loop connection_queue : keeps.
Lemma connection_recv ms : keeps same_connection (tcp_socket_recv_messages ms).
Proof. unfold tcp_socket_recv_messages. connection; auto with keeps. Qed.
Lemma connection_send_message m rel : keeps same_connection (tcp_socket_send_message m rel).
Proof. unfold tcp_socket_send_message. connection; auto with keeps. Qed.
#[local] Hint Resolve connection_send_message : keeps.
Lemma connection_send to ms : keeps same_connection (tcp_socket_send_messages to ms).
Proof.
  unfold tcp_socket_send_messages. generalize 0. induction ms as [| m ms IH]; intros i; cbn [send_loop]; connection; auto with keeps.
Qed.
Lemma connection_send_reliable to ms : keeps same_connection (tcp_socket_send_messages_reliable to ms).
Proof.
  unfold tcp_socket_send_messages_reliable. generalize 0.
  induction ms as [| m ms IH]; intros i; cbn [send_reliable_loop]; connection; auto with keeps.
Qed.
Lemma connection_more hup : keeps same_connection (socket_send_more hup).
Proof. unfold socket_send_more. connection; auto with keeps. Qed.

(** ** Histories *)

(** No two live connections of a listener have the same peer. *)
Definition peers_differ w : Prop := ∀ c ch c' ch',
  children w !! c = Some ch → children w !! c' = Some ch' → ch_parent ch = ch_parent ch' →
  nice_address_equal (remote_addr (ch_priv ch)) (remote_addr (ch_priv ch')) = true → c = c'.

(** A listener is closed after the connections it accepted.  The callback of a
    connection may be replaced, but not by that of another listener. *)
Inductive passive_step w : TcpWorld G → Prop :=
| step_listen addr p w' : nice_tcp_passive_socket_new addr w = Done (p, w') → passive_step w w'
| step_accept p c w' : nice_tcp_passive_socket_accept p w = Done (c, w') → peers_differ w' → passive_step w w'
| step_recv c ms x w' : on_child c (tcp_socket_recv_messages ms) w = Done (x, w') → passive_step w w'
| step_child_send c to ms x w' : on_child c (tcp_socket_send_messages to ms) w = Done (x, w') → passive_step w w'
| step_child_send_reliable c to ms x w' :
    on_child c (tcp_socket_send_messages_reliable to ms) w = Done (x, w') → passive_step w w'
| step_child_callback c cb x w' : fst <$> cb ≠ Some child_writable_cb →
    on_child c (tcp_socket_set_writable_callback cb) w = Done (x, w') → passive_step w w'
| step_more c hup x w' : child_send_more c hup w = Done (x, w') → passive_step w w'
| step_send p to ms x w' : passive_send_messages p to ms w = Done (x, w') → passive_step w w'
| step_send_reliable p to ms x w' : passive_send_messages_reliable p to ms w = Done (x, w') → passive_step w w'
| step_callback p cb x w' : passive_set_writable_callback p cb w = Done (x, w') → passive_step w w'
| step_close_child c x w' : child_close c w = Done (x, w') → passive_step w w'
| step_close_passive p x w' : (∀ c ch, children w !! c = Some ch → ch_parent ch ≠ Some p) →
    passive_close p w = Done (x, w') → passive_step w w'.

Definition empty_world : TcpWorld G := Build_TcpWorld ∅ ∅ [].
Inductive passive_reachable : TcpWorld G → Prop :=
| passive_reach_empty : passive_reachable empty_world
| passive_reach_step w w' : passive_reachable w → passive_step w w' → passive_reachable w'.

(** ** The invariant *)

Definition connection_of w p k c : Prop :=
  ∃ ch, children w !! c = Some ch ∧ ch_parent ch = Some p ∧ remote_addr (ch_priv ch) = k.

Record world_ok w : Prop := {
  ok_nodup p r : passives w !! p = Some r → NoDup (ps_connections r).*2;
  ok_entries p r k c : passives w !! p = Some r → (k, c) ∈ ps_connections r ↔ connection_of w p k c;
  ok_child c ch : children w !! c = Some ch →
    plain_key (remote_addr (ch_priv ch)) ∧ (∃ p, ch_parent ch = Some p ∧ is_Some (passives w !! p)) ∧
    (∀ d, writable_cb (ch_priv ch) = Some (child_writable_cb, d) → ch_parent ch = Some d);
  ok_peers : peers_differ w
}.

Lemma ok_table w p r : world_ok w → passives w !! p = Some r → table_ok (ps_connections r).
Proof.
  intros Hw Hp. split; [by eapply ok_nodup | |].
  - intros k c k' c' (ch & H1 & H2 & <-)%(ok_entries _ Hw _ _ _ _ Hp) (ch' & H1' & H2' & <-)%(ok_entries _ Hw _ _ _ _ Hp).
    apply (ok_peers _ Hw _ _ _ _ H1 H1'). congruence.
  - intros k c (ch & H1 & H2 & <-)%(ok_entries _ Hw _ _ _ _ Hp). by apply (ok_child _ Hw c ch).
Qed.

(** A listener that keeps its table. *)
Lemma ok_put_passive w p r r' : passives w !! p = Some r → ps_connections r' = ps_connections r →
  world_ok w → world_ok (w <| passives := <[p := r']> (passives w) |>).
Proof.
  intros Hp Hr [H1 H2 H3 H4]. split; cbn; [| | | exact H4].
  - intros q s. rewrite lookup_insert_Some. intros [[<- <-] | [_ Hq]]; [rewrite Hr |]; by eapply H1.
  - intros q s k c. rewrite lookup_insert_Some. intros [[<- <-] | [_ Hq]]; [rewrite Hr |]; by eapply H2.
  - intros c ch Hc. destruct (H3 c ch Hc) as (Hk & (q & Hq & Hl) & Hd). split_and!; [done | | done].
    exists q. split; [done |]. rewrite lookup_insert_is_Some'. by right.
Qed.

(** A connection that keeps its peer. *)
Lemma ok_put_child w c ch priv : children w !! c = Some ch → remote_addr priv = remote_addr (ch_priv ch) →
  (∀ d, writable_cb priv = Some (child_writable_cb, d) → ch_parent ch = Some d) →
  world_ok w →
  world_ok (w <| children := <[c := {| ch_addr := ch_addr ch; ch_priv := priv; ch_parent := ch_parent ch |}]> (children w) |>).
Proof.
  intros Hc Hr Hd [H1 H2 H3 H4].
  set (new := {| ch_addr := ch_addr ch; ch_priv := priv; ch_parent := ch_parent ch |}).
  assert (Hold : ∀ c1 ch1, <[c := new]> (children w) !! c1 = Some ch1 → ∃ ch0, children w !! c1 = Some ch0 ∧
    ch_parent ch1 = ch_parent ch0 ∧ remote_addr (ch_priv ch1) = remote_addr (ch_priv ch0)).
  { intros c1 ch1. rewrite lookup_insert_Some. intros [[<- <-] | [_ H]]; [by exists ch | by exists ch1]. }
  split; cbn; [exact H1 | | |].
  - intros p r k c1 Hp. rewrite (H2 p r k c1 Hp). unfold connection_of. cbn. split.
    + intros (ch1 & Hc1 & Hp1 & Hk1). destruct (decide (c1 = c)) as [-> |].
      * exists new. rewrite lookup_insert_eq. simplify_eq. by split_and!.
      * exists ch1. by rewrite lookup_insert_ne.
    + intros (ch1 & (ch0 & ? & ? & ?)%Hold & ? & ?). exists ch0. split_and!; congruence.
  - intros c1 ch1. rewrite lookup_insert_Some. intros [[<- <-] | [_ H]]; [| by apply (H3 c1)].
    destruct (H3 c ch Hc) as (Hk & Hp & _). cbn. rewrite Hr. by split_and!.
  - intros c1 ch1 c2 ch2 (o1 & E1 & Hp1 & Hr1)%Hold (o2 & E2 & Hp2 & Hr2)%Hold. rewrite Hp1, Hp2, Hr1, Hr2. by apply H4.
Qed.

Lemma passive_at_inv p w r w' : passive_at p w = Done (r, w') → passives w !! p = Some r ∧ w' = w.
Proof. unfold passive_at. destruct (passives w !! p); [by intros [= <- <-] | done]. Qed.
Lemma child_at_inv c w ch w' : child_at c w = Done (ch, w') → children w !! c = Some ch ∧ w' = w.
Proof. unfold child_at. destruct (children w !! c); [by intros [= <- <-] | done]. Qed.
Lemma hashed_inv a {S A} (m : st S A) s x : hashed a m s = Done x → nice_address_is_valid a = true ∧ m s = Done x.
Proof. unfold hashed. by destruct (nice_address_is_valid a). Qed.

Lemma on_child_inv {A} c (m : st (TcpPriv G) A) w x w' : on_child c m w = Done (x, w') →
  ∃ ch priv, children w !! c = Some ch ∧ m (ch_priv ch) = Done (x, priv) ∧
    w' = w <| children := <[c := {| ch_addr := ch_addr ch; ch_priv := priv; ch_parent := ch_parent ch |}]> (children w) |>.
Proof.
  intros (ch & w1 & [Hc ->]%child_at_inv & H)%st_bind_inv. apply st_bind_inv in H as ([a priv] & w2 & [Hm ->]%st_lift_inv & H).
  apply st_bind_inv in H as ([] & w3 & Hp & [-> ->]%st_ret_inv). unfold put_child in Hp. apply st_upd_inv in Hp as [_ ->].
  by exists ch, priv.
Qed.
Lemma ok_on_child {A} c (m : st (TcpPriv G) A) w x w' : keeps same_connection m →
  on_child c m w = Done (x, w') → world_ok w → world_ok w'.
Proof.
  intros Hk (ch & priv & Hc & Hm & ->)%on_child_inv Hw. destruct (Hk _ _ _ Hm) as [Hr Hcb].
  apply ok_put_child; try done. rewrite Hcb. by apply (ok_child _ Hw c ch).
Qed.

(** ** Every step *)

Lemma fresh_none {V} (m : gmap Z V) : m !! fresh (dom m) = None.
Proof. apply not_elem_of_dom, is_fresh. Qed.

Lemma ok_listen addr w p w' : nice_tcp_passive_socket_new addr w = Done (p, w') → world_ok w → world_ok w'.
Proof.
  unfold nice_tcp_passive_socket_new. intros H [H1 H2 H3 H4]. destruct (socket_of_family _ _) as [[gsock |] name];
    [| apply st_ret_inv in H as [_ ->]; by split].
  destruct (g_socket_address_new_from_native name); [| apply st_ret_inv in H as [_ ->]; by split].
  apply st_bind_inv in H as ([b g1] & w1 & [_ ->]%st_lift_inv & H).
  apply st_bind_inv in H as ([b' g2] & w2 & E & H).
  assert (w2 = w) as -> by (destruct b; [by apply st_lift_inv in E as [_ ->] | by apply st_ret_inv in E as [_ ->]]).
  destruct (negb b'); [apply st_ret_inv in H as [_ ->]; by split |].
  destruct (address_of _ _ _) as [a |]; [| apply st_ret_inv in H as [_ ->]; by split].
  rewrite bind_get in H. unfold put_passive in H. rewrite bind_upd in H. apply st_ret_inv in H as [_ ->].
  pose proof (fresh_none (passives w)) as Hf. set (q := fresh (dom (passives w))) in *.
  assert (Hnone : ∀ c ch, children w !! c = Some ch → ch_parent ch ≠ Some q).
  { intros c ch Hc Hp. destruct (H3 c ch Hc) as (_ & (p' & Hp' & [r Hr]) & _). congruence. }
  split; cbn; [| | | exact H4].
  - intros p' r. rewrite lookup_insert_Some. intros [[<- <-] | [_ Hr]]; [constructor | by eapply H1].
  - intros p' r k c. rewrite lookup_insert_Some. intros [[<- <-] | [_ Hr]]; [| by apply H2]. cbn. split.
    + by intros ?%not_elem_of_nil.
    + intros (ch & Hc & Hp & _). by destruct (Hnone c ch Hc).
  - intros c ch Hc. destruct (H3 c ch Hc) as (Hk & (p' & Hp' & Hl) & Hd). split_and!; [done | | done].
    exists p'. split; [done |]. rewrite lookup_insert_is_Some'. by right.
Qed.

(** A connection that was accepted: what the listener's table and the store of
    connections become. *)
Lemma accept_inv p w c w' : nice_tcp_passive_socket_accept p w = Done (c, w') →
  ∃ r (fileno' : G), passives w !! p = Some r ∧
  let r' : TcpPassivePriv G := {| ps_fileno := fileno'; ps_addr := ps_addr r; ps_connections := ps_connections r;
               ps_writable_cb := ps_writable_cb r |} in
  match c with
  | None => w' = w <| passives := <[p := r']> (passives w) |>
  | Some c => c = fresh (dom (children w)) ∧ ∃ (gsock : G) k, plain_key k ∧
      passives w' = <[p := {| ps_fileno := fileno'; ps_addr := ps_addr r;
                              ps_connections := conn_insert (ps_connections r) k c;
                              ps_writable_cb := ps_writable_cb r |}]> (passives w) ∧
      children w' = <[c := {| ch_addr := ps_addr r;
                              ch_priv := (nice_tcp_bsd_socket_new_from_gsock gsock k true : TcpPriv G)
                                           <| writable_cb := Some (child_writable_cb, p) |>;
                              ch_parent := Some p |}]> (children w)
  end.
Proof.
  intros (r & w1 & [Hr ->]%passive_at_inv & H)%st_bind_inv.
  apply st_bind_inv in H as ([gsock fileno'] & w2 & [_ ->]%st_lift_inv & H).
  unfold put_passive in H. rewrite bind_upd in H. exists r, fileno'. split; [done |].
  destruct gsock as [gsock |]; [| by apply st_ret_inv in H as [-> ->]].
  destruct (address_of _ _ _) as [k |] eqn:Hk; [| by apply st_ret_inv in H as [-> ->]].
  apply key_of_address in Hk. rewrite bind_get in H. unfold put_child in H. rewrite bind_upd in H.
  apply st_bind_inv in H as (x & w3 & (ch & priv & Hch & Hpriv & ->)%on_child_inv & H).
  cbn in Hch. rewrite lookup_insert_eq in Hch. injection Hch as <-. injection Hpriv as _ <-.
  apply st_bind_inv in H as (r1 & w4 & [Hr1 ->]%passive_at_inv & H). cbn in Hr1. rewrite lookup_insert_eq in Hr1.
  injection Hr1 as <-. apply st_bind_inv in H as (x' & w5 & [_ [_ ->]%st_ret_inv]%hashed_inv & H).
  rewrite bind_upd in H. apply st_ret_inv in H as [-> ->]. split; [done |].
  exists gsock, k. split; [done |]. cbn. by rewrite !insert_insert_eq.
Qed.

Lemma ok_accept p c w w' : nice_tcp_passive_socket_accept p w = Done (c, w') → peers_differ w' → world_ok w → world_ok w'.
Proof.
  intros (r & fileno' & Hr & H)%accept_inv Hd Hw. cbn zeta in H. destruct c as [c |]; [| rewrite H; by eapply ok_put_passive].
  destruct H as (-> & gsock & k & Hk & Hp & Hc). pose proof (fresh_none (children w)) as Hf.
  set (c := fresh (dom (children w))) in *. set (new := {| ch_addr := _; ch_priv := _; ch_parent := _ |}) in Hc.
  assert (Hne : ∀ c1 ch1, children w !! c1 = Some ch1 → c1 ≠ c) by (intros c1 ch1 H1 ->; congruence).
  assert (Hnew : ∀ k' c', (k', c') ∈ ps_connections r → nice_address_equal k' k = false).
  { intros k' c' (ch & H1 & H2 & <-)%(ok_entries _ Hw _ _ _ _ Hr). apply not_true_iff_false. intros E.
    apply (Hne _ _ H1), (Hd c' ch c new); rewrite ?Hc; [by rewrite lookup_insert_ne by (by eapply not_eq_sym, Hne) | apply lookup_insert_eq | by rewrite H2 | done]. }
  rewrite (insert_new _ _ _ Hnew) in Hp. split; [| | | exact Hd].
  - intros p1 r1. rewrite Hp, lookup_insert_Some. intros [[<- <-] | [_ Hr1]]; [| by apply (ok_nodup _ Hw p1)]. cbn.
    rewrite fmap_app. apply NoDup_app. split_and!; [by eapply ok_nodup | | apply NoDup_singleton].
    intros x ([k1 c1] & -> & (ch & H1 & _)%(ok_entries _ Hw _ _ _ _ Hr))%list_elem_of_fmap. cbn.
    intros ?%list_elem_of_singleton. by eapply Hne.
  - assert (Hcon : ∀ p1 k1 c1, connection_of w' p1 k1 c1 ↔ connection_of w p1 k1 c1 ∨ (p1, k1, c1) = (p, k, c)).
    { intros p1 k1 c1. unfold connection_of. rewrite Hc. split.
      - intros (ch & H1 & H2 & H3). apply lookup_insert_Some in H1 as [[<- <-] | [_ H1]]; [| left; by exists ch].
        right. cbn in H2, H3. congruence.
      - intros [(ch & H1 & H2) | [= -> -> ->]]; [exists ch | exists new; by rewrite lookup_insert_eq].
        rewrite lookup_insert_ne; [done |]. by eapply not_eq_sym, Hne. }
    intros p1 r1 k1 c1. rewrite Hp, lookup_insert_Some, Hcon. intros [[<- <-] | [Hpp Hr1]]; cbn.
    + rewrite elem_of_app, list_elem_of_singleton, (ok_entries _ Hw _ _ k1 c1 Hr). intuition congruence.
    + rewrite (ok_entries _ Hw _ _ k1 c1 Hr1). intuition congruence.
  - intros c1 ch1. rewrite Hc, Hp, lookup_insert_Some. intros [[<- <-] | [_ H1]].
    + split_and!; [done | exists p; by rewrite lookup_insert_eq | cbn; by intros d [= <-]].
    + destruct (ok_child _ Hw c1 ch1 H1) as (H2 & (p' & H3 & H4) & H5). split_and!; [done | | done].
      exists p'. split; [done |]. rewrite lookup_insert_is_Some'. by right.
Qed.

(** Closing a connection. *)
Lemma child_close_run w c ch p r : children w !! c = Some ch → ch_parent ch = Some p → passives w !! p = Some r →
  nice_address_is_valid (remote_addr (ch_priv ch)) = true →
  child_close c w = Done (tt, w <| passives := <[p := {| ps_fileno := ps_fileno r; ps_addr := ps_addr r;
      ps_connections := conn_remove (ps_connections r) (remote_addr (ch_priv ch));
      ps_writable_cb := ps_writable_cb r |}]> (passives w) |> <| children := delete c (children w) |>).
Proof.
  intros Hc Hp Hr Hv. unfold child_close, child_at. unfold mbind at 1, st_bind at 1. rewrite Hc, Hp.
  unfold nice_tcp_passive_socket_remove_connection, passive_at, hashed, put_passive.
  unfold mbind, st_bind. rewrite Hr, Hv. done.
Qed.

Lemma child_close_inv w c x w' : child_close c w = Done (x, w') → world_ok w → ∃ ch p r,
  children w !! c = Some ch ∧ ch_parent ch = Some p ∧ passives w !! p = Some r ∧
  nice_address_is_valid (remote_addr (ch_priv ch)) = true.
Proof.
  intros (ch & w1 & [Hc ->]%child_at_inv & _)%st_bind_inv Hw.
  destruct (ok_child _ Hw c ch Hc) as ((Hv & _) & (p & Hp & [r Hr]) & _). by exists ch, p, r.
Qed.

Lemma ok_close_child c x w w' : child_close c w = Done (x, w') → world_ok w → world_ok w'.
Proof.
  intros H Hw. destruct (child_close_inv _ _ _ _ H Hw) as (ch & p & r & Hc & Hp & Hr & Hv).
  rewrite (child_close_run w c ch p r Hc Hp Hr Hv) in H. injection H as _ <-.
  set (k := remote_addr (ch_priv ch)) in *.
  assert (Hk : (k, c) ∈ ps_connections r) by (apply (ok_entries _ Hw p r k c Hr); by exists ch).
  assert (Hcon : ∀ w1 p1 k1 c1, children w1 = delete c (children w) → connection_of w1 p1 k1 c1 ↔ connection_of w p1 k1 c1 ∧ c1 ≠ c).
  { intros w1 p1 k1 c1 E. unfold connection_of. rewrite E. setoid_rewrite lookup_delete_Some. split; [intros (? & [? ?] & ? & ?) | intros ((? & ? & ? & ?) & ?)]; eauto 6. }
  split; cbn.
  - intros p1 r1. rewrite lookup_insert_Some. intros [[<- <-] | [_ Hr1]]; [apply remove_nodup |]; by eapply ok_nodup.
  - intros p1 r1 k1 c1. rewrite lookup_insert_Some, Hcon by done. intros [[<- <-] | [Hpp Hr1]]; cbn.
    + rewrite (remove_in _ k c (ok_table _ _ _ Hw Hr) Hk). by rewrite (ok_entries _ Hw _ _ k1 c1 Hr).
    + rewrite (ok_entries _ Hw _ _ k1 c1 Hr1). split; [| tauto]. intros (ch1 & H1 & H2). split; [by exists ch1 |].
      intros ->. destruct H2. congruence.
  - intros c1 ch1 [_ H1]%lookup_delete_Some.
    destruct (ok_child _ Hw c1 ch1 H1) as (H2 & (p' & H3 & H4) & H5). split_and!; [done | | done].
    exists p'. split; [done |]. rewrite lookup_insert_is_Some'. by right.
  - intros c1 ch1 c2 ch2. cbn. intros [_ H1]%lookup_delete_Some [_ H2]%lookup_delete_Some. by apply (ok_peers _ Hw).
Qed.

Lemma ok_close_passive p x w w' : (∀ c ch, children w !! c = Some ch → ch_parent ch ≠ Some p) →
  passive_close p w = Done (x, w') → world_ok w → world_ok w'.
Proof.
  intros Hn (r & w1 & [Hr ->]%passive_at_inv & [_ ->]%st_upd_inv)%st_bind_inv [H1 H2 H3 H4]. split; cbn; [| | | exact H4].
  - intros p1 r1 [_ ?]%lookup_delete_Some. by eapply H1.
  - intros p1 r1 k c [_ ?]%lookup_delete_Some. by apply H2.
  - intros c ch Hc. destruct (H3 c ch Hc) as (Hk & (p' & Hp & Hl) & Hd). split_and!; [done | | done].
    exists p'. split; [done |]. rewrite lookup_delete_ne; [done |]. intros <-. by destruct (Hn c ch Hc).
Qed.

Lemma callback_inv p w x w' : call_child_writable_cb p w = Done (x, w') → passives w' = passives w ∧ children w' = children w.
Proof.
  intros (r & w1 & [_ ->]%passive_at_inv & H)%st_bind_inv.
  destruct (ps_writable_cb r); [apply st_upd_inv in H as [_ ->] | apply st_ret_inv in H as [_ ->]]; done.
Qed.
Lemma ok_same w w' : passives w' = passives w → children w' = children w → world_ok w → world_ok w'.
Proof.
  intros Hp Hc [H1 H2 H3 H4]. destruct w, w'; cbn in *; subst. split; assumption.
Qed.

Lemma passive_lookup_inv p to w c w' : passive_lookup p to w = Done (c, w') → w' = w.
Proof.
  intros (r & w1 & [_ ->]%passive_at_inv & H)%st_bind_inv.
  destruct to; [apply hashed_inv in H as [_ H] |]; by apply st_ret_inv in H as [_ ->].
Qed.
(** A call that goes through the table of a listener. *)
Lemma ok_routed {A} p to (m : st (TcpPriv G) A) (none : A) x w w' : keeps same_connection m →
  (peer ← passive_lookup p to; match peer with Some c => on_child c m | None => mret none end) w = Done (x, w') →
  world_ok w → world_ok w'.
Proof.
  intros Hk (peer & w1 & ->%passive_lookup_inv & H)%st_bind_inv.
  destruct peer as [c |]; [by eapply ok_on_child | by apply st_ret_inv in H as [_ ->]].
Qed.

Lemma ok_more c hup x w w' : child_send_more c hup w = Done (x, w') → world_ok w → world_ok w'.
Proof.
  intros (more & w1 & H1 & H)%st_bind_inv Hw. apply ok_on_child in H1; [| apply connection_more | exact Hw].
  destruct (more : bool); [by apply st_ret_inv in H as [_ ->] |].
  apply st_bind_inv in H as (ch & w2 & [_ ->]%child_at_inv & H). apply st_bind_inv in H as (y & w3 & H & [_ ->]%st_ret_inv).
  destruct (writable_cb (ch_priv ch)) as [[f d] |]; [| by apply st_ret_inv in H as [_ ->]].
  destruct (f =? child_writable_cb); [| by apply st_ret_inv in H as [_ ->]].
  apply callback_inv in H as [Hp Hc]. by eapply ok_same.
Qed.

Lemma step_ok w w' : passive_step w w' → world_ok w → world_ok w'.
Proof.
  intros H. destruct H as [addr p w' H | p c w' H Hd | c ms x w' H | c to ms x w' H | c to ms x w' H | c cb x w' Hcb H
    | c hup x w' H | p to ms x w' H | p to ms x w' H | p cb x w' H | c x w' H | p x w' Hn H].
  - by eapply ok_listen.
  - by eapply ok_accept.
  - eapply ok_on_child; [apply connection_recv | exact H].
  - eapply ok_on_child; [apply connection_send | exact H].
  - eapply ok_on_child; [apply connection_send_reliable | exact H].
  - apply on_child_inv in H as (ch & priv & Hc & [_ ->]%st_put_inv & ->). apply ok_put_child; [done | done |].
    cbn. intros d ->. by destruct Hcb.
  - by eapply ok_more.
  - eapply ok_routed, H. apply connection_send.
  - eapply ok_routed, H. apply connection_send_reliable.
  - apply st_bind_inv in H as (r & w1 & [Hr ->]%passive_at_inv & H). unfold put_passive in H.
    apply st_upd_inv in H as [_ ->]. by eapply ok_put_passive.
  - by eapply ok_close_child.
  - by eapply ok_close_passive.
Qed.

Lemma reachable_ok w : passive_reachable w → world_ok w.
Proof.
  induction 1 as [| w w' _ IH H]; [| by eapply step_ok].
  split; unfold peers_differ, empty_world; cbn.
  - intros p r. by rewrite lookup_empty.
  - intros p r k c. by rewrite lookup_empty.
  - intros c ch. by rewrite lookup_empty.
  - intros c ch c' ch'. by rewrite lookup_empty.
Qed.

(** ** What a listener does *)

(** The connection [c] of the listener [p] is one to the peer [to]. *)
Definition serves w (p : Z) (to : NiceAddress) (c : Z) : Prop := ∃ ch,
  children w !! c = Some ch ∧ ch_parent ch = Some p ∧ nice_address_equal (remote_addr (ch_priv ch)) to = true.

Lemma lookup_serves w p to : world_ok w → is_Some (passives w !! p) → nice_address_is_valid to = true →
  ∃ peer, (∀ c, serves w p to c ↔ peer = Some c) ∧ passive_lookup p (Some to) w = Done (peer, w).
Proof.
  intros Hw [r Hr] Hv. exists (conn_lookup (ps_connections r) to). split.
  - intros c. rewrite (lookup_iff _ to c (ok_table _ _ _ Hw Hr)). unfold serves. split.
    + intros (ch & Hc & Hp & E). exists (remote_addr (ch_priv ch)). split; [| done].
      apply (ok_entries _ Hw p r); [done | by exists ch].
    + intros (k & (ch & Hc & Hp & <-)%(ok_entries _ Hw p r) & E); [by exists ch | done].
  - unfold passive_lookup, passive_at, hashed, mbind, st_bind. by rewrite Hr, Hv.
Qed.

Lemma more_runs w c hup y w1 : world_ok w → on_child c (socket_send_more hup) w = Done (y, w1) →
  ∃ x w', child_send_more c hup w = Done (x, w').
Proof.
  intros Hw H. unfold child_send_more. rewrite (bind_run _ _ _ _ _ H). destruct y; [by eexists _, _ |].
  pose proof (ok_on_child _ _ _ _ _ (connection_more hup) H Hw) as Hw1.
  apply on_child_inv in H as (ch & priv & _ & _ & ->).
  set (w1 := w <| children := _ |>) in *. set (ch1 := {| ch_addr := _; ch_priv := priv; ch_parent := _ |}) in *.
  assert (Hc1 : children w1 !! c = Some ch1) by apply lookup_insert_eq.
  destruct (ok_child _ Hw1 c ch1 Hc1) as (_ & (p & Hp & [r Hr]) & Hd).
  unfold child_at. unfold mbind at 1, st_bind at 1. rewrite Hc1.
  destruct (writable_cb (ch_priv ch1)) as [[f d] |]; [| by eexists _, _].
  destruct (f =? child_writable_cb) eqn:E; [| by eexists _, _]. apply Z.eqb_eq in E as ->.
  specialize (Hd d eq_refl). rewrite Hp in Hd. injection Hd as <-. cbn [when].
  unfold call_child_writable_cb, passive_at, mbind, st_bind. rewrite Hr. destruct (ps_writable_cb r); by eexists _, _.
Qed.

(** C18: a listener and the connections it accepted stay consistent.  In every
    history in which no two live connections of a listener have the same peer
    and listeners are closed after their connections, a message to a valid
    address goes to the one live connection with that peer and to nothing else,
    and fails when there is none; the question whether one can send is answered
    by that connection; and closing a connection, and the callback of one that
    was flushed, touch nothing that was closed before. *)
Theorem passive_routes w (Hw : passive_reachable w) :
  (∀ p to, is_Some (passives w !! p) → nice_address_is_valid to = true →
     ∃ peer, (∀ c, serves w p to c ↔ peer = Some c) ∧
       (∀ ms, passive_send_messages p (Some to) ms w =
          match peer with Some c => on_child c (tcp_socket_send_messages (Some to) ms) w | None => Done (-1, w) end) ∧
       (∀ ms, passive_send_messages_reliable p (Some to) ms w =
          match peer with
          | Some c => on_child c (tcp_socket_send_messages_reliable (Some to) ms) w
          | None => Done (-1, w)
          end) ∧
       passive_can_send p (Some to) w =
         Done (match peer ≫= λ c, children w !! c with
               | Some ch => bool_decide (send_queue (ch_priv ch) = [])
               | None => false
               end, w)) ∧
  (∀ c, is_Some (children w !! c) →
     (∃ w', child_close c w = Done (tt, w') ∧ children w' = delete c (children w) ∧ passive_reachable w') ∧
     (∀ hup y w1, on_child c (socket_send_more hup) w = Done (y, w1) → ∃ x w', child_send_more c hup w = Done (x, w'))).
Proof.
  pose proof (reachable_ok w Hw) as Hok. split.
  - intros p to Hp Hv. destruct (lookup_serves w p to Hok Hp Hv) as (peer & Hpeer & E). exists peer. split; [done |].
    unfold passive_send_messages, passive_send_messages_reliable, passive_can_send.
    split_and!; [intros ms.. |]; rewrite (bind_run _ _ _ _ _ E); (destruct peer as [c |]; [| done]); [done.. |].
    destruct (proj2 (Hpeer c) eq_refl) as (ch & Hc & _). unfold child_at, mbind, st_bind. cbn. by rewrite Hc.
  - intros c [ch Hc]. split; [| intros hup y w1; by apply more_runs].
    destruct (ok_child _ Hok c ch Hc) as ((Hv & _) & (p & Hp & [r Hr]) & _).
    pose proof (child_close_run w c ch p r Hc Hp Hr Hv) as E. eexists. split; [exact E |]. split; [done |].
    eapply passive_reach_step, step_close_child; [exact Hw | exact E].
Qed.
End passive.

(** ** A host to listen on *)

(** The ports of the peers that wait to be accepted; the port of the peer, and
    what was sent to it. *)
Record host := { h_waiting : list Z; h_peer : Z; h_out : list bytes }.
#[local] Instance host_socket : GSocket host := {|
  g_socket_receive_message vs := mret (G_ERROR G_IO_ERROR_WOULD_BLOCK, vs);
  g_socket_send_message bufs h :=
    Done (G_BYTES (zlen (concat bufs)),
          {| h_waiting := h_waiting h; h_peer := h_peer h; h_out := h_out h ++ [concat bufs] |})
|}.
#[local] Instance host_stream : GStreamSocket host := {|
  g_stream_new _ := Some {| h_waiting := [4001; 4002; 4001]; h_peer := 0; h_out := [] |};
  g_stream_bind _ := mret true;
  g_stream_listen := mret true;
  g_stream_connect _ := mret G_CONNECTED;
  g_stream_accept h :=
    match h_waiting h with
    | [] => Done (None, h)
    | p :: l => Done (Some {| h_waiting := []; h_peer := p; h_out := [] |},
                      {| h_waiting := l; h_peer := h_peer h; h_out := h_out h |})
    end;
  g_stream_get_local_address _ := Some (g_inet4 16777343 5000);
  g_stream_get_remote_address h := Some (g_inet4 16777343 (h_peer h))
|}.
#[local] Instance host_malloc : Malloc.
Proof. refine {| g_malloc n := repeat 0 (Z.to_nat n) |}. intros n Hn. unfold zlen. rewrite repeat_length. lia. Defined.
#[local] Instance host_stack : StackJunk := {| stack_address := address_zero |}.

Definition host_address (port : Z) : NiceAddress := Build_NiceAddress AF_INET (htons port) 16777343 (repeat 0 16) 0.

Definition after {A} (m : st (TcpWorld host) A) (w : TcpWorld host) : TcpWorld host :=
  match m w with Done (_, w) => w | _ => w end.
Definition host_listening : TcpWorld host := after (nice_tcp_passive_socket_new (Some (host_address 5000))) empty_world.
Definition host_p : Z := fresh (∅ : gset Z).
Definition host_one : TcpWorld host := after (nice_tcp_passive_socket_accept host_p) host_listening.
Definition host_two : TcpWorld host := after (nice_tcp_passive_socket_accept host_p) host_one.
Definition host_three : TcpWorld host := after (nice_tcp_passive_socket_accept host_p) host_two.

(** [peers_differ], decided. *)
Definition peers_differ_b (w : TcpWorld host) : bool :=
  let cs := map_to_list (children w) in
  forallb (λ x, forallb (λ y,
    negb (bool_decide (ch_parent x.2 = ch_parent y.2) &&
          nice_address_equal (remote_addr (ch_priv x.2)) (remote_addr (ch_priv y.2)))
    || (x.1 =? y.1)) cs) cs.
Lemma peers_differ_spec w : peers_differ_b w = true → peers_differ w.
Proof.
  unfold peers_differ_b. intros H c ch c' ch' Hc Hc' Hp E. rewrite forallb_forall in H.
  apply elem_of_map_to_list, list_elem_of_In in Hc, Hc'. specialize (H _ Hc). rewrite forallb_forall in H. specialize (H _ Hc').
  cbn in H. rewrite E, bool_decide_eq_true_2 in H by done. cbn in H. by apply Z.eqb_eq in H.
Qed.

Lemma host_two_reachable : passive_reachable host_two.
Proof.
  apply (passive_reach_step host_one).
  - apply (passive_reach_step host_listening).
    + apply (passive_reach_step empty_world); [constructor |]. by eapply (step_listen _ (Some (host_address 5000)) (Some 0)).
    + eapply (step_accept _ host_p (Some 0)); [vm_compute; reflexivity | by apply peers_differ_spec].
  - eapply (step_accept _ host_p (Some 1)); [vm_compute; reflexivity | by apply peers_differ_spec].
Qed.

Definition host_data (o : Z) : NiceOutputMessage := {| om_buffers := [[o]] |}.
Definition host_sent (w : TcpWorld host) : list (Z * list bytes) :=
  map (λ x, (h_peer (fileno (ch_priv x.2)), h_out (fileno (ch_priv x.2)))) (map_to_list (children w)).

(** Two connections; a message to the peer of the second. *)
Lemma passive_routes_witness :
  ∃ w', passive_send_messages host_p (Some (host_address 4002)) [host_data 7] host_two = Done (1, w') ∧
    host_sent w' = [(4002, [[7]]); (4001, [])].
Proof.
  destruct (passive_routes host_two host_two_reachable) as [H _].
  destruct (H host_p (host_address 4002)) as (peer & Hpeer & Hs & _); [by vm_compute; eauto | done |].
  assert (peer = Some 1) as ->.
  { apply Hpeer. eexists. split; [vm_compute; reflexivity |]. by split. }
  rewrite Hs. eexists. split; [vm_compute; reflexivity |]. vm_compute. reflexivity.
Defined.

(** ** Histories on which the code falls short *)

(** A connection that is closed after its listener takes itself out of a table
    that was freed, and one that was flushed calls back into it. *)
Example closed_listener_dangles :
  let w := after (passive_close host_p) host_one in
  child_close 0 w = Ub ∧ child_send_more 0 true w = Ub.
Proof. by split; vm_compute. Qed.

Definition sent_to (port : Z) (w : TcpWorld host) : option Z :=
  match passive_send_messages host_p (Some (host_address port)) [host_data 7] w with
  | Done (n, _) => Some n
  | _ => None
  end.
(** A peer that connects again before its old connection was closed takes over
    the entry; when the old connection is closed, the entry goes with it. *)
Example replaced_entry_lost :
  let w := after (child_close 0) host_three in
  sent_to 4001 host_three = Some 1 ∧
  host_sent w = [(4001, []); (4002, [])] ∧
  sent_to 4001 w = Some (-1).
Proof. cbv zeta. split_and!; vm_compute; reflexivity. Qed.
