(* ===== verification/TurnRefresh.v ===== *)
(** * Refreshing and releasing TURN allocations (agent/discovery.c, conncheck.c)

    Every relayed candidate has a CandidateRefresh, which sends refresh requests
    over its life and, when it is pruned, one that releases the allocation.  A
    prune waits for all its refreshes to be gone, and then has its callback
    called from the main loop.  Refreshes, the data shared by the refreshes of
    one prune, and the sources of the main context live in stores; an id of a
    source is not used again.  Candidates outlive their refreshes here: a refresh
    keeps the TURN server of its candidate. *)

From stdpp Require Import gmap.
From S2P Require Import Prelude Bytes StateMonad StunMessage StunHmac StunAgent StunTimer StunTurn NiceAddress NiceCandidate IceAgent CheckList.
#[global] Open Scope Z_scope.

(** Addresses of refreshes and of the data of a prune. *)
Abbreviation rptr := positive (only parsing).
Abbreviation dptr := positive (only parsing).

Definition agent_to_turn_compatibility (c : NiceCompatibility) : StunUsageTurnCompatibility :=
  match c with
  | NICE_COMPATIBILITY_GOOGLE => STUN_USAGE_TURN_COMPATIBILITY_GOOGLE
  | NICE_COMPATIBILITY_MSN | NICE_COMPATIBILITY_WLM2009 => STUN_USAGE_TURN_COMPATIBILITY_MSN
  | NICE_COMPATIBILITY_OC2007 | NICE_COMPATIBILITY_OC2007R2 => STUN_USAGE_TURN_COMPATIBILITY_OC2007
  | NICE_COMPATIBILITY_RFC5245 => STUN_USAGE_TURN_COMPATIBILITY_RFC5766
  end.

(** [r_stun_message] is [None] until the first request; its buffer is
    [stun_buffer].  [destroy_cb] is [on_refresh_removed], with its data. *)
Record CandidateRefresh := {
  r_nicesock : Z;
  r_server : NiceAddress;
  r_candidate : cptr;
  r_turn : TurnServer;
  r_stream_id : Z;
  r_component_id : Z;
  r_stun_agent : StunAgent;
  timer_source : option Z;
  tick_source : option Z;
  r_timer : option StunTimer;
  r_stun_message : option StunMessage;
  r_stun_resp_msg : option StunMessage;
  disposing : bool;
  destroy_cb : option dptr
}.
Definition eta_CandidateRefresh (r : CandidateRefresh) : CandidateRefresh :=
  Build_CandidateRefresh (r_nicesock r) (r_server r) (r_candidate r) (r_turn r) (r_stream_id r) (r_component_id r)
    (r_stun_agent r) (timer_source r) (tick_source r) (r_timer r) (r_stun_message r) (r_stun_resp_msg r)
    (disposing r) (destroy_cb r).
#[export] Instance set_r_stun_agent : Setter r_stun_agent := ltac:(derive_setter eta_CandidateRefresh r_stun_agent).
#[export] Instance set_timer_source : Setter timer_source := ltac:(derive_setter eta_CandidateRefresh timer_source).
#[export] Instance set_tick_source : Setter tick_source := ltac:(derive_setter eta_CandidateRefresh tick_source).
#[export] Instance set_r_timer : Setter r_timer := ltac:(derive_setter eta_CandidateRefresh r_timer).
#[export] Instance set_r_stun_message : Setter r_stun_message := ltac:(derive_setter eta_CandidateRefresh r_stun_message).
#[export] Instance set_r_stun_resp_msg : Setter r_stun_resp_msg := ltac:(derive_setter eta_CandidateRefresh r_stun_resp_msg).
#[export] Instance set_disposing : Setter disposing := ltac:(derive_setter eta_CandidateRefresh disposing).
#[export] Instance set_destroy_cb : Setter destroy_cb := ltac:(derive_setter eta_CandidateRefresh destroy_cb).

(** The function of a prune and its user data are a number. *)
Record RefreshPruneAsyncData := { items_to_free : Z; prune_cb : Z }.

(** The callbacks of sources. *)
Inductive refresh_source :=
| Refresh_tick (cand : rptr)
| Retransmission_tick (cand : rptr)
| Remove_timeout (cand : rptr)
| Async_refresh_prune (cb : Z).
#[export] Instance refresh_source_eq_dec : EqDecision refresh_source.
Proof. solve_decision. Defined.

(** [timeouts] are the sources of the main context, with their intervals;
    [sent] and [pruned] log packets and calls of callbacks, the newest first. *)
Record RefreshWorld := {
  rw_compat : NiceCompatibility;
  stun_initial_timeout : Z;
  rw_max_retransmissions : Z;
  refresh_list : list rptr;
  refreshes : gmap rptr CandidateRefresh;
  prune_data : gmap dptr RefreshPruneAsyncData;
  timeouts : gmap Z (refresh_source * Z);
  next_timeout : Z;
  rw_clock : timeval;
  rw_transids : Z;
  sent : list (Z * NiceAddress * bytes);
  pruned : list Z
}.
Definition eta_RefreshWorld (w : RefreshWorld) : RefreshWorld :=
  Build_RefreshWorld (rw_compat w) (stun_initial_timeout w) (rw_max_retransmissions w) (refresh_list w) (refreshes w)
    (prune_data w) (timeouts w) (next_timeout w) (rw_clock w) (rw_transids w) (sent w) (pruned w).
#[export] Instance set_refresh_list : Setter refresh_list := ltac:(derive_setter eta_RefreshWorld refresh_list).
#[export] Instance set_refreshes : Setter refreshes := ltac:(derive_setter eta_RefreshWorld refreshes).
#[export] Instance set_prune_data : Setter prune_data := ltac:(derive_setter eta_RefreshWorld prune_data).
#[export] Instance set_timeouts : Setter timeouts := ltac:(derive_setter eta_RefreshWorld timeouts).
#[export] Instance set_next_timeout : Setter next_timeout := ltac:(derive_setter eta_RefreshWorld next_timeout).
#[export] Instance set_rw_clock : Setter rw_clock := ltac:(derive_setter eta_RefreshWorld rw_clock).
#[export] Instance set_rw_transids : Setter rw_transids := ltac:(derive_setter eta_RefreshWorld rw_transids).
#[export] Instance set_sent : Setter sent := ltac:(derive_setter eta_RefreshWorld sent).
#[export] Instance set_pruned : Setter pruned := ltac:(derive_setter eta_RefreshWorld pruned).

Section refresh.
Context {env : AgentEnv}.
Abbreviation M := (st RefreshWorld).

Definition refresh_at (p : rptr) : M CandidateRefresh := λ w,
  match refreshes w !! p with Some r => Done (r, w) | None => Ub end.
Definition upd_refresh (p : rptr) (f : CandidateRefresh → CandidateRefresh) : M unit :=
  r ← refresh_at p; upd refreshes (insert p (f r)).

(** ** Sources *)

(** [g_source_destroy], where there is a source. *)
Definition destroy_source (id : option Z) : M unit :=
  match id with Some id => upd timeouts (delete id) | None => mret tt end.

(** [out] is what the caller keeps the source in; returns the new one. *)
Definition agent_timeout_add_with_context (out : option Z) (interval : Z) (cb : refresh_source) : M Z :=
  _ ← destroy_source out;
  id ← get next_timeout;
  _ ← put next_timeout (id + 1);
  _ ← upd timeouts (insert id (cb, interval));
  mret id.
Definition add_tick_source (p : rptr) (interval : Z) (cb : refresh_source) : M unit :=
  r ← refresh_at p;
  id ← agent_timeout_add_with_context (tick_source r) interval cb;
  upd_refresh p (λ r, r <| tick_source := Some id |>).

Definition destroy_tick_source (p : rptr) : M unit :=
  r ← refresh_at p;
  _ ← destroy_source (tick_source r);
  upd_refresh p (λ r, r <| tick_source := None |>).
Definition destroy_timer_source (p : rptr) : M unit :=
  r ← refresh_at p;
  _ ← destroy_source (timer_source r);
  upd_refresh p (λ r, r <| timer_source := None |>).

(** ** Freeing *)

Definition on_refresh_removed (data : dptr) : M unit :=
  ds ← get prune_data;
  match ds !! data with
  | None => ub
  | Some d =>
      let n := if items_to_free d =? 0 then 0 else items_to_free d - 1 in
      if n =? 0 then
        _ ← agent_timeout_add_with_context None 0 (Async_refresh_prune (prune_cb d));
        upd prune_data (delete data)
      else upd prune_data (insert data {| items_to_free := n; prune_cb := prune_cb d |})
  end.

(** [g_slist_remove]: the first element that is [x]. *)
Fixpoint list_remove_first (x : rptr) (l : list rptr) : list rptr :=
  match l with [] => [] | y :: l => if bool_decide (x = y) then l else y :: list_remove_first x l end.

Definition refresh_free (cand : rptr) : M unit :=
  _ ← upd refresh_list (list_remove_first cand);
  _ ← destroy_timer_source cand;
  _ ← destroy_tick_source cand;
  r ← refresh_at cand;
  _ ← match destroy_cb r with Some data => on_refresh_removed data | None => mret tt end;
  upd refreshes (delete cand).

(** ** Requests *)

Definition STUN_MAX_MESSAGE_SIZE_IPV6 : nat := 1280.
Definition refresh_buffer (r : CandidateRefresh) : bytes :=
  match r_stun_message r with Some m => msg_buffer m | None => repeat 0 STUN_MAX_MESSAGE_SIZE_IPV6 end.
Definition refresh_message (r : CandidateRefresh) : StunMessage :=
  match r_stun_message r with
  | Some m => m
  | None => {| msg_agent := None; msg_buffer := []; msg_key := None; msg_long_term_key := repeat 0 16;
               msg_long_term_valid := false |}
  end.

(** The username and the password, decoded where the server expects that. *)
Definition turn_credentials (c : StunUsageTurnCompatibility) (turn : TurnServer) : bytes * bytes :=
  match c with
  | STUN_USAGE_TURN_COMPATIBILITY_MSN | STUN_USAGE_TURN_COMPATIBILITY_OC2007 =>
      (g_base64_decode (turn_username turn), g_base64_decode (turn_password turn))
  | _ => (turn_username turn, turn_password turn)
  end.

(** Build the request of a refresh: the length, 0 when it was not built. *)
Definition create_refresh (p : rptr) (lifetime : Z) : M Z :=
  r ← refresh_at p;
  c ← get rw_compat;
  n ← get rw_transids;
  _ ← put rw_transids (n + 1);
  let c := agent_to_turn_compatibility c in
  let '(username, password) := turn_credentials c (r_turn r) in
  '(len, agent, msg) ← lift (stun_usage_turn_create_refresh PACKAGE_STRING (r_stun_agent r) (refresh_message r)
    (refresh_buffer r) (transid n) (r_stun_resp_msg r) lifetime (Some username) (Some password) c);
  _ ← upd_refresh p (λ r, r <| r_stun_agent := agent |> <| r_stun_message := Some msg |>);
  mret len.

(** [agent_socket_send] to the server; what it returns is not looked at. *)
Definition refresh_send (p : rptr) (len : Z) : M unit :=
  r ← refresh_at p;
  d ← lift (slice (refresh_buffer r) 0 len);
  upd sent (cons (r_nicesock r, r_server r, d)).

Definition start_refresh_timer (p : rptr) : M unit :=
  now ← get rw_clock;
  i ← get stun_initial_timeout;
  m ← get rw_max_retransmissions;
  t ← lift (stun_timer_start now i m);
  upd_refresh p (λ r, r <| r_timer := Some t |>).
Definition refresh_timer (p : rptr) : M StunUsageTimerReturn :=
  r ← refresh_at p;
  now ← get rw_clock;
  match r_timer r with
  | None => ub
  | Some t =>
      '(t, ret) ← lift (stun_timer_refresh t now);
      _ ← upd_refresh p (λ r, r <| r_timer := Some t |>);
      mret ret
  end.
(** The next tick, when the timer is due. *)
Definition await_timer (p : rptr) (cb : refresh_source) : M unit :=
  r ← refresh_at p;
  now ← get rw_clock;
  match r_timer r with
  | None => ub
  | Some t => add_tick_source p (stun_timer_remainder t now) cb
  end.

(** The transaction is given up, and the refresh with it. *)
Definition abandon (p : rptr) : M unit :=
  r ← refresh_at p;
  match r_stun_message r with
  | None => ub
  | Some m =>
      id ← lift (stun_message_id m);
      _ ← upd_refresh p (λ r, r <| r_stun_agent := (stun_agent_forget_transaction (r_stun_agent r) id).1 |>);
      refresh_free p
  end.
Definition retransmit_refresh (p : rptr) : M unit :=
  r ← refresh_at p;
  match r_stun_message r with
  | None => ub
  | Some m => len ← lift (stun_message_length m); refresh_send p len
  end.

(** ** Refreshing *)

Definition priv_turn_allocate_refresh_retransmissions_tick_agent_locked (cand : rptr) : M unit :=
  _ ← destroy_tick_source cand;
  ret ← refresh_timer cand;
  match ret with
  | STUN_USAGE_TIMER_RETURN_TIMEOUT => abandon cand
  | STUN_USAGE_TIMER_RETURN_RETRANSMIT =>
      _ ← retransmit_refresh cand; await_timer cand (Retransmission_tick cand)
  | STUN_USAGE_TIMER_RETURN_SUCCESS => await_timer cand (Retransmission_tick cand)
  end.

Definition priv_turn_allocate_refresh_tick_unlocked (cand : rptr) : M unit :=
  buffer_len ← create_refresh cand (-1);
  _ ← destroy_tick_source cand;
  when (0 <? buffer_len)
    (_ ← start_refresh_timer cand;
     _ ← refresh_send cand buffer_len;
     await_timer cand (Retransmission_tick cand)).
Definition priv_turn_allocate_refresh_tick_agent_locked (cand : rptr) : M unit :=
  priv_turn_allocate_refresh_tick_unlocked cand.

Definition priv_calc_turn_timeout (lifetime : Z) : Z :=
  if 120 <? lifetime then lifetime - 60 else lifetime / 2.
Definition add_timer_source (cand : rptr) (lifetime : Z) : M unit :=
  r ← refresh_at cand;
  id ← agent_timeout_add_with_context (timer_source r) (1000 * priv_calc_turn_timeout lifetime) (Refresh_tick cand);
  upd_refresh cand (λ r, r <| timer_source := Some id |>).

(** Of [cdisco], the discovery that made the candidate: its socket, server,
    stream, component, STUN agent and the last response to it. *)
Definition priv_add_new_turn_refresh (nicesock : Z) (server : NiceAddress) (sid cid : Z) (agent : StunAgent)
    (resp : option StunMessage) (relay_cand : cptr) (turn : TurnServer) (lifetime : Z) : M rptr :=
  rs ← get refreshes;
  let cand := fresh (dom rs) in
  let resp := (λ m, {| msg_agent := None; msg_buffer := msg_buffer m; msg_key := None;
                       msg_long_term_key := msg_long_term_key m; msg_long_term_valid := msg_long_term_valid m |}) <$> resp in
  _ ← put refreshes (<[cand := Build_CandidateRefresh nicesock server relay_cand turn sid cid agent None None None
                                  None resp false None]> rs);
  _ ← upd refresh_list (λ l, l ++ [cand]);
  _ ← add_timer_source cand lifetime;
  mret cand.

(** ** Releasing *)

Definition on_refresh_remove_timeout (cand : rptr) : M unit :=
  ret ← refresh_timer cand;
  match ret with
  | STUN_USAGE_TIMER_RETURN_TIMEOUT => abandon cand
  | STUN_USAGE_TIMER_RETURN_RETRANSMIT =>
      _ ← retransmit_refresh cand; await_timer cand (Remove_timeout cand)
  | STUN_USAGE_TIMER_RETURN_SUCCESS => await_timer cand (Remove_timeout cand)
  end.

Definition refresh_remove_async (cand : rptr) (cb : dptr) : M bool :=
  r ← refresh_at cand;
  if disposing r then mret false
  else
    _ ← upd_refresh cand (λ r, r <| disposing := true |>);
    _ ← destroy_timer_source cand;
    buffer_len ← create_refresh cand 0;
    _ ← when (0 <? buffer_len)
      (_ ← refresh_send cand buffer_len;
       _ ← start_refresh_timer cand;
       await_timer cand (Remove_timeout cand));
    _ ← upd_refresh cand (λ r, r <| destroy_cb := Some cb |>);
    mret true.

Fixpoint remove_all (refreshes : list rptr) (data : dptr) : M unit :=
  match refreshes with
  | [] => mret tt
  | r :: l =>
      b ← refresh_remove_async r data;
      _ ← when b
        (ds ← get prune_data;
         match ds !! data with
         | None => ub
         | Some d => put prune_data (<[data := {| items_to_free := u32 (items_to_free d + 1); prune_cb := prune_cb d |}]> ds)
         end);
      remove_all l data
  end.

Definition refresh_prune_async (refreshes : list rptr) (function : Z) : M unit :=
  ds ← get prune_data;
  let data := fresh (dom ds) in
  _ ← put prune_data (<[data := {| items_to_free := 0; prune_cb := function |}]> ds);
  _ ← remove_all refreshes data;
  ds ← get prune_data;
  match ds !! data with
  | None => ub
  | Some d => when (items_to_free d =? 0) (on_refresh_removed data)
  end.

(** The refreshes of the list with a property. *)
Fixpoint select_refreshes (P : CandidateRefresh → bool) (l : list rptr) : M (list rptr) :=
  match l with
  | [] => mret []
  | p :: l =>
      r ← refresh_at p;
      rest ← select_refreshes P l;
      mret (if P r then p :: rest else rest)
  end.

Definition refresh_prune_agent_async (function : Z) : M unit :=
  l ← get refresh_list; refresh_prune_async l function.
Definition refresh_prune_stream_async (stream_id function : Z) : M unit :=
  l ← get refresh_list;
  l ← select_refreshes (λ r, r_stream_id r =? stream_id) l;
  refresh_prune_async l function.
Definition refresh_prune_candidate_async (candidate : cptr) (function : Z) : M unit :=
  l ← get refresh_list;
  l ← select_refreshes (λ r, bool_decide (r_candidate r = candidate)) l;
  refresh_prune_async l function.

(** The walk saves the next node before it frees one. *)
Fixpoint prune_candidate_loop (candidate : cptr) (l : list rptr) : M unit :=
  match l with
  | [] => mret tt
  | p :: l =>
      r ← refresh_at p;
      _ ← when (bool_decide (r_candidate r = candidate)) (refresh_free p);
      prune_candidate_loop candidate l
  end.
Definition refresh_prune_candidate (candidate : cptr) : M unit :=
  l ← get refresh_list; prune_candidate_loop candidate l.

(** ** Responses *)

(** The walk reads the next node of the one it was at, which must be there. *)
Definition walk_on (p : rptr) : M unit :=
  l ← get refresh_list; if bool_decide (p ∈ l) then mret tt else ub.

(** Whether an error answer asks for another try with its realm and nonce. *)
Definition stale_or_unauthorized (c : NiceCompatibility) (sent_msg resp : StunMessage) : outcome bool :=
  sent_realm ← find_bytes sent_msg STUN_ATTRIBUTE_REALM;
  recv_realm ← find_bytes resp STUN_ATTRIBUTE_REALM;
  class ← stun_message_get_class resp;
  if bool_decide (c = NICE_COMPATIBILITY_RFC5245) && bool_decide (class = STUN_ERROR) then
    e ← stun_message_find_error resp;
    match e, recv_realm with
    | (STUN_MESSAGE_RETURN_SUCCESS, Some code), Some realm =>
        mret ((0 <? zlen realm) &&
              ((code =? STUN_ERROR_STALE_NONCE) ||
               ((code =? STUN_ERROR_UNAUTHORIZED) && negb (bool_decide (sent_realm = Some realm)))))
    | _, _ => mret false
    end
  else mret false.

(** The copy of a response; what its buffer holds behind it is not looked at. *)
Definition copy_response (resp : StunMessage) : outcome StunMessage :=
  len ← stun_message_length resp;
  d ← slice (msg_buffer resp) 0 len;
  mret {| msg_agent := msg_agent resp; msg_buffer := d; msg_key := msg_key resp;
          msg_long_term_key := msg_long_term_key resp; msg_long_term_valid := msg_long_term_valid resp |}.

(** The lifetime is not initialised, -1 here; an answer without one is not
    refused. *)
Definition relay_refresh_reply (cand : rptr) (sent_msg resp : StunMessage) : M bool :=
  c ← get rw_compat;
  '(res, lifetime) ← lift (stun_usage_turn_refresh_process resp (-1) (agent_to_turn_compatibility c));
  match res with
  | STUN_USAGE_TURN_RETURN_RELAY_SUCCESS =>
      _ ← when (lifetime =? -1) ub;
      _ ← add_timer_source cand lifetime;
      _ ← destroy_tick_source cand;
      mret false
  | STUN_USAGE_TURN_RETURN_ERROR =>
      again ← lift (stale_or_unauthorized c sent_msg resp);
      _ ← (if again : bool then
             copy ← lift (copy_response resp);
             _ ← upd_refresh cand (λ r, r <| r_stun_resp_msg := Some copy |>);
             priv_turn_allocate_refresh_tick_unlocked cand
           else refresh_free cand);
      mret true
  | _ => mret false
  end.

Fixpoint relay_refresh_loop (response_id : bytes) (resp : StunMessage) (l : list rptr) : M bool :=
  match l with
  | [] => mret false
  | p :: l =>
      r ← refresh_at p;
      found ← match r_stun_message r with
              | Some m =>
                  if disposing r then mret false
                  else
                    refresh_id ← lift (stun_message_id m);
                    if bool_decide (refresh_id = response_id) then relay_refresh_reply p m resp else mret false
              | None => mret false
              end;
      _ ← walk_on p;
      if (found : bool) then mret true else relay_refresh_loop response_id resp l
  end.
Definition priv_map_reply_to_relay_refresh (resp : StunMessage) : M bool :=
  response_id ← lift (stun_message_id resp);
  l ← get refresh_list;
  relay_refresh_loop response_id resp l.

Fixpoint relay_remove_loop (response_id : bytes) (resp : StunMessage) (l : list rptr) : M bool :=
  match l with
  | [] => mret false
  | p :: l =>
      r ← refresh_at p;
      c ← get rw_compat;
      match r_stun_message r with
      | Some m =>
          if negb (disposing r) then relay_remove_loop response_id resp l
          else
            request_id ← lift (stun_message_id m);
            if bool_decide (request_id = response_id) then
              '(res, _) ← lift (stun_usage_turn_refresh_process resp 0 (agent_to_turn_compatibility c));
              if bool_decide (res = STUN_USAGE_TURN_RETURN_INVALID) then relay_remove_loop response_id resp l
              else _ ← refresh_free p; mret true
            else relay_remove_loop response_id resp l
      | None => relay_remove_loop response_id resp l
      end
  end.
Definition priv_map_reply_to_relay_remove (resp : StunMessage) : M bool :=
  response_id ← lift (stun_message_id resp);
  l ← get refresh_list;
  relay_remove_loop response_id resp l.

(** ** The main loop *)

Definition run_source (s : refresh_source) : M unit :=
  match s with
  | Refresh_tick cand => priv_turn_allocate_refresh_tick_agent_locked cand
  | Retransmission_tick cand => priv_turn_allocate_refresh_retransmissions_tick_agent_locked cand
  | Remove_timeout cand => on_refresh_remove_timeout cand
  | Async_refresh_prune cb => upd pruned (cons cb)
  end.
(** Every callback returns G_SOURCE_REMOVE; a destroyed source is not run. *)
Definition dispatch_source (id : Z) : M unit :=
  ts ← get timeouts;
  match ts !! id with
  | None => mret tt
  | Some (s, _) => _ ← run_source s; upd timeouts (delete id)
  end.
End refresh.
