(* ===== verification/TurnRefreshFacts.v ===== *)
(** * Every prune is answered once

    The refreshes, the data of the prunes and the sources of the main context
    agree in every history; so a prune has its callback called exactly once,
    after the last refresh it waits for is gone, and no source runs on a refresh
    that was freed. *)

From stdpp Require Import gmap.
From S2P Require Import Prelude Bytes StateMonad StunMessage StunHmac StunAgent StunAuth StunTimer StunTurn NiceAddress NiceCandidate IceAgent CheckList CheckDemo TurnRefresh.
#[global] Open Scope Z_scope.

Abbreviation source_map := (gmap Z (refresh_source * Z)).
Abbreviation refresh_map := (gmap positive CandidateRefresh).

(** ** The invariant *)

Definition cbs (w : RefreshWorld) : gmap positive (option positive) := destroy_cb <$> refreshes w.
#[local] Arguments cbs : simpl never.

(** How many refreshes the data [d] wait for. *)
Definition awaited (cbs : gmap positive (option positive)) (d : positive) : nat :=
  size (filter (λ x, x.2 = Some d) cbs).

(** The callbacks that are scheduled, and those whose prune still waits. *)
Definition async_of (x : refresh_source * Z) : option Z :=
  match x.1 with Async_refresh_prune cb => Some cb | _ => None end.
Definition scheduled (t : source_map) : list Z := omap (λ x, async_of x.2) (map_to_list t).
Definition waiting (ds : gmap positive RefreshPruneAsyncData) : list Z := (λ x, prune_cb x.2) <$> map_to_list ds.

Definition is_tick (p : positive) (s : refresh_source) : Prop := s = Retransmission_tick p ∨ s = Remove_timeout p.

Record sources_ok (t : source_map) (n : Z) (rs : refresh_map) : Prop := {
  so_old id x : t !! id = Some x → id < n;
  so_live id s i : t !! id = Some (s, i) → match s with
    | Refresh_tick p => ∃ r, rs !! p = Some r ∧ timer_source r = Some id
    | Retransmission_tick p | Remove_timeout p => ∃ r, rs !! p = Some r ∧ tick_source r = Some id
    | Async_refresh_prune _ => True
    end;
  so_timer p r id : rs !! p = Some r → timer_source r = Some id →
    id < n ∧ ∀ x, t !! id = Some x → x.1 = Refresh_tick p;
  so_tick p r id : rs !! p = Some r → tick_source r = Some id → id < n ∧ ∀ x, t !! id = Some x → is_tick p x.1
}.

(** [cur]: the data of a prune that has begun, and how many of its refreshes
    are not counted yet.  [asked]: the callbacks of all prunes so far. *)
Record refresh_ok (cur : option (positive * Z)) (asked : list Z) (w : RefreshWorld) : Prop := {
  ro_nodup : NoDup (refresh_list w);
  ro_live p : p ∈ refresh_list w ↔ is_Some (cbs w !! p);
  ro_sources : sources_ok (timeouts w) (next_timeout w) (refreshes w);
  ro_disposing p r : refreshes w !! p = Some r → disposing r = false → destroy_cb r = None;
  ro_data d x : prune_data w !! d = Some x →
    match cur with
    | Some (d', k) => if decide (d = d') then items_to_free x + k = Z.of_nat (awaited (cbs w) d)
                      else items_to_free x = Z.of_nat (awaited (cbs w) d) ∧ 0 < items_to_free x
    | None => items_to_free x = Z.of_nat (awaited (cbs w) d) ∧ 0 < items_to_free x
    end;
  ro_cb p d : cbs w !! p = Some (Some d) → is_Some (prune_data w !! d);
  ro_asked : asked ≡ₚ pruned w ++ scheduled (timeouts w) ++ waiting (prune_data w)
}.

(** ** Lists read off the stores *)

Lemma scheduled_insert t id x : t !! id = None →
  scheduled (<[id := x]> t) ≡ₚ match async_of x with Some cb => [cb] | None => [] end ++ scheduled t.
Proof.
  intros H. unfold scheduled. rewrite (map_to_list_insert t id x H). cbn. by destruct (async_of x).
Qed.
Lemma scheduled_delete t id x : t !! id = Some x →
  scheduled t ≡ₚ match async_of x with Some cb => [cb] | None => [] end ++ scheduled (delete id t).
Proof.
  intros H. rewrite <- (scheduled_insert (delete id t) id x) by apply lookup_delete_eq. by rewrite insert_delete_id.
Qed.
Lemma scheduled_drop t id : (∀ x, t !! id = Some x → async_of x = None) → scheduled (delete id t) ≡ₚ scheduled t.
Proof.
  intros H. destruct (t !! id) as [x |] eqn:E; [| by rewrite delete_id].
  rewrite (scheduled_delete t id x E). by rewrite (H x eq_refl).
Qed.
Lemma waiting_insert ds d x : ds !! d = None → waiting (<[d := x]> ds) ≡ₚ prune_cb x :: waiting ds.
Proof. intros H. unfold waiting. by rewrite (map_to_list_insert ds d x H). Qed.
Lemma waiting_delete ds d x : ds !! d = Some x → waiting ds ≡ₚ prune_cb x :: waiting (delete d ds).
Proof. intros H. unfold waiting. by rewrite <- (map_to_list_delete ds d x H). Qed.
Lemma waiting_same ds d x n : ds !! d = Some x →
  waiting (<[d := {| items_to_free := n; prune_cb := prune_cb x |}]> ds) ≡ₚ waiting ds.
Proof.
  intros H. rewrite (waiting_delete ds d x H), <- insert_delete_eq, waiting_insert; [done | apply lookup_delete_eq].
Qed.

Lemma awaited_insert (m : gmap positive (option positive)) p o d : m !! p = Some None →
  awaited (<[p := o]> m) d = (if decide (o = Some d) then S (awaited m d) else awaited m d).
Proof.
  intros H. unfold awaited. rewrite map_filter_insert. cbn.
  assert (Hn : filter (λ x : positive * option positive, x.2 = Some d) m !! p = None).
  { apply map_lookup_filter_None. right. intros x Hx E. cbn in E. congruence. }
  destruct (decide (o = Some d)).
  - by rewrite map_size_insert_None.
  - rewrite map_filter_delete, delete_id; done.
Qed.
Lemma awaited_delete (m : gmap positive (option positive)) p o d : m !! p = Some o →
  awaited (delete p m) d = (if decide (o = Some d) then pred (awaited m d) else awaited m d).
Proof.
  intros H. unfold awaited. rewrite map_filter_delete. destruct (decide (o = Some d)) as [-> |].
  - apply map_size_delete_Some. exists (Some d). by apply map_lookup_filter_Some.
  - rewrite delete_id; [done |]. apply map_lookup_filter_None. right. intros x Hx E. cbn in E. congruence.
Qed.
Lemma awaited_new (m : gmap positive (option positive)) p d : m !! p = None → awaited (<[p := None]> m) d = awaited m d.
Proof.
  intros H. unfold awaited. rewrite map_filter_insert. cbn. rewrite decide_False by done. by rewrite delete_id.
Qed.
Lemma awaited_pos (m : gmap positive (option positive)) p d : m !! p = Some (Some d) → (0 < awaited m d)%nat.
Proof.
  intros H. unfold awaited.
  enough (size (filter (λ x : positive * option positive, x.2 = Some d) m) ≠ 0%nat) by lia.
  intros E%map_size_empty_inv. assert (filter (λ x : positive * option positive, x.2 = Some d) m !! p = Some (Some d)) as F.
  { by apply map_lookup_filter_Some. }
  by rewrite E, lookup_empty in F.
Qed.
Lemma awaited_none (m : gmap positive (option positive)) d : (∀ p, m !! p ≠ Some (Some d)) → awaited m d = 0%nat.
Proof.
  intros H. unfold awaited. rewrite map_size_empty_iff. apply map_empty. intros p. apply map_lookup_filter_None.
  right. intros x Hx E. cbn in E. subst. by eapply H.
Qed.

(** ** Steps on one refresh *)

(** Ids of sources are not used again. *)
Definition later (w w' : RefreshWorld) : Prop :=
  next_timeout w ≤ next_timeout w' ∧
  ∀ id, id < next_timeout w → timeouts w' !! id = None ∨ timeouts w' !! id = timeouts w !! id.
Record local (w w' : RefreshWorld) : Prop := {
  lo_ok cur asked : refresh_ok cur asked w → refresh_ok cur asked w';
  lo_later : later w w';
  lo_cbs : cbs w' = cbs w;
  lo_data : prune_data w' = prune_data w;
  lo_list : refresh_list w' = refresh_list w;
  lo_disposing p r r' : refreshes w !! p = Some r → refreshes w' !! p = Some r' → disposing r = true → disposing r' = true
}.
Lemma later_refl w : later w w.
Proof. split; [lia | by right]. Qed.
Lemma later_trans w1 w2 w3 : later w1 w2 → later w2 w3 → later w1 w3.
Proof.
  intros [H1 H2] [H3 H4]. split; [lia |]. intros id Hid.
  destruct (H4 id) as [E | E]; [lia | by left |]. rewrite E. by apply H2.
Qed.
#[local] Instance local_pre : PreOrder local.
Proof.
  split.
  - intros w. split; [done | apply later_refl | try done..]. intros p r r'. congruence.
  - intros w1 w2 w3 [A1 A2 A3 A4 A5 A6] [B1 B2 B3 B4 B5 B6].
    split; [naive_solver | by eapply later_trans | congruence.. |].
    intros p r r' Hr Hr' Hd. assert (is_Some (refreshes w2 !! p)) as [r2 Hr2].
    { assert (is_Some (cbs w2 !! p)) as [o Ho] by (rewrite A3; unfold cbs; rewrite lookup_fmap, Hr; eauto).
      unfold cbs in Ho. rewrite lookup_fmap in Ho. destruct (refreshes w2 !! p); [eauto | done]. }
    by eapply B6, A6.
Qed.

(** What a step on the refresh [p] has to show. *)
Lemma local_update w w' p r r' : refreshes w !! p = Some r → refreshes w' = <[p := r']> (refreshes w) →
  prune_data w' = prune_data w → refresh_list w' = refresh_list w → pruned w' = pruned w →
  destroy_cb r' = destroy_cb r → (disposing r' = false → disposing r = false) →
  (sources_ok (timeouts w) (next_timeout w) (refreshes w) →
     sources_ok (timeouts w') (next_timeout w') (<[p := r']> (refreshes w)) ∧
     scheduled (timeouts w') ≡ₚ scheduled (timeouts w)) →
  later w w' → local w w'.
Proof.
  intros Hp Hw Hpd Hrl Hpr Hcb Hd Hs Hl.
  assert (Hcbs : cbs w' = cbs w).
  { unfold cbs. rewrite Hw, fmap_insert, Hcb. apply insert_id. rewrite lookup_fmap, Hp. done. }
  split; [| done.. |].
  2:{ intros q s s' H1 H2 H3. rewrite Hw in H2. apply lookup_insert_Some in H2 as [[<- <-] | [_ H2]]; [| congruence].
      assert (s = r) as -> by congruence. destruct (disposing r') eqn:E; [done |]. by rewrite Hd in H3. }
  intros cur asked [H1 H2 H3 H4 H5 H6 H7]. destruct (Hs H3) as [Hs1 Hs2].
  split; rewrite ?Hcbs, ?Hw, ?Hpd, ?Hrl, ?Hpr; cbn; try done.
  - intros q s. rewrite lookup_insert_Some. intros [[<- <-] | [_ Hq]]; [| by apply (H4 q)].
    intros E. rewrite Hcb. by apply (H4 p), Hd.
  - by rewrite Hs2.
Qed.

Section refresh.
Context {env : AgentEnv}.

Lemma refresh_at_inv p w r w' : refresh_at p w = Done (r, w') → refreshes w !! p = Some r ∧ w' = w.
Proof. unfold refresh_at. destruct (refreshes w !! p); [by intros [= <- <-] | done]. Qed.
Lemma upd_refresh_inv p f w x w' : upd_refresh p f w = Done (x, w') →
  ∃ r, refreshes w !! p = Some r ∧ w' = w <| refreshes := <[p := f r]> (refreshes w) |>.
Proof. intros (r & w1 & [Hr ->]%refresh_at_inv & [_ ->]%st_upd_inv)%st_bind_inv. by exists r. Qed.

(** A refresh that keeps its slots. *)
Lemma sources_same_slots t n rs p r r' : sources_ok t n rs → rs !! p = Some r →
  timer_source r' = timer_source r → tick_source r' = tick_source r → sources_ok t n (<[p := r']> rs).
Proof.
  intros [S1 S2 S3 S4] Hp Ht Hk. split; [done | | |].
  - intros id s i Hs. specialize (S2 id s i Hs). destruct s as [q | q | q | cb]; [.. | done];
      destruct S2 as (r1 & Hq & E); (destruct (decide (q = p)) as [-> |];
        [exists r'; rewrite lookup_insert_eq; split; [done | congruence] | exists r1; by rewrite lookup_insert_ne]).
  - intros q s id. rewrite lookup_insert_Some. intros [[<- <-] | [_ Hq]]; [rewrite Ht |]; by eapply S3.
  - intros q s id. rewrite lookup_insert_Some. intros [[<- <-] | [_ Hq]]; [rewrite Hk |]; by eapply S4.
Qed.

Lemma local_fields p f : (∀ r, timer_source (f r) = timer_source r ∧ tick_source (f r) = tick_source r ∧
    destroy_cb (f r) = destroy_cb r ∧ (disposing (f r) = false → disposing r = false)) →
  keeps local (upd_refresh p f).
Proof.
  intros Hf w x w' (r & Hr & ->)%upd_refresh_inv. destruct (Hf r) as (Ht & Hk & Hc & Hd).
  apply (local_update w _ p r (f r) Hr); [done.. | | split; [done | by right]].
  intros Hs. cbn. split; [| done]. by apply (sources_same_slots _ _ _ p r).
Qed.

Lemma local_same (m : st RefreshWorld unit) :
  (∀ w w', m w = Done (tt, w') → refreshes w' = refreshes w ∧ refresh_list w' = refresh_list w ∧
     prune_data w' = prune_data w ∧ timeouts w' = timeouts w ∧ next_timeout w' = next_timeout w ∧ pruned w' = pruned w) →
  keeps local m.
Proof.
  intros H w [] w' Hm. destruct (H w w' Hm) as (E1 & E2 & E3 & E4 & E5 & E6).
  assert (Hc : cbs w' = cbs w) by (unfold cbs; by rewrite E1).
  split; [| unfold later; rewrite E4, E5; split; [lia | by right] | done.. |].
  2:{ intros p r r'. rewrite E1. congruence. }
  intros cur asked [H1 H2 H3 H4 H5 H6 H7]. split; rewrite ?Hc, ?E1, ?E2, ?E3, ?E4, ?E5, ?E6; done.
Qed.
Lemma local_put_transids n : keeps local (put rw_transids n).
Proof. apply local_same. by intros w w' [= <-]. Qed.
Lemma local_sent f : keeps local (upd sent f).
Proof. apply local_same. by intros w w' [= <-]. Qed.

(** A slot is emptied. *)
Lemma sources_drop t n rs p r r' id : sources_ok t n rs → rs !! p = Some r →
  (timer_source r = Some id ∧ timer_source r' = None ∧ tick_source r' = tick_source r) ∨
  (tick_source r = Some id ∧ tick_source r' = None ∧ timer_source r' = timer_source r) →
  sources_ok (delete id t) n (<[p := r']> rs).
Proof.
  intros [S1 S2 S3 S4] Hp Hr. split.
  - intros id1 x [_ H]%lookup_delete_Some. by eapply S1.
  - intros id1 s i [Hne Hs]%lookup_delete_Some. specialize (S2 id1 s i Hs).
    destruct s as [q | q | q | cb]; [.. | done]; destruct S2 as (r1 & Hq & E);
      (destruct (decide (q = p)) as [-> |]; [| exists r1; by rewrite lookup_insert_ne]);
      exists r'; rewrite lookup_insert_eq; (split; [done |]); intuition congruence.
  - intros q s id1. rewrite lookup_insert_Some. intros [[<- <-] | [_ Hq]] E.
    + assert (timer_source r = Some id1) as E' by (intuition congruence).
      destruct (S3 p r id1 Hp E') as [H1 H2]. split; [done |]. intros x [_ H]%lookup_delete_Some. by apply H2.
    + destruct (S3 q s id1 Hq E) as [H1 H2]. split; [done |]. intros x [_ H]%lookup_delete_Some. by apply H2.
  - intros q s id1. rewrite lookup_insert_Some. intros [[<- <-] | [_ Hq]] E.
    + assert (tick_source r = Some id1) as E' by (intuition congruence).
      destruct (S4 p r id1 Hp E') as [H1 H2]. split; [done |]. intros x [_ H]%lookup_delete_Some. by apply H2.
    + destruct (S4 q s id1 Hq E) as [H1 H2]. split; [done |]. intros x [_ H]%lookup_delete_Some. by apply H2.
Qed.

(** An empty slot takes a new source. *)
Lemma sources_add t n rs p r r' s i : sources_ok t n rs → rs !! p = Some r →
  (s = Refresh_tick p ∧ timer_source r = None ∧ timer_source r' = Some n ∧ tick_source r' = tick_source r) ∨
  (is_tick p s ∧ tick_source r = None ∧ tick_source r' = Some n ∧ timer_source r' = timer_source r) →
  sources_ok (<[n := (s, i)]> t) (n + 1) (<[p := r']> rs).
Proof.
  intros [S1 S2 S3 S4] Hp Hr.
  assert (Hn : t !! n = None) by (destruct (t !! n) as [x |] eqn:E; [apply S1 in E; lia | done]). split.
  - intros id x. rewrite lookup_insert_Some. intros [[<- _] | [_ H]]; [lia | apply S1 in H; lia].
  - intros id s1 i1. rewrite lookup_insert_Some. intros [[<- [= <- <-]] | [Hne H]].
    + unfold is_tick in Hr.
      destruct Hr as [(-> & _ & H & _) | ([-> | ->] & _ & H & _)]; exists r'; by rewrite lookup_insert_eq.
    + specialize (S2 id s1 i1 H). destruct s1 as [q | q | q | cb]; [.. | done]; destruct S2 as (r1 & Hq & E);
        (destruct (decide (q = p)) as [-> |]; [exists r'; rewrite lookup_insert_eq; split; [done |]; intuition congruence |
           exists r1; by rewrite lookup_insert_ne]).
  - intros q s1 id. rewrite lookup_insert_Some. intros [[<- <-] | [_ Hq]] E.
    + destruct Hr as [(-> & _ & H & _) | (_ & _ & _ & H)].
      * assert (id = n) as -> by congruence. split; [lia |]. rewrite lookup_insert_eq. by intros x [= <-].
      * rewrite H in E. destruct (S3 p r id Hp E) as [H1 H2]. split; [lia |]. rewrite lookup_insert_ne by lia. done.
    + destruct (S3 q s1 id Hq E) as [H1 H2]. split; [lia |]. rewrite lookup_insert_ne by lia. done.
  - intros q s1 id. rewrite lookup_insert_Some. intros [[<- <-] | [_ Hq]] E.
    + destruct Hr as [(_ & _ & _ & H) | (Hs & _ & H & _)].
      * rewrite H in E. destruct (S4 p r id Hp E) as [H1 H2]. split; [lia |]. rewrite lookup_insert_ne by lia. done.
      * assert (id = n) as -> by congruence. split; [lia |]. rewrite lookup_insert_eq. by intros x [= <-].
    + destruct (S4 q s1 id Hq E) as [H1 H2]. split; [lia |]. rewrite lookup_insert_ne by lia. done.
Qed.

(** Without its source, where it has one. *)
Definition without (o : option Z) (t : source_map) : source_map := match o with Some id => delete id t | None => t end.
Lemma destroy_source_run o w : destroy_source o w = Done (tt, match o with
  | Some id => w <| timeouts := delete id (timeouts w) |> | None => w end).
Proof. by destruct o. Qed.
Lemma destroy_source_inv o w x w' : destroy_source o w = Done (x, w') →
  timeouts w' = without o (timeouts w) ∧ refreshes w' = refreshes w ∧ refresh_list w' = refresh_list w ∧
  prune_data w' = prune_data w ∧ next_timeout w' = next_timeout w ∧ pruned w' = pruned w.
Proof. rewrite destroy_source_run. intros [= _ <-]. by destruct o. Qed.

Lemma sources_without t n rs p r r' o : sources_ok t n rs → rs !! p = Some r →
  (timer_source r = o ∧ timer_source r' = None ∧ tick_source r' = tick_source r) ∨
  (tick_source r = o ∧ tick_source r' = None ∧ timer_source r' = timer_source r) →
  sources_ok (without o t) n (<[p := r']> rs) ∧ scheduled (without o t) ≡ₚ scheduled t.
Proof.
  intros Hs Hp Hr. destruct o as [id |]; cbn.
  - split; [by eapply sources_drop |]. apply scheduled_drop. intros x Hx. destruct Hs as [S1 S2 S3 S4].
    assert (x.1 = Refresh_tick p ∨ is_tick p x.1) as H.
    { destruct Hr as [(E & _) | (E & _)]; [left; by apply (S3 p r id) | right; by apply (S4 p r id)]. }
    unfold async_of. destruct H as [-> | [-> | ->]]; done.
  - split; [| done].
    assert (Hs' : timer_source r' = timer_source r ∧ tick_source r' = tick_source r) by (intuition congruence).
    destruct Hs' as [Ht Hk]. by apply (sources_same_slots _ _ _ p r).
Qed.

Lemma without_cases o t id : without o t !! id = None ∨ without o t !! id = t !! id.
Proof.
  destruct o as [i |]; cbn; [| by right]. destruct (decide (i = id)) as [-> |]; [left; apply lookup_delete_eq | right; by apply lookup_delete_ne].
Qed.

Lemma destroy_tick_inv p w x w' : destroy_tick_source p w = Done (x, w') → ∃ r, refreshes w !! p = Some r ∧
  timeouts w' = without (tick_source r) (timeouts w) ∧ refreshes w' = <[p := r <| tick_source := None |>]> (refreshes w) ∧
  refresh_list w' = refresh_list w ∧ prune_data w' = prune_data w ∧ next_timeout w' = next_timeout w ∧ pruned w' = pruned w.
Proof.
  intros (r & w1 & [Hr ->]%refresh_at_inv & (y & w2 & (E1 & E2 & E3 & E4 & E5 & E6)%destroy_source_inv &
    (r' & Hr' & ->)%upd_refresh_inv)%st_bind_inv)%st_bind_inv.
  rewrite E2 in Hr'. simplify_eq. exists r. cbn. by rewrite E2.
Qed.
Lemma destroy_timer_inv p w x w' : destroy_timer_source p w = Done (x, w') → ∃ r, refreshes w !! p = Some r ∧
  timeouts w' = without (timer_source r) (timeouts w) ∧ refreshes w' = <[p := r <| timer_source := None |>]> (refreshes w) ∧
  refresh_list w' = refresh_list w ∧ prune_data w' = prune_data w ∧ next_timeout w' = next_timeout w ∧ pruned w' = pruned w.
Proof.
  intros (r & w1 & [Hr ->]%refresh_at_inv & (y & w2 & (E1 & E2 & E3 & E4 & E5 & E6)%destroy_source_inv &
    (r' & Hr' & ->)%upd_refresh_inv)%st_bind_inv)%st_bind_inv.
  rewrite E2 in Hr'. simplify_eq. exists r. cbn. by rewrite E2.
Qed.

Lemma local_destroy_tick p : keeps local (destroy_tick_source p).
Proof.
  intros w x w' (r & Hr & Et & Er & El & Ed & En & Ep)%destroy_tick_inv.
  apply (local_update w w' p r _ Hr Er Ed El Ep); [done | done | |].
  - rewrite Et, En. intros Hs. eapply sources_without; [exact Hs | exact Hr | by right].
  - split; [lia |]. intros id _. rewrite Et. apply without_cases.
Qed.
Lemma local_destroy_timer p : keeps local (destroy_timer_source p).
Proof.
  intros w x w' (r & Hr & Et & Er & El & Ed & En & Ep)%destroy_timer_inv.
  apply (local_update w w' p r _ Hr Er Ed El Ep); [done | done | |].
  - rewrite Et, En. intros Hs. eapply sources_without; [exact Hs | exact Hr | by left].
  - split; [lia |]. intros id _. rewrite Et. apply without_cases.
Qed.

Lemma timeout_add_inv o i s w n w' : agent_timeout_add_with_context o i s w = Done (n, w') →
  n = next_timeout w ∧ timeouts w' = <[n := (s, i)]> (without o (timeouts w)) ∧ next_timeout w' = n + 1 ∧
  refreshes w' = refreshes w ∧ refresh_list w' = refresh_list w ∧ prune_data w' = prune_data w ∧ pruned w' = pruned w.
Proof.
  intros (x & w1 & (E1 & E2 & E3 & E4 & E5 & E6)%destroy_source_inv & H)%st_bind_inv.
  rewrite bind_get, bind_put, bind_upd in H. apply st_ret_inv in H as [-> ->]. cbn. by rewrite E1, E5.
Qed.

(** The slot of [p] gets a source in place of the one it had. *)
Lemma local_refill p w w' r r0 r' o s i : refreshes w !! p = Some r →
  timeouts w' = <[next_timeout w := (s, i)]> (without o (timeouts w)) → next_timeout w' = next_timeout w + 1 →
  refreshes w' = <[p := r']> (refreshes w) →
  prune_data w' = prune_data w → refresh_list w' = refresh_list w → pruned w' = pruned w →
  destroy_cb r' = destroy_cb r → disposing r' = disposing r → async_of (s, i) = None →
  (timer_source r = o ∧ timer_source r0 = None ∧ tick_source r0 = tick_source r) ∨
  (tick_source r = o ∧ tick_source r0 = None ∧ timer_source r0 = timer_source r) →
  (s = Refresh_tick p ∧ timer_source r0 = None ∧ timer_source r' = Some (next_timeout w) ∧ tick_source r' = tick_source r0) ∨
  (is_tick p s ∧ tick_source r0 = None ∧ tick_source r' = Some (next_timeout w) ∧ timer_source r' = timer_source r0) →
  local w w'.
Proof.
  intros Hr Et En Er Ed El Ep Hcb Hdi Has H1 H2.
  apply (local_update w w' p r r' Hr Er Ed El Ep Hcb); [congruence | |].
  - rewrite Et, En. intros Hs. destruct (sources_without _ _ _ p r r0 o Hs Hr H1) as [Hs0 Hp0].
    assert (Hn : without o (timeouts w) !! next_timeout w = None).
    { destruct (without o (timeouts w) !! next_timeout w) as [x |] eqn:E; [| done]. apply (so_old _ _ _ Hs0) in E. lia. }
    split.
    + assert (<[p := r']> (refreshes w) = <[p := r']> (<[p := r0]> (refreshes w))) as -> by by rewrite insert_insert_eq.
      apply (sources_add _ _ _ p r0 r' s i Hs0); [by rewrite lookup_insert_eq | exact H2].
    + rewrite scheduled_insert by done. by rewrite Has.
  - unfold later. rewrite Et, En. split; [lia |]. intros id Hid. rewrite lookup_insert_ne by lia. apply without_cases.
Qed.

Lemma local_add_tick p i s : is_tick p s → keeps local (add_tick_source p i s).
Proof.
  intros Hs w x w' (r & w1 & [Hr ->]%refresh_at_inv & (n & w2 & (-> & E1 & E2 & E3 & E4 & E5 & E6)%timeout_add_inv &
    (r' & Hr' & ->)%upd_refresh_inv)%st_bind_inv)%st_bind_inv.
  assert (r' = r) as -> by congruence.
  eapply (local_refill p w _ r (r <| tick_source := None |>)); [exact Hr | exact E1 | exact E2 | cbn; by rewrite E3 | done..| | | ].
  - by destruct Hs as [-> | ->].
  - by right.
  - right. by split_and!.
Qed.
Lemma local_add_timer p l : keeps local (add_timer_source p l).
Proof.
  intros w x w' (r & w1 & [Hr ->]%refresh_at_inv & (n & w2 & (-> & E1 & E2 & E3 & E4 & E5 & E6)%timeout_add_inv &
    (r' & Hr' & ->)%upd_refresh_inv)%st_bind_inv)%st_bind_inv.
  assert (r' = r) as -> by congruence.
  eapply (local_refill p w _ r (r <| timer_source := None |>)); [exact Hr | exact E1 | exact E2 | cbn; by rewrite E3 | done..| | ].
  - by left.
  - left. by split_and!.
Qed.

Lemma local_refresh_at p : keeps local (refresh_at p).
Proof. by intros w x w' [_ ->]%refresh_at_inv. Qed.
#[local] Hint Resolve local_put_transids local_sent local_destroy_tick local_destroy_timer local_add_timer local_refresh_at : keeps.
Ltac local_steps := repeat (keeps_step; try apply _); auto with keeps.
Ltac local_field := apply local_fields; intros ?; split_and!; done.

Lemma local_create p l : keeps local (create_refresh p l).
Proof. unfold create_refresh. local_steps. local_field. Qed.
Lemma local_send p l : keeps local (refresh_send p l).
Proof. unfold refresh_send. local_steps. Qed.
Lemma local_start_refresh_timer p : keeps local (start_refresh_timer p).
Proof. unfold start_refresh_timer. local_steps. local_field. Qed.
Lemma local_refresh_timer p : keeps local (refresh_timer p).
Proof. unfold refresh_timer. local_steps. local_field. Qed.
Lemma local_await p s : is_tick p s → keeps local (await_timer p s).
Proof. intros Hs. unfold await_timer. local_steps. by apply local_add_tick. Qed.
Lemma local_retransmit p : keeps local (retransmit_refresh p).
Proof. unfold retransmit_refresh. local_steps. apply local_send. Qed.
#[local] Hint Resolve local_create local_send local_start_refresh_timer local_refresh_timer local_retransmit : keeps.
Lemma local_tick p : keeps local (priv_turn_allocate_refresh_tick_unlocked p).
Proof. unfold priv_turn_allocate_refresh_tick_unlocked. local_steps. apply local_await. by left. Qed.

(** ** Freeing a refresh *)

(** Steps outside the beginning of a prune. *)
Record global (w w' : RefreshWorld) : Prop := {
  gl_ok asked : refresh_ok None asked w → refresh_ok None asked w';
  gl_later : later w w'
}.
#[local] Instance global_pre : PreOrder global.
Proof.
  split; [intros w; split; [done | apply later_refl] |].
  intros w1 w2 w3 [A1 A2] [B1 B2]. split; [naive_solver | by eapply later_trans].
Qed.
Lemma local_global w w' : local w w' → global w w'.
Proof. intros [H1 H2 _ _ _ _]. split; [naive_solver | done]. Qed.
Lemma keeps_global {A} (m : st RefreshWorld A) : keeps local m → keeps global m.
Proof. intros H w x w' E. by eapply local_global, H. Qed.

Lemma on_removed_inv d w x w' : on_refresh_removed d w = Done (x, w') → ∃ y, prune_data w !! d = Some y ∧
  refreshes w' = refreshes w ∧ refresh_list w' = refresh_list w ∧ pruned w' = pruned w ∧
  (((items_to_free y = 0 ∨ items_to_free y = 1) ∧ prune_data w' = delete d (prune_data w) ∧
    timeouts w' = <[next_timeout w := (Async_refresh_prune (prune_cb y), 0)]> (timeouts w) ∧
    next_timeout w' = next_timeout w + 1) ∨
   (items_to_free y ≠ 0 ∧ items_to_free y ≠ 1 ∧
    prune_data w' = <[d := {| items_to_free := items_to_free y - 1; prune_cb := prune_cb y |}]> (prune_data w) ∧
    timeouts w' = timeouts w ∧ next_timeout w' = next_timeout w)).
Proof.
  unfold on_refresh_removed. rewrite bind_get. destruct (prune_data w !! d) as [y |]; [| done]. intros H. exists y. split; [done |].
  destruct (items_to_free y =? 0) eqn:E0.
  - cbv zeta iota in H. change (0 =? 0) with true in H. cbv iota in H.
    apply st_bind_inv in H as (n & w1 & (-> & E1 & E2 & E3 & E4 & E5 & E6)%timeout_add_inv & [_ ->]%st_upd_inv).
    cbn in *. split_and!; try done. left. rewrite E1, E2, E5. split_and!; try done. left. lia.
  - destruct (items_to_free y - 1 =? 0) eqn:E1.
    + apply st_bind_inv in H as (n & w1 & (-> & F1 & E2 & E3 & E4 & E5 & E6)%timeout_add_inv & [_ ->]%st_upd_inv).
      cbn in *. split_and!; try done. left. rewrite F1, E2, E5. split_and!; try done. right. lia.
    + apply st_upd_inv in H as [_ ->]. cbn. split_and!; try done. right. split_and!; try done; lia.
Qed.

(** What [on_refresh_removed] does to the callbacks that are owed. *)
Lemma removed_asked asked w w' d y : asked ≡ₚ pruned w ++ scheduled (timeouts w) ++ waiting (prune_data w) →
  (∀ x, timeouts w !! next_timeout w = Some x → False) → prune_data w !! d = Some y → pruned w' = pruned w →
  ((prune_data w' = delete d (prune_data w) ∧
    timeouts w' = <[next_timeout w := (Async_refresh_prune (prune_cb y), 0)]> (timeouts w)) ∨
   (prune_data w' = <[d := {| items_to_free := items_to_free y - 1; prune_cb := prune_cb y |}]> (prune_data w) ∧
    timeouts w' = timeouts w)) →
  asked ≡ₚ pruned w' ++ scheduled (timeouts w') ++ waiting (prune_data w').
Proof.
  intros Ha Hn Hy -> [(-> & ->) | (-> & ->)]; rewrite Ha.
  - rewrite scheduled_insert by (destruct (timeouts w !! next_timeout w) eqn:E; [by destruct (Hn _ eq_refl) | done]).
    cbn. rewrite (waiting_delete _ _ _ Hy). by rewrite (Permutation_middle (scheduled _)).
  - by rewrite waiting_same.
Qed.

Lemma list_remove_first_in x l : NoDup l → ∀ y, y ∈ list_remove_first x l ↔ y ∈ l ∧ y ≠ x.
Proof.
  induction l as [| z l IH]; cbn [list_remove_first]; [intros _ y; split; [by intros ?%not_elem_of_nil | intros [?%not_elem_of_nil _]; done] |].
  intros [Hz Hl]%NoDup_cons y. case_bool_decide as E.
  - subst. rewrite elem_of_cons. split; [intros Hy; split; [by right | by intros ->] | intros [[-> | Hy] ?]; done].
  - rewrite !elem_of_cons, (IH Hl). split; [intros [-> | [? ?]]; split; auto | intros [[-> | ?] ?]; auto].
Qed.
Lemma list_remove_first_nodup x l : NoDup l → NoDup (list_remove_first x l).
Proof.
  induction l as [| z l IH]; cbn [list_remove_first]; [done |].
  intros [Hz Hl]%NoDup_cons. case_bool_decide; [done |]. apply NoDup_cons. split; [| by apply IH].
  by intros [? _]%list_remove_first_in.
Qed.

(** No source is left for a refresh without slots. *)
Lemma sources_free t n rs p r : sources_ok t n rs → rs !! p = Some r → timer_source r = None → tick_source r = None →
  sources_ok t n (delete p rs).
Proof.
  intros [S1 S2 S3 S4] Hp Ht Hk. split; [done | | |].
  - intros id s i H. specialize (S2 id s i H). destruct s as [q | q | q | cb]; [.. | done]; destruct S2 as (r1 & Hq & E);
      exists r1; (rewrite lookup_delete_ne; [done |]); intros <-; congruence.
  - intros q s id [_ Hq]%lookup_delete_Some. by eapply S3.
  - intros q s id [_ Hq]%lookup_delete_Some. by eapply S4.
Qed.
Lemma sources_async t n rs cb i : sources_ok t n rs → sources_ok (<[n := (Async_refresh_prune cb, i)]> t) (n + 1) rs.
Proof.
  intros [S1 S2 S3 S4]. split.
  - intros id x. rewrite lookup_insert_Some. intros [[<- _] | [_ H]]; [lia | apply S1 in H; lia].
  - intros id s j. rewrite lookup_insert_Some. intros [[_ [= <- _]] | [_ H]]; [done | by apply (S2 id s j)].
  - intros q s id Hq E. destruct (S3 q s id Hq E) as [H1 H2]. split; [lia |]. by rewrite lookup_insert_ne by lia.
  - intros q s id Hq E. destruct (S4 q s id Hq E) as [H1 H2]. split; [lia |]. by rewrite lookup_insert_ne by lia.
Qed.

(** A refresh without sources, whose callback was called, is freed. *)
Lemma refresh_ok_freed asked w w2 w' p r r2 : refresh_ok None asked w → refreshes w !! p = Some r →
  sources_ok (timeouts w2) (next_timeout w2) (refreshes w2) → scheduled (timeouts w2) ≡ₚ scheduled (timeouts w) →
  refreshes w2 !! p = Some r2 → timer_source r2 = None → tick_source r2 = None →
  delete p (refreshes w2) = delete p (refreshes w) → prune_data w2 = prune_data w → pruned w2 = pruned w →
  refresh_list w' = list_remove_first p (refresh_list w) → refreshes w' = delete p (refreshes w2) → pruned w' = pruned w2 →
  match destroy_cb r with
  | None => prune_data w' = prune_data w2 ∧ timeouts w' = timeouts w2 ∧ next_timeout w' = next_timeout w2
  | Some d => ∃ y, prune_data w2 !! d = Some y ∧
      (((items_to_free y = 0 ∨ items_to_free y = 1) ∧ prune_data w' = delete d (prune_data w2) ∧
        timeouts w' = <[next_timeout w2 := (Async_refresh_prune (prune_cb y), 0)]> (timeouts w2) ∧
        next_timeout w' = next_timeout w2 + 1) ∨
       (items_to_free y ≠ 0 ∧ items_to_free y ≠ 1 ∧
        prune_data w' = <[d := {| items_to_free := items_to_free y - 1; prune_cb := prune_cb y |}]> (prune_data w2) ∧
        timeouts w' = timeouts w2 ∧ next_timeout w' = next_timeout w2))
  end → refresh_ok None asked w'.
Proof.
  intros [H1 H2 H3 H4 H5 H6 H7] Hr Hs Hsch Hr2 Ht2 Hk2 Hdel Hpd Hpr Hl Hre Hpr' Hcase.
  pose proof (sources_free _ _ _ p r2 Hs Hr2 Ht2 Hk2) as Hfree.
  assert (Hcp : cbs w !! p = Some (destroy_cb r)) by (unfold cbs; by rewrite lookup_fmap, Hr).
  assert (Hcbs : cbs w' = delete p (cbs w)) by (unfold cbs; by rewrite Hre, Hdel, fmap_delete).
  assert (Ha2 : asked ≡ₚ pruned w2 ++ scheduled (timeouts w2) ++ waiting (prune_data w2)) by by rewrite Hpr, Hsch, Hpd.
  assert (Hlive : ∀ q, q ∈ refresh_list w' ↔ is_Some (cbs w' !! q)).
  { intros q. rewrite Hl, list_remove_first_in, H2, Hcbs by done. destruct (decide (q = p)) as [-> |].
    - rewrite lookup_delete_eq. split; [by intros [_ ?] | by intros []].
    - rewrite lookup_delete_ne by done. tauto. }
  assert (Hdis : ∀ q s, refreshes w' !! q = Some s → disposing s = false → destroy_cb s = None).
  { intros q s. rewrite Hre, Hdel, lookup_delete_Some. intros [_ Hq]. by apply (H4 q). }
  assert (Hnodup : NoDup (refresh_list w')) by (rewrite Hl; by apply list_remove_first_nodup).
  assert (Hnew : ∀ x, timeouts w2 !! next_timeout w2 = Some x → False) by (intros x E; apply (so_old _ _ _ Hs) in E; lia).
  destruct (destroy_cb r) as [d |].
  - destruct Hcase as (y & Hy & Hcase). rewrite Hpd in Hy.
    destruct (H5 d y Hy) as [Hit Hpos]. assert (Haw : awaited (delete p (cbs w)) d = pred (awaited (cbs w) d)).
    { rewrite (awaited_delete _ _ _ d Hcp). by rewrite decide_True. }
    assert (Hoth : ∀ d', d' ≠ d → awaited (delete p (cbs w)) d' = awaited (cbs w) d').
    { intros d' Hne. rewrite (awaited_delete _ _ _ d' Hcp), decide_False; [done | congruence]. }
    destruct Hcase as [(Hn & Ep & Et & En) | (Hn0 & Hn1 & Ep & Et & En)]; split; try done.
    + rewrite Et, En, Hre. by apply sources_async.
    + rewrite Hcbs, Ep, Hpd. intros d' x [Hne Hx]%lookup_delete_Some. rewrite Hoth by done. by apply H5.
    + rewrite Hcbs, Ep, Hpd. intros q d' Hq. destruct (decide (d' = d)) as [-> |].
      * apply awaited_pos in Hq. lia.
      * rewrite lookup_delete_ne by done. apply lookup_delete_Some in Hq as [_ Hq]. by eapply H6.
    + apply (removed_asked asked w2 w' d y); [done | done | by rewrite Hpd | done | by left].
    + rewrite Et, En, Hre. done.
    + rewrite Hcbs, Ep, Hpd. intros d' x. rewrite lookup_insert_Some. intros [[<- <-] | [Hne Hx]]; cbn.
      * rewrite Haw. lia.
      * rewrite Hoth by done. by apply H5.
    + rewrite Hcbs, Ep, Hpd. intros q d' [_ Hq]%lookup_delete_Some. rewrite lookup_insert_is_Some'. right. by eapply H6.
    + apply (removed_asked asked w2 w' d y); [done | done | by rewrite Hpd | done | by right].
  - destruct Hcase as (Ep & Et & En). split; try done.
    + by rewrite Et, En, Hre.
    + rewrite Hcbs, Ep, Hpd. intros d x Hx. rewrite (awaited_delete _ _ _ d Hcp), decide_False by done. by apply H5.
    + rewrite Hcbs, Ep, Hpd. intros q d [_ Hq]%lookup_delete_Some. by eapply H6.
    + by rewrite Hpr', Et, Ep.
Qed.

Lemma global_free p : keeps global (refresh_free p).
Proof.
  intros w x w' H. unfold refresh_free in H. rewrite bind_upd in H. set (w0 := w <| refresh_list := _ |>) in H.
  apply st_bind_inv in H as (u1 & w1 & Hd1 & H). apply st_bind_inv in H as (u2 & w2 & Hd2 & H).
  pose proof (local_destroy_timer p _ _ _ Hd1) as [_ L1 _ _ _ _]. pose proof (local_destroy_tick p _ _ _ Hd2) as [_ L2 _ _ _ _].
  apply destroy_timer_inv in Hd1 as (r & Hr & Et1 & Er1 & El1 & Ed1 & En1 & Ep1). cbn in Hr, Et1, Er1, El1, Ed1, En1, Ep1.
  apply destroy_tick_inv in Hd2 as (r1 & Hr1 & Et2 & Er2 & El2 & Ed2 & En2 & Ep2).
  rewrite Er1, lookup_insert_eq in Hr1. injection Hr1 as <-.
  apply st_bind_inv in H as (r2 & w3 & [Hr2 ->]%refresh_at_inv & H).
  assert (r2 = r <| timer_source := None |> <| tick_source := None |>) as -> by (rewrite Er2, lookup_insert_eq in Hr2; congruence).
  apply st_bind_inv in H as (u3 & w3 & Hcb & [_ ->]%st_upd_inv).
  assert (Hdel : delete p (refreshes w2) = delete p (refreshes w)) by by rewrite Er2, Er1, !delete_insert_eq.
  assert (Hlater : later w w2) by (eapply later_trans; [exact (conj (proj1 L1) (proj2 L1)) | exact L2]).
  cbn in Hcb. split.
  - intros asked Hok.
    destruct (sources_without _ _ _ p r (r <| timer_source := None |>) (timer_source r) (ro_sources _ _ _ Hok) Hr) as [S1 P1]; [by left |].
    destruct (sources_without _ _ _ p (r <| timer_source := None |>) (r <| timer_source := None |> <| tick_source := None |>) (tick_source r) S1) as [S2 P2];
      [apply lookup_insert_eq | by right |].
    eapply (refresh_ok_freed asked w w2 _ p r _ Hok Hr); [by rewrite Et2, En2, Er2, Et1, En1, Er1 | by rewrite Et2, Et1, <- P1, <- P2 | exact Hr2 | done | done | exact Hdel | by rewrite Ed2 | by rewrite Ep2 | | | | ].
    all: destruct (destroy_cb r) as [d |]; [apply on_removed_inv in Hcb as (y & Hy & F1 & F2 & F3 & F4) | apply st_ret_inv in Hcb as [_ ->]].
    all: cbn; rewrite ?F1, ?F2, ?F3, ?El2, ?El1; try done.
    exists y. by split.
  - destruct Hlater as [H1 H2]. destruct (destroy_cb r) as [d |]; [| by apply st_ret_inv in Hcb as [_ ->]].
    apply on_removed_inv in Hcb as (y & Hy & _ & _ & _ & [(_ & _ & F1 & F2) | (_ & _ & _ & F1 & F2)]); unfold later; cbn; rewrite F1, F2.
    + split; [lia |]. intros id Hid. rewrite lookup_insert_ne by lia. by apply H2.
    + done.
Qed.

(** ** The callbacks and the responses *)

#[local] Hint Resolve global_free : keeps.
#[local] Hint Extern 5 (keeps global _) =>
  apply keeps_global; first [apply local_destroy_tick | apply local_refresh_timer | apply local_retransmit
    | apply local_tick | apply local_refresh_at | apply local_add_timer | apply local_await; (by left) || (by right)] : keeps.
Ltac global_steps := repeat (keeps_step; try apply _); auto with keeps.
Ltac global_field := apply keeps_global; local_field.

Lemma global_abandon p : keeps global (abandon p).
Proof. unfold abandon. global_steps. global_field. Qed.
#[local] Hint Resolve global_abandon : keeps.
Lemma global_retransmission p : keeps global (priv_turn_allocate_refresh_retransmissions_tick_agent_locked p).
Proof. unfold priv_turn_allocate_refresh_retransmissions_tick_agent_locked. global_steps. Qed.
Lemma global_remove_timeout p : keeps global (on_refresh_remove_timeout p).
Proof. unfold on_refresh_remove_timeout. global_steps. Qed.
Lemma global_prune_candidate c l : keeps global (prune_candidate_loop c l).
Proof. induction l as [| p l IH]; cbn [prune_candidate_loop]; global_steps. Qed.
Lemma global_walk_on p : keeps global (walk_on p).
Proof. unfold walk_on. global_steps. Qed.
Lemma global_reply p m resp : keeps global (relay_refresh_reply p m resp).
Proof. unfold relay_refresh_reply. global_steps. global_field. Qed.
#[local] Hint Resolve global_walk_on global_reply : keeps.
Lemma global_refresh_loop id resp l : keeps global (relay_refresh_loop id resp l).
Proof. induction l as [| p l IH]; cbn [relay_refresh_loop]; global_steps. Qed.
Lemma global_remove_loop id resp l : keeps global (relay_remove_loop id resp l).
Proof. induction l as [| p l IH]; cbn [relay_remove_loop]; global_steps. Qed.

Lemma sources_new t n rs p r : sources_ok t n rs → rs !! p = None → timer_source r = None → tick_source r = None →
  sources_ok t n (<[p := r]> rs).
Proof.
  intros [S1 S2 S3 S4] Hp Ht Hk. split; [done | | |].
  - intros id s i H. specialize (S2 id s i H). destruct s as [q | q | q | cb]; [.. | done]; destruct S2 as (r1 & Hq & E);
      exists r1; (rewrite lookup_insert_ne; [done |]); intros <-; congruence.
  - intros q s id. rewrite lookup_insert_Some. intros [[<- <-] | [_ Hq]]; [congruence | by eapply S3].
  - intros q s id. rewrite lookup_insert_Some. intros [[<- <-] | [_ Hq]]; [congruence | by eapply S4].
Qed.

Lemma global_add nicesock server sid cid agent resp c turn lifetime :
  keeps global (priv_add_new_turn_refresh nicesock server sid cid agent resp c turn lifetime).
Proof.
  intros w p w' H. unfold priv_add_new_turn_refresh in H. rewrite bind_get, bind_put, bind_upd in H.
  set (q := fresh (dom (refreshes w))) in *. set (r := Build_CandidateRefresh _ _ _ _ _ _ _ _ _ _ _ _ _ _) in H.
  set (w1 := w <| refreshes := _ |> <| refresh_list := _ |>) in H.
  apply st_bind_inv in H as (x & w2 & Hadd & [_ ->]%st_ret_inv). apply (local_add_timer _ _ w1) in Hadd.
  transitivity w1; [| by apply local_global].
  assert (Hq : refreshes w !! q = None) by (apply not_elem_of_dom, is_fresh).
  assert (Hcbs : cbs w1 = <[q := None]> (cbs w)) by (unfold cbs; cbn; by rewrite fmap_insert).
  assert (Hqc : cbs w !! q = None) by (unfold cbs; by rewrite lookup_fmap, Hq).
  split; [| split; [done | by right]].
  intros asked [H1 H2 H3 H4 H5 H6 H7]. split; rewrite ?Hcbs; cbn; try done.
  - apply NoDup_app. split_and!; [done | | apply NoDup_singleton].
    intros y Hy ->%list_elem_of_singleton. apply H2 in Hy as [? ?]. congruence.
  - intros y. rewrite elem_of_app, list_elem_of_singleton, H2, lookup_insert_is_Some'. split; [intros [? | ->] | intros [<- | ?]]; auto.
  - by apply sources_new.
  - intros y s. rewrite lookup_insert_Some. intros [[<- <-] | [_ Hy]]; [done | by apply (H4 y)].
  - intros d x' Hx. rewrite awaited_new by done. by apply H5.
  - intros y d. rewrite lookup_insert_Some. intros [[_ ?] | [_ Hy]]; [done | by eapply H6].
Qed.

Lemma sources_delete t n rs id : sources_ok t n rs → sources_ok (delete id t) n rs.
Proof.
  intros [S1 S2 S3 S4]. split.
  - intros i x [_ H]%lookup_delete_Some. by eapply S1.
  - intros i s j [_ H]%lookup_delete_Some. by apply (S2 i s j).
  - intros q s i Hq E. destruct (S3 q s i Hq E) as [H1 H2]. split; [done |]. intros x [_ H]%lookup_delete_Some. by apply H2.
  - intros q s i Hq E. destruct (S4 q s i Hq E) as [H1 H2]. split; [done |]. intros x [_ H]%lookup_delete_Some. by apply H2.
Qed.
(** A source that is not one of a prune ends. *)
Lemma refresh_ok_end asked w id : refresh_ok None asked w → (∀ x, timeouts w !! id = Some x → async_of x = None) →
  refresh_ok None asked (w <| timeouts := delete id (timeouts w) |>).
Proof.
  intros [H1 H2 H3 H4 H5 H6 H7] Hid. split; cbn; try done; [by apply sources_delete |]. by rewrite (scheduled_drop _ _ Hid).
Qed.

Lemma refresh_ok_dispatch asked id w x w' : refresh_ok None asked w → dispatch_source id w = Done (x, w') →
  refresh_ok None asked w'.
Proof.
  intros Hok H. unfold dispatch_source in H. rewrite bind_get in H.
  destruct (timeouts w !! id) as [[s i] |] eqn:Hid; [| by apply st_ret_inv in H as [_ ->]].
  apply st_bind_inv in H as (y & w1 & Hrun & [_ ->]%st_upd_inv).
  assert (Hold := so_old _ _ _ (ro_sources _ _ _ Hok) id _ Hid).
  assert (keeps global (run_source s) → async_of (s, i) = None → refresh_ok None asked (w1 <| timeouts := delete id (timeouts w1) |>)) as Hgo.
  { intros Hg Hs. destruct (Hg _ _ _ Hrun) as [G1 [_ G2]]. apply refresh_ok_end; [by apply G1 |].
    intros z Hz. destruct (G2 id Hold) as [E | E]; congruence. }
  destruct s as [p | p | p | cb].
  - apply Hgo; [apply keeps_global, local_tick | done].
  - apply Hgo; [apply global_retransmission | done].
  - apply Hgo; [apply global_remove_timeout | done].
  - apply st_upd_inv in Hrun as [_ ->]. destruct Hok as [H1 H2 H3 H4 H5 H6 H7]. split; cbn; try done; [by apply sources_delete |].
    rewrite H7, (scheduled_delete _ _ _ Hid). cbn. by rewrite (Permutation_middle (pruned w)).
Qed.

(** ** A prune *)

Lemma awaited_size w d : (awaited (cbs w) d ≤ size (refreshes w))%nat.
Proof. unfold awaited, cbs. etransitivity; [apply map_size_filter |]. by rewrite map_size_fmap. Qed.
Lemma size_cbs w w' : cbs w' = cbs w → size (refreshes w') = size (refreshes w).
Proof.
  intros H%(f_equal size). unfold cbs in H. by rewrite !map_size_fmap in H.
Qed.

(** The callback of a refresh that had none is set. *)
Lemma refresh_ok_set_cb asked w p r d : refresh_ok (Some (d, 0)) asked w → refreshes w !! p = Some r →
  destroy_cb r = None → disposing r = true → is_Some (prune_data w !! d) →
  refresh_ok (Some (d, 1)) asked (w <| refreshes := <[p := r <| destroy_cb := Some d |>]> (refreshes w) |>).
Proof.
  intros [H1 H2 H3 H4 H5 H6 H7] Hr Hn Hdis Hd. set (w' := w <| refreshes := _ |>).
  assert (Hcbs : cbs w' = <[p := Some d]> (cbs w)) by (unfold cbs; cbn; by rewrite fmap_insert).
  assert (Hp : cbs w !! p = Some None) by (unfold cbs; by rewrite lookup_fmap, Hr, <- Hn).
  split; rewrite ?Hcbs; cbn; try done.
  - intros q. etransitivity; [apply H2 |]. rewrite lookup_insert_is_Some'. split; [by right |]. by intros [<- | ?]; [exists None |].
  - by apply (sources_same_slots _ _ _ p r).
  - intros q s. rewrite lookup_insert_Some. intros [[<- <-] | [_ Hq]]; [cbn; congruence | by apply (H4 q)].
  - intros d' x Hx. specialize (H5 d' x Hx). cbn in H5. rewrite (awaited_insert _ _ _ d' Hp). destruct (decide (d' = d)) as [-> |].
    + rewrite decide_True by done. lia.
    + rewrite decide_False by congruence. done.
  - intros q d'. rewrite lookup_insert_Some. intros [[_ [= <-]] | [_ Hq]]; [done | by eapply H6].
Qed.

Lemma remove_async_ok asked p d b w w' : refresh_ok (Some (d, 0)) asked w → is_Some (prune_data w !! d) →
  refresh_remove_async p d w = Done (b, w') →
  refresh_ok (Some (d, if b then 1 else 0)) asked w' ∧ prune_data w' = prune_data w ∧ size (refreshes w') = size (refreshes w).
Proof.
  intros Hok Hd H. unfold refresh_remove_async in H. apply st_bind_inv in H as (r & w0 & [Hr ->]%refresh_at_inv & H).
  destruct (disposing r) eqn:Hdis; [by apply st_ret_inv in H as [-> ->] |].
  apply st_bind_inv in H as (x1 & w1 & Hu & H). apply st_bind_inv in H as (x2 & w2 & H2 & H).
  apply st_bind_inv in H as (len & w3 & H3 & H). apply st_bind_inv in H as (x4 & w4 & H4 & H).
  apply st_bind_inv in H as (x5 & w5 & (r4 & Hr4 & ->)%upd_refresh_inv & [-> ->]%st_ret_inv).
  assert (Hl : local w w1) by (eapply local_fields, Hu; by intros).
  apply upd_refresh_inv in Hu as (r' & Hr' & ->). assert (r' = r) as -> by congruence.
  apply local_destroy_timer in H2. apply local_create in H3.
  assert (local w3 w4) as H4l.
  { revert H4. apply keeps_when; [apply _ |]. local_steps. apply local_await. by right. }
  assert (Hl2 : local (w <| refreshes := <[p := r <| disposing := true |>]> (refreshes w) |>) w4) by (etransitivity; [exact H2 | by etransitivity]).
  assert (Hl4 : local w w4) by (by etransitivity). destruct Hl4 as [Lok _ Lc Ld _ _].
  assert (Hcb4 : destroy_cb r4 = None).
  { assert (cbs w4 !! p = cbs w !! p) as E by by rewrite Lc. unfold cbs in E. rewrite !lookup_fmap, Hr, Hr4 in E. cbn in E.
    rewrite (ro_disposing _ _ _ Hok p r Hr Hdis) in E. congruence. }
  assert (Hd4 : disposing r4 = true).
  { eapply (lo_disposing _ _ Hl2 p); [cbn; apply lookup_insert_eq | exact Hr4 | done]. }
  split_and!.
  - apply refresh_ok_set_cb; [by apply Lok | done.. | by rewrite Ld].
  - done.
  - cbn. rewrite map_size_insert_Some by eauto. by apply size_cbs.
Qed.

Lemma remove_all_ok asked l d x : ∀ w w', refresh_ok (Some (d, 0)) asked w → is_Some (prune_data w !! d) →
  Z.of_nat (size (refreshes w)) < 2 ^ 32 → remove_all l d w = Done (x, w') →
  refresh_ok (Some (d, 0)) asked w'.
Proof.
  induction l as [| p l IH]; cbn [remove_all]; intros w w' Hok Hd Hsz H; [by apply st_ret_inv in H as [_ ->] |].
  apply st_bind_inv in H as (b & w1 & H1 & H).
  destruct (remove_async_ok asked p d b w w1 Hok Hd H1) as (Hok1 & Hpd1 & Hsz1). rewrite <- Hpd1 in Hd. rewrite <- Hsz1 in Hsz.
  apply st_bind_inv in H as (y & w2 & H2 & H). destruct b; [| apply st_ret_inv in H2 as [_ ->]; by eapply IH].
  cbn [when] in H2. rewrite bind_get in H2. destruct (prune_data w1 !! d) as [z |] eqn:Hz; [| done]. apply st_put_inv in H2 as [_ ->].
  eapply IH, H; [| cbn; by rewrite lookup_insert_eq | done].
  pose proof (awaited_size w1 d) as Hle. destruct Hok1 as [K1 K2 K3 K4 K5 K6 K7].
  pose proof (K5 d z Hz) as Hcount. cbn in Hcount. rewrite decide_True in Hcount by done.
  assert (Hu : u32 (items_to_free z + 1) = items_to_free z + 1) by (apply Z.mod_small; lia). rewrite Hu.
  split; cbn; try done.
  - intros d' y'. rewrite lookup_insert_Some. intros [[<- <-] | [Hne Hy]]; cbn.
    + rewrite decide_True by done. change (cbs _) with (cbs w1). lia.
    + specialize (K5 d' y' Hy). cbn in K5. by rewrite decide_False in K5 |- * by done.
  - intros q d' Hq. rewrite lookup_insert_is_Some'. right. by eapply K6.
  - by rewrite waiting_same.
Qed.

Lemma prune_async_ok asked l fn w x w' : refresh_ok None asked w → Z.of_nat (size (refreshes w)) < 2 ^ 32 →
  refresh_prune_async l fn w = Done (x, w') → refresh_ok None (fn :: asked) w'.
Proof.
  intros Hok Hsz H. unfold refresh_prune_async in H. rewrite bind_get, bind_put in H.
  set (d := fresh (dom (prune_data w))) in *. assert (Hd : prune_data w !! d = None) by (apply not_elem_of_dom, is_fresh).
  set (w1 := w <| prune_data := _ |>) in H. apply st_bind_inv in H as (y & w2 & H1 & H).
  assert (Hok1 : refresh_ok (Some (d, 0)) (fn :: asked) w1).
  { destruct Hok as [K1 K2 K3 K4 K5 K6 K7]. split; cbn; try done.
    - intros d' z. rewrite lookup_insert_Some. intros [[<- <-] | [Hne Hz]]; cbn.
      + rewrite decide_True by done. change (cbs w1) with (cbs w). rewrite awaited_none; [done |].
        intros p Hp. apply K6 in Hp. rewrite Hd in Hp. by destruct Hp.
      + rewrite decide_False by done. by apply K5.
    - intros q d' Hq. rewrite lookup_insert_is_Some'. right. by eapply K6.
    - rewrite waiting_insert by done. cbn. by rewrite K7, <- (Permutation_middle (scheduled _)), <- (Permutation_middle (pruned w)). }
  assert (Hok2 : refresh_ok (Some (d, 0)) (fn :: asked) w2).
  { eapply remove_all_ok, H1; [exact Hok1 | cbn; by rewrite lookup_insert_eq | exact Hsz]. }
  rewrite bind_get in H. destruct (prune_data w2 !! d) as [z |] eqn:Hz; [| done].
  destruct Hok2 as [K1 K2 K3 K4 K5 K6 K7]. pose proof (K5 d z Hz) as Hc. cbn in Hc. rewrite decide_True in Hc by done.
  assert (Hoth : ∀ d' y', prune_data w2 !! d' = Some y' → d' ≠ d →
    items_to_free y' = Z.of_nat (awaited (cbs w2) d') ∧ 0 < items_to_free y').
  { intros d' y' Hy Hne. specialize (K5 d' y' Hy). cbn in K5. by rewrite decide_False in K5 by done. }
  destruct (items_to_free z =? 0) eqn:E.
  - cbn [when] in H. apply on_removed_inv in H as (z' & Hz' & F1 & F2 & F3 & F4). assert (z' = z) as -> by congruence.
    destruct F4 as [(_ & Fp & Ft & Fn) | (? & _)]; [| lia].
    assert (Hcbs : cbs w' = cbs w2) by (unfold cbs; by rewrite F1). split; rewrite ?Hcbs, ?F1, ?F2; try done.
    + rewrite Ft, Fn. by apply sources_async.
    + rewrite Fp. intros d' y' [Hne Hy]%lookup_delete_Some. by apply Hoth.
    + rewrite Fp. intros q d' Hq. destruct (decide (d' = d)) as [-> |]; [apply awaited_pos in Hq; lia |].
      rewrite lookup_delete_ne by done. by eapply K6.
    + apply (removed_asked _ w2 w' d z); [done | intros y' Hy; apply (so_old _ _ _ K3) in Hy; lia | done | done | by left].
  - apply st_ret_inv in H as [_ ->]. split; try done. intros d' y' Hy. destruct (decide (d' = d)) as [-> |]; [| by apply Hoth].
    assert (y' = z) as -> by congruence. lia.
Qed.

Lemma select_inv P l w x w' : select_refreshes P l w = Done (x, w') → w' = w.
Proof.
  revert x w'. induction l as [| p l IH]; cbn [select_refreshes]; intros x w' H; [by apply st_ret_inv in H as [_ ->] |].
  apply st_bind_inv in H as (r & w1 & [_ ->]%refresh_at_inv & H). apply st_bind_inv in H as (rest & w2 & H2 & [_ ->]%st_ret_inv).
  by eapply IH.
Qed.

(** ** Every history *)

(** An agent without relayed candidates, whatever its clock and mode, and what
    it does next; [asked] are the callbacks of the prunes, the newest first. *)
Inductive refresh_reachable : list Z → RefreshWorld → Prop :=
| refresh_start w : refresh_list w = [] → refreshes w = ∅ → prune_data w = ∅ → timeouts w = ∅ → pruned w = [] →
    refresh_reachable [] w
| refresh_clock asked w now : refresh_reachable asked w → refresh_reachable asked (w <| rw_clock := now |>)
| refresh_added asked w nicesock server sid cid agent resp c turn lifetime p w' : refresh_reachable asked w →
    priv_add_new_turn_refresh nicesock server sid cid agent resp c turn lifetime w = Done (p, w') → refresh_reachable asked w'
| refresh_dispatched asked w id x w' : refresh_reachable asked w → dispatch_source id w = Done (x, w') →
    refresh_reachable asked w'
| refresh_replied asked w resp b w' : refresh_reachable asked w → priv_map_reply_to_relay_refresh resp w = Done (b, w') →
    refresh_reachable asked w'
| remove_replied asked w resp b w' : refresh_reachable asked w → priv_map_reply_to_relay_remove resp w = Done (b, w') →
    refresh_reachable asked w'
| candidate_pruned asked w c x w' : refresh_reachable asked w → refresh_prune_candidate c w = Done (x, w') →
    refresh_reachable asked w'
| agent_prune asked w fn x w' : refresh_reachable asked w → zlen (refresh_list w) < 2 ^ 32 →
    refresh_prune_agent_async fn w = Done (x, w') → refresh_reachable (fn :: asked) w'
| stream_prune asked w sid fn x w' : refresh_reachable asked w → zlen (refresh_list w) < 2 ^ 32 →
    refresh_prune_stream_async sid fn w = Done (x, w') → refresh_reachable (fn :: asked) w'
| candidate_prune asked w c fn x w' : refresh_reachable asked w → zlen (refresh_list w) < 2 ^ 32 →
    refresh_prune_candidate_async c fn w = Done (x, w') → refresh_reachable (fn :: asked) w'.

Lemma refresh_ok_size asked w : refresh_ok None asked w → zlen (refresh_list w) < 2 ^ 32 →
  Z.of_nat (size (refreshes w)) < 2 ^ 32.
Proof.
  intros Hok. enough (size (refreshes w) = length (refresh_list w)) as -> by done.
  rewrite <- size_dom, <- (size_list_to_set (C := gset positive) (refresh_list w)) by apply Hok. f_equal. apply set_eq. intros p.
  rewrite elem_of_list_to_set, (ro_live _ _ _ Hok), elem_of_dom. unfold cbs. by rewrite lookup_fmap, fmap_is_Some.
Qed.

Lemma refresh_reachable_ok asked w : refresh_reachable asked w → refresh_ok None asked w.
Proof.
  induction 1 as [w H1 H2 H3 H4 H5 | asked w now _ IH | asked w ns sv sid cid ag rs c tu li p w' _ IH H | asked w id x w' _ IH H
    | asked w resp b w' _ IH H | asked w resp b w' _ IH H | asked w c x w' _ IH H
    | asked w fn x w' _ IH Hl H | asked w sid fn x w' _ IH Hl H | asked w c fn x w' _ IH Hl H].
  - split; unfold cbs; rewrite ?H1, ?H2, ?H3, ?H4, ?H5; cbn.
    + constructor.
    + intros p. rewrite lookup_fmap, lookup_empty. split; [by intros ?%not_elem_of_nil | by intros []].
    + split; intros *; by rewrite lookup_empty.
    + intros p r. by rewrite lookup_empty.
    + intros d x. by rewrite lookup_empty.
    + intros p d. by rewrite lookup_fmap, lookup_empty.
    + done.
  - by destruct IH.
  - by eapply global_add.
  - by eapply refresh_ok_dispatch.
  - apply st_bind_inv in H as (i & w1 & [_ ->]%st_lift_inv & H). rewrite bind_get in H. by eapply global_refresh_loop.
  - apply st_bind_inv in H as (i & w1 & [_ ->]%st_lift_inv & H). rewrite bind_get in H. by eapply global_remove_loop.
  - unfold refresh_prune_candidate in H. rewrite bind_get in H. by eapply global_prune_candidate.
  - unfold refresh_prune_agent_async in H. rewrite bind_get in H. eapply prune_async_ok; [done | by eapply refresh_ok_size | exact H].
  - unfold refresh_prune_stream_async in H. rewrite bind_get in H. apply st_bind_inv in H as (l & w1 & ->%select_inv & H).
    eapply prune_async_ok; [done | by eapply refresh_ok_size | exact H].
  - unfold refresh_prune_candidate_async in H. rewrite bind_get in H. apply st_bind_inv in H as (l & w1 & ->%select_inv & H).
    eapply prune_async_ok; [done | by eapply refresh_ok_size | exact H].
Qed.

(** C15: the prunes of an agent are each answered once, and after their refreshes
    are gone.  In every history of refreshing, releasing and answers of servers,
    the callbacks asked for are those that were called, those that are scheduled
    and those of the prunes that still wait, each once; a prune that waits does
    so for as many refreshes as it counts, and for at least one; none of the
    refreshes of a prune that was answered is left; and every source of the main
    loop that is to run on a refresh runs on one that is still there. *)
Theorem prunes_answered_once asked w (Hw : refresh_reachable asked w) :
  asked ≡ₚ pruned w ++ scheduled (timeouts w) ++ waiting (prune_data w) ∧
  (∀ d x, prune_data w !! d = Some x → items_to_free x = Z.of_nat (awaited (cbs w) d) ∧ 0 < items_to_free x) ∧
  (∀ p r d, refreshes w !! p = Some r → destroy_cb r = Some d → is_Some (prune_data w !! d)) ∧
  (∀ id s i, timeouts w !! id = Some (s, i) → match s with
     | Refresh_tick p | Retransmission_tick p | Remove_timeout p => p ∈ refresh_list w ∧ is_Some (refreshes w !! p)
     | Async_refresh_prune _ => True
     end).
Proof.
  destruct (refresh_reachable_ok asked w Hw) as [H1 H2 H3 H4 H5 H6 H7]. split_and!; try done.
  - intros p r d Hr Hd. apply (H6 p). unfold cbs. by rewrite lookup_fmap, Hr, <- Hd.
  - intros id s i Hs. pose proof (so_live _ _ _ H3 id s i Hs) as Hl.
    assert (Hin : ∀ p r, refreshes w !! p = Some r → p ∈ refresh_list w ∧ is_Some (refreshes w !! p)).
    { intros p r Hr. split; [| eauto]. apply H2. unfold cbs. rewrite lookup_fmap, Hr. eauto. }
    destruct s as [p | p | p | cb]; [.. | done]; destruct Hl as (r & Hr & _); by eapply Hin.
Qed.
End refresh.

(** ** An agent with a relayed candidate *)

Definition relay_world : RefreshWorld :=
  {| rw_compat := NICE_COMPATIBILITY_RFC5245; stun_initial_timeout := 500; rw_max_retransmissions := 7;
     refresh_list := []; refreshes := ∅; prune_data := ∅; timeouts := ∅; next_timeout := 0;
     rw_clock := {| tv_sec := 50; tv_usec := 0 |}; rw_transids := 0; sent := []; pruned := [] |}.
Definition relay_server (user : bytes) : TurnServer :=
  {| turn_server := demo_host 9; turn_username := user; turn_password := [112]; turn_type := NICE_RELAY_TYPE_TURN_UDP |}.

Definition refresh_after {A} (m : st RefreshWorld A) (w : RefreshWorld) : RefreshWorld :=
  match m w with Done (_, w) => w | _ => w end.
Definition relayed (user : bytes) : RefreshWorld :=
  refresh_after (priv_add_new_turn_refresh 1 (demo_host 9) 1 1 demo_sender None 1%positive (relay_server user) 600) relay_world.
(** The stream goes; 7 is the callback. *)
Definition releasing (user : bytes) : RefreshWorld := refresh_after (refresh_prune_stream_async 1 7) (relayed user).
(** Twenty seconds later the newest source is run. *)
Definition fire (w : RefreshWorld) : RefreshWorld :=
  refresh_after (dispatch_source (next_timeout w - 1)) (w <| rw_clock := {| tv_sec := tv_sec (rw_clock w) + 20; tv_usec := 0 |} |>).

Lemma after_run {A} (m : st RefreshWorld A) w : match m w with Done _ => true | _ => false end = true →
  ∃ x, m w = Done (x, refresh_after m w).
Proof. unfold refresh_after. destruct (m w) as [[x w'] | |]; try done. by exists x. Qed.

Lemma releasing_reachable : refresh_reachable [7] (releasing [117]).
Proof.
  destruct (after_run (refresh_prune_stream_async 1 7) (relayed [117])) as [x E]; [by_compute |].
  eapply (stream_prune [] (relayed [117]) 1 7 x); [| by_compute | exact E].
  destruct (after_run (priv_add_new_turn_refresh 1 (demo_host 9) 1 1 demo_sender None 1%positive (relay_server [117]) 600) relay_world)
    as [y F]; [by_compute |].
  eapply (refresh_added [] relay_world); [by apply refresh_start | exact F].
Qed.
Lemma fire_reachable asked w : refresh_reachable asked w →
  match dispatch_source (next_timeout w - 1) (w <| rw_clock := {| tv_sec := tv_sec (rw_clock w) + 20; tv_usec := 0 |} |>) with
  | Done _ => true | _ => false end = true → refresh_reachable asked (fire w).
Proof.
  intros Hw [x E]%after_run. unfold fire. eapply refresh_dispatched, E. by apply refresh_clock.
Qed.
Lemma released_reachable : refresh_reachable [7] (Nat.iter 8 fire (releasing [117])).
Proof. do 8 (apply fire_reachable; [| by_compute]). apply releasing_reachable. Qed.

(** The server is silent: seven requests, and the callback was called. *)
Lemma prunes_answered_once_witness :
  [7] ≡ₚ pruned (Nat.iter 8 fire (releasing [117])) ∧ length (sent (Nat.iter 8 fire (releasing [117]))) = 7%nat.
Proof.
  split; [| by_compute].
  destruct (prunes_answered_once [7] (Nat.iter 8 fire (releasing [117])) released_reachable) as [H _].
  rewrite H. by_compute.
Defined.

(** ** Histories on which the code falls short *)

Definition remaining (w : RefreshWorld) : list positive * list (Z * (refresh_source * Z)) * list Z * list Z :=
  (refresh_list w, map_to_list (timeouts w), waiting (prune_data w), pruned w).

(** A user name too long for the request: no request, no source, and the
    callback is never called. *)
Example release_without_request_hangs :
  remaining (releasing (repeat 117 2000)) = ([1%positive], [], [7], []).
Proof. by_compute. Qed.

(** An agent that is closed while a stream is being removed does not wait for
    the allocations of the stream. *)
Example close_overtakes_removal :
  remaining (refresh_after (refresh_prune_agent_async 8) (releasing [117])) =
    ([1%positive], [(2, (Async_refresh_prune 8, 0)); (1, (Remove_timeout 1, 500))], [7], []).
Proof. by_compute. Qed.

Definition returned {A S} (r : outcome (A * S)) : option A := match r with Done (a, _) => Some a | _ => None end.

(** A server that refuses a refresh: the walk goes on from the node that was
    freed with it. *)
Definition answer (octets : bytes) : StunMessage :=
  {| msg_agent := None; msg_buffer := octets; msg_key := None; msg_long_term_key := []; msg_long_term_valid := false |}.
Definition refreshing : RefreshWorld := refresh_after (dispatch_source 0) (relayed [117]).
Definition response_id : bytes := [0x21; 0x12; 0xa4; 0x42] ++ repeat 0 12.
Example refused_refresh_reads_freed_node :
  priv_map_reply_to_relay_refresh (answer ([1; 0x14; 0; 8] ++ response_id ++ [0; 9; 0; 4; 0; 0; 4; 0])) refreshing = Ub.
Proof. vm_compute. reflexivity. Qed.

(** A success without LIFETIME: the lifetime that is used was never set. *)
Example refresh_without_lifetime :
  priv_map_reply_to_relay_refresh (answer ([1; 4; 0; 0] ++ response_id)) refreshing = Ub ∧
  returned (priv_map_reply_to_relay_refresh (answer ([1; 4; 0; 8] ++ response_id ++ [0; 13; 0; 4; 0; 0; 1; 0])) refreshing) = Some false.
Proof. split; vm_compute; reflexivity. Qed.
