(* ===== verification/IoQueue.v ===== *)
(** * Handing received messages to the application (agent/component.c, agent.c)

    A component hands what it receives to the function the application attached:
    at once in the thread that owns the main context of the component, otherwise
    through a queue that a source of that context empties.  The function runs
    with all locks released, so a history is a list of events: [Dispatch] runs
    emit_io_callback_cb up to the call of the function, [Returns] from there to
    the next call or the end.  nice_agent_recv takes what is left in the queue.
    Messages of the queue live in a store, so that their release is seen. *)

From stdpp Require Import gmap.
From S2P Require Import Prelude Bytes StateMonad NiceAddress NiceSocket.
#[global] Open Scope Z_scope.

(** ** Data *)

(** [buf_len] is the length of [d_buf]. *)
Record IOCallbackData := { d_buf : bytes; d_offset : Z }.
Record NiceInputMessageIter := { it_message : Z; it_buffer : Z; it_offset : Z }.

Inductive io_source := Io_callback | Other_source.
#[export] Instance io_source_eq_dec : EqDecision io_source.
Proof. solve_decision. Defined.
(** Main contexts are numbered, 0 is the default one; the sources that are not
    destroyed, by their ids. *)
Record GMainContext := { next_id : Z; sources : gmap Z io_source }.

(** How the application came by octets: called in the thread that received
    them, called by the source, or through nice_agent_recv. *)
Inductive handover := Direct (f : Z) (b : bytes) | Deferred (f : Z) (b : bytes) | Read (b : bytes).

(** A run of emit_io_callback_cb that waits for the function to return: its
    context and source, and the message it passed. *)
Record io_call := { call_context : Z; call_source : Z; call_data : positive }.
#[export] Instance io_call_eq_dec : EqDecision io_call.
Proof. solve_decision. Defined.

(** A function and its user data are one number.  [gone]: the component was
    closed and freed.  [handed] is a log, the oldest first. *)
Record IoWorld := {
  contexts : gmap Z GMainContext;
  ctx : Z;
  own_ctx : Z;
  io_callback : option Z;
  io_recv_messages : option (list NiceInputMessage);
  recv_messages_iter : NiceInputMessageIter;
  pending_io_messages : list positive;
  io_callback_id : Z;
  io_data : gmap positive IOCallbackData;
  io_next : positive;
  gone : bool;
  running : list io_call;
  handed : list handover
}.
Definition eta_IoWorld (w : IoWorld) : IoWorld :=
  Build_IoWorld (contexts w) (ctx w) (own_ctx w) (io_callback w) (io_recv_messages w) (recv_messages_iter w)
    (pending_io_messages w) (io_callback_id w) (io_data w) (io_next w) (gone w) (running w) (handed w).
#[export] Instance set_contexts : Setter contexts := ltac:(derive_setter eta_IoWorld contexts).
#[export] Instance set_ctx : Setter ctx := ltac:(derive_setter eta_IoWorld ctx).
#[export] Instance set_io_callback : Setter io_callback := ltac:(derive_setter eta_IoWorld io_callback).
#[export] Instance set_io_recv_messages : Setter io_recv_messages := ltac:(derive_setter eta_IoWorld io_recv_messages).
#[export] Instance set_recv_messages_iter : Setter recv_messages_iter := ltac:(derive_setter eta_IoWorld recv_messages_iter).
#[export] Instance set_pending_io_messages : Setter pending_io_messages := ltac:(derive_setter eta_IoWorld pending_io_messages).
#[export] Instance set_io_callback_id : Setter io_callback_id := ltac:(derive_setter eta_IoWorld io_callback_id).
#[export] Instance set_io_data : Setter io_data := ltac:(derive_setter eta_IoWorld io_data).
#[export] Instance set_io_next : Setter io_next := ltac:(derive_setter eta_IoWorld io_next).
#[export] Instance set_gone : Setter gone := ltac:(derive_setter eta_IoWorld gone).
#[export] Instance set_running : Setter running := ltac:(derive_setter eta_IoWorld running).
#[export] Instance set_handed : Setter handed := ltac:(derive_setter eta_IoWorld handed).

Abbreviation M := (st IoWorld).

(** Log what the application gets. *)
Definition hand (h : handover) : M unit := upd handed (λ l, l ++ [h]).

(** ** The iterator of a receive *)

Definition iter_start : NiceInputMessageIter := {| it_message := 0; it_buffer := 0; it_offset := 0 |}.
Definition nice_input_message_iter_reset : M unit := put recv_messages_iter iter_start.
Definition nice_input_message_iter_is_at_end (iter : NiceInputMessageIter) (n_messages : Z) : bool :=
  (it_message iter =? n_messages) && (it_buffer iter =? 0) && (it_offset iter =? 0).
Definition nice_input_message_iter_get_n_valid_messages (iter : NiceInputMessageIter) : Z :=
  if (it_buffer iter =? 0) && (it_offset iter =? 0) then it_message iter else it_message iter + 1.
Definition nice_input_message_iter_compare (a b : NiceInputMessageIter) : bool :=
  (it_message a =? it_message b) && (it_buffer a =? it_buffer b) && (it_offset a =? it_offset b).

(** ** Sources (GLib) *)

Definition context_at (c : Z) : M GMainContext := λ w,
  match contexts w !! c with Some x => Done (x, w) | None => Ub end.

(** [g_source_attach]: a new source of the context [c]. *)
Definition g_source_attach (s : io_source) (c : Z) : M Z :=
  x ← context_at c;
  _ ← upd contexts (insert c {| next_id := next_id x + 1; sources := <[next_id x := s]> (sources x) |});
  mret (next_id x).
(** [g_source_destroy] of a source of the context [c]. *)
Definition g_source_destroy (c id : Z) : M unit :=
  x ← context_at c;
  upd contexts (insert c {| next_id := next_id x; sources := delete id (sources x) |}).
(** The source with this id of the default context. *)
Definition g_source_remove (tag : Z) : M unit := g_source_destroy 0 tag.

(** ** The queue *)

Definition data_at (p : positive) : M IOCallbackData := λ w,
  match io_data w !! p with Some d => Done (d, w) | None => Ub end.

Definition io_callback_data_new (buf : bytes) : M positive :=
  p ← get io_next;
  _ ← put io_next (Pos.succ p);
  _ ← upd io_data (insert p {| d_buf := buf; d_offset := 0 |});
  mret p.
Definition io_callback_data_free (p : positive) : M unit :=
  _ ← data_at p;
  upd io_data (delete p).

Definition nice_component_schedule_io_callback : M unit :=
  id ← get io_callback_id;
  q ← get pending_io_messages;
  if negb (id =? 0) || bool_decide (q = []) then mret tt
  else
    c ← get ctx;
    id ← g_source_attach Io_callback c;
    put io_callback_id id.
Definition nice_component_deschedule_io_callback : M unit :=
  id ← get io_callback_id;
  if id =? 0 then mret tt
  else
    _ ← g_source_remove id;
    put io_callback_id 0.

(** [None]: the context of the component's own.  The sources of the sockets,
    which move to the new context, are not part of this state. *)
Definition nice_component_set_io_context (context : option Z) : M unit :=
  c ← get ctx;
  if bool_decide (context = Some c) then mret tt
  else
    own ← get own_ctx;
    put ctx (default own context).

Definition nice_component_set_io_callback (func : option Z) (recv_messages : option (list NiceInputMessage)) : M unit :=
  _ ← assert_st (negb (bool_decide (is_Some func)) || negb (bool_decide (is_Some recv_messages)));
  _ ← match func with
      | Some f =>
          _ ← put io_callback (Some f);
          _ ← put io_recv_messages None;
          nice_component_schedule_io_callback
      | None =>
          _ ← put io_callback None;
          _ ← put io_recv_messages recv_messages;
          nice_component_deschedule_io_callback
      end;
  nice_input_message_iter_reset.

Definition nice_component_has_io_callback : M bool :=
  f ← get io_callback;
  mret (bool_decide (is_Some f)).

(** [owner]: the calling thread owns the context of the component. *)
Definition nice_component_emit_io_callback (buf : bytes) (owner : bool) : M unit :=
  _ ← assert_st (0 <? zlen buf);
  f ← get io_callback;
  match f with
  | None => mret tt
  | Some f =>
      if owner then hand (Direct f buf)
      else
        data ← io_callback_data_new buf;
        _ ← upd pending_io_messages (λ q, q ++ [data]);
        nice_component_schedule_io_callback
  end.

(** ** The source *)

(** The octets of a message that were not passed on yet. *)
Definition unread (d : IOCallbackData) : bytes := drop (Z.to_nat (d_offset d)) (d_buf d).

(** G_SOURCE_REMOVE: the main loop destroys the source. *)
Definition source_ends (c id : Z) : M unit := g_source_destroy c id.

(** One turn of the loop of [emit_io_callback_cb], up to the call. *)
Definition emit_loop (c id : Z) : M unit :=
  f ← get io_callback;
  q ← get pending_io_messages;
  match q, f with
  | data :: _, Some f =>
      d ← data_at data;
      _ ← hand (Deferred f (unread d));
      upd running (cons {| call_context := c; call_source := id; call_data := data |})
  | _, _ =>
      _ ← put io_callback_id 0;
      source_ends c id
  end.
(** The component itself is read first; its agent lives as long as it does. *)
Definition emit_io_callback_cb (c id : Z) : M unit :=
  g ← get gone;
  if g : bool then ub else emit_loop c id.
(** The rest of a turn, after the function returned. *)
Definition io_callback_returns (k : io_call) : M unit :=
  _ ← upd running (λ l, filter (λ k', k' ≠ k) l);
  g ← get gone;
  if g : bool then source_ends (call_context k) (call_source k)
  else
    _ ← upd pending_io_messages tail;
    _ ← io_callback_data_free (call_data k);
    emit_loop (call_context k) (call_source k).

(** ** Receiving without a function *)

(** The loop over one vector: what is copied, and the message after it. *)
Fixpoint fill_vector (fuel : nat) (buffer : GInputVector) (offset : Z) (data : IOCallbackData)
  : outcome (GInputVector * IOCallbackData * Z) :=
  match fuel with
  | O => Oof
  | S fuel =>
      let len := Z.min (zlen (d_buf data) - d_offset data) (iv_size buffer - offset) in
      bs ← slice (d_buf data) (d_offset data) len;
      b ← store (iv_buffer buffer) offset bs;
      let buffer := {| iv_buffer := b; iv_size := iv_size buffer |} in
      let data := {| d_buf := d_buf data; d_offset := d_offset data + len |} in
      if offset + len <? iv_size buffer then
        '(buffer, data, n) ← fill_vector fuel buffer (offset + len) data;
        mret (buffer, data, len + n)
      else mret (buffer, data, len)
  end.
(** The loop over the vectors from [iter->buffer] on. *)
Fixpoint fill_message (fuel : nat) (vs : list GInputVector) (offset : Z) (data : IOCallbackData)
  : outcome (list GInputVector * IOCallbackData * Z) :=
  match vs with
  | [] => mret ([], data, 0)
  | v :: vs =>
      '(v, data, n) ← fill_vector fuel v offset data;
      '(vs, data, m) ← fill_message fuel vs 0 data;
      mret (v :: vs, data, n + m)
  end.

Definition message_at (ms : option (list NiceInputMessage)) (i : Z) : outcome NiceInputMessage :=
  match ms ≫= λ ms, ms !! Z.to_nat i with Some m => Done m | None => Ub end.

Definition pending_io_messages_recv_messages (fuel : nat) (reliable : bool) : M Z :=
  id ← get io_callback_id;
  _ ← assert_st (id =? 0);
  q ← get pending_io_messages;
  _ ← match q with
      | [] => mret tt
      | p :: _ =>
          data ← data_at p;
          ms ← get io_recv_messages;
          iter ← get recv_messages_iter;
          m ← lift (message_at ms (it_message iter));
          let length := if (it_buffer iter =? 0) && (it_offset iter =? 0) then 0 else im_length m in
          let k := Z.to_nat (it_buffer iter) in
          let vs := drop k (im_buffers m) in
          '(vs', data', n) ← lift (fill_message fuel vs (it_offset iter) data);
          let m' := {| im_buffers := take k (im_buffers m) ++ vs'; im_from := im_from m; im_length := length + n |} in
          _ ← upd io_recv_messages (fmap (insert (Z.to_nat (it_message iter)) m'));
          _ ← put recv_messages_iter {| it_message := it_message iter; it_buffer := Z.max (it_buffer iter) (zlen (im_buffers m));
                it_offset := match vs with [] => it_offset iter | _ => 0 end |};
          _ ← upd io_data (insert p data');
          if d_offset data' =? zlen (d_buf data') then
            _ ← upd pending_io_messages tail;
            _ ← io_callback_data_free p;
            _ ← hand (Read (d_buf data'));
            when (negb reliable)
              (put recv_messages_iter {| it_message := it_message iter + 1; it_buffer := 0; it_offset := 0 |})
          else mret tt
      end;
  iter ← get recv_messages_iter;
  mret (nice_input_message_iter_get_n_valid_messages iter).

(** [while (!received_enough && !g_queue_is_empty (...))] *)
Fixpoint recv_pending (fuel : nat) (reliable : bool) : M bool :=
  match fuel with
  | O => oof
  | S fuel =>
      q ← get pending_io_messages;
      if bool_decide (q = []) then mret false
      else
        _ ← pending_io_messages_recv_messages (S fuel) reliable;
        iter ← get recv_messages_iter;
        ms ← get io_recv_messages;
        if nice_input_message_iter_is_at_end iter (zlen (default [] ms)) then mret true
        else recv_pending fuel reliable
  end.

(** nice_agent_recv_messages, from where the component is found to the sockets:
    whether the messages are full. *)
Definition recv_begins (fuel : nat) (reliable : bool) (messages : list NiceInputMessage) : M bool :=
  ms ← get io_recv_messages;
  _ ← assert_st (negb (bool_decide (is_Some ms)));
  _ ← nice_component_set_io_callback None (Some messages);
  recv_pending fuel reliable.
(** The end of the same function. *)
Definition recv_ends : M unit := nice_component_set_io_callback None None.

(** nice_agent_attach_recv on a component that was found; [None]: the default
    context.  What a pseudo-TCP socket then hands over are events of their own. *)
Definition attach_recv (context : option Z) (func : option Z) : M unit :=
  _ ← nice_component_set_io_context (Some (default 0 context));
  nice_component_set_io_callback func None.

(** ** The end of a component: nice_component_close and the queue *)

Fixpoint free_pending (q : list positive) : M unit :=
  match q with
  | [] => mret tt
  | p :: q => _ ← put pending_io_messages q; _ ← io_callback_data_free p; free_pending q
  end.
Definition close_queue : M unit :=
  q ← get pending_io_messages;
  _ ← free_pending q;
  nice_component_deschedule_io_callback.

(** ** Histories *)

Inductive io_event :=
| Emit (buf : bytes) (owner : bool)
| Attach (context func : option Z)
| Recv_begins (fuel : nat) (reliable : bool) (messages : list NiceInputMessage)
| Recv_ends
| Dispatch (c id : Z)
| Returns (k : io_call)
| Removed.

(** A source that is being dispatched is blocked. *)
Definition can_dispatch (w : IoWorld) (c id : Z) : bool :=
  bool_decide ((contexts w !! c ≫= λ x, sources x !! id) = Some Io_callback) &&
  forallb (λ k, negb ((call_context k =? c) && (call_source k =? id))) (running w).

Definition io_step (e : io_event) : M unit := λ w,
  match e with
  | Emit buf owner => nice_component_emit_io_callback buf owner w
  | Attach c f => attach_recv c f w
  | Recv_begins fuel reliable ms => (_ ← recv_begins fuel reliable ms; mret tt) w
  | Recv_ends => recv_ends w
  | Dispatch c id => when (can_dispatch w c id) (emit_io_callback_cb c id) w
  | Returns k => when (bool_decide (k ∈ running w)) (io_callback_returns k) w
  | Removed => (_ ← close_queue; put gone true) w
  end.
Fixpoint io_run (es : list io_event) : M unit :=
  match es with [] => mret tt | e :: es => _ ← io_step e; io_run es end.

(** nice_component_init: the own context has one source, which stops the
    component. *)
Definition io_init (contexts : gmap Z GMainContext) (own : Z) : IoWorld :=
  {| contexts := <[own := {| next_id := 2; sources := {[1 := Other_source]} |}]> contexts; ctx := own; own_ctx := own;
     io_callback := None; io_recv_messages := None; recv_messages_iter := iter_start; pending_io_messages := [];
     io_callback_id := 0; io_data := ∅; io_next := 1; gone := false; running := []; handed := [] |}.
