(* ===== verification/IoQueueFacts.v ===== *)
(** * Received messages reach the application once and in order

    Which calls of nice_agent_recv with messages left in the queue return, what
    they return, and what a history hands over: every message, in order, once.
    The histories at the end show what goes wrong outside these conditions. *)

From stdpp Require Import gmap.
From S2P Require Import Prelude Bytes StateMonad NiceAddress NiceSocket IoQueue.
#[global] Open Scope Z_scope.

(** ** Filling the vectors of a message *)

Definition vector_ok (v : GInputVector) : Prop := zlen (iv_buffer v) = iv_size v.
Definition message_ok (m : NiceInputMessage) : Prop := Forall vector_ok (im_buffers m).
Definition octets (m : NiceInputMessage) : bytes := concat (map iv_buffer (im_buffers m)).
Definition left_over (d : IOCallbackData) : Z := zlen (d_buf d) - d_offset d.
Definition advance (d : IOCallbackData) (n : Z) : IOCallbackData := {| d_buf := d_buf d; d_offset := d_offset d + n |}.

Lemma zlen_unread d : 0 ≤ d_offset d → 0 ≤ left_over d → zlen (unread d) = left_over d.
Proof. unfold unread, left_over. intros. apply zlen_drop. lia. Qed.
Lemma unread_advance d n : 0 ≤ d_offset d → 0 ≤ n → unread (advance d n) = drop (Z.to_nat n) (unread d).
Proof. intros. unfold unread, advance. cbn. rewrite drop_drop. f_equal. lia. Qed.
Lemma advance_advance d n m : advance (advance d n) m = advance d (n + m).
Proof. unfold advance. cbn. f_equal. lia. Qed.
Lemma vectors_nonneg vs : Forall vector_ok vs → 0 ≤ sizes (map iv_size vs).
Proof. induction 1 as [| v vs Hv _ IH]; cbn; [lia |]. pose proof (zlen_nonneg (iv_buffer v)). unfold vector_ok in Hv. lia. Qed.

Lemma slice_run {A} (m : list A) i n : 0 ≤ i → 0 ≤ n → i + n ≤ zlen m →
  slice m i n = Done (take (Z.to_nat n) (drop (Z.to_nat i) m)).
Proof. intros. unfold slice. repeat (rewrite (proj2 (Z.leb_le _ _)) by lia). done. Qed.
Lemma store_run {A} (m bs : list A) i : 0 ≤ i → i + zlen bs ≤ zlen m →
  store m i bs = Done (take (Z.to_nat i) m ++ bs ++ drop (Z.to_nat (i + zlen bs)) m).
Proof. intros. unfold store. repeat (rewrite (proj2 (Z.leb_le _ _)) by lia). done. Qed.
Lemma store_all {A} (m bs : list A) : zlen bs = zlen m → store m 0 bs = Done bs.
Proof.
  intros H. rewrite store_run by lia. cbn. rewrite drop_ge by (unfold zlen in *; lia). by rewrite app_nil_r.
Qed.

Lemma fill_vector_fits fuel v d : vector_ok v → 0 ≤ d_offset d → iv_size v ≤ left_over d →
  fill_vector (S fuel) v 0 d =
    Done ({| iv_buffer := take (Z.to_nat (iv_size v)) (unread d); iv_size := iv_size v |}, advance d (iv_size v), iv_size v).
Proof.
  intros Hv Ho Hs. unfold vector_ok in Hv. pose proof (zlen_nonneg (iv_buffer v)) as Hn. unfold left_over in Hs. cbn.
  rewrite Z.min_r by lia. rewrite Z.sub_0_r, slice_run by lia. cbn.
  rewrite store_all by (rewrite zlen_take; [done |]; rewrite zlen_drop; lia). cbn. by rewrite Z.ltb_irrefl.
Qed.
Lemma fill_vector_short fuel v offset d : vector_ok v → 0 ≤ offset → 0 ≤ d_offset d → 0 ≤ left_over d →
  left_over d < iv_size v - offset → fill_vector fuel v offset d = Oof.
Proof.
  unfold vector_ok, left_over. revert v offset d. induction fuel as [| fuel IH]; intros v offset d Hv Hoff Ho Hl Hs; [done |].
  cbn. rewrite Z.min_l, slice_run by lia. cbn.
  set (bs := take _ _). assert (Hb : zlen bs = zlen (d_buf d) - d_offset d).
  { unfold bs. rewrite zlen_take; [lia |]. rewrite zlen_drop; lia. }
  destruct (store (iv_buffer v) offset bs) as [b | |] eqn:E; [| by rewrite store_run in E by lia..].
  cbn. rewrite (proj2 (Z.ltb_lt _ _)) by lia. rewrite IH; cbn; try lia; [done |].
  by rewrite (store_length _ _ _ _ E).
Qed.

Lemma take_app_add {A} (l : list A) n m : take n l ++ take m (drop n l) = take (n + m) l.
Proof. revert l. induction n as [| n IH]; intros [| x l]; cbn; rewrite ?take_nil; [done.. |]. by rewrite IH. Qed.

Lemma fill_message_fits fuel vs d : Forall vector_ok vs → 0 ≤ d_offset d → sizes (map iv_size vs) ≤ left_over d →
  ∃ vs', fill_message (S fuel) vs 0 d = Done (vs', advance d (sizes (map iv_size vs)), sizes (map iv_size vs)) ∧
    length vs' = length vs ∧ concat (map iv_buffer vs') = take (Z.to_nat (sizes (map iv_size vs))) (unread d).
Proof.
  intros Hv. revert d. induction Hv as [| v vs Hv Hvs IH]; intros d Ho Hs; cbn [map sizes] in *.
  - exists []. cbn. unfold advance. rewrite Z.add_0_r. by destruct d.
  - pose proof (vectors_nonneg vs Hvs) as Hn. pose proof (zlen_nonneg (iv_buffer v)) as Hb. unfold vector_ok in Hv.
    cbn [fill_message]. rewrite fill_vector_fits by (unfold vector_ok; lia). cbn.
    destruct (IH (advance d (iv_size v))) as (vs' & E & Hl & Hc); [cbn; lia | unfold left_over, advance in *; cbn; lia |].
    rewrite E. cbn. eexists. split; [by rewrite advance_advance |]. cbn. split; [by rewrite Hl |]. rewrite Hc, unread_advance by lia.
    rewrite Z2Nat.inj_add by lia. by rewrite take_app_add.
Qed.
Lemma fill_message_short fuel vs d : Forall vector_ok vs → 0 ≤ d_offset d → 0 ≤ left_over d →
  left_over d < sizes (map iv_size vs) → fill_message fuel vs 0 d = Oof.
Proof.
  intros Hv. revert d. induction Hv as [| v vs Hv Hvs IH]; intros d Ho Hl Hs; cbn [map sizes] in *; [lia |].
  cbn [fill_message]. destruct (decide (left_over d < iv_size v)).
  - rewrite fill_vector_short; [done | done | lia..].
  - destruct fuel as [| fuel]; [done |]. rewrite fill_vector_fits by (done || lia). cbn.
    pose proof (zlen_nonneg (iv_buffer v)) as Hb. unfold vector_ok in Hv.
    rewrite IH; [done | cbn; lia | unfold left_over, advance in *; cbn; lia..].
Qed.

(** ** Receiving what is queued *)

Definition plain (b : bytes) : IOCallbackData := {| d_buf := b; d_offset := 0 |}.
Lemma unread_plain b : unread (plain b) = b.
Proof. done. Qed.

(** What is queued fits the messages of a receive. *)
Definition recv_ready (reliable : bool) (q : list bytes) (ms : list NiceInputMessage) : bool :=
  if reliable then match q, ms with
    | [], _ => true
    | [b], m :: _ => input_message_get_size m =? zlen b
    | _, _ => false
    end
  else forallb (λ x, input_message_get_size x.2 =? zlen x.1) (zip q ms).

(** The messages [ms] with the octets [q] in them. *)
Definition filled (q : list bytes) (ms ms' : list NiceInputMessage) : Prop :=
  length ms' = length ms ∧
  ∀ i m, ms' !! i = Some m → match q !! i with
    | Some b => octets m = b ∧ im_length m = zlen b
    | None => ms !! i = Some m
    end.

(** The fields a receive leaves alone. *)
Record same (w w' : IoWorld) : Prop := {
  sa_contexts : contexts w' = contexts w;
  sa_ctx : ctx w' = ctx w;
  sa_own : own_ctx w' = own_ctx w;
  sa_callback : io_callback w' = io_callback w;
  sa_id : io_callback_id w' = io_callback_id w;
  sa_next : io_next w' = io_next w;
  sa_gone : gone w' = gone w;
  sa_running : running w' = running w
}.
#[local] Instance same_pre : PreOrder same.
Proof. split; [done |]. intros ??? [] []. split; congruence. Qed.

Definition queue_data (w : IoWorld) : list positive → list bytes → Prop :=
  Forall2 (λ p b, io_data w !! p = Some (plain b) ∧ b ≠ []).

(** A receive into [pre ++ rest] that has filled [pre]. *)
Record receiving (w : IoWorld) (pre rest : list NiceInputMessage) (ps : list positive) (q : list bytes) : Prop := {
  re_id : io_callback_id w = 0;
  re_messages : io_recv_messages w = Some (pre ++ rest);
  re_iter : recv_messages_iter w = {| it_message := zlen pre; it_buffer := 0; it_offset := 0 |};
  re_pending : pending_io_messages w = ps;
  re_data : queue_data w ps q;
  re_nodup : NoDup ps;
  re_ok : Forall message_ok rest
}.

(** A receive that makes no progress any more. *)
Definition stuck (w : IoWorld) : Prop :=
  io_callback_id w = 0 ∧ ∃ p ps d ms m, pending_io_messages w = p :: ps ∧ io_data w !! p = Some d ∧
    d_offset d ≠ zlen (d_buf d) ∧ io_recv_messages w = Some ms ∧
    0 ≤ it_message (recv_messages_iter w) < zlen ms ∧ ms !! Z.to_nat (it_message (recv_messages_iter w)) = Some m ∧
    zlen (im_buffers m) ≤ it_buffer (recv_messages_iter w) ∧ it_offset (recv_messages_iter w) = 0.

Lemma lookup_middle {A} (pre : list A) x rest : (pre ++ x :: rest) !! Z.to_nat (zlen pre) = Some x.
Proof. unfold zlen. rewrite Nat2Z.id. by apply list_lookup_middle. Qed.
Lemma insert_middle {A} (pre : list A) x y rest : <[Z.to_nat (zlen pre) := y]> (pre ++ x :: rest) = pre ++ y :: rest.
Proof. unfold zlen. rewrite Nat2Z.id, insert_app_r_alt by done. by rewrite Nat.sub_diag. Qed.

Ltac io_run_in := unfold mbind, st_bind, mret, st_ret, get, put, upd, when, assert_st, lift, hand, data_at; cbn.

(** One message of the queue, by cases on its length. *)
Lemma pending_short fuel reliable w pre m rest p ps b q : receiving w pre (m :: rest) (p :: ps) (b :: q) →
  zlen b < input_message_get_size m → pending_io_messages_recv_messages fuel reliable w = Oof.
Proof.
  intros [H1 H2 H3 H4 H5 H6 H7] Hs. destruct w. cbn in *. subst.
  apply Forall2_cons in H5 as [[Hp _] _]. apply Forall_cons in H7 as [Hm _]. cbn in Hp.
  unfold pending_io_messages_recv_messages, message_at. io_run_in. rewrite Hp. cbn.
  rewrite lookup_middle. cbn. rewrite drop_0, fill_message_short; [done | done | done | cbn..].
  - unfold left_over. cbn. pose proof (zlen_nonneg b). lia.
  - unfold left_over, input_message_get_size in *. cbn. lia.
Qed.

Lemma pending_some fuel reliable w pre m rest p ps b q : receiving w pre (m :: rest) (p :: ps) (b :: q) →
  input_message_get_size m ≤ zlen b →
  ∃ m' n w', pending_io_messages_recv_messages (S fuel) reliable w = Done (n, w') ∧
    same w w' ∧ io_recv_messages w' = Some (pre ++ m' :: rest) ∧
    octets m' = take (Z.to_nat (input_message_get_size m)) b ∧ im_length m' = input_message_get_size m ∧
    length (im_buffers m') = length (im_buffers m) ∧
    if decide (input_message_get_size m = zlen b)
    then pending_io_messages w' = ps ∧ io_data w' = delete p (io_data w) ∧ handed w' = handed w ++ [Read b] ∧
         recv_messages_iter w' = (if reliable then {| it_message := zlen pre; it_buffer := zlen (im_buffers m); it_offset := 0 |}
                                  else {| it_message := zlen pre + 1; it_buffer := 0; it_offset := 0 |})
    else stuck w'.
Proof.
  intros [H1 H2 H3 H4 H5 H6 H7] Hs. destruct w. cbn in *. subst.
  apply Forall2_cons in H5 as [[Hp Hb] _]. apply Forall_cons in H7 as [Hm _]. cbn in Hp.
  unfold input_message_get_size in *. pose proof (vectors_nonneg _ Hm) as Hn. pose proof (zlen_nonneg (im_buffers m)) as Hk.
  destruct (fill_message_fits fuel (im_buffers m) (plain b) Hm) as (vs' & E & Hl & Hc); [done | unfold left_over; cbn; lia |].
  unfold pending_io_messages_recv_messages, message_at. io_run_in. rewrite Hp. cbn.
  rewrite lookup_middle. cbn. rewrite drop_0, E. cbn. rewrite insert_middle. rewrite Z.max_r by lia.
  replace (match im_buffers m with [] => 0 | _ => 0 end) with 0 by (by destruct (im_buffers m)).
  destruct (decide (sizes (map iv_size (im_buffers m)) = zlen b)) as [He | He].
  - rewrite He, Z.eqb_refl. unfold io_callback_data_free. io_run_in. rewrite lookup_insert_eq. cbn.
    rewrite take_0, delete_insert_eq.
    destruct reliable; (eexists _, _, _; split; [reflexivity |]; split; [done |]; split; [done |]; unfold octets; cbn;
      by rewrite Hc, He).
  - rewrite (proj2 (Z.eqb_neq _ _)) by done. eexists _, _, _. split; [reflexivity |]. split; [done |]. split; [done |].
    unfold octets. cbn. rewrite take_0. cbn. repeat (split; [done |]).
    eexists p, ps, _, (pre ++ _ :: rest), _. cbn. rewrite lookup_insert_eq, lookup_middle. cbn.
    repeat (split; [done |]). unfold zlen. rewrite length_app. cbn. split; [lia |]. split; [done |]. cbn. split; [lia | done].
Qed.

Lemma stuck_step fuel reliable w : stuck w → ∃ n w', pending_io_messages_recv_messages fuel reliable w = Done (n, w') ∧ stuck w'.
Proof.
  intros (H1 & p & ps & d & ms & m & H2 & H3 & H4 & H5 & H6 & H7 & H8 & H9).
  destruct w as [? ? ? ? ? [i k o] ?]. cbn in *. subst. pose proof (zlen_nonneg (im_buffers m)) as Hk.
  unfold pending_io_messages_recv_messages, message_at. io_run_in. rewrite H3. cbn. rewrite H7. cbn.
  rewrite drop_ge by (unfold zlen in *; lia). cbn. rewrite (proj2 (Z.eqb_neq _ _)) by done.
  eexists _, _. split; [reflexivity |]. split; [done |].
  eexists p, ps, d, _, _. cbn. rewrite lookup_insert_eq. repeat (split; [done |]).
  split; [unfold zlen in *; by rewrite length_insert |]. split; [apply list_lookup_insert_eq; by eapply lookup_lt_Some |].
  cbn. rewrite take_ge by (unfold zlen in *; lia). rewrite app_nil_r. split; [lia | done].
Qed.
Lemma stuck_not_end w : stuck w →
  nice_input_message_iter_is_at_end (recv_messages_iter w) (zlen (default [] (io_recv_messages w))) = false.
Proof.
  intros (_ & p & ps & d & ms & m & _ & _ & _ & E1 & E2 & _). rewrite E1. cbn.
  unfold nice_input_message_iter_is_at_end. by rewrite (proj2 (Z.eqb_neq _ _)) by lia.
Qed.
Lemma stuck_hangs fuel reliable w : stuck w → recv_pending fuel reliable w = Oof.
Proof.
  revert w. induction fuel as [| fuel IH]; intros w Hw; [done |]. cbn [recv_pending].
  destruct (stuck_step (S fuel) reliable w Hw) as (n & w' & E & Hw').
  rewrite bind_get. rewrite bool_decide_eq_false_2 by (destruct Hw as (_ & ? & ? & ? & ? & ? & -> & _); done).
  rewrite (bind_run _ _ _ _ _ E), !bind_get, stuck_not_end by done. by apply IH.
Qed.

(** What a receive that returns has done, from [receiving w pre rest ps q]. *)
Record received (w w' : IoWorld) (pre rest : list NiceInputMessage) (ps : list positive) (q : list bytes) : Prop := {
  rc_same : same w w';
  rc_messages : ∃ ms, io_recv_messages w' = Some (pre ++ ms) ∧ filled q rest ms;
  rc_pending : pending_io_messages w' = drop (length rest) ps;
  rc_data : queue_data w' (drop (length rest) ps) (drop (length rest) q);
  rc_handed : handed w' = handed w ++ map Read (take (length rest) q)
}.

Lemma queue_data_delete w w' p ps q : io_data w' = delete p (io_data w) → p ∉ ps → queue_data w ps q → queue_data w' ps q.
Proof.
  intros E Hp H. unfold queue_data in *. induction H as [| p' b ps q [H1 H2] _ IH]; constructor.
  - rewrite E, lookup_delete_ne by set_solver. done.
  - apply IH. set_solver.
Qed.
Lemma queue_data_insert w w' p d ps q : io_data w' = <[p := d]> (io_data w) → p ∉ ps → queue_data w ps q → queue_data w' ps q.
Proof.
  intros E Hp H. unfold queue_data in *. induction H as [| p' b ps q [H1 H2] _ IH]; constructor.
  - rewrite E, lookup_insert_ne by set_solver. done.
  - apply IH. set_solver.
Qed.
Lemma queue_length w ps q : queue_data w ps q → length ps = length q.
Proof. by intros ?%Forall2_length. Qed.
Lemma filled_cons b q m m' ms ms' : octets m' = b → im_length m' = zlen b → filled q ms ms' →
  filled (b :: q) (m :: ms) (m' :: ms').
Proof. intros H1 H2 [H3 H4]. split; [by cbn; rewrite H3 |]. intros [| i] m0 Hi; cbn in *; [by simplify_eq | by apply H4]. Qed.
Lemma filled_nothing ms : filled [] ms ms.
Proof. split; [done |]. by intros. Qed.

(** A message of the queue that fits goes into the next message of the receive. *)
Lemma receive_one fuel w pre m rest p ps b q : receiving w pre (m :: rest) (p :: ps) (b :: q) →
  input_message_get_size m = zlen b →
  ∃ m' n w', pending_io_messages_recv_messages (S fuel) false w = Done (n, w') ∧
    octets m' = b ∧ im_length m' = zlen b ∧ same w w' ∧ handed w' = handed w ++ [Read b] ∧
    receiving w' (pre ++ [m']) rest ps q.
Proof.
  intros Hr Hs. destruct (pending_some fuel false w pre m rest p ps b q Hr) as (m' & n & w' & E & Hsm & Hms & Ho & Hl & Hk & H); [lia |].
  rewrite decide_True in H by done. destruct H as (H1 & H2 & H3 & H4). destruct Hr as [R1 R2 R3 R4 R5 R6 R7].
  exists m', n, w'. rewrite Hs in Ho. unfold zlen in Ho at 1. rewrite Nat2Z.id, take_ge in Ho by done.
  apply Forall2_cons in R5 as [_ R5]. apply NoDup_cons in R6 as [R6 R6']. apply Forall_cons in R7 as [_ R7].
  repeat (split; [done || congruence |]). split; [by rewrite (sa_id _ _ Hsm) | by rewrite <- app_assoc | | done | | done | done].
  - rewrite H4. unfold zlen. rewrite length_app. cbn. f_equal. lia.
  - by eapply queue_data_delete.
Qed.

Lemma receive_all fuel w pre rest ps q : receiving w pre rest ps q → rest ≠ [] →
  if recv_ready false q rest
  then (length ps < fuel)%nat → ∃ w', recv_pending fuel false w = Done (bool_decide (length rest ≤ length ps)%nat, w') ∧
    received w w' pre rest ps q
  else recv_pending fuel false w = Oof.
Proof.
  unfold recv_ready. revert fuel w pre ps q. induction rest as [| m rest IH]; intros fuel w pre ps q Hr Hne; [done |]. clear Hne.
  pose proof (queue_length _ _ _ (re_data _ _ _ _ _ Hr)) as Hlen.
  destruct fuel as [| fuel]; [by destruct (forallb _ _); [lia |] |]. cbn [recv_pending]. rewrite bind_get, (re_pending _ _ _ _ _ Hr).
  destruct ps as [| p ps], q as [| b q]; try done; cbn [zip zip_with forallb fst snd] in *.
  - intros _. exists w. split; [done |]. destruct Hr as [R1 R2 R3 R4 R5 R6 R7].
    split; [done | exists (m :: rest); split; [done | apply filled_nothing] | by rewrite R4 | done | by rewrite app_nil_r].
  - rewrite bool_decide_eq_false_2 by done. destruct (Z.eqb_spec (input_message_get_size m) (zlen b)) as [Hs | Hs]; cbn [andb].
    + destruct (receive_one fuel w pre m rest p ps b q Hr Hs) as (m' & n & w1 & E & Ho & Hl & Hsm & Hh & Hr1).
      rewrite (bind_run _ _ _ _ _ E), !bind_get, (re_iter _ _ _ _ _ Hr1), (re_messages _ _ _ _ _ Hr1).
      unfold nice_input_message_iter_is_at_end. cbn [default from_option id it_message it_buffer it_offset].
      assert (Hcons : ∀ w', received w1 w' (pre ++ [m']) rest ps q → received w w' pre (m :: rest) (p :: ps) (b :: q)).
      { intros w' [C1 (ms & C2 & C3) C4 C5 C6]. split; [by etransitivity | | done | done |].
        - exists (m' :: ms). rewrite C2, <- app_assoc. split; [done | by apply filled_cons].
        - rewrite C6, Hh, <- app_assoc. done. }
      destruct rest as [| m2 rest].
      * rewrite (proj2 (Z.eqb_eq _ _)) by (by rewrite app_nil_r). cbn.
        replace (forallb _ _) with true by (by destruct q). intros _. exists w1. split; [done |]. apply Hcons.
        destruct Hr1 as [R1 R2 R3 R4 R5 R6 R7].
        split; [done | exists []; split; [done |]; by split | by rewrite R4 | done | by rewrite app_nil_r].
      * rewrite (proj2 (Z.eqb_neq _ _)) by (unfold zlen; rewrite !length_app; cbn; lia). cbn [andb].
        specialize (IH fuel w1 (pre ++ [m']) ps q Hr1 ltac:(done)).
        destruct (forallb _ _); [| done]. intros Hf. destruct IH as (w' & E' & Hrc); [cbn in Hf; lia |].
        exists w'. split; [| by apply Hcons]. rewrite E'. do 2 f_equal. apply bool_decide_ext. cbn. lia.
    + destruct (Z.lt_ge_cases (zlen b) (input_message_get_size m)) as [Hlt | Hge].
      * unfold mbind, st_bind. by rewrite (pending_short _ _ _ _ _ _ _ _ _ _ Hr Hlt).
      * destruct (pending_some fuel false w pre m rest p ps b q Hr Hge) as (m' & n & w' & E & Hsm & Hms & _ & _ & _ & H).
        rewrite decide_False in H by done. rewrite (bind_run _ _ _ _ _ E), !bind_get, stuck_not_end by done. by apply stuck_hangs.
Qed.

(** The same over a pseudo-TCP socket, where at most one message is taken. *)
Lemma receive_reliable fuel w rest ps q : receiving w [] rest ps q → rest ≠ [] →
  if recv_ready true q rest
  then (length ps < fuel)%nat → ∃ w', recv_pending fuel true w = Done (false, w') ∧ received w w' [] rest ps q
  else recv_pending fuel true w = Oof.
Proof.
  intros Hr Hne. pose proof (queue_length _ _ _ (re_data _ _ _ _ _ Hr)) as Hlen.
  destruct rest as [| m rest]; [done |]. clear Hne.
  destruct fuel as [| fuel]; [by destruct (recv_ready _ _ _); [intros; lia |] |].
  cbn [recv_pending]. rewrite bind_get, (re_pending _ _ _ _ _ Hr). destruct ps as [| p ps], q as [| b q]; try done.
  - intros _. exists w. split; [done |]. destruct Hr as [R1 R2 R3 R4 R5 R6 R7].
    split; [done | exists (m :: rest); split; [done | apply filled_nothing] | by rewrite R4 | done | by rewrite app_nil_r].
  - rewrite bool_decide_eq_false_2 by done. destruct (Z.lt_ge_cases (zlen b) (input_message_get_size m)) as [Hlt | Hge].
    { replace (recv_ready _ _ _) with false by (destruct q; cbn; [symmetry; apply Z.eqb_neq; lia | done]).
      unfold mbind, st_bind. by rewrite (pending_short _ _ _ _ _ _ _ _ _ _ Hr Hlt). }
    destruct (pending_some fuel true w [] m rest p ps b q Hr Hge) as (m' & n & w1 & E & Hsm & Hms & Ho & Hl & Hk & H).
    rewrite (bind_run _ _ _ _ _ E), !bind_get.
    destruct (decide (input_message_get_size m = zlen b)) as [Hs | Hs].
    2:{ replace (recv_ready _ _ _) with false by (destruct q; cbn; [symmetry; by apply Z.eqb_neq | done]).
        rewrite stuck_not_end by done. by apply stuck_hangs. }
    destruct H as (H1 & H2 & H3 & H4). rewrite H4, Hms. unfold nice_input_message_iter_is_at_end. cbn [it_message].
    rewrite (proj2 (Z.eqb_neq _ _)) by (unfold zlen; cbn; lia). cbn [andb]. destruct Hr as [R1 R2 R3 R4 R5 R6 R7].
    apply Forall2_cons in R5 as [_ R5]. apply NoDup_cons in R6 as [R6 R6'].
    rewrite Hs in Ho. unfold zlen in Ho at 1. rewrite Nat2Z.id, take_ge in Ho by done.
    assert (Hd : queue_data w1 ps q) by (by eapply queue_data_delete).
    destruct q as [| b2 q].
    + unfold recv_ready. rewrite (proj2 (Z.eqb_eq _ _)) by done. destruct ps as [| p2 ps]; [| done]. intros Hf.
      destruct fuel as [| fuel]; [cbn in Hf; lia |]. exists w1. cbn [recv_pending]. rewrite bind_get, H1.
      split; [done |]. split; cbn; rewrite ?drop_nil, ?take_nil; try done. exists (m' :: rest). split; [done |].
      split; [done |]. intros [| i] m0 Hi; cbn in *; [simplify_eq; by split; [| congruence] | done].
    + cbn [recv_ready]. apply stuck_hangs. destruct ps as [| p2 ps]; [done |]. apply Forall2_cons in Hd as [[Hp2 Hb2] _].
      split; [by rewrite (sa_id _ _ Hsm) |]. eexists p2, ps, _, _, m'. rewrite H4. cbn.
      repeat (split; [done |]). split; [by intros ?%eq_sym%zlen_0_inv |]. split; [done |].
      split; [unfold zlen; cbn; lia |]. split; [done |]. unfold zlen. split; [by rewrite Hk | done].
Qed.

(** ** The invariant of the queue *)

(** The octets that were not passed on, of every message of the queue. *)
Definition in_queue (w : IoWorld) : list bytes :=
  map (λ p, unread (default (plain []) (io_data w !! p))) (pending_io_messages w).
(** Without the message that the running function was passed. *)
Definition waiting (w : IoWorld) : list bytes := match running w with [] => in_queue w | _ => tail (in_queue w) end.

Definition has_context (w : IoWorld) (c : Z) : Prop := is_Some (contexts w !! c).

Record base_ok (w : IoWorld) : Prop := {
  ok_gone : gone w = false;
  ok_default : has_context w 0;
  ok_ctx : has_context w (ctx w);
  ok_own : has_context w (own_ctx w);
  ok_ids c x : contexts w !! c = Some x → 1 ≤ next_id x;
  ok_queue : queue_data w (pending_io_messages w) (in_queue w);
  ok_nodup : NoDup (pending_io_messages w);
  ok_next p : p ∈ pending_io_messages w → (p < io_next w)%positive;
  ok_running : running w = [] ∨ ∃ k ps, running w = [k] ∧ pending_io_messages w = call_data k :: ps ∧ has_context w (call_context k)
}.
Definition is_scheduled (w : IoWorld) : Prop :=
  ∃ x, contexts w !! ctx w = Some x ∧ sources x !! io_callback_id w = Some Io_callback.
Record io_ok (w : IoWorld) : Prop := {
  ok_base : base_ok w;
  ok_id : io_callback_id w ≠ 0 → is_scheduled w;
  ok_scheduled : io_callback w ≠ None → pending_io_messages w ≠ [] → running w ≠ [] ∨ io_callback_id w ≠ 0
}.

(** Only sources and the id of the source of the component change. *)
Record moved (w w' : IoWorld) : Prop := {
  mv_context c : has_context w c → has_context w' c;
  mv_ids : (∀ c x, contexts w !! c = Some x → 1 ≤ next_id x) → ∀ c x, contexts w' !! c = Some x → 1 ≤ next_id x;
  mv_rest : ∃ cs id, w' = w <| contexts := cs |> <| io_callback_id := id |>
}.
#[local] Instance moved_pre : PreOrder moved.
Proof.
  split.
  - intros w. split; [done | done |]. exists (contexts w), (io_callback_id w). by destruct w.
  - intros w1 w2 w3 [A1 A2 (cs & id & ->)] [B1 B2 (cs' & id' & ->)].
    split; [auto | intros H; apply B2, A2, H |]. by exists cs', id'.
Qed.
Lemma moved_ok w w' : moved w w' → base_ok w → base_ok w'.
Proof.
  intros [H1 H2 (cs & id & ->)] [B1 B2 B3 B4 B5 B6 B7 B8 B9]. apply H1 in B2, B3, B4. specialize (H2 B5).
  split; try done. destruct B9 as [| (k & ps & E1 & E2 & E3)]; [by left |]. right. exists k, ps. auto.
Qed.
Lemma moved_id w id : moved w (w <| io_callback_id := id |>).
Proof. split; [done | done |]. exists (contexts w), id. by destruct w. Qed.
Lemma moved_contexts w c x y : contexts w !! c = Some x → next_id x ≤ next_id y → moved w (w <| contexts := <[c := y]> (contexts w) |>).
Proof.
  intros Hc Hn. split; cbn.
  - intros c' H. unfold has_context in *. cbn. rewrite lookup_insert_is_Some'. by right.
  - intros H c' x'. rewrite lookup_insert_Some. intros [[<- <-] | [_ H']]; [apply H in Hc; lia | by eapply H].
  - exists (<[c := y]> (contexts w)), (io_callback_id w). by destruct w.
Qed.

Lemma source_destroy_ok w c id : has_context w c → ∃ w', g_source_destroy c id w = Done (tt, w') ∧ moved w w' ∧
  io_callback_id w' = io_callback_id w.
Proof.
  intros [x Hx]. unfold g_source_destroy, context_at. io_run_in. rewrite Hx. eexists. split; [done |]. split; [| done].
  by apply (moved_contexts w c x).
Qed.
Lemma schedule_ok w : base_ok w → (io_callback_id w ≠ 0 → is_scheduled w) →
  ∃ w', nice_component_schedule_io_callback w = Done (tt, w') ∧ moved w w' ∧ (io_callback_id w' ≠ 0 → is_scheduled w') ∧
    (pending_io_messages w' ≠ [] → io_callback_id w' ≠ 0).
Proof.
  intros Hw Hid. unfold nice_component_schedule_io_callback. rewrite !bind_get.
  destruct (Z.eqb_spec (io_callback_id w) 0) as [E | E]; cbn [negb orb]; [| by exists w].
  case_bool_decide as Hq; [by exists w |]. destruct (ok_ctx w Hw) as [x Hx]. pose proof (ok_ids w Hw _ _ Hx) as Hn.
  unfold g_source_attach, context_at. io_run_in. rewrite Hx. cbn. eexists. split; [done |]. split; [| split].
  - etransitivity; [by apply (moved_contexts w (ctx w) x {| next_id := next_id x + 1; sources := <[next_id x:=Io_callback]> (sources x) |}); [| cbn; lia] | apply moved_id].
  - intros _. eexists. cbn. rewrite lookup_insert_eq. split; [done |]. apply lookup_insert_eq.
  - cbn. lia.
Qed.
Lemma deschedule_ok w : base_ok w → ∃ w', nice_component_deschedule_io_callback w = Done (tt, w') ∧ moved w w' ∧ io_callback_id w' = 0.
Proof.
  intros Hw. unfold nice_component_deschedule_io_callback. rewrite bind_get.
  destruct (Z.eqb_spec (io_callback_id w) 0) as [E | E]; [by exists w |].
  destruct (source_destroy_ok w 0 (io_callback_id w) (ok_default w Hw)) as (w1 & E1 & Hm & _).
  unfold g_source_remove. rewrite (bind_run _ _ _ _ _ E1). eexists. split; [done |]. split; [| done].
  etransitivity; [exact Hm | apply moved_id].
Qed.

(** ** What a step hands over *)

Definition from_queue (h : handover) : option bytes := match h with Deferred _ b | Read b => Some b | Direct _ _ => None end.
Definition at_once (h : handover) : option (Z * bytes) := match h with Direct f b => Some (f, b) | _ => None end.

(** [ins] enter the queue and [now] are handed over directly. *)
Definition accounts (w w' : IoWorld) (ins : list bytes) (now : list (Z * bytes)) : Prop :=
  ∃ new, handed w' = handed w ++ new ∧ waiting w ++ ins = omap from_queue new ++ waiting w' ∧ omap at_once new = now.

(** Nothing of the queue and the log changes. *)
Record quiet (w w' : IoWorld) : Prop := {
  qt_pending : pending_io_messages w' = pending_io_messages w;
  qt_data : io_data w' = io_data w;
  qt_running : running w' = running w;
  qt_handed : handed w' = handed w
}.
Lemma quiet_waiting w w' : quiet w w' → in_queue w' = in_queue w ∧ waiting w' = waiting w.
Proof. intros [E1 E2 E3 E4]. unfold waiting, in_queue. by rewrite E1, E2, E3. Qed.
Lemma moved_quiet w w' : moved w w' → quiet w w'.
Proof. by intros [_ _ (cs & id & ->)]. Qed.
Lemma quiet_accounts w w' : quiet w w' → accounts w w' [] [].
Proof. intros H. destruct (quiet_waiting w w' H) as [_ E]. exists []. rewrite E, (qt_handed _ _ H), !app_nil_r. done. Qed.
Lemma moved_callback w w' : moved w w' → io_callback w' = io_callback w.
Proof. by intros [_ _ (cs & id & ->)]. Qed.

Lemma queue_cons w p ps : base_ok w → pending_io_messages w = p :: ps →
  ∃ b, io_data w !! p = Some (plain b) ∧ b ≠ [] ∧ in_queue w = b :: tail (in_queue w).
Proof.
  intros Hw E. pose proof (ok_queue w Hw) as Hq. unfold in_queue in *. rewrite E in *. cbn in *.
  apply Forall2_cons in Hq as [[Hp Hb] _]. rewrite Hp in *. cbn in *. eauto.
Qed.

Lemma emit_loop_call c id f p ps w : base_ok w → io_callback w = Some f → pending_io_messages w = p :: ps →
  emit_loop c id w = Done (tt, w <| handed := handed w ++ [Deferred f (default [] (head (in_queue w)))] |>
    <| running := {| call_context := c; call_source := id; call_data := p |} :: running w |>).
Proof.
  intros Hw Hf Hp. destruct (queue_cons w p ps Hw Hp) as (b & Hb & Hne & ->).
  unfold emit_loop, hand, data_at. io_run_in. by rewrite Hp, Hf, Hb.
Qed.

Lemma emit_loop_ok c id w : base_ok w → running w = [] → has_context w c → (io_callback_id w ≠ 0 → is_scheduled w) →
  ∃ w', emit_loop c id w = Done (tt, w') ∧ io_ok w' ∧ accounts w w' [] [].
Proof.
  intros Hw Hr Hc Hid. unfold emit_loop. rewrite !bind_get.
  assert (Hstop : io_callback w = None ∨ pending_io_messages w = [] →
    ∃ w', (_ ← put io_callback_id 0; source_ends c id) w = Done (tt, w') ∧ io_ok w' ∧ accounts w w' [] []).
  { intros Hq. rewrite bind_put. set (w1 := w <| io_callback_id := 0 |>). destruct (source_destroy_ok w1 c id Hc) as (w' & E & Hm & Hz).
    exists w'. split; [exact E |].
    assert (Hm' : moved w w') by (etransitivity; [apply moved_id | exact Hm]).
    split; [| by apply quiet_accounts, moved_quiet]. split; [by eapply moved_ok | by rewrite Hz |].
    rewrite (moved_callback _ _ Hm'), (qt_pending _ _ (moved_quiet _ _ Hm')). intros H1 H2. by destruct Hq. }
  destruct (pending_io_messages w) as [| p ps] eqn:Hp; [by apply Hstop; right |].
  destruct (io_callback w) as [f |] eqn:Hf; [| by apply Hstop; left].
  destruct (queue_cons w p ps Hw Hp) as (b & Hb & Hne & Hq).
  pose proof (emit_loop_call c id f p ps w Hw Hf Hp) as E. unfold emit_loop in E. rewrite !bind_get, Hp, Hf in E.
  eexists. split; [exact E |]. split; [split |].
  - destruct Hw as [B1 B2 B3 B4 B5 B6 B7 B8 B9]. split; try done. right. cbn. rewrite Hr.
    by exists {| call_context := c; call_source := id; call_data := p |}, ps.
  - done.
  - by left.
  - exists [Deferred f b]. split; [cbn; by rewrite Hq |]. split; [| done]. rewrite app_nil_r. unfold waiting. rewrite Hr. cbn. by rewrite Hq at 1.
Qed.

Lemma in_queue_delete w w' p ps : base_ok w → pending_io_messages w = p :: ps → pending_io_messages w' = ps →
  io_data w' = delete p (io_data w) → in_queue w' = tail (in_queue w).
Proof.
  intros Hw Hp Hp' Hd. unfold in_queue. rewrite Hp, Hp', Hd. cbn. apply map_ext_in. intros p' Hin%list_elem_of_In.
  rewrite lookup_delete_ne; [done |]. intros <-. pose proof (ok_nodup w Hw) as Hn. rewrite Hp in Hn.
  by apply NoDup_cons in Hn as [? _].
Qed.

(** The state in which the loop goes on after the function returned. *)
Definition popped (k : io_call) (w : IoWorld) : IoWorld :=
  w <| running := [] |> <| pending_io_messages := tail (pending_io_messages w) |> <| io_data := delete (call_data k) (io_data w) |>.
Lemma returns_run k ps w : base_ok w → running w = [k] → pending_io_messages w = call_data k :: ps →
  io_callback_returns k w = emit_loop (call_context k) (call_source k) (popped k w) ∧
  base_ok (popped k w) ∧ in_queue (popped k w) = tail (in_queue w).
Proof.
  intros Hw E Hp. destruct (queue_cons w _ ps Hw Hp) as (b & Hb & Hne & Hq).
  assert (Hq1 : in_queue (popped k w) = tail (in_queue w)) by (eapply in_queue_delete; [done | done | cbn; by rewrite Hp | done]).
  split; [| split; [| done]].
  - unfold io_callback_returns, popped. rewrite bind_upd, bind_get. cbn. rewrite (ok_gone w Hw).
    unfold io_callback_data_free, data_at. io_run_in. rewrite Hb, E. cbn. rewrite decide_False by tauto. done.
  - destruct Hw as [B1 B2 B3 B4 B5 B6 B7 B8 B9]. rewrite Hp in B6, B7, B8. apply NoDup_cons in B7 as [B7 B7'].
    rewrite Hq in B6. apply Forall2_cons in B6 as [_ B6].
    assert (Hp' : pending_io_messages (popped k w) = ps) by (cbn; by rewrite Hp). split; try done; rewrite ?Hp', ?Hq1.
    + by eapply queue_data_delete.
    + done.
    + intros p Hin. apply B8. by right.
    + by left.
Qed.
Lemma returns_ok k w : io_ok w → k ∈ running w →
  ∃ w', io_callback_returns k w = Done (tt, w') ∧ io_ok w' ∧ accounts w w' [] [].
Proof.
  intros [Hw Hid Hs] Hk. destruct (ok_running w Hw) as [E | (k' & ps & E & Hp & Hc)]; rewrite E in Hk; [by apply elem_of_nil in Hk |].
  apply list_elem_of_singleton in Hk as ->. destruct (returns_run k' ps w Hw E Hp) as (-> & Hw1 & Hq1).
  destruct (emit_loop_ok (call_context k') (call_source k') (popped k' w) Hw1) as (w' & E' & Hok & new & A1 & A2 & A3); [done.. |].
  exists w'. split; [done |]. split; [done |]. exists new. split; [done |]. split; [| done].
  rewrite <- A2. change (waiting (popped k' w)) with (in_queue (popped k' w)). unfold waiting. by rewrite E, Hq1.
Qed.

Lemma emit_ok buf owner w : io_ok w → buf ≠ [] → ∃ w', nice_component_emit_io_callback buf owner w = Done (tt, w') ∧ io_ok w' ∧
  accounts w w' (match io_callback w with Some _ => if owner then [] else [buf] | None => [] end)
                (match io_callback w with Some f => if owner then [(f, buf)] else [] | None => [] end).
Proof.
  intros [Hw Hid Hs] Hb. unfold nice_component_emit_io_callback.
  assert (Hl : 0 < zlen buf) by (pose proof (zlen_nonneg buf); enough (zlen buf ≠ 0) by lia; by intros ?%zlen_0_inv).
  rewrite (proj2 (Z.ltb_lt _ _)) by done. rewrite bind_assert, bind_get. destruct (io_callback w) as [f |] eqn:Hf.
  2:{ exists w. repeat (split; [done |]). by apply quiet_accounts. }
  destruct owner.
  - eexists. split; [reflexivity |]. split; [split; [| done | by intros; apply Hs] |].
    + by destruct Hw as [B1 B2 B3 B4 B5 B6 B7 B8 B9].
    + exists [Direct f buf]. cbn. by rewrite app_nil_r.
  - unfold io_callback_data_new. rewrite !bind_bind, bind_get, !bind_bind, bind_put, !bind_bind, bind_upd, bind_ret, bind_upd.
    match goal with |- ∃ w', _ ?x = _ ∧ _ => set (w1 := x) end.
    assert (Hfresh : io_next w ∉ pending_io_messages w) by (intros H%(ok_next w Hw); lia).
    assert (Hq : in_queue w1 = in_queue w ++ [buf]).
    { unfold in_queue. cbn. rewrite map_app. cbn. rewrite lookup_insert_eq. f_equal. apply map_ext_in. intros p Hp%list_elem_of_In.
      rewrite lookup_insert_ne; [done |]. by intros <-. }
    assert (Hw1 : base_ok w1).
    { destruct Hw as [B1 B2 B3 B4 B5 B6 B7 B8 B9]. split; try done.
      - rewrite Hq. apply Forall2_app.
        + by eapply queue_data_insert.
        + repeat constructor; [| done]. cbn. apply lookup_insert_eq.
      - cbn. apply NoDup_app. split; [done |]. split; [| by apply NoDup_singleton].
        intros p Hp ->%list_elem_of_singleton. done.
      - intros p. cbn. rewrite elem_of_app, list_elem_of_singleton. intros [Hp | ->]; [apply B8 in Hp; lia | lia].
      - destruct B9 as [| (k & ps & E1 & E2 & E3)]; [by left |]. right. exists k, (ps ++ [io_next w]). cbn. by rewrite E2. }
    destruct (schedule_ok w1 Hw1 Hid) as (w' & E & Hm & Hid' & Hs'). pose proof (moved_quiet _ _ Hm) as Hqt.
    exists w'. split; [exact E |]. split; [split; [by eapply moved_ok | done |] |].
    + intros _ H. right. by apply Hs'.
    + exists []. destruct (quiet_waiting _ _ Hqt) as [_ ->]. rewrite (qt_handed _ _ Hqt), !app_nil_r. split; [done |]. split; [| done].
      cbn. unfold waiting. rewrite Hq. cbn [running w1]. change (running w1) with (running w).
      destruct (ok_running w Hw) as [-> | (k & ps & -> & E2 & _)]; [done |].
      destruct (queue_cons w _ _ Hw E2) as (b & _ & _ & ->). done.
Qed.

Lemma set_no_callback ms w : base_ok w → ∃ w', nice_component_set_io_callback None ms w = Done (tt, w') ∧ base_ok w' ∧
  quiet w w' ∧ io_callback_id w' = 0 ∧ io_callback w' = None ∧ io_recv_messages w' = ms ∧ recv_messages_iter w' = iter_start.
Proof.
  intros Hw. unfold nice_component_set_io_callback.
  set (w1 := w <| io_callback := None |> <| io_recv_messages := ms |>).
  assert (Hw1 : base_ok w1) by (by destruct Hw as [B1 B2 B3 B4 B5 B6 B7 B8 B9]).
  destruct (deschedule_ok w1 Hw1) as (w2 & E & Hm & Hz). io_run_in. fold w1. rewrite E. eexists. split; [done |].
  pose proof (moved_quiet _ _ Hm) as [Q1 Q2 Q3 Q4]. pose proof (moved_ok _ _ Hm Hw1) as Hw2. pose proof (mv_rest _ _ Hm) as (cs & id & E2).
  split; [by destruct Hw2 as [B1 B2 B3 B4 B5 B6 B7 B8 B9] |]. split; [by rewrite E2 |]. by rewrite E2 in *.
Qed.

(** ** A receive of what is queued *)

(** In what state a receive begins, and with which messages. *)
Record can_receive (w : IoWorld) (ms : list NiceInputMessage) : Prop := {
  cr_running : running w = [];
  cr_messages : io_recv_messages w = None;
  cr_some : ms ≠ [];
  cr_ok : Forall message_ok ms
}.
Lemma receive_begins reliable w ms : io_ok w → can_receive w ms → ∃ w1,
  (∀ fuel, recv_begins fuel reliable ms w = recv_pending fuel reliable w1) ∧ base_ok w1 ∧ quiet w w1 ∧ io_callback w1 = None ∧
  receiving w1 [] ms (pending_io_messages w1) (in_queue w1).
Proof.
  intros [Hw _ _] [H1 H2 H3 H4]. destruct (set_no_callback (Some ms) w Hw) as (w1 & E & Hw1 & Hq & Hid & Hcb & Hms & Hit).
  exists w1. split; [| split; [done |]; split; [done |]; split; [done |]; split; try done; [apply ok_queue, Hw1 | apply ok_nodup, Hw1]].
  intros fuel. unfold recv_begins. rewrite bind_get, H2. cbn. rewrite bind_assert. by rewrite (bind_run _ _ _ _ _ E).
Qed.
Lemma receive_queue fuel reliable w ms : receiving w [] ms (pending_io_messages w) (in_queue w) → ms ≠ [] →
  if recv_ready reliable (in_queue w) ms
  then (length (pending_io_messages w) < fuel)%nat → ∃ w',
    recv_pending fuel reliable w = Done (negb reliable && bool_decide (length ms ≤ length (in_queue w))%nat, w') ∧
    received w w' [] ms (pending_io_messages w) (in_queue w)
  else recv_pending fuel reliable w = Oof.
Proof.
  intros Hr Hne. rewrite <- (queue_length _ _ _ (re_data _ _ _ _ _ Hr)).
  destruct reliable; [by apply receive_reliable | by apply receive_all].
Qed.
Lemma omap_read l : omap from_queue (map Read l) = l.
Proof. induction l as [| b l IH]; [done |]. cbn. by rewrite IH. Qed.
Lemma omap_read_direct l : omap at_once (map Read l) = [].
Proof. by induction l. Qed.
Lemma received_queue w w' ms : running w = [] → base_ok w → received w w' [] ms (pending_io_messages w) (in_queue w) →
  base_ok w' ∧ in_queue w' = drop (length ms) (in_queue w) ∧ accounts w w' [] [].
Proof.
  intros Hr Hw [[S1 S2 S3 S4 S5 S6 S7 S8] _ R3 R4 R5].
  assert (Hq : in_queue w' = drop (length ms) (in_queue w)).
  { unfold in_queue at 1. rewrite R3. clear -R4. induction R4 as [| p b ps q [H _] _ IH]; [done |]. cbn. by rewrite H, IH. }
  split; [| split; [done |]].
  - destruct Hw as [B1 B2 B3 B4 B5 B6 B7 B8 B9]. unfold has_context in *.
    split; unfold has_context; rewrite ?S1, ?S2, ?S3, ?S6, ?S7, ?S8, ?Hq, ?R3; try done.
    + by apply (sublist_NoDup _ (pending_io_messages w)), sublist_drop.
    + intros p Hp. apply B8. by eapply elem_of_submseteq, submseteq_drop.
    + by left.
  - exists (map Read (take (length ms) (in_queue w))). split; [done |]. split.
    + unfold waiting. by rewrite S8, Hr, Hq, app_nil_r, omap_read, take_drop.
    + apply omap_read_direct.
Qed.

(** ** Histories *)

(** What the theorems ask of an event: the application receives only when no
    function of the source runs, and into messages of the sizes of those queued;
    one source of the component runs at a time; a function is attached to another
    context only when nothing is scheduled; the component is not removed. *)
Definition calm_event (e : io_event) (w : IoWorld) : Prop :=
  match e with
  | Emit buf _ => buf ≠ []
  | Attach c f => has_context w (default 0 c) ∧ (f ≠ None → default 0 c = ctx w ∨ io_callback_id w = 0)
  | Recv_begins fuel reliable ms => can_receive w ms ∧ recv_ready reliable (in_queue w) ms = true ∧
      (length (in_queue w) < fuel)%nat
  | Recv_ends | Returns _ => True
  | Dispatch _ _ => running w = []
  | Removed => False
  end.
(** What enters the queue, and what is handed over directly. *)
Definition entering (e : io_event) (w : IoWorld) : list bytes :=
  match e, io_callback w with Emit buf false, Some _ => [buf] | _, _ => [] end.
Definition direct (e : io_event) (w : IoWorld) : list (Z * bytes) :=
  match e, io_callback w with Emit buf true, Some f => [(f, buf)] | _, _ => [] end.
Fixpoint along {A} (f : io_event → IoWorld → list A) (es : list io_event) (w : IoWorld) : list A :=
  match es with
  | [] => []
  | e :: es => f e w ++ match io_step e w with Done (_, w') => along f es w' | _ => [] end
  end.
Fixpoint calm (es : list io_event) (w : IoWorld) : Prop :=
  match es with
  | [] => True
  | e :: es => calm_event e w ∧ match io_step e w with Done (_, w') => calm es w' | _ => True end
  end.

Lemma attach_ok c f w : io_ok w → calm_event (Attach c f) w →
  ∃ w', attach_recv c f w = Done (tt, w') ∧ io_ok w' ∧ accounts w w' [] [].
Proof.
  intros [Hw Hid Hs] [Hc Hf].
  set (w1 := w <| ctx := default 0 c |>).
  assert (E1 : nice_component_set_io_context (Some (default 0 c)) w = Done (tt, w1)).
  { unfold nice_component_set_io_context. rewrite bind_get. case_bool_decide as Hcc; [| done]. simplify_eq.
    unfold w1. rewrite Hcc. by destruct w. }
  assert (Hw1 : base_ok w1) by (by destruct Hw as [B1 B2 B3 B4 B5 B6 B7 B8 B9]).
  unfold attach_recv. rewrite (bind_run _ _ _ _ _ E1). destruct f as [f |].
  - unfold nice_component_set_io_callback. set (w2 := w1 <| io_callback := Some f |> <| io_recv_messages := None |>).
    assert (Hw2 : base_ok w2) by (by destruct Hw1 as [B1 B2 B3 B4 B5 B6 B7 B8 B9]).
    assert (Hid2 : io_callback_id w2 ≠ 0 → is_scheduled w2).
    { intros Hn. destruct (Hf ltac:(done)) as [E | E]; [| done]. destruct (Hid Hn) as (x & H1 & H2). exists x.
      cbn. by rewrite E. }
    destruct (schedule_ok w2 Hw2 Hid2) as (w3 & E & Hm & Hid3 & Hs3). io_run_in. fold w2. rewrite E.
    eexists. split; [done |]. pose proof (moved_quiet _ _ Hm) as [Q1 Q2 Q3 Q4].
    split; [split; [by destruct (moved_ok _ _ Hm Hw2) as [B1 B2 B3 B4 B5 B6 B7 B8 B9] | done |] |].
    + intros _ H. right. by apply Hs3.
    + by apply quiet_accounts.
  - destruct (set_no_callback None w1 Hw1) as (w' & E & Hw' & Hq & Hid' & Hcb & _). exists w'. split; [exact E |].
    split; [split; [done | by rewrite Hid' | by rewrite Hcb] | by apply quiet_accounts; destruct Hq].
Qed.

Lemma io_step_ok e w : io_ok w → calm_event e w →
  ∃ w', io_step e w = Done (tt, w') ∧ io_ok w' ∧ accounts w w' (entering e w) (direct e w).
Proof.
  intros Hw He. destruct e as [buf owner | c f | fuel reliable ms | | c id | k |]; cbn [io_step entering direct].
  - destruct (emit_ok buf owner w Hw He) as (w' & E & Hw' & Ha). exists w'. split; [done |]. split; [done |].
    by destruct owner, (io_callback w).
  - by apply attach_ok.
  - destruct He as (Hc & Hr & Hf). destruct (receive_begins reliable w ms Hw Hc) as (w1 & E & Hw1 & Hq & Hcb & Hre).
    destruct (quiet_waiting _ _ Hq) as [Hq1 Hq2]. pose proof (queue_length _ _ _ (re_data _ _ _ _ _ Hre)) as Hl.
    pose proof (receive_queue fuel reliable w1 ms Hre (cr_some _ _ Hc)) as H. rewrite Hq1 in *. rewrite Hr in H.
    destruct H as (w' & E' & Hrc); [lia |]. exists w'. rewrite (bind_run _ _ _ _ _ (eq_trans (E fuel) E')). split; [done |].
    destruct (received_queue w1 w' ms) as (Hw' & Hq' & new & A1 & A2 & A3); [by rewrite (qt_running _ _ Hq); apply Hc | done | by rewrite Hq1 |].
    pose proof (rc_same _ _ _ _ _ _ Hrc) as [S1 S2 S3 S4 S5 S6 S7 S8]. split; [split; [done | | by rewrite S4, Hcb] |].
    + by rewrite S5, (re_id _ _ _ _ _ Hre).
    + exists new. by rewrite A1, (qt_handed _ _ Hq), <- Hq2.
  - destruct (set_no_callback None w (ok_base w Hw)) as (w' & E & Hw' & Hq & Hid' & Hcb & _). exists w'. split; [exact E |].
    split; [split; [done | by rewrite Hid' | by rewrite Hcb] | by apply quiet_accounts].
  - destruct (can_dispatch w c id) eqn:Hd; cbn [when].
    2:{ exists w. split; [done |]. split; [done | by apply quiet_accounts]. }
    unfold can_dispatch in Hd. apply andb_true_iff in Hd as [Hd _]. apply bool_decide_eq_true in Hd.
    destruct (contexts w !! c) as [x |] eqn:Hx; [| done]. destruct Hw as [Hw Hid Hs].
    unfold emit_io_callback_cb. rewrite bind_get, (ok_gone w Hw). apply emit_loop_ok; [done | done | by exists x | done].
  - case_bool_decide; cbn [when]; [by apply returns_ok |]. exists w. split; [done |]. split; [done | by apply quiet_accounts].
  - done.
Qed.

Lemma io_run_ok es w : io_ok w → calm es w →
  ∃ w', io_run es w = Done (tt, w') ∧ io_ok w' ∧ accounts w w' (along entering es w) (along direct es w).
Proof.
  revert w. induction es as [| e es IH]; intros w Hw Hc; cbn [io_run along calm] in *.
  - exists w. split; [done |]. split; [done | by apply quiet_accounts].
  - destruct Hc as [He Hc]. destruct (io_step_ok e w Hw He) as (w1 & E & Hw1 & new & A1 & A2 & A3).
    rewrite (bind_run _ _ _ _ _ E), E in *. destruct (IH w1 Hw1 Hc) as (w' & E' & Hw' & new' & B1 & B2 & B3).
    exists w'. split; [done |]. split; [done |]. exists (new ++ new').
    rewrite B1, A1, !omap_app, <- A3, <- B3, app_assoc. split; [done |]. split; [| done].
    by rewrite (app_assoc (waiting w)), A2, <- !app_assoc, B2.
Qed.

(** Once the source is dispatched, and as often as the function returns, the
    queue is handed over. *)
Definition calls (c id : Z) (ps : list positive) : list io_event :=
  map (λ p, Returns {| call_context := c; call_source := id; call_data := p |}) ps.
Lemma emit_loop_ends c id w : pending_io_messages w = [] → has_context w c → ∃ w', emit_loop c id w = Done (tt, w') ∧ quiet w w'.
Proof.
  intros Hp Hc. unfold emit_loop. rewrite !bind_get, Hp, bind_put. set (w1 := w <| io_callback_id := 0 |>).
  destruct (source_destroy_ok w1 c id Hc) as (w' & E & Hm & _). exists w'. split; [exact E |]. by destruct (moved_quiet _ _ Hm).
Qed.
Lemma returns_deliver c id f ps p w : io_ok w → io_callback w = Some f → has_context w c →
  running w = [{| call_context := c; call_source := id; call_data := p |}] → pending_io_messages w = p :: ps →
  ∃ w', io_run (calls c id (p :: ps)) w = Done (tt, w') ∧ pending_io_messages w' = [] ∧ running w' = [] ∧
    handed w' = handed w ++ map (Deferred f) (tail (in_queue w)).
Proof.
  revert p w. induction ps as [| p2 ps IH]; intros p w Hw Hf Hc Hr Hp; pose proof (ok_base w Hw) as Hb;
    destruct (returns_run _ _ w Hb Hr Hp) as (Hrun & Hb1 & Hq1); set (k := {| call_context := c; call_source := id; call_data := p |}) in *;
    assert (Hstep : io_step (Returns k) w = emit_loop c id (popped k w)) by
      (cbn; rewrite bool_decide_eq_true_2 by (rewrite Hr; by left); exact Hrun).
  - unfold calls. cbn [map io_run]. fold k. assert (Hp1 : pending_io_messages (popped k w) = []) by (cbn; by rewrite Hp).
    destruct (emit_loop_ends c id (popped k w) Hp1 Hc) as (w' & E & Hqt). rewrite (bind_run _ _ _ _ _ (eq_trans Hstep E)).
    exists w'. split; [done |]. rewrite (qt_pending _ _ Hqt), (qt_running _ _ Hqt), (qt_handed _ _ Hqt), <- Hq1. unfold in_queue.
    rewrite Hp1. cbn. by rewrite app_nil_r.
  - unfold calls. cbn [map io_run]. fold k. assert (Hp1 : pending_io_messages (popped k w) = p2 :: ps) by (cbn; by rewrite Hp).
    pose proof (emit_loop_call c id f p2 ps (popped k w) Hb1 Hf Hp1) as E.
    match type of E with _ = Done (tt, ?x) => set (w1 := x) in E end. rewrite (bind_run _ _ _ _ _ (eq_trans Hstep E)).
    destruct (emit_loop_ok c id (popped k w) Hb1) as (w' & E' & Hw' & _); [done | done | apply (ok_id w Hw) |].
    assert (w' = w1) as -> by congruence.
    destruct (IH p2 w1 Hw') as (w'' & Er & R1 & R2 & R3); [done.. |].
    exists w''. split; [exact Er |]. split; [done |]. split; [done |]. rewrite R3.
    change (in_queue w1) with (in_queue (popped k w)). rewrite <- Hq1.
    change (handed w1) with (handed w ++ [Deferred f (default [] (head (in_queue (popped k w))))]).
    destruct (queue_cons _ _ _ Hb1 Hp1) as (b & _ & _ & Eq). revert Eq. generalize (in_queue (popped k w)).
    intros [| b0 q0] Eq; [done |]. cbn. by rewrite <- app_assoc.
Qed.

(** The queue waits for nothing but the main loop: the source is there, and its
    run hands over everything. *)
Lemma source_delivers f w : io_ok w → io_callback w = Some f → running w = [] → pending_io_messages w ≠ [] →
  is_scheduled w ∧ ∃ w', io_run (Dispatch (ctx w) (io_callback_id w) :: calls (ctx w) (io_callback_id w) (pending_io_messages w)) w = Done (tt, w') ∧
    pending_io_messages w' = [] ∧ handed w' = handed w ++ map (Deferred f) (in_queue w).
Proof.
  intros Hw Hf Hr Hp. pose proof (ok_base w Hw) as Hb.
  assert (Hid : io_callback_id w ≠ 0) by (destruct (ok_scheduled w Hw) as [H | H]; [by rewrite Hf | done | done | done]).
  pose proof (ok_id w Hw Hid) as Hs. split; [done |]. set (c := ctx w) in *. set (id := io_callback_id w) in *.
  destruct (pending_io_messages w) as [| p ps] eqn:Ep; [done |]. destruct Hs as (x & H1 & H2).
  destruct (emit_loop_ok c id w Hb) as (w1 & E1 & Hw1 & _); [done | by exists x | by exists x |].
  pose proof (emit_loop_call c id f p ps w Hb Hf Ep) as E.
  match type of E with _ = Done (tt, ?x) => set (w2 := x) in E end. assert (w1 = w2) as -> by congruence. clear E1.
  assert (Hstep : io_step (Dispatch c id) w = Done (tt, w2)).
  { cbn. replace (can_dispatch w c id) with true.
    - cbn. unfold emit_io_callback_cb. rewrite bind_get, (ok_gone w Hb). exact E.
    - unfold can_dispatch. rewrite Hr. fold c in H1. fold id in H2. rewrite H1. cbn. rewrite H2. by rewrite bool_decide_eq_true_2. }
  cbn [io_run]. rewrite (bind_run _ _ _ _ _ Hstep).
  destruct (returns_deliver c id f ps p w2 Hw1) as (w' & Er & R1 & R2 & R3); [done | by exists x | cbn; by rewrite Hr | done |].
  exists w'. split; [exact Er |]. split; [done |]. rewrite R3. change (in_queue w2) with (in_queue w).
  change (handed w2) with (handed w ++ [Deferred f (default [] (head (in_queue w)))]).
  destruct (queue_cons _ _ _ Hb Ep) as (b & _ & _ & Eq). revert Eq. generalize (in_queue w).
  intros [| b0 q0] Eq; [done |]. cbn. by rewrite <- app_assoc.
Qed.

(** Main contexts before a component is made: there is a default one. *)
Definition contexts_ok (cs : gmap Z GMainContext) : Prop :=
  is_Some (cs !! 0) ∧ ∀ c x, cs !! c = Some x → 1 ≤ next_id x.
Lemma init_ok cs own : contexts_ok cs → io_ok (io_init cs own).
Proof.
  intros [H1 H2]. split; [split | done | by intros []].
  all: unfold has_context; cbn; rewrite ?lookup_insert_is_Some'; try done; try (by left); try (by right).
  - intros c x. rewrite lookup_insert_Some. intros [[_ <-] | [_ H]]; [done | by eapply H2].
  - intros p Hp%elem_of_nil. done.
Qed.

(** C13: In every history ([calm]) in which the component is not removed, nothing
    receives or runs another source of the component while its function runs, a
    function is attached to another context only when nothing is scheduled,
    messages are not empty, and queued messages are received only into messages
    of their size ([recv_ready]), nothing touches freed memory or fails an
    assertion; what entered the queue is what was handed over from it followed
    by what waits, in order; what the thread of the context received was handed
    over at once; and when messages wait for a function that is attached, the
    source of the component is in its context, and once dispatched hands all of
    them over. *)
Theorem messages_handed_over_once cs own es :
  contexts_ok cs → calm es (io_init cs own) →
  ∃ w, io_run es (io_init cs own) = Done (tt, w) ∧
    along entering es (io_init cs own) = omap from_queue (handed w) ++ waiting w ∧
    along direct es (io_init cs own) = omap at_once (handed w) ∧
    ∀ f, io_callback w = Some f → running w = [] → waiting w ≠ [] →
      is_scheduled w ∧ ∃ w', io_run (Dispatch (ctx w) (io_callback_id w) :: calls (ctx w) (io_callback_id w) (pending_io_messages w)) w = Done (tt, w') ∧
        waiting w' = [] ∧ handed w' = handed w ++ map (Deferred f) (waiting w).
Proof.
  intros Hcs Hes. destruct (io_run_ok es _ (init_ok cs own Hcs) Hes) as (w & E & Hw & new & A1 & A2 & A3).
  exists w. split; [done |]. cbn in A1, A2. rewrite A1. split; [done |]. split; [done |]. intros f Hf Hr Hne.
  assert (Hwt : waiting w = in_queue w) by (unfold waiting; by rewrite Hr). rewrite Hwt in *.
  destruct (source_delivers f w Hw Hf Hr) as (Hs & w' & E' & H1 & H2).
  { intros Hp. apply Hne. unfold in_queue. by rewrite Hp. }
  split; [done |]. exists w'. split; [done |]. split; [| by rewrite H2, A1].
  unfold waiting, in_queue. rewrite H1. by destruct (running w').
Qed.

(** What the code makes of the sizes: after every such history, a receive with
    messages in the queue returns
    when every message it takes has the size of the buffers it goes to (over a
    pseudo-TCP socket: when there is at most one, of the size of the first
    message), and otherwise never returns.  When it returns it has filled the
    messages one by one, whole and in order, and taken what it filled in.  The
    documentation has the excess dropped and asks nothing of shorter messages. *)
Lemma pending_recv_returns_iff cs own es w reliable ms :
  contexts_ok cs → calm es (io_init cs own) → io_run es (io_init cs own) = Done (tt, w) →
  can_receive w ms →
  if recv_ready reliable (waiting w) ms
  then ∀ fuel, (length (waiting w) < fuel)%nat → ∃ w',
    recv_begins fuel reliable ms w = Done (negb reliable && bool_decide (length ms ≤ length (waiting w))%nat, w') ∧
    waiting w' = drop (length ms) (waiting w) ∧
    handed w' = handed w ++ map Read (take (length ms) (waiting w)) ∧
    ∃ ms', io_recv_messages w' = Some ms' ∧ filled (waiting w) ms ms'
  else ∀ fuel, recv_begins fuel reliable ms w = Oof.
Proof.
  intros Hcs Hes Hrun Hc. destruct (io_run_ok es _ (init_ok cs own Hcs) Hes) as (w0 & E0 & Hw & _).
  assert (w0 = w) as -> by congruence. clear E0 Hrun.
  assert (Hwt : waiting w = in_queue w) by (unfold waiting; by rewrite (cr_running _ _ Hc)). rewrite Hwt.
  destruct (receive_begins reliable w ms Hw Hc) as (w1 & E & Hw1 & Hq & Hcb & Hre). destruct (quiet_waiting _ _ Hq) as [Hq1 _].
  assert (H := λ fuel, receive_queue fuel reliable w1 ms Hre (cr_some _ _ Hc)).
  pose proof (queue_length _ _ _ (re_data _ _ _ _ _ Hre)) as Hl. rewrite Hq1 in *.
  destruct (recv_ready reliable (in_queue w) ms).
  - intros fuel Hf. rewrite E. destruct (H fuel) as (w' & E' & Hrc); [lia |]. exists w'. split; [done |].
    assert (Hr1 : running w1 = []) by (rewrite (qt_running _ _ Hq); apply Hc).
    destruct (received_queue w1 w' ms Hr1 Hw1) as (Hw' & Hq' & _); [by rewrite Hq1 |].
    split; [unfold waiting; rewrite (sa_running _ _ (rc_same _ _ _ _ _ _ Hrc)), Hr1; by rewrite Hq', Hq1 |].
    split; [by rewrite (rc_handed _ _ _ _ _ _ Hrc), (qt_handed _ _ Hq) |].
    destruct (rc_messages _ _ _ _ _ _ Hrc) as (ms' & E1 & E2). by exists ms'.
  - intros fuel. rewrite E. apply H.
Qed.

(** ** Examples *)

(** A default context, and one of the application with the number 5; the
    component's own context is 1. *)
Definition demo_contexts : gmap Z GMainContext :=
  {[0 := {| next_id := 1; sources := ∅ |}; 5 := {| next_id := 1; sources := ∅ |}]}.
Definition demo_io : IoWorld := io_init demo_contexts 1.
Definition after (es : list io_event) : IoWorld := match io_run es demo_io with Done (_, w) => w | _ => demo_io end.
Definition buffers (n : nat) : NiceInputMessage :=
  {| im_buffers := [{| iv_buffer := replicate n 0; iv_size := Z.of_nat n |}]; im_from := None; im_length := 0 |}.
Definition call (c id : Z) (p : positive) : io_call := {| call_context := c; call_source := id; call_data := p |}.

Lemma demo_contexts_ok : contexts_ok demo_contexts.
Proof.
  split; [by eexists |]. intros c x. unfold demo_contexts. rewrite lookup_insert_Some. intros [[<- <-] | [_ H]]; [done |].
  by apply lookup_singleton_Some in H as [<- <-].
Qed.

Ltac demo_calm := vm_compute; repeat split; try done; try (by eexists); try (by intros; right); by repeat constructor.

(** The application is called, detaches, receives, and attaches again. *)
Definition demo_history : list io_event :=
  [Attach None (Some 9); Emit [1; 2; 3] false; Emit [7] true; Dispatch 0 1; Emit [4; 5] false; Returns (call 0 1 1);
   Attach None None; Returns (call 0 1 2); Attach None (Some 8); Emit [6] false; Attach None None;
   Recv_begins 2 false [buffers 1]; Recv_ends; Attach None (Some 9); Emit [8; 8] false].
Lemma messages_handed_over_once_witness : ∃ w, io_run demo_history demo_io = Done (tt, w) ∧
  omap from_queue (handed w) ++ waiting w = [[1; 2; 3]; [4; 5]; [6]; [8; 8]] ∧ omap at_once (handed w) = [(9, [7])].
Proof.
  destruct (messages_handed_over_once demo_contexts 1 demo_history demo_contexts_ok) as (w & E & H1 & H2 & _).
  - demo_calm.
  - exists w. split; [exact E |]. rewrite <- H1, <- H2. split; vm_compute; reflexivity.
Defined.

(** Two messages into buffers of their sizes; and into a buffer of 1280 octets,
    the least that is passed down. *)
Definition demo_waiting : list io_event := [Attach None (Some 9); Emit [4; 5] false; Emit [6] false].
Lemma pending_recv_returns_iff_witness :
  (∃ w', recv_begins 3 false [buffers 2; buffers 1] (after demo_waiting) = Done (true, w') ∧
     handed w' = [Read [4; 5]; Read [6]]) ∧
  ∀ fuel, recv_begins fuel false [buffers (Z.to_nat 1280)] (after demo_waiting) = Oof.
Proof.
  assert (E : io_run demo_waiting demo_io = Done (tt, after demo_waiting)) by (vm_compute; reflexivity).
  assert (Hes : calm demo_waiting demo_io) by demo_calm.
  assert (H := λ ms, pending_recv_returns_iff demo_contexts 1 demo_waiting _ false ms demo_contexts_ok Hes E). split.
  - specialize (H [buffers 2; buffers 1]). replace (recv_ready _ _ _) with true in H by (vm_compute; reflexivity).
    destruct H with (fuel := 3%nat) as (w' & E' & _ & Hh & _); [demo_calm | vm_compute; lia |].
    exists w'. split; [exact E' |]. rewrite Hh. vm_compute. reflexivity.
  - specialize (H [buffers (Z.to_nat 1280)]). replace (recv_ready _ _ _) with false in H by (vm_compute; reflexivity).
    apply H. split; [reflexivity | reflexivity | done |]. repeat constructor.
Defined.

(** ** Histories on which the code falls short *)

(** A function for the context 5: detaching it removes the source with the id of
    its own from the default context, whosever it is, and leaves its own; when
    the component is freed before that context runs, the source reads it. *)
Definition with_other_source : IoWorld :=
  io_init (<[0 := {| next_id := 2; sources := {[1 := Other_source]} |}]> demo_contexts) 1.
Lemma detach_removes_foreign_source : ∃ w,
  io_run [Attach (Some 5) (Some 9); Emit [1] false; Attach (Some 5) None] with_other_source = Done (tt, w) ∧
  sources <$> contexts w !! 0 = Some ∅ ∧ sources <$> contexts w !! 5 = Some {[1 := Io_callback]}.
Proof. eexists. split; [vm_compute; reflexivity |]. split; vm_compute; reflexivity. Qed.
Lemma source_outlives_component :
  io_run [Attach (Some 5) (Some 9); Emit [1] false; Removed; Dispatch 5 1] demo_io = Ub.
Proof. vm_compute. reflexivity. Qed.

(** What the thread of the context receives overtakes what waits. *)
Lemma direct_overtakes_queue :
  handed (after [Attach None (Some 9); Emit [1] false; Emit [2] true; Dispatch 0 1]) = [Direct 9 [2]; Deferred 9 [1]].
Proof. vm_compute. reflexivity. Qed.

(** Receiving in the function takes the message that it was passed, and frees it
    before the loop does. *)
Lemma receive_in_callback_repeats :
  let es := [Attach None (Some 9); Emit [1; 2] false; Dispatch 0 1; Recv_begins 5 false [buffers 2]; Recv_ends] in
  handed (after es) = [Deferred 9 [1; 2]; Read [1; 2]] ∧ io_run (es ++ [Returns (call 0 1 1)]) demo_io = Ub.
Proof. split; vm_compute; reflexivity. Qed.

(** Detaching and attaching again in the function schedules a second source; a
    main loop that the function runs passes the same message again, and both
    runs free it. *)
Lemma nested_source_repeats :
  let es := [Attach None (Some 9); Emit [1] false; Dispatch 0 1; Attach None None; Attach None (Some 9); Dispatch 0 2] in
  handed (after es) = [Deferred 9 [1]; Deferred 9 [1]] ∧
  io_run (es ++ [Returns (call 0 2 1); Returns (call 0 1 1)]) demo_io = Ub.
Proof. split; vm_compute; reflexivity. Qed.

(** A function attached to another context while a source is scheduled: later
    messages wait for the context that was left. *)
Lemma moved_context_left_without_source :
  let w := after [Attach None (Some 9); Emit [1] false; Attach (Some 5) (Some 9); Emit [2] false] in
  ctx w = 5 ∧ waiting w = [[1]; [2]] ∧ sources <$> contexts w !! 5 = Some ∅ ∧
  sources <$> contexts w !! 0 = Some {[1 := Io_callback]}.
Proof. split_and!; vm_compute; reflexivity. Qed.
